(* ===== verification/_CoqProject ===== *)
-Q . S2P
Prelude.v
HashKit.v
Jenkins.v
DList.v
PtMalloc.v
PtMallocInv.v
PtMallocFree.v
PtMallocAlloc.v
PtMallocSpec.v
PtMallocRealloc.v
PtMallocTheorems.v
MallocBase.v
DtcHash.v
Node.v
Pond.v
NodeLists.v
NodeGroups.v
NodeAlloc.v
NodeOps.v
NodeRun.v
NodeInit.v
PondChains.v
PondInv.v
PondOps.v
PondSpec.v
PondPurge.v
PondInit.v
Transaction.v
CacheSpec.v
TransactionSpec.v
CacheTheorems.v
RawData.v
RawBytes.v
RawRows.v
RawSpec.v
RawOps.v
RawEdit.v
RawHead.v
RawSafe.v
RawTrip.v
RawTheorems.v
Codec.v
CodecSpec.v
HexFloat.v
Sections.v
SectionsSpec.v
TableDef.v
TableDefSpec.v
Fields.v
FieldsSpec.v
FieldSets.v
Request.v
RequestSpec.v
Md5.v
Md5Spec.v
TablePack.v
TablePackSpec.v
Results.v
ResultsSpec.v
RequestSafe.v
Packet.v
PacketSafe.v
PacketSpec.v
PackedKey.v
PackedKeySpec.v
KeyTheorems.v
TTree.v
TTreeShape.v
TTreeOrder.v
TTreeInsert.v
TTreeDelete.v
TTreeWalk.v
TTreeSpec.v
TreeKeys.v
TreeKeysSpec.v
TreeTheorems.v
RowProcess.v
RowProcessSpec.v
WireTheorems.v
ProcessTheorems.v
