(* ===== verification/Prelude.v ===== *)
(** * DTC: the shared-memory cache, the wire protocol and the key hashes

    DTC is a table cache in front of a database.  The agent routes a key to a
    cache server by a hash of it; clients and servers exchange packets of
    sections; the server, dtcd, decodes a packet into a job and keeps rows in
    one shared-memory segment.  dtcd carves the segment with its own allocator,
    groups cache nodes in fixed-size node sets, finds the node of a key through
    a bucket table of node chains, and evicts through LRU lists of nodes.  This
    library models those parts and proves what each promises to the next.

    ** Files

    - [Prelude]: machine integers as [Z] with explicit wrap-around, byte words,
      the tactics and hint databases used everywhere.
    - [HashKit], [Jenkins]: the hash functions of src/src/agent/hashkit
      (one_at_a_time, FNV, CRC16, CRC32, Hsieh, Murmur; chash and Jenkins).
    - [DList]: rings of doubly linked cells, shared by the allocator bins and
      the node lists.
    - [PtMalloc]: src/src/core/mem/pt_malloc.cc.  The segment is a map from
      offsets to values plus the head record: a word of the allocator (a size, a
      link) is one value at its first offset, the bytes of a user are one value
      each.  Every routine takes and returns the whole allocator state.
      [PtMallocInv], [PtMallocFree], [PtMallocAlloc], [PtMallocSpec],
      [PtMallocRealloc] hold the invariant and the lemmas of each operation,
      [PtMallocTheorems] the theorems.
    - [MallocBase]: the interface src/src/core/mem/mallocator.h as a class of
      operations and a class of laws, with PtMalloc as the instance; the cache
      is written against it.
    - [DtcHash]: the two bucket functions and the key comparison of
      src/src/core/algorithm/hash.h, src/src/libs/common/algorithm/new_hash.cc
      and buffer_pond.cc.
    - [Node]: src/src/core/node and src/src/core/nodegroup (node sets, the
      two-level index, LRU lists, group lists, node allocation and release).
      [NodeLists] and [NodeGroups] hold the list lemmas and the
      invariant of the groups, [NodeAlloc], [NodeOps] and [NodeRun] what each
      operation does under it, [NodeInit] that formatting establishes it.
    - [Pond]: src/src/core/buffer/buffer_pond.cc (find, allocate, purge,
      eviction, empty nodes, time markers, formatting).  [PondChains] and
      [PondInv] describe the bucket chains and the invariant of the whole
      table, [PondOps], [PondSpec] and [PondPurge] the effect of
      the operations, [PondInit] the formatted segment.
    - [Transaction]: the cache transactions and the LRU upkeep of
      src/src/core/chain/buffer_process_ask_chain.cc.
    - [CacheSpec]: the abstract cache, three lists of keyed rows, and the
      simulation of it by the pond.  Its [insert_row] is a client of the pond,
      not a function of the source: cache_allocation, Malloc and the setting of
      the node's handle, as the row code composes them; [TransactionSpec] the same
      for requests; [CacheTheorems] the theorems of the cache.
    - [RawData]: src/src/core/raw/raw_data.cc and raw_data.h, the rows of a
      key in one block of memory, over the class of [MallocBase].  [RawBytes]
      relates a program to the bytes of its block, [RawRows] and [RawSpec] the
      encoding of fields, rows and blocks, [RawOps], [RawEdit]
      and [RawHead] the operations, [RawSafe] reading of arbitrary bytes,
      [RawTrip] reading back; [RawTheorems] holds the theorems.
    - [Codec], [Sections]: values and simple sections on the wire,
      src/src/libs/common/encode.cc, decode/decode.cc, value.h and section.h,
      with their lemmas in [CodecSpec] and [SectionsSpec].  Floats go through
      printf and scanf of the C library: a class [Text] with laws [TextLaws],
      of which [HexFloat] is a concrete instance.
    - [TableDef], [TablePack]: src/src/libs/common/table/table_def.cc, the
      fields of a table, their lookup by name, packing and unpacking;
      [TableDefSpec] and [TablePackSpec] hold the lemmas.
    - [Fields], [FieldSets]: src/src/libs/common/field, updates and comparisons
      of field values, sets of fields and of values by number and by name;
      lemmas in [FieldsSpec].
    - [Request]: the decoding of field values, field sets and result sets by
      src/src/libs/common/task/task_base.cc into a job; [RequestSpec] on what a
      client sends, [RequestSafe] on arbitrary bytes.
    - [Results]: the answer of the server, result.h and packet_result.cc;
      [ResultsSpec] has the rows the client gets back.
    - [Packet]: headers, the checks on tables and sections, whole packets and
      the reading of a packet from a socket, task_base.cc and receiver.h;
      [PacketSafe] and [PacketSpec] hold the lemmas.
    - [Md5]: src/src/libs/common/algorithm/md5.cc; [Md5Spec] is RFC 1321.
    - [PackedKey]: the packed keys of src/src/libs/common/task/task_pkey.h and
      task_pkey.cc, and the keys of a job, DTCJobOperation::build_packed_key to
      prepare_process of task_request.cc; [PackedKeySpec] holds the lemmas,
      [KeyTheorems] the theorems.
    - [TTree]: src/src/core/tree/t_tree.h and t_tree.cc, the T-tree of an
      indexed table.  [TTreeShape] relates the nodes to a tree of lists and has
      the rotations, [TTreeOrder] the order of the records, [TTreeInsert],
      [TTreeDelete] and [TTreeWalk] the operations on nodes,
      [TTreeSpec] those of the class and sequences of them.
    - [TreeKeys]: the callbacks KeyCompare, convert_cvalue and Visit of
      t_tree.cc; [TreeKeysSpec] has the orders they give and puts them and the
      tree together, [TreeTheorems] holds the theorems.
    - [WireTheorems]: the theorems of the wire protocol.
    - [RowProcess]: src/src/core/raw/raw_data_process.h and raw_data_process.cc,
      a job carried out on the rows of a node: get, delete, append, replace,
      update, flush and purge, over [RawData] and the job of [PackedKey].
      Making room in the pond is the class [Purge], an interface: the rows are
      modelled over any allocator, the pond's try_purge_size is in [Pond] over
      the whole cache.  [RowProcessSpec] has its
      laws [PurgeLaws] and the lemmas, [ProcessTheorems] the theorems.

    ** How state and effects appear

    A stateful routine is a function from the state of its component to a
    result and the next state.  The allocator state is the segment; the cache
    state [Cache] is the allocator, the node index, the node groups and the
    pond, with the mapped structures as finite maps from addresses to records;
    the state of a [RawData] object is the allocator and the members of the
    object.  The state of a job on a node adds the node's handle, the job, the
    answer and the counters ([Process]).  [option] is undefined behaviour (an
    access outside of what is allocated, a null dereference) or lack of fuel; the
    labels [ERROR_RET] of the row code are the constructor [Error] of [out].  A
    decoder of the wire protocol is a function of the bytes that are left and the
    object it fills; its answer is [Ok] with a value, or [Fail] with the error
    code.  The job of a request is one record, and a socket a list of events:
    bytes that arrive, an error, or the end.  The nodes of a T-tree are records at
    the handles of blocks of the allocator, beside the bytes of the segment: the
    tree is the only user of those blocks.

    ** What the theorems show

    The allocator theorems refine Malloc, Calloc, Free and ReAlloc to a heap of
    disjoint blocks: they keep the bytes of all other blocks, exactly account
    for the memory in use, and hold over every sequence of operations.  The
    cache theorems, proved against the allocator interface, show that lookups,
    insertions, purges, evictions and transactions are those of an abstract
    LRU cache of keyed rows, over every sequence of requests from a formatted
    segment.  The row theorems show that a block holds the list of rows put
    into it, that any reader gets them back, that edits change only the row
    they say, and that a reader stays inside the block for any bytes.  The
    wire theorems show that a request for another table is refused and that
    values, sections, conditions and rows are decoded as they were sent; that a
    server decodes any bytes without reading outside of them, under the conditions
    the code does not check itself; that reading a packet in parts makes no
    difference; and where the code has no defined result.  The key theorems show
    that packed keys are equal exactly when the components are, and that a job
    with all components builds the key.  The process
    theorems show what each kind of request does to the list of rows of a node:
    which rows the client is sent, which rows are changed, removed or added,
    what the job and the counters report, and that with too little memory rows
    are either changed as a whole or left as they were.  The tree
    theorems show that a T-tree under KeyCompare is an ordered dictionary over
    every sequence of operations, for strings, binaries and integers within
    2^31 of each other; that it stays balanced, that range queries give the
    records in the range in order, and that destruction frees exactly the tree.
    The hash theorems equate the table-driven CRC loops with the bitwise
    definitions and show that the Jenkins functions read only the key.

    ** Bounds and fuel

    Loops over bins and chunks are given fuel from the size of what they walk;
    the theorems show that it is enough, so results are total.  Walks over node
    chains and lists in [Pond] are bounded by [node_fuel], one more than the
    number of nodes in the groups that exist.  Recursion in a T-tree has fuel for
    twice as many calls as there are nodes, which the insertion of a displaced
    item needs; the height is shown to be logarithmic.  The loops over the rows of
    a node run once for each row counted in its block.  Reading through an
    invalid pointer is [None] in the cache model, never a made-up value.

    ** Not modelled

    Threads, clocks, configuration, the event-driven request chains, the trees
    of rows built on the T-tree, version 2 of the protocol, batches of keys, and
    the vendored libraries.  Of the requests on rows, the replacement of all rows
    and the expansion of a node to a new table are left out, and the theorems
    are about nodes stored under the table of the job; the pond's
    try_purge_size is assumed to keep the node it works for.  Destroying a chunk
    that holds a tree has no result in the model of [Pond], so nothing is
    claimed about it. *)

From Stdlib Require Import ZArith Lia List Bool.
From Stdlib Require Export Strings.Byte.
From stdpp Require Export base tactics numbers option list gmap.

#[global] Open Scope Z_scope.

(** ** Machine integers

    A [w]-bit unsigned integer is a [Z] in [[0, 2^w)]; the operations of C on
    it are the operations of [Z] followed by [wrap w]. *)

Definition wrap (w x : Z) : Z := x mod 2 ^ w.

Abbreviation w8 := (wrap 8).
Abbreviation w16 := (wrap 16).
Abbreviation w32 := (wrap 32).
Abbreviation w64 := (wrap 64).

Definition in_width (w x : Z) : Prop := 0 <= x < 2 ^ w.

(** Value of a two's complement [w]-bit pattern. *)
Definition sext (w x : Z) : Z := if x <? 2 ^ (w - 1) then x else x - 2 ^ w.

(** Operators of [uint32_t]. *)
Declare Scope u32_scope.
Delimit Scope u32_scope with u32.
Notation "a +% b" := (wrap 32 (Z.add a b)) (at level 50, left associativity) : u32_scope.
Notation "a -% b" := (wrap 32 (Z.sub a b)) (at level 50, left associativity) : u32_scope.
Notation "a *% b" := (wrap 32 (Z.mul a b)) (at level 40, left associativity) : u32_scope.
Notation "a << k" := (wrap 32 (Z.shiftl a k)) (at level 35, no associativity) : u32_scope.
Notation "a >> k" := (Z.shiftr a k) (at level 35, no associativity) : u32_scope.
Notation "a ^^ b" := (Z.lxor a b) (at level 52, left associativity) : u32_scope.
#[global] Open Scope u32_scope.

(** [~x] on a 32-bit operand. *)
Definition not32 (x : Z) : Z := 4294967295 - x.

(** ** Bytes *)

Definition u8 (b : byte) : Z := Z.of_N (Byte.to_N b).

(** [char] is signed on the platforms the program is built for. *)
Definition s8 (b : byte) : Z := sext 8 (u8 b).

Definition byte_of (x : Z) : byte := default x00 (Byte.of_N (Z.to_N (wrap 8 x))).

(** Little-endian 16- and 32-bit loads from four consecutive bytes. *)
Definition le16 (b0 b1 : byte) : Z := u8 b0 + 256 * u8 b1.
Definition le32 (b0 b1 b2 b3 : byte) : Z :=
  u8 b0 + 256 * u8 b1 + 65536 * u8 b2 + 16777216 * u8 b3.

(** ** Lemmas on wrap-around *)

Lemma wrap_range w x : 0 <= w -> in_width w (wrap w x).
Proof. intros. unfold in_width, wrap. apply Z.mod_pos_bound. lia. Qed.

Lemma wrap_small w x : in_width w x -> wrap w x = x.
Proof. apply Z.mod_small. Qed.

Lemma wrap_wrap w x : wrap w (wrap w x) = wrap w x.
Proof. unfold wrap. apply Zmod_mod. Qed.

Lemma wrap_add_l w a b : wrap w (wrap w a + b) = wrap w (a + b).
Proof. unfold wrap. apply Zplus_mod_idemp_l. Qed.

Lemma wrap_add_r w a b : wrap w (a + wrap w b) = wrap w (a + b).
Proof. unfold wrap. apply Zplus_mod_idemp_r. Qed.

Lemma wrap_sub_l w a b : wrap w (wrap w a - b) = wrap w (a - b).
Proof. unfold wrap. apply Zminus_mod_idemp_l. Qed.

Lemma wrap_sub_r w a b : wrap w (a - wrap w b) = wrap w (a - b).
Proof. unfold wrap. apply Zminus_mod_idemp_r. Qed.

Lemma wrap_mul_l w a b : wrap w (wrap w a * b) = wrap w (a * b).
Proof. unfold wrap. apply Zmult_mod_idemp_l. Qed.

Lemma wrap_mul_r w a b : wrap w (a * wrap w b) = wrap w (a * b).
Proof. unfold wrap. apply Zmult_mod_idemp_r. Qed.

Lemma wrap_add_ll w a b c : wrap w (wrap w a + b + c) = wrap w (a + b + c).
Proof. by rewrite <- !Z.add_assoc, wrap_add_l. Qed.

Create Rewrite HintDb wraps.
#[export] Hint Rewrite wrap_wrap wrap_add_l wrap_add_r wrap_sub_l wrap_sub_r
  wrap_mul_l wrap_mul_r wrap_add_ll : wraps.

Lemma wrap_land w x : 0 <= w -> wrap w x = Z.land x (Z.ones w).
Proof. intros. unfold wrap. by rewrite Z.land_ones. Qed.

Lemma testbit_wrap w x i : 0 <= w -> 0 <= i ->
  Z.testbit (wrap w x) i = (i <? w) && Z.testbit x i.
Proof.
  intros. unfold wrap. destruct (Z.ltb_spec i w); simpl.
  - apply Z.mod_pow2_bits_low; lia.
  - apply Z.mod_pow2_bits_high; lia.
Qed.

(** An integer is in width [w] exactly when it has no bit at [w] or above. *)
Lemma in_width_bits w x : 0 <= w ->
  in_width w x <-> 0 <= x /\ forall i, w <= i -> Z.testbit x i = false.
Proof.
  intros Hw. split.
  - intros H. split; [unfold in_width in H; lia|]. intros i Hi.
    rewrite <- (wrap_small w x) by done. rewrite testbit_wrap by lia.
    destruct (Z.ltb_spec i w); [lia|done].
  - intros [H0 Hb].
    enough (wrap w x = x) as <- by (apply wrap_range; lia).
    apply Z.bits_inj'. intros i Hi. rewrite testbit_wrap by lia.
    destruct (Z.ltb_spec i w); simpl; [done|]. symmetry. apply Hb. lia.
Qed.

Lemma lxor_in_width w a b : 0 <= w -> in_width w a -> in_width w b -> in_width w (Z.lxor a b).
Proof.
  intros Hw. rewrite !in_width_bits by done. intros [Ha Ha'] [Hb Hb'].
  split; [apply Z.lxor_nonneg; lia|]. intros i Hi.
  rewrite Z.lxor_spec, Ha', Hb' by done. done.
Qed.

Lemma lor_in_width w a b : 0 <= w -> in_width w a -> in_width w b -> in_width w (Z.lor a b).
Proof.
  intros Hw. rewrite !in_width_bits by done. intros [Ha Ha'] [Hb Hb'].
  split; [apply Z.lor_nonneg; lia|]. intros i Hi.
  rewrite Z.lor_spec, Ha', Hb' by done. done.
Qed.

Lemma land_in_width w a b : 0 <= w -> in_width w a -> in_width w (Z.land a b).
Proof.
  intros Hw. rewrite !in_width_bits by done. intros [Ha Ha'].
  split; [apply Z.land_nonneg; lia|]. intros i Hi.
  rewrite Z.land_spec, Ha' by done. done.
Qed.

Lemma shiftr_in_width w a k : 0 <= w -> 0 <= k -> in_width w a -> in_width w (Z.shiftr a k).
Proof.
  intros Hw Hk. rewrite !in_width_bits by done. intros [Ha Ha'].
  split; [apply Z.shiftr_nonneg; lia|]. intros i Hi.
  rewrite Z.shiftr_spec by lia. apply Ha'. lia.
Qed.

Lemma in_width_mono v w x : 0 <= v <= w -> in_width v x -> in_width w x.
Proof.
  intros Hvw [H1 H2]. split; [lia|].
  eapply Z.lt_le_trans; [done|]. apply Z.pow_le_mono_r; lia.
Qed.

Create HintDb widths.
#[export] Hint Resolve wrap_range lxor_in_width lor_in_width land_in_width
  shiftr_in_width : widths.
#[export] Hint Extern 1 (_ <= _) => lia : widths.

(** ** Lemmas on bytes *)

Lemma u8_range b : 0 <= u8 b < 256.
Proof.
  unfold u8. pose proof (Byte.to_N_bounded b). lia.
Qed.

Lemma u8_in_width b : in_width 8 (u8 b).
Proof. apply u8_range. Qed.
#[export] Hint Resolve u8_in_width : widths.

Lemma u8_byte_of x : u8 (byte_of x) = wrap 8 x.
Proof.
  unfold u8, byte_of. pose proof (wrap_range 8 x ltac:(lia)) as H. unfold in_width in H.
  destruct (Byte.of_N (Z.to_N (wrap 8 x))) as [b|] eqn:E; simpl.
  - apply Byte.to_of_N in E. rewrite E. lia.
  - apply Byte.of_N_None_iff in E. lia.
Qed.

Lemma byte_of_u8 b : byte_of (u8 b) = b.
Proof.
  unfold byte_of. rewrite wrap_small by apply u8_in_width.
  unfold u8. rewrite N2Z.id. by rewrite Byte.of_to_N.
Qed.

Lemma u8_inj b c : u8 b = u8 c -> b = c.
Proof. intros H. by rewrite <- (byte_of_u8 b), H, byte_of_u8. Qed.

#[export] Instance byte_eq_dec : EqDecision byte := Byte.byte_eq_dec.

Lemma s8_u8 b : wrap 8 (s8 b) = u8 b.
Proof.
  unfold s8, sext. pose proof (u8_range b). unfold wrap.
  case_match; [apply Z.mod_small; lia|].
  change (2 ^ 8) with 256. symmetry. apply Zmod_unique with (-1); lia.
Qed.

(** ** Folds over the bytes of a buffer *)

Lemma fold_left_cons {A B} (f : A -> B -> A) b l a :
  fold_left f (b :: l) a = fold_left f l (f a b).
Proof. reflexivity. Qed.

Lemma fold_left_ext {A B} (f g : A -> B -> A) l a :
  (forall a b, f a b = g a b) -> fold_left f l a = fold_left g l a.
Proof.
  intros H. revert a. induction l as [|b l IH]; intros a; [done|].
  by rewrite !fold_left_cons, H, IH.
Qed.

Lemma fold_left_inv {A B} (P : A -> Prop) (f : A -> B -> A) l a :
  (forall a b, P a -> P (f a b)) -> P a -> P (fold_left f l a).
Proof.
  intros Hf. revert a. induction l as [|b l IH]; intros a Ha; [done|].
  rewrite fold_left_cons. by apply IH, Hf.
Qed.

(** ** Tactics *)

(** Split every conjunction of the context and close by the obvious means. *)
Ltac split_conj := repeat match goal with H : _ /\ _ |- _ => destruct H | H : exists _, _ |- _ => destruct H end.

(** Case analysis on the boolean comparisons of [Z] a definition branches on. *)
Ltac zcase :=
  repeat match goal with
  | |- context [?a <? ?b] => destruct (Z.ltb_spec a b)
  | |- context [?a <=? ?b] => destruct (Z.leb_spec a b)
  | |- context [?a =? ?b] => destruct (Z.eqb_spec a b)
  end.

(** Linear arithmetic with quotients and remainders by constants. *)
Ltac zdm := Z.to_euclidean_division_equations; lia.
