(* ===== verification/HashKit.v ===== *)
(** * Key hashes of the agent (src/agent/hashkit)

    One definition per hash function of [da_hashkit.h], over the bytes of the
    key; [char] reads are signed ([s8]), [uint8_t] reads unsigned ([u8]), and
    every [uint32_t] operation wraps at 32 bits.  [hash_md5], [hash_jenkins]
    and the continuum have files of their own. *)

From S2P Require Import Prelude.

(** ** da_one_at_a_time.c *)

Module OneAtATime.

Definition step (value : Z) (c : byte) : Z :=
  let val := wrap 32 (s8 c) in
  let value := value +% val in
  let value := value +% (value << 10) in
  value ^^ (value >> 6).

Definition hash_one_at_a_time (key : list byte) : Z :=
  let value := fold_left step key 0 in
  let value := value +% (value << 3) in
  let value := value ^^ (value >> 11) in
  value +% (value << 15).

End OneAtATime.

(** ** da_fnv.c *)

Module Fnv.

Definition FNV_64_INIT : Z := 0xcbf29ce484222325.
Definition FNV_64_PRIME : Z := 0x100000001b3.
Definition FNV_32_INIT : Z := 2166136261.
Definition FNV_32_PRIME : Z := 16777619.

Definition hash_fnv1_64 (key : list byte) : Z :=
  wrap 32 (fold_left
    (fun hash c => Z.lxor (wrap 64 (Z.mul hash FNV_64_PRIME)) (wrap 64 (s8 c)))
    key FNV_64_INIT).

(** The 64-bit constants are truncated to 32 bits, as in the source. *)
Definition fnv1a_64_step (hash : Z) (c : byte) : Z :=
  (hash ^^ wrap 32 (s8 c)) *% wrap 32 FNV_64_PRIME.

Definition hash_fnv1a_64 (key : list byte) : Z :=
  fold_left fnv1a_64_step key (wrap 32 FNV_64_INIT).

Definition fnv1_32_step (hash : Z) (c : byte) : Z :=
  (hash *% FNV_32_PRIME) ^^ wrap 32 (s8 c).

Definition hash_fnv1_32 (key : list byte) : Z :=
  fold_left fnv1_32_step key FNV_32_INIT.

Definition fnv1a_32_step (hash : Z) (c : byte) : Z :=
  (hash ^^ wrap 32 (s8 c)) *% FNV_32_PRIME.

Definition hash_fnv1a_32 (key : list byte) : Z :=
  fold_left fnv1a_32_step key FNV_32_INIT.

End Fnv.

(** ** da_crc16.c and da_crc32.c *)

Module Crc.

Definition crc16tab : list Z :=
  [   0x0000; 0x1021; 0x2042; 0x3063; 0x4084; 0x50a5; 0x60c6; 0x70e7;
   0x8108; 0x9129; 0xa14a; 0xb16b; 0xc18c; 0xd1ad; 0xe1ce; 0xf1ef;
   0x1231; 0x0210; 0x3273; 0x2252; 0x52b5; 0x4294; 0x72f7; 0x62d6;
   0x9339; 0x8318; 0xb37b; 0xa35a; 0xd3bd; 0xc39c; 0xf3ff; 0xe3de;
   0x2462; 0x3443; 0x0420; 0x1401; 0x64e6; 0x74c7; 0x44a4; 0x5485;
   0xa56a; 0xb54b; 0x8528; 0x9509; 0xe5ee; 0xf5cf; 0xc5ac; 0xd58d;
   0x3653; 0x2672; 0x1611; 0x0630; 0x76d7; 0x66f6; 0x5695; 0x46b4;
   0xb75b; 0xa77a; 0x9719; 0x8738; 0xf7df; 0xe7fe; 0xd79d; 0xc7bc;
   0x48c4; 0x58e5; 0x6886; 0x78a7; 0x0840; 0x1861; 0x2802; 0x3823;
   0xc9cc; 0xd9ed; 0xe98e; 0xf9af; 0x8948; 0x9969; 0xa90a; 0xb92b;
   0x5af5; 0x4ad4; 0x7ab7; 0x6a96; 0x1a71; 0x0a50; 0x3a33; 0x2a12;
   0xdbfd; 0xcbdc; 0xfbbf; 0xeb9e; 0x9b79; 0x8b58; 0xbb3b; 0xab1a;
   0x6ca6; 0x7c87; 0x4ce4; 0x5cc5; 0x2c22; 0x3c03; 0x0c60; 0x1c41;
   0xedae; 0xfd8f; 0xcdec; 0xddcd; 0xad2a; 0xbd0b; 0x8d68; 0x9d49;
   0x7e97; 0x6eb6; 0x5ed5; 0x4ef4; 0x3e13; 0x2e32; 0x1e51; 0x0e70;
   0xff9f; 0xefbe; 0xdfdd; 0xcffc; 0xbf1b; 0xaf3a; 0x9f59; 0x8f78;
   0x9188; 0x81a9; 0xb1ca; 0xa1eb; 0xd10c; 0xc12d; 0xf14e; 0xe16f;
   0x1080; 0x00a1; 0x30c2; 0x20e3; 0x5004; 0x4025; 0x7046; 0x6067;
   0x83b9; 0x9398; 0xa3fb; 0xb3da; 0xc33d; 0xd31c; 0xe37f; 0xf35e;
   0x02b1; 0x1290; 0x22f3; 0x32d2; 0x4235; 0x5214; 0x6277; 0x7256;
   0xb5ea; 0xa5cb; 0x95a8; 0x8589; 0xf56e; 0xe54f; 0xd52c; 0xc50d;
   0x34e2; 0x24c3; 0x14a0; 0x0481; 0x7466; 0x6447; 0x5424; 0x4405;
   0xa7db; 0xb7fa; 0x8799; 0x97b8; 0xe75f; 0xf77e; 0xc71d; 0xd73c;
   0x26d3; 0x36f2; 0x0691; 0x16b0; 0x6657; 0x7676; 0x4615; 0x5634;
   0xd94c; 0xc96d; 0xf90e; 0xe92f; 0x99c8; 0x89e9; 0xb98a; 0xa9ab;
   0x5844; 0x4865; 0x7806; 0x6827; 0x18c0; 0x08e1; 0x3882; 0x28a3;
   0xcb7d; 0xdb5c; 0xeb3f; 0xfb1e; 0x8bf9; 0x9bd8; 0xabbb; 0xbb9a;
   0x4a75; 0x5a54; 0x6a37; 0x7a16; 0x0af1; 0x1ad0; 0x2ab3; 0x3a92;
   0xfd2e; 0xed0f; 0xdd6c; 0xcd4d; 0xbdaa; 0xad8b; 0x9de8; 0x8dc9;
   0x7c26; 0x6c07; 0x5c64; 0x4c45; 0x3ca2; 0x2c83; 0x1ce0; 0x0cc1;
   0xef1f; 0xff3e; 0xcf5d; 0xdf7c; 0xaf9b; 0xbfba; 0x8fd9; 0x9ff8;
   0x6e17; 0x7e36; 0x4e55; 0x5e74; 0x2e93; 0x3eb2; 0x0ed1; 0x1ef0].

Definition crc32tab : list Z :=
  [   0x00000000; 0x77073096; 0xee0e612c; 0x990951ba; 0x076dc419; 0x706af48f; 0xe963a535; 0x9e6495a3;
   0x0edb8832; 0x79dcb8a4; 0xe0d5e91e; 0x97d2d988; 0x09b64c2b; 0x7eb17cbd; 0xe7b82d07; 0x90bf1d91;
   0x1db71064; 0x6ab020f2; 0xf3b97148; 0x84be41de; 0x1adad47d; 0x6ddde4eb; 0xf4d4b551; 0x83d385c7;
   0x136c9856; 0x646ba8c0; 0xfd62f97a; 0x8a65c9ec; 0x14015c4f; 0x63066cd9; 0xfa0f3d63; 0x8d080df5;
   0x3b6e20c8; 0x4c69105e; 0xd56041e4; 0xa2677172; 0x3c03e4d1; 0x4b04d447; 0xd20d85fd; 0xa50ab56b;
   0x35b5a8fa; 0x42b2986c; 0xdbbbc9d6; 0xacbcf940; 0x32d86ce3; 0x45df5c75; 0xdcd60dcf; 0xabd13d59;
   0x26d930ac; 0x51de003a; 0xc8d75180; 0xbfd06116; 0x21b4f4b5; 0x56b3c423; 0xcfba9599; 0xb8bda50f;
   0x2802b89e; 0x5f058808; 0xc60cd9b2; 0xb10be924; 0x2f6f7c87; 0x58684c11; 0xc1611dab; 0xb6662d3d;
   0x76dc4190; 0x01db7106; 0x98d220bc; 0xefd5102a; 0x71b18589; 0x06b6b51f; 0x9fbfe4a5; 0xe8b8d433;
   0x7807c9a2; 0x0f00f934; 0x9609a88e; 0xe10e9818; 0x7f6a0dbb; 0x086d3d2d; 0x91646c97; 0xe6635c01;
   0x6b6b51f4; 0x1c6c6162; 0x856530d8; 0xf262004e; 0x6c0695ed; 0x1b01a57b; 0x8208f4c1; 0xf50fc457;
   0x65b0d9c6; 0x12b7e950; 0x8bbeb8ea; 0xfcb9887c; 0x62dd1ddf; 0x15da2d49; 0x8cd37cf3; 0xfbd44c65;
   0x4db26158; 0x3ab551ce; 0xa3bc0074; 0xd4bb30e2; 0x4adfa541; 0x3dd895d7; 0xa4d1c46d; 0xd3d6f4fb;
   0x4369e96a; 0x346ed9fc; 0xad678846; 0xda60b8d0; 0x44042d73; 0x33031de5; 0xaa0a4c5f; 0xdd0d7cc9;
   0x5005713c; 0x270241aa; 0xbe0b1010; 0xc90c2086; 0x5768b525; 0x206f85b3; 0xb966d409; 0xce61e49f;
   0x5edef90e; 0x29d9c998; 0xb0d09822; 0xc7d7a8b4; 0x59b33d17; 0x2eb40d81; 0xb7bd5c3b; 0xc0ba6cad;
   0xedb88320; 0x9abfb3b6; 0x03b6e20c; 0x74b1d29a; 0xead54739; 0x9dd277af; 0x04db2615; 0x73dc1683;
   0xe3630b12; 0x94643b84; 0x0d6d6a3e; 0x7a6a5aa8; 0xe40ecf0b; 0x9309ff9d; 0x0a00ae27; 0x7d079eb1;
   0xf00f9344; 0x8708a3d2; 0x1e01f268; 0x6906c2fe; 0xf762575d; 0x806567cb; 0x196c3671; 0x6e6b06e7;
   0xfed41b76; 0x89d32be0; 0x10da7a5a; 0x67dd4acc; 0xf9b9df6f; 0x8ebeeff9; 0x17b7be43; 0x60b08ed5;
   0xd6d6a3e8; 0xa1d1937e; 0x38d8c2c4; 0x4fdff252; 0xd1bb67f1; 0xa6bc5767; 0x3fb506dd; 0x48b2364b;
   0xd80d2bda; 0xaf0a1b4c; 0x36034af6; 0x41047a60; 0xdf60efc3; 0xa867df55; 0x316e8eef; 0x4669be79;
   0xcb61b38c; 0xbc66831a; 0x256fd2a0; 0x5268e236; 0xcc0c7795; 0xbb0b4703; 0x220216b9; 0x5505262f;
   0xc5ba3bbe; 0xb2bd0b28; 0x2bb45a92; 0x5cb36a04; 0xc2d7ffa7; 0xb5d0cf31; 0x2cd99e8b; 0x5bdeae1d;
   0x9b64c2b0; 0xec63f226; 0x756aa39c; 0x026d930a; 0x9c0906a9; 0xeb0e363f; 0x72076785; 0x05005713;
   0x95bf4a82; 0xe2b87a14; 0x7bb12bae; 0x0cb61b38; 0x92d28e9b; 0xe5d5be0d; 0x7cdcefb7; 0x0bdbdf21;
   0x86d3d2d4; 0xf1d4e242; 0x68ddb3f8; 0x1fda836e; 0x81be16cd; 0xf6b9265b; 0x6fb077e1; 0x18b74777;
   0x88085ae6; 0xff0f6a70; 0x66063bca; 0x11010b5c; 0x8f659eff; 0xf862ae69; 0x616bffd3; 0x166ccf45;
   0xa00ae278; 0xd70dd2ee; 0x4e048354; 0x3903b3c2; 0xa7672661; 0xd06016f7; 0x4969474d; 0x3e6e77db;
   0xaed16a4a; 0xd9d65adc; 0x40df0b66; 0x37d83bf0; 0xa9bcae53; 0xdebb9ec5; 0x47b2cf7f; 0x30b5ffe9;
   0xbdbdf21c; 0xcabac28a; 0x53b39330; 0x24b4a3a6; 0xbad03605; 0xcdd70693; 0x54de5729; 0x23d967bf;
   0xb3667a2e; 0xc4614ab8; 0x5d681b02; 0x2a6f2b94; 0xb40bbe37; 0xc30c8ea1; 0x5a05df1b; 0x2d02ef8d].

Definition tab (t : list Z) (i : Z) : Z := nth (Z.to_nat i) t 0.

(** [crc] is a [uint32_t]: the shift keeps the bits above 16. *)
Definition crc16_step (crc : Z) (c : byte) : Z :=
  (crc << 8) ^^ tab crc16tab (Z.land ((crc >> 8) ^^ s8 c) 0x00ff).

Definition hash_crc16 (key : list byte) : Z := fold_left crc16_step key 0.

Definition crc32_step (crc : Z) (c : byte) : Z :=
  (crc >> 8) ^^ tab crc32tab (Z.land (crc ^^ wrap 64 (s8 c)) 0xff).

Definition hash_crc32 (key : list byte) : Z :=
  let crc := fold_left crc32_step key 0xffffffff in
  Z.land (not32 crc >> 16) 0x7fff.

Definition crc32a_step (crc : Z) (c : byte) : Z :=
  tab crc32tab (Z.land (crc ^^ u8 c) 0xff) ^^ (crc >> 8).

Definition hash_crc32a (key : list byte) : Z :=
  let crc := fold_left crc32a_step key 0xffffffff in
  crc ^^ 0xffffffff.

End Crc.

(** ** da_hsieh.c *)

Module Hsieh.

Definition get16bits (b0 b1 : byte) : Z := (u8 b1 << 8) +% u8 b0.

Fixpoint main_loop (key : list byte) (hash : Z) : Z * list byte :=
  match key with
  | k0 :: k1 :: k2 :: k3 :: key' =>
      let hash := hash +% get16bits k0 k1 in
      let tmp := (get16bits k2 k3 << 11) ^^ hash in
      let hash := (hash << 16) ^^ tmp in
      let hash := hash +% (hash >> 11) in
      main_loop key' hash
  | _ => (hash, key)
  end.

Definition end_cases (key : list byte) (hash : Z) : Z :=
  match key with
  | [k0; k1; k2] =>
      let hash := hash +% get16bits k0 k1 in
      let hash := hash ^^ (hash << 16) in
      let hash := hash ^^ (wrap 32 (s8 k2) << 18) in
      hash +% (hash >> 11)
  | [k0; k1] =>
      let hash := hash +% get16bits k0 k1 in
      let hash := hash ^^ (hash << 11) in
      hash +% (hash >> 17)
  | [k0] =>
      let hash := hash +% u8 k0 in
      let hash := hash ^^ (hash << 10) in
      hash +% (hash >> 1)
  | _ => hash
  end.

Definition avalanche (hash : Z) : Z :=
  let hash := hash ^^ (hash << 3) in
  let hash := hash +% (hash >> 5) in
  let hash := hash ^^ (hash << 4) in
  let hash := hash +% (hash >> 17) in
  let hash := hash ^^ (hash << 25) in
  hash +% (hash >> 6).

Definition hash_hsieh (key : list byte) : Z :=
  match key with
  | [] => 0
  | _ => let '(hash, rest) := main_loop key 0 in avalanche (end_cases rest hash)
  end.

End Hsieh.

(** ** da_murmur.c *)

Module Murmur.

Definition m : Z := 0x5bd1e995.
Definition r : Z := 24.

Definition mix_word (h k : Z) : Z :=
  let k := k *% m in
  let k := k ^^ (k >> r) in
  let k := k *% m in
  let h := h *% m in
  h ^^ k.

Fixpoint main_loop (data : list byte) (h : Z) : Z * list byte :=
  match data with
  | d0 :: d1 :: d2 :: d3 :: data' => main_loop data' (mix_word h (le32 d0 d1 d2 d3))
  | _ => (h, data)
  end.

(** The [switch] falls through from case 3 to case 1. *)
Definition tail_bytes (data : list byte) (h : Z) : Z :=
  match data with
  | [d0; d1; d2] => (((h ^^ (u8 d2 << 16)) ^^ (u8 d1 << 8)) ^^ u8 d0) *% m
  | [d0; d1] => ((h ^^ (u8 d1 << 8)) ^^ u8 d0) *% m
  | [d0] => (h ^^ u8 d0) *% m
  | _ => h
  end.

Definition final_mix (h : Z) : Z :=
  let h := h ^^ (h >> 13) in
  let h := h *% m in
  h ^^ (h >> 15).

Definition hash_murmur (key : list byte) : Z :=
  let length := wrap 32 (Z.of_nat (length key)) in
  let seed := 0xdeadbeef *% length in
  let '(h, rest) := main_loop key (seed ^^ length) in
  final_mix (tail_bytes rest h).

End Murmur.

(** ** Checksums: the tables against the polynomials

    The reference definitions shift one bit at a time and fold the generator
    polynomial in; both are linear over [xor], which is what the table-driven
    routines rely on. *)

Module CrcSpec.
Import Crc.

(** One bit of the reflected CRC-32 (polynomial 0xEDB88320). *)
Definition crc32_bit (x : Z) : Z :=
  Z.lxor (Z.shiftr x 1) (if Z.testbit x 0 then 0xEDB88320 else 0).

Definition crc32_byte (crc : Z) (c : byte) : Z := Nat.iter 8 crc32_bit (Z.lxor crc (u8 c)).

(** CRC-32/ISO-HDLC, bit by bit. *)
Definition crc32_ref (key : list byte) : Z :=
  Z.lxor (fold_left crc32_byte key 0xffffffff) 0xffffffff.

(** One bit of the non-reflected CRC-16/CCITT (polynomial 0x1021). *)
Definition crc16_bit (x : Z) : Z :=
  Z.lxor (wrap 16 (Z.shiftl x 1)) (if Z.testbit x 15 then 0x1021 else 0).

Definition crc16_byte (crc : Z) (c : byte) : Z :=
  Nat.iter 8 crc16_bit (Z.lxor crc (Z.shiftl (u8 c) 8)).

(** CRC-16/XMODEM, bit by bit. *)
Definition crc16_ref (key : list byte) : Z := fold_left crc16_byte key 0.

(** *** Linearity *)

Definition linear (f : Z -> Z) : Prop := forall x y, f (Z.lxor x y) = Z.lxor (f x) (f y).

Lemma xor_swap a b c d :
  Z.lxor (Z.lxor a b) (Z.lxor c d) = Z.lxor (Z.lxor a c) (Z.lxor b d).
Proof.
  rewrite !Z.lxor_assoc. f_equal. rewrite <- !Z.lxor_assoc. f_equal. apply Z.lxor_comm.
Qed.

Lemma poly_if_xor (p : Z) (a b : bool) :
  (if xorb a b then p else 0) = Z.lxor (if a then p else 0) (if b then p else 0).
Proof.
  destruct a, b; simpl;
    rewrite ?Z.lxor_nilpotent, ?Z.lxor_0_r, ?Z.lxor_0_l; done.
Qed.

Lemma crc32_bit_linear : linear crc32_bit.
Proof.
  intros x y. unfold crc32_bit.
  rewrite Z.shiftr_lxor, Z.lxor_spec, poly_if_xor. apply xor_swap.
Qed.

Lemma wrap_lxor w x y : 0 <= w -> wrap w (Z.lxor x y) = Z.lxor (wrap w x) (wrap w y).
Proof.
  intros Hw. apply Z.bits_inj'. intros i Hi.
  rewrite Z.lxor_spec, !testbit_wrap, Z.lxor_spec by lia.
  destruct (i <? w)%Z; simpl; done.
Qed.

Lemma crc16_bit_linear : linear crc16_bit.
Proof.
  intros x y. unfold crc16_bit.
  rewrite Z.shiftl_lxor, wrap_lxor, Z.lxor_spec, poly_if_xor by lia. apply xor_swap.
Qed.

Lemma iter_linear f n : linear f -> linear (Nat.iter n f).
Proof.
  intros Hf. induction n as [|n IH]; intros x y; simpl; [done|]. by rewrite IH, Hf.
Qed.

(** Splitting a word into its low byte and the rest. *)
Lemma split_low8 x : x = Z.lxor (Z.land x 255) (Z.shiftl (Z.shiftr x 8) 8).
Proof.
  apply Z.bits_inj'. intros i Hi.
  rewrite Z.lxor_spec, Z.shiftl_spec, Z.land_spec by lia.
  change 255%Z with (Z.ones 8). rewrite Z.testbit_ones by lia.
  destruct (Z.ltb_spec i 8).
  - rewrite (Z.testbit_neg_r _ (i - 8)%Z) by lia.
    destruct (Z.leb_spec 0 i); [|lia]. simpl. by rewrite andb_true_r, xorb_false_r.
  - rewrite Z.shiftr_spec by lia. destruct (Z.leb_spec 0 i); [|lia].
    rewrite andb_false_r. simpl. f_equal. lia.
Qed.

Lemma land_255 x : Z.land x 255 = wrap 8 x.
Proof. change 255%Z with (Z.ones 8). by rewrite <- wrap_land by lia. Qed.

Lemma land_255_range x : (0 <= Z.land x 255 < 256)%Z.
Proof. rewrite land_255. apply (wrap_range 8). lia. Qed.

(** A table is checked entry by entry against a function of the index. *)
Lemma table_ok (t : list Z) (f : Z -> Z) :
  forallb (fun i => tab t (Z.of_nat i) =? f (Z.of_nat i))%Z (seq 0 256) = true ->
  forall i, (0 <= i < 256)%Z -> tab t i = f i.
Proof.
  intros H i Hi. rewrite forallb_forall in H.
  specialize (H (Z.to_nat i)). rewrite Z2Nat.id in H by lia.
  apply Z.eqb_eq, H, in_seq. lia.
Qed.

Lemma crc32tab_ok i : (0 <= i < 256)%Z -> tab crc32tab i = Nat.iter 8 crc32_bit i.
Proof. apply table_ok. vm_compute. reflexivity. Qed.

Lemma crc16tab_ok i : (0 <= i < 256)%Z -> tab crc16tab i = Nat.iter 8 crc16_bit (Z.shiftl i 8).
Proof.
  apply (table_ok crc16tab (fun i => Nat.iter 8 crc16_bit (Z.shiftl i 8))).
  vm_compute. reflexivity.
Qed.

(** Bits that are never shifted into the tested position move unchanged. *)
Lemma crc32_iter_high (n : nat) h :
  Nat.iter n crc32_bit (Z.shiftl h (Z.of_nat n)) = h.
Proof.
  revert h. induction n as [|n IH]; intros h; [apply Z.shiftl_0_r|].
  rewrite Nat.iter_succ_r.
  replace (crc32_bit (Z.shiftl h (Z.of_nat (S n)))) with (Z.shiftl h (Z.of_nat n)); [apply IH|].
  unfold crc32_bit. rewrite Z.shiftl_spec_low, Z.lxor_0_r by lia.
  rewrite Z.shiftr_shiftl_l by lia. f_equal. lia.
Qed.

Lemma crc32_iter8 x :
  Nat.iter 8 crc32_bit x = Z.lxor (tab crc32tab (Z.land x 255)) (Z.shiftr x 8).
Proof.
  rewrite (split_low8 x) at 1.
  rewrite (iter_linear _ 8 crc32_bit_linear), (crc32_iter_high 8).
  by rewrite crc32tab_ok by apply land_255_range.
Qed.

Lemma wrap8_s8 c : wrap 8 (wrap 64 (s8 c)) = wrap 8 (u8 c).
Proof.
  rewrite <- s8_u8, wrap_wrap. unfold wrap. apply Z.mod_mod_divide.
  exists (2 ^ 56)%Z. reflexivity.
Qed.

Lemma shiftr_u8 c : Z.shiftr (u8 c) 8 = 0.
Proof.
  rewrite Z.shiftr_div_pow2 by lia. apply Z.div_small. apply u8_range.
Qed.

Lemma crc32a_step_byte crc c : crc32a_step crc c = crc32_byte crc c.
Proof.
  unfold crc32a_step, crc32_byte. rewrite crc32_iter8.
  by rewrite Z.shiftr_lxor, shiftr_u8, Z.lxor_0_r.
Qed.

Lemma crc32_step_byte crc c : crc32_step crc c = crc32_byte crc c.
Proof.
  rewrite <- crc32a_step_byte. unfold crc32_step, crc32a_step. rewrite Z.lxor_comm. do 2 f_equal.
  change 0xff%Z with 255%Z. rewrite !land_255, !wrap_lxor, wrap8_s8 by lia. done.
Qed.

(** C34: [hash_crc32a] is the CRC-32 of the key: the table-driven loop returns
    what shifting the reflected polynomial 0xEDB88320 bit by bit returns. *)
Theorem hash_crc32a_correct key : hash_crc32a key = crc32_ref key.
Proof.
  unfold hash_crc32a, crc32_ref. f_equal. apply fold_left_ext, crc32a_step_byte.
Qed.

Lemma crc16_iter_low (n : nat) x :
  (0 <= x < 2 ^ (16 - Z.of_nat n))%Z -> (n <= 16)%nat ->
  Nat.iter n crc16_bit x = Z.shiftl x (Z.of_nat n).
Proof.
  revert x. induction n as [|n IH]; intros x Hx Hn; [symmetry; apply Z.shiftl_0_r|].
  rewrite Nat.iter_succ_r.
  assert (in_width 15 x) as Hw.
  { apply (in_width_mono (16 - Z.of_nat (S n))); [lia|done]. }
  replace (crc16_bit x) with (Z.shiftl x 1).
  - rewrite IH; [rewrite Z.shiftl_shiftl by lia; f_equal; lia| |lia].
    rewrite Z.shiftl_mul_pow2 by lia. replace (16 - Z.of_nat n)%Z with (Z.succ (16 - Z.of_nat (S n))) by lia.
    rewrite Z.pow_succ_r by lia. lia.
  - unfold crc16_bit. apply in_width_bits in Hw as [_ Hw]; [|lia]. rewrite Hw, Z.lxor_0_r by lia.
    symmetry. apply wrap_small. rewrite Z.shiftl_mul_pow2 by lia.
    assert (2 ^ (16 - Z.of_nat (S n)) <= 2 ^ 15)%Z by (apply Z.pow_le_mono_r; lia).
    unfold in_width. lia.
Qed.

Lemma crc16_iter8 x :
  in_width 16 x ->
  Nat.iter 8 crc16_bit x =
    Z.lxor (Z.shiftl (Z.land x 255) 8) (tab crc16tab (Z.shiftr x 8)).
Proof.
  intros Hx. rewrite (split_low8 x) at 1. rewrite (iter_linear _ 8 crc16_bit_linear).
  rewrite (crc16_iter_low 8) by (pose proof (land_255_range x); simpl; lia).
  rewrite crc16tab_ok; [done|]. rewrite Z.shiftr_div_pow2 by lia.
  unfold in_width in Hx. split; [apply Z.div_pos; lia|apply Z.div_lt_upper_bound; lia].
Qed.

Lemma u8_shl8_width c : in_width 16 (Z.shiftl (u8 c) 8).
Proof. pose proof (u8_range c). unfold in_width. rewrite Z.shiftl_mul_pow2 by lia. lia. Qed.

(** The index and the shifted part of a step read the low 16 bits only. *)
Lemma crc16_step_low crc c :
  (0 <= crc)%Z -> wrap 16 (crc16_step crc c) = crc16_byte (wrap 16 crc) c.
Proof.
  intros Hc. unfold crc16_step, crc16_byte.
  rewrite crc16_iter8 by (apply lxor_in_width; [lia|apply wrap_range; lia|apply u8_shl8_width]).
  rewrite wrap_lxor by lia.
  assert (forall i, (0 <= i < 256)%Z -> in_width 16 (tab crc16tab i)) as Ht.
  { intros i Hi. assert (forallb (fun i => (0 <=? tab crc16tab (Z.of_nat i)) && (tab crc16tab (Z.of_nat i) <? 65536))%bool%Z (seq 0 256) = true) as H by (vm_compute; done).
    rewrite forallb_forall in H. specialize (H (Z.to_nat i) ltac:(apply in_seq; lia)).
    rewrite Z2Nat.id in H by lia. apply andb_prop in H as [? ?]. unfold in_width. lia. }
  f_equal.
  - apply Z.bits_inj'. intros i Hi. change 255%Z with (Z.ones 8).
    rewrite !testbit_wrap, !Z.shiftl_spec, ?Z.land_spec by lia.
    destruct (Z.ltb_spec i 8).
    { rewrite !(Z.testbit_neg_r _ (i - 8)%Z) by lia. by rewrite !andb_false_r. }
    rewrite Z.lxor_spec, Z.testbit_ones, testbit_wrap, Z.shiftl_spec by lia.
    destruct (Z.leb_spec 0 (i - 8)); [|lia].
    destruct (Z.ltb_spec i 16), (Z.ltb_spec i 32), (Z.ltb_spec (i - 8) 8), (Z.ltb_spec (i - 8) 16);
      try lia; simpl; rewrite ?andb_false_r; try done.
    rewrite (Z.testbit_neg_r _ (i - 8 - 8)%Z) by lia. by rewrite xorb_false_r, andb_true_r.
  - rewrite wrap_small by apply Ht, land_255_range. f_equal.
    apply Z.bits_inj'. intros i Hi. change 0x00ff%Z with (Z.ones 8).
    rewrite Z.land_spec, Z.lxor_spec, Z.testbit_ones, !Z.shiftr_spec by lia.
    rewrite Z.lxor_spec, testbit_wrap, Z.shiftl_spec by lia.
    replace (i + 8 - 8)%Z with i by lia. rewrite <- s8_u8, testbit_wrap by lia.
    destruct (Z.leb_spec 0 i); [|lia].
    destruct (Z.ltb_spec i 8), (Z.ltb_spec (i + 8) 16); try lia; simpl; by rewrite ?andb_true_r, ?andb_false_r.
Qed.

Lemma crc16_step_nonneg crc c : (0 <= crc)%Z -> (0 <= crc16_step crc c)%Z.
Proof.
  intros. unfold crc16_step. apply Z.lxor_nonneg. split; intros _.
  - unfold tab. destruct (nth_in_or_default (Z.to_nat (Z.land (Z.lxor (Z.shiftr crc 8) (s8 c)) 255)) crc16tab 0) as [Hin|Hd]; [|rewrite Hd; lia].
    assert (Forall (fun x => (0 <= x)%Z) crc16tab) as Hf by (repeat constructor; lia).
    rewrite Forall_forall in Hf. apply Hf. by apply list_elem_of_In.
  - pose proof (wrap_range 32 (Z.shiftl crc 8) ltac:(lia)) as Hw. unfold in_width in Hw. lia.
Qed.

Lemma crc16_fold_low key crc :
  (0 <= crc)%Z -> wrap 16 (fold_left crc16_step key crc) = fold_left crc16_byte key (wrap 16 crc).
Proof.
  revert crc. induction key as [|c key IH]; intros crc Hc; [reflexivity|].
  rewrite !fold_left_cons, IH by by apply crc16_step_nonneg. rewrite crc16_step_low by done. reflexivity.
Qed.

(** the low 16 bits of [hash_crc16] are the CRC-16/XMODEM of the key
    (polynomial 0x1021, bit by bit); the [uint32_t] accumulator keeps what was
    shifted past bit 15 and those bits never feed back. *)
Theorem hash_crc16_correct key : wrap 16 (hash_crc16 key) = crc16_ref key.
Proof. apply (crc16_fold_low key 0). lia. Qed.

Lemma not32_lxor x : in_width 32 x -> not32 x = Z.lxor x 0xffffffff.
Proof.
  intros [H1 H2]. unfold not32.
  change 4294967295%Z with (Z.ones 32). change 0xffffffff%Z with (Z.ones 32).
  rewrite Z.sub_nocarry_ldiff.
  - apply Z.bits_inj'. intros i Hi. rewrite Z.ldiff_spec, Z.lxor_spec, Z.testbit_ones by lia.
    destruct (Z.leb_spec 0 i); [|lia]. destruct (Z.ltb_spec i 32); simpl; [by rewrite xorb_true_r|].
    rewrite xorb_false_r. symmetry. apply (proj2 (proj1 (in_width_bits 32 x ltac:(lia)) (conj H1 H2))). lia.
  - apply Z.bits_inj'. intros i Hi. rewrite Z.ldiff_spec, Z.bits_0, Z.testbit_ones by lia.
    destruct (Z.leb_spec 0 i); [|lia]. destruct (Z.ltb_spec i 32); simpl; [by rewrite andb_false_r|].
    rewrite andb_true_r. apply (proj2 (proj1 (in_width_bits 32 x ltac:(lia)) (conj H1 H2))). lia.
Qed.

Lemma crc32_byte_width crc c : in_width 32 crc -> in_width 32 (crc32_byte crc c).
Proof.
  intros Hc. unfold crc32_byte.
  assert (in_width 32 (Z.lxor crc (u8 c))) as H.
  { apply lxor_in_width; [lia|done|]. apply (in_width_mono 8); [lia|apply u8_in_width]. }
  revert H. generalize (Z.lxor crc (u8 c)). generalize 8%nat. intros n. induction n as [|n IH]; intros x Hx; [done|].
  simpl. unfold crc32_bit at 1. apply lxor_in_width; [lia| |case_match; unfold in_width; lia].
  apply shiftr_in_width; [lia|lia|]. by apply IH.
Qed.

Lemma crc32_fold_width key crc :
  in_width 32 crc -> in_width 32 (fold_left crc32_byte key crc).
Proof.
  revert crc. induction key as [|c key IH]; intros crc Hc; [done|].
  rewrite fold_left_cons. by apply IH, crc32_byte_width.
Qed.

(** [hash_crc32] is bits 16 to 30 of the CRC-32 of the key, the value
    libmemcached uses. *)
Theorem hash_crc32_correct key :
  hash_crc32 key = Z.land (Z.shiftr (crc32_ref key) 16) 0x7fff.
Proof.
  unfold hash_crc32, crc32_ref. f_equal. f_equal.
  rewrite (fold_left_ext crc32_step crc32_byte) by apply crc32_step_byte.
  apply not32_lxor, crc32_fold_width. unfold in_width. lia.
Qed.
End CrcSpec.
