(* ===== verification/Jenkins.v ===== *)
(** * Jenkins' hashes (src/agent/hashkit/da_chash.c, da_jenkins.c)

    [hash_chash] places servers and keys on the continuum; [hash_jenkins] is
    the [lookup3] hash, with one code path per alignment of the key pointer.
    The key is the memory [k] read relative to the key pointer, together with
    its length, so that reads past the key are visible in the model. *)

From S2P Require Import Prelude.

Definition mem := Z -> byte.

(** The two memories hold the same key of [length] bytes. *)
Definition same_key (length : Z) (k k' : mem) : Prop :=
  forall i, (0 <= i < length) -> k i = k' i.

(** The memory that holds the bytes [l] and zeros after them. *)
Definition mem_of (l : list byte) : mem := fun i => nth (Z.to_nat i) l x00.

(** ** da_chash.c *)

Module Chash.

(** [x=x-y; x=x-z; x=x^t] *)
Definition sub_xor (x y z t : Z) : Z := ((x -% y) -% z) ^^ t.

Definition mix (s : Z * Z * Z) : Z * Z * Z :=
  let '(a, b, c) := s in
  let a := sub_xor a b c (c >> 13) in
  let b := sub_xor b c a (a << 8) in
  let c := sub_xor c a b (b >> 13) in
  let a := sub_xor a b c (c >> 12) in
  let b := sub_xor b c a (a << 16) in
  let c := sub_xor c a b (b >> 5) in
  let a := sub_xor a b c (c >> 3) in
  let b := sub_xor b c a (a << 10) in
  let c := sub_xor c a b (b >> 15) in
  (a, b, c).

(** [(u4)k[i]]: the sign of [char] extends to 32 bits. *)
Definition ch (k : mem) (i : Z) : Z := wrap 32 (s8 (k i)).

(** [k[p]+((u4)k[p+1]<<8)+((u4)k[p+2]<<16)+((u4)k[p+3]<<24)] *)
Definition word (k : mem) (p : Z) : Z :=
  ((ch k p +% (ch k (p + 1) << 8)) +% (ch k (p + 2) << 16)) +% (ch k (p + 3) << 24).

(** [while (len >= 12)]; returns the state, the position and what is left. *)
Fixpoint loop (fuel : nat) (k : mem) (p len : Z) (s : Z * Z * Z) : (Z * Z * Z) * Z * Z :=
  match fuel with
  | O => (s, p, len)
  | S fuel =>
      if (12 <=? len) then
        let '(a, b, c) := s in
        let a := a +% word k p in
        let b := b +% word k (p + 4) in
        let c := c +% word k (p + 8) in
        loop fuel k (p + 12) (len - 12) (mix (a, b, c))
      else (s, p, len)
  end.

(** The [switch]: case [n] is reached from every case above it. *)
Definition last_bytes (k : mem) (p len : Z) (s : Z * Z * Z) : Z * Z * Z :=
  let '(a, b, c) := s in
  let c := if (11 <=? len) then c +% (ch k (p + 10) << 24) else c in
  let c := if (10 <=? len) then c +% (ch k (p + 9) << 16) else c in
  let c := if (9 <=? len) then c +% (ch k (p + 8) << 8) else c in
  let b := if (8 <=? len) then b +% (ch k (p + 7) << 24) else b in
  let b := if (7 <=? len) then b +% (ch k (p + 6) << 16) else b in
  let b := if (6 <=? len) then b +% (ch k (p + 5) << 8) else b in
  let b := if (5 <=? len) then b +% ch k (p + 4) else b in
  let a := if (4 <=? len) then a +% (ch k (p + 3) << 24) else a in
  let a := if (3 <=? len) then a +% (ch k (p + 2) << 16) else a in
  let a := if (2 <=? len) then a +% (ch k (p + 1) << 8) else a in
  let a := if (1 <=? len) then a +% ch k p else a in
  (a, b, c).

Definition hash_chash (k : mem) (length : Z) : Z :=
  let len := wrap 32 length in
  let '((a, b, c), p, len) :=
    loop (Z.to_nat (len / 12)) k 0 len (0x9e3779b9, 0x9e3779b9, 0x544D4A52) in
  let c := c +% length in
  let '(a, b, c) := mix (last_bytes k p len (a, b, c)) in
  c.

End Chash.

(** ** da_jenkins.c *)

Module Lookup3.

Definition rot (x k : Z) : Z := Z.lor (x << k) (x >> (32 - k)).

Definition mix (s : Z * Z * Z) : Z * Z * Z :=
  let '(a, b, c) := s in
  let a := a -% c in let a := a ^^ rot c 4 in let c := c +% b in
  let b := b -% a in let b := b ^^ rot a 6 in let a := a +% c in
  let c := c -% b in let c := c ^^ rot b 8 in let b := b +% a in
  let a := a -% c in let a := a ^^ rot c 16 in let c := c +% b in
  let b := b -% a in let b := b ^^ rot a 19 in let a := a +% c in
  let c := c -% b in let c := c ^^ rot b 4 in let b := b +% a in
  (a, b, c).

Definition final (s : Z * Z * Z) : Z * Z * Z :=
  let '(a, b, c) := s in
  let c := c ^^ b in let c := c -% rot b 14 in
  let a := a ^^ c in let a := a -% rot c 11 in
  let b := b ^^ a in let b := b -% rot a 25 in
  let c := c ^^ b in let c := c -% rot b 16 in
  let a := a ^^ c in let a := a -% rot c 4 in
  let b := b ^^ a in let b := b -% rot a 14 in
  let c := c ^^ b in let c := c -% rot b 24 in
  (a, b, c).

Definition JENKINS_INITVAL : Z := 13.

(** Reads of the [i]-th 8-, 16- and 32-bit element at byte position [p]. *)
Definition k8 (k : mem) (p i : Z) : Z := u8 (k (p + i)).
Definition k16 (k : mem) (p i : Z) : Z := le16 (k (p + 2 * i)) (k (p + 2 * i + 1)).
Definition k32 (k : mem) (p i : Z) : Z :=
  le32 (k (p + 4 * i)) (k (p + 4 * i + 1)) (k (p + 4 * i + 2)) (k (p + 4 * i + 3)).

(** [while (length > 12)], with the block absorbed by [absorb]. *)
Fixpoint loop (absorb : Z -> Z * Z * Z -> Z * Z * Z)
    (fuel : nat) (p length : Z) (s : Z * Z * Z) : (Z * Z * Z) * Z * Z :=
  match fuel with
  | O => (s, p, length)
  | S fuel =>
      if (12 <? length)
      then loop absorb fuel (p + 12) (length - 12) (mix (absorb p s))
      else (s, p, length)
  end.

(** *** 4-byte aligned keys *)

Definition absorb32 (k : mem) (p : Z) (s : Z * Z * Z) : Z * Z * Z :=
  let '(a, b, c) := s in (a +% k32 k p 0, b +% k32 k p 1, c +% k32 k p 2).

(** [None] is the early [return c]. *)
Definition last32 (k : mem) (p length : Z) (s : Z * Z * Z) : option (Z * Z * Z) :=
  let '(a, b, c) := s in
  match length with
  | 12 => Some (a +% k32 k p 0, b +% k32 k p 1, c +% k32 k p 2)
  | 11 => Some (a +% k32 k p 0, b +% k32 k p 1, c +% Z.land (k32 k p 2) 0xffffff)
  | 10 => Some (a +% k32 k p 0, b +% k32 k p 1, c +% Z.land (k32 k p 2) 0xffff)
  | 9 => Some (a +% k32 k p 0, b +% k32 k p 1, c +% Z.land (k32 k p 2) 0xff)
  | 8 => Some (a +% k32 k p 0, b +% k32 k p 1, c)
  | 7 => Some (a +% k32 k p 0, b +% Z.land (k32 k p 1) 0xffffff, c)
  | 6 => Some (a +% k32 k p 0, b +% Z.land (k32 k p 1) 0xffff, c)
  | 5 => Some (a +% k32 k p 0, b +% Z.land (k32 k p 1) 0xff, c)
  | 4 => Some (a +% k32 k p 0, b, c)
  | 3 => Some (a +% Z.land (k32 k p 0) 0xffffff, b, c)
  | 2 => Some (a +% Z.land (k32 k p 0) 0xffff, b, c)
  | 1 => Some (a +% Z.land (k32 k p 0) 0xff, b, c)
  | _ => None
  end.

(** *** 2-byte aligned keys *)

(** [k[i] + (((uint32_t)k[i+1])<<16)] *)
Definition pair16 (k : mem) (p i : Z) : Z := k16 k p i +% (k16 k p (i + 1) << 16).

Definition absorb16 (k : mem) (p : Z) (s : Z * Z * Z) : Z * Z * Z :=
  let '(a, b, c) := s in (a +% pair16 k p 0, b +% pair16 k p 2, c +% pair16 k p 4).

Definition last16 (k : mem) (p length : Z) (s : Z * Z * Z) : option (Z * Z * Z) :=
  let '(a, b, c) := s in
  match length with
  | 12 => Some (a +% pair16 k p 0, b +% pair16 k p 2, c +% pair16 k p 4)
  | 11 => Some (a +% pair16 k p 0, b +% pair16 k p 2, (c +% (k8 k p 10 << 16)) +% k16 k p 4)
  | 10 => Some (a +% pair16 k p 0, b +% pair16 k p 2, c +% k16 k p 4)
  | 9 => Some (a +% pair16 k p 0, b +% pair16 k p 2, c +% k8 k p 8)
  | 8 => Some (a +% pair16 k p 0, b +% pair16 k p 2, c)
  | 7 => Some (a +% pair16 k p 0, (b +% (k8 k p 6 << 16)) +% k16 k p 2, c)
  | 6 => Some (a +% pair16 k p 0, b +% k16 k p 2, c)
  | 5 => Some (a +% pair16 k p 0, b +% k8 k p 4, c)
  | 4 => Some (a +% pair16 k p 0, b, c)
  | 3 => Some ((a +% (k8 k p 2 << 16)) +% k16 k p 0, b, c)
  | 2 => Some (a +% k16 k p 0, b, c)
  | 1 => Some (a +% k8 k p 0, b, c)
  | _ => None
  end.

(** *** Keys at an odd address: byte by byte *)

Definition absorb8 (k : mem) (p : Z) (s : Z * Z * Z) : Z * Z * Z :=
  let '(a, b, c) := s in
  let a := a +% k8 k p 0 in let a := a +% (k8 k p 1 << 8) in
  let a := a +% (k8 k p 2 << 16) in let a := a +% (k8 k p 3 << 24) in
  let b := b +% k8 k p 4 in let b := b +% (k8 k p 5 << 8) in
  let b := b +% (k8 k p 6 << 16) in let b := b +% (k8 k p 7 << 24) in
  let c := c +% k8 k p 8 in let c := c +% (k8 k p 9 << 8) in
  let c := c +% (k8 k p 10 << 16) in let c := c +% (k8 k p 11 << 24) in
  (a, b, c).

(** The [switch]: case [n] is reached from every case above it. *)
Definition last8 (k : mem) (p length : Z) (s : Z * Z * Z) : option (Z * Z * Z) :=
  let '(a, b, c) := s in
  if ((1 <=? length) && (length <=? 12))%Z then
    let c := if (12 <=? length) then c +% (k8 k p 11 << 24) else c in
    let c := if (11 <=? length) then c +% (k8 k p 10 << 16) else c in
    let c := if (10 <=? length) then c +% (k8 k p 9 << 8) else c in
    let c := if (9 <=? length) then c +% k8 k p 8 else c in
    let b := if (8 <=? length) then b +% (k8 k p 7 << 24) else b in
    let b := if (7 <=? length) then b +% (k8 k p 6 << 16) else b in
    let b := if (6 <=? length) then b +% (k8 k p 5 << 8) else b in
    let b := if (5 <=? length) then b +% k8 k p 4 else b in
    let a := if (4 <=? length) then a +% (k8 k p 3 << 24) else a in
    let a := if (3 <=? length) then a +% (k8 k p 2 << 16) else a in
    let a := if (2 <=? length) then a +% (k8 k p 1 << 8) else a in
    let a := if (1 <=? length) then a +% k8 k p 0 else a in
    Some (a, b, c)
  else None.

(** One alignment branch: its loop, its last block and [final]. *)
Definition branch (absorb : Z -> Z * Z * Z -> Z * Z * Z)
    (last : Z -> Z -> Z * Z * Z -> option (Z * Z * Z)) (length : Z) (s : Z * Z * Z) : Z :=
  let '((a, b, c), p, length) := loop absorb (Z.to_nat (length / 12)) 0 length s in
  match last p length (a, b, c) with
  | None => c
  | Some s => let '(a, b, c) := final s in c
  end.

(** [addr] is [u.i], the address of the key. *)
Definition hash_jenkins (addr : Z) (k : mem) (length : Z) : Z :=
  let i := (0xdeadbeef +% wrap 32 length) +% JENKINS_INITVAL in
  let s := (i, i, i) in
  if (Z.land addr 0x3 =? 0) then branch (absorb32 k) (last32 k) length s
  else if (Z.land addr 0x1 =? 0) then branch (absorb16 k) (last16 k) length s
  else branch (absorb8 k) (last8 k) length s.

End Lookup3.

(** ** The mixing steps lose nothing *)

Module MixFacts.

Lemma sub_xor_inj x x' y z t :
  in_width 32 x -> in_width 32 x' -> Chash.sub_xor x y z t = Chash.sub_xor x' y z t -> x = x'.
Proof.
  unfold Chash.sub_xor. intros Hx Hx' H.
  apply (f_equal (fun v => Z.lxor v t)) in H. rewrite !Z.lxor_assoc, Z.lxor_nilpotent, !Z.lxor_0_r in H.
  rewrite !wrap_sub_l in H.
  apply (f_equal (fun v => wrap 32 (v + (y + z)))) in H. rewrite !wrap_add_l in H.
  replace (x - y - z + (y + z)) with x in H by lia.
  replace (x' - y - z + (y + z)) with x' in H by lia.
  by rewrite !wrap_small in H.
Qed.

Lemma sub_xor_width x y z t : in_width 32 t -> in_width 32 (Chash.sub_xor x y z t).
Proof. intros. unfold Chash.sub_xor. auto with widths. Qed.

Definition words (s : Z * Z * Z) : Prop :=
  in_width 32 s.1.1 /\ in_width 32 s.1.2 /\ in_width 32 s.2.

(** Three lines of [mix]: each word in turn loses the two others and is xored
    with a function of the one just written. *)
Definition round (f g h : Z -> Z) (s : Z * Z * Z) : Z * Z * Z :=
  let '(a, b, c) := s in
  let a := Chash.sub_xor a b c (f c) in
  let b := Chash.sub_xor b c a (g a) in
  let c := Chash.sub_xor c a b (h b) in
  (a, b, c).

Definition keeps_width (f : Z -> Z) : Prop := forall x, in_width 32 x -> in_width 32 (f x).

Lemma shr_keeps k : 0 <= k -> keeps_width (fun x => Z.shiftr x k).
Proof. intros Hk x Hx. auto with widths. Qed.

Lemma shl_keeps k : keeps_width (fun x => wrap 32 (Z.shiftl x k)).
Proof. intros x Hx. auto with widths. Qed.

Lemma round_words f g h s :
  keeps_width f -> keeps_width g -> keeps_width h -> words s -> words (round f g h s).
Proof.
  destruct s as [[a b] c]. intros Hf Hg Hh (Ha & Hb & Hc). unfold words; simpl.
  split_and!; eauto 8 using sub_xor_width.
Qed.

(** Read backwards, each line determines the word it overwrote. *)
Lemma round_inj f g h s s' :
  words s -> words s' -> round f g h s = round f g h s' -> s = s'.
Proof.
  destruct s as [[a b] c], s' as [[a' b'] c']. intros (Ha & Hb & Hc) (Ha' & Hb' & Hc').
  unfold round. intros [= H1 H2 H3]. simpl in *.
  rewrite H2, H1 in H3. apply sub_xor_inj in H3 as ->; [|done..].
  rewrite H1 in H2. apply sub_xor_inj in H2 as ->; [|done..].
  apply sub_xor_inj in H1 as ->; done.
Qed.

Lemma mix_rounds s :
  Chash.mix s =
  round (fun c => Z.shiftr c 3) (fun a => wrap 32 (Z.shiftl a 10)) (fun b => Z.shiftr b 15)
    (round (fun c => Z.shiftr c 12) (fun a => wrap 32 (Z.shiftl a 16)) (fun b => Z.shiftr b 5)
      (round (fun c => Z.shiftr c 13) (fun a => wrap 32 (Z.shiftl a 8)) (fun b => Z.shiftr b 13) s)).
Proof. by destruct s as [[a b] c]. Qed.

(** [mix] of [hash_chash] is injective on triples of 32-bit words: the
    internal state of the hash never collides within the mixing rounds. *)
Theorem chash_mix_injective s s' :
  words s -> words s' -> Chash.mix s = Chash.mix s' -> s = s'.
Proof.
  intros Hs Hs'. rewrite !mix_rounds. intros H.
  repeat (apply round_inj in H; [|by repeat (apply round_words; auto using shl_keeps, shr_keeps with widths)..]).
  done.
Qed.

Lemma chash_mix_injective_witness :
  Chash.mix (1, 2, 3) = Chash.mix (1, 2, 3) /\ (1, 2, 3) = (1, 2, 3).
Proof.
  split; [reflexivity|].
  apply chash_mix_injective; [unfold words, in_width; simpl; lia..|reflexivity].
Defined.

End MixFacts.

(** ** The alignment of the key does not matter *)

Module Lookup3Facts.
Import Lookup3.

Section reads.
Context (k : mem) (p : Z).

Lemma k8_range i : 0 <= k8 k p i < 256.
Proof. apply u8_range. Qed.

(** Wider reads in terms of byte reads. *)
Lemma k16_bytes i : k16 k p i = k8 k p (2 * i) + 256 * k8 k p (2 * i + 1).
Proof. unfold k16, k8, le16. do 4 f_equal; lia. Qed.

Lemma k32_bytes i :
  k32 k p i = k8 k p (4 * i) + 256 * k8 k p (4 * i + 1)
    + 65536 * k8 k p (4 * i + 2) + 16777216 * k8 k p (4 * i + 3).
Proof. unfold k32, k8, le32. rewrite !Z.add_assoc. reflexivity. Qed.

Lemma shl_k8 i n : 0 <= n <= 24 -> wrap 32 (Z.shiftl (k8 k p i) n) = k8 k p i * 2 ^ n.
Proof.
  intros Hn. pose proof (k8_range i). rewrite Z.shiftl_mul_pow2 by lia.
  apply wrap_small. unfold in_width. split; [nia|].
  apply Z.lt_le_trans with (2 ^ 8 * 2 ^ n); [nia|].
  rewrite <- Z.pow_add_r by lia. apply Z.pow_le_mono_r; lia.
Qed.

Lemma shl_k16 i : wrap 32 (Z.shiftl (k16 k p i) 16) = k16 k p i * 65536.
Proof.
  rewrite k16_bytes. pose proof (k8_range (2 * i)). pose proof (k8_range (2 * i + 1)).
  rewrite Z.shiftl_mul_pow2 by lia. apply wrap_small. unfold in_width. lia.
Qed.

(** Masking a little-endian word keeps its low bytes. *)
Lemma mask_low n x lo hi :
  0 <= n -> x = lo + hi * 2 ^ n -> 0 <= lo < 2 ^ n -> Z.land x (Z.ones n) = lo.
Proof. intros Hn -> Hlo. rewrite Z.land_ones, Z.mod_add by lia. by apply Z.mod_small. Qed.

Lemma mask24 i :
  Z.land (k32 k p i) 0xffffff
  = k8 k p (4 * i) + 256 * k8 k p (4 * i + 1) + 65536 * k8 k p (4 * i + 2).
Proof.
  pose proof (k8_range (4 * i)). pose proof (k8_range (4 * i + 1)).
  pose proof (k8_range (4 * i + 2)). rewrite k32_bytes.
  apply (mask_low 24 _ _ (k8 k p (4 * i + 3))); lia.
Qed.

Lemma mask16 i : Z.land (k32 k p i) 0xffff = k8 k p (4 * i) + 256 * k8 k p (4 * i + 1).
Proof.
  pose proof (k8_range (4 * i)). pose proof (k8_range (4 * i + 1)). rewrite k32_bytes.
  apply (mask_low 16 _ _ (k8 k p (4 * i + 2) + 256 * k8 k p (4 * i + 3))); lia.
Qed.

Lemma mask8 i : Z.land (k32 k p i) 0xff = k8 k p (4 * i).
Proof.
  pose proof (k8_range (4 * i)). rewrite k32_bytes.
  apply (mask_low 8 _ _ (k8 k p (4 * i + 1) + 256 * k8 k p (4 * i + 2) + 65536 * k8 k p (4 * i + 3))); lia.
Qed.
End reads.

(** Two blocks are equal when each word is the same sum of byte reads. *)
Ltac same_sums :=
  unfold pair16; rewrite ?mask24, ?mask16, ?mask8, ?shl_k8, ?shl_k16 by lia;
  rewrite ?k32_bytes, ?k16_bytes; autorewrite with wraps;
  repeat match goal with
  | |- context [k8 ?k ?p ?e] => let v := eval vm_compute in e in progress change (k8 k p e) with (k8 k p v)
  end;
  repeat match goal with
  | |- Some _ = Some _ => f_equal
  | |- (_, _) = (_, _) => apply f_equal2
  end; first [reflexivity | apply (f_equal (wrap 32)); lia].

Lemma absorb32_8 k p s : absorb32 k p s = absorb8 k p s.
Proof. destruct s as [[a b] c]. unfold absorb32, absorb8. same_sums. Qed.

Lemma absorb16_8 k p s : absorb16 k p s = absorb8 k p s.
Proof. destruct s as [[a b] c]. unfold absorb16, absorb8. same_sums. Qed.

Lemma length_cases (P : Z -> Prop) :
  P 1 -> P 2 -> P 3 -> P 4 -> P 5 -> P 6 -> P 7 -> P 8 -> P 9 -> P 10 -> P 11 -> P 12 ->
  forall l, 1 <= l <= 12 -> P l.
Proof.
  intros. assert (l = 1 \/ l = 2 \/ l = 3 \/ l = 4 \/ l = 5 \/ l = 6 \/ l = 7 \/ l = 8 \/
    l = 9 \/ l = 10 \/ l = 11 \/ l = 12) as Hl by lia.
  by decompose [or] Hl; subst.
Qed.

Lemma last8_out k p l s : ~ (1 <= l <= 12) -> last8 k p l s = None.
Proof.
  intros Hl. destruct s as [[a b] c]. unfold last8.
  destruct (Z.leb_spec 1 l), (Z.leb_spec l 12); simpl; (done || lia).
Qed.

Lemma last32_8 k p l s : last32 k p l s = last8 k p l s.
Proof.
  destruct s as [[a b] c]. destruct (decide (1 <= l <= 12)) as [Hl|Hl].
  - revert l Hl. apply length_cases; unfold last32, last8; simpl; same_sums.
  - rewrite last8_out by done. unfold last32.
    destruct l as [|q|q]; [done| |done].
    do 4 (try (destruct q as [q|q|]; try done)); exfalso; lia.
Qed.

Lemma last16_8 k p l s : last16 k p l s = last8 k p l s.
Proof.
  destruct s as [[a b] c]. destruct (decide (1 <= l <= 12)) as [Hl|Hl].
  - revert l Hl. apply length_cases; unfold last16, last8; simpl; same_sums.
  - rewrite last8_out by done. unfold last16.
    destruct l as [|q|q]; [done| |done].
    do 4 (try (destruct q as [q|q|]; try done)); exfalso; lia.
Qed.

(** *** Reads stay inside the key *)

Lemma k8_same length k k' p i :
  same_key length k k' -> 0 <= p -> 0 <= i -> p + i < length -> k8 k p i = k8 k' p i.
Proof. intros H ???. unfold k8. rewrite H by lia. done. Qed.

Lemma absorb8_same length k k' p s :
  same_key length k k' -> 0 <= p -> p + 12 <= length -> absorb8 k p s = absorb8 k' p s.
Proof.
  intros H ??. destruct s as [[a b] c]. unfold absorb8.
  rewrite !(k8_same length k k' p) by (done || lia). done.
Qed.

Lemma last8_same length k k' p l s :
  same_key length k k' -> 0 <= p -> p + l <= length -> last8 k p l s = last8 k' p l s.
Proof.
  intros H Hp Hl. destruct (decide (1 <= l <= 12)) as [Hr|Hr]; [|by rewrite !last8_out].
  destruct s as [[a b] c]. revert l Hr Hl.
  apply (length_cases (fun l => p + l <= length -> last8 k p l (a, b, c) = last8 k' p l (a, b, c)));
    intros Hl; unfold last8; simpl; rewrite ?(k8_same length k k' p) by (done || lia); done.
Qed.

(** The loop reads whole blocks of the key and stops within it. *)
Lemma loop_same length k k' :
  same_key length k k' ->
  forall fuel p l s, 0 <= p -> p + l = length ->
  loop (absorb8 k) fuel p l s = loop (absorb8 k') fuel p l s /\
  (0 <= l -> let '(_, p', l') := loop (absorb8 k') fuel p l s in 0 <= p' /\ p' + l' = length).
Proof.
  intros H fuel. induction fuel as [|fuel IH]; intros p l s Hp Hl; simpl; [by split; [|lia]|].
  destruct (Z.ltb_spec 12 l); [|by split; [|lia]].
  rewrite (absorb8_same length k k') by (done || lia).
  destruct (IH (p + 12) (l - 12) (mix (absorb8 k' p s)) ltac:(lia) ltac:(lia)) as [-> IH2].
  split; [done|]. intros _. apply IH2. lia.
Qed.

Lemma loop_ext absorb absorb' fuel p l s :
  (forall p s, absorb p s = absorb' p s) -> loop absorb fuel p l s = loop absorb' fuel p l s.
Proof.
  intros H. revert p l s. induction fuel as [|fuel IH]; intros; simpl; [done|].
  by rewrite H, IH.
Qed.

Lemma branch_ext absorb absorb' last last' length s :
  (forall p s, absorb p s = absorb' p s) -> (forall p l s, last p l s = last' p l s) ->
  branch absorb last length s = branch absorb' last' length s.
Proof.
  intros H1 H2. unfold branch. rewrite (loop_ext absorb absorb') by done.
  destruct (loop _ _ _ _ _) as [[[[a b] c] p] l]. by rewrite H2.
Qed.

Lemma hash_jenkins_bytes addr k length :
  hash_jenkins addr k length =
  let i := (0xdeadbeef +% wrap 32 length) +% JENKINS_INITVAL in
  branch (absorb8 k) (last8 k) length (i, i, i).
Proof.
  unfold hash_jenkins. cbv zeta. case_match; [|case_match]; [..|done];
    apply branch_ext; auto using absorb32_8, absorb16_8, last32_8, last16_8.
Qed.

(** C35: [hash_jenkins] depends on the bytes of the key only: the aligned
    code paths, which read whole words past the end of the key and mask, return
    what the byte-by-byte path returns, whatever the address of the key and
    whatever memory follows it. *)
Theorem hash_jenkins_alignment addr addr' k k' length :
  0 <= length -> same_key length k k' ->
  hash_jenkins addr k length = hash_jenkins addr' k' length.
Proof.
  intros Hl H. rewrite !hash_jenkins_bytes. cbv zeta. unfold branch.
  set (i := (_ +% _) +% _). clearbody i.
  destruct (loop_same length k k' H (Z.to_nat (length / 12)) 0 length (i, i, i)) as [-> HL]; [lia..|].
  specialize (HL Hl). destruct (loop _ _ _ _ _) as [[[[a b] c] p] l].
  destruct HL. by rewrite (last8_same length k k') by (done || lia).
Qed.

Lemma hash_jenkins_alignment_witness :
  hash_jenkins 4096 (fun i => byte_of i) 13
  = hash_jenkins 4097 (fun i => if i <? 13 then byte_of i else xff) 13.
Proof.
  apply hash_jenkins_alignment; [lia|].
  intros i Hi. destruct (Z.ltb_spec i 13); [reflexivity|lia].
Defined.
End Lookup3Facts.

(** ** [hash_chash] reads the key and nothing else *)

Module ChashFacts.
Import Chash.

Lemma chash_loop_rest fuel k p len s :
  0 <= len -> len < 12 * (Z.of_nat fuel + 1) ->
  let '(_, p', len') := loop fuel k p len s in 0 <= len' < 12 /\ p' + len' = p + len /\ p <= p'.
Proof.
  revert p len s. induction fuel as [|fuel IH]; intros p len s H1 H2; [simpl; lia|].
  cbn [loop]. destruct (Z.leb_spec 12 len); [|lia]. destruct s as [[a b] c].
  specialize (IH (p + 12) (len - 12)
    (mix (a +% word k p, b +% word k (p + 4), c +% word k (p + 8))) ltac:(lia) ltac:(lia)).
  destruct (loop _ _ _ _ _) as [[[[a' b'] c'] p'] l']. lia.
Qed.

Lemma word_same length k k' p :
  same_key length k k' -> 0 <= p -> p + 4 <= length -> word k p = word k' p.
Proof. intros H ??. unfold word, ch. rewrite !H by lia. done. Qed.

Lemma chash_loop_same length k k' fuel p len s :
  same_key length k k' -> 0 <= p -> p + len <= length -> loop fuel k p len s = loop fuel k' p len s.
Proof.
  intros H. revert p len s. induction fuel as [|fuel IH]; intros p len s Hp Hl; [done|].
  cbn [loop]. destruct (Z.leb_spec 12 len); [|done]. destruct s as [[a b] c].
  rewrite !(word_same length k k') by (done || lia). apply IH; lia.
Qed.

Lemma last_bytes_same length k k' p len s :
  same_key length k k' -> 0 <= p -> p + len <= length ->
  last_bytes k p len s = last_bytes k' p len s.
Proof.
  intros H Hp Hl. destruct s as [[a b] c]. unfold last_bytes, ch.
  repeat match goal with
  | |- context [?n <=? len] => destruct (Z.leb_spec n len); try lia
  end; rewrite ?H by lia; done.
Qed.

(** the two loops of [hash_chash] consume exactly the key: at most 11
    bytes are left for the [switch] and no byte past the [length] of the key
    influences the hash. *)
Theorem hash_chash_key_only k k' length :
  0 <= length < 2 ^ 32 -> same_key length k k' ->
  hash_chash k length = hash_chash k' length /\
  forall s, let '(_, p, len) := loop (Z.to_nat (wrap 32 length / 12)) k 0 (wrap 32 length) s in
  0 <= len < 12 /\ p + len = length.
Proof.
  intros Hl H.
  assert (forall k s, let '(_, p, len) := loop (Z.to_nat (length / 12)) k 0 length s in
    (0 <= len < 12 /\ p + len = length) /\ 0 <= p) as HL.
  { intros k0 s. pose proof (chash_loop_rest (Z.to_nat (length / 12)) k0 0 length s ltac:(lia)) as HL.
    destruct (loop _ _ _ _ _) as [[s' p] len].
    enough (length < 12 * (Z.of_nat (Z.to_nat (length / 12)) + 1)) by lia.
    rewrite Z2Nat.id by (apply Z.div_pos; lia). pose proof (Z.div_mod length 12 ltac:(lia)).
    pose proof (Z.mod_pos_bound length 12 ltac:(lia)). lia. }
  rewrite wrap_small by done. split; cycle 1.
  { intros s. specialize (HL k s). destruct (loop _ _ _ _ _) as [[s' p] len]. apply HL. }
  unfold hash_chash. rewrite wrap_small by done. rewrite (chash_loop_same length k k') by (done || lia).
  specialize (HL k' (0x9e3779b9, 0x9e3779b9, 0x544D4A52)).
  destruct (loop _ _ _ _ _) as [[[[a b] c] p] len].
  rewrite (last_bytes_same length k k') by (done || lia). done.
Qed.

Lemma hash_chash_key_only_witness :
  hash_chash (fun i => byte_of i) 30 = hash_chash (fun i => if i <? 30 then byte_of i else xff) 30.
Proof.
  apply (hash_chash_key_only (fun i => byte_of i) (fun i => if i <? 30 then byte_of i else xff) 30);
    [lia|].
  intros i Hi. destruct (Z.ltb_spec i 30); [reflexivity|lia].
Defined.
End ChashFacts.
