(* ===== verification/DList.v ===== *)
(** * Doubly linked lists

    The cache keeps its doubly linked lists (the bins of the allocator, the
    node groups, the LRU lists) as handles stored in shared memory.  A list is
    described here by its two link functions and the sequence of its elements,
    whatever the memory the links live in. *)

From S2P Require Import Prelude.

(** The first and the last element of a list, [d] when it is empty. *)
Definition first_or (d : Z) (l : list Z) : Z := default d (head l).
Definition last_or (d : Z) (l : list Z) : Z := default d (last l).

(** [l] is linked, between the element [p] before it and [n] after it. *)
Fixpoint dseg (pre nxt : Z -> Z) (p : Z) (l : list Z) (n : Z) : Prop :=
  match l with
  | [] => True
  | x :: l => pre x = p /\ nxt x = first_or n l /\ dseg pre nxt x l n
  end.

(** [l] is the list of the ring through the head [hd]. *)
Definition ring (pre nxt : Z -> Z) (hd : Z) (l : list Z) : Prop :=
  dseg pre nxt hd l hd /\ pre hd = last_or hd l /\ nxt hd = first_or hd l.

Section Lists.

Implicit Types (pre nxt : Z -> Z) (l : list Z) (p n x y : Z).

Lemma first_or_app d l1 l2 : first_or d (l1 ++ l2) = first_or (first_or d l2) l1.
Proof. destruct l1; reflexivity. Qed.

Lemma last_or_app d l1 l2 : last_or d (l1 ++ l2) = last_or (last_or d l1) l2.
Proof.
  unfold last_or. destruct l2 as [|y l2] using rev_ind; [by rewrite app_nil_r|].
  by rewrite app_assoc, !last_snoc.
Qed.

Lemma last_or_cons d x l : last_or d (x :: l) = last_or x l.
Proof. apply (last_or_app d [x] l). Qed.

Lemma last_or_default d e l : l ≠ [] -> last_or d l = last_or e l.
Proof. destruct l as [|x l]; [done|]. by rewrite !last_or_cons. Qed.

Lemma first_or_default d e l : l ≠ [] -> first_or d l = first_or e l.
Proof. by destruct l. Qed.

Lemma first_or_in d l : l ≠ [] -> first_or d l ∈ l.
Proof. destruct l; [done|]. intros _. left. Qed.

Lemma last_or_in d l : l ≠ [] -> last_or d l ∈ l.
Proof.
  destruct l as [|x l] using rev_ind; [done|]. intros _.
  rewrite last_or_app. apply elem_of_app. right. left.
Qed.

Lemma first_or_nil_iff d l : d ∉ l -> first_or d l = d <-> l = [].
Proof.
  intros Hd. split; [|intros ->; reflexivity]. destruct l as [|x l]; [done|].
  intros E. destruct Hd. rewrite <- E. left.
Qed.

Lemma last_or_nil_iff d l : d ∉ l -> last_or d l = d <-> l = [].
Proof.
  intros Hd. split; [|intros ->; reflexivity]. intros E.
  destruct (decide (l = [])) as [|Hne]; [done|].
  destruct Hd. rewrite <- E. by apply last_or_in.
Qed.

Lemma dseg_app pre nxt p l1 l2 n :
  dseg pre nxt p (l1 ++ l2) n <->
  dseg pre nxt p l1 (first_or n l2) /\ dseg pre nxt (last_or p l1) l2 n.
Proof.
  revert p. induction l1 as [|x l1 IH]; intros p; simpl; [by intuition|].
  rewrite first_or_app, IH, last_or_cons. by intuition.
Qed.

(** Only the links of the elements matter. *)
Lemma dseg_ext pre nxt pre' nxt' p l n :
  (forall y, y ∈ l -> pre' y = pre y /\ nxt' y = nxt y) ->
  dseg pre nxt p l n -> dseg pre' nxt' p l n.
Proof.
  revert p. induction l as [|x l IH]; intros p Hag; simpl; [done|].
  intros (H1 & H2 & H3). destruct (Hag x) as [-> ->]; [left|].
  split_and!; [done..|]. apply IH; [|done]. intros y Hy. apply Hag. by right.
Qed.

(** Redirect the link of the last element. *)
Lemma dseg_set_last pre nxt pre' nxt' p l n n' :
  NoDup l ->
  (forall y, y ∈ l -> pre' y = pre y) ->
  (forall y, y ∈ l -> nxt' y = if y =? last_or p l then n' else nxt y) ->
  dseg pre nxt p l n -> dseg pre' nxt' p l n'.
Proof.
  destruct l as [|x l _] using rev_ind; [done|].
  rewrite NoDup_app. intros (_ & Hnd & _) Hp Hn. rewrite !dseg_app. simpl. intros (H1 & H2 & _ & _).
  rewrite last_or_app in Hn. cbn in Hn.
  split_and!; [|rewrite Hp; [done|set_solver]|rewrite Hn by set_solver; by rewrite Z.eqb_refl|done].
  apply (dseg_ext pre nxt); [|done]. intros y Hy. rewrite Hp, Hn by set_solver.
  split; [done|]. destruct (Z.eqb_spec y x) as [->|]; [|done]. destruct (Hnd x); [done|left].
Qed.

(** Redirect the link of the first element. *)
Lemma dseg_set_first pre nxt pre' nxt' p p' l n :
  NoDup l ->
  (forall y, y ∈ l -> pre' y = if y =? first_or n l then p' else pre y) ->
  (forall y, y ∈ l -> nxt' y = nxt y) ->
  dseg pre nxt p l n -> dseg pre' nxt' p' l n.
Proof.
  destruct l as [|x l]; [done|]. rewrite NoDup_cons. intros (Hx & _) Hp Hn. simpl.
  intros (_ & H2 & H3). split_and!.
  - rewrite Hp by left. cbn. by rewrite Z.eqb_refl.
  - rewrite Hn by left. done.
  - apply (dseg_ext pre nxt); [|done]. intros y Hy. rewrite Hp, Hn by (by right).
    cbn. destruct (Z.eqb_spec y x) as [->|]; [done|done].
Qed.

(** Unlinking an element from a null-terminated list. *)
Lemma dseg_unlink pre nxt pre' nxt' l1 x l2 :
  NoDup (l1 ++ x :: l2) -> 0 ∉ l1 ++ x :: l2 ->
  (forall y, y ∈ l1 ++ l2 -> pre' y = if y =? first_or 0 l2 then last_or 0 l1 else pre y) ->
  (forall y, y ∈ l1 ++ l2 -> nxt' y = if y =? last_or 0 l1 then first_or 0 l2 else nxt y) ->
  dseg pre nxt 0 (l1 ++ x :: l2) 0 -> dseg pre' nxt' 0 (l1 ++ l2) 0.
Proof.
  intros Hnd Hz Hp Hn. rewrite !dseg_app. simpl. intros (H1 & _ & _ & H2).
  apply NoDup_app in Hnd as (Hnd1 & Hdis & [_ Hnd2]%NoDup_cons).
  split.
  - eapply dseg_set_last; [done| | |exact H1].
    + intros y Hy. rewrite Hp by set_solver. destruct (Z.eqb_spec y (first_or 0 l2)) as [->|]; [|done].
      destruct (decide (l2 = [])) as [->|Hne]; [set_solver|].
      pose proof (first_or_in 0 l2 Hne). set_solver.
    + intros y Hy. apply Hn. set_solver.
  - eapply dseg_set_first; [done| | |exact H2].
    + intros y Hy. apply Hp. set_solver.
    + intros y Hy. rewrite Hn by set_solver. destruct (Z.eqb_spec y (last_or 0 l1)) as [->|]; [|done].
      destruct (decide (l1 = [])) as [->|Hne]; [set_solver|].
      pose proof (last_or_in 0 l1 Hne). set_solver.
Qed.

(** Linking an element at the head of a null-terminated list. *)
Lemma dseg_push pre nxt pre' nxt' h l :
  NoDup l -> pre' h = 0 -> nxt' h = first_or 0 l ->
  (forall y, y ∈ l -> pre' y = if y =? first_or 0 l then h else pre y) ->
  (forall y, y ∈ l -> nxt' y = nxt y) ->
  dseg pre nxt 0 l 0 -> dseg pre' nxt' 0 (h :: l) 0.
Proof. intros. simpl. split_and!; [done..|]. by eapply dseg_set_first. Qed.

(** The element before and after a member. *)
Lemma dseg_links pre nxt l1 x l2 :
  dseg pre nxt 0 (l1 ++ x :: l2) 0 -> pre x = last_or 0 l1 /\ nxt x = first_or 0 l2.
Proof. rewrite dseg_app. simpl. tauto. Qed.

(** ** Rings *)

Lemma first_or_hd d l : first_or d l ∈ d :: l.
Proof. destruct l; cbn; set_solver. Qed.

Lemma last_or_hd d l : last_or d l ∈ d :: l.
Proof. destruct (decide (l = [])) as [->|Hne]; [left|right; by apply last_or_in]. Qed.

Lemma ring_ext pre nxt pre' nxt' hd l :
  (forall y, y ∈ hd :: l -> pre' y = pre y /\ nxt' y = nxt y) ->
  ring pre nxt hd l -> ring pre' nxt' hd l.
Proof.
  intros He (H1 & H2 & H3). destruct (He hd) as [E1 E2]; [left|]. split_and!; [|by rewrite E1|by rewrite E2].
  apply (dseg_ext pre nxt); [|done]. intros y Hy. apply He. by right.
Qed.

Lemma ring_links pre nxt hd l1 x l2 :
  ring pre nxt hd (l1 ++ x :: l2) -> pre x = last_or hd l1 /\ nxt x = first_or hd l2.
Proof. intros (Hd & _). rewrite dseg_app in Hd. simpl in Hd. tauto. Qed.

(** A new element after the head. *)
Lemma ring_add pre nxt pre' nxt' hd x l :
  NoDup (hd :: x :: l) -> ring pre nxt hd l ->
  (forall y, y ∈ hd :: x :: l ->
     pre' y = if y =? x then hd else if y =? first_or hd l then x else pre y) ->
  (forall y, y ∈ hd :: x :: l ->
     nxt' y = if y =? hd then x else if y =? x then first_or hd l else nxt y) ->
  ring pre' nxt' hd (x :: l).
Proof.
  rewrite !NoDup_cons, not_elem_of_cons. intros ((Hhx & Hh) & Hx & Hnd) (Hd & Hp & Hn) Ep En.
  assert (x =? hd = false) as Ex by (apply Z.eqb_neq; done).
  assert (hd =? x = false) as Ex' by (apply Z.eqb_neq; done).
  split_and!; [simpl; split_and!| |].
  - rewrite Ep by set_solver. by rewrite Z.eqb_refl.
  - rewrite En by set_solver. by rewrite Ex, Z.eqb_refl.
  - apply (dseg_set_first pre nxt pre' nxt' hd x l hd); [done| | |done]; intros y Hy.
    + rewrite Ep by set_solver. destruct (Z.eqb_spec y x) as [->|]; done.
    + rewrite En by set_solver. destruct (Z.eqb_spec y hd) as [->|]; [done|].
      destruct (Z.eqb_spec y x) as [->|]; done.
  - rewrite Ep by set_solver. rewrite Ex', Hp, last_or_cons.
    destruct (Z.eqb_spec hd (first_or hd l)) as [E|E]; [|destruct l; [done|by apply last_or_default]].
    symmetry in E. by rewrite (proj1 (first_or_nil_iff hd l Hh) E).
  - rewrite En by set_solver. by rewrite Z.eqb_refl.
Qed.

(** An element leaves the ring. *)
Lemma ring_del pre nxt pre' nxt' hd l1 x l2 :
  NoDup (hd :: l1 ++ x :: l2) -> ring pre nxt hd (l1 ++ x :: l2) ->
  (forall y, y ∈ hd :: l1 ++ l2 -> pre' y = if y =? first_or hd l2 then last_or hd l1 else pre y) ->
  (forall y, y ∈ hd :: l1 ++ l2 -> nxt' y = if y =? last_or hd l1 then first_or hd l2 else nxt y) ->
  ring pre' nxt' hd (l1 ++ l2).
Proof.
  rewrite NoDup_cons, NoDup_app, NoDup_cons, not_elem_of_app, not_elem_of_cons.
  intros ((Hh1 & _ & Hh2) & Hnd1 & Hdis & Hx & Hnd2) (Hd & Hp & Hn) Ep En.
  rewrite dseg_app in Hd. simpl in Hd. destruct Hd as (D1 & _ & _ & D2).
  assert (forall y, y ∈ l1 -> y ≠ first_or hd l2) as N1.
  { intros y Hy ->. pose proof (first_or_hd hd l2) as [E|Hl]%elem_of_cons; [by rewrite E in Hy|].
    apply (Hdis _ Hy). by right. }
  assert (forall y, y ∈ l2 -> y ≠ last_or hd l1) as N2.
  { intros y Hy ->. pose proof (last_or_hd hd l1) as [E|Hl]%elem_of_cons; [by rewrite E in Hy|].
    apply (Hdis _ Hl). by right. }
  split_and!; [rewrite dseg_app; split| |].
  - apply (dseg_set_last pre nxt pre' nxt' hd l1 x (first_or hd l2)); [done| | |done]; intros y Hy.
    + rewrite Ep by set_solver. destruct (Z.eqb_spec y (first_or hd l2)); [by destruct (N1 y)|done].
    + apply En. set_solver.
  - apply (dseg_set_first pre nxt pre' nxt' x (last_or hd l1) l2 hd); [done| | |done]; intros y Hy.
    + apply Ep. set_solver.
    + rewrite En by set_solver. destruct (Z.eqb_spec y (last_or hd l1)); [by destruct (N2 y)|done].
  - rewrite Ep, Hp, !last_or_app, last_or_cons by left.
    destruct (Z.eqb_spec hd (first_or hd l2)) as [E|E].
    + symmetry in E. by rewrite (proj1 (first_or_nil_iff hd l2 Hh2) E).
    + destruct l2; [done|]. by rewrite !last_or_cons.
  - rewrite En, Hn, !first_or_app by left. destruct (Z.eqb_spec hd (last_or hd l1)) as [E|E].
    + symmetry in E. by rewrite (proj1 (last_or_nil_iff hd l1 Hh1) E).
    + destruct l1; [done|done].
Qed.

End Lists.
