(* ===== verification/PtMalloc.v ===== *)
(** * The chunk allocator of the cache (src/core/mem/pt_malloc.h, pt_malloc.cc)

    [PtMalloc] manages one shared-memory segment as a sequence of chunks with
    boundary tags, binned by size.  A handle is the offset of a byte of the
    segment; a pointer into the segment is modelled by its handle and [NULL]
    by handle 0.  The words of the segment the allocator reads and writes are
    the cells of a map from offsets to values: the chunk at [p] has
    [m_tPreSize] at [p], [m_tSize] at [p + 4], [m_hPreChunk] at [p + 8] and
    [m_hNextChunk] at [p + 16], so that a chunk's user memory, which starts at
    [p + 8], overlaps its links and the [m_tPreSize] of the chunk after it. *)

From S2P Require Import Prelude.

(** ** Constants of mallocator.h and pt_malloc.h (64-bit build) *)

Definition INVALID_HANDLE : Z := 0.
Definition SIZE_SZ : Z := 4.
Definition MALLOC_ALIGN_MASK : Z := 2 * SIZE_SZ - 1.
Definition MAX_ALLOC_SIZE : Z := 0xfffffff8.
Definition MINSIZE : Z := 24.
Definition NBINS : Z := 128.
Definition NSMALLBINS : Z := 64.
Definition NFASTBINS : Z := NSMALLBINS.
Definition MIN_LARGE_SIZE : Z := 512.
Definition DTC_VER_MIN : Z := 4.
Definition DTC_RESERVE_SIZE : Z := 4 * 1024.
Definition MALLOC_FLAG_FAST : Z := 1.
Definition sizeof_MemHead : Z := 1024.
Definition sizeof_CBin : Z := 16.
Definition MAXSTATCOUNT : Z := 10000 * 3600 * 12.

Definition V4Sign : list Z :=
  [0; 0x4D635474; 1; 0xFFFFFFFF; 0xFFFFFFFF; 0xFFFFFFFF; 4; 0; 16; 0xFFFFFFFF; 0; 0;
   0xFFFFFFFF; 0xFFFFFFFF].

(** ** Size computations (the macros of pt_malloc.cc) *)

Definition PREV_INUSE : Z := 1.
Definition SIZE_BITS : Z := 7.

Definition REAL_SIZE (sz : Z) : Z := Z.ldiff sz SIZE_BITS.

Definition chunk2mem (h : Z) : Z := h + 2 * SIZE_SZ.
Definition mem2chunk (h : Z) : Z := h - 2 * SIZE_SZ.
Definition chunksize2memsize (size : Z) : Z := wrap 32 (size - SIZE_SZ).

Definition misaligned_chunk (h : Z) : bool := negb (Z.land h MALLOC_ALIGN_MASK =? 0).

Definition REQUEST_OUT_OF_RANGE (req : Z) : bool := wrap 32 (- 2 * MINSIZE) <=? req.

Definition request2size (req : Z) : Z :=
  if req + SIZE_SZ + MALLOC_ALIGN_MASK <? MINSIZE then MINSIZE
  else Z.ldiff (req + SIZE_SZ + MALLOC_ALIGN_MASK) MALLOC_ALIGN_MASK.

Definition in_smallbin_range (sz : Z) : bool := sz <? MIN_LARGE_SIZE.
Definition smallbin_index (sz : Z) : Z := Z.shiftr sz 3.

Definition largebin_index (sz : Z) : Z :=
  if Z.shiftr sz 6 <=? 32 then 56 + Z.shiftr sz 6
  else if Z.shiftr sz 9 <=? 20 then 91 + Z.shiftr sz 9
  else if Z.shiftr sz 12 <=? 10 then 110 + Z.shiftr sz 12
  else if Z.shiftr sz 15 <=? 4 then 119 + Z.shiftr sz 15
  else if Z.shiftr sz 18 <=? 2 then 124 + Z.shiftr sz 18
  else 126.

Definition bin_index (sz : Z) : Z :=
  if in_smallbin_range sz then smallbin_index sz else largebin_index sz.

Definition CAN_COMBILE (size add : Z) : bool := size + add <=? MAX_ALLOC_SIZE.

(** ** State *)

(** A doubly linked list of chunks: its last and its first element. *)
Record CBin := mkCBin { bin_hPreChunk : Z; bin_hNextChunk : Z }.

Definition empty_CBin : CBin := mkCBin INVALID_HANDLE INVALID_HANDLE.

(** [_MemHead].  [m_auiBinBitMap] holds the words from the bitmap onwards:
    words 0 to 3 are the bitmap, word 4 is [m_shmIntegrity] and the words after
    it [m_achReserv], because the search loop of [inter_malloc] runs past the
    bitmap. *)
Record MemHead := mkHead {
  m_auiSign : list Z;
  m_ushVer : Z;
  m_ushHeadSize : Z;
  m_tSize : Z;
  m_tUserAllocSize : Z;
  m_tUserAllocChunkCnt : Z;
  m_uiFlags : Z;
  m_hBottom : Z;
  m_hReserveZone : Z;
  m_hTop : Z;
  m_tLastFreeChunkSize : Z;
  m_ushBinCnt : Z;
  m_ushFastBinCnt : Z;
  m_auiBinBitMap : gmap Z Z
}.

(** The singleton: the head, the bins, the cells above [m_hBottom] and the
    statistics that feed back into allocation. *)
Record PtMalloc := mkPt {
  m_pstHead : MemHead;
  m_ptBin : gmap Z CBin;
  m_ptFastBin : gmap Z CBin;
  m_ptUnsortedBin : CBin;
  cells : gmap Z Z;
  statChunkTotal : Z;
  statDataSize : Z;
  statTmpDataSizeRecently : Z;
  statTmpDataAllocCountRecently : Z;
  statAverageDataSizeRecently : Z;
  minChunkSize : Z
}.

Definition set_pstHead (f : MemHead -> MemHead) (st : PtMalloc) : PtMalloc :=
  let '(mkPt hd b fb ub c s1 s2 s3 s4 s5 mc) := st in mkPt (f hd) b fb ub c s1 s2 s3 s4 s5 mc.

Definition set_cells (f : gmap Z Z -> gmap Z Z) (st : PtMalloc) : PtMalloc :=
  let '(mkPt hd b fb ub c s1 s2 s3 s4 s5 mc) := st in mkPt hd b fb ub (f c) s1 s2 s3 s4 s5 mc.

Definition set_stats (f : Z * Z -> Z * Z) (st : PtMalloc) : PtMalloc :=
  let '(mkPt hd b fb ub c s1 s2 s3 s4 s5 mc) := st in
  let '(s1, s2) := f (s1, s2) in mkPt hd b fb ub c s1 s2 s3 s4 s5 mc.

Definition set_hTop (v : Z) (hd : MemHead) : MemHead :=
  let '(mkHead a b c d e f g h i _ k l m n) := hd in mkHead a b c d e f g h i v k l m n.

Definition set_tLastFreeChunkSize (v : Z) (hd : MemHead) : MemHead :=
  let '(mkHead a b c d e f g h i j _ l m n) := hd in mkHead a b c d e f g h i j v l m n.

Definition set_user (size cnt : Z) (hd : MemHead) : MemHead :=
  let '(mkHead a b c d _ _ g h i j k l m n) := hd in mkHead a b c d size cnt g h i j k l m n.

Definition set_uiFlags (v : Z) (hd : MemHead) : MemHead :=
  let '(mkHead a b c d e f _ h i j k l m n) := hd in mkHead a b c d e f v h i j k l m n.

Definition set_bitmap (f : gmap Z Z -> gmap Z Z) (hd : MemHead) : MemHead :=
  let '(mkHead a b c d e f' g h i j k l m n) := hd in mkHead a b c d e f' g h i j k l m (f n).

(** *** Cells *)

Definition cell (c : gmap Z Z) (a : Z) : Z := default 0 (c !! a).

Definition rd (st : PtMalloc) (a : Z) : Z := cell (cells st) a.
Definition wr (a v : Z) (st : PtMalloc) : PtMalloc := set_cells (fun c => <[a := v]> c) st.

(** Fields of the [MallocChunk] at [p]. *)
Definition tPreSize (st : PtMalloc) (p : Z) : Z := rd st p.
Definition tSize (st : PtMalloc) (p : Z) : Z := rd st (p + 4).
Definition hPreChunk (st : PtMalloc) (p : Z) : Z := rd st (p + 8).
Definition hNextChunk (st : PtMalloc) (p : Z) : Z := rd st (p + 16).

Definition set_tPreSize (p v : Z) : PtMalloc -> PtMalloc := wr p v.
Definition set_tSize (p v : Z) : PtMalloc -> PtMalloc := wr (p + 4) v.
Definition set_hPreChunk (p v : Z) : PtMalloc -> PtMalloc := wr (p + 8) v.
Definition set_hNextChunk (p v : Z) : PtMalloc -> PtMalloc := wr (p + 16) v.

Definition CHUNK_SIZE (st : PtMalloc) (p : Z) : Z := Z.ldiff (tSize st p) SIZE_BITS.

Definition prev_inuse (st : PtMalloc) (p : Z) : bool := negb (Z.land (tSize st p) PREV_INUSE =? 0).

Definition inuse_bit_at_offset (st : PtMalloc) (p offset : Z) : bool := prev_inuse st (p + offset).

Definition set_inuse_bit_at_offset (p s : Z) (st : PtMalloc) : PtMalloc :=
  set_tSize (p + s) (Z.lor (tSize st (p + s)) PREV_INUSE) st.

Definition clear_inuse_bit_at_offset (p s : Z) (st : PtMalloc) : PtMalloc :=
  set_tSize (p + s) (Z.ldiff (tSize st (p + s)) PREV_INUSE) st.

Definition set_size_at_offset (p offset size : Z) (st : PtMalloc) : PtMalloc :=
  set_tSize (p + offset) (Z.lor (REAL_SIZE size) (Z.land (tSize st (p + offset)) SIZE_BITS)) st.

Definition set_presize_at_offset (p offset size : Z) (st : PtMalloc) : PtMalloc :=
  set_tPreSize (p + offset) (REAL_SIZE size) st.

Definition AT_TOP (st : PtMalloc) (chunk sz : Z) : bool := chunk + sz =? m_hTop (m_pstHead st).

Definition handle_to_ptr (h : Z) : Z := h.

Definition ptr_to_handle (st : PtMalloc) (p : Z) : Z :=
  if (p <? 0) || (m_tSize (m_pstHead st) <=? p) then INVALID_HANDLE else p.

(** *** Bins *)

Inductive BinRef := Bin (i : Z) | FastBin (i : Z) | UnsortedBin.

Definition get_bin (st : PtMalloc) (b : BinRef) : CBin :=
  match b with
  | Bin i => default empty_CBin (m_ptBin st !! i)
  | FastBin i => default empty_CBin (m_ptFastBin st !! i)
  | UnsortedBin => m_ptUnsortedBin st
  end.

Definition set_bin (b : BinRef) (v : CBin) (st : PtMalloc) : PtMalloc :=
  let '(mkPt hd bs fb ub c s1 s2 s3 s4 s5 mc) := st in
  match b with
  | Bin i => mkPt hd (<[i := v]> bs) fb ub c s1 s2 s3 s4 s5 mc
  | FastBin i => mkPt hd bs (<[i := v]> fb) ub c s1 s2 s3 s4 s5 mc
  | UnsortedBin => mkPt hd bs fb v c s1 s2 s3 s4 s5 mc
  end.

Definition bitmap_word (st : PtMalloc) (i : Z) : Z := cell (m_auiBinBitMap (m_pstHead st)) i.

Definition set_bin_bit_map (i : Z) (st : PtMalloc) : PtMalloc :=
  set_pstHead (set_bitmap (fun m =>
    <[i / 32 := Z.lor (bitmap_word st (i / 32)) (Z.shiftl 1 (i mod 32))]> m)) st.

Definition clear_bin_bit_map (i : Z) (st : PtMalloc) : PtMalloc :=
  set_pstHead (set_bitmap (fun m =>
    <[i / 32 := Z.ldiff (bitmap_word st (i / 32)) (Z.shiftl 1 (i mod 32))]> m)) st.

Definition empty_bin (st : PtMalloc) (i : Z) : bool :=
  bin_hNextChunk (get_bin st (Bin i)) =? INVALID_HANDLE.

(** [if (empty_bin(i)) clear_bin_bit_map(i);] *)
Definition clear_if_empty (i : Z) (st : PtMalloc) : PtMalloc :=
  if empty_bin st i then clear_bin_bit_map i st else st.

(** ** Bin lists *)

Definition unlink_bin (b : BinRef) (h : Z) (st : PtMalloc) : Z * PtMalloc :=
  if h =? INVALID_HANDLE then (-1, st)
  else if (bin_hNextChunk (get_bin st b) =? INVALID_HANDLE)
       || (bin_hPreChunk (get_bin st b) =? INVALID_HANDLE) then (-2, st)
  else
    let st :=
      if hPreChunk st h =? INVALID_HANDLE then
        set_bin b (mkCBin (bin_hPreChunk (get_bin st b)) (hNextChunk st h)) st
      else set_hNextChunk (hPreChunk st h) (hNextChunk st h) st in
    let st :=
      if hNextChunk st h =? INVALID_HANDLE then
        set_bin b (mkCBin (hPreChunk st h) (bin_hNextChunk (get_bin st b))) st
      else set_hPreChunk (hNextChunk st h) (hPreChunk st h) st in
    (0, st).

Definition link_bin (b : BinRef) (h : Z) (st : PtMalloc) : Z * PtMalloc :=
  if h =? INVALID_HANDLE then (-1, st)
  else
    let st := set_hNextChunk h (bin_hNextChunk (get_bin st b)) st in
    let st := set_hPreChunk h INVALID_HANDLE st in
    if negb (bin_hNextChunk (get_bin st b) =? INVALID_HANDLE) then
      let st := set_hPreChunk (bin_hNextChunk (get_bin st b)) h st in
      if bin_hPreChunk (get_bin st b) =? INVALID_HANDLE then (-2, st)
      else (0, set_bin b (mkCBin (bin_hPreChunk (get_bin st b)) h) st)
    else if negb (bin_hPreChunk (get_bin st b) =? INVALID_HANDLE) then (-3, st)
    else (0, set_bin b (mkCBin h h) st).

(** [while (hPre != INVALID_HANDLE) { if (tSize <= ...) break; ... }] *)
Fixpoint sorted_position (fuel : nat) (st : PtMalloc) (tSz hPre : Z) : option Z :=
  match fuel with
  | O => None
  | S fuel =>
      if hPre =? INVALID_HANDLE then Some INVALID_HANDLE
      else if tSz <=? tSize st hPre then Some hPre
      else sorted_position fuel st tSz (hPreChunk st hPre)
  end.

Definition link_sorted_bin (b : BinRef) (h tSz : Z) (st : PtMalloc) : option (Z * PtMalloc) :=
  if h =? INVALID_HANDLE then Some (-1, st)
  else
    let st := set_hPreChunk h INVALID_HANDLE (set_hNextChunk h INVALID_HANDLE st) in
    if bin_hNextChunk (get_bin st b) =? INVALID_HANDLE then
      Some (0, set_bin b (mkCBin h h) st)
    else
      let tSz := Z.lor (REAL_SIZE tSz) PREV_INUSE in
      hPre ← sorted_position (S (size (cells st))) st tSz (bin_hPreChunk (get_bin st b));
      if hPre =? INVALID_HANDLE then
        if bin_hPreChunk (get_bin st b) =? INVALID_HANDLE then Some (-1, st)
        else Some (0, (link_bin b h st).2)
      else
        let st := set_hPreChunk h hPre st in
        let st := set_hNextChunk h (hNextChunk st hPre) st in
        let st := set_hNextChunk hPre h st in
        if negb (hNextChunk st h =? INVALID_HANDLE) then
          Some (0, set_hPreChunk (hNextChunk st h) h st)
        else Some (0, set_bin b (mkCBin h (bin_hNextChunk (get_bin st b))) st).

(** The head chunk of a bin, marked in use and unlinked; 0 is [NULL]. *)
Definition bin_malloc (b : BinRef) (st : PtMalloc) : Z * PtMalloc :=
  if bin_hNextChunk (get_bin st b) =? INVALID_HANDLE then (0, st)
  else
    let p := bin_hNextChunk (get_bin st b) in
    let st := set_inuse_bit_at_offset p (REAL_SIZE (tSize st p)) st in
    (p, (unlink_bin b (bin_hNextChunk (get_bin st b)) st).2).

Definition fast_malloc (tSz : Z) (st : PtMalloc) : Z * PtMalloc :=
  bin_malloc (FastBin (smallbin_index tSz)) st.

Definition small_bin_malloc (tSz : Z) (st : PtMalloc) : Z * PtMalloc :=
  let uiBinIdx := smallbin_index tSz in
  let '(p, st) := bin_malloc (Bin uiBinIdx) st in
  (p, clear_if_empty uiBinIdx st).

(** The [do ... while] that follows [m_hNextChunk] to the end of a list. *)
Fixpoint last_of_list (fuel : nat) (st : PtMalloc) (h : Z) : option Z :=
  match fuel with
  | O => None
  | S fuel =>
      if hNextChunk st h =? INVALID_HANDLE then Some h
      else last_of_list fuel st (hNextChunk st h)
  end.

(** One bin is consistent when walking it ends at its [m_hPreChunk]. *)
Definition check_one_bin (st : PtMalloc) (b : BinRef) : option bool :=
  let h := bin_hNextChunk (get_bin st b) in
  h ← (if h =? INVALID_HANDLE then Some h else last_of_list (S (size (cells st))) st h);
  Some (bin_hPreChunk (get_bin st b) =? h).

(** [check_bin]: -1, -2 or -3 for the first inconsistent bin, fast bin or
    unsorted bin; [None] when a list is cyclic and the walk does not end. *)
Fixpoint check_bins (st : PtMalloc) (bs : list BinRef) (code : Z) : option Z :=
  match bs with
  | [] => Some 0
  | b :: bs => ok ← check_one_bin st b; if (ok : bool) then check_bins st bs code else Some code
  end.

Definition check_bin (st : PtMalloc) : option Z :=
  r ← check_bins st (map (fun i => Bin (Z.of_nat i)) (seq 0 128)) (-1);
  if negb (r =? 0) then Some r else
  r ← check_bins st (map (fun i => FastBin (Z.of_nat i)) (seq 0 64)) (-2);
  if negb (r =? 0) then Some r else check_bins st [UnsortedBin] (-3).

(** ** Free *)

Definition check_inuse_chunk (st : PtMalloc) (p : Z) : Z :=
  if negb (inuse_bit_at_offset st p (CHUNK_SIZE st p)) then -1
  else
    let pre_bad :=
      if negb (prev_inuse st p) then
        let pstTmp := p - tPreSize st p in
        (ptr_to_handle st pstTmp <? m_hBottom (m_pstHead st))
        || negb (CHUNK_SIZE st pstTmp =? tPreSize st p)
      else false in
    if pre_bad then -2
    else
      let pstTmp := p + CHUNK_SIZE st p in
      if negb (AT_TOP st pstTmp 0) && (CHUNK_SIZE st pstTmp <? MINSIZE) then -3
      else 0.

(** Merge with the chunk before, when it is free and the sum fits. *)
Definition combine_prev (p tSz : Z) (st : PtMalloc) : Z * Z * PtMalloc :=
  if negb (prev_inuse st p) && CAN_COMBILE tSz (tPreSize st p) then
    let pre := tPreSize st p in
    let tSz := tSz + pre in
    let uiBinIdx := bin_index pre in
    let p := p - pre in
    let st := (unlink_bin (Bin uiBinIdx) (ptr_to_handle st p) st).2 in
    let st := clear_if_empty uiBinIdx st in
    let st := set_size_at_offset p 0 tSz st in
    let st := set_presize_at_offset p tSz tSz st in
    (p, tSz, st)
  else (p, tSz, st).

(** Merge with the chunk after, when it is not the top, is free and the sum
    fits; [inl] is the error return. *)
Definition combine_next (p tSz : Z) (st : PtMalloc) : Z + Z * PtMalloc :=
  if negb (p + tSz =? m_hTop (m_pstHead st)) then
    let pstNextChunk := p + tSz in
    if CHUNK_SIZE st pstNextChunk <? MINSIZE then inl (-4)
    else if negb (inuse_bit_at_offset st pstNextChunk (REAL_SIZE (tSize st pstNextChunk)))
         && CAN_COMBILE tSz (CHUNK_SIZE st pstNextChunk) then
      let tSz := tSz + CHUNK_SIZE st pstNextChunk in
      let uiBinIdx := bin_index (CHUNK_SIZE st pstNextChunk) in
      let st := (unlink_bin (Bin uiBinIdx) (ptr_to_handle st pstNextChunk) st).2 in
      let st := clear_if_empty uiBinIdx st in
      let st := set_size_at_offset p 0 tSz st in
      let st := set_presize_at_offset p tSz tSz st in
      inr (tSz, st)
    else inr (tSz, st)
  else inr (tSz, st).

(** Give the merged chunk back: to the top, or to its bin. *)
Definition place_free (p tSz : Z) (st : PtMalloc) : PtMalloc :=
  let st := set_size_at_offset p 0 tSz st in
  let st := set_presize_at_offset p tSz tSz st in
  let st := set_inuse_bit_at_offset p tSz st in
  let st := if m_tLastFreeChunkSize (m_pstHead st) <? tSz
            then set_pstHead (set_tLastFreeChunkSize tSz) st else st in
  if p + tSz =? m_hTop (m_pstHead st) then
    let st := set_pstHead (set_hTop (m_hTop (m_pstHead st) - tSz)) st in
    let st := set_tSize p PREV_INUSE st in
    let hd := m_pstHead st in
    if (m_hTop hd + MINSIZE <? m_tSize hd)
       && (m_tLastFreeChunkSize hd <? m_tSize hd - m_hTop hd - MINSIZE)
    then set_pstHead (set_tLastFreeChunkSize (m_tSize hd - m_hTop hd - MINSIZE)) st
    else st
  else
    let st := clear_inuse_bit_at_offset p tSz st in
    if in_smallbin_range tSz then
      set_bin_bit_map (smallbin_index tSz) (link_bin (Bin (smallbin_index tSz)) (ptr_to_handle st p) st).2
    else
      set_bin_bit_map (largebin_index tSz) (link_bin (Bin (largebin_index tSz)) (ptr_to_handle st p) st).2.

(** The return code, [tMemSize] and the new state.  Two of the error returns
    are [return (INVALID_HANDLE);], that is 0. *)
Definition inter_free (hHandle : Z) (st : PtMalloc) : Z * Z * PtMalloc :=
  if hHandle =? INVALID_HANDLE then (0, 0, st)
  else if m_tSize (m_pstHead st) <=? hHandle then (-1, 0, st)
  else
    let p := mem2chunk (handle_to_ptr hHandle) in
    let tSz := CHUNK_SIZE st p in
    let hHandle := ptr_to_handle st p in
    if m_tSize (m_pstHead st) <=? hHandle + tSz then (-2, tSz, st)
    else if negb (inuse_bit_at_offset st p tSz) then (-3, tSz, st)
    else if misaligned_chunk hHandle then (INVALID_HANDLE, tSz, st)
    else if negb (check_inuse_chunk st p =? 0) then (INVALID_HANDLE, tSz, st)
    else
      let '(p, sum, st) := combine_prev p tSz st in
      match combine_next p sum st with
      | inl e => (e, tSz, st)
      | inr (sum, st) => (0, tSz, place_free p sum st)
      end.

Definition Free (hHandle : Z) (st : PtMalloc) : Z * PtMalloc :=
  let '(iRet, tSz, st) := inter_free hHandle st in
  if iRet =? 0 then
    let hd := m_pstHead st in
    let st := set_pstHead (set_user (wrap 64 (m_tUserAllocSize hd - tSz))
                                    (wrap 64 (m_tUserAllocChunkCnt hd - 1))) st in
    (iRet, set_stats (fun '(total, _) => (total - 1, m_tUserAllocSize (m_pstHead st))) st)
  else (iRet, st).

(** ** Allocation *)

Definition get_min_chunk_size (st : PtMalloc) : Z :=
  if minChunkSize st =? 1 then
    if statChunkTotal st <=? 0 then MINSIZE else wrap 32 (statDataSize st / statChunkTotal st)
  else minChunkSize st.

Definition set_min_chunk_size (sz : Z) (st : PtMalloc) : PtMalloc :=
  let '(mkPt hd b fb ub c s1 s2 s3 s4 s5 _) := st in
  mkPt hd b fb ub c s1 s2 s3 s4 s5 (if sz =? 1 then 1 else if sz <? MINSIZE then MINSIZE else sz).

(** A chunk from above the top; 0 is [NULL], "out of memory". *)
Definition top_alloc (tSz : Z) (st : PtMalloc) : Z * PtMalloc :=
  let hd := m_pstHead st in
  if m_tSize hd <=? m_hTop hd + tSz + MINSIZE then (0, st)
  else
    let p := handle_to_ptr (m_hTop hd) in
    let st := set_tSize p (Z.lor (Z.land (tSize st p) SIZE_BITS) (REAL_SIZE tSz)) st in
    let st := set_tPreSize (p + tSz) (REAL_SIZE tSz) st in
    let st := set_tSize (p + tSz) PREV_INUSE st in
    (chunk2mem p, set_pstHead (set_hTop (m_hTop hd + tSz)) st).

(** First fit among the first 99 chunks of a large bin. *)
Fixpoint search_bin (n : nat) (st : PtMalloc) (tSz v : Z) : option Z :=
  match n with
  | O => None
  | S n =>
      if v =? INVALID_HANDLE then None
      else if tSz <=? CHUNK_SIZE st v then Some v
      else search_bin n st tSz (hNextChunk st v)
  end.

(** Chunk [p] is cut into [tSz] and [tRemainSize] bytes, both marked in use. *)
Definition split_tags (p tSz tRemainSize : Z) (st : PtMalloc) : PtMalloc :=
  let st := set_tSize p (Z.lor tSz (Z.land (tSize st p) SIZE_BITS)) st in
  let pstNextChunk := p + tSz in
  let st := set_tSize pstNextChunk tRemainSize st in
  let st := set_tPreSize pstNextChunk tSz st in
  let st := set_inuse_bit_at_offset pstNextChunk 0 st in
  let st := set_tPreSize (p + tSz + tRemainSize) tRemainSize st in
  set_inuse_bit_at_offset pstNextChunk tRemainSize st.

(** Take chunk [p] of bin [uiBinIdx] for a request of [tSz] bytes; what is left
    over becomes a chunk of its own and is freed. *)
Definition take_chunk (uiBinIdx p tSz : Z) (st : PtMalloc) : Z * PtMalloc :=
  let tRemainSize := CHUNK_SIZE st p - tSz in
  let st := (unlink_bin (Bin uiBinIdx) (ptr_to_handle st p) st).2 in
  let st := clear_if_empty uiBinIdx st in
  let st :=
    if tRemainSize <? get_min_chunk_size st then
      set_inuse_bit_at_offset p (CHUNK_SIZE st p) st
    else
      let pstNextChunk := p + tSz in
      let st := split_tags p tSz tRemainSize st in
      (inter_free (chunk2mem (ptr_to_handle st pstNextChunk)) st).2 in
  (ptr_to_handle st (chunk2mem p), st).

(** The bitmap part of SEARCH_NEXT_BIN: skip the words that are zero. *)
Fixpoint skip_words (fuel : nat) (st : PtMalloc) (uiBitMapIdx uiBinIdx : Z) : Z :=
  match fuel with
  | O => uiBinIdx
  | S fuel =>
      if (uiBitMapIdx <? 16) && (bitmap_word st uiBitMapIdx =? 0)
      then skip_words fuel st (uiBitMapIdx + 1) (uiBinIdx + 32)
      else uiBinIdx
  end.

Definition first_candidate (st : PtMalloc) (uiBinIdx : Z) : Z :=
  let uiBitMapIdx := uiBinIdx / 32 in
  if bitmap_word st uiBitMapIdx =? 0 then
    skip_words 16 st (uiBitMapIdx + 1) ((uiBitMapIdx + 1) * 32)
  else uiBinIdx.

(** [while (uiBinIdx < NBINS && m_ptBin[uiBinIdx].m_hNextChunk == INVALID_HANDLE) uiBinIdx++;] *)
Fixpoint skip_bins (fuel : nat) (st : PtMalloc) (uiBinIdx : Z) : Z :=
  match fuel with
  | O => uiBinIdx
  | S fuel =>
      if (uiBinIdx <? NBINS) && empty_bin st uiBinIdx
      then skip_bins fuel st (uiBinIdx + 1) else uiBinIdx
  end.

(** [do { ... } while (CHUNK_SIZE(pstChunk) < tSize);] from the tail of a bin;
    [None] when the walk leaves the list. *)
Fixpoint search_tail (fuel : nat) (st : PtMalloc) (tSz hPre : Z) : option Z :=
  match fuel with
  | O => None
  | S fuel =>
      if hPre =? INVALID_HANDLE then None
      else if CHUNK_SIZE st hPre <? tSz then search_tail fuel st tSz (hPreChunk st hPre)
      else Some hPre
  end.

Definition search_next_bin (uiBinIdx tSz : Z) (st : PtMalloc) : option (Z * PtMalloc) :=
  let uiBinIdx := uiBinIdx + 1 in
  let uiBinIdx := skip_bins 128 st (first_candidate st uiBinIdx) in
  if NBINS <=? uiBinIdx then
    let '(p, st) := top_alloc tSz st in Some (ptr_to_handle st p, st)
  else
    p ← search_tail (S (size (cells st))) st tSz (bin_hPreChunk (get_bin st (Bin uiBinIdx)));
    Some (take_chunk uiBinIdx p tSz st).

(** [None]: the walk over a bin left its list (a corrupted segment). *)
Definition inter_malloc (req : Z) (st : PtMalloc) : option (Z * PtMalloc) :=
  if REQUEST_OUT_OF_RANGE req then Some (INVALID_HANDLE, st)
  else
    let tSz := request2size req in
    let '(p, st) := if in_smallbin_range tSz then small_bin_malloc tSz st else (0, st) in
    if negb (p =? 0) then Some (ptr_to_handle st (chunk2mem p), st)
    else
      let uiBinIdx := bin_index tSz in
      if negb (in_smallbin_range tSz) then
        match search_bin 99 st tSz (bin_hNextChunk (get_bin st (Bin uiBinIdx))) with
        | Some p => Some (take_chunk uiBinIdx p tSz st)
        | None => search_next_bin uiBinIdx tSz st
        end
      else search_next_bin uiBinIdx tSz st.

Definition add_alloc_size_to_stat (sz : Z) (st : PtMalloc) : PtMalloc :=
  let '(mkPt hd b fb ub c s1 s2 s3 s4 _ mc) := st in
  if MAXSTATCOUNT <? s4 then mkPt hd b fb ub c s1 s2 0 0 MINSIZE mc
  else mkPt hd b fb ub c s1 s2 (wrap 64 (s3 + sz)) (s4 + 1) (wrap 64 (s3 + sz) / (s4 + 1)) mc.

Definition Malloc (req : Z) (st : PtMalloc) : option (Z * PtMalloc) :=
  let st := set_pstHead (set_tLastFreeChunkSize 0) st in
  '(h, st) ← inter_malloc req st;
  if negb (h =? INVALID_HANDLE) then
    let p := mem2chunk (handle_to_ptr h) in
    let hd := m_pstHead st in
    let st := set_pstHead (set_user (wrap 64 (m_tUserAllocSize hd + CHUNK_SIZE st p))
                                    (wrap 64 (m_tUserAllocChunkCnt hd + 1))) st in
    let st := set_stats (fun '(total, _) => (total + 1, m_tUserAllocSize (m_pstHead st))) st in
    Some (h, add_alloc_size_to_stat req st)
  else Some (h, st).

(** [memset(p, 0x00, n)] *)
Fixpoint zero_range (n : nat) (a : Z) (c : gmap Z Z) : gmap Z Z :=
  match n with O => c | S n => zero_range n (a + 1) (delete a c) end.

Definition Calloc (req : Z) (st : PtMalloc) : option (Z * PtMalloc) :=
  '(h, st) ← Malloc req st;
  if negb (h =? INVALID_HANDLE) then Some (h, set_cells (zero_range (Z.to_nat req) h) st)
  else Some (h, st).

(** [memmove(dst, src, n)]: every cell of the source, read before any write. *)
Fixpoint copy_range (n : nat) (from : gmap Z Z) (dst src : Z) (c : gmap Z Z) : gmap Z Z :=
  match n with
  | O => c
  | S n => copy_range n from (dst + 1) (src + 1) (partial_alter (fun _ => from !! src) dst c)
  end.

Definition memmove (dst src n : Z) (st : PtMalloc) : PtMalloc :=
  set_cells (fun c => copy_range (Z.to_nat n) c dst src c) st.

(** ** Reallocation *)

(** The [do ... while (tRemainderSize > 0)] that frees what is left over. *)
Fixpoint free_remainder (fuel : nat) (pstRemainChunk tRemainderSize : Z) (st : PtMalloc) : PtMalloc :=
  match fuel with
  | O => st
  | S fuel =>
      let tThisChunkSize :=
        if MAX_ALLOC_SIZE <? tRemainderSize then
          if MINSIZE <=? tRemainderSize - MAX_ALLOC_SIZE then REAL_SIZE MAX_ALLOC_SIZE
          else wrap 32 (REAL_SIZE (tRemainderSize - MINSIZE))
        else tRemainderSize in
      let st := set_tSize pstRemainChunk (Z.lor (REAL_SIZE tThisChunkSize) PREV_INUSE) st in
      let pstNextChunk := pstRemainChunk + REAL_SIZE tThisChunkSize in
      let st := set_tPreSize pstNextChunk (REAL_SIZE tThisChunkSize) st in
      let st := set_tSize pstNextChunk (Z.lor (tSize st pstNextChunk) PREV_INUSE) st in
      let st := set_inuse_bit_at_offset pstRemainChunk tThisChunkSize st in
      let st := (inter_free (ptr_to_handle st (chunk2mem pstRemainChunk)) st).2 in
      let tRemainderSize := tRemainderSize - tThisChunkSize in
      if 0 <? tRemainderSize
      then free_remainder fuel (pstRemainChunk + REAL_SIZE tThisChunkSize) tRemainderSize st
      else st
  end.

(** The common end of [inter_re_alloc]: chunk [hNewHandle] of [tNewSize] bytes
    is cut down to [tSz] bytes and its header is written. *)
Definition finish_re_alloc (hNewHandle tNewSize tSz : Z) (iPreInUse : bool) (tPreSz : Z)
    (st : PtMalloc) : Z * PtMalloc :=
  let tRemainderSize := tNewSize - tSz in
  let '(tNewSize, st) :=
    if get_min_chunk_size st <=? tRemainderSize then
      (tSz, free_remainder (S (Z.to_nat (tRemainderSize / MAX_ALLOC_SIZE + 1)))
              (hNewHandle + tSz) tRemainderSize st)
    else
      let pstNextChunk := hNewHandle + REAL_SIZE tNewSize in
      (tNewSize, set_tSize pstNextChunk (Z.lor (tSize st pstNextChunk) PREV_INUSE) st) in
  let st := set_tSize hNewHandle (wrap 32 (REAL_SIZE tNewSize)) st in
  let st := if iPreInUse then set_tSize hNewHandle (Z.lor (tSize st hNewHandle) PREV_INUSE) st else st in
  let st := set_tPreSize hNewHandle tPreSz st in
  (ptr_to_handle st (chunk2mem hNewHandle), st).

(** The part of [inter_re_alloc] that runs when the chunk has to grow. *)
Definition grow_chunk (p tOldSize tSz tUserReqSize : Z) (st : PtMalloc) : option (Z * PtMalloc) :=
  let hd := m_pstHead st in
  let pstNextChunk := p + CHUNK_SIZE st p in
  if AT_TOP st p tOldSize && (m_hTop hd + (tSz - tOldSize) + MINSIZE <? m_tSize hd) then
    let st := set_tSize p (Z.lor (REAL_SIZE tSz) (Z.land (tSize st p) SIZE_BITS)) st in
    let pstNextChunk := handle_to_ptr (m_hTop hd + (tSz - tOldSize)) in
    let st := set_tPreSize pstNextChunk (REAL_SIZE tSz) st in
    let st := set_tSize pstNextChunk PREV_INUSE st in
    let st := set_pstHead (set_hTop (m_hTop hd + (tSz - tOldSize))) st in
    Some (ptr_to_handle st (chunk2mem p), st)
  else if negb (AT_TOP st p tOldSize)
       && negb (inuse_bit_at_offset st pstNextChunk (CHUNK_SIZE st pstNextChunk))
       && (tSz <=? tOldSize + CHUNK_SIZE st pstNextChunk) then
    let tNewSize := tOldSize + CHUNK_SIZE st pstNextChunk in
    let st' := (unlink_bin (Bin (bin_index (CHUNK_SIZE st pstNextChunk)))
                  (ptr_to_handle st pstNextChunk) st).2 in
    Some (finish_re_alloc p tNewSize tSz (prev_inuse st p) (tPreSize st p) st')
  else if negb (prev_inuse st p) && (tSz <=? wrap 32 (tOldSize + tPreSize st p)) then
    let pre := tPreSize st p in
    let pstTmp := p - pre in
    let hNewHandle := p - pre in
    let tNewSize := tOldSize + pre in
    let st' := (unlink_bin (Bin (bin_index pre)) hNewHandle st).2 in
    let st' := memmove (chunk2mem hNewHandle) (chunk2mem p) (chunksize2memsize tOldSize) st' in
    Some (finish_re_alloc hNewHandle tNewSize tSz (prev_inuse st pstTmp) (tPreSize st pstTmp) st')
  else
    '(hNewHandle, st) ← inter_malloc tUserReqSize st;
    if hNewHandle =? INVALID_HANDLE then Some (INVALID_HANDLE, st)
    else
      let pstTmp := mem2chunk (handle_to_ptr hNewHandle) in
      let hNew := ptr_to_handle st pstTmp in
      let st := memmove (chunk2mem pstTmp) (chunk2mem p) (chunksize2memsize tOldSize) st in
      let '(_, _, st) := inter_free (chunk2mem p) st in
      Some (chunk2mem hNew, st).

(** Handle, [tOldMemSize] and state. *)
Definition inter_re_alloc (hHandle req : Z) (st : PtMalloc) : option (Z * Z * PtMalloc) :=
  if hHandle =? INVALID_HANDLE then
    '(h, st) ← inter_malloc req st; Some (h, 0, st)
  else if req =? 0 then
    let '(_, old, st) := inter_free hHandle st in Some (INVALID_HANDLE, old, st)
  else if REQUEST_OUT_OF_RANGE req then Some (INVALID_HANDLE, 0, st)
  else
    let tSz := request2size req in
    let hd := m_pstHead st in
    if (m_hTop hd <=? hHandle) || (hHandle <=? m_hBottom hd) then Some (INVALID_HANDLE, 0, st)
    else
      let p := mem2chunk (handle_to_ptr hHandle) in
      let tOldSize := CHUNK_SIZE st p in
      let h := ptr_to_handle st p in
      if m_hTop hd <? h + tOldSize then Some (INVALID_HANDLE, 0, st)
      else if misaligned_chunk h then Some (INVALID_HANDLE, 0, st)
      else if tOldSize <? MINSIZE then Some (INVALID_HANDLE, 0, st)
      else if negb (check_inuse_chunk st p =? 0) then Some (INVALID_HANDLE, 0, st)
      else if tSz <=? tOldSize then
        let '(r, st) := finish_re_alloc h tOldSize tSz (prev_inuse st p) (tPreSize st p) st in
        Some (r, tOldSize, st)
      else
        '(r, st) ← grow_chunk h tOldSize tSz req st; Some (r, tOldSize, st).

Definition ReAlloc (hHandle req : Z) (st : PtMalloc) : option (Z * PtMalloc) :=
  let st := set_pstHead (set_tLastFreeChunkSize 0) st in
  '(hNewHandle, tOldSize, st) ← inter_re_alloc hHandle req st;
  let hd := m_pstHead st in
  if negb (hNewHandle =? INVALID_HANDLE) then
    let p := mem2chunk (handle_to_ptr hNewHandle) in
    let fresh := hHandle =? INVALID_HANDLE in
    let st := set_pstHead (set_user
      (wrap 64 (m_tUserAllocSize hd + CHUNK_SIZE st p - tOldSize))
      (if fresh then wrap 64 (m_tUserAllocChunkCnt hd + 1) else m_tUserAllocChunkCnt hd)) st in
    let st := add_alloc_size_to_stat req st in
    let st := set_stats (fun '(total, _) =>
      (if fresh then total + 1 else total, m_tUserAllocSize (m_pstHead st))) st in
    Some (hNewHandle, st)
  else if req =? 0 then
    let st := set_pstHead (set_user (wrap 64 (m_tUserAllocSize hd - tOldSize))
                                    (wrap 64 (m_tUserAllocChunkCnt hd - 1))) st in
    let st := set_stats (fun '(total, _) => (total - 1, m_tUserAllocSize (m_pstHead st))) st in
    Some (hNewHandle, st)
  else Some (hNewHandle, st).

(** ** Queries *)

(** How much would become free if [hHandle] were freed; 0 is the error return. *)
Definition ask_for_destroy_size (hHandle : Z) (st : PtMalloc) : Z :=
  let hd := m_pstHead st in
  if (INVALID_HANDLE =? hHandle) || (m_tSize hd <=? hHandle) then 0
  else
    let current_chunk := mem2chunk (handle_to_ptr hHandle) in
    let physic_size := CHUNK_SIZE st current_chunk in
    let physic_handle := ptr_to_handle st current_chunk in
    if m_tSize hd <? physic_handle + physic_size then 0
    else if negb (inuse_bit_at_offset st current_chunk physic_size) then 0
    else if misaligned_chunk physic_handle then 0
    else if negb (0 =? check_inuse_chunk st current_chunk) then 0
    else
      let '(physic_handle, physic_size) :=
        if negb (prev_inuse st current_chunk) && CAN_COMBILE physic_size (tPreSize st current_chunk)
        then (physic_handle - tPreSize st current_chunk, physic_size + tPreSize st current_chunk)
        else (physic_handle, physic_size) in
      let next_chunk := handle_to_ptr (physic_handle + physic_size) in
      let at_top := physic_handle + physic_size =? m_hTop hd in
      if negb at_top && (CHUNK_SIZE st next_chunk <? MINSIZE) then 0
      else
        let physic_size :=
          if negb at_top && negb (inuse_bit_at_offset st next_chunk (CHUNK_SIZE st next_chunk))
             && CAN_COMBILE physic_size (CHUNK_SIZE st next_chunk)
          then physic_size + CHUNK_SIZE st next_chunk else physic_size in
        let physic_size :=
          if physic_handle + physic_size =? m_hTop hd then
            let physic_free := wrap 32 (m_tSize hd - m_hTop hd - MINSIZE + physic_size) in
            if physic_size <? physic_free then physic_free else physic_size
          else physic_size in
        chunksize2memsize physic_size.

Definition chunk_size (hHandle : Z) (st : PtMalloc) : Z :=
  let hd := m_pstHead st in
  if (m_hTop hd <=? hHandle) || (hHandle <=? m_hBottom hd) then 0
  else
    let p := mem2chunk (handle_to_ptr hHandle) in
    if negb (check_inuse_chunk st p =? 0) then 0
    else chunksize2memsize (CHUNK_SIZE st p).

Definition user_alloc_size (st : PtMalloc) : Z := m_tUserAllocSize (m_pstHead st).
Definition total_size (st : PtMalloc) : Z := m_tSize (m_pstHead st).
Definition get_reserve_zone (st : PtMalloc) : Z := m_hReserveZone (m_pstHead st).

(** ** The fast bins *)

(** One turn of the inner loop of [free_fast]: the head chunk of fast bin [i] is
    merged with its neighbours and moved to the unsorted bin or the top. *)
Definition free_fast_chunk (i : Z) (st : PtMalloc) : PtMalloc :=
  let p := handle_to_ptr (bin_hNextChunk (get_bin st (FastBin i))) in
  let st := (unlink_bin (FastBin i) (bin_hNextChunk (get_bin st (FastBin i))) st).2 in
  let tSz := CHUNK_SIZE st p in
  let '(p, tSz, st) :=
    if negb (prev_inuse st p) && CAN_COMBILE tSz (tPreSize st p) then
      let tPreSz := tPreSize st p in
      let tSz := tSz + tPreSz in
      let p := p - tPreSz in
      let uiBinIdx := bin_index tPreSz in
      let st := (unlink_bin (Bin uiBinIdx) (ptr_to_handle st p) st).2 in
      let st := clear_if_empty uiBinIdx st in
      (p, tSz, set_inuse_bit_at_offset p tSz st)
    else (p, tSz, st) in
  let '(tSz, st) :=
    if negb (AT_TOP st p tSz) then
      let pstNextChunk := p + tSz in
      let tNextSize := CHUNK_SIZE st pstNextChunk in
      let uiBinIdx := bin_index tNextSize in
      if negb (inuse_bit_at_offset st pstNextChunk tNextSize) && CAN_COMBILE tSz tNextSize then
        let tSz := tSz + tNextSize in
        let st := (unlink_bin (Bin uiBinIdx) (ptr_to_handle st pstNextChunk) st).2 in
        let st := clear_if_empty uiBinIdx st in
        (tSz, set_inuse_bit_at_offset p tSz st)
      else (tSz, st)
    else (tSz, st) in
  let st := if m_tLastFreeChunkSize (m_pstHead st) <? REAL_SIZE tSz
            then set_pstHead (set_tLastFreeChunkSize (REAL_SIZE tSz)) st else st in
  let st := set_tSize p (Z.lor (REAL_SIZE tSz) (Z.land (tSize st p) SIZE_BITS)) st in
  let st :=
    if AT_TOP st p tSz then set_pstHead (set_hTop (m_hTop (m_pstHead st) - tSz)) st
    else (link_bin UnsortedBin (ptr_to_handle st p) st).2 in
  set_tPreSize (p + REAL_SIZE tSz) (REAL_SIZE tSz) st.

(** [do { ... } while (m_ptFastBin[i].m_hNextChunk != INVALID_HANDLE);] *)
Fixpoint free_fast_bin (fuel : nat) (i : Z) (st : PtMalloc) : option PtMalloc :=
  match fuel with
  | O => None
  | S fuel =>
      if bin_hNextChunk (get_bin st (FastBin i)) =? INVALID_HANDLE then Some st
      else free_fast_bin fuel i (free_fast_chunk i st)
  end.

Fixpoint free_fast_bins (idxs : list Z) (st : PtMalloc) : option PtMalloc :=
  match idxs with
  | [] => Some st
  | i :: idxs => st ← free_fast_bin (S (size (cells st))) i st; free_fast_bins idxs st
  end.

Definition free_fast (st : PtMalloc) : option PtMalloc :=
  if Z.land (m_uiFlags (m_pstHead st)) MALLOC_FLAG_FAST =? 0 then Some st
  else
    st ← free_fast_bins (map Z.of_nat (seq 0 64)) st;
    Some (set_pstHead (fun hd => set_uiFlags (Z.ldiff (m_uiFlags hd) MALLOC_FLAG_FAST) hd) st).

Definition last_free_size (st : PtMalloc) : option (Z * PtMalloc) :=
  st ← free_fast st;
  Some (chunksize2memsize (m_tLastFreeChunkSize (m_pstHead st)), st).

(** ** Formatting and attaching a segment *)

Definition segment_head_size : Z := sizeof_MemHead + sizeof_CBin * (NBINS + NFASTBINS + 1).

Definition align_up (x : Z) : Z := Z.ldiff (x + MALLOC_ALIGN_MASK) MALLOC_ALIGN_MASK.

Definition do_init (tSz : Z) (st : PtMalloc) : Z * PtMalloc :=
  if tSz <? segment_head_size + DTC_RESERVE_SIZE + MINSIZE then (-1, st)
  else
    let zone := align_up segment_head_size in
    let bottom := align_up (zone + DTC_RESERVE_SIZE) in
    let hd := mkHead V4Sign DTC_VER_MIN sizeof_MemHead tSz bottom 0 0 bottom zone bottom
                (if bottom + MINSIZE <? tSz then tSz - bottom - MINSIZE else 0)
                NBINS NFASTBINS ∅ in
    let st := mkPt hd ∅ ∅ empty_CBin (cells st) 0 bottom
                (statTmpDataSizeRecently st) (statTmpDataAllocCountRecently st)
                (statAverageDataSizeRecently st) (minChunkSize st) in
    let st := set_tPreSize bottom 0 st in
    (0, set_tSize bottom PREV_INUSE st).

Definition detect_version (hd : MemHead) : Z :=
  if negb (nth 0 (m_auiSign hd) 0 =? nth 0 V4Sign 0) || negb (nth 1 (m_auiSign hd) 0 =? nth 1 V4Sign 0)
  then 1
  else if m_ushVer hd =? 2 then 2
  else if m_ushVer hd =? 3 then 3
  else if m_ushVer hd =? 4 then 4
  else 0.

Definition share_memory_integrity (st : PtMalloc) : Z := sext 32 (bitmap_word st 4).

Definition set_share_memory_integrity (flags : Z) (st : PtMalloc) : PtMalloc :=
  set_pstHead (set_bitmap (fun m => <[4 := if negb (flags =? 0) then 1 else 0]> m)) st.

Definition do_attach (tSz : Z) (st : PtMalloc) : Z * PtMalloc :=
  let hd := m_pstHead st in
  if tSz <? segment_head_size + MINSIZE then (-1, st)
  else if negb (detect_version hd =? DTC_VER_MIN) then (-2, st)
  else if negb (m_tSize hd =? tSz) then (-3, st)
  else if m_tSize hd <=? m_hTop hd then (-4, st)
  else (0, set_stats (fun _ => (m_tUserAllocChunkCnt hd, m_tUserAllocSize hd)) st).
