(* ===== verification/PtMallocInv.v ===== *)
(** * The invariant of the chunk allocator

    The segment between [m_hBottom] and [m_hTop] is a tiling: a sequence of
    chunks, each free (in a bin) or allocated, whose boundary tags agree with
    it.  This file defines the tiling, the invariant [wf] that ties it to the
    bins and the bitmap, and the lemmas on single writes that the operations'
    proofs (PtMallocFree, PtMallocAlloc) are assembled from. *)

From S2P Require Import Prelude DList PtMalloc.

(** ** Size words: a multiple of 8 with flag bits below *)

Definition mult8 (s : Z) : Prop := s mod 8 = 0.

Lemma low3_split s b : mult8 s -> 0 <= b < 8 ->
  Z.land (s + b) 7 = b /\ Z.ldiff (s + b) 7 = s.
Proof.
  unfold mult8. intros Hs Hb. change 7 with (Z.ones 3).
  rewrite Z.land_ones, Z.ldiff_ones_r by lia.
  rewrite Z.shiftl_mul_pow2, Z.shiftr_div_pow2 by lia. change (2 ^ 3) with 8. zdm.
Qed.

Lemma land_mult8 s b : mult8 s -> 0 <= b < 8 -> Z.land s b = 0.
Proof.
  intros Hs Hb. destruct (low3_split s 0 Hs ltac:(lia)) as [H _]. rewrite Z.add_0_r in H.
  replace b with (Z.land 7 b) by (change 7 with (Z.ones 3); rewrite Z.land_comm, Z.land_ones by lia; change (2 ^ 3) with 8; zdm).
  by rewrite Z.land_assoc, H.
Qed.

Lemma lor_mult8 s b : mult8 s -> 0 <= b < 8 -> Z.lor s b = s + b.
Proof.
  intros Hs Hb. pose proof (land_mult8 s b Hs Hb) as H.
  symmetry. rewrite Z.add_nocarry_lxor by done. by apply Z.lxor_lor.
Qed.

Lemma b2z_lt8 b : 0 <= Z.b2z b < 8.
Proof. destruct b; cbn; lia. Qed.

(** The size word of a chunk: its size and its PREV_INUSE flag. *)
Definition word (s : Z) (f : bool) : Z := s + Z.b2z f.

Section Words.

Context (s : Z) (f : bool) (Hs : mult8 s).

Lemma word_size : Z.ldiff (word s f) SIZE_BITS = s.
Proof. apply (low3_split s (Z.b2z f)); [done|apply b2z_lt8]. Qed.

Lemma word_flags : Z.land (word s f) SIZE_BITS = Z.b2z f.
Proof. apply (low3_split s (Z.b2z f)); [done|apply b2z_lt8]. Qed.

Lemma word_inuse : negb (Z.land (word s f) PREV_INUSE =? 0) = f.
Proof.
  unfold word, PREV_INUSE. rewrite <- (lor_mult8 s (Z.b2z f)) by (done || apply b2z_lt8).
  rewrite Z.land_lor_distr_l, (land_mult8 s 1) by (done || lia). by destruct f.
Qed.

Lemma word_set : Z.lor (word s f) PREV_INUSE = word s true.
Proof.
  unfold word, PREV_INUSE. rewrite <- (lor_mult8 s (Z.b2z f)) by (done || apply b2z_lt8).
  rewrite <- Z.lor_assoc, lor_mult8; [by destruct f|done|by destruct f].
Qed.

Lemma word_clear : Z.ldiff (word s f) PREV_INUSE = word s false.
Proof.
  unfold word, PREV_INUSE. rewrite <- (lor_mult8 s (Z.b2z f)) by (done || apply b2z_lt8).
  apply Z.bits_inj'. intros n Hn.
  rewrite Z.ldiff_spec, Z.lor_spec. cbn [Z.b2z]. rewrite Z.add_0_r.
  pose proof (land_mult8 s 1 Hs ltac:(lia)) as H.
  apply (f_equal (fun z => Z.testbit z n)) in H. rewrite Z.land_spec, Z.bits_0 in H.
  destruct f; cbn [Z.b2z]; rewrite ?Z.bits_0; destruct (Z.testbit s n), (Z.testbit 1 n); done.
Qed.

Lemma word_lor : Z.lor s (Z.b2z f) = word s f.
Proof. apply lor_mult8; [done|apply b2z_lt8]. Qed.

Lemma real_size_mult8 : REAL_SIZE s = s.
Proof.
  unfold REAL_SIZE, SIZE_BITS. rewrite <- (Z.add_0_r s) at 1.
  apply (low3_split s 0); [done|lia].
Qed.

End Words.

Lemma mult8_add a b : mult8 a -> mult8 b -> mult8 (a + b).
Proof. unfold mult8. zdm. Qed.

Lemma mult8_sub a b : mult8 a -> mult8 b -> mult8 (a - b).
Proof. unfold mult8. zdm. Qed.

Lemma ldiff7_eq x : Z.ldiff x 7 = x / 8 * 8.
Proof.
  change 7 with (Z.ones 3). rewrite Z.ldiff_ones_r by lia.
  by rewrite Z.shiftl_mul_pow2, Z.shiftr_div_pow2 by lia.
Qed.

Lemma ldiff7_mult8 x : mult8 (Z.ldiff x 7) /\ x - 7 <= Z.ldiff x 7 <= x.
Proof. rewrite ldiff7_eq. unfold mult8. zdm. Qed.

(** A possible chunk size. *)
Definition valid_size (s : Z) : Prop := mult8 s /\ MINSIZE <= s <= MAX_ALLOC_SIZE.

(** ** What an operation can observe of a state *)

(** What the allocation and release of chunks leaves alone: limits, accounting
    and statistics. *)
Definition env (st : PtMalloc) : list Z :=
  let hd := m_pstHead st in
  [m_hBottom hd; m_tSize hd; m_tUserAllocSize hd; m_tUserAllocChunkCnt hd; m_uiFlags hd;
   minChunkSize st; statChunkTotal st; statDataSize st].

Lemma rd_wr st a v x : rd (wr a v st) x = if x =? a then v else rd st x.
Proof.
  unfold rd, wr, set_cells, cell. destruct st as [? ? ? ? c]. simpl.
  destruct (Z.eqb_spec x a) as [->|]; simplify_map_eq; done.
Qed.

Lemma head_wr st a v : m_pstHead (wr a v st) = m_pstHead st.
Proof. by destruct st. Qed.
Lemma bin_wr st a v b : get_bin (wr a v st) b = get_bin st b.
Proof. by destruct st. Qed.
Lemma env_wr st a v : env (wr a v st) = env st.
Proof. by destruct st. Qed.

Lemma rd_head st f x : rd (set_pstHead f st) x = rd st x.
Proof. by destruct st. Qed.
Lemma head_head st f : m_pstHead (set_pstHead f st) = f (m_pstHead st).
Proof. by destruct st. Qed.
Lemma bin_head st f b : get_bin (set_pstHead f st) b = get_bin st b.
Proof. by destruct st. Qed.

Lemma rd_bin st b v x : rd (set_bin b v st) x = rd st x.
Proof. by destruct st, b. Qed.
Lemma head_bin st b v : m_pstHead (set_bin b v st) = m_pstHead st.
Proof. by destruct st, b. Qed.
Lemma env_bin st b v : env (set_bin b v st) = env st.
Proof. by destruct st, b. Qed.

Lemma bin_bin st i v j :
  get_bin (set_bin (Bin i) v st) (Bin j) = if j =? i then v else get_bin st (Bin j).
Proof.
  destruct st. simpl. destruct (Z.eqb_spec j i) as [->|]; simplify_map_eq; done.
Qed.

#[global] Arguments get_bin : simpl never.
#[global] Arguments set_bin : simpl never.
#[global] Arguments wr : simpl never.
#[global] Arguments set_pstHead : simpl never.

Create Rewrite HintDb pt.
#[export] Hint Rewrite rd_wr head_wr bin_wr env_wr rd_head head_head bin_head
  rd_bin head_bin env_bin bin_bin : pt.

(** Reduce an observation of an updated state to one of the state before. *)
Ltac pt_simpl :=
  unfold set_hPreChunk, set_hNextChunk, set_tSize, set_tPreSize, hPreChunk, hNextChunk, tSize, tPreSize;
  autorewrite with pt.

Lemma env_set_hTop v st : env (set_pstHead (set_hTop v) st) = env st.
Proof. by destruct st as [[]]. Qed.
Lemma env_set_last v st : env (set_pstHead (set_tLastFreeChunkSize v) st) = env st.
Proof. by destruct st as [[]]. Qed.
Lemma env_set_bitmap f st : env (set_pstHead (set_bitmap f) st) = env st.
Proof. by destruct st as [[]]. Qed.
#[export] Hint Rewrite env_set_hTop env_set_last env_set_bitmap : pt.

Lemma env_min st st' : env st' = env st -> get_min_chunk_size st' = get_min_chunk_size st.
Proof. intros E. unfold get_min_chunk_size. injection E. by intros -> -> -> _ _ _ _ _. Qed.

Lemma top_set_hTop v hd : m_hTop (set_hTop v hd) = v.
Proof. by destruct hd. Qed.
Lemma top_set_last v hd : m_hTop (set_tLastFreeChunkSize v hd) = m_hTop hd.
Proof. by destruct hd. Qed.
Lemma top_set_bitmap f hd : m_hTop (set_bitmap f hd) = m_hTop hd.
Proof. by destruct hd. Qed.
Lemma size_set_hTop v hd : m_tSize (set_hTop v hd) = m_tSize hd.
Proof. by destruct hd. Qed.
Lemma size_set_last v hd : m_tSize (set_tLastFreeChunkSize v hd) = m_tSize hd.
Proof. by destruct hd. Qed.
Lemma size_set_bitmap f hd : m_tSize (set_bitmap f hd) = m_tSize hd.
Proof. by destruct hd. Qed.
#[export] Hint Rewrite top_set_hTop top_set_last top_set_bitmap
  size_set_hTop size_set_last size_set_bitmap : pt.

(** ** Tilings *)

(** A chunk: its size, whether it is free, and its PREV_INUSE flag. *)
Record tile := mkTile { ts : Z; tb : bool; tp : bool }.

Fixpoint total (cs : list tile) : Z :=
  match cs with [] => 0 | c :: cs => ts c + total cs end.

(** The chunks of a tiling with their addresses. *)
Fixpoint addrs (a : Z) (cs : list tile) : list (Z * tile) :=
  match cs with [] => [] | c :: cs => (a, c) :: addrs (a + ts c) cs end.

(** The boundary tags from address [a] on are those of [cs]; the chunk before
    [a] has size [ps] and [pb] says whether it is free.  Only after a free
    chunk may a flag be clear, and [m_tPreSize] is then that chunk's size. *)
Fixpoint seg (f : Z -> Z) (a : Z) (pb : bool) (ps : Z) (cs : list tile) : Prop :=
  match cs with
  | [] => True
  | c :: cs =>
      valid_size (ts c) /\ f (a + 4) = word (ts c) (tp c)
      /\ (tp c = false -> pb = true /\ f a = ps)
      /\ seg f (a + ts c) (tb c) (ts c) cs
  end.

Definition last_free (pb : bool) (cs : list tile) : bool := from_option tb pb (last cs).
Definition last_size (ps : Z) (cs : list tile) : Z := from_option ts ps (last cs).

(** Size and flag in the header a tiling starts with; the header at the top has
    size 0 and its flag set. *)
Definition hd_size (cs : list tile) : Z := from_option ts 0 (head cs).
Definition set_hd_tp (b : bool) (cs : list tile) : list tile :=
  match cs with [] => [] | c :: cs => mkTile (ts c) (tb c) b :: cs end.

(** Byte [x] belongs to the user of an allocated chunk. *)
Definition in_user (a : Z) (cs : list tile) (x : Z) : Prop :=
  exists y c, (y, c) ∈ addrs a cs /\ tb c = false /\ y + 8 <= x < y + ts c + 4.

(** The allocated chunks, with their addresses and sizes. *)
Definition allocs (a : Z) (cs : list tile) : list (Z * Z) :=
  omap (fun '(y, c) => if tb c then None else Some (y, ts c)) (addrs a cs).

Definition user_byte (L : list (Z * Z)) (x : Z) : Prop :=
  exists y s, (y, s) ∈ L /\ y + 8 <= x < y + s + 4.

(** A free chunk of bin [i] lies at [h]. *)
Definition free_at (a : Z) (cs : list tile) (h i : Z) : Prop :=
  exists c, (h, c) ∈ addrs a cs /\ tb c = true /\ bin_index (ts c) = i.

(** Every chunk has a possible size. *)
Definition sized (cs : list tile) : Prop := Forall (fun c => valid_size (ts c)) cs.

Section Tilings.

Implicit Types (cs : list tile) (f g : Z -> Z).

Lemma total_app cs1 cs2 : total (cs1 ++ cs2) = total cs1 + total cs2.
Proof. induction cs1; simpl; lia. Qed.

Lemma addrs_app a cs1 cs2 : addrs a (cs1 ++ cs2) = addrs a cs1 ++ addrs (a + total cs1) cs2.
Proof.
  revert a. induction cs1 as [|c cs1 IH]; intros a; simpl; [by rewrite Z.add_0_r|].
  rewrite IH. by replace (a + ts c + total cs1) with (a + (ts c + total cs1)) by lia.
Qed.

Lemma last_free_cons pb c cs : last_free pb (c :: cs) = last_free (tb c) cs.
Proof. unfold last_free. rewrite last_cons. by destruct (last cs). Qed.

Lemma last_size_cons ps c cs : last_size ps (c :: cs) = last_size (ts c) cs.
Proof. unfold last_size. rewrite last_cons. by destruct (last cs). Qed.

Lemma seg_app f a pb ps cs1 cs2 :
  seg f a pb ps (cs1 ++ cs2) <->
  seg f a pb ps cs1 /\ seg f (a + total cs1) (last_free pb cs1) (last_size ps cs1) cs2.
Proof.
  revert a pb ps. induction cs1 as [|c cs1 IH]; intros a pb ps; simpl.
  - rewrite Z.add_0_r. tauto.
  - rewrite IH, last_free_cons, last_size_cons.
    replace (a + ts c + total cs1) with (a + (ts c + total cs1)) by lia. tauto.
Qed.

Lemma addrs_elem a cs y c :
  (y, c) ∈ addrs a cs <-> exists cs1 cs2, cs = cs1 ++ c :: cs2 /\ y = a + total cs1.
Proof.
  split.
  - revert a. induction cs as [|d cs IH]; intros a; simpl; [by rewrite elem_of_nil|].
    rewrite elem_of_cons. intros [[= -> ->]|(cs1 & cs2 & -> & ->)%IH].
    + exists [], cs. simpl. split; [done|lia].
    + exists (d :: cs1), cs2. simpl. split; [done|lia].
  - intros (cs1 & cs2 & -> & ->). rewrite addrs_app. simpl. set_solver.
Qed.

Lemma seg_sized f a pb ps cs : seg f a pb ps cs -> sized cs.
Proof.
  revert a pb ps. induction cs as [|c cs IH]; intros a pb ps; simpl; [by constructor|].
  intros (? & _ & _ & ?). constructor; [done|]. by eapply IH.
Qed.

Lemma total_nonneg cs : sized cs -> 0 <= total cs.
Proof. induction 1 as [|c cs [_ ?]]; simpl; unfold MINSIZE in *; lia. Qed.

Lemma total_mult8 cs : sized cs -> mult8 (total cs).
Proof. induction 1 as [|c cs [? _]]; simpl; [done|by apply mult8_add]. Qed.

Lemma addrs_bounds a cs y c : sized cs -> (y, c) ∈ addrs a cs ->
  a <= y /\ y + ts c <= a + total cs /\ valid_size (ts c) /\ mult8 (y - a).
Proof.
  intros Hs (cs1 & cs2 & -> & ->)%addrs_elem.
  apply Forall_app in Hs as [H1 [H2 H3]%Forall_cons].
  rewrite total_app. simpl. pose proof (total_nonneg _ H1). pose proof (total_nonneg _ H3).
  pose proof (total_mult8 _ H1). replace (a + total cs1 - a) with (total cs1) by lia.
  split_and!; [lia|lia|done|done].
Qed.

(** Two chunks of a tiling are the same or do not overlap. *)
Lemma addrs_gap a cs y c z d : sized cs -> (y, c) ∈ addrs a cs -> (z, d) ∈ addrs a cs ->
  (y = z /\ c = d) \/ y + ts c <= z \/ z + ts d <= y.
Proof.
  intros Hs (cs1 & cs2 & -> & ->)%addrs_elem Hz.
  apply Forall_app in Hs as [H1 [H2 H3]%Forall_cons].
  rewrite addrs_app in Hz. simpl in Hz. rewrite elem_of_app, elem_of_cons in Hz.
  destruct Hz as [Hz|[[= -> ->]|Hz]]; [|by left|].
  - apply addrs_bounds in Hz; [|done]. lia.
  - apply addrs_bounds in Hz; [|done]. lia.
Qed.

Lemma seg_frame f g a pb ps cs :
  (forall y c, (y, c) ∈ addrs a cs -> g y = f y /\ g (y + 4) = f (y + 4)) ->
  seg f a pb ps cs -> seg g a pb ps cs.
Proof.
  revert a pb ps. induction cs as [|c cs IH]; intros a pb ps Hag; simpl; [done|].
  intros (H1 & H2 & H3 & H4). destruct (Hag a c) as [E1 E2]; [left|]. rewrite E1, E2.
  split_and!; [done..|]. apply IH; [|done]. intros y d Hy. apply (Hag y d). by right.
Qed.

Lemma total_set_hd b cs : total (set_hd_tp b cs) = total cs.
Proof. by destruct cs. Qed.

Lemma hd_size_set_hd b cs : hd_size (set_hd_tp b cs) = hd_size cs.
Proof. by destruct cs. Qed.

(** The first header of a tiling can be rewritten: the flag [b] is clear only
    after a free chunk. *)
Lemma seg_set_hd f g a pb ps pb' ps' cs b :
  seg f a pb ps cs ->
  (forall x, a + 8 <= x -> g x = f x) ->
  (cs ≠ [] -> g (a + 4) = word (hd_size cs) b) ->
  (b = false -> pb' = true /\ g a = ps') ->
  seg g a pb' ps' (set_hd_tp b cs).
Proof.
  destruct cs as [|c cs]; [done|]. simpl. intros (H1 & H2 & H3 & H4) Hf Hw Hb.
  split_and!; [done|by apply Hw|done|].
  apply (seg_frame f); [|done]. intros y d Hy.
  apply addrs_bounds in Hy; [|by eapply seg_sized]. destruct H1 as [_ ?]. unfold MINSIZE in *.
  split; apply Hf; lia.
Qed.

Lemma set_hd_tp_same c cs : set_hd_tp (tp c) (c :: cs) = c :: cs.
Proof. by destruct c. Qed.

Lemma allocs_elem a cs y s : (y, s) ∈ allocs a cs <-> exists c, (y, c) ∈ addrs a cs /\ tb c = false /\ ts c = s.
Proof.
  unfold allocs. rewrite list_elem_of_omap. split.
  - intros ([z c] & Hin & E). destruct (tb c) eqn:Hc; [done|]. injection E as -> <-. eauto.
  - intros (c & Hin & Hc & <-). exists (y, c). by rewrite Hc.
Qed.

Lemma allocs_app a cs1 cs2 : allocs a (cs1 ++ cs2) = allocs a cs1 ++ allocs (a + total cs1) cs2.
Proof. unfold allocs. by rewrite addrs_app, omap_app. Qed.

Lemma allocs_cons a c cs :
  allocs a (c :: cs) = (if tb c then [] else [(a, ts c)]) ++ allocs (a + ts c) cs.
Proof. unfold allocs. simpl. by destruct (tb c). Qed.

Lemma allocs_set_hd a b cs : allocs a (set_hd_tp b cs) = allocs a cs.
Proof. destruct cs as [|c cs]; [done|]. simpl. by rewrite !allocs_cons. Qed.

Lemma in_user_allocs a cs x : in_user a cs x <-> user_byte (allocs a cs) x.
Proof.
  unfold in_user, user_byte. setoid_rewrite allocs_elem. split.
  - intros (y & c & ? & ? & ?). eauto 10.
  - intros (y & s & (c & ? & ? & <-) & ?). eauto 10.
Qed.

Lemma in_user_app a cs1 cs2 x :
  in_user a (cs1 ++ cs2) x <-> in_user a cs1 x \/ in_user (a + total cs1) cs2 x.
Proof.
  unfold in_user. setoid_rewrite addrs_app. setoid_rewrite elem_of_app.
  split; [|intros [?|?]; split_conj; eauto 10]. intros (y & c & [H|H] & ?); eauto 10.
Qed.

Lemma in_user_cons a c cs x :
  in_user a (c :: cs) x <-> (tb c = false /\ a + 8 <= x < a + ts c + 4) \/ in_user (a + ts c) cs x.
Proof.
  unfold in_user. simpl. setoid_rewrite elem_of_cons. split.
  - intros (y & d & [[= -> ->]|H] & ?); eauto 10.
  - intros [?|?]; split_conj; eauto 10.
Qed.

Lemma in_user_bounds a cs x : sized cs -> in_user a cs x -> a + 8 <= x < a + total cs + 4.
Proof. intros Hs (y & c & Hy & _ & ?). pose proof (addrs_bounds _ _ _ _ Hs Hy). lia. Qed.

Lemma in_user_set_hd a b cs x : in_user a (set_hd_tp b cs) x <-> in_user a cs x.
Proof. destruct cs as [|c cs]; [done|]. simpl. by rewrite !in_user_cons. Qed.

Lemma free_at_app a cs1 cs2 h i :
  free_at a (cs1 ++ cs2) h i <-> free_at a cs1 h i \/ free_at (a + total cs1) cs2 h i.
Proof.
  unfold free_at. setoid_rewrite addrs_app. setoid_rewrite elem_of_app.
  split; [|intros [?|?]; split_conj; eauto 10]. intros (c & [H|H] & ?); eauto 10.
Qed.

Lemma free_at_cons a c cs h i :
  free_at a (c :: cs) h i <->
  (h = a /\ tb c = true /\ bin_index (ts c) = i) \/ free_at (a + ts c) cs h i.
Proof.
  unfold free_at. simpl. setoid_rewrite elem_of_cons. split.
  - intros (d & [[= -> ->]|H] & ?); eauto 10.
  - intros [(-> & ?)|?]; split_conj; eauto 10.
Qed.

Lemma free_at_set_hd a b cs h i : free_at a (set_hd_tp b cs) h i <-> free_at a cs h i.
Proof. destruct cs as [|c cs]; [done|]. simpl. by rewrite !free_at_cons. Qed.

Lemma free_at_nil a h i : free_at a [] h i <-> False.
Proof. split; [|done]. intros (c & []%elem_of_nil & _). Qed.

End Tilings.

(** ** The invariant *)

Definition bit (st : PtMalloc) (i : Z) : bool := Z.testbit (bitmap_word st (i / 32)) (i mod 32).

Definition bottom (st : PtMalloc) : Z := m_hBottom (m_pstHead st).
Definition top (st : PtMalloc) : Z := m_hTop (m_pstHead st).

(** [bl i] lists bin [i]. *)
Record bins_ok (st : PtMalloc) (bl : Z -> list Z) : Prop := {
  bo_dseg : forall i, 0 <= i < NBINS -> dseg (hPreChunk st) (hNextChunk st) 0 (bl i) 0;
  bo_ends : forall i, 0 <= i < NBINS ->
    get_bin st (Bin i) = mkCBin (last_or 0 (bl i)) (first_or 0 (bl i));
  bo_nodup : forall i, NoDup (bl i);
  bo_bit : forall i, 0 <= i < NBINS -> bl i ≠ [] -> bit st i = true
}.

(** The chunks of [cs1], [mid] and [cs2] tile the segment; the free chunks of
    [cs1] and [cs2] are those in the bins, and the chunks of [mid] are not in
    any bin, whatever their state. *)
Record wf (st : PtMalloc) (cs1 mid cs2 : list tile) (bl : Z -> list Z) : Prop := {
  wf_seg : seg (rd st) (bottom st) false 0 (cs1 ++ mid ++ cs2);
  wf_end : bottom st + total (cs1 ++ mid ++ cs2) = top st;
  wf_top : rd st (top st + 4) = word 0 true;
  wf_bottom : 24 <= bottom st /\ mult8 (bottom st);
  wf_room : top st + MINSIZE <= m_tSize (m_pstHead st);
  wf_match : forall h i, h ∈ bl i <->
    free_at (bottom st) cs1 h i \/ free_at (bottom st + total cs1 + total mid) cs2 h i;
  wf_bins : bins_ok st bl
}.

(** Nothing but the chunks that are neither allocated nor in the middle changed. *)
Definition keeps (st st' : PtMalloc) (cs1 mid cs2 : list tile) : Prop :=
  forall x, in_user (bottom st) cs1 x \/ in_user (bottom st + total cs1 + total mid) cs2 x ->
  rd st' x = rd st x.

(** *** Bin indices *)

Lemma shiftr_mono a b n : 0 <= n -> a <= b -> Z.shiftr a n <= Z.shiftr b n.
Proof. intros. rewrite !Z.shiftr_div_pow2 by lia. apply Z.div_le_mono; lia. Qed.

Lemma shiftr_div a n : 0 <= n -> Z.shiftr a n = a / 2 ^ n.
Proof. apply Z.shiftr_div_pow2. Qed.

Lemma bin_index_bounds s : valid_size s -> 3 <= bin_index s <= 126.
Proof.
  intros [_ Hs]. unfold MINSIZE, MAX_ALLOC_SIZE in Hs.
  unfold bin_index, in_smallbin_range, smallbin_index, largebin_index, MIN_LARGE_SIZE.
  rewrite !shiftr_div by lia. zcase; zdm.
Qed.

(** A larger chunk is in the same or a later bin. *)
Lemma bin_index_monotone s t : 0 <= s <= t -> bin_index s <= bin_index t.
Proof.
  intros Hs. unfold bin_index, in_smallbin_range, smallbin_index, largebin_index, MIN_LARGE_SIZE.
  rewrite !shiftr_div by lia. zcase; zdm.
Qed.

Lemma bin_index_lt s t : 0 <= s -> bin_index s < bin_index t -> s < t.
Proof.
  intros Hs Hb. destruct (Z.lt_ge_cases s t) as [|Hle]; [done|].
  destruct (Z.le_gt_cases 0 t) as [Ht|Ht].
  - pose proof (bin_index_monotone t s ltac:(lia)). lia.
  - exfalso. revert Hb. unfold bin_index at 2, in_smallbin_range, smallbin_index, MIN_LARGE_SIZE.
    rewrite shiftr_div by lia. destruct (Z.ltb_spec t 512); [|lia].
    assert (0 <= bin_index s) as H0; [|intros; zdm].
    pose proof (bin_index_monotone 0 s ltac:(lia)) as H1. change (bin_index 0) with 0 in H1. lia.
Qed.

(** *** The bitmap *)

Lemma cell_insert (m : gmap Z Z) i v j : cell (<[i := v]> m) j = if j =? i then v else cell m j.
Proof. unfold cell. destruct (Z.eqb_spec j i) as [->|]; simplify_map_eq; done. Qed.

Lemma bitmap_set_bitmap f st j :
  bitmap_word (set_pstHead (set_bitmap f) st) j = cell (f (m_auiBinBitMap (m_pstHead st))) j.
Proof. by destruct st as [[]]. Qed.

Lemma bit_index i j : 0 <= i -> 0 <= j -> i / 32 = j / 32 -> i mod 32 = j mod 32 -> i = j.
Proof. intros. rewrite (Z.div_mod i 32), (Z.div_mod j 32) by lia. lia. Qed.

Lemma bit_set st i j : 0 <= i -> 0 <= j -> bit (set_bin_bit_map i st) j = (j =? i) || bit st j.
Proof.
  intros Hi Hj. unfold bit, set_bin_bit_map. rewrite bitmap_set_bitmap, cell_insert.
  pose proof (Z.mod_pos_bound i 32 ltac:(lia)). pose proof (Z.mod_pos_bound j 32 ltac:(lia)).
  destruct (Z.eqb_spec (j / 32) (i / 32)) as [E|E].
  - rewrite Z.lor_spec, Z.shiftl_1_l, Z.pow2_bits_eqb by lia. rewrite <- E, orb_comm. f_equal.
    destruct (Z.eqb_spec (i mod 32) (j mod 32)), (Z.eqb_spec j i); subst; try done.
    by destruct n; apply bit_index.
  - destruct (Z.eqb_spec j i); [by subst|done].
Qed.

Lemma bit_clear st i j : 0 <= i -> 0 <= j -> bit (clear_bin_bit_map i st) j = negb (j =? i) && bit st j.
Proof.
  intros Hi Hj. unfold bit, clear_bin_bit_map. rewrite bitmap_set_bitmap, cell_insert.
  pose proof (Z.mod_pos_bound i 32 ltac:(lia)). pose proof (Z.mod_pos_bound j 32 ltac:(lia)).
  destruct (Z.eqb_spec (j / 32) (i / 32)) as [E|E].
  - rewrite Z.ldiff_spec, Z.shiftl_1_l, Z.pow2_bits_eqb by lia. rewrite <- E, andb_comm. f_equal. f_equal.
    destruct (Z.eqb_spec (i mod 32) (j mod 32)), (Z.eqb_spec j i); subst; try done.
    by destruct n; apply bit_index.
  - destruct (Z.eqb_spec j i); [by subst|done].
Qed.

(** *** Linked chunks *)

Section WfFacts.

Context (st : PtMalloc) (cs1 mid cs2 : list tile) (bl : Z -> list Z).
Hypothesis W : wf st cs1 mid cs2 bl.

Abbreviation all := (cs1 ++ mid ++ cs2).
Abbreviation lo := (bottom st + total cs1).
Abbreviation hi := (bottom st + total cs1 + total mid).

Lemma wf_sized : sized all.
Proof. exact (seg_sized _ _ _ _ _ (wf_seg _ _ _ _ _ W)). Qed.

Lemma wf_sized3 : sized cs1 /\ sized mid /\ sized cs2.
Proof. pose proof wf_sized as H. unfold sized in *. rewrite !Forall_app in H. tauto. Qed.

Lemma addrs_all y c : (y, c) ∈ addrs (bottom st) all <->
  (y, c) ∈ addrs (bottom st) cs1 \/ (y, c) ∈ addrs lo mid \/ (y, c) ∈ addrs hi cs2.
Proof. rewrite !addrs_app, !elem_of_app. done. Qed.

(** A linked chunk is a free chunk outside the middle. *)
Lemma linked_chunk h i : h ∈ bl i ->
  exists c, (h, c) ∈ addrs (bottom st) all /\ tb c = true /\ bin_index (ts c) = i
    /\ valid_size (ts c) /\ bottom st <= h /\ mult8 h /\ (h + ts c <= lo \/ hi <= h)
    /\ h + ts c <= top st.
Proof.
  intros Hh. destruct wf_sized3 as (S1 & S2 & S3). destruct (wf_bottom _ _ _ _ _ W) as [_ Hb].
  pose proof (wf_end _ _ _ _ _ W) as He. rewrite !total_app in He.
  pose proof (total_nonneg _ S1). pose proof (total_nonneg _ S2). pose proof (total_nonneg _ S3).
  pose proof (total_mult8 _ S1). pose proof (total_mult8 _ S2).
  assert (forall h a, mult8 a -> mult8 (h - a) -> mult8 h) as Hm.
  { intros h' a Ha Hd. replace h' with (h' - a + a) by lia. by apply mult8_add. }
  apply (wf_match _ _ _ _ _ W) in Hh as [(c & Hin & Hfr & Hi)|(c & Hin & Hfr & Hi)];
    exists c; rewrite addrs_all.
  - pose proof (addrs_bounds _ _ _ _ S1 Hin) as (B1 & B2 & B3 & B4).
    split_and!; try done; try tauto; try lia. by apply (Hm _ (bottom st)).
  - pose proof (addrs_bounds _ _ _ _ S3 Hin) as (B1 & B2 & B3 & B4).
    split_and!; try done; try tauto; try lia. apply (Hm _ hi); [|done]. by repeat apply mult8_add.
Qed.

Lemma linked_range h i : h ∈ bl i -> 0 <= i < NBINS /\ 24 <= h.
Proof.
  intros (c & _ & _ & <- & Hv & ? & _)%linked_chunk. destruct (wf_bottom _ _ _ _ _ W).
  pose proof (bin_index_bounds _ Hv). unfold NBINS. lia.
Qed.

Lemma linked_gap h i h' j : h ∈ bl i -> h' ∈ bl j -> h = h' \/ h + 24 <= h' \/ h' + 24 <= h.
Proof.
  intros (c & Hc & _ & _ & [_ Hv] & _)%linked_chunk (d & Hd & _ & _ & [_ Hv'] & _)%linked_chunk.
  unfold MINSIZE in *. destruct (addrs_gap _ _ _ _ _ _ wf_sized Hc Hd) as [[-> _]|]; lia.
Qed.

Lemma linked_one_bin h i j : h ∈ bl i -> h ∈ bl j -> i = j.
Proof.
  intros (c & Hc & _ & <- & [_ Hv] & _)%linked_chunk (d & Hd & _ & <- & [_ Hv'] & _)%linked_chunk.
  unfold MINSIZE in *. destruct (addrs_gap _ _ _ _ _ _ wf_sized Hc Hd) as [[_ ->]|]; lia.
Qed.

Lemma zero_not_linked i : 0 ∉ bl i.
Proof. intros []%linked_range. lia. Qed.

(** The links of a free chunk are not a user's bytes. *)
Lemma links_not_user h i x : h ∈ bl i -> h + 8 <= x < h + 24 ->
  ~ (in_user (bottom st) cs1 x \/ in_user hi cs2 x).
Proof.
  intros (c & Hc & Hfr & _ & [_ Hv] & _)%linked_chunk Hx Hu. unfold MINSIZE in *.
  assert (exists y d, (y, d) ∈ addrs (bottom st) all /\ tb d = false /\ y + 8 <= x < y + ts d + 4)
    as (y & d & Hd & Hal & Hy).
  { destruct Hu as [(y & d & Hd & ?)|(y & d & Hd & ?)]; exists y, d; rewrite addrs_all; tauto. }
  destruct (addrs_gap _ _ _ _ _ _ wf_sized Hc Hd) as [[-> ->]|]; [congruence|lia].
Qed.

(** Nor are they boundary tags. *)
Lemma links_not_tags h i y c : h ∈ bl i -> (y, c) ∈ addrs (bottom st) all ->
  ~ (h + 8 <= y + 4 /\ y < h + 24).
Proof.
  intros (d & Hd & _ & _ & [_ Hv] & _)%linked_chunk Hy Hx. unfold MINSIZE in *.
  pose proof (addrs_bounds _ _ _ _ wf_sized Hy) as (_ & _ & [_ Hv'] & _). unfold MINSIZE in *.
  destruct (addrs_gap _ _ _ _ _ _ wf_sized Hd Hy) as [[-> _]|]; lia.
Qed.

Lemma links_below_top h i : h ∈ bl i -> h + 24 <= top st.
Proof. intros (d & Hd & _ & _ & [_ Hv] & _)%linked_chunk. unfold MINSIZE in *.
  pose proof (addrs_bounds _ _ _ _ wf_sized Hd). pose proof (wf_end _ _ _ _ _ W). lia. Qed.

End WfFacts.

(** ** Unlinking and linking *)

(** What unlinking [h] from the list [l1 ++ h :: l2] of bin [i] changes. *)
Definition unlinked (i : Z) (l1 l2 : list Z) (st st' : PtMalloc) : Prop :=
  m_pstHead st' = m_pstHead st
  /\ env st' = env st
  /\ (forall j, get_bin st' (Bin j) =
        if j =? i then mkCBin (last_or 0 (l1 ++ l2)) (first_or 0 (l1 ++ l2)) else get_bin st (Bin j))
  /\ (forall x, rd st' x =
        if negb (last_or 0 l1 =? 0) && (x =? last_or 0 l1 + 16) then first_or 0 l2
        else if negb (first_or 0 l2 =? 0) && (x =? first_or 0 l2 + 8) then last_or 0 l1 else rd st x).

Lemma unlink_bin_effect st i l1 h l2 :
  get_bin st (Bin i) = mkCBin (last_or 0 (l1 ++ h :: l2)) (first_or 0 (l1 ++ h :: l2)) ->
  dseg (hPreChunk st) (hNextChunk st) 0 (l1 ++ h :: l2) 0 ->
  0 ∉ l1 ++ h :: l2 -> NoDup (l1 ++ h :: l2) ->
  (forall x y, x ∈ l1 ++ h :: l2 -> y ∈ l1 ++ h :: l2 -> x = y \/ x + 24 <= y \/ y + 24 <= x) ->
  (unlink_bin (Bin i) h st).1 = 0 /\ unlinked i l1 l2 st (unlink_bin (Bin i) h st).2.
Proof.
  intros Hb Hd Hz Hnd Hgap. destruct (dseg_links _ _ _ _ _ Hd) as [Ep En].
  assert (h ≠ 0) as Hh by set_solver.
  assert (forall x, x ∈ l1 ++ l2 -> x + 24 <= h \/ h + 24 <= x) as Hg.
  { intros x Hx. apply NoDup_app in Hnd as (_ & ? & [? _]%NoDup_cons).
    destruct (Hgap x h) as [E|E]; [set_solver..| |tauto]. subst. set_solver. }
  assert (first_or 0 (l1 ++ h :: l2) ≠ 0) as Hf.
  { intros E. apply first_or_nil_iff in E; [|done]. by destruct l1. }
  assert (last_or 0 (l1 ++ h :: l2) ≠ 0) as Hl.
  { intros E. apply last_or_nil_iff in E; [|done]. by destruct l1. }
  assert (last_or 0 l1 ≠ 0 -> last_or 0 l1 ∈ l1) as Hl1.
  { intros. apply last_or_in. intros ->. done. }
  assert (first_or 0 l2 ≠ 0 -> first_or 0 l2 ∈ l2) as Hf2.
  { intros. apply first_or_in. intros ->. done. }
  unfold unlink_bin, unlinked, INVALID_HANDLE. rewrite Hb. simpl.
  destruct (Z.eqb_spec h 0); [done|]. simpl.
  destruct (Z.eqb_spec (first_or 0 (l1 ++ h :: l2)) 0); [done|].
  destruct (Z.eqb_spec (last_or 0 (l1 ++ h :: l2)) 0); [done|]. simpl.
  unfold hPreChunk, hNextChunk in Ep, En. unfold hPreChunk, hNextChunk. rewrite Ep, En.
  destruct (Z.eqb_spec (last_or 0 l1) 0) as [E1|E1].
  - apply last_or_nil_iff in E1; [|set_solver]. subst l1. pt_simpl. rewrite Ep, En.
    destruct (Z.eqb_spec (first_or 0 l2) 0) as [E2|E2]; simpl.
    + apply first_or_nil_iff in E2; [|set_solver]. subst l2.
      split_and!; try done; intros; pt_simpl; rewrite ?Z.eqb_refl; zcase; done.
    + split_and!; try done; intros; pt_simpl; zcase; try done.
      f_equal. simpl app. rewrite last_or_cons. apply last_or_default. by intros ->.
  - pose proof (Hg (last_or 0 l1) ltac:(set_solver)). pt_simpl.
    replace (h + 16 =? last_or 0 l1 + 16) with false by lia.
    replace (h + 8 =? last_or 0 l1 + 16) with false by lia. rewrite Ep, En.
    destruct (Z.eqb_spec (first_or 0 l2) 0) as [E2|E2]; simpl.
    + apply first_or_nil_iff in E2; [|set_solver]. subst l2. rewrite app_nil_r.
      split_and!; try done; intros; pt_simpl; zcase; try done. rewrite Hb.
      simpl. f_equal. rewrite first_or_app. apply first_or_default. by intros ->.
    + pose proof (Hgap (last_or 0 l1) (first_or 0 l2) ltac:(set_solver) ltac:(set_solver)).
      split_and!; try done; intros; pt_simpl; zcase; try done; try lia.
      subst j. rewrite Hb, !last_or_app, last_or_cons, !first_or_app.
      f_equal; [apply last_or_default|apply first_or_default]; by intros ->.
Qed.

Lemma env_bottom st st' : env st' = env st -> bottom st' = bottom st.
Proof. unfold bottom. by injection 1. Qed.

Lemma env_size st st' : env st' = env st -> m_tSize (m_pstHead st') = m_tSize (m_pstHead st).
Proof. by injection 1. Qed.

(** The invariant depends on the state through few observations. *)
Lemma bins_ok_ext st st' bl :
  bins_ok st bl ->
  (forall i h, h ∈ bl i -> rd st' (h + 8) = rd st (h + 8) /\ rd st' (h + 16) = rd st (h + 16)) ->
  (forall i, get_bin st' (Bin i) = get_bin st (Bin i)) ->
  (forall i, 0 <= i < NBINS -> bl i ≠ [] -> bit st i = true -> bit st' i = true) ->
  bins_ok st' bl.
Proof.
  intros [H1 H2 H3 H4] Hr Hb Hbit. split; [| |done|].
  - intros i Hi. apply (dseg_ext (hPreChunk st) (hNextChunk st)); [|by apply H1].
    intros y Hy. unfold hPreChunk, hNextChunk. by apply (Hr i).
  - intros i Hi. rewrite Hb. by apply H2.
  - auto.
Qed.

Lemma wf_ext st st' cs1 mid cs2 bl :
  wf st cs1 mid cs2 bl -> bottom st' = bottom st -> m_tSize (m_pstHead st') = m_tSize (m_pstHead st) ->
  top st' = top st -> (forall x, rd st' x = rd st x) ->
  (forall i, get_bin st' (Bin i) = get_bin st (Bin i)) ->
  (forall i, 0 <= i < NBINS -> bl i ≠ [] -> bit st i = true -> bit st' i = true) ->
  wf st' cs1 mid cs2 bl.
Proof.
  intros [H1 H2 H3 H4 H5 H6 H7] Eb Es Ht Hr Hb Hbit.
  split; rewrite ?Eb, ?Ht, ?Es, ?Hr; try done.
  - apply (seg_frame (rd st)); [|done]. intros. by rewrite !Hr.
  - apply (bins_ok_ext st); [done| |done|done]. intros. by rewrite !Hr.
Qed.

(** States the allocator cannot tell apart, but for the size of the last freed
    chunk it reports. *)
Record view_eq (st st' : PtMalloc) : Prop := {
  ve_env : env st' = env st;
  ve_top : top st' = top st;
  ve_rd : forall x, rd st' x = rd st x;
  ve_bin : forall i, get_bin st' (Bin i) = get_bin st (Bin i);
  ve_bit : forall i, bit st' i = bit st i
}.

#[export] Instance view_eq_equivalence : Equivalence view_eq.
Proof.
  split.
  - by intros st.
  - intros st st' [? ? ? ? ?]. by split.
  - intros st1 st2 st3 [E1 T1 R1 B1 I1] [E2 T2 R2 B2 I2]. split; congruence.
Qed.

#[export] Instance wf_proper : Proper (view_eq ==> eq ==> eq ==> eq ==> eq ==> iff) wf.
Proof.
  intros st st' V A ? <- M ? <- B ? <- bl ? <-.
  assert (forall st st', view_eq st st' -> wf st A M B bl -> wf st' A M B bl) as H.
  { intros s s' [E T R Bn I] W. eapply wf_ext; try done; [by apply env_bottom|by apply env_size|]. intros. by rewrite I. }
  split; [by apply H|]. apply H. by symmetry.
Qed.

Lemma view_set_last v st : view_eq st (set_pstHead (set_tLastFreeChunkSize v) st).
Proof. by destruct st as [[]]. Qed.

(** A byte that is no link of a chunk in [l]. *)
Definition no_link (l : list Z) (x : Z) : Prop := forall y, y ∈ l -> ~ (y + 8 <= x < y + 24).

Lemma unlinked_frame i l1 l2 st st' x :
  unlinked i l1 l2 st st' -> no_link (l1 ++ l2) x -> rd st' x = rd st x.
Proof.
  intros (_ & _ & _ & ->) Hx.
  assert (last_or 0 l1 ≠ 0 -> ~ (last_or 0 l1 + 8 <= x < last_or 0 l1 + 24)) as Hl1.
  { intros. apply Hx, elem_of_app. left. apply last_or_in. by intros ->. }
  assert (first_or 0 l2 ≠ 0 -> ~ (first_or 0 l2 + 8 <= x < first_or 0 l2 + 24)) as Hf2.
  { intros. apply Hx, elem_of_app. right. apply first_or_in. by intros ->. }
  zcase; simpl; try done; lia.
Qed.

Lemma unlinked_dseg i l1 h l2 st st' :
  unlinked i l1 l2 st st' ->
  dseg (hPreChunk st) (hNextChunk st) 0 (l1 ++ h :: l2) 0 ->
  0 ∉ l1 ++ h :: l2 -> NoDup (l1 ++ h :: l2) ->
  (forall x y, x ∈ l1 ++ h :: l2 -> y ∈ l1 ++ h :: l2 -> x = y \/ x + 24 <= y \/ y + 24 <= x) ->
  dseg (hPreChunk st') (hNextChunk st') 0 (l1 ++ l2) 0.
Proof.
  intros (_ & _ & _ & Er) Hd Hz Hnd Hgap.
  assert (last_or 0 l1 ≠ 0 -> last_or 0 l1 ∈ l1) as Hl1.
  { intros. apply last_or_in. by intros ->. }
  assert (first_or 0 l2 ≠ 0 -> first_or 0 l2 ∈ l2) as Hf2.
  { intros. apply first_or_in. by intros ->. }
  assert (forall y, y ∈ l1 ++ l2 -> y ∈ l1 ++ h :: l2) as Hin by set_solver.
  assert (forall y, y ∈ l1 ++ l2 -> last_or 0 l1 ≠ 0 ->
    y = last_or 0 l1 \/ y + 24 <= last_or 0 l1 \/ last_or 0 l1 + 24 <= y) as G1.
  { intros y Hy H. apply Hgap; [by apply Hin|]. apply Hin, elem_of_app. left. auto. }
  assert (forall y, y ∈ l1 ++ l2 -> first_or 0 l2 ≠ 0 ->
    y = first_or 0 l2 \/ y + 24 <= first_or 0 l2 \/ first_or 0 l2 + 24 <= y) as G2.
  { intros y Hy H. apply Hgap; [by apply Hin|]. apply Hin, elem_of_app. right. auto. }
  assert (forall y, y ∈ l1 ++ l2 -> y ≠ 0) as Hnz by (intros y Hy ->; by apply Hz, Hin).
  clear Hl1 Hf2 Hgap. clear Hin.
  apply (dseg_unlink (hPreChunk st) (hNextChunk st) _ _ l1 h l2); [done..| | |done];
    intros y Hy; unfold hPreChunk, hNextChunk; rewrite Er;
    specialize (G1 y Hy); specialize (G2 y Hy); specialize (Hnz y Hy);
    clear Hd Hz Hnd Er; zcase; simpl; try done; lia.
Qed.

Lemma top_head st st' : m_pstHead st' = m_pstHead st -> top st' = top st.
Proof. unfold top. by intros ->. Qed.

Lemma bit_head st st' i : m_pstHead st' = m_pstHead st -> bit st' i = bit st i.
Proof. unfold bit, bitmap_word. by intros ->. Qed.

(** Tags, links of other chunks and users' bytes are no links of bin [i]. *)
Lemma wf_no_link st A M B bl i x :
  wf st A M B bl ->
  in_user (bottom st) A x \/ in_user (bottom st + total A + total M) B x -> no_link (bl i) x.
Proof. intros W Hu y Hy Hx. exact (links_not_user _ _ _ _ _ W y i x Hy Hx Hu). Qed.

Lemma wf_no_link_tag st A M B bl i y c :
  wf st A M B bl -> (y, c) ∈ addrs (bottom st) (A ++ M ++ B) -> no_link (bl i) y /\ no_link (bl i) (y + 4).
Proof.
  intros W Hy. split; intros h Hh Hx;
    pose proof (links_not_tags _ _ _ _ _ W h i y c Hh Hy); lia.
Qed.

Lemma wf_no_link_top st A M B bl i x : wf st A M B bl -> top st <= x -> no_link (bl i) x.
Proof. intros W Hx h Hh. pose proof (links_below_top _ _ _ _ _ W h i Hh). lia. Qed.

Lemma no_link_sub l l' x : (forall y, y ∈ l' -> y ∈ l) -> no_link l x -> no_link l' x.
Proof. unfold no_link. auto. Qed.

Lemma other_bin_no_link st A M B bl i j y : wf st A M B bl -> y ∈ bl j -> j ≠ i ->
  no_link (bl i) (y + 8) /\ no_link (bl i) (y + 16).
Proof.
  intros W Hy Hji. split; intros z Hz Hx;
    (destruct (linked_gap _ _ _ _ _ W y j z i Hy Hz) as [->|]; [|lia]);
    by apply Hji, (linked_one_bin _ _ _ _ _ W z).
Qed.

(** One bin's list is replaced; the links of the other bins are kept. *)
Definition update_bin (i : Z) (l : list Z) (bl : Z -> list Z) : Z -> list Z :=
  fun j => if j =? i then l else bl j.

Lemma bins_update st st' bl i l :
  bins_ok st bl ->
  dseg (hPreChunk st') (hNextChunk st') 0 l 0 -> NoDup l ->
  (forall j, get_bin st' (Bin j) = if j =? i then mkCBin (last_or 0 l) (first_or 0 l) else get_bin st (Bin j)) ->
  (forall j h, j ≠ i -> h ∈ bl j -> rd st' (h + 8) = rd st (h + 8) /\ rd st' (h + 16) = rd st (h + 16)) ->
  (l ≠ [] -> bit st' i = true) ->
  (forall j, 0 <= j < NBINS -> j ≠ i -> bit st j = true -> bit st' j = true) ->
  bins_ok st' (update_bin i l bl).
Proof.
  intros [B1 B2 B3 B4] Hd Hnd Hb Hr Hbit Hbits. unfold update_bin.
  split; intros j; destruct (Z.eqb_spec j i) as [->|Hj]; auto.
  - intros Hj'. apply (dseg_ext (hPreChunk st) (hNextChunk st)); [|by apply B1].
    intros y Hy. by apply (Hr j).
  - intros _. by rewrite Hb, Z.eqb_refl.
  - intros Hj'. rewrite Hb. destruct (Z.eqb_spec j i); [done|]. by apply B2.
Qed.

(** The bins change and the tags do not. *)
Lemma wf_rebin st st' A M B A' M' B' bl bl' :
  wf st A M B bl -> env st' = env st -> top st' = top st -> bins_ok st' bl' ->
  A' ++ M' ++ B' = A ++ M ++ B ->
  (forall y c, (y, c) ∈ addrs (bottom st) (A ++ M ++ B) ->
     rd st' y = rd st y /\ rd st' (y + 4) = rd st (y + 4)) ->
  rd st' (top st + 4) = rd st (top st + 4) ->
  (forall g j, g ∈ bl' j <->
     free_at (bottom st) A' g j \/ free_at (bottom st + total A' + total M') B' g j) ->
  wf st' A' M' B' bl'.
Proof.
  intros [W1 W2 W3 W4 W5 W6 W7] Ee Et Hb Eapp Hr Htop Hm.
  split; rewrite ?Eapp, ?(env_bottom _ _ Ee), ?Et, ?(env_size _ _ Ee), ?Htop; try done.
  by apply (seg_frame (rd st)).
Qed.

(** Unlinking a chunk moves it into the middle. *)
Lemma wf_unlink st A M B A' M' B' bl h i :
  wf st A M B bl -> h ∈ bl i ->
  A' ++ M' ++ B' = A ++ M ++ B ->
  (forall g j, free_at (bottom st) A' g j \/ free_at (bottom st + total A' + total M') B' g j <->
     (free_at (bottom st) A g j \/ free_at (bottom st + total A + total M) B g j) /\ g ≠ h) ->
  let st' := (unlink_bin (Bin i) h st).2 in
  (exists bl', wf st' A' M' B' bl') /\ env st' = env st /\ top st' = top st
  /\ keeps st st' A M B /\ (forall x, no_link (bl i) x -> rd st' x = rd st x).
Proof.
  intros W Hh Eapp Hmatch st'. destruct (linked_range _ _ _ _ _ W h i Hh) as [Hi _].
  pose proof (wf_bins _ _ _ _ _ W) as Bo. pose proof (zero_not_linked _ _ _ _ _ W i) as Hz.
  destruct (list_elem_of_split _ _ Hh) as (l1 & l2 & El).
  assert (forall x y, x ∈ bl i -> y ∈ bl i -> x = y \/ x + 24 <= y \/ y + 24 <= x) as Hgap.
  { intros x y. exact (linked_gap _ _ _ _ _ W _ _ _ _). }
  pose proof (bo_dseg _ _ Bo i Hi) as Hd. pose proof (bo_nodup _ _ Bo i) as Hnd.
  pose proof (bo_ends _ _ Bo i Hi) as He. rewrite El in Hz, Hgap, Hd, Hnd, He.
  destruct (unlink_bin_effect st i l1 h l2 He Hd Hz Hnd Hgap) as [_ U].
  pose proof (unlinked_dseg _ _ _ _ _ _ U Hd Hz Hnd Hgap) as Hd'.
  fold st' in U, Hd'. pose proof U as (Ehd & Eenv & Ebin & _).
  assert (forall x, no_link (bl i) x -> rd st' x = rd st x) as Hrd.
  { intros x Hx. apply (unlinked_frame i l1 l2); [done|].
    eapply no_link_sub; [|done]. rewrite El. set_solver. }
  pose proof Hnd as Hnd'. rewrite <- Permutation_middle, NoDup_cons in Hnd'. destruct Hnd' as [Hnin Hnd'].
  assert (keeps st st' A M B) as Hkeep.
  { intros x Hx. apply Hrd. eapply wf_no_link; eauto. }
  split_and!; [|done|by apply top_head|done|done]. exists (update_bin i (l1 ++ l2) bl).
  eapply wf_rebin; try done; [by apply top_head| | | |].
  - apply (bins_update st); try done.
    + intros j y Hji Hy. destruct (other_bin_no_link _ _ _ _ _ i _ _ W Hy Hji). by rewrite !Hrd.
    + intros _. rewrite (bit_head _ _ _ Ehd). apply Bo; [done|]. rewrite El. by destruct l1.
    + intros j _ _. by rewrite (bit_head _ _ _ Ehd).
  - intros y c Hy. destruct (wf_no_link_tag st A M B bl i y c) as [? ?]; [done..|]. by rewrite !Hrd.
  - rewrite Hrd; [done|]. apply (wf_no_link_top st A M B bl); [done|lia].
  - intros g j. rewrite Hmatch, <- (wf_match _ _ _ _ _ W). unfold update_bin.
    destruct (Z.eqb_spec j i) as [->|Hj].
    + rewrite El, !elem_of_app, elem_of_cons. rewrite elem_of_app in Hnin. split; [|tauto].
      intros Hg. split; [tauto|]. by intros ->.
    + split; [|tauto]. intros Hg. split; [done|]. intros ->.
      by apply Hj, (linked_one_bin _ _ _ _ _ W h).
Qed.

Lemma empty_bin_spec st A M B bl i : wf st A M B bl -> 0 <= i < NBINS ->
  empty_bin st i = true <-> bl i = [].
Proof.
  intros W Hi. unfold empty_bin, INVALID_HANDLE.
  rewrite (bo_ends _ _ (wf_bins _ _ _ _ _ W) i Hi). simpl. rewrite Z.eqb_eq.
  apply first_or_nil_iff. exact (zero_not_linked _ _ _ _ _ W i).
Qed.

(** An empty bin's bit may be cleared. *)
Lemma wf_clear_if_empty st A M B bl i : wf st A M B bl -> 0 <= i < NBINS ->
  let st' := clear_if_empty i st in
  wf st' A M B bl /\ env st' = env st /\ top st' = top st /\ (forall x, rd st' x = rd st x).
Proof.
  intros W Hi st'. unfold st', clear_if_empty.
  destruct (empty_bin st i) eqn:Eb; [|done]. rewrite (empty_bin_spec _ _ _ _ _ _ W Hi) in Eb.
  assert (forall x, rd (clear_bin_bit_map i st) x = rd st x) as Hr by (intros; apply rd_head).
  assert (top (clear_bin_bit_map i st) = top st) as Ht.
  { unfold top, clear_bin_bit_map. by autorewrite with pt. }
  split_and!; [|apply env_set_bitmap|done|done].
  eapply wf_ext; [done|apply env_bottom, env_set_bitmap|apply env_size, env_set_bitmap|done|done|intros; apply bin_head|].
  intros j Hj Hne Hb. rewrite bit_clear by lia. destruct (Z.eqb_spec j i); [by subst|done].
Qed.

Lemma wf_set_bit st A M B bl i : wf st A M B bl -> 0 <= i < NBINS ->
  let st' := set_bin_bit_map i st in
  wf st' A M B bl /\ env st' = env st /\ top st' = top st /\ (forall x, rd st' x = rd st x).
Proof.
  intros W Hi st'.
  assert (forall x, rd st' x = rd st x) as Hr by (intros; apply rd_head).
  assert (top st' = top st) as Ht.
  { unfold st', top, set_bin_bit_map. by autorewrite with pt. }
  split_and!; [|apply env_set_bitmap|done|done].
  eapply wf_ext; [done|apply env_bottom, env_set_bitmap|apply env_size, env_set_bitmap|done|done|intros; apply bin_head|].
  intros j Hj Hne Hb. unfold st'. rewrite bit_set by lia. rewrite Hb. apply orb_true_r.
Qed.

(** What linking [h] at the head of the list [l] of bin [i] changes. *)
Lemma link_bin_effect st i h l :
  get_bin st (Bin i) = mkCBin (last_or 0 l) (first_or 0 l) -> 0 ∉ l -> h ≠ 0 ->
  let st' := (link_bin (Bin i) h st).2 in
  m_pstHead st' = m_pstHead st /\ env st' = env st
  /\ (forall j, get_bin st' (Bin j) =
        if j =? i then mkCBin (last_or 0 (h :: l)) h else get_bin st (Bin j))
  /\ (forall x, rd st' x =
        if negb (first_or 0 l =? 0) && (x =? first_or 0 l + 8) then h
        else if x =? h + 8 then 0 else if x =? h + 16 then first_or 0 l else rd st x).
Proof.
  intros Hb Hz Hh st'. unfold st', link_bin, INVALID_HANDLE.
  destruct (Z.eqb_spec h 0); [done|]. pt_simpl. rewrite Hb. simpl.
  destruct l as [|f l]; simpl.
  - by split_and!; intros; pt_simpl; try done; zcase.
  - change (first_or 0 (f :: l)) with f. destruct (Z.eqb_spec f 0); [set_solver|]. simpl.
    destruct (Z.eqb_spec (last_or 0 (f :: l)) 0) as [E|E].
    { apply last_or_nil_iff in E; [done|set_solver]. }
    rewrite (last_or_cons 0 h), (last_or_default h 0) by done. simpl.
    by split_and!; intros; pt_simpl; try done; zcase.
Qed.

Lemma link_bin_lists st i h l :
  get_bin st (Bin i) = mkCBin (last_or 0 l) (first_or 0 l) ->
  dseg (hPreChunk st) (hNextChunk st) 0 l 0 -> 0 ∉ l -> NoDup l -> h ≠ 0 ->
  (forall x y, x ∈ l -> y ∈ l -> x = y \/ x + 24 <= y \/ y + 24 <= x) ->
  (forall x, x ∈ l -> x + 24 <= h \/ h + 24 <= x) ->
  let st' := (link_bin (Bin i) h st).2 in
  (forall x, no_link (h :: l) x -> rd st' x = rd st x)
  /\ dseg (hPreChunk st') (hNextChunk st') 0 (h :: l) 0.
Proof.
  intros Hb Hd Hz Hnd Hh Hgap Hgh st'.
  destruct (link_bin_effect st i h l Hb Hz Hh) as (_ & _ & _ & Er). fold st' in Er.
  assert (first_or 0 l ≠ 0 -> first_or 0 l ∈ l) as Hf.
  { intros. apply first_or_in. by intros ->. }
  split.
  - intros x Hx. rewrite Er. pose proof (Hx h ltac:(set_solver)).
    assert (first_or 0 l ≠ 0 -> ~ (first_or 0 l + 8 <= x < first_or 0 l + 24)) as Hf'.
    { intros H0. apply Hx. right. by apply Hf. }
    zcase; simpl; try done; lia.
  - apply (dseg_push (hPreChunk st) (hNextChunk st)); [done|..|done];
      unfold hPreChunk, hNextChunk.
    + rewrite Er. pose proof (fun H => Hgh _ (Hf H)). zcase; simpl; try done; lia.
    + rewrite Er. pose proof (fun H => Hgh _ (Hf H)). zcase; simpl; try done; lia.
    + intros y Hy. rewrite Er. specialize (Hgh _ Hy). assert (y ≠ 0) by (by intros ->).
      zcase; simpl; try done; lia.
    + intros y Hy. rewrite Er. specialize (Hgh _ Hy).
      pose proof (fun H => Hgap y (first_or 0 l) Hy (Hf H)). zcase; simpl; try done; lia.
Qed.

(** The middle chunk is far from every linked one. *)
Lemma middle_gap st A c B bl h i : wf st A [c] B bl -> h ∈ bl i ->
  let p := bottom st + total A in h + 24 <= p \/ p + ts c <= h.
Proof.
  intros W (d & _ & _ & _ & [_ Hv] & _ & _ & Ho & _)%(linked_chunk _ _ _ _ _ W).
  unfold MINSIZE in Hv. simpl in *. lia.
Qed.

Lemma middle_size st A c B bl : wf st A [c] B bl ->
  let p := bottom st + total A in
  valid_size (ts c) /\ mult8 p /\ 24 <= p /\ p + ts c <= top st /\ bottom st <= p.
Proof.
  intros W. destruct (wf_sized3 _ _ _ _ _ W) as (S1 & [S2 _]%Forall_cons & S3).
  destruct (wf_bottom _ _ _ _ _ W). pose proof (wf_end _ _ _ _ _ W) as He.
  rewrite !total_app in He. simpl in He.
  pose proof (total_nonneg _ S1). pose proof (total_nonneg _ S3). pose proof (total_mult8 _ S1).
  split_and!; [done|by apply mult8_add|lia|lia|lia].
Qed.

Section LinkMiddle.

Context (st : PtMalloc) (A : list tile) (c : tile) (B : list tile) (bl : Z -> list Z).
Hypothesis W : wf st A [c] B bl.

Let h := bottom st + total A.
Let i := bin_index (ts c).
Let st' := set_bin_bit_map i (link_bin (Bin i) h st).2.

Lemma link_middle_index : 0 <= i < NBINS.
Proof.
  destruct (middle_size _ _ _ _ _ W) as (Hv & _). pose proof (bin_index_bounds _ Hv).
  unfold i, NBINS. lia.
Qed.

Lemma link_middle_gap j x : x ∈ bl j -> x + 24 <= h \/ h + 24 <= x.
Proof.
  intros Hx. pose proof (middle_gap _ _ _ _ _ _ _ W Hx) as G.
  destruct (middle_size _ _ _ _ _ W) as ([_ Hv] & _). unfold MINSIZE in Hv. simpl in G. fold h in G. lia.
Qed.

Lemma middle_tag_gap y d : (y, d) ∈ addrs (bottom st) (A ++ [c] ++ B) -> y + 24 <= h \/ y = h \/ h + 24 <= y.
Proof.
  intros Hy. pose proof (addrs_bounds _ _ _ _ (wf_sized _ _ _ _ _ W) Hy) as (_ & _ & [_ Hd] & _).
  destruct (middle_size _ _ _ _ _ W) as ([_ Hv] & _). unfold MINSIZE in *.
  destruct (addrs_gap _ _ y d h c (wf_sized _ _ _ _ _ W) Hy); [|lia..].
  apply addrs_elem. by exists A, B.
Qed.

Lemma link_middle_facts :
  env st' = env st /\ top st' = top st
  /\ (forall j, get_bin st' (Bin j) =
        if j =? i then mkCBin (last_or 0 (h :: bl i)) h else get_bin st (Bin j))
  /\ (forall x, no_link (h :: bl i) x -> rd st' x = rd st x)
  /\ dseg (hPreChunk st') (hNextChunk st') 0 (h :: bl i) 0
  /\ (forall j, 0 <= j -> bit st' j = (j =? i) || bit st j).
Proof.
  pose proof link_middle_index as Hi. destruct (middle_size _ _ _ _ _ W) as (_ & _ & Hh & _).
  fold h in Hh. pose proof (wf_bins _ _ _ _ _ W) as Bo.
  pose proof (zero_not_linked _ _ _ _ _ W i) as Hz. pose proof (bo_ends _ _ Bo i Hi) as He.
  destruct (link_bin_effect st i h (bl i) He Hz ltac:(lia)) as (Ehd & Eenv & Ebin & _).
  destruct (link_bin_lists st i h (bl i) He (bo_dseg _ _ Bo i Hi) Hz (bo_nodup _ _ Bo i) ltac:(lia))
    as [Hrd Hd'].
  { intros x y. exact (linked_gap _ _ _ _ _ W _ _ _ _). } { apply link_middle_gap. }
  unfold st', set_bin_bit_map. split_and!.
  - by autorewrite with pt.
  - unfold top. autorewrite with pt. by rewrite Ehd.
  - intros j. rewrite bin_head. apply Ebin.
  - intros x Hx. rewrite rd_head. by apply Hrd.
  - apply (dseg_ext _ _ _ _ _ _ _ (fun y _ => conj (rd_head _ _ _) (rd_head _ _ _)) Hd').
  - intros j Hj. fold (set_bin_bit_map i (link_bin (Bin i) h st).2).
    rewrite bit_set by lia. by rewrite (bit_head _ _ _ Ehd).
Qed.

(** Linking the middle chunk: it joins its bin. *)
Lemma wf_link : tb c = true ->
  (exists bl', wf st' (A ++ c :: B) [] [] bl') /\ env st' = env st /\ top st' = top st
  /\ keeps st st' A [c] B.
Proof.
  intros Hc. destruct link_middle_facts as (Ee & Et & Eb & Hrd & Hd & Ebit).
  pose proof link_middle_index as Hi. pose proof (wf_bins _ _ _ _ _ W) as Bo.
  assert (forall x, no_link (bl i) x -> x < h + 8 \/ h + 24 <= x -> rd st' x = rd st x) as Hrd'.
  { intros x Hx Hxh. apply Hrd. intros y [->|Hy]%elem_of_cons; [lia|by apply Hx]. }
  split_and!; [|done|done|].
  - exists (update_bin i (h :: bl i) bl). eapply wf_rebin; try done.
    + apply (bins_update st); try done.
      * apply NoDup_cons. split; [|by apply Bo]. intros Hin%link_middle_gap. lia.
      * intros j y Hj Hy. pose proof (link_middle_gap _ _ Hy).
        destruct (other_bin_no_link _ _ _ _ _ i _ _ W Hy Hj). split; apply Hrd'; (done || lia).
      * intros _. rewrite Ebit, Z.eqb_refl by lia. done.
      * intros j Hj _ Hb. rewrite Ebit, Hb by lia. apply orb_true_r.
    + by rewrite !app_nil_r.
    + intros y d Hy. destruct (wf_no_link_tag _ _ _ _ _ i _ _ W Hy).
      pose proof (middle_tag_gap y d Hy). split; apply Hrd'; (done || lia).
    + destruct (middle_size _ _ _ _ _ W) as ([_ Hv] & _ & _ & Ht & _). fold h in Ht. unfold MINSIZE in Hv.
      apply Hrd'; [apply (wf_no_link_top _ _ _ _ _ _ _ W)|]; lia.
    + intros g j. rewrite free_at_nil, free_at_app, free_at_cons. unfold update_bin.
      pose proof (wf_match _ _ _ _ _ W g j) as Hm. simpl in Hm. rewrite Z.add_0_r in Hm. fold h in Hm |- *.
      destruct (Z.eqb_spec j i) as [->|Hj]; [rewrite elem_of_cons|]; rewrite Hm; [by intuition|].
      split; [tauto|]. intros [[|[(_ & _ & E)|]]|[]]; [tauto|by destruct Hj|tauto].
  - intros x Hx. apply Hrd'; [by apply (wf_no_link _ _ _ _ _ _ _ W)|].
    destruct (wf_sized3 _ _ _ _ _ W) as (S1 & [[_ Hv] _]%Forall_cons & S3). unfold MINSIZE in Hv. simpl in Hx.
    destruct Hx as [Hx|Hx]; (apply in_user_bounds in Hx; [|done]); fold h in Hx; lia.
Qed.

End LinkMiddle.

(** ** Moving the middle *)

Lemma wf_assoc st A B C bl : wf st (A ++ B) [] C bl <-> wf st A [] (B ++ C) bl.
Proof.
  split; intros [W1 W2 W3 W4 W5 W6 W7]; split; try done; simpl in *.
  - by rewrite app_assoc.
  - by rewrite app_assoc.
  - intros h i. rewrite W6, !free_at_app, total_app.
    replace (bottom st + (total A + total B) + 0) with (bottom st + total A + 0 + total B) by lia.
    rewrite (Z.add_0_r (bottom st + total A)). tauto.
  - by rewrite <- app_assoc.
  - by rewrite <- app_assoc.
  - intros h i. rewrite W6, !free_at_app, total_app.
    replace (bottom st + (total A + total B) + 0) with (bottom st + total A + 0 + total B) by lia.
    rewrite (Z.add_0_r (bottom st + total A)). tauto.
Qed.

(** An allocated chunk may be looked at as the middle, and put back. *)
Lemma wf_alloc_mid st A M c B bl : tb c = false ->
  wf st A M (c :: B) bl <-> wf st A (M ++ [c]) B bl.
Proof.
  intros Hc.
  assert (forall h i, free_at (bottom st + total A + total M) (c :: B) h i <->
            free_at (bottom st + total A + total (M ++ [c])) B h i) as E.
  { intros h i. rewrite free_at_cons, total_app, Hc. simpl.
    replace (bottom st + total A + total M + ts c)
      with (bottom st + total A + (total M + (ts c + 0))) by lia. naive_solver. }
  split; intros [W1 W2 W3 W4 W5 W6 W7]; split; try done.
  - by rewrite <- (app_assoc M).
  - by rewrite <- (app_assoc M).
  - intros h i. by rewrite W6, E.
  - by rewrite <- (app_assoc M) in W1.
  - by rewrite <- (app_assoc M) in W2.
  - intros h i. by rewrite W6, E.
Qed.

Lemma wf_open st A c B bl : tb c = false -> wf st (A ++ c :: B) [] [] bl <-> wf st A [c] B bl.
Proof.
  intros Hc. rewrite wf_assoc, app_nil_r. by rewrite (wf_alloc_mid st A []).
Qed.

Lemma wf_close st A M B bl : Forall (fun c => tb c = false) M ->
  wf st A M B bl -> wf st (A ++ M ++ B) [] [] bl.
Proof.
  intros HM. revert B. induction M as [|c M IH] using rev_ind; intros B W.
  - rewrite wf_assoc, app_nil_r. done.
  - apply Forall_app in HM as [HM [Hc _]%Forall_cons].
    apply wf_alloc_mid in W; [|done]. apply IH in W; [|done]. by rewrite <- app_assoc.
Qed.

Lemma match_left b A c M B g j : sized A -> sized (c :: M) -> sized B -> tb c = true ->
  free_at b A g j \/ free_at (b + total A + total (c :: M)) B g j <->
  (free_at b (A ++ [c]) g j \/ free_at (b + total (A ++ [c]) + total M) B g j) /\ g ≠ b + total A.
Proof.
  intros SA [[_ Hv] SM]%Forall_cons SB Hc. unfold MINSIZE in Hv. pose proof (total_nonneg _ SM).
  rewrite free_at_app, free_at_cons, free_at_nil, total_app. simpl.
  replace (b + (total A + (ts c + 0)) + total M) with (b + total A + (ts c + total M)) by lia.
  split; [|tauto]. intros Hf. split; [tauto|].
  destruct Hf as [(d & Hd & _)|(d & Hd & _)]; apply addrs_bounds in Hd as (? & ? & [_ ?] & _);
    unfold MINSIZE in *; (done || lia).
Qed.

Lemma match_right b A M c B g j : sized A -> sized M -> sized (c :: B) -> tb c = true ->
  free_at b A g j \/ free_at (b + total A + total (M ++ [c])) B g j <->
  (free_at b A g j \/ free_at (b + total A + total M) (c :: B) g j) /\ g ≠ b + total A + total M.
Proof.
  intros SA SM [[_ Hv] SB]%Forall_cons Hc. unfold MINSIZE in Hv. pose proof (total_nonneg _ SM).
  rewrite free_at_cons, total_app. simpl.
  replace (b + total A + (total M + (ts c + 0))) with (b + total A + total M + ts c) by lia.
  split; [|tauto]. intros Hf. split; [tauto|].
  destruct Hf as [(d & Hd & _)|(d & Hd & _)]; apply addrs_bounds in Hd as (? & ? & [_ ?] & _);
    unfold MINSIZE in *; (done || lia).
Qed.

(** Unlinking the free chunk before, or after, the middle. *)
Lemma wf_unlink_left st A c M B bl : wf st (A ++ [c]) M B bl -> tb c = true ->
  let st' := (unlink_bin (Bin (bin_index (ts c))) (bottom st + total A) st).2 in
  (exists bl', wf st' A (c :: M) B bl') /\ env st' = env st /\ top st' = top st
  /\ keeps st st' (A ++ [c]) M B
  /\ (forall x, no_link (bl (bin_index (ts c))) x -> rd st' x = rd st x).
Proof.
  intros W Hc. destruct (wf_sized3 _ _ _ _ _ W) as ([SA Sc]%Forall_app & SM & SB).
  apply (wf_unlink _ (A ++ [c]) M B); [done| |by rewrite <- !app_assoc|].
  - apply (wf_match _ _ _ _ _ W). left. rewrite free_at_app, free_at_cons. tauto.
  - intros g j. apply match_left; try done. by inversion Sc; constructor.
Qed.

Lemma wf_unlink_right st A M c B bl : wf st A M (c :: B) bl -> tb c = true ->
  let st' := (unlink_bin (Bin (bin_index (ts c))) (bottom st + total A + total M) st).2 in
  (exists bl', wf st' A (M ++ [c]) B bl') /\ env st' = env st /\ top st' = top st
  /\ keeps st st' A M (c :: B)
  /\ (forall x, no_link (bl (bin_index (ts c))) x -> rd st' x = rd st x).
Proof.
  intros W Hc. destruct (wf_sized3 _ _ _ _ _ W) as (SA & SM & SB).
  apply (wf_unlink _ A M (c :: B)); [done| |by rewrite <- !app_assoc|].
  - apply (wf_match _ _ _ _ _ W). right. rewrite free_at_cons. tauto.
  - intros g j. by apply match_right.
Qed.

(** ** Rewriting tags *)

(** The links of the chunks around the middle are outside its tags. *)
Lemma bins_ok_outside st st' A M B bl :
  wf st A M B bl ->
  (forall i, get_bin st' (Bin i) = get_bin st (Bin i)) ->
  (forall i, bit st' i = bit st i) ->
  (forall x, x < bottom st + total A + 4 \/ bottom st + total A + total M + 8 <= x < top st ->
     rd st' x = rd st x) ->
  bins_ok st' bl.
Proof.
  intros W Hb Hbit Hr. apply (bins_ok_ext st); [apply W| |done|intros; by rewrite Hbit].
  intros i h Hh. destruct (linked_chunk _ _ _ _ _ W h i Hh) as (c & _ & _ & _ & [_ Hv] & _ & _ & Ho & Ht).
  unfold MINSIZE in Hv. split; apply Hr; lia.
Qed.

Lemma keeps_outside st st' A M B bl :
  wf st A M B bl ->
  (forall x, x < bottom st + total A + 4 \/ bottom st + total A + total M + 8 <= x < top st + 4 ->
     rd st' x = rd st x) ->
  keeps st st' A M B.
Proof.
  intros W Hr x Hx. destruct (wf_sized3 _ _ _ _ _ W) as (SA & SM & SB). apply Hr.
  pose proof (wf_end _ _ _ _ _ W) as He. rewrite !total_app in He.
  destruct Hx as [Hx|Hx]; apply in_user_bounds in Hx; (done || lia).
Qed.

Lemma seg_below st st' A bl M B : wf st A M B bl ->
  (forall x, x < bottom st + total A + 4 -> rd st' x = rd st x) ->
  seg (rd st') (bottom st) false 0 A.
Proof.
  intros W Hr. pose proof (wf_seg _ _ _ _ _ W) as [H _]%seg_app.
  apply (seg_frame (rd st)); [|done]. intros y c Hy.
  apply addrs_bounds in Hy as (_ & ? & [_ Hv] & _); [|by eapply seg_sized].
  unfold MINSIZE in Hv. split; apply Hr; lia.
Qed.

Lemma last_free_app pb cs1 cs2 : last_free pb (cs1 ++ cs2) = last_free (last_free pb cs1) cs2.
Proof.
  revert pb. induction cs1 as [|c cs1 IH]; intros pb; [done|]. simpl. by rewrite !last_free_cons.
Qed.

Lemma last_size_app ps cs1 cs2 : last_size ps (cs1 ++ cs2) = last_size (last_size ps cs1) cs2.
Proof.
  revert ps. induction cs1 as [|c cs1 IH]; intros ps; [done|]. simpl. by rewrite !last_size_cons.
Qed.

(** The middle is cut up differently, and the flag after it rewritten. *)
Lemma wf_retile st st' A M B M' b bl :
  wf st A M B bl ->
  env st' = env st -> top st' = top st ->
  (forall i, get_bin st' (Bin i) = get_bin st (Bin i)) -> (forall i, bit st' i = bit st i) ->
  let p := bottom st + total A in
  let q := p + total M in
  (forall x, x < p + 4 \/ q + 8 <= x -> rd st' x = rd st x) ->
  total M' = total M ->
  seg (rd st') p (last_free false A) (last_size 0 A) M' ->
  rd st' (q + 4) = word (hd_size B) b ->
  (B = [] -> b = true) ->
  (b = false -> last_free (last_free false A) M' = true /\ rd st' q = last_size (last_size 0 A) M') ->
  wf st' A M' (set_hd_tp b B) bl /\ keeps st st' A M B.
Proof.
  intros W Ee Et Hb Hbit p q Hr Etot Hseg Hq HB Hfree.
  assert (bins_ok st' bl) as Hbo.
  { eapply bins_ok_outside; [done..|]. intros x Hx. apply Hr. unfold p, q. lia. }
  split; [|eapply keeps_outside; [done|intros; apply Hr; unfold p, q; lia]].
  pose proof W as [W1 W2 W3 W4 W5 W6 W7]. pose proof W1 as [_ [_ W1b]%seg_app]%seg_app. fold p in W1b.
  split; rewrite ?(env_bottom _ _ Ee), ?(env_size _ _ Ee), ?Et; try done.
  - apply seg_app. split; [eapply seg_below; [done|intros; apply Hr; lia]|].
    apply seg_app. split; [done|]. fold p. rewrite Etot.
    apply (seg_set_hd (rd st) _ _ _ _ _ _ _ _ W1b); [intros; apply Hr; unfold q; lia|done|done].
  - rewrite <- W2, !total_app, total_set_hd, Etot. lia.
  - rewrite <- W2, !total_app in W3 |- *. rewrite Z.add_assoc, Z.add_assoc in W3 |- *. fold p q in W3 |- *.
    destruct B as [|c B].
    + simpl. rewrite Z.add_0_r, Hq, HB by done. done.
    + destruct (wf_sized3 _ _ _ _ _ W) as (_ & _ & [[_ Hv] SB]%Forall_cons).
      pose proof (total_nonneg _ SB). unfold MINSIZE in Hv. simpl in *. rewrite Hr by lia. done.
  - intros h i. rewrite free_at_set_hd, Etot. apply W6.
Qed.

(** The middle reaches the top and is replaced by other chunks. *)
Lemma wf_retop st st' A M M' bl :
  wf st A M [] bl ->
  env st' = env st ->
  (forall i, get_bin st' (Bin i) = get_bin st (Bin i)) -> (forall i, bit st' i = bit st i) ->
  let p := bottom st + total A in
  (forall x, x < p + 4 -> rd st' x = rd st x) ->
  top st' = p + total M' -> top st' + MINSIZE <= m_tSize (m_pstHead st) ->
  seg (rd st') p (last_free false A) (last_size 0 A) M' ->
  rd st' (top st' + 4) = word 0 true ->
  wf st' A M' [] bl /\ keeps st st' A M [].
Proof.
  intros W Ee Hb Hbit p Hr Et Hroom Hseg Htop.
  pose proof W as [W1 W2 W3 W4 W5 W6 W7]. rewrite !total_app in W2. simpl in W2.
  destruct (wf_sized3 _ _ _ _ _ W) as (_ & SM & _). pose proof (total_nonneg _ SM).
  assert (bins_ok st' bl) as Hbo.
  { eapply bins_ok_outside; [done..|]. intros x Hx. apply Hr. unfold p. lia. }
  split; [|eapply keeps_outside; [done|intros; apply Hr; unfold p; lia]].
  split; rewrite ?(env_bottom _ _ Ee), ?(env_size _ _ Ee), ?app_nil_r; try done.
  - apply seg_app. split; [eapply seg_below; [done|done]|done].
  - rewrite total_app, Et. unfold p. lia.
Qed.
