(* ===== verification/PtMallocFree.v ===== *)
(** * Freeing a chunk keeps the allocator's invariant

    [inter_free] in three steps: merge with the chunk before, merge with the
    chunk after, give the result to the top or to its bin. *)

From S2P Require Import Prelude DList PtMalloc PtMallocInv.

(** ** Reading tags *)

Definition hd_tp (cs : list tile) : bool := from_option tp true (head cs).

Section Tags.

Context (st : PtMalloc) (A M B : list tile) (bl : Z -> list Z).
Hypothesis W : wf st A M B bl.

Lemma tags_at X c Y : A ++ M ++ B = X ++ c :: Y ->
  let y := bottom st + total X in
  valid_size (ts c) /\ rd st (y + 4) = word (ts c) (tp c)
  /\ rd st (y + ts c + 4) = word (hd_size Y) (hd_tp Y)
  /\ (tp c = false -> last_free false X = true /\ rd st y = last_size 0 X)
  /\ (hd_tp Y = false -> tb c = true /\ rd st (y + ts c) = ts c).
Proof.
  intros E y. pose proof (wf_seg _ _ _ _ _ W) as Hs. rewrite E in Hs.
  apply seg_app in Hs as [_ Hs]. simpl in Hs. fold y in Hs. destruct Hs as (H1 & H2 & H3 & H4).
  split_and!; [done|done| |done|].
  - destruct Y as [|d Y]; [|apply H4]. pose proof (wf_top _ _ _ _ _ W) as Ht.
    rewrite <- (wf_end _ _ _ _ _ W), E, total_app in Ht. simpl in Ht. cbn. rewrite <- Ht. f_equal.
    unfold y. lia.
  - destruct Y as [|d Y]; [done|]. cbn. destruct H4 as (_ & _ & H4 & _). intros Hd. by apply H4.
Qed.

Lemma hd_size_mult8 X c Y : A ++ M ++ B = X ++ c :: Y -> mult8 (hd_size Y).
Proof.
  intros E. destruct Y as [|d Y]; [done|]. pose proof (wf_sized _ _ _ _ _ W) as Hs. rewrite E in Hs.
  apply Forall_app in Hs as [_ [_ [[H _] _]%Forall_cons]%Forall_cons]. done.
Qed.

Lemma chunk_at X c Y : A ++ M ++ B = X ++ c :: Y ->
  let y := bottom st + total X in
  CHUNK_SIZE st y = ts c /\ prev_inuse st y = tp c
  /\ CHUNK_SIZE st (y + ts c) = hd_size Y /\ inuse_bit_at_offset st y (ts c) = hd_tp Y.
Proof.
  intros E y. destruct (tags_at _ _ _ E) as ([Hm _] & H1 & H2 & _).
  pose proof (hd_size_mult8 _ _ _ E). fold y in H1, H2.
  unfold CHUNK_SIZE, inuse_bit_at_offset, prev_inuse, tSize. rewrite H1, H2.
  by rewrite !word_size, !word_inuse.
Qed.

Lemma bounds_at X c Y : A ++ M ++ B = X ++ c :: Y ->
  let y := bottom st + total X in
  mult8 y /\ 24 <= y /\ bottom st <= y /\ y + ts c <= top st /\ (y + ts c = top st <-> Y = [])
  /\ y + ts c + 24 <= m_tSize (m_pstHead st) /\ top st + 24 <= m_tSize (m_pstHead st).
Proof.
  intros E y. pose proof (wf_sized _ _ _ _ _ W) as Hs. pose proof (wf_end _ _ _ _ _ W) as He.
  rewrite E in Hs, He. apply Forall_app in Hs as [SX [Hc SY]%Forall_cons].
  pose proof (total_nonneg _ SX). pose proof (total_nonneg _ SY). pose proof (total_mult8 _ SX).
  destruct (wf_bottom _ _ _ _ _ W). pose proof (wf_room _ _ _ _ _ W). unfold MINSIZE in *.
  rewrite total_app in He. simpl in He.
  assert (y + ts c = top st <-> Y = []) as Hend.
  { unfold y. split; [|intros ->; simpl in *; lia]. intros Ht.
    destruct Y as [|d Y]; [done|]. apply Forall_cons in SY as [[_ Hd] SY].
    pose proof (total_nonneg _ SY). unfold MINSIZE in Hd. simpl in *. lia. }
  unfold y in *. split_and!; first [lia | by apply mult8_add | tauto].
Qed.

Lemma handle_at x : 0 <= x < m_tSize (m_pstHead st) -> ptr_to_handle st x = x.
Proof. intros Hx. unfold ptr_to_handle. zcase; simpl; lia. Qed.

(** The chunk before a chunk whose flag is clear. *)
Lemma prev_at X c Y : A ++ M ++ B = X ++ c :: Y -> tp c = false ->
  exists X' cp, X = X' ++ [cp] /\ tb cp = true /\ rd st (bottom st + total X) = ts cp.
Proof.
  intros E Hc. destruct (tags_at _ _ _ E) as (_ & _ & _ & H & _). destruct (H Hc) as [H1 H2].
  destruct X as [|cp X' _] using rev_ind; [done|]. exists X', cp.
  unfold last_free in H1. unfold last_size in H2. rewrite last_snoc in H1, H2. simpl in *.
  by split_and!.
Qed.

End Tags.

(** ** Merging with the chunk before *)

Lemma word_inj s f : s + Z.b2z f = word s f.
Proof. done. Qed.

Lemma keeps_by st st' L : (forall x, user_byte L x -> rd st' x = rd st x) ->
  forall st'', (forall x, user_byte L x -> rd st'' x = rd st' x) ->
  forall x, user_byte L x -> rd st'' x = rd st x.
Proof. intros H1 st'' H2 x Hx. by rewrite H2, H1. Qed.

Lemma user_byte_app L1 L2 x : user_byte (L1 ++ L2) x <-> user_byte L1 x \/ user_byte L2 x.
Proof.
  unfold user_byte. setoid_rewrite elem_of_app. split.
  - intros (y & s & [?|?] & ?); eauto 10.
  - intros [?|?]; split_conj; eauto 10.
Qed.

(** What the other users' bytes are, around the middle. *)
Definition others (st : PtMalloc) (A M B : list tile) : list (Z * Z) :=
  allocs (bottom st) A ++ allocs (bottom st + total A + total M) B.

Lemma keeps_others st st' A M B : keeps st st' A M B <->
  forall x, user_byte (others st A M B) x -> rd st' x = rd st x.
Proof. unfold keeps, others. setoid_rewrite user_byte_app. setoid_rewrite in_user_allocs. done. Qed.

(** The steps of [inter_free] and of the allocation paths all have this shape. *)
Record step (st st' : PtMalloc) (L : list (Z * Z)) : Prop := {
  step_env : env st' = env st;
  step_keeps : forall x, user_byte L x -> rd st' x = rd st x
}.

Lemma step_refl st L : step st st L.
Proof. by split. Qed.

Lemma step_trans st1 st2 st3 L : step st1 st2 L -> step st2 st3 L -> step st1 st3 L.
Proof. intros [E1 K1] [E2 K2]. split; [by rewrite E2|]. intros x Hx. by rewrite K2, K1. Qed.

Lemma valid_bin s : valid_size s -> 0 <= bin_index s < NBINS.
Proof. intros H%bin_index_bounds. unfold NBINS. lia. Qed.

Lemma others_left st A c M B : tb c = true -> others st (A ++ [c]) M B = others st A (c :: M) B.
Proof.
  intros Hc. unfold others. rewrite allocs_app, total_app, allocs_cons, Hc. simpl.
  rewrite app_nil_r. do 2 f_equal. lia.
Qed.

Lemma others_right st A M c B : tb c = true -> others st A M (c :: B) = others st A (M ++ [c]) B.
Proof.
  intros Hc. unfold others. rewrite allocs_cons, total_app, Hc. simpl. do 2 f_equal. lia.
Qed.

(** A free neighbour is taken out of its bin. *)
Lemma detach_left st A c M B bl : wf st (A ++ [c]) M B bl -> tb c = true ->
  let st' := clear_if_empty (bin_index (ts c))
               (unlink_bin (Bin (bin_index (ts c))) (bottom st + total A) st).2 in
  (exists bl', wf st' A (c :: M) B bl') /\ top st' = top st /\ step st st' (others st A (c :: M) B).
Proof.
  intros W Hc. destruct (wf_unlink_left st A c M B bl W Hc) as ((bl1 & W1) & E1 & T1 & K1 & _).
  destruct (wf_sized3 _ _ _ _ _ W) as ([_ [Hv _]%Forall_cons]%Forall_app & _).
  destruct (wf_clear_if_empty _ _ _ _ _ (bin_index (ts c)) W1) as (W2 & E2 & T2 & R2); [by apply valid_bin|].
  split_and!; [by exists bl1|by rewrite T2|]. rewrite <- others_left by done.
  split; [by rewrite E2|]. intros x Hx. rewrite R2. revert x Hx. by apply keeps_others.
Qed.

Lemma detach_right st A M c B bl : wf st A M (c :: B) bl -> tb c = true ->
  let st' := clear_if_empty (bin_index (ts c))
               (unlink_bin (Bin (bin_index (ts c))) (bottom st + total A + total M) st).2 in
  (exists bl', wf st' A (M ++ [c]) B bl') /\ top st' = top st /\ step st st' (others st A (M ++ [c]) B).
Proof.
  intros W Hc. destruct (wf_unlink_right st A M c B bl W Hc) as ((bl1 & W1) & E1 & T1 & K1 & _).
  destruct (wf_sized3 _ _ _ _ _ W) as (_ & _ & [Hv _]%Forall_cons).
  destruct (wf_clear_if_empty _ _ _ _ _ (bin_index (ts c)) W1) as (W2 & E2 & T2 & R2); [by apply valid_bin|].
  split_and!; [by exists bl1|by rewrite T2|]. rewrite <- others_right by done.
  split; [by rewrite E2|]. intros x Hx. rewrite R2. revert x Hx. by apply keeps_others.
Qed.

Lemma set_hd_same B : set_hd_tp (hd_tp B) B = B.
Proof. by destruct B as [|[]]. Qed.

Lemma bit_wr st a v i : bit (wr a v st) i = bit st i.
Proof. apply bit_head, head_wr. Qed.

Lemma top_wr st a v : top (wr a v st) = top st.
Proof. apply top_head, head_wr. Qed.

#[export] Hint Rewrite bit_wr top_wr : pt.

(** Two chunks of the middle become one. *)
Lemma merge_tags st A c1 c2 B bl :
  wf st A [c1; c2] B bl -> ts c1 + ts c2 <= MAX_ALLOC_SIZE ->
  let p := bottom st + total A in
  let s := ts c1 + ts c2 in
  let st' := set_presize_at_offset p s s (set_size_at_offset p 0 s st) in
  wf st' A [mkTile s (tb c2) (tp c1)] B bl /\ top st' = top st
  /\ step st st' (others st A [c1; c2] B).
Proof.
  intros W Hmax p s st'.
  destruct (tags_at _ _ _ _ _ W A c1 (c2 :: B) eq_refl) as (Hv1 & H1 & _ & H2 & _).
  destruct (tags_at _ _ _ _ _ W (A ++ [c1]) c2 B) as (Hv2 & _ & H3 & _ & H4).
  { by rewrite <- app_assoc. }
  fold p in H1, H2. rewrite total_app in H3, H4. simpl in H3, H4.
  replace (bottom st + (total A + (ts c1 + 0)) + ts c2) with (p + s) in H3, H4 by (unfold p, s; lia).
  assert (valid_size s) as Hs.
  { destruct Hv1, Hv2. split; [by apply mult8_add|]. unfold s, MINSIZE in *. lia. }
  destruct (Hs) as [Hm8 [Hlo _]]. unfold MINSIZE in Hlo.
  assert (forall x, rd st' x = if x =? p + s then s else if x =? p + 4 then word s (tp c1) else rd st x) as Hr.
  { intros x. unfold st', set_presize_at_offset, set_size_at_offset. pt_simpl.
    rewrite Z.add_0_r, H1, word_flags, !real_size_mult8, word_lor by (done || apply Hv1). done. }
  assert (env st' = env st) as Ee by (unfold st', set_presize_at_offset, set_size_at_offset; by pt_simpl).
  assert (top st' = top st) as Et by (unfold st', set_presize_at_offset, set_size_at_offset; by pt_simpl).
  destruct (wf_retile st st' A [c1; c2] B [mkTile s (tb c2) (tp c1)] (hd_tp B) bl) as [W' K']; try done.
  - intros i. unfold st', set_presize_at_offset, set_size_at_offset. by pt_simpl.
  - intros i. unfold st', set_presize_at_offset, set_size_at_offset. by pt_simpl.
  - simpl. fold p s. intros x Hx. rewrite Hr. zcase; lia.
  - simpl. lia.
  - simpl. fold p. split_and!; [done| | |done].
    + rewrite Hr. zcase; (done || lia).
    + intros Hf. destruct (H2 Hf) as [? <-]. split; [done|]. rewrite Hr. zcase; (done || lia).
  - fold p. simpl. replace (p + (ts c1 + (ts c2 + 0)) + 4) with (p + s + 4) by (unfold s; lia).
    rewrite Hr, H3. zcase; lia.
  - intros ->. done.
  - intros Hb. destruct (H4 Hb) as [Hc2 _]. cbn. fold p.
    replace (p + (ts c1 + (ts c2 + 0))) with (p + s) by (unfold s; lia).
    split; [done|]. rewrite Hr. zcase; lia.
  - rewrite set_hd_same in W'. split_and!; [done|done|].
    split; [done|]. by apply keeps_others.
Qed.

Lemma combine_prev_spec st A0 c B bl :
  wf st A0 [c] B bl -> tb c = false ->
  exists A c' st' bl',
  combine_prev (bottom st + total A0) (ts c) st = (bottom st + total A, ts c', st')
  /\ wf st' A [c'] B bl' /\ tb c' = false /\ total A + ts c' = total A0 + ts c
  /\ allocs (bottom st) A = allocs (bottom st) A0
  /\ top st' = top st /\ step st st' (others st A0 [c] B) /\ (tp c = true -> A = A0).
Proof.
  intros W Hc. set (p := bottom st + total A0).
  pose proof (chunk_at _ _ _ _ _ W A0 c B eq_refl) as (Hsz & Hin & _). fold p in Hsz, Hin.
  unfold combine_prev. rewrite Hin.
  destruct (tp c) eqn:Htp; simpl.
  { exists A0, c, st, bl. by split_and!. }
  destruct (prev_at _ _ _ _ _ W A0 c B eq_refl Htp) as (A & cp & -> & Hcp & Hps). fold p in Hps.
  unfold tPreSize. rewrite Hps. destruct (CAN_COMBILE (ts c) (ts cp)) eqn:Hcan.
  2: { exists (A ++ [cp]), c, st, bl. by split_and!. }
  assert (p - ts cp = bottom st + total A) as Ep by (unfold p; rewrite total_app; simpl; lia).
  rewrite Ep.
  destruct (bounds_at _ _ _ _ _ W A cp (c :: B)) as (_ & Hp24 & _ & Hpt & _ & _ & Hroom).
  { by rewrite <- app_assoc. }
  destruct (tags_at _ _ _ _ _ W A cp (c :: B)) as ([_ [Hlo _]] & _). { by rewrite <- app_assoc. }
  unfold MINSIZE in Hlo. rewrite handle_at by lia.
  destruct (detach_left st A cp [c] B bl W Hcp) as ((bl1 & W1) & T1 & S1).
  set (st1 := clear_if_empty _ _) in *.
  unfold CAN_COMBILE in Hcan. apply Z.leb_le in Hcan.
  destruct (merge_tags st1 A cp c B bl1 W1 ltac:(lia)) as (W2 & T2 & S2).
  unfold others in S2. rewrite (env_bottom _ _ (step_env _ _ _ S1)) in W2, T2, S2.
  rewrite (Z.add_comm (ts c)). rewrite others_left by done.
  eexists A, (mkTile (ts cp + ts c) (tb c) (tp cp)), _, bl1.
  split_and!; [reflexivity|exact W2|done| | |by rewrite T2| |congruence].
  - rewrite total_app. simpl. lia.
  - rewrite allocs_app, allocs_cons, Hcp. simpl. by rewrite app_nil_r.
  - by eapply step_trans.
Qed.

(** ** Merging with the chunk after *)

Lemma combine_next_spec st A c B0 bl :
  wf st A [c] B0 bl -> tb c = false ->
  exists c' B st' bl',
  combine_next (bottom st + total A) (ts c) st = inr (ts c', st')
  /\ wf st' A [c'] B bl'
  /\ allocs (bottom st + total A + ts c') B = allocs (bottom st + total A + ts c) B0
  /\ top st' = top st /\ step st st' (others st A [c] B0).
Proof.
  intros W Hc. set (p := bottom st + total A).
  destruct (bounds_at _ _ _ _ _ W A c B0 eq_refl) as (_ & _ & _ & _ & Hend & _). fold p in Hend.
  change (m_hTop (m_pstHead st)) with (top st) in *. unfold combine_next.
  change (m_hTop (m_pstHead st)) with (top st).
  destruct (Z.eqb_spec (p + ts c) (top st)) as [Et|Et]; simpl.
  { exists c, B0, st, bl. by split_and!. }
  destruct B0 as [|cn B]; [tauto|].
  pose proof (chunk_at _ _ _ _ _ W (A ++ [c]) cn B) as (Hsz & _ & _ & Hin). { by rewrite <- app_assoc. }
  destruct (bounds_at _ _ _ _ _ W (A ++ [c]) cn B) as (_ & Hp24 & _ & Hpt & _ & _ & Hroom).
  { by rewrite <- app_assoc. }
  destruct (tags_at _ _ _ _ _ W (A ++ [c]) cn B) as ([Hm8 [Hlo _]] & Hw & _ & _ & Hfr). { by rewrite <- app_assoc. }
  rewrite total_app in Hsz, Hin, Hp24, Hpt, Hw. simpl in Hsz, Hin, Hp24, Hpt, Hw.
  replace (bottom st + (total A + (ts c + 0))) with (p + ts c) in * by (unfold p; lia).
  rewrite Hsz. destruct (Z.ltb_spec (ts cn) MINSIZE); [lia|].
  unfold tSize. rewrite Hw. unfold REAL_SIZE. rewrite word_size, Hin by done. unfold MINSIZE in Hlo.
  destruct (hd_tp B) eqn:Htp; simpl.
  { exists c, (cn :: B), st, bl. by split_and!. }
  destruct (Hfr eq_refl) as [Hcn _].
  destruct (CAN_COMBILE (ts c) (ts cn)) eqn:Hcan.
  2: { exists c, (cn :: B), st, bl. by split_and!. }
  unfold CAN_COMBILE in Hcan. apply Z.leb_le in Hcan. rewrite handle_at by lia.
  destruct (detach_right st A [c] cn B bl W Hcn) as ((bl1 & W1) & T1 & S1).
  simpl in T1, S1, W1. rewrite Z.add_0_r in T1, S1, W1. fold p in T1, S1, W1.
  set (st1 := clear_if_empty _ _) in *.
  destruct (merge_tags st1 A c cn B bl1 W1 Hcan) as (W2 & T2 & S2).
  unfold others in S2. rewrite (env_bottom _ _ (step_env _ _ _ S1)) in W2, T2, S2.
  eexists (mkTile (ts c + ts cn) (tb cn) (tp c)), B, _, bl1.
  split_and!; [reflexivity|exact W2| |by etrans; [exact T2|]|].
  - rewrite allocs_cons, Hcn. simpl. f_equal. lia.
  - rewrite (others_right _ _ [c]) by done. by eapply step_trans.
Qed.

(** ** Giving the chunk back *)

(** The tags [place_free] writes before it decides. *)
Lemma place_tags st A c B bl :
  wf st A [c] B bl ->
  let p := bottom st + total A in
  let s := ts c in
  let st' := set_inuse_bit_at_offset p s (set_presize_at_offset p s s (set_size_at_offset p 0 s st)) in
  m_pstHead st' = m_pstHead st /\ env st' = env st
  /\ (forall i, get_bin st' (Bin i) = get_bin st (Bin i))
  /\ forall x, rd st' x = if x =? p + s + 4 then word (hd_size B) true
       else if x =? p + s then s else rd st x.
Proof.
  intros W p s st'.
  destruct (tags_at _ _ _ _ _ W A c B eq_refl) as (Hv & H1 & H2 & _). fold p s in H1, H2.
  pose proof (hd_size_mult8 _ _ _ _ _ W A c B eq_refl) as Hm. destruct (Hv) as [Hm8 [Hlo _]].
  unfold MINSIZE in Hlo. fold s in Hlo, Hm8.
  unfold st', set_inuse_bit_at_offset, set_presize_at_offset, set_size_at_offset. pt_simpl.
  split_and!; [done|done|intros; by pt_simpl|]. intros x. pt_simpl.
  rewrite Z.add_0_r, H1, word_flags, !real_size_mult8, word_lor by done.
  replace (p + s + 4 =? p + s) with false by lia. replace (p + s + 4 =? p + 4) with false by lia.
  rewrite H2, word_set by done. zcase; subst; done.
Qed.

Lemma place_free_top st A c bl :
  wf st A [c] [] bl ->
  let st' := place_free (bottom st + total A) (ts c) st in
  wf st' A [] [] bl /\ step st st' (others st A [c] []).
Proof.
  intros W st'. destruct (place_tags _ _ _ _ _ W) as (Ehd & Ee & Eb & Hr).
  destruct (bounds_at _ _ _ _ _ W A c [] eq_refl) as (_ & Hp24 & _ & Hpt & Hend & _ & Hroom).
  destruct (tags_at _ _ _ _ _ W A c [] eq_refl) as ([_ [Hlo _]] & _). unfold MINSIZE in Hlo.
  unfold st', place_free. set (p := bottom st + total A) in *.
  set (st1 := set_inuse_bit_at_offset _ _ _) in *.
  set (st2 := if m_tLastFreeChunkSize (m_pstHead st1) <? ts c then _ else _).
  assert (view_eq st1 st2) as V2 by (unfold st2; destruct (_ <? _); [apply view_set_last|done]).
  pose proof V2 as [E2 T2 R2 B2 I2]. rewrite (top_head _ _ Ehd) in T2.
  assert (m_hTop (m_pstHead st2) = p + ts c) as Ht by (fold (top st2); rewrite T2; symmetry; by apply Hend).
  rewrite Ht, Z.eqb_refl. replace (p + ts c - ts c) with p by lia.
  set (st3 := set_tSize p PREV_INUSE (set_pstHead (set_hTop p) st2)).
  assert (forall st4, view_eq st3 st4 -> wf st4 A [] [] bl /\ step st st4 (others st A [c] [])) as H.
  2: { destruct (_ && _); apply H; [apply view_set_last|done]. }
  assert (env st3 = env st) as E3 by (unfold st3; pt_simpl; congruence).
  assert (top st3 = p) as T3 by (unfold st3, top; pt_simpl; done).
  destruct (wf_retop st st3 A [c] [] bl W) as [W3 K3]; try done.
  - intros i. unfold st3. pt_simpl. by rewrite B2.
  - intros i. unfold st3. pt_simpl.
    etrans; [|etrans; [exact (I2 i)|by apply bit_head]].
    unfold bit, bitmap_word. rewrite head_head. by destruct (m_pstHead st2).
  - fold p. intros x Hx. unfold st3. pt_simpl. rewrite R2, Hr. zcase; (done || lia).
  - rewrite T3. simpl. unfold p. lia.
  - rewrite T3. unfold MINSIZE. lia.
  - rewrite T3. unfold st3. pt_simpl. by rewrite Z.eqb_refl.
  - intros st4 V4. split; [by rewrite <- V4|]. destruct V4 as [E4 T4 R4 B4 I4].
    split; [congruence|]. intros x Hx. rewrite R4. revert x Hx. by apply keeps_others.
Qed.

(** A free chunk below other chunks: the flag after it is cleared. *)
Lemma place_tags_bin st A c B bl :
  wf st A [c] B bl -> B ≠ [] ->
  let p := bottom st + total A in
  let s := ts c in
  let st1 := set_inuse_bit_at_offset p s (set_presize_at_offset p s s (set_size_at_offset p 0 s st)) in
  forall st2, view_eq st1 st2 ->
  let st3 := clear_inuse_bit_at_offset p s st2 in
  wf st3 A [mkTile s true (tp c)] (set_hd_tp false B) bl
  /\ step st st3 (others st A [c] B) /\ top st3 = top st.
Proof.
  intros W HB p s st1 st2 [E2 T2 R2 B2 I2] st3. destruct (place_tags _ _ _ _ _ W) as (Ehd & Ee & Eb & Hr).
  destruct (tags_at _ _ _ _ _ W A c B eq_refl) as (Hv & H1 & _ & H2 & _).
  fold p s st1 in H1, H2, Hr, Ehd, Ee, Eb. pose proof (hd_size_mult8 _ _ _ _ _ W A c B eq_refl) as Hm.
  destruct (Hv) as [Hm8 [Hlo _]]. unfold MINSIZE in Hlo. fold s in Hlo, Hm8.
  assert (forall x, rd st3 x = if x =? p + s + 4 then word (hd_size B) false
            else if x =? p + s then s else rd st x) as Hr3.
  { intros x. unfold st3, clear_inuse_bit_at_offset. pt_simpl. rewrite !R2, !Hr, Z.eqb_refl, word_clear by done.
    zcase; done. }
  assert (env st3 = env st) as E3 by (unfold st3, clear_inuse_bit_at_offset; pt_simpl; congruence).
  assert (top st3 = top st) as T3.
  { unfold st3, clear_inuse_bit_at_offset. pt_simpl. rewrite T2. by apply top_head. }
  destruct (wf_retile st st3 A [c] B [mkTile s true (tp c)] false bl) as [W3 K3]; try done.
  - intros i. unfold st3, clear_inuse_bit_at_offset. pt_simpl. by rewrite B2.
  - intros i. unfold st3, clear_inuse_bit_at_offset. pt_simpl. rewrite I2. by apply bit_head.
  - simpl. fold p s. intros x Hx. rewrite Hr3. zcase; (done || lia).
  - simpl. fold p. split_and!; [done| | |done].
    + rewrite Hr3. zcase; (done || lia).
    + intros Hf. destruct (H2 Hf) as [? <-]. split; [done|]. rewrite Hr3. zcase; (done || lia).
  - simpl. fold p s. rewrite Hr3. zcase; (done || lia).
  - cbn. intros _. fold p s. split; [done|]. rewrite Hr3. zcase; (done || lia).
  - split_and!; [done| |done]. split; [done|]. by apply keeps_others.
Qed.

Lemma bottom_step st st' L : step st st' L -> bottom st' = bottom st.
Proof. intros [E _]. by apply env_bottom. Qed.

Lemma size_step st st' L : step st st' L -> m_tSize (m_pstHead st') = m_tSize (m_pstHead st).
Proof. intros [E _]. by apply env_size. Qed.

Lemma place_free_spec st A c B bl :
  wf st A [c] B bl ->
  let st' := place_free (bottom st + total A) (ts c) st in
  exists cs' bl', wf st' cs' [] [] bl' /\ step st st' (others st A [c] B)
  /\ allocs (bottom st) cs' = others st A [c] B /\ (exists R, cs' = A ++ R).
Proof.
  intros W st'. destruct (decide (B = [])) as [->|HB].
  { destruct (place_free_top _ _ _ _ W) as [W' S']. exists A, bl. split_and!; [done|done| |].
    - unfold others. simpl. by rewrite app_nil_r.
    - exists []. by rewrite app_nil_r. }
  destruct (bounds_at _ _ _ _ _ W A c B eq_refl) as (_ & Hp24 & _ & Hpt & Hend & Hsz & _).
  destruct (place_tags _ _ _ _ _ W) as (Ehd & _).
  unfold st', place_free. set (p := bottom st + total A) in *.
  set (st1 := set_inuse_bit_at_offset _ _ _) in *.
  set (st2 := if m_tLastFreeChunkSize (m_pstHead st1) <? ts c then _ else _).
  assert (view_eq st1 st2) as V2 by (unfold st2; destruct (_ <? _); [apply view_set_last|done]).
  pose proof (ve_top _ _ V2) as T2. rewrite (top_head _ _ Ehd) in T2. unfold top in T2 at 1. rewrite T2.
  destruct (Z.eqb_spec (p + ts c) (top st)); [tauto|].
  destruct (place_tags_bin st A c B bl W HB st2 V2) as (W3 & S3 & T3). fold p in W3, S3, T3.
  set (st3 := clear_inuse_bit_at_offset p (ts c) st2) in *.
  destruct (wf_link _ _ _ _ _ W3 eq_refl) as ((bl' & W4) & E4 & T4 & K4). simpl in W4, E4, T4, K4.
  rewrite handle_at by (rewrite (size_step _ _ _ S3); destruct (tags_at _ _ _ _ _ W A c B eq_refl) as ([_ [Hlo _]] & _); unfold MINSIZE in Hlo; lia).
  rewrite (bottom_step _ _ _ S3) in W4, E4, T4, K4. fold p in W4, E4, T4, K4.
  assert (forall x, user_byte (others st A [c] B) x ->
    rd (set_bin_bit_map (bin_index (ts c)) (link_bin (Bin (bin_index (ts c))) p st3).2) x = rd st3 x) as K5.
  { intros x Hx. apply K4. rewrite (bottom_step _ _ _ S3), in_user_set_hd, !in_user_allocs.
    by apply user_byte_app. }
  exists (A ++ mkTile (ts c) true (tp c) :: set_hd_tp false B), bl'.
  assert (allocs (bottom st) (A ++ mkTile (ts c) true (tp c) :: set_hd_tp false B) = others st A [c] B) as HL.
  { unfold others. rewrite allocs_app, allocs_cons, allocs_set_hd. simpl. do 2 f_equal. lia. }
  unfold bin_index in *. destruct (in_smallbin_range (ts c)); split_and!; try done; try by eexists.
  all: eapply step_trans; [exact S3|by split].
Qed.

(** ** Freeing *)

Lemma check_inuse_ok st A c B bl : wf st A [c] B bl -> tb c = false ->
  check_inuse_chunk st (bottom st + total A) = 0.
Proof.
  intros W Hc. set (p := bottom st + total A).
  destruct (chunk_at _ _ _ _ _ W A c B eq_refl) as (H1 & H2 & H3 & H4).
  destruct (tags_at _ _ _ _ _ W A c B eq_refl) as ([_ [Hlo _]] & _ & _ & _ & H5).
  destruct (bounds_at _ _ _ _ _ W A c B eq_refl) as (_ & Hp24 & Hbot & Hpt & Hend & Hsz & _).
  fold p in H1, H2, H3, H4, H5, Hp24, Hbot, Hpt, Hend, Hsz.
  unfold check_inuse_chunk. rewrite H1, H2, H3, H4.
  destruct (hd_tp B) eqn:HtB; [|by destruct (H5 eq_refl); congruence]. simpl.
  assert ((if negb (tp c) then
     (ptr_to_handle st (p - tPreSize st p) <? m_hBottom (m_pstHead st))
     || negb (CHUNK_SIZE st (p - tPreSize st p) =? tPreSize st p) else false) = false) as ->.
  { destruct (tp c) eqn:Htp; [done|]. simpl.
    destruct (prev_at _ _ _ _ _ W A c B eq_refl Htp) as (A' & cp & -> & Hcp & Hps). fold p in Hps.
    destruct (chunk_at _ _ _ _ _ W A' cp (c :: B)) as (G1 & _). { by rewrite <- app_assoc. }
    destruct (bounds_at _ _ _ _ _ W A' cp (c :: B)) as (_ & G2 & G3 & G4 & _ & G5 & _). { by rewrite <- app_assoc. }
    unfold tPreSize. rewrite Hps.
    replace (p - ts cp) with (bottom st + total A') by (unfold p; rewrite total_app; simpl; lia).
    destruct (tags_at _ _ _ _ _ W A' cp (c :: B)) as ([_ [G6 _]] & _). { by rewrite <- app_assoc. }
    unfold MINSIZE in G6. rewrite handle_at by lia. rewrite G1, Z.eqb_refl.
    unfold bottom in *. zcase; simpl; lia. }
  unfold AT_TOP. rewrite Z.add_0_r. change (m_hTop (m_pstHead st)) with (top st).
  destruct (Z.eqb_spec (p + ts c) (top st)) as [|Hne]; [done|]. simpl.
  destruct B as [|d B]; [tauto|]. cbn.
  destruct (wf_sized3 _ _ _ _ _ W) as (_ & _ & [[_ Hd] _]%Forall_cons).
  zcase; [lia|done].
Qed.

Lemma aligned_mult8 p : mult8 p -> misaligned_chunk p = false.
Proof.
  intros Hp. unfold misaligned_chunk. destruct (low3_split p 0 Hp ltac:(lia)) as [E _].
  rewrite Z.add_0_r in E. change MALLOC_ALIGN_MASK with 7. by rewrite E.
Qed.

Lemma next_in_use st A c B bl : wf st A [c] B bl -> tb c = false -> hd_tp B = true.
Proof.
  intros W Hc. destruct (tags_at _ _ _ _ _ W A c B eq_refl) as (_ & _ & _ & _ & H).
  destruct (hd_tp B); [done|]. destruct (H eq_refl). congruence.
Qed.

Lemma inter_free_mid st A c B bl :
  wf st A [c] B bl -> tb c = false ->
  exists st' cs' bl',
  inter_free (chunk2mem (bottom st + total A)) st = (0, ts c, st')
  /\ wf st' cs' [] [] bl' /\ step st st' (others st A [c] B)
  /\ allocs (bottom st) cs' = others st A [c] B /\ (tp c = true -> exists R, cs' = A ++ R).
Proof.
  intros W Hc. set (p := bottom st + total A).
  destruct (chunk_at _ _ _ _ _ W A c B eq_refl) as (H1 & _ & _ & H4).
  destruct (bounds_at _ _ _ _ _ W A c B eq_refl) as (Hp8 & Hp24 & Hbot & Hpt & Hend & Hsz & Hroom).
  destruct (tags_at _ _ _ _ _ W A c B eq_refl) as ([_ [Hlo _]] & _). unfold MINSIZE in Hlo.
  fold p in H1, H4, Hp8, Hp24, Hbot, Hpt, Hend, Hsz.
  unfold inter_free, INVALID_HANDLE, chunk2mem, mem2chunk, handle_to_ptr, SIZE_SZ.
  destruct (Z.eqb_spec (p + 2 * 4) 0); [lia|].
  destruct (Z.leb_spec (m_tSize (m_pstHead st)) (p + 2 * 4)); [lia|].
  replace (p + 2 * 4 - 2 * 4) with p by lia. rewrite H1, handle_at by lia.
  destruct (Z.leb_spec (m_tSize (m_pstHead st)) (p + ts c)); [lia|].
  pose proof (check_inuse_ok _ _ _ _ _ W Hc) as Hchk. fold p in Hchk.
  rewrite H4, (next_in_use _ _ _ _ _ W Hc), aligned_mult8, Hchk by done. simpl.
  destruct (combine_prev_spec _ _ _ _ _ W Hc) as (A' & c' & st1 & bl1 & Ec & W1 & Hc' & Etot & EA & T1 & S1 & Hsame).
  fold p in Ec. rewrite Ec.
  pose proof (bottom_step _ _ _ S1) as Eb1.
  destruct (combine_next_spec _ _ _ _ _ W1 Hc') as (c2 & B' & st2 & bl2 & En & W2 & EB & T2 & S2).
  pose proof (bottom_step _ _ _ S2) as Eb2. rewrite Eb1 in En, EB, Eb2. rewrite En.
  destruct (place_free_spec _ _ _ _ _ W2) as (cs' & bl' & W3 & S3 & E3 & R & ER).
  rewrite Eb2 in W3, S3, E3.
  assert (others st1 A' [c'] B = others st A [c] B) as EO1.
  { unfold others. rewrite Eb1, EA. simpl. do 2 f_equal. lia. }
  assert (others st2 A' [c2] B' = others st A [c] B) as EO2.
  { rewrite <- EO1. unfold others. rewrite Eb1, Eb2. simpl. rewrite !Z.add_0_r. by rewrite EB. }
  rewrite EO1 in S2. rewrite EO2 in S3, E3.
  eexists _, cs', bl'. split_and!; [reflexivity|exact W3| |exact E3|].
  - by eapply step_trans; [|eapply step_trans].
  - intros Htp. exists R. by rewrite ER, Hsame.
Qed.

Lemma inter_free_spec st A c B bl :
  wf st (A ++ c :: B) [] [] bl -> tb c = false ->
  exists st' cs' bl',
  inter_free (chunk2mem (bottom st + total A)) st = (0, ts c, st')
  /\ wf st' cs' [] [] bl' /\ step st st' (others st A [c] B)
  /\ allocs (bottom st) cs' = others st A [c] B.
Proof.
  intros W Hc. apply wf_open in W; [|done].
  destruct (inter_free_mid _ _ _ _ _ W Hc) as (st' & cs' & bl' & ? & ? & ? & ? & _). by exists st', cs', bl'.
Qed.
