(* ===== verification/PtMallocAlloc.v ===== *)
(** * Allocating a chunk keeps the allocator's invariant

    The three sources of a chunk (an exactly fitting small bin, a larger free
    chunk that is split, the top of the segment) and the searches that choose
    among them. *)

From S2P Require Import Prelude DList PtMalloc PtMallocInv PtMallocFree.

(** ** Sizes *)

Lemma request_size req : 0 <= req -> REQUEST_OUT_OF_RANGE req = false ->
  valid_size (request2size req) /\ req + 4 <= request2size req
  /\ (MINSIZE < request2size req -> request2size req <= req + 11).
Proof.
  intros H0. unfold REQUEST_OUT_OF_RANGE. change (wrap 32 (- 2 * MINSIZE)) with 4294967248.
  intros H. apply Z.leb_gt in H. unfold request2size, valid_size.
  change MALLOC_ALIGN_MASK with 7. unfold SIZE_SZ, MINSIZE, MAX_ALLOC_SIZE.
  destruct (Z.ltb_spec (req + 4 + 7) 24); [repeat split; lia|].
  destruct (ldiff7_mult8 (req + 4 + 7)) as [Hm Hb].
  assert (24 <= Z.ldiff (req + 4 + 7) 7) by (rewrite ldiff7_eq; zdm). repeat split; (done || lia).
Qed.

(** ** Marking a chunk allocated *)

Section Mark.

Context (st : PtMalloc) (A : list tile) (c : tile) (B : list tile) (bl : Z -> list Z).

(** A chunk of the middle is allocated once the flag after it is set. *)
Lemma wf_mark b : wf st A [c] B bl -> hd_tp B = true -> wf st A [mkTile (ts c) b (tp c)] B bl.
Proof.
  intros W HB. destruct (tags_at _ _ _ _ _ W A c B eq_refl) as (Hv & H1 & H2 & H3 & _).
  rewrite <- (set_hd_same B), HB.
  apply (wf_retile st st A [c] B [mkTile (ts c) b (tp c)] true bl); try done.
  simpl. by rewrite Z.add_0_r, H2, HB.
Qed.

(** Setting the flag after a chunk is harmless whatever the chunk's state. *)
Lemma wf_set_flag : wf st (A ++ [c]) [] B bl ->
  let st' := set_inuse_bit_at_offset (bottom st + total A) (ts c) st in
  wf st' (A ++ [c]) [] (set_hd_tp true B) bl
  /\ step st st' (others st (A ++ [c]) [] B) /\ top st' = top st.
Proof.
  intros W st'. destruct (tags_at _ _ _ _ _ W A c B) as (Hv & _ & H2 & _). { by rewrite <- app_assoc. }
  pose proof (hd_size_mult8 _ _ _ _ _ W A c B ltac:(by rewrite <- app_assoc)) as Hm.
  assert (env st' = env st) as Ee by (unfold st', set_inuse_bit_at_offset; by pt_simpl).
  assert (top st' = top st) as Et by (unfold st', set_inuse_bit_at_offset; by pt_simpl).
  assert (bottom st + total (A ++ [c]) + total [] = bottom st + total A + ts c) as Eq.
  { rewrite total_app. simpl. lia. }
  assert (forall x, rd st' x = if x =? bottom st + total A + ts c + 4 then word (hd_size B) true else rd st x) as Hr.
  { intros x. unfold st', set_inuse_bit_at_offset. pt_simpl. rewrite H2, word_set by done. zcase; done. }
  destruct (wf_retile st st' (A ++ [c]) [] B [] true bl) as [W' K']; try done.
  - intros i. unfold st', set_inuse_bit_at_offset. by pt_simpl.
  - intros i. unfold st', set_inuse_bit_at_offset. by pt_simpl.
  - rewrite Eq. intros x Hx. rewrite Hr. zcase; [|done]. subst x.
    destruct Hv as [_ [Hlo _]]. unfold MINSIZE in Hlo. rewrite total_app in Hx. simpl in Hx. lia.
  - rewrite Eq, Hr, Z.eqb_refl. done.
  - split_and!; [done| |done]. split; [done|]. by apply keeps_others.
Qed.

End Mark.

(** The bytes of users may be kept for more users than asked. *)
Lemma step_weaken st st' L L' : step st st' L -> (forall z, z ∈ L' -> z ∈ L) -> step st st' L'.
Proof.
  intros [E K] H. split; [done|]. intros x (y & s & Hin & Hx). apply K. exists y, s. auto.
Qed.

(** ** The top of the segment *)

Lemma top_alloc_spec st cs bl s :
  wf st cs [] [] bl -> valid_size s ->
  let '(p, st') := top_alloc s st in
  (m_tSize (m_pstHead st) <= top st + s + MINSIZE /\ p = 0 /\ st' = st)
  \/ (p = chunk2mem (top st) /\ top st + s + MINSIZE < m_tSize (m_pstHead st)
      /\ wf st' (cs ++ [mkTile s false true]) [] [] bl /\ step st st' (allocs (bottom st) cs)).
Proof.
  intros W Hs. unfold top_alloc. change (m_hTop (m_pstHead st)) with (top st).
  destruct (Z.leb_spec (m_tSize (m_pstHead st)) (top st + s + MINSIZE)); [by left|]. right.
  set (st' := set_pstHead _ _).
  destruct (Hs) as [Hm8 [Hlo Hhi]]. unfold MINSIZE in Hlo.
  pose proof (wf_top _ _ _ _ _ W) as Htop. pose proof (wf_end _ _ _ _ _ W) as He. rewrite !app_nil_r in He.
  assert (forall x, rd st' x = if x =? top st + s + 4 then word 0 true else if x =? top st + s then s
    else if x =? top st + 4 then word s true else rd st x) as Hr.
  { intros x. unfold st', handle_to_ptr. pt_simpl.
    rewrite Htop, word_flags, real_size_mult8, Z.lor_comm, word_lor by done. done. }
  assert (env st' = env st) as Ee by (unfold st'; by pt_simpl).
  assert (top st' = top st + s) as Et by (unfold st', top; by pt_simpl).
  destruct (wf_retop st st' cs [] [mkTile s false true] bl W) as [W' K']; try done.
  - intros i. unfold st'. by pt_simpl.
  - intros i. unfold st', bit, bitmap_word. pt_simpl. by destruct (m_pstHead st).
  - rewrite He. intros x Hx. rewrite Hr. zcase; (done || lia).
  - rewrite Et. simpl. lia.
  - rewrite Et. lia.
  - simpl. rewrite He. split_and!; [done| |done|done]. rewrite Hr. zcase; (done || lia).
  - rewrite Et, Hr, Z.eqb_refl. done.
  - split_and!; [done|done|by apply wf_open|]. split; [done|].
    intros x Hx. apply K'. left. by apply in_user_allocs.
Qed.

(** ** Splitting a free chunk *)

Lemma split_tags_spec st A c B bl s1 s2 :
  wf st A [c] B bl -> valid_size s1 -> valid_size s2 -> ts c = s1 + s2 ->
  let st' := split_tags (bottom st + total A) s1 s2 st in
  wf st' A [mkTile s1 false (tp c); mkTile s2 false true] (set_hd_tp true B) bl
  /\ step st st' (others st A [c] B).
Proof.
  intros W H1 H2 Hc st'. set (p := bottom st + total A).
  destruct (tags_at _ _ _ _ _ W A c B eq_refl) as (Hv & Hw & Hn & Hf & _). fold p in Hw, Hn, Hf.
  pose proof (hd_size_mult8 _ _ _ _ _ W A c B eq_refl) as Hm. rewrite Hc in Hn.
  destruct (H1) as [H1m [H1l _]], (H2) as [H2m [H2l _]], (Hv) as [Hvm _]. unfold MINSIZE in *.
  assert (forall x, rd st' x = if x =? p + s1 + s2 + 4 then word (hd_size B) true
     else if x =? p + s1 + s2 then s2 else if x =? p + s1 + 4 then word s2 true
     else if x =? p + s1 then s1 else if x =? p + 4 then word s1 (tp c) else rd st x) as Hr.
  { intros x. unfold st', split_tags, set_inuse_bit_at_offset. fold p. pt_simpl.
    replace (p + s1 + 0) with (p + s1) by lia. rewrite !Z.eqb_refl.
    replace (p + s1 + s2 + 4 =? p + s1 + s2) with false by lia.
    replace (p + s1 + s2 + 4 =? p + s1 + 4) with false by lia.
    replace (p + s1 + s2 + 4 =? p + s1) with false by lia.
    replace (p + s1 + s2 + 4 =? p + 4) with false by lia.
    replace (p + s1 + 4 =? p + s1) with false by lia.
    replace (p + (s1 + s2) + 4) with (p + s1 + s2 + 4) in Hn by lia.
    rewrite Hw, Hn, word_flags, word_lor, word_set by done.
    change (Z.lor s2 PREV_INUSE) with (Z.lor s2 (Z.b2z true)). rewrite word_lor by done.
    zcase; (done || lia). }
  assert (env st' = env st) as Ee by (unfold st', split_tags, set_inuse_bit_at_offset; by pt_simpl).
  assert (top st' = top st) as Et by (unfold st', split_tags, set_inuse_bit_at_offset; by pt_simpl).
  destruct (wf_retile st st' A [c] B [mkTile s1 false (tp c); mkTile s2 false true] true bl) as [W' K']; try done.
  - intros i. unfold st', split_tags, set_inuse_bit_at_offset. by pt_simpl.
  - intros i. unfold st', split_tags, set_inuse_bit_at_offset. by pt_simpl.
  - simpl. fold p. intros x Hx. rewrite Hr. zcase; (done || lia).
  - simpl. lia.
  - simpl. fold p. split_and!; try done; [..|rewrite Hr; zcase; (done || lia)].
    + rewrite Hr. zcase; (done || lia).
    + intros Hff. destruct (Hf Hff) as [? <-]. split; [done|]. rewrite Hr. zcase; (done || lia).
  - simpl. fold p. rewrite Hr. zcase; (done || lia).
  - split_and!; [done|]. split; [done|]. by apply keeps_others.
Qed.

Lemma others_mid st A c B : tb c = true ->
  others st A [c] B = allocs (bottom st) (A ++ c :: B).
Proof.
  intros Hc. unfold others. rewrite allocs_app, allocs_cons, Hc. simpl. do 2 f_equal. lia.
Qed.

(** A free chunk given out whole. *)
Lemma take_whole st A c B bl :
  wf st A [c] B bl ->
  let st' := set_inuse_bit_at_offset (bottom st + total A) (ts c) st in
  wf st' (A ++ mkTile (ts c) false (tp c) :: set_hd_tp true B) [] [] bl
  /\ step st st' (others st A [c] B).
Proof.
  intros W st'. destruct (tags_at _ _ _ _ _ W A c B eq_refl) as (Hv & Hw & Hn & Hf & _).
  pose proof (hd_size_mult8 _ _ _ _ _ W A c B eq_refl) as Hm.
  set (p := bottom st + total A) in *. destruct (Hv) as [_ [Hlo _]]. unfold MINSIZE in Hlo.
  assert (forall x, rd st' x = if x =? p + ts c + 4 then word (hd_size B) true else rd st x) as Hr.
  { intros x. unfold st', set_inuse_bit_at_offset. pt_simpl. rewrite Hn, word_set by done. zcase; done. }
  assert (env st' = env st) as Ee by (unfold st', set_inuse_bit_at_offset; by pt_simpl).
  assert (top st' = top st) as Et by (unfold st', set_inuse_bit_at_offset; by pt_simpl).
  destruct (wf_retile st st' A [c] B [mkTile (ts c) false (tp c)] true bl) as [W' K']; try done.
  - intros i. unfold st', set_inuse_bit_at_offset. by pt_simpl.
  - intros i. unfold st', set_inuse_bit_at_offset. by pt_simpl.
  - simpl. fold p. intros x Hx. rewrite Hr. zcase; (done || lia).
  - simpl. fold p. split_and!; [done| | |done].
    + rewrite Hr. zcase; (done || lia).
    + intros Hff. destruct (Hf Hff) as [? <-]. split; [done|]. rewrite Hr. zcase; (done || lia).
  - simpl. fold p. rewrite Hr. zcase; (done || lia).
  - split; [by apply wf_open|]. split; [done|]. by apply keeps_others.
Qed.

(** A free chunk given out in part; the rest is freed. *)
Lemma take_part st A c B bl s1 s2 :
  wf st A [c] B bl -> valid_size s1 -> valid_size s2 -> ts c = s1 + s2 ->
  let p := bottom st + total A in
  let st1 := split_tags p s1 s2 st in
  let st' := (inter_free (chunk2mem (ptr_to_handle st1 (p + s1))) st1).2 in
  exists cs' bl', wf st' cs' [] [] bl' /\ step st st' (others st A [c] B)
  /\ allocs (bottom st) cs' = allocs (bottom st) A ++ (p, s1) :: allocs (p + ts c) B.
Proof.
  intros W H1 H2 Hc p st1 st'.
  destruct (bounds_at _ _ _ _ _ W A c B eq_refl) as (_ & Hp24 & _ & Hpt & _ & Hsz & _). fold p in Hp24, Hpt, Hsz.
  destruct (split_tags_spec st A c B bl s1 s2 W H1 H2 Hc) as [W1 S1]. fold p st1 in W1, S1.
  set (c1 := mkTile s1 false (tp c)) in *. set (c2 := mkTile s2 false true) in *.
  assert (wf st1 (A ++ [c1]) [c2] (set_hd_tp true B) bl) as W1'.
  { apply wf_open; [done|]. rewrite <- app_assoc. change ([c1] ++ c2 :: set_hd_tp true B) with ([c1; c2] ++ set_hd_tp true B).
    apply wf_close; [|done]. by repeat constructor. }
  destruct (inter_free_mid _ _ _ _ _ W1' eq_refl) as (st2 & cs' & bl' & Hfree & W2 & S2 & EL & _).
  pose proof (bottom_step _ _ _ S1) as Eb. rewrite Eb in Hfree, EL.
  replace (bottom st + total (A ++ [c1])) with (p + s1) in Hfree
    by (rewrite total_app; unfold p; simpl; lia).
  destruct H1 as [_ [H1 _]], H2 as [_ [H2 _]]. unfold MINSIZE in *.
  assert (st' = st2) as ->.
  { unfold st'. rewrite handle_at; [by rewrite Hfree|]. rewrite (size_step _ _ _ S1). lia. }
  assert (others st1 (A ++ [c1]) [c2] (set_hd_tp true B)
          = allocs (bottom st) A ++ (p, s1) :: allocs (p + ts c) B) as EO.
  { unfold others. rewrite Eb, allocs_app, allocs_set_hd, allocs_cons, total_app, <- app_assoc. simpl.
    do 3 f_equal. unfold p. lia. }
  rewrite EO in EL, S2. exists cs', bl'. split_and!; [done| |done].
  eapply step_trans; [exact S1|]. eapply step_weaken; [exact S2|]. unfold others. simpl. fold p.
  rewrite Z.add_0_r. intros z. rewrite !elem_of_app, elem_of_cons. tauto.
Qed.

Lemma take_chunk_spec st A c B bl s :
  wf st (A ++ c :: B) [] [] bl -> tb c = true -> valid_size s -> s <= ts c ->
  MINSIZE <= get_min_chunk_size st ->
  let p := bottom st + total A in
  exists st' cs' bl' s',
  take_chunk (bin_index (ts c)) p s st = (chunk2mem p, st')
  /\ wf st' cs' [] [] bl' /\ step st st' (allocs (bottom st) (A ++ c :: B))
  /\ s <= s' /\ allocs (bottom st) cs' = allocs (bottom st) A ++ (p, s') :: allocs (p + ts c) B.
Proof.
  intros W Hc Hs Hle Hmin p.
  assert (wf st (A ++ [c]) [] B bl) as W0 by (apply wf_assoc; rewrite wf_assoc, app_nil_r in W; done).
  destruct (bounds_at _ _ _ _ _ W0 A c B) as (_ & Hp24 & _ & Hpt & _ & Hsz & _). { by rewrite <- app_assoc. }
  destruct (chunk_at _ _ _ _ _ W0 A c B) as (HC & _). { by rewrite <- app_assoc. }
  destruct (tags_at _ _ _ _ _ W0 A c B) as (Hv & _). { by rewrite <- app_assoc. }
  fold p in Hp24, Hpt, Hsz, HC. destruct (Hv) as [Hm8 [Hlo Hhi]], (Hs) as [Hs8 [Hsl Hsh]]. unfold MINSIZE in Hlo.
  destruct (detach_left st A c [] B bl W0 Hc) as ((bl1 & W1) & T1 & S1). fold p in W1, T1, S1.
  rewrite <- others_mid by done. unfold take_chunk. rewrite HC, (handle_at st p) by lia.
  set (st1 := clear_if_empty _ _) in *. pose proof (bottom_step _ _ _ S1) as Eb.
  rewrite (env_min _ _ (step_env _ _ _ S1)).
  assert (forall st', m_tSize (m_pstHead st') = m_tSize (m_pstHead st) ->
    ptr_to_handle st' (chunk2mem p) = chunk2mem p) as Hh.
  { intros st' E. apply handle_at. rewrite E. unfold chunk2mem, SIZE_SZ. lia. }
  destruct (Z.ltb_spec (ts c - s) (get_min_chunk_size st)) as [Hrem|Hrem].
  - destruct (chunk_at _ _ _ _ _ W1 A c B eq_refl) as (HC1 & _). rewrite Eb in HC1. fold p in HC1. rewrite HC1.
    destruct (take_whole _ _ _ _ _ W1) as [W2 S2]. rewrite Eb in W2, S2. fold p in W2, S2.
    unfold others in S2. rewrite Eb in S2.
    pose proof (step_trans _ _ _ _ S1 S2) as S3.
    eexists _, _, bl1, (ts c). split_and!; [|exact W2|exact S3|done|].
    + by rewrite Hh by (by apply (size_step _ _ _ S3)).
    + rewrite allocs_app, allocs_cons, allocs_set_hd. done.
  - assert (valid_size (ts c - s)) as Hv2.
    { split; [by apply mult8_sub|]. unfold MINSIZE in *. lia. }
    destruct (take_part st1 A c B bl1 s (ts c - s) W1 Hs Hv2 ltac:(lia)) as (cs' & bl' & W2 & S2 & EL).
    rewrite Eb in W2, S2, EL. fold p in W2, S2, EL. unfold others in S2. rewrite Eb in S2.
    pose proof (step_trans _ _ _ _ S1 S2) as S3.
    eexists _, cs', bl', s. split_and!; [|exact W2|exact S3|done|exact EL].
    by rewrite Hh by (by apply (size_step _ _ _ S3)).
Qed.

(** ** Exact fit in a small bin *)

Lemma linked_split st cs bl h i : wf st cs [] [] bl -> h ∈ bl i ->
  exists A c B, cs = A ++ c :: B /\ h = bottom st + total A /\ tb c = true /\ bin_index (ts c) = i.
Proof.
  intros W Hh. destruct (linked_chunk _ _ _ _ _ W h i Hh) as (c & Hin & Hc & Hi & _).
  rewrite !app_nil_r in Hin. apply addrs_elem in Hin as (A & B & -> & ->). by exists A, c, B.
Qed.

Lemma smallbin_exact s t : valid_size s -> valid_size t -> in_smallbin_range s = true ->
  bin_index t = smallbin_index s -> t = s.
Proof.
  intros [Hs _] [Ht Hb]. unfold in_smallbin_range, bin_index, smallbin_index, largebin_index, MIN_LARGE_SIZE.
  unfold mult8, in_smallbin_range, MIN_LARGE_SIZE, MINSIZE in *. rewrite !shiftr_div by lia. zcase; zdm.
Qed.

Lemma hd_tp_set b B : hd_tp (set_hd_tp b B) = match B with [] => true | _ => b end.
Proof. by destruct B. Qed.

Lemma small_bin_malloc_spec st cs bl s :
  wf st cs [] [] bl -> valid_size s -> in_smallbin_range s = true ->
  let '(p, st') := small_bin_malloc s st in
  (p = 0 /\ bl (bin_index s) = [] /\ wf st' cs [] [] bl /\ top st' = top st
   /\ step st st' (allocs (bottom st) cs))
  \/ (exists A c B cs' bl', cs = A ++ c :: B /\ p = bottom st + total A /\ tb c = true /\ ts c = s
      /\ wf st' cs' [] [] bl' /\ step st st' (allocs (bottom st) cs)
      /\ allocs (bottom st) cs' = allocs (bottom st) A ++ (p, s) :: allocs (p + s) B).
Proof.
  intros W Hs Hsm. assert (smallbin_index s = bin_index s) as Ei by (unfold bin_index; by rewrite Hsm).
  pose proof (valid_bin s Hs) as Hi. unfold small_bin_malloc, bin_malloc. rewrite Ei.
  rewrite (bo_ends _ _ (wf_bins _ _ _ _ _ W) _ Hi). simpl. unfold INVALID_HANDLE.
  destruct (bl (bin_index s)) as [|h l] eqn:El.
  { simpl. left. destruct (wf_clear_if_empty _ _ _ _ _ _ W Hi) as (W1 & E1 & T1 & R1).
    split_and!; try done. }
  assert (h ∈ bl (bin_index s)) as Hh by (rewrite El; left).
  destruct (linked_range _ _ _ _ _ W _ _ Hh) as [_ Hh24]. change (first_or 0 (h :: l)) with h.
  destruct (Z.eqb_spec h 0); [lia|]. right.
  destruct (linked_split _ _ _ _ _ W Hh) as (A & c & B & -> & -> & Hc & Hci).
  assert (wf st (A ++ [c]) [] B bl) as W0 by (apply wf_assoc; rewrite wf_assoc, app_nil_r in W; done).
  destruct (tags_at _ _ _ _ _ W0 A c B) as (Hv & Hw & _). { by rewrite <- app_assoc. }
  assert (ts c = s) as Ec by (apply smallbin_exact; [done..|by rewrite Hci, Ei]).
  set (p := bottom st + total A) in *. unfold tSize. rewrite Hw. unfold REAL_SIZE.
  rewrite word_size by apply Hv.
  destruct (wf_set_flag st A c B bl W0) as (W1 & S1 & T1). fold p in W1, S1, T1.
  set (st1 := set_inuse_bit_at_offset p (ts c) st) in *. pose proof (bottom_step _ _ _ S1) as Eb1.
  assert (get_bin st1 (Bin (bin_index s)) = get_bin st (Bin (bin_index s))) as Egb.
  { unfold st1, set_inuse_bit_at_offset. by pt_simpl. }
  rewrite Egb, (bo_ends _ _ (wf_bins _ _ _ _ _ W) _ Hi), El. simpl bin_hNextChunk.
  change (first_or 0 (p :: l)) with p. rewrite <- Hci.
  destruct (detach_left st1 A c [] (set_hd_tp true B) bl W1 Hc) as ((bl2 & W2) & T2 & S2).
  rewrite Eb1 in W2, T2, S2. fold p in W2, T2, S2. set (st2 := clear_if_empty _ _) in *.
  apply (wf_mark _ _ _ _ _ false) in W2; [|by destruct B].
  exists A, c, B, (A ++ mkTile (ts c) false (tp c) :: set_hd_tp true B), bl2.
  split_and!; try done.
  - by apply wf_open.
  - rewrite <- others_mid by done. rewrite others_left in S1 by done.
    eapply step_trans; [exact S1|]. unfold others in S2. rewrite Eb1, allocs_set_hd in S2. done.
  - rewrite allocs_app, allocs_cons, allocs_set_hd. simpl. by rewrite Ec.
Qed.

(** ** Searching the bins *)

(** First fit: a chunk of the list that is large enough, or none of the first
    [n] is. *)
Lemma search_bin_spec st s n p l :
  dseg (hPreChunk st) (hNextChunk st) p l 0 -> 0 ∉ l ->
  match search_bin n st s (first_or 0 l) with
  | Some v => v ∈ l /\ s <= CHUNK_SIZE st v
  | None => forall v, v ∈ take n l -> CHUNK_SIZE st v < s
  end.
Proof.
  revert p l. induction n as [|n IH]; intros p l Hd Hz; [intros v []%elem_of_nil|].
  destruct l as [|h l]; [intros v []%elem_of_nil|]. destruct Hd as (_ & En & Hd). simpl.
  change (first_or 0 (h :: l)) with h. unfold INVALID_HANDLE.
  destruct (Z.eqb_spec h 0) as [->|]; [by destruct Hz; left|].
  destruct (Z.leb_spec s (CHUNK_SIZE st h)); [by split; [left|]|].
  rewrite En. specialize (IH h l Hd ltac:(set_solver)). destruct (search_bin n st s (first_or 0 l)) as [v|].
  - split; [right|]; apply IH.
  - intros v [->|Hv]%elem_of_cons; auto.
Qed.

Definition empty_between (bl : Z -> list Z) (a b : Z) : Prop :=
  forall j, a <= j < b -> j < NBINS -> bl j = [].

Section NextBin.

Context (st : PtMalloc) (cs : list tile) (bl : Z -> list Z).
Hypothesis W : wf st cs [] [] bl.

(** A zero word of the bitmap means 32 empty bins. *)
Lemma zero_word w j : bitmap_word st w = 0 -> 0 <= j < NBINS -> j / 32 = w -> bl j = [].
Proof.
  intros Hw Hj Hjw. destruct (bl j) as [|h l] eqn:E; [done|].
  assert (bit st j = true) as Hb by (apply (wf_bins _ _ _ _ _ W); [done|by rewrite E]).
  unfold bit in Hb. by rewrite Hjw, Hw, Z.bits_0 in Hb.
Qed.

Lemma skip_words_spec n w : 0 <= w ->
  w * 32 <= skip_words n st w (w * 32)
  /\ empty_between bl (w * 32) (skip_words n st w (w * 32)).
Proof.
  revert w. induction n as [|n IH]; intros w Hw; simpl; [split; [lia|intros j; lia]|].
  destruct ((w <? 16) && (bitmap_word st w =? 0)) eqn:E; [|split; [lia|intros j; lia]].
  apply andb_true_iff in E as [_ E%Z.eqb_eq].
  replace (w * 32 + 32) with ((w + 1) * 32) by lia. destruct (IH (w + 1) ltac:(lia)) as [H1 H2].
  split; [lia|]. intros j Hj Hj128. destruct (Z.lt_ge_cases j ((w + 1) * 32)).
  - apply (zero_word w); [done|lia|zdm].
  - apply H2; [lia|done].
Qed.

Lemma first_candidate_spec i : 0 <= i ->
  i <= first_candidate st i /\ empty_between bl i (first_candidate st i).
Proof.
  intros Hi. unfold first_candidate. destruct (Z.eqb_spec (bitmap_word st (i / 32)) 0) as [E|E].
  - assert (0 <= i / 32) by zdm. destruct (skip_words_spec 16 (i / 32 + 1)) as [H1 H2]; [lia|].
    assert (i < (i / 32 + 1) * 32) by zdm. split; [lia|]. intros j Hj Hj128.
    destruct (Z.lt_ge_cases j ((i / 32 + 1) * 32)).
    + apply (zero_word (i / 32)); [done|lia|zdm].
    + apply H2; [lia|done].
  - split; [lia|intros j; lia].
Qed.

Lemma skip_bins_spec n i : 0 <= i -> NBINS - i <= Z.of_nat n ->
  let r := skip_bins n st i in
  i <= r /\ empty_between bl i r /\ (r < NBINS -> bl r ≠ []).
Proof.
  revert i. induction n as [|n IH]; intros i Hi Hn; simpl; [split_and!; [lia|intros j; lia|lia]|].
  destruct (Z.ltb_spec i NBINS); simpl; [|split_and!; [lia|intros j; lia|lia]].
  destruct (empty_bin st i) eqn:E.
  - rewrite (empty_bin_spec _ _ _ _ _ _ W) in E by lia.
    destruct (IH (i + 1)) as (H1 & H2 & H3); [lia|lia|]. split_and!; [lia| |done].
    intros j Hj Hj128. destruct (Z.eq_dec j i) as [->|]; [done|]. apply H2; [lia|done].
  - split_and!; [lia|intros j; lia|]. intros _ E'.
    by rewrite (proj2 (empty_bin_spec _ _ _ _ _ i W ltac:(lia)) E') in E.
Qed.

Lemma next_bin_spec i : 0 <= i ->
  let r := skip_bins 128 st (first_candidate st i) in
  i <= r /\ empty_between bl i r /\ (r < NBINS -> bl r ≠ []).
Proof.
  intros Hi r. destruct (first_candidate_spec i Hi) as [H1 H2].
  destruct (skip_bins_spec 128 (first_candidate st i)) as (H3 & H4 & H5); [lia|unfold NBINS; lia|].
  fold r in H3, H4, H5. split_and!; [lia| |done]. intros j Hj Hj128.
  destruct (Z.lt_ge_cases j (first_candidate st i)); [apply H2|apply H4]; (done || lia).
Qed.

(** Every chunk of a later bin is large enough. *)
Lemma later_bin_fits h r s : valid_size s -> bin_index s < r -> h ∈ bl r -> s < CHUNK_SIZE st h.
Proof.
  intros [_ Hs] Hr Hh. destruct (linked_split _ _ _ _ _ W Hh) as (A & c & B & -> & -> & _ & <-).
  destruct (chunk_at _ _ _ _ _ W A c B) as (-> & _). { by rewrite !app_nil_r. }
  unfold MINSIZE in Hs. apply bin_index_lt; [lia|done].
Qed.

Lemma search_tail_spec n r s : valid_size s -> bin_index s < r < NBINS -> bl r ≠ [] ->
  search_tail (S n) st s (bin_hPreChunk (get_bin st (Bin r))) = Some (last_or 0 (bl r)).
Proof.
  intros Hs Hr Hne. pose proof (valid_bin s Hs).
  rewrite (bo_ends _ _ (wf_bins _ _ _ _ _ W) r) by lia. simpl. unfold INVALID_HANDLE.
  pose proof (last_or_in 0 _ Hne) as Hin. destruct (linked_range _ _ _ _ _ W _ _ Hin) as [_ Hh].
  destruct (Z.eqb_spec (last_or 0 (bl r)) 0); [lia|].
  pose proof (later_bin_fits _ r s Hs ltac:(lia) Hin).
  destruct (Z.ltb_spec (CHUNK_SIZE st (last_or 0 (bl r))) s); [lia|done].
Qed.

End NextBin.

(** ** Allocation *)

(** No free chunk was found for [s] bytes, and the top has no room. *)
Definition exhausted (st : PtMalloc) (cs : list tile) (s : Z) : Prop :=
  (forall y c, (y, c) ∈ addrs (bottom st) cs -> tb c = true ->
     ts c < s \/ (in_smallbin_range s = false /\ bin_index (ts c) = bin_index s))
  /\ m_tSize (m_pstHead st) <= top st + s + MINSIZE.

(** The outcome of an allocation: nothing changed hands, or a new chunk at [p]
    of at least [s] bytes joined the allocated ones. *)
Definition alloc_outcome (st : PtMalloc) (cs : list tile) (s : Z) (r : Z * PtMalloc) : Prop :=
  step st r.2 (allocs (bottom st) cs) /\
  ((r.1 = 0 /\ (exists bl', wf r.2 cs [] [] bl') /\ exhausted st cs s)
   \/ exists p s' cs' bl' L1 L2, r.1 = chunk2mem p /\ wf r.2 cs' [] [] bl' /\ s <= s'
      /\ allocs (bottom st) cs = L1 ++ L2 /\ allocs (bottom st) cs' = L1 ++ (p, s') :: L2).

Lemma take_outcome st cs bl h i s :
  wf st cs [] [] bl -> valid_size s -> MINSIZE <= get_min_chunk_size st ->
  h ∈ bl i -> s <= CHUNK_SIZE st h ->
  alloc_outcome st cs s (take_chunk i h s st).
Proof.
  intros W Hs Hmin Hh Hle. destruct (linked_split _ _ _ _ _ W Hh) as (A & c & B & -> & -> & Hc & <-).
  destruct (chunk_at _ _ _ _ _ W A c B) as (HC & _). { by rewrite !app_nil_r. }
  rewrite HC in Hle.
  destruct (take_chunk_spec st A c B bl s W Hc Hs Hle Hmin) as (st' & cs' & bl' & s' & -> & W' & S' & Hs' & EL).
  split; [done|]. right. exists (bottom st + total A), s', cs', bl', (allocs (bottom st) A), (allocs (bottom st + total A + ts c) B).
  split_and!; try done. rewrite allocs_app, allocs_cons, Hc. done.
Qed.

Lemma wf_cs_sized st cs bl : wf st cs [] [] bl -> sized cs.
Proof. intros W. pose proof (wf_sized _ _ _ _ _ W) as H. by rewrite !app_nil_r in H. Qed.

Lemma free_linked st cs bl y c : wf st cs [] [] bl ->
  (y, c) ∈ addrs (bottom st) cs -> tb c = true -> bl (bin_index (ts c)) ≠ [].
Proof.
  intros W Hin Hc E. assert (y ∈ bl (bin_index (ts c))) as Hy.
  { apply (wf_match _ _ _ _ _ W). left. by exists c. }
  rewrite E in Hy. by apply elem_of_nil in Hy.
Qed.

(** With the later bins empty (and a small request's own bin), the free chunks
    are too small. *)
Lemma no_chunk_left st cs bl s :
  wf st cs [] [] bl -> valid_size s ->
  (in_smallbin_range s = true -> bl (bin_index s) = []) ->
  empty_between bl (bin_index s + 1) NBINS ->
  forall y c, (y, c) ∈ addrs (bottom st) cs -> tb c = true ->
  ts c < s \/ (in_smallbin_range s = false /\ bin_index (ts c) = bin_index s).
Proof.
  intros W [_ Hs] Hsm Hem y c Hin Hc. pose proof (free_linked _ _ _ _ _ W Hin Hc) as Hne.
  apply addrs_bounds in Hin as (_ & _ & Hv & _); [|by eapply wf_cs_sized].
  pose proof (valid_bin _ Hv). destruct Hv as [_ Hv]. unfold MINSIZE in *.
  destruct (Z.lt_ge_cases (bin_index s) (bin_index (ts c))); [destruct Hne; apply Hem; lia|].
  destruct (Z.eq_dec (bin_index (ts c)) (bin_index s)) as [E|].
  - right. destruct (in_smallbin_range s); [|done]. rewrite E in Hne. by destruct Hne; apply Hsm.
  - left. apply bin_index_lt; lia.
Qed.

Lemma top_outcome st cs bl s :
  wf st cs [] [] bl -> valid_size s ->
  (in_smallbin_range s = true -> bl (bin_index s) = []) ->
  empty_between bl (bin_index s + 1) NBINS ->
  alloc_outcome st cs s (let '(p, st') := top_alloc s st in (ptr_to_handle st' p, st')).
Proof.
  intros W Hs Hsm Hem. pose proof (top_alloc_spec st cs bl s W Hs) as Ht.
  destruct (top_alloc s st) as [p st'].
  destruct Ht as [(Hroom & -> & ->)|(-> & Hroom & W' & S')].
  - split; [done|]. left. split_and!; [|by exists bl|].
    + simpl. unfold ptr_to_handle. zcase; done.
    + split; [|done]. by apply (no_chunk_left st cs bl).
  - split; [done|]. right. pose proof (wf_end _ _ _ _ _ W) as He. rewrite !app_nil_r in He.
    exists (top st), s, (cs ++ [mkTile s false true]), bl, (allocs (bottom st) cs), [].
    split_and!; [|done|done|by rewrite app_nil_r|].
    + simpl. destruct Hs as [_ [Hs _]]. destruct (wf_bottom _ _ _ _ _ W).
      pose proof (total_nonneg _ (wf_cs_sized _ _ _ W)). unfold MINSIZE in *.
      apply handle_at. rewrite (size_step _ _ _ S'). unfold chunk2mem, SIZE_SZ. lia.
    + rewrite allocs_app, allocs_cons. simpl. by rewrite He.
Qed.

Lemma search_next_bin_spec st cs bl s :
  wf st cs [] [] bl -> valid_size s -> MINSIZE <= get_min_chunk_size st ->
  (in_smallbin_range s = true -> bl (bin_index s) = []) ->
  exists r, search_next_bin (bin_index s) s st = Some r /\ alloc_outcome st cs s r.
Proof.
  intros W Hs Hmin Hsm. pose proof (valid_bin s Hs) as Hi.
  unfold search_next_bin. destruct (next_bin_spec st cs bl W (bin_index s + 1)) as (H1 & H2 & H3); [lia|].
  set (r := skip_bins 128 st _) in *. destruct (Z.leb_spec NBINS r) as [Hr|Hr].
  - pose proof (top_outcome st cs bl s W Hs Hsm) as Ho. destruct (top_alloc s st) as [p st'].
    eexists. split; [done|]. apply Ho. intros j Hj Hj'. apply H2; lia.
  - rewrite (search_tail_spec st cs bl W) by (done || lia || by apply H3). simpl.
    eexists. split; [done|]. pose proof (last_or_in 0 _ (H3 Hr)) as Hin.
    apply (take_outcome st cs bl _ r s); try done.
    pose proof (later_bin_fits st cs bl W _ r s Hs ltac:(lia) Hin). lia.
Qed.

Lemma step_outcome st st1 cs s r :
  step st st1 (allocs (bottom st) cs) -> top st1 = top st ->
  alloc_outcome st1 cs s r -> alloc_outcome st cs s r.
Proof.
  intros S T [S' O]. pose proof (bottom_step _ _ _ S) as Eb. unfold alloc_outcome, exhausted in *.
  rewrite Eb, T, (size_step _ _ _ S) in *. split; [by eapply step_trans|done].
Qed.

Lemma inter_malloc_spec st cs bl req :
  wf st cs [] [] bl -> MINSIZE <= get_min_chunk_size st -> 0 <= req ->
  if REQUEST_OUT_OF_RANGE req then inter_malloc req st = Some (INVALID_HANDLE, st)
  else exists r, inter_malloc req st = Some r /\ alloc_outcome st cs (request2size req) r.
Proof.
  intros W Hmin Hreq. unfold inter_malloc.
  destruct (REQUEST_OUT_OF_RANGE req) eqn:Hrange; [done|].
  destruct (request_size req Hreq Hrange) as (Hs & _). set (s := request2size req) in *.
  pose proof (valid_bin s Hs) as Hi.
  destruct (in_smallbin_range s) eqn:Hsm; cbn [negb].
  - pose proof (small_bin_malloc_spec st cs bl s W Hs Hsm) as Hsb.
    destruct (small_bin_malloc s st) as [p st1].
    destruct Hsb as [(-> & Hbl & W1 & T1 & S1)|(A & c & B & cs' & bl' & -> & -> & Hc & Ec & W1 & S1 & EL)]; simpl.
    + destruct (search_next_bin_spec st1 cs bl s W1 Hs) as (r & -> & Ho); [|done|].
      { by rewrite (env_min _ _ (step_env _ _ _ S1)). }
      exists r. split; [done|]. by eapply step_outcome.
    + destruct (bounds_at _ _ _ _ _ W A c B) as (_ & Hp24 & _ & _ & _ & Hsz & _). { by rewrite !app_nil_r. }
      destruct Hs as [_ [Hs _]]. unfold MINSIZE in *. set (p := bottom st + total A) in *.
      destruct (Z.eqb_spec p 0); [lia|]. simpl.
      rewrite handle_at by (rewrite (size_step _ _ _ S1); unfold chunk2mem, SIZE_SZ; lia).
      eexists. split; [done|]. split; [done|]. right.
      exists p, s, cs', bl', (allocs (bottom st) A), (allocs (p + s) B). split_and!; try done.
      rewrite allocs_app, allocs_cons, Hc, Ec. done.
  - change (0 =? 0) with true. cbn [negb].
    pose proof (search_bin_spec st s 99 0 (bl (bin_index s))) as Hsb.
    rewrite (bo_ends _ _ (wf_bins _ _ _ _ _ W) _ Hi). simpl bin_hNextChunk.
    destruct (search_bin 99 st s _) as [v|].
    + destruct Hsb as [Hv Hle]; [by apply (bo_dseg _ _ (wf_bins _ _ _ _ _ W))|by eapply zero_not_linked|].
      eexists. split; [done|]. by apply (take_outcome st cs bl).
    + apply (search_next_bin_spec st cs bl); try done. congruence.
Qed.
