(* ===== verification/PtMallocSpec.v ===== *)
(** * The allocator implements an abstract heap

    The abstract heap is a finite map from handles to usable sizes.  [rep]
    relates a segment to the heap it implements; the theorems show that
    formatting a segment gives the empty heap, that [Malloc] adds a fresh
    block, [Free] removes one, and that no operation touches the bytes of a
    block it was not given. *)

From S2P Require Import Prelude DList PtMalloc PtMallocInv PtMallocFree PtMallocAlloc.

(** ** The abstract heap *)

Abbreviation heap := (gmap Z Z).

(** A chunk at [p] of [s] bytes is the block of handle [p + 8] with [s - 4] usable bytes. *)
Definition block (c : Z * Z) : Z * Z := (c.1 + 8, c.2 - 4).

Definition heap_of (L : list (Z * Z)) : heap := list_to_map (map block L).

Fixpoint sizes (L : list (Z * Z)) : Z :=
  match L with [] => 0 | c :: L => c.2 + sizes L end.

(** Byte [x] belongs to a block of the heap. *)
Definition in_heap (H : heap) (x : Z) : Prop := exists h n, H !! h = Some n /\ h <= x < h + n.

(** [st] implements [H]: the invariant holds, the allocated chunks are the
    blocks of [H], and the accounting of the head is exact. *)
Record rep (st : PtMalloc) (H : heap) : Prop := {
  rep_wf : exists cs bl, wf st cs [] [] bl /\ H = heap_of (allocs (bottom st) cs)
    /\ m_tUserAllocSize (m_pstHead st) = bottom st + sizes (allocs (bottom st) cs)
    /\ m_tUserAllocChunkCnt (m_pstHead st) = Z.of_nat (length (allocs (bottom st) cs));
  rep_min : MINSIZE <= minChunkSize st <= 2 ^ 30;
  rep_size : m_tSize (m_pstHead st) < 2 ^ 64
}.

(** ** Lists of chunks *)

Lemma sizes_app L1 L2 : sizes (L1 ++ L2) = sizes L1 + sizes L2.
Proof. induction L1; simpl; lia. Qed.

Lemma allocs_bounds st cs bl p s : wf st cs [] [] bl -> (p, s) ∈ allocs (bottom st) cs ->
  valid_size s /\ bottom st <= p /\ p + s <= top st /\ mult8 p.
Proof.
  intros W (c & Hin & _ & <-)%allocs_elem. pose proof (wf_end _ _ _ _ _ W) as He.
  rewrite !app_nil_r in He. destruct (wf_bottom _ _ _ _ _ W) as [_ Hb].
  apply addrs_bounds in Hin as (? & ? & ? & Hm); [|by eapply wf_cs_sized].
  split_and!; [done|lia|lia|]. replace p with (p - bottom st + bottom st) by lia. by apply mult8_add.
Qed.

Lemma allocs_disjoint st cs bl p s q t : wf st cs [] [] bl ->
  (p, s) ∈ allocs (bottom st) cs -> (q, t) ∈ allocs (bottom st) cs ->
  (p = q /\ s = t) \/ p + s <= q \/ q + t <= p.
Proof.
  intros W (c & Hc & _ & <-)%allocs_elem (d & Hd & _ & <-)%allocs_elem.
  destruct (addrs_gap _ _ _ _ _ _ (wf_cs_sized _ _ _ W) Hc Hd) as [[-> ->]|?]; auto.
Qed.

Lemma addrs_NoDup a cs : sized cs -> NoDup ((addrs a cs).*1).
Proof.
  intros Hs. revert a. induction Hs as [|c cs [_ Hc] Hs IH]; intros a; simpl; [constructor|].
  apply NoDup_cons. split; [|apply IH]. intros ([y d] & E & Hin)%list_elem_of_fmap. simpl in E. subst y.
  apply addrs_bounds in Hin; [|done]. unfold MINSIZE in Hc. lia.
Qed.

Lemma allocs_NoDup a cs : sized cs -> NoDup ((allocs a cs).*1).
Proof.
  intros Hs. pose proof (addrs_NoDup a cs Hs) as H. unfold allocs.
  induction (addrs a cs) as [|[y c] l IH]; simpl; [constructor|].
  apply NoDup_cons in H as [Hy H]. destruct (tb c); simpl; [by apply IH|].
  apply NoDup_cons. split; [|by apply IH].
  intros ([z s] & E & ([w d] & Hin & E')%list_elem_of_omap)%list_elem_of_fmap. simpl in E. subst z.
  apply Hy. destruct (tb d); [done|]. injection E' as -> _. apply list_elem_of_fmap. by exists (y, d).
Qed.

Lemma blocks_NoDup L : NoDup (L.*1) -> NoDup ((map block L).*1).
Proof.
  intros H. induction L as [|[p s] L IH]; simpl; [constructor|].
  apply NoDup_cons in H as [Hp H]. apply NoDup_cons. split; [|by apply IH].
  intros ([q t] & E & ([q' t'] & E' & Hin)%list_elem_of_fmap)%list_elem_of_fmap.
  simpl in *. unfold block in E'. simpl in E'. injection E' as -> ->.
  apply Hp, list_elem_of_fmap. exists (q', t'). simpl. split; [lia|done].
Qed.

Lemma heap_of_lookup L h n : NoDup (L.*1) -> heap_of L !! h = Some n <-> (h - 8, n + 4) ∈ L.
Proof.
  intros Hnd. unfold heap_of. rewrite <- elem_of_list_to_map by (by apply blocks_NoDup).
  rewrite list_elem_of_fmap. unfold block. split.
  - intros ([p s] & [= -> ->] & Hin). simpl in *. by replace (p + 8 - 8, s - 4 + 4) with (p, s) by (f_equal; lia).
  - intros Hin. exists (h - 8, n + 4). simpl. split; [f_equal; lia|done].
Qed.

Lemma heap_of_insert L1 L2 p s : NoDup ((L1 ++ (p, s) :: L2).*1) ->
  heap_of (L1 ++ (p, s) :: L2) = <[p + 8 := s - 4]> (heap_of (L1 ++ L2)).
Proof.
  intros Hnd. unfold heap_of. rewrite <- list_to_map_cons.
  apply list_to_map_proper; [by apply blocks_NoDup|]. rewrite !map_app. simpl.
  by rewrite <- Permutation_middle.
Qed.

Lemma heap_of_delete L1 L2 p s : NoDup ((L1 ++ (p, s) :: L2).*1) ->
  heap_of (L1 ++ L2) = delete (p + 8) (heap_of (L1 ++ (p, s) :: L2)).
Proof.
  intros Hnd. rewrite heap_of_insert by done. rewrite delete_insert_id; [done|].
  apply not_elem_of_list_to_map. apply blocks_NoDup in Hnd. rewrite map_app, fmap_app in Hnd |- *.
  simpl in Hnd. rewrite <- Permutation_middle in Hnd. by apply NoDup_cons in Hnd as [? _].
Qed.

(** The bytes of the heap are the users' bytes. *)
Lemma in_heap_user L x : NoDup (L.*1) -> in_heap (heap_of L) x <-> user_byte L x.
Proof.
  intros Hnd. unfold in_heap, user_byte. split.
  - intros (h & n & Hl & Hx). apply heap_of_lookup in Hl; [|done]. exists (h - 8), (n + 4). split; [done|lia].
  - intros (p & s & Hin & Hx). exists (p + 8), (s - 4). rewrite heap_of_lookup by done.
    replace (p + 8 - 8, s - 4 + 4) with (p, s) by (f_equal; lia). split; [done|lia].
Qed.

(** ** Accounting and statistics do not touch the segment *)

Create HintDb quiet.

Record quiet (st st' : PtMalloc) : Prop := {
  q_bottom : bottom st' = bottom st;
  q_size : m_tSize (m_pstHead st') = m_tSize (m_pstHead st);
  q_top : top st' = top st;
  q_rd : forall x, rd st' x = rd st x;
  q_bin : forall i, get_bin st' (Bin i) = get_bin st (Bin i);
  q_bit : forall i, bit st' i = bit st i;
  q_min : minChunkSize st' = minChunkSize st
}.

Lemma quiet_wf st st' A M B bl : quiet st st' -> wf st A M B bl -> wf st' A M B bl.
Proof. intros [] W. eapply wf_ext; try done. congruence. Qed.

#[export] Instance quiet_trans : Transitive quiet.
Proof. intros s1 s2 s3 [] []. split; congruence. Qed.

Lemma quiet_user a b st : quiet st (set_pstHead (set_user a b) st).
Proof. by destruct st as [[]]. Qed.
Lemma quiet_last v st : quiet st (set_pstHead (set_tLastFreeChunkSize v) st).
Proof. by destruct st as [[]]. Qed.
Lemma quiet_stats f st : quiet st (set_stats f st).
Proof. destruct st. unfold set_stats. by destruct (f _). Qed.
Lemma quiet_add n st : quiet st (add_alloc_size_to_stat n st).
Proof. destruct st. unfold add_alloc_size_to_stat. by destruct (_ <? _). Qed.

#[export] Hint Resolve quiet_user quiet_last quiet_stats quiet_add : quiet.

(** The update [Malloc], [Free] and [ReAlloc] make after the fact. *)
Lemma user_after_stats f st : m_pstHead (set_stats f st) = m_pstHead st.
Proof. destruct st. unfold set_stats. by destruct (f _). Qed.
Lemma user_after_add n st : m_pstHead (add_alloc_size_to_stat n st) = m_pstHead st.
Proof. destruct st. unfold add_alloc_size_to_stat. by destruct (_ <? _). Qed.
Lemma user_set a b hd : m_tUserAllocSize (set_user a b hd) = a /\ m_tUserAllocChunkCnt (set_user a b hd) = b.
Proof. by destruct hd. Qed.

Lemma sizes_bound st cs bl : wf st cs [] [] bl ->
  0 <= sizes (allocs (bottom st) cs) /\ bottom st + sizes (allocs (bottom st) cs) <= top st
  /\ Z.of_nat (length (allocs (bottom st) cs)) * 24 <= sizes (allocs (bottom st) cs).
Proof.
  intros W. pose proof (wf_end _ _ _ _ _ W) as <-. rewrite !app_nil_r.
  pose proof (wf_cs_sized _ _ _ W) as Hs. revert Hs. generalize (bottom st) as a.
  clear W bl. induction cs as [|c cs IH]; intros a; simpl; [lia|].
  intros [[_ Hc] Hs]%Forall_cons. unfold MINSIZE in Hc. rewrite allocs_cons, sizes_app, length_app.
  specialize (IH (a + ts c) Hs). destruct (tb c); simpl; lia.
Qed.

Lemma min_of_rep st : MINSIZE <= minChunkSize st -> get_min_chunk_size st = minChunkSize st.
Proof. intros H. unfold get_min_chunk_size, MINSIZE in *. destruct (Z.eqb_spec (minChunkSize st) 1); [lia|done]. Qed.

(** A chunk of the heap is an allocated chunk of the tiling. *)
Lemma allocs_split st cs p s : (p, s) ∈ allocs (bottom st) cs ->
  exists A c B, cs = A ++ c :: B /\ p = bottom st + total A /\ tb c = false /\ ts c = s.
Proof.
  intros (c & Hin & Hc & Hs)%allocs_elem. apply addrs_elem in Hin as (A & B & -> & ->).
  by exists A, c, B.
Qed.

(** ** Malloc and Free *)

(** The head's counters, updated to the new chunks, make a new heap. *)
Lemma account st st1 st2 cs1 bl1 u n H :
  rep st H -> wf st1 cs1 [] [] bl1 -> env st1 = env st -> quiet st1 st2 ->
  m_pstHead st2 = set_user (wrap 64 u) (wrap 64 n) (m_pstHead st1) ->
  u = bottom st + sizes (allocs (bottom st) cs1) ->
  n = Z.of_nat (length (allocs (bottom st) cs1)) ->
  rep st2 (heap_of (allocs (bottom st) cs1)).
Proof.
  intros [_ Rmin Rsize] W1 E1 Q Hhd -> ->. pose proof Q as [F1 F2 F3 F4 F5 F6 F7].
  pose proof (env_bottom _ _ E1) as Eb. pose proof (env_size _ _ E1) as Es.
  pose proof (sizes_bound _ _ _ W1) as Hb. pose proof (wf_room _ _ _ _ _ W1) as Hroom.
  destruct (wf_bottom _ _ _ _ _ W1) as [Hbot _]. unfold MINSIZE in Hroom. rewrite Eb in Hb.
  assert (minChunkSize st1 = minChunkSize st) as U3 by (by injection E1).
  split; [|by rewrite F7, U3|by rewrite F2, Es].
  exists cs1, bl1. rewrite F1, Eb, Hhd.
  destruct (user_set (wrap 64 (bottom st + sizes (allocs (bottom st) cs1)))
    (wrap 64 (Z.of_nat (length (allocs (bottom st) cs1)))) (m_pstHead st1)) as [-> ->].
  rewrite !wrap_small by (unfold in_width; lia). split_and!; try done. by eapply quiet_wf.
Qed.

(** The first thing [Malloc] and [ReAlloc] do. *)
Lemma rep_reset_last st H v : rep st H -> rep (set_pstHead (set_tLastFreeChunkSize v) st) H.
Proof.
  intros [(cs & bl & W & E & U & N) Rm Rs]. pose proof (quiet_last v st) as Q. pose proof Q as [F1 F2 _ _ _ _ F7].
  split; [|by rewrite F7|by rewrite F2]. exists cs, bl. rewrite F1.
  split_and!; [by eapply quiet_wf|done|by destruct st as [[]]..].
Qed.

Lemma env_fields st st' : env st' = env st ->
  m_tUserAllocSize (m_pstHead st') = m_tUserAllocSize (m_pstHead st)
  /\ m_tUserAllocChunkCnt (m_pstHead st') = m_tUserAllocChunkCnt (m_pstHead st)
  /\ minChunkSize st' = minChunkSize st.
Proof. by injection 1. Qed.

(** The same chunks in a state with the same counters. *)
Lemma rep_same st st1 cs bl1 :
  MINSIZE <= minChunkSize st <= 2 ^ 30 -> m_tSize (m_pstHead st) < 2 ^ 64 ->
  m_tUserAllocSize (m_pstHead st) = bottom st + sizes (allocs (bottom st) cs) ->
  m_tUserAllocChunkCnt (m_pstHead st) = Z.of_nat (length (allocs (bottom st) cs)) ->
  wf st1 cs [] [] bl1 -> env st1 = env st -> rep st1 (heap_of (allocs (bottom st) cs)).
Proof.
  intros Rm Rs U N W1 E1. destruct (env_fields _ _ E1) as (E2 & E3 & E4).
  split; [|by rewrite E4|by rewrite (env_size _ _ E1)].
  exists cs, bl1. rewrite (env_bottom _ _ E1), E2, E3. by split_and!.
Qed.

Lemma chunk_of_alloc st cs bl p s : wf st cs [] [] bl -> (p, s) ∈ allocs (bottom st) cs ->
  CHUNK_SIZE st p = s.
Proof.
  intros W (A & c & B & -> & -> & _ & <-)%allocs_split.
  apply (chunk_at _ _ _ _ _ W A c B). by rewrite !app_nil_r.
Qed.

Lemma rep_allocs st cs bl : wf st cs [] [] bl -> NoDup ((allocs (bottom st) cs).*1).
Proof. intros W. apply allocs_NoDup. by eapply wf_cs_sized. Qed.

Lemma fresh_block L1 L2 p s : NoDup ((L1 ++ (p, s) :: L2).*1) -> heap_of (L1 ++ L2) !! (p + 8) = None.
Proof.
  intros Hnd%blocks_NoDup. apply not_elem_of_list_to_map. rewrite map_app, fmap_app in Hnd |- *. simpl in Hnd.
  rewrite <- Permutation_middle in Hnd. by apply NoDup_cons in Hnd as [? _].
Qed.

Lemma mem2chunk_chunk2mem p : mem2chunk (handle_to_ptr (chunk2mem p)) = p /\ chunk2mem p = p + 8.
Proof. unfold mem2chunk, handle_to_ptr, chunk2mem, SIZE_SZ. lia. Qed.

(** A new chunk, counted, is a new block. *)
Lemma malloc_success st cs bl st1 st2 cs1 bl1 p s L1 L2 :
  rep st (heap_of (allocs (bottom st) cs)) -> wf st cs [] [] bl ->
  m_tUserAllocSize (m_pstHead st) = bottom st + sizes (allocs (bottom st) cs) ->
  m_tUserAllocChunkCnt (m_pstHead st) = Z.of_nat (length (allocs (bottom st) cs)) ->
  wf st1 cs1 [] [] bl1 -> env st1 = env st ->
  allocs (bottom st) cs = L1 ++ L2 -> allocs (bottom st) cs1 = L1 ++ (p, s) :: L2 ->
  quiet st1 st2 ->
  m_pstHead st2 = set_user (wrap 64 (m_tUserAllocSize (m_pstHead st1) + s))
                           (wrap 64 (m_tUserAllocChunkCnt (m_pstHead st1) + 1)) (m_pstHead st1) ->
  heap_of (allocs (bottom st) cs) !! (p + 8) = None
  /\ rep st2 (<[p + 8 := s - 4]> (heap_of (allocs (bottom st) cs))).
Proof.
  intros R W U N W1 E1 EL EL1 Q Hhd. pose proof (rep_allocs _ _ _ W1) as Hnd.
  rewrite (env_bottom _ _ E1), EL1 in Hnd. rewrite EL. split; [by eapply fresh_block|].
  rewrite <- heap_of_insert, <- EL1 by done. destruct (env_fields _ _ E1) as (U1 & N1 & _).
  eapply account; [exact R|exact W1|done|exact Q|exact Hhd| |].
  - rewrite U1, U, EL, EL1, !sizes_app. simpl. lia.
  - rewrite N1, N, EL, EL1, !length_app. simpl. lia.
Qed.

(** Room for a request of [req] bytes above the top. *)
Definition top_has_room (st : PtMalloc) (req : Z) : Prop :=
  REQUEST_OUT_OF_RANGE req = false /\ top st + request2size req + MINSIZE < m_tSize (m_pstHead st).

Lemma Malloc_spec st H req : rep st H -> 0 <= req < 2 ^ 32 ->
  exists h st', Malloc req st = Some (h, st')
  /\ (forall x, in_heap H x -> rd st' x = rd st x)
  /\ (h = INVALID_HANDLE /\ rep st' H /\ ~ top_has_room st req
      \/ exists n, req <= n /\ h ≠ INVALID_HANDLE /\ H !! h = None /\ rep st' (<[h := n]> H)).
Proof.
  intros R0 Hreq. pose proof (rep_reset_last st H 0 R0) as R. pose proof (quiet_last 0 st) as Q0.
  unfold Malloc. set (st0 := set_pstHead _ st) in *.
  pose proof R as [(cs & bl & W & -> & U & N) Rm Rs].
  pose proof (inter_malloc_spec st0 cs bl req W) as Hm. rewrite min_of_rep in Hm by apply Rm.
  specialize (Hm (proj1 Rm) ltac:(lia)). destruct (REQUEST_OUT_OF_RANGE req) eqn:Hrange.
  { rewrite Hm. exists INVALID_HANDLE, st0. split_and!; [done|intros; apply Q0|left].
    split_and!; [done|done|]. unfold top_has_room. by intros [? _]; congruence. }
  destruct (request_size req ltac:(lia) Hrange) as (Hs & Hle & _).
  destruct Hm as ([h st1] & -> & S1 & Ho). simpl in *. pose proof (bottom_step _ _ _ S1) as Eb.
  assert (forall x, in_heap (heap_of (allocs (bottom st0) cs)) x -> rd st1 x = rd st x) as Hk.
  { intros x Hx. rewrite <- (q_rd _ _ Q0). apply S1. by apply in_heap_user; [eapply rep_allocs|]. }
  destruct Ho as [(-> & (bl' & W1) & _ & Hroom)|(p & s & cs1 & bl1 & L1 & L2 & -> & W1 & Hss & EL & EL1)].
  { exists 0, st1. split_and!; [done|done|left]. split_and!; [done|by eapply (rep_same st0); [..|apply S1]|].
    rewrite (q_top _ _ Q0), (q_size _ _ Q0) in Hroom. unfold top_has_room. lia. }
  destruct (mem2chunk_chunk2mem p) as [Emem Ecm].
  assert ((p, s) ∈ allocs (bottom st1) cs1) as Hin by (rewrite Eb, EL1; set_solver).
  destruct (allocs_bounds _ _ _ _ _ W1 Hin) as (_ & Hp & _). destruct (wf_bottom _ _ _ _ _ W1) as [Hb24 _].
  destruct (Z.eqb_spec (chunk2mem p) INVALID_HANDLE); [unfold INVALID_HANDLE in *; lia|]. simpl.
  rewrite Emem, (chunk_of_alloc _ _ _ _ _ W1 Hin). set (st2 := set_pstHead _ st1). set (st3 := set_stats _ st2).
  assert (quiet st1 (add_alloc_size_to_stat req st3)) as Q.
  { etrans; [|apply quiet_add]. etrans; [apply quiet_user|apply quiet_stats]. }
  destruct (malloc_success st0 cs bl st1 (add_alloc_size_to_stat req st3) cs1 bl1 p s L1 L2) as [Hfresh R2];
    try done; [apply S1|rewrite user_after_add; unfold st3; rewrite user_after_stats; apply head_head|].
  rewrite Ecm in *. eexists _, _. split_and!; [reflexivity| |right; exists (s - 4); split_and!; (done || lia)].
  intros x Hx. rewrite (q_rd _ _ Q). by apply Hk.
Qed.

Lemma Free_spec st H h n : rep st H -> H !! h = Some n ->
  exists st', Free h st = (0, st') /\ rep st' (delete h H)
  /\ (forall x, in_heap (delete h H) x -> rd st' x = rd st x).
Proof.
  intros R Hh. pose proof R as [(cs & bl & W & -> & U & N) Rm Rs].
  pose proof (rep_allocs _ _ _ W) as Hnd. apply heap_of_lookup in Hh as Hin; [|done].
  destruct (allocs_split _ _ _ _ Hin) as (A & c & B & -> & Hp & Hc & Hs).
  destruct (inter_free_spec _ _ _ _ _ W Hc) as (st1 & cs1 & bl1 & Hf & W1 & S1 & EL1).
  set (L1 := allocs (bottom st) A). set (L2 := allocs (bottom st + total A + ts c) B).
  assert (allocs (bottom st) (A ++ c :: B) = L1 ++ (h - 8, n + 4) :: L2) as EL.
  { rewrite allocs_app, allocs_cons, Hc, Hp, Hs. unfold L2. by rewrite Hs. }
  assert (others st A [c] B = L1 ++ L2) as EO.
  { unfold others. simpl. by rewrite Z.add_0_r. }
  rewrite EO in EL1, S1. rewrite EL in *. rewrite <- Hp in Hf.
  replace (chunk2mem (h - 8)) with h in Hf by (unfold chunk2mem, SIZE_SZ; lia).
  unfold Free. rewrite Hf, Hs. simpl. set (st2 := set_pstHead _ st1). set (st3 := set_stats _ st2).
  assert (quiet st1 st3) as Q by (etrans; [apply quiet_user|apply quiet_stats]).
  assert (heap_of (L1 ++ L2) = delete h (heap_of (L1 ++ (h - 8, n + 4) :: L2))) as EH.
  { rewrite (heap_of_delete L1 L2 _ _ Hnd). f_equal. lia. }
  exists st3. split_and!; [done| |]; rewrite <- EH.
  - rewrite <- EL1. destruct (env_fields _ _ (step_env _ _ _ S1)) as (U1 & N1 & _).
    eapply account; [exact R|exact W1|apply S1|exact Q| | |].
    + unfold st3. rewrite user_after_stats. apply head_head.
    + rewrite U1, U, EL1, !sizes_app. simpl. lia.
    + rewrite N1, N, EL1, !length_app. simpl. lia.
  - intros x Hx. rewrite (q_rd _ _ Q). apply S1. apply in_heap_user; [|done].
    rewrite fmap_app in Hnd |- *. simpl in Hnd. rewrite <- Permutation_middle in Hnd. apply NoDup_cons in Hnd as [_ Hnd]. exact Hnd.
Qed.

(** ** Formatting *)

Lemma do_init_spec st tSz :
  let '(r, st') := do_init tSz st in
  if tSz <? segment_head_size + DTC_RESERVE_SIZE + MINSIZE then r = -1 /\ st' = st
  else r = 0 /\ wf st' [] [] [] (fun _ => []) /\ bottom st' = 8208 /\ top st' = 8208
    /\ m_tSize (m_pstHead st') = tSz /\ m_tUserAllocSize (m_pstHead st') = 8208
    /\ m_tUserAllocChunkCnt (m_pstHead st') = 0 /\ minChunkSize st' = minChunkSize st.
Proof.
  unfold do_init. change (segment_head_size + DTC_RESERVE_SIZE + MINSIZE) with 8232.
  destruct (Z.ltb_spec tSz 8232); [done|].
  change (align_up (align_up segment_head_size + DTC_RESERVE_SIZE)) with 8208.
  set (lf := if _ <? tSz then _ else _). split; [done|]. split_and!; [|done..].
  split.
  - done.
  - done.
  - change (top _) with 8208. by pt_simpl.
  - change (bottom _) with 8208. split; [lia|done].
  - change (top _) with 8208. simpl. unfold MINSIZE. lia.
  - intros h i. rewrite !free_at_nil. set_solver.
  - split; try done. intros. constructor.
Qed.

Lemma do_init_rep st tSz st' :
  MINSIZE <= minChunkSize st <= 2 ^ 30 -> tSz < 2 ^ 64 -> do_init tSz st = (0, st') -> rep st' ∅.
Proof.
  intros Hm Ht E. pose proof (do_init_spec st tSz) as H. rewrite E in H.
  destruct (_ <? _); [by destruct H|]. destruct H as (_ & W & Eb & _ & Es & U & N & Em).
  split; [|by rewrite Em|by rewrite Es]. exists [], (fun _ => []). rewrite Eb, U, N. by split_and!.
Qed.

(** ** Blocks *)

Lemma rep_block st H h n : rep st H -> H !! h = Some n ->
  h mod 8 = 0 /\ 20 <= n < 2 ^ 32 /\ bottom st + 8 <= h /\ h + n + 4 <= top st + 8
  /\ top st + 24 <= m_tSize (m_pstHead st).
Proof.
  intros [(cs & bl & W & -> & _) _ _] Hin. apply heap_of_lookup in Hin; [|by eapply rep_allocs].
  destruct (allocs_bounds _ _ _ _ _ W Hin) as ([_ Hs] & Hb & Ht & Hm).
  pose proof (wf_room _ _ _ _ _ W). unfold mult8, MINSIZE, MAX_ALLOC_SIZE in *.
  split_and!; try lia. zdm.
Qed.

Lemma rep_disjoint st H h1 n1 h2 n2 : rep st H -> H !! h1 = Some n1 -> H !! h2 = Some n2 -> h1 ≠ h2 ->
  h1 + n1 + 4 <= h2 \/ h2 + n2 + 4 <= h1.
Proof.
  intros [(cs & bl & W & -> & _) _ _] H1 H2 Hne.
  apply heap_of_lookup in H1; [|by eapply rep_allocs]. apply heap_of_lookup in H2; [|by eapply rep_allocs].
  destruct (allocs_disjoint _ _ _ _ _ _ _ W H1 H2); lia.
Qed.

Lemma chunk_size_spec st H h n : rep st H -> H !! h = Some n -> chunk_size h st = n.
Proof.
  intros R Hh. destruct (rep_block _ _ _ _ R Hh) as (_ & Hn & Hlo & Hhi & _).
  destruct R as [(cs & bl & W & -> & _) _ _]. apply heap_of_lookup in Hh; [|by eapply rep_allocs].
  destruct (allocs_split _ _ _ _ Hh) as (A & c & B & -> & Hp & Hc & Hs).
  apply wf_open in W as W'; [|done]. pose proof (check_inuse_ok _ _ _ _ _ W' Hc) as Hchk. rewrite <- Hp in Hchk.
  pose proof (chunk_of_alloc _ _ _ _ _ W Hh) as HC.
  unfold chunk_size, mem2chunk, handle_to_ptr, SIZE_SZ. replace (h - 2 * 4) with (h - 8) by lia.
  fold (top st) (bottom st). rewrite Hchk, HC.
  destruct (Z.leb_spec (top st) h); [lia|]. destruct (Z.leb_spec h (bottom st)); [lia|]. simpl.
  unfold chunksize2memsize, SIZE_SZ. rewrite wrap_small; [lia|unfold in_width; lia].
Qed.

(** ** Users write their blocks *)

(** Flags matter to [m_tPreSize]: it is only read after a free chunk. *)
Lemma seg_frame_flags f g a pb ps cs :
  (forall X c Y, cs = X ++ c :: Y ->
     (tp c = false -> g (a + total X) = f (a + total X)) /\ g (a + total X + 4) = f (a + total X + 4)) ->
  seg f a pb ps cs -> seg g a pb ps cs.
Proof.
  revert a pb ps. induction cs as [|c cs IH]; intros a pb ps Hag; simpl; [done|].
  intros (H1 & H2 & H3 & H4). destruct (Hag [] c cs eq_refl) as [E1 E2]. simpl in E1, E2.
  rewrite Z.add_0_r in E1, E2. split_and!; [done|by rewrite E2| |].
  - intros Hf. rewrite E1 by done. by apply H3.
  - apply IH; [|done]. intros X d Y ->. destruct (Hag (c :: X) d Y eq_refl) as [E3 E4]. simpl in E3, E4.
    by replace (a + ts c + total X) with (a + (ts c + total X)) by lia.
Qed.

(** A user's byte is no tag. *)
Lemma user_not_tag st cs bl X d Y x :
  wf st cs [] [] bl -> cs = X ++ d :: Y -> user_byte (allocs (bottom st) cs) x ->
  x ≠ bottom st + total X + 4 /\ (tp d = false -> x ≠ bottom st + total X).
Proof.
  intros W E (z & s & (c & Hc & Htc & <-)%allocs_elem & Hx). set (y := bottom st + total X).
  pose proof (wf_cs_sized _ _ _ W) as Hs.
  assert ((y, d) ∈ addrs (bottom st) cs) as Hd by (apply addrs_elem; by exists X, Y).
  destruct (addrs_bounds _ _ _ _ Hs Hc) as (_ & _ & [Hc8 [Hclo _]] & Hz8).
  destruct (addrs_bounds _ _ _ _ Hs Hd) as (_ & _ & [_ [Hdlo _]] & Hy8). unfold MINSIZE, mult8 in *.
  destruct (addrs_gap _ _ _ _ _ _ Hs Hc Hd) as [[-> ->]|[Hle|Hle]]; [lia| |lia].
  split; [lia|]. intros Htp ->. assert (y = z + ts c) as Ey by zdm.
  destruct (prev_at _ _ _ _ _ W X d Y) as (X' & cp & -> & Hcp & _). { by rewrite !app_nil_r. } { done. }
  assert ((bottom st + total X', cp) ∈ addrs (bottom st) cs) as Hp.
  { apply addrs_elem. exists X', (d :: Y). by rewrite E, <- app_assoc. }
  destruct (addrs_bounds _ _ _ _ Hs Hp) as (_ & _ & [_ [Hplo _]] & _). unfold MINSIZE in Hplo.
  assert (y = bottom st + total X' + ts cp) by (unfold y; rewrite total_app; simpl; lia).
  destruct (addrs_gap _ _ _ _ _ _ Hs Hc Hp) as [[_ ->]|[?|?]]; [congruence|lia..].
Qed.

(** Writing users' bytes keeps the invariant. *)
Lemma wf_user_write st st' cs bl :
  wf st cs [] [] bl ->
  bottom st' = bottom st -> m_tSize (m_pstHead st') = m_tSize (m_pstHead st) -> top st' = top st ->
  (forall i, get_bin st' (Bin i) = get_bin st (Bin i)) -> (forall i, bit st' i = bit st i) ->
  (forall x, ~ user_byte (allocs (bottom st) cs) x -> rd st' x = rd st x) ->
  wf st' cs [] [] bl.
Proof.
  intros W Eb Es Et Ebin Ebit Hr. pose proof W as [W1 W2 W3 W4 W5 W6 W7]. rewrite !app_nil_r in W1, W2.
  split; rewrite ?app_nil_r, ?Eb, ?Es, ?Et; try done.
  - apply (seg_frame_flags (rd st)); [|done]. intros X c Y E. split.
    + intros Htp. apply Hr. intros Hu. destruct (user_not_tag _ _ _ _ _ _ _ W E Hu) as [_ H]. by apply H.
    + apply Hr. intros Hu. by destruct (user_not_tag _ _ _ _ _ _ _ W E Hu).
  - rewrite Hr; [done|]. intros (z & s & (c & Hc & _ & <-)%allocs_elem & Hx).
    apply addrs_bounds in Hc as (_ & ? & _); [|by eapply wf_cs_sized]. lia.
  - apply (bins_ok_ext st); [done| |done|intros; by rewrite Ebit].
    intros i h Hh. split; apply Hr; intros Hu.
    + apply (links_not_user _ _ _ _ _ W h i (h + 8) Hh ltac:(lia)). left. by apply in_user_allocs.
    + apply (links_not_user _ _ _ _ _ W h i (h + 16) Hh ltac:(lia)). left. by apply in_user_allocs.
Qed.

(** A state whose cells alone changed. *)
Definition cells_only (st st' : PtMalloc) : Prop := exists c, st' = set_cells (fun _ => c) st.

Lemma rep_user_write st st' H : rep st H -> cells_only st st' ->
  (forall x, ~ in_heap H x -> rd st' x = rd st x) -> rep st' H.
Proof.
  intros [(cs & bl & W & -> & U & N) Rm Rs] [c ->] Hr.
  assert (wf (set_cells (fun _ => c) st) cs [] [] bl) as W'.
  { apply (wf_user_write st); try done; try (by destruct st as [[]]).
    intros x Hx. apply Hr. intros Hh. apply Hx. apply in_heap_user; [by eapply rep_allocs|done]. }
  destruct st as [[]]. split; [|done..]. by exists cs, bl.
Qed.

(** One word written in a block. *)
Lemma rep_wr st H x v : rep st H -> in_heap H x -> rep (wr x v st) H.
Proof.
  intros R Hx. apply (rep_user_write st); [done|exists (<[x := v]> (cells st)); by destruct st|].
  intros y Hy. rewrite rd_wr. destruct (Z.eqb_spec y x) as [->|]; done.
Qed.

(** ** Calloc *)

Lemma cell_delete (c : gmap Z Z) a x : cell (delete a c) x = if x =? a then 0 else cell c x.
Proof. unfold cell. destruct (Z.eqb_spec x a) as [->|]; by simplify_map_eq. Qed.

Lemma cell_zero_range n a c x :
  cell (zero_range n a c) x = if (a <=? x) && (x <? a + Z.of_nat n) then 0 else cell c x.
Proof.
  revert a c. induction n as [|n IH]; intros a c; cbn [zero_range].
  - zcase; simpl; (done || lia).
  - rewrite IH, cell_delete. zcase; simpl; (done || lia).
Qed.

Lemma rd_set_cells f st x : rd (set_cells f st) x = cell (f (cells st)) x.
Proof. by destruct st. Qed.

Lemma Calloc_spec st H req : rep st H -> 0 <= req < 2 ^ 32 ->
  exists h st', Calloc req st = Some (h, st')
  /\ (forall x, in_heap H x -> rd st' x = rd st x)
  /\ (h = INVALID_HANDLE /\ rep st' H
      \/ exists n, req <= n /\ h ≠ INVALID_HANDLE /\ H !! h = None /\ rep st' (<[h := n]> H)
         /\ forall x, h <= x < h + req -> rd st' x = 0).
Proof.
  intros R Hreq. destruct (Malloc_spec st H req R Hreq) as (h & st1 & E & Hk & Ho).
  unfold Calloc. rewrite E. simpl. destruct Ho as [(-> & R1 & _)|(n & Hn & Hh & Hf & R1)].
  { exists 0, st1. split_and!; [done|done|by left]. }
  destruct (Z.eqb_spec h INVALID_HANDLE); [done|]. simpl. eexists _, _. split_and!; [done| |right].
  - intros x (h' & n' & Hl & Hx). rewrite rd_set_cells, cell_zero_range, Z2Nat.id by lia.
    rewrite <- Hk by (by exists h', n'). fold (rd st1 x).
    assert (h' ≠ h) by congruence.
    destruct (rep_disjoint _ _ h n h' n' R1) as [?|?];
      [by simplify_map_eq|by simplify_map_eq|done|..]; zcase; simpl; (done || lia).
  - exists n. split_and!; [done|done|done| |].
    + apply (rep_user_write st1); [done|by exists (zero_range (Z.to_nat req) h (cells st1)); destruct st1|].
      intros x Hx. rewrite rd_set_cells, cell_zero_range, Z2Nat.id by lia. fold (rd st1 x).
      zcase; simpl; try done. destruct Hx. exists h, n. simplify_map_eq. split; [done|lia].
    + intros x Hx. rewrite rd_set_cells, cell_zero_range, Z2Nat.id by lia. zcase; simpl; (done || lia).
Qed.
