(* ===== verification/PtMallocRealloc.v ===== *)
(** * Reallocation

    [inter_re_alloc] frees the part of a chunk it no longer needs before it
    writes the chunk's own header.  The first half of this file shows that
    freeing a chunk commutes with the write of a header it does not look at;
    the second half shows that [ReAlloc] keeps the invariant, the contents of
    the block and every other block. *)

From S2P Require Import Prelude DList PtMalloc PtMallocInv PtMallocFree PtMallocAlloc PtMallocSpec.

(** ** Writes that commute with freeing *)

Lemma wr_wr_ne a b v w st : a ≠ b -> wr a v (wr b w st) = wr b w (wr a v st).
Proof. intros H. destruct st. unfold wr, set_cells. f_equal. by apply insert_insert_ne. Qed.

Lemma wr_wr a v w st : wr a v (wr a w st) = wr a v st.
Proof. destruct st. unfold wr, set_cells. f_equal. apply insert_insert_eq. Qed.

Lemma wr_bin a v b x st : wr a v (set_bin b x st) = set_bin b x (wr a v st).
Proof. by destruct st, b. Qed.

Lemma wr_head a v f st : wr a v (set_pstHead f st) = set_pstHead f (wr a v st).
Proof. by destruct st. Qed.

Lemma mult8_link a h k : a mod 8 = 4 -> mult8 h -> mult8 k -> a ≠ h + k.
Proof. unfold mult8. intros ? ? ? ->. zdm. Qed.

Section Patch.

Context (a v : Z).
Hypothesis Ha : a mod 8 = 4.

Lemma rd_patch st x : x ≠ a -> rd (wr a v st) x = rd st x.
Proof. intros H. rewrite rd_wr. by destruct (Z.eqb_spec x a). Qed.

Lemma rd_patch8 st h k : mult8 h -> mult8 k -> rd (wr a v st) (h + k) = rd st (h + k).
Proof. intros. apply rd_patch. apply not_eq_sym. by apply mult8_link. Qed.

Lemma wr_patch8 st h k w : mult8 h -> mult8 k -> wr a v (wr (h + k) w st) = wr (h + k) w (wr a v st).
Proof. intros. apply wr_wr_ne. by apply mult8_link. Qed.

Lemma unlink_patch i h st :
  mult8 h -> mult8 (hPreChunk st h) -> mult8 (hNextChunk st h) ->
  (unlink_bin (Bin i) h (wr a v st)).2 = wr a v (unlink_bin (Bin i) h st).2.
Proof.
  intros Hh Hp Hn. unfold unlink_bin. rewrite bin_wr.
  destruct (h =? INVALID_HANDLE); [done|]. destruct (_ || _); [done|]. simpl.
  unfold hPreChunk, hNextChunk, set_hPreChunk, set_hNextChunk in *.
  rewrite !(rd_patch8 st h) by done.
  destruct (rd st (h + 8) =? INVALID_HANDLE).
  - rewrite <- wr_bin, !(rd_patch8 _ h), !rd_bin by done.
    destruct (rd st (h + 16) =? INVALID_HANDLE); [by rewrite !wr_bin, !bin_bin, !Z.eqb_refl|].
    by rewrite (wr_patch8 _ (rd st (h + 16)) 8) by done.
  - rewrite <- (wr_patch8 _ (rd st (h + 8)) 16), !(rd_patch8 _ h) by done.
    set (st1 := wr (rd st (h + 8) + 16) _ st).
    assert (rd st1 (h + 16) = rd st (h + 16)) as E.
    { unfold st1. rewrite rd_wr. by destruct (_ =? _). }
    rewrite E. destruct (rd st (h + 16) =? INVALID_HANDLE); [by rewrite bin_wr, wr_bin|].
    by rewrite (wr_patch8 _ (rd st (h + 16)) 8) by done.
Qed.

Lemma link_patch i h st :
  mult8 h -> mult8 (bin_hNextChunk (get_bin st (Bin i))) ->
  (link_bin (Bin i) h (wr a v st)).2 = wr a v (link_bin (Bin i) h st).2.
Proof.
  intros Hh Hf. unfold link_bin. destruct (h =? INVALID_HANDLE); [done|].
  unfold set_hPreChunk, set_hNextChunk. rewrite !bin_wr.
  rewrite <- !wr_patch8 by done. rewrite ?bin_wr.
  destruct (bin_hNextChunk (get_bin st (Bin i)) =? INVALID_HANDLE); simpl.
  - destruct (bin_hPreChunk (get_bin st (Bin i)) =? INVALID_HANDLE); simpl; [by rewrite wr_bin|done].
  - destruct (bin_hPreChunk (get_bin st (Bin i)) =? INVALID_HANDLE); simpl.
    + by rewrite (wr_patch8 _ (bin_hNextChunk (get_bin st (Bin i))) 8) by done.
    + by rewrite wr_bin, (wr_patch8 _ (bin_hNextChunk (get_bin st (Bin i))) 8) by done.
Qed.

Lemma bits_patch i st :
  clear_if_empty i (wr a v st) = wr a v (clear_if_empty i st)
  /\ set_bin_bit_map i (wr a v st) = wr a v (set_bin_bit_map i st).
Proof.
  unfold clear_if_empty, empty_bin. rewrite bin_wr. destruct st. split; [by destruct (_ =? _)|done].
Qed.

Lemma size_patch p k s st : mult8 (p + k) -> p + k + 4 ≠ a ->
  set_size_at_offset p k s (wr a v st) = wr a v (set_size_at_offset p k s st).
Proof.
  intros Hm Hne. unfold set_size_at_offset, set_tSize, tSize. rewrite rd_patch by done.
  by rewrite wr_wr_ne by congruence.
Qed.

Lemma presize_patch p k s st : mult8 (p + k) ->
  set_presize_at_offset p k s (wr a v st) = wr a v (set_presize_at_offset p k s st).
Proof.
  intros Hm. unfold set_presize_at_offset, set_tPreSize. rewrite wr_wr_ne; [done|].
  unfold mult8 in Hm. intros E. zdm.
Qed.

Lemma handle_patch st x : ptr_to_handle (wr a v st) x = ptr_to_handle st x.
Proof. unfold ptr_to_handle. by rewrite head_wr. Qed.

(** Giving back a chunk above the patched word. *)
Lemma place_free_patch p sz st :
  a < p + 4 -> mult8 p -> valid_size sz ->
  (forall i, 0 <= i < NBINS -> mult8 (bin_hNextChunk (get_bin st (Bin i)))) -> mult8 (ptr_to_handle st p) ->
  place_free p sz (wr a v st) = wr a v (place_free p sz st).
Proof.
  intros Hap Hp Hv Hbins Hh. pose proof (valid_bin _ Hv) as Hi. destruct Hv as [Hs8 [Hlo _]].
  unfold MINSIZE in Hlo. unfold place_free, set_inuse_bit_at_offset.
  assert (mult8 (p + sz)) by (by apply mult8_add).
  rewrite size_patch, presize_patch by (rewrite ?Z.add_0_r; done || lia).
  unfold set_tSize, tSize. rewrite rd_patch by lia. rewrite <- wr_wr_ne by lia.
  set (st1 := wr (p + sz + 4) _ _). rewrite head_wr.
  set (st2 := if m_tLastFreeChunkSize (m_pstHead st1) <? sz then set_pstHead _ st1 else st1).
  assert ((if m_tLastFreeChunkSize (m_pstHead st1) <? sz
    then set_pstHead (set_tLastFreeChunkSize sz) (wr a v st1) else wr a v st1) = wr a v st2) as ->.
  { unfold st2. destruct (_ <? _); [by rewrite wr_head|done]. }
  rewrite head_wr. destruct (p + sz =? m_hTop (m_pstHead st2)).
  - rewrite <- wr_head, <- wr_wr_ne by lia. set (st3 := wr (p + 4) _ _). rewrite head_wr.
    destruct (_ && _); [by rewrite wr_head|done].
  - unfold clear_inuse_bit_at_offset, set_tSize, tSize. rewrite rd_patch, <- wr_wr_ne by lia.
    set (st3 := wr (p + sz + 4) _ st2). rewrite handle_patch.
    assert (mult8 (bin_hNextChunk (get_bin st3 (Bin (bin_index sz))))) as Hb3.
    { unfold st3, st2, st1, set_presize_at_offset, set_size_at_offset. rewrite bin_wr.
      destruct (_ <? _); pt_simpl; by apply Hbins. }
    assert (ptr_to_handle st3 p = ptr_to_handle st p) as ->.
    { unfold ptr_to_handle, st3, st2, st1, set_presize_at_offset, set_size_at_offset. rewrite head_wr.
      destruct (m_tLastFreeChunkSize _ <? _); by pt_simpl. }
    unfold bin_index in Hb3. destruct (in_smallbin_range sz); rewrite link_patch by done; apply bits_patch.
Qed.

Lemma chunk_patch st x : a < x + 4 -> CHUNK_SIZE (wr a v st) x = CHUNK_SIZE st x.
Proof. intros H. unfold CHUNK_SIZE, tSize. by rewrite rd_patch by lia. Qed.

Lemma inuse_patch st x : a < x + 4 -> prev_inuse (wr a v st) x = prev_inuse st x.
Proof. intros H. unfold prev_inuse, tSize. by rewrite rd_patch by lia. Qed.

Lemma combine_next_patch p z st :
  a < p + 4 -> mult8 p -> mult8 z -> 24 <= z -> 0 <= p + z < m_tSize (m_pstHead st) ->
  (prev_inuse st (p + z + CHUNK_SIZE st (p + z)) = false -> p + z ≠ m_hTop (m_pstHead st) ->
     mult8 (hPreChunk st (p + z)) /\ mult8 (hNextChunk st (p + z))) ->
  combine_next p z (wr a v st) =
  match combine_next p z st with inl e => inl e | inr (k, st') => inr (k, wr a v st') end.
Proof.
  intros Hap Hp Hz Hz24 Hin Hl. unfold combine_next, inuse_bit_at_offset, REAL_SIZE.
  fold (CHUNK_SIZE (wr a v st) (p + z)) (CHUNK_SIZE st (p + z)).
  rewrite head_wr, chunk_patch by lia. set (ns := CHUNK_SIZE st (p + z)) in *.
  destruct (Z.eqb_spec (p + z) (m_hTop (m_pstHead st))) as [|Hne]; simpl; [done|].
  destruct (Z.ltb_spec ns MINSIZE) as [|Hns]; [done|]. unfold MINSIZE in Hns.
  rewrite inuse_patch by lia. destruct (prev_inuse st (p + z + ns)); simpl; [done|].
  destruct (CAN_COMBILE z ns); [|done]. destruct (Hl eq_refl Hne) as [H1 H2].
  assert (mult8 ns) by apply ldiff7_mult8. rewrite handle_patch, handle_at by done.
  assert (mult8 (p + z)) by (by apply mult8_add). assert (mult8 (z + ns)) by (by apply mult8_add).
  rewrite unlink_patch by done. destruct (bits_patch (bin_index ns) (unlink_bin (Bin (bin_index ns)) (p + z) st).2) as [-> _].
  rewrite size_patch by (rewrite ?Z.add_0_r; done || lia).
  by rewrite presize_patch by (by apply mult8_add).
Qed.

End Patch.

(** Links and bin heads are chunk addresses. *)
Lemma bin_head_mult8 st A M B bl i : wf st A M B bl -> 0 <= i < NBINS ->
  mult8 (bin_hNextChunk (get_bin st (Bin i))).
Proof.
  intros W Hi. rewrite (bo_ends _ _ (wf_bins _ _ _ _ _ W) i Hi). simpl.
  destruct (bl i) as [|h l] eqn:E; [done|]. change (first_or 0 (h :: l)) with h.
  destruct (linked_chunk _ _ _ _ _ W h i) as (_ & _ & _ & _ & _ & _ & ? & _); [rewrite E; left|done].
Qed.

Lemma links_mult8 st A M B bl h i : wf st A M B bl -> h ∈ bl i ->
  mult8 (hPreChunk st h) /\ mult8 (hNextChunk st h).
Proof.
  intros W Hh. destruct (linked_range _ _ _ _ _ W h i Hh) as [Hi _].
  pose proof (bo_dseg _ _ (wf_bins _ _ _ _ _ W) i Hi) as Hd.
  destruct (list_elem_of_split _ _ Hh) as (l1 & l2 & El). rewrite El in Hd.
  assert (forall x, x ∈ l1 ++ l2 -> mult8 x) as Hm.
  { intros x Hx. destruct (linked_chunk _ _ _ _ _ W x i) as (_ & _ & _ & _ & _ & _ & ? & _); [|done].
    rewrite El. set_solver. }
  destruct (dseg_links _ _ _ _ _ Hd) as [-> ->]. split.
  - destruct (decide (l1 = [])) as [->|Hne]; [done|]. apply Hm, elem_of_app. left. by apply last_or_in.
  - destruct (decide (l2 = [])) as [->|Hne]; [done|]. apply Hm, elem_of_app. right. by apply first_or_in.
Qed.

Section FreePatch.

Context (a v : Z) (st : PtMalloc) (A : list tile) (c : tile) (B : list tile) (bl : Z -> list Z).
Hypothesis Ha : a mod 8 = 4.
Hypothesis W : wf (wr a v st) A [c] B bl.
Hypothesis Hc : tb c = false.
Hypothesis Htp : tp c = true.

Let p := bottom st + total A.

Hypothesis Hap : a < p + 4.

Lemma patch_bottom : bottom (wr a v st) = bottom st.
Proof. unfold bottom. by rewrite head_wr. Qed.

Lemma patch_chunk :
  CHUNK_SIZE st p = ts c /\ prev_inuse st p = true /\ CHUNK_SIZE st (p + ts c) = hd_size B
  /\ prev_inuse st (p + ts c) = hd_tp B /\ 24 <= ts c.
Proof.
  destruct (chunk_at _ _ _ _ _ W A c B eq_refl) as (H1 & H2 & H3 & H4).
  destruct (tags_at _ _ _ _ _ W A c B eq_refl) as ([_ [Hlo _]] & _). unfold MINSIZE in Hlo.
  unfold inuse_bit_at_offset in H4. rewrite patch_bottom in H1, H2, H3, H4. fold p in H1, H2, H3, H4.
  rewrite chunk_patch in H1, H3 by lia. rewrite inuse_patch in H2, H4 by lia.
  rewrite Htp in H2. by split_and!.
Qed.

Lemma combine_prev_id : combine_prev p (ts c) st = (p, ts c, st)
  /\ combine_prev p (ts c) (wr a v st) = (p, ts c, wr a v st).
Proof.
  destruct patch_chunk as (_ & H2 & _). unfold combine_prev. rewrite inuse_patch by lia. by rewrite H2.
Qed.

Lemma next_links_mult8 :
  prev_inuse st (p + ts c + CHUNK_SIZE st (p + ts c)) = false -> p + ts c ≠ m_hTop (m_pstHead st) ->
  mult8 (hPreChunk st (p + ts c)) /\ mult8 (hNextChunk st (p + ts c)).
Proof.
  intros Hin Hne. destruct patch_chunk as (_ & _ & H3 & _ & Hc24). rewrite H3 in Hin.
  destruct (bounds_at _ _ _ _ _ W A c B eq_refl) as (Hp8 & _ & _ & _ & Hend & _).
  destruct (tags_at _ _ _ _ _ W A c B eq_refl) as ([Hc8 _] & _).
  unfold top in Hend. rewrite head_wr, patch_bottom in Hend. rewrite patch_bottom in Hp8. fold p in Hend, Hp8.
  destruct B as [|cn B']; [tauto|]. simpl in Hin.
  assert (A ++ [c] ++ cn :: B' = (A ++ [c]) ++ cn :: B') as EL by (by rewrite <- app_assoc).
  destruct (tags_at _ _ _ _ _ W (A ++ [c]) cn B' EL) as ([_ [Hlo _]] & _ & _ & _ & Hfr).
  destruct (chunk_at _ _ _ _ _ W (A ++ [c]) cn B' EL) as (_ & _ & _ & Hin').
  unfold inuse_bit_at_offset in Hin'. rewrite patch_bottom, total_app in Hin'. simpl in Hin'.
  replace (bottom st + (total A + (ts c + 0))) with (p + ts c) in Hin' by (unfold p; lia).
  unfold MINSIZE in Hlo. rewrite inuse_patch in Hin' by lia. change (hd_size (cn :: B')) with (ts cn) in Hin.
  rewrite Hin in Hin'. destruct (Hfr (eq_sym Hin')) as [Hcn _].
  assert (p + ts c ∈ bl (bin_index (ts cn))) as Hl.
  { apply (wf_match _ _ _ _ _ W). right. rewrite free_at_cons. left. split_and!; [|done|done].
    rewrite patch_bottom. unfold p. simpl. lia. }
  destruct (links_mult8 _ _ _ _ _ _ _ W Hl) as [G1 G2]. unfold hPreChunk, hNextChunk in *.
  rewrite !(rd_patch8 a v) in G1, G2 by (done || by apply mult8_add). done.
Qed.

(** Freeing the chunk and writing the word below it commute. *)
Lemma inter_free_patch :
  inter_free (chunk2mem p) (wr a v st) =
  let '(r, z, st') := inter_free (chunk2mem p) st in (r, z, wr a v st').
Proof.
  destruct patch_chunk as (H1 & H2 & H3 & H4 & Hc24). destruct combine_prev_id as [P1 P2].
  destruct (bounds_at _ _ _ _ _ W A c B eq_refl) as (Hp8 & Hp24 & _ & _ & Hend & Hsz & _).
  destruct (tags_at _ _ _ _ _ W A c B eq_refl) as (Hcv & _).
  rewrite patch_bottom in Hp8, Hp24, Hend, Hsz. rewrite head_wr in Hsz. fold p in Hp8, Hp24, Hend, Hsz.
  unfold inter_free. rewrite head_wr, handle_patch. destruct (mem2chunk_chunk2mem p) as [Em _].
  unfold handle_to_ptr in *. rewrite Em, chunk_patch by lia. rewrite H1.
  destruct (_ =? INVALID_HANDLE); [done|]. destruct (_ <=? chunk2mem p); [done|].
  rewrite handle_at by lia. destruct (_ <=? p + ts c); [done|].
  unfold inuse_bit_at_offset. rewrite inuse_patch by lia. destruct (prev_inuse st (p + ts c)); [|done]. simpl.
  destruct (misaligned_chunk p); [done|].
  assert (check_inuse_chunk (wr a v st) p = check_inuse_chunk st p) as ->.
  { unfold check_inuse_chunk, inuse_bit_at_offset, AT_TOP. rewrite chunk_patch by lia. rewrite H1, !inuse_patch by lia.
    rewrite H2. cbn [negb]. by rewrite chunk_patch, head_wr by lia. }
  destruct (negb _); [done|]. rewrite P1, P2. destruct Hcv as [Hc8 Hc2].
  destruct (combine_next_spec _ _ _ _ _ W Hc) as (c' & B' & st2 & bl2 & En & W2 & _).
  rewrite patch_bottom in En. fold p in En.
  assert (combine_next p (ts c) (wr a v st) =
    match combine_next p (ts c) st with inl e => inl e | inr (k, st') => inr (k, wr a v st') end) as EP.
  { apply combine_next_patch; try done; try lia. apply next_links_mult8. }
  rewrite EP in En |- *.
  destruct (combine_next p (ts c) st) as [e|[k st1]]; [done|]. injection En as -> <-.
  rewrite place_free_patch; [done|done|lia|done| | |].
  - apply (middle_size _ _ _ _ _ W2).
  - intros i Hi. pose proof (bin_head_mult8 _ _ _ _ _ _ W2 Hi) as Hb. by rewrite bin_wr in Hb.
  - unfold ptr_to_handle. destruct (_ || _); done.
Qed.

End FreePatch.

(** ** The common end of [inter_re_alloc] *)

Lemma next_header st A M B bl : wf st A M B bl ->
  rd st (bottom st + total A + total M + 4) = word (hd_size B) (hd_tp B) /\ mult8 (hd_size B).
Proof.
  intros W. destruct B as [|d B].
  - split; [|done]. pose proof (wf_end _ _ _ _ _ W) as He. rewrite app_nil_r, total_app in He.
    change (word (hd_size []) (hd_tp [])) with (word 0 true).
    rewrite <- (wf_top _ _ _ _ _ W). f_equal. lia.
  - destruct (tags_at _ _ _ _ _ W (A ++ M) d B) as ([Hm _] & H & _). { by rewrite <- app_assoc. }
    rewrite total_app in H. split; [|done]. cbn. rewrite <- H. f_equal. lia.
Qed.

(** The word before a chunk may be rewritten when nobody reads it. *)
Lemma wf_presize_write st X d Y bl v :
  wf st (X ++ d :: Y) [] [] bl -> (tp d = false -> v = rd st (bottom st + total X)) ->
  wf (wr (bottom st + total X) v st) (X ++ d :: Y) [] [] bl.
Proof.
  intros W Hv. set (p := bottom st + total X). pose proof W as [W1 W2 W3 W4 W5 W6 W7].
  rewrite !app_nil_r in W1, W2. pose proof (wf_cs_sized _ _ _ W) as Hs.
  assert (bottom (wr p v st) = bottom st) as Eb by apply patch_bottom.
  assert ((p, d) ∈ addrs (bottom st) (X ++ d :: Y)) as Hp by (apply addrs_elem; by exists X, Y).
  destruct (addrs_bounds _ _ _ _ Hs Hp) as (_ & Hpt & [_ [Hdlo _]] & _). unfold MINSIZE in Hdlo.
  split; rewrite ?app_nil_r, ?Eb, ?top_wr, ?head_wr; try done.
  - apply (seg_frame_flags (rd st)); [|done]. intros X' c Y' E.
    assert ((bottom st + total X', c) ∈ addrs (bottom st) (X ++ d :: Y)) as Hc.
    { rewrite E. apply addrs_elem. by exists X', Y'. }
    destruct (addrs_bounds _ _ _ _ Hs Hc) as (_ & _ & [_ [Hclo _]] & _). unfold MINSIZE in Hclo.
    rewrite !rd_wr. destruct (addrs_gap _ _ _ _ _ _ Hs Hp Hc) as [[E1 <-]|Hgap].
    + rewrite <- E1, Z.eqb_refl. split; [by intros; rewrite Hv|]. destruct (Z.eqb_spec (p + 4) p); [lia|done].
    + split; [intros _|]; zcase; (done || lia).
  - rewrite rd_wr. destruct (Z.eqb_spec (top st + 4) p); [lia|done].
  - apply (bins_ok_ext st); [done| |intros; apply bin_wr|intros; by rewrite bit_wr].
    intros i h Hh. rewrite !rd_wr. pose proof (links_not_tags _ _ _ _ _ W h i p d Hh) as Hn.
    rewrite !app_nil_r in Hn. specialize (Hn Hp).
    destruct (Z.eqb_spec (h + 8) p); [lia|]. destruct (Z.eqb_spec (h + 16) p); [lia|done].
Qed.

Lemma write_header p s (f : bool) st : mult8 s -> in_width 32 s ->
  (let st := set_tSize p (wrap 32 (REAL_SIZE s)) st in
   if f then set_tSize p (Z.lor (tSize st p) PREV_INUSE) st else st) = wr (p + 4) (word s f) st.
Proof.
  intros H8 Hw. rewrite real_size_mult8, wrap_small by done. unfold set_tSize, tSize. destruct f.
  - rewrite rd_wr, Z.eqb_refl, wr_wr. f_equal. by apply (word_lor s true).
  - unfold word. simpl. by rewrite Z.add_0_r.
Qed.

(** What the end of a reallocation gives: chunk [p] of at least [s] bytes, the
    bytes it had in [st] and every other user's bytes as in [st0]. *)
Definition resized (st0 st : PtMalloc) (A M B : list tile) (s : Z) (r : Z * PtMalloc) : Prop :=
  let p := bottom st0 + total A in
  exists cs' bl' s', r.1 = chunk2mem p /\ wf r.2 cs' [] [] bl' /\ s <= s'
  /\ step st0 r.2 (others st0 A M B)
  /\ allocs (bottom st0) cs' = allocs (bottom st0) A ++ (p, s') :: allocs (p + total M) B
  /\ (forall x, p + 8 <= x < p + s + 4 -> rd r.2 x = rd st x).

(** The user's bytes may have been moved inside the middle of [st0] to give [st]. *)
Section Finish.

Context (st0 st : PtMalloc) (A : list tile) (m : tile) (M B : list tile) (bl : Z -> list Z) (s : Z).
Hypothesis W : wf st0 A (m :: M) B bl.
Hypothesis Hs : valid_size s.

Let p := bottom st0 + total A.
Let T := total (m :: M).

Hypothesis He0 : env st = env st0.
Hypothesis Ht0 : top st = top st0.
Hypothesis Hb0 : forall i, get_bin st (Bin i) = get_bin st0 (Bin i).
Hypothesis Hi0 : forall i, bit st i = bit st0 i.
Hypothesis Hr0 : forall x, x < p + 8 \/ p + T <= x -> rd st x = rd st0 x.

Lemma first_header : (tp m = false -> last_free false A = true /\ rd st p = last_size 0 A)
  /\ mult8 T /\ mult8 p /\ 24 <= T /\ 24 <= p /\ p + T <= top st0 /\ top st0 + 24 <= m_tSize (m_pstHead st0).
Proof.
  destruct (tags_at _ _ _ _ _ W A m (M ++ B) eq_refl) as (_ & _ & _ & H & _). fold p in H.
  rewrite <- Hr0 in H by lia.
  destruct (wf_sized3 _ _ _ _ _ W) as (SA & SM & SB). pose proof (total_mult8 _ SA). pose proof (total_mult8 _ SM).
  pose proof (total_nonneg _ SA). pose proof (total_nonneg _ SB). pose proof (wf_end _ _ _ _ _ W) as He.
  rewrite !total_app in He. destruct (wf_bottom _ _ _ _ _ W). pose proof (wf_room _ _ _ _ _ W).
  apply Forall_cons in SM as [[_ [Hm _]] SM]. pose proof (total_nonneg _ SM). unfold MINSIZE in *.
  split_and!; try done; unfold p, T in *; simpl in *; try lia. by apply mult8_add.
Qed.

Lemma finish_next : rd st (p + T + 4) = word (hd_size B) (hd_tp B) /\ mult8 (hd_size B).
Proof.
  destruct (next_header _ _ _ _ _ W) as [Hn Hm8]. fold p in Hn. change (total (m :: M)) with T in Hn.
  rewrite Hr0; [done|lia].
Qed.

(** Nothing worth splitting off. *)
Lemma finish_whole : T <= MAX_ALLOC_SIZE -> s <= T -> T - s < get_min_chunk_size st ->
  resized st0 st A (m :: M) B s (finish_re_alloc p T s (tp m) (rd st p) st).
Proof.
  intros HT Hle Hmin. destruct first_header as (Hf & HT8 & Hp8 & HT24 & Hp24 & Hpt & Hroom).
  destruct finish_next as [Hn Hm8].
  unfold finish_re_alloc. destruct (Z.leb_spec (get_min_chunk_size st) (T - s)); [lia|].
  rewrite write_header by (done || (unfold in_width, MAX_ALLOC_SIZE in *; lia)).
  rewrite real_size_mult8 by done. unfold tSize. rewrite Hn, word_set by done.
  set (st1 := set_tSize (p + T) _ st). set (st4 := set_tPreSize p (rd st p) _).
  assert (forall x, rd st4 x = if x =? p + 4 then word T (tp m)
     else if x =? p + T + 4 then word (hd_size B) true else rd st x) as Hr.
  { intros x. unfold st4, st1. pt_simpl. zcase; subst; (done || lia). }
  assert (env st4 = env st0) as Ee by (unfold st4, st1; by pt_simpl).
  assert (top st4 = top st0) as Et by (unfold st4, st1; by pt_simpl).
  destruct (wf_retile st0 st4 A (m :: M) B [mkTile T false (tp m)] true bl W) as [W' K']; try done.
  - intros i. unfold st4, st1. by pt_simpl.
  - intros i. unfold st4, st1. by pt_simpl.
  - fold p. change (total (m :: M)) with T. intros x Hx. rewrite Hr, <- (Hr0 x) by lia. zcase; (done || lia).
  - unfold T. simpl. lia.
  - fold p. simpl. split_and!; [by split; [|unfold MINSIZE; lia]| | |done].
    + rewrite Hr. zcase; (done || lia).
    + intros Htp. destruct (Hf Htp). split; [done|]. rewrite Hr. zcase; (done || lia).
  - fold p. change (total (m :: M)) with T. rewrite Hr. zcase; (done || lia).
  - exists (A ++ mkTile T false (tp m) :: set_hd_tp true B), bl, T. split_and!; [|by apply wf_open|done| | |].
    + apply handle_at. rewrite (env_size _ _ Ee). unfold chunk2mem, SIZE_SZ. lia.
    + split; [done|]. by apply keeps_others.
    + rewrite allocs_app, allocs_cons, allocs_set_hd. done.
    + fold p. intros x Hx. simpl. rewrite Hr. zcase; (done || lia).
Qed.

(** The tags written for what is split off. *)
Definition remainder_tags (q r : Z) (st : PtMalloc) : PtMalloc :=
  let st := set_tSize q (word r true) st in
  let st := set_tPreSize (q + r) r st in
  let st := set_tSize (q + r) (Z.lor (tSize st (q + r)) PREV_INUSE) st in
  set_inuse_bit_at_offset q r st.

Lemma free_remainder_once n q r u : valid_size r ->
  free_remainder (S n) q r u =
  (inter_free (ptr_to_handle (remainder_tags q r u) (chunk2mem q)) (remainder_tags q r u)).2.
Proof.
  intros [Hr8 [Hlo Hhi]]. cbn [free_remainder]. destruct (Z.ltb_spec MAX_ALLOC_SIZE r); [lia|].
  rewrite !real_size_mult8 by done. change (Z.lor r PREV_INUSE) with (Z.lor r (Z.b2z true)).
  rewrite word_lor by done. rewrite Z.sub_diag. done.
Qed.

Lemma split_header r : valid_size r -> T = s + r ->
  let stA := remainder_tags (p + s) r st in
  let stB := wr (p + 4) (word s (tp m)) stA in
  wf stB A [mkTile s false (tp m); mkTile r false true] (set_hd_tp true B) bl
  /\ step st0 stB (others st0 A (m :: M) B) /\ (forall x, p + 8 <= x < p + s + 4 -> rd stB x = rd st x)
  /\ rd stB p = rd st p /\ env stB = env st0.
Proof.
  intros Hr HT stA stB. destruct first_header as (Hf & HT8 & Hp8 & HT24 & Hp24 & Hpt & Hroom).
  destruct finish_next as [Hn Hm8].
  destruct (Hr) as [Hr8 [Hrlo _]], (Hs) as [Hs8 [Hslo _]]. unfold MINSIZE in *.
  replace (p + T + 4) with (p + s + r + 4) in Hn by lia.
  assert (forall x, rd stB x = if x =? p + 4 then word s (tp m) else if x =? p + s + r + 4 then word (hd_size B) true
     else if x =? p + s + r then r else if x =? p + s + 4 then word r true else rd st x) as Hrd.
  { intros x. unfold stB, stA, remainder_tags, set_inuse_bit_at_offset. pt_simpl. rewrite !Z.eqb_refl.
    replace (p + s + r + 4 =? p + s + r) with false by lia. replace (p + s + r + 4 =? p + s + 4) with false by lia.
    rewrite Hn, !word_set by done. zcase; (done || lia). }
  assert (env stB = env st0) as Ee by (unfold stB, stA, remainder_tags, set_inuse_bit_at_offset; by pt_simpl).
  assert (top stB = top st0) as Et by (unfold stB, stA, remainder_tags, set_inuse_bit_at_offset; by pt_simpl).
  destruct (wf_retile st0 stB A (m :: M) B [mkTile s false (tp m); mkTile r false true] true bl W) as [W' K']; try done.
  - intros i. unfold stB, stA, remainder_tags, set_inuse_bit_at_offset. by pt_simpl.
  - intros i. unfold stB, stA, remainder_tags, set_inuse_bit_at_offset. by pt_simpl.
  - fold p. change (total (m :: M)) with T. intros x Hx. rewrite Hrd, <- (Hr0 x) by lia. zcase; (done || lia).
  - unfold T in HT. simpl in *. lia.
  - fold p. simpl. split_and!; try done.
    + rewrite Hrd. zcase; (done || lia).
    + intros Htp. destruct (Hf Htp). split; [done|]. rewrite Hrd. zcase; (done || lia).
    + rewrite Hrd. zcase; (done || lia).
  - fold p. change (total (m :: M)) with T. rewrite Hrd. zcase; (done || lia).
  - split_and!; [done| | | |done].
    + split; [done|]. by apply keeps_others.
    + intros x Hx. rewrite Hrd. zcase; (done || lia).
    + rewrite Hrd. zcase; (done || lia).
Qed.

(** The rest is split off and freed. *)
Lemma finish_split : T - s <= MAX_ALLOC_SIZE -> MINSIZE <= get_min_chunk_size st ->
  get_min_chunk_size st <= T - s ->
  resized st0 st A (m :: M) B s (finish_re_alloc p T s (tp m) (rd st p) st).
Proof.
  intros HT Hmin24 Hmin. set (r := T - s).
  destruct first_header as (Hf & HT8 & Hp8 & HT24 & Hp24 & Hpt & Hroom).
  assert (valid_size r) as Hr by (split; [apply mult8_sub; [done|apply Hs]|unfold r; lia]).
  destruct (Hr) as [Hr8 [Hrlo _]], (Hs) as [Hs8 [Hslo Hshi]]. unfold MINSIZE in *.
  destruct (split_header r Hr ltac:(unfold r; lia)) as (WB & SB & KB & PB & EB).
  unfold finish_re_alloc. destruct (Z.leb_spec (get_min_chunk_size st) (T - s)); [|lia].
  rewrite free_remainder_once by done. fold r. set (stA := remainder_tags (p + s) r st) in *.
  set (stB := wr (p + 4) (word s (tp m)) stA) in *.
  rewrite write_header by (done || (unfold in_width, MAX_ALLOC_SIZE in *; lia)).
  set (c1 := mkTile s false (tp m)) in *. set (c2 := mkTile r false true) in *.
  assert (wf stB (A ++ [c1]) [c2] (set_hd_tp true B) bl) as WB'.
  { apply wf_open; [done|]. rewrite <- app_assoc.
    change ([c1] ++ c2 :: set_hd_tp true B) with ([c1; c2] ++ set_hd_tp true B).
    apply wf_close; [by repeat constructor|done]. }
  pose proof (env_bottom _ _ EB) as Eb. pose proof (env_size _ _ EB) as Es.
  assert (bottom stA = bottom st0) as EbA by (rewrite <- Eb; symmetry; apply patch_bottom).
  assert (bottom st0 + total (A ++ [c1]) = p + s) as Eq by (rewrite total_app; unfold p; simpl; lia).
  destruct (inter_free_mid _ _ _ _ _ WB' eq_refl) as (st2 & cs' & bl' & Hfree & W2 & S2 & EL & ER).
  pose proof (inter_free_patch (p + 4) (word s (tp m)) stA (A ++ [c1]) c2 (set_hd_tp true B) bl) as HP.
  rewrite EbA, Eq in HP. rewrite Eb, Eq in Hfree. specialize (HP ltac:(unfold mult8 in *; zdm) WB' eq_refl eq_refl ltac:(lia)).
  fold stB in HP. rewrite Hfree in HP.
  assert (ptr_to_handle stA (chunk2mem (p + s)) = chunk2mem (p + s)) as ->.
  { rewrite <- (handle_patch (p + 4) (word s (tp m))). fold stB. apply handle_at. rewrite Es.
    unfold chunk2mem, SIZE_SZ. lia. }
  destruct (inter_free (chunk2mem (p + s)) stA) as [[r1 r2] stA2]. injection HP as <- <- E2. simpl. rewrite <- E2.
  destruct (ER eq_refl) as [R ->]. rewrite <- app_assoc in W2, EL. simpl in W2, EL.
  assert (others stB (A ++ [c1]) [c2] (set_hd_tp true B)
          = allocs (bottom st0) A ++ (p, s) :: allocs (p + T) B) as EO.
  { unfold others. rewrite Eb, allocs_app, allocs_set_hd, allocs_cons, <- app_assoc. simpl.
    rewrite Z.add_0_r, Eq. do 3 f_equal. unfold r. lia. }
  rewrite EO in S2, EL. rewrite Eb in EL.
  pose proof (env_bottom _ _ (step_env _ _ _ S2)) as Eb2. rewrite Eb in Eb2.
  assert (wf (wr p (rd st p) st2) (A ++ c1 :: R) [] [] bl') as W4.
  { pose proof (wf_presize_write st2 A c1 R bl' (rd st p) W2) as H4. rewrite Eb2 in H4. apply H4.
    intros Htp. destruct (tags_at _ _ _ _ _ W2 A c1 R) as (_ & _ & _ & G & _). { by rewrite !app_nil_r. }
    rewrite Eb2 in G. destruct (G Htp) as [_ ->]. by apply Hf. }
  exists (A ++ c1 :: R), bl', s. fold p. split_and!; [|exact W4|lia| |by rewrite EL|].
  - apply handle_at. unfold set_tPreSize. rewrite head_wr, (size_step _ _ _ S2), Es. unfold chunk2mem, SIZE_SZ. lia.
  - unfold set_tPreSize. split; simpl.
    + rewrite env_wr, (step_env _ _ _ S2). done.
    + intros x Hx. rewrite rd_wr. destruct (Z.eqb_spec x p) as [->|]; [apply Hr0; lia|].
      rewrite (step_keeps _ _ _ S2), (step_keeps _ _ _ SB); [done|done|].
      apply user_byte_app in Hx. apply user_byte_app. destruct Hx as [Hx|Hx]; [by left|right].
      apply (user_byte_app [_]). by right.
  - intros x Hx. unfold set_tPreSize. simpl. rewrite rd_wr. destruct (Z.eqb_spec x p); [lia|].
    rewrite (step_keeps _ _ _ S2), KB; [done|lia|]. exists p, s. split; [set_solver|lia].
Qed.

Lemma finish_spec : s <= T -> T - s <= MAX_ALLOC_SIZE -> MINSIZE <= get_min_chunk_size st ->
  (T - s < get_min_chunk_size st -> T <= MAX_ALLOC_SIZE) ->
  resized st0 st A (m :: M) B s (finish_re_alloc p T s (tp m) (rd st p) st).
Proof.
  intros H1 H2 H3 H4. destruct (Z.lt_ge_cases (T - s) (get_min_chunk_size st)).
  - apply finish_whole; auto.
  - apply finish_split; auto.
Qed.

End Finish.

(** ** The cases of [inter_re_alloc] *)

Lemma cell_copy_range n from dst src c x :
  cell (copy_range n from dst src c) x =
  if (dst <=? x) && (x <? dst + Z.of_nat n) then cell from (x - dst + src) else cell c x.
Proof.
  revert dst src c. induction n as [|n IH]; intros dst src c; cbn [copy_range].
  - zcase; simpl; (done || lia).
  - rewrite IH. replace (x - (dst + 1) + (src + 1)) with (x - dst + src) by lia.
    destruct (Z.eq_dec x dst) as [->|Hx].
    + unfold cell at 2. rewrite lookup_partial_alter_eq. replace (dst - dst + src) with src by lia.
      fold (cell from src). zcase; simpl; (done || lia).
    + unfold cell at 2. rewrite lookup_partial_alter_ne by done. fold (cell c x). zcase; simpl; (done || lia).
Qed.

Lemma rd_memmove dst src n st x : 0 <= n ->
  rd (memmove dst src n st) x = if (dst <=? x) && (x <? dst + n) then rd st (x - dst + src) else rd st x.
Proof. intros Hn. unfold memmove. rewrite rd_set_cells, cell_copy_range, Z2Nat.id by lia. done. Qed.

(** A reallocation of chunk [c]: it failed and nothing changed hands, or the
    chunk is now [p'], of at least [s] bytes, with the old contents. *)
Definition realloc_outcome (st : PtMalloc) (A : list tile) (c : tile) (B : list tile) (s : Z)
    (r : Z * PtMalloc) : Prop :=
  let p := bottom st + total A in
  (r.1 = 0 /\ (exists bl', wf r.2 (A ++ c :: B) [] [] bl')
   /\ step st r.2 (allocs (bottom st) (A ++ c :: B)))
  \/ exists p' s' cs' bl', r.1 = chunk2mem p' /\ wf r.2 cs' [] [] bl' /\ s <= s'
     /\ step st r.2 (others st A [c] B)
     /\ allocs (bottom st) cs' ≡ₚ (p', s') :: others st A [c] B
     /\ (forall k, 8 <= k < Z.min (ts c) s + 4 -> rd r.2 (p' + k) = rd st (p + k)).

Section Cases.

Context (st : PtMalloc) (A : list tile) (c : tile) (B : list tile) (bl : Z -> list Z) (s : Z).
Hypothesis W : wf st A [c] B bl.
Hypothesis Hc : tb c = false.
Hypothesis Hs : valid_size s.
Hypothesis Hmin : MINSIZE <= get_min_chunk_size st.

Let p := bottom st + total A.

(** The chunk shrinks or stays. *)
Lemma shrink_resized : s <= ts c ->
  resized st st A [c] B s (finish_re_alloc p (ts c) s (prev_inuse st p) (tPreSize st p) st).
Proof.
  intros Hle. destruct (chunk_at _ _ _ _ _ W A c B eq_refl) as (_ & H2 & _). fold p in H2. rewrite H2.
  destruct (tags_at _ _ _ _ _ W A c B eq_refl) as ([_ [_ Hhi]] & _). destruct (Hs) as [_ [Hlo _]]. unfold MINSIZE in Hlo.
  pose proof (finish_spec st st A c [] B bl s W Hs eq_refl eq_refl (fun _ => eq_refl) (fun _ => eq_refl) (fun _ _ => eq_refl)) as F.
  simpl in F. rewrite Z.add_0_r in F. fold p in F. exact (F Hle ltac:(lia) Hmin ltac:(lia)).
Qed.

Lemma realloc_shrink : s <= ts c ->
  realloc_outcome st A c B s (finish_re_alloc p (ts c) s (prev_inuse st p) (tPreSize st p) st).
Proof.
  intros Hle. destruct (shrink_resized Hle) as (cs' & bl' & s' & E1 & W' & Hs' & S' & EL & K).
  right. exists p, s', cs', bl'. split_and!; try done.
  - rewrite EL. unfold others. simpl. by rewrite <- Permutation_middle.
  - intros k Hk. apply K. fold p. lia.
Qed.

(** The chunk grows into the top. *)
Lemma realloc_top : B = [] -> ts c < s -> top st + (s - ts c) + MINSIZE < m_tSize (m_pstHead st) ->
  let st1 := set_tSize p (Z.lor (REAL_SIZE s) (Z.land (tSize st p) SIZE_BITS)) st in
  let q := top st + (s - ts c) in
  let st2 := set_tSize q PREV_INUSE (set_tPreSize q (REAL_SIZE s) st1) in
  let st3 := set_pstHead (set_hTop q) st2 in
  realloc_outcome st A c B s (ptr_to_handle st3 (chunk2mem p), st3).
Proof.
  intros HB Hlt Hroom st1 q st2 st3.
  destruct (tags_at _ _ _ _ _ W A c B eq_refl) as ([Hc8 [Hclo _]] & H1 & _ & H3 & _). fold p in H1, H3.
  destruct (bounds_at _ _ _ _ _ W A c B eq_refl) as (Hp8 & Hp24 & _ & _ & Hend & _ & Hr24). fold p in Hp8, Hp24, Hend.
  pose proof (proj2 Hend HB) as Et. destruct (Hs) as [Hs8 [Hslo _]]. unfold MINSIZE in *. rewrite HB in W |- *.
  assert (q = p + s) as Eq by (unfold q; lia).
  assert (ts c + 8 <= s) by (unfold mult8 in *; zdm).
  assert (forall x, rd st3 x = if x =? p + s + 4 then word 0 true else if x =? p + s then s
     else if x =? p + 4 then word s (tp c) else rd st x) as Hr.
  { intros x. unfold st3, st2, st1. rewrite Eq. pt_simpl.
    rewrite H1, word_flags, real_size_mult8, word_lor by done. done. }
  assert (env st3 = env st) as Ee by (unfold st3, st2, st1; by pt_simpl).
  assert (top st3 = p + s) as Et3 by (unfold st3, top; pt_simpl; done).
  destruct (wf_retop st st3 A [c] [mkTile s false (tp c)] bl W) as [W' K']; try done.
  - intros i. unfold st3, st2, st1. by pt_simpl.
  - intros i. unfold st3, st2, st1, bit, bitmap_word. pt_simpl. by destruct (m_pstHead st).
  - fold p. intros x Hx. rewrite Hr. zcase; (done || lia).
  - rewrite Et3. simpl. unfold p. lia.
  - rewrite Et3. unfold MINSIZE. lia.
  - fold p. simpl. split_and!; [done| | |done].
    + rewrite Hr. zcase; (done || lia).
    + intros Htp. destruct (H3 Htp) as [? <-]. split; [done|]. rewrite Hr. zcase; (done || lia).
  - rewrite Et3, Hr, Z.eqb_refl. done.
  - right. exists p, s, (A ++ [mkTile s false (tp c)]), bl. split_and!; [|by apply wf_open|done| | |].
    + apply handle_at. rewrite (env_size _ _ Ee). unfold chunk2mem, SIZE_SZ. lia.
    + split; [done|]. by apply keeps_others.
    + rewrite allocs_app, allocs_cons. unfold others. simpl. fold p. rewrite app_nil_r. by rewrite <- Permutation_cons_append.
    + fold p. intros k Hk. simpl. rewrite Hr. zcase; (done || lia).
Qed.

(** The chunk takes in the free chunk after it. *)
Lemma realloc_next cn B' : B = cn :: B' -> tb cn = true -> ts c < s <= ts c + ts cn ->
  (ts c + ts cn - s < get_min_chunk_size st -> ts c + ts cn <= MAX_ALLOC_SIZE) ->
  let st1 := (unlink_bin (Bin (bin_index (ts cn))) (p + ts c) st).2 in
  realloc_outcome st A c B s
    (finish_re_alloc p (ts c + ts cn) s (prev_inuse st p) (tPreSize st p) st1).
Proof.
  intros HB Hcn Hle Hmax st1. rewrite HB in W |- *.
  destruct (chunk_at _ _ _ _ _ W A c _ eq_refl) as (_ & H2 & _). fold p in H2. rewrite H2.
  destruct (wf_unlink_right st A [c] cn B' bl W Hcn) as ((bl1 & W1) & E1 & T1 & K1 & N1).
  simpl in W1, E1, T1, K1, N1. rewrite Z.add_0_r in W1, E1, T1, K1, N1. fold p st1 in W1, E1, T1, K1, N1.
  assert (forall x, p <= x < p + ts c + 8 -> no_link (bl (bin_index (ts cn))) x) as Hno.
  { intros x Hx h Hh Hb. destruct (linked_chunk _ _ _ _ _ W _ _ Hh) as (d & _ & _ & _ & [_ [Hd _]] & _ & _ & Ho & _).
    simpl in Ho. unfold MINSIZE in Hd. fold p in Ho. lia. }
  assert (tPreSize st p = rd st1 p) as ->.
  { unfold tPreSize. rewrite N1; [done|]. apply Hno.
    destruct (tags_at _ _ _ _ _ W A c _ eq_refl) as ([_ [Hlo _]] & _). unfold MINSIZE in Hlo. lia. }
  pose proof (env_bottom _ _ E1) as Eb.
  pose proof (finish_spec st1 st1 A c [cn] B' bl1 s W1 Hs eq_refl eq_refl (fun _ => eq_refl) (fun _ => eq_refl) (fun _ _ => eq_refl)) as F.
  simpl in F. rewrite Z.add_0_r, Eb in F. fold p in F. rewrite (env_min _ _ E1) in F.
  destruct (wf_sized3 _ _ _ _ _ W) as (_ & _ & [[_ [_ Hcnhi]] _]%Forall_cons).
  destruct (F ltac:(lia) ltac:(lia) Hmin Hmax) as (cs' & bl' & s' & G1 & W' & Hs' & S' & EL & K).
  rewrite Eb in G1, EL, K. simpl in EL. fold p in G1, EL, K.
  right. exists p, s', cs', bl'. split_and!; try done.
  - rewrite (others_right _ _ [c]) by done. unfold others in S'. rewrite Eb in S'. eapply step_trans; [|exact S'].
    split; [done|]. intros x Hx. apply K1. apply user_byte_app in Hx. rewrite !in_user_allocs. simpl in Hx |- *.
    rewrite allocs_cons, Hcn. simpl. rewrite !Z.add_0_r in *. by rewrite <- Z.add_assoc.
  - rewrite EL. rewrite (others_right _ _ [c]) by done. unfold others. simpl. fold p.
    by rewrite <- Permutation_middle.
  - fold p. intros k Hk. rewrite K by lia. apply N1, Hno. lia.
Qed.

(** The chunk moves down into the free chunk before it. *)
Lemma realloc_prev A' cp : A = A' ++ [cp] -> tb cp = true -> ts c < s <= ts cp + ts c ->
  ts cp + ts c <= MAX_ALLOC_SIZE ->
  let p' := bottom st + total A' in
  let st1 := (unlink_bin (Bin (bin_index (ts cp))) p' st).2 in
  let st2 := memmove (chunk2mem p') (chunk2mem p) (ts c - 4) st1 in
  realloc_outcome st A c B s
    (finish_re_alloc p' (ts cp + ts c) s (prev_inuse st p') (tPreSize st p') st2).
Proof.
  intros HA Hcp Hle Hmax p' st1 st2. pose proof W as W0. rewrite HA in W0.
  assert ((A' ++ [cp]) ++ [c] ++ B = A' ++ cp :: c :: B) as EL0 by (by rewrite <- app_assoc).
  destruct (chunk_at _ _ _ _ _ W0 A' cp _ EL0) as (_ & H2 & _). fold p' in H2. rewrite H2.
  destruct (tags_at _ _ _ _ _ W0 A' cp _ EL0) as ([_ [Hplo _]] & _).
  destruct (tags_at _ _ _ _ _ W A c B eq_refl) as ([_ [Hclo _]] & _). unfold MINSIZE in Hplo, Hclo.
  assert (p = p' + ts cp) as Ep by (unfold p, p'; rewrite HA, total_app; simpl; lia).
  destruct (wf_unlink_left st A' cp [c] B bl W0 Hcp) as ((bl1 & W1) & E1 & T1 & K1 & N1).
  fold p' st1 in W1, E1, T1, K1, N1. pose proof (env_bottom _ _ E1) as Eb.
  assert (forall x, p <= x < p + ts c + 8 -> no_link (bl (bin_index (ts cp))) x) as Hno.
  { intros x Hx h Hh Hb. destruct (linked_chunk _ _ _ _ _ W _ _ Hh) as (d & _ & _ & _ & [_ [Hd _]] & _ & _ & Ho & _).
    simpl in Ho. unfold MINSIZE in Hd. fold p in Ho. lia. }
  assert (rd st1 p' = rd st p') as Ep'.
  { apply N1. destruct (wf_no_link_tag _ _ _ _ _ (bin_index (ts cp)) p' cp W0) as [? _]; [|done].
    apply addrs_elem. by exists A', (c :: B). }
  assert (forall x, rd st2 x = if (p' + 8 <=? x) && (x <? p' + 8 + (ts c - 4)) then rd st1 (x - p' + p) else rd st1 x) as Hr2.
  { intros x. unfold st2. rewrite rd_memmove by lia. unfold chunk2mem, SIZE_SZ.
    by replace (x - (p' + 2 * 4) + (p + 2 * 4)) with (x - p' + p) by lia. }
  assert (tPreSize st p' = rd st2 p') as ->.
  { unfold tPreSize. rewrite Hr2, Ep'. zcase; simpl; (done || lia). }
  assert (env st2 = env st1) as E2 by (unfold st2, memmove; by destruct st1 as [[]]).
  pose proof (finish_spec st1 st2 A' cp [c] B bl1 s W1 Hs E2) as F. rewrite Eb in F. simpl in F. fold p' in F.
  rewrite (env_min _ _ E2), (env_min _ _ E1), Z.add_0_r in F.
  destruct F as (cs' & bl' & s' & G1 & W' & Hs' & S' & EL & K); try done; try lia.
  - unfold st2, memmove. by destruct st1 as [[]].
  - intros i. unfold st2, memmove. by destruct st1 as [[]].
  - intros i. unfold st2, memmove. by destruct st1 as [[]].
  - intros x Hx. rewrite Hr2. zcase; simpl; (done || lia).
  - rewrite Eb in G1, EL, K. simpl in EL. fold p' in G1, EL, K.
    right. exists p', s', cs', bl'. split_and!; try done.
    + rewrite HA, others_left by done. unfold others in S'. rewrite Eb in S'. eapply step_trans; [|exact S'].
      split; [done|]. pose proof (proj1 (keeps_others _ _ _ _ _) K1) as K2. by rewrite others_left in K2 by done.
    + rewrite EL, HA, others_left by done. unfold others. simpl. fold p'. by rewrite <- Permutation_middle.
    + fold p. intros k Hk. rewrite K, Hr2 by lia. 
      replace (p' + k - p' + p) with (p + k) by lia. rewrite N1 by (apply Hno; lia). zcase; simpl; (done || lia).
Qed.

(** Copying into a fresh chunk is a write of user bytes. *)
Lemma copy_fresh st1 cs1 bl1 p' s' q n :
  wf st1 cs1 [] [] bl1 -> (p', s') ∈ allocs (bottom st1) cs1 -> 0 <= n <= s' - 4 ->
  let st2 := memmove (chunk2mem p') (chunk2mem q) n st1 in
  wf st2 cs1 [] [] bl1 /\ env st2 = env st1
  /\ forall x, rd st2 x = if (p' + 8 <=? x) && (x <? p' + 8 + n) then rd st1 (x - p' + q) else rd st1 x.
Proof.
  intros W1 Hin Hn st2.
  assert (forall x, rd st2 x = if (p' + 8 <=? x) && (x <? p' + 8 + n) then rd st1 (x - p' + q) else rd st1 x) as Hr.
  { intros x. unfold st2. rewrite rd_memmove by lia. unfold chunk2mem, SIZE_SZ.
    by replace (x - (p' + 2 * 4) + (q + 2 * 4)) with (x - p' + q) by lia. }
  split_and!; [|by destruct st1 as [[]]|done].
  apply (wf_user_write st1); try (by destruct st1 as [[]]); try done.
  intros x Hx. rewrite Hr. zcase; simpl; try done. destruct Hx. exists p', s'. split; [done|lia].
Qed.

(** The chunk moves: allocate, copy, free. *)
Lemma realloc_move req : 0 <= req -> REQUEST_OUT_OF_RANGE req = false -> s = request2size req -> ts c < s ->
  exists r, 
  ('(hNewHandle, st) ← inter_malloc req st;
   if hNewHandle =? INVALID_HANDLE then Some (INVALID_HANDLE, st)
   else
     let pstTmp := mem2chunk (handle_to_ptr hNewHandle) in
     let hNew := ptr_to_handle st pstTmp in
     let st := memmove (chunk2mem pstTmp) (chunk2mem p) (chunksize2memsize (ts c)) st in
     let '(_, _, st) := inter_free (chunk2mem p) st in
     Some (chunk2mem hNew, st)) = Some r /\ realloc_outcome st A c B s r.
Proof.
  intros Hreq Hrange Es Hlt. assert (wf st (A ++ c :: B) [] [] bl) as Wc by (by apply wf_open).
  pose proof (inter_malloc_spec st (A ++ c :: B) bl req Wc Hmin Hreq) as Hm. rewrite Hrange, <- Es in Hm.
  destruct Hm as ([h st1] & -> & S1 & Ho). simpl in S1, Ho. simpl.
  assert (allocs (bottom st) (A ++ c :: B) ≡ₚ (p, ts c) :: others st A [c] B) as Eall.
  { rewrite allocs_app, allocs_cons, Hc. unfold others. simpl. rewrite Z.add_0_r. fold p. by rewrite Permutation_middle. }
  destruct Ho as [(-> & (bl' & W1) & _)|(p' & s' & cs1 & bl1 & L1 & L2 & -> & W1 & Hss & EL & EL1)].
  { simpl. eexists. split; [done|]. left. split_and!; [done|by exists bl'|done]. }
  pose proof (bottom_step _ _ _ S1) as Eb1. rewrite <- Eb1 in EL1.
  destruct (mem2chunk_chunk2mem p') as [Em Ecm].
  assert ((p', s') ∈ allocs (bottom st1) cs1) as Hp' by (rewrite EL1; set_solver).
  destruct (allocs_bounds _ _ _ _ _ W1 Hp') as ([_ [Hs'lo Hs'hi]] & Hp'b & Hp't & _).
  destruct (wf_bottom _ _ _ _ _ W1) as [Hb24 _]. pose proof (wf_room _ _ _ _ _ W1) as Hroom.
  destruct (tags_at _ _ _ _ _ W A c B eq_refl) as ([_ [Hclo Hchi]] & _). unfold MINSIZE in *.
  destruct (Z.eqb_spec (chunk2mem p') INVALID_HANDLE); [unfold INVALID_HANDLE in *; lia|].
  rewrite Em, handle_at by lia.
  assert (chunksize2memsize (ts c) = ts c - 4) as ->.
  { unfold chunksize2memsize, SIZE_SZ, MAX_ALLOC_SIZE in *. apply wrap_small. unfold in_width. lia. }
  destruct (copy_fresh st1 cs1 bl1 p' s' p (ts c - 4) W1 Hp' ltac:(lia)) as (W2 & E2 & Hr2).
  set (st2 := memmove _ _ _ st1) in *. pose proof (env_bottom _ _ E2) as Eb2.
  assert ((p, ts c) ∈ allocs (bottom st2) cs1) as Hpc.
  { rewrite Eb2, EL1, <- Permutation_middle, <- EL, Eall. right. left. }
  destruct (allocs_split _ _ _ _ Hpc) as (A1 & c1 & B1 & -> & Ep & Hc1 & Hs1).
  destruct (inter_free_spec _ _ _ _ _ W2 Hc1) as (st3 & cs3 & bl3 & Hfree & W3 & S3 & EL3).
  rewrite <- Ep in Hfree. rewrite Hfree. eexists. split; [done|].
  assert (others st2 A1 [c1] B1 ≡ₚ (p', s') :: others st A [c] B) as HP.
  { apply (Permutation_cons_inv (a := (p, ts c))). rewrite Permutation_swap, <- Eall, EL, Permutation_middle, <- EL1, <- Eb2.
    rewrite allocs_app, allocs_cons, Hc1, Hs1, <- Ep. unfold others. simpl. rewrite <- Ep, Hs1, Z.add_0_r.
    by rewrite Permutation_middle. }
  right. exists p', s', cs3, bl3. rewrite Eb2, Eb1 in EL3. split_and!; [done|done|done| |by rewrite EL3|].
  - split; simpl; [by rewrite (step_env _ _ _ S3), E2, (step_env _ _ _ S1)|]. intros x (y & t & Hyt & Hx).
    assert ((y, t) ∈ allocs (bottom st) (A ++ c :: B)) as Hy by (rewrite Eall; by right).
    assert ((y, t) ∈ allocs (bottom st1) (A1 ++ c1 :: B1)) as Hy1.
    { rewrite EL1, <- Permutation_middle, <- EL. by right. }
    rewrite (step_keeps _ _ _ S3) by (exists y, t; rewrite HP; split; [by right|done]).
    rewrite Hr2, (step_keeps _ _ _ S1 x) by (by exists y, t).
    destruct (allocs_disjoint _ _ _ _ _ _ _ W1 Hp' Hy1) as [[-> ->]|?]; [|zcase; simpl; (done || lia)].
    exfalso. pose proof (rep_allocs _ _ _ W1) as Hnd. rewrite EL1, <- Permutation_middle, <- EL, Eall in Hnd.
    simpl in Hnd. apply NoDup_cons in Hnd as [Hnd _]. apply Hnd. right. apply list_elem_of_fmap. by exists (y, t).
  - fold p. intros k Hk. simpl. rewrite (step_keeps _ _ _ S3).
    + rewrite Hr2. replace (p' + k - p' + p) with (p + k) by lia.
      rewrite (step_keeps _ _ _ S1); [zcase; simpl; (done || lia)|].
      exists p, (ts c). rewrite Eall. split; [left|lia].
    + exists p', s'. rewrite HP. split; [left|lia].
Qed.

(** The chunk after is free when the flag behind it is clear. *)
Lemma next_free : p + ts c ≠ top st -> inuse_bit_at_offset st (p + ts c) (hd_size B) = false ->
  exists cn B', B = cn :: B' /\ tb cn = true /\ hd_size B = ts cn /\ mult8 (ts cn) /\ p + ts c + ts cn <= top st.
Proof.
  intros Hne Hin0. destruct (bounds_at _ _ _ _ _ W A c B eq_refl) as (_ & _ & _ & _ & Hend & _). fold p in Hend.
  remember B as B0 eqn:EB in W, Hin0, Hend |- *. destruct B0 as [|cn B']; [tauto|].
  cbn [hd_size head from_option] in *. exists cn, B'.
  assert (A ++ [c] ++ cn :: B' = (A ++ [c]) ++ cn :: B') as EL by (by rewrite <- app_assoc).
  destruct (chunk_at _ _ _ _ _ W (A ++ [c]) cn B' EL) as (_ & _ & _ & Hin).
  destruct (tags_at _ _ _ _ _ W (A ++ [c]) cn B' EL) as ([Hcn8 _] & _ & _ & _ & Hfr).
  destruct (bounds_at _ _ _ _ _ W (A ++ [c]) cn B' EL) as (_ & _ & _ & Hnt & _).
  rewrite total_app in Hin, Hnt. simpl in Hin, Hnt.
  replace (bottom st + (total A + (ts c + 0))) with (p + ts c) in Hin, Hnt by (unfold p; lia).
  rewrite Hin0 in Hin. by destruct (Hfr (eq_sym Hin)) as [Hcn _].
Qed.

Lemma grow_chunk_spec req : 0 <= req -> REQUEST_OUT_OF_RANGE req = false -> s = request2size req -> ts c < s ->
  s + get_min_chunk_size st <= 2 ^ 32 ->
  exists r, grow_chunk p (ts c) s req st = Some r /\ realloc_outcome st A c B s r.
Proof.
  intros Hreq Hrange Es Hlt Hover.
  destruct (chunk_at _ _ _ _ _ W A c B eq_refl) as (H1 & H2 & H3 & _).
  destruct (bounds_at _ _ _ _ _ W A c B eq_refl) as (Hp8 & Hp24 & _ & Hpt & Hend & Hsz & Hr24).
  destruct (tags_at _ _ _ _ _ W A c B eq_refl) as ([Hc8 [Hclo Hchi]] & _).
  fold p in H1, H2, H3, Hp8, Hp24, Hpt, Hend, Hsz. destruct (Hs) as [_ [Hslo Hshi]]. unfold MINSIZE in Hclo, Hslo.
  unfold grow_chunk, AT_TOP. rewrite H1, H3. fold (top st).
  destruct ((p + ts c =? top st) && (top st + (s - ts c) + MINSIZE <? m_tSize (m_pstHead st))) eqn:G1.
  { apply andb_true_iff in G1 as [G1%Z.eqb_eq G2%Z.ltb_lt]. eexists. split; [done|].
    apply realloc_top; [by apply Hend|done|done]. }
  destruct (negb (p + ts c =? top st) && negb (inuse_bit_at_offset st (p + ts c) (hd_size B))
            && (s <=? ts c + hd_size B)) eqn:G2.
  { apply andb_true_iff in G2 as [[G2%negb_true_iff%Z.eqb_neq G3%negb_true_iff]%andb_true_iff G4%Z.leb_le].
    destruct (next_free G2 G3) as (cn & B' & EB & Hcn & Ehd & Hcn8 & Hnt). rewrite Ehd in *.
    rewrite handle_at by lia. eexists. split; [done|]. apply (realloc_next cn B'); try done.
    intros Hrem. assert (mult8 (ts c + ts cn)) as H8 by (by apply mult8_add).
    unfold mult8, MAX_ALLOC_SIZE in *. zdm. }
  rewrite H2. destruct (negb (tp c) && (s <=? wrap 32 (ts c + tPreSize st p))) eqn:G3.
  { apply andb_true_iff in G3 as [G3%negb_true_iff G4%Z.leb_le].
    destruct (prev_at _ _ _ _ _ W A c B eq_refl G3) as (A' & cp & EA & Hcp & Hps). fold p in Hps.
    destruct (wf_sized3 _ _ _ _ _ W) as (SA & _). rewrite EA in SA.
    apply Forall_app in SA as [_ [[Hcp8 [Hcplo Hcphi]] _]%Forall_cons]. unfold MINSIZE, MAX_ALLOC_SIZE in *.
    assert (tPreSize st p = ts cp) as Epre by done. rewrite Epre in G4 |- *.
    assert (ts c + ts cp < 2 ^ 32) as Hsum.
    { unfold wrap in G4. destruct (Z.lt_ge_cases (ts c + ts cp) (2 ^ 32)); [done|].
      replace ((ts c + ts cp) mod 2 ^ 32) with (ts c + ts cp - 2 ^ 32) in G4; [lia|].
      apply Z.mod_unique_pos with 1; lia. }
    rewrite wrap_small in G4 by (unfold in_width; lia).
    replace (p - ts cp) with (bottom st + total A') by (unfold p; rewrite EA, total_app; simpl; lia).
    assert (chunksize2memsize (ts c) = ts c - 4) as ->.
    { unfold chunksize2memsize, SIZE_SZ. apply wrap_small. unfold in_width. lia. }
    rewrite (Z.add_comm (ts c)) in *. eexists. split; [done|]. apply (realloc_prev A' cp); try done.
    assert (mult8 (ts cp + ts c)) as H8 by (by apply mult8_add). unfold mult8, MAX_ALLOC_SIZE in *. zdm. }
  by apply realloc_move.
Qed.

End Cases.

(** ** ReAlloc *)

Lemma inter_re_alloc_spec st A c B bl req :
  wf st (A ++ c :: B) [] [] bl -> tb c = false -> MINSIZE <= get_min_chunk_size st ->
  0 < req -> REQUEST_OUT_OF_RANGE req = false -> request2size req + get_min_chunk_size st <= 2 ^ 32 ->
  exists r, inter_re_alloc (chunk2mem (bottom st + total A)) req st = Some (r.1, ts c, r.2)
  /\ realloc_outcome st A c B (request2size req) r.
Proof.
  intros W0 Hc Hmin Hreq Hrange Hover. apply wf_open in W0 as W; [|done]. set (p := bottom st + total A).
  destruct (request_size req ltac:(lia) Hrange) as (Hs & _). set (s := request2size req) in *.
  destruct (chunk_at _ _ _ _ _ W A c B eq_refl) as (H1 & _).
  destruct (bounds_at _ _ _ _ _ W A c B eq_refl) as (Hp8 & Hp24 & Hbot & Hpt & _ & Hsz & Hr24).
  destruct (tags_at _ _ _ _ _ W A c B eq_refl) as ([_ [Hclo _]] & _).
  pose proof (check_inuse_ok _ _ _ _ _ W Hc) as Hchk. fold p in H1, Hp8, Hp24, Hbot, Hpt, Hsz, Hchk.
  destruct (mem2chunk_chunk2mem p) as [Em Ecm].
  unfold inter_re_alloc, INVALID_HANDLE. fold (top st) (bottom st) s. rewrite Hrange, Em, H1.
  destruct (Z.eqb_spec (chunk2mem p) 0); [lia|]. destruct (Z.eqb_spec req 0); [lia|].
  destruct (Z.leb_spec (top st) (chunk2mem p)); [unfold MINSIZE in *; lia|].
  destruct (Z.leb_spec (chunk2mem p) (bottom st)); [lia|]. simpl.
  rewrite handle_at by lia. destruct (Z.ltb_spec (top st) (p + ts c)); [lia|].
  rewrite aligned_mult8 by done. destruct (Z.ltb_spec (ts c) MINSIZE); [lia|]. rewrite Hchk. simpl.
  destruct (Z.leb_spec s (ts c)) as [Hle|Hlt].
  - pose proof (realloc_shrink st A c B bl s W Hs Hmin Hle) as O. fold p in O.
    destruct (finish_re_alloc _ _ _ _ _ _) as [r1 r2]. by exists (r1, r2).
  - destruct (grow_chunk_spec st A c B bl s W Hc Hs Hmin req) as ([r1 r2] & E & O); try done; [lia|].
    fold p in E. rewrite E. by exists (r1, r2).
Qed.

Lemma heap_of_perm L L' : NoDup (L.*1) -> L ≡ₚ L' -> heap_of L = heap_of L'.
Proof.
  intros Hnd HP. apply list_to_map_proper; [by apply blocks_NoDup|]. by apply Permutation_map.
Qed.

#[export] Instance sizes_perm : Proper ((≡ₚ) ==> eq) sizes.
Proof. intros L L' HP. induction HP; simpl; lia. Qed.

Lemma realloc_success st cs st1 st2 cs1 bl1 p s p' s' L :
  rep st (heap_of (allocs (bottom st) cs)) ->
  m_tUserAllocSize (m_pstHead st) = bottom st + sizes (allocs (bottom st) cs) ->
  m_tUserAllocChunkCnt (m_pstHead st) = Z.of_nat (length (allocs (bottom st) cs)) ->
  NoDup ((allocs (bottom st) cs).*1) ->
  wf st1 cs1 [] [] bl1 -> env st1 = env st ->
  allocs (bottom st) cs ≡ₚ (p, s) :: L -> allocs (bottom st) cs1 ≡ₚ (p', s') :: L ->
  quiet st1 st2 ->
  m_pstHead st2 = set_user (wrap 64 (m_tUserAllocSize (m_pstHead st1) + s' - s))
                           (wrap 64 (m_tUserAllocChunkCnt (m_pstHead st1))) (m_pstHead st1) ->
  heap_of L !! (p' + 8) = None /\ heap_of L = delete (p + 8) (heap_of (allocs (bottom st) cs))
  /\ rep st2 (<[p' + 8 := s' - 4]> (heap_of L)).
Proof.
  intros R U N Hnd W1 E1 EL EL1 Q Hhd. pose proof (rep_allocs _ _ _ W1) as Hnd1.
  rewrite (env_bottom _ _ E1) in Hnd1. destruct (env_fields _ _ E1) as (U1 & N1 & _).
  pose proof Hnd1 as Hnd1'. rewrite EL1 in Hnd1'. pose proof Hnd as Hnd'. rewrite EL in Hnd'.
  split_and!.
  - by apply (fresh_block [] L p' s').
  - rewrite (heap_of_perm _ _ Hnd EL). by apply (heap_of_delete [] L p s).
  - change (<[p' + 8 := s' - 4]> (heap_of L)) with (heap_of ((p', s') :: L)).
    rewrite <- (heap_of_perm _ _ Hnd1 EL1).
    eapply account; [exact R|exact W1|done|exact Q|exact Hhd| |].
    + rewrite U1, U, EL, EL1. simpl. lia.
    + rewrite N1, N, EL, EL1. simpl. lia.
Qed.

Lemma ReAlloc_spec st H h n req :
  rep st H -> H !! h = Some n -> 0 < req < 2 ^ 32 ->
  request2size req + minChunkSize st <= 2 ^ 32 ->
  exists h' st', ReAlloc h req st = Some (h', st')
  /\ ((h' = INVALID_HANDLE /\ rep st' H /\ forall x, in_heap H x -> rd st' x = rd st x)
     \/ exists n', req <= n' /\ h' ≠ INVALID_HANDLE /\ delete h H !! h' = None
        /\ rep st' (<[h' := n']> (delete h H))
        /\ (forall x, in_heap (delete h H) x -> rd st' x = rd st x)
        /\ (forall k, 0 <= k < Z.min n req -> rd st' (h' + k) = rd st (h + k))).
Proof.
  intros R0 Hh Hreq Hover. destruct (rep_block _ _ _ _ R0 Hh) as (_ & Hn & Hlo & _).
  pose proof (rep_reset_last st H 0 R0) as R. pose proof (quiet_last 0 st) as Q0.
  unfold ReAlloc. set (st0 := set_pstHead _ st) in *.
  pose proof R as [(cs & bl & W & -> & U & N) Rm Rs].
  pose proof (rep_allocs _ _ _ W) as Hnd. apply heap_of_lookup in Hh as Hin; [|done].
  destruct (wf_bottom _ _ _ _ _ W) as [Hb24 _]. rewrite <- (q_bottom _ _ Q0) in Hlo.
  destruct (REQUEST_OUT_OF_RANGE req) eqn:Hrange.
  { assert (inter_re_alloc h req st0 = Some (INVALID_HANDLE, 0, st0)) as ->.
    { unfold inter_re_alloc. rewrite Hrange. unfold INVALID_HANDLE. zcase; (done || lia). }
    simpl. destruct (Z.eqb_spec req 0); [lia|]. eexists _, _. split; [done|]. left.
    split_and!; [done|done|]. intros. apply Q0. }
  destruct (allocs_split _ _ _ _ Hin) as (A & c & B & -> & Hp & Hc & Hs).
  destruct (inter_re_alloc_spec st0 A c B bl req W Hc) as ([h' st1] & E & O); try done; try lia.
  { rewrite min_of_rep; apply Rm. } { rewrite min_of_rep, (q_min _ _ Q0) by apply Rm. done. }
  rewrite <- Hp in E. replace (chunk2mem (h - 8)) with h in E by (unfold chunk2mem, SIZE_SZ; lia).
  rewrite E. simpl. destruct (request_size req ltac:(lia) Hrange) as (_ & Hle & _).
  assert (allocs (bottom st0) (A ++ c :: B) ≡ₚ (h - 8, n + 4) :: others st0 A [c] B) as EL.
  { rewrite allocs_app, allocs_cons, Hc, Hs, <- Hp. unfold others. simpl. rewrite <- Hp, Hs, Z.add_0_r.
    by rewrite Permutation_middle. }
  destruct O as [(Eh & (bl' & W1) & S1)|(p' & s' & cs1 & bl1 & Eh & W1 & Hss & S1 & EL1 & K)]; simpl in *.
  { rewrite Eh. simpl. destruct (Z.eqb_spec req 0); [lia|]. eexists _, _. split; [done|]. left. split_and!; [done| |].
    - by apply (rep_same st0 st1 _ bl'); [..|apply S1].
    - intros x Hx. rewrite <- (q_rd _ _ Q0). apply S1. by apply in_heap_user. }
  destruct (mem2chunk_chunk2mem p') as [Em Ecm].
  assert ((p', s') ∈ allocs (bottom st1) cs1) as Hin1.
  { rewrite (bottom_step _ _ _ S1), EL1. left. }
  destruct (allocs_bounds _ _ _ _ _ W1 Hin1) as (_ & Hp'b & _). rewrite (bottom_step _ _ _ S1) in Hp'b.
  rewrite Eh. destruct (Z.eqb_spec (chunk2mem p') INVALID_HANDLE); [unfold INVALID_HANDLE in *; lia|]. simpl.
  rewrite Em, (chunk_of_alloc _ _ _ _ _ W1 Hin1).
  destruct (Z.eqb_spec h INVALID_HANDLE) as [|Hne]; [unfold INVALID_HANDLE in *; lia|]. rewrite Hs.
  set (st2 := set_pstHead _ st1). set (st3 := add_alloc_size_to_stat _ _). set (st4 := set_stats _ _).
  assert (quiet st1 st4) as Q by (etrans; [|apply quiet_stats]; etrans; [apply quiet_user|apply quiet_add]).
  destruct (env_fields _ _ (step_env _ _ _ S1)) as (U1 & N1 & _).
  destruct (realloc_success st0 (A ++ c :: B) st1 st4 cs1 bl1 (h - 8) (n + 4) p' s' (others st0 A [c] B))
    as (F1 & F2 & R2); try done; [apply S1| |].
  { unfold st4, st3. rewrite user_after_stats, user_after_add. unfold st2. rewrite head_head. f_equal.
    rewrite N1, N, wrap_small; [done|]. pose proof (sizes_bound _ _ _ W). pose proof (wf_room _ _ _ _ _ W).
    unfold in_width, MINSIZE in *. lia. }
  replace (h - 8 + 8) with h in F2 by lia. rewrite <- F2, Ecm.
  eexists _, _. split; [done|]. right. exists (s' - 4). split_and!; [lia|unfold INVALID_HANDLE; lia|done|done| |].
  - intros x Hx. rewrite (q_rd _ _ Q), <- (q_rd _ _ Q0). apply S1. apply in_heap_user in Hx; [done|].
    rewrite EL in Hnd. simpl in Hnd. apply NoDup_cons in Hnd as [_ Hnd]. exact Hnd.
  - intros k Hk. rewrite (q_rd _ _ Q), <- (q_rd _ _ Q0). rewrite <- Hp in K.
    replace (p' + 8 + k) with (p' + (k + 8)) by lia. rewrite K by lia. f_equal. lia.
Qed.

(** A block that is large enough stays where it is. *)
Lemma ReAlloc_shrink st H h n req : rep st H -> H !! h = Some n -> 0 < req <= n -> req < 2 ^ 31 -> exists st', ReAlloc h req st = Some (h, st').
Proof.
  intros R0 Hh Hreq Hover. pose proof (rep_reset_last st H 0 R0) as R. unfold ReAlloc. set (st0 := set_pstHead _ st) in *.
  pose proof R as [(cs & bl & W0 & -> & U & N) Rm Rs]. pose proof (rep_allocs _ _ _ W0) as Hnd. apply heap_of_lookup in Hh as Hin; [|done].
  destruct (allocs_split _ _ _ _ Hin) as (A & c & B & -> & Hp & Hc & Hs). apply wf_open in W0 as W; [|done]. set (p := bottom st0 + total A) in *.
  assert (REQUEST_OUT_OF_RANGE req = false) as Hrange by (unfold REQUEST_OUT_OF_RANGE; apply Z.leb_gt; assert (2 ^ 31 < wrap 32 (- 2 * MINSIZE)) by done; lia).
  destruct (request_size req ltac:(lia) Hrange) as (Hv & Hrs & Hup). set (s := request2size req) in *.
  destruct (chunk_at _ _ _ _ _ W A c B eq_refl) as (H1 & _).
  destruct (bounds_at _ _ _ _ _ W A c B eq_refl) as (Hp8 & Hp24 & Hbot & Hpt & _ & Hsz & Hr24).
  destruct (tags_at _ _ _ _ _ W A c B eq_refl) as ([Hm8 [Hclo _]] & _).
  pose proof (check_inuse_ok _ _ _ _ _ W Hc) as Hchk. fold p in H1, Hp8, Hp24, Hbot, Hpt, Hsz, Hchk.
  destruct (mem2chunk_chunk2mem p) as [Em Ecm]. assert (h = chunk2mem p) as -> by lia.
  assert (s <= ts c) as Hle. { destruct Hv as [Hk _]. unfold mult8 in Hk, Hm8. apply Z.div_exact in Hk, Hm8; lia. }
  unfold inter_re_alloc, INVALID_HANDLE. fold (top st0) (bottom st0) s. rewrite Hrange, Em, H1.
  destruct (Z.eqb_spec (chunk2mem p) 0); [lia|]. destruct (Z.eqb_spec req 0); [lia|].
  destruct (Z.leb_spec (top st0) (chunk2mem p)); [unfold MINSIZE in *; lia|].
  destruct (Z.leb_spec (chunk2mem p) (bottom st0)); [lia|]. simpl.
  rewrite handle_at by lia. destruct (Z.ltb_spec (top st0) (p + ts c)); [lia|].
  rewrite aligned_mult8 by done. destruct (Z.ltb_spec (ts c) MINSIZE); [lia|]. rewrite Hchk. simpl.
  destruct (Z.leb_spec s (ts c)); [|lia].
  destruct (shrink_resized st0 A c B bl s W Hv ltac:(rewrite min_of_rep; apply Rm) Hle) as (cs' & bl' & s' & E & _). fold p in E.
  destruct (finish_re_alloc _ _ _ _ _ _) as [r1 r2]. simpl in E |- *. rewrite E. destruct (Z.eqb_spec (chunk2mem p) 0); [lia|]. simpl. eauto.
Qed.
