(* ===== verification/PtMallocTheorems.v ===== *)
(** * What the chunk allocator guarantees

    The properties of [PtMalloc] its clients rely on, stated for every segment
    that implements a heap ([rep]), and for every sequence of operations from
    a freshly formatted segment. *)

From S2P Require Import Prelude DList PtMalloc PtMallocInv PtMallocFree PtMallocAlloc PtMallocSpec.
From S2P Require Import PtMallocRealloc.

(** ** Runs of the allocator *)

(** The heaps a client can reach from a freshly formatted segment: it formats,
    allocates, frees and reallocates blocks it holds, and writes its blocks. *)
Inductive reach : PtMalloc -> heap -> Prop :=
| reach_init st tSz st' :
    MINSIZE <= minChunkSize st <= 2 ^ 30 -> tSz < 2 ^ 64 -> do_init tSz st = (0, st') -> reach st' ∅
| reach_malloc st H req h st' :
    reach st H -> 0 <= req < 2 ^ 32 -> Malloc req st = Some (h, st') -> h ≠ INVALID_HANDLE ->
    reach st' (<[h := chunk_size h st']> H)
| reach_malloc_fail st H req st' :
    reach st H -> 0 <= req < 2 ^ 32 -> Malloc req st = Some (INVALID_HANDLE, st') -> reach st' H
| reach_free st H h n r st' :
    reach st H -> H !! h = Some n -> Free h st = (r, st') -> reach st' (delete h H)
| reach_realloc st H h n req h' st' :
    reach st H -> H !! h = Some n -> 0 < req < 2 ^ 32 -> request2size req + minChunkSize st <= 2 ^ 32 ->
    ReAlloc h req st = Some (h', st') -> h' ≠ INVALID_HANDLE ->
    reach st' (<[h' := chunk_size h' st']> (delete h H))
| reach_write st H x v :
    reach st H -> in_heap H x -> reach (wr x v st) H.

Lemma reach_rep st H : reach st H -> rep st H.
Proof.
  induction 1 as [st tSz st' Hm Ht E|st H req h st' _ R Hreq E Hh|st H req st' _ R Hreq E
    |st H h n r st' _ R Hh E|st H h n req h' st' _ R Hh Hreq Hov E Hh'|st H x v _ R Hx].
  - by eapply do_init_rep.
  - destruct (Malloc_spec st H req R Hreq) as (h1 & st1 & E1 & _ & O). rewrite E1 in E. injection E as -> ->.
    destruct O as [[? _]|(n & _ & _ & _ & R')]; [done|].
    rewrite (chunk_size_spec _ _ h n R'); [done|by simplify_map_eq].
  - destruct (Malloc_spec st H req R Hreq) as (h1 & st1 & E1 & _ & O). rewrite E1 in E. injection E as -> ->.
    destruct O as [[_ [? _]]|(n & _ & ? & _)]; done.
  - destruct (Free_spec st H h n R Hh) as (st1 & E1 & R1 & _). rewrite E1 in E. by injection E as <- <-.
  - destruct (ReAlloc_spec st H h n req R Hh Hreq Hov) as (h1 & st1 & E1 & O). rewrite E1 in E. injection E as -> ->.
    destruct O as [[? _]|(n' & _ & _ & _ & R' & _)]; [done|].
    rewrite (chunk_size_spec _ _ h' n' R'); [done|by simplify_map_eq].
  - by apply rep_wr.
Qed.

(** ** A segment for the witnesses *)

Definition blank : PtMalloc :=
  mkPt (mkHead [] 0 0 0 0 0 0 0 0 0 0 0 0 ∅) ∅ ∅ empty_CBin ∅ 0 0 0 0 0 MINSIZE.

Definition demo0 : PtMalloc := (do_init 100000 blank).2.
Definition demo1 : PtMalloc := (default (0, demo0) (Malloc 100 demo0)).2.
Definition demo2 : PtMalloc := (default (0, demo1) (Malloc 600 demo1)).2.

#[global] Opaque demo0 demo1 demo2.

Lemma demo0_rep : rep demo0 ∅.
Proof. apply (do_init_rep blank 100000); [done|done|vm_compute; reflexivity]. Qed.

Lemma demo1_rep : rep demo1 {[8216 := 100]}.
Proof.
  destruct (Malloc_spec demo0 ∅ 100 demo0_rep ltac:(lia)) as (h & st & E & _ & O).
  assert (Malloc 100 demo0 = Some (8216, demo1)) as E' by (vm_compute; reflexivity).
  rewrite E' in E. apply (inj Some), pair_eq in E as [<- <-]. clear E'. destruct O as [[? _]|(n & _ & _ & _ & R)]; [done|].
  pose proof (chunk_size_spec _ _ 8216 n R ltac:(by simplify_map_eq)) as Hn.
  replace n with 100 in R by (rewrite <- Hn; vm_compute; reflexivity). done.
Qed.

Lemma demo2_rep : rep demo2 {[8320 := 604; 8216 := 100]}.
Proof.
  destruct (Malloc_spec demo1 _ 600 demo1_rep ltac:(lia)) as (h & st & E & _ & O).
  assert (Malloc 600 demo1 = Some (8320, demo2)) as E' by (vm_compute; reflexivity).
  rewrite E' in E. apply (inj Some), pair_eq in E as [<- <-]. clear E'. destruct O as [[? _]|(n & _ & _ & _ & R)]; [done|].
  pose proof (chunk_size_spec _ _ 8320 n R ltac:(by simplify_map_eq)) as Hn.
  replace n with 604 in R by (rewrite <- Hn; vm_compute; reflexivity). done.
Qed.

(** ** The consistency check *)

Lemma last_of_list_dseg st x l fuel : dseg (hPreChunk st) (hNextChunk st) 0 (x :: l) 0 -> 0 ∉ l ->
  (length l < fuel)%nat -> last_of_list fuel st x = Some (last_or x l).
Proof.
  generalize 0 at 1. revert x fuel. induction l as [|y l IH]; intros x fuel p (_ & Hn & Hd) Hz Hf;
    (destruct fuel as [|fuel]; [simpl in Hf; lia|]); cbn [last_of_list]; rewrite Hn; [done|].
  cbn. destruct (Z.eqb_spec y INVALID_HANDLE) as [->|]; [set_solver|].
  rewrite last_or_cons. apply (IH y fuel x); [done|set_solver|simpl in Hf; lia].
Qed.

(** A bin holds no more chunks than the segment has written words. *)
Lemma bin_length st cs bl i : wf st cs [] [] bl -> (length (bl i) <= size (cells st))%nat.
Proof.
  intros W. rewrite <- (length_map (fun h => h + 4)). set (l := map _ (bl i)).
  assert (NoDup l) as Hnd.
  { apply (NoDup_fmap_2_strong (fun h => h + 4)); [intros; lia|apply (bo_nodup _ _ (wf_bins _ _ _ _ _ W))]. }
  rewrite <- (size_list_to_set (C := gset Z)) by done. rewrite <- (size_dom (D := gset Z)).
  apply subseteq_size. intros x Hx. rewrite elem_of_list_to_set in Hx.
  apply list_elem_of_fmap in Hx as (h & -> & Hh).
  destruct (linked_chunk _ _ _ _ _ W h i Hh) as (c & Hc & _ & _ & [_ Hs] & _).
  apply addrs_elem in Hc as (X & Y & E & ->). destruct (tags_at _ _ _ _ _ W X c Y E) as (_ & Hw & _).
  apply elem_of_dom. destruct (cells st !! _) as [v|] eqn:Ev; [done|exfalso].
  unfold rd, cell in Hw. rewrite Ev in Hw. simpl in Hw. unfold word, MINSIZE in *.
  destruct (tp c); simpl in Hw; lia.
Qed.

Lemma check_one_bin_ok st cs bl i : wf st cs [] [] bl -> 0 <= i < NBINS ->
  check_one_bin st (Bin i) = Some true.
Proof.
  intros W Hi. pose proof (wf_bins _ _ _ _ _ W) as B. unfold check_one_bin.
  rewrite (bo_ends _ _ B i Hi). cbn [bin_hNextChunk bin_hPreChunk]. pose proof (zero_not_linked _ _ _ _ _ W i) as Hz.
  pose proof (bo_dseg _ _ B i Hi) as Hd. pose proof (bin_length _ _ _ i W) as Hl.
  destruct (bl i) as [|x l]; [done|]. change (first_or 0 (x :: l)) with x. cbn in Hl.
  destruct (Z.eqb_spec x INVALID_HANDLE) as [->|_]; [set_solver|].
  rewrite (last_of_list_dseg st x l); [|done|set_solver|lia]. cbn [mbind option_bind].
  by rewrite last_or_cons, Z.eqb_refl.
Qed.

Lemma check_bins_ok st bs code : (forall b, b ∈ bs -> check_one_bin st b = Some true) ->
  check_bins st bs code = Some 0.
Proof.
  induction bs as [|b bs IH]; intros Hb; cbn [check_bins]; [done|].
  rewrite (Hb b) by left. apply IH. intros b' ?. apply Hb. by right.
Qed.

Lemma check_empty st b : get_bin st b = empty_CBin -> check_one_bin st b = Some true.
Proof. unfold check_one_bin. by intros ->. Qed.

(** ** Accounting *)

Definition block_sum (H : heap) : Z := map_fold (fun _ n s => n + SIZE_SZ + s) 0 H.

Lemma heap_of_cons c L : heap_of (c :: L) = <[c.1 + 8 := c.2 - 4]> (heap_of L).
Proof. reflexivity. Qed.

Lemma block_sum_of L : NoDup L.*1 -> block_sum (heap_of L) = sizes L /\ size (heap_of L) = length L.
Proof.
  induction L as [|c L IH]; intros Hnd; [done|]. rewrite heap_of_cons.
  apply NoDup_cons in Hnd as [Hc Hnd]. destruct (IH Hnd) as [E1 E2].
  assert (heap_of L !! (c.1 + 8) = None) as Hn.
  { apply not_elem_of_list_to_map_1. intros Hin. apply Hc.
    apply list_elem_of_fmap in Hin as (b & Eb & Hb). apply list_elem_of_fmap in Hb as (d & -> & Hd).
    apply list_elem_of_fmap. exists d. split; [|done]. simpl in Eb. lia. }
  unfold block_sum. rewrite map_fold_insert_L; [|intros; lia|done].
  fold (block_sum (heap_of L)). rewrite E1, map_size_insert_None by done. rewrite E2. simpl. unfold SIZE_SZ. lia.
Qed.

(** ** Properties *)

(** C2: on a segment that holds the heap H, Malloc of any 32-bit size
    terminates.  Either it returns a fresh block of at least the requested
    size, disjoint from H by the invariant, and the segment then holds H with
    that block; or it returns INVALID_HANDLE, the segment still holds H, and
    the top had no room for the request.  The bytes of H are unchanged. *)
Theorem Malloc_refines st H req : rep st H -> 0 <= req < 2 ^ 32 ->
  exists h st', Malloc req st = Some (h, st')
  /\ (forall x, in_heap H x -> rd st' x = rd st x)
  /\ (h = INVALID_HANDLE /\ rep st' H /\ ~ top_has_room st req
      \/ exists n, req <= n /\ h ≠ INVALID_HANDLE /\ H !! h = None /\ rep st' (<[h := n]> H)).
Proof. apply Malloc_spec. Qed.

Lemma Malloc_refines_witness : exists h st', Malloc 600 demo1 = Some (h, st') /\ h = 8320
  /\ exists n, 600 <= n /\ rep st' (<[h := n]> {[8216 := 100]}).
Proof.
  destruct (Malloc_refines demo1 {[8216 := 100]} 600 demo1_rep ltac:(lia)) as (h & st' & E & _ & O).
  exists h, st'. split; [exact E|]. assert (h = 8320) as ->.
  { assert (fst <$> Malloc 600 demo1 = Some 8320) as E' by (vm_compute; reflexivity).
    rewrite E in E'. by injection E'. }
  split; [done|]. clear E. destruct O as [[? _]|(n & ? & _ & _ & ?)]; [done|]. by exists n.
Defined.

(** C3: freeing a block of the heap succeeds, removes exactly that block and
    leaves the bytes of every other block unchanged. *)
Theorem Free_refines st H h n : rep st H -> H !! h = Some n ->
  exists st', Free h st = (0, st') /\ rep st' (delete h H)
  /\ (forall x, in_heap (delete h H) x -> rd st' x = rd st x).
Proof. apply Free_spec. Qed.

Lemma Free_refines_witness : exists st', Free 8216 demo2 = (0, st') /\ rep st' (delete 8216 {[8320 := 604; 8216 := 100]}).
Proof.
  destruct (Free_refines demo2 _ 8216 100 demo2_rep) as (st' & E & R & _); [by vm_compute|]. exists st'. split; [exact E|exact R].
Defined.

(** C4: reallocating a block terminates.  On success the block is replaced by
    one of at least the requested size, the bytes both have in common carry
    over, and every other block keeps its bytes; on failure nothing changes.
    The bound on the request keeps the 32-bit sizes of merged chunks exact. *)
Theorem ReAlloc_refines st H h n req :
  rep st H -> H !! h = Some n -> 0 < req < 2 ^ 32 ->
  request2size req + minChunkSize st <= 2 ^ 32 ->
  exists h' st', ReAlloc h req st = Some (h', st')
  /\ ((h' = INVALID_HANDLE /\ rep st' H /\ forall x, in_heap H x -> rd st' x = rd st x)
     \/ exists n', req <= n' /\ h' ≠ INVALID_HANDLE /\ delete h H !! h' = None
        /\ rep st' (<[h' := n']> (delete h H))
        /\ (forall x, in_heap (delete h H) x -> rd st' x = rd st x)
        /\ (forall k, 0 <= k < Z.min n req -> rd st' (h' + k) = rd st (h + k))).
Proof. apply ReAlloc_spec. Qed.

Lemma ReAlloc_refines_witness : exists h st' n', ReAlloc 8216 5000 demo2 = Some (h, st') /\ 5000 <= n'
  /\ rep st' (<[h := n']> (delete 8216 {[8320 := 604; 8216 := 100]}))
  /\ (forall k, 0 <= k < Z.min 100 5000 -> rd st' (h + k) = rd demo2 (8216 + k)).
Proof.
  destruct (ReAlloc_refines demo2 _ 8216 100 5000 demo2_rep) as (h & st' & E & O); [by vm_compute|lia|by vm_compute|].
  destruct O as [[-> _]|(n' & Hn & _ & _ & R & _ & K)];
    [|exists h, st', n'; split_and!; [exact E|exact Hn|exact R|exact K]].
  assert (fst <$> ReAlloc 8216 5000 demo2 = Some 0 -> False) as E' by (vm_compute; discriminate).
  destruct E'. rewrite E. reflexivity.
Defined.

(** C5: every sequence of allocations, reallocations, frees and writes to held
    blocks, from a freshly formatted segment on, leaves a segment that holds
    exactly the blocks handed out, with the invariant of the boundary tags,
    the bins and the accounting. *)
Theorem allocator_invariant st H : reach st H -> rep st H.
Proof. apply reach_rep. Qed.

Lemma allocator_invariant_witness : exists st, rep st (delete 8216 (<[8216 := 100]> ∅)).
Proof.
  exists (Free 8216 demo1).2. apply allocator_invariant.
  apply (reach_free demo1 _ 8216 100 (Free 8216 demo1).1); [|by simplify_map_eq|by destruct (Free _ _)].
  change 100 with (chunk_size 8216 demo1). apply (reach_malloc demo0 ∅ 100); [|lia|by vm_compute|done].
  apply (reach_init blank 100000); [done|done|by vm_compute].
Defined.

(** Calloc behaves as Malloc and the requested bytes are zero. *)
Theorem Calloc_refines st H req : rep st H -> 0 <= req < 2 ^ 32 ->
  exists h st', Calloc req st = Some (h, st')
  /\ (forall x, in_heap H x -> rd st' x = rd st x)
  /\ (h = INVALID_HANDLE /\ rep st' H
      \/ exists n, req <= n /\ h ≠ INVALID_HANDLE /\ H !! h = None /\ rep st' (<[h := n]> H)
         /\ forall x, h <= x < h + req -> rd st' x = 0).
Proof. apply Calloc_spec. Qed.

Lemma Calloc_refines_witness : exists h st', Calloc 40 demo1 = Some (h, st')
  /\ (forall x, in_heap {[8216 := 100]} x -> rd st' x = rd demo1 x).
Proof.
  destruct (Calloc_refines demo1 _ 40 demo1_rep ltac:(lia)) as (h & st' & E & K & _).
  exists h, st'. split; [exact E|exact K].
Defined.

(** C33: the blocks of a heap are 8-aligned, lie between the head and the top of
    the segment, and two of them never overlap, not even with the 4 bytes of
    header between them. *)
Theorem blocks_laid_out st H h1 n1 : rep st H -> H !! h1 = Some n1 ->
  h1 mod 8 = 0 /\ bottom st + 8 <= h1 /\ h1 + n1 + 4 <= top st + 8
  /\ chunk_size h1 st = n1
  /\ forall h2 n2, H !! h2 = Some n2 -> h1 ≠ h2 -> h1 + n1 + 4 <= h2 \/ h2 + n2 + 4 <= h1.
Proof.
  intros R H1. destruct (rep_block _ _ _ _ R H1) as (? & _ & ? & ? & _).
  split_and!; try done; [by eapply chunk_size_spec|]. intros h2 n2 Hh2. by eapply rep_disjoint.
Qed.

Lemma blocks_laid_out_witness : 8216 mod 8 = 0 /\ (8216 + 100 + 4 <= 8320 \/ 8320 + 604 + 4 <= 8216).
Proof.
  destruct (blocks_laid_out demo2 _ 8216 100 demo2_rep ltac:(by vm_compute)) as (? & _ & _ & _ & D).
  split; [done|]. apply (D 8320 604); [by vm_compute|done].
Defined.

(** the usage counters are exact: user_alloc_size is the size of the head
    plus, for each block, its bytes and its 4 bytes of header. *)
Theorem accounting_exact st H : rep st H ->
  user_alloc_size st = bottom st + block_sum H
  /\ m_tUserAllocChunkCnt (m_pstHead st) = Z.of_nat (size H).
Proof.
  intros [(cs & bl & W & -> & U & N) _ _]. destruct (block_sum_of _ (rep_allocs _ _ _ W)) as [-> ->].
  unfold user_alloc_size. by rewrite U, N.
Qed.

Lemma accounting_exact_witness : user_alloc_size demo2 = bottom demo2 + block_sum {[8320 := 604; 8216 := 100]}.
Proof. apply (accounting_exact demo2 _ demo2_rep). Defined.

(** the consistency check check_bin accepts every segment that holds a heap
    and whose fast and unsorted bins are unused: each walk along a bin ends,
    at the last chunk the bin records. *)
Theorem check_bin_accepts st H : rep st H ->
  (forall i, get_bin st (FastBin i) = empty_CBin) -> get_bin st UnsortedBin = empty_CBin ->
  check_bin st = Some 0.
Proof.
  intros [(cs & bl & W & _) _ _] Hf Hu. unfold check_bin.
  rewrite (check_bins_ok st (map (fun i => Bin (Z.of_nat i)) _)).
  2:{ intros b (i & -> & Hi%elem_of_seq)%list_elem_of_fmap. eapply check_one_bin_ok; [done|unfold NBINS; lia]. }
  rewrite (check_bins_ok st (map (fun i => FastBin (Z.of_nat i)) _)).
  2:{ intros b (i & -> & _)%list_elem_of_fmap. by apply check_empty. }
  rewrite (check_bins_ok st [UnsortedBin]); [done|]. intros b ->%list_elem_of_singleton. by apply check_empty.
Qed.

Lemma check_bin_accepts_witness : check_bin demo2 = Some 0.
Proof.
  apply (check_bin_accepts demo2 _ demo2_rep); [|by vm_compute].
  intros i. change (get_bin demo2 (FastBin i)) with (default empty_CBin ((∅ : gmap Z CBin) !! i)).
  by rewrite lookup_empty.
Defined.
