(* ===== verification/MallocBase.v ===== *)
(** * The allocator interface

    [MallocBase] of src/core/mem/mallocator.h: the operations the cache uses
    from whatever allocator stands behind it, and what each of them promises
    in terms of an abstract heap of disjoint blocks.  The structures of the
    cache (node groups, indices, hash buckets, rows) are verified against this
    interface only; [PtMalloc] implements it. *)

From S2P Require Import Prelude PtMalloc PtMallocSpec PtMallocRealloc.

(** The virtual methods of [MallocBase].  [load] and [store] are the accesses
    through the pointers [Pointer<T>] hands out. *)
Class MallocBase (S : Type) := {
  m_Malloc : Z -> S -> option (Z * S);
  m_Calloc : Z -> S -> option (Z * S);
  m_ReAlloc : Z -> Z -> S -> option (Z * S);
  m_Free : Z -> S -> Z * S;
  m_chunk_size : Z -> S -> Z;
  m_ask_for_destroy_size : Z -> S -> Z;
  load : Z -> S -> Z;
  store : Z -> Z -> S -> S
}.

(** What an allocation promises: on failure the heap is the same, on success
    it has one more block; the bytes of the old blocks are unchanged. *)
Definition allocated {S} (load : Z -> S -> Z) (rep : S -> heap -> Prop)
    (req : Z) (st : S) (H : heap) (r : option (Z * S)) : Prop :=
  exists h st', r = Some (h, st')
  /\ (forall x, in_heap H x -> load x st' = load x st)
  /\ (h = INVALID_HANDLE /\ rep st' H
      \/ exists n, req <= n /\ h ≠ INVALID_HANDLE /\ H !! h = None /\ rep st' (<[h := n]> H)).

(** What a reallocation promises: on failure nothing changes, on success the
    block is replaced by one with the common bytes; the bytes of the other
    blocks are unchanged. *)
Definition reallocated {S} (load : Z -> S -> Z) (rep : S -> heap -> Prop)
    (req : Z) (st : S) (H : heap) (h n : Z) (r : option (Z * S)) : Prop :=
  exists h' st', r = Some (h', st')
  /\ (h' = INVALID_HANDLE /\ rep st' H /\ (forall x, in_heap H x -> load x st' = load x st)
      \/ exists n', req <= n' /\ h' ≠ INVALID_HANDLE /\ delete h H !! h' = None /\ rep st' (<[h' := n']> (delete h H))
         /\ (forall x, in_heap (delete h H) x -> load x st' = load x st)
         /\ forall k, 0 <= k < Z.min n req -> load (h' + k) st' = load (h + k) st).

(** The promises, for the states that implement a heap. *)
Class MallocLaws (S : Type) `{MallocBase S} := {
  m_rep : S -> heap -> Prop;
  m_rep_pos st H h n : m_rep st H -> H !! h = Some n -> 0 < h /\ 0 <= n < 2 ^ 32;
  m_rep_disjoint st H h1 n1 h2 n2 : m_rep st H -> H !! h1 = Some n1 -> H !! h2 = Some n2 ->
    h1 ≠ h2 -> h1 + n1 <= h2 \/ h2 + n2 <= h1;
  m_Malloc_ok st H req : m_rep st H -> 0 <= req < 2 ^ 32 ->
    allocated load m_rep req st H (m_Malloc req st);
  m_Calloc_ok st H req : m_rep st H -> 0 <= req < 2 ^ 32 ->
    allocated load m_rep req st H (m_Calloc req st);
  m_Free_ok st H h n : m_rep st H -> H !! h = Some n ->
    exists st', m_Free h st = (0, st') /\ m_rep st' (delete h H)
    /\ forall x, in_heap (delete h H) x -> load x st' = load x st;
  m_chunk_size_ok st H h n : m_rep st H -> H !! h = Some n -> m_chunk_size h st = n;
  m_ReAlloc_ok st H h n req : m_rep st H -> H !! h = Some n -> 0 < req < 2 ^ 31 ->
    reallocated load m_rep req st H h n (m_ReAlloc h req st);
  m_ReAlloc_shrink st H h n req : m_rep st H -> H !! h = Some n -> 0 < req <= n -> req < 2 ^ 31 -> exists st', m_ReAlloc h req st = Some (h, st');
  m_load_store st x v y : load x (store y v st) = if x =? y then v else load x st;
  m_store_ok st H x v : m_rep st H -> in_heap H x -> m_rep (store x v st) H
}.

#[export] Instance PtMalloc_base : MallocBase PtMalloc := {
  m_Malloc := Malloc;
  m_Calloc := Calloc;
  m_ReAlloc := ReAlloc;
  m_Free := Free;
  m_chunk_size := chunk_size;
  m_ask_for_destroy_size := ask_for_destroy_size;
  load := fun a st => rd st a;
  store := wr
}.

#[export] Program Instance PtMalloc_laws : MallocLaws PtMalloc := {
  m_rep := rep
}.
Next Obligation.
  intros st H h n R Hh. destruct (rep_block _ _ _ _ R Hh) as (_ & ? & ? & _).
  destruct R as [(cs & bl & W & _) _ _]. destruct (PtMallocInv.wf_bottom _ _ _ _ _ W). lia.
Qed.
Next Obligation. intros st H h1 n1 h2 n2 R H1 H2 Hne. destruct (rep_disjoint _ _ _ _ _ _ R H1 H2 Hne); lia. Qed.
Next Obligation.
  intros st H req R Hreq. destruct (Malloc_spec st H req R Hreq) as (h & st' & E & K & O).
  exists h, st'. split_and!; [done|done|]. destruct O as [(? & ? & _)|?]; tauto.
Qed.
Next Obligation.
  intros st H req R Hreq. destruct (Calloc_spec st H req R Hreq) as (h & st' & E & K & O).
  exists h, st'. split_and!; [done|done|]. destruct O as [?|(n & ? & ? & ? & ? & _)]; [tauto|]. right. by exists n.
Qed.
Next Obligation. intros st H h n R Hh. apply (Free_spec st H h n R Hh). Qed.
Next Obligation. apply chunk_size_spec. Qed.
Next Obligation.
  intros st H h n req R Hh Hreq. pose proof (rep_min _ _ R) as Hm.
  apply ReAlloc_spec; [done|done|lia|]. assert (request2size req <= req + 11 + MINSIZE); [|unfold MINSIZE in *; lia].
  unfold request2size. destruct (Z.ltb_spec (req + SIZE_SZ + MALLOC_ALIGN_MASK) MINSIZE); [lia|].
  change MALLOC_ALIGN_MASK with 7. destruct (PtMallocInv.ldiff7_mult8 (req + SIZE_SZ + 7)). unfold SIZE_SZ, MINSIZE in *. lia.
Qed.
Next Obligation. apply ReAlloc_shrink. Qed.
Next Obligation. intros st x v y. apply PtMallocInv.rd_wr. Qed.
Next Obligation. intros st H x v R Hx. by apply rep_wr. Qed.
