(* ===== verification/DtcHash.v ===== *)
(** * Keys and hash slots (src/core/algorithm/hash.h, src/libs/common/algorithm/new_hash.cc)

    A packed key is the memory at a key pointer: [key_size] bytes when the
    table has a fixed-size key, a length byte followed by that many bytes when
    it has not ([key_size] is 0).  The cache compares keys with [key_cmp] and
    finds their bucket with one of two hash functions, the second being the
    target of an on-line migration. *)

From S2P Require Import Prelude Jenkins.

(** ** new_hash.cc

    The text of [mix], of the loop and of the [switch] is that of da_chash.c;
    only the initial value of [c] differs ("HTTC"). *)
Definition new_hash (k : mem) (length : Z) : Z :=
  let len := wrap 32 length in
  let '((a, b, c), p, len) :=
    Chash.loop (Z.to_nat (len / 12)) k 0 len (0x9e3779b9, 0x9e3779b9, 0x48545443) in
  let c := c +% length in
  let '(a, b, c) := Chash.mix (Chash.last_bytes k p len (a, b, c)) in
  c.

(** ** hash.h *)

(** [size] and the advanced pointer: a variable-size key starts with its length. *)
Definition key_bytes (hh_fixedsize : Z) (key : mem) : Z * mem :=
  if hh_fixedsize =? 0 then (u8 (key 0), fun i => key (i + 1)) else (hh_fixedsize, key).

(** The cases of the [switch] on 1-, 2- and 4-byte keys. *)
Definition int_slot (hh_size size : Z) (key : mem) : option Z :=
  if size =? 1 then Some (u8 (key 0) mod hh_size)
  else if size =? 2 then Some (le16 (key 0) (key 1) mod hh_size)
  else if size =? 4 then Some (le32 (key 0) (key 1) (key 2) (key 3) mod hh_size)
  else None.

Definition new_hash_slot (hh_size hh_fixedsize : Z) (key : mem) : Z :=
  let '(size, key) := key_bytes hh_fixedsize key in
  match int_slot hh_size size key with
  | Some slot => slot
  | None => new_hash key size mod hh_size
  end.

(** One turn of the [while (key < arEnd)] loop. *)
Definition pjw_step (h c : Z) : Z :=
  let h := (h << 4) +% c in
  let g := Z.land h 0xF0000000 in
  if g =? 0 then h else (h ^^ (g >> 24)) ^^ g.

Fixpoint pjw_loop (n : nat) (key : mem) (i h : Z) : Z :=
  match n with
  | O => h
  | S n => pjw_loop n key (i + 1) (pjw_step h (s8 (key i)))
  end.

Definition hash_slot (hh_size hh_fixedsize : Z) (key : mem) : Z :=
  let '(size, key) := key_bytes hh_fixedsize key in
  match int_slot hh_size size key with
  | Some slot => slot
  | None => pjw_loop (Z.to_nat size) key 0 0 mod hh_size
  end.

(** ** key_cmp (buffer_pond.cc) *)

Fixpoint memcmp (n : nat) (a b : mem) (i : Z) : Z :=
  match n with
  | O => 0
  | S n => if u8 (a i) =? u8 (b i) then memcmp n a b (i + 1) else u8 (a i) - u8 (b i)
  end.

(** The bytes of a packed key. *)
Definition packed_len (key_size : Z) (key : mem) : Z :=
  if key_size =? 0 then u8 (key 0) + 1 else key_size.

Definition key_cmp (key_size : Z) (key other : mem) : Z :=
  memcmp (Z.to_nat (packed_len key_size key)) key other 0.

(** ** Facts *)

Section Facts.

Implicit Types (k : mem).

Lemma memcmp_same n a b i : memcmp n a b i = 0 <-> forall j, i <= j < i + Z.of_nat n -> a j = b j.
Proof.
  revert i. induction n as [|n IH]; intros i; cbn [memcmp]; [split; [lia|done]|].
  destruct (Z.eqb_spec (u8 (a i)) (u8 (b i))) as [E|E].
  - rewrite IH. split; intros Hj j Hr; [|apply Hj; lia].
    destruct (decide (j = i)) as [->|]; [by apply u8_inj|apply Hj; lia].
  - split; [lia|]. intros Hj. destruct E. by rewrite (Hj i) by lia.
Qed.

(** Keys compare equal exactly when all their bytes agree. *)
Lemma key_cmp_same ks k k' : 0 <= ks -> key_cmp ks k k' = 0 <-> same_key (packed_len ks k) k k'.
Proof.
  intros Hks. unfold key_cmp, same_key. rewrite memcmp_same.
  assert (0 <= packed_len ks k) by (unfold packed_len; pose proof (u8_range (k 0)); zcase; lia).
  rewrite Z2Nat.id by lia. by setoid_rewrite Z.add_0_l.
Qed.

Lemma packed_len_same ks k k' : 0 <= ks -> same_key (packed_len ks k) k k' ->
  packed_len ks k' = packed_len ks k.
Proof.
  unfold packed_len. intros Hks Hs. destruct (Z.eqb_spec ks 0); [|done]. by rewrite (Hs 0) by (pose proof (u8_range (k 0)); lia).
Qed.

Lemma key_cmp_refl ks k : 0 <= ks -> key_cmp ks k k = 0.
Proof. intros. by apply key_cmp_same. Qed.

Lemma key_cmp_sym ks k k' : 0 <= ks -> key_cmp ks k k' = 0 -> key_cmp ks k' k = 0.
Proof.
  intros Hks. rewrite !key_cmp_same by done. intros Hs i Hi.
  rewrite (packed_len_same ks k k') in Hi by done. symmetry. by apply Hs.
Qed.

Lemma key_cmp_trans ks k1 k2 k3 : 0 <= ks ->
  key_cmp ks k1 k2 = 0 -> key_cmp ks k2 k3 = 0 -> key_cmp ks k1 k3 = 0.
Proof.
  intros Hks. rewrite !key_cmp_same by done. intros H1 H2 i Hi.
  rewrite H1 by done. apply H2. by rewrite (packed_len_same ks k1 k2).
Qed.

Lemma new_hash_same n k k' : 0 <= n < 2 ^ 32 -> same_key n k k' -> new_hash k n = new_hash k' n.
Proof.
  intros Hn Hk. unfold new_hash. rewrite (wrap_small 32 n) by done.
  rewrite (ChashFacts.chash_loop_same n k k') by (done || lia).
  pose proof (ChashFacts.chash_loop_rest (Z.to_nat (n / 12)) k' 0 n
    (0x9e3779b9, 0x9e3779b9, 0x48545443) ltac:(lia) ltac:(zdm)) as Hr.
  destruct (Chash.loop _ _ _ _ _) as [[[[a b] c] p] len].
  by rewrite (ChashFacts.last_bytes_same n k k') by (done || lia).
Qed.

Lemma pjw_loop_same n k k' i h : (forall j, i <= j < i + Z.of_nat n -> k j = k' j) ->
  pjw_loop n k i h = pjw_loop n k' i h.
Proof.
  revert i h. induction n as [|n IH]; intros i h Hk; [done|]. cbn [pjw_loop].
  rewrite (Hk i) by lia. apply IH. intros j Hj. apply Hk. lia.
Qed.

(** The pointer and the length the hashes use. *)
Lemma key_bytes_same fs k k' : 0 <= fs -> same_key (packed_len fs k) k k' ->
  (key_bytes fs k').1 = (key_bytes fs k).1 /\ same_key (key_bytes fs k).1 (key_bytes fs k).2 (key_bytes fs k').2.
Proof.
  unfold key_bytes, packed_len. intros Hfs Hs. pose proof (u8_range (k 0)).
  destruct (Z.eqb_spec fs 0); simpl; [|by split]. split; [by rewrite (Hs 0) by lia|].
  intros i Hi. apply Hs. lia.
Qed.

Lemma key_bytes_range fs k : 0 <= fs < 2 ^ 32 -> 0 <= (key_bytes fs k).1 < 2 ^ 32.
Proof. intros. unfold key_bytes. pose proof (u8_range (k 0)). zcase; simpl; lia. Qed.

Lemma int_slot_same n size k k' : same_key size k k' -> int_slot n size k = int_slot n size k'.
Proof. intros Hk. unfold int_slot. zcase; try done; by rewrite !Hk by lia. Qed.

(** Equal keys have the same slot, under either hash function. *)
Lemma slots_same n fs k k' : 0 <= fs < 2 ^ 32 -> key_cmp fs k k' = 0 ->
  hash_slot n fs k = hash_slot n fs k' /\ new_hash_slot n fs k = new_hash_slot n fs k'.
Proof.
  intros Hfs Hc. apply key_cmp_same in Hc; [|lia].
  destruct (key_bytes_same fs k k' ltac:(lia) Hc) as [E Hs]. pose proof (key_bytes_range fs k Hfs).
  unfold hash_slot, new_hash_slot. destruct (key_bytes fs k) as [size q], (key_bytes fs k') as [size' q'].
  simpl in *. subst size'. rewrite (int_slot_same _ _ q q') by done.
  rewrite (pjw_loop_same _ q q'); [|intros j Hj; apply Hs; lia]. by rewrite (new_hash_same size q q').
Qed.

Lemma slots_range n fs k : 0 < n -> 0 <= hash_slot n fs k < n /\ 0 <= new_hash_slot n fs k < n.
Proof.
  intros Hn. unfold hash_slot, new_hash_slot. destruct (key_bytes fs k) as [size q]. unfold int_slot.
  zcase; split; apply Z.mod_pos_bound; done.
Qed.

(** The loop of [hash_slot] keeps the top four bits of [h] clear. *)
Lemma pjw_step_width h c : in_width 28 (pjw_step h c).
Proof.
  unfold pjw_step. set (x := (h << 4) +% c). assert (in_width 32 x) as Hx by (apply wrap_range; lia).
  assert (forall i, 0 <= i -> Z.testbit 0xF0000000 i = (28 <=? i) && (i <? 32)) as Hm.
  { intros i Hi. change 0xF0000000 with (Z.shiftl (Z.ones 4) 28).
    rewrite Z.shiftl_spec by lia. rewrite Z.testbit_ones by lia. zcase; simpl; lia. }
  apply in_width_bits; [lia|]. apply in_width_bits in Hx as [Hx0 Hx]; [|lia].
  destruct (Z.eqb_spec (Z.land x 0xF0000000) 0) as [Hg|Hg].
  - split; [done|]. intros i Hi. destruct (Z.lt_ge_cases i 32) as [Hlt|]; [|by apply Hx].
    assert (Z.testbit (Z.land x 0xF0000000) i = false) as Ht by (rewrite Hg; apply Z.testbit_0_l).
    rewrite Z.land_spec, Hm in Ht by lia. destruct (Z.leb_spec 28 i), (Z.ltb_spec i 32); try lia.
    by rewrite andb_true_r in Ht.
  - split; [rewrite !Z.lxor_nonneg; assert (0 <= Z.land x 0xF0000000) by (apply Z.land_nonneg; lia);
      assert (0 <= Z.shiftr (Z.land x 0xF0000000) 24) by (by apply Z.shiftr_nonneg); tauto|].
    intros i Hi. rewrite !Z.lxor_spec, Z.shiftr_spec, !Z.land_spec, !Hm by lia.
    destruct (Z.leb_spec 28 i), (Z.leb_spec 28 (i + 24)), (Z.ltb_spec (i + 24) 32), (Z.ltb_spec i 32); try lia;
      simpl; rewrite ?andb_false_r, ?andb_true_r, ?xorb_false_r, ?xorb_nilpotent; try done. by apply Hx.
Qed.

End Facts.
