(* ===== verification/Node.v ===== *)
(** * Node groups, the node index and the LRU lists (src/core/node, src/core/nodegroup)

    The cache hands out nodes in groups of 256 ([NODE_SET]).  A node is the
    pair of its group and its index in it; links between nodes are 32-bit node
    ids, resolved through a two-level index.  Nodes carry the hash link, the
    LRU links, the handle of their data and a dirty bit.

    The structures live in the memory of an allocator of class [MallocBase]:
    [M_CALLOC] and [M_FREE] are its methods, a handle is what they return, and
    what a block holds is kept as a typed object under its handle.  Following a
    null or foreign pointer has no result ([None]). *)

From S2P Require Import Prelude PtMalloc MallocBase.

(** ** global.h *)

Definition INVALID_NODE_ID : Z := 0xFFFFFFFF.
Definition SYS_MIN_NODE_ID : Z := 0.
Definition SYS_DIRTY_NODE_INDEX : Z := 0.
Definition SYS_CLEAN_NODE_INDEX : Z := 1.
Definition SYS_EMPTY_NODE_INDEX : Z := 2.
Definition NODE_GROUP_INCLUDE_NODES : Z := 256.
Definition DTC_CODE_FAILED : Z := -1.
Definition DTC_CODE_SUCCESS : Z := 0.

(** ** Arrays of the structures; a fresh block is zeroed *)

Definition aget (a : gmap Z Z) (i : Z) : Z := default 0 (a !! i).
Definition aset (i v : Z) (a : gmap Z Z) : gmap Z Z := <[i := v]> a.

(** ** Data *)

Record NG_LIST_T := mkNgList { lst_prev : Z; lst_next : Z }.

(** The header of a node group; its attribute arrays are the entries of
    [attrs] under its handle. *)
Record NODE_SET := mkNodeSet {
  ng_list : NG_LIST_T;
  dele_top : Z;      (* ng_dele.top *)
  dele_count : Z;    (* ng_dele.count *)
  ng_free : Z;
  ng_nid : Z
}.

(** A [Node]: owner and index; the owner of [Node()] is null. *)
Definition Node : Type := Z * Z.
Definition NullNode : Node := (INVALID_HANDLE, 0).

Record NodeAttr := mkAttr {
  a_next : Z;        (* NEXT_NODE *)
  a_prev : Z;        (* TIME_LIST, LRU_PREV *)
  a_lnext : Z;       (* TIME_LIST, LRU_NEXT *)
  a_vd : Z;          (* VD_HANDLE *)
  a_dirty : bool     (* DIRTY_BMP *)
}.

Record SECOND_INDEX_T := mkSecond { si_used : Z; si_h : gmap Z Z }.

Record NodeIndex := mkIndex {
  firstIndex : Z;                          (* handle of _firstIndex, 0 when null *)
  fi_h : gmap Z Z;
  seconds : gmap Z SECOND_INDEX_T
}.

Record NG_INFO_T := mkNgInfoT {
  ni_free_head : NG_LIST_T;
  ni_full_head : NG_LIST_T;
  ni_min_id : Z;
  ni_sys_zone : Z;
  ni_used_ng : Z;
  ni_used_node : Z;
  ni_dirty_node : Z;
  ni_used_row : Z;
  ni_dirty_row : Z
}.

Inductive StartupMode := CREATED | ATTACHED | UPGRADED.

Record NGInfo := mkNGInfo {
  nodegroup_info_ : Z;                     (* handle, 0 when null *)
  ni : NG_INFO_T;
  sets : gmap Z NODE_SET;
  attrs : gmap Node NodeAttr;
  step : Z;                                (* the statics of allocate_node *)
  fail : bool;
  empty_node_count : Z;
  empty_startup_mode : StartupMode
}.

(** The memory with the two components of this file; [X] is the state of the
    components built on them. *)
Record Cache (S X : Type) := mkCache {
  alloc : S;
  node_index : NodeIndex;
  node_group : NGInfo;
  rest : X
}.
Arguments mkCache {S X}.
Arguments alloc {S X}.
Arguments node_index {S X}.
Arguments node_group {S X}.
Arguments rest {S X}.

(** ** Programs *)

Definition prog (S X A : Type) : Type := Cache S X -> option (A * Cache S X).

#[export] Instance prog_ret {S X} : MRet (prog S X) := fun A a c => Some (a, c).
#[export] Instance prog_bind {S X} : MBind (prog S X) :=
  fun A B f m c => match m c with Some (a, c') => f a c' | None => None end.

Section Programs.

Context {S X : Type} `{MallocBase S}.

Abbreviation P := (prog S X).

Definition crash {A} : P A := fun _ => None.
Definition gets {A} (f : Cache S X -> A) : P A := fun c => Some (f c, c).
Definition lift {A} (o : option A) : P A := fun c => a ← o; Some (a, c).
Definition modify (f : Cache S X -> Cache S X) : P unit := fun c => Some (tt, f c).

Definition set_alloc (s : S) (c : Cache S X) : Cache S X :=
  mkCache s (node_index c) (node_group c) (rest c).
Definition on_index (f : NodeIndex -> NodeIndex) (c : Cache S X) : Cache S X :=
  mkCache (alloc c) (f (node_index c)) (node_group c) (rest c).
Definition on_group (f : NGInfo -> NGInfo) (c : Cache S X) : Cache S X :=
  mkCache (alloc c) (node_index c) (f (node_group c)) (rest c).
Definition on_rest (f : X -> X) (c : Cache S X) : Cache S X :=
  mkCache (alloc c) (node_index c) (node_group c) (f (rest c)).

Definition M_CALLOC (n : Z) : P Z :=
  fun c => '(h, s) ← m_Calloc (wrap 32 n) (alloc c); Some (h, set_alloc s c).
Definition M_FREE (h : Z) : P Z :=
  fun c => let '(r, s) := m_Free h (alloc c) in Some (r, set_alloc s c).

(** A pointer is followed only when it is not null. *)
Definition not_null (p : Z) : P unit := if p =? INVALID_HANDLE then crash else mret tt.

End Programs.

(** ** The fields of the structures *)

Section Fields.

Context {S X : Type}.

Abbreviation P := (prog S X).

Definition on_ni (f : NG_INFO_T -> NG_INFO_T) (g : NGInfo) : NGInfo :=
  mkNGInfo (nodegroup_info_ g) (f (ni g)) (sets g) (attrs g) (step g) (fail g)
    (empty_node_count g) (empty_startup_mode g).
Definition on_sets (f : gmap Z NODE_SET -> gmap Z NODE_SET) (g : NGInfo) : NGInfo :=
  mkNGInfo (nodegroup_info_ g) (ni g) (f (sets g)) (attrs g) (step g) (fail g)
    (empty_node_count g) (empty_startup_mode g).
Definition on_attrs (f : gmap Node NodeAttr -> gmap Node NodeAttr) (g : NGInfo) : NGInfo :=
  mkNGInfo (nodegroup_info_ g) (ni g) (sets g) (f (attrs g)) (step g) (fail g)
    (empty_node_count g) (empty_startup_mode g).
Definition set_statics (s : Z) (b : bool) (g : NGInfo) : NGInfo :=
  mkNGInfo (nodegroup_info_ g) (ni g) (sets g) (attrs g) s b
    (empty_node_count g) (empty_startup_mode g).
Definition set_empty_count (v : Z) (g : NGInfo) : NGInfo :=
  mkNGInfo (nodegroup_info_ g) (ni g) (sets g) (attrs g) (step g) (fail g)
    v (empty_startup_mode g).
Definition set_startup (m : StartupMode) (g : NGInfo) : NGInfo :=
  mkNGInfo (nodegroup_info_ g) (ni g) (sets g) (attrs g) (step g) (fail g)
    (empty_node_count g) m.
Definition set_info (h : Z) (i : NG_INFO_T) (g : NGInfo) : NGInfo :=
  mkNGInfo h i (sets g) (attrs g) (step g) (fail g) (empty_node_count g) (empty_startup_mode g).

Definition set_heads (a b : NG_LIST_T) (i : NG_INFO_T) : NG_INFO_T :=
  mkNgInfoT a b (ni_min_id i) (ni_sys_zone i) (ni_used_ng i) (ni_used_node i)
    (ni_dirty_node i) (ni_used_row i) (ni_dirty_row i).
Definition set_min_id (v : Z) (i : NG_INFO_T) : NG_INFO_T :=
  mkNgInfoT (ni_free_head i) (ni_full_head i) v (ni_sys_zone i) (ni_used_ng i) (ni_used_node i)
    (ni_dirty_node i) (ni_used_row i) (ni_dirty_row i).
Definition set_sys_zone (v : Z) (i : NG_INFO_T) : NG_INFO_T :=
  mkNgInfoT (ni_free_head i) (ni_full_head i) (ni_min_id i) v (ni_used_ng i) (ni_used_node i)
    (ni_dirty_node i) (ni_used_row i) (ni_dirty_row i).
Definition set_used_ng (v : Z) (i : NG_INFO_T) : NG_INFO_T :=
  mkNgInfoT (ni_free_head i) (ni_full_head i) (ni_min_id i) (ni_sys_zone i) v (ni_used_node i)
    (ni_dirty_node i) (ni_used_row i) (ni_dirty_row i).
Definition set_used_node (v : Z) (i : NG_INFO_T) : NG_INFO_T :=
  mkNgInfoT (ni_free_head i) (ni_full_head i) (ni_min_id i) (ni_sys_zone i) (ni_used_ng i) v
    (ni_dirty_node i) (ni_used_row i) (ni_dirty_row i).
Definition set_counts (dirty used_row dirty_row : Z) (i : NG_INFO_T) : NG_INFO_T :=
  mkNgInfoT (ni_free_head i) (ni_full_head i) (ni_min_id i) (ni_sys_zone i) (ni_used_ng i)
    (ni_used_node i) dirty used_row dirty_row.

Definition set_list (l : NG_LIST_T) (s : NODE_SET) : NODE_SET :=
  mkNodeSet l (dele_top s) (dele_count s) (ng_free s) (ng_nid s).
Definition set_dele (top count : Z) (s : NODE_SET) : NODE_SET :=
  mkNodeSet (ng_list s) top count (ng_free s) (ng_nid s).
Definition set_free (v : Z) (s : NODE_SET) : NODE_SET :=
  mkNodeSet (ng_list s) (dele_top s) (dele_count s) v (ng_nid s).

Definition set_next (v : Z) (a : NodeAttr) : NodeAttr := mkAttr v (a_prev a) (a_lnext a) (a_vd a) (a_dirty a).
Definition set_prev (v : Z) (a : NodeAttr) : NodeAttr := mkAttr (a_next a) v (a_lnext a) (a_vd a) (a_dirty a).
Definition set_lnext (v : Z) (a : NodeAttr) : NodeAttr := mkAttr (a_next a) (a_prev a) v (a_vd a) (a_dirty a).
Definition set_vd (v : Z) (a : NodeAttr) : NodeAttr := mkAttr (a_next a) (a_prev a) (a_lnext a) v (a_dirty a).
Definition set_dirty_bit (b : bool) (a : NodeAttr) : NodeAttr := mkAttr (a_next a) (a_prev a) (a_lnext a) (a_vd a) b.

Definition get_set (h : Z) : P NODE_SET := fun c => s ← sets (node_group c) !! h; Some (s, c).
Definition put_set (h : Z) (s : NODE_SET) : P unit := modify (on_group (on_sets (<[h := s]>))).
Definition get_attr (n : Node) : P NodeAttr := fun c => a ← attrs (node_group c) !! n; Some (a, c).
Definition put_attr (n : Node) (a : NodeAttr) : P unit := modify (on_group (on_attrs (<[n := a]>))).
Definition upd_attr (n : Node) (f : NodeAttr -> NodeAttr) : P unit := a ← get_attr n; put_attr n (f a).

End Fields.

Section Operations.

Context {S X : Type} `{MallocBase S}.

Abbreviation P := (prog S X).

(** ** node.h *)

Definition lru_prev (n : Node) : P Z := a ← get_attr n; mret (a_prev a).
Definition lru_next (n : Node) : P Z := a ← get_attr n; mret (a_lnext a).
Definition next_node_id (n : Node) : P Z := a ← get_attr n; mret (a_next a).
Definition vd_handle (n : Node) : P Z := a ← get_attr n; mret (a_vd a).
Definition is_dirty (n : Node) : P bool := a ← get_attr n; mret (a_dirty a).
Definition set_dirty (n : Node) : P unit := upd_attr n (set_dirty_bit true).
Definition clr_dirty (n : Node) : P unit := upd_attr n (set_dirty_bit false).

Definition node_id (n : Node) : P Z := s ← get_set n.1; mret (wrap 32 (ng_nid s + n.2)).

(** [Time()]: the handle field of a time marker. *)
Definition Time (n : Node) : P Z := v ← vd_handle n; mret (wrap 32 v).

(** [operator!] *)
Definition is_null (n : Node) : bool := (n.1 =? INVALID_HANDLE) || (NODE_GROUP_INCLUDE_NODES <=? n.2).

(** [operator==] *)
Definition node_eq (n m : Node) : bool := (n.1 =? m.1) && (n.2 =? m.2).

Definition not_in_lru_list (n : Node) : P bool :=
  p ← lru_prev n; i ← node_id n; q ← lru_next n; mret ((p =? i) || (q =? i)).

Definition Reset (n : Node) : P unit :=
  upd_attr n (set_next INVALID_NODE_ID);;
  i ← node_id n;
  upd_attr n (set_prev i);;
  upd_attr n (set_lnext i);;
  clr_dirty n.

(** ** node_set.cc *)

(** [NODE_SET::release_node] *)
Definition set_release_node (n : Node) : P unit :=
  s ← get_set n.1;
  upd_attr n (set_vd (dele_top s));;
  put_set n.1 (set_dele (wrap 16 n.2) (wrap 16 (dele_count s + 1)) s).

Definition Release (n : Node) : P Z :=
  set_release_node n;;
  Reset n;;
  mret 0.

Definition is_full (s : NODE_SET) : bool := (dele_count s =? 0) && (NODE_GROUP_INCLUDE_NODES <=? ng_free s).

(** [NODE_SET::allocate_node] on the group at [h]: released nodes first. *)
Definition set_allocate_node (h : Z) : P Node :=
  s ← get_set h;
  if is_full s then mret NullNode
  else if 0 <? dele_count s then
    let n := (h, dele_top s) in
    Reset n;;
    v ← vd_handle n;
    put_set h (set_dele (wrap 8 v) (wrap 16 (dele_count s - 1)) s);;
    mret n
  else
    let n := (h, ng_free s) in
    Reset n;;
    put_set h (set_free (wrap 16 (ng_free s + 1)) s);;
    mret n.

(** The attributes of the node at index [i] of the group with first id [id]. *)
Definition fresh_attr (id i : Z) : NodeAttr :=
  mkAttr INVALID_NODE_ID (wrap 32 (id + i)) (wrap 32 (id + i)) INVALID_HANDLE false.

Definition init_attrs (h id : Z) (m : gmap Node NodeAttr) : gmap Node NodeAttr :=
  fold_right (fun i m => <[(h, Z.of_nat i) := fresh_attr id (Z.of_nat i)]> m) m (seq 0 256).

(** [NODE_SET::do_init] on the block at [h]. *)
Definition set_do_init (h id : Z) : P unit :=
  put_set h (mkNodeSet (mkNgList INVALID_HANDLE INVALID_HANDLE) 0 0 0 id);;
  modify (on_group (on_attrs (init_attrs h id))).

(** *** Layout of a group *)

Definition sizeof_NODE_ID_T : Z := 4.
Definition sizeof_MEM_HANDLE_T : Z := 8.

Definition NG_ATTR_SIZE : list Z :=
  [NODE_GROUP_INCLUDE_NODES * sizeof_NODE_ID_T;
   NODE_GROUP_INCLUDE_NODES * sizeof_NODE_ID_T * 2;
   NODE_GROUP_INCLUDE_NODES * sizeof_MEM_HANDLE_T;
   NODE_GROUP_INCLUDE_NODES / 8].

Definition attr_count : Z := Z.of_nat (length NG_ATTR_SIZE).

(** [OFFSETOF(NODE_SET, ng_attr)] is 28: two handles, four 16-bit fields and a
    node id precede it. *)
Definition base_header_size : Z := 28 + 4 + 4 * attr_count.

Definition attr_size : Z := fold_right Z.add 0 NG_ATTR_SIZE.

Definition NODE_SET_Size : Z := base_header_size + attr_size.

(** [ng_attr.offset[t]] as [do_init] computes it. *)
Definition attr_offset (t : nat) : Z := base_header_size + fold_right Z.add 0 (take t NG_ATTR_SIZE).

(** ** node_index.cc *)

Definition INDEX_1_SIZE : Z := 2 ^ 8 * sizeof_MEM_HANDLE_T + 8.
Definition INDEX_2_SIZE : Z := 2 ^ 16 * sizeof_MEM_HANDLE_T + 8.

Definition OFFSET1 (id : Z) : Z := Z.shiftr id 24.
Definition OFFSET2 (id : Z) : Z := Z.shiftr (Z.land id 0xFFFF00) 8.

Definition set_fi (i v : Z) (x : NodeIndex) : NodeIndex := mkIndex (firstIndex x) (aset i v (fi_h x)) (seconds x).
Definition put_second (h : Z) (s : SECOND_INDEX_T) (x : NodeIndex) : NodeIndex :=
  mkIndex (firstIndex x) (fi_h x) (<[h := s]> (seconds x)).

(** [fi_h[i] = M_CALLOC(INDEX_2_SIZE)]; false when the allocation failed. *)
Definition new_second (i : Z) : P bool :=
  h ← M_CALLOC INDEX_2_SIZE;
  modify (on_index (set_fi i h));;
  if h =? INVALID_HANDLE then mret false
  else modify (on_index (put_second h (mkSecond 0 ∅)));; mret true.

Definition get_fi (i : Z) : P Z :=
  x ← gets node_index; not_null (firstIndex x);; mret (aget (fi_h x) i).

Definition get_second (h : Z) : P SECOND_INDEX_T :=
  x ← gets node_index; lift (seconds x !! h).

Fixpoint pre_allocate (k : nat) (i : Z) : P Z :=
  match k with
  | O => mret DTC_CODE_SUCCESS
  | Datatypes.S k =>
      ok ← new_second i;
      if (ok : bool) then pre_allocate k (i + 1) else mret DTC_CODE_FAILED
  end.

Definition pre_allocate_index (mem_size : Z) : P Z :=
  let n := wrap 32 (mem_size / (65536 * 256 * 44) + 1) in
  let n := if 256 <? n then 256 else n in
  x ← gets node_index; not_null (firstIndex x);;
  pre_allocate (Z.to_nat n) 0.

(** [I_INSERT] *)
Definition do_insert (n : Node) : P Z :=
  id ← node_id n;
  h ← get_fi (OFFSET1 id);
  ok ← (if h =? INVALID_HANDLE then new_second (OFFSET1 id) else mret true);
  if negb ok then mret DTC_CODE_FAILED
  else
    h ← get_fi (OFFSET1 id);
    p ← get_second h;
    modify (on_index (put_second h (mkSecond (wrap 32 (si_used p + 1)) (aset (OFFSET2 id) n.1 (si_h p)))));;
    mret DTC_CODE_SUCCESS.

(** [I_SEARCH] *)
Definition do_search (id : Z) : P Node :=
  if id =? INVALID_NODE_ID then mret NullNode
  else
    h ← get_fi (OFFSET1 id);
    if h =? INVALID_HANDLE then mret NullNode
    else
      p ← get_second h;
      let o := aget (si_h p) (OFFSET2 id) in
      if o =? INVALID_HANDLE then mret NullNode
      else
        s ← get_set o;
        let index := sext 32 (wrap 32 (id - ng_nid s)) in
        if (index <? 0) || (255 <? index) then mret NullNode
        else mret (o, index).

Definition from_id (id : Z) : P Node := do_search id.

(** [NodeIndex::do_init] *)
Definition index_do_init (mem_size : Z) : P Z :=
  v ← M_CALLOC INDEX_1_SIZE;
  if v =? INVALID_HANDLE then mret DTC_CODE_FAILED
  else
    modify (on_index (fun x => mkIndex v ∅ (seconds x)));;
    pre_allocate_index mem_size.

(** ** node_list.h *)

Definition Next (n : Node) : P Node := i ← lru_next n; from_id i.
Definition Prev (n : Node) : P Node := i ← lru_prev n; from_id i.

Definition INIT_NODE_LIST_HEAD (n : Node) (id : Z) : P unit :=
  upd_attr n (set_prev id);; upd_attr n (set_lnext id).

Definition __NODE_LIST_ADD (p prev next : Node) : P unit :=
  ip ← node_id p; upd_attr next (set_prev ip);;
  inx ← node_id next; upd_attr p (set_lnext inx);;
  ipr ← node_id prev; upd_attr p (set_prev ipr);;
  upd_attr prev (set_lnext ip).

Definition NODE_LIST_ADD (p head : Node) : P unit :=
  nx ← Next head; __NODE_LIST_ADD p head nx.

Definition NODE_LIST_ADD_TAIL (p head : Node) : P unit :=
  pv ← Prev head; __NODE_LIST_ADD p pv head.

Definition __NODE_LIST_DEL (prev next : Node) : P unit :=
  ipr ← node_id prev; upd_attr next (set_prev ipr);;
  inx ← node_id next; upd_attr prev (set_lnext inx).

Definition NODE_LIST_DEL (p : Node) : P unit :=
  pv ← Prev p; nx ← Next p; __NODE_LIST_DEL pv nx;;
  i ← node_id p;
  upd_attr p (set_prev i);; upd_attr p (set_lnext i).

Definition NODE_LIST_MOVE (p head : Node) : P unit :=
  pv ← Prev p; nx ← Next p; __NODE_LIST_DEL pv nx;; NODE_LIST_ADD p head.

Definition NODE_LIST_MOVE_TAIL (p head : Node) : P unit :=
  pv ← Prev p; nx ← Next p; __NODE_LIST_DEL pv nx;; NODE_LIST_ADD_TAIL p head.

Definition NODE_LIST_EMPTY (head : Node) : P bool :=
  i ← lru_next head; j ← node_id head; mret (i =? j).

End Operations.

Section Groups.

Context {S X : Type} `{MallocBase S}.

Abbreviation P := (prog S X).

(** ** node_set.cc, the group reserved for the list heads *)

Definition system_reserved_init (h : Z) : P Z :=
  dirtyNode ← set_allocate_node h;
  if is_null dirtyNode then mret (-2) else
  cleanNode ← set_allocate_node h;
  if is_null cleanNode then mret (-3) else
  emptyNode ← set_allocate_node h;
  if is_null emptyNode then mret (-3) else
  i ← node_id dirtyNode; INIT_NODE_LIST_HEAD dirtyNode i;;
  i ← node_id cleanNode; INIT_NODE_LIST_HEAD cleanNode i;;
  i ← node_id emptyNode; INIT_NODE_LIST_HEAD emptyNode i;;
  do_insert dirtyNode;; do_insert cleanNode;; do_insert emptyNode;;
  mret 0.

Definition system_reserved_check (h : Z) : P Z :=
  s ← get_set h;
  if ng_free s <? 2 then mret (-10)
  else if negb (3 <=? ng_free s) then
    emptyNode ← set_allocate_node h;
    if is_null emptyNode then mret (-3) else
    i ← node_id emptyNode; INIT_NODE_LIST_HEAD emptyNode i;;
    do_insert emptyNode;;
    mret 1
  else mret 0.

(** ** ng_list.h

    A list cell is the [ng_list] at the start of a group, or one of the two
    heads in [NG_INFO_T], at offsets 0 and 16. *)

Definition sizeof_NG_LIST_T : Z := 16.

(** [nodegroup_info_->...] *)
Definition info : P NGInfo := g ← gets node_group; not_null (nodegroup_info_ g);; mret g.
Definition upd_info (f : NG_INFO_T -> NG_INFO_T) : P unit := info;; modify (on_group (on_ni f)).

Definition free_head : P Z := g ← gets node_group; mret (nodegroup_info_ g).
Definition full_head : P Z := g ← gets node_group; mret (nodegroup_info_ g + sizeof_NG_LIST_T).

Definition get_cell (p : Z) : P NG_LIST_T :=
  g ← gets node_group;
  not_null p;;
  if p =? nodegroup_info_ g then mret (ni_free_head (ni g))
  else if p =? nodegroup_info_ g + sizeof_NG_LIST_T then mret (ni_full_head (ni g))
  else s ← get_set p; mret (ng_list s).

Definition put_cell (p : Z) (l : NG_LIST_T) : P unit :=
  g ← gets node_group;
  not_null p;;
  if p =? nodegroup_info_ g then modify (on_group (on_ni (fun i => set_heads l (ni_full_head i) i)))
  else if p =? nodegroup_info_ g + sizeof_NG_LIST_T
  then modify (on_group (on_ni (fun i => set_heads (ni_free_head i) l i)))
  else s ← get_set p; put_set p (set_list l s).

Definition set_cell_prev (p v : Z) : P unit := l ← get_cell p; put_cell p (mkNgList v (lst_next l)).
Definition set_cell_next (p v : Z) : P unit := l ← get_cell p; put_cell p (mkNgList (lst_prev l) v).

Definition INIT_NG_LIST_HEAD (p : Z) : P unit := set_cell_prev p p;; set_cell_next p p.

Definition __NG_LIST_ADD (p prev next : Z) : P unit :=
  set_cell_prev next p;; set_cell_next p next;; set_cell_prev p prev;; set_cell_next prev p.

Definition NG_LIST_ADD (p head : Z) : P unit :=
  l ← get_cell head; __NG_LIST_ADD p head (lst_next l).

Definition NG_LIST_ADD_TAIL (p head : Z) : P unit :=
  l ← get_cell head; __NG_LIST_ADD p (lst_prev l) head.

Definition __NG_LIST_DEL (prev next : Z) : P unit :=
  set_cell_prev next prev;; set_cell_next prev next.

Definition NG_LIST_DEL (p : Z) : P unit :=
  l ← get_cell p;
  __NG_LIST_DEL (lst_prev l) (lst_next l);;
  set_cell_next p INVALID_HANDLE;; set_cell_prev p INVALID_HANDLE.

Definition NG_LIST_EMPTY (head : Z) : P bool := l ← get_cell head; mret (lst_next l =? head).

(** ** ng_info.cc *)

Definition list_del (ns : Z) : P unit := NG_LIST_DEL ns.
Definition free_list_add (ns : Z) : P unit := head ← free_head; NG_LIST_ADD ns head.
Definition full_list_add (ns : Z) : P unit := head ← full_head; NG_LIST_ADD ns head.
Definition free_list_add_tail (ns : Z) : P unit := head ← free_head; NG_LIST_ADD_TAIL ns head.
Definition full_list_add_tail (ns : Z) : P unit := head ← full_head; NG_LIST_ADD_TAIL ns head.

(** The handle of the new group, 0 when there is no memory. *)
Definition allocate_ng : P Z :=
  v ← M_CALLOC NODE_SET_Size;
  if v =? INVALID_HANDLE then mret INVALID_HANDLE
  else
    g ← info;
    set_do_init v (ni_min_id (ni g));;
    upd_info (fun i =>
      set_used_ng (wrap 32 (ni_used_ng i + 1))
        (set_min_id (wrap 32 (ni_min_id i + NODE_GROUP_INCLUDE_NODES)) i));;
    mret v.

Definition find_free_ng : P Z :=
  head ← free_head;
  e ← NG_LIST_EMPTY head;
  if (e : bool) then mret INVALID_HANDLE
  else l ← get_cell head; mret (lst_next l).

(** The [for] loop of [allocate_node] from turn [i] on, [k] turns left; false
    when not even one group could be allocated. *)
Fixpoint grow_groups (k : nat) (i : Z) : P bool :=
  match k with
  | O => mret true
  | Datatypes.S k =>
      ns ← allocate_ng;
      if ns =? INVALID_HANDLE then
        if i =? 0 then mret false
        else modify (on_group (set_statics 1 true));; mret true
      else free_list_add ns;; grow_groups k (i + 1)
  end.

(** What happens when no group has a free node: the group to use after
    pre-allocating some, none when there is no memory. *)
Definition more_groups : P (option Z) :=
  g ← gets node_group;
  ok ← grow_groups (Z.to_nat (step g)) 0;
  if negb ok then mret None
  else
    ns ← find_free_ng;
    modify (on_group (fun g =>
      if (step g <? 256) && negb (fail g) then set_statics (step g * 2) (fail g) g else g));;
    mret (Some ns).

(** [NGInfo::allocate_node] *)
Definition allocate_node : P Node :=
  ns ← find_free_ng;
  r ← (if ns =? INVALID_HANDLE then more_groups else mret (Some ns));
  match r with
  | None => mret NullNode
  | Some ns =>
      n ← set_allocate_node ns;
      s ← get_set ns;
      (if is_full s then list_del ns;; full_list_add ns else mret tt);;
      if is_null n then mret NullNode
      else
        upd_info (fun i => set_used_node (wrap 32 (ni_used_node i + 1)) i);;
        do_insert n;;
        mret n
  end.

(** [NGInfo::release_node] *)
Definition release_node (n : Node) : P Z :=
  s ← get_set n.1;
  (if is_full s then list_del n.1;; free_list_add n.1 else mret tt);;
  upd_info (fun i => set_used_node (wrap 32 (ni_used_node i - 1)) i);;
  Release n.

(** The heads of the LRU lists. *)
Definition sys_node (i : Z) : P Node :=
  g ← info;
  mret (if ni_sys_zone (ni g) =? INVALID_HANDLE then NullNode else (ni_sys_zone (ni g), i)).

Definition dirty_node_head : P Node := sys_node SYS_DIRTY_NODE_INDEX.
Definition clean_node_head : P Node := sys_node SYS_CLEAN_NODE_INDEX.
Definition empty_node_head : P Node := sys_node SYS_EMPTY_NODE_INDEX.

Definition insert_to_lru (i : Z) (n : Node) : P Z :=
  g ← info; NODE_LIST_ADD n (ni_sys_zone (ni g), i);; mret 0.

Definition insert_to_dirty_lru (n : Node) : P Z := insert_to_lru SYS_DIRTY_NODE_INDEX n.
Definition insert_to_clean_lru (n : Node) : P Z := insert_to_lru SYS_CLEAN_NODE_INDEX n.
Definition insert_to_empty_lru (n : Node) : P Z := insert_to_lru SYS_EMPTY_NODE_INDEX n.
Definition remove_from_lru (n : Node) : P Z := NODE_LIST_DEL n;; mret 0.

(** The counters. *)
Definition inc_dirty_node (v : Z) : P unit := upd_info (fun i =>
  set_counts (wrap 32 (ni_dirty_node i + v)) (ni_used_row i) (ni_dirty_row i) i).
Definition inc_dirty_row (v : Z) : P unit := upd_info (fun i =>
  set_counts (ni_dirty_node i) (ni_used_row i) (wrap 64 (ni_dirty_row i + v)) i).
Definition inc_total_row (v : Z) : P unit := upd_info (fun i =>
  set_counts (ni_dirty_node i) (wrap 64 (ni_used_row i + v)) (ni_dirty_row i) i).
Definition inc_empty_node (v : Z) : P unit :=
  modify (on_group (fun g => set_empty_count (sext 32 (wrap 32 (empty_node_count g + v))) g)).

Definition max_node_id : P Z := g ← info; mret (wrap 32 (ni_used_ng (ni g) * 256 - 1)).

Definition sizeof_NG_INFO_T : Z := 80.

Definition zero_NG_INFO_T : NG_INFO_T := mkNgInfoT (mkNgList 0 0) (mkNgList 0 0) 0 0 0 0 0 0 0.

Definition init_header : P Z :=
  head ← free_head; INIT_NG_LIST_HEAD head;;
  head ← full_head; INIT_NG_LIST_HEAD head;;
  upd_info (set_min_id SYS_MIN_NODE_ID);;
  sysNG ← allocate_ng;
  if sysNG =? INVALID_HANDLE then mret (-1)
  else
    system_reserved_init sysNG;;
    upd_info (fun i => set_counts 0 0 0 (set_used_node 0 (set_used_ng 1 (set_sys_zone sysNG i))));;
    mret 0.

(** [NGInfo::do_init] *)
Definition group_do_init : P Z :=
  v ← M_CALLOC sizeof_NG_INFO_T;
  if v =? INVALID_HANDLE then mret (-1)
  else
    modify (on_group (set_info v zero_NG_INFO_T));;
    init_header.

(** [NGInfo::do_attach]; the handle is that of the [NG_INFO_T] in memory. *)
Definition group_do_attach (v : Z) : P Z :=
  if v =? INVALID_HANDLE then mret (-1)
  else
    modify (on_group (fun g => set_info v (ni g) g));;
    g ← gets node_group;
    if ni_sys_zone (ni g) =? INVALID_HANDLE then mret (-1)
    else
      ret ← system_reserved_check (ni_sys_zone (ni g));
      if ret <? 0 then mret ret
      else modify (on_group (set_startup (if 0 <? ret then UPGRADED else ATTACHED)));; mret 0.

End Groups.
