(* ===== verification/Pond.v ===== *)
(** * The cache: hash buckets, LRU purging, time markers (src/core/buffer/buffer_pond.cc, src/core/algorithm/hash.cc)

    [BufferPond] ties the node groups to the hash buckets and the data chunks:
    a key is found by walking the chain of its bucket, a node is allocated
    into a bucket and the clean LRU list, and purged from both together with
    its data.  Counters that only feed the statistics are left out; the purge
    notification of [BufferProcessAskChain] is modelled, the hot-backup record
    it writes being an event of [purge_log]. *)

From S2P Require Import Prelude PtMalloc MallocBase Jenkins DtcHash Node.

(** ** Data *)

Record HASH_T := mkHash {
  hh_size : Z;
  hh_free : Z;
  hh_node : Z;
  hh_fixedsize : Z;
  hh_buckets : gmap Z Z
}.

(** The fields of a data chunk the cache reads: its type, number of rows and key. *)
Record DataChunk := mkChunk { data_type_ : Z; row_count_ : Z; p_key_ : list byte }.

Definition DATA_TYPE_RAW : Z := 0.
Definition DATA_TYPE_TREE_ROOT : Z := 1.

Definition TIME_MARKER_NEXT_NODE_ID : Z := INVALID_NODE_ID - 1.

Record BufferPond := mkPond {
  p_hash : Z;                         (* handle of _hash, 0 when null *)
  hash_t : HASH_T;
  chunks : gmap Z DataChunk;
  key_size : Z;                       (* _cache_info.key_size *)
  need_purge_node_count : Z;
  first_marker_time : Z;
  last_marker_time : Z;
  empty_limit : Z;
  disable_try_purge : bool;
  g_hash_changing : bool;
  g_target_new_hash : bool;
  pre_purge_count : Z;                (* DTCGlobal::pre_purge_nodes_ *)
  purge_processor : bool;             (* _purge_processor is set *)
  transaction_node : Node;            (* cache_transaction_node of the processor *)
  node_empty : bool;
  purge_log : list Node
}.

Definition on_hash (f : HASH_T -> HASH_T) (p : BufferPond) : BufferPond :=
  mkPond (p_hash p) (f (hash_t p)) (chunks p) (key_size p) (need_purge_node_count p)
    (first_marker_time p) (last_marker_time p) (empty_limit p) (disable_try_purge p)
    (g_hash_changing p) (g_target_new_hash p) (pre_purge_count p) (purge_processor p)
    (transaction_node p) (node_empty p) (purge_log p).
Definition set_hash (h : Z) (t : HASH_T) (p : BufferPond) : BufferPond :=
  mkPond h t (chunks p) (key_size p) (need_purge_node_count p)
    (first_marker_time p) (last_marker_time p) (empty_limit p) (disable_try_purge p)
    (g_hash_changing p) (g_target_new_hash p) (pre_purge_count p) (purge_processor p)
    (transaction_node p) (node_empty p) (purge_log p).
Definition on_chunks (f : gmap Z DataChunk -> gmap Z DataChunk) (p : BufferPond) : BufferPond :=
  mkPond (p_hash p) (hash_t p) (f (chunks p)) (key_size p) (need_purge_node_count p)
    (first_marker_time p) (last_marker_time p) (empty_limit p) (disable_try_purge p)
    (g_hash_changing p) (g_target_new_hash p) (pre_purge_count p) (purge_processor p)
    (transaction_node p) (node_empty p) (purge_log p).
Definition set_need_purge (v : Z) (p : BufferPond) : BufferPond :=
  mkPond (p_hash p) (hash_t p) (chunks p) (key_size p) v
    (first_marker_time p) (last_marker_time p) (empty_limit p) (disable_try_purge p)
    (g_hash_changing p) (g_target_new_hash p) (pre_purge_count p) (purge_processor p)
    (transaction_node p) (node_empty p) (purge_log p).
Definition set_markers (first last : Z) (p : BufferPond) : BufferPond :=
  mkPond (p_hash p) (hash_t p) (chunks p) (key_size p) (need_purge_node_count p)
    first last (empty_limit p) (disable_try_purge p)
    (g_hash_changing p) (g_target_new_hash p) (pre_purge_count p) (purge_processor p)
    (transaction_node p) (node_empty p) (purge_log p).
Definition set_empty_limit (v : Z) (p : BufferPond) : BufferPond :=
  mkPond (p_hash p) (hash_t p) (chunks p) (key_size p) (need_purge_node_count p)
    (first_marker_time p) (last_marker_time p) v (disable_try_purge p)
    (g_hash_changing p) (g_target_new_hash p) (pre_purge_count p) (purge_processor p)
    (transaction_node p) (node_empty p) (purge_log p).
Definition set_transaction (n : Node) (e : bool) (log : list Node) (p : BufferPond) : BufferPond :=
  mkPond (p_hash p) (hash_t p) (chunks p) (key_size p) (need_purge_node_count p)
    (first_marker_time p) (last_marker_time p) (empty_limit p) (disable_try_purge p)
    (g_hash_changing p) (g_target_new_hash p) (pre_purge_count p) (purge_processor p)
    n e log.

Definition set_hh (free node : Z) (t : HASH_T) : HASH_T :=
  mkHash (hh_size t) free node (hh_fixedsize t) (hh_buckets t).
Definition set_bucket (i v : Z) (t : HASH_T) : HASH_T :=
  mkHash (hh_size t) (hh_free t) (hh_node t) (hh_fixedsize t) (aset i v (hh_buckets t)).

(** ** Pure parts *)

Record BlockProperties := mkProps { ipc_mem_size : Z; version : Z; empty_filter : bool }.

(** [verify_cache_info] on the 64-bit platform; the checks on the constants
    [INVALID_HANDLE] and [INVALID_NODE_ID] come first. *)
Definition verify_cache_info (p : BlockProperties) : Z :=
  if negb (INVALID_HANDLE =? 0) then -1
  else if negb (INVALID_NODE_ID =? wrap 32 (-1)) then -1
  else if negb (version p =? 4) then -1
  else if empty_filter p && (ipc_mem_size p <? Z.shiftl 256 20) then -1
  else if ipc_mem_size p <? Z.shiftl 64 20 then -1
  else if Z.shiftl 64 30 <? ipc_mem_size p then -1
  else 0.

Definition hash_bucket_num (size : Z) : Z :=
  let h := sext 32 (wrap 32 (wrap 32 (wrap 64 (size / 100 - 16)) / sizeof_NODE_ID_T)) in
  let h := (h ÷ 9) * 9 in
  wrap 32 h.

Definition chunk_key (d : DataChunk) : option (list byte) :=
  if Z.land (data_type_ d) 0x7f =? DATA_TYPE_RAW then Some (p_key_ d)
  else if Z.land (data_type_ d) 0x7f =? DATA_TYPE_TREE_ROOT then Some (p_key_ d)
  else None.

Section Operations.

Context {S : Type} `{MallocBase S}.

Abbreviation P := (prog S BufferPond).

Definition pond : P BufferPond := gets rest.
Definition upd_pond (f : BufferPond -> BufferPond) : P unit := modify (on_rest f).

(** ** hash.cc *)

Definition hash : P HASH_T := p ← pond; not_null (p_hash p);; mret (hash_t p).
Definition upd_hash (f : HASH_T -> HASH_T) : P unit := hash;; upd_pond (on_hash f).

Definition hash_to_node (v : Z) : P Z := t ← hash; mret (aget (hh_buckets t) v).
Definition set_hash_to_node (v id : Z) : P unit := upd_hash (set_bucket v id).
Definition inc_free_bucket (v : Z) : P unit :=
  upd_hash (fun t => set_hh (wrap 32 (hh_free t + v)) (hh_node t) t).
Definition inc_node_cnt (v : Z) : P unit :=
  upd_hash (fun t => set_hh (hh_free t) (wrap 32 (hh_node t + v)) t).

Definition sizeof_HASH_T : Z := 16.

Definition init_buckets (hsize : Z) : gmap Z Z :=
  fold_right (fun i m => aset (Z.of_nat i) INVALID_NODE_ID m) ∅ (seq 0 (Z.to_nat hsize)).

(** [DTCHash::do_init] *)
Definition hash_do_init (hsize fixedsize : Z) : P Z :=
  v ← M_CALLOC (sizeof_NODE_ID_T * hsize + sizeof_HASH_T);
  if v =? INVALID_HANDLE then mret (-1)
  else upd_pond (set_hash v (mkHash hsize hsize 0 fixedsize (init_buckets hsize)));; mret 0.

(** ** The buckets *)

Definition key_slot (newhash : bool) (key : mem) : P Z :=
  t ← hash;
  mret (if newhash then new_hash_slot (hh_size t) (hh_fixedsize t) key
        else hash_slot (hh_size t) (hh_fixedsize t) key).

Definition insert_to_hash (key : mem) (n : Node) : P Z :=
  p ← pond;
  slot ← key_slot (g_target_new_hash p) key;
  b ← hash_to_node slot;
  (if b =? INVALID_NODE_ID then inc_free_bucket (-1) else mret tt);;
  inc_node_cnt 1;;
  b ← hash_to_node slot;
  upd_attr n (set_next b);;
  i ← node_id n;
  set_hash_to_node slot i;;
  mret 0.

(** Enough for every walk along a list of nodes: the nodes that exist. *)
Definition node_fuel : P nat :=
  g ← gets node_group; mret (Datatypes.S (Z.to_nat (NODE_GROUP_INCLUDE_NODES * ni_used_ng (ni g)))).

(** The [while] of [remove_from_hash_base]. *)
Fixpoint hash_walk (fuel : nat) (target : Z) (prev next : Node) : P (Node * Node) :=
  match fuel with
  | O => crash
  | Datatypes.S fuel =>
      if is_null next then mret (prev, next)
      else
        i ← node_id next;
        if i =? target then mret (prev, next)
        else
          ni ← next_node_id next; nx ← do_search ni;
          hash_walk fuel target next nx
  end.

Definition remove_from_hash_base (key : mem) (remove : Node) (newhash : bool) : P Z :=
  slot ← key_slot newhash key;
  id ← hash_to_node slot;
  if id =? INVALID_NODE_ID then mret 0
  else
    target ← node_id remove;
    if id =? target then
      nx ← next_node_id remove;
      set_hash_to_node slot nx;;
      b ← hash_to_node slot;
      (if b =? INVALID_NODE_ID then inc_free_bucket 1 else mret tt);;
      inc_node_cnt (-1);;
      mret 0
    else
      prev ← do_search id;
      pn ← next_node_id prev;
      next ← do_search pn;
      fuel ← node_fuel;
      '(prev, next) ← hash_walk fuel target prev next;
      if negb (is_null next) then
        nn ← next_node_id next;
        upd_attr prev (set_next nn);;
        inc_node_cnt (-1);;
        mret 0
      else mret (-1).

Definition remove_from_hash (key : mem) (n : Node) : P Z :=
  p ← pond;
  (if g_hash_changing p then
     remove_from_hash_base key n true;; remove_from_hash_base key n false
   else remove_from_hash_base key n (g_target_new_hash p));;
  mret 0.

Definition move_to_new_hash (key : mem) (n : Node) : P Z :=
  remove_from_hash key n;; insert_to_hash key n;; mret 0.

(** ** Purging *)

(** [BufferPond::dec_empty_node] *)
Definition dec_empty_node : P unit :=
  p ← pond; if empty_limit p =? 0 then mret tt else inc_empty_node (-1).

(** [BufferProcessAskChain::purge_node_processor] *)
Definition purge_node_processor (n : Node) : P unit :=
  if is_null n then mret tt
  else
    p ← pond;
    (if node_eq n (transaction_node p) then
       (if node_empty p then dec_empty_node else mret tt);;
       upd_pond (fun p => set_transaction NullNode false (purge_log p) p)
     else mret tt);;
    upd_pond (fun p => set_transaction (transaction_node p) (node_empty p) (n :: purge_log p) p).

Definition purge_node (key : mem) (n : Node) : P Z :=
  p ← pond;
  (if purge_processor p then purge_node_processor n else mret tt);;
  remove_from_hash key n;;
  remove_from_lru n;;
  release_node n;;
  mret 0.

(** [M_POINTER(DataChunk, h)] for a handle that is not null. *)
Definition get_chunk (h : Z) : P DataChunk := p ← pond; lift (chunks p !! h).

(** [DataChunk::destory] for raw data; trees are not modelled. *)
Definition chunk_destory (h : Z) (d : DataChunk) : P Z :=
  if data_type_ d =? DATA_TYPE_RAW then
    r ← M_FREE h; upd_pond (on_chunks (delete h));; mret r
  else if data_type_ d =? DATA_TYPE_TREE_ROOT then crash
  else mret (-1).

(** [purge_node_and_data(Node)] *)
Definition purge_node_and_data (n : Node) : P Z :=
  if is_null n then mret 0
  else
    vd ← vd_handle n;
    if vd =? INVALID_HANDLE then mret 0
    else
      d ← get_chunk vd;
      match chunk_key d with
      | None => mret (-1)
      | Some k => chunk_destory vd d;; purge_node (mem_of k) n
      end.

(** [purge_node_and_data(const char *, Node)] *)
Definition purge_key_and_data (key : mem) (n : Node) : P Z :=
  (if is_null n then mret tt
   else
     vd ← vd_handle n;
     if vd =? INVALID_HANDLE then mret tt
     else d ← get_chunk vd; chunk_destory vd d;; mret tt);;
  if is_null n then mret 0 else purge_node key n.

(** Apart from its statistics and alerts, [purge_node_with_alert] is this. *)
Definition purge_node_with_alert (n : Node) : P Z := purge_node_and_data n.

(** ** Finding and allocating *)

(** The [while] of [cache_find]; nodes without usable data are purged on the way. *)
Fixpoint find_loop (fuel : nat) (key : mem) (iter : Node) : P Node :=
  match fuel with
  | O => crash
  | Datatypes.S fuel =>
      if is_null iter then mret NullNode
      else
        vd ← vd_handle iter;
        k ← (if vd =? INVALID_HANDLE then mret None else d ← get_chunk vd; mret (chunk_key d));
        match k with
        | None =>
            ni ← next_node_id iter; nx ← do_search ni;
            purge_node key iter;; find_loop fuel key nx
        | Some k =>
            p ← pond;
            if key_cmp (key_size p) key (mem_of k) =? 0 then mret iter
            else ni ← next_node_id iter; nx ← do_search ni; find_loop fuel key nx
        end
  end.

Definition cache_find (key : mem) (newhash : bool) : P Node :=
  slot ← key_slot newhash key;
  id ← hash_to_node slot;
  if id =? INVALID_NODE_ID then mret NullNode
  else iter ← do_search id; fuel ← node_fuel; find_loop fuel key iter.

Definition cache_find_auto_chose_hash (key : mem) : P Node :=
  p ← pond;
  if g_hash_changing p then
    let newhash := g_target_new_hash p in
    n ← cache_find key (negb newhash);
    if is_null n then cache_find key newhash
    else move_to_new_hash key n;; mret n
  else cache_find key (g_target_new_hash p).

Definition cache_allocation (key : mem) : P Node :=
  n ← allocate_node;
  if is_null n then mret n
  else insert_to_hash key n;; insert_to_clean_lru n;; mret n.

Definition cache_purge (key : mem) : P Z :=
  p ← pond;
  n ← (if g_hash_changing p then
         n ← cache_find key false;
         if is_null n then cache_find key true else mret n
       else cache_find key (g_target_new_hash p));
  if is_null n then mret 0
  else r ← purge_key_and_data key n; mret (if r <? 0 then -1 else 0).

(** [node_rows_count] *)
Definition node_rows_count (n : Node) : P Z :=
  if is_null n then mret 0
  else
    vd ← vd_handle n;
    if vd =? INVALID_HANDLE then mret 0
    else d ← get_chunk vd; mret (sext 32 (wrap 32 (row_count_ d))).

(** ** Purging the clean LRU list from its old end *)

(** [check_cross_linked_lru]: false when the node is its own predecessor. *)
Definition check_cross_linked_lru (n : Node) : P bool := v ← Prev n; mret (negb (node_eq v n)).

(** [inc_total_row(0LL - node_rows_count(n)); purge_node_with_alert(n)] *)
Definition drop_node (n : Node) : P unit :=
  r ← node_rows_count n;
  inc_total_row (sext 32 (wrap 32 (0 - r)));;
  purge_node_with_alert n;;
  mret tt.

(** The [while] of [pre_purge_nodes], and of [delay_purge_notify] where no node
    is reserved; returns how many nodes were purged. *)
Fixpoint purge_loop (count : nat) (header reserve pos : Node) (done : Z) : P Z :=
  match count with
  | O => mret done
  | Datatypes.S count =>
      if is_null pos || node_eq pos header then mret done
      else
        check_cross_linked_lru pos;;
        pv ← Prev pos;
        if node_eq reserve pos then purge_loop count header reserve pv done
        else drop_node pos;; purge_loop count header reserve pv (done + 1)
  end.

Definition pre_purge_nodes (purge_count : Z) (reserve : Node) : P Z :=
  if purge_count <=? 0 then mret 0
  else
    header ← clean_node_head;
    pos ← Prev header;
    purge_loop (Z.to_nat purge_count) header reserve pos 0.

Definition delay_purge_notify (count : Z) : P unit :=
  p ← pond;
  if need_purge_node_count p =? 0 then mret tt
  else
    let purge_count := if count <? need_purge_node_count p then count else need_purge_node_count p in
    header ← clean_node_head;
    pos ← Prev header;
    done ← purge_loop (Z.to_nat purge_count) header NullNode pos 0;
    upd_pond (fun p => set_need_purge (wrap 32 (need_purge_node_count p - done)) p).

(** The [for] of [try_purge_size] from turn [iter] on: a node whose chunk would
    free enough memory is purged and the search ends. *)
Fixpoint try_purge_loop (count : nat) (iter size : Z) (header reserve pos : Node) (tried : Z) : P Z :=
  let stop := upd_pond (set_need_purge tried);; mret (-1) in
  match count with
  | O => stop
  | Datatypes.S count =>
      if is_null pos || node_eq pos header then stop
      else
        g ← info;
        if ni_used_node (ni g) <? 10 then stop
        else
          ok ← check_cross_linked_lru pos;
          if negb ok then stop
          else
            pv ← Prev pos;
            if node_eq pos reserve then try_purge_loop count (iter + 1) size header reserve pv tried
            else
              vd ← vd_handle pos;
              if vd =? INVALID_HANDLE then try_purge_loop count (iter + 1) size header reserve pv tried
              else
                d ← get_chunk vd;
                a ← gets alloc;
                combine_size ←
                  (if data_type_ d =? DATA_TYPE_RAW then mret (m_ask_for_destroy_size vd a)
                   else if data_type_ d =? DATA_TYPE_TREE_ROOT then crash else mret 0);
                if size <=? combine_size then
                  drop_node pos;; upd_pond (set_need_purge iter);; mret 0
                else try_purge_loop count (iter + 1) size header reserve pv (tried + 1)
  end.

Definition try_purge_size (size : Z) (reserve : Node) (max_purge_count : Z) : P Z :=
  p ← pond;
  if disable_try_purge p then mret (-1)
  else
    pre_purge_nodes (pre_purge_count p) reserve;;
    header ← clean_node_head;
    pos ← Prev header;
    try_purge_loop (Z.to_nat max_purge_count) 0 size header reserve pos 0.

(** ** The empty LRU list *)

Definition purge_single_empty_node : P Z :=
  header ← empty_node_head;
  pos ← Prev header;
  if node_eq pos header then mret 0
  else
    ok ← check_cross_linked_lru pos;
    if negb ok then mret (-1)
    else purge_node_and_data pos;; inc_empty_node (-1);; mret 0.

(** [BufferPond::inc_empty_node] *)
Definition pond_inc_empty_node : P unit :=
  p ← pond;
  if empty_limit p =? 0 then mret tt
  else
    inc_empty_node 1;;
    g ← gets node_group;
    if empty_limit p <? empty_node_count g then purge_single_empty_node;; mret tt else mret tt.

(** [BufferPond::insert_to_empty_lru] *)
Definition pond_insert_to_empty_lru (n : Node) : P Z :=
  p ← pond; if empty_limit p =? 0 then insert_to_clean_lru n else insert_to_empty_lru n.

(** A walk along an LRU list from its old end: [visit] runs on each node after
    its predecessor has been read, until [limit] nodes were counted; the result
    is how many were. *)
Fixpoint walk_lru (fuel : nat) (limit : option Z) (header pos : Node) (visit : Node -> P bool) (count : Z) : P Z :=
  match fuel with
  | O => crash
  | Datatypes.S fuel =>
      if match limit with Some m => m <=? count | None => false end then mret count
      else if node_eq pos header then mret count
      else
        ok ← check_cross_linked_lru pos;
        if negb ok then mret count
        else
          pv ← Prev pos;
          counted ← visit pos;
          walk_lru fuel limit header pv visit (if (counted : bool) then count + 1 else count)
  end.

Definition from_old_end (header : Node) (limit : option Z) (visit : Node -> P bool) : P Z :=
  pos ← Prev header; fuel ← node_fuel; walk_lru fuel limit header pos visit 0.

Definition init_empty_node_list : P Z :=
  g ← gets node_group;
  match empty_startup_mode g with
  | ATTACHED =>
      header ← empty_node_head;
      count ← from_old_end header None (fun _ => mret true);
      inc_empty_node count;; mret 0
  | _ => mret 0
  end.

Definition upgrade_empty_node_list : P Z :=
  g ← gets node_group;
  match empty_startup_mode g with
  | CREATED => mret 0
  | _ =>
      header ← clean_node_head;
      count ← from_old_end header None (fun pos =>
        r ← node_rows_count pos;
        if r =? 0 then remove_from_lru pos;; insert_to_empty_lru pos;; mret true else mret false);
      inc_empty_node count;; mret 0
  end.

Definition merge_empty_node_list : P Z :=
  g ← gets node_group;
  match empty_startup_mode g with
  | CREATED => mret 0
  | _ =>
      header ← empty_node_head;
      from_old_end header None (fun pos => remove_from_lru pos;; insert_to_clean_lru pos;; mret true);;
      mret 0
  end.

Definition prune_empty_node_list : P Z :=
  g ← gets node_group;
  match empty_startup_mode g with
  | ATTACHED =>
      header ← empty_node_head;
      from_old_end header None (fun pos => purge_node_and_data pos;; mret true);; mret 0
  | _ => mret 0
  end.

Definition shrink_empty_node_list : P Z :=
  p ← pond; g ← gets node_group;
  if negb (empty_limit p =? 0) && (empty_limit p <? empty_node_count g) then
    header ← empty_node_head;
    from_old_end header (Some (empty_node_count g - empty_limit p)) (fun pos =>
      purge_node_and_data pos;; inc_empty_node (-1);; mret true);;
    mret 0
  else mret 0.

(** ** Time markers in the dirty LRU list *)

Definition is_time_marker (n : Node) : P bool :=
  i ← next_node_id n; mret (i =? TIME_MARKER_NEXT_NODE_ID).

(** The first marker met when [next] leads from the head around the list. *)
Fixpoint find_marker (fuel : nat) (next : Node -> P Node) (header pos : Node) : P Node :=
  match fuel with
  | O => crash
  | Datatypes.S fuel =>
      if node_eq pos header then mret NullNode
      else
        m ← is_time_marker pos;
        if (m : bool) then mret pos else nx ← next pos; find_marker fuel next header nx
  end.

Definition last_time_marker : P Node :=
  header ← dirty_node_head; pos ← Prev header; fuel ← node_fuel; find_marker fuel Prev header pos.
Definition first_time_marker : P Node :=
  header ← dirty_node_head; pos ← Next header; fuel ← node_fuel; find_marker fuel Next header pos.

Definition last_time_marker_time : P Z :=
  p ← pond;
  if last_marker_time p =? 0 then
    m ← last_time_marker;
    t ← (if is_null m then mret 0 else Time m);
    upd_pond (fun p => set_markers (first_marker_time p) t p);; mret t
  else mret (last_marker_time p).

Definition first_time_marker_time : P Z :=
  p ← pond;
  if first_marker_time p =? 0 then
    m ← first_time_marker;
    t ← (if is_null m then mret 0 else Time m);
    upd_pond (fun p => set_markers t (last_marker_time p) p);; mret t
  else mret (first_marker_time p).

Definition insert_time_marker (t : Z) : P Z :=
  n ← allocate_node;
  n ← (if is_null n then pre_purge_nodes 10 NullNode;; allocate_node else mret n);
  if is_null n then mret (-1)
  else
    upd_attr n (set_next TIME_MARKER_NEXT_NODE_ID);;
    upd_attr n (set_vd t);;
    insert_to_dirty_lru n;;
    upd_pond (fun p => set_markers t (last_marker_time p) p);;
    p ← pond;
    (if last_marker_time p =? 0 then last_time_marker_time;; mret tt else mret tt);;
    mret 0.

Definition remove_time_marker (n : Node) : P Z :=
  m ← is_time_marker n;
  if negb m then mret (-1)
  else
    remove_from_lru n;;
    release_node n;;
    last ← last_time_marker;
    t ← (if is_null last then p ← pond; mret (first_marker_time p) else Time last);
    upd_pond (fun p => set_markers (first_marker_time p) t p);;
    mret 0.

(** ** Formatting the memory: the part of [dtc_mem_init] that builds the index,
    the buckets and the groups *)

Definition mem_init (mem_size hsize fixedsize : Z) : P Z :=
  r ← index_do_init mem_size;
  if negb (r =? 0) then mret (-1) else
  r ← hash_do_init hsize fixedsize;
  if negb (r =? 0) then mret (-1) else
  r ← group_do_init;
  if negb (r =? 0) then mret (-1) else mret 0.

End Operations.
