(* ===== verification/NodeLists.v ===== *)
(** * The LRU lists of nodes

    The lists of node_list.h are rings through a head node, linked by node
    ids.  What they need from the groups and the index is an [addressing]: a
    set of ids that resolve to nodes and back.  Under an addressing, inserting
    and removing a node are the list operations on the sequence of ids, and
    change nothing but the links of the nodes involved. *)

From S2P Require Import Prelude DList PtMalloc MallocBase Node.

(** ** Running programs *)

Section Runs.

Context {S X : Type}.

Implicit Types (c : Cache S X).

Lemma run_bind {A B} (f : A -> prog S X B) (m : prog S X A) c a c' :
  m c = Some (a, c') -> (m ≫= f) c = f a c'.
Proof. intros E. unfold mbind, prog_bind. by rewrite E. Qed.

Lemma run_ret {A} (a : A) c : (mret a : prog S X A) c = Some (a, c).
Proof. done. Qed.

Lemma run_gets {A} (f : Cache S X -> A) c : gets f c = Some (f c, c).
Proof. done. Qed.

Lemma run_modify (f : Cache S X -> Cache S X) c : modify f c = Some (tt, f c).
Proof. done. Qed.

End Runs.

Create HintDb run.
#[export] Hint Resolve run_ret run_gets run_modify : run.

(** Run the first command of a program whose effect is known. *)
Ltac run1 :=
  lazymatch goal with
  | |- context [@mbind _ _ _ _ ?f ?m ?c] =>
      erewrite (run_bind f m c); [|solve [eauto with run]]; cbv beta
  end.
Ltac run := repeat run1.

(** ** Addressing *)

Definition dummy_attr : NodeAttr := mkAttr 0 0 0 0 false.

Section Addressing.

Context {S X : Type} `{MallocBase S}.
Context (V : Z -> Prop) (nd : Z -> Node).

Implicit Types (c : Cache S X) (i j p hd : Z) (l : list Z).

(** The ids in [V] resolve to the nodes [nd] gives, and back. *)
Record addressing (c : Cache S X) : Prop := {
  ad_id : forall i, V i -> node_id (nd i) c = Some (i, c);
  ad_find : forall i, V i -> do_search i c = Some (nd i, c);
  ad_attr : forall i, V i -> is_Some (attrs (node_group c) !! nd i)
}.

(** The attributes of node [i]. *)
Definition atr c i : NodeAttr := default dummy_attr (attrs (node_group c) !! nd i).

Definition set_at i (f : NodeAttr -> NodeAttr) c : Cache S X :=
  on_group (on_attrs (<[nd i := f (atr c i)]>)) c.

Lemma ad_inj c i j : addressing c -> V i -> V j -> nd i = nd j -> i = j.
Proof.
  intros A Hi Hj E. pose proof (ad_id _ A i Hi) as Ei. rewrite E, (ad_id _ A j Hj) in Ei. by injection Ei.
Qed.

Lemma get_attr_run c i : addressing c -> V i -> get_attr (nd i) c = Some (atr c i, c).
Proof. intros A Hi. unfold get_attr, atr. by destruct (ad_attr _ A i Hi) as [a ->]. Qed.

Lemma upd_attr_run c i f : addressing c -> V i -> upd_attr (nd i) f c = Some (tt, set_at i f c).
Proof. intros A Hi. unfold upd_attr. by erewrite run_bind by by apply get_attr_run. Qed.

Lemma node_id_set i f n c k : node_id n c = Some (k, c) -> node_id n (set_at i f c) = Some (k, set_at i f c).
Proof.
  unfold node_id, get_set, set_at, mbind, prog_bind, mret, prog_ret. destruct c as [a x g r]. simpl.
  destruct (sets g !! n.1); simpl; [|done]. by intros [= ->].
Qed.

Lemma do_search_frame k n c c' :
  node_index c' = node_index c -> sets (node_group c') = sets (node_group c) ->
  do_search k c = Some (n, c) -> do_search k c' = Some (n, c').
Proof.
  intros E1 E2. unfold do_search. destruct (k =? INVALID_NODE_ID); [by intros [= <-]|].
  unfold get_fi, get_second, mbind, prog_bind, gets, not_null, lift, crash, mret, prog_ret. rewrite !E1.
  destruct (firstIndex _ =? _); [done|].
  destruct (aget (fi_h (node_index c)) (OFFSET1 k) =? _); [by intros [= <-]|]. rewrite !E1.
  destruct (seconds _ !! _) as [p|]; simpl; [|done].
  destruct (aget (si_h p) (OFFSET2 k) =? _); [by intros [= <-]|].
  unfold get_set. rewrite E2. destruct (sets _ !! _) as [t|]; simpl; [|done].
  destruct (_ || _); by intros [= <-].
Qed.

Lemma addressing_set c i f : addressing c -> V i -> addressing (set_at i f c).
Proof.
  intros A Hi. split.
  - intros j Hj. by apply node_id_set, A.
  - intros j Hj. apply (do_search_frame j (nd j) c); [done|done|by apply A].
  - intros j Hj. unfold set_at. simpl. destruct (decide (nd i = nd j)) as [->|Hne];
      [by rewrite lookup_insert_eq|rewrite lookup_insert_ne by done; by apply A].
Qed.

Lemma atr_set c i f j : addressing c -> V i -> V j ->
  atr (set_at i f c) j = if j =? i then f (atr c i) else atr c j.
Proof.
  intros A Hi Hj. unfold atr at 1, set_at. simpl. destruct (Z.eqb_spec j i) as [->|Hne].
  - by rewrite lookup_insert_eq.
  - rewrite lookup_insert_ne; [done|]. intros E. by destruct Hne; apply (ad_inj c); [..|symmetry].
Qed.

Lemma lru_prev_run c i : addressing c -> V i -> lru_prev (nd i) c = Some (a_prev (atr c i), c).
Proof. intros A Hi. unfold lru_prev. by erewrite run_bind by by apply get_attr_run. Qed.

Lemma lru_next_run c i : addressing c -> V i -> lru_next (nd i) c = Some (a_lnext (atr c i), c).
Proof. intros A Hi. unfold lru_next. by erewrite run_bind by by apply get_attr_run. Qed.

Lemma next_node_id_run c i : addressing c -> V i -> next_node_id (nd i) c = Some (a_next (atr c i), c).
Proof. intros A Hi. unfold next_node_id. by erewrite run_bind by by apply get_attr_run. Qed.

Lemma vd_handle_run c i : addressing c -> V i -> vd_handle (nd i) c = Some (a_vd (atr c i), c).
Proof. intros A Hi. unfold vd_handle. by erewrite run_bind by by apply get_attr_run. Qed.

Lemma Prev_run c i : addressing c -> V i -> V (a_prev (atr c i)) -> Prev (nd i) c = Some (nd (a_prev (atr c i)), c).
Proof. intros A Hi Hp. unfold Prev. erewrite run_bind by by apply lru_prev_run. by apply A. Qed.

Lemma Next_run c i : addressing c -> V i -> V (a_lnext (atr c i)) -> Next (nd i) c = Some (nd (a_lnext (atr c i)), c).
Proof. intros A Hi Hp. unfold Next. erewrite run_bind by by apply lru_next_run. by apply A. Qed.

(** ** Changes of links *)

Definition same_data (a b : NodeAttr) : Prop := a_next b = a_next a /\ a_vd b = a_vd a /\ a_dirty b = a_dirty a.

(** Only the LRU links of the nodes with ids in [L] differ. *)
Record relinked (c c' : Cache S X) (L : list Z) : Prop := {
  rl_rest : exists F, c' = on_group (on_attrs F) c;
  rl_ad : addressing c -> addressing c';
  rl_data : addressing c -> forall i, V i -> same_data (atr c i) (atr c' i);
  rl_out : forall n, (forall i, i ∈ L -> n ≠ nd i) -> attrs (node_group c') !! n = attrs (node_group c) !! n
}.

Lemma relinked_refl c L : relinked c c L.
Proof. split; try done. exists id. by destruct c as [? ? []]. Qed.

Lemma relinked_trans c1 c2 c3 L : relinked c1 c2 L -> relinked c2 c3 L -> relinked c1 c3 L.
Proof.
  intros [[F1 ->] A1 D1 O1] [[F2 ->] A2 D2 O2]. split.
  - exists (F2 ∘ F1). by destruct c1 as [? ? []].
  - auto.
  - intros A i Hi. destruct (D1 A i Hi) as (?&?&?), (D2 (A1 A) i Hi) as (?&?&?). split_and!; congruence.
  - intros n Hn. by rewrite O2, O1.
Qed.

Lemma relinked_mono c c' L L' : (forall i, i ∈ L -> i ∈ L') -> relinked c c' L -> relinked c c' L'.
Proof. intros Hs [R1 R2 R3 R4]. split; [done..|]. intros n Hn. apply R4. auto. Qed.

Lemma relinked_set c i f L : V i -> i ∈ L -> (forall a, same_data a (f a)) -> relinked c (set_at i f c) L.
Proof.
  intros Hi HL Hf. split.
  - by exists (<[nd i := f (atr c i)]>).
  - intros A. by apply addressing_set.
  - intros A j Hj. rewrite atr_set by done. destruct (Z.eqb_spec j i) as [->|]; [apply Hf|done].
  - intros n Hn. unfold set_at. simpl. rewrite lookup_insert_ne; [done|]. intros E. by apply (Hn i HL).
Qed.

Lemma relinked_atr c c' L i : addressing c -> relinked c c' L -> V i -> i ∉ L -> Forall V L -> atr c' i = atr c i.
Proof.
  intros A R Hi HL HV. unfold atr. rewrite (rl_out _ _ _ R); [done|]. intros j Hj E.
  rewrite Forall_forall in HV. apply (ad_inj c) in E; [|done|done|by apply HV]. by subst.
Qed.

(** ** The operations of node_list.h *)

Abbreviation pre c := (fun i => a_prev (atr c i)).
Abbreviation nxt c := (fun i => a_lnext (atr c i)).

(** [l] is the list with head [hd], newest first. *)
Record lru c hd l : Prop := {
  lru_ring : ring (pre c) (nxt c) hd l;
  lru_nodup : NoDup (hd :: l);
  lru_valid : Forall V (hd :: l)
}.

Hint Resolve ad_id ad_find get_attr_run upd_attr_run lru_prev_run lru_next_run next_node_id_run
  vd_handle_run Prev_run Next_run addressing_set : run.

Lemma set_prev_data v a : same_data a (set_prev v a).
Proof. done. Qed.
Lemma set_lnext_data v a : same_data a (set_lnext v a).
Proof. done. Qed.

Lemma list_add_run c p u v : addressing c -> V p -> V u -> V v -> p ≠ u -> p ≠ v ->
  exists c', __NODE_LIST_ADD (nd p) (nd u) (nd v) c = Some (tt, c') /\ relinked c c' [p; u; v]
  /\ (forall j, V j -> a_prev (atr c' j) = if j =? p then u else if j =? v then p else a_prev (atr c j))
  /\ (forall j, V j -> a_lnext (atr c' j) = if j =? u then p else if j =? p then v else a_lnext (atr c j)).
Proof.
  intros A Hp Hu Hv Npu Npv. unfold __NODE_LIST_ADD. run. eexists. split; [eauto with run|]. split_and!.
  - repeat (eapply relinked_trans; [|apply relinked_set; [done|set_solver|done]]). apply relinked_refl.
  - intros j Hj. rewrite !atr_set by eauto 10 with run. zcase; subst; try done; lia.
  - intros j Hj. rewrite !atr_set by eauto 10 with run. zcase; subst; try done; lia.
Qed.

Lemma list_del_run c u v : addressing c -> V u -> V v ->
  exists c', __NODE_LIST_DEL (nd u) (nd v) c = Some (tt, c') /\ relinked c c' [u; v]
  /\ (forall j, V j -> a_prev (atr c' j) = if j =? v then u else a_prev (atr c j))
  /\ (forall j, V j -> a_lnext (atr c' j) = if j =? u then v else a_lnext (atr c j)).
Proof.
  intros A Hu Hv. unfold __NODE_LIST_DEL. run. eexists. split; [eauto with run|]. split_and!.
  - repeat (eapply relinked_trans; [|apply relinked_set; [done|set_solver|done]]). apply relinked_refl.
  - intros j Hj. rewrite !atr_set by eauto 10 with run. zcase; subst; try done; lia.
  - intros j Hj. rewrite !atr_set by eauto 10 with run. zcase; subst; try done; lia.
Qed.

Lemma lru_V c hd l i : lru c hd l -> i ∈ hd :: l -> V i.
Proof. intros L Hi. pose proof (lru_valid _ _ _ L) as HV. rewrite Forall_forall in HV. by apply HV. Qed.

Lemma NODE_LIST_ADD_run c hd p l : addressing c -> lru c hd l -> V p -> p ∉ hd :: l ->
  exists c', NODE_LIST_ADD (nd p) (nd hd) c = Some (tt, c') /\ relinked c c' (p :: hd :: l)
  /\ lru c' hd (p :: l).
Proof.
  intros A L Hp Hnp. pose proof L as [(Hd & Hpr & Hn) Hnd HV].
  assert (first_or hd l ∈ hd :: l) as Hf by apply first_or_hd.
  assert (V hd) as Hh by (eapply lru_V; [done|left]). assert (V (first_or hd l)) as Hfv by (by eapply lru_V).
  assert (p ≠ hd) as Nh by (intros ->; set_solver). assert (p ≠ first_or hd l) as Nf by (intros ->; set_solver).
  destruct (list_add_run c p hd (first_or hd l) A Hp Hh Hfv Nh Nf) as (c' & E & R & Ep & En).
  exists c'. split_and!.
  - unfold NODE_LIST_ADD. erewrite run_bind; [|apply Next_run; [done|done|by rewrite Hn]]. by rewrite Hn.
  - eapply relinked_mono; [|exact R]. set_solver.
  - assert (forall y, y ∈ hd :: p :: l -> V y) as HVy by (intros y Hy; rewrite Forall_forall in HV; set_solver).
    split; [|apply NoDup_cons; apply NoDup_cons in Hnd as [??]; rewrite NoDup_cons; set_solver
            |rewrite Forall_forall; intros y Hy; apply HVy; set_solver].
    apply (ring_add (pre c) (nxt c)); [apply NoDup_cons; apply NoDup_cons in Hnd as [??]; rewrite NoDup_cons; set_solver|done| |].
    + intros y Hy. apply Ep. by apply HVy.
    + intros y Hy. apply En. by apply HVy.
Qed.

(** A removed node is alone: it links to itself. *)
Definition alone c i : Prop := a_prev (atr c i) = i /\ a_lnext (atr c i) = i.

Lemma NODE_LIST_DEL_run c hd l1 p l2 : addressing c -> lru c hd (l1 ++ p :: l2) ->
  exists c', NODE_LIST_DEL (nd p) c = Some (tt, c') /\ relinked c c' (hd :: l1 ++ p :: l2)
  /\ lru c' hd (l1 ++ l2) /\ alone c' p.
Proof.
  intros A L. pose proof L as [Hr Hnd HV]. destruct (ring_links _ _ _ _ _ _ Hr) as [Ep En]. simpl in Ep, En.
  assert (last_or hd l1 ∈ hd :: l1) as Hu by apply last_or_hd.
  assert (first_or hd l2 ∈ hd :: l2) as Hv by apply first_or_hd.
  assert (forall y, y ∈ hd :: l1 ++ p :: l2 -> V y) as HVy by (intros; by eapply lru_V).
  assert (V (last_or hd l1)) as HVu by (apply HVy; set_solver).
  assert (V (first_or hd l2)) as HVv by (apply HVy; set_solver). assert (V p) as HVp by (apply HVy; set_solver).
  assert (NoDup (hd :: l1 ++ l2) /\ p ∉ hd :: l1 ++ l2) as [Hnd' Hp].
  { rewrite NoDup_cons, NoDup_app, NoDup_cons in Hnd. rewrite NoDup_cons, NoDup_app. set_solver. }
  destruct (list_del_run c (last_or hd l1) (first_or hd l2) A HVu HVv) as (c1 & E & R & Ep1 & En1).
  pose proof (rl_ad _ _ _ R A) as A1.
  eexists. split_and!.
  - unfold NODE_LIST_DEL. erewrite run_bind; [|apply Prev_run; [done|done|by rewrite Ep]].
    erewrite run_bind; [|apply Next_run; [done|done|by rewrite En]]. rewrite Ep, En.
    erewrite run_bind by exact E. run. eauto with run.
  - eapply relinked_trans; [eapply relinked_mono; [|exact R]; set_solver|].
    repeat (eapply relinked_trans; [|apply relinked_set; [done|set_solver|done]]). apply relinked_refl.
  - split; [|done|rewrite Forall_forall; intros y Hy; apply HVy; set_solver].
    apply (ring_del (pre c) (nxt c) _ _ hd l1 p l2); [done|done| |]; intros y Hy;
      (assert (y ≠ p) by (by intros ->)); (assert (V y) by (apply HVy; set_solver));
      rewrite !atr_set by eauto 10 with run; (destruct (Z.eqb_spec y p); [done|]); [by apply Ep1|by apply En1].
  - split; rewrite !atr_set by eauto 10 with run; rewrite !Z.eqb_refl; done.
Qed.

(** A list is unaffected by changes elsewhere. *)
Lemma lru_frame c c' hd l :
  lru c hd l -> (forall i, i ∈ hd :: l -> a_prev (atr c' i) = a_prev (atr c i) /\ a_lnext (atr c' i) = a_lnext (atr c i)) ->
  lru c' hd l.
Proof. intros [R N F] He. split; [|done|done]. by apply (ring_ext (pre c) (nxt c)). Qed.

Lemma lru_relinked c c' hd l L : addressing c -> relinked c c' L -> Forall V L ->
  (forall i, i ∈ hd :: l -> i ∉ L) -> lru c hd l -> lru c' hd l.
Proof.
  intros A R HV Hdis L0. eapply lru_frame; [done|]. intros i Hi.
  rewrite (relinked_atr c c' L i); try done; [by eapply lru_V|by apply Hdis].
Qed.

End Addressing.

(** * The lists of node groups

    The rings of ng_list.h: the cells are the groups and the two heads in the
    shared [NG_INFO_T].  Adding and deleting a group are the list operations,
    and change nothing but the cells. *)


Section Cells.

Context {S X : Type} `{MallocBase S}.

Implicit Types (c : Cache S X) (p u v h hd : Z) (l : list Z).

Abbreviation headf c := (nodegroup_info_ (node_group c)).
Abbreviation headF c := (nodegroup_info_ (node_group c) + sizeof_NG_LIST_T).

(** The cell at [p]. *)
Definition cellv c p : NG_LIST_T :=
  if p =? headf c then ni_free_head (ni (node_group c))
  else if p =? headF c then ni_full_head (ni (node_group c))
  else from_option ng_list (mkNgList 0 0) (sets (node_group c) !! p).

(** [p] is a cell. *)
Definition is_cell c p : Prop :=
  p ≠ 0 /\ (p = headf c \/ p = headF c \/ is_Some (sets (node_group c) !! p)).

Definition put_cellv p (x : NG_LIST_T) c : Cache S X :=
  if p =? headf c then on_group (on_ni (fun i => set_heads x (ni_full_head i) i)) c
  else if p =? headF c then on_group (on_ni (fun i => set_heads (ni_free_head i) x i)) c
  else on_group (on_sets (alter (set_list x) p)) c.

Lemma get_cell_run c p : is_cell c p -> get_cell p c = Some (cellv c p, c).
Proof.
  intros [Hp Hc]. unfold get_cell, cellv. erewrite run_bind by apply run_gets. unfold not_null.
  destruct (Z.eqb_spec p INVALID_HANDLE); [done|]. erewrite run_bind by apply run_ret.
  destruct (Z.eqb_spec p (headf c)); [done|]. destruct (Z.eqb_spec p (headF c)); [done|].
  destruct Hc as [?|[?|[s Hs]]]; try done. unfold get_set, mbind, prog_bind. by rewrite Hs.
Qed.

Lemma put_cell_run c p x : is_cell c p -> put_cell p x c = Some (tt, put_cellv p x c).
Proof.
  intros [Hp Hc]. unfold put_cell, put_cellv. erewrite run_bind by apply run_gets. unfold not_null.
  destruct (Z.eqb_spec p INVALID_HANDLE); [done|]. erewrite run_bind by apply run_ret.
  destruct (Z.eqb_spec p (headf c)); [done|]. destruct (Z.eqb_spec p (headF c)); [done|].
  destruct Hc as [?|[?|[s Hs]]]; try done. unfold get_set, put_set, mbind, prog_bind. rewrite Hs. simpl.
  unfold modify. do 2 f_equal. unfold on_group, on_sets. f_equal. f_equal.
  apply map_eq. intros j. destruct (decide (j = p)) as [->|];
    [by rewrite lookup_insert_eq, lookup_alter_eq, Hs|by rewrite lookup_insert_ne, lookup_alter_ne].
Qed.

(** Only list cells differ. *)
Record recelled (c c' : Cache S X) : Prop := {
  rc_alloc : alloc c' = alloc c;
  rc_index : node_index c' = node_index c;
  rc_rest : rest c' = rest c;
  rc_attrs : attrs (node_group c') = attrs (node_group c);
  rc_info : exists a b, ni (node_group c') = set_heads a b (ni (node_group c));
  rc_group : nodegroup_info_ (node_group c') = nodegroup_info_ (node_group c)
    /\ step (node_group c') = step (node_group c) /\ fail (node_group c') = fail (node_group c)
    /\ empty_node_count (node_group c') = empty_node_count (node_group c)
    /\ empty_startup_mode (node_group c') = empty_startup_mode (node_group c);
  rc_sets : forall h, exists x, sets (node_group c') !! h = set_list x <$> (sets (node_group c) !! h)
}.

Lemma recelled_refl c : recelled c c.
Proof.
  split; try done.
  - exists (ni_free_head (ni (node_group c))), (ni_full_head (ni (node_group c))). by destruct (ni (node_group c)).
  - intros h. destruct (sets (node_group c) !! h) as [s|] eqn:E; [|by exists (mkNgList 0 0)].
    exists (ng_list s). simpl. by destruct s.
Qed.

Lemma recelled_trans c1 c2 c3 : recelled c1 c2 -> recelled c2 c3 -> recelled c1 c3.
Proof.
  intros [A1 B1 C1 D1 (x1 & y1 & E1) F1 G1] [A2 B2 C2 D2 (x2 & y2 & E2) F2 G2]. split; try congruence.
  - exists x2, y2. by rewrite E2, E1.
  - naive_solver congruence.
  - intros h. destruct (G1 h) as [u1 Hu1], (G2 h) as [u2 Hu2]. exists u2. rewrite Hu2, Hu1.
    by destruct (sets (node_group c1) !! h).
Qed.

Lemma recelled_put c p x : recelled c (put_cellv p x c).
Proof.
  unfold put_cellv. destruct (p =? headf c); [|destruct (p =? headF c)].
  - pose proof (recelled_refl c) as [????? _ G]. split; try done. simpl. by eexists _, _.
  - pose proof (recelled_refl c) as [????? _ G]. split; try done. simpl. by eexists _, _.
  - pose proof (recelled_refl c) as [???? E _ G]. split; try done. intros h. simpl.
    destruct (decide (h = p)) as [->|]; [rewrite lookup_alter_eq; by exists x|rewrite lookup_alter_ne by done; apply G].
Qed.

Lemma is_cell_recelled c c' p : recelled c c' -> is_cell c p -> is_cell c' p.
Proof.
  intros R [Hp Hc]. split; [done|]. destruct (rc_group _ _ R) as (-> & _).
  destruct Hc as [?|[?|[s Hs]]]; [tauto|tauto|]. right; right.
  destruct (rc_sets _ _ R p) as [x ->]. rewrite Hs. by eexists.
Qed.

Lemma cellv_put c p x q : is_cell c p -> cellv (put_cellv p x c) q = if q =? p then x else cellv c q.
Proof.
  intros [_ Hc]. unfold cellv, put_cellv.
  destruct (Z.eqb_spec p (headf c)) as [->|N1]; [|destruct (Z.eqb_spec p (headF c)) as [->|N2]]; simpl.
  - by zcase.
  - unfold sizeof_NG_LIST_T in *. zcase; simpl; try done; lia.
  - destruct (Z.eqb_spec q (headf c)), (Z.eqb_spec q (headF c)), (Z.eqb_spec q p); subst; try done.
    + rewrite lookup_alter_eq. destruct Hc as [?|[?|[s ->]]]; done.
    + by rewrite lookup_alter_ne.
Qed.

Lemma set_cell_prev_run c p v : is_cell c p ->
  set_cell_prev p v c = Some (tt, put_cellv p (mkNgList v (lst_next (cellv c p))) c).
Proof. intros Hp. unfold set_cell_prev. erewrite run_bind by by apply get_cell_run. by apply put_cell_run. Qed.

Lemma set_cell_next_run c p v : is_cell c p ->
  set_cell_next p v c = Some (tt, put_cellv p (mkNgList (lst_prev (cellv c p)) v) c).
Proof. intros Hp. unfold set_cell_next. erewrite run_bind by by apply get_cell_run. by apply put_cell_run. Qed.

Lemma is_cell_put c p x q : is_cell c q -> is_cell (put_cellv p x c) q.
Proof. apply is_cell_recelled, recelled_put. Qed.

Hint Resolve get_cell_run put_cell_run set_cell_prev_run set_cell_next_run is_cell_put : run.

(** The ring of the cells in [l] with head [hd]. *)
Record cells c hd l : Prop := {
  ce_ring : ring (fun p => lst_prev (cellv c p)) (fun p => lst_next (cellv c p)) hd l;
  ce_nodup : NoDup (hd :: l);
  ce_cell : Forall (is_cell c) (hd :: l)
}.

Lemma cells_frame c c' hd l : recelled c c' -> (forall p, p ∈ hd :: l -> cellv c' p = cellv c p) ->
  cells c hd l -> cells c' hd l.
Proof.
  intros R He [Hr Hn Hc]. split; [|done|].
  - eapply ring_ext; [|exact Hr]. intros y Hy. simpl. by rewrite He.
  - eapply Forall_impl; [exact Hc|]. intros p. by apply is_cell_recelled.
Qed.

Lemma cells_is c hd l p : cells c hd l -> p ∈ hd :: l -> is_cell c p.
Proof. intros C Hp. pose proof (ce_cell _ _ _ C) as HF. rewrite Forall_forall in HF. by apply HF. Qed.

Lemma recelled_put_trans c c' p x : recelled c c' -> recelled c (put_cellv p x c').
Proof. intros R. eapply recelled_trans; [exact R|apply recelled_put]. Qed.

Hint Resolve recelled_put_trans recelled_refl : run.

Lemma NG_LIST_ADD_run c hd p l : cells c hd l -> is_cell c p -> p ∉ hd :: l ->
  exists c', NG_LIST_ADD p hd c = Some (tt, c') /\ recelled c c' /\ cells c' hd (p :: l)
  /\ (forall q, q ∉ p :: hd :: l -> cellv c' q = cellv c q).
Proof.
  intros C Hp Np. pose proof C as [(Hd & Hpr & Hn) Hnd HF].
  assert (first_or hd l ∈ hd :: l) as Hf by apply first_or_hd.
  assert (is_cell c hd) as Ch by (eapply cells_is; [done|left]).
  assert (is_cell c (first_or hd l)) as Cf by (by eapply cells_is).
  assert (p ≠ hd) as Nh by (intros ->; set_solver). assert (p ≠ first_or hd l) as Nf by (intros ->; set_solver).
  assert (forall y, y ∈ hd :: p :: l -> is_cell c y) as HC.
  { rewrite Forall_forall in HF. intros y [->|[->|Hy]%elem_of_cons]%elem_of_cons; [done|done|]. apply HF. by right. }
  unfold NG_LIST_ADD. erewrite run_bind by by apply get_cell_run. rewrite Hn. unfold __NG_LIST_ADD. run.
  eexists. split; [eauto 10 with run|].
  match goal with |- recelled c ?c' /\ _ => assert (recelled c c') as R by eauto 10 with run end. split; [done|].
  assert (NoDup (hd :: p :: l)) as Hnd'.
  { apply NoDup_cons in Hnd as [??]. rewrite !NoDup_cons. set_solver. }
  match goal with |- cells ?c' _ _ /\ _ => assert (forall q, cellv c' q =
    mkNgList (if q =? p then hd else if q =? first_or hd l then p else lst_prev (cellv c q))
             (if q =? hd then p else if q =? p then first_or hd l else lst_next (cellv c q))) as Hcv end.
  { intros q. rewrite !cellv_put by eauto 10 with run.
    destruct (Z.eqb_spec q hd), (Z.eqb_spec q p), (Z.eqb_spec q (first_or hd l)); subst; zcase; try done; try lia;
      by destruct (cellv c q). }
  split.
  - split; [|apply NoDup_cons; apply NoDup_cons in Hnd as [??]; rewrite NoDup_cons; set_solver
            |rewrite Forall_forall; intros y Hy; eapply is_cell_recelled; [exact R|by apply HC]].
    eapply ring_add; [done|exact (conj Hd (conj Hpr Hn))| |]; intros y Hy; by rewrite Hcv.
  - intros q Hq. rewrite Hcv. assert (q ≠ first_or hd l) by (intros ->; set_solver).
    assert (q ≠ p /\ q ≠ hd) as [??] by set_solver. zcase; try done. by destruct (cellv c q).
Qed.

Lemma NG_LIST_DEL_run c hd l1 p l2 : cells c hd (l1 ++ p :: l2) ->
  exists c', NG_LIST_DEL p c = Some (tt, c') /\ recelled c c' /\ cells c' hd (l1 ++ l2)
  /\ (forall q, q ∉ hd :: l1 ++ p :: l2 -> cellv c' q = cellv c q).
Proof.
  intros C. pose proof C as [Hr Hnd HF]. destruct (ring_links _ _ _ _ _ _ Hr) as [Ep En].
  assert (last_or hd l1 ∈ hd :: l1) as Hu by apply last_or_hd.
  assert (first_or hd l2 ∈ hd :: l2) as Hv by apply first_or_hd.
  assert (NoDup (hd :: l1 ++ l2) /\ p ∉ hd :: l1 ++ l2) as [Hnd' Hp].
  { rewrite NoDup_cons, NoDup_app, NoDup_cons in Hnd. rewrite NoDup_cons, NoDup_app. set_solver. }
  assert (forall y, y ∈ hd :: l1 ++ p :: l2 -> is_cell c y) as HC by (intros; by eapply cells_is).
  assert (is_cell c (last_or hd l1)) as Cu by (apply HC; set_solver).
  assert (is_cell c (first_or hd l2)) as Cv by (apply HC; set_solver). assert (is_cell c p) as Cp by (apply HC; set_solver).
  assert (p ≠ last_or hd l1) as Nu by (intros E; rewrite <- E in Hu; set_solver).
  assert (p ≠ first_or hd l2) as Nv by (intros E; rewrite <- E in Hv; set_solver).
  unfold NG_LIST_DEL. erewrite run_bind by by apply get_cell_run. rewrite Ep, En. unfold __NG_LIST_DEL.
  erewrite run_bind; [|run; eauto 10 with run]. run.
  eexists. split; [eauto 10 with run|].
  match goal with |- recelled c ?c' /\ _ => assert (recelled c c') as R by eauto 10 with run end. split; [done|].
  match goal with |- cells ?c' _ _ /\ _ => assert (forall q, cellv c' q =
    if q =? p then mkNgList 0 0 else
    mkNgList (if q =? first_or hd l2 then last_or hd l1 else lst_prev (cellv c q))
             (if q =? last_or hd l1 then first_or hd l2 else lst_next (cellv c q))) as Hcv end.
  { intros q. rewrite !cellv_put by eauto 10 with run. unfold INVALID_HANDLE.
    destruct (Z.eqb_spec q p), (Z.eqb_spec q (last_or hd l1)), (Z.eqb_spec q (first_or hd l2)); subst;
      zcase; try done; try lia; by destruct (cellv c q). }
  split.
  - split; [|done|rewrite Forall_forall; intros y Hy; eapply is_cell_recelled; [exact R|apply HC; set_solver]].
    eapply ring_del; [done|exact Hr| |]; intros y Hy; rewrite Hcv;
      (destruct (Z.eqb_spec y p) as [->|]; [done|done]).
  - intros q Hq. rewrite Hcv. assert (q ≠ p /\ q ≠ last_or hd l1 /\ q ≠ first_or hd l2) as (? & ? & ?).
    { split_and!; [set_solver| |]; intros ->; set_solver. }
    zcase; try done. by destruct (cellv c q).
Qed.

End Cells.
