(* ===== verification/NodeGroups.v ===== *)
(** * Node groups: the invariant of node allocation

    The ghost state lists the groups in the order of their first ids, the
    groups on the free and on the full list, the released indices of each
    group and the second-level indices.  The invariant says how the structures
    in memory represent it.  Its consequence for the rest of the cache is that
    the live ids are an [addressing]. *)

From S2P Require Import Prelude DList PtMalloc PtMallocSpec MallocBase Node NodeLists.

Record ghost := mkGhost {
  gs : list Z;
  fre : list Z;
  ful : list Z;
  dels : Z -> list Z;
  secs : list Z;
  hp : heap
}.

(** The group number of an id, and the node it names. *)
Definition gidx (i : Z) : nat := Z.to_nat (i / 256).
Definition nd (G : ghost) (i : Z) : Node := (default 0 (gs G !! gidx i), i mod 256).

(** The released nodes of a group are linked through their handle fields. *)
Fixpoint dchain (vd : Z -> Z) (top : Z) (l : list Z) : Prop :=
  match l with
  | [] => True
  | i :: l => top = i /\ 0 <= vd i < 256 /\ dchain vd (vd i) l
  end.

Definition zsum (f : Z -> Z) (l : list Z) : Z := foldr (fun h n => f h + n) 0 l.

Section Groups.

Context {S X : Type} `{MallocLaws S}.

Implicit Types (c : Cache S X) (G : ghost) (h i : Z) (k : nat) (own : list Z).

Abbreviation sets_of c := (sets (node_group c)).
Abbreviation attrs_of c := (attrs (node_group c)).
Abbreviation info_of c := (nodegroup_info_ (node_group c)).
Abbreviation ni_of c := (ni (node_group c)).

(** Node [i] is allocated. *)
Definition live c G i : Prop :=
  0 <= i /\ exists h s, gs G !! gidx i = Some h /\ sets_of c !! h = Some s
  /\ i mod 256 < ng_free s /\ i mod 256 ∉ dels G h.

Definition vd_at c h i : Z := from_option a_vd 0 (attrs_of c !! (h, i)).

(** Group [k] at [h]. *)
Record set_ok c G k h (s : NODE_SET) : Prop := {
  so_nid : ng_nid s = 256 * Z.of_nat k;
  so_free : 0 <= ng_free s <= 256;
  so_count : dele_count s = Z.of_nat (length (dels G h));
  so_nodup : NoDup (dels G h);
  so_range : forall i, i ∈ dels G h -> 0 <= i < ng_free s;
  so_chain : dchain (vd_at c h) (dele_top s) (dels G h);
  so_top : 0 <= dele_top s < 256;
  so_attrs : forall i, 0 <= i < 256 -> is_Some (attrs_of c !! (h, i))
}.

(** The blocks in use: those of this component and those of its clients. *)
Definition blocks c G own : list Z := info_of c :: firstIndex (node_index c) :: secs G ++ gs G ++ own.

Record gmem c G own : Prop := {
  gm_rep : m_rep (alloc c) (hp G);
  gm_blocks : Forall (fun b => is_Some (hp G !! b)) (blocks c G own);
  gm_nodup : NoDup (blocks c G own);
  gm_info : exists n, hp G !! info_of c = Some n /\ sizeof_NG_INFO_T <= n;
  gm_len : Z.of_nat (length (gs G)) < 2 ^ 24;
  gm_secs : (length (secs G) <= 256)%nat;
  gm_cover : Z.of_nat (length (gs G)) <= 65536 * Z.of_nat (length (secs G))
}.

Record gsets c G : Prop := {
  gt_sets : forall k h, gs G !! k = Some h -> exists s, sets_of c !! h = Some s /\ set_ok c G k h s;
  gt_dom : forall h, is_Some (sets_of c !! h) -> h ∈ gs G;
  gt_sys : exists h s, gs G !! 0%nat = Some h /\ ni_sys_zone (ni_of c) = h /\ sets_of c !! h = Some s
    /\ ng_free s = 3 /\ dels G h = []
}.

Record glists c G : Prop := {
  gl_free : cells c (info_of c) (fre G);
  gl_full : cells c (info_of c + sizeof_NG_LIST_T) (ful G);
  gl_perm : fre G ++ ful G ≡ₚ tail (gs G)
}.

Record gfull c G : Prop := {
  gf_free : forall h s, h ∈ fre G -> sets_of c !! h = Some s -> is_full s = false;
  gf_full : forall h s, h ∈ ful G -> sets_of c !! h = Some s -> is_full s = true
}.

(** What the index holds for group [k]. *)
Definition slot1 k : nat := Z.to_nat (Z.of_nat k / 65536).
Definition second_of c G k : SECOND_INDEX_T :=
  default (mkSecond 0 ∅) (seconds (node_index c) !! default 0 (secs G !! slot1 k)).
Definition entry c G k : Z := aget (si_h (second_of c G k)) (Z.of_nat k mod 65536).

Record gindex c G : Prop := {
  gx_secs : forall (j : nat) h, secs G !! j = Some h ->
    aget (fi_h (node_index c)) (Z.of_nat j) = h /\ is_Some (seconds (node_index c) !! h);
  gx_entry : forall k h s, gs G !! k = Some h -> sets_of c !! h = Some s ->
    entry c G k = h \/ (entry c G k = 0 /\ ng_free s = 0);
  gx_rest : forall k, (length (gs G) <= k)%nat -> Z.of_nat k < 65536 * Z.of_nat (length (secs G)) -> entry c G k = 0
}.

(** Nodes in use in a group. *)
Definition busy c h : Z := from_option (fun s => ng_free s - dele_count s) 0 (sets_of c !! h).

Record gcount c G : Prop := {
  gn_min : ni_min_id (ni_of c) = 256 * Z.of_nat (length (gs G));
  gn_used_ng : ni_used_ng (ni_of c) = Z.of_nat (length (gs G));
  gn_used : ni_used_node (ni_of c) = zsum (busy c) (tail (gs G));
  gn_step : 1 <= step (node_group c) <= 4096
}.

Record ginv c G own : Prop := {
  gi_mem : gmem c G own;
  gi_sets : gsets c G;
  gi_lists : glists c G;
  gi_full : gfull c G;
  gi_index : gindex c G;
  gi_count : gcount c G
}.

(** ** Ids *)

Lemma id_split i : 0 <= i -> i = 256 * Z.of_nat (gidx i) + i mod 256.
Proof. intros. unfold gidx. rewrite Z2Nat.id by zdm. zdm. Qed.

Lemma gidx_id k i : 0 <= i < 256 -> gidx (256 * Z.of_nat k + i) = k /\ (256 * Z.of_nat k + i) mod 256 = i.
Proof.
  intros Hi. unfold gidx. split; [|zdm]. replace ((256 * Z.of_nat k + i) / 256) with (Z.of_nat k) by zdm. lia.
Qed.

Lemma OFFSET1_id i : 0 <= i -> OFFSET1 i = Z.of_nat (slot1 (gidx i)).
Proof.
  intros. unfold OFFSET1, slot1, gidx. rewrite Z.shiftr_div_pow2 by lia.
  rewrite !Z2Nat.id by (rewrite ?Z2Nat.id; zdm). zdm.
Qed.

Lemma OFFSET2_id i : 0 <= i -> OFFSET2 i = Z.of_nat (gidx i) mod 65536.
Proof.
  intros. unfold OFFSET2, gidx. rewrite Z2Nat.id by zdm.
  apply Z.bits_inj'. intros b Hb. rewrite Z.shiftr_spec, Z.land_spec by lia.
  change 65536 with (2 ^ 16). change 256 with (2 ^ 8). rewrite <- Z.shiftr_div_pow2 by lia.
  change 0xFFFF00 with (Z.shiftl (Z.ones 16) 8). rewrite Z.shiftl_spec by lia.
  replace (b + 8 - 8) with b by lia. rewrite Z.testbit_ones by lia.
  destruct (Z.lt_ge_cases b 16).
  - rewrite Z.mod_pow2_bits_low, Z.shiftr_spec by lia. zcase; simpl; try lia. by rewrite andb_true_r.
  - rewrite Z.mod_pow2_bits_high by lia. zcase; simpl; rewrite ?andb_false_r; (done || lia).
Qed.

(** ** The addressing *)

Lemma gs_NoDup c G own : gmem c G own -> NoDup (gs G).
Proof. intros M. pose proof (gm_nodup _ _ _ M) as Hn. unfold blocks in Hn. rewrite !NoDup_cons, !NoDup_app in Hn. tauto. Qed.

Lemma block_pos c G own b : gmem c G own -> b ∈ blocks c G own -> 0 < b.
Proof.
  intros M Hb. pose proof (gm_blocks _ _ _ M) as HF. rewrite Forall_forall in HF.
  destruct (HF b Hb) as [n Hn]. by destruct (m_rep_pos _ _ _ _ (gm_rep _ _ _ M) Hn).
Qed.

Lemma gs_block c G own h : h ∈ gs G -> h ∈ blocks c G own.
Proof. intros. unfold blocks. set_solver. Qed.

Lemma search_run c G own i h : gmem c G own -> gsets c G -> gindex c G -> 0 <= i ->
  gs G !! gidx i = Some h -> entry c G (gidx i) = h -> do_search i c = Some ((h, i mod 256), c).
Proof.
  intros M T I Hi Hh He. pose proof (gm_len _ _ _ M) as Hlen. pose proof (gm_cover _ _ _ M) as Hcov.
  pose proof (lookup_lt_Some _ _ _ Hh) as Hlt. pose proof (id_split i Hi) as Es.
  assert (0 < h) as Hpos by (eapply block_pos; [done|]; by eapply gs_block, list_elem_of_lookup_2).
  destruct (gt_sets _ _ T _ _ Hh) as (s & Hs & SO).
  unfold do_search. destruct (Z.eqb_spec i INVALID_NODE_ID) as [->|_]; [unfold INVALID_NODE_ID in *; zdm|].
  destruct (lookup_lt_is_Some_2 (secs G) (slot1 (gidx i))) as [b Hb]; [unfold slot1; zdm|].
  destruct (gx_secs _ _ I _ _ Hb) as [Ef [q Hq]].
  assert (0 < b) as Hbp.
  { eapply block_pos; [done|]. unfold blocks. apply list_elem_of_lookup_2 in Hb. set_solver. }
  assert (0 < firstIndex (node_index c)) by (eapply block_pos; [done|]; unfold blocks; set_solver).
  unfold get_fi. erewrite run_bind; [|erewrite run_bind by apply run_gets; unfold not_null;
    destruct (Z.eqb_spec (firstIndex (node_index c)) INVALID_HANDLE); [unfold INVALID_HANDLE in *; lia|];
    erewrite run_bind by apply run_ret; apply run_ret].
  rewrite OFFSET1_id, Ef by done. destruct (Z.eqb_spec b INVALID_HANDLE); [unfold INVALID_HANDLE in *; lia|].
  unfold get_second. erewrite run_bind; [|erewrite run_bind by apply run_gets; unfold lift; rewrite Hq; done].
  assert (aget (si_h q) (OFFSET2 i) = h) as ->.
  { rewrite OFFSET2_id by done. unfold entry, second_of in He. rewrite Hb in He. simpl in He. by rewrite Hq in He. }
  destruct (Z.eqb_spec h INVALID_HANDLE); [unfold INVALID_HANDLE in *; lia|].
  erewrite run_bind; [|unfold get_set; rewrite Hs; done]. rewrite (so_nid _ _ _ _ _ SO).
  replace (i - 256 * Z.of_nat (gidx i)) with (i mod 256) by lia.
  rewrite wrap_small by (unfold in_width; zdm). unfold sext.
  destruct (Z.ltb_spec (i mod 256) (2 ^ (32 - 1))); [|zdm].
  destruct (Z.ltb_spec (i mod 256) 0); [zdm|]. destruct (Z.ltb_spec 255 (i mod 256)); [zdm|done].
Qed.

Lemma live_addressing c G own : ginv c G own -> addressing (live c G) (nd G) c.
Proof.
  intros [M T L F I N]. pose proof (gm_len _ _ _ M) as Hlen. split.
  - intros i (Hi & h & s & Hh & Hs & _). pose proof (lookup_lt_Some _ _ _ Hh) as Hlt.
    destruct (gt_sets _ _ T _ _ Hh) as (s' & Hs' & SO). assert (s' = s) as -> by congruence.
    pose proof (id_split i Hi) as Es.
    unfold node_id, nd. rewrite Hh. simpl. erewrite run_bind; [|unfold get_set; simpl; rewrite Hs; done].
    rewrite (so_nid _ _ _ _ _ SO), <- Es. rewrite wrap_small by (unfold in_width; zdm). done.
  - intros i (Hi & h & s & Hh & Hs & Hf & _). unfold nd. rewrite Hh. simpl.
    eapply search_run; try done. destruct (gx_entry _ _ I _ _ _ Hh Hs) as [?|[_ ?]]; [done|zdm].
  - intros i (Hi & h & s & Hh & Hs & _). destruct (gt_sets _ _ T _ _ Hh) as (s' & Hs' & SO).
    unfold nd. rewrite Hh. simpl. apply (so_attrs _ _ _ _ _ SO). zdm.
Qed.

End Groups.
