(* ===== verification/NodeAlloc.v ===== *)
(** * Allocating node groups

    The effect of [allocate_ng] and of the pre-allocation loop on the
    invariant of the node groups.  Every operation is described by the ghost
    state after it and by [grown]: what it leaves alone. *)

From S2P Require Import Prelude DList PtMalloc PtMallocSpec MallocBase Node NodeLists NodeGroups.

#[local] Arguments init_attrs : simpl never.

Lemma dchain_ext vd vd' top l : (forall i, i ∈ l -> vd' i = vd i) -> dchain vd top l -> dchain vd' top l.
Proof.
  revert top. induction l as [|i l IH]; intros top E; simpl; [done|]. rewrite (E i) by left.
  intros (? & ? & ?). split_and!; try done; try lia. apply IH; [|done]. intros. apply E. by right.
Qed.

Section Frames.

Context {S X : Type} `{MallocLaws S}.

Implicit Types (c : Cache S X) (G : ghost) (h i v : Z) (k : nat) (own : list Z).

Abbreviation sets_of c := (sets (node_group c)).
Abbreviation attrs_of c := (attrs (node_group c)).
Abbreviation info_of c := (nodegroup_info_ (node_group c)).
Abbreviation ni_of c := (ni (node_group c)).

(** ** Changes of list cells *)

Definition with_lists G (f u : list Z) : ghost := mkGhost (gs G) f u (dels G) (secs G) (hp G).

Lemma recelled_set c c' h s' : recelled c c' -> sets_of c' !! h = Some s' ->
  exists s x, sets_of c !! h = Some s /\ s' = set_list x s.
Proof.
  intros R E. destruct (rc_sets _ _ R h) as [x Hx]. rewrite E in Hx.
  destruct (sets_of c !! h) as [s|]; [|done]. injection Hx as ->. by exists s, x.
Qed.

Lemma recelled_set_2 c c' h s : recelled c c' -> sets_of c !! h = Some s ->
  exists x, sets_of c' !! h = Some (set_list x s).
Proof. intros R E. destruct (rc_sets _ _ R h) as [x Hx]. exists x. by rewrite Hx, E. Qed.

Lemma recelled_ni c c' : recelled c c' ->
  ni_min_id (ni_of c') = ni_min_id (ni_of c) /\ ni_sys_zone (ni_of c') = ni_sys_zone (ni_of c)
  /\ ni_used_ng (ni_of c') = ni_used_ng (ni_of c) /\ ni_used_node (ni_of c') = ni_used_node (ni_of c)
  /\ ni_dirty_node (ni_of c') = ni_dirty_node (ni_of c) /\ ni_used_row (ni_of c') = ni_used_row (ni_of c)
  /\ ni_dirty_row (ni_of c') = ni_dirty_row (ni_of c).
Proof. intros R. destruct (rc_info _ _ R) as (a & b & ->). done. Qed.

Lemma gmem_recelled c c' G own f u : recelled c c' -> gmem c G own -> gmem c' (with_lists G f u) own.
Proof.
  intros R [M1 M2 M3 M4 M5 M6 M7]. destruct (rc_group _ _ R) as (Ei & _).
  split; simpl; unfold blocks in *; rewrite ?(rc_alloc _ _ R), ?(rc_index _ _ R), ?Ei; done.
Qed.

Lemma gsets_recelled c c' G f u : recelled c c' -> gsets c G -> gsets c' (with_lists G f u).
Proof.
  intros R [T1 T2 T3]. split; simpl.
  - intros k h Hk. destruct (T1 k h Hk) as (s & Hs & [O1 O2 O3 O4 O5 O6 O7 O8]).
    destruct (recelled_set_2 _ _ _ _ R Hs) as [x Hx]. exists (set_list x s). split; [done|].
    split; simpl; try done; unfold vd_at; by rewrite (rc_attrs _ _ R).
  - intros h [s' Hs']. destruct (recelled_set _ _ _ _ R Hs') as (s & x & Hs & _). apply T2. by eexists.
  - destruct T3 as (h & s & H1 & H2 & H3 & H4 & H5). destruct (recelled_set_2 _ _ _ _ R H3) as [x Hx].
    exists h, (set_list x s). destruct (recelled_ni _ _ R) as (_ & -> & _). done.
Qed.

Lemma gindex_recelled c c' G f u : recelled c c' -> gindex c G -> gindex c' (with_lists G f u).
Proof.
  intros R [I1 I2 I3]. split; simpl; unfold entry, second_of; rewrite ?(rc_index _ _ R); try done.
  intros k h s' Hk Hs'. destruct (recelled_set _ _ _ _ R Hs') as (s & x & Hs & ->). by apply (I2 k h s).
Qed.

Lemma busy_recelled c c' h : recelled c c' -> busy c' h = busy c h.
Proof.
  intros R. unfold busy. destruct (rc_sets _ _ R h) as [x ->]. by destruct (sets_of c !! h).
Qed.

Lemma zsum_ext f g l : (forall h, h ∈ l -> f h = g h) -> zsum f l = zsum g l.
Proof.
  induction l as [|h l IH]; intros E; [done|]. simpl. rewrite E by left. f_equal. apply IH. intros. apply E. by right.
Qed.

Lemma gcount_recelled c c' G f u : recelled c c' -> gcount c G -> gcount c' (with_lists G f u).
Proof.
  intros R [N1 N2 N3 N4]. destruct (recelled_ni _ _ R) as (E1 & _ & E2 & E3 & _). destruct (rc_group _ _ R) as (_ & Es & _).
  split; simpl; [congruence..| |by rewrite Es]. rewrite E3, N3. apply zsum_ext. intros. symmetry. by apply busy_recelled.
Qed.

Lemma live_recelled c c' G f u i : recelled c c' -> live c' (with_lists G f u) i <-> live c G i.
Proof.
  intros R. unfold live. simpl. split; intros (Hi & h & s & H1 & H2 & H3); (split; [done|]).
  - destruct (recelled_set _ _ _ _ R H2) as (s0 & x & Hs & ->). by exists h, s0.
  - destruct (recelled_set_2 _ _ _ _ R H2) as [x Hx]. by exists h, (set_list x s).
Qed.

Lemma cells_ext c c' hd l : (forall p, p ∈ hd :: l -> cellv c' p = cellv c p) ->
  (forall p, p ∈ hd :: l -> is_cell c p -> is_cell c' p) -> cells c hd l -> cells c' hd l.
Proof.
  intros He Hi [Hr Hn Hc]. split; [|done|].
  - eapply ring_ext; [|exact Hr]. intros y Hy. simpl. by rewrite He.
  - rewrite Forall_forall in Hc |- *. auto.
Qed.

(** ** The two lists *)

Lemma heads_apart c G own h : gmem c G own -> h ∈ gs G -> h ≠ info_of c /\ h ≠ info_of c + sizeof_NG_LIST_T.
Proof.
  intros M Hh. pose proof (gm_nodup _ _ _ M) as Hn. pose proof (gm_blocks _ _ _ M) as HF. rewrite Forall_forall in HF.
  destruct (gm_info _ _ _ M) as (n & Hi & Hsz).
  assert (h ≠ info_of c) as Hne by (intros ->; unfold blocks in Hn; rewrite !NoDup_cons in Hn; set_solver).
  split; [done|]. destruct (HF h (gs_block c G own h Hh)) as [m Hm].
  pose proof (m_rep_pos _ _ _ _ (gm_rep _ _ _ M) Hm). unfold sizeof_NG_INFO_T, sizeof_NG_LIST_T in *.
  destruct (m_rep_disjoint _ _ _ _ _ _ (gm_rep _ _ _ M) Hi Hm); [done|lia|lia].
Qed.

Lemma lists_NoDup c G own : gmem c G own -> glists c G -> NoDup (fre G ++ ful G).
Proof.
  intros M L. rewrite (gl_perm _ _ L). pose proof (gs_NoDup _ _ _ M) as Hn.
  destruct (gs G); simpl; [constructor|]. by apply NoDup_cons in Hn as [_ ?].
Qed.

Lemma lists_gs c G h : glists c G -> h ∈ fre G \/ h ∈ ful G -> h ∈ gs G.
Proof.
  intros L Hh. assert (h ∈ tail (gs G)) as Ht by (rewrite <- (gl_perm _ _ L), elem_of_app; done).
  destruct (gs G); [done|]. by right.
Qed.

(** A cell of one list is not a cell of the other. *)
Lemma cells_apart c G own : gmem c G own -> glists c G ->
  forall p, p ∈ info_of c :: fre G -> p ∈ (info_of c + sizeof_NG_LIST_T) :: ful G -> False.
Proof.
  intros M L p Hf Hu. pose proof (lists_NoDup _ _ _ M L) as Hn. rewrite NoDup_app in Hn. destruct Hn as (_ & Hd & _).
  pose proof (heads_apart c G own) as HA. unfold sizeof_NG_LIST_T in *.
  apply elem_of_cons in Hf as [->|Hf], Hu as [Hu|Hu].
  - lia.
  - destruct (HA (info_of c) M); [|done]. eapply lists_gs; eauto.
  - subst p. destruct (HA (info_of c + 16) M); [|done]. eapply lists_gs; eauto.
  - by apply (Hd p).
Qed.

Lemma group_cell c G own h : gmem c G own -> gsets c G -> h ∈ gs G -> is_cell c h.
Proof.
  intros M T Hh. split; [pose proof (block_pos _ _ _ h M (gs_block c G own h Hh)); lia|]. right; right.
  apply list_elem_of_lookup_1 in Hh as [k Hk]. destruct (gt_sets _ _ T _ _ Hk) as (s & -> & _). by eexists.
Qed.

(** The frame of the operations that only make groups. *)
Record grown c G c' G' : Prop := {
  gr_rest : rest c' = rest c;
  gr_live : forall i, live c' G' i <-> live c G i;
  gr_nd : forall i, live c G i -> nd G' i = nd G i;
  gr_attr : forall i, live c G i -> attrs_of c' !! nd G i = attrs_of c !! nd G i;
  gr_group : info_of c' = info_of c /\ ni_sys_zone (ni_of c') = ni_sys_zone (ni_of c)
    /\ ni_dirty_node (ni_of c') = ni_dirty_node (ni_of c) /\ ni_used_row (ni_of c') = ni_used_row (ni_of c)
    /\ ni_dirty_row (ni_of c') = ni_dirty_row (ni_of c) /\ ni_used_node (ni_of c') = ni_used_node (ni_of c)
    /\ empty_node_count (node_group c') = empty_node_count (node_group c)
    /\ empty_startup_mode (node_group c') = empty_startup_mode (node_group c);
  gr_secs : secs G' = secs G /\ firstIndex (node_index c') = firstIndex (node_index c);
  gr_heap : forall x, in_heap (hp G) x -> in_heap (hp G') x /\ load x (alloc c') = load x (alloc c)
}.

Lemma grown_refl c G : grown c G c G.
Proof. by split. Qed.

Lemma grown_trans c1 G1 c2 G2 c3 G3 : grown c1 G1 c2 G2 -> grown c2 G2 c3 G3 -> grown c1 G1 c3 G3.
Proof.
  intros [A1 B1 C1 D1 E1 F1 H1] [A2 B2 C2 D2 E2 F2 H2]. split.
  - congruence.
  - intros i. by rewrite B2, B1.
  - intros i Hi. rewrite C2, C1; [done..|by apply B1].
  - intros i Hi. rewrite <- (C1 i Hi), D2 by by apply B1. rewrite C1 by done. by apply D1.
  - split_conj. split_and!; congruence.
  - split_conj. split_and!; congruence.
  - intros x Hx. destruct (H1 x Hx) as [Hx2 L1]. destruct (H2 x Hx2) as [Hx3 L2]. split; [done|congruence].
Qed.

(** ** A new group *)

Definition blank_set (id : Z) : NODE_SET := mkNodeSet (mkNgList INVALID_HANDLE INVALID_HANDLE) 0 0 0 id.

Definition new_group v (a : S) c : Cache S X :=
  on_group (on_ni (fun x => set_used_ng (wrap 32 (ni_used_ng x + 1))
                              (set_min_id (wrap 32 (ni_min_id x + NODE_GROUP_INCLUDE_NODES)) x)))
    (on_group (on_attrs (init_attrs v (ni_min_id (ni_of c))))
      (on_group (on_sets (<[v := blank_set (ni_min_id (ni_of c))]>)) (set_alloc a c))).

Definition with_group G v m : ghost :=
  mkGhost (gs G ++ [v]) (v :: fre G) (ful G) (fun h => if h =? v then [] else dels G h) (secs G) (<[v := m]> (hp G)).

Lemma init_attrs_lookup v (id j : Z) (l : list nat) (m : gmap Node NodeAttr) h :
  fold_right (fun (y : nat) m => <[(v, Z.of_nat y) := fresh_attr id (Z.of_nat y)]> m) m l !! (h, j)
  = if decide (h = v /\ 0 <= j /\ Z.to_nat j ∈ l) then Some (fresh_attr id j) else m !! (h, j).
Proof.
  induction l as [|i l IH]; simpl.
  - case_decide; [set_solver|done].
  - destruct (decide ((v, Z.of_nat i) = (h, j))) as [[= -> <-]|Hne].
    + rewrite lookup_insert_eq, decide_True; [done|]. split_and!; [done|lia|]. rewrite Nat2Z.id. left.
    + rewrite lookup_insert_ne by done. rewrite IH. apply decide_ext. rewrite elem_of_cons.
      split; intros (-> & Hj & Hl); split_and!; auto. destruct Hl as [Hl|Hl]; [|done].
      destruct Hne. f_equal. lia.
Qed.

Lemma new_group_attrs v a c h j :
  attrs_of (new_group v a c) !! (h, j)
  = if decide (h = v /\ 0 <= j < 256) then Some (fresh_attr (ni_min_id (ni_of c)) j) else attrs_of c !! (h, j).
Proof.
  change (attrs_of (new_group v a c)) with (init_attrs v (ni_min_id (ni_of c)) (attrs_of c)).
  unfold init_attrs. rewrite init_attrs_lookup. apply decide_ext. rewrite elem_of_seq.
  split; intros (-> & ?); split_and!; lia.
Qed.

#[local] Opaque init_attrs.

Lemma new_group_sets v a c h : sets_of (new_group v a c) !! h
  = if h =? v then Some (blank_set (ni_min_id (ni_of c))) else sets_of c !! h.
Proof. simpl. destruct (Z.eqb_spec h v) as [->|]; [by rewrite lookup_insert_eq|by rewrite lookup_insert_ne]. Qed.

Lemma M_CALLOC_run c (A : heap) n : m_rep (alloc c) A -> 0 <= n < 2 ^ 32 ->
  exists h a, M_CALLOC n c = Some (h, set_alloc a c)
  /\ (forall x, in_heap A x -> load x a = load x (alloc c))
  /\ (h = INVALID_HANDLE /\ m_rep a A
      \/ exists m, n <= m /\ h ≠ INVALID_HANDLE /\ A !! h = None /\ m_rep a (<[h := m]> A)).
Proof.
  intros R Hn. destruct (m_Calloc_ok _ _ n R Hn) as (h & a & E & K & O).
  exists h, a. split; [|done]. unfold M_CALLOC. rewrite wrap_small by done. by rewrite E.
Qed.

Lemma info_run c : info_of c ≠ INVALID_HANDLE -> info c = Some (node_group c, c).
Proof.
  intros Hp. unfold info. erewrite run_bind by apply run_gets. unfold not_null.
  by destruct (Z.eqb_spec (info_of c) INVALID_HANDLE).
Qed.

Lemma upd_info_run c f : info_of c ≠ INVALID_HANDLE -> upd_info f c = Some (tt, on_group (on_ni f) c).
Proof. intros Hp. unfold upd_info. by erewrite run_bind by by apply info_run. Qed.

Lemma info_pos c G own : gmem c G own -> info_of c ≠ INVALID_HANDLE.
Proof.
  intros M. assert (0 < info_of c) by (eapply block_pos; [done|]; unfold blocks; set_solver).
  unfold INVALID_HANDLE. lia.
Qed.

Lemma gmem_alloc c G own a : m_rep a (hp G) -> gmem c G own -> gmem (set_alloc a c) G own.
Proof. intros Ha [M1 M2 M3 M4 M5 M6 M7]. by split. Qed.

Lemma allocate_ng_run c (A : heap) : m_rep (alloc c) A -> info_of c ≠ INVALID_HANDLE ->
  exists v a, (forall x, in_heap A x -> load x a = load x (alloc c))
  /\ (allocate_ng c = Some (INVALID_HANDLE, set_alloc a c) /\ v = INVALID_HANDLE /\ m_rep a A
      \/ allocate_ng c = Some (v, new_group v a c)
         /\ exists m, v ≠ INVALID_HANDLE /\ A !! v = None /\ m_rep a (<[v := m]> A)).
Proof.
  intros R Hi. destruct (M_CALLOC_run c A NODE_SET_Size R) as (v & a & E & K & O); [done|].
  exists v, a. split; [done|]. unfold allocate_ng. erewrite run_bind by exact E.
  destruct O as [[-> Ha]|(m & _ & Hv & Hf & Ha)]; [left; done|right].
  destruct (Z.eqb_spec v INVALID_HANDLE); [done|]. split; [|by exists m].
  erewrite run_bind by (by apply info_run). unfold set_do_init.
  erewrite run_bind; [|erewrite run_bind by apply run_modify; apply run_modify].
  by erewrite run_bind by by apply upd_info_run.
Qed.

Lemma blank_ok c G k v id : dels G v = [] -> id = 256 * Z.of_nat k ->
  (forall i, 0 <= i < 256 -> is_Some (attrs_of c !! (v, i))) -> set_ok c G k v (blank_set id).
Proof.
  intros Ed -> Ha. split; rewrite ?Ed; simpl; try done; try lia.
  - constructor.
  - intros i Hi. by apply not_elem_of_nil in Hi.
Qed.

Section New.

Context c G own v (a : S) (m : Z) (M : gmem c G own) (T : gsets c G) (L : glists c G) (F : gfull c G)
  (I : gindex c G) (N : gcount c G) (Hv : v ≠ INVALID_HANDLE) (Hf : hp G !! v = None)
  (Ha : m_rep a (<[v := m]> (hp G)))
  (Hroom : Z.of_nat (length (gs G)) + 1 < 65536 * Z.of_nat (length (secs G))).

Lemma new_fresh : v ∉ blocks c G own.
Proof.
  intros Hb. pose proof (gm_blocks _ _ _ M) as HF. rewrite Forall_forall in HF.
  destruct (HF v Hb) as [n Hn]. congruence.
Qed.

Lemma new_not_gs h : h ∈ gs G -> h ≠ v.
Proof. intros Hh ->. by apply new_fresh, gs_block. Qed.

Lemma new_heads : v ≠ info_of c /\ v ≠ info_of c + sizeof_NG_LIST_T.
Proof.
  destruct (gm_info _ _ _ M) as (n & Hi & Hsz). assert (v ≠ info_of c) as Hne by congruence. split; [done|].
  assert (<[v := m]> (hp G) !! v = Some m) as E1 by apply lookup_insert_eq.
  assert (<[v := m]> (hp G) !! info_of c = Some n) as E2 by (by rewrite lookup_insert_ne).
  pose proof (m_rep_pos _ _ _ _ Ha E1). unfold sizeof_NG_INFO_T, sizeof_NG_LIST_T in *.
  destruct (m_rep_disjoint _ _ _ _ _ _ Ha E1 E2); [done|lia|lia].
Qed.

Lemma gmem_new : gmem (new_group v a c) (with_group G v m) own.
Proof.
  pose proof M as [M1 M2 M3 M4 M5 M6 M7]. split; simpl.
  - done.
  - rewrite Forall_forall in *. intros b Hb. destruct (decide (b = v)) as [->|Hne]; [rewrite lookup_insert_eq; by eexists|].
    rewrite lookup_insert_ne by done. apply M2. unfold blocks in *. simpl in *. set_solver.
  - assert (blocks (new_group v a c) (with_group G v m) own ≡ₚ v :: blocks c G own) as ->.
    { unfold blocks. simpl. rewrite <- !app_assoc. simpl. solve_Permutation. }
    apply NoDup_cons. split; [apply new_fresh|done].
  - destruct M4 as (n & Hn & Hs). exists n. rewrite lookup_insert_ne; [done|]. congruence.
  - rewrite length_app. simpl. lia.
  - done.
  - rewrite length_app. simpl. lia.
Qed.

Lemma gsets_new : gsets (new_group v a c) (with_group G v m).
Proof.
  pose proof T as [T1 T2 T3]. split.
  - intros k h Hk. simpl in Hk. rewrite new_group_sets. apply lookup_app_Some in Hk as [Hk|[Hlen Hk]].
    + pose proof (new_not_gs h ltac:(by eapply list_elem_of_lookup_2)) as Hne.
      destruct (T1 k h Hk) as (s & Hs & [O1 O2 O3 O4 O5 O6 O7 O8]). destruct (Z.eqb_spec h v); [done|].
      assert (forall i, attrs_of (new_group v a c) !! (h, i) = attrs_of c !! (h, i)) as EA.
      { intros i. rewrite new_group_attrs. by rewrite decide_False by tauto. }
      exists s. split; [done|]. split; simpl; destruct (Z.eqb_spec h v); try done.
      * eapply dchain_ext; [|exact O6]. intros i _. unfold vd_at. by rewrite EA.
      * intros i Hi. rewrite EA. auto.
    + apply list_lookup_singleton_Some in Hk as [Hk <-]. rewrite Z.eqb_refl. eexists; split; [done|].
      apply blank_ok; [simpl; by rewrite Z.eqb_refl|rewrite (gn_min _ _ N); lia|].
      intros i Hi. rewrite new_group_attrs, decide_True by done. by eexists.
  - intros h. rewrite new_group_sets. simpl. destruct (Z.eqb_spec h v) as [->|]; [set_solver|].
    intros Hh. apply T2 in Hh. set_solver.
  - destruct T3 as (h & s & H1 & H2 & H3 & H4 & H5). exists h, s.
    pose proof (new_not_gs h ltac:(by eapply list_elem_of_lookup_2)) as Hne.
    rewrite new_group_sets. simpl. destruct (Z.eqb_spec h v); [done|]. split_and!; try done.
    by apply lookup_app_l_Some.
Qed.

Lemma gindex_new : gindex (new_group v a c) (with_group G v m).
Proof.
  pose proof I as [I1 I2 I3].
  assert (forall k, entry (new_group v a c) (with_group G v m) k = entry c G k) as EE by done.
  split; simpl; [done| |].
  - intros k h s Hk. change (sets_of (new_group v a c) !! h = Some s -> entry c G k = h \/ entry c G k = 0 /\ ng_free s = 0).
    rewrite new_group_sets. apply lookup_app_Some in Hk as [Hk|[Hlen Hk]].
    + pose proof (new_not_gs h ltac:(by eapply list_elem_of_lookup_2)) as Hne.
      destruct (Z.eqb_spec h v); [done|]. by apply I2.
    + apply list_lookup_singleton_Some in Hk as [Hk <-]. rewrite Z.eqb_refl. intros [= <-]. right.
      split; [|done]. apply I3; lia.
  - rewrite length_app. simpl. intros k Hk1 Hk2. change (entry c G k = 0). apply I3; lia.
Qed.

Lemma tail_snoc : tail (gs G ++ [v]) = tail (gs G) ++ [v].
Proof. clear -T. destruct (gt_sys _ _ T) as (h & s & Hk & _). by destruct (gs G). Qed.

Lemma zsum_app f l1 l2 : zsum f (l1 ++ l2) = zsum f l1 + zsum f l2.
Proof. clear. induction l1 as [|h l1 IH]; simpl; [done|]. rewrite IH. lia. Qed.

Lemma gcount_new : gcount (new_group v a c) (with_group G v m).
Proof.
  pose proof N as [N1 N2 N3 N4]. pose proof (gm_secs _ _ _ M) as Hs. split.
  - change (ni_min_id (ni_of (new_group v a c))) with (wrap 32 (ni_min_id (ni_of c) + NODE_GROUP_INCLUDE_NODES)).
    simpl. rewrite length_app, N1. simpl. unfold NODE_GROUP_INCLUDE_NODES. rewrite wrap_small; [lia|]. split; lia.
  - change (ni_used_ng (ni_of (new_group v a c))) with (wrap 32 (ni_used_ng (ni_of c) + 1)).
    simpl. rewrite length_app, N2. simpl. rewrite wrap_small; [lia|]. split; lia.
  - change (ni_used_node (ni_of (new_group v a c))) with (ni_used_node (ni_of c)).
    simpl. rewrite tail_snoc, zsum_app, N3. simpl.
    assert (busy (new_group v a c) v = 0) as -> by (unfold busy; rewrite new_group_sets, Z.eqb_refl; done).
    simpl. rewrite !Z.add_0_r. apply zsum_ext. intros h Hh. unfold busy. rewrite new_group_sets.
    assert (h ∈ gs G) by (destruct (gs G); [done|by right]).
    pose proof (new_not_gs h ltac:(done)). by destruct (Z.eqb_spec h v).
  - done.
Qed.

(** The cells of the groups that were there. *)
Lemma new_cells hd l : (hd = info_of c \/ hd = info_of c + sizeof_NG_LIST_T) -> (forall h, h ∈ l -> h ∈ gs G) ->
  cells c hd l -> cells (new_group v a c) hd l.
Proof.
  intros Hh Hl. destruct new_heads as [Hv1 Hv2].
  assert (forall p, p ∈ hd :: l -> p ≠ v) as Hpv.
  { intros p [->|Hp]%elem_of_cons; [destruct Hh; congruence|by apply new_not_gs, Hl]. }
  apply cells_ext.
  - intros p Hp. unfold cellv. rewrite new_group_sets. pose proof (Hpv p Hp). by destruct (Z.eqb_spec p v).
  - intros p Hp [Hp0 Hc]. split; [done|]. rewrite new_group_sets. pose proof (Hpv p Hp). by destruct (Z.eqb_spec p v).
Qed.

Lemma new_live i : live (new_group v a c) (with_group G v m) i <-> live c G i.
Proof.
  unfold live. split; intros (Hi & h & s & H1 & H2 & H3 & H4); (split; [done|]).
  - simpl in H1. rewrite new_group_sets in H2. apply lookup_app_Some in H1 as [H1|[_ H1]].
    + pose proof (new_not_gs h ltac:(by eapply list_elem_of_lookup_2)). simpl in H4.
      destruct (Z.eqb_spec h v); [done|]. by exists h, s.
    + apply list_lookup_singleton_Some in H1 as [_ <-]. rewrite Z.eqb_refl in H2. injection H2 as <-. simpl in H3. zdm.
  - pose proof (new_not_gs h ltac:(by eapply list_elem_of_lookup_2)). exists h, s. rewrite new_group_sets. simpl.
    destruct (Z.eqb_spec h v); [done|]. split_and!; try done. by apply lookup_app_l_Some.
Qed.

Lemma gfull_new : gfull (new_group v a c) (with_group G v m).
Proof.
  split; simpl.
  - intros h s Hh. change (sets_of (new_group v a c) !! h = Some s -> is_full s = false). rewrite new_group_sets.
    destruct (Z.eqb_spec h v); [by intros [= <-]|]. apply elem_of_cons in Hh as [?|Hh]; [done|]. by apply (gf_free _ _ F).
  - intros h s Hh. change (sets_of (new_group v a c) !! h = Some s -> is_full s = true). rewrite new_group_sets.
    pose proof (new_not_gs h (lists_gs _ _ _ L (or_intror Hh))). destruct (Z.eqb_spec h v); [done|]. by apply (gf_full _ _ F).
Qed.

End New.

Lemma gfull_recelled c c' G : recelled c c' -> gfull c G -> gfull c' G.
Proof.
  intros R [F1 F2]. split; intros h s' Hh Hs'; destruct (recelled_set _ _ _ _ R Hs') as (s & x & Hs & ->);
    [by apply (F1 h s)|by apply (F2 h s)].
Qed.

Lemma free_list_add_new c G own v a m : ginv c G own -> v ≠ INVALID_HANDLE -> hp G !! v = None ->
  m_rep a (<[v := m]> (hp G)) -> Z.of_nat (length (gs G)) + 1 < 65536 * Z.of_nat (length (secs G)) ->
  exists c', free_list_add v (new_group v a c) = Some (tt, c') /\ recelled (new_group v a c) c'
  /\ ginv c' (with_group G v m) own.
Proof.
  intros [M T L F I N] Hv Hf Ha Hroom. pose proof L as [Lf Lu Lp].
  destruct (new_heads c G own v a m M Hf Ha) as [Hv1 Hv2].
  assert (v ∉ gs G) as Hvg by (intros Hg; by apply (new_not_gs c G own v M Hf v Hg)).
  assert (forall h, h ∈ fre G \/ h ∈ ful G -> h ∈ gs G) as Hgs by (intros; by eapply lists_gs).
  destruct (NG_LIST_ADD_run (new_group v a c) (info_of c) v (fre G)) as (c' & E & R & Cf & Co).
  - by eapply (new_cells c G own v a m M Hf Ha); eauto.
  - split; [done|]. right; right. rewrite new_group_sets, Z.eqb_refl. by eexists.
  - rewrite not_elem_of_cons. split; [done|]. intros Hx. apply Hvg. auto.
  - destruct (rc_group _ _ R) as (Ei & _). change (info_of (new_group v a c)) with (info_of c) in Ei.
    exists c'. split_and!; [exact E|done|]. split.
    + apply (gmem_recelled _ _ (with_group G v m) _ (v :: fre G) (ful G) R). by eapply gmem_new.
    + apply (gsets_recelled _ _ (with_group G v m) (v :: fre G) (ful G) R). by eapply gsets_new.
    + split; simpl; rewrite ?Ei; [done| |].
      * eapply (cells_ext (new_group v a c)); [..|by eapply (new_cells c G own v a m M Hf Ha); eauto].
        -- intros p Hp. apply Co. rewrite !not_elem_of_cons. split_and!.
           ++ intros ->. apply elem_of_cons in Hp as [?|?]; [done|]. apply Hvg. auto.
           ++ intros ->. eapply cells_apart; [done|done|left|done].
           ++ intros Hp'. eapply cells_apart; [done|done|by right|done].
        -- intros p _. by apply is_cell_recelled.
      * rewrite (tail_snoc c G v T), <- Lp. simpl. by rewrite <- Permutation_cons_append.
    + eapply gfull_recelled; [done|]. by eapply gfull_new.
    + apply (gindex_recelled _ _ (with_group G v m) (v :: fre G) (ful G) R). by eapply gindex_new.
    + apply (gcount_recelled _ _ (with_group G v m) (v :: fre G) (ful G) R). by eapply gcount_new.
Qed.

Lemma grown_new c G own v a m c' : ginv c G own -> hp G !! v = None ->
  (forall x, in_heap (hp G) x -> load x a = load x (alloc c)) ->
  recelled (new_group v a c) c' -> grown c G c' (with_group G v m).
Proof.
  intros [M T L F I N] Hf Hb R.
  assert (forall h, h ∈ gs G -> h ≠ v) as Hne by (intros; by eapply new_not_gs).
  destruct (recelled_ni _ _ R) as (_ & E1 & _ & E2 & E3 & E4 & E5). destruct (rc_group _ _ R) as (E6 & E7 & E8 & E9 & E10).
  split.
  - by rewrite (rc_rest _ _ R).
  - intros i. rewrite <- (new_live c G own v a m M Hf i). by apply (live_recelled _ _ (with_group G v m) (v :: fre G) (ful G)).
  - intros i (_ & h & s & Hh & _). unfold nd. simpl. by rewrite (lookup_app_l_Some _ _ _ _ Hh), Hh.
  - intros i (_ & h & s & Hh & _). rewrite (rc_attrs _ _ R). unfold nd. rewrite Hh. simpl default. rewrite new_group_attrs, decide_False; [done|].
    intros [? _]. eapply Hne; [by eapply list_elem_of_lookup_2|done].
  - by rewrite E1, E2, E3, E4, E5, E6, E9, E10.
  - by rewrite (rc_index _ _ R).
  - intros x Hx. rewrite (rc_alloc _ _ R). split; [|by apply Hb].
    destruct Hx as (h & n & Hh & ?). exists h, n. split; [|done]. simpl. rewrite lookup_insert_ne; [done|congruence].
Qed.

(** ** The pre-allocation loop *)

(** The invariant does not look at the memory the groups are carved from, nor
    at the other fields of the group structure. *)
Lemma ginv_ext c c' G own : m_rep (alloc c') (hp G) -> node_index c' = node_index c -> info_of c' = info_of c ->
  ni_of c' = ni_of c -> sets_of c' = sets_of c -> attrs_of c' = attrs_of c -> 1 <= step (node_group c') <= 4096 ->
  ginv c G own -> ginv c' G own.
Proof.
  intros Ha Ex Ei En Es Et Hst [M [T1 T2 T3] [L1 L2 L3] [F1 F2] [I1 I2 I3] [N1 N2 N3 N4]].
  assert (forall p, cellv c' p = cellv c p) as Hc by (intros; unfold cellv; by rewrite Ei, En, Es).
  assert (forall p, is_cell c p -> is_cell c' p) as Hi by (intros p; unfold is_cell; by rewrite Ei, Es).
  split.
  - destruct M. by split; unfold blocks in *; rewrite ?Ei, ?Ex.
  - split; rewrite ?Es, ?En; [|done..]. intros k h Hk. destruct (T1 k h Hk) as (s & Hs & [O1 O2 O3 O4 O5 O6 O7 O8]).
    exists s. split; [done|]. by split; unfold vd_at; rewrite ?Et.
  - split; rewrite ?Ei; [by eapply cells_ext; [..|exact L1]; auto|by eapply cells_ext; [..|exact L2]; auto|done].
  - split; rewrite Es; done.
  - split; unfold entry, second_of; rewrite ?Ex, ?Es; done.
  - split; rewrite ?En; [done..| |done]. rewrite N3. apply zsum_ext. intros h _. unfold busy. by rewrite Es.
Qed.

Lemma ginv_alloc c G own a : m_rep a (hp G) -> ginv c G own -> ginv (set_alloc a c) G own.
Proof. intros Ha J. eapply ginv_ext; [..|exact J]; try done. apply (gn_step _ _ (gi_count _ _ _ J)). Qed.

Lemma ginv_statics c G own z b : 1 <= z <= 4096 -> ginv c G own -> ginv (on_group (set_statics z b) c) G own.
Proof. intros Hz J. eapply ginv_ext; [..|exact J]; try done. apply (gm_rep _ _ _ (gi_mem _ _ _ J)). Qed.

Lemma grown_alloc c G a : (forall x, in_heap (hp G) x -> load x a = load x (alloc c)) -> grown c G (set_alloc a c) G.
Proof. intros Ha. by split; auto. Qed.

Lemma grown_statics c G z b : grown c G (on_group (set_statics z b) c) G.
Proof. by split. Qed.

Lemma grow_groups_run (k : nat) i c G own :
  ginv c G own -> Z.of_nat (length (gs G)) + Z.of_nat k < 65536 * Z.of_nat (length (secs G)) ->
  0 <= i -> (i ≠ 0 -> fre G ≠ []) ->
  exists b c' G', grow_groups k i c = Some (b, c') /\ ginv c' G' own /\ grown c G c' G'
  /\ (length (gs G') <= length (gs G) + k)%nat
  /\ (b = true -> (0 < k)%nat \/ i ≠ 0 -> fre G' ≠ []).
Proof.
  revert i c G. induction k as [|k IH]; intros i c G J Hr Hi Hne; simpl.
  { exists true, c, G. split_and!; [done|done|apply grown_refl|lia|]. intros _ [?|?]; [lia|auto]. }
  destruct (allocate_ng_run c (hp G) (gm_rep _ _ _ (gi_mem _ _ _ J)) (info_pos _ _ _ (gi_mem _ _ _ J))) as (v & a & Hb & [(E & -> & Ha)|(E & m & Hv & Hf & Ha)]).
  - erewrite run_bind by exact E. rewrite Z.eqb_refl.
    assert (ginv (set_alloc a c) G own) as J' by by apply ginv_alloc.
    destruct (Z.eqb_spec i 0) as [->|Hi0].
    + exists false, (set_alloc a c), G. split_and!; [done|done|by apply grown_alloc|lia|done].
    + erewrite run_bind by apply run_modify. eexists true, _, G. split_and!; [done|by apply ginv_statics| |lia|auto].
      eapply grown_trans; [by apply grown_alloc|apply grown_statics].
  - erewrite run_bind by exact E. destruct (Z.eqb_spec v INVALID_HANDLE); [done|].
    destruct (free_list_add_new c G own v a m) as (c1 & E1 & R & J1); [done..|lia|].
    erewrite run_bind by exact E1. pose proof (grown_new c G own v a m c1 J Hf Hb R) as W.
    assert (length (gs (with_group G v m)) = length (gs G) + 1)%nat as Hl by (simpl; by rewrite length_app).
    destruct (IH (i + 1) c1 (with_group G v m)) as (b & c' & G' & E2 & J2 & W2 & Hk & Hfre); [done|simpl secs; lia|lia|done|].
    exists b, c', G'. split_and!; [done|done|by eapply grown_trans|lia|].
    intros Hbt _. apply Hfre; [done|]. right. lia.
Qed.

Lemma find_free_ng_run c G own : ginv c G own ->
  find_free_ng c = Some (default INVALID_HANDLE (head (fre G)), c).
Proof.
  intros [M T L F I N]. destruct (gl_free _ _ L) as [(Hd & Hp & Hn) Hnd Hc].
  assert (is_cell c (info_of c)) as Hcell by (by inversion Hc).
  unfold find_free_ng, free_head. erewrite run_bind by (by erewrite run_bind by apply run_gets).
  unfold NG_LIST_EMPTY. erewrite run_bind; [|by erewrite run_bind by by apply get_cell_run].
  rewrite Hn. destruct (fre G) as [|h l]; [simpl; by rewrite Z.eqb_refl|].
  change (first_or (info_of c) (h :: l)) with h in *. change (default INVALID_HANDLE (head (h :: l))) with h.
  destruct (Z.eqb_spec h (info_of c)) as [->|].
  { apply NoDup_cons in Hnd as [Hnd _]. set_solver. }
  erewrite run_bind by by apply get_cell_run. by rewrite Hn.
Qed.

(** Room in the index for the groups one call may add. *)
Definition room c G : Prop :=
  Z.of_nat (length (gs G)) + step (node_group c) < 65536 * Z.of_nat (length (secs G)).

Lemma more_groups_run c G own : ginv c G own -> room c G ->
  exists r c' G', more_groups c = Some (r, c') /\ ginv c' G' own /\ grown c G c' G'
  /\ (length (gs G') <= length (gs G) + Z.to_nat (step (node_group c)))%nat
  /\ match r with None => True | Some ns => head (fre G') = Some ns end.
Proof.
  intros J Hr. pose proof (gn_step _ _ (gi_count _ _ _ J)) as Hst. unfold room in Hr.
  unfold more_groups. erewrite run_bind by apply run_gets.
  destruct (grow_groups_run (Z.to_nat (step (node_group c))) 0 c G own J) as (b & c1 & G1 & E & J1 & W & Hl & Hf);
    [lia|lia|done|].
  erewrite run_bind by exact E. destruct b; cbn [negb]; [|exists None, c1, G1; done].
  erewrite run_bind by by eapply find_free_ng_run. erewrite run_bind by apply run_modify.
  pose proof (gn_step _ _ (gi_count _ _ _ J1)) as Hst1. exists (Some (default INVALID_HANDLE (head (fre G1)))).
  assert (fre G1 ≠ []) as Hne by (apply Hf; [done|left; lia]).
  assert (head (fre G1) = Some (default INVALID_HANDLE (head (fre G1)))) as Hh by (by destruct (fre G1)).
  destruct ((step (node_group c1) <? 256) && negb (fail (node_group c1))) eqn:Eb.
  - pose proof Eb as [Eb'%Z.ltb_lt _]%andb_true_iff.
    exists (on_group (set_statics (step (node_group c1) * 2) (fail (node_group c1))) c1), G1. split_and!; [|apply ginv_statics; [lia|done]|eapply grown_trans; [done|apply grown_statics]|done|done].
    destruct c1 as [x1 x2 x3 x4]. unfold on_group. simpl in *. by rewrite Eb.
  - exists c1, G1. split_and!; try done. destruct c1 as [x1 x2 x3 x4]. unfold on_group. simpl in *. by rewrite Eb.
Qed.

End Frames.
