(* ===== verification/NodeOps.v ===== *)
(** * Allocating and releasing nodes

    [NGInfo::allocate_node] hands out an id that was not live and leaves every
    live node alone; [NGInfo::release_node] takes one live id away.  Both keep
    the invariant of the node groups. *)

From S2P Require Import Prelude DList PtMalloc PtMallocSpec MallocBase Node NodeLists NodeGroups NodeAlloc.

(** Distinct indices below [n] are at most [n]. *)
Lemma indices_length (l : list Z) (n : Z) : NoDup l -> (forall i, i ∈ l -> 0 <= i < n) -> Z.of_nat (length l) <= Z.max 0 n.
Proof.
  intros Hn Hr.
  assert (length (Z.to_nat <$> l) <= length (seq 0 (Z.to_nat n)))%nat as Hl.
  { apply submseteq_length, NoDup_submseteq.
    - apply NoDup_fmap_2_strong; [|done]. intros x y Hx Hy E. pose proof (Hr x Hx). pose proof (Hr y Hy). lia.
    - intros x (y & -> & Hy)%list_elem_of_fmap. pose proof (Hr y Hy). apply elem_of_seq. lia. }
  rewrite length_fmap, length_seq in Hl. lia.
Qed.

Lemma zsum_change f g l h : NoDup l -> h ∈ l -> (forall x, x ∈ l -> x ≠ h -> g x = f x) ->
  zsum g l = zsum f l + (g h - f h).
Proof.
  induction l as [|y l IH]; intros Hn Hh E; [by apply not_elem_of_nil in Hh|].
  apply NoDup_cons in Hn as [Hy Hn]. simpl. apply elem_of_cons in Hh as [->|Hh].
  - assert (zsum g l = zsum f l) as ->; [|lia]. apply zsum_ext. intros x Hx. apply E; [by right|]. by intros ->.
  - rewrite IH, (E y); [lia|left|by intros ->|done|done|]. intros x Hx. apply E. by right.
Qed.

Lemma zsum_bounds f l b : (forall x, x ∈ l -> 0 <= f x <= b) -> 0 <= zsum f l <= b * Z.of_nat (length l).
Proof.
  induction l as [|y l IH]; intros E; simpl; [lia|]. pose proof (E y ltac:(left)).
  assert (0 <= zsum f l <= b * Z.of_nat (length l)) by (apply IH; intros; apply E; by right). lia.
Qed.

Section Steps.

Context {S X : Type} `{MallocLaws S}.

Implicit Types (c : Cache S X) (G : ghost) (h i v : Z) (k : nat) (own d : list Z).

Abbreviation sets_of c := (sets (node_group c)).
Abbreviation attrs_of c := (attrs (node_group c)).
Abbreviation info_of c := (nodegroup_info_ (node_group c)).
Abbreviation ni_of c := (ni (node_group c)).

(** ** One group and one node of it change *)

Definition put_node (n : Node) (a : NodeAttr) c : Cache S X := on_group (on_attrs (<[n := a]>)) c.
Definition put_group h (s : NODE_SET) c : Cache S X := on_group (on_sets (<[h := s]>)) c.

Definition with_dels G h d : ghost :=
  mkGhost (gs G) (fre G) (ful G) (fun x => if x =? h then d else dels G x) (secs G) (hp G).

Lemma upd_attr_at c n a f : attrs_of c !! n = Some a -> upd_attr n f c = Some (tt, put_node n (f a) c).
Proof. intros E. unfold upd_attr. erewrite run_bind; [done|]. unfold get_attr. by rewrite E. Qed.

Lemma vd_handle_at c n a : attrs_of c !! n = Some a -> vd_handle n c = Some (a_vd a, c).
Proof. intros E. unfold vd_handle. erewrite run_bind; [done|]. unfold get_attr. by rewrite E. Qed.

Lemma get_set_at c h s : sets_of c !! h = Some s -> get_set h c = Some (s, c).
Proof. intros E. unfold get_set. by rewrite E. Qed.

Lemma node_id_at c n s : sets_of c !! n.1 = Some s -> node_id n c = Some (wrap 32 (ng_nid s + n.2), c).
Proof. intros E. unfold node_id. by erewrite run_bind by by apply get_set_at. Qed.

Lemma put_node_at c n a : attrs_of (put_node n a c) !! n = Some a.
Proof. simpl. apply lookup_insert_eq. Qed.

Lemma put_node_twice c n a b : put_node n b (put_node n a c) = put_node n b c.
Proof. unfold put_node, on_group, on_attrs. simpl. by rewrite insert_insert_eq. Qed.

Lemma Reset_run c n a s : attrs_of c !! n = Some a -> sets_of c !! n.1 = Some s ->
  Reset n c = Some (tt, put_node n (mkAttr INVALID_NODE_ID (wrap 32 (ng_nid s + n.2)) (wrap 32 (ng_nid s + n.2)) (a_vd a) false) c).
Proof.
  intros Ea Es. unfold Reset, clr_dirty. erewrite run_bind by by apply upd_attr_at.
  erewrite run_bind by by apply node_id_at. erewrite run_bind by apply upd_attr_at, put_node_at.
  erewrite run_bind by apply upd_attr_at, put_node_at. erewrite upd_attr_at by apply put_node_at.
  by rewrite !put_node_twice.
Qed.

Section Change.

Context c h s' i (a : NodeAttr) (c' := put_group h s' (put_node (h, i) a c)).

Lemma change_sets x : sets_of c' !! x = if x =? h then Some s' else sets_of c !! x.
Proof. simpl. destruct (Z.eqb_spec x h) as [->|]; [by rewrite lookup_insert_eq|by rewrite lookup_insert_ne]. Qed.

Lemma change_attrs n : n ≠ (h, i) -> attrs_of c' !! n = attrs_of c !! n.
Proof. intros Hn. simpl. by rewrite lookup_insert_ne. Qed.

Lemma cells_change hd l s : sets_of c !! h = Some s -> ng_list s' = ng_list s -> cells c hd l -> cells c' hd l.
Proof.
  intros Hs El. apply cells_ext.
  - intros p _. unfold cellv. rewrite change_sets. simpl. destruct (Z.eqb_spec p h) as [->|]; [|done].
    rewrite Hs. simpl. by rewrite El.
  - intros p _ [Hp Hc]. split; [done|]. rewrite change_sets. simpl. destruct (Z.eqb_spec p h) as [->|]; [|done].
    right; right. by eexists.
Qed.

End Change.

(** ** Taking a node of a group *)

(** The indices in use in a group. *)
Definition used (s : NODE_SET) d i : Prop := i < ng_free s /\ i ∉ d.

Definition reset_attr (id : Z) (a : NodeAttr) : NodeAttr := mkAttr INVALID_NODE_ID id id (a_vd a) false.

(** [s'] and [d'] are the group after taking index [i]. *)
Record taken c G k h (s : NODE_SET) i (s' : NODE_SET) d : Prop := {
  tk_i : 0 <= i < 256;
  tk_new : ~ used s (dels G h) i;
  tk_list : ng_list s' = ng_list s;
  tk_ok : forall a, a_vd a = vd_at c h i ->
    set_ok (put_group h s' (put_node (h, i) a c)) (with_dels G h d) k h s';
  tk_used : forall j, used s' d j <-> used s (dels G h) j \/ j = i;
  tk_busy : ng_free s' - dele_count s' = ng_free s - dele_count s + 1
}.

Lemma take_attrs c k G h s s' i a d : set_ok c G k h s ->
  forall j, 0 <= j < 256 -> is_Some (attrs_of (put_group h s' (put_node (h, i) a c)) !! (h, j)).
Proof.
  intros SO j Hj. simpl. destruct (decide ((h, i) = (h, j))) as [->|Hne];
    [rewrite lookup_insert_eq; by eexists|rewrite lookup_insert_ne by done; by apply (so_attrs _ _ _ _ _ SO)].
Qed.

(** A released index is used first. *)
Lemma taken_released c G k h s i d : set_ok c G k h s -> dels G h = i :: d ->
  taken c G k h s i (set_dele (wrap 8 (vd_at c h i)) (wrap 16 (dele_count s - 1)) s) d.
Proof.
  intros SO Ed. pose proof SO as [O1 O2 O3 O4 O5 O6 O7 O8]. rewrite Ed in O3, O4, O5, O6. simpl in O3, O6.
  destruct O6 as (Ht & Hv & Hc). apply NoDup_cons in O4 as [Hi Hn].
  assert (0 <= i < ng_free s) as Hr by (apply O5; left).
  assert (Z.of_nat (length d) < 256) as Hl.
  { assert (Z.of_nat (length (i :: d)) <= Z.max 0 (ng_free s)) by (apply indices_length; [by apply NoDup_cons|done]).
    simpl in *. lia. }
  assert (wrap 8 (vd_at c h i) = vd_at c h i) as Ew by (apply wrap_small; split; lia).
  assert (wrap 16 (dele_count s - 1) = Z.of_nat (length d)) as Ec by (rewrite O3, wrap_small; [lia|split; lia]).
  split; rewrite ?Ed.
  - lia.
  - intros [_ Hi']. set_solver.
  - done.
  - intros a Ea. split; simpl; rewrite ?Z.eqb_refl, ?Ew, ?Ec; try done.
    + intros j Hj. apply O5. by right.
    + eapply dchain_ext; [|exact Hc]. intros j Hj. unfold vd_at. simpl.
      rewrite lookup_insert_ne; [done|]. intros [= ->]. done.
    + intros j Hj. by apply (take_attrs c k G h s s i a d).
  - intros j. unfold used. simpl. rewrite not_elem_of_cons. split; [|intros [(? & ? & ?)| ->]; split; done || lia].
    intros [??]. destruct (decide (j = i)); tauto.
  - simpl. rewrite Ec, O3. lia.
Qed.

Lemma taken_fresh c G k h s : set_ok c G k h s -> dels G h = [] -> ng_free s < 256 ->
  taken c G k h s (ng_free s) (set_free (wrap 16 (ng_free s + 1)) s) [].
Proof.
  intros SO Ed Hf. pose proof SO as [O1 O2 O3 O4 O5 O6 O7 O8].
  assert (wrap 16 (ng_free s + 1) = ng_free s + 1) as Ew by (apply wrap_small; split; lia).
  split; rewrite ?Ed.
  - lia.
  - intros [? _]. lia.
  - done.
  - intros a Ea. split; simpl; rewrite ?Z.eqb_refl, ?Ew; try done; try lia.
    + by rewrite O3, Ed.
    + constructor.
    + intros j Hj. by apply not_elem_of_nil in Hj.
    + intros j Hj. by apply (take_attrs c k G h s s (ng_free s) a []).
  - intros j. unfold used. simpl. rewrite Ew. split; [|intros [[? _]| ->]; split; try lia; apply not_elem_of_nil].
    intros [? _]. destruct (decide (j = ng_free s)); [by right|left]. split; [lia|apply not_elem_of_nil].
  - simpl. rewrite Ew. lia.
Qed.

Lemma set_allocate_node_run c G k h s : sets_of c !! h = Some s -> set_ok c G k h s -> is_full s = false ->
  exists i a s' d, taken c G k h s i s' d /\ attrs_of c !! (h, i) = Some a
  /\ set_allocate_node h c
     = Some ((h, i), put_group h s' (put_node (h, i) (reset_attr (wrap 32 (ng_nid s + i)) a) c)).
Proof.
  intros Hs SO Hfull. pose proof (so_count _ _ _ _ _ SO) as Hc.
  unfold set_allocate_node. erewrite run_bind by by apply get_set_at. rewrite Hfull.
  destruct (dels G h) as [|i d] eqn:Ed.
  - destruct (Z.ltb_spec 0 (dele_count s)); [simpl in Hc; lia|].
    assert (ng_free s < 256) as Hf.
    { unfold is_full in Hfull. rewrite Hc in Hfull. unfold NODE_GROUP_INCLUDE_NODES in Hfull. simpl in Hfull.
      apply Z.leb_gt in Hfull. lia. }
    destruct (so_attrs _ _ _ _ _ SO (ng_free s)) as [a Ha]; [pose proof (so_free _ _ _ _ _ SO); lia|].
    exists (ng_free s), a, (set_free (wrap 16 (ng_free s + 1)) s), []. split_and!; [by apply taken_fresh|done|].
    erewrite run_bind by by eapply Reset_run. by erewrite run_bind by apply run_modify.
  - destruct (Z.ltb_spec 0 (dele_count s)); [|simpl in Hc; lia].
    pose proof (so_chain _ _ _ _ _ SO) as Ht. rewrite Ed in Ht. destruct Ht as [Ht _].
    assert (0 <= i < ng_free s) as Hr by (apply (so_range _ _ _ _ _ SO); rewrite Ed; left).
    destruct (so_attrs _ _ _ _ _ SO i) as [a Ha]; [pose proof (so_free _ _ _ _ _ SO); lia|].
    exists i, a, (set_dele (wrap 8 (vd_at c h i)) (wrap 16 (dele_count s - 1)) s), d.
    split_and!; [by apply taken_released|done|]. rewrite Ht.
    erewrite run_bind by by eapply Reset_run. erewrite run_bind by eapply vd_handle_at, put_node_at.
    erewrite run_bind by apply run_modify. unfold vd_at. by rewrite Ha.
Qed.

(** ** Moving a group between the lists *)

Lemma move_cells c hd1 hd2 l1 h l2 l : cells c hd1 (l1 ++ h :: l2) -> cells c hd2 l ->
  (forall p, p ∈ hd1 :: l1 ++ h :: l2 -> p ∈ hd2 :: l -> False) ->
  exists c0 c', list_del h c = Some (tt, c0) /\ info_of c0 = info_of c /\ NG_LIST_ADD h hd2 c0 = Some (tt, c') /\ recelled c c'
  /\ cells c' hd1 (l1 ++ l2) /\ cells c' hd2 (h :: l).
Proof.
  intros C1 C2 Hd. destruct (NG_LIST_DEL_run c hd1 l1 h l2 C1) as (c1 & E1 & R1 & C1' & O1).
  assert (h ∉ hd1 :: l1 ++ l2) as Hh.
  { pose proof (ce_nodup _ _ _ C1) as Hn. rewrite NoDup_cons, NoDup_app, NoDup_cons in Hn. set_solver. }
  assert (forall p, p ∈ hd2 :: l -> p ∉ hd1 :: l1 ++ h :: l2) as Hd' by (intros p ??; by apply (Hd p)).
  assert (h ∈ hd1 :: l1 ++ h :: l2) as Hin by set_solver.
  assert (cells c1 hd2 l) as C2'.
  { eapply cells_frame; [done| |exact C2]. intros p Hp. by apply O1, Hd'. }
  destruct (NG_LIST_ADD_run c1 hd2 h l C2') as (c2 & E2 & R2 & C2'' & O2).
  - eapply is_cell_recelled; [exact R1|]. by apply (cells_is _ _ _ _ C1).
  - intros Hp. by apply (Hd h).
  - exists c1, c2. split_and!; [done|by destruct (rc_group _ _ R1)|done|by eapply recelled_trans| |done].
    eapply cells_frame; [done| |exact C1']. intros p Hp. apply O2. rewrite !not_elem_of_cons. split_and!.
    + intros ->. by apply Hh.
    + intros ->. apply (Hd hd2); [|left]. apply elem_of_cons in Hp as [->|Hp]; [left|right]. set_solver.
    + intros Hp'. apply (Hd p); [|by right]. apply elem_of_cons in Hp as [->|Hp]; [left|right]. set_solver.
Qed.

(** ** The index entry of a group *)

Lemma slot1_inj k k' : slot1 k = slot1 k' -> Z.of_nat k mod 65536 = Z.of_nat k' mod 65536 -> k = k'.
Proof. unfold slot1. intros E1 E2. zdm. Qed.

Definition index_group b (q : SECOND_INDEX_T) k h c : Cache S X :=
  on_index (put_second b (mkSecond (wrap 32 (si_used q + 1)) (aset (Z.of_nat k mod 65536) h (si_h q)))) c.

Lemma do_insert_at c n id b q : node_id n c = Some (id, c) -> firstIndex (node_index c) ≠ INVALID_HANDLE ->
  aget (fi_h (node_index c)) (OFFSET1 id) = b -> b ≠ INVALID_HANDLE -> seconds (node_index c) !! b = Some q ->
  do_insert n c = Some (DTC_CODE_SUCCESS,
    on_index (put_second b (mkSecond (wrap 32 (si_used q + 1)) (aset (OFFSET2 id) n.1 (si_h q)))) c).
Proof.
  intros En Hf Hb Hb0 Hq.
  assert (get_fi (OFFSET1 id) c = Some (b, c)) as Eb.
  { unfold get_fi. erewrite run_bind by apply run_gets. unfold not_null.
    destruct (Z.eqb_spec (firstIndex (node_index c)) INVALID_HANDLE); [done|].
    erewrite run_bind by apply run_ret. by rewrite Hb. }
  unfold do_insert. erewrite run_bind by exact En. erewrite run_bind by exact Eb.
  destruct (Z.eqb_spec b INVALID_HANDLE); [done|].
  erewrite run_bind by apply run_ret. cbn [negb]. erewrite run_bind by exact Eb.
  unfold get_second. erewrite run_bind; [|erewrite run_bind by apply run_gets; unfold lift; by rewrite Hq].
  done.
Qed.

Lemma do_insert_run c c1 G own k h i s : gmem c G own -> gindex c G -> node_index c1 = node_index c ->
  gs G !! k = Some h -> sets_of c1 !! h = Some s -> ng_nid s = 256 * Z.of_nat k -> 0 <= i < 256 ->
  exists b q, secs G !! slot1 k = Some b /\ seconds (node_index c) !! b = Some q
  /\ do_insert (h, i) c1 = Some (DTC_CODE_SUCCESS, index_group b q k h c1).
Proof.
  intros M I Ex Hk Hs Hn Hi. pose proof (gm_len _ _ _ M) as Hlen. pose proof (gm_cover _ _ _ M) as Hcov.
  pose proof (lookup_lt_Some _ _ _ Hk) as Hlt.
  destruct (lookup_lt_is_Some_2 (secs G) (slot1 k)) as [b Hb]; [unfold slot1; zdm|].
  destruct (gx_secs _ _ I _ _ Hb) as [Ef [q Hq]]. exists b, q. split_and!; [done|done|].
  assert (0 < b) by (eapply block_pos; [done|]; unfold blocks; apply list_elem_of_lookup_2 in Hb; set_solver).
  assert (0 < firstIndex (node_index c)) by (eapply block_pos; [done|]; unfold blocks; set_solver).
  destruct (gidx_id k i Hi) as [Eg _]. unfold index_group.
  replace (Z.of_nat k mod 65536) with (OFFSET2 (256 * Z.of_nat k + i)) by (rewrite OFFSET2_id, Eg by lia; done).
  apply (do_insert_at c1 (h, i)); rewrite ?Ex; unfold INVALID_HANDLE; try lia; try done.
  - erewrite node_id_at by exact Hs. simpl. by rewrite Hn, wrap_small by (split; lia).
  - rewrite OFFSET1_id, Eg by lia. done.
Qed.

Lemma entry_index c G own b q k h k' : gmem c G own -> secs G !! slot1 k = Some b -> seconds (node_index c) !! b = Some q ->
  entry (index_group b q k h c) G k' = if decide (k' = k) then h else entry c G k'.
Proof.
  intros M Hb Hq. unfold entry, second_of. simpl.
  assert (NoDup (secs G)) as Hn by (pose proof (gm_nodup _ _ _ M) as Hn; unfold blocks in Hn; rewrite !NoDup_cons, NoDup_app in Hn; tauto).
  assert (0 < b) by (eapply block_pos; [done|]; unfold blocks; apply list_elem_of_lookup_2 in Hb; set_solver).
  destruct (decide (slot1 k' = slot1 k)) as [E1|N1].
  - rewrite E1, Hb. simpl. rewrite lookup_insert_eq, Hq. simpl. unfold aget, aset.
    destruct (decide (Z.of_nat k mod 65536 = Z.of_nat k' mod 65536)) as [E2|N2].
    + rewrite E2, lookup_insert_eq. rewrite decide_True; [done|]. symmetry. by apply slot1_inj.
    + rewrite lookup_insert_ne by done. rewrite decide_False; [done|]. by intros ->.
  - rewrite decide_False by (by intros ->). rewrite lookup_insert_ne; [done|].
    destruct (secs G !! slot1 k') as [b'|] eqn:Eb'; simpl; [|lia]. intros ->. apply N1. by eapply NoDup_lookup.
Qed.

(** ** A step at one group

    [c'] differs from [c] in the group at [h], one node of it, the cells of
    the lists, the count of used nodes and the index. *)

Definition stepped_ghost G (f u : list Z) h d : ghost :=
  mkGhost (gs G) f u (fun x => if x =? h then d else dels G x) (secs G) (hp G).

Record stepped c G c' k h (s s' : NODE_SET) i (a : NodeAttr) d : Prop := {
  sp_k : gs G !! k = Some h /\ k ≠ 0%nat;
  sp_s : sets_of c !! h = Some s;
  sp_same : alloc c' = alloc c /\ firstIndex (node_index c') = firstIndex (node_index c) /\ info_of c' = info_of c
    /\ step (node_group c') = step (node_group c) /\ rest c' = rest c;
  sp_ni : ni_min_id (ni_of c') = ni_min_id (ni_of c) /\ ni_sys_zone (ni_of c') = ni_sys_zone (ni_of c)
    /\ ni_used_ng (ni_of c') = ni_used_ng (ni_of c);
  sp_used : ni_used_node (ni_of c') = wrap 32 (ni_used_node (ni_of c)
    + ((ng_free s' - dele_count s') - (ng_free s - dele_count s)));
  sp_other : ni_dirty_node (ni_of c') = ni_dirty_node (ni_of c) /\ ni_used_row (ni_of c') = ni_used_row (ni_of c)
    /\ ni_dirty_row (ni_of c') = ni_dirty_row (ni_of c)
    /\ empty_node_count (node_group c') = empty_node_count (node_group c)
    /\ empty_startup_mode (node_group c') = empty_startup_mode (node_group c);
  sp_set : exists y, sets_of c' !! h = Some (set_list y s');
  sp_sets : forall x, x ≠ h -> exists y, sets_of c' !! x = set_list y <$> sets_of c !! x;
  sp_attrs : forall n, attrs_of c' !! n = if decide (n = (h, i)) then Some a else attrs_of c !! n
}.

Lemma stepped_other c G c' k h s s' i a d : stepped c G c' k h s s' i a d -> forall x t, x ≠ h ->
  sets_of c' !! x = Some t -> exists y t0, sets_of c !! x = Some t0 /\ t = set_list y t0.
Proof.
  intros P x t Hx Ht. destruct (sp_sets _ _ _ _ _ _ _ _ _ _ P x Hx) as [y Hy]. rewrite Ht in Hy.
  destruct (sets_of c !! x) as [t0|]; [|done]. injection Hy as ->. by exists y, t0.
Qed.

Lemma set_ok_list c G k h s y : set_ok c G k h s -> set_ok c G k h (set_list y s).
Proof. intros [O1 O2 O3 O4 O5 O6 O7 O8]. by split. Qed.

Lemma stepped_mem c G own c' k h s s' i a d f u : stepped c G c' k h s s' i a d ->
  gmem c G own -> gmem c' (stepped_ghost G f u h d) own.
Proof.
  intros P [M1 M2 M3 M4 M5 M6 M7]. destruct (sp_same _ _ _ _ _ _ _ _ _ _ P) as (E1 & E2 & E3 & _).
  split; simpl; unfold blocks in *; rewrite ?E1, ?E2, ?E3; done.
Qed.

Lemma stepped_sets c G own c' k h s s' i a d f u : stepped c G c' k h s s' i a d ->
  gmem c G own -> gsets c G -> set_ok c' (stepped_ghost G f u h d) k h s' -> gsets c' (stepped_ghost G f u h d).
Proof.
  intros P M [T1 T2 T3] SO. pose proof (gs_NoDup _ _ _ M) as Hnd. destruct (sp_k _ _ _ _ _ _ _ _ _ _ P) as [Hk Hk0].
  destruct (sp_set _ _ _ _ _ _ _ _ _ _ P) as [y0 Hy0].
  split; simpl.
  - intros k' h' Hk'. destruct (decide (h' = h)) as [->|Hne].
    { assert (k' = k) as -> by (by eapply NoDup_lookup). eexists; split; [done|]. by apply set_ok_list. }
    destruct (T1 k' h' Hk') as (t & Ht & [O1 O2 O3 O4 O5 O6 O7 O8]).
    destruct (sp_sets _ _ _ _ _ _ _ _ _ _ P h' Hne) as [y Hy]. rewrite Ht in Hy. simpl in Hy.
    exists (set_list y t). split; [done|].
    assert (dels (stepped_ghost G f u h d) h' = dels G h') as Ed by (simpl; by destruct (Z.eqb_spec h' h)).
    assert (forall j, attrs_of c' !! (h', j) = attrs_of c !! (h', j)) as EA.
    { intros j. rewrite (sp_attrs _ _ _ _ _ _ _ _ _ _ P), decide_False; [done|]. congruence. }
    split; rewrite ?Ed; try done; [|intros j Hj; rewrite EA; auto].
    eapply dchain_ext; [|exact O6]. intros j _. unfold vd_at. by rewrite EA.
  - intros x [t Ht]. destruct (decide (x = h)) as [->|Hne]; [by eapply list_elem_of_lookup_2|].
    destruct (stepped_other _ _ _ _ _ _ _ _ _ _ P x t Hne Ht) as (y & t0 & Ht0 & _). apply T2. by eexists.
  - destruct T3 as (h0 & s0 & H1 & H2 & H3 & H4 & H5). assert (h0 ≠ h) as Hne by (intros ->; apply Hk0; by eapply NoDup_lookup).
    destruct (sp_sets _ _ _ _ _ _ _ _ _ _ P h0 Hne) as [y Hy]. rewrite H3 in Hy. exists h0, (set_list y s0).
    destruct (sp_ni _ _ _ _ _ _ _ _ _ _ P) as (_ & -> & _). by destruct (Z.eqb_spec h0 h).
Qed.

Lemma busy_bounds c G h : gsets c G -> h ∈ gs G -> 0 <= busy c h <= 256.
Proof.
  intros T Hh. apply list_elem_of_lookup_1 in Hh as [k Hk]. destruct (gt_sets _ _ T _ _ Hk) as (s & Hs & SO).
  unfold busy. rewrite Hs. simpl. rewrite (so_count _ _ _ _ _ SO). pose proof (so_free _ _ _ _ _ SO).
  pose proof (indices_length _ _ (so_nodup _ _ _ _ _ SO) (so_range _ _ _ _ _ SO)). lia.
Qed.

Lemma tail_in (l : list Z) h k : l !! k = Some h -> k ≠ 0%nat -> h ∈ tail l.
Proof. destruct l, k; try done. intros E _. by eapply list_elem_of_lookup_2. Qed.

Lemma in_tail (l : list Z) h : h ∈ tail l -> h ∈ l.
Proof. destruct l; [done|]. by right. Qed.

Lemma stepped_zsum c G own c' k h s s' i a d : stepped c G c' k h s s' i a d -> gmem c G own ->
  zsum (busy c') (tail (gs G))
  = zsum (busy c) (tail (gs G)) + ((ng_free s' - dele_count s') - (ng_free s - dele_count s)).
Proof.
  intros P M. pose proof (gs_NoDup _ _ _ M) as Hnd. destruct (sp_k _ _ _ _ _ _ _ _ _ _ P) as [Hk Hk0].
  rewrite (zsum_change (busy c) (busy c') (tail (gs G)) h);
    [|destruct (gs G); [constructor|by apply NoDup_cons in Hnd as [_ ?]]|by eapply tail_in|].
  - unfold busy at 2 3. destruct (sp_set _ _ _ _ _ _ _ _ _ _ P) as [y ->]. by rewrite (sp_s _ _ _ _ _ _ _ _ _ _ P).
  - intros x _ Hx. unfold busy. destruct (sp_sets _ _ _ _ _ _ _ _ _ _ P x Hx) as [y ->]. by destruct (sets_of c !! x).
Qed.

Lemma stepped_used c G own c' k h s s' i a d f u : stepped c G c' k h s s' i a d -> gmem c G own ->
  gcount c G -> gcount c' (stepped_ghost G f u h d) ->
  ni_used_node (ni_of c') = ni_used_node (ni_of c) + ((ng_free s' - dele_count s') - (ng_free s - dele_count s)).
Proof.
  intros P M N N'. rewrite (gn_used _ _ N), (gn_used _ _ N'). simpl. by eapply stepped_zsum.
Qed.

Lemma stepped_count c G own c' k h s s' i a d f u : stepped c G c' k h s s' i a d ->
  gmem c G own -> gsets c' (stepped_ghost G f u h d) -> gcount c G -> gcount c' (stepped_ghost G f u h d).
Proof.
  intros P M T' [N1 N2 N3 N4].
  destruct (sp_ni _ _ _ _ _ _ _ _ _ _ P) as (E1 & E2 & E3). destruct (sp_same _ _ _ _ _ _ _ _ _ _ P) as (_ & _ & _ & E4 & _).
  split; simpl; [congruence|congruence| |by rewrite E4].
  rewrite (sp_used _ _ _ _ _ _ _ _ _ _ P), N3, <- (stepped_zsum _ _ _ _ _ _ _ _ _ _ _ P M). apply wrap_small.
  assert (0 <= zsum (busy c') (tail (gs G)) <= 256 * Z.of_nat (length (tail (gs G)))) as Hb.
  { apply zsum_bounds. intros x Hx. eapply busy_bounds; [exact T'|]. by apply in_tail. }
  assert (length (tail (gs G)) <= length (gs G))%nat by (destruct (gs G); simpl; lia).
  pose proof (gm_len _ _ _ M). split; lia.
Qed.

Lemma stepped_full c G c' k h s s' i a d f u : stepped c G c' k h s s' i a d -> gfull c G ->
  (forall x, x ∈ f -> x ≠ h -> x ∈ fre G) -> (forall x, x ∈ u -> x ≠ h -> x ∈ ful G) ->
  (h ∈ f -> is_full s' = false) -> (h ∈ u -> is_full s' = true) -> gfull c' (stepped_ghost G f u h d).
Proof.
  intros P [F1 F2] Hf Hu Hff Huu. destruct (sp_set _ _ _ _ _ _ _ _ _ _ P) as [y0 Hy0].
  split; simpl; intros x t Hx Ht; (destruct (decide (x = h)) as [->|Hne];
    [rewrite Hy0 in Ht; injection Ht as <-; auto
    |destruct (stepped_other _ _ _ _ _ _ _ _ _ _ P x t Hne Ht) as (y & t0 & Ht0 & ->)]).
  - apply (F1 x t0); auto.
  - apply (F2 x t0); auto.
Qed.

Lemma ginv_step c G own c' k h s s' i a d f u : ginv c G own -> stepped c G c' k h s s' i a d ->
  set_ok c' (stepped_ghost G f u h d) k h s' -> cells c' (info_of c) f -> cells c' (info_of c + sizeof_NG_LIST_T) u ->
  f ++ u ≡ₚ fre G ++ ful G -> (forall x, x ∈ f -> x ≠ h -> x ∈ fre G) -> (forall x, x ∈ u -> x ≠ h -> x ∈ ful G) ->
  (h ∈ f -> is_full s' = false) -> (h ∈ u -> is_full s' = true) -> gindex c' (stepped_ghost G f u h d) ->
  ginv c' (stepped_ghost G f u h d) own.
Proof.
  intros [M T L F I N] P SO Cf Cu Hp Hf Hu Hff Huu Hx. destruct (sp_same _ _ _ _ _ _ _ _ _ _ P) as (_ & _ & E3 & _).
  assert (gsets c' (stepped_ghost G f u h d)) as T' by by eapply stepped_sets.
  split; [by eapply stepped_mem|done| |by eapply stepped_full|done|by eapply stepped_count].
  split; simpl; rewrite ?E3; [done|done|]. by rewrite Hp, (gl_perm _ _ L).
Qed.

(** The live ids, and the frame. *)
Lemma stepped_live c G own c' k h s s' i a d f u : gmem c G own -> stepped c G c' k h s s' i a d ->
  forall j, live c' (stepped_ghost G f u h d) j
  <-> 0 <= j /\ if decide (gidx j = k) then used s' d (j mod 256) else live c G j.
Proof.
  intros M P j. pose proof (gs_NoDup _ _ _ M) as Hnd. destruct (sp_k _ _ _ _ _ _ _ _ _ _ P) as [Hk Hk0].
  destruct (sp_set _ _ _ _ _ _ _ _ _ _ P) as [y0 Hy0]. unfold live, used. simpl. case_decide as Hg.
  - subst k. split.
    + intros (Hj & h' & t & Hh & Ht & Hu). assert (h' = h) as -> by congruence. rewrite Z.eqb_refl in Hu.
      rewrite Hy0 in Ht. injection Ht as <-. done.
    + intros (Hj & Hu). split; [done|]. exists h, (set_list y0 s'). rewrite Z.eqb_refl. done.
  - split.
    + intros (Hj & h' & t & Hh & Ht & Hu). assert (h' ≠ h) as Hne by (intros ->; apply Hg; by eapply NoDup_lookup).
      destruct (stepped_other _ _ _ _ _ _ _ _ _ _ P h' t Hne Ht) as (y & t0 & Ht0 & ->).
      destruct (Z.eqb_spec h' h); [done|]. split; [done|]. split; [done|]. by exists h', t0.
    + intros (_ & Hj & h' & t & Hh & Ht & Hu). assert (h' ≠ h) as Hne by (intros ->; apply Hg; by eapply NoDup_lookup).
      destruct (sp_sets _ _ _ _ _ _ _ _ _ _ P h' Hne) as [y Hy]. rewrite Ht in Hy.
      split; [done|]. exists h', (set_list y t). by destruct (Z.eqb_spec h' h).
Qed.

End Steps.
