(* ===== verification/NodeRun.v ===== *)
(** * [allocate_node] and [release_node] on the invariant *)

From S2P Require Import Prelude DList PtMalloc PtMallocSpec MallocBase Node NodeLists NodeGroups NodeAlloc NodeOps.

Section Run.

Context {S X : Type} `{MallocLaws S}.

Implicit Types (c : Cache S X) (G : ghost) (h i j v : Z) (k : nat) (own d : list Z).

Abbreviation sets_of c := (sets (node_group c)).
Abbreviation attrs_of c := (attrs (node_group c)).
Abbreviation info_of c := (nodegroup_info_ (node_group c)).
Abbreviation ni_of c := (ni (node_group c)).

(** The nodes in [K] are live before and after, and the same. *)
Record kept c G c' G' (K : Z -> Prop) : Prop := {
  kp_rest : rest c' = rest c;
  kp_node : forall j, K j -> live c G j /\ live c' G' j /\ nd G' j = nd G j /\ attrs_of c' !! nd G j = attrs_of c !! nd G j;
  kp_group : info_of c' = info_of c /\ ni_sys_zone (ni_of c') = ni_sys_zone (ni_of c)
    /\ ni_dirty_node (ni_of c') = ni_dirty_node (ni_of c) /\ ni_used_row (ni_of c') = ni_used_row (ni_of c)
    /\ ni_dirty_row (ni_of c') = ni_dirty_row (ni_of c)
    /\ empty_node_count (node_group c') = empty_node_count (node_group c)
    /\ empty_startup_mode (node_group c') = empty_startup_mode (node_group c);
  kp_secs : secs G' = secs G /\ firstIndex (node_index c') = firstIndex (node_index c);
  kp_heap : forall x, in_heap (hp G) x -> in_heap (hp G') x /\ load x (alloc c') = load x (alloc c)
}.

Lemma kept_grown c G c' G' : grown c G c' G' -> kept c G c' G' (live c G).
Proof.
  intros [A B C D E F J]. split; try done; [|tauto]. intros j Hj. split_and!; [done|by apply B|by apply C|by apply D].
Qed.

Lemma kept_trans c1 G1 c2 G2 c3 G3 K : kept c1 G1 c2 G2 K -> kept c2 G2 c3 G3 K -> kept c1 G1 c3 G3 K.
Proof.
  intros [A1 B1 C1 D1 E1] [A2 B2 C2 D2 E2]. split.
  - congruence.
  - intros j Hj. destruct (B1 j Hj) as (? & ? & N1 & T1), (B2 j Hj) as (? & ? & N2 & T2).
    split_and!; [done|done|congruence|]. by rewrite <- N1, T2, N1.
  - split_conj. split_and!; congruence.
  - split_conj. split_and!; congruence.
  - intros x Hx. destruct (E1 x Hx) as [Hx2 ?]. destruct (E2 x Hx2). split; [done|congruence].
Qed.

Lemma kept_mono c G c' G' (K K' : Z -> Prop) : (forall j, K' j -> K j) -> kept c G c' G' K -> kept c G c' G' K'.
Proof. intros HK [A B C D E]. split; auto. Qed.

Lemma set_ok_ext c c' G G' k h s : (forall j, vd_at c' h j = vd_at c h j) ->
  (forall j, is_Some (attrs_of c !! (h, j)) -> is_Some (attrs_of c' !! (h, j))) -> dels G' h = dels G h ->
  set_ok c G k h s -> set_ok c' G' k h s.
Proof.
  intros Ev Ea Ed [O1 O2 O3 O4 O5 O6 O7 O8]. split; rewrite ?Ed; auto. eapply dchain_ext; [|exact O6]. auto.
Qed.

(** The group of a list cell. *)
Lemma listed_group c G h : gsets c G -> glists c G -> h ∈ fre G \/ h ∈ ful G ->
  exists k s, gs G !! k = Some h /\ k ≠ 0%nat /\ sets_of c !! h = Some s /\ set_ok c G k h s.
Proof.
  intros T L Hh. assert (h ∈ tail (gs G)) as Ht by (rewrite <- (gl_perm _ _ L), elem_of_app; done).
  apply list_elem_of_lookup_1 in Ht as [k Hk]. exists (Datatypes.S k).
  assert (gs G !! Datatypes.S k = Some h) as Hk' by (by destruct (gs G)).
  destruct (gt_sets _ _ T _ _ Hk') as (s & Hs & SO). by exists s.
Qed.

Lemma nd_group G k h j : NoDup (gs G) -> gs G !! k = Some h -> 0 <= j -> is_Some (gs G !! gidx j) ->
  forall i, nd G j = (h, i) -> j = 256 * Z.of_nat k + i.
Proof.
  intros Hnd Hk Hj [h' Hh'] i. unfold nd. rewrite Hh'. simpl. intros [= -> <-].
  assert (gidx j = k) as <- by (by eapply NoDup_lookup). by apply id_split.
Qed.

Lemma stepped_kept c G own c' k h s s' i a d f u (K : Z -> Prop) : gmem c G own -> stepped c G c' k h s s' i a d ->
  (forall j, K j -> live c G j /\ live c' (stepped_ghost G f u h d) j /\ j ≠ 256 * Z.of_nat k + i) ->
  kept c G c' (stepped_ghost G f u h d) K.
Proof.
  intros M P HK. destruct (sp_same _ _ _ _ _ _ _ _ _ _ P) as (E1 & E2 & E3 & _ & E5).
  destruct (sp_ni _ _ _ _ _ _ _ _ _ _ P) as (_ & E6 & _). destruct (sp_k _ _ _ _ _ _ _ _ _ _ P) as [Hk _].
  split; [done| |by destruct (sp_other _ _ _ _ _ _ _ _ _ _ P)|done|by rewrite E1].
  intros j Hj. destruct (HK j Hj) as (Hl & Hl' & Hne). split_and!; [done|done|done|].
  rewrite (sp_attrs _ _ _ _ _ _ _ _ _ _ P), decide_False; [done|]. intros En. apply Hne.
  destruct Hl as (Hj0 & h' & t & Hh' & _). eapply nd_group; [by eapply gs_NoDup|done|done|by eexists|done].
Qed.

(** ** Allocating a node *)

Definition take_from (ns : Z) : prog S X Node :=
  n ← set_allocate_node ns;
  s ← get_set ns;
  (if is_full s then list_del ns;; full_list_add ns else mret tt);;
  if is_null n then mret NullNode
  else
    upd_info (fun x => set_used_node (wrap 32 (ni_used_node x + 1)) x);;
    do_insert n;;
    mret n.

(** A node that was not live is live, with reset attributes; the others are kept. *)
Record took c G c' G' i : Prop := {
  to_kept : kept c G c' G' (live c G);
  to_new : ~ live c G i;
  to_live : forall j, live c' G' j <-> live c G j \/ j = i;
  to_attr : exists a, attrs_of c' !! nd G' i = Some a /\ a_next a = INVALID_NODE_ID /\ a_prev a = i /\ a_lnext a = i
    /\ a_dirty a = false;
  to_used : ni_used_node (ni_of c') = ni_used_node (ni_of c) + 1
}.

(** What [take_from] does to the lists: a group that became full moves. *)
Lemma settle_lists c G own c1 h f s' : gmem c G own -> glists c G -> fre G = h :: f ->
  info_of c1 = info_of c -> sets_of c1 !! h = Some s' ->
  (forall hd l, cells c hd l -> cells c1 hd l) ->
  exists c2 f' u', (if is_full s' then list_del h;; full_list_add h else mret tt) c1 = Some (tt, c2) /\ recelled c1 c2
  /\ cells c2 (info_of c) f' /\ cells c2 (info_of c + sizeof_NG_LIST_T) u' /\ f' ++ u' ≡ₚ fre G ++ ful G
  /\ (forall x, x ∈ f' -> x ≠ h -> x ∈ fre G) /\ (forall x, x ∈ u' -> x ≠ h -> x ∈ ful G)
  /\ (h ∈ f' -> is_full s' = false) /\ (h ∈ u' -> is_full s' = true).
Proof.
  intros M L Ef Ei Hs HC. pose proof (lists_NoDup _ _ _ M L) as Hnd. pose proof L as [Lf Lu Lp].
  destruct (is_full s') eqn:Efull.
  - destruct (move_cells c1 (info_of c) (info_of c + sizeof_NG_LIST_T) [] h f (ful G)) as (c0 & c2 & E0 & Ei0 & E & R & C1 & C2).
    + apply HC. simpl. by rewrite <- Ef.
    + by apply HC.
    + intros q Hq. eapply cells_apart; [done|done|]. by rewrite Ef.
    + exists c2, f, (h :: ful G). split_and!; [|done|done|done|..].
      * erewrite run_bind by exact E0. unfold full_list_add, full_head.
        erewrite run_bind by (by erewrite run_bind by apply run_gets). by rewrite Ei0, Ei.
      * rewrite Ef. simpl. by rewrite Permutation_middle.
      * intros x Hx _. rewrite Ef. by right.
      * intros x Hx Hne. by apply elem_of_cons in Hx as [?|?].
      * intros Hf. rewrite Ef in Hnd. simpl in Hnd. apply NoDup_cons in Hnd as [Hn _]. destruct Hn. apply elem_of_app. by left.
      * done.
  - exists c1, (fre G), (ful G). split_and!; [done|apply recelled_refl|by apply HC|by apply HC|done|done|done|done|].
    intros Hu. rewrite Ef in Hnd. simpl in Hnd. apply NoDup_cons in Hnd as [Hn _]. destruct Hn. apply elem_of_app. by right.
Qed.

(** The state after [take_from] and the step it makes. *)
Definition after_take c2 b q k h : Cache S X :=
  index_group b q k h (on_group (on_ni (fun x => set_used_node (wrap 32 (ni_used_node x + 1)) x)) c2).

Lemma stepped_take c G k h s i s' d a c2 b q : gs G !! k = Some h -> k ≠ 0%nat -> sets_of c !! h = Some s ->
  taken c G k h s i s' d -> recelled (put_group h s' (put_node (h, i) a c)) c2 ->
  stepped c G (after_take c2 b q k h) k h s s' i a d.
Proof.
  intros Hk Hk0 Hs Tk R. destruct (recelled_ni _ _ R) as (E1 & E2 & E3 & E4 & E5 & E6 & E7).
  destruct (rc_group _ _ R) as (F1 & F2 & F3 & F4 & F5). split; try done; simpl.
  - rewrite (rc_alloc _ _ R), (rc_index _ _ R), F1, F2, (rc_rest _ _ R). done.
  - rewrite E4, (tk_busy _ _ _ _ _ _ _ _ Tk). f_equal. simpl. lia.
  - eapply recelled_set_2; [exact R|]. rewrite change_sets. by rewrite Z.eqb_refl.
  - intros x Hx. destruct (rc_sets _ _ R x) as [y Hy]. rewrite change_sets in Hy. exists y. by destruct (Z.eqb_spec x h).
  - intros n. rewrite (rc_attrs _ _ R). simpl. case_decide as Hn; [subst n; by rewrite lookup_insert_eq|by rewrite lookup_insert_ne].
Qed.

Lemma index_take c G own c2 k h b q f u d : gmem c G own -> gindex c G -> gs G !! k = Some h -> node_index c2 = node_index c ->
  secs G !! slot1 k = Some b -> seconds (node_index c) !! b = Some q ->
  (forall x t, x ≠ h -> sets_of (after_take c2 b q k h) !! x = Some t -> exists t0, sets_of c !! x = Some t0 /\ ng_free t = ng_free t0) ->
  gindex (after_take c2 b q k h) (stepped_ghost G f u h d).
Proof.
  intros M [I1 I2 I3] Hk Ex Hb Hq Ho.
  assert (forall k', entry (after_take c2 b q k h) (stepped_ghost G f u h d) k' = if decide (k' = k) then h else entry c G k') as EE.
  { intros k'. rewrite <- (entry_index c G own b q k h k' M Hb Hq). unfold entry, second_of. simpl. by rewrite Ex. }
  split; simpl secs; simpl gs.
  - intros jj x Hx. destruct (I1 jj x Hx) as [Ef Hs]. simpl. rewrite Ex. split; [done|].
    destruct (decide (x = b)) as [->|]; [rewrite lookup_insert_eq; by eexists|by rewrite lookup_insert_ne].
  - intros k' x t Hk' Ht. rewrite EE. case_decide as Hkk; [left; congruence|].
    assert (x ≠ h) as Hne by (intros ->; apply Hkk; eapply NoDup_lookup; [by eapply gs_NoDup|done|done]).
    destruct (Ho x t Hne Ht) as (t0 & Ht0 & ->). by apply (I2 k' x t0).
  - intros k' H1 H2. rewrite EE. rewrite decide_False; [by apply I3|].
    intros ->. apply lookup_lt_Some in Hk. lia.
Qed.

Lemma not_null_node h i : 0 < h -> 0 <= i < 256 -> is_null (h, i) = false.
Proof. intros. unfold is_null, INVALID_HANDLE, NODE_GROUP_INCLUDE_NODES. simpl. zcase; (done || lia). Qed.

Lemma take_exec c G own h f : ginv c G own -> fre G = h :: f ->
  exists i k s s' d a f' u' c', take_from h c = Some ((h, i), c') /\ taken c G k h s i s' d
  /\ stepped c G c' k h s s' i (reset_attr (256 * Z.of_nat k + i) a) d
  /\ ginv c' (stepped_ghost G f' u' h d) own.
Proof.
  intros J Ef. pose proof J as [M T L F I N].
  destruct (listed_group c G h T L) as (k & s & Hk & Hk0 & Hs & SO); [left; rewrite Ef; left|].
  assert (is_full s = false) as Hfull by (apply (gf_free _ _ F h); [rewrite Ef; left|done]).
  destruct (set_allocate_node_run c G k h s Hs SO Hfull) as (i & a0 & s' & d & Tk & Ha0 & E1).
  pose proof (lookup_lt_Some _ _ _ Hk) as Hlt. pose proof (gm_len _ _ _ M) as Hlen. pose proof (tk_i _ _ _ _ _ _ _ _ Tk) as Hi.
  rewrite (so_nid _ _ _ _ _ SO), wrap_small in E1 by (split; lia).
  set (a := reset_attr (256 * Z.of_nat k + i) a0) in *. set (c1 := put_group h s' (put_node (h, i) a c)) in *.
  assert (sets_of c1 !! h = Some s') as Hs' by (unfold c1; rewrite change_sets; by rewrite Z.eqb_refl).
  destruct (settle_lists c G own c1 h f s' M L Ef) as (c2 & f' & u' & E2 & R & Cf & Cu & Hp & Hf' & Hu' & Hff & Huu); [done|done| |].
  { intros hd l. by apply (cells_change c h s' i a hd l s); [..|apply (tk_list _ _ _ _ _ _ _ _ Tk)]. }
  assert (set_ok c1 (with_dels G h d) k h s') as SO1.
  { apply (tk_ok _ _ _ _ _ _ _ _ Tk). unfold vd_at. by rewrite Ha0. }
  destruct (recelled_set_2 _ _ _ _ R Hs') as [y Hy].
  destruct (do_insert_run c (on_group (on_ni (fun x => set_used_node (wrap 32 (ni_used_node x + 1)) x)) c2) G own k h i (set_list y s'))
    as (b & q & Hb & Hq & E3); [done|done|by apply (rc_index _ _ R)|done|done|apply (so_nid _ _ _ _ _ SO1)|done|].
  assert (0 < h) as Hpos by (eapply block_pos; [done|]; by eapply gs_block, list_elem_of_lookup_2).
  assert (0 < info_of c) as Hinf by (eapply block_pos; [done|]; unfold blocks; set_solver).
  pose proof (stepped_take c G k h s i s' d a c2 b q Hk Hk0 Hs Tk R) as P.
  exists i, k, s, s', d, a0, f', u', (after_take c2 b q k h). split_and!; [|done|done|].
  - unfold take_from. erewrite run_bind by exact E1. erewrite run_bind by by apply get_set_at.
    erewrite run_bind by exact E2. rewrite (not_null_node h i Hpos Hi). erewrite run_bind; [by erewrite run_bind by exact E3|]. apply upd_info_run.
    destruct (rc_group _ _ R) as (-> & _). unfold INVALID_HANDLE. simpl. lia.
  - eapply ginv_step; [done|done| | | |done|done|done|done|done|].
    + eapply (set_ok_ext c1); [..|exact SO1]; try done; intros j; unfold vd_at; simpl attrs; by rewrite (rc_attrs _ _ R).
    + by eapply (cells_ext c2).
    + by eapply (cells_ext c2).
    + eapply index_take; eauto; [by apply (rc_index _ _ R)|]. intros x t Hx Ht.
      destruct (stepped_other _ _ _ _ _ _ _ _ _ _ P x t Hx Ht) as (y' & t0 & Ht0 & ->). by exists t0.
Qed.

Lemma take_run c G own h f : ginv c G own -> fre G = h :: f ->
  exists i c' G', take_from h c = Some (nd G' i, c') /\ ginv c' G' own /\ took c G c' G' i /\ gs G' = gs G
  /\ step (node_group c') = step (node_group c).
Proof.
  intros J Ef. destruct (take_exec c G own h f J Ef) as (i & k & s & s' & d & a & f' & u' & c' & E & Tk & P & J').
  pose proof (gi_mem _ _ _ J) as M. destruct (sp_k _ _ _ _ _ _ _ _ _ _ P) as [Hk Hk0]. pose proof (tk_i _ _ _ _ _ _ _ _ Tk) as Hi.
  destruct (gidx_id k i Hi) as [Eg Em]. pose proof (sp_s _ _ _ _ _ _ _ _ _ _ P) as Hs.
  assert (forall j, 0 <= j -> gidx j = k -> live c G j <-> used s (dels G h) (j mod 256)) as Hlv.
  { intros j Hj Hg. unfold live, used. rewrite Hg. split; [|by intros; split; [done|exists h, s]].
    intros (_ & h' & t & Hh' & Ht & Hu). assert (h' = h) as -> by congruence. assert (t = s) as -> by congruence. done. }
  assert (forall j, live c' (stepped_ghost G f' u' h d) j <-> live c G j \/ j = 256 * Z.of_nat k + i) as HL.
  { intros j. rewrite (stepped_live c G own c' k h s s' i _ d f' u' M P). case_decide as Hg.
    - split.
      + intros (Hj & Hu). apply (tk_used _ _ _ _ _ _ _ _ Tk) in Hu as [Hu|Hu]; [left; by apply Hlv|right].
        rewrite (id_split j Hj), Hg. lia.
      + intros [Hl| ->]; [pose proof Hl as [Hj _]|rewrite Em; split; [lia|apply (tk_used _ _ _ _ _ _ _ _ Tk); by right]].
        split; [done|]. apply (tk_used _ _ _ _ _ _ _ _ Tk). left. by apply Hlv.
    - split; [intros [_ ?]; by left|]. intros [Hl| ->]; [split; [apply Hl|done]|done]. }
  assert (~ live c G (256 * Z.of_nat k + i)) as Hnew.
  { rewrite Hlv by (done || lia). rewrite Em. apply (tk_new _ _ _ _ _ _ _ _ Tk). }
  exists (256 * Z.of_nat k + i), c', (stepped_ghost G f' u' h d). split_and!; [|done| |done|].
  - rewrite E. unfold nd. simpl. by rewrite Eg, Em, Hk.
  - split; [|done|done|..].
    + eapply stepped_kept; [done|done|]. intros j Hj. split_and!; [done|apply HL; by left|by intros ->].
    + eexists. rewrite (sp_attrs _ _ _ _ _ _ _ _ _ _ P). unfold nd. simpl gs. rewrite Eg, Em, Hk. simpl default.
      by rewrite decide_True.
    + rewrite (stepped_used _ _ _ _ _ _ _ _ _ _ _ _ _ P M (gi_count _ _ _ J) (gi_count _ _ _ J')).
      rewrite (tk_busy _ _ _ _ _ _ _ _ Tk). lia.
  - by destruct (sp_same _ _ _ _ _ _ _ _ _ _ P) as (_ & _ & _ & ? & _).
Qed.

Lemma took_grown c G c1 G1 c' G' i : grown c G c1 G1 -> took c1 G1 c' G' i -> took c G c' G' i.
Proof.
  intros W [K N L A U]. pose proof (gr_live _ _ _ _ W) as HL. split.
  - eapply kept_trans; [by apply kept_grown|]. eapply kept_mono; [|exact K]. intros j. apply HL.
  - by rewrite <- HL.
  - intros j. by rewrite L, HL.
  - done.
  - destruct (gr_group _ _ _ _ W) as (_ & _ & _ & _ & _ & Eu & _). by rewrite U, Eu.
Qed.

(** [NGInfo::allocate_node]: a new node, or none and no live node touched. *)
Lemma allocate_node_spec c G own : ginv c G own -> room c G ->
  exists n c' G', allocate_node c = Some (n, c') /\ ginv c' G' own
  /\ (length (gs G') <= length (gs G) + Z.to_nat (step (node_group c)))%nat
  /\ (n = NullNode /\ fre G = [] /\ grown c G c' G' \/ exists i, n = nd G' i /\ took c G c' G' i).
Proof.
  intros J Hr. unfold allocate_node. erewrite run_bind by by eapply find_free_ng_run.
  destruct (fre G) as [|h f] eqn:Ef.
  - change (default INVALID_HANDLE (head [])) with INVALID_HANDLE. rewrite Z.eqb_refl.
    destruct (more_groups_run c G own J Hr) as ([ns|] & c1 & G1 & E & J1 & W & Hl & Hh); erewrite run_bind by exact E.
    + destruct (fre G1) as [|h1 f1] eqn:Ef1; [done|]. injection Hh as ->.
      destruct (take_run c1 G1 own ns f1 J1 Ef1) as (i & c' & G' & E' & J' & Tk & Eg & _).
      exists (nd G' i), c', G'. split_and!; [exact E'|done|by rewrite Eg|]. right. exists i. split; [done|]. by eapply took_grown.
    + exists NullNode, c1, G1. split_and!; [done|done|done|]. by left.
  - change (default INVALID_HANDLE (head (h :: f))) with h.
    assert (h ≠ INVALID_HANDLE) as Hpos.
    { unfold INVALID_HANDLE. pose proof (block_pos c G own h (gi_mem _ _ _ J)) as Hb.
      assert (0 < h); [|lia]. apply Hb, gs_block. eapply lists_gs; [exact (gi_lists _ _ _ J)|]. left. rewrite Ef. left. }
    destruct (Z.eqb_spec h INVALID_HANDLE); [done|]. erewrite run_bind by apply run_ret.
    destruct (take_run c G own h f J Ef) as (i & c' & G' & E' & J' & Tk & Eg & _).
    exists (nd G' i), c', G'. split_and!; [exact E'|done|rewrite Eg; lia|]. right. by exists i.
Qed.

(** ** Releasing a node *)

(** Node [i] is live no more; the others are kept. *)
Record gone c G c' G' i : Prop := {
  go_kept : kept c G c' G' (fun j => live c G j /\ j ≠ i);
  go_live : forall j, live c' G' j <-> live c G j /\ j ≠ i;
  go_used : ni_used_node (ni_of c') = ni_used_node (ni_of c) - 1
}.

Definition released (s : NODE_SET) i : NODE_SET := set_dele i (dele_count s + 1) s.

Definition freed_attr (id top : Z) : NodeAttr := mkAttr INVALID_NODE_ID id id top false.

Lemma set_release_node_run c n s a : sets_of c !! n.1 = Some s -> attrs_of c !! n = Some a ->
  set_release_node n c = Some (tt, put_group n.1 (set_dele (wrap 16 n.2) (wrap 16 (dele_count s + 1)) s)
                                     (put_node n (set_vd (dele_top s) a) c)).
Proof.
  intros Hs Ha. unfold set_release_node. erewrite run_bind by by apply get_set_at.
  by erewrite run_bind by by apply upd_attr_at.
Qed.

Lemma Release_run c k h s i a : sets_of c !! h = Some s -> attrs_of c !! (h, i) = Some a ->
  ng_nid s = 256 * Z.of_nat k -> 0 <= i < 256 -> Z.of_nat k < 2 ^ 24 -> 0 <= dele_count s <= 256 ->
  Release (h, i) c
  = Some (0, put_group h (released s i) (put_node (h, i) (freed_attr (256 * Z.of_nat k + i) (dele_top s)) c)).
Proof.
  intros Hs Ha Hn Hi Hk Hc. unfold Release.
  erewrite run_bind by by apply set_release_node_run. erewrite run_bind; [|by eapply Reset_run; [apply put_node_at|apply lookup_insert_eq]].
  simpl. rewrite Hn, !wrap_small by (split; lia). unfold released, put_group, put_node, on_group, on_sets, on_attrs. simpl.
  by rewrite insert_insert_eq.
Qed.

(** The state after [release_node], the lists settled in [c1]. *)
Definition after_release c1 k h (s : NODE_SET) i : Cache S X :=
  put_group h (released s i) (put_node (h, i) (freed_attr (256 * Z.of_nat k + i) (dele_top s))
    (on_group (on_ni (fun x => set_used_node (wrap 32 (ni_used_node x - 1)) x)) c1)).

Lemma released_ok c G k h s i c' G' : set_ok c G k h s -> used s (dels G h) i -> 0 <= i ->
  dels G' h = i :: dels G h -> (forall j, j ≠ i -> vd_at c' h j = vd_at c h j) -> vd_at c' h i = dele_top s ->
  (forall j, is_Some (attrs_of c !! (h, j)) -> is_Some (attrs_of c' !! (h, j))) ->
  set_ok c' G' k h (released s i).
Proof.
  intros [O1 O2 O3 O4 O5 O6 O7 O8] [Hu Hd] Hi Ed Hv Hvi Ha. split; rewrite ?Ed; simpl; try done; try lia; auto.
  - by apply NoDup_cons.
  - intros j [->|Hj]%elem_of_cons; [lia|auto].
  - rewrite Hvi. split_and!; [done|lia|lia|]. eapply dchain_ext; [|exact O6]. intros j Hj. apply Hv. by intros ->.
Qed.

(** The lists before the node goes back: a full group moves. *)
Lemma unsettle_lists c G own h s : gmem c G own -> glists c G -> gfull c G -> h ∈ fre G \/ h ∈ ful G -> sets_of c !! h = Some s ->
  exists c1 f' u', (if is_full s then list_del h;; free_list_add h else mret tt) c = Some (tt, c1) /\ recelled c c1
  /\ cells c1 (info_of c) f' /\ cells c1 (info_of c + sizeof_NG_LIST_T) u' /\ f' ++ u' ≡ₚ fre G ++ ful G
  /\ (forall x, x ∈ f' -> x ≠ h -> x ∈ fre G) /\ (forall x, x ∈ u' -> x ≠ h -> x ∈ ful G) /\ (h ∉ u') /\ h ∈ f'.
Proof.
  intros M L F Hh Hs. pose proof (lists_NoDup _ _ _ M L) as Hnd. rewrite NoDup_app in Hnd. destruct Hnd as (_ & Hdis & Hnu).
  pose proof L as [Lf Lu Lp]. destruct (is_full s) eqn:Efull.
  - destruct Hh as [Hh|Hh]; [rewrite (gf_free _ _ F h s Hh Hs) in Efull; done|].
    apply list_elem_of_split in Hh as (l1 & l2 & Eu). rewrite Eu in Lu, Hdis, Hnu.
    destruct (move_cells c (info_of c + sizeof_NG_LIST_T) (info_of c) l1 h l2 (fre G)) as (c0 & c1 & E0 & Ei0 & E & R & C1 & C2).
    + done.
    + done.
    + intros q Hq Hq'. eapply cells_apart; [done|done|done|]. by rewrite Eu.
    + exists c1, (h :: fre G), (l1 ++ l2). split_and!; [|done|done|done|..].
      * erewrite run_bind by exact E0. unfold free_list_add, free_head.
        erewrite run_bind by (by erewrite run_bind by apply run_gets). by rewrite Ei0.
      * rewrite Eu. simpl. solve_Permutation.
      * intros x [->|Hx]%elem_of_cons Hne; done.
      * intros x Hx _. rewrite Eu. set_solver.
      * rewrite NoDup_app, NoDup_cons in Hnu. set_solver.
      * left.
  - assert (h ∉ ful G) as Hnf by (intros Hu; by rewrite (gf_full _ _ F h s Hu Hs) in Efull).
    exists c, (fre G), (ful G). split_and!; try done; [apply recelled_refl|]. by destruct Hh.
Qed.

Lemma stepped_release c G k h s i c1 y : gs G !! k = Some h -> k ≠ 0%nat -> sets_of c !! h = Some s -> recelled c c1 ->
  stepped c G (after_release c1 k h (set_list y s) i) k h s (released s i) i (freed_attr (256 * Z.of_nat k + i) (dele_top s))
    (i :: dels G h).
Proof.
  intros Hk Hk0 Hs R. destruct (recelled_ni _ _ R) as (E1 & E2 & E3 & E4 & E5 & E6 & E7).
  destruct (rc_group _ _ R) as (F1 & F2 & F3 & F4 & F5). split; try done; simpl.
  - rewrite (rc_alloc _ _ R), (rc_index _ _ R), F1, F2, (rc_rest _ _ R). done.
  - rewrite E4. f_equal. lia.
  - exists y. by rewrite lookup_insert_eq.
  - intros x Hx. destruct (rc_sets _ _ R x) as [z Hz]. exists z. by rewrite lookup_insert_ne.
  - intros n. case_decide as Hn; [subst n; by rewrite lookup_insert_eq|]. rewrite lookup_insert_ne by done. by rewrite (rc_attrs _ _ R).
Qed.

Lemma index_release c G own c' k h s i a d f u : gmem c G own -> stepped c G c' k h s (released s i) i a d -> gindex c G ->
  node_index c' = node_index c -> gindex c' (stepped_ghost G f u h d).
Proof.
  intros M P [I1 I2 I3] Ex.
  assert (forall k', entry c' (stepped_ghost G f u h d) k' = entry c G k') as EE by (intros; unfold entry, second_of; by rewrite Ex).
  split; simpl secs; simpl gs; [by rewrite Ex| |intros; rewrite EE; auto].
  intros k' x t Hk' Ht. rewrite EE. destruct (decide (x = h)) as [->|Hne].
  - destruct (sp_set _ _ _ _ _ _ _ _ _ _ P) as [y Hy]. rewrite Hy in Ht. injection Ht as <-.
    apply (I2 k' h s); [done|]. apply (sp_s _ _ _ _ _ _ _ _ _ _ P).
  - destruct (stepped_other _ _ _ _ _ _ _ _ _ _ P x t Hne Ht) as (y & t0 & Ht0 & ->). by apply (I2 k' x t0).
Qed.

Lemma release_exec c G own k h s i : ginv c G own -> gs G !! k = Some h -> k ≠ 0%nat -> sets_of c !! h = Some s ->
  0 <= i < 256 -> used s (dels G h) i ->
  exists f' u' c', release_node (h, i) c = Some (0, c') /\ ginv c' (stepped_ghost G f' u' h (i :: dels G h)) own
  /\ stepped c G c' k h s (released s i) i (freed_attr (256 * Z.of_nat k + i) (dele_top s)) (i :: dels G h)
  /\ h ∈ f'.
Proof.
  intros J Hk Hk0 Hs Hi Hu. pose proof J as [M T L F I N].
  destruct (gt_sets _ _ T _ _ Hk) as (s0 & Hs0 & SO). assert (s0 = s) as -> by congruence.
  pose proof (lookup_lt_Some _ _ _ Hk) as Hlt. pose proof (gm_len _ _ _ M) as Hlen.
  pose proof (indices_length _ _ (so_nodup _ _ _ _ _ SO) (so_range _ _ _ _ _ SO)) as Hc.
  pose proof (so_free _ _ _ _ _ SO) as Hfr. pose proof (so_count _ _ _ _ _ SO) as Hct.
  assert (h ∈ fre G \/ h ∈ ful G) as Hin by (apply elem_of_app; rewrite (gl_perm _ _ L); by eapply tail_in).
  destruct (unsettle_lists c G own h s M L F Hin Hs) as (c1 & f' & u' & E1 & R & Cf & Cu & Hp & Hf' & Hu' & Hnu & Hhf).
  destruct (recelled_set_2 _ _ _ _ R Hs) as [y Hy]. destruct (so_attrs _ _ _ _ _ SO i Hi) as [a Ha].
  assert (0 < info_of c) as Hinf by (eapply block_pos; [done|]; unfold blocks; set_solver).
  pose proof (stepped_release c G k h s i c1 y Hk Hk0 Hs R) as P.
  exists f', u', (after_release c1 k h (set_list y s) i). split_and!; [| |done|done].
  - unfold release_node. erewrite run_bind by by apply get_set_at. erewrite run_bind by exact E1.
    erewrite run_bind; [|apply upd_info_run; destruct (rc_group _ _ R) as (-> & _); unfold INVALID_HANDLE; lia].
    rewrite (Release_run _ k h (set_list y s) i a); [done|done| |exact (so_nid _ _ _ _ _ SO)|done|lia|simpl; lia].
    simpl. by rewrite (rc_attrs _ _ R).
  - assert (forall j, attrs_of (after_release c1 k h (set_list y s) i) !! (h, j)
      = if decide ((h, j) = (h, i)) then Some (freed_attr (256 * Z.of_nat k + i) (dele_top s)) else attrs_of c !! (h, j)) as EA
      by (intros j; apply (sp_attrs _ _ _ _ _ _ _ _ _ _ P)).
    assert (is_full (released s i) = false) as Hnf.
    { unfold is_full. simpl. destruct (Z.eqb_spec (dele_count s + 1) 0); [lia|done]. }
    eapply ginv_step; [done|done| | | |done|done|done|done|by intros ?%Hnu|].
    + eapply (released_ok c G); [done|done|lia|simpl; by rewrite Z.eqb_refl|..].
      * intros j Hj. unfold vd_at. rewrite EA, decide_False; [done|congruence].
      * unfold vd_at. by rewrite EA, decide_True.
      * intros j Hj. rewrite EA. by case_decide.
    + by eapply (cells_change (on_group _ c1)); [exact Hy|done|eapply (cells_ext c1); [..|exact Cf]].
    + by eapply (cells_change (on_group _ c1)); [exact Hy|done|eapply (cells_ext c1); [..|exact Cu]].
    + eapply index_release; [done|done|done|]. by apply (rc_index _ _ R).
Qed.

(** [NGInfo::release_node] of a live node that is not a list head. *)
Lemma release_node_spec c G own i : ginv c G own -> live c G i -> 256 <= i ->
  exists c' G', release_node (nd G i) c = Some (0, c') /\ ginv c' G' own /\ gone c G c' G' i /\ gs G' = gs G
  /\ step (node_group c') = step (node_group c) /\ fre G' ≠ [].
Proof.
  intros J (Hi & h & s & Hh & Hs & Hu) Hi2. pose proof (gi_mem _ _ _ J) as M.
  set (k := gidx i) in *. assert (k ≠ 0%nat) as Hk0 by (unfold k, gidx; zdm).
  destruct (release_exec c G own k h s (i mod 256) J Hh Hk0 Hs) as (f' & u' & c' & E & J' & P & Hf'); [zdm|done|].
  exists c', (stepped_ghost G f' u' h (i mod 256 :: dels G h)).
  assert (forall j, live c' (stepped_ghost G f' u' h (i mod 256 :: dels G h)) j <-> live c G j /\ j ≠ i) as HL.
  { intros j. rewrite (stepped_live c G own c' k h s _ _ _ _ f' u' M P). case_decide as Hg.
    - unfold live, used. rewrite Hg, not_elem_of_cons. simpl. split.
      + intros (Hj & Hf & Hne & Hd). split; [split; [done|by exists h, s]|]. by intros ->.
      + intros ((Hj & h' & t & Hh' & Ht & Hf & Hd) & Hne). assert (h' = h) as -> by congruence.
        assert (t = s) as -> by congruence. split_and!; [done|done| |done].
        intros Em. apply Hne. rewrite (id_split i Hi), (id_split j Hj). fold k. by rewrite Hg, Em.
    - split; [|intros [Hl _]; split; [apply Hl|done]]. intros [_ Hl]. split; [done|]. by intros ->. }
  split_and!; [|done| |done|by destruct (sp_same _ _ _ _ _ _ _ _ _ _ P) as (_ & _ & _ & ? & _)|simpl; by destruct f'; [apply not_elem_of_nil in Hf'|]].
  - unfold nd. fold k. by rewrite Hh.
  - split; [|done|].
    + eapply stepped_kept; [done|done|]. intros j [Hj Hne]. split_and!; [done|by apply HL|].
      rewrite (id_split i Hi) in Hne. done.
    + rewrite (stepped_used _ _ _ _ _ _ _ _ _ _ _ _ _ P M (gi_count _ _ _ J) (gi_count _ _ _ J')). simpl. lia.
Qed.

End Run.
