(* ===== verification/NodeInit.v ===== *)
(** * Formatting the node index and the node groups

    [NodeIndex::do_init] and [NGInfo::do_init] on a heap: when they report
    success the invariant of the node groups holds, with one group, whose
    first three nodes are the heads of the LRU lists. *)

From S2P Require Import Prelude DList PtMalloc PtMallocSpec MallocBase Node NodeLists NodeGroups NodeAlloc NodeOps NodeRun.

#[local] Opaque init_attrs.

Section Init.

Context {S X : Type} `{MallocLaws S}.

Implicit Types (c : Cache S X) (h i v : Z) (own l : list Z) (A : heap).

Abbreviation sets_of c := (sets (node_group c)).
Abbreviation attrs_of c := (attrs (node_group c)).
Abbreviation info_of c := (nodegroup_info_ (node_group c)).
Abbreviation ni_of c := (ni (node_group c)).

(** Blocks of a heap, pairwise different. *)
Definition held A l : Prop := NoDup l /\ Forall (fun b => is_Some (A !! b)) l.

Lemma held_cons A v m l : held A l -> A !! v = None -> held (<[v := m]> A) (v :: l).
Proof.
  intros [Hn Hf] Hv. rewrite Forall_forall in Hf. split.
  - apply NoDup_cons. split; [|done]. intros Hin. destruct (Hf v Hin). congruence.
  - apply Forall_cons. split; [rewrite lookup_insert_eq; by eexists|]. rewrite Forall_forall. intros b Hb.
    rewrite lookup_insert_ne; [auto|]. intros ->. destruct (Hf b Hb). congruence.
Qed.

Lemma held_perm A l l' : l ≡ₚ l' -> held A l -> held A l'.
Proof. intros E [Hn Hf]. split; by rewrite <- E. Qed.

(** ** The index *)

(** [l] are the second-level indices, all empty. *)
Record index_ok c A l own : Prop := {
  io_rep : m_rep (alloc c) A;
  io_held : held A (firstIndex (node_index c) :: l ++ own);
  io_secs : forall (j : nat) h, l !! j = Some h ->
    aget (fi_h (node_index c)) (Z.of_nat j) = h /\ seconds (node_index c) !! h = Some (mkSecond 0 ∅)
}.

Lemma new_second_run c A l own : index_ok c A l own ->
  exists b c', new_second (Z.of_nat (length l)) c = Some (b, c') /\ node_group c' = node_group c /\ rest c' = rest c
  /\ (b = true -> exists h m, index_ok c' (<[h := m]> A) (l ++ [h]) own /\ A !! h = None).
Proof.
  intros [R Hh Hs]. destruct (M_CALLOC_run c A INDEX_2_SIZE R) as (h & a & E & _ & O); [done|].
  unfold new_second. erewrite run_bind by exact E. erewrite run_bind by apply run_modify.
  destruct O as [[-> Ra]|(m & _ & Hv & Hf & Ra)].
  - rewrite Z.eqb_refl. eexists false, _. by split_and!.
  - destruct (Z.eqb_spec h INVALID_HANDLE); [done|]. erewrite run_bind by apply run_modify.
    eexists true, _. split_and!; [done|done|done|]. intros _. exists h, m. split; [|done].
    assert (h ∉ l) as Hnl.
    { destruct Hh as [_ HF]. rewrite Forall_forall in HF. intros Hin. destruct (HF h); [set_solver|congruence]. }
    split; [done| |].
    + apply (held_perm _ (h :: firstIndex (node_index c) :: l ++ own)); [simpl; solve_Permutation|by apply held_cons].
    + intros j x Hj. simpl. unfold aget, aset. apply lookup_app_Some in Hj as [Hj|[Hl Hj]].
      * destruct (Hs j x Hj) as [E1 E2]. pose proof (lookup_lt_Some _ _ _ Hj).
        rewrite !lookup_insert_ne; [done|intros ->; by apply Hnl; eapply list_elem_of_lookup_2|lia].
      * apply list_lookup_singleton_Some in Hj as [Hj <-]. rewrite lookup_insert_eq. split; [|done].
        replace j with (length l) by lia. by rewrite lookup_insert_eq.
Qed.

Lemma pre_allocate_run (k : nat) c A l own : index_ok c A l own ->
  exists r c', pre_allocate k (Z.of_nat (length l)) c = Some (r, c') /\ node_group c' = node_group c /\ rest c' = rest c
  /\ (r = 0 -> exists A' l', index_ok c' A' l' own /\ length l' = (length l + k)%nat /\ A ⊆ A').
Proof.
  revert c A l. induction k as [|k IH]; intros c A l J; simpl.
  { exists DTC_CODE_SUCCESS, c. split_and!; try done. intros _. exists A, l. split_and!; [done|lia|done]. }
  destruct (new_second_run c A l own J) as (b & c1 & E & Eg & Er & O). erewrite run_bind by exact E.
  destruct b; [|exists DTC_CODE_FAILED, c1; by split_and!].
  destruct (O eq_refl) as (h & m & J1 & Hf).
  destruct (IH c1 (<[h := m]> A) (l ++ [h]) J1) as (r & c' & E' & Eg' & Er' & O').
  rewrite length_app in E'. simpl in E'. replace (Z.of_nat (length l + 1)) with (Z.of_nat (length l) + 1) in E' by lia.
  exists r, c'. split_and!; [done|congruence|congruence|]. intros Hr. destruct (O' Hr) as (A' & l' & J' & Hl & Hs).
  exists A', l'. split_and!; [done|rewrite Hl, length_app; simpl; lia|]. etrans; [|exact Hs]. by apply insert_subseteq.
Qed.

(** The number of second-level indices made up front. *)
Definition index_count (mem_size : Z) : Z := mem_size / (65536 * 256 * 44) + 1.

Lemma index_do_init_run mem_size c A own : 0 <= mem_size <= 2 ^ 36 -> m_rep (alloc c) A -> held A own ->
  exists r c', index_do_init mem_size c = Some (r, c') /\ node_group c' = node_group c /\ rest c' = rest c
  /\ (r = 0 -> exists A' l, index_ok c' A' l own /\ Z.of_nat (length l) = index_count mem_size /\ A ⊆ A').
Proof.
  intros Hm R Hh. destruct (M_CALLOC_run c A INDEX_1_SIZE R) as (h & a & E & _ & O); [done|].
  unfold index_do_init. erewrite run_bind by exact E.
  destruct O as [[-> Ra]|(m & _ & Hv & Hf & Ra)]; [rewrite Z.eqb_refl; exists DTC_CODE_FAILED, (set_alloc a c); by split_and!|].
  destruct (Z.eqb_spec h INVALID_HANDLE); [done|]. erewrite run_bind by apply run_modify.
  unfold pre_allocate_index. erewrite run_bind by apply run_gets. simpl firstIndex. unfold not_null.
  destruct (Z.eqb_spec h INVALID_HANDLE); [done|]. erewrite run_bind by apply run_ret.
  fold (index_count mem_size). assert (1 <= index_count mem_size <= 256) as Hn by (unfold index_count; zdm).
  rewrite wrap_small by (split; lia). destruct (Z.ltb_spec 256 (index_count mem_size)); [lia|].
  set (c1 := on_index (fun x => mkIndex h ∅ (seconds x)) (set_alloc a c)).
  assert (index_ok c1 (<[h := m]> A) [] own) as J1 by (split; simpl; [done|by apply held_cons|done]).
  destruct (pre_allocate_run (Z.to_nat (index_count mem_size)) c1 (<[h := m]> A) [] own J1) as (r & c' & E' & Eg & Er & O').
  exists r, c'. split_and!; [exact E'|done|done|]. intros Hr. destruct (O' Hr) as (A' & l & J & Hl & Hs).
  exists A', l. split_and!; [done|simpl in Hl; lia|]. etrans; [|exact Hs]. by apply insert_subseteq.
Qed.

(** ** The group of the list heads *)

Definition sys_set (f : Z) (x : NG_LIST_T) : NODE_SET := mkNodeSet x 0 0 f 0.

Lemma put_node_id c n a : attrs_of c !! n = Some a -> put_node n a c = c.
Proof.
  intros E. unfold put_node, on_group, on_attrs. rewrite insert_id by done. by destruct c as [? ? []].
Qed.

Lemma put_group_twice h s s' c : put_group h s' (put_group h s c) = put_group h s' c.
Proof. unfold put_group, on_group, on_sets. simpl. by rewrite insert_insert_eq. Qed.

Lemma sys_allocate c h f x : 0 <= f < 3 -> sets_of c !! h = Some (sys_set f x) -> attrs_of c !! (h, f) = Some (fresh_attr 0 f) ->
  set_allocate_node h c = Some ((h, f), put_group h (sys_set (f + 1) x) c).
Proof.
  intros Hf Hs Ha. unfold set_allocate_node. erewrite run_bind by by apply get_set_at.
  assert (is_full (sys_set f x) = false) as -> by (unfold is_full, NODE_GROUP_INCLUDE_NODES; simpl; zcase; (done || lia)).
  assert ((0 <? dele_count (sys_set f x)) = false) as -> by done.
  erewrite run_bind by by eapply Reset_run. erewrite run_bind by apply run_modify.
  rewrite put_node_id by done. unfold put_group, set_free, sys_set. simpl. by rewrite wrap_small by (split; lia).
Qed.

Lemma sys_head c h f x f' : 0 <= f < 3 -> sets_of c !! h = Some (sys_set f' x) -> attrs_of c !! (h, f) = Some (fresh_attr 0 f) ->
  node_id (h, f) c = Some (f, c) /\ INIT_NODE_LIST_HEAD (h, f) f c = Some (tt, c).
Proof.
  intros Hf Hs Ha. assert (wrap 32 (0 + f) = f) as Ew by (apply wrap_small; split; lia). split.
  - erewrite node_id_at by exact Hs. simpl. by rewrite Ew.
  - unfold INIT_NODE_LIST_HEAD. erewrite run_bind by by apply upd_attr_at.
    assert (set_prev f (fresh_attr 0 f) = fresh_attr 0 f) as -> by (unfold set_prev, fresh_attr; by rewrite Ew).
    rewrite put_node_id by done. erewrite upd_attr_at by done.
    assert (set_lnext f (fresh_attr 0 f) = fresh_attr 0 f) as -> by (unfold set_lnext, fresh_attr; by rewrite Ew).
    by rewrite put_node_id.
Qed.

Lemma sys_insert c h f x b q : 0 <= f < 3 -> sets_of c !! h = Some (sys_set 3 x) ->
  firstIndex (node_index c) ≠ INVALID_HANDLE -> aget (fi_h (node_index c)) 0 = b -> b ≠ INVALID_HANDLE ->
  seconds (node_index c) !! b = Some q ->
  do_insert (h, f) c = Some (0, on_index (put_second b (mkSecond (wrap 32 (si_used q + 1)) (aset 0 h (si_h q)))) c).
Proof.
  intros Hf Hs Hi Hb Hb0 Hq. assert (gidx f = 0%nat) as Eg by (unfold gidx; zdm).
  assert (OFFSET2 f = 0) as E2 by (rewrite OFFSET2_id, Eg by lia; done).
  assert (OFFSET1 f = 0) as E1 by (rewrite OFFSET1_id, Eg by lia; done).
  erewrite (do_insert_at c (h, f) f b q); rewrite ?E1, ?E2; try done.
  erewrite node_id_at by exact Hs. simpl. by rewrite wrap_small by (split; lia).
Qed.

(** The effect of [system_reserved_init]. *)
Definition sys_done h x b c : Cache S X :=
  on_index (put_second b (mkSecond 3 {[0 := h]})) (put_group h (sys_set 3 x) c).

Lemma system_reserved_init_run c h x b : sets_of c !! h = Some (sys_set 0 x) ->
  (forall f, 0 <= f < 3 -> attrs_of c !! (h, f) = Some (fresh_attr 0 f)) ->
  0 < h -> firstIndex (node_index c) ≠ INVALID_HANDLE -> aget (fi_h (node_index c)) 0 = b -> b ≠ INVALID_HANDLE ->
  seconds (node_index c) !! b = Some (mkSecond 0 ∅) ->
  system_reserved_init h c = Some (0, sys_done h x b c).
Proof.
  intros Hs Ha Hh Hf Hb Hb0 Hq. unfold system_reserved_init.
  erewrite run_bind by (by apply (sys_allocate c h 0 x); [lia|done|apply Ha]). rewrite (not_null_node h 0) by lia.
  erewrite run_bind by (by apply (sys_allocate _ h 1 x); [lia|apply lookup_insert_eq|apply Ha]). rewrite (not_null_node h 1) by lia.
  erewrite run_bind by (by apply (sys_allocate _ h 2 x); [lia|apply lookup_insert_eq|apply Ha]). rewrite (not_null_node h 2) by lia.
  rewrite !put_group_twice. set (c3 := put_group h (sys_set (2 + 1) x) c).
  assert (sets_of c3 !! h = Some (sys_set 3 x)) as Hs3 by apply lookup_insert_eq.
  destruct (sys_head c3 h 0 x 3) as [N0 I0]; [lia|done|by apply Ha|]. destruct (sys_head c3 h 1 x 3) as [N1 I1]; [lia|done|by apply Ha|].
  destruct (sys_head c3 h 2 x 3) as [N2 I2]; [lia|done|by apply Ha|].
  erewrite run_bind by exact N0. erewrite run_bind by exact I0. erewrite run_bind by exact N1. erewrite run_bind by exact I1.
  erewrite run_bind by exact N2. erewrite run_bind by exact I2.
  erewrite run_bind by (by eapply (sys_insert c3 h 0 x b); [lia|..]).
  erewrite run_bind by (by eapply (sys_insert _ h 1 x b); [lia|done|done|done|done|apply lookup_insert_eq]).
  erewrite run_bind by (by eapply (sys_insert _ h 2 x b); [lia|done|done|done|done|apply lookup_insert_eq]).
  rewrite run_ret. unfold sys_done, c3, on_index, put_second. simpl. rewrite !insert_insert_eq. done.
Qed.

(** ** The header *)

Definition set_both (v : Z) (x : NG_INFO_T) : NG_INFO_T :=
  set_heads (mkNgList v v) (mkNgList (v + sizeof_NG_LIST_T) (v + sizeof_NG_LIST_T)) x.

Lemma init_free_head c v : info_of c = v -> 0 < v ->
  INIT_NG_LIST_HEAD v c = Some (tt, on_group (on_ni (fun x => set_heads (mkNgList v v) (ni_full_head x) x)) c).
Proof.
  intros Ei Hv. unfold INIT_NG_LIST_HEAD. assert (is_cell c v) as Hc by (split; [lia|by left]).
  erewrite run_bind by by apply set_cell_prev_run. erewrite set_cell_next_run by by apply is_cell_put.
  unfold put_cellv, cellv. rewrite <- Ei. rewrite !Z.eqb_refl. simpl. by rewrite ?Z.eqb_refl.
Qed.

Lemma init_full_head c v : info_of c = v -> 0 < v ->
  INIT_NG_LIST_HEAD (v + sizeof_NG_LIST_T) c = Some (tt, on_group (on_ni (fun x =>
    set_heads (ni_free_head x) (mkNgList (v + sizeof_NG_LIST_T) (v + sizeof_NG_LIST_T)) x)) c).
Proof.
  intros Ei Hv. unfold INIT_NG_LIST_HEAD.
  assert (is_cell c (v + sizeof_NG_LIST_T)) as Hc by (unfold sizeof_NG_LIST_T; split; [lia|right; left; by rewrite Ei]).
  erewrite run_bind by by apply set_cell_prev_run. erewrite set_cell_next_run by by apply is_cell_put.
  unfold put_cellv, cellv. rewrite Ei. destruct (Z.eqb_spec (v + sizeof_NG_LIST_T) v); [unfold sizeof_NG_LIST_T in *; lia|].
  rewrite !Z.eqb_refl. simpl. rewrite Ei. destruct (Z.eqb_spec (v + sizeof_NG_LIST_T) v); [done|]. by rewrite ?Z.eqb_refl.
Qed.

(** The state when [init_header] calls [allocate_ng]. *)
Definition header_ready v c : Cache S X := on_group (on_ni (fun x => set_min_id SYS_MIN_NODE_ID (set_both v x))) c.

(** The state when it returns. *)
Definition header_done v h b a c : Cache S X :=
  on_group (on_ni (fun x => set_counts 0 0 0 (set_used_node 0 (set_used_ng 1 (set_sys_zone h x)))))
    (sys_done h (mkNgList INVALID_HANDLE INVALID_HANDLE) b (new_group h a (header_ready v c))).

Lemma init_header_run c A l own v b l' : index_ok c A l own -> l = b :: l' -> info_of c = v -> 0 < v ->
  exists r c', init_header c = Some (r, c')
  /\ (r = 0 -> exists h a m, c' = header_done v h b a c /\ A !! h = None /\ m_rep a (<[h := m]> A)).
Proof.
  intros [R Hh Hs] El Ei Hv. subst l. destruct (Hs 0%nat b eq_refl) as [Hb Hq]. change (Z.of_nat 0) with 0 in Hb.
  destruct Hh as [_ HF]. rewrite Forall_forall in HF.
  assert (forall z, z ∈ firstIndex (node_index c) :: b :: l' -> z ≠ INVALID_HANDLE) as Hpos.
  { intros z Hz. destruct (HF z) as [n Hn]; [simpl; set_solver|]. pose proof (m_rep_pos _ _ _ _ R Hn). unfold INVALID_HANDLE. lia. }
  unfold init_header, free_head, full_head.
  erewrite run_bind; [|erewrite run_bind by apply run_gets; by rewrite Ei].
  erewrite run_bind by by apply init_free_head.
  erewrite run_bind; [|erewrite run_bind by apply run_gets; simpl; by rewrite Ei].
  erewrite run_bind by by apply init_full_head.
  erewrite run_bind; [|apply upd_info_run; simpl; unfold INVALID_HANDLE; lia].
  change (on_group _ (on_group _ (on_group _ c))) with (header_ready v c).
  destruct (allocate_ng_run (header_ready v c) A) as (h & a & _ & [(E & _ & Ra)|(E & m & Hh0 & Hf & Ra)]);
    [done|simpl; unfold INVALID_HANDLE; lia|erewrite run_bind by exact E; rewrite Z.eqb_refl; eexists (-1), _; done|].
  erewrite run_bind by exact E. destruct (Z.eqb_spec h INVALID_HANDLE); [done|].
  assert (0 < h) as Hhp by (by eapply m_rep_pos; [exact Ra|apply lookup_insert_eq]).
  erewrite run_bind; [|apply (system_reserved_init_run _ h (mkNgList INVALID_HANDLE INVALID_HANDLE) b)].
  - erewrite run_bind; [|apply upd_info_run; simpl; unfold INVALID_HANDLE; lia].
    eexists 0, _. split; [done|]. intros _. by exists h, a, m.
  - rewrite new_group_sets. by rewrite Z.eqb_refl.
  - intros f Hf'. rewrite new_group_attrs. by rewrite decide_True by lia.
  - done.
  - apply Hpos. set_solver.
  - done.
  - apply Hpos. set_solver.
  - done.
Qed.

(** ** The invariant after formatting *)

Definition init_ghost l h A : ghost := mkGhost [h] [] [] (fun _ => []) l A.

Section Formatted.

Context c A l own v h b l' a n m (J : index_ok c A l own) (El : l = b :: l') (Hl : (length l <= 256)%nat)
  (Hsets : sets_of c = ∅) (Hst : 1 <= step (node_group c) <= 4096) (Ei : info_of c = v) (Hv : A !! v = Some n)
  (Hown : v ∉ firstIndex (node_index c) :: l ++ own) (Hn : sizeof_NG_INFO_T <= n)
  (Hh : A !! h = None) (Ra : m_rep a (<[h := m]> A)).

Definition formatted : Cache S X := header_done v h b a c.
Definition formatted_ghost : ghost := init_ghost l h (<[h := m]> A).

Lemma formatted_sets x : sets_of formatted !! x
  = if x =? h then Some (sys_set 3 (mkNgList INVALID_HANDLE INVALID_HANDLE)) else None.
Proof.
  clear -Hsets. change (sets_of formatted) with (<[h := sys_set 3 (mkNgList INVALID_HANDLE INVALID_HANDLE)]> (<[h := blank_set 0]> (sets_of c))).
  rewrite Hsets. destruct (Z.eqb_spec x h) as [->|]; [by rewrite lookup_insert_eq|by rewrite !lookup_insert_ne].
Qed.

Lemma formatted_attrs j : 0 <= j < 256 -> attrs_of formatted !! (h, j) = Some (fresh_attr 0 j).
Proof.
  clear. intros Hj. change (attrs_of formatted) with (attrs_of (new_group h a (header_ready v c))).
  rewrite new_group_attrs. by rewrite decide_True.
Qed.

Lemma formatted_mem : gmem formatted formatted_ghost own.
Proof.
  pose proof (io_held _ _ _ _ J) as [Hh1 Hh2].
  assert (held (<[h := m]> A) (blocks formatted formatted_ghost own)) as [HN HF].
  { apply (held_perm _ (h :: v :: firstIndex (node_index c) :: l ++ own)).
    - unfold blocks. simpl. rewrite Ei. solve_Permutation.
    - apply held_cons; [|done]. split; [by apply NoDup_cons|]. apply Forall_cons. split; [by eexists|done]. }
  split; try done; simpl.
  - rewrite Ei. exists n. rewrite lookup_insert_ne; [done|]. congruence.
  - rewrite El. simpl. lia.
Qed.

Lemma formatted_groups : gsets formatted formatted_ghost.
Proof.
  split; simpl gs.
  - intros k x Hk. apply list_lookup_singleton_Some in Hk as [-> <-].
    exists (sys_set 3 (mkNgList INVALID_HANDLE INVALID_HANDLE)). rewrite formatted_sets, Z.eqb_refl. split; [done|].
    split; simpl; try done; try lia.
    + constructor.
    + intros i Hi. by apply not_elem_of_nil in Hi.
    + intros i Hi. change (is_Some (attrs_of formatted !! (h, i))). rewrite formatted_attrs by done. by eexists.
  - intros x [t Ht]. rewrite formatted_sets in Ht. destruct (Z.eqb_spec x h); [subst; left|done].
  - exists h, (sys_set 3 (mkNgList INVALID_HANDLE INVALID_HANDLE)). split_and!; try done.
    rewrite formatted_sets. by rewrite Z.eqb_refl.
Qed.

Lemma cells_empty c0 hd : cellv c0 hd = mkNgList hd hd -> is_cell c0 hd -> cells c0 hd [].
Proof. clear. intros E Hc. split; [|apply NoDup_singleton|by apply Forall_singleton]. by repeat split; simpl; rewrite ?E. Qed.

Lemma formatted_cells : cells formatted v [] /\ cells formatted (v + sizeof_NG_LIST_T) [].
Proof.
  assert (0 < v) as Hp by (pose proof (m_rep_pos _ _ _ _ (io_rep _ _ _ _ J) Hv); lia).
  assert (cellv formatted v = mkNgList v v) as E1 by (unfold cellv; simpl; by rewrite Ei, Z.eqb_refl).
  assert (cellv formatted (v + sizeof_NG_LIST_T) = mkNgList (v + sizeof_NG_LIST_T) (v + sizeof_NG_LIST_T)) as E2.
  { unfold cellv. simpl. rewrite Ei, Z.eqb_refl.
    destruct (Z.eqb_spec (v + sizeof_NG_LIST_T) v); [unfold sizeof_NG_LIST_T in *; lia|done]. }
  split; apply cells_empty; try done; (split; [unfold sizeof_NG_LIST_T; lia|]); simpl; rewrite Ei; tauto.
Qed.

Lemma formatted_entry k : (k = 0%nat -> entry formatted formatted_ghost k = h)
  /\ (k ≠ 0%nat -> Z.of_nat k < 65536 * Z.of_nat (length l) -> entry formatted formatted_ghost k = 0).
Proof.
  pose proof (io_secs _ _ _ _ J) as Hs. unfold entry, second_of. simpl. split.
  - intros ->. change (slot1 0) with 0%nat. rewrite El. simpl. by rewrite lookup_insert_eq.
  - intros Hk Hlt. destruct (lookup_lt_is_Some_2 l (slot1 k)) as [x Hx]; [unfold slot1; zdm|].
    rewrite Hx. simpl. destruct (decide (b = x)) as [<-|Hne].
    + rewrite lookup_insert_eq. simpl. unfold aget. rewrite lookup_singleton_ne; [done|].
      assert (slot1 k = 0%nat) as E0; [|unfold slot1 in E0; zdm].
      assert (NoDup l) as Hnd by (destruct (io_held _ _ _ _ J) as [HN _]; rewrite NoDup_cons, NoDup_app in HN; tauto).
      eapply NoDup_lookup; [exact Hnd|exact Hx|]. by rewrite El.
    + rewrite lookup_insert_ne by done. by destruct (Hs _ _ Hx) as [_ ->].
Qed.

Lemma formatted_inv : ginv formatted formatted_ghost own.
Proof.
  destruct formatted_cells as [C1 C2]. split; [apply formatted_mem|apply formatted_groups|..].
  - split; simpl; rewrite ?Ei; done.
  - split; intros x t Hx; by apply not_elem_of_nil in Hx.
  - split.
    + intros j x Hj. destruct (io_secs _ _ _ _ J j x Hj) as [E1 E2]. split; [exact E1|]. simpl.
      destruct (decide (b = x)) as [<-|]; [rewrite lookup_insert_eq; by eexists|rewrite lookup_insert_ne by done; by eexists].
    + intros k x t Hk _. apply list_lookup_singleton_Some in Hk as [-> <-]. left. by apply formatted_entry.
    + intros k Hk1 Hk2. simpl in Hk1, Hk2. apply formatted_entry; [lia|done].
  - by split.
Qed.

Lemma formatted_live i : live formatted formatted_ghost i <-> 0 <= i < 3.
Proof.
  unfold live. simpl. split.
  - intros (Hi & x & t & Hx & Ht & Hf & _). apply list_lookup_singleton_Some in Hx as [Hg <-].
    rewrite formatted_sets, Z.eqb_refl in Ht. injection Ht as <-. simpl in Hf. pose proof (id_split i Hi). lia.
  - intros Hi. assert (gidx i = 0%nat) as -> by (unfold gidx; zdm). split; [lia|].
    exists h, (sys_set 3 (mkNgList INVALID_HANDLE INVALID_HANDLE)). rewrite formatted_sets, Z.eqb_refl.
    split_and!; [done|done|simpl; zdm|apply not_elem_of_nil].
Qed.

End Formatted.

(** The groups as [NGInfo::do_init] leaves them. *)
Record groups_fresh c c' (G : ghost) own : Prop := {
  fg_inv : ginv c' G own;
  fg_one : length (gs G) = 1%nat;
  fg_rest : rest c' = rest c /\ step (node_group c') = step (node_group c);
  fg_live : forall i, live c' G i <-> 0 <= i < 3;
  fg_attr : forall i, 0 <= i < 3 -> attrs_of c' !! nd G i = Some (fresh_attr 0 i);
  fg_sys : forall i, 0 <= i < 3 -> nd G i = (ni_sys_zone (ni_of c'), i);
  fg_zero : ni_used_node (ni_of c') = 0 /\ ni_dirty_node (ni_of c') = 0 /\ ni_used_row (ni_of c') = 0 /\ ni_dirty_row (ni_of c') = 0
}.

Lemma group_do_init_run c A l own b l' : index_ok c A l own -> l = b :: l' -> (length l <= 256)%nat -> sets_of c = ∅ ->
  1 <= step (node_group c) <= 4096 ->
  exists r c', group_do_init c = Some (r, c')
  /\ (r = 0 -> exists G, groups_fresh c c' G own /\ secs G = l /\ A ⊆ hp G).
Proof.
  intros J El Hl Hsets Hst. unfold group_do_init.
  destruct (M_CALLOC_run c A sizeof_NG_INFO_T (io_rep _ _ _ _ J)) as (v & a1 & E & _ & O); [done|]. erewrite run_bind by exact E.
  destruct O as [[-> Ra]|(n & Hn & Hv & Hf & Ra)]; [rewrite Z.eqb_refl; by eexists (-1), _|].
  destruct (Z.eqb_spec v INVALID_HANDLE); [done|]. erewrite run_bind by apply run_modify.
  set (c1 := on_group (set_info v zero_NG_INFO_T) (set_alloc a1 c)). pose proof J as [R [HN HF] Hs]. rewrite Forall_forall in HF.
  assert (v ∉ firstIndex (node_index c) :: l ++ own) as Hvn by (intros Hin; destruct (HF v Hin); congruence).
  assert (0 < v) as Hvp by (by eapply m_rep_pos; [exact Ra|apply lookup_insert_eq]).
  assert (index_ok c1 (<[v := n]> A) l own) as J1.
  { split; [done| |done]. split; [done|]. rewrite Forall_forall. intros x Hx. rewrite lookup_insert_ne; [auto|by intros ->]. }
  destruct (init_header_run c1 (<[v := n]> A) l own v b l' J1 El eq_refl Hvp) as (r & c' & E' & O).
  exists r, c'. split; [exact E'|]. intros Hr. destruct (O Hr) as (h & a & m & -> & Hh & Rh).
  exists (formatted_ghost (<[v := n]> A) l h m). split_and!; [|done|].
  - split; try done.
    + by eapply (formatted_inv c1 _ l own v h b l' a n m J1 El); rewrite ?lookup_insert_eq.
    + intros i. by apply (formatted_live c1).
    + intros i Hi. unfold nd. assert (gidx i = 0%nat) as -> by (unfold gidx; zdm). simpl. rewrite Z.mod_small by lia.
      apply (formatted_attrs c1 v h b a). lia.
    + intros i Hi. unfold nd. assert (gidx i = 0%nat) as -> by (unfold gidx; zdm). simpl. by rewrite Z.mod_small by lia.
  - simpl. etrans; [by apply insert_subseteq|by apply insert_subseteq].
Qed.

End Init.
