(* ===== verification/PondChains.v ===== *)
(** * The hash chains of the cache

    Every bucket starts a chain of node ids, linked through the [NEXT_NODE]
    attribute.  Inserting, removing and finding are the operations on the list
    of the chain; they change nothing but that list and the counters. *)

From S2P Require Import Prelude DList PtMalloc PtMallocSpec MallocBase Jenkins DtcHash Node Pond.
From S2P Require Import NodeLists NodeGroups NodeAlloc NodeOps NodeRun.

(** [l] is the chain that starts with the id [x]. *)
Fixpoint chain (nx : Z -> Z) (x : Z) (l : list Z) : Prop :=
  match l with
  | [] => x = INVALID_NODE_ID
  | i :: l => x = i /\ chain nx (nx i) l
  end.

Lemma chain_ext nx nx' x l : (forall i, i ∈ l -> nx' i = nx i) -> chain nx x l -> chain nx' x l.
Proof.
  revert x. induction l as [|i l IH]; intros x E; simpl; [done|]. intros [-> Hc]. split; [done|].
  rewrite (E i) by left. apply IH; [|done]. intros. apply E. by right.
Qed.

(** Unlinking [i] from behind [p]. *)
Lemma chain_unlink nx nx' x l1 p i l2 : NoDup (l1 ++ p :: i :: l2) -> chain nx x (l1 ++ p :: i :: l2) ->
  nx' p = nx i -> (forall j, j ∈ l1 ++ l2 -> nx' j = nx j) -> chain nx' x (l1 ++ p :: l2).
Proof.
  revert x. induction l1 as [|j l1 IH]; intros x Hn Hc Ep Ej; simpl in *.
  - destruct Hc as (-> & Hp & Hc). split; [done|]. rewrite Ep. eapply chain_ext; [|exact Hc]. intros. by apply Ej.
  - destruct Hc as [-> Hc]. split; [done|]. rewrite (Ej j) by left. apply IH; [by apply NoDup_cons in Hn as [_ ?]|done|done|].
    intros y Hy. apply Ej. by right.
Qed.

Lemma chain_tail nx x l1 i l2 : chain nx x (l1 ++ i :: l2) -> chain nx (nx i) l2.
Proof. revert x. induction l1 as [|j l1 IH]; intros x; simpl; [tauto|]. intros [_ Hc]. by eapply IH. Qed.

Section Chains.

Context {S : Type} `{MallocBase S}.
Context (V : Z -> Prop) (nd : Z -> Node).

Implicit Types (c : Cache S BufferPond) (i s x : Z) (l : list Z) (key : mem).

Abbreviation atr := (atr nd).
Abbreviation next c := (fun i => a_next (atr c i)).
Abbreviation tab c := (hash_t (rest c)).
Abbreviation bucket c s := (aget (hh_buckets (hash_t (rest c))) s).

(** ** Running the operations of hash.cc *)

Definition slot_of (newhash : bool) (t : HASH_T) key : Z :=
  if newhash then new_hash_slot (hh_size t) (hh_fixedsize t) key else hash_slot (hh_size t) (hh_fixedsize t) key.

Definition on_tab (f : HASH_T -> HASH_T) c : Cache S BufferPond := on_rest (on_hash f) c.

Lemma hash_run c : p_hash (rest c) ≠ INVALID_HANDLE -> hash c = Some (tab c, c).
Proof.
  intros Hp. unfold hash, pond. erewrite run_bind by apply run_gets. unfold not_null.
  by destruct (Z.eqb_spec (p_hash (rest c)) INVALID_HANDLE).
Qed.

Lemma upd_hash_run c f : p_hash (rest c) ≠ INVALID_HANDLE -> upd_hash f c = Some (tt, on_tab f c).
Proof. intros Hp. unfold upd_hash. by erewrite run_bind by by apply hash_run. Qed.

Lemma hash_to_node_run c s : p_hash (rest c) ≠ INVALID_HANDLE -> hash_to_node s c = Some (bucket c s, c).
Proof. intros Hp. unfold hash_to_node. by erewrite run_bind by by apply hash_run. Qed.

Lemma key_slot_run c b key : p_hash (rest c) ≠ INVALID_HANDLE -> key_slot b key c = Some (slot_of b (tab c) key, c).
Proof. intros Hp. unfold key_slot. by erewrite run_bind by by apply hash_run. Qed.

Lemma inc_free_bucket_run c v : p_hash (rest c) ≠ INVALID_HANDLE ->
  inc_free_bucket v c = Some (tt, on_tab (fun t => set_hh (wrap 32 (hh_free t + v)) (hh_node t) t) c).
Proof. apply upd_hash_run. Qed.

Lemma inc_node_cnt_run c v : p_hash (rest c) ≠ INVALID_HANDLE ->
  inc_node_cnt v c = Some (tt, on_tab (fun t => set_hh (hh_free t) (wrap 32 (hh_node t + v)) t) c).
Proof. apply upd_hash_run. Qed.

Lemma set_hash_to_node_run c s x : p_hash (rest c) ≠ INVALID_HANDLE -> set_hash_to_node s x c = Some (tt, on_tab (set_bucket s x) c).
Proof. apply upd_hash_run. Qed.

Lemma addressing_tab c f : addressing V nd c -> addressing V nd (on_tab f c).
Proof.
  intros A. split.
  - intros i Hi. pose proof (ad_id _ _ _ A i Hi) as E. unfold node_id, mbind, prog_bind, get_set, mret, prog_ret in *. simpl.
    destruct (sets (node_group c) !! (nd i).1) as [t|]; simpl in *; [|done]. by injection E as ->.
  - intros i Hi. eapply do_search_frame; [| |by apply A]; done.
  - apply A.
Qed.

Hint Resolve hash_run upd_hash_run hash_to_node_run key_slot_run inc_free_bucket_run inc_node_cnt_run set_hash_to_node_run
  addressing_tab ad_id ad_find get_attr_run upd_attr_run next_node_id_run vd_handle_run addressing_set : run.

(** ** Inserting *)

(** Node [i] in front of the chain of bucket [s]. *)
Definition linked_in s i c : Cache S BufferPond :=
  on_tab (fun t => mkHash (hh_size t) (if bucket c s =? INVALID_NODE_ID then wrap 32 (hh_free t + -1) else hh_free t)
                     (wrap 32 (hh_node t + 1)) (hh_fixedsize t) (aset s i (hh_buckets t)))
    (set_at nd i (set_next (bucket c s)) c).

Lemma insert_to_hash_run c key i : addressing V nd c -> V i -> p_hash (rest c) ≠ INVALID_HANDLE ->
  insert_to_hash key (nd i) c = Some (0, linked_in (slot_of (g_target_new_hash (rest c)) (tab c) key) i c).
Proof.
  intros A Hi Hp. unfold insert_to_hash, pond. erewrite run_bind by apply run_gets. run1. run1.
  set (s := slot_of _ _ _). unfold linked_in. destruct (bucket c s =? INVALID_NODE_ID) eqn:Eb.
  - erewrite run_bind by by apply inc_free_bucket_run. erewrite run_bind by by apply inc_node_cnt_run.
    erewrite run_bind by by apply hash_to_node_run. erewrite run_bind by (apply (upd_attr_run V); eauto with run).
    erewrite run_bind by (apply (ad_id V); eauto with run). by erewrite run_bind by by apply set_hash_to_node_run.
  - erewrite run_bind by apply run_ret. erewrite run_bind by by apply inc_node_cnt_run.
    erewrite run_bind by by apply hash_to_node_run. erewrite run_bind by (apply (upd_attr_run V); eauto with run).
    erewrite run_bind by (apply (ad_id V); eauto with run). by erewrite run_bind by by apply set_hash_to_node_run.
Qed.

(** ** Walking *)

Context (Hnn : forall i, V i -> is_null (nd i) = false).

Definition node_of x : Node := if x =? INVALID_NODE_ID then NullNode else nd x.

Lemma V_valid c i : addressing V nd c -> V i -> i ≠ INVALID_NODE_ID.
Proof.
  intros A Hi ->. pose proof (ad_find _ _ _ A _ Hi) as E. unfold do_search in E. rewrite Z.eqb_refl in E.
  injection E as E. pose proof (Hnn _ Hi) as Hn. by rewrite <- E in Hn.
Qed.

Lemma node_of_V c i : addressing V nd c -> V i -> node_of i = nd i.
Proof. intros A Hi. unfold node_of. destruct (Z.eqb_spec i INVALID_NODE_ID); [by destruct (V_valid c i)|done]. Qed.

Lemma do_search_chain c x l : addressing V nd c -> Forall V l -> chain (next c) x l -> do_search x c = Some (node_of x, c).
Proof.
  intros A HV. destruct l as [|i l]; simpl.
  - intros ->. unfold do_search, node_of. by rewrite Z.eqb_refl.
  - intros [-> _]. apply Forall_cons in HV as [Hi _]. rewrite (node_of_V c) by done. by apply A.
Qed.

(** The walk of [remove_from_hash_base] stops at the target, with the node before it. *)
Lemma hash_walk_run fuel c p l1 t l2 : addressing V nd c -> Forall V (l1 ++ t :: l2) -> t ∉ l1 ->
  chain (next c) (a_next (atr c p)) (l1 ++ t :: l2) -> (length l1 < fuel)%nat ->
  hash_walk fuel t (nd p) (node_of (a_next (atr c p))) c = Some ((nd (last_or p l1), nd t), c).
Proof.
  intros A. revert p l1. induction fuel as [|fuel IH]; intros p l1 HV Ht Hc Hf; [lia|].
  destruct l1 as [|j l1]; simpl in Hc, HV; apply Forall_cons in HV as [Hj HV]; destruct Hc as [Ex Hc]; rewrite Ex.
  - rewrite (node_of_V c) by done. cbn [hash_walk]. rewrite Hnn by done. run1. by rewrite Z.eqb_refl.
  - rewrite (node_of_V c) by done. cbn [hash_walk]. rewrite Hnn by done. run1.
    destruct (Z.eqb_spec j t) as [->|Hne]; [set_solver|]. run1.
    erewrite run_bind by (by eapply do_search_chain).
    rewrite (IH j l1); [|done|set_solver|done|simpl in Hf; lia]. by rewrite last_or_cons.
Qed.

(** ** Removing *)

(** Node [i] out of the chain of bucket [s], in which [l1] is before it. *)
Definition linked_out s l1 i c : Cache S BufferPond :=
  match l1 with
  | [] =>
      on_tab (fun t => mkHash (hh_size t)
                (if a_next (atr c i) =? INVALID_NODE_ID then wrap 32 (hh_free t + 1) else hh_free t)
                (wrap 32 (hh_node t + -1)) (hh_fixedsize t) (aset s (a_next (atr c i)) (hh_buckets t))) c
  | _ =>
      on_tab (fun t => set_hh (hh_free t) (wrap 32 (hh_node t + -1)) t)
        (set_at nd (last_or i l1) (set_next (a_next (atr c i))) c)
  end.

Lemma node_fuel_run c : node_fuel c
  = Some (Datatypes.S (Z.to_nat (NODE_GROUP_INCLUDE_NODES * ni_used_ng (ni (node_group c)))), c).
Proof. done. Qed.

Lemma remove_from_hash_base_run c key b s l1 i l2 : addressing V nd c -> p_hash (rest c) ≠ INVALID_HANDLE ->
  slot_of b (tab c) key = s -> chain (next c) (bucket c s) (l1 ++ i :: l2) -> Forall V (l1 ++ i :: l2) -> i ∉ l1 ->
  (length l1 <= Z.to_nat (NODE_GROUP_INCLUDE_NODES * ni_used_ng (ni (node_group c))))%nat ->
  remove_from_hash_base key (nd i) b c = Some (0, linked_out s l1 i c).
Proof.
  intros A Hp Hs Hc HV Hi Hf. unfold remove_from_hash_base. run1. rewrite Hs. run1.
  assert (V i) as HVi by (rewrite Forall_forall in HV; apply HV; set_solver).
  destruct l1 as [|p l1]; simpl in Hc, HV; destruct Hc as [Eb Hc].
  - rewrite Eb. destruct (Z.eqb_spec i INVALID_NODE_ID); [by destruct (V_valid c i)|]. run1. rewrite Z.eqb_refl. run1.
    erewrite run_bind by by apply set_hash_to_node_run. erewrite run_bind by by apply hash_to_node_run.
    assert (bucket (on_tab (set_bucket s (a_next (atr c i))) c) s = a_next (atr c i)) as ->.
    { simpl. unfold aget, aset. by rewrite lookup_insert_eq. }
    unfold linked_out. destruct (a_next (atr c i) =? INVALID_NODE_ID) eqn:Ei.
    + erewrite run_bind by by apply inc_free_bucket_run. by erewrite run_bind by by apply inc_node_cnt_run.
    + erewrite run_bind by apply run_ret. by erewrite run_bind by by apply inc_node_cnt_run.
  - apply Forall_cons in HV as [HVp HV]. rewrite Eb. destruct (Z.eqb_spec p INVALID_NODE_ID); [by destruct (V_valid c p)|].
    run1. destruct (Z.eqb_spec p i) as [->|]; [set_solver|]. run1. run1.
    erewrite run_bind by (by eapply do_search_chain). erewrite run_bind by apply node_fuel_run.
    erewrite run_bind by (apply (hash_walk_run _ c p l1 i l2); [done|done|set_solver|done|simpl in Hf; lia]).
    cbv beta iota. rewrite Hnn by done. cbn [negb]. run1.
    assert (V (last_or p l1)) as HVl.
    { rewrite Forall_forall in HV. destruct (proj1 (elem_of_cons _ _ _) (last_or_hd p l1)) as [->|Hl]; [done|].
      apply HV, elem_of_app. by left. }
    unfold linked_out. rewrite last_or_cons.
    erewrite run_bind by (by apply (upd_attr_run V)). by erewrite run_bind by by apply inc_node_cnt_run.
Qed.

(** ** Finding *)

(** The key in the chunk of node [i]. *)
Definition key_at c i : list byte := from_option p_key_ [] (chunks (rest c) !! a_vd (atr c i)).

Definition matches c key i : bool := key_cmp (key_size (rest c)) key (mem_of (key_at c i)) =? 0.

(** Node [i] has a chunk with a key. *)
Definition complete c i : Prop :=
  a_vd (atr c i) ≠ INVALID_HANDLE /\ exists d, chunks (rest c) !! a_vd (atr c i) = Some d /\ chunk_key d = Some (p_key_ d).

Lemma get_chunk_run c h d : chunks (rest c) !! h = Some d -> get_chunk h c = Some (d, c).
Proof. intros E. unfold get_chunk, pond. erewrite run_bind by apply run_gets. unfold lift. by rewrite E. Qed.

Lemma find_loop_run fuel c key x l : addressing V nd c -> Forall V l -> Forall (complete c) l ->
  chain (next c) x l -> (length l < fuel)%nat ->
  find_loop fuel key (node_of x) c = Some (from_option nd NullNode (List.find (matches c key) l), c).
Proof.
  intros A. revert x l. induction fuel as [|fuel IH]; intros x l HV HC Hc Hf; [lia|].
  destruct l as [|i l]; simpl in Hc, Hf.
  - subst x. unfold node_of. by rewrite Z.eqb_refl.
  - destruct Hc as [-> Hc]. apply Forall_cons in HV as [Hi HV]. apply Forall_cons in HC as [(Hv & d & Hd & Hk) HC].
    rewrite (node_of_V c) by done. cbn [find_loop]. rewrite Hnn by done. run1.
    destruct (Z.eqb_spec (a_vd (atr c i)) INVALID_HANDLE); [done|].
    erewrite run_bind; [|erewrite run_bind by (by apply get_chunk_run); rewrite Hk; done]. cbv beta iota.
    unfold pond. erewrite run_bind by apply run_gets. cbn [List.find].
    assert ((key_cmp (key_size (rest c)) key (mem_of (p_key_ d)) =? 0) = matches c key i) as ->.
    { unfold matches, key_at. by rewrite Hd. }
    destruct (matches c key i); [done|]. run1. erewrite run_bind by (by eapply do_search_chain). by apply IH; [..|lia].
Qed.

Lemma cache_find_run c key b s l : addressing V nd c -> p_hash (rest c) ≠ INVALID_HANDLE ->
  slot_of b (tab c) key = s -> chain (next c) (bucket c s) l -> Forall V l -> Forall (complete c) l ->
  (length l <= Z.to_nat (NODE_GROUP_INCLUDE_NODES * ni_used_ng (ni (node_group c))))%nat ->
  cache_find key b c = Some (from_option nd NullNode (List.find (matches c key) l), c).
Proof.
  intros A Hp Hs Hc HV HC Hf. unfold cache_find. run1. rewrite Hs. run1.
  destruct (Z.eqb_spec (bucket c s) INVALID_NODE_ID) as [E|].
  - destruct l as [|i l]; [done|]. destruct Hc as [Ei _]. apply Forall_cons in HV as [Hi _].
    destruct (V_valid c i); [done|done|congruence].
  - erewrite run_bind by (by eapply do_search_chain). erewrite run_bind by apply node_fuel_run.
    apply find_loop_run; try done. lia.
Qed.

End Chains.
