(* ===== verification/PondInv.v ===== *)
(** * The invariant of the cache

    The ghost state of the pond: the chain of every bucket, the three LRU
    lists, the nodes that have a data chunk and those that have none yet, and
    the live nodes that are on no list while an operation runs. *)

From S2P Require Import Prelude DList PtMalloc PtMallocSpec MallocBase Jenkins DtcHash Node Pond.
From S2P Require Import NodeLists NodeGroups NodeAlloc NodeOps NodeRun NodeInit PondChains.

Record table := mkTable {
  ch : Z -> list Z;
  dl : list Z;          (* dirty, newest first *)
  cl : list Z;          (* clean *)
  el : list Z;          (* empty *)
  pd : list Z;          (* in a chain, no chunk *)
  dat : list Z;         (* in a chain, with a chunk *)
  loose : list Z        (* on no LRU list *)
}.

Definition heads : list Z := [0; 1; 2].
Definition listed (W : table) : list Z := dl W ++ cl W ++ el W.

(** The list with head [hd], and the table with another list there. *)
Definition lst (W : table) (hd : Z) : list Z :=
  if hd =? SYS_DIRTY_NODE_INDEX then dl W else if hd =? SYS_CLEAN_NODE_INDEX then cl W else el W.
Definition set_lst (W : table) (hd : Z) (l lo : list Z) : table :=
  if hd =? SYS_DIRTY_NODE_INDEX then mkTable (ch W) l (cl W) (el W) (pd W) (dat W) lo
  else if hd =? SYS_CLEAN_NODE_INDEX then mkTable (ch W) (dl W) l (el W) (pd W) (dat W) lo
  else mkTable (ch W) (dl W) (cl W) l (pd W) (dat W) lo.

Definition on_chain (W : table) : list Z := pd W ++ dat W.

Definition slots (n : Z) : list Z := Z.of_nat <$> seq 0 (Z.to_nat n).

(** The buckets whose chain is empty. *)
Definition free_slots (n : Z) (f : Z -> list Z) : list Z := filter (fun s => f s = []) (slots n).

(** One chain changes. *)
Definition upd_ch (f : Z -> list Z) (s : Z) (l : list Z) : Z -> list Z := fun x => if x =? s then l else f x.

Lemma in_slots n s : s ∈ slots n <-> 0 <= s < n.
Proof.
  unfold slots. rewrite list_elem_of_fmap. setoid_rewrite elem_of_seq. split; [intros (k & -> & Hk); lia|].
  intros Hs. exists (Z.to_nat s). lia.
Qed.

Lemma slots_split n s : 0 <= s < n -> exists R, slots n ≡ₚ s :: R /\ s ∉ R.
Proof.
  intros Hs. apply in_slots in Hs. apply list_elem_of_split in Hs as (l1 & l2 & E). exists (l1 ++ l2).
  assert (NoDup (slots n)) as Hn by (apply NoDup_fmap_2; [intros x y; lia|apply NoDup_seq]).
  rewrite E in Hn |- *. split; [solve_Permutation|]. rewrite NoDup_app, NoDup_cons in Hn. set_solver.
Qed.

Lemma bind_upd (R : list Z) f s l : s ∉ R -> (R ≫= upd_ch f s l) = (R ≫= f).
Proof.
  intros Hs. induction R as [|x R IH]; [done|]. apply not_elem_of_cons in Hs as [Hx HR]. rewrite !bind_cons, IH by done. f_equal.
  unfold upd_ch. by destruct (Z.eqb_spec x s).
Qed.

Lemma chains_upd n f s : 0 <= s < n ->
  exists Q, (slots n ≫= f) ≡ₚ f s ++ Q /\ forall l, (slots n ≫= upd_ch f s l) ≡ₚ l ++ Q.
Proof.
  intros Hs. destruct (slots_split n s Hs) as (R & E & HR). exists (R ≫= f). split; [by rewrite E|].
  intros l. rewrite E, bind_cons, bind_upd by done. unfold upd_ch at 1. by rewrite Z.eqb_refl.
Qed.

Definition empty_chain (l : list Z) : Z := if decide (l = []) then 1 else 0.

Lemma free_slots_upd n f s l : 0 <= s < n ->
  Z.of_nat (length (free_slots n (upd_ch f s l)))
  = Z.of_nat (length (free_slots n f)) - empty_chain (f s) + empty_chain l.
Proof.
  intros Hs. destruct (slots_split n s Hs) as (R & E & HR). unfold free_slots, empty_chain. rewrite E, !filter_cons.
  assert (filter (fun x => upd_ch f s l x = []) R = filter (fun x => f x = []) R) as ->.
  { clear -HR. induction R as [|x R IH]; [done|]. apply not_elem_of_cons in HR as [Hx HR]. rewrite !filter_cons, IH by done.
    unfold upd_ch. by destruct (Z.eqb_spec x s). }
  unfold upd_ch. rewrite Z.eqb_refl. repeat case_decide; simpl; lia.
Qed.

Section Inv.

Context {S : Type} `{MallocLaws S}.

Implicit Types (c : Cache S BufferPond) (G : ghost) (W : table) (i j s h : Z).

Abbreviation tab c := (hash_t (rest c)).
Abbreviation attr c G := (atr (nd G) c).
Abbreviation vd c G i := (a_vd (atr (nd G) c i)).
Abbreviation next c G := (fun i => a_next (atr (nd G) c i)).

(** The blocks the pond owns. *)
Definition owned c G W : list Z := p_hash (rest c) :: ((fun i => vd c G i) <$> dat W).

(** The bucket of a key in the current mode. *)
Definition home c key : Z := slot_of (g_target_new_hash (rest c)) (tab c) key.

Record phash c G W : Prop := {
  ph_size : 0 < hh_size (tab c) < 2 ^ 31;
  ph_fixed : hh_fixedsize (tab c) = key_size (rest c) /\ 0 <= key_size (rest c) < 2 ^ 32;
  ph_mode : g_hash_changing (rest c) = false;
  ph_chain : forall s, 0 <= s < hh_size (tab c) -> chain (next c G) (aget (hh_buckets (tab c)) s) (ch W s);
  ph_ids : (slots (hh_size (tab c)) ≫= ch W) ≡ₚ on_chain W;
  ph_nodup : NoDup (on_chain W);
  ph_node : hh_node (tab c) = Z.of_nat (length (on_chain W));
  ph_free : hh_free (tab c) = Z.of_nat (length (free_slots (hh_size (tab c)) (ch W)))
}.

Record plru c G W : Prop := {
  pl_list : forall hd, hd ∈ heads -> lru (live c G) (nd G) c hd (lst W hd);
  pl_live : forall i, live c G i <-> i ∈ heads ++ listed W ++ loose W;
  pl_nodup : NoDup (heads ++ listed W ++ loose W);
  pl_chain : forall i, i ∈ on_chain W -> i ∈ listed W ++ loose W;
  pl_sys : forall i, i ∈ heads -> nd G i = (ni_sys_zone (ni (node_group c)), i)
}.

Record pdata c G W : Prop := {
  pt_chunk : forall i, i ∈ dat W -> exists d, chunks (rest c) !! vd c G i = Some d /\ data_type_ d = DATA_TYPE_RAW
    /\ i ∈ ch W (home c (mem_of (p_key_ d)));
  pt_dom : forall h, is_Some (chunks (rest c) !! h) -> h ∈ (fun i => vd c G i) <$> dat W
}.

Record pinv c G W : Prop := {
  pi_inv : ginv c G (owned c G W);
  pi_hash : phash c G W;
  pi_lru : plru c G W;
  pi_data : pdata c G W
}.

(** ** Frames *)

(** The nodes in [K] have the same attributes. *)
Definition same_nodes c G c' G' (K : Z -> Prop) : Prop := forall j, K j -> attr c' G' j = attr c G j.

Lemma kept_same c G c' G' K : kept c G c' G' K -> same_nodes c G c' G' K.
Proof. intros Kp j Hj. destruct (kp_node _ _ _ _ _ Kp j Hj) as (_ & _ & En & Ea). unfold atr. by rewrite En, Ea. Qed.

(** The nodes of a chain. *)
Lemma on_chain_ch c G W s i : phash c G W -> 0 <= s < hh_size (tab c) -> i ∈ ch W s -> i ∈ on_chain W.
Proof. intros P Hs Hi. rewrite <- (ph_ids _ _ _ P). apply list_elem_of_bind. exists s. split; [done|]. by apply in_slots. Qed.

Lemma phash_frame c G W c' G' : (forall i, i ∈ on_chain W -> a_next (attr c' G' i) = a_next (attr c G i)) -> rest c' = rest c ->
  phash c G W -> phash c' G' W.
Proof.
  intros HS Er P. pose proof P as [P1 P2 P3 P4 P5 P6 P7 P8]. split; rewrite ?Er; try done.
  intros s Hs. eapply chain_ext; [|by apply P4]. intros i Hi. simpl. apply HS. by eapply (on_chain_ch c G).
Qed.

Lemma pdata_frame c G W c' G' : (forall i, i ∈ dat W -> vd c' G' i = vd c G i) -> rest c' = rest c ->
  pdata c G W -> pdata c' G' W.
Proof.
  intros HS Er [P1 P2]. split.
  - intros i Hi. rewrite (HS i Hi). unfold home. rewrite Er. by apply P1.
  - intros h Hh. rewrite Er in Hh. apply P2 in Hh. erewrite list_fmap_ext; [exact Hh|].
    intros k i Hi. simpl. apply HS. by eapply list_elem_of_lookup_2.
Qed.

Lemma lru_move c G c' G' hd l : (forall i, i ∈ hd :: l -> live c' G' i
    /\ a_prev (attr c' G' i) = a_prev (attr c G i) /\ a_lnext (attr c' G' i) = a_lnext (attr c G i)) ->
  lru (live c G) (nd G) c hd l -> lru (live c' G') (nd G') c' hd l.
Proof.
  intros HS [R N F]. split; [|done|rewrite Forall_forall in F |- *; intros i Hi; by apply HS].
  eapply ring_ext; [|exact R]. intros i Hi. destruct (HS i Hi) as (_ & -> & ->). done.
Qed.

Lemma owned_same c G W c' G' : (forall i, i ∈ dat W -> vd c' G' i = vd c G i) -> p_hash (rest c') = p_hash (rest c) ->
  owned c' G' W = owned c G W.
Proof.
  intros HS Ep. unfold owned. rewrite Ep. f_equal. apply list_fmap_ext. intros k i Hi. simpl.
  apply HS. by eapply list_elem_of_lookup_2.
Qed.

(** ** What the groups do not see *)

Lemma ginv_own c G own own' : own ≡ₚ own' -> ginv c G own -> ginv c G own'.
Proof.
  intros E [M T L F I N]. split; try done. destruct M as [M1 M2 M3 M4 M5 M6 M7]. split; try done; unfold blocks in *; by rewrite <- E.
Qed.

Lemma ginv_rest c G own (f : BufferPond -> BufferPond) : ginv c G own -> ginv (on_rest f c) G own.
Proof.
  intros J. eapply ginv_ext; [..|exact J]; try done; [apply (gm_rep _ _ _ (gi_mem _ _ _ J))|apply (gn_step _ _ (gi_count _ _ _ J))].
Qed.

(** The attributes of live nodes. *)
Lemma ginv_attrs c F G own : ginv c G own ->
  (forall n, is_Some (attrs (node_group c) !! n) -> is_Some (F (attrs (node_group c)) !! n)) ->
  (forall n, (forall i, live c G i -> n ≠ nd G i) -> F (attrs (node_group c)) !! n = attrs (node_group c) !! n) ->
  ginv (on_group (on_attrs F) c) G own.
Proof.
  intros [M [T1 T2 T3] L F0 I N] HF HD. split.
  - by destruct M.
  - split; [|done|done]. intros k h Hk. destruct (T1 k h Hk) as (t & Ht & [O1 O2 O3 O4 O5 O6 O7 O8]).
    exists t. split; [done|]. split; try done; [|intros j Hj; by apply HF, O8].
    eapply dchain_ext; [|exact O6]. intros j Hj. unfold vd_at. simpl. rewrite HD; [done|].
    intros i (Hi & h' & t' & Hh' & Ht' & Hu & Hd). unfold nd. rewrite Hh'. simpl. intros [= -> ->]. done.
  - destruct L as [L1 L2 L3]. split; [by eapply cells_ext; [..|exact L1]|by eapply cells_ext; [..|exact L2]|done].
  - by destruct F0.
  - by destruct I.
  - by destruct N.
Qed.

Lemma ginv_relinked c G own c' L : ginv c G own -> relinked (live c G) (nd G) c c' L -> Forall (live c G) L -> ginv c' G own.
Proof.
  intros J R HL. pose proof (live_addressing c G own J) as A. pose proof (rl_ad _ _ _ _ _ R A) as A'.
  pose proof (rl_out _ _ _ _ _ R) as O. destruct (rl_rest _ _ _ _ _ R) as [F ->]. rewrite Forall_forall in HL.
  apply ginv_attrs; [done| |].
  - intros n Hn. destruct (decide (Exists (fun i => n = nd G i) L)) as [He|He].
    + apply Exists_exists in He as (i & Hi & ->). apply (ad_attr _ _ _ A'). auto.
    + simpl in O. rewrite O; [done|]. intros i Hi ->. apply He, Exists_exists. by exists i.
  - intros n Hn. apply O. intros i Hi. apply Hn. auto.
Qed.

Lemma ginv_set c G own i f : ginv c G own -> live c G i -> ginv (set_at (nd G) i f c) G own.
Proof.
  intros J Hi. apply ginv_attrs; [done| |]; intros n Hn.
  - destruct (decide (nd G i = n)) as [->|]; [rewrite lookup_insert_eq; by eexists|by rewrite lookup_insert_ne].
  - rewrite lookup_insert_ne; [done|]. intros <-. by apply (Hn i).
Qed.

(** ** The LRU lists *)

Lemma lst_set W hd hd' l lo : hd ∈ heads -> hd' ∈ heads -> lst (set_lst W hd l lo) hd' = if hd' =? hd then l else lst W hd'.
Proof.
  unfold heads. rewrite !elem_of_cons, !elem_of_nil. intros [->|[->|[->|[]]]] [->|[->|[->|[]]]]; done.
Qed.

Lemma set_lst_chains W hd l lo : ch (set_lst W hd l lo) = ch W /\ pd (set_lst W hd l lo) = pd W
  /\ dat (set_lst W hd l lo) = dat W /\ loose (set_lst W hd l lo) = lo.
Proof. unfold set_lst. by repeat case_match. Qed.

(** Moving between a list and the loose nodes. *)
Lemma listed_set W hd l lo : hd ∈ heads -> l ++ lo ≡ₚ lst W hd ++ loose W ->
  listed (set_lst W hd l lo) ++ lo ≡ₚ listed W ++ loose W.
Proof.
  unfold heads. rewrite !elem_of_cons, elem_of_nil. unfold listed, lst, set_lst.
  intros [->|[->|[->|[]]]]; simpl; intros E.
  - trans ((cl W ++ el W) ++ l ++ lo); [solve_Permutation|rewrite E; solve_Permutation].
  - trans ((dl W ++ el W) ++ l ++ lo); [solve_Permutation|rewrite E; solve_Permutation].
  - trans ((dl W ++ cl W) ++ l ++ lo); [solve_Permutation|rewrite E; solve_Permutation].
Qed.

(** Members of one list are in no other. *)
Lemma lst_listed W hd i : hd ∈ heads -> i ∈ lst W hd -> i ∈ listed W.
Proof.
  unfold heads, listed, lst. rewrite !elem_of_cons, elem_of_nil. intros [->|[->|[->|[]]]]; simpl; set_solver.
Qed.

Lemma lst_apart c G W hd hd' i : plru c G W -> hd ∈ heads -> hd' ∈ heads -> hd ≠ hd' -> i ∈ hd :: lst W hd -> i ∈ hd' :: lst W hd' -> False.
Proof.
  intros P Hh Hh' Hne Hi Hi'. pose proof (pl_nodup _ _ _ P) as Hn. rewrite app_assoc, NoDup_app in Hn. destruct Hn as (Hn & _ & _).
  rewrite NoDup_app in Hn. destruct Hn as (_ & Hd & Hl).
  apply elem_of_cons in Hi as [->|Hi], Hi' as [->|Hi'].
  - done.
  - apply (Hd hd); [done|]. by apply (lst_listed W hd').
  - apply (Hd hd'); [done|]. by apply (lst_listed W hd).
  - unfold listed in Hl. rewrite !NoDup_app in Hl. unfold heads in Hh, Hh'. rewrite !elem_of_cons, elem_of_nil in Hh, Hh'.
    destruct Hl as (_ & H1 & _ & H2 & _).
    assert (forall x, x ∈ dl W -> x ∈ cl W \/ x ∈ el W -> False) as H1' by (intros x ??; apply (H1 x); [done|by apply elem_of_app]).
    destruct Hh as [->|[->|[->|[]]]], Hh' as [->|[->|[->|[]]]]; try done; unfold lst in *; simpl in *; naive_solver.
Qed.

(** A change of links that turns list [hd] into [l]. *)
Lemma pinv_relink c G W c' L hd l lo : pinv c G W -> hd ∈ heads -> relinked (live c G) (nd G) c c' L ->
  (forall i, i ∈ L -> i ∈ hd :: lst W hd \/ i ∈ loose W) -> lru (live c G) (nd G) c' hd l ->
  l ++ lo ≡ₚ lst W hd ++ loose W -> pinv c' G (set_lst W hd l lo).
Proof.
  intros [J P Q D] Hh R HL Lr Ep. destruct (set_lst_chains W hd l lo) as (E1 & E2 & E3 & E4).
  assert (Forall (live c G) L) as HLv.
  { rewrite Forall_forall. intros i Hi. apply (pl_live _ _ _ Q). rewrite !elem_of_app.
    destruct (HL i Hi) as [[->|Hi']%elem_of_cons|?]; [by left|right; left; by eapply lst_listed|tauto]. }
  pose proof (live_addressing c G _ J) as A. pose proof (rl_data _ _ _ _ _ R A) as HD.
  assert (on_chain (set_lst W hd l lo) = on_chain W) as Eo by (unfold on_chain; by rewrite E2, E3).
  assert (forall i, i ∈ on_chain W -> live c G i) as Hcl.
  { intros i Hi. apply (pl_live _ _ _ Q), elem_of_app. right. by apply (pl_chain _ _ _ Q). }
  assert (forall i, i ∈ dat W -> i ∈ on_chain W) as Hdc by (intros; apply elem_of_app; by right).
  pose proof (ginv_relinked c G _ c' L J R HLv) as J'. pose proof (listed_set W hd l lo Hh Ep) as El.
  assert (rest c' = rest c) as Er by (by destruct (rl_rest _ _ _ _ _ R) as [F ->]).
  assert (forall i, i ∈ dat W -> vd c' G i = vd c G i) as Hvd by (intros i Hi; apply HD; auto).
  split.
  - assert (owned c' G (set_lst W hd l lo) = owned c G W) as ->; [|done].
    rewrite <- (owned_same c G W c' G Hvd) by by rewrite Er. unfold owned. by rewrite E3.
  - assert (phash c' G W) as [P1 P2 P3 P4 P5 P6 P7 P8].
    { eapply phash_frame; [|done|exact P]. intros i Hi. apply HD. auto. }
    split; rewrite ?E1, ?Eo; done.
  - assert (live c' G = live c G /\ ni_sys_zone (ni (node_group c')) = ni_sys_zone (ni (node_group c))) as [Elv Es]
      by (by destruct (rl_rest _ _ _ _ _ R) as [F ->]).
    split; rewrite ?E4, ?Elv, ?Es; try apply Q.
    + intros hd' Hh'. rewrite lst_set by done. destruct (Z.eqb_spec hd' hd) as [->|Hne]; [done|].
      eapply lru_relinked; [exact A|exact R|done| |by apply (pl_list _ _ _ Q)].
      intros i Hi Hi2. destruct (HL i Hi2) as [Hi3|Hi3]; [by eapply (lst_apart c G W hd' hd)|].
      pose proof (pl_nodup _ _ _ Q) as Hn. rewrite app_assoc, NoDup_app in Hn. destruct Hn as (_ & Hd & _).
      apply (Hd i); [|done]. apply elem_of_app. apply elem_of_cons in Hi as [->|Hi]; [by left|right; by eapply lst_listed].
    + intros i. rewrite (pl_live _ _ _ Q).
      by rewrite !(elem_of_app heads), El.
    + rewrite El. apply Q.
    + intros i. rewrite Eo, El. apply Q.
  - assert (pdata c' G W) as [D1 D2] by (by eapply pdata_frame). split; rewrite ?E1, ?E3; done.
Qed.

Lemma heads_live c G W hd : plru c G W -> hd ∈ heads -> live c G hd.
Proof. intros Q Hh. apply (pl_live _ _ _ Q), elem_of_app. by left. Qed.

Lemma info_ok c G W : pinv c G W -> nodegroup_info_ (node_group c) ≠ INVALID_HANDLE.
Proof. intros [J _ _ _]. eapply info_pos, J. Qed.

Lemma insert_to_lru_run c G W hd i lo : pinv c G W -> hd ∈ heads -> loose W = i :: lo ->
  exists c', insert_to_lru hd (nd G i) c = Some (0, c') /\ pinv c' G (set_lst W hd (i :: lst W hd) lo)
  /\ relinked (live c G) (nd G) c c' (i :: hd :: lst W hd).
Proof.
  intros Pi Hh El. pose proof Pi as [J P Q D]. pose proof (live_addressing c G _ J) as A.
  assert (live c G i) as Hi by (apply (pl_live _ _ _ Q); rewrite !elem_of_app, El; right; right; left).
  assert (i ∉ hd :: lst W hd) as Hni.
  { pose proof (pl_nodup _ _ _ Q) as Hn. rewrite app_assoc, NoDup_app in Hn. destruct Hn as (_ & Hd & _).
    intros Hin. apply (Hd i); [|rewrite El; left]. apply elem_of_app.
    apply elem_of_cons in Hin as [->|Hin]; [by left|right; by eapply lst_listed]. }
  destruct (NODE_LIST_ADD_run (live c G) (nd G) c hd i (lst W hd) A) as (c' & E & R & L'); [by apply Q|done|done|].
  exists c'. split_and!; [| |done].
  - unfold insert_to_lru. erewrite run_bind by (apply info_run; by eapply info_ok). rewrite <- (pl_sys _ _ _ Q) by done.
    by erewrite run_bind by exact E.
  - eapply pinv_relink; [done|done|exact R| |exact L'|].
    + intros j [->|Hj]%elem_of_cons; [right; rewrite El; left|by left].
    + rewrite El. simpl. solve_Permutation.
Qed.

Lemma remove_from_lru_run c G W hd l1 i l2 : pinv c G W -> hd ∈ heads -> lst W hd = l1 ++ i :: l2 ->
  exists c', remove_from_lru (nd G i) c = Some (0, c') /\ pinv c' G (set_lst W hd (l1 ++ l2) (i :: loose W))
  /\ relinked (live c G) (nd G) c c' (hd :: lst W hd) /\ a_prev (attr c' G i) = i /\ a_lnext (attr c' G i) = i.
Proof.
  intros Pi Hh El. pose proof Pi as [J P Q D]. pose proof (live_addressing c G _ J) as A.
  pose proof (pl_list _ _ _ Q hd Hh) as L. rewrite El in L.
  destruct (NODE_LIST_DEL_run (live c G) (nd G) c hd l1 i l2 A L) as (c' & E & R & L' & Hal).
  exists c'. split_and!; [|..|by rewrite El|apply Hal|apply Hal].
  - unfold remove_from_lru. by erewrite run_bind by exact E.
  - eapply pinv_relink; [done|done|exact R| |exact L'|].
    + intros j Hj. left. by rewrite El.
    + rewrite El. solve_Permutation.
Qed.

End Inv.
