(* ===== verification/PondOps.v ===== *)
(** * The operations of the cache on its invariant

    Each step of an operation of [BufferPond] (into a chain, out of a chain,
    onto an LRU list, off it, a node allocated, a node released, a chunk
    freed) keeps the invariant and changes the ghost table in one place. *)

From S2P Require Import Prelude DList PtMalloc PtMallocSpec MallocBase Jenkins DtcHash Node Pond.
From S2P Require Import NodeLists NodeGroups NodeAlloc NodeOps NodeRun NodeInit PondChains PondInv.

Section Ops.

Context {S : Type} `{MallocLaws S}.

Implicit Types (c : Cache S BufferPond) (G : ghost) (W : table) (i j s h : Z).

Abbreviation tab c := (hash_t (rest c)).
Abbreviation attr c G := (atr (nd G) c).
Abbreviation vd c G i := (a_vd (atr (nd G) c i)).
Abbreviation next c G := (fun i => a_next (atr (nd G) c i)).
Abbreviation bucket c s := (aget (hh_buckets (hash_t (rest c))) s).

(** ** Ids and blocks *)

Lemma live_bound c G own i : ginv c G own -> live c G i -> 0 <= i < 2 ^ 32 - 256.
Proof.
  intros J (Hi & h & t & Hh & _). pose proof (gm_len _ _ _ (gi_mem _ _ _ J)). pose proof (lookup_lt_Some _ _ _ Hh) as Hl.
  pose proof (id_split i Hi). assert (i mod 256 < 256) by zdm. lia.
Qed.

Lemma nd_not_null c G own i : ginv c G own -> live c G i -> is_null (nd G i) = false.
Proof.
  intros J (Hi & h & t & Hh & _). unfold nd. rewrite Hh. simpl. apply not_null_node; [|zdm].
  eapply block_pos; [exact (gi_mem _ _ _ J)|]. by eapply gs_block, list_elem_of_lookup_2.
Qed.

(** The number of live ids is at most that of the nodes in the groups. *)
Lemma live_count c G own l : ginv c G own -> NoDup l -> (forall i, i ∈ l -> live c G i) ->
  Z.of_nat (length l) <= 256 * Z.of_nat (length (gs G)).
Proof.
  intros J Hn Hl. assert (Z.of_nat (length l) <= Z.max 0 (256 * Z.of_nat (length (gs G)))); [|lia].
  apply indices_length; [done|]. intros i Hi. destruct (Hl i Hi) as (H1 & h & t & Hh & _).
  pose proof (lookup_lt_Some _ _ _ Hh) as Hlt. pose proof (id_split i H1). assert (0 <= i mod 256 < 256) by zdm. lia.
Qed.

Lemma hash_ptr c G W : pinv c G W -> p_hash (rest c) ≠ INVALID_HANDLE.
Proof.
  intros [J _ _ _]. assert (0 < p_hash (rest c)); [|unfold INVALID_HANDLE; lia].
  eapply block_pos; [exact (gi_mem _ _ _ J)|]. unfold blocks, owned. rewrite !elem_of_cons, !elem_of_app, elem_of_cons. tauto.
Qed.

Lemma on_chain_live c G W i : plru c G W -> i ∈ on_chain W -> live c G i.
Proof. intros Q Hi. apply (pl_live _ _ _ Q), elem_of_app. right. by apply (pl_chain _ _ _ Q). Qed.

(** Chains are short enough for the fuel of the walks. *)
Lemma chain_fuel c G W s : pinv c G W -> 0 <= s < hh_size (tab c) ->
  (length (ch W s) <= Z.to_nat (NODE_GROUP_INCLUDE_NODES * ni_used_ng (ni (node_group c))))%nat.
Proof.
  intros [J P Q D] Hs. rewrite (gn_used_ng _ _ (gi_count _ _ _ J)). unfold NODE_GROUP_INCLUDE_NODES.
  destruct (chains_upd _ (ch W) s Hs) as (R & E & _). rewrite (ph_ids _ _ _ P) in E.
  pose proof (ph_nodup _ _ _ P) as Hn. rewrite E, NoDup_app in Hn. destruct Hn as (Hn & _ & _).
  pose proof (live_count c G _ (ch W s) J Hn) as Hc.
  assert (Z.of_nat (length (ch W s)) <= 256 * Z.of_nat (length (gs G))); [|lia].
  apply Hc. intros i Hi. eapply on_chain_live; [done|]. by eapply on_chain_ch.
Qed.

Lemma chain_facts c G W s : pinv c G W -> 0 <= s < hh_size (tab c) ->
  chain (next c G) (bucket c s) (ch W s) /\ Forall (live c G) (ch W s) /\ NoDup (ch W s).
Proof.
  intros [J P Q D] Hs. split_and!; [by apply P| |].
  - apply Forall_forall. intros i Hi. eapply on_chain_live; [done|]. by eapply on_chain_ch.
  - destruct (chains_upd _ (ch W) s Hs) as (R & E & _). pose proof (ph_nodup _ _ _ P) as Hn.
    rewrite <- (ph_ids _ _ _ P), E, NoDup_app in Hn. tauto.
Qed.

(** A bucket is marked empty exactly when its chain is. *)
Lemma bucket_empty c G W s : pinv c G W -> 0 <= s < hh_size (tab c) -> bucket c s = INVALID_NODE_ID <-> ch W s = [].
Proof.
  intros Pi Hs. destruct (chain_facts c G W s Pi Hs) as (Hc & Hl & _). destruct (ch W s) as [|i l]; [done|].
  destruct Hc as [-> _]. apply Forall_cons in Hl as [Hl _]. split; [|done].
  pose proof (live_bound c G _ i (pi_inv _ _ _ Pi) Hl). unfold INVALID_NODE_ID. lia.
Qed.

Lemma home_range c G W key : phash c G W -> 0 <= home c key < hh_size (tab c).
Proof.
  intros P. unfold home, slot_of. pose proof (slots_range (hh_size (tab c)) (hh_fixedsize (tab c)) key (proj1 (ph_size _ _ _ P))) as [??].
  by destruct (g_target_new_hash (rest c)).
Qed.

(** ** Changes of a chain *)

(** Only the bucket table and hash links of live nodes differ. *)
Record rehashed c G c' : Prop := {
  rh_inv : forall own, ginv c G own -> ginv c' G own;
  rh_group : live c' G = live c G /\ ni_sys_zone (ni (node_group c')) = ni_sys_zone (ni (node_group c));
  rh_attr : forall i, live c G i -> a_prev (attr c' G i) = a_prev (attr c G i) /\ a_lnext (attr c' G i) = a_lnext (attr c G i)
    /\ vd c' G i = vd c G i /\ a_dirty (attr c' G i) = a_dirty (attr c G i);
  rh_tab : exists f, rest c' = on_hash f (rest c) /\ forall t, hh_size (f t) = hh_size t /\ hh_fixedsize (f t) = hh_fixedsize t
}.

Lemma rehashed_home c G c' key : rehashed c G c' -> home c' key = home c key.
Proof.
  intros R. destruct (rh_tab _ _ _ R) as (f & E & Hf). unfold home, slot_of. rewrite E. simpl.
  destruct (Hf (tab c)) as [-> ->]. done.
Qed.

Lemma pinv_rehash c G W c' W' : pinv c G W -> rehashed c G c' ->
  lst W' = lst W -> listed W' = listed W -> loose W' = loose W -> dat W' = dat W ->
  (forall i s, i ∈ dat W -> i ∈ ch W s -> i ∈ ch W' s) -> (forall i, i ∈ on_chain W' -> i ∈ listed W ++ loose W) ->
  phash c' G W' -> pinv c' G W'.
Proof.
  intros [J P Q D] R El Ed Eo Et Hch Hon P'. destruct (rh_group _ _ _ R) as [Elv Es].
  destruct (rh_tab _ _ _ R) as (f & Er & Hf).
  assert (forall i, i ∈ dat W -> vd c' G i = vd c G i) as Hvd.
  { intros i Hi. apply (rh_attr _ _ _ R). eapply on_chain_live; [done|]. apply elem_of_app. by right. }
  split; [| |split|split].
  - assert (owned c' G W' = owned c G W) as ->; [|by apply (rh_inv _ _ _ R)].
    rewrite <- (owned_same c G W c' G Hvd) by by rewrite Er. unfold owned. by rewrite Et.
  - done.
  - intros hd Hh. rewrite El. eapply lru_move; [|by apply Q]. intros i Hi. rewrite Elv.
    assert (live c G i) as Hi' by (eapply lru_V; [by apply (pl_list _ _ _ Q hd)|done]).
    destruct (rh_attr _ _ _ R i Hi') as (? & ? & _). done.
  - rewrite Elv, Ed, Eo. apply Q.
  - rewrite Ed, Eo. apply Q.
  - rewrite Ed, Eo. apply Hon.
  - rewrite Es. apply Q.
  - rewrite Et. intros i Hi. destruct (pt_chunk _ _ _ D i Hi) as (d & Hd & Hr & Hin). exists d.
    rewrite (rehashed_home _ _ _ _ R), Hvd, Er by done. split_and!; [done|done|by apply Hch].
  - rewrite Et, Er. intros h Hh. apply (pt_dom _ _ _ D) in Hh. erewrite list_fmap_ext; [exact Hh|].
    intros k i Hi. simpl. apply Hvd. by eapply list_elem_of_lookup_2.
Qed.

(** [set_at] of a hash link followed by a change of the table. *)
Lemma rehashed_tab c G f : (forall t, hh_size (f t) = hh_size t /\ hh_fixedsize (f t) = hh_fixedsize t) -> rehashed c G (on_tab f c).
Proof.
  intros Hf. split; try done.
  - intros own J. by apply ginv_rest.
  - by exists f.
Qed.

Lemma rehashed_next c G own i v f : ginv c G own -> live c G i ->
  (forall t, hh_size (f t) = hh_size t /\ hh_fixedsize (f t) = hh_fixedsize t) ->
  rehashed c G (on_tab f (set_at (nd G) i (set_next v) c)).
Proof.
  intros J Hi Hf. pose proof (live_addressing c G _ J) as A. split; try done.
  - intros own' J'. apply ginv_rest. by apply ginv_set.
  - intros j Hj. change (attr (on_tab f (set_at (nd G) i (set_next v) c)) G j) with (attr (set_at (nd G) i (set_next v) c) G j).
    rewrite (atr_set (live c G)) by done. destruct (Z.eqb_spec j i) as [->|]; done.
  - by exists f.
Qed.

Definition add_chain W s i : table :=
  mkTable (upd_ch (ch W) s (i :: ch W s)) (dl W) (cl W) (el W) (i :: pd W) (dat W) (loose W).

Lemma linked_in_inv c G W s i : pinv c G W -> 0 <= s < hh_size (tab c) -> i ∈ loose W -> i ∉ on_chain W ->
  pinv (linked_in (nd G) s i c) G (add_chain W s i).
Proof.
  intros Pi Hs Hlo Hni. pose proof Pi as [J P Q D]. pose proof (live_addressing c G _ J) as A.
  assert (live c G i) as Hi by (apply (pl_live _ _ _ Q); rewrite !elem_of_app; tauto).
  pose proof (bucket_empty c G W s Pi Hs) as Hbe.
  assert (forall j, live c G j -> a_next (attr (linked_in (nd G) s i c) G j) = if j =? i then bucket c s else a_next (attr c G j)) as Hnx.
  { intros j Hj. change (attr (linked_in (nd G) s i c) G j) with (attr (set_at (nd G) i (set_next (bucket c s)) c) G j).
    rewrite (atr_set (live c G)) by done. by destruct (Z.eqb_spec j i). }
  assert (NoDup (i :: on_chain W)) as Hnd by (apply NoDup_cons; split; [done|apply P]).
  assert (Z.of_nat (length (i :: on_chain W)) <= 256 * Z.of_nat (length (gs G))) as Hlen.
  { eapply live_count; [exact J|done|]. intros j [->|Hj]%elem_of_cons; [done|by eapply on_chain_live]. }
  pose proof (gm_len _ _ _ (gi_mem _ _ _ J)) as Hgl.
  eapply (pinv_rehash c G W); try done.
  - by eapply rehashed_next.
  - intros j x _ Hj. simpl. unfold upd_ch. destruct (Z.eqb_spec x s) as [->|]; [by right|done].
  - intros j. unfold on_chain. simpl. rewrite elem_of_cons. intros [->|Hj]; [apply elem_of_app; by right|by apply (pl_chain _ _ _ Q)].
  - pose proof P as [P1 P2 P3 P4 P5 P6 P7 P8]. split; try done; simpl.
    + intros x Hx. unfold aget, aset, upd_ch. destruct (Z.eqb_spec x s) as [->|Hne].
      * rewrite lookup_insert_eq. split; [done|]. rewrite Hnx, Z.eqb_refl by done.
        eapply chain_ext; [|by apply P4]. intros j Hj. assert (j ∈ on_chain W) as Hj' by (by eapply on_chain_ch).
        rewrite Hnx by by eapply on_chain_live. by destruct (Z.eqb_spec j i) as [->|].
      * rewrite lookup_insert_ne by done. eapply chain_ext; [|by apply P4]. intros j Hj.
        assert (j ∈ on_chain W) as Hj' by (by eapply on_chain_ch). rewrite Hnx by by eapply on_chain_live.
        by destruct (Z.eqb_spec j i) as [->|].
    + destruct (chains_upd _ (ch W) s Hs) as (R & E & E'). unfold on_chain. simpl. rewrite E'. simpl. by rewrite <- P5, E.
    + rewrite P7. simpl in Hlen. rewrite wrap_small; [unfold on_chain; simpl; lia|]. split; unfold on_chain in *; lia.
    + rewrite free_slots_upd by done. unfold empty_chain. rewrite (decide_False (P := i :: ch W s = [])) by done.
      pose proof (free_slots_upd (hh_size (tab c)) (ch W) s [0] Hs) as Hfs. unfold empty_chain in Hfs. rewrite (decide_False (P := [0] = [])) in Hfs by done.
      destruct (Z.eqb_spec (bucket c s) INVALID_NODE_ID) as [Eb|Eb].
      * rewrite decide_True in Hfs |- * by tauto. rewrite P8. rewrite wrap_small; [lia|]. split; [lia|].
        assert (length (free_slots (hh_size (tab c)) (ch W)) <= length (slots (hh_size (tab c))))%nat by apply length_filter.
        unfold slots in *. rewrite length_fmap, length_seq in *. lia.
      * rewrite decide_False by tauto. lia.
Qed.

Lemma chain_apart c G W x s j : phash c G W -> 0 <= x < hh_size (tab c) -> 0 <= s < hh_size (tab c) -> x ≠ s ->
  j ∈ ch W x -> j ∈ ch W s -> False.
Proof.
  intros P Hx Hs Hne Hjx Hjs. destruct (slots_split _ s Hs) as (R & E & HR). pose proof (ph_nodup _ _ _ P) as Hn.
  rewrite <- (ph_ids _ _ _ P), E, bind_cons, NoDup_app in Hn. destruct Hn as (_ & Hd & _). apply (Hd j); [done|].
  apply list_elem_of_bind. exists x. split; [done|]. apply in_slots in Hx. rewrite E in Hx. by apply elem_of_cons in Hx as [?|?].
Qed.

Definition del_chain W s (l pd' : list Z) : table :=
  mkTable (upd_ch (ch W) s l) (dl W) (cl W) (el W) pd' (dat W) (loose W).

(** The chains after [linked_out]. *)
Lemma linked_out_chain c G W s l1 i l2 : pinv c G W -> 0 <= s < hh_size (tab c) -> ch W s = l1 ++ i :: l2 ->
  forall x, 0 <= x < hh_size (tab c) ->
  chain (next (linked_out (nd G) s l1 i c) G) (bucket (linked_out (nd G) s l1 i c) x) (upd_ch (ch W) s (l1 ++ l2) x).
Proof.
  intros Pi Hs Ec x Hx. pose proof Pi as [J P Q D]. pose proof (live_addressing c G _ J) as A.
  destruct (chain_facts c G W s Pi Hs) as (Hc & Hl & Hn). rewrite Ec in Hc, Hl, Hn. rewrite Forall_forall in Hl. unfold upd_ch.
  destruct l1 as [|p l1 _] using rev_ind.
  - simpl. unfold aget, aset. destruct (Z.eqb_spec x s) as [->|Hne].
    + rewrite lookup_insert_eq. by destruct Hc as [_ Hc].
    + rewrite lookup_insert_ne by done. by apply P.
  - assert (live c G p) as Hp by (apply Hl; set_solver).
    assert (linked_out (nd G) s (l1 ++ [p]) i c = on_tab (fun t => set_hh (hh_free t) (wrap 32 (hh_node t + -1)) t)
              (set_at (nd G) p (set_next (a_next (attr c G i))) c)) as ->.
    { unfold linked_out. destruct (l1 ++ [p]) eqn:E; [by destruct l1|]. rewrite <- E, last_or_app. done. }
    set (c' := on_tab _ _).
    assert (forall j, live c G j -> a_next (attr c' G j) = if j =? p then a_next (attr c G i) else a_next (attr c G j)) as Hnx.
    { intros j Hj. change (attr c' G j) with (attr (set_at (nd G) p (set_next (a_next (attr c G i))) c) G j).
      rewrite (atr_set (live c G)) by done. by destruct (Z.eqb_spec j p). }
    change (bucket c' x) with (bucket c x). destruct (Z.eqb_spec x s) as [->|Hne].
    + rewrite <- !app_assoc in *. simpl in *. eapply chain_unlink; [exact Hn|exact Hc| |].
      * by rewrite Hnx, Z.eqb_refl.
      * intros j Hj. rewrite Hnx by (apply Hl; set_solver). destruct (Z.eqb_spec j p) as [->|]; [|done].
        rewrite NoDup_app, !NoDup_cons in Hn. set_solver.
    + eapply chain_ext; [|by apply P]. intros j Hj.
      rewrite Hnx by (eapply on_chain_live; [done|]; by eapply on_chain_ch).
      destruct (Z.eqb_spec j p) as [->|]; [|done]. exfalso. apply (chain_apart c G W x s p); try done. rewrite Ec. set_solver.
Qed.

Lemma linked_out_rehashed c G W s l1 i l2 : pinv c G W -> 0 <= s < hh_size (tab c) -> ch W s = l1 ++ i :: l2 ->
  rehashed c G (linked_out (nd G) s l1 i c).
Proof.
  intros Pi Hs Ec. destruct (chain_facts c G W s Pi Hs) as (_ & Hl & _). rewrite Ec, Forall_forall in Hl.
  destruct l1 as [|p l1]; [by apply rehashed_tab|]. unfold linked_out.
  eapply rehashed_next; [apply Pi| |done]. apply Hl. pose proof (last_or_hd i (p :: l1)) as Hlast. set_solver.
Qed.

Lemma linked_out_free c G W s l1 i l2 : pinv c G W -> 0 <= s < hh_size (tab c) -> ch W s = l1 ++ i :: l2 ->
  hh_free (tab (linked_out (nd G) s l1 i c))
  = Z.of_nat (length (free_slots (hh_size (tab c)) (upd_ch (ch W) s (l1 ++ l2)))).
Proof.
  intros Pi Hs Ec. pose proof Pi as [J P Q D]. rewrite free_slots_upd by done. unfold empty_chain.
  rewrite (decide_False (P := ch W s = [])) by (rewrite Ec; by destruct l1). rewrite <- (ph_free _ _ _ P).
  destruct l1 as [|p l1]; [|rewrite decide_False by done; simpl; lia]. simpl.
  destruct (chain_facts c G W s Pi Hs) as (Hc & Hl & _). rewrite Ec in Hc, Hl. destruct Hc as [_ Hc].
  destruct l2 as [|j l2]; simpl in Hc.
  - rewrite Hc, Z.eqb_refl, decide_True by done. rewrite wrap_small; [lia|].
    pose proof (ph_size _ _ _ P). rewrite (ph_free _ _ _ P).
    assert (length (free_slots (hh_size (tab c)) (ch W)) <= length (slots (hh_size (tab c))))%nat by apply length_filter.
    unfold slots in *. rewrite length_fmap, length_seq in *. split; lia.
  - destruct Hc as [-> _]. apply Forall_cons in Hl as [_ Hl]. apply Forall_cons in Hl as [Hl _].
    pose proof (live_bound c G _ j J Hl). destruct (Z.eqb_spec j INVALID_NODE_ID); [unfold INVALID_NODE_ID in *; lia|].
    rewrite decide_False by done. lia.
Qed.

Lemma linked_out_inv c G W s l1 i l2 pd' : pinv c G W -> 0 <= s < hh_size (tab c) -> ch W s = l1 ++ i :: l2 ->
  pd W ≡ₚ i :: pd' -> pinv (linked_out (nd G) s l1 i c) G (del_chain W s (l1 ++ l2) pd').
Proof.
  intros Pi Hs Ec Ep. pose proof Pi as [J P Q D].
  pose proof (linked_out_rehashed c G W s l1 i l2 Pi Hs Ec) as R.
  assert (on_chain W ≡ₚ i :: on_chain (del_chain W s (l1 ++ l2) pd')) as Eo by (unfold on_chain; simpl; by rewrite Ep).
  pose proof (ph_nodup _ _ _ P) as Hn. rewrite Eo in Hn. apply NoDup_cons in Hn as [Hi Hn].
  assert (i ∉ dat W) as Hid by (intros Hd; apply Hi; unfold on_chain; simpl; apply elem_of_app; by right).
  eapply (pinv_rehash c G W); try done.
  - intros j x Hj Hjc. simpl. unfold upd_ch. destruct (Z.eqb_spec x s) as [->|]; [|done]. rewrite Ec in Hjc.
    assert (j ≠ i) by (by intros ->). set_solver.
  - intros j Hj. apply (pl_chain _ _ _ Q). rewrite Eo. by right.
  - destruct (rh_tab _ _ _ R) as (f & Er & Hf). destruct (Hf (tab c)) as [Esz Efx].
    assert (hh_size (tab (linked_out (nd G) s l1 i c)) = hh_size (tab c)) as Ez by (rewrite Er; done).
    split; rewrite ?Ez; simpl ch.
    + apply P.
    + rewrite Er. simpl. rewrite Efx. apply P.
    + rewrite Er. apply P.
    + by apply linked_out_chain.
    + destruct (chains_upd _ (ch W) s Hs) as (R' & E & E'). rewrite E'.
      apply (Permutation_cons_inv (a := i)). rewrite <- Eo, <- (ph_ids _ _ _ P), E, Ec. solve_Permutation.
    + done.
    + assert (hh_node (tab (linked_out (nd G) s l1 i c)) = wrap 32 (hh_node (tab c) + -1)) as -> by (by destruct l1).
      rewrite (ph_node _ _ _ P), Eo. simpl. rewrite wrap_small; [lia|].
      assert (Z.of_nat (length (on_chain W)) <= 256 * Z.of_nat (length (gs G))) as Hlen.
      { eapply live_count; [exact J|apply P|]. intros j Hj. by eapply on_chain_live. }
      pose proof (gm_len _ _ _ (gi_mem _ _ _ J)). rewrite Eo in Hlen. simpl in Hlen. split; lia.
    + by apply linked_out_free.
Qed.

Lemma remove_from_hash_run c G W key l1 i l2 : pinv c G W -> ch W (home c key) = l1 ++ i :: l2 ->
  remove_from_hash key (nd G i) c = Some (0, linked_out (nd G) (home c key) l1 i c).
Proof.
  intros Pi Ec. pose proof Pi as [J P Q D]. pose proof (home_range c G W key P) as Hs.
  destruct (chain_facts c G W _ Pi Hs) as (Hc & Hl & Hn). pose proof (chain_fuel c G W _ Pi Hs) as Hf. rewrite Ec in Hc, Hl, Hn, Hf.
  unfold remove_from_hash, pond. erewrite run_bind by apply run_gets. rewrite (ph_mode _ _ _ P).
  erewrite run_bind; [done|].
  eapply (remove_from_hash_base_run (live c G) (nd G)); [|by eapply live_addressing|by eapply hash_ptr|done|done|done| |].
  - intros j Hj. by eapply nd_not_null.
  - rewrite NoDup_app in Hn. destruct Hn as (_ & Hd & _). intros Hi. apply (Hd i); [done|left].
  - rewrite length_app in Hf. lia.
Qed.

(** ** Nodes coming and going *)

Definition set_loose W lo : table := mkTable (ch W) (dl W) (cl W) (el W) (pd W) (dat W) lo.

(** The pond over groups in which the nodes of the table are the same. *)
Lemma pinv_kept c G W c' G' lo : pinv c G W -> ginv c' G' (owned c G W) -> rest c' = rest c ->
  same_nodes c G c' G' (fun i => i ∈ heads ++ listed W ++ on_chain W) ->
  (forall i, i ∈ heads -> nd G' i = nd G i) -> ni_sys_zone (ni (node_group c')) = ni_sys_zone (ni (node_group c)) ->
  (forall i, live c' G' i <-> i ∈ heads ++ listed W ++ lo) -> NoDup (heads ++ listed W ++ lo) ->
  (forall i, i ∈ on_chain W -> i ∈ listed W ++ lo) -> pinv c' G' (set_loose W lo).
Proof.
  intros [J P Q D] J' Er HS Hnd Es Hlv Hn Hon.
  assert (forall i, i ∈ on_chain W -> attr c' G' i = attr c G i) as HC by (intros; apply HS; rewrite !elem_of_app; tauto).
  assert (forall i, i ∈ dat W -> attr c' G' i = attr c G i) as HD by (intros; apply HC, elem_of_app; by right).
  split.
  - assert (owned c' G' (set_loose W lo) = owned c G W) as ->; [|done]. change (owned c' G' (set_loose W lo)) with (owned c' G' W).
    apply owned_same; [|by rewrite Er]. intros. by rewrite HD.
  - assert (phash c' G' W) as [P1 P2 P3 P4 P5 P6 P7 P8] by (eapply phash_frame; [|done|exact P]; intros; by rewrite HC). by split.
  - split; try done.
    + intros hd Hh. change (lst (set_loose W lo) hd) with (lst W hd). eapply lru_move; [|by apply (pl_list _ _ _ Q)].
      intros i Hi. assert (i ∈ heads ++ listed W) as Hi'.
      { apply elem_of_app. apply elem_of_cons in Hi as [->|Hi]; [by left|right; by eapply lst_listed]. }
      rewrite HS by (rewrite !elem_of_app in *; tauto). split; [|done]. apply Hlv. rewrite !elem_of_app in *. tauto.
    + intros i Hi. rewrite Hnd, Es by done. by apply Q.
  - assert (pdata c' G' W) as [D1 D2] by (eapply pdata_frame; [|done|exact D]; intros; by rewrite HD). by split.
Qed.

Lemma table_live c G W i : plru c G W -> i ∈ heads ++ listed W ++ on_chain W -> live c G i.
Proof.
  intros Q. rewrite !elem_of_app. intros [Hi|[Hi|Hi]]; [| |by eapply on_chain_live].
  - apply (pl_live _ _ _ Q), elem_of_app. by left.
  - apply (pl_live _ _ _ Q). rewrite !elem_of_app. tauto.
Qed.

Lemma allocate_inv c G W : pinv c G W -> room c G ->
  exists n c' G', allocate_node c = Some (n, c')
  /\ (length (gs G') <= length (gs G) + Z.to_nat (step (node_group c)))%nat
  /\ (n = NullNode /\ fre G = [] /\ grown c G c' G' /\ pinv c' G' W
      \/ exists i, n = nd G' i /\ took c G c' G' i /\ pinv c' G' (set_loose W (i :: loose W))).
Proof.
  intros Pi Hr. pose proof Pi as [J P Q D].
  destruct (allocate_node_spec c G _ J Hr) as (n & c' & G' & E & J' & Hl & O). exists n, c', G'. split_and!; [done|done|].
  destruct O as [(-> & Hf & Gr)|(i & -> & Tk)].
  - left. split_and!; [done|done|done|]. assert (pinv c' G' (set_loose W (loose W))) as Pi'; [|by destruct W].
    pose proof (kept_grown _ _ _ _ Gr) as K. destruct (kp_group _ _ _ _ _ K) as (_ & Es & _).
    eapply (pinv_kept c G W); [done|done|apply K| |..|apply Q|apply Q].
    + intros j Hj. apply (kept_same _ _ _ _ _ K). by eapply table_live.
    + intros j Hj. apply (kp_node _ _ _ _ _ K). by eapply heads_live.
    + done.
    + intros j. rewrite (gr_live _ _ _ _ Gr). apply Q.
  - right. exists i. split_and!; [done|done|]. pose proof (to_kept _ _ _ _ _ Tk) as K. destruct (kp_group _ _ _ _ _ K) as (_ & Es & _).
    assert (i ∉ heads ++ listed W ++ loose W) as Hni by (rewrite <- (pl_live _ _ _ Q); apply Tk).
    eapply (pinv_kept c G W); [done|done|apply K| |..].
    + intros j Hj. apply (kept_same _ _ _ _ _ K). by eapply table_live.
    + intros j Hj. apply (kp_node _ _ _ _ _ K). by eapply heads_live.
    + done.
    + intros j. rewrite (to_live _ _ _ _ _ Tk), (pl_live _ _ _ Q), !elem_of_app, elem_of_cons. tauto.
    + assert (heads ++ listed W ++ i :: loose W ≡ₚ i :: heads ++ listed W ++ loose W) as -> by solve_Permutation.
      apply NoDup_cons. split; [done|apply Q].
    + intros j Hj. apply (pl_chain _ _ _ Q) in Hj. rewrite elem_of_app, elem_of_cons in *. tauto.
Qed.

(** The only live ids of the first group are the list heads. *)
Lemma live_sys c G own i : ginv c G own -> live c G i -> i < 256 -> i ∈ heads.
Proof.
  intros J (Hi & h & t & Hh & Ht & Hu & _) Hlt. assert (gidx i = 0%nat) as Eg by (unfold gidx; zdm).
  destruct (gt_sys _ _ (gi_sets _ _ _ J)) as (h0 & s0 & H1 & _ & H3 & H4 & _). rewrite Eg, H1 in Hh. injection Hh as <-.
  rewrite H3 in Ht. injection Ht as <-. assert (i = 0 \/ i = 1 \/ i = 2) as Hc by zdm. unfold heads. rewrite !elem_of_cons. tauto.
Qed.

Lemma release_inv c G W i lo : pinv c G W -> loose W = i :: lo -> i ∉ on_chain W ->
  exists c' G', release_node (nd G i) c = Some (0, c') /\ gone c G c' G' i /\ pinv c' G' (set_loose W lo)
  /\ gs G' = gs G /\ step (node_group c') = step (node_group c) /\ fre G' ≠ [].
Proof.
  intros Pi El Hni. pose proof Pi as [J P Q D]. pose proof (pl_nodup _ _ _ Q) as Hn. rewrite El in Hn.
  assert (heads ++ listed W ++ i :: lo ≡ₚ i :: heads ++ listed W ++ lo) as Ep by solve_Permutation.
  rewrite Ep in Hn. apply NoDup_cons in Hn as [Hi Hn].
  assert (live c G i) as Hlv by (apply (pl_live _ _ _ Q); rewrite !elem_of_app, El; right; right; left).
  assert (256 <= i) as H256.
  { destruct (Z.lt_ge_cases i 256) as [Hlt|]; [|done]. destruct Hi. apply elem_of_app. left. by eapply live_sys. }
  destruct (release_node_spec c G _ i J Hlv H256) as (c' & G' & E & J' & Go & Eg & Es & Hf).
  exists c', G'. split_and!; try done. pose proof (go_kept _ _ _ _ _ Go) as K. destruct (kp_group _ _ _ _ _ K) as (_ & Ez & _).
  assert (forall j, j ∈ heads ++ listed W ++ on_chain W -> live c G j /\ j ≠ i) as HT.
  { intros j Hj. split; [by eapply table_live|]. intros ->. rewrite !elem_of_app in *. tauto. }
  eapply (pinv_kept c G W); [done|done|apply K| |..].
  - intros j Hj. by apply (kept_same _ _ _ _ _ K), HT.
  - intros j Hj. apply (kp_node _ _ _ _ _ K), HT, elem_of_app. by left.
  - done.
  - intros j. rewrite (go_live _ _ _ _ _ Go), (pl_live _ _ _ Q), El, Ep, elem_of_cons.
    split; [tauto|]. intros Hj. split; [by right|]. by intros ->.
  - done.
  - intros j Hj. pose proof (pl_chain _ _ _ Q j Hj) as Hj'. rewrite El, elem_of_app, elem_of_cons in Hj'. rewrite elem_of_app.
    destruct Hj' as [?|[->|?]]; tauto.
Qed.

(** ** Freeing a chunk *)

Definition with_heap G (A : heap) : ghost := mkGhost (gs G) (fre G) (ful G) (dels G) (secs G) A.

Lemma M_FREE_run c G h own : ginv c G (h :: own) ->
  exists a, M_FREE h c = Some (0, set_alloc a c) /\ ginv (set_alloc a c) (with_heap G (delete h (hp G))) own
  /\ forall x, in_heap (delete h (hp G)) x -> load x a = load x (alloc c).
Proof.
  intros J. pose proof J as [M T L F I N]. pose proof (gm_blocks _ _ _ M) as HF. rewrite Forall_forall in HF.
  destruct (HF h) as [n Hn]; [unfold blocks; rewrite !elem_of_cons, !elem_of_app, elem_of_cons; tauto|].
  destruct (m_Free_ok _ _ h n (gm_rep _ _ _ M) Hn) as (a & E & R & Hb). exists a. split_and!; [unfold M_FREE; by rewrite E| |done].
  assert (blocks c G (h :: own) ≡ₚ h :: blocks c G own) as Ep by (unfold blocks; solve_Permutation).
  pose proof (gm_nodup _ _ _ M) as Hnd. rewrite Ep in Hnd. apply NoDup_cons in Hnd as [Hh Hnd].
  assert (forall b, b ∈ blocks c G own -> delete h (hp G) !! b = hp G !! b) as Hd by (intros b Hbl; apply lookup_delete_ne; by intros ->).
  assert (ginv (set_alloc a c) (with_heap G (delete h (hp G))) own) as Jx; [|done].
  split.
  - destruct M as [M1 M2 M3 M4 M5 M6 M7]. split; try done.
    + rewrite Forall_forall. intros b Hbl. simpl. rewrite Hd by done. apply HF. rewrite Ep. by right.
    + destruct M4 as (k & Hk & ?). exists k. simpl. rewrite Hd; [done|]. unfold blocks. left.
  - destruct T as [T1 T2 T3]. split; try done. intros k x Hk. destruct (T1 k x Hk) as (t & Ht & [O1 O2 O3 O4 O5 O6 O7 O8]).
    exists t. split; [done|]. by split.
  - destruct L as [L1 L2 L3]. split; [by eapply cells_ext; [..|exact L1]|by eapply cells_ext; [..|exact L2]|done].
  - by destruct F.
  - by destruct I.
  - by destruct N.
Qed.

Definition drop_dat W i (dat' : list Z) : table := mkTable (ch W) (dl W) (cl W) (el W) (i :: pd W) dat' (loose W).

(** [DataChunk::destory] of the raw chunk of node [i]. *)
Lemma chunk_destory_inv c G W i dat' d : pinv c G W -> dat W ≡ₚ i :: dat' -> chunks (rest c) !! vd c G i = Some d ->
  data_type_ d = DATA_TYPE_RAW ->
  exists c' G', chunk_destory (vd c G i) d c = Some (0, c') /\ pinv c' G' (drop_dat W i dat') /\ nd G' = nd G
  /\ node_group c' = node_group c /\ gs G' = gs G /\ secs G' = secs G /\ rest c' = on_chunks (delete (vd c G i)) (rest c).
Proof.
  intros Pi Ed Hd Hr. pose proof Pi as [J P Q D].
  assert (owned c G W ≡ₚ vd c G i :: p_hash (rest c) :: ((fun j => vd c G j) <$> dat')) as Eo.
  { unfold owned. rewrite Ed. simpl. solve_Permutation. }
  destruct (M_FREE_run c G (vd c G i) _ (ginv_own _ _ _ _ Eo J)) as (a & E & J' & _).
  set (G' := with_heap G (delete (vd c G i) (hp G))) in *.
  exists (on_rest (on_chunks (delete (vd c G i))) (set_alloc a c)), G'. split_and!; try done.
  { unfold chunk_destory. rewrite Hr, Z.eqb_refl. erewrite run_bind by exact E. done. }
  assert (on_chain (drop_dat W i dat') ≡ₚ on_chain W) as Ec by (unfold on_chain; simpl; rewrite Ed; solve_Permutation).
  pose proof (gm_nodup _ _ _ (gi_mem _ _ _ J)) as Hnb. unfold blocks in Hnb. rewrite Eo in Hnb.
  assert (vd c G i ∉ (fun j => vd c G j) <$> dat') as Hvi.
  { rewrite !NoDup_cons, !NoDup_app, !NoDup_cons in Hnb. set_solver. }
  split.
  - by apply ginv_rest.
  - destruct P as [P1 P2 P3 P4 P5 P6 P7 P8]. split; try done; rewrite ?Ec; try done.
  - destruct Q as [Q1 Q2 Q3 Q4 Q5]. split; [|done|done|intros j; rewrite Ec; apply Q4|done].
    intros hd Hh. eapply lru_move; [|by apply Q1]. intros j Hj. split; [|done]. by eapply (lru_V (live c G)); [apply Q1|].
  - destruct D as [D1 D2]. split.
    + intros j Hj. destruct (D1 j) as (d' & Hd' & Hr' & Hin); [rewrite Ed; by right|]. exists d'. split_and!; [|done|done].
      simpl. rewrite lookup_delete_ne; [done|]. intros Ev. apply Hvi. rewrite Ev. apply list_elem_of_fmap. by exists j.
    + intros h [d' Hd']. simpl in Hd'. apply lookup_delete_Some in Hd' as [Hne Hd'].
      pose proof (D2 h ltac:(by eexists)) as Hin. rewrite Ed in Hin. simpl in Hin. by apply elem_of_cons in Hin as [?|?].
Qed.

End Ops.
