(* ===== verification/PondSpec.v ===== *)
(** * What the operations of the cache do

    Allocation, lookup, purging of one key and purging of the old end of the
    clean list, each as a change of the ghost table. *)

From S2P Require Import Prelude DList PtMalloc PtMallocSpec MallocBase Jenkins DtcHash Node Pond.
From S2P Require Import NodeLists NodeGroups NodeAlloc NodeOps NodeRun NodeInit PondChains PondInv PondOps.

(** ** Tables *)

(** A list without [i]. *)
Definition rem (i : Z) (l : list Z) : list Z := filter (fun j => j ≠ i) l.

Lemma rem_in i j l : j ∈ rem i l <-> j ∈ l /\ j ≠ i.
Proof. unfold rem. rewrite list_elem_of_filter. tauto. Qed.

Lemma rem_none i l : i ∉ l -> rem i l = l.
Proof. intros Hi. unfold rem. induction l as [|j l IH]; [done|]. apply not_elem_of_cons in Hi as [Hj Hi]. rewrite filter_cons_True, IH by done. done. Qed.

Lemma rem_split i l1 l2 : NoDup (l1 ++ i :: l2) -> rem i (l1 ++ i :: l2) = l1 ++ l2.
Proof.
  intros Hn. rewrite NoDup_app, NoDup_cons in Hn. destruct Hn as (_ & Hd & Hi & _).
  assert (i ∉ l1) as H1 by (intros Hx; apply (Hd i Hx); left).
  unfold rem. rewrite filter_app, filter_cons_False by tauto. fold (rem i l1) (rem i l2). by rewrite !rem_none.
Qed.

Lemma rem_perm i l : NoDup l -> i ∈ l -> l ≡ₚ i :: rem i l.
Proof.
  intros Hn Hi. apply list_elem_of_split in Hi as (l1 & l2 & ->). rewrite rem_split by done. solve_Permutation.
Qed.

(** The table without node [i]. *)
Definition forget (W : table) (i : Z) : table :=
  mkTable (fun x => rem i (ch W x)) (rem i (dl W)) (rem i (cl W)) (rem i (el W)) (rem i (pd W)) (rem i (dat W)) (loose W).

Section Spec.

Context {S : Type} `{MallocLaws S}.

Implicit Types (c : Cache S BufferPond) (G : ghost) (W : table) (i j s h : Z) (key : mem).

Abbreviation tab c := (hash_t (rest c)).
Abbreviation attr c G := (atr (nd G) c).
Abbreviation vd c G i := (a_vd (atr (nd G) c i)).

(** ** Fields the invariant does not constrain *)

(** [c'] differs from [c] in counters, the transaction fields and the log only. *)
Record aside c c' : Prop := {
  as_alloc : alloc c' = alloc c;
  as_index : node_index c' = node_index c;
  as_group : nodegroup_info_ (node_group c') = nodegroup_info_ (node_group c)
    /\ sets (node_group c') = sets (node_group c) /\ attrs (node_group c') = attrs (node_group c)
    /\ step (node_group c') = step (node_group c);
  as_ni : exists d u r, ni (node_group c') = set_counts d u r (ni (node_group c));
  as_rest : p_hash (rest c') = p_hash (rest c) /\ hash_t (rest c') = hash_t (rest c) /\ chunks (rest c') = chunks (rest c)
    /\ key_size (rest c') = key_size (rest c) /\ g_hash_changing (rest c') = g_hash_changing (rest c)
    /\ g_target_new_hash (rest c') = g_target_new_hash (rest c)
}.

Lemma aside_refl c : aside c c.
Proof. split; try done. destruct (ni (node_group c)) as [a b m z g n x y w]. by exists x, y, w. Qed.

Lemma aside_trans c1 c2 c3 : aside c1 c2 -> aside c2 c3 -> aside c1 c3.
Proof.
  intros [A1 B1 C1 (x & y & z & D1) E1] [A2 B2 C2 (x' & y' & z' & D2) E2].
  split; try congruence; [split_conj; split_and!; congruence| |split_conj; split_and!; congruence].
  exists x', y', z'. by rewrite D2, D1.
Qed.

Lemma aside_ginv c c' G own : aside c c' -> ginv c G own -> ginv c' G own.
Proof.
  intros [Ea Ex (Ei & Es & Et & Ep) (x & y & z & En) _] [M [T1 T2 T3] [L1 L2 L3] [F1 F2] [I1 I2 I3] [N1 N2 N3 N4]].
  assert (forall p, cellv c' p = cellv c p) as Hc by (intros; unfold cellv; by rewrite Ei, En, Es).
  assert (forall p, is_cell c p -> is_cell c' p) as Hi by (intros p; unfold is_cell; by rewrite Ei, Es).
  split.
  - destruct M. split; unfold blocks in *; rewrite ?Ea, ?Ei, ?Ex; done.
  - split; rewrite ?Es, ?En; [|done..]. intros k h Hk. destruct (T1 k h Hk) as (s & Hs & [O1 O2 O3 O4 O5 O6 O7 O8]).
    exists s. split; [done|]. by split; unfold vd_at; rewrite ?Et.
  - split; rewrite ?Ei; [by eapply cells_ext; [..|exact L1]; auto|by eapply cells_ext; [..|exact L2]; auto|done].
  - split; rewrite Es; done.
  - split; unfold entry, second_of; rewrite ?Ex, ?Es; done.
  - split; rewrite ?En, ?Ep; simpl; [done..| |done]. rewrite N3. apply zsum_ext. intros h _. unfold busy. by rewrite Es.
Qed.

Lemma aside_pinv c c' G W : aside c c' -> pinv c G W -> pinv c' G W.
Proof.
  intros As [J P Q D]. pose proof As as [Ea Ex (Ei & Es & Et & Ep) (x & y & z & En) (R1 & R2 & R3 & R4 & R5 & R6)].
  assert (forall i, attr c' G i = attr c G i) as Hat by (intros; unfold atr; by rewrite Et).
  assert (forall i, live c' G i <-> live c G i) as Hlv by (intros; unfold live; by rewrite Es).
  split.
  - assert (owned c' G W = owned c G W) as ->; [|by eapply aside_ginv]. apply owned_same; [|done]. intros. by rewrite Hat.
  - destruct P as [P1 P2 P3 P4 P5 P6 P7 P8]. split; rewrite ?R2, ?R4, ?R5; try done.
    intros s Hs. eapply chain_ext; [|by apply P4]. intros i _. simpl. by rewrite Hat.
  - destruct Q as [Q1 Q2 Q3 Q4 Q5]. split; try done.
    + intros hd Hh. eapply lru_move; [|by apply Q1]. intros i Hi. rewrite Hat, Hlv. split; [|done]. by eapply (lru_V (live c G)); [apply Q1|].
    + intros i. by rewrite Hlv.
    + rewrite En. done.
  - destruct D as [D1 D2]. split.
    + intros i Hi. destruct (D1 i Hi) as (d & Hd & Hr & Hin). exists d. rewrite Hat, R3. unfold home. rewrite R2, R6. done.
    + intros h. rewrite R3. intros Hh. apply D2 in Hh. erewrite list_fmap_ext; [exact Hh|]. intros k i _. simpl. by rewrite Hat.
Qed.

Lemma aside_home c c' key : aside c c' -> home c' key = home c key.
Proof. intros As. destruct (as_rest _ _ As) as (_ & R2 & _ & _ & _ & R6). unfold home. by rewrite R2, R6. Qed.

(** [purge_node_processor] *)
Lemma purge_node_processor_run c G i : is_null (nd G i) = false ->
  exists c', purge_node_processor (nd G i) c = Some (tt, c') /\ aside c c' /\ purge_log (rest c') = nd G i :: purge_log (rest c).
Proof.
  intros Hn. unfold purge_node_processor. rewrite Hn. unfold pond. erewrite run_bind by apply run_gets.
  assert (exists c1, (if node_eq (nd G i) (transaction_node (rest c)) then
       (if node_empty (rest c) then dec_empty_node else mret tt);;
       upd_pond (fun p => set_transaction NullNode false (purge_log p) p)
     else mret tt) c = Some (tt, c1) /\ aside c c1 /\ purge_log (rest c1) = purge_log (rest c)) as (c1 & E & As & El).
  { destruct (node_eq (nd G i) (transaction_node (rest c))); [|exists c; split_and!; [done|apply aside_refl|done]].
    destruct (node_empty (rest c)); [unfold dec_empty_node, pond; destruct (empty_limit (rest c) =? 0) eqn:Ez|].
    - eexists. split_and!.
      + erewrite run_bind; [reflexivity|]. erewrite run_bind by apply run_gets. by rewrite Ez.
      + pose proof (aside_refl c) as [????[]]. by split.
      + done.
    - eexists. split_and!.
      + erewrite run_bind; [reflexivity|]. erewrite run_bind by apply run_gets. by rewrite Ez.
      + pose proof (aside_refl c) as [????[]]. by split.
      + done.
    - eexists. split_and!; [done| |done]. pose proof (aside_refl c) as [????[]]. by split. }
  erewrite run_bind by exact E. eexists. split_and!; [done| |simpl; by rewrite El].
  eapply aside_trans; [exact As|]. pose proof (aside_refl c1) as [????[]]. by split.
Qed.

(** Tables that agree on the buckets there are. *)
Record table_eq (n : Z) W W' : Prop := {
  te_ch : forall x, 0 <= x < n -> ch W' x = ch W x;
  te_lists : dl W' = dl W /\ cl W' = cl W /\ el W' = el W /\ dat W' = dat W /\ loose W' = loose W;
  te_pd : pd W' ≡ₚ pd W
}.

Lemma pinv_table c G W W' : table_eq (hh_size (tab c)) W W' -> pinv c G W -> pinv c G W'.
Proof.
  intros [E1 (E2 & E3 & E4 & E5 & E6) E7] [J P Q D].
  assert (on_chain W' ≡ₚ on_chain W) as Eo by (unfold on_chain; by rewrite E5, E7).
  assert (listed W' = listed W) as El by (unfold listed; by rewrite E2, E3, E4).
  assert (forall hd, lst W' hd = lst W hd) as Eh by (intros; unfold lst; by rewrite E2, E3, E4).
  assert (forall x, x ∈ slots (hh_size (tab c)) -> ch W' x = ch W x) as Es by (intros x Hx; by apply E1, in_slots).
  split.
  - unfold owned. by rewrite E5.
  - destruct P as [P1 P2 P3 P4 P5 P6 P7 P8]. split; rewrite ?Eo; try done.
    + intros x Hx. rewrite E1 by done. by apply P4.
    + rewrite <- P5. clear -Es. induction (slots (hh_size (tab c))) as [|x l IH]; [done|]. rewrite !bind_cons, Es by left.
      rewrite IH; [done|]. intros. apply Es. by right.
    + rewrite P8. do 2 f_equal. unfold free_slots. clear -Es. induction (slots (hh_size (tab c))) as [|x l IH]; [done|].
      rewrite !filter_cons, Es by left. rewrite IH; [done|]. intros. apply Es. by right.
  - destruct Q as [Q1 Q2 Q3 Q4 Q5]. split; rewrite ?El, ?E6; try done; [intros hd Hh; rewrite Eh; by apply Q1|]. intros i. rewrite Eo. apply Q4.
  - destruct D as [D1 D2]. split; rewrite ?E5; try done. intros i Hi. destruct (D1 i Hi) as (d & Hd & Hr & Hin). exists d.
    split_and!; [done|done|]. rewrite E1; [done|]. by eapply home_range.
Qed.

(** ** Allocation *)

(** What stays of the nodes with data. *)
Record data_kept c G c' G' (l : list Z) : Prop := {
  dk_node : forall j, j ∈ l ->
    nd G' j = nd G j /\ vd c' G' j = vd c G j /\ chunks (rest c') !! vd c G j = chunks (rest c) !! vd c G j;
  dk_size : key_size (rest c') = key_size (rest c) /\ g_target_new_hash (rest c') = g_target_new_hash (rest c) /\ secs G' = secs G;
  dk_home : hh_size (tab c') = hh_size (tab c) /\ forall key, home c' key = home c key
}.

Definition allocated_table W s i : table :=
  mkTable (upd_ch (ch W) s (i :: ch W s)) (dl W) (i :: cl W) (el W) (i :: pd W) (dat W) [].

Lemma cache_allocation_spec c G W key : pinv c G W -> loose W = [] -> room c G ->
  exists n c' G', cache_allocation key c = Some (n, c') /\ data_kept c G c' G' (dat W)
  /\ (length (gs G') <= length (gs G) + Z.to_nat (step (node_group c)))%nat
  /\ (n = NullNode /\ fre G = [] /\ pinv c' G' W
      \/ exists i, n = nd G' i /\ ~ live c G i /\ pinv c' G' (allocated_table W (home c key) i)).
Proof.
  intros Pi Hlo Hr. destruct (allocate_inv c G W Pi Hr) as (n & c1 & G1 & E & Hl & O).
  unfold cache_allocation. erewrite run_bind by exact E. destruct O as [(-> & Hf & Gr & Pi1)|(i & -> & Tk & Pi1)].
  - exists NullNode, c1, G1. split_and!; [done| |done|by left]. pose proof (kept_grown _ _ _ _ Gr) as K. pose proof (kp_rest _ _ _ _ _ K) as Er.
    split; [|rewrite Er; split_and!; [done|done|apply K]|split; [by rewrite Er|intros; unfold home; by rewrite Er]]. intros j Hj.
    destruct (kp_node _ _ _ _ _ K j) as (_ & _ & En & Ea); [eapply on_chain_live; [apply Pi|]; apply elem_of_app; by right|].
    split_and!; [done|unfold atr; by rewrite En, Ea|by rewrite Er].
  - pose proof (to_kept _ _ _ _ _ Tk) as K. pose proof (kp_rest _ _ _ _ _ K) as Er.
    assert (home c1 key = home c key) as Eh by (unfold home; by rewrite Er).
    pose proof Pi1 as [J1 P1 Q1 D1]. pose proof (live_addressing _ _ _ J1) as A1.
    assert (live c1 G1 i) as Hlv by (apply (to_live _ _ _ _ _ Tk); by right).
    assert (i ∉ on_chain W) as Hni by (intros Hi; apply (to_new _ _ _ _ _ Tk); eapply on_chain_live; [apply Pi|done]).
    rewrite (nd_not_null c1 G1 _ i J1 Hlv).
    erewrite run_bind by (by eapply (insert_to_hash_run (live c1 G1)); [..|by eapply hash_ptr]).
    change (slot_of (g_target_new_hash (rest c1)) (tab c1) key) with (home c1 key). rewrite Eh.
    pose proof (home_range _ _ _ key P1) as Hrg. rewrite Eh in Hrg.
    assert (i ∈ loose (set_loose W (i :: loose W))) as Hil by left.
    pose proof (linked_in_inv c1 G1 _ (home c key) i Pi1 Hrg Hil Hni) as Pi2. set (c2 := linked_in _ _ _ _) in *.
    destruct (insert_to_lru_run c2 G1 _ SYS_CLEAN_NODE_INDEX i [] Pi2) as (c3 & E3 & Pi3 & R3);
      [unfold heads; rewrite !elem_of_cons; tauto|by rewrite <- Hlo|].
    erewrite run_bind by exact E3. exists (nd G1 i), c3, G1. split_and!; [done| |done|right; exists i; split_and!; [done|apply Tk|exact Pi3]].
    assert (rest c3 = rest c2) as Er3 by (by destruct (rl_rest _ _ _ _ _ R3) as [F ->]).
    split; [|rewrite Er3; simpl; rewrite Er; split_and!; [done|done|apply K]|split; [rewrite Er3; simpl; by rewrite Er|intros; unfold home; rewrite Er3; simpl; by rewrite Er]].
    intros j Hj. assert (live c G j) as Hjl by (eapply on_chain_live; [apply Pi|]; apply elem_of_app; by right).
    destruct (kp_node _ _ _ _ _ K j Hjl) as (_ & Hj1 & En & Ea). pose proof (live_addressing _ _ _ (pi_inv _ _ _ Pi2)) as A2.
    destruct (rl_data _ _ _ _ _ R3 A2 j Hj1) as (_ & Ev & _).
    split_and!; [done| |rewrite Er3; simpl; by rewrite Er]. rewrite Ev.
    change (attr c2 G1 j) with (attr (set_at (nd G1) i (set_next (aget (hh_buckets (tab c1)) (home c key))) c1) G1 j).
    rewrite (atr_set (live c1 G1)) by done. destruct (Z.eqb_spec j i) as [->|]; [by destruct (to_new _ _ _ _ _ Tk)|].
    unfold atr. by rewrite En, Ea.
Qed.

(** ** Lookup *)

(** The key of the chunk of node [i]. *)
Definition node_key c G i : mem := mem_of (key_at (nd G) c i).

(** Node [i] holds [key]. *)
Definition holds c G i key : Prop := key_cmp (key_size (rest c)) key (node_key c G i) = 0.

Lemma dat_complete c G W i : pinv c G W -> i ∈ dat W -> complete (nd G) c i.
Proof.
  intros [J P Q D] Hi. destruct (pt_chunk _ _ _ D i Hi) as (d & Hd & Hr & _). split.
  - assert (0 < vd c G i); [|unfold INVALID_HANDLE; lia]. eapply block_pos; [exact (gi_mem _ _ _ J)|]. unfold blocks, owned.
    rewrite !elem_of_cons, !elem_of_app, elem_of_cons, list_elem_of_fmap. naive_solver.
  - exists d. split; [done|]. unfold chunk_key. by rewrite Hr.
Qed.

(** A node that holds a key is in the chain of the key. *)
Lemma holds_chain c G W i key : pinv c G W -> i ∈ dat W -> holds c G i key -> i ∈ ch W (home c key).
Proof.
  intros [J P Q D] Hi Hh. destruct (pt_chunk _ _ _ D i Hi) as (d & Hd & Hr & Hin).
  unfold holds, node_key, key_at in Hh. rewrite Hd in Hh. simpl in Hh. destruct (ph_fixed _ _ _ P) as [Ef Hf].
  assert (home c key = home c (mem_of (p_key_ d))) as ->; [|done]. unfold home, slot_of.
  destruct (slots_same (hh_size (tab c)) (hh_fixedsize (tab c)) key (mem_of (p_key_ d))) as [-> ->]; [by rewrite Ef|by rewrite Ef|done].
Qed.

(** No key is held twice. *)
Definition unique_keys c G W : Prop :=
  forall i j key, i ∈ dat W -> j ∈ dat W -> holds c G i key -> holds c G j key -> i = j.

Lemma cache_find_spec c G W key : pinv c G W -> pd W = [] ->
  exists n, cache_find key (g_target_new_hash (rest c)) c = Some (n, c)
  /\ (n = NullNode /\ (forall i, i ∈ dat W -> ~ holds c G i key)
      \/ exists i, n = nd G i /\ i ∈ dat W /\ holds c G i key).
Proof.
  intros Pi Hpd. pose proof Pi as [J P Q D]. pose proof (home_range c G W key P) as Hs.
  destruct (chain_facts c G W _ Pi Hs) as (Hc & Hl & Hn). pose proof (chain_fuel c G W _ Pi Hs) as Hf.
  assert (forall i, i ∈ ch W (home c key) -> i ∈ dat W) as Hcd.
  { intros i Hi. pose proof (on_chain_ch c G W _ i P Hs Hi) as Ho. unfold on_chain in Ho. by rewrite Hpd in Ho. }
  eexists. split.
  { apply (cache_find_run (live c G) (nd G)) with (s := home c key) (l := ch W (home c key)); try done.
    - intros i Hi. by eapply nd_not_null.
    - by eapply live_addressing.
    - by eapply hash_ptr.
    - apply Forall_forall. intros i Hi. eapply dat_complete; [done|]. auto. }
  destruct (List.find (matches (nd G) c key) (ch W (home c key))) as [i|] eqn:Ef.
  - apply List.find_some in Ef as [Hi Hm]. right. exists i. split_and!; [done|apply Hcd; by apply list_elem_of_In|].
    by apply Z.eqb_eq in Hm.
  - left. split; [done|]. intros i Hi Hh. pose proof (List.find_none _ _ Ef i) as Hnone.
    assert (matches (nd G) c key i = true) as Ht by (by apply Z.eqb_eq).
    rewrite Hnone in Ht; [done|]. apply list_elem_of_In. by eapply holds_chain.
Qed.

(** ** Purging a node *)

Lemma data_kept_trans c1 G1 c2 G2 c3 G3 l : data_kept c1 G1 c2 G2 l -> data_kept c2 G2 c3 G3 l -> data_kept c1 G1 c3 G3 l.
Proof.
  intros [K1 (D1 & E1 & F1) [T1 H1]] [K2 (D2 & E2 & F2) [T2 H2]]. split; [|split_and!; congruence|split; congruence].
 
  intros j Hj. destruct (K1 j Hj) as (A1 & B1 & C1), (K2 j Hj) as (A2 & B2 & C2). rewrite B1 in C2. split_and!; congruence.
Qed.

Lemma aside_kept c c' G l : aside c c' -> data_kept c G c' G l.
Proof.
  intros As. pose proof As as [_ _ (_ & _ & Et & _) _ (_ & _ & R3 & R4 & R5 & R6)]. split; [|done|split; [by destruct (as_rest _ _ As) as (_ & -> & _)|intros; by apply aside_home]].
  intros j Hj. split_and!; [done|unfold atr; by rewrite Et|by rewrite R3].
Qed.

Lemma rehashed_kept c G c' l : rehashed c G c' -> (forall j, j ∈ l -> live c G j) -> data_kept c G c' G l.
Proof.
  intros R Hl. destruct (rh_tab _ _ _ R) as (f & Er & Hf).
  split; [|by rewrite Er|split; [rewrite Er; apply Hf|intros; by eapply rehashed_home]].
  intros j Hj. destruct (rh_attr _ _ _ R j (Hl j Hj)) as (_ & _ & Ev & _). split_and!; [done|done|by rewrite Er].
Qed.

Lemma relinked_kept c G own c' L l : ginv c G own -> relinked (live c G) (nd G) c c' L -> (forall j, j ∈ l -> live c G j) ->
  data_kept c G c' G l.
Proof.
  intros J R Hl. assert (rest c' = rest c) as Er by (by destruct (rl_rest _ _ _ _ _ R) as [F ->]). split; [|by rewrite Er|split; [by rewrite Er|intros; unfold home; by rewrite Er]].
  intros j Hj. destruct (rl_data _ _ _ _ _ R (live_addressing _ _ _ J) j (Hl j Hj)) as (_ & Ev & _). split_and!; [done|done|by rewrite Er].
Qed.

Lemma gone_kept c G c' G' i l : gone c G c' G' i -> (forall j, j ∈ l -> live c G j /\ j ≠ i) -> data_kept c G c' G' l.
Proof.
  intros [K _ _] Hl. pose proof (kp_rest _ _ _ _ _ K) as Er. split; [|rewrite Er; split_and!; [done|done|apply K]|split; [by rewrite Er|intros; unfold home; by rewrite Er]].
  intros j Hj. destruct (kp_node _ _ _ _ _ K j (Hl j Hj)) as (_ & _ & En & Ea). split_and!; [done|unfold atr; by rewrite En, Ea|by rewrite Er].
Qed.

Lemma listed_lst W i : i ∈ listed W -> exists hd l1 l2, hd ∈ heads /\ lst W hd = l1 ++ i :: l2.
Proof.
  intros Hi. assert (exists hd, hd ∈ heads /\ i ∈ lst W hd) as (hd & Hh & Hi').
  { unfold listed in Hi. rewrite !elem_of_app in Hi. unfold heads, lst. setoid_rewrite elem_of_cons.
    destruct Hi as [Hi|[Hi|Hi]]; [exists 0|exists 1|exists 2]; (split; [|done]); rewrite ?elem_of_cons; tauto. }
  apply list_elem_of_split in Hi' as (l1 & l2 & E). by exists hd, l1, l2.
Qed.

(** Taking a node out of the one list it is on. *)
Lemma forget_lists c G W hd l1 i l2 : plru c G W -> loose W = [] -> hd ∈ heads -> lst W hd = l1 ++ i :: l2 ->
  dl (set_lst W hd (l1 ++ l2) []) = rem i (dl W) /\ cl (set_lst W hd (l1 ++ l2) []) = rem i (cl W)
  /\ el (set_lst W hd (l1 ++ l2) []) = rem i (el W).
Proof.
  intros Q Hlo Hh El. assert (i ∈ lst W hd) as Hi by (rewrite El; set_solver).
  assert (forall hd', hd' ∈ heads -> hd' ≠ hd -> rem i (lst W hd') = lst W hd') as Hr.
  { intros hd' Hh' Hne. apply rem_none. intros Hi'. eapply (lst_apart c G W hd' hd i); try done; by right. }
  assert (NoDup (lst W hd)) as Hn by (pose proof (lru_nodup _ _ _ _ _ (pl_list _ _ _ Q hd Hh)) as Hn; by apply NoDup_cons in Hn as [_ ?]).
  assert (rem i (lst W hd) = l1 ++ l2) as Hs by (rewrite El in Hn |- *; by apply rem_split).
  pose proof (Hr 0) as R0. pose proof (Hr 1) as R1. pose proof (Hr 2) as R2. clear Hr. unfold heads in *.
  rewrite !elem_of_cons, elem_of_nil in *. destruct Hh as [->|[->|[->|[]]]]; unfold lst, set_lst in *; simpl in *;
    rewrite ?R0, ?R1, ?R2 by (lia || tauto); rewrite Hs; done.
Qed.

Lemma forget_table c G W s l1 i l2 hd m1 m2 : pinv c G W -> loose W = [] -> i ∈ pd W -> 0 <= s < hh_size (tab c) ->
  ch W s = l1 ++ i :: l2 -> hd ∈ heads -> lst W hd = m1 ++ i :: m2 ->
  table_eq (hh_size (tab c)) (set_loose (set_lst (del_chain W s (l1 ++ l2) (rem i (pd W))) hd (m1 ++ m2) [i]) []) (forget W i).
Proof.
  intros Pi Hlo Hpd Hs Ec Hh Em. pose proof Pi as [J P Q D]. pose proof (ph_nodup _ _ _ P) as Hn. unfold on_chain in Hn.
  rewrite NoDup_app in Hn. destruct Hn as (_ & Hpdd & _).
  destruct (set_lst_chains (del_chain W s (l1 ++ l2) (rem i (pd W))) hd (m1 ++ m2) [i]) as (E1 & E2 & E3 & _).
  destruct (forget_lists c G W hd m1 i m2 Q Hlo Hh Em) as (F1 & F2 & F3). split; simpl.
  - intros x Hx. rewrite E1. simpl. unfold upd_ch. destruct (Z.eqb_spec x s) as [->|Hne].
    + destruct (chain_facts c G W s Pi Hs) as (_ & _ & Hnd). rewrite Ec in Hnd |- *. by apply rem_split.
    + apply rem_none. intros Hi. apply (chain_apart c G W x s i); try done. rewrite Ec. set_solver.
  - rewrite E3. simpl. rewrite (rem_none i (dat W)) by (intros Hi; by apply (Hpdd i)).
    rewrite <- F1, <- F2, <- F3. unfold set_lst. by repeat case_match.
  - by rewrite E2.
Qed.

Lemma purge_node_spec c G W key i : pinv c G W -> loose W = [] -> i ∈ pd W -> i ∈ ch W (home c key) ->
  exists c' G', purge_node key (nd G i) c = Some (0, c') /\ pinv c' G' (forget W i) /\ data_kept c G c' G' (dat W)
  /\ gs G' = gs G /\ step (node_group c') = step (node_group c) /\ fre G' ≠ [].
Proof.
  intros Pi Hlo Hpd Hch. pose proof Pi as [J P Q D].
  assert (i ∈ on_chain W) as Hon by (apply elem_of_app; by left).
  assert (forall j, j ∈ on_chain W -> live c G j) as Hlv by (intros j Hj; by eapply on_chain_live).
  assert (exists c1, (if purge_processor (rest c) then purge_node_processor (nd G i) else mret tt) c = Some (tt, c1)
    /\ aside c c1) as (c1 & E1 & As).
  { destruct (purge_processor (rest c)); [|exists c; split; [done|apply aside_refl]].
    destruct (purge_node_processor_run c G i) as (c1 & E1 & As & _); [by eapply nd_not_null, Hlv|by exists c1]. }
  pose proof (aside_pinv _ _ _ _ As Pi) as Pi1. pose proof (home_range _ _ _ key (pi_hash _ _ _ Pi1)) as Hs.
  rewrite <- (aside_home _ _ key As) in Hch. apply list_elem_of_split in Hch as (l1 & l2 & Ec).
  pose proof (rem_perm i (pd W)) as Ep. pose proof (ph_nodup _ _ _ P) as Hn. pose proof Hn as Hn'. unfold on_chain in Hn'.
  rewrite NoDup_app in Hn'. destruct Hn' as (Hnp & Hpdd & _). specialize (Ep Hnp Hpd).
  pose proof (linked_out_inv c1 G W _ l1 i l2 _ Pi1 Hs Ec Ep) as Pi2.
  pose proof (linked_out_rehashed c1 G W _ l1 i l2 Pi1 Hs Ec) as R2. set (c2 := linked_out _ _ _ _ _) in *.
  assert (i ∈ listed W) as Hli by (pose proof (pl_chain _ _ _ Q i Hon) as Hx; rewrite Hlo, app_nil_r in Hx; done).
  destruct (listed_lst W i Hli) as (hd & m1 & m2 & Hh & Em).
  destruct (remove_from_lru_run c2 G _ hd m1 i m2 Pi2 Hh Em) as (c3 & E3 & Pi3 & R3 & _).
  simpl loose in Pi3. rewrite Hlo in Pi3. set (W3 := set_lst _ _ _ _) in *.
  destruct (set_lst_chains (del_chain W (home c1 key) (l1 ++ l2) (rem i (pd W))) hd (m1 ++ m2) [i]) as (_ & F2 & F3 & F4).
  assert (i ∉ on_chain W3) as Hni.
  { unfold on_chain, W3. rewrite F2, F3. simpl. rewrite elem_of_app, rem_in. intros [[_ ?]|Hd]; [done|]. by apply (Hpdd i). }
  destruct (release_inv c3 G W3 i [] Pi3 F4 Hni) as (c4 & G4 & E4 & Go & Pi4 & Eg & Es & Hf).
  assert (rest c4 = rest c2) as Er.
  { rewrite (kp_rest _ _ _ _ _ (go_kept _ _ _ _ _ Go)). by destruct (rl_rest _ _ _ _ _ R3) as [F ->]. }
  destruct (rh_tab _ _ _ R2) as (f & Er2 & Hf2).
  assert (forall j, j ∈ dat W -> live c1 G j /\ live c2 G j /\ live c3 G j /\ j ≠ i) as Hd.
  { intros j Hj. split_and!; [eapply on_chain_live; [apply Pi1|]|eapply on_chain_live; [apply Pi2|]|eapply on_chain_live; [apply Pi3|]|].
    - apply elem_of_app. by right.
    - apply elem_of_app. by right.
    - apply elem_of_app. right. unfold W3. rewrite F3. done.
    - intros ->. by apply (Hpdd i). }
  exists c4, G4. split_and!; try done.
  - unfold purge_node, pond. erewrite run_bind by apply run_gets. erewrite run_bind by exact E1.
    erewrite run_bind by (by eapply remove_from_hash_run). fold c2. erewrite run_bind by exact E3. by erewrite run_bind by exact E4.
  - eapply pinv_table; [|exact Pi4]. rewrite Er, Er2. simpl. rewrite (proj1 (Hf2 _)). by apply (forget_table c1 G W).
  - eapply data_kept_trans; [by apply aside_kept|]. eapply data_kept_trans; [apply rehashed_kept; [exact R2|apply Hd]|].
    eapply data_kept_trans; [eapply relinked_kept; [apply Pi2|exact R3|apply Hd]|]. eapply gone_kept; [exact Go|]. intros j Hj. split; by apply Hd.
  - rewrite Es. destruct (rl_rest _ _ _ _ _ R3) as [F ->]. destruct (as_group _ _ As) as (_ & _ & _ & <-). unfold c2. by destruct l1.
Qed.

Lemma rem_twice i l : rem i (rem i l) = rem i l.
Proof. apply rem_none. rewrite rem_in. tauto. Qed.

Lemma rem_same i l : rem i (i :: l) = rem i l.
Proof. unfold rem. by rewrite filter_cons_False by tauto. Qed.

(** Two nodes do not share a chunk. *)
Lemma vd_inj c G W i j : pinv c G W -> i ∈ dat W -> j ∈ dat W -> vd c G i = vd c G j -> i = j.
Proof.
  intros [J P Q D] Hi Hj E. pose proof (gm_nodup _ _ _ (gi_mem _ _ _ J)) as Hb. unfold blocks, owned in Hb.
  assert (NoDup ((fun k => vd c G k) <$> dat W)) as Hn by (rewrite !NoDup_cons, !NoDup_app, NoDup_cons in Hb; tauto).
  apply list_elem_of_lookup_1 in Hi as [x Hx], Hj as [y Hy].
  assert (x = y) as ->; [|congruence]. eapply NoDup_lookup; [exact Hn|by rewrite list_lookup_fmap, Hx|rewrite list_lookup_fmap, Hy; simpl; by rewrite E].
Qed.

(** [DataChunk::destory] and [purge_node] for a node with data. *)
Lemma destroy_and_purge c G W key i d : pinv c G W -> loose W = [] -> i ∈ dat W -> i ∈ ch W (home c key) ->
  chunks (rest c) !! vd c G i = Some d ->
  exists c1 c', chunk_destory (vd c G i) d c = Some (0, c1) /\ purge_node key (nd G i) c1 = Some (0, c')
  /\ exists G', pinv c' G' (forget W i) /\ data_kept c G c' G' (rem i (dat W)) /\ gs G' = gs G
  /\ step (node_group c') = step (node_group c) /\ fre G' ≠ [].
Proof.
  intros Pi Hlo Hi Hch Hd. pose proof Pi as [J P Q D]. destruct (pt_chunk _ _ _ D i Hi) as (d' & Hd' & Hr & _).
  assert (d' = d) as -> by congruence. pose proof (ph_nodup _ _ _ P) as Hn. unfold on_chain in Hn. rewrite NoDup_app in Hn.
  destruct Hn as (_ & Hpdd & Hnd).
  destruct (chunk_destory_inv c G W i (rem i (dat W)) d Pi (rem_perm _ _ Hnd Hi) Hd Hr) as (c1 & G1 & E1 & Pi1 & En & Eg & Egs & Esec & Er).
  assert (home c1 key = home c key) as Eh by (unfold home; by rewrite Er).
  destruct (purge_node_spec c1 G1 _ key i Pi1 Hlo) as (c2 & G2 & E2 & Pi2 & K2 & Egs2 & Es2 & Hf2); [left|by rewrite Eh|].
  exists c1, c2. split_and!; [done|by rewrite <- En|]. exists G2. split_and!; [| |congruence|congruence|done].
  - eapply pinv_table; [|exact Pi2]. assert (i ∉ pd W) as Hnp by (intros Hp; by apply (Hpdd i)).
    split; simpl; [done|by rewrite rem_twice|]. by rewrite rem_same.
  - eapply data_kept_trans; [|exact K2]. split; [|by rewrite Er|split; [by rewrite Er|intros; unfold home; by rewrite Er]]. intros j [Hj Hne]%rem_in. rewrite En. unfold atr. rewrite Eg, Er. simpl.
    split_and!; [done|done|]. apply lookup_delete_ne. intros Ev.
    apply Hne. symmetry. by apply (vd_inj c G W).
Qed.

(** Both forms of [purge_node_and_data]. *)
Lemma purge_node_and_data_spec c G W i : pinv c G W -> loose W = [] -> i ∈ dat W ->
  exists c' G', purge_node_and_data (nd G i) c = Some (0, c') /\ pinv c' G' (forget W i)
  /\ data_kept c G c' G' (rem i (dat W)) /\ gs G' = gs G /\ step (node_group c') = step (node_group c) /\ fre G' ≠ [].
Proof.
  intros Pi Hlo Hi. destruct (dat_complete c G W i Pi Hi) as (Hv & d & Hd & Hk).
  destruct (pt_chunk _ _ _ (pi_data _ _ _ Pi) i Hi) as (d' & Hd' & _ & Hch). assert (d' = d) as -> by congruence.
  assert (live c G i) as Hlv by (eapply on_chain_live; [apply Pi|]; apply elem_of_app; by right).
  destruct (destroy_and_purge c G W (mem_of (p_key_ d)) i d) as (c1 & c' & E1 & E & G' & R); try done.
  exists c', G'. split; [|done]. unfold purge_node_and_data. rewrite (nd_not_null c G _ i (pi_inv _ _ _ Pi) Hlv).
  erewrite run_bind by (by eapply (vd_handle_run (live c G)); [eapply live_addressing, Pi|]).
  destruct (Z.eqb_spec (vd c G i) INVALID_HANDLE); [done|]. erewrite run_bind by (by apply get_chunk_run). rewrite Hk.
  by erewrite run_bind by exact E1.
Qed.

Lemma purge_key_and_data_spec c G W key i : pinv c G W -> loose W = [] -> i ∈ dat W -> holds c G i key ->
  exists c' G', purge_key_and_data key (nd G i) c = Some (0, c') /\ pinv c' G' (forget W i)
  /\ data_kept c G c' G' (rem i (dat W)) /\ gs G' = gs G /\ step (node_group c') = step (node_group c) /\ fre G' ≠ [].
Proof.
  intros Pi Hlo Hi Hh. destruct (dat_complete c G W i Pi Hi) as (Hv & d & Hd & Hk).
  assert (live c G i) as Hlv by (eapply on_chain_live; [apply Pi|]; apply elem_of_app; by right).
  destruct (destroy_and_purge c G W key i d) as (c1 & c' & E1 & E & G' & R); [done|done|done|by eapply holds_chain|done|].
  exists c', G'. split; [|done]. unfold purge_key_and_data. rewrite (nd_not_null c G _ i (pi_inv _ _ _ Pi) Hlv).
  erewrite run_bind; [exact E|]. erewrite run_bind by (by eapply (vd_handle_run (live c G)); [eapply live_addressing, Pi|]).
  destruct (Z.eqb_spec (vd c G i) INVALID_HANDLE); [done|]. erewrite run_bind by (by apply get_chunk_run).
  by erewrite run_bind by exact E1.
Qed.

(** [cache_purge]: the node of a key and its data go, everything else stays. *)
Lemma cache_purge_spec c G W key : pinv c G W -> loose W = [] -> pd W = [] ->
  exists c', cache_purge key c = Some (0, c')
  /\ (c' = c /\ (forall i, i ∈ dat W -> ~ holds c G i key)
      \/ exists i G', i ∈ dat W /\ holds c G i key /\ pinv c' G' (forget W i) /\ data_kept c G c' G' (rem i (dat W))
         /\ gs G' = gs G /\ step (node_group c') = step (node_group c) /\ fre G' ≠ []).
Proof.
  intros Pi Hlo Hpd. unfold cache_purge, pond. erewrite run_bind by apply run_gets. rewrite (ph_mode _ _ _ (pi_hash _ _ _ Pi)).
  destruct (cache_find_spec c G W key Pi Hpd) as (n & E & [(-> & Hno)|(i & -> & Hi & Hh)]); erewrite run_bind by exact E.
  - exists c. split; [done|by left].
  - assert (live c G i) as Hlv by (eapply on_chain_live; [apply Pi|]; apply elem_of_app; by right).
    rewrite (nd_not_null c G _ i (pi_inv _ _ _ Pi) Hlv).
    destruct (purge_key_and_data_spec c G W key i Pi Hlo Hi Hh) as (c' & G' & E' & R).
    exists c'. split; [by erewrite run_bind by exact E'|]. right. exists i, G'. split; [done|]. by split.
Qed.

End Spec.
