(* ===== verification/PondPurge.v ===== *)
(** * Evicting from the old end of the clean list

    [pre_purge_nodes] and [delay_purge_notify] drop the oldest nodes of the
    clean LRU list, skipping a reserved node. *)

From S2P Require Import Prelude DList PtMalloc PtMallocSpec MallocBase Jenkins DtcHash Node Pond.
From S2P Require Import NodeLists NodeGroups NodeAlloc NodeOps NodeRun NodeInit PondChains PondInv PondOps PondSpec.

(** The victims among the [n] oldest nodes of a list: not the reserved one. *)
Definition victims (r : Z) (n : nat) (l : list Z) : list Z := filter (fun i => i ≠ r) (take n (reverse l)).

Definition forget_all (W : table) (l : list Z) : table := foldl forget W l.

Lemma victims_snoc r n l p :
  victims r (Datatypes.S n) (l ++ [p]) = (if decide (p = r) then [] else [p]) ++ victims r n l.
Proof.
  unfold victims. rewrite reverse_app. simpl. destruct (decide (p = r)); [by rewrite filter_cons_False by tauto|by rewrite filter_cons_True].
Qed.

Lemma forget_all_dat W l j : j ∈ dat (forget_all W l) <-> j ∈ dat W /\ j ∉ l.
Proof.
  unfold forget_all. revert W. induction l as [|i l IH]; intros W; simpl; [split; [|tauto]; intros; split; [done|apply not_elem_of_nil]|].
  rewrite IH. simpl. rewrite rem_in, not_elem_of_cons. tauto.
Qed.

Lemma nd_inj G i j : NoDup (gs G) -> 0 <= i -> 0 <= j -> is_Some (gs G !! gidx i) -> is_Some (gs G !! gidx j) ->
  nd G i = nd G j -> i = j.
Proof.
  intros Hn Hi Hj [h Hh] [h' Hh']. unfold nd. rewrite Hh, Hh'. simpl. intros [= -> E].
  rewrite (id_split i Hi), (id_split j Hj), E. do 3 f_equal. by eapply NoDup_lookup.
Qed.

Lemma nd_gs G G' : gs G' = gs G -> nd G' = nd G.
Proof. intros E. unfold nd. by rewrite E. Qed.

Section Purge.

Context {S : Type} `{MallocLaws S}.

Implicit Types (c : Cache S BufferPond) (G : ghost) (W : table) (i j r : Z).

Abbreviation attr c G := (atr (nd G) c).
Abbreviation vd c G i := (a_vd (atr (nd G) c i)).

(** ** Dropping one node *)

Lemma inc_total_row_run c v : nodegroup_info_ (node_group c) ≠ INVALID_HANDLE ->
  exists c', inc_total_row v c = Some (tt, c') /\ aside c c'.
Proof.
  intros Hi. eexists. split; [by apply upd_info_run|]. pose proof (aside_refl c) as [????[]]. split; try done.
  by eexists _, _, _.
Qed.

Lemma aside_attr c c' G i : aside c c' -> attr c' G i = attr c G i.
Proof. intros [_ _ (_ & _ & Et & _) _ _]. unfold atr. by rewrite Et. Qed.

Lemma node_rows_count_run c G W i d : pinv c G W -> i ∈ dat W -> chunks (rest c) !! vd c G i = Some d ->
  node_rows_count (nd G i) c = Some (sext 32 (wrap 32 (row_count_ d)), c).
Proof.
  intros Pi Hi Hd. destruct (dat_complete c G W i Pi Hi) as (Hv & _).
  assert (live c G i) as Hlv by (eapply on_chain_live; [apply Pi|]; apply elem_of_app; by right).
  unfold node_rows_count. rewrite (nd_not_null c G _ i (pi_inv _ _ _ Pi) Hlv).
  erewrite run_bind by (by eapply (vd_handle_run (live c G)); [eapply live_addressing, Pi|]).
  destruct (Z.eqb_spec (vd c G i) INVALID_HANDLE); [done|]. by erewrite run_bind by (by apply get_chunk_run).
Qed.

Lemma drop_node_spec c G W i : pinv c G W -> loose W = [] -> i ∈ dat W ->
  exists c' G', drop_node (nd G i) c = Some (tt, c') /\ pinv c' G' (forget W i)
  /\ data_kept c G c' G' (rem i (dat W)) /\ gs G' = gs G /\ step (node_group c') = step (node_group c) /\ fre G' ≠ [].
Proof.
  intros Pi Hlo Hi. destruct (dat_complete c G W i Pi Hi) as (Hv & d & Hd & Hk).
  destruct (inc_total_row_run c (sext 32 (wrap 32 (0 - sext 32 (wrap 32 (row_count_ d)))))) as (c1 & E1 & As); [by eapply info_ok|].
  pose proof (aside_pinv _ _ _ _ As Pi) as Pi1.
  destruct (purge_node_and_data_spec c1 G W i Pi1 Hlo Hi) as (c' & G' & E & Pi' & K & Eg & Es & Hf).
  exists c', G'. split_and!; try done.
  - unfold drop_node. erewrite run_bind by by eapply node_rows_count_run.
    erewrite run_bind by exact E1. unfold purge_node_with_alert. by erewrite run_bind by exact E.
  - eapply data_kept_trans; [by apply aside_kept|exact K].
  - destruct (as_group _ _ As) as (_ & _ & _ & <-). done.
Qed.

(** ** The loop *)

(** [reserve] is the node [r], or null. *)
Definition reserves G (reserve : Node) r : Prop :=
  reserve = NullNode /\ r = -1 \/ reserve = nd G r /\ 0 <= r /\ is_Some (gs G !! gidx r).

Lemma live_gs c G i : live c G i -> 0 <= i /\ is_Some (gs G !! gidx i).
Proof. intros (Hi & h & t & Hh & _). split; [done|by eexists]. Qed.

Lemma node_eq_spec (n m : Node) : node_eq n m = true <-> n = m.
Proof.
  unfold node_eq. destruct n as [a b], m as [a' b']. simpl. rewrite andb_true_iff, !Z.eqb_eq. split; [by intros [-> ->]|by intros [= -> ->]].
Qed.

Lemma node_eq_reserve c G W reserve r i : pinv c G W -> reserves G reserve r -> live c G i ->
  node_eq reserve (nd G i) = bool_decide (i = r).
Proof.
  intros Pi HR Hi. destruct (live_gs c G i Hi) as [Hi0 Hig].
  destruct HR as [[-> ->]|(-> & Hr0 & Hrg)].
  - rewrite bool_decide_false by lia. pose proof (nd_not_null c G _ i (pi_inv _ _ _ Pi) Hi) as Hn.
    destruct (node_eq NullNode (nd G i)) eqn:E; [|done]. apply node_eq_spec in E. by rewrite <- E in Hn.
  - destruct (node_eq (nd G r) (nd G i)) eqn:E.
    + apply node_eq_spec in E. rewrite bool_decide_true; [done|]. symmetry.
      eapply nd_inj; [|done..]. eapply gs_NoDup, Pi.
    + rewrite bool_decide_false; [done|]. intros ->. assert (node_eq (nd G r) (nd G r) = true) by (by apply node_eq_spec). congruence.
Qed.

(** The clean list from its old end. *)
Lemma clean_prev c G W l p keep : pinv c G W -> cl W = l ++ p :: keep ->
  live c G p /\ p ≠ 1 /\ Prev (nd G p) c = Some (nd G (last_or 1 l), c).
Proof.
  intros Pi Ec. pose proof Pi as [J P Q D]. assert (1 ∈ heads) as H1 by (unfold heads; rewrite !elem_of_cons; tauto).
  pose proof (pl_list _ _ _ Q 1 H1) as L. change (lst W 1) with (cl W) in L. rewrite Ec in L.
  assert (forall j, j ∈ 1 :: l ++ p :: keep -> live c G j) as HV by (intros j Hj; by eapply (lru_V (live c G))).
  destruct (ring_links _ _ _ _ _ _ (lru_ring _ _ _ _ _ L)) as [Ep _]. simpl in Ep.
  assert (live c G p) as Hp by (apply HV; set_solver). split_and!; [done| |].
  - pose proof (lru_nodup _ _ _ _ _ L) as Hn. apply NoDup_cons in Hn as [Hn _]. intros ->. set_solver.
  - rewrite <- Ep. eapply (Prev_run (live c G)); [by eapply live_addressing|done|]. rewrite Ep. apply HV.
    pose proof (last_or_hd 1 l). set_solver.
Qed.

Lemma purge_loop_spec (count : nat) c G W l keep reserve r done : pinv c G W -> loose W = [] -> cl W = l ++ keep ->
  (forall i, i ∈ l -> i ∈ dat W) -> reserves G reserve r ->
  exists c' G', purge_loop count (nd G 1) reserve (nd G (last_or 1 l)) done c
    = Some (done + Z.of_nat (length (victims r count l)), c')
  /\ pinv c' G' (forget_all W (victims r count l)) /\ data_kept c G c' G' (dat (forget_all W (victims r count l)))
  /\ gs G' = gs G /\ step (node_group c') = step (node_group c) /\ (fre G ≠ [] \/ victims r count l ≠ [] -> fre G' ≠ []).
Proof.
  revert c G W l keep done. induction count as [|count IH]; intros c G W l keep done Pi Hlo Ec Hd HR.
  { exists c, G. simpl. rewrite Z.add_0_r. by split_and!; [..|intros [?|?]]. }
  destruct l as [|p l _] using rev_ind.
  - exists c, G. cbn [purge_loop]. change (last_or 1 []) with 1.
    assert (node_eq (nd G 1) (nd G 1) = true) as -> by (by apply node_eq_spec). rewrite orb_true_r. simpl. rewrite Z.add_0_r. by split_and!; [..|intros [?|?]].
  - rewrite <- app_assoc in Ec. simpl in Ec. destruct (clean_prev c G W l p keep Pi Ec) as (Hp & Hp1 & Epv).
    assert (live c G 1) as H1 by (eapply heads_live; [apply Pi|]; unfold heads; rewrite !elem_of_cons; tauto).
    rewrite last_or_app. change (last_or (last_or 1 l) [p]) with p. cbn [purge_loop].
    rewrite (nd_not_null c G _ p (pi_inv _ _ _ Pi) Hp).
    assert (node_eq (nd G p) (nd G 1) = false) as ->.
    { destruct (node_eq (nd G p) (nd G 1)) eqn:E; [|done]. apply node_eq_spec in E. exfalso. apply Hp1.
      destruct (live_gs c G p Hp), (live_gs c G 1 H1). eapply nd_inj; [eapply gs_NoDup, Pi|done..]. }
    cbn [orb]. unfold check_cross_linked_lru. erewrite run_bind by (by erewrite run_bind by exact Epv). erewrite run_bind by exact Epv.
    rewrite (node_eq_reserve c G W reserve r p Pi HR Hp), victims_snoc. destruct (decide (p = r)) as [->|Hne].
    + rewrite bool_decide_true by done. simpl app. apply (IH c G W l (r :: keep)); try done.
      intros i Hi. apply Hd, elem_of_app. by left.
    + rewrite bool_decide_false by done.
      destruct (drop_node_spec c G W p Pi Hlo) as (c1 & G1 & E1 & Pi1 & K1 & Eg1 & Es1 & Hf1); [apply Hd, elem_of_app; right; left|].
      erewrite run_bind by exact E1. rewrite <- (nd_gs G G1 Eg1).
      assert (NoDup (cl W)) as Hn.
      { pose proof (lru_nodup _ _ _ _ _ (pl_list _ _ _ (pi_lru _ _ _ Pi) 1 ltac:(unfold heads; rewrite !elem_of_cons; tauto))) as Hn.
        by apply NoDup_cons in Hn as [_ ?]. }
      rewrite Ec in Hn. assert (p ∉ l) as Hpl by (rewrite NoDup_app in Hn; destruct Hn as (_ & Hx & _); intros Hx'; apply (Hx p Hx'); left).
      destruct (IH c1 G1 (forget W p) l keep (done + 1) Pi1 Hlo) as (c' & G' & E' & Pi' & K' & Eg' & Es' & Hf').
      * simpl. rewrite Ec. by apply rem_split.
      * intros i Hi. simpl. rewrite rem_in. split; [apply Hd, elem_of_app; by left|]. by intros ->.
      * unfold reserves. rewrite (nd_gs G G1 Eg1), Eg1. exact HR.
      * exists c', G'. split_and!; [|exact Pi'| |congruence|congruence|].
        -- rewrite E'. simpl. do 2 f_equal. lia.
        -- eapply data_kept_trans; [|exact K']. destruct K1 as [K1 ? ?]. split; [|done|done]. intros j Hj. apply K1. by apply (forget_all_dat (forget W p)) in Hj as [Hj _].
        -- intros _. apply Hf'. by left.
Qed.

(** [pre_purge_nodes] *)
Lemma pre_purge_nodes_spec c G W n reserve r : pinv c G W -> loose W = [] -> (forall i, i ∈ cl W -> i ∈ dat W) ->
  reserves G reserve r ->
  exists c' G', pre_purge_nodes n reserve c = Some (Z.of_nat (length (victims r (Z.to_nat n) (cl W))), c')
  /\ pinv c' G' (forget_all W (victims r (Z.to_nat n) (cl W)))
  /\ data_kept c G c' G' (dat (forget_all W (victims r (Z.to_nat n) (cl W)))) /\ gs G' = gs G
  /\ step (node_group c') = step (node_group c) /\ (fre G ≠ [] \/ victims r (Z.to_nat n) (cl W) ≠ [] -> fre G' ≠ []).
Proof.
  intros Pi Hlo Hd HR. unfold pre_purge_nodes. destruct (Z.leb_spec n 0) as [Hn|Hn].
  { replace (Z.to_nat n) with 0%nat by lia. exists c, G. by split_and!; [..|intros [?|?]]. }
  pose proof Pi as [J P Q D]. assert (1 ∈ heads) as H1 by (unfold heads; rewrite !elem_of_cons; tauto).
  assert (clean_node_head c = Some (nd G 1, c)) as Eh.
  { unfold clean_node_head, sys_node. erewrite run_bind by (apply info_run; by eapply info_ok).
    rewrite (pl_sys _ _ _ Q 1 H1). destruct (Z.eqb_spec (ni_sys_zone (ni (node_group c))) INVALID_HANDLE) as [E|]; [|done].
    pose proof (nd_not_null c G _ 1 J (heads_live c G W 1 Q H1)) as Hnn. rewrite (pl_sys _ _ _ Q 1 H1), E in Hnn. done. }
  erewrite run_bind by exact Eh.
  pose proof (pl_list _ _ _ Q 1 H1) as L. change (lst W 1) with (cl W) in L. destruct (lru_ring _ _ _ _ _ L) as (_ & Ep & _). simpl in Ep.
  erewrite run_bind.
  2:{ eapply (Prev_run (live c G)); [by eapply live_addressing|by eapply heads_live|]. rewrite Ep.
      eapply (lru_V (live c G)); [exact L|apply last_or_hd]. }
  rewrite Ep. destruct (purge_loop_spec (Z.to_nat n) c G W (cl W) [] reserve r 0) as (c' & G' & E & R); try done.
  { by rewrite app_nil_r. }
  exists c', G'. split; [exact E|exact R].
Qed.

End Purge.
