(* ===== verification/PondInit.v ===== *)
(** * Formatting the cache

    [mem_init], the part of [dtc_mem_init] that builds the index, the buckets
    and the groups, establishes the invariant of the pond with an empty table. *)

From S2P Require Import Prelude DList PtMalloc PtMallocSpec MallocBase Jenkins DtcHash Node Pond NodeLists NodeGroups NodeAlloc NodeOps NodeRun NodeInit PondChains PondInv PondOps PondSpec PondPurge.
From S2P Require Import NodeLists NodeGroups NodeAlloc NodeOps NodeRun NodeInit PondChains PondInv PondOps PondSpec.

Definition empty_table : table := mkTable (fun _ => []) [] [] [] [] [] [].

Lemma init_buckets_get n s : 0 <= s < n -> aget (init_buckets n) s = INVALID_NODE_ID.
Proof.
  intros Hs. unfold init_buckets, aget, aset.
  assert (forall (l : list nat) (m : gmap Z Z), s ∈ Z.of_nat <$> l ->
    fold_right (fun (i : nat) m => <[Z.of_nat i := INVALID_NODE_ID]> m) m l !! s = Some INVALID_NODE_ID) as Hf.
  { intros l m. induction l as [|i l IH]; simpl; [by intros ?%not_elem_of_nil|]. intros Hin.
    destruct (decide (Z.of_nat i = s)) as [->|Hne]; [by rewrite lookup_insert_eq|].
    rewrite lookup_insert_ne by done. apply IH. apply elem_of_cons in Hin as [?|?]; [congruence|done]. }
  rewrite Hf; [done|]. by apply (in_slots n).
Qed.

Lemma free_slots_all n : free_slots n (fun _ => []) = slots n.
Proof. unfold free_slots. induction (slots n) as [|x l IH]; [done|]. by rewrite filter_cons_True, IH. Qed.

Section Init.

Context {S : Type} `{MallocLaws S}.

Implicit Types (c : Cache S BufferPond) (A : heap).

(** A pond before the memory is formatted. *)
Record blank_pond c (fixedsize : Z) : Prop := {
  bp_sets : sets (node_group c) = ∅;
  bp_step : 1 <= step (node_group c) <= 4096;
  bp_chunks : chunks (rest c) = ∅;
  bp_key : key_size (rest c) = fixedsize /\ 0 <= fixedsize < 2 ^ 32;
  bp_mode : g_hash_changing (rest c) = false
}.

Lemma hash_do_init_run c A l hsize fixedsize : index_ok c A l [] -> 0 < hsize < 2 ^ 30 - 4 ->
  exists r c', hash_do_init hsize fixedsize c = Some (r, c') /\ node_group c' = node_group c
  /\ (r = 0 -> exists v A', rest c' = set_hash v (mkHash hsize hsize 0 fixedsize (init_buckets hsize)) (rest c)
      /\ index_ok c' A' l [v]).
Proof.
  intros J Hs. destruct (M_CALLOC_run c A (sizeof_NODE_ID_T * hsize + sizeof_HASH_T) (io_rep _ _ _ _ J)) as (v & a & E & _ & O);
    [unfold sizeof_NODE_ID_T, sizeof_HASH_T; lia|].
  unfold hash_do_init. erewrite run_bind by exact E.
  destruct O as [[-> Ra]|(m & _ & Hv & Hf & Ra)]; [rewrite Z.eqb_refl; by eexists (-1), _|].
  destruct (Z.eqb_spec v INVALID_HANDLE); [done|]. erewrite run_bind by apply run_modify.
  eexists 0, _. split_and!; [done|done|]. intros _. exists v, (<[v := m]> A). split; [done|].
  destruct J as [R Hh Hx]. rewrite app_nil_r in Hh. split; [done| |done].
  apply (held_perm _ (v :: firstIndex (node_index c) :: l)); [simpl; solve_Permutation|by apply held_cons].
Qed.

Lemma empty_pinv c c' G hsize fixedsize v p : groups_fresh c c' G [v] ->
  rest c = set_hash v (mkHash hsize hsize 0 fixedsize (init_buckets hsize)) p -> 0 < hsize < 2 ^ 30 - 4 ->
  chunks p = ∅ -> key_size p = fixedsize -> 0 <= fixedsize < 2 ^ 32 -> g_hash_changing p = false ->
  pinv c' G empty_table.
Proof.
  intros [J F1 [Er Es] Fl Fa Fs _] Ep Hs Hc Hk Hf Hm. rewrite Ep in Er.
  split.
  - unfold owned. by rewrite Er.
  - split; rewrite ?Er; simpl; try done; try lia.
    + intros s Hr. by apply init_buckets_get.
    + by induction (slots hsize).
    + constructor.
    + change (ch empty_table) with (fun _ : Z => @nil Z). rewrite free_slots_all. unfold slots. rewrite length_fmap, length_seq. lia.
  - assert (forall i, i ∈ heads <-> 0 <= i < 3) as Hh.
    { intros i. unfold heads. rewrite !elem_of_cons, elem_of_nil. lia. }
    assert (heads ++ listed empty_table ++ loose empty_table = heads) as E0 by done.
    split; rewrite ?E0; try done.
    + intros hd Hd. assert (lst empty_table hd = []) as -> by (unfold lst; by repeat case_match).
      apply Hh in Hd. split; [|apply NoDup_singleton|apply Forall_singleton; by apply Fl].
      assert (atr (nd G) c' hd = fresh_attr 0 hd) as Ea by (unfold atr; by rewrite Fa).
      split_and!; simpl; rewrite ?Ea; try done; simpl; rewrite wrap_small by (split; lia); done.
    + intros i. rewrite Fl. by rewrite Hh.
    + unfold heads. rewrite !NoDup_cons, !not_elem_of_cons. split_and!; try done; try apply not_elem_of_nil; constructor.
    + intros i Hi. apply Fs. by apply Hh.
  - split; simpl; [by intros i ?%not_elem_of_nil|]. intros h [d Hd]. by rewrite Er in Hd; simpl in Hd; rewrite Hc in Hd.
Qed.

(** When formatting succeeds the pond is empty and well formed. *)
Lemma mem_init_spec c A mem_size hsize fixedsize : m_rep (alloc c) A -> blank_pond c fixedsize ->
  0 <= mem_size <= 2 ^ 36 -> 0 < hsize < 2 ^ 30 - 4 ->
  exists r c', mem_init mem_size hsize fixedsize c = Some (r, c')
  /\ (r = 0 -> exists G, pinv c' G empty_table /\ length (gs G) = 1%nat
      /\ Z.of_nat (length (secs G)) = index_count mem_size /\ step (node_group c') = step (node_group c)).
Proof.
  intros R [B1 B2 B3 [B4 B4'] B5] Hm Hs. unfold mem_init.
  destruct (index_do_init_run mem_size c A [] Hm R) as (r1 & c1 & E1 & Eg1 & Er1 & O1); [by split; constructor|].
  erewrite run_bind by exact E1. destruct (Z.eqb_spec r1 0) as [Hr1|]; cbn [negb]; [|by exists (-1), c1].
  destruct (O1 Hr1) as (A1 & l & J1 & Hl & _).
  destruct (hash_do_init_run c1 A1 l hsize fixedsize J1 Hs) as (r2 & c2 & E2 & Eg2 & O2).
  erewrite run_bind by exact E2. destruct (Z.eqb_spec r2 0) as [Hr2|]; cbn [negb]; [|by exists (-1), c2].
  destruct (O2 Hr2) as (v & A2 & Er2 & J2). assert (1 <= index_count mem_size <= 256) as Hn by (unfold index_count; zdm).
  destruct l as [|b l']; [simpl in Hl; lia|].
  destruct (group_do_init_run c2 A2 (b :: l') [v] b l') as (r3 & c3 & E3 & O3); [done|done|lia|by rewrite Eg2, Eg1|by rewrite Eg2, Eg1|].
  erewrite run_bind by exact E3. destruct (Z.eqb_spec r3 0) as [Hr3|]; cbn [negb]; [|by exists (-1), c3].
  destruct (O3 Hr3) as (G & Fr & Esec & _). exists 0, c3. split; [done|]. intros _. exists G. split_and!.
  - eapply empty_pinv; [exact Fr|exact Er2|done|by rewrite Er1|by rewrite Er1|done|by rewrite Er1].
  - apply Fr.
  - by rewrite Esec.
  - destruct (fg_rest _ _ _ _ Fr) as [_ ->]. by rewrite Eg2, Eg1.
Qed.

End Init.

(** * Sequences of cache operations

    The states a cache reaches from formatting by allocating nodes for keys,
    hanging chunks on them, looking up, purging keys and purging the old end
    of the clean list.  The row storage that fills a chunk is not part of the
    model: a chunk is hung on a node by [attach], an allocation followed by the
    assignment of the node's handle. *)


Section Reach.

Context {S : Type} `{MallocLaws S}.

Implicit Types (c : Cache S BufferPond) (G : ghost) (W : table) (i j h : Z) (key : mem).

Abbreviation vd c G i := (a_vd (atr (nd G) c i)).

(** A block of memory for a client. *)
Lemma ginv_malloc c G own n : ginv c G own -> 0 <= n < 2 ^ 32 ->
  exists h a, m_Malloc n (alloc c) = Some (h, a)
  /\ (h = INVALID_HANDLE /\ ginv (set_alloc a c) G own
      \/ h ≠ INVALID_HANDLE /\ hp G !! h = None
         /\ exists m, ginv (set_alloc a c) (with_heap G (<[h := m]> (hp G))) (h :: own)).
Proof.
  intros J Hn. pose proof J as [M T L F I N]. destruct (m_Malloc_ok _ _ n (gm_rep _ _ _ M) Hn) as (h & a & E & _ & O).
  exists h, a. split; [done|]. destruct O as [[-> R]|(m & _ & Hh & Hf & R)]; [left; split; [done|by apply ginv_alloc]|right].
  split_and!; [done|done|]. exists m. pose proof M as [M1 M2 M3 M4 M5 M6 M7]. rewrite Forall_forall in M2.
  assert (h ∉ blocks c G own) as Hb by (intros Hin; destruct (M2 h Hin); congruence).
  assert (blocks c G (h :: own) ≡ₚ h :: blocks c G own) as Ep by (unfold blocks; solve_Permutation).
  split.
  - split; try done.
    + change (Forall (fun b => is_Some (<[h := m]> (hp G) !! b)) (blocks c G (h :: own))). rewrite Ep. apply Forall_cons.
      split; [rewrite lookup_insert_eq; by eexists|]. rewrite Forall_forall. intros b Hbl. rewrite lookup_insert_ne; [auto|by intros ->].
    + change (NoDup (blocks c G (h :: own))). rewrite Ep. by apply NoDup_cons.
    + destruct M4 as (k & Hk & ?). exists k. simpl. rewrite lookup_insert_ne; [done|]. congruence.
  - destruct T as [T1 T2 T3]. split; try done. intros k x Hk. destruct (T1 k x Hk) as (t & Ht & [O1 O2 O3 O4 O5 O6 O7 O8]).
    exists t. split; [done|]. by split.
  - destruct L as [L1 L2 L3]. split; [by eapply cells_ext; [..|exact L1]|by eapply cells_ext; [..|exact L2]|done].
  - by destruct F.
  - by destruct I.
  - by destruct N.
Qed.

(** Chunk [d], at [h], becomes the data of node [i]. *)
Definition attach G i h (a : S) (d : DataChunk) c : Cache S BufferPond :=
  on_rest (on_chunks (<[h := d]>)) (set_at (nd G) i (set_vd h) (set_alloc a c)).

Definition attached_table W i : table := mkTable (ch W) (dl W) (cl W) (el W) (rem i (pd W)) (i :: dat W) (loose W).

Lemma attach_inv c G W i h a m d : pinv c G W -> i ∈ pd W -> data_type_ d = DATA_TYPE_RAW ->
  i ∈ ch W (home c (mem_of (p_key_ d))) -> h ≠ INVALID_HANDLE -> hp G !! h = None ->
  ginv (set_alloc a c) (with_heap G (<[h := m]> (hp G))) (h :: owned c G W) ->
  pinv (attach G i h a d c) (with_heap G (<[h := m]> (hp G))) (attached_table W i).
Proof.
  intros Pi Hi Hr Hch Hh Hf J'. pose proof Pi as [J P Q D]. set (G' := with_heap G _) in *. set (c' := attach G i h a d c).
  pose proof (ph_nodup _ _ _ P) as Hn. unfold on_chain in Hn. rewrite NoDup_app in Hn. destruct Hn as (Hnp & Hpdd & Hnd).
  assert (live c G i) as Hlv by (eapply on_chain_live; [done|]; apply elem_of_app; by left).
  pose proof (live_addressing _ _ _ J) as A.
  assert (forall j, live c G j -> atr (nd G') c' j = if j =? i then set_vd h (atr (nd G) c i) else atr (nd G) c j) as Hat.
  { intros j Hj. change (atr (nd G') c' j) with (atr (nd G) (set_at (nd G) i (set_vd h) c) j). by rewrite (atr_set (live c G)). }
  assert (forall j, j ∈ dat W -> vd c' G' j = vd c G j) as Hvd.
  { intros j Hj. rewrite Hat by (eapply on_chain_live; [done|]; apply elem_of_app; by right).
    destruct (Z.eqb_spec j i) as [->|]; [by destruct (Hpdd i)|done]. }
  assert (vd c' G' i = h) as Hvi by (rewrite Hat, Z.eqb_refl by done; done).
  assert (on_chain (attached_table W i) ≡ₚ on_chain W) as Eo.
  { unfold on_chain. simpl. rewrite (rem_perm i (pd W) Hnp Hi) at 2. solve_Permutation. }
  assert ((fun j => vd c' G' j) <$> (i :: dat W) = h :: ((fun j => vd c G j) <$> dat W)) as Ef.
  { simpl. rewrite Hvi. f_equal. apply list_fmap_ext. intros k j Hj. apply Hvd. by eapply list_elem_of_lookup_2. }
  split.
  - eapply (ginv_own _ _ (h :: owned c G W)); [unfold owned; simpl dat; rewrite Ef; simpl; solve_Permutation|].
    apply ginv_rest. by apply (ginv_set (set_alloc a c) G' _ i (set_vd h)).
  - destruct P as [P1 P2 P3 P4 P5 P6 P7 P8]. split; rewrite ?Eo; try done. intros s Hs. eapply chain_ext; [|by apply P4].
    intros j Hj. rewrite Hat; [by destruct (Z.eqb_spec j i) as [->|]|].
    eapply on_chain_live; [done|]. rewrite <- P5. apply list_elem_of_bind. exists s. split; [done|by apply in_slots].
  - destruct Q as [Q1 Q2 Q3 Q4 Q5]. split; try done.
    + intros hd Hd. eapply lru_move; [|by apply Q1]. intros j Hj. assert (live c G j) as Hjl by (by eapply (lru_V (live c G)); [apply Q1|]).
      split; [done|]. rewrite Hat by done. by destruct (Z.eqb_spec j i) as [->|].
    + intros j. rewrite Eo. apply Q4.
  - destruct D as [D1 D2]. split; simpl.
    + intros j [->|Hj]%elem_of_cons; [exists d; rewrite Hvi, lookup_insert_eq; done|].
      destruct (D1 j Hj) as (d' & Hd' & Hr' & Hin). exists d'. rewrite Hvd by done. split_and!; [|done|done].
      rewrite lookup_insert_ne; [done|]. intros ->. pose proof (gm_blocks _ _ _ (gi_mem _ _ _ J)) as HF. rewrite Forall_forall in HF.
      destruct (HF (vd c G j)); [|congruence]. unfold blocks, owned. rewrite !elem_of_cons, !elem_of_app, elem_of_cons, list_elem_of_fmap. naive_solver.
    + intros x Hx. change (x ∈ (fun j => vd c' G' j) <$> (i :: dat W)). rewrite Ef, elem_of_cons.
      destruct (decide (x = h)) as [->|]; [by left|right]. apply D2. by rewrite lookup_insert_ne in Hx.
Qed.

(** The other nodes keep their data. *)
Lemma attach_kept c G W i h a m d : pinv c G W -> i ∈ pd W -> hp G !! h = None ->
  data_kept c G (attach G i h a d c) (with_heap G (<[h := m]> (hp G))) (dat W)
  /\ vd (attach G i h a d c) (with_heap G (<[h := m]> (hp G))) i = h.
Proof.
  intros Pi Hi Hf. pose proof Pi as [J P Q D]. pose proof (ph_nodup _ _ _ P) as Hn. unfold on_chain in Hn. rewrite NoDup_app in Hn.
  destruct Hn as (_ & Hpdd & _). pose proof (live_addressing _ _ _ J) as A.
  assert (live c G i) as Hlv by (eapply on_chain_live; [done|]; apply elem_of_app; by left).
  assert (forall j, live c G j -> atr (nd G) (attach G i h a d c) j = if j =? i then set_vd h (atr (nd G) c i) else atr (nd G) c j) as Hat.
  { intros j Hj. change (atr (nd G) (attach G i h a d c) j) with (atr (nd G) (set_at (nd G) i (set_vd h) c) j). by rewrite (atr_set (live c G)). }
  change (nd (with_heap G (<[h := m]> (hp G)))) with (nd G). split; [split; [|done|done]|by rewrite Hat, Z.eqb_refl].
  intros j Hj. assert (j ≠ i) as Hne by (intros ->; by apply (Hpdd i)).
  rewrite Hat by (eapply on_chain_live; [done|]; apply elem_of_app; by right). destruct (Z.eqb_spec j i); [done|].
  split_and!; [done|done|]. simpl. apply lookup_insert_ne. intros ->. pose proof (gm_blocks _ _ _ (gi_mem _ _ _ J)) as HF.
  rewrite Forall_forall in HF. destruct (HF (vd c G j)); [|congruence].
  unfold blocks, owned. rewrite !elem_of_cons, !elem_of_app, elem_of_cons, list_elem_of_fmap. naive_solver.
Qed.

(** Only the allocator changes. *)
Lemma pinv_alloc c G W a : pinv c G W -> ginv (set_alloc a c) G (owned c G W) -> pinv (set_alloc a c) G W.
Proof.
  intros [J P Q D] J'. split; [done| | |].
  - by destruct P; split.
  - destruct Q as [Q1 Q2 Q3 Q4 Q5]. split; try done. intros hd Hh. eapply lru_move; [|by apply Q1].
    intros j Hj. split; [|done]. by eapply (lru_V (live c G)); [apply Q1|].
  - by destruct D; split.
Qed.

End Reach.
