(* ===== verification/Transaction.v ===== *)
(** * Cache transactions (src/core/chain/buffer_process_ask_chain.cc)

    A request works on one node: it finds it, says how the LRU lists should
    change, and the end of the transaction applies that.  The state of the
    transaction is [CacheTransaction]; its node and its empty flag, which the
    purge notification reads, are kept in the pond. *)

From S2P Require Import Prelude DList PtMalloc PtMallocSpec MallocBase Jenkins DtcHash Node Pond.
From S2P Require Import NodeLists NodeGroups NodeAlloc NodeOps NodeRun NodeInit.
From S2P Require Import PondChains PondInv PondOps PondSpec PondPurge PondInit.

Definition LRU_NONE : Z := 0.
Definition LRU_BATCH : Z := 1.
Definition LRU_READ : Z := 2.
Definition LRU_WRITE : Z := 3.
Definition LRU_ALWAYS : Z := 999.

Definition DTC_CODE_NODE_NOTFOUND : Z := 0.
Definition DTC_CODE_NODE_EMPTY : Z := 1.
Definition DTC_CODE_NODE_HIT : Z := 2.

(** The other fields of [CacheTransaction]; [lru_update] is a [uint8_t]. *)
Record CacheTransaction := mkTxn {
  old_rows : Z;
  node_status : Z;
  key_dirty : bool;
  lru_update : Z
}.

Definition set_status (v : Z) (t : CacheTransaction) : CacheTransaction := mkTxn (old_rows t) v (key_dirty t) (lru_update t).
Definition set_lru_update (v : Z) (t : CacheTransaction) : CacheTransaction :=
  mkTxn (old_rows t) (node_status t) (key_dirty t) (wrap 8 v).

Section Operations.

Context {S : Type} `{MallocBase S}.

Abbreviation P := (prog S BufferPond).

Definition set_transaction_node (n : Node) : P unit :=
  upd_pond (fun p => set_transaction n (node_empty p) (purge_log p) p).
Definition set_node_empty (b : bool) : P unit :=
  upd_pond (fun p => set_transaction (transaction_node p) b (purge_log p) p).

(** [filtered]: the empty-node filter is on and has the key. *)
Definition transaction_find_node (filtered : bool) (key : mem) (t : CacheTransaction) : P CacheTransaction :=
  if filtered then set_transaction_node NullNode;; mret (set_status DTC_CODE_NODE_EMPTY t)
  else
    p ← pond;
    n ← (if g_hash_changing p then
           let newhash := g_target_new_hash p in
           n ← cache_find key (negb newhash);
           set_transaction_node n;;
           if is_null n then n ← cache_find key newhash; set_transaction_node n;; mret n
           else move_to_new_hash key n;; mret n
         else n ← cache_find key (g_target_new_hash p); set_transaction_node n;; mret n);
    if is_null n then mret (set_status DTC_CODE_NODE_NOTFOUND t)
    else
      d ← is_dirty n;
      r ← node_rows_count n;
      set_node_empty (negb d && (r =? 0));;
      mret (mkTxn r DTC_CODE_NODE_HIT d (lru_update t)).

Definition transaction_update_lru (async : bool) (level : Z) (t : CacheTransaction) : P CacheTransaction :=
  if key_dirty t then mret t
  else if async then
    p ← pond;
    let n := transaction_node p in
    set_dirty n;;
    inc_dirty_node 1;;
    remove_from_lru n;;
    insert_to_dirty_lru n;;
    p ← pond;
    (if node_empty p then dec_empty_node;; set_node_empty false else mret tt);;
    mret (set_lru_update LRU_NONE t)
  else mret (set_lru_update level t).

(** [CacheTransaction::Free] *)
Definition txn_Free : P CacheTransaction :=
  set_transaction_node NullNode;; set_node_empty false;; mret (mkTxn 0 0 false 0).

Definition transaction_end (lru_update_level_ : Z) (t : CacheTransaction) : P CacheTransaction :=
  p ← pond;
  let n := transaction_node p in
  go ← (if is_null n || key_dirty t then mret false else d ← is_dirty n; mret (negb d));
  (if (go : bool) then
     newRows ← node_rows_count n;
     let nodeEmpty1 := newRows =? 0 in
     if (lru_update_level_ <? lru_update t) || negb (eqb nodeEmpty1 (node_empty p)) then
       if newRows =? 0 then
         remove_from_lru n;;
         pond_insert_to_empty_lru n;;
         (if node_empty p then mret tt else pond_inc_empty_node;; set_node_empty true)
       else
         remove_from_lru n;;
         insert_to_clean_lru n;;
         (if node_empty p then dec_empty_node;; set_node_empty false else mret tt)
     else mret tt
   else mret tt);;
  txn_Free.

(** The body of [buffer_adjust_lru] for one key; [false] when it is not there. *)
Definition adjust_lru (key : mem) : P bool :=
  p ← pond;
  n ← (if g_hash_changing p then
         let newhash := g_target_new_hash p in
         n ← cache_find key (negb newhash);
         if is_null n then cache_find key newhash else move_to_new_hash key n;; mret n
       else cache_find key (g_target_new_hash p));
  if is_null n then mret false
  else remove_from_lru n;; insert_to_clean_lru n;; mret true.

(** The [for] loop of [buffer_adjust_lru]. *)
Fixpoint buffer_adjust_lru (keys : list mem) : P bool :=
  match keys with
  | [] => mret true
  | key :: keys => ok ← adjust_lru key; if (ok : bool) then buffer_adjust_lru keys else mret false
  end.

(** ** The dirty list *)

Definition oldest_dirty_node_alarm : P bool :=
  stHead ← dirty_node_head;
  stNode ← Prev stHead;
  m ← is_time_marker stNode;
  if (m : bool) then
    stNode ← Prev stNode;
    m ← is_time_marker stNode;
    mret (negb ((m : bool) || node_eq stNode stHead))
  else mret (negb (node_eq stNode stHead)).

(** The [while (1)] of [delete_tail_time_markers]. *)
Fixpoint tail_markers_loop (fuel : nat) (stHead stPreNode : Node) : P unit :=
  match fuel with
  | O => crash
  | Datatypes.S fuel =>
      let stNode := stPreNode in
      stPreNode ← Prev stNode;
      stop ← (if node_eq stNode stHead then mret true
              else f ← first_time_marker_time; t ← Time stNode; mret (f =? t));
      if (stop : bool) then mret tt
      else
        m ← is_time_marker stNode;
        both ← (if (m : bool) then is_time_marker stPreNode else mret false);
        if (both : bool) then remove_time_marker stNode;; tail_markers_loop fuel stHead stPreNode
        else mret tt
  end.

Definition delete_tail_time_markers : P unit :=
  stHead ← dirty_node_head;
  stPreNode ← Prev stHead;
  fuel ← node_fuel;
  tail_markers_loop fuel stHead stPreNode.

End Operations.

(** ** Moving a node to the front of a list *)

Definition moved (W : table) (hd i : Z) : table :=
  let W' := mkTable (ch W) (rem i (dl W)) (rem i (cl W)) (rem i (el W)) (pd W) (dat W) (loose W) in
  set_lst W' hd (i :: lst W' hd) (loose W).

Section Moves.

Context {S : Type} `{MallocLaws S}.

Implicit Types (c : Cache S BufferPond) (G : ghost) (W : table) (i : Z) (key : mem).

Abbreviation attr c G := (atr (nd G) c).

Lemma pinv_eq c G W W' : ch W' = ch W -> dl W' = dl W -> cl W' = cl W -> el W' = el W -> pd W' = pd W -> dat W' = dat W ->
  loose W' = loose W -> pinv c G W -> pinv c G W'.
Proof. destruct W, W'. simpl. by intros -> -> -> -> -> -> ->. Qed.

(** What a move leaves alone. *)
Record moves c G c' : Prop := {
  mv_rest : rest c' = rest c;
  mv_data : forall j, live c G j -> same_data (attr c G j) (attr c' G j);
  mv_group : sets (node_group c') = sets (node_group c) /\ ni (node_group c') = ni (node_group c)
    /\ empty_node_count (node_group c') = empty_node_count (node_group c)
}.

Lemma moves_relinked c G own c' L : ginv c G own -> relinked (live c G) (nd G) c c' L -> moves c G c'.
Proof.
  intros J R. pose proof (rl_data _ _ _ _ _ R (live_addressing _ _ _ J)) as HD. destruct (rl_rest _ _ _ _ _ R) as [F ->]. by split.
Qed.

Lemma moves_trans c1 c2 c3 G : live c2 G = live c1 G -> moves c1 G c2 -> moves c2 G c3 -> moves c1 G c3.
Proof.
  intros El [A1 B1 C1] [A2 B2 C2]. rewrite El in B2. split; [congruence| |split_conj; split_and!; congruence].
  intros j Hj. destruct (B1 j Hj) as (?&?&?), (B2 j Hj) as (?&?&?). split_and!; congruence.
Qed.

Lemma move_spec c G W hd i : pinv c G W -> loose W = [] -> hd ∈ heads -> i ∈ listed W ->
  exists c1 c', remove_from_lru (nd G i) c = Some (0, c1) /\ insert_to_lru hd (nd G i) c1 = Some (0, c')
  /\ pinv c' G (moved W hd i) /\ moves c G c' /\ rest c1 = rest c.
Proof.
  intros Pi Hlo Hh Hi. destruct (listed_lst W i Hi) as (hd0 & l1 & l2 & Hh0 & El).
  destruct (remove_from_lru_run c G W hd0 l1 i l2 Pi Hh0 El) as (c1 & E1 & Pi1 & R1 & _). rewrite Hlo in Pi1.
  set (W1 := set_lst W hd0 (l1 ++ l2) [i]) in *.
  destruct (insert_to_lru_run c1 G W1 hd i [] Pi1 Hh) as (c2 & E2 & Pi2 & R2); [apply set_lst_chains|].
  exists c1, c2. split_and!; [done|done| | |by destruct (rl_rest _ _ _ _ _ R1) as [F ->]].
  - destruct (forget_lists c G W hd0 l1 i l2 (pi_lru _ _ _ Pi) Hlo Hh0 El) as (F1 & F2 & F3).
    assert (dl W1 = rem i (dl W) /\ cl W1 = rem i (cl W) /\ el W1 = rem i (el W)) as (G1 & G2 & G3).
    { rewrite <- F1, <- F2, <- F3. unfold W1, set_lst. by repeat case_match. }
    destruct (set_lst_chains W hd0 (l1 ++ l2) [i]) as (C1 & C2 & C3 & _). fold W1 in C1, C2, C3.
    eapply pinv_eq; [..|exact Pi2]; unfold moved, set_lst, lst; simpl;
      repeat case_match; simpl; rewrite ?G1, ?G2, ?G3, ?C1, ?C2, ?C3, ?Hlo; done.
  - assert (live c1 G = live c G) as Elv by (by destruct (rl_rest _ _ _ _ _ R1) as [F ->]).
    eapply moves_trans; [exact Elv|eapply moves_relinked; [apply Pi|exact R1]|eapply moves_relinked; [apply Pi1|exact R2]].
Qed.

Lemma dat_live c G W i : pinv c G W -> i ∈ dat W -> live c G i.
Proof. intros Pi Hi. eapply on_chain_live; [apply Pi|]. apply elem_of_app. by right. Qed.

Lemma dat_listed c G W i : pinv c G W -> loose W = [] -> i ∈ dat W -> i ∈ listed W.
Proof.
  intros Pi Hlo Hi. pose proof (pl_chain _ _ _ (pi_lru _ _ _ Pi) i) as Hx. rewrite Hlo, app_nil_r in Hx. apply Hx, elem_of_app. by right.
Qed.

(** The keys stay where they are. *)
Lemma moves_holds c G c' j key : moves c G c' -> live c G j -> holds c' G j key <-> holds c G j key.
Proof.
  intros [Er Hd _] Hj. unfold holds, node_key, key_at. rewrite Er. destruct (Hd j Hj) as (_ & -> & _). done.
Qed.

Lemma adjust_lru_spec c G W key : pinv c G W -> loose W = [] -> pd W = [] ->
  exists b c', adjust_lru key c = Some (b, c')
  /\ (b = false /\ c' = c /\ (forall i, i ∈ dat W -> ~ holds c G i key)
      \/ b = true /\ exists i, i ∈ dat W /\ holds c G i key /\ pinv c' G (moved W SYS_CLEAN_NODE_INDEX i) /\ moves c G c').
Proof.
  intros Pi Hlo Hpd. unfold adjust_lru, pond. erewrite run_bind by apply run_gets. rewrite (ph_mode _ _ _ (pi_hash _ _ _ Pi)).
  destruct (cache_find_spec c G W key Pi Hpd) as (n & E & [(-> & Hno)|(i & -> & Hi & Hh)]); erewrite run_bind by exact E.
  - exists false, c. split; [done|]. by left.
  - rewrite (nd_not_null c G _ i (pi_inv _ _ _ Pi) (dat_live _ _ _ _ Pi Hi)).
    destruct (move_spec c G W SYS_CLEAN_NODE_INDEX i Pi Hlo) as (c1 & c' & E1 & E2 & Pi' & Mv & _);
      [unfold heads; rewrite !elem_of_cons; tauto|by eapply dat_listed|].
    exists true, c'. split; [erewrite run_bind by exact E1; by erewrite run_bind by exact E2|]. right. split; [done|]. by exists i.
Qed.

End Moves.
