(* ===== verification/CacheSpec.v ===== *)
(** * The cache as an abstract LRU cache

    What the pond promises to the request chains, as operations on three lists
    of chunks ordered from the newest to the oldest.  [implements] relates a
    state of the pond to such a cache, and each operation of the pond is shown
    to perform the abstract one.  Hanging a chunk on a fresh node is the step
    of the row storage; here it is [insert_row], a client of the pond. *)

From S2P Require Import Prelude DList PtMalloc PtMallocSpec MallocBase Jenkins DtcHash Node Pond.
From S2P Require Import NodeLists NodeGroups NodeAlloc NodeOps NodeRun NodeInit.
From S2P Require Import PondChains PondInv PondOps PondSpec PondPurge PondInit Transaction.

(** ** The abstract cache *)

Record lru_cache := mkLru { l_dirty : list DataChunk; l_clean : list DataChunk; l_empty : list DataChunk }.

Definition entries (A : lru_cache) : list DataChunk := l_dirty A ++ l_clean A ++ l_empty A.

Definition has_key (ks : Z) (key : mem) (d : DataChunk) : bool := key_cmp ks key (mem_of (p_key_ d)) =? 0.

Definition l_lookup (ks : Z) (key : mem) (A : lru_cache) : option DataChunk := List.find (has_key ks key) (entries A).
Definition l_on (f : list DataChunk -> list DataChunk) (A : lru_cache) : lru_cache :=
  mkLru (f (l_dirty A)) (f (l_clean A)) (f (l_empty A)).
Definition l_remove (ks : Z) (key : mem) (A : lru_cache) : lru_cache := l_on (List.filter (fun d => negb (has_key ks key d))) A.

(** A new front of the list with head [hd]; the entry of a key moves there. *)
Definition l_cons (hd : Z) (d : DataChunk) (A : lru_cache) : lru_cache :=
  if hd =? SYS_DIRTY_NODE_INDEX then mkLru (d :: l_dirty A) (l_clean A) (l_empty A)
  else if hd =? SYS_CLEAN_NODE_INDEX then mkLru (l_dirty A) (d :: l_clean A) (l_empty A)
  else mkLru (l_dirty A) (l_clean A) (d :: l_empty A).
Definition l_move (ks hd : Z) (key : mem) (A : lru_cache) : lru_cache :=
  match l_lookup ks key A with Some d => l_cons hd d (l_remove ks key A) | None => A end.

Definition l_push (d : DataChunk) (A : lru_cache) : lru_cache := l_cons SYS_CLEAN_NODE_INDEX d A.
Definition l_touch (ks : Z) (key : mem) (A : lru_cache) : lru_cache := l_move ks SYS_CLEAN_NODE_INDEX key A.
Definition l_evict (n : nat) (A : lru_cache) : lru_cache :=
  mkLru (l_dirty A) (take (length (l_clean A) - n) (l_clean A)) (l_empty A).

(** No two entries have a common key. *)
Definition l_distinct (ks : Z) (A : lru_cache) : Prop :=
  forall i j d e key, entries A !! i = Some d -> entries A !! j = Some e ->
    has_key ks key d = true -> has_key ks key e = true -> i = j.

(** The requests a client makes of the pond, and what it is answered. *)
Inductive request :=
| Find (key : mem)
| Insert (key : mem) (size : Z) (d : DataChunk)
| Purge (key : mem)
| Touch (key : mem)
| Evict (count : Z).

Inductive answer := Hit (d : DataChunk) | Miss | Code (z : Z).

(** What the abstract cache may answer; an insertion may fail. *)
Inductive l_step (ks : Z) (A : lru_cache) : request -> answer -> lru_cache -> Prop :=
| step_find key : l_step ks A (Find key) (from_option Hit Miss (l_lookup ks key A)) A
| step_present key size d e : l_lookup ks key A = Some e -> l_step ks A (Insert key size d) (Hit e) A
| step_insert key size d : l_lookup ks key A = None -> l_step ks A (Insert key size d) (Code 0) (l_push d A)
| step_no_space key size d : l_lookup ks key A = None -> l_step ks A (Insert key size d) (Code (-1)) A
| step_purge key : l_step ks A (Purge key) (Code 0) (l_remove ks key A)
| step_touch key : l_step ks A (Touch key) (Code (if bool_decide (is_Some (l_lookup ks key A)) then 1 else 0)) (l_touch ks key A)
| step_evict count : l_step ks A (Evict count) (Code (Z.min (Z.max count 0) (Z.of_nat (length (l_clean A))))) (l_evict (Z.to_nat count) A).

Inductive l_run (ks : Z) : lru_cache -> list (request * answer) -> lru_cache -> Prop :=
| run_nil A : l_run ks A [] A
| run_snoc A t A1 q r A2 : l_run ks A t A1 -> l_step ks A1 q r A2 -> l_run ks A (t ++ [(q, r)]) A2.

(** Rows are stored under their own key and are raw chunks. *)
Definition valid (ks : Z) (q : request) : bool :=
  match q with
  | Insert key size d => (data_type_ d =? DATA_TYPE_RAW) && has_key ks key d && (0 <=? size) && (size <? 2 ^ 32)
  | _ => true
  end.

(** [buffer_adjust_lru] on the abstract cache: it stops at a missing key. *)
Fixpoint l_adjust (ks : Z) (keys : list mem) (A : lru_cache) : bool * lru_cache :=
  match keys with
  | [] => (true, A)
  | key :: keys =>
      match l_lookup ks key A with Some _ => l_adjust ks keys (l_touch ks key A) | None => (false, A) end
  end.

Section Client.

Context {S : Type} `{MallocBase S}.

Abbreviation P := (prog S BufferPond).

Definition M_MALLOC (n : Z) : P Z :=
  fun c => match m_Malloc n (alloc c) with Some (h, a) => Some (h, set_alloc a c) | None => None end.

(** A node for [key] with chunk [d] in a block of [size] bytes; -1 when there
    is no node or no memory. *)
Definition insert_row (key : mem) (size : Z) (d : DataChunk) : P Z :=
  n ← cache_allocation key;
  if is_null n then mret (-1)
  else
    h ← M_MALLOC size;
    if h =? INVALID_HANDLE then purge_node key n;; mret (-1)
    else upd_attr n (set_vd h);; upd_pond (on_chunks (<[h := d]>));; mret 0.

(** A lookup and the chunk it leads to. *)
Definition lookup_row (key : mem) : P (option DataChunk) :=
  p ← pond;
  n ← cache_find key (g_target_new_hash p);
  if is_null n then mret None else h ← vd_handle n; d ← get_chunk h; mret (Some d).

Definition exec (q : request) : P answer :=
  match q with
  | Find key => r ← lookup_row key; mret (from_option Hit Miss r)
  | Insert key size d =>
      r ← lookup_row key;
      match r with
      | Some e => mret (Hit e)
      | None => z ← insert_row key size d; mret (Code z)
      end
  | Purge key => z ← cache_purge key; mret (Code z)
  | Touch key => b ← adjust_lru key; mret (Code (if (b : bool) then 1 else 0))
  | Evict count => z ← pre_purge_nodes count NullNode; mret (Code z)
  end.

End Client.

(** ** Lists *)

Lemma find_fmap {A B} (f : A -> B) (p : B -> bool) l : List.find p (f <$> l) = f <$> List.find (fun x => p (f x)) l.
Proof. induction l as [|x l IH]; [done|]. simpl. by destruct (p (f x)). Qed.

Lemma rem_filter {B} (f : Z -> B) (p : B -> bool) i l : (forall j, j ∈ l -> p (f j) = true <-> j = i) ->
  List.filter (fun x => negb (p x)) (f <$> l) = f <$> rem i l.
Proof.
  induction l as [|j l IH]; intros Hp; [done|]. unfold rem in *. rewrite fmap_cons. cbn [List.filter]. specialize (IH (fun k Hk => Hp k ltac:(by right))).
  destruct (p (f j)) eqn:E; cbn [negb].
  - rewrite filter_cons_False, IH; [done|]. intros Hne. apply Hne, Hp; [left|done].
  - rewrite filter_cons_True, IH; [done|]. intros ->. assert (p (f i) = true) as E' by (apply Hp; [left|done]). congruence.
Qed.

Lemma filter_none {B} (f : Z -> B) (p : B -> bool) l : (forall j, j ∈ l -> p (f j) = false) ->
  List.filter (fun x => negb (p x)) (f <$> l) = f <$> l.
Proof.
  induction l as [|j l IH]; intros Hp; [done|]. rewrite fmap_cons. cbn [List.filter]. rewrite Hp by left. simpl.
  f_equal. apply IH. intros k Hk. apply Hp. by right.
Qed.

Lemma filter_ext_id (r : Z) (l : list Z) : (forall i, i ∈ l -> i ≠ r) -> filter (fun i => i ≠ r) l = l.
Proof. intros Hl. apply rem_none. intros Hr. by apply (Hl r). Qed.

Lemma rem_all_old n l : NoDup l -> foldl (fun l i => rem i l) l (take n (reverse l)) = take (length l - n) l.
Proof.
  revert n. induction l as [|p l IH] using rev_ind; intros n Hn; [by destruct n|].
  rewrite reverse_app, length_app. destruct n as [|n]; simpl; [by rewrite firstn_all2 by (rewrite length_app; simpl; lia)|].
  assert (rem p (l ++ [p]) = l) as -> by (rewrite rem_split, app_nil_r by done; done).
  apply NoDup_app in Hn as (Hn & _ & _). rewrite IH by done. rewrite take_app_le by lia. f_equal. lia.
Qed.

Lemma rem_all_in l v (j : Z) : j ∈ foldl (fun l i => rem i l) l v <-> j ∈ l /\ j ∉ v.
Proof.
  revert l. induction v as [|i v IH]; intros l; simpl; [split; [intros; split; [done|apply not_elem_of_nil]|tauto]|].
  rewrite IH, rem_in, not_elem_of_cons. tauto.
Qed.

Lemma rem_all_none l v : (forall i, i ∈ v -> i ∉ l) -> foldl (fun l i => rem i l) l v = l.
Proof.
  revert l. induction v as [|i v IH]; intros l Hv; [done|]. simpl. rewrite rem_none by (apply Hv; left). apply IH. intros j Hj. apply Hv. by right.
Qed.

Lemma forget_all_lists W v : dl (forget_all W v) = foldl (fun l i => rem i l) (dl W) v
  /\ cl (forget_all W v) = foldl (fun l i => rem i l) (cl W) v /\ el (forget_all W v) = foldl (fun l i => rem i l) (el W) v
  /\ pd (forget_all W v) = foldl (fun l i => rem i l) (pd W) v /\ loose (forget_all W v) = loose W.
Proof. unfold forget_all. revert W. induction v as [|i v IH]; intros W; [done|]. exact (IH (forget W i)). Qed.

(** ** Laws of the abstract cache *)

Section Laws.

Context (ks : Z) (Hks : 0 <= ks).

Implicit Types (key : mem) (d : DataChunk) (A : lru_cache).

Lemma find_skip {B} (p : B -> bool) l1 x l2 : p x = false -> List.find p (l1 ++ x :: l2) = List.find p (l1 ++ l2).
Proof. intros Hx. induction l1 as [|y l1 IH]; simpl; [by rewrite Hx|]. by destruct (p y). Qed.

Lemma find_filter {B} (p q : B -> bool) l : (forall x, p x = true -> q x = true) -> List.find p (List.filter q l) = List.find p l.
Proof.
  intros Hpq. induction l as [|x l IH]; [done|]. simpl. destruct (q x) eqn:Eq; simpl; rewrite IH; [done|].
  destruct (p x) eqn:Ep; [|done]. apply Hpq in Ep. congruence.
Qed.

Lemma find_filter_none {B} (p : B -> bool) l : List.find p (List.filter (fun x => negb (p x)) l) = None.
Proof. induction l as [|x l IH]; [done|]. simpl. destruct (p x) eqn:Ep; [done|]. simpl. by rewrite Ep. Qed.

(** Keys that differ have different entries. *)
Lemma has_key_other key key' d : has_key ks key d = true -> key_cmp ks key key' ≠ 0 -> has_key ks key' d = false.
Proof.
  intros Hk Hne. apply not_true_is_false. intros Hk'. apply Hne. unfold has_key in *. rewrite Z.eqb_eq in Hk, Hk'.
  eapply key_cmp_trans; [done|exact Hk|]. by apply key_cmp_sym.
Qed.

Lemma entries_filter (q : DataChunk -> bool) A : entries (l_on (List.filter q) A) = List.filter q (entries A).
Proof. unfold entries, l_on. simpl. by rewrite !List.filter_app. Qed.

Lemma lookup_push_other key key' d A : has_key ks key d = true -> key_cmp ks key key' ≠ 0 ->
  l_lookup ks key' (l_push d A) = l_lookup ks key' A.
Proof. intros Hk Hne. unfold l_lookup, l_push, l_cons, entries. simpl. apply find_skip. by eapply has_key_other. Qed.

Lemma lookup_push_same key d A : has_key ks key d = true -> l_lookup ks key A = None -> l_lookup ks key (l_push d A) = Some d.
Proof.
  intros Hk Hno. unfold l_lookup, l_push, l_cons, entries in *. simpl. induction (l_dirty A) as [|e l IH]; simpl in *; [by rewrite Hk|].
  destruct (has_key ks key e); [done|auto].
Qed.

Lemma lookup_removed key A : l_lookup ks key (l_remove ks key A) = None.
Proof. unfold l_lookup, l_remove. rewrite entries_filter. apply find_filter_none. Qed.

Lemma find_app {B} (p : B -> bool) l1 l2 : List.find p (l1 ++ l2) = match List.find p l1 with Some x => Some x | None => List.find p l2 end.
Proof. induction l1 as [|x l1 IH]; [done|]. cbn. by destruct (p x). Qed.

(** The entry of [key] at the front of the clean list, and that list evicted. *)
Lemma lookup_clean_gone key d A n (B := l_cons SYS_CLEAN_NODE_INDEX d (l_remove ks key A)) : (length (l_clean B) <= n)%nat -> l_lookup ks key (l_evict n B) = None.
Proof.
  intros Hn. unfold l_evict. replace (length (l_clean B) - n)%nat with 0%nat by lia. cbn [take]. unfold l_lookup, entries. cbn. by rewrite find_app, !find_filter_none.
Qed.

Lemma lookup_remove_other key key' A : key_cmp ks key key' ≠ 0 -> l_lookup ks key' (l_remove ks key A) = l_lookup ks key' A.
Proof.
  intros Hne. unfold l_lookup, l_remove. rewrite entries_filter. apply find_filter. intros x Hx. apply negb_true_iff, not_true_is_false.
  intros Hx'. rewrite (has_key_other key key') in Hx; done.
Qed.

End Laws.

(** ** The relation *)

Section Refine.

Context {S : Type} `{MallocLaws S}.

Implicit Types (c : Cache S BufferPond) (G : ghost) (W : table) (A : lru_cache) (i j h n : Z) (key : mem).

Abbreviation vd c G i := (a_vd (atr (nd G) c i)).
Abbreviation ks c := (key_size (rest c)).

Definition chunk_of c G i : DataChunk := default (mkChunk 0 0 []) (chunks (rest c) !! vd c G i).

Definition lists_of c G W : lru_cache := mkLru (chunk_of c G <$> dl W) (chunk_of c G <$> cl W) (chunk_of c G <$> el W).

(** The pond with [n] second-level indices shows the abstract cache [A]. *)
Record shows n c G W A : Prop := {
  sh_inv : pinv c G W;
  sh_settled : loose W = [] /\ pd W = [];
  sh_listed : forall i, i ∈ listed W -> i ∈ dat W;
  sh_unique : unique_keys c G W;
  sh_secs : Z.of_nat (length (secs G)) = n;
  sh_abs : A = lists_of c G W
}.

Definition implements n c A : Prop := exists G W, shows n c G W A.

(** There is space in the node index for the groups one allocation may add. *)
Definition has_room n c : bool := ni_used_ng (ni (node_group c)) + step (node_group c) <? 65536 * n.

Lemma has_room_room n c G W A : shows n c G W A -> has_room n c = true -> room c G.
Proof.
  intros Sh Hr. unfold has_room in Hr. apply Z.ltb_lt in Hr. pose proof (gi_count _ _ _ (pi_inv _ _ _ (sh_inv _ _ _ _ _ Sh))) as N.
  unfold room. rewrite <- (gn_used_ng _ _ N), (sh_secs _ _ _ _ _ Sh). lia.
Qed.

Lemma has_key_holds c G i key : has_key (ks c) key (chunk_of c G i) = true <-> holds c G i key.
Proof.
  unfold has_key, holds, node_key, key_at, chunk_of. rewrite Z.eqb_eq. by destruct (chunks (rest c) !! vd c G i).
Qed.

Lemma entries_of c G W : entries (lists_of c G W) = chunk_of c G <$> listed W.
Proof. unfold entries, listed. by rewrite !fmap_app. Qed.

Lemma sh_dat n c G W A i : shows n c G W A -> i ∈ dat W <-> i ∈ listed W.
Proof. intros [Pi [Hlo Hpd] Hl _ _ _]. split; [by eapply dat_listed|apply Hl]. Qed.

Lemma kept_chunk c G c' G' l j : data_kept c G c' G' l -> j ∈ l -> chunk_of c' G' j = chunk_of c G j.
Proof. intros [K _ _] Hj. destruct (K j Hj) as (_ & Ev & Ec). unfold chunk_of. by rewrite Ev, Ec. Qed.

Lemma kept_holds c G c' G' l j key : data_kept c G c' G' l -> j ∈ l -> holds c' G' j key <-> holds c G j key.
Proof.
  intros K Hj. rewrite <- !has_key_holds, (kept_chunk _ _ _ _ _ _ K Hj). by destruct K as [_ (-> & _) _].
Qed.

(** A step that only drops nodes or moves them between the lists. *)
Lemma shows_step n c G W A c' G' W' : shows n c G W A -> pinv c' G' W' -> loose W' = [] /\ pd W' = [] ->
  (forall i, i ∈ dat W' -> i ∈ dat W) -> (forall i, i ∈ listed W' -> i ∈ dat W') -> data_kept c G c' G' (dat W') ->
  shows n c' G' W' (mkLru (chunk_of c G <$> dl W') (chunk_of c G <$> cl W') (chunk_of c G <$> el W')).
Proof.
  intros [Pi Hs Hl Hu Hn _] Pi' Hs' Hsub Hl' K. split; try done.
  - intros i j key Hi Hj. rewrite (kept_holds _ _ _ _ _ i key K Hi), (kept_holds _ _ _ _ _ j key K Hj). apply Hu; auto.
  - by destruct K as [_ (_ & _ & ->) _].
  - unfold lists_of. f_equal; apply list_fmap_ext; intros k i Hi; symmetry; eapply kept_chunk; try done; apply Hl', elem_of_app.
    + left. by eapply list_elem_of_lookup_2.
    + right. apply elem_of_app. left. by eapply list_elem_of_lookup_2.
    + right. apply elem_of_app. right. by eapply list_elem_of_lookup_2.
Qed.

(** The one entry with a key. *)
Lemma key_entry n c G W A i key (l : list Z) : shows n c G W A -> i ∈ dat W -> holds c G i key -> (forall j, j ∈ l -> j ∈ dat W) ->
  forall j, j ∈ l -> has_key (ks c) key (chunk_of c G j) = true <-> j = i.
Proof.
  intros Sh Hi Hh Hl j Hj. rewrite has_key_holds. split; [|by intros ->]. intros Hh'. eapply (sh_unique _ _ _ _ _ Sh); eauto.
Qed.

Lemma remove_of n c G W A i key : shows n c G W A -> i ∈ dat W -> holds c G i key ->
  l_remove (ks c) key A = mkLru (chunk_of c G <$> rem i (dl W)) (chunk_of c G <$> rem i (cl W)) (chunk_of c G <$> rem i (el W)).
Proof.
  intros Sh Hi Hh. pose proof (sh_listed _ _ _ _ _ Sh) as Hl. unfold listed in Hl. rewrite (sh_abs _ _ _ _ _ Sh).
  unfold l_remove, l_on, lists_of. simpl.
  f_equal; apply rem_filter; eapply key_entry; try done; intros j Hj; apply Hl; rewrite !elem_of_app; tauto.
Qed.

Lemma lookup_some n c G W A i key : shows n c G W A -> i ∈ dat W -> holds c G i key -> l_lookup (ks c) key A = Some (chunk_of c G i).
Proof.
  intros Sh Hi Hh. unfold l_lookup. rewrite (sh_abs _ _ _ _ _ Sh), entries_of, find_fmap.
  destruct (List.find _ (listed W)) as [j|] eqn:E.
  - apply List.find_some in E as [Hj Ht]. apply list_elem_of_In, (sh_dat _ _ _ _ _ _ Sh) in Hj. apply has_key_holds in Ht.
    by rewrite (sh_unique _ _ _ _ _ Sh i j key).
  - apply (sh_dat _ _ _ _ _ _ Sh), list_elem_of_In in Hi. pose proof (List.find_none _ _ E i Hi) as Hf. apply has_key_holds in Hh.
    simpl in Hf. congruence.
Qed.

Lemma remove_none n c G W A key : shows n c G W A -> (forall i, i ∈ dat W -> ~ holds c G i key) -> l_remove (ks c) key A = A.
Proof.
  intros Sh Hno. pose proof (sh_listed _ _ _ _ _ Sh) as Hl. unfold listed in Hl. rewrite (sh_abs _ _ _ _ _ Sh).
  unfold l_remove, l_on, lists_of. simpl. f_equal; apply filter_none; intros j Hj; apply not_true_is_false;
    rewrite has_key_holds; apply Hno, Hl; rewrite !elem_of_app; tauto.
Qed.

Lemma lookup_none n c G W A key : shows n c G W A -> (forall i, i ∈ dat W -> ~ holds c G i key) -> l_lookup (ks c) key A = None.
Proof.
  intros Sh Hno. unfold l_lookup. rewrite (sh_abs _ _ _ _ _ Sh), entries_of, find_fmap.
  destruct (List.find _ (listed W)) as [j|] eqn:E; [|done]. apply List.find_some in E as [Hj Ht].
  apply list_elem_of_In, (sh_dat _ _ _ _ _ _ Sh) in Hj. apply has_key_holds in Ht. by destruct (Hno j Hj).
Qed.

Lemma key_size_pos n c A : implements n c A -> 0 <= ks c.
Proof. intros (G & W & Sh). destruct (ph_fixed _ _ _ (pi_hash _ _ _ (sh_inv _ _ _ _ _ Sh))). lia. Qed.

(** ** The operations *)

Lemma find_sim n c A key : implements n c A ->
  exists nd, cache_find key (g_target_new_hash (rest c)) c = Some (nd, c)
  /\ (nd = NullNode /\ l_lookup (ks c) key A = None
      \/ exists h d, is_null nd = false /\ vd_handle nd c = Some (h, c) /\ chunks (rest c) !! h = Some d /\ l_lookup (ks c) key A = Some d).
Proof.
  intros (G & W & Sh). pose proof Sh as [Pi [Hlo Hpd] _ _ _ _].
  destruct (cache_find_spec c G W key Pi Hpd) as (n0 & E & [(-> & Hno)|(i & -> & Hi & Hh)]); eexists; (split; [exact E|]).
  - left. split; [done|]. by eapply lookup_none.
  - right. pose proof (dat_live _ _ _ _ Pi Hi) as Hlv. destruct (pt_chunk _ _ _ (pi_data _ _ _ Pi) i Hi) as (d & Hd & _).
    exists (vd c G i), d. split_and!; [by eapply nd_not_null; [apply Pi|]|eapply (vd_handle_run (live c G)); [eapply live_addressing, Pi|done]|done|].
    rewrite (lookup_some n c G W A i key) by done. unfold chunk_of. by rewrite Hd.
Qed.

Lemma forget_shows n c G W A i key c' G' : shows n c G W A -> i ∈ dat W -> holds c G i key -> pinv c' G' (forget W i) ->
  data_kept c G c' G' (rem i (dat W)) -> shows n c' G' (forget W i) (l_remove (ks c) key A).
Proof.
  intros Sh Hi Hh Pi' K. rewrite (remove_of n c G W A i key) by done.
  pose proof (sh_settled _ _ _ _ _ Sh) as [Hlo Hpd]. eapply (shows_step n c G W A c' G' (forget W i)); try done.
  - simpl. by rewrite Hlo, Hpd.
  - intros j. simpl. by intros [? _]%rem_in.
  - intros j. unfold listed. simpl. rewrite !elem_of_app, !rem_in. intros Hj. pose proof (sh_listed _ _ _ _ _ Sh j) as Hl.
    unfold listed in Hl. rewrite !elem_of_app in Hl. tauto.
Qed.

Lemma purge_sim n c A key : implements n c A ->
  exists c', cache_purge key c = Some (0, c') /\ implements n c' (l_remove (ks c) key A) /\ ks c' = ks c.
Proof.
  intros (G & W & Sh). pose proof Sh as [Pi [Hlo Hpd] Hl _ _ EA].
  destruct (cache_purge_spec c G W key Pi Hlo Hpd) as (c' & E & [[-> Hno]|(i & G' & Hi & Hh & Pi' & K & _)]); eexists; (split; [exact E|]).
  - split; [|done]. exists G, W. by rewrite (remove_none n c G W A).
  - split; [exists G', (forget W i); by eapply forget_shows|]. by destruct K as [_ (-> & _) _].
Qed.

(** A move to the front of the clean list. *)
Lemma moves_kept c G c' l : moves c G c' -> (forall j, j ∈ l -> live c G j) -> data_kept c G c' G l.
Proof.
  intros [Er Hd _] Hl. split; [|by rewrite Er|split; [by rewrite Er|intros; unfold home; by rewrite Er]]. intros j Hj. destruct (Hd j (Hl j Hj)) as (_ & Ev & _). by rewrite Er.
Qed.

Lemma move_shows n c G W A hd i key c' : shows n c G W A -> i ∈ dat W -> holds c G i key ->
  pinv c' G (moved W hd i) -> moves c G c' -> shows n c' G (moved W hd i) (l_move (ks c) hd key A).
Proof.
  intros Sh Hi Hh Pi' Mv. unfold l_move. rewrite (lookup_some n c G W A i key), (remove_of n c G W A i key) by done.
  pose proof (sh_settled _ _ _ _ _ Sh) as [Hlo Hpd].
  assert (dat (moved W hd i) = dat W /\ pd (moved W hd i) = pd W /\ loose (moved W hd i) = loose W
    /\ listed (moved W hd i) ⊆ i :: listed W) as (Ed & Ep & El & Esub).
  { unfold moved, set_lst, lst, listed. destruct (hd =? _), (hd =? SYS_CLEAN_NODE_INDEX); split_and!; try done;
      intros j; simpl; rewrite ?elem_of_cons, ?elem_of_app, ?elem_of_cons, ?elem_of_app, ?elem_of_cons, !rem_in; tauto. }
  assert (l_cons hd (chunk_of c G i) (mkLru (chunk_of c G <$> rem i (dl W)) (chunk_of c G <$> rem i (cl W)) (chunk_of c G <$> rem i (el W)))
    = mkLru (chunk_of c G <$> dl (moved W hd i)) (chunk_of c G <$> cl (moved W hd i)) (chunk_of c G <$> el (moved W hd i))) as ->.
  { unfold l_cons, moved, set_lst, lst. by destruct (hd =? _), (hd =? SYS_CLEAN_NODE_INDEX). }
  apply (shows_step n c G W A); rewrite ?Ed, ?Ep, ?El; try done.
  - intros j Hj. apply Esub, elem_of_cons in Hj as [->|Hj]; [done|by apply (sh_listed _ _ _ _ _ Sh)].
  - apply moves_kept; [done|]. intros j Hj. eapply dat_live; [apply Sh|done].
Qed.

Lemma touch_sim n c A key : implements n c A ->
  exists b c', adjust_lru key c = Some (b, c') /\ implements n c' (l_touch (ks c) key A) /\ ks c' = ks c
  /\ b = bool_decide (is_Some (l_lookup (ks c) key A)).
Proof.
  intros (G & W & Sh). pose proof Sh as [Pi [Hlo Hpd] Hl _ _ EA].
  destruct (adjust_lru_spec c G W key Pi Hlo Hpd) as (b & c' & E & [(-> & -> & Hno)|(-> & i & Hi & Hh & Pi' & Mv)]);
    eexists _, _; (split; [exact E|]).
  - unfold l_touch, l_move. rewrite (lookup_none n c G W A key) by done. split_and!; [by exists G, W|done|done].
  - rewrite (lookup_some n c G W A i key) by done. split_and!; [|by rewrite (mv_rest _ _ _ Mv)|by rewrite bool_decide_true by eauto].
    exists G, (moved W SYS_CLEAN_NODE_INDEX i). by apply move_shows.
Qed.

(** Evicting the [k] oldest nodes. *)
Lemma evict_shows n c G W A k c' G' : shows n c G W A -> pinv c' G' (forget_all W (take k (reverse (cl W)))) ->
  data_kept c G c' G' (dat (forget_all W (take k (reverse (cl W))))) ->
  shows n c' G' (forget_all W (take k (reverse (cl W)))) (l_evict k A).
Proof.
  intros Sh Pi' K. set (v := take k (reverse (cl W))) in *. destruct (forget_all_lists W v) as (E1 & E2 & E3 & E4 & E5).
  pose proof (sh_settled _ _ _ _ _ Sh) as [Hlo Hpd].
  pose proof (pl_nodup _ _ _ (pi_lru _ _ _ (sh_inv _ _ _ _ _ Sh))) as Hn. unfold listed in Hn.
  rewrite Hlo, app_nil_r, NoDup_app in Hn. destruct Hn as (_ & _ & Hn). rewrite NoDup_app in Hn. destruct Hn as (_ & Hdd & Hn).
  rewrite NoDup_app in Hn. destruct Hn as (Hnc & Hce & _).
  assert (forall j, j ∈ v -> j ∈ cl W) as Hv by (intros j Hj; apply elem_of_reverse; by eapply elem_of_take in Hj as (? & ? & _); eapply list_elem_of_lookup_2).
  assert (forall j, j ∈ v -> j ∉ dl W) as Hd1 by (intros j Hj Hx; apply (Hdd j Hx), elem_of_app; left; auto).
  assert (forall j, j ∈ v -> j ∉ el W) as Hd3 by (intros j Hj Hx; by apply (Hce j (Hv j Hj))).
  rewrite rem_all_none in E1, E3 by done. unfold v in E2. rewrite rem_all_old in E2 by done. fold v in E2.
  assert (l_evict k A = mkLru (chunk_of c G <$> dl (forget_all W v)) (chunk_of c G <$> cl (forget_all W v)) (chunk_of c G <$> el (forget_all W v))) as ->.
  { rewrite (sh_abs _ _ _ _ _ Sh), E1, E2, E3. unfold l_evict, lists_of. simpl. by rewrite length_fmap, fmap_take. }
  eapply (shows_step n c G W A); try done.
  - rewrite E4, E5, Hlo, Hpd. split; [done|]. by apply rem_all_none; intros ? _ ?%not_elem_of_nil.
  - intros j. rewrite forget_all_dat. tauto.
  - intros j. unfold listed. rewrite E1, E2, E3, forget_all_dat. intros Hj.
    pose proof (sh_listed _ _ _ _ _ Sh j) as Hl. unfold listed in Hl. rewrite !elem_of_app in Hl, Hj.
    assert (j ∈ take (length (cl W) - k) (cl W) -> j ∈ cl W) as Ht by (intros Hx; apply elem_of_take in Hx as (? & ? & _); by eapply list_elem_of_lookup_2).
    split; [tauto|]. intros Hjv. pose proof (Hd1 j Hjv). pose proof (Hd3 j Hjv). destruct Hj as [?|[Hj|?]]; [done| |done].
    unfold v in Hjv. rewrite <- rem_all_old, rem_all_in in Hj by done. tauto.
Qed.

Lemma evict_sim n c A k : implements n c A ->
  exists c', pre_purge_nodes k NullNode c = Some (Z.min (Z.max k 0) (Z.of_nat (length (l_clean A))), c')
  /\ implements n c' (l_evict (Z.to_nat k) A) /\ ks c' = ks c.
Proof.
  intros (G & W & Sh). pose proof Sh as [Pi [Hlo Hpd] Hl _ _ EA].
  destruct (pre_purge_nodes_spec c G W k NullNode (-1) Pi Hlo) as (c' & G' & E & Pi' & K & _);
    [intros i Hi; apply Hl; unfold listed; rewrite !elem_of_app; tauto|by left|].
  assert (victims (-1) (Z.to_nat k) (cl W) = take (Z.to_nat k) (reverse (cl W))) as Ev.
  { unfold victims. apply filter_ext_id. intros i Hi. apply elem_of_take in Hi as (? & Hi & _).
    apply list_elem_of_lookup_2 in Hi. rewrite elem_of_reverse in Hi. assert (live c G i) as [? _]; [|lia].
    apply (pl_live _ _ _ (pi_lru _ _ _ Pi)). unfold listed. rewrite !elem_of_app. tauto. }
  rewrite Ev in E, Pi', K. exists c'. split_and!.
  - rewrite E, length_take, length_reverse, EA. simpl. rewrite length_fmap. do 2 f_equal. lia.
  - eexists _, _. by apply (evict_shows n c G W A).
  - by destruct K as [_ (-> & _) _].
Qed.

(** *** A new row *)

Lemma forget_allocated c G W i s : pinv c G W -> pd W = [] -> loose W = [] -> ~ live c G i -> 0 <= s < hh_size (hash_t (rest c)) ->
  table_eq (hh_size (hash_t (rest c))) (forget (allocated_table W s i) i) W.
Proof.
  intros Pi Hpd Hlo Hi Hs. assert (forall l, (forall j, j ∈ l -> live c G j) -> rem i l = l) as Hr by (intros l Hl; apply rem_none; auto).
  assert (forall j, j ∈ listed W -> live c G j) as HL by (intros j Hj; apply (pl_live _ _ _ (pi_lru _ _ _ Pi)); rewrite !elem_of_app; tauto).
  unfold listed in HL. split; simpl.
  - intros x Hx. unfold upd_ch. destruct (chain_facts c G W x Pi Hx) as (_ & Hc & _). rewrite Forall_forall in Hc.
    destruct (Z.eqb_spec x s) as [->|]; rewrite ?rem_same, Hr; done.
  - rewrite rem_same, !Hr; [done|..]; intros j Hj; try (apply HL; rewrite !elem_of_app; tauto). by eapply dat_live.
  - by rewrite rem_same, Hpd.
Qed.

(** Without memory for the chunk the new node goes again. *)
Lemma insert_undone n c G W A key i c1 G1 a : shows n c G W A -> data_kept c G c1 G1 (dat W) -> ~ live c G i ->
  pinv c1 G1 (allocated_table W (home c key) i) ->
  ginv (set_alloc a c1) G1 (owned c1 G1 (allocated_table W (home c key) i)) ->
  exists c', purge_node key (nd G1 i) (set_alloc a c1) = Some (0, c') /\ implements n c' A /\ ks c' = ks c.
Proof.
  intros Sh K1 Hni Pi1 J. pose proof Sh as [Pi [Hlo Hpd] Hl Hu Hn EA]. pose proof (home_range _ _ _ key (pi_hash _ _ _ Pi)) as Hs.
  set (s := home c key) in *. set (W1 := allocated_table W s i) in *. pose proof (pinv_alloc _ _ _ _ Pi1 J) as Pi2.
  assert (home (set_alloc a c1) key = s) as Eh by exact (proj2 (dk_home _ _ _ _ _ K1) key).
  destruct (purge_node_spec (set_alloc a c1) G1 W1 key i Pi2) as (c' & G' & E & Pi' & K' & _); [done|left| |].
  { rewrite Eh. simpl. unfold upd_ch. rewrite Z.eqb_refl. left. }
  exists c'. assert (data_kept c G c' G' (dat W)) as K by (eapply data_kept_trans; [|exact K']; destruct K1; by split).
  split_and!; [done| |by destruct K as [_ (-> & _) _]]. exists G', W. rewrite EA. apply (shows_step n c G W A); try done.
  eapply pinv_table; [|exact Pi']. destruct (dk_home _ _ _ _ _ K) as [-> _]. by eapply forget_allocated.
Qed.

(** The new row is the newest of the clean list. *)
Lemma insert_done n c G W A key i c1 G1 h a m d : shows n c G W A -> data_kept c G c1 G1 (dat W) -> ~ live c G i ->
  pinv c1 G1 (allocated_table W (home c key) i) -> l_lookup (ks c) key A = None -> data_type_ d = DATA_TYPE_RAW ->
  has_key (ks c) key d = true -> h ≠ INVALID_HANDLE -> hp G1 !! h = None ->
  ginv (set_alloc a c1) (with_heap G1 (<[h := m]> (hp G1))) (h :: owned c1 G1 (allocated_table W (home c key) i)) ->
  implements n (attach G1 i h a d c1) (l_push d A).
Proof.
  intros Sh K1 Hni Pi1 Hno Hd Hk Hh Hf J. pose proof Sh as [Pi [Hlo Hpd] Hl Hu Hn EA]. pose proof (home_range _ _ _ key (pi_hash _ _ _ Pi)) as Hs.
  destruct (ph_fixed _ _ _ (pi_hash _ _ _ Pi)) as [Efx Hks]. pose proof Hk as Hk'. apply Z.eqb_eq in Hk'.
  set (s := home c key) in *. set (W1 := allocated_table W s i) in *. assert (i ∈ pd W1) as Hip by left.
  assert (home c1 (mem_of (p_key_ d)) = s) as Eh.
  { rewrite (proj2 (dk_home _ _ _ _ _ K1)). unfold s, home, slot_of.
    destruct (slots_same (hh_size (hash_t (rest c))) (hh_fixedsize (hash_t (rest c))) key (mem_of (p_key_ d))) as [-> ->]; [by rewrite Efx|by rewrite Efx|done]. }
  assert (pinv (attach G1 i h a d c1) (with_heap G1 (<[h := m]> (hp G1))) (attached_table W1 i)) as Pi2.
  { apply attach_inv; try done. rewrite Eh. simpl. unfold upd_ch. rewrite Z.eqb_refl. left. }
  destruct (attach_kept c1 G1 W1 i h a m d Pi1 Hip Hf) as [K2 Hv]. set (c2 := attach G1 i h a d c1) in *. set (G2 := with_heap G1 _) in *.
  assert (data_kept c G c2 G2 (dat W)) as K by (by eapply data_kept_trans).
  assert (chunk_of c2 G2 i = d) as Ei by (unfold chunk_of; rewrite Hv; simpl; by rewrite lookup_insert_eq).
  assert (ks c2 = ks c) as Eks by (by destruct K as [_ (-> & _) _]).
  assert (forall j key', j ∈ dat W -> holds c2 G2 i key' -> holds c2 G2 j key' -> False) as Hnew.
  { intros j key' Hj Hx Hy. apply has_key_holds in Hx. rewrite Ei, Eks in Hx. apply Z.eqb_eq in Hx. apply (kept_holds _ _ _ _ _ _ _ K Hj) in Hy.
    assert (holds c G j key) as Hjk.
    { unfold holds in *. eapply key_cmp_trans; [lia| |exact Hy]. eapply key_cmp_trans; [lia|exact Hk'|]. by apply key_cmp_sym; [lia|]. }
    rewrite (lookup_some n c G W A j key Sh Hj Hjk) in Hno. done. }
  exists G2, (attached_table W1 i). split; try done.
  - split; [done|]. simpl. by rewrite rem_same, Hpd.
  - intros j. unfold listed. simpl. pose proof (Hl j) as Hlj. unfold listed in Hlj.
    rewrite elem_of_app, !elem_of_cons, elem_of_app. rewrite !elem_of_app in Hlj. tauto.
  - intros x y key' Hx Hy. simpl in Hx, Hy. apply elem_of_cons in Hx as [->|Hx], Hy as [->|Hy]; [done| | |].
    + intros. exfalso. by apply (Hnew y key').
    + intros. exfalso. by apply (Hnew x key').
    + rewrite !(kept_holds _ _ _ _ _ _ key' K) by done. by apply Hu.
  - by destruct K as [_ (_ & _ & ->) _].
  - assert (forall l : list Z, (forall j, j ∈ l -> j ∈ listed W) -> chunk_of c2 G2 <$> l = chunk_of c G <$> l) as He.
    { intros l Hsub. apply list_fmap_ext. intros k j Hj. eapply kept_chunk; [exact K|]. apply Hl, Hsub. by eapply list_elem_of_lookup_2. }
    rewrite EA. unfold lists_of, l_push, listed in *. simpl. rewrite Ei, !He; [done|..]; intros j Hj; rewrite !elem_of_app; tauto.
Qed.

Lemma insert_sim n c A key size d : implements n c A -> has_room n c = true -> l_lookup (ks c) key A = None ->
  data_type_ d = DATA_TYPE_RAW -> has_key (ks c) key d = true -> 0 <= size < 2 ^ 32 ->
  exists r c', insert_row key size d c = Some (r, c') /\ ks c' = ks c
  /\ (r = 0 /\ implements n c' (l_push d A) \/ r = -1 /\ implements n c' A).
Proof.
  intros (G & W & Sh) Hr Hno Hd Hk Hsz. pose proof Sh as [Pi [Hlo Hpd] Hl Hu Hn EA].
  destruct (cache_allocation_spec c G W key Pi Hlo (has_room_room _ _ _ _ _ Sh Hr)) as (x & c1 & G1 & E1 & K1 & _ & O1).
  unfold insert_row. erewrite run_bind by exact E1. destruct O1 as [(-> & _ & Pi1)|(i & -> & Hni & Pi1)].
  { exists (-1), c1. split_and!; [done|by destruct K1 as [_ (-> & _) _]|]. right. split; [done|]. exists G1, W. rewrite EA.
    by apply (shows_step n c G W A). }
  assert (live c1 G1 i) as Hlv by (eapply on_chain_live; [apply Pi1|]; apply elem_of_app; left; left).
  rewrite (nd_not_null c1 G1 _ i (pi_inv _ _ _ Pi1) Hlv).
  destruct (ginv_malloc c1 G1 _ size (pi_inv _ _ _ Pi1) Hsz) as (h & a & Em & O).
  erewrite run_bind by (unfold M_MALLOC; by rewrite Em). destruct O as [(-> & J)|(Hh & Hf & m & J)].
  - rewrite Z.eqb_refl. destruct (insert_undone n c G W A key i c1 G1 a) as (c' & E & Im & Ek); try done.
    exists (-1), c'. split_and!; [by erewrite run_bind by exact E|done|by right].
  - destruct (Z.eqb_spec h INVALID_HANDLE); [done|]. exists 0, (attach G1 i h a d c1). split_and!.
    + assert (addressing (live c1 G1) (nd G1) (set_alloc a c1)) as Ad by exact (live_addressing _ _ _ J).
      erewrite run_bind by (by eapply (upd_attr_run (live c1 G1))). by erewrite run_bind by apply run_modify.
    + destruct K1 as [_ (<- & _) _]. done.
    + left. split; [done|]. by eapply insert_done.
Qed.

(** ** Sequences *)

Lemma lookup_row_sim n c A key : implements n c A -> lookup_row key c = Some (l_lookup (ks c) key A, c).
Proof.
  intros Im. unfold lookup_row, pond. erewrite run_bind by apply run_gets.
  destruct (find_sim n c A key Im) as (x & E & [(-> & ->)|(h & d & Hx & Eh & Ed & ->)]); erewrite run_bind by exact E; [done|].
  rewrite Hx. erewrite run_bind by exact Eh. by erewrite run_bind by (by apply get_chunk_run).
Qed.

Lemma valid_insert k key size d : valid k (Insert key size d) = true ->
  data_type_ d = DATA_TYPE_RAW /\ has_key k key d = true /\ 0 <= size < 2 ^ 32.
Proof. simpl. rewrite !andb_true_iff, Z.eqb_eq, Z.leb_le, Z.ltb_lt. tauto. Qed.

Lemma exec_sim n c A q : implements n c A -> has_room n c = true -> valid (ks c) q = true ->
  exists r c' A', exec q c = Some (r, c') /\ l_step (ks c) A q r A' /\ implements n c' A' /\ ks c' = ks c.
Proof.
  intros Im Hr Hv. destruct q as [key|key size d|key|key|count]; simpl.
  - eexists _, _, _. split_and!; [by erewrite run_bind by by eapply lookup_row_sim|constructor|done|done].
  - apply valid_insert in Hv as (Hd & Hk & Hs). erewrite run_bind by by eapply lookup_row_sim.
    destruct (l_lookup (ks c) key A) as [e|] eqn:E; [eexists _, _, _; split_and!; [done|by econstructor|done|done]|].
    destruct (insert_sim n c A key size d) as (r & c' & E' & Ek & O); try done. erewrite run_bind by exact E'.
    destruct O as [[-> Im']|[-> Im']]; eexists _, _, _; split_and!; try done; by constructor.
  - destruct (purge_sim n c A key Im) as (c' & E & Im' & Ek). eexists _, _, _. split_and!; [by erewrite run_bind by exact E|constructor|done|done].
  - destruct (touch_sim n c A key Im) as (b & c' & E & Im' & Ek & ->). eexists _, _, _.
    split_and!; [by erewrite run_bind by exact E|constructor|done|done].
  - destruct (evict_sim n c A count Im) as (c' & E & Im' & Ek). eexists _, _, _. split_and!; [by erewrite run_bind by exact E|constructor|done|done].
Qed.

(** The states reached by valid requests, with the answers given. *)
Inductive reach n c : list (request * answer) -> Cache S BufferPond -> Prop :=
| reach_nil : reach n c [] c
| reach_snoc t c1 q r c2 : reach n c t c1 -> has_room n c1 = true -> valid (ks c1) q = true -> exec q c1 = Some (r, c2) ->
    reach n c (t ++ [(q, r)]) c2.

Lemma reach_sim n c A t c' : implements n c A -> reach n c t c' -> ks c' = ks c /\ exists A', l_run (ks c) A t A' /\ implements n c' A'.
Proof.
  intros Im. induction 1 as [|t c1 q r c2 _ (Ek & A1 & R1 & Im1) Hr Hv E]; [split; [done|]; exists A; by split; [constructor|]|].
  destruct (exec_sim n c1 A1 q Im1 Hr Hv) as (r' & c2' & A2 & E' & St & Im2 & Ek2). rewrite E in E'. injection E' as <- <-.
  split; [congruence|]. exists A2. split; [|done]. rewrite Ek in St. by econstructor.
Qed.

(** Formatting gives the empty cache. *)
Lemma init_sim c (Hp : heap) mem_size hsize fixedsize : m_rep (alloc c) Hp -> blank_pond c fixedsize ->
  0 <= mem_size <= 2 ^ 36 -> 0 < hsize < 2 ^ 30 - 4 ->
  exists r c', mem_init mem_size hsize fixedsize c = Some (r, c')
  /\ (r = 0 -> implements (index_count mem_size) c' (mkLru [] [] []) /\ (step (node_group c) <= 65534 -> has_room (index_count mem_size) c' = true)).
Proof.
  intros R B Hm Hh. destruct (mem_init_spec c Hp mem_size hsize fixedsize R B Hm Hh) as (r & c' & E & O). exists r, c'. split; [done|].
  intros Hr. destruct (O Hr) as (G & Pi & Hl & Hs & Es). split.
  - exists G, empty_table. split; try done. by intros i j key ?%not_elem_of_nil.
  - intros Hst. unfold has_room. apply Z.ltb_lt. rewrite (gn_used_ng _ _ (gi_count _ _ _ (pi_inv _ _ _ Pi))), Hl, Es.
    assert (1 <= index_count mem_size) by (unfold index_count; zdm). lia.
Qed.

(** [buffer_adjust_lru] *)
Lemma adjust_sim n c A keys : implements n c A ->
  exists c', buffer_adjust_lru keys c = Some ((l_adjust (ks c) keys A).1, c') /\ implements n c' (l_adjust (ks c) keys A).2 /\ ks c' = ks c.
Proof.
  revert c A. induction keys as [|key keys IH]; intros c A Im; [by exists c|]. simpl.
  destruct (touch_sim n c A key Im) as (b & c1 & E & Im1 & Ek & Eb). erewrite run_bind by exact E. unfold l_touch, l_move in Im1 |- *.
  destruct (l_lookup (ks c) key A) as [d|] eqn:El; rewrite Eb.
  - rewrite bool_decide_true by eauto. destruct (IH c1 _ Im1) as (c' & E' & Im' & Ek'). rewrite Ek in *. by exists c'.
  - rewrite bool_decide_false by (by intros []). by exists c1.
Qed.

End Refine.
