(* ===== verification/TransactionSpec.v ===== *)
(** * What a transaction does to the cache

    A request that found its node and ends its transaction moves the node to
    the front of the list it belongs to: clean for a read, dirty for an
    asynchronous write, empty for a node without rows. *)

From S2P Require Import Prelude DList PtMalloc PtMallocSpec MallocBase Jenkins DtcHash Node Pond.
From S2P Require Import NodeLists NodeGroups NodeAlloc NodeOps NodeRun NodeInit.
From S2P Require Import PondChains PondInv PondOps PondSpec PondPurge PondInit Transaction CacheSpec.

(** A request that only reads: find the node, ask for an LRU update at [level],
    end the transaction under the configured [ul]. *)
Definition read_request {S} `{MallocBase S} (level ul : Z) (key : mem) : prog S BufferPond CacheTransaction :=
  t ← transaction_find_node false key (mkTxn 0 0 false 0); t ← transaction_update_lru false level t; transaction_end ul t.

(** A request that changes the node it found asynchronously. *)
Definition write_request {S} `{MallocBase S} (ul : Z) (key : mem) : prog S BufferPond CacheTransaction :=
  t ← transaction_find_node false key (mkTxn 0 0 false 0);
  t ← (if node_status t =? DTC_CODE_NODE_HIT then transaction_update_lru true LRU_WRITE t else mret t);
  transaction_end ul t.

(** The dirty bit and the number of rows behind a key. *)
Definition node_state {S} `{MallocBase S} (key : mem) : prog S BufferPond (bool * Z) :=
  p ← pond; n ← cache_find key (g_target_new_hash p); d ← is_dirty n; r ← node_rows_count n; mret (d, r).

Section Transactions.

Context {S : Type} `{MallocLaws S}.

Implicit Types (c : Cache S BufferPond) (G : ghost) (W : table) (A : lru_cache) (i j h n : Z) (key : mem) (t : CacheTransaction).

Abbreviation attr c G := (atr (nd G) c).
Abbreviation vd c G i := (a_vd (atr (nd G) c i)).
Abbreviation ks c := (key_size (rest c)).

(** ** Steps that leave the lists alone *)

Lemma aside_shows n c c' G W A : aside c c' -> shows n c G W A -> shows n c' G W A.
Proof.
  intros As Sh. rewrite (sh_abs _ _ _ _ _ Sh). apply (shows_step n c G W A); try done; try apply Sh.
  - eapply aside_pinv; [exact As|apply Sh].
  - by apply aside_kept.
Qed.

Lemma aside_pond c f : aside c (on_rest f c) -> exists c', upd_pond f c = Some (tt, c') /\ aside c c' /\ rest c' = f (rest c).
Proof. intros As. by exists (on_rest f c). Qed.

Lemma aside_transaction c m b log : aside c (on_rest (fun p => set_transaction m b log p) c).
Proof. pose proof (aside_refl c) as [????[]]. by split. Qed.

(** The dirty bit of a node. *)
Lemma flag_inv c G W i b : pinv c G W -> live c G i -> pinv (set_at (nd G) i (set_dirty_bit b) c) G W.
Proof.
  intros Pi Hi. pose proof Pi as [J P Q D]. pose proof (live_addressing _ _ _ J) as Ad. set (c' := set_at _ _ _ _).
  assert (forall j, live c G j -> a_next (attr c' G j) = a_next (attr c G j) /\ a_prev (attr c' G j) = a_prev (attr c G j)
    /\ a_lnext (attr c' G j) = a_lnext (attr c G j) /\ vd c' G j = vd c G j) as Hat.
  { intros j Hj. unfold c'. rewrite (atr_set (live c G)) by done. by destruct (Z.eqb_spec j i) as [->|]. }
  assert (forall j, j ∈ dat W -> vd c' G j = vd c G j) as Hv by (intros j Hj; apply Hat; by eapply dat_live).
  assert ((fun j => vd c' G j) <$> dat W = (fun j => vd c G j) <$> dat W) as Ef.
  { apply list_fmap_ext. intros k j Hj. apply Hv. by eapply list_elem_of_lookup_2. }
  split.
  - unfold owned. change (rest c') with (rest c). rewrite Ef. by apply ginv_set.
  - destruct P as [P1 P2 P3 P4 P5 P6 P7 P8]. split; try done. intros s Hs. eapply chain_ext; [|by apply P4].
    intros j Hj. apply Hat. eapply on_chain_live; [done|]. rewrite <- P5. apply list_elem_of_bind. exists s. split; [done|by apply in_slots].
  - destruct Q as [Q1 Q2 Q3 Q4 Q5]. split; try done. intros hd Hh. eapply lru_move; [|by apply Q1].
    intros j Hj. assert (live c G j) as Hjl by (by eapply (lru_V (live c G)); [apply Q1|]). split; [done|]. destruct (Hat j Hjl) as (_ & ? & ? & _). done.
  - destruct D as [D1 D2]. split.
    + intros j Hj. destruct (D1 j Hj) as (d & Hd & Hr & Hin). exists d. by rewrite Hv.
    + intros h Hh. rewrite Ef. by apply D2.
Qed.

Lemma flag_shows n c G W A i b : shows n c G W A -> live c G i -> shows n (set_at (nd G) i (set_dirty_bit b) c) G W A.
Proof.
  intros Sh Hi. pose proof (sh_inv _ _ _ _ _ Sh) as Pi. rewrite (sh_abs _ _ _ _ _ Sh).
  apply (shows_step n c G W A); try done; try apply Sh; [by apply flag_inv|]. split; try done.
  intros j Hj. rewrite (atr_set (live c G)); [by destruct (Z.eqb_spec j i) as [->|]|eapply live_addressing, Pi|done|by eapply dat_live].
Qed.

(** ** Finding the node *)

(** The rows of a node, as [node_rows_count] reports them. *)
Definition rows_of c G i : Z := sext 32 (wrap 32 (row_count_ (chunk_of c G i))).

Lemma is_dirty_run c G own i : ginv c G own -> live c G i -> is_dirty (nd G i) c = Some (a_dirty (attr c G i), c).
Proof. intros J Hi. unfold is_dirty. by erewrite run_bind by (by eapply (get_attr_run (live c G)); [eapply live_addressing|]). Qed.

Lemma rows_run n c G W A i : shows n c G W A -> i ∈ dat W -> node_rows_count (nd G i) c = Some (rows_of c G i, c).
Proof.
  intros Sh Hi. pose proof (sh_inv _ _ _ _ _ Sh) as Pi. destruct (pt_chunk _ _ _ (pi_data _ _ _ Pi) i Hi) as (d & Hd & _).
  rewrite (node_rows_count_run c G W i d) by done. unfold rows_of, chunk_of. by rewrite Hd.
Qed.

Lemma aside_same c c' G i : aside c c' -> attr c' G i = attr c G i /\ chunk_of c' G i = chunk_of c G i.
Proof.
  intros As. pose proof (aside_attr c c' G i As) as Ea. split; [done|]. unfold chunk_of. rewrite Ea.
  by destruct (as_rest _ _ As) as (_ & _ & -> & _).
Qed.

Lemma transaction_find_spec n c G W A key t : shows n c G W A ->
  exists t' c', transaction_find_node false key t c = Some (t', c') /\ aside c c' /\ empty_limit (rest c') = empty_limit (rest c) /\ node_group c' = node_group c
  /\ (l_lookup (ks c) key A = None /\ t' = set_status DTC_CODE_NODE_NOTFOUND t /\ transaction_node (rest c') = NullNode
      \/ exists i, i ∈ dat W /\ holds c G i key /\ transaction_node (rest c') = nd G i
        /\ node_empty (rest c') = negb (a_dirty (attr c G i)) && (rows_of c G i =? 0)
        /\ t' = mkTxn (rows_of c G i) DTC_CODE_NODE_HIT (a_dirty (attr c G i)) (lru_update t)).
Proof.
  intros Sh. pose proof Sh as [Pi [Hlo Hpd] _ _ _ _]. unfold transaction_find_node. erewrite run_bind by apply run_gets.
  rewrite (ph_mode _ _ _ (pi_hash _ _ _ Pi)). cbv beta iota.
  destruct (cache_find_spec c G W key Pi Hpd) as (x & E & O).
  set (c1 := on_rest (fun p => set_transaction x (node_empty p) (purge_log p) p) c).
  assert (aside c c1) as As by (pose proof (aside_refl c) as [????[]]; by split).
  erewrite run_bind; [|erewrite run_bind by exact E; by erewrite run_bind by apply run_modify].
  destruct O as [(-> & Hno)|(i & -> & Hi & Hh)].
  - eexists _, c1. split_and!; [done|done|done|done|]. left. split_and!; [by eapply lookup_none|done|done].
  - pose proof (dat_live _ _ _ _ Pi Hi) as Hlv. pose proof (aside_shows _ _ _ _ _ _ As Sh) as Sh1. pose proof (sh_inv _ _ _ _ _ Sh1) as Pi1.
    destruct (aside_same c c1 G i As) as [Ea Ec]. assert (rows_of c1 G i = rows_of c G i) as Er by (unfold rows_of; by rewrite Ec).
    rewrite (nd_not_null c G _ i (pi_inv _ _ _ Pi) Hlv).
    erewrite run_bind by exact (is_dirty_run c1 G _ i (pi_inv _ _ _ Pi1) (dat_live _ _ _ _ Pi1 Hi)).
    erewrite run_bind by exact (rows_run n c1 G W A i Sh1 Hi). rewrite Er, Ea.
    erewrite run_bind by apply run_modify. eexists _, _. split_and!; [done| |done|done|].
    + pose proof (aside_refl c) as [????[]]. by split.
    + right. by exists i.
Qed.

(** ** Ending it *)

Lemma txn_Free_run c : exists c', txn_Free c = Some (mkTxn 0 0 false 0, c') /\ aside c c' /\ transaction_node (rest c') = NullNode
  /\ node_empty (rest c') = false /\ node_group c' = node_group c.
Proof.
  eexists. split; [reflexivity|]. split_and!; [|done|done|done]. pose proof (aside_refl c) as [????[]]. by split.
Qed.

(** The list a clean node goes to. *)
Definition target_list c G i : Z :=
  if (rows_of c G i =? 0) && negb (empty_limit (rest c) =? 0) then SYS_EMPTY_NODE_INDEX else SYS_CLEAN_NODE_INDEX.

(** A clean node whose emptiness did not change. *)
Lemma end_spec n c G W A i key t ul : shows n c G W A -> i ∈ dat W -> holds c G i key -> transaction_node (rest c) = nd G i ->
  key_dirty t = false -> a_dirty (attr c G i) = false -> node_empty (rest c) = (rows_of c G i =? 0) ->
  exists c', transaction_end ul t c = Some (mkTxn 0 0 false 0, c') /\ transaction_node (rest c') = NullNode
  /\ implements n c' (if ul <? lru_update t then l_move (ks c) (target_list c G i) key A else A).
Proof.
  intros Sh Hi Hh Et Hk Hd Hne. pose proof Sh as [Pi [Hlo Hpd] _ _ _ _]. pose proof (dat_live _ _ _ _ Pi Hi) as Hlv.
  unfold transaction_end. erewrite run_bind by apply run_gets. rewrite Et, Hk, (nd_not_null c G _ i (pi_inv _ _ _ Pi) Hlv). cbn [orb].
  erewrite run_bind by (erewrite run_bind by (eapply is_dirty_run; [apply Pi|done]); done). rewrite Hd. cbn [negb].
  assert (target_list c G i ∈ heads) as Ht by (unfold target_list, heads; case_match; rewrite !elem_of_cons; tauto).
  destruct (move_spec c G W _ i Pi Hlo Ht (dat_listed _ _ _ _ Pi Hlo Hi)) as (c1 & c2 & E1 & E2 & Pi2 & Mv & Er1).
  destruct (txn_Free_run (if ul <? lru_update t then c2 else c)) as (c3 & E3 & As & Hn & _ & _).
  exists c3. split_and!; [|done|].
  - erewrite run_bind; [exact E3|]. erewrite run_bind by by eapply rows_run. rewrite Hne, eqb_reflx, orb_false_r.
    destruct (ul <? lru_update t); [|done]. unfold target_list in E2. destruct (rows_of c G i =? 0); simpl in E2.
    + erewrite run_bind by exact E1. erewrite run_bind; [done|]. unfold pond_insert_to_empty_lru. erewrite run_bind by apply run_gets.
      rewrite Er1. by destruct (empty_limit (rest c) =? 0).
    + erewrite run_bind by exact E1. by erewrite run_bind by exact E2.
  - destruct (ul <? lru_update t).
    + eexists G, _. eapply aside_shows; [exact As|]. by apply move_shows.
    + exists G, W. by eapply aside_shows.
Qed.

(** A node that is dirty, or was, is left where it is. *)
Lemma end_dirty n c G W A i t ul : shows n c G W A -> i ∈ dat W -> transaction_node (rest c) = nd G i ->
  key_dirty t = true \/ a_dirty (attr c G i) = true ->
  exists c', transaction_end ul t c = Some (mkTxn 0 0 false 0, c') /\ aside c c' /\ transaction_node (rest c') = NullNode
  /\ node_group c' = node_group c.
Proof.
  intros Sh Hi Et Hd. pose proof (sh_inv _ _ _ _ _ Sh) as Pi. pose proof (dat_live _ _ _ _ Pi Hi) as Hlv.
  destruct (txn_Free_run c) as (c' & E & As & Hn & _ & Eg). exists c'. split_and!; [|done|done|done].
  unfold transaction_end. erewrite run_bind by apply run_gets. rewrite Et, (nd_not_null c G _ i (pi_inv _ _ _ Pi) Hlv). cbn [orb].
  erewrite (run_bind _ _ _ false); [by erewrite run_bind by done|]. destruct (key_dirty t); [done|].
  erewrite run_bind by (eapply is_dirty_run; [apply Pi|done]). by destruct Hd as [| ->].
Qed.

Lemma end_none c t ul : transaction_node (rest c) = NullNode ->
  exists c', transaction_end ul t c = Some (mkTxn 0 0 false 0, c') /\ aside c c' /\ transaction_node (rest c') = NullNode.
Proof.
  intros Et. destruct (txn_Free_run c) as (c' & E & As & Hn & _). exists c'. split_and!; [|done|done].
  unfold transaction_end. erewrite run_bind by apply run_gets. by rewrite Et.
Qed.

(** ** The asynchronous write *)

Lemma inc_dirty_node_run c v : nodegroup_info_ (node_group c) ≠ INVALID_HANDLE ->
  exists c', inc_dirty_node v c = Some (tt, c') /\ aside c c' /\ rest c' = rest c
  /\ ni_dirty_node (ni (node_group c')) = wrap 32 (ni_dirty_node (ni (node_group c)) + v).
Proof.
  intros Hi. eexists. split; [by apply upd_info_run|]. split_and!; [|done|done]. pose proof (aside_refl c) as [????[]]. split; try done.
  by eexists _, _, _.
Qed.

(** The end of [transaction_update_lru]: the node is not empty any more. *)
Lemma leave_empty_run c : exists c',
  (if node_empty (rest c) then dec_empty_node;; set_node_empty false else mret tt) c = Some (tt, c')
  /\ aside c c' /\ transaction_node (rest c') = transaction_node (rest c) /\ node_empty (rest c') = false
  /\ ni (node_group c') = ni (node_group c).
Proof.
  destruct (node_empty (rest c)) eqn:E.
  - unfold dec_empty_node, pond. destruct (empty_limit (rest c) =? 0) eqn:Ez; eexists; (split;
      [erewrite run_bind; [reflexivity|]; erewrite run_bind by apply run_gets; by rewrite Ez|]);
      (split_and!; [pose proof (aside_refl c) as [????[]]; by split|done|done|done]).
  - exists c. split_and!; [done|apply aside_refl|done|done|done].
Qed.

Lemma async_spec n c G W A i key t level : shows n c G W A -> i ∈ dat W -> holds c G i key -> transaction_node (rest c) = nd G i ->
  key_dirty t = false ->
  exists c' W', transaction_update_lru true level t c = Some (set_lru_update LRU_NONE t, c')
  /\ shows n c' G W' (l_move (ks c) SYS_DIRTY_NODE_INDEX key A) /\ i ∈ dat W' /\ holds c' G i key
  /\ transaction_node (rest c') = nd G i /\ a_dirty (attr c' G i) = true /\ chunk_of c' G i = chunk_of c G i
  /\ ni_dirty_node (ni (node_group c')) = wrap 32 (ni_dirty_node (ni (node_group c)) + 1).
Proof.
  intros Sh Hi Hh Et Hk. pose proof (sh_inv _ _ _ _ _ Sh) as Pi. pose proof (dat_live _ _ _ _ Pi Hi) as Hlv.
  set (c1 := set_at (nd G) i (set_dirty_bit true) c). pose proof (flag_shows n c G W A i true Sh Hlv) as Sh1. fold c1 in Sh1.
  pose proof (sh_inv _ _ _ _ _ Sh1) as Pi1. pose proof (live_addressing _ _ _ (pi_inv _ _ _ Pi)) as Ad.
  assert (a_dirty (attr c1 G i) = true) as Hd1 by (unfold c1; by rewrite (atr_set (live c G)), Z.eqb_refl).
  assert (chunk_of c1 G i = chunk_of c G i) as Ec1 by (unfold chunk_of, c1; by rewrite (atr_set (live c G)), Z.eqb_refl).
  destruct (inc_dirty_node_run c1 1 (info_ok _ _ _ Pi1)) as (c2 & E2 & As2 & Er2 & En2).
  pose proof (aside_shows _ _ _ _ _ _ As2 Sh1) as Sh2. pose proof Sh2 as [Pi2 [Hlo Hpd] _ _ _ _]. destruct (aside_same c1 c2 G i As2) as [Ea2 Ec2].
  assert (0 ∈ heads) as H0h by left.
  destruct (move_spec c2 G W 0 i Pi2 Hlo H0h (dat_listed _ _ _ _ Pi2 Hlo Hi)) as (c3 & c4 & E3 & E4 & Pi4 & Mv & _).
  assert (ks c2 = ks c) as Ek2 by (rewrite Er2; done).
  assert (holds c2 G i key) as Hh2 by (apply has_key_holds; rewrite Ek2, Ec2; rewrite Ec1; by apply has_key_holds).
  pose proof (move_shows n c2 G W A 0 i key c4 Sh2 Hi Hh2 Pi4 Mv) as Sh4. rewrite Ek2 in Sh4.
  destruct (leave_empty_run c4) as (c5 & E5 & As5 & Et5 & _ & En5). destruct (aside_same c4 c5 G i As5) as [Ea5 Ec5].
  exists c5, (moved W 0 i). split_and!.
  - unfold transaction_update_lru. rewrite Hk. erewrite run_bind by apply run_gets. rewrite Et.
    erewrite run_bind by (unfold set_dirty; by eapply (upd_attr_run (live c G))). fold c1. erewrite run_bind by exact E2.
    erewrite run_bind by exact E3. erewrite run_bind by exact E4. erewrite run_bind by apply run_gets.
    by erewrite run_bind by exact E5.
  - by eapply aside_shows.
  - done.
  - apply has_key_holds. rewrite Ec5. destruct (as_rest _ _ As5) as (_ & _ & _ & -> & _).
    apply (has_key_holds c4 G i key). by apply (moves_holds c2 G c4 i key Mv (dat_live _ _ _ _ Pi2 Hi)).
  - by rewrite Et5, (mv_rest _ _ _ Mv), Er2.
  - rewrite Ea5. destruct (mv_data _ _ _ Mv i (dat_live _ _ _ _ Pi2 Hi)) as (_ & _ & ->). by rewrite Ea2.
  - rewrite Ec5, <- Ec1, <- Ec2. unfold chunk_of. rewrite (mv_rest _ _ _ Mv).
    by destruct (mv_data _ _ _ Mv i (dat_live _ _ _ _ Pi2 Hi)) as (_ & -> & _).
  - rewrite En5. destruct (mv_group _ _ _ Mv) as (_ & -> & _). exact En2.
Qed.

(** ** Whole requests *)

Lemma node_state_run n c G W A i key : shows n c G W A -> i ∈ dat W -> holds c G i key ->
  node_state key c = Some ((a_dirty (attr c G i), rows_of c G i), c).
Proof.
  intros Sh Hi Hh. pose proof Sh as [Pi [Hlo Hpd] _ Hu _ _]. unfold node_state, pond. erewrite run_bind by apply run_gets.
  destruct (cache_find_spec c G W key Pi Hpd) as (x & E & [(-> & Hno)|(j & -> & Hj & Hh')]); [by destruct (Hno i)|].
  assert (j = i) as -> by (by eapply Hu). erewrite run_bind by exact E.
  erewrite run_bind by (eapply is_dirty_run; [apply Pi|by eapply dat_live]). by erewrite run_bind by by eapply rows_run.
Qed.

Lemma aside_holds c c' G i key : aside c c' -> holds c' G i key <-> holds c G i key.
Proof.
  intros As. rewrite <- !has_key_holds. destruct (aside_same c c' G i As) as [_ ->]. by destruct (as_rest _ _ As) as (_ & _ & _ & -> & _).
Qed.

(** [buffer_adjust_lru] on a node: it goes to the front of the clean list with
    the dirty bit it has. *)
Lemma adjust_keeps_dirty n c A key b rows : implements n c A -> is_Some (l_lookup (ks c) key A) -> node_state key c = Some ((b, rows), c) ->
  exists c', buffer_adjust_lru [key] c = Some (true, c') /\ implements n c' (l_touch (ks c) key A) /\ ks c' = ks c /\ node_state key c' = Some ((b, rows), c').
Proof.
  intros (G & W & Sh) [d Hd] Hs. pose proof Sh as [Pi [Hlo Hpd] _ _ _ _].
  destruct (adjust_lru_spec c G W key Pi Hlo Hpd) as (b' & c' & E & [(-> & -> & Hno)|(-> & i & Hi & Hh & Pi' & Mv)]); [by rewrite (lookup_none n c G W A key) in Hd|].
  pose proof (move_shows n c G W A SYS_CLEAN_NODE_INDEX i key c' Sh Hi Hh Pi' Mv) as Sh'. rewrite (node_state_run n c G W A i key Sh Hi Hh) in Hs. injection Hs as <- <-.
  pose proof (mv_data _ _ _ Mv i (dat_live _ _ _ _ Pi Hi)) as Ed. assert (chunk_of c' G i = chunk_of c G i) as Ec.
  { unfold chunk_of. rewrite (mv_rest _ _ _ Mv). by destruct Ed as (_ & -> & _). }
  exists c'. split_and!; [by cbn [buffer_adjust_lru]; erewrite run_bind by exact E|by exists G, (moved W SYS_CLEAN_NODE_INDEX i)|by rewrite (mv_rest _ _ _ Mv)|].
  rewrite (node_state_run n c' G _ _ i key Sh'); [|done|].
  - unfold rows_of. rewrite Ec. by destruct Ed as (_ & _ & ->).
  - apply has_key_holds. rewrite Ec, (mv_rest _ _ _ Mv). by apply has_key_holds.
Qed.

Lemma read_sim n c A key level ul : implements n c A -> 0 <= level < 256 ->
  exists c', read_request level ul key c = Some (mkTxn 0 0 false 0, c') /\ transaction_node (rest c') = NullNode
  /\ (l_lookup (ks c) key A = None /\ implements n c' A
      \/ exists dirty rows, node_state key c = Some ((dirty, rows), c)
         /\ implements n c' (if negb dirty && (ul <? level) then
              l_move (ks c) (if (rows =? 0) && negb (empty_limit (rest c) =? 0) then SYS_EMPTY_NODE_INDEX else SYS_CLEAN_NODE_INDEX) key A
            else A)).
Proof.
  intros (G & W & Sh) Hl. unfold read_request.
  destruct (transaction_find_spec n c G W A key (mkTxn 0 0 false 0) Sh) as (t & c1 & E1 & As & El & Eg & O). erewrite run_bind by exact E1.
  pose proof (aside_shows _ _ _ _ _ _ As Sh) as Sh1. destruct O as [(Hno & -> & Et)|(i & Hi & Hh & Et & Hne & ->)].
  - destruct (end_none c1 (set_lru_update level (set_status DTC_CODE_NODE_NOTFOUND (mkTxn 0 0 false 0))) ul Et) as (c' & E & As' & Ht).
    exists c'. split_and!; [by erewrite run_bind by done|done|]. left. split; [done|]. exists G, W. by eapply aside_shows.
  - destruct (aside_same c c1 G i As) as [Ea Ec]. assert (rows_of c1 G i = rows_of c G i) as Er by (unfold rows_of; by rewrite Ec).
    assert (ks c1 = ks c) as Ek by (by destruct (as_rest _ _ As) as (_ & _ & _ & -> & _)).
    pose proof (proj2 (aside_holds c c1 G i key As) Hh) as Hh1. unfold transaction_update_lru. simpl key_dirty.
    destruct (a_dirty (attr c G i)) eqn:Ed.
    + erewrite run_bind by done. destruct (end_dirty n c1 G W A i _ ul Sh1 Hi Et (or_introl _ (eq_refl : key_dirty (mkTxn (rows_of c G i) DTC_CODE_NODE_HIT true 0) = true)))
        as (c' & E & As' & Ht & _).
      exists c'. split_and!; [exact E|done|]. right. exists true, (rows_of c G i). rewrite <- Ed. split; [by eapply node_state_run|]. rewrite Ed.
      exists G, W. by eapply aside_shows.
    + erewrite run_bind by done. set (t := set_lru_update level _). assert (lru_update t = level) as Eu by (unfold t; simpl; by rewrite wrap_small).
      destruct (end_spec n c1 G W A i key t ul Sh1 Hi Hh1 Et eq_refl) as (c' & E & Ht & Im); [by rewrite Ea|by rewrite Er|].
      exists c'. split_and!; [exact E|done|]. right. exists false, (rows_of c G i). rewrite <- Ed at 1. split; [by eapply node_state_run|].
      rewrite Eu in Im. unfold target_list in Im. by rewrite Ek, El, Er in Im.
Qed.

Lemma write_sim n c A key ul : implements n c A ->
  exists c', write_request ul key c = Some (mkTxn 0 0 false 0, c') /\ transaction_node (rest c') = NullNode
  /\ (l_lookup (ks c) key A = None /\ implements n c' A
      \/ exists dirty rows, node_state key c = Some ((dirty, rows), c)
         /\ implements n c' (if dirty then A else l_move (ks c) SYS_DIRTY_NODE_INDEX key A)
         /\ node_state key c' = Some ((true, rows), c')
         /\ ni_dirty_node (ni (node_group c')) = (if dirty then ni_dirty_node (ni (node_group c)) else wrap 32 (ni_dirty_node (ni (node_group c)) + 1))).
Proof.
  intros (G & W & Sh). unfold write_request.
  destruct (transaction_find_spec n c G W A key (mkTxn 0 0 false 0) Sh) as (t & c1 & E1 & As & _ & Eg & O). erewrite run_bind by exact E1.
  pose proof (aside_shows _ _ _ _ _ _ As Sh) as Sh1. destruct O as [(Hno & -> & Et)|(i & Hi & Hh & Et & Hne & ->)].
  - destruct (end_none c1 (set_status DTC_CODE_NODE_NOTFOUND (mkTxn 0 0 false 0)) ul Et) as (c' & E & As' & Ht).
    exists c'. split_and!; [by erewrite run_bind by done|done|]. left. split; [done|]. exists G, W. by eapply aside_shows.
  - destruct (aside_same c c1 G i As) as [Ea Ec]. assert (rows_of c1 G i = rows_of c G i) as Er by (unfold rows_of; by rewrite Ec).
    assert (ks c1 = ks c) as Ek by (by destruct (as_rest _ _ As) as (_ & _ & _ & -> & _)).
    pose proof (proj2 (aside_holds c c1 G i key As) Hh) as Hh1. simpl node_status. rewrite Z.eqb_refl.
    destruct (a_dirty (attr c G i)) eqn:Ed.
    + unfold transaction_update_lru. simpl key_dirty. erewrite run_bind by done.
      destruct (end_dirty n c1 G W A i _ ul Sh1 Hi Et (or_introl _ (eq_refl : key_dirty (mkTxn (rows_of c G i) DTC_CODE_NODE_HIT true 0) = true)))
        as (c' & E & As' & Ht & Eg').
      pose proof (aside_shows _ _ _ _ _ _ As' Sh1) as Sh'. destruct (aside_same c1 c' G i As') as [Ea' Ec'].
      exists c'. split_and!; [exact E|done|]. right. exists true, (rows_of c G i). rewrite <- Ed at 1. split_and!; [by eapply node_state_run|by exists G, W| |].
      * rewrite (node_state_run n c' G W A i key) by (done || by apply (aside_holds c1 c' G i key As')). rewrite Ea', Ea, Ed.
        do 3 f_equal. unfold rows_of. by rewrite Ec', Ec.
      * by rewrite Eg', Eg.
    + destruct (async_spec n c1 G W A i key (mkTxn (rows_of c G i) DTC_CODE_NODE_HIT false 0) LRU_WRITE Sh1 Hi Hh1 Et eq_refl)
        as (c2 & W2 & E2 & Sh2 & Hi2 & Hh2 & Et2 & Hd2 & Ec2 & Hn2). simpl lru_update. erewrite run_bind by exact E2.
      destruct (end_dirty n c2 G W2 _ i (set_lru_update LRU_NONE (mkTxn (rows_of c G i) DTC_CODE_NODE_HIT false 0)) ul Sh2 Hi2 Et2 (or_intror Hd2))
        as (c' & E & As' & Ht & Eg').
      pose proof (aside_shows _ _ _ _ _ _ As' Sh2) as Sh'. destruct (aside_same c2 c' G i As') as [Ea' Ec']. rewrite Ek in Sh'.
      exists c'. split_and!; [exact E|done|]. right. exists false, (rows_of c G i). rewrite <- Ed at 1. split_and!; [by eapply node_state_run|by exists G, W2| |].
      * rewrite (node_state_run n c' G W2 _ i key Sh' Hi2) by (by apply (aside_holds c2 c' G i key As')). rewrite Ea', Hd2.
        do 3 f_equal. unfold rows_of. by rewrite Ec', Ec2, Ec.
      * by rewrite Eg', Hn2, Eg.
Qed.

End Transactions.
