(* ===== verification/CacheTheorems.v ===== *)
(** * The properties of the cache

    The node allocator, the hash table, the LRU lists and the transactions on
    top of them, for every allocator behind [MallocBase].  The witnesses run
    the model on a segment of two million bytes managed by [PtMalloc]. *)

From S2P Require Import Prelude DList PtMalloc PtMallocSpec PtMallocTheorems MallocBase Jenkins DtcHash Node Pond.
From S2P Require Import NodeLists NodeGroups NodeAlloc NodeOps NodeRun NodeInit.
From S2P Require Import PondChains PondInv PondOps PondSpec PondPurge PondInit Transaction CacheSpec TransactionSpec.

(** ** A concrete cache *)

Abbreviation demo_cache := (Cache PtMalloc BufferPond).

Definition c_blank : demo_cache :=
  mkCache (do_init 2000000 blank).2 (mkIndex 0 ∅ ∅) (mkNGInfo 0 zero_NG_INFO_T ∅ ∅ 1 false 0 CREATED)
    (mkPond 0 (mkHash 0 0 0 0 ∅) ∅ 4 0 0 0 0 false false false 0 true NullNode false []).

Definition after {X} (c : demo_cache) (r : option (X * demo_cache)) : demo_cache := from_option snd c r.

Definition c_empty : demo_cache := after c_blank (mem_init 2000000 9 4 c_blank).

Definition k1 : list byte := ["1"; "2"; "3"; "4"]%byte.
Definition k2 : list byte := ["5"; "6"; "7"; "8"]%byte.
Definition row1 : DataChunk := mkChunk DATA_TYPE_RAW 1 k1.
Definition row2 : DataChunk := mkChunk DATA_TYPE_RAW 2 k2.
Definition put1 : request := Insert (mem_of k1) 100 row1.
Definition put2 : request := Insert (mem_of k2) 200 row2.

Definition c_one : demo_cache := after c_empty (exec put1 c_empty).
Definition c_two : demo_cache := after c_one (exec put2 c_one).
Definition c_written : demo_cache := after c_two (write_request LRU_BATCH (mem_of k1) c_two).

Lemma c_blank_ok : m_rep (alloc c_blank) ∅ /\ blank_pond c_blank 4.
Proof. split; [apply (do_init_rep blank 2000000); [done|done|by vm_compute]|]. by split. Qed.

Lemma run_after {X} (c : demo_cache) (m : option (X * demo_cache)) x : fst <$> m = Some x -> m = Some (x, after c m).
Proof. destruct m as [[y c']|]; [|done]. by intros [= ->]. Qed.

(** The runs succeed. *)
Lemma c_empty_run : fst <$> mem_init 2000000 9 4 c_blank = Some 0.
Proof. vm_compute. reflexivity. Qed.

Lemma c_one_run : fst <$> exec put1 c_empty = Some (Code 0).
Proof. vm_compute. reflexivity. Qed.

Lemma c_two_run : fst <$> exec put2 c_one = Some (Code 0).
Proof. vm_compute. reflexivity. Qed.

Lemma rooms : has_room 1 c_one = true /\ has_room 1 c_two = true.
Proof. vm_compute. split; reflexivity. Qed.

Lemma insert_run : insert_row (mem_of k1) 100 row1 c_empty = Some (0, after c_empty (insert_row (mem_of k1) 100 row1 c_empty)).
Proof. apply run_after. vm_compute. reflexivity. Qed.

Lemma key_fits : has_key (key_size (rest c_empty)) (mem_of k1) row1 = true.
Proof. vm_compute. reflexivity. Qed.

Lemma keys_fit : valid (key_size (rest c_empty)) put1 = true /\ valid (key_size (rest c_one)) put2 = true.
Proof. vm_compute. split; reflexivity. Qed.

Lemma write_run : write_request LRU_BATCH (mem_of k1) c_two = Some (mkTxn 0 0 false 0, c_written)
  /\ key_size (rest c_two) = 4 /\ key_size (rest c_written) = 4 /\ fst <$> node_state (mem_of k1) c_two = Some (false, 1).
Proof. split_and!; [apply run_after|..]; vm_compute; reflexivity. Qed.

Lemma some_pair {X Y} (x x' : X) (y y' : Y) : Some (x, y) = Some (x', y') -> x = x' /\ y = y'.
Proof. by intros [= -> ->]. Qed.

Lemma demo_runs : mem_init 2000000 9 4 c_blank = Some (0, c_empty) /\ exec put1 c_empty = Some (Code 0, c_one)
  /\ exec put2 c_one = Some (Code 0, c_two).
Proof. split_and!; [exact (run_after c_blank _ _ c_empty_run)|exact (run_after c_empty _ _ c_one_run)|exact (run_after c_one _ _ c_two_run)]. Qed.

#[local] Opaque c_blank c_empty c_one c_two c_written.

Lemma c_empty_ok : implements 1 c_empty (mkLru [] [] []) /\ has_room 1 c_empty = true.
Proof.
  destruct c_blank_ok as [R B]. destruct (init_sim c_blank ∅ 2000000 9 4 R B) as (r & c' & E & O); [lia|lia|].
  rewrite (proj1 demo_runs) in E. destruct (some_pair _ _ _ _ E) as [<- <-]. destruct (O eq_refl) as [Im Hr]. split; [done|by apply Hr].
Qed.

Lemma c_one_ok : implements 1 c_one (mkLru [] [row1] []).
Proof.
  destruct c_empty_ok as [Im Hr]. destruct (exec_sim 1 c_empty _ put1 Im Hr (proj1 keys_fit)) as (r & c' & A & E & St & Im' & _).
  rewrite (proj1 (proj2 demo_runs)) in E. destruct (some_pair _ _ _ _ E) as [<- <-]. inversion St; subst; done.
Qed.

Lemma c_two_ok : implements 1 c_two (mkLru [] [row2; row1] []) /\ has_room 1 c_two = true.
Proof.
  split; [|apply rooms].
  destruct (exec_sim 1 c_one _ put2 c_one_ok (proj1 rooms) (proj2 keys_fit)) as (r & c' & A & E & St & Im' & _).
  rewrite (proj2 (proj2 demo_runs)) in E. destruct (some_pair _ _ _ _ E) as [<- <-]. inversion St; subst; done.
Qed.

Lemma two_live G W : shows 1 c_two G W (mkLru [] [row2; row1] []) -> exists i, live c_two G i /\ 256 <= i.
Proof.
  intros Sh. pose proof (sh_abs _ _ _ _ _ Sh) as EA. destruct (cl W) as [|i l] eqn:Ec; [by unfold lists_of in EA; rewrite Ec in EA|].
  exists i. pose proof Sh as [Pi _ _ _ _ _]. assert (live c_two G i) as Hl.
  { apply (pl_live _ _ _ (pi_lru _ _ _ Pi)). unfold listed. rewrite Ec, !elem_of_app, elem_of_cons. tauto. }
  split; [done|]. destruct (Z.lt_ge_cases i 256) as [Hlt|]; [|lia]. exfalso.
  pose proof (pl_nodup _ _ _ (pi_lru _ _ _ Pi)) as Hn. rewrite NoDup_app in Hn. destruct Hn as (_ & Hd & _).
  apply (Hd i); [by eapply live_sys; [apply Pi|..]|]. unfold listed. rewrite Ec, !elem_of_app, elem_of_cons. tauto.
Qed.

(** One of the two rows of [c_two] written: it is dirty now. *)
Lemma c_written_ok : implements 1 c_written (mkLru [row1] [row2] []) /\ node_state (mem_of k1) c_written = Some ((true, 1), c_written).
Proof.
  destruct write_run as (E & Ek & _ & Es).
  destruct (write_sim 1 c_two _ (mem_of k1) LRU_BATCH (proj1 c_two_ok)) as (c' & E' & _ & [(Hn & _)|(dirty & rows & En & Im & Hs & _)]).
  - by rewrite Ek in Hn.
  - rewrite E in E'. destruct (some_pair _ _ _ _ E') as [_ <-]. rewrite En in Es. injection Es as -> ->. rewrite Ek in Im. exact (conj Im Hs).
Qed.

(** ** The cache is an LRU cache *)

(** C1: from a formatted segment on, whatever requests have been served, the
    pond behaves as the abstract LRU cache: the answers given so far are
    answers of the abstract cache, its lists are the lists of the pond, and
    while the node index has room every further request with a well-formed key
    and row terminates without touching memory that is not allocated. *)
Theorem cache_refines {S} `{MallocLaws S} (c0 : Cache S BufferPond) Hp mem_size hsize fixedsize c t c' :
  m_rep (alloc c0) Hp -> blank_pond c0 fixedsize -> 0 <= mem_size <= 2 ^ 36 -> 0 < hsize < 2 ^ 30 - 4 ->
  mem_init mem_size hsize fixedsize c0 = Some (0, c) -> reach (index_count mem_size) c t c' ->
  exists A, l_run (key_size (rest c)) (mkLru [] [] []) t A /\ implements (index_count mem_size) c' A
  /\ forall q, has_room (index_count mem_size) c' = true -> valid (key_size (rest c')) q = true ->
     exists r c2 A2, exec q c' = Some (r, c2) /\ l_step (key_size (rest c)) A q r A2 /\ implements (index_count mem_size) c2 A2.
Proof.
  intros R B Hm Hh E Rc. destruct (init_sim c0 Hp mem_size hsize fixedsize R B Hm Hh) as (r & c1 & E1 & O).
  rewrite E in E1. injection E1 as <- <-. destruct (O eq_refl) as [Im _].
  destruct (reach_sim _ _ _ _ _ Im Rc) as (Ek & A & Rn & Im'). exists A. split_and!; [done|done|]. intros q Hr Hv.
  destruct (exec_sim _ _ _ q Im' Hr Hv) as (x & c2 & A2 & E2 & St & Im2 & _). exists x, c2, A2. by rewrite <- Ek.
Qed.

Lemma cache_refines_witness : exists A, l_run (key_size (rest c_empty)) (mkLru [] [] []) [(put1, Code 0); (put2, Code 0)] A
  /\ implements 1 c_two A.
Proof.
  destruct c_blank_ok as [R B]. destruct demo_runs as (E & E1 & E2).
  destruct (cache_refines c_blank ∅ 2000000 9 4 c_empty [(put1, Code 0); (put2, Code 0)] c_two R B ltac:(lia) ltac:(lia) E) as (A & Rn & Im & _).
  - apply (reach_snoc _ _ [(put1, Code 0)] c_one); [|apply rooms|apply keys_fit|done].
    apply (reach_snoc _ _ [] c_empty); [constructor|apply c_empty_ok|apply keys_fit|done].
  - change (index_count 2000000) with 1 in Im. exact (ex_intro _ A (conj Rn Im)).
Defined.

(** C30: [cache_find] ends, changes nothing, and finds the node of a key exactly
    when the cache holds an entry with that key; the node leads to its chunk. *)
Theorem cache_find_correct {S} `{MallocLaws S} n (c : Cache S BufferPond) A key : implements n c A ->
  exists nd, cache_find key (g_target_new_hash (rest c)) c = Some (nd, c)
  /\ (nd = NullNode /\ l_lookup (key_size (rest c)) key A = None
      \/ exists h d, is_null nd = false /\ vd_handle nd c = Some (h, c) /\ chunks (rest c) !! h = Some d
         /\ l_lookup (key_size (rest c)) key A = Some d).
Proof. apply find_sim. Qed.

Lemma cache_find_correct_witness : exists nd, cache_find (mem_of k1) (g_target_new_hash (rest c_two)) c_two = Some (nd, c_two).
Proof. destruct (cache_find_correct 1 c_two _ (mem_of k1) (proj1 c_two_ok)) as (nd & E & _). exact (ex_intro _ nd E). Defined.

(** a row that was stored is found again under its key, until the key is
    purged; storing or purging it does not change what another key finds. *)
Theorem insert_find_purge {S} `{MallocLaws S} n (c : Cache S BufferPond) A key size d c1 :
  implements n c A -> has_room n c = true -> l_lookup (key_size (rest c)) key A = None -> data_type_ d = DATA_TYPE_RAW ->
  has_key (key_size (rest c)) key d = true -> 0 <= size < 2 ^ 32 -> insert_row key size d c = Some (0, c1) ->
  lookup_row key c1 = Some (Some d, c1)
  /\ (forall key', key_cmp (key_size (rest c)) key key' ≠ 0 -> lookup_row key' c1 = Some (l_lookup (key_size (rest c)) key' A, c1))
  /\ exists c2, cache_purge key c1 = Some (0, c2) /\ lookup_row key c2 = Some (None, c2)
     /\ forall key', key_cmp (key_size (rest c)) key key' ≠ 0 -> lookup_row key' c2 = Some (l_lookup (key_size (rest c)) key' A, c2).
Proof.
  intros Im Hr Hno Hd Hk Hs E. pose proof (key_size_pos _ _ _ Im) as Hks. destruct (insert_sim n c A key size d Im Hr Hno Hd Hk Hs) as (r & c' & E' & Ek & O).
  rewrite E in E'. apply some_pair in E' as [<- <-]. destruct O as [[_ Im1]|[? _]]; [|done].
  destruct (purge_sim n c1 _ key Im1) as (c2 & E2 & Im2 & Ek2). rewrite Ek in *.
  split_and!.
  - rewrite (lookup_row_sim n c1 _ key Im1), Ek. by rewrite (lookup_push_same _ key d A).
  - intros key' Hne. rewrite (lookup_row_sim n c1 _ key' Im1), Ek. by rewrite (lookup_push_other _ Hks key key' d A).
  - exists c2. split_and!; [done| |].
    + rewrite (lookup_row_sim n c2 _ key Im2), Ek2. by rewrite lookup_removed.
    + intros key' Hne. rewrite (lookup_row_sim n c2 _ key' Im2), Ek2.
      by rewrite (lookup_remove_other _ Hks key key'), (lookup_push_other _ Hks key key' d A).
Qed.

Lemma insert_find_purge_witness : lookup_row (mem_of k1) (after c_empty (insert_row (mem_of k1) 100 row1 c_empty))
  = Some (Some row1, after c_empty (insert_row (mem_of k1) 100 row1 c_empty)).
Proof.
  destruct c_empty_ok as [Im Hr].
  refine (proj1 (insert_find_purge 1 c_empty _ (mem_of k1) 100 row1 _ Im Hr _ _ _ _ insert_run)); [done|done|exact key_fits|lia].
Defined.

(** [cache_purge] removes the entry of a key and no other. *)
Theorem cache_purge_removes {S} `{MallocLaws S} n (c : Cache S BufferPond) A key : implements n c A ->
  exists c', cache_purge key c = Some (0, c') /\ implements n c' (l_remove (key_size (rest c)) key A).
Proof. intros Im. destruct (purge_sim n c A key Im) as (c' & E & Im' & _). by exists c'. Qed.

Lemma cache_purge_removes_witness : exists c', cache_purge (mem_of k1) c_two = Some (0, c')
  /\ implements 1 c' (l_remove (key_size (rest c_two)) (mem_of k1) (mkLru [] [row2; row1] [])).
Proof. exact (cache_purge_removes 1 c_two _ (mem_of k1) (proj1 c_two_ok)). Defined.

(** C31: [pre_purge_nodes] drops the oldest entries of the clean list, as many
    as asked for or as there are, and leaves the newer ones, the dirty and the
    empty ones in their order. *)
Theorem pre_purge_oldest {S} `{MallocLaws S} n (c : Cache S BufferPond) A k : implements n c A ->
  exists c', pre_purge_nodes k NullNode c = Some (Z.min (Z.max k 0) (Z.of_nat (length (l_clean A))), c')
  /\ implements n c' (mkLru (l_dirty A) (take (length (l_clean A) - Z.to_nat k) (l_clean A)) (l_empty A)).
Proof. intros Im. destruct (evict_sim n c A k Im) as (c' & E & Im' & _). by exists c'. Qed.

Lemma pre_purge_oldest_witness : exists c', pre_purge_nodes 1 NullNode c_two = Some (1, c') /\ implements 1 c' (mkLru [] [row2] []).
Proof. exact (pre_purge_oldest 1 c_two _ 1 (proj1 c_two_ok)). Defined.

(** [buffer_adjust_lru] moves the entries of the keys to the front of the
    clean list one after the other, and stops with an error at the first key
    the cache does not hold; the keys before it have been moved. *)
Theorem adjust_lru_order {S} `{MallocLaws S} n (c : Cache S BufferPond) A keys : implements n c A ->
  exists c', buffer_adjust_lru keys c = Some ((l_adjust (key_size (rest c)) keys A).1, c')
  /\ implements n c' (l_adjust (key_size (rest c)) keys A).2.
Proof. intros Im. destruct (adjust_sim n c A keys Im) as (c' & E & Im' & _). by exists c'. Qed.

Lemma adjust_lru_order_witness : exists c', buffer_adjust_lru [mem_of k1; mem_of k2] c_two
    = Some ((l_adjust (key_size (rest c_two)) [mem_of k1; mem_of k2] (mkLru [] [row2; row1] [])).1, c')
  /\ implements 1 c' (l_adjust (key_size (rest c_two)) [mem_of k1; mem_of k2] (mkLru [] [row2; row1] [])).2.
Proof. exact (adjust_lru_order 1 c_two _ [mem_of k1; mem_of k2] (proj1 c_two_ok)). Defined.

(** ** Transactions *)

(** a transaction that reads moves a clean node to the front of the clean
    list, or of the empty list if it has no rows and there is a limit on empty
    nodes; it does so only when the level of the request is above the
    configured one, a dirty node stays where it is, and the transaction is
    closed in every case. *)
Theorem read_request_order {S} `{MallocLaws S} n (c : Cache S BufferPond) A key level ul :
  implements n c A -> 0 <= level < 256 ->
  exists c', read_request level ul key c = Some (mkTxn 0 0 false 0, c') /\ transaction_node (rest c') = NullNode
  /\ (l_lookup (key_size (rest c)) key A = None /\ implements n c' A
      \/ exists dirty rows, node_state key c = Some ((dirty, rows), c)
         /\ implements n c' (if negb dirty && (ul <? level) then
              l_move (key_size (rest c)) (if (rows =? 0) && negb (empty_limit (rest c) =? 0) then SYS_EMPTY_NODE_INDEX else SYS_CLEAN_NODE_INDEX) key A
            else A)).
Proof. apply read_sim. Qed.

Lemma read_request_order_witness : exists c', read_request LRU_READ LRU_BATCH (mem_of k1) c_two = Some (mkTxn 0 0 false 0, c')
  /\ transaction_node (rest c') = NullNode.
Proof.
  destruct (read_request_order 1 c_two _ (mem_of k1) LRU_READ LRU_BATCH (proj1 c_two_ok)) as (c' & E & Ht & _); [unfold LRU_READ; lia|].
  exact (ex_intro _ c' (conj E Ht)).
Defined.

(** an asynchronous write marks a clean node dirty, counts it, and moves it
    to the front of the dirty list; a node that is dirty already stays where it
    is and is not counted again.  No other entry moves. *)
Theorem write_request_order {S} `{MallocLaws S} n (c : Cache S BufferPond) A key ul : implements n c A ->
  exists c', write_request ul key c = Some (mkTxn 0 0 false 0, c') /\ transaction_node (rest c') = NullNode
  /\ (l_lookup (key_size (rest c)) key A = None /\ implements n c' A
      \/ exists dirty rows, node_state key c = Some ((dirty, rows), c)
         /\ implements n c' (if dirty then A else l_move (key_size (rest c)) SYS_DIRTY_NODE_INDEX key A)
         /\ node_state key c' = Some ((true, rows), c')
         /\ ni_dirty_node (ni (node_group c'))
            = (if dirty then ni_dirty_node (ni (node_group c)) else wrap 32 (ni_dirty_node (ni (node_group c)) + 1))).
Proof. apply write_sim. Qed.

Lemma write_request_order_witness : exists c', write_request LRU_BATCH (mem_of k1) c_two = Some (mkTxn 0 0 false 0, c')
  /\ transaction_node (rest c') = NullNode.
Proof.
  destruct (write_request_order 1 c_two _ (mem_of k1) LRU_BATCH (proj1 c_two_ok)) as (c' & E & Ht & _). exact (ex_intro _ c' (conj E Ht)).
Defined.



(** ** Nodes *)

(** [allocate_node] ends with a node that was not in use, on no list and
    not dirty, whose id leads back to it through the node index; all nodes in
    use are as they were and the counter grows by one.  Or it ends with none,
    when no group has a free node and there is no memory for another group. *)
Theorem allocate_node_fresh {S} `{MallocLaws S} (c : Cache S BufferPond) G own : ginv c G own -> room c G ->
  exists n c' G', allocate_node c = Some (n, c') /\ ginv c' G' own
  /\ (forall j, live c G j -> live c' G' j /\ nd G' j = nd G j /\ atr (nd G') c' j = atr (nd G) c j)
  /\ (n = NullNode /\ fre G = []
      \/ exists i, n = nd G' i /\ is_null n = false /\ ~ live c G i /\ (forall j, live c' G' j <-> live c G j \/ j = i)
         /\ node_id n c' = Some (i, c') /\ do_search i c' = Some (n, c')
         /\ a_prev (atr (nd G') c' i) = i /\ a_lnext (atr (nd G') c' i) = i /\ a_dirty (atr (nd G') c' i) = false
         /\ ni_used_node (ni (node_group c')) = ni_used_node (ni (node_group c)) + 1).
Proof.
  intros J Hr. destruct (allocate_node_spec c G own J Hr) as (n & c' & G' & E & J' & _ & O). exists n, c', G'.
  assert (kept c G c' G' (live c G)) as K by (destruct O as [(_ & _ & Gr)|(i & _ & Tk)]; [by apply kept_grown|apply Tk]).
  split_and!; [done|done| |].
  - intros j Hj. destruct (kp_node _ _ _ _ _ K j Hj) as (_ & Hl & En & Ea). split_and!; [done|done|]. unfold atr. by rewrite En, Ea.
  - destruct O as [(-> & Hf & _)|(i & -> & Tk)]; [by left|right]. exists i.
    assert (live c' G' i) as Hlv by (apply (to_live _ _ _ _ _ Tk); by right). pose proof (live_addressing _ _ _ J') as Ad.
    destruct (to_attr _ _ _ _ _ Tk) as (a & Ha & _ & Hp & Hn & Hd).
    assert (atr (nd G') c' i = a) as -> by (unfold atr; by rewrite Ha).
    split_and!; try done; [by eapply nd_not_null|apply Tk|apply Tk|by apply Ad|by apply Ad|apply Tk].
Qed.

Lemma allocate_node_fresh_witness : exists n c', allocate_node c_two = Some (n, c').
Proof.
  destruct c_two_ok as [(G & W & Sh) Hr].
  destruct (allocate_node_fresh c_two G _ (pi_inv _ _ _ (sh_inv _ _ _ _ _ Sh)) (has_room_room _ _ _ _ _ Sh Hr)) as (n & c' & G' & E & _).
  exact (ex_intro _ n (ex_intro _ c' E)).
Defined.

(** [release_node] takes exactly the given node out of use, keeps every
    other one, lowers the counter by one, and leaves a group with a free node,
    so that the next [allocate_node] succeeds. *)
Theorem release_node_exact {S} `{MallocLaws S} (c : Cache S BufferPond) G own i : ginv c G own -> room c G -> live c G i -> 256 <= i ->
  exists c' G', release_node (nd G i) c = Some (0, c') /\ ginv c' G' own
  /\ (forall j, live c' G' j <-> live c G j /\ j ≠ i)
  /\ (forall j, live c G j -> j ≠ i -> nd G' j = nd G j /\ atr (nd G') c' j = atr (nd G) c j)
  /\ ni_used_node (ni (node_group c')) = ni_used_node (ni (node_group c)) - 1
  /\ exists n c2, allocate_node c' = Some (n, c2) /\ is_null n = false.
Proof.
  intros J Hr Hl Hi. destruct (release_node_spec c G own i J Hl Hi) as (c' & G' & E & J' & Go & Egs & Est & Hf).
  pose proof (go_kept _ _ _ _ _ Go) as K. exists c', G'. split_and!; [done|done|apply Go| |apply Go|].
  - intros j Hj Hne. destruct (kp_node _ _ _ _ _ K j (conj Hj Hne)) as (_ & _ & En & Ea). split; [done|]. unfold atr. by rewrite En, Ea.
  - assert (room c' G') as Hr' by (unfold room in *; destruct (kp_secs _ _ _ _ _ K) as [-> _]; by rewrite Egs, Est).
    destruct (allocate_node_spec c' G' own J' Hr') as (n & c2 & G2 & E2 & J2 & _ & [(_ & Hno & _)|(k & -> & Tk)]); [done|].
    exists (nd G2 k), c2. split; [done|]. eapply nd_not_null; [exact J2|]. apply (to_live _ _ _ _ _ Tk). by right.
Qed.

Lemma release_node_exact_witness : exists G i c', live c_two G i /\ release_node (nd G i) c_two = Some (0, c').
Proof.
  destruct c_two_ok as [(G & W & Sh) Hr]. destruct (two_live G W Sh) as (i & Hl & Hi).
  destruct (release_node_exact c_two G _ i (pi_inv _ _ _ (sh_inv _ _ _ _ _ Sh)) (has_room_room _ _ _ _ _ Sh Hr) Hl Hi) as (c' & G' & E & _).
  exact (ex_intro _ G (ex_intro _ i (ex_intro _ c' (conj Hl E)))).
Defined.

(** ** Buckets *)

(** under both hash functions a key has a bucket of the table, and keys
    that compare equal have the same one, so a lookup never misses an entry
    because it looks in another chain. *)
Theorem key_slots_agree n ks k k' : 0 < n -> 0 <= ks < 2 ^ 32 ->
  (0 <= hash_slot n ks k < n /\ 0 <= new_hash_slot n ks k < n)
  /\ (key_cmp ks k k' = 0 -> hash_slot n ks k = hash_slot n ks k' /\ new_hash_slot n ks k = new_hash_slot n ks k').
Proof. intros Hn Hk. split; [by apply slots_range|]. by apply slots_same. Qed.

Lemma key_slots_agree_witness : 0 <= hash_slot 9 4 (mem_of k1) < 9 /\ 0 <= new_hash_slot 9 4 (mem_of k1) < 9.
Proof. refine (proj1 (key_slots_agree 9 4 (mem_of k1) (mem_of k1) _ _)); lia. Defined.
