(* ===== verification/RawData.v ===== *)
(** * Raw row storage (src/core/raw/raw_data.h, raw_data.cc)

    A node's rows are kept in one block of the allocator: a header with the
    type, the size, the number of rows, the request counter and three time
    stamps, then the key, then the rows one after the other.  A row is a flag
    byte and its fields in the order of the table definition.

    [RawData] is the object that edits such a block.  A program on it works on
    the allocator's memory and on the object; it ends, jumps to the function's
    [ERROR_RET] label, or has no result when it touches memory outside the
    block.  The bytes of a binary value are a list: the values handed to the
    object lie outside of the block, those it returns are the bytes the
    returned pointer leads to at that moment. *)

From S2P Require Import Prelude PtMalloc MallocBase.

Definition EC_NO_MEM : Z := 2041.
Definition ENOMEM : Z := 12.
Definition DATA_TYPE_RAW : Z := 0.

Definition OPER_SELECT : Z := 0x30.
Definition OPER_UPDATE : Z := 0x32.
Definition OPER_INSERT : Z := 0x36.

(** ** Table definitions and rows *)

Inductive FieldType := FNone | FSigned | FUnsigned | FFloat | FString | FBinary.

Record FieldDef := mkField { field_type : FieldType; field_size : Z; is_discard : bool }.

(** The parts of a [DTCTableDefinition] the rows depend on; field 0 is the key. *)
Record TableDef := mkTableDef {
  fields : list FieldDef;
  key_fields : Z;
  key_format : Z;
  lastacc_field_id : Z;
  lastcmod_field_id : Z;
  expire_time_field_id : Z
}.

(** [DTCValue]: [s64] or [u64], the bits of [flt], or [bin]; a [bin] with a
    negative [len] has no bytes to speak of. *)
Inductive DTCValue := VInt (z : Z) | VFlt (bits : Z) | VBin (bytes : list Z) | VBadBin (len : Z).

Definition RowValue : Type := list DTCValue.

(** ** Conversions between [double] and [float], on their bits *)

(** The [float] with bits [b] as a [double]. *)
Definition widen (b : Z) : Z :=
  let s := b / 2 ^ 31 mod 2 in let e := b / 2 ^ 23 mod 2 ^ 8 in let m := b mod 2 ^ 23 in
  s * 2 ^ 63 +
  (if e =? 255 then 2047 * 2 ^ 52 + (if m =? 0 then 0 else Z.lor (m * 2 ^ 29) (2 ^ 51))
   else if e =? 0 then
     if m =? 0 then 0 else (Z.log2 m - 149 + 1023) * 2 ^ 52 + (m - 2 ^ Z.log2 m) * 2 ^ (52 - Z.log2 m)
   else (e + 896) * 2 ^ 52 + m * 2 ^ 29).

(** Division by a power of two, to the nearest, ties to even. *)
Definition round_shift (x k : Z) : Z :=
  let q := x / 2 ^ k in let r := x mod 2 ^ k in
  if (2 ^ k <? 2 * r) || ((2 * r =? 2 ^ k) && Z.odd q) then q + 1 else q.

(** The [double] with bits [b] rounded to a [float]. *)
Definition narrow (b : Z) : Z :=
  let s := b / 2 ^ 63 mod 2 in let e := b / 2 ^ 52 mod 2 ^ 11 in let m := b mod 2 ^ 52 in
  s * 2 ^ 31 +
  (if e =? 2047 then 255 * 2 ^ 23 + (if m =? 0 then 0 else Z.lor (m / 2 ^ 29) (2 ^ 22))
   else if e =? 0 then 0
   else
     let x := e - 1023 in
     let r := if x <? -126 then (if x <? -160 then 0 else round_shift (2 ^ 52 + m) (29 + (-126 - x)))
              else (x + 126) * 2 ^ 23 + round_shift (2 ^ 52 + m) 29 in
     if 255 * 2 ^ 23 <=? r then 255 * 2 ^ 23 else r).

(** ** The object *)

Record Memory := mkMemory { handle_ : Z; size_ : Z; p_content_ : Z; need_new_bufer_size : Z }.

Record Format := mkFormat {
  key_index_ : Z;
  key_size_ : Z;
  m_iLAId : Z;
  m_iLCmodId : Z;
  expire_id_ : Z;
  table_index_ : Z
}.

Record Header := mkHeader {
  get_request_count_offset_ : Z;
  time_stamp_offset_ : Z;
  get_request_count_ : Z;
  latest_request_time_ : Z;
  latest_update_time_ : Z;
  create_time_ : Z;
  key_start_ : Z;
  data_start_ : Z
}.

Record Cursor := mkCursor {
  data_size_ : Z;
  row_count_ : Z;
  row_offset_ : Z;
  offset_ : Z;
  m_uiLAOffset : Z
}.

Record RawData := mkRaw { rm : Memory; rf : Format; rh : Header; rc : Cursor }.

Definition on_rm (f : Memory -> Memory) (r : RawData) : RawData := mkRaw (f (rm r)) (rf r) (rh r) (rc r).
Definition on_rf (f : Format -> Format) (r : RawData) : RawData := mkRaw (rm r) (f (rf r)) (rh r) (rc r).
Definition on_rh (f : Header -> Header) (r : RawData) : RawData := mkRaw (rm r) (rf r) (f (rh r)) (rc r).
Definition on_rc (f : Cursor -> Cursor) (r : RawData) : RawData := mkRaw (rm r) (rf r) (rh r) (f (rc r)).

Definition set_offset (v : Z) (c : Cursor) : Cursor := mkCursor (data_size_ c) (row_count_ c) (row_offset_ c) v (m_uiLAOffset c).
Definition set_row_offset (v : Z) (c : Cursor) : Cursor := mkCursor (data_size_ c) (row_count_ c) v (offset_ c) (m_uiLAOffset c).
Definition set_LAOffset (v : Z) (c : Cursor) : Cursor := mkCursor (data_size_ c) (row_count_ c) (row_offset_ c) (offset_ c) v.
Definition set_counts (size rows : Z) (c : Cursor) : Cursor := mkCursor size rows (row_offset_ c) (offset_ c) (m_uiLAOffset c).
Definition set_need (v : Z) (m : Memory) : Memory := mkMemory (handle_ m) (size_ m) (p_content_ m) v.

(** [RawData::RawData]; [m_iLCmodId] is not set there. *)
Definition new_RawData : RawData :=
  mkRaw (mkMemory INVALID_HANDLE 0 0 0) (mkFormat (wrap 8 (-1)) 0 (-1) 0 (-1) (-1)) (mkHeader 0 0 0 0 0 0 0 0) (mkCursor 0 0 0 0 0).

(** ** Programs *)

Inductive out (A : Type) := Go (a : A) | Error.
Arguments Go {A}.
Arguments Error {A}.

Record RState (S : Type) := mkR { rs : S; raw : RawData }.
Arguments mkR {S}.
Arguments rs {S}.
Arguments raw {S}.

Definition rprog (S A : Type) : Type := RState S -> option (out A * RState S).

#[export] Instance rprog_ret {S} : MRet (rprog S) := fun A a x => Some (Go a, x).
#[export] Instance rprog_bind {S} : MBind (rprog S) :=
  fun A B f m x => match m x with Some (Go a, y) => f a y | Some (Error, y) => Some (Error, y) | None => None end.

Lemma rbind_go {S A B} (m : rprog S A) (f : A -> rprog S B) x a y : m x = Some (Go a, y) -> (m ≫= f) x = f a y.
Proof. intros E. unfold mbind, rprog_bind. by rewrite E. Qed.

Lemma rbind_error {S A B} (m : rprog S A) (f : A -> rprog S B) x y : m x = Some (Error, y) -> (m ≫= f) x = Some (Error, y).
Proof. intros E. unfold mbind, rprog_bind. by rewrite E. Qed.

Section Ops.

Context {S : Type} `{MallocBase S}.

Abbreviation R := (rprog S).

Definition crash {A} : R A := fun _ => None.
Definition ERROR_RET {A} : R A := fun x => Some (Error, x).
Definition get : R RawData := fun x => Some (Go (raw x), x).
Definition upd (f : RawData -> RawData) : R unit := fun x => Some (Go tt, mkR (rs x) (f (raw x))).

(** The function's code up to its label, and the code after the label. *)
Definition on_error {A} (m h : R A) : R A :=
  fun x => match m x with Some (Error, y) => h y | r => r end.

(** ** Memory *)

Fixpoint le_val (bs : list Z) : Z := match bs with [] => 0 | b :: bs => b + 256 * le_val bs end.
Fixpoint le_bytes (n : nat) (v : Z) : list Z := match n with O => [] | Datatypes.S n => v mod 256 :: le_bytes n (v / 256) end.

Definition load_bytes (p : Z) (n : nat) (st : S) : list Z := (fun i => load (p + Z.of_nat i) st) <$> seq 0 n.
Fixpoint store_bytes (p : Z) (bs : list Z) (st : S) : S :=
  match bs with [] => st | b :: bs => store_bytes (p + 1) bs (store p b st) end.

(** [n] bytes at offset [off] of the block; outside there is no result. *)
Definition inside (off n : Z) (r : RawData) : bool := (0 <=? off) && (0 <=? n) && (off + n <=? size_ (rm r)).

Definition peek (off n : Z) : R (list Z) :=
  fun x => if inside off n (raw x) then Some (Go (load_bytes (p_content_ (rm (raw x)) + off) (Z.to_nat n) (rs x)), x) else None.
Definition poke (off : Z) (bs : list Z) : R unit :=
  fun x => if inside off (Z.of_nat (length bs)) (raw x)
           then Some (Go tt, mkR (store_bytes (p_content_ (rm (raw x)) + off) bs (rs x)) (raw x)) else None.

(** [memmove] inside the block *)
Definition move_bytes (dst src n : Z) : R unit := bs ← peek src n; poke dst bs.

Definition set_off (v : Z) : R unit := upd (on_rc (set_offset (wrap 32 v))).

(** ** The macros; [n] is [sizeof(t)] *)

Definition GET_VALUE (n : Z) : R Z :=
  r ← get;
  let o := offset_ (rc r) in
  if size_ (rm r) <? o + n then ERROR_RET
  else bs ← peek o n; set_off (o + n);; mret (le_val bs).

Definition GET_VALUE_AT_OFFSET (n off : Z) : R Z :=
  r ← get;
  if size_ (rm r) <? off + n then ERROR_RET else bs ← peek off n; mret (le_val bs).

Definition SET_VALUE (v n : Z) : R unit :=
  r ← get;
  let o := offset_ (rc r) in
  if size_ (rm r) <? o + n then ERROR_RET
  else poke o (le_bytes (Z.to_nat n) v);; set_off (o + n).

Definition SET_VALUE_AT_OFFSET (v n off : Z) : R unit :=
  r ← get;
  if size_ (rm r) <? off + n then ERROR_RET else poke off (le_bytes (Z.to_nat n) v).

(** [len] is the length of [bs], an [int]. *)
Definition SET_BIN_VALUE (bs : list Z) : R unit :=
  r ← get;
  let o := offset_ (rc r) in let len := Z.of_nat (length bs) in
  if size_ (rm r) <? o + 4 + len then ERROR_RET
  else poke o (le_bytes 4 len);; set_off (o + 4);; poke (o + 4) bs;; set_off (o + 4 + len).

(** The same with a negative [len]: [memcpy] is given its value as a [size_t]. *)
Definition SET_BAD_BIN (len : Z) : R unit :=
  r ← get; if size_ (rm r) <? wrap 64 (offset_ (rc r) + 4 + len) then ERROR_RET else crash.

(** [s] is a [size_t], or an [int] as in [SKIP_LEN]. *)
Definition SKIP_SIZE (s : Z) : R unit :=
  r ← get;
  let o := offset_ (rc r) in
  if size_ (rm r) <? o + s then ERROR_RET else set_off (o + s).

Definition SKIP_LEN (s : Z) : R unit :=
  r ← get;
  let o := offset_ (rc r) in
  if size_ (rm r) <? wrap 32 (o + s) then ERROR_RET else set_off (o + s).

(** ** Fields *)

(** The bytes a field of a fixed size takes. *)
Definition int_size (f : FieldDef) : Z := if 4 <? field_size f then 8 else 4.

(** The body of the loop of [encode_row]. *)
Definition encode_field (f : FieldDef) (v : DTCValue) : R unit :=
  match field_type f, v with
  | FSigned, VInt z | FUnsigned, VInt z => SET_VALUE z (int_size f)
  | FFloat, VFlt b => if 4 <? field_size f then SET_VALUE b 8 else SET_VALUE (narrow b) 4
  | (FString | FBinary | FNone), VBin bs => SET_BIN_VALUE bs
  | (FString | FBinary | FNone), VBadBin len => SET_BAD_BIN len
  | _, _ => crash
  end.

Fixpoint encode_fields (fs : list FieldDef) (vs : list DTCValue) : R unit :=
  match fs, vs with
  | f :: fs, v :: vs => (if is_discard f then mret tt else encode_field f v);; encode_fields fs vs
  | [], _ => mret tt
  | _, [] => crash
  end.

(** The body of the loop of [calc_row_size]. *)
Definition field_bytes (f : FieldDef) (v : DTCValue) : option Z :=
  match field_type f, v with
  | FSigned, _ | FUnsigned, _ => Some (int_size f)
  | FFloat, _ => Some (int_size f)
  | (FString | FBinary | FNone), VBin bs => Some (4 + Z.of_nat (length bs))
  | (FString | FBinary | FNone), VBadBin len => Some (4 + len)
  | _, _ => None
  end.

Fixpoint fields_size (fs : list FieldDef) (vs : list DTCValue) (tSize : Z) : R Z :=
  match fs, vs with
  | f :: fs, v :: vs =>
      if is_discard f then fields_size fs vs tSize
      else match field_bytes f v with Some n => fields_size fs vs (wrap 32 (tSize + n)) | None => crash end
  | [], _ => mret tSize
  | _, [] => crash
  end.

(** The fields stored in a row: those after the key, with their values. *)
Definition row_fields (t : TableDef) (r : RawData) : list FieldDef := drop (Z.to_nat (key_index_ (rf r) + 1)) (fields t).
Definition row_values (row : RowValue) (r : RawData) : list DTCValue := drop (Z.to_nat (key_index_ (rf r) + 1)) row.

Definition calc_row_size (t : TableDef) (row : RowValue) : R Z :=
  r ← get; fields_size (row_fields t r) (row_values row r) 1.

(** The body of the loop of [decode_row]. *)
Definition decode_field (f : FieldDef) : R DTCValue :=
  match field_type f with
  | FSigned => if 4 <? field_size f then v ← GET_VALUE 8; mret (VInt (sext 64 v)) else v ← GET_VALUE 4; mret (VInt (sext 32 v))
  | FUnsigned => v ← GET_VALUE (int_size f); mret (VInt v)
  | FFloat => if 4 <? field_size f then v ← GET_VALUE 8; mret (VFlt v) else v ← GET_VALUE 4; mret (VFlt (widen v))
  | FString | FBinary | FNone =>
      v ← GET_VALUE 4;
      let len := sext 32 v in
      r ← get;
      SKIP_LEN len;;
      if len <? 0 then mret (VBadBin len) else bs ← peek (offset_ (rc r)) len; mret (VBin bs)
  end.

(** Fields that are left out keep the value they had. *)
Fixpoint decode_fields (fs : list FieldDef) (j : Z) (vs : list DTCValue) : R (list DTCValue) :=
  match fs, vs with
  | f :: fs, v :: vs =>
      v' ← (if is_discard f then mret v
            else
              r ← get;
              (if j =? m_iLAId (rf r) then upd (on_rc (set_LAOffset (offset_ (rc r)))) else mret tt);;
              decode_field f);
      vs' ← decode_fields fs (j + 1) vs;
      mret (v' :: vs')
  | [], vs => mret vs
  | _, [] => crash
  end.

(** The body of the loops that only pass over a row. *)
Definition skip_field (f : FieldDef) : R unit :=
  match field_type f with
  | FSigned | FUnsigned | FFloat => SKIP_SIZE (int_size f)
  | FString | FBinary | FNone => v ← GET_VALUE 4; SKIP_LEN (sext 32 v)
  end.

Fixpoint skip_fields (fs : list FieldDef) : R unit :=
  match fs with
  | [] => mret tt
  | f :: fs => (if is_discard f then mret tt else skip_field f);; skip_fields fs
  end.

(** ** The block *)

Definition chunk_size_of (h : Z) : R Z := fun x => Some (Go (m_chunk_size h (rs x)), x).

Definition load_at (p : Z) : R Z := fun x => Some (Go (load p (rs x)), x).

Definition m_alloc (f : S -> option (Z * S)) : R Z :=
  fun x => match f (rs x) with Some (h, st) => Some (Go h, mkR st (raw x)) | None => None end.

(** [handle_ = h; size_ = chunk_size(handle_); p_content_ = Pointer<char>()] *)
Definition take_block (h : Z) : R unit :=
  n ← chunk_size_of h; upd (on_rm (fun m => mkMemory h n h (need_new_bufer_size m))).

(** These two fall through to their [ERROR_RET] label and return -100. *)
Definition set_data_size : R Z :=
  r ← get; on_error (SET_VALUE_AT_OFFSET (data_size_ (rc r)) 4 1;; mret (-100)) (mret (-100)).
Definition set_row_count : R Z :=
  r ← get; on_error (SET_VALUE_AT_OFFSET (row_count_ (rc r)) 4 5;; mret (-100)) (mret (-100)).

(** [data_size_] and [row_count_] change and are written to the header. *)
Definition put_counts (size rows : Z) : R unit :=
  upd (on_rc (set_counts (wrap 32 size) (wrap 32 rows)));; set_data_size;; set_row_count;; mret tt.

Definition expand_chunk (expand_size : Z) : R Z :=
  r ← get;
  if handle_ (rm r) =? INVALID_HANDLE then mret (-1)
  else
    let n := wrap 32 (data_size_ (rc r) + expand_size) in
    if size_ (rm r) <? n then
      hTmp ← m_alloc (m_ReAlloc (handle_ (rm r)) n);
      if hTmp =? INVALID_HANDLE then upd (on_rm (set_need n));; mret EC_NO_MEM
      else take_block hTmp;; mret 0
    else mret 0.

Definition re_alloc_chunk (tSize : Z) : R Z :=
  r ← get;
  if size_ (rm r) <? tSize then
    hTmp ← m_alloc (m_ReAlloc (handle_ (rm r)) tSize);
    if hTmp =? INVALID_HANDLE then upd (on_rm (set_need tSize));; mret EC_NO_MEM
    else take_block hTmp;; mret 0
  else mret 0.

Definition strip_mem : R Z :=
  r ← get;
  hTmp ← m_alloc (m_ReAlloc (handle_ (rm r)) (data_size_ (rc r)));
  if hTmp =? INVALID_HANDLE then upd (on_rm (set_need (data_size_ (rc r))));; mret EC_NO_MEM
  else take_block hTmp;; mret 0.

Definition destory : R Z :=
  fun x =>
    let r := raw x in
    if handle_ (rm r) =? INVALID_HANDLE then
      Some (Go 0, mkR (rs x) (on_rm (fun m => mkMemory (handle_ m) 0 (p_content_ m) (need_new_bufer_size m)) r))
    else
      let '(iRet, st) := m_Free (handle_ (rm r)) (rs x) in
      Some (Go iRet, mkR st (on_rm (fun m => mkMemory INVALID_HANDLE 0 (p_content_ m) (need_new_bufer_size m)) r)).

(** ** Formatting and attaching *)

(** The size of the header before the key. *)
Definition HEAD_SIZE : Z := 2 + 4 * 2 + 2 * 3.

Definition set_stamps (a u c : Z) (h : Header) : Header :=
  mkHeader (get_request_count_offset_ h) (time_stamp_offset_ h) (get_request_count_ h) a u c (key_start_ h) (data_start_ h).
Definition set_count_offset (o n : Z) (h : Header) : Header :=
  mkHeader o (time_stamp_offset_ h) n (latest_request_time_ h) (latest_update_time_ h) (create_time_ h) (key_start_ h) (data_start_ h).
Definition set_stamp_offset (o : Z) (h : Header) : Header :=
  mkHeader (get_request_count_offset_ h) o (get_request_count_ h) (latest_request_time_ h) (latest_update_time_ h) (create_time_ h)
    (key_start_ h) (data_start_ h).
Definition set_starts (k d : Z) (h : Header) : Header :=
  mkHeader (get_request_count_offset_ h) (time_stamp_offset_ h) (get_request_count_ h) (latest_request_time_ h)
    (latest_update_time_ h) (create_time_ h) k d.

(** [now]: the hour since the base year. *)
Definition init_timp_stamp (now : Z) : R unit :=
  r ← get;
  if p_content_ (rm r) =? 0 then mret tt
  else if size_ (rm r) <? offset_ (rc r) + 6 then mret tt
  else
    let dwCurHour := wrap 16 now in let o := time_stamp_offset_ (rh r) in
    upd (on_rh (set_stamps dwCurHour dwCurHour dwCurHour));;
    poke o (le_bytes 2 dwCurHour);; poke (o + 2) (le_bytes 2 dwCurHour);; poke (o + 4) (le_bytes 2 dwCurHour).

Definition attach_time_stamp : R unit :=
  r ← get;
  if p_content_ (rm r) =? 0 then mret tt
  else if size_ (rm r) <? time_stamp_offset_ (rh r) + 6 then mret tt
  else
    let o := time_stamp_offset_ (rh r) in
    a ← peek o 2; u ← peek (o + 2) 2; c ← peek (o + 4) 2;
    upd (on_rh (set_stamps (le_val a) (le_val u) (le_val c))).

(** The bytes of a packed key. *)
Definition key_len (iKeySize : Z) (pchKey : list Z) : Z := if iKeySize =? 0 then 1 + hd 0 pchKey else iKeySize.

(** Writing the header and the key, up to [ERROR_RET]. *)
Definition write_head (pchKey : list Z) (now : Z) : R Z :=
  r ← get;
  SET_VALUE (Z.land (Z.shiftl (table_index_ (rf r)) 7) 0x80 + DATA_TYPE_RAW) 1;;
  SET_VALUE (data_size_ (rc r)) 4;;
  SET_VALUE (row_count_ (rc r)) 4;;
  r ← get; upd (on_rh (set_count_offset (offset_ (rc r)) 1));;
  SET_VALUE 1 1;;
  r ← get; upd (on_rh (set_stamp_offset (offset_ (rc r))));;
  init_timp_stamp now;;
  SKIP_SIZE 6;;
  r ← get;
  let o := offset_ (rc r) in
  poke o (take (Z.to_nat (key_len (key_size_ (rf r)) pchKey)) pchKey);;
  set_off (o + key_len (key_size_ (rf r)) pchKey);;
  r ← get;
  upd (on_rh (set_starts o (offset_ (rc r))));;
  upd (on_rc (set_row_offset (offset_ (rc r))));;
  mret 0.

Definition init (uchKeyIdx iKeySize : Z) (pchKey : list Z) (uiDataSize laId expireId nodeIdx now : Z) : R Z :=
  let ks := key_len iKeySize pchKey in
  let n := wrap 32 (uiDataSize + (HEAD_SIZE + ks)) in
  h ← m_alloc (m_Malloc n);
  if h =? INVALID_HANDLE then upd (on_rm (fun m => mkMemory INVALID_HANDLE 0 (p_content_ m) n));; mret EC_NO_MEM
  else
    take_block h;;
    upd (on_rc (fun c => mkCursor (wrap 32 (HEAD_SIZE + ks)) 0 (row_offset_ c) 0 0));;
    upd (on_rf (fun f => mkFormat uchKeyIdx iKeySize laId (m_iLCmodId f) expireId (if nodeIdx =? -1 then table_index_ f else nodeIdx)));;
    r ← get;
    if negb (table_index_ (rf r) =? 0) && negb (table_index_ (rf r) =? 1) then mret (-100)
    else on_error (write_head pchKey now) (mret (-100)).

(** [expanding], [cur]: the state of [DTCColExpand]; [get_def]: the table
    definitions by index. *)
Definition do_init (expanding : bool) (cur : Z) (get_def : Z -> option TableDef) (pchKey : list Z) (uiDataSize now : Z) : R Z :=
  let idx := if expanding then Z.rem (cur + 1) 2 else Z.rem cur 2 in
  upd (on_rf (fun f => mkFormat (key_index_ f) (key_size_ f) (m_iLAId f) (m_iLCmodId f) (expire_id_ f) idx));;
  if negb (idx =? 0) && negb (idx =? 1) then mret (-1)
  else match get_def idx with
       | None => mret (-1)
       | Some t => init (wrap 8 (key_fields t - 1)) (key_format t) pchKey uiDataSize (lastacc_field_id t) (expire_time_field_id t) (-1) now
       end.

(** Reading the header and the key, up to [ERROR_RET]. *)
Definition read_head (uchKeyIdx iKeySize laid lcmodid expireid : Z) : R Z :=
  uchType ← GET_VALUE 1;
  if negb (Z.land uchType 0x7f =? DATA_TYPE_RAW) then mret (-2)
  else
    size ← GET_VALUE 4; upd (on_rc (fun c => set_counts size (row_count_ c) c));;
    rows ← GET_VALUE 4; upd (on_rc (fun c => set_counts (data_size_ c) rows c));;
    r ← get; let o := offset_ (rc r) in
    count ← GET_VALUE 1; upd (on_rh (set_count_offset o count));;
    r ← get; upd (on_rh (set_stamp_offset (offset_ (rc r))));;
    attach_time_stamp;;
    SKIP_SIZE 6;;
    r ← get;
    if size_ (rm r) <? data_size_ (rc r) then mret (-3)
    else
      let o := offset_ (rc r) in
      upd (on_rf (fun f => mkFormat uchKeyIdx iKeySize laid lcmodid expireid (table_index_ f)));;
      upd (on_rh (fun h => set_starts o (data_start_ h) h));;
      ks ← (if iKeySize =? 0 then b ← peek o 1; mret (1 + le_val b) else mret iKeySize);
      SKIP_LEN ks;;
      r ← get;
      upd (on_rh (fun h => set_starts o (offset_ (rc r)) h));;
      upd (on_rc (set_row_offset (offset_ (rc r))));;
      mret 0.

(** [do_attach] with the layout given *)
Definition attach (hHandle uchKeyIdx iKeySize laid lcmodid expireid : Z) : R Z :=
  n ← chunk_size_of hHandle;
  upd (on_rm (fun m => mkMemory (handle_ m) n (p_content_ m) (need_new_bufer_size m)));;
  if n =? 0 then mret (-1)
  else
    upd (on_rm (fun m => mkMemory hHandle n hHandle (need_new_bufer_size m)));;
    upd (on_rc (fun c => set_LAOffset 0 (set_offset 0 c)));;
    on_error (read_head uchKeyIdx iKeySize laid lcmodid expireid) (mret (-100)).

(** [do_attach(hHandle)]: bit 7 of the first byte is the table index. *)
Definition do_attach (get_def : Z -> option TableDef) (hHandle : Z) : R Z :=
  upd (on_rm (fun m => mkMemory hHandle (size_ m) (p_content_ m) (need_new_bufer_size m)));;
  b ← load_at hHandle;
  let idx := Z.land (Z.shiftr b 7) 1 in
  upd (on_rf (fun f => mkFormat (key_index_ f) (key_size_ f) (m_iLAId f) (m_iLCmodId f) (expire_id_ f) idx));;
  match get_def idx with
  | None => mret (-1)
  | Some t => attach hHandle (wrap 8 (key_fields t - 1)) (key_format t) (lastacc_field_id t) (lastcmod_field_id t) (expire_time_field_id t)
  end.

(** Unlike [attach], the type byte is compared with its table bit. *)
Definition check_size (hHandle size : Z) : R Z :=
  n ← chunk_size_of hHandle;
  upd (on_rm (fun m => mkMemory (handle_ m) n (p_content_ m) (need_new_bufer_size m)));;
  if n =? 0 then mret (-1)
  else
    upd (on_rm (fun m => mkMemory hHandle n hHandle (need_new_bufer_size m)));;
    upd (on_rc (fun c => set_LAOffset 0 (set_offset 0 c)));;
    on_error
      (uchType ← GET_VALUE 1;
       if negb (uchType =? DATA_TYPE_RAW) then mret (-2)
       else
         v ← GET_VALUE 4; upd (on_rc (fun c => set_counts v (row_count_ c) c));;
         mret (if v =? wrap 32 size then 0 else -1))
      (mret (-1)).

(** ** Reading rows *)

Definition not_init (r : RawData) : bool := (handle_ (rm r) =? INVALID_HANDLE) || (p_content_ (rm r) =? 0).

(** [pre]: [PRE_DECODE_ROW], the cursor is put back.  The result is the code
    and, on success, the row flags and the row. *)
Definition decode_row (t : TableDef) (row : RowValue) (pre : bool) : R (Z * option (Z * RowValue)) :=
  r ← get;
  if not_init r then mret (-1, None)
  else
    let back := if pre then upd (on_rc (fun c => set_row_offset (row_offset_ (rc r)) (set_offset (offset_ (rc r)) c))) else mret tt in
    upd (on_rc (fun c => set_row_offset (offset_ c) (set_LAOffset 0 c)));;
    on_error
      (flags ← GET_VALUE 1;
       vs ← decode_fields (row_fields t r) (key_index_ (rf r) + 1) (row_values row r);
       back;;
       mret (0, Some (flags, take (Z.to_nat (key_index_ (rf r) + 1)) row ++ vs)))
      (back;; mret (-100, None)).

(** The loop of [get_expire_time]; fields that are left out of the rows are
    not passed over. *)
Fixpoint expire_loop (fs : list FieldDef) (j : Z) : R Z :=
  match fs with
  | [] => mret 0
  | f :: fs =>
      r ← get;
      if j =? expire_id_ (rf r) then bs ← peek (offset_ (rc r)) 4; mret (le_val bs)
      else skip_field f;; expire_loop fs (j + 1)
  end.

Definition get_expire_time (t : TableDef) : R (Z * Z) :=
  r ← get;
  if not_init r then mret (-1, 0)
  else if expire_id_ (rf r) =? -1 then mret (0, 0)
  else
    on_error (SKIP_SIZE 1;; e ← expire_loop (row_fields t r) (key_index_ (rf r) + 1); mret (0, e)) (mret (-100, 0)).

(** The loop of [get_lastcmod]. *)
Fixpoint lastcmod_loop (fs : list FieldDef) (j lastcmod : Z) : R Z :=
  match fs with
  | [] => mret lastcmod
  | f :: fs =>
      if is_discard f then lastcmod_loop fs (j + 1) lastcmod
      else
        r ← get;
        v ← (if j =? m_iLCmodId (rf r) then bs ← peek (offset_ (rc r)) 4; mret (le_val bs) else mret lastcmod);
        skip_field f;; lastcmod_loop fs (j + 1) v
  end.

Definition get_lastcmod (t : TableDef) : R (Z * Z) :=
  r ← get;
  if not_init r then mret (-1, 0)
  else
    upd (on_rc (fun c => set_row_offset (offset_ c) c));;
    on_error (SKIP_SIZE 1;; v ← lastcmod_loop (row_fields t r) (key_index_ (rf r) + 1) 0; mret (0, v)) (mret (-100, 0)).

(** ** Adding rows *)

Definition encode_row (t : TableDef) (row : RowValue) (uchOp : Z) (expendBuf : bool) : R Z :=
  tSize ← calc_row_size t row;
  iRet ← (if expendBuf then expand_chunk tSize else mret 0);
  if negb (iRet =? 0) then mret iRet
  else
    on_error
      (SET_VALUE uchOp 1;;
       r ← get;
       encode_fields (row_fields t r) (row_values row r);;
       r ← get;
       upd (on_rc (set_counts (wrap 32 (data_size_ (rc r) + tSize)) (row_count_ (rc r))));;
       set_data_size;;
       upd (on_rc (set_counts (wrap 32 (data_size_ (rc r) + tSize)) (wrap 32 (row_count_ (rc r) + 1))));;
       set_row_count;;
       mret 0)
      (mret (-100)).

(** The new rows, [new] bytes at [old], go before the others; [sys]: the
    temporary buffer could be allocated. *)
Definition rows_to_front (sys : bool) (old new : Z) : R Z :=
  r ← get;
  let start := data_start_ (rh r) in
  if (0 <? new) && negb (wrap 32 (old - start) =? 0) then
    if negb sys then mret (- ENOMEM)
    else
      pBuf ← peek old new;
      move_bytes (start + new) start (wrap 32 (old - start));;
      poke start pBuf;;
      mret 0
  else mret 0.

Definition insert_row_flag (sys : bool) (t : TableDef) (row : RowValue) (byFirst : bool) (uchOp : Z) : R Z :=
  r ← get;
  let uiOldSize := data_size_ (rc r) in
  upd (on_rc (set_offset uiOldSize));;
  iRet ← encode_row t row uchOp true;
  r ← get;
  let uiNewRowSize := wrap 32 (data_size_ (rc r) - uiOldSize) in
  if (iRet =? 0) && byFirst then rows_to_front sys uiOldSize uiNewRowSize else mret iRet.

Definition insert_row (sys : bool) (t : TableDef) (row : RowValue) (byFirst isDirty : bool) : R Z :=
  insert_row_flag sys t row byFirst (if isDirty then OPER_INSERT else OPER_SELECT).

Fixpoint rows_size (t : TableDef) (rows : list RowValue) (tSize : Z) : R Z :=
  match rows with
  | [] => mret tSize
  | row :: rows => n ← calc_row_size t row; rows_size t rows (wrap 32 (tSize + n))
  end.

Fixpoint encode_rows (t : TableDef) (rows : list RowValue) (uchOp : Z) : R Z :=
  match rows with
  | [] => mret 0
  | row :: rows => iRet ← encode_row t row uchOp true; if iRet =? 0 then encode_rows t rows uchOp else mret iRet
  end.

Definition insert_n_rows (sys : bool) (t : TableDef) (rows : list RowValue) (byFirst isDirty : bool) : R Z :=
  tSize ← rows_size t rows 0;
  iRet ← expand_chunk tSize;
  if negb (iRet =? 0) then mret iRet
  else
    r ← get;
    let uiOldSize := data_size_ (rc r) in
    upd (on_rc (set_offset uiOldSize));;
    iRet ← encode_rows t rows (if isDirty then OPER_INSERT else OPER_SELECT);
    if negb (iRet =? 0) then mret iRet
    else
      r ← get;
      let uiNewRowSize := wrap 32 (data_size_ (rc r) - uiOldSize) in
      if byFirst then rows_to_front sys uiOldSize uiNewRowSize else mret 0.

(** ** Changing rows *)

Definition skip_row (t : TableDef) : R Z :=
  r ← get;
  if not_init r then mret (-1)
  else
    upd (on_rc (fun c => set_offset (row_offset_ c) c));;
    if data_size_ (rc r) <=? row_offset_ (rc r) then mret (-2)
    else on_error (SKIP_SIZE 1;; skip_fields (row_fields t r);; mret 0) (mret (-100)).

(** The new row needs more bytes than the old one, which ends at [next]. *)
Definition replace_longer (t : TableDef) (row : RowValue) (flag new cur next rest : Z) : R Z :=
  r ← get;
  let n := wrap 32 (data_size_ (rc r) + new - cur) in
  hTmp ← m_alloc (m_ReAlloc (handle_ (rm r)) n);
  if hTmp =? INVALID_HANDLE then upd (on_rm (set_need n));; mret EC_NO_MEM
  else
    take_block hTmp;;
    (if 0 <? rest then move_bytes (next + (new - cur)) next rest else mret tt);;
    upd (on_rc (fun c => set_offset (row_offset_ c) c));;
    iRet ← encode_row t row flag false;
    if negb (iRet =? 0) then
      (if 0 <? rest then move_bytes next (next + (new - cur)) rest else mret tt);; mret (-1)
    else mret 0.

(** It needs at most as many; the old row is kept aside. *)
Definition replace_shorter (sys : bool) (t : TableDef) (row : RowValue) (flag new cur next rest : Z) : R Z :=
  r ← get;
  if negb sys then mret (- ENOMEM)
  else
    pTmpBuf ← peek (row_offset_ (rc r)) cur;
    upd (on_rc (fun c => set_offset (row_offset_ c) c));;
    iRet ← encode_row t row flag false;
    if negb (iRet =? 0) then poke (row_offset_ (rc r)) pTmpBuf;; mret (-1)
    else
      r ← get;
      (if (0 <? rest) && negb (offset_ (rc r) =? next) then move_bytes (offset_ (rc r)) next rest else mret tt);;
      hTmp ← m_alloc (m_ReAlloc (handle_ (rm r)) (wrap 32 (data_size_ (rc r) + new - cur)));
      (if hTmp =? INVALID_HANDLE then mret tt else take_block hTmp);;
      mret 0.

Definition replace_cur_row (sys : bool) (t : TableDef) (row : RowValue) (isDirty : bool) : R Z :=
  r0 ← get;
  let fail (iRet : Z) := upd (on_rc (set_offset (offset_ (rc r0))));; mret iRet in
  iRet ← skip_row t;
  if negb (iRet =? 0) then fail iRet
  else
    on_error
      (r ← get;
       f ← GET_VALUE_AT_OFFSET 1 (row_offset_ (rc r));
       let uchRowFlag := if isDirty then OPER_UPDATE else f in
       new ← calc_row_size t row;
       let cur := wrap 32 (offset_ (rc r) - row_offset_ (rc r)) in
       let next := offset_ (rc r) in
       let rest := wrap 32 (data_size_ (rc r) - offset_ (rc r)) in
       iRet ← (if cur <? new then replace_longer t row uchRowFlag new cur next rest
               else replace_shorter sys t row uchRowFlag new cur next rest);
       if iRet =? - ENOMEM then mret iRet
       else if negb (iRet =? 0) then fail iRet
       else
         r ← get;
         put_counts (data_size_ (rc r) - cur) (row_count_ (rc r) - 1);;
         mret 0)
      (fail 0).

Definition delete_cur_row (t : TableDef) : R Z :=
  r0 ← get;
  iRet ← skip_row t;
  if negb (iRet =? 0) then upd (on_rc (set_offset (offset_ (rc r0))));; mret iRet
  else
    r ← get;
    move_bytes (row_offset_ (rc r)) (offset_ (rc r)) (wrap 32 (data_size_ (rc r) - offset_ (rc r)));;
    put_counts (data_size_ (rc r) - (offset_ (rc r) - row_offset_ (rc r))) (row_count_ (rc r) - 1);;
    upd (on_rc (fun c => set_offset (row_offset_ c) c));;
    mret iRet.

Definition rewind : R unit := upd (fun r => on_rc (fun c => set_row_offset (data_start_ (rh r)) (set_offset (data_start_ (rh r)) c)) r).

Definition delete_all_rows : R Z :=
  r ← get;
  let start := data_start_ (rh r) in
  upd (on_rc (fun c => mkCursor start 0 start start (m_uiLAOffset c)));;
  set_data_size;; set_row_count;;
  upd (on_rm (set_need 0));;
  mret 0.

Definition set_cur_row_flag (uchFlag : Z) : R Z :=
  r ← get;
  if data_size_ (rc r) <=? row_offset_ (rc r) then mret (-1)
  else poke (row_offset_ (rc r)) [wrap 8 uchFlag];; mret 0.

(** ** Copying; [ref] is the object [p_reference_] points to *)

Definition ref_bytes (ref : RawData) (off n : Z) : R (list Z) :=
  fun x => if inside off n ref then Some (Go (load_bytes (p_content_ (rm ref) + off) (Z.to_nat n) (rs x)), x) else None.

Definition copy_row (ref : RawData) : R Z :=
  let uiSize := wrap 32 (offset_ (rc ref) - row_offset_ (rc ref)) in
  iRet ← expand_chunk uiSize;
  if negb (iRet =? 0) then mret iRet
  else
    r ← get;
    bs ← ref_bytes ref (row_offset_ (rc ref)) uiSize;
    poke (offset_ (rc r)) bs;;
    set_off (offset_ (rc r) + uiSize);;
    put_counts (data_size_ (rc r) + uiSize) (row_count_ (rc r) + 1);;
    mret 0.

Definition copy_all (get_def : Z -> option TableDef) (ref : RawData) : R Z :=
  let uiSize := data_size_ (rc ref) in
  iRet ← re_alloc_chunk uiSize;
  if negb (iRet =? 0) then mret iRet
  else
    bs ← ref_bytes ref 0 uiSize;
    poke 0 bs;;
    r ← get;
    do_attach get_def (handle_ (rm r)).

Definition append_n_records (uiNRows : Z) (pchData : list Z) : R Z :=
  let uiLen := Z.of_nat (length pchData) in
  iRet ← expand_chunk uiLen;
  if negb (iRet =? 0) then mret iRet
  else
    r ← get;
    poke (data_size_ (rc r)) pchData;;
    put_counts (data_size_ (rc r) + uiLen) (row_count_ (rc r) + uiNRows);;
    mret 0.

(** ** Counters of the header *)

Definition update_lastacc (now : Z) : R unit :=
  r ← get;
  if 0 <? m_uiLAOffset (rc r) then poke (m_uiLAOffset (rc r)) (le_bytes 4 now) else mret tt.

Definition update_last_access_time_by_hour (now : Z) : R unit :=
  r ← get;
  let o := time_stamp_offset_ (rh r) in
  if (p_content_ (rm r) =? 0) || (size_ (rm r) <? o + 2) then mret tt
  else
    upd (on_rh (fun h => set_stamps (wrap 16 now) (latest_update_time_ h) (create_time_ h) h));;
    poke o (le_bytes 2 (wrap 16 now)).

Definition update_last_update_time_by_hour (now : Z) : R unit :=
  r ← get;
  let o := time_stamp_offset_ (rh r) in
  if (p_content_ (rm r) =? 0) || (size_ (rm r) <? o + 4) then mret tt
  else
    upd (on_rh (fun h => set_stamps (latest_request_time_ h) (wrap 16 now) (create_time_ h) h));;
    poke (o + 2) (le_bytes 2 (wrap 16 now)).

Definition BTYE_MAX_VALUE : Z := 255.

Definition inc_select_count : R unit :=
  r ← get;
  let o := get_request_count_offset_ (rh r) in
  if (BTYE_MAX_VALUE <=? get_request_count_ (rh r)) || (size_ (rm r) <? o + 1) then mret tt
  else
    let n := get_request_count_ (rh r) + 1 in
    upd (on_rh (set_count_offset o n));; poke o [n].

(** [key_size()] *)
Definition raw_key_size : R Z :=
  r ← get;
  if 0 <? key_size_ (rf r) then mret (key_size_ (rf r)) else bs ← peek (key_start_ (rh r)) 1; mret (1 + le_val bs).

End Ops.
