(* ===== verification/RawBytes.v ===== *)
(** * Programs on the bytes of a row block

    [view x H bs r] says that the object [r] edits a block of the heap [H]
    whose bytes are [bs].  [runs] gives the effect of a program on the bytes
    and the object; everything outside the block is left alone. *)

From S2P Require Import Prelude PtMalloc PtMallocSpec MallocBase RawData.

(** ** Lists of bytes *)

Definition splice (o : nat) (a l : list Z) : list Z := take o l ++ a ++ drop (o + length a) l.
Definition part (o n : nat) (l : list Z) : list Z := take n (drop o l).

Lemma splice_length o a l : (o + length a <= length l)%nat -> length (splice o a l) = length l.
Proof. intros Hl. unfold splice. rewrite !length_app, length_take, length_drop. lia. Qed.

Lemma splice_app p a b q : length a = length b -> splice (length p) a (p ++ b ++ q) = p ++ a ++ q.
Proof.
  intros E. unfold splice. rewrite take_app_length, <- drop_drop, drop_app_length, E. by rewrite drop_app_length.
Qed.

Lemma part_app p a q n : length a = n -> part (length p) n (p ++ a ++ q) = a.
Proof. intros <-. unfold part. by rewrite drop_app_length, take_app_length. Qed.

Lemma splice_nil o l : splice o [] l = l.
Proof. unfold splice. simpl. rewrite Nat.add_0_r. apply take_drop. Qed.

Lemma lookup_splice o a l k : (o + length a <= length l)%nat ->
  splice o a l !! k = if decide (o <= k < o + length a)%nat then a !! (k - o)%nat else l !! k.
Proof.
  intros Hl. unfold splice. destruct (decide (k < o)%nat).
  - rewrite lookup_app_l, lookup_take_lt by (rewrite ?length_take; lia). rewrite decide_False by lia. done.
  - rewrite lookup_app_r, length_take, Nat.min_l by (rewrite ?length_take; lia). case_decide.
    + by rewrite lookup_app_l by lia.
    + rewrite lookup_app_r by lia. rewrite lookup_drop. f_equal. lia.
Qed.

(** Two writes one after the other. *)
Lemma splice_splice o a b l : (o + length a + length b <= length l)%nat ->
  splice (o + length a) b (splice o a l) = splice o (a ++ b) l.
Proof.
  intros Hl. assert (length (splice o a l) = length l) as El by (apply splice_length; lia).
  apply list_eq. intros k. rewrite !lookup_splice by (rewrite ?El, ?length_app; lia). rewrite length_app.
  repeat case_decide; try lia; try done.
  - rewrite lookup_app_r by lia. f_equal. lia.
  - by rewrite lookup_app_l by lia.
Qed.

Lemma le_bytes_length n v : length (le_bytes n v) = n.
Proof. revert v. induction n; intros v; simpl; [done|]. by rewrite IHn. Qed.

Lemma le_val_bytes n v : le_val (le_bytes n v) = v mod 256 ^ Z.of_nat n.
Proof.
  revert v. induction n as [|n IH]; intros v; [simpl; by rewrite Z.mod_1_r|]. cbn [le_bytes le_val]. rewrite IH.
  rewrite Nat2Z.inj_succ, Z.pow_succ_r by lia. rewrite Z.rem_mul_r by (try apply Z.pow_nonzero; lia). done.
Qed.

Lemma le_bytes_range n v : Forall (fun b => 0 <= b < 256) (le_bytes n v).
Proof. revert v. induction n as [|n IH]; intros v; simpl; constructor; [apply Z.mod_pos_bound; lia|apply IH]. Qed.

(** Only the low bytes of a value are written. *)
Lemma le_bytes_wrap n v : le_bytes n (v mod 256 ^ Z.of_nat n) = le_bytes n v.
Proof.
  revert v. induction n as [|n IH]; intros v; [done|]. cbn [le_bytes]. rewrite Nat2Z.inj_succ, Z.pow_succ_r by lia.
  assert (0 < 256 ^ Z.of_nat n) by (apply Z.pow_pos_nonneg; lia).
  rewrite Z.rem_mul_r by lia. f_equal.
  - rewrite Z.mul_comm, Z_mod_plus_full. by rewrite Z.mod_mod by lia.
  - rewrite Z.mul_comm, Z.div_add by lia. rewrite Z.mod_div by lia. by rewrite Z.add_0_l.
Qed.

Lemma take_agree (l l' : list Z) n k : (forall i, (i < k)%nat -> l' !! i = l !! i) -> (n <= k)%nat -> take n l' = take n l.
Proof.
  intros Hk Hn. apply list_eq. intros i. destruct (decide (i < n)%nat); [rewrite !lookup_take_lt by lia; apply Hk; lia|by rewrite !lookup_take_ge by lia].
Qed.

(** ** Views *)

Section View.

Context {S : Type} `{MallocLaws S}.

Implicit Types (x y : RState S) (Hp : heap) (bs : list Z) (r : RawData).

Abbreviation sz r := (size_ (rm r)).
Abbreviation off r := (offset_ (rc r)).

Record view x Hp bs r : Prop := {
  vw_raw : raw x = r;
  vw_rep : m_rep (rs x) Hp;
  vw_block : Hp !! handle_ (rm r) = Some (sz r);
  vw_ptr : p_content_ (rm r) = handle_ (rm r);
  vw_bytes : load_bytes (handle_ (rm r)) (Z.to_nat (sz r)) (rs x) = bs
}.

(** The blocks other than [h] keep their bytes. *)
Definition others_kept (h : Z) Hp x y : Prop := forall z, in_heap (delete h Hp) z -> load z (rs y) = load z (rs x).

(** The effect of a program that neither allocates nor frees. *)
Definition runs {A} (m : rprog S A) bs r (o : out A) bs' r' : Prop :=
  forall x Hp, view x Hp bs r -> exists y, m x = Some (o, y) /\ view y Hp bs' r' /\ others_kept (handle_ (rm r)) Hp x y.

Lemma load_bytes_length p n (st : S) : length (load_bytes p n st) = n.
Proof. unfold load_bytes. by rewrite length_fmap, length_seq. Qed.

Lemma load_bytes_lookup p n (st : S) k : (k < n)%nat -> load_bytes p n st !! k = Some (load (p + Z.of_nat k) st).
Proof. intros Hk. unfold load_bytes. by rewrite list_lookup_fmap, lookup_seq_lt. Qed.

Lemma load_bytes_part p o n m (st : S) : (o + n <= m)%nat -> load_bytes (p + Z.of_nat o) n st = part o n (load_bytes p m st).
Proof.
  intros Hm. apply list_eq. intros k. unfold part. destruct (decide (k < n)%nat).
  - rewrite load_bytes_lookup, lookup_take_lt, lookup_drop, load_bytes_lookup by lia. do 2 f_equal. lia.
  - rewrite !lookup_ge_None_2; [done| |]; rewrite ?length_take, ?length_drop, ?load_bytes_length; lia.
Qed.

Lemma view_size x Hp bs r : view x Hp bs r -> 0 < handle_ (rm r) /\ 0 <= sz r < 2 ^ 32 /\ length bs = Z.to_nat (sz r).
Proof.
  intros [V1 V2 V3 V4 V5]. destruct (m_rep_pos _ _ _ _ V2 V3). rewrite <- V5, load_bytes_length. done.
Qed.

Lemma store_bytes_load p a (st : S) z : load z (store_bytes p a st) = if decide (p <= z < p + Z.of_nat (length a)) then default 0 (a !! Z.to_nat (z - p)) else load z st.
Proof.
  revert p st. induction a as [|b a IH]; intros p st; cbn [store_bytes]; [rewrite decide_False by (simpl; lia); done|].
  rewrite IH. cbn [length]. destruct (Z.eq_dec z p) as [->|Hne].
  - rewrite decide_False, decide_True by lia. rewrite m_load_store, Z.eqb_refl. by replace (Z.to_nat (p - p)) with 0%nat by lia.
  - destruct (decide (p + 1 <= z < p + 1 + Z.of_nat (length a))).
    + rewrite decide_True by lia. replace (Z.to_nat (z - p)) with (Datatypes.S (Z.to_nat (z - (p + 1)))) by lia. done.
    + rewrite decide_False by lia. rewrite m_load_store. by destruct (Z.eqb_spec z p).
Qed.

Lemma store_bytes_rep p a (st : S) Hp : m_rep st Hp -> (forall z, p <= z < p + Z.of_nat (length a) -> in_heap Hp z) -> m_rep (store_bytes p a st) Hp.
Proof.
  revert p st. induction a as [|b a IH]; intros p st R Hz; [done|]. cbn [store_bytes length] in *. apply IH; [apply m_store_ok; [done|apply Hz; lia]|].
  intros z Hr. apply Hz. lia.
Qed.

Lemma inside_view x Hp bs r o n : view x Hp bs r -> inside o n (raw x) = true <-> 0 <= o /\ 0 <= n /\ o + n <= sz r.
Proof. intros V. unfold inside. rewrite (vw_raw _ _ _ _ V), !andb_true_iff, !Z.leb_le. tauto. Qed.

(** ** Rules *)

Lemma runs_ret {A} (a : A) bs r : runs (mret a) bs r (Go a) bs r.
Proof. intros x Hp V. by exists x. Qed.

Lemma runs_bind {A B} (m : rprog S A) (f : A -> rprog S B) bs r a bs1 r1 o bs2 r2 :
  runs m bs r (Go a) bs1 r1 -> handle_ (rm r1) = handle_ (rm r) -> runs (f a) bs1 r1 o bs2 r2 -> runs (m ≫= f) bs r o bs2 r2.
Proof.
  intros M Eh F x Hp V. destruct (M x Hp V) as (y & E & V1 & K1). destruct (F y Hp V1) as (z & E2 & V2 & K2).
  exists z. split_and!; [by erewrite rbind_go by exact E|done|]. intros w Hw. rewrite Eh in K2. by rewrite K2, K1.
Qed.

Lemma runs_get bs r : runs get bs r (Go r) bs r.
Proof. intros x Hp V. exists x. split_and!; [|done|done]. unfold get. by rewrite (vw_raw _ _ _ _ V). Qed.

Lemma runs_upd f bs r : rm (f r) = rm r -> runs (upd f) bs r (Go tt) bs (f r).
Proof.
  intros Em x Hp [V1 V2 V3 V4 V5]. eexists. split_and!; [done| |done]. split; simpl; rewrite ?V1, ?Em; done.
Qed.

Lemma runs_set f bs r r' : f r = r' -> handle_ (rm r') = handle_ (rm r) -> sz r' = sz r -> p_content_ (rm r') = p_content_ (rm r) -> runs (upd f) bs r (Go tt) bs r'.
Proof.
  intros <- E1 E2 E3 x Hp [V1 V2 V3 V4 V5]. eexists. split_and!; [done| |done]. split; simpl; rewrite ?V1, ?E1, ?E2, ?E3; done.
Qed.

Lemma runs_to {A} (m : rprog S A) bs r o bs1 r1 bs2 r2 : runs m bs r o bs1 r1 -> bs1 = bs2 -> r1 = r2 -> runs m bs r o bs2 r2.
Proof. by intros M -> ->. Qed.

Lemma runs_error {A} bs r : runs (@ERROR_RET S A) bs r Error bs r.
Proof. intros x Hp V. by exists x. Qed.

Lemma runs_bind_error {A B} (m : rprog S A) (f : A -> rprog S B) bs r bs1 r1 :
  runs m bs r Error bs1 r1 -> runs (m ≫= f) bs r Error bs1 r1.
Proof.
  intros M x Hp V. destruct (M x Hp V) as (y & E & V1 & K1). exists y. split_and!; [by apply rbind_error|done|done].
Qed.

Lemma runs_go_label {A} (m h : rprog S A) bs r a bs1 r1 : runs m bs r (Go a) bs1 r1 -> runs (on_error m h) bs r (Go a) bs1 r1.
Proof. intros M x Hp V. destruct (M x Hp V) as (y & E & V1 & K1). exists y. split_and!; [unfold on_error; by rewrite E|done|done]. Qed.

Lemma runs_peek o n bs r : 0 <= o -> 0 <= n -> o + n <= sz r -> runs (peek o n) bs r (Go (part (Z.to_nat o) (Z.to_nat n) bs)) bs r.
Proof.
  intros Ho Hn Hs x Hp V. exists x. split_and!; [|done|done]. unfold peek. rewrite (proj2 (inside_view _ _ _ _ o n V)) by done.
  do 3 f_equal. pose proof V as [V1 V2 V3 V4 V5]. rewrite V1, V4, <- V5.
  replace (handle_ (rm r) + o) with (handle_ (rm r) + Z.of_nat (Z.to_nat o)) by lia. apply load_bytes_part. lia.
Qed.

Lemma runs_poke o a bs r : 0 <= o -> o + Z.of_nat (length a) <= sz r -> runs (poke o a) bs r (Go tt) (splice (Z.to_nat o) a bs) r.
Proof.
  intros Ho Hs x Hp V. destruct (view_size _ _ _ _ V) as (Hh & Hsz & Hlen). pose proof V as [V1 V2 V3 V4 V5].
  set (h := handle_ (rm r)) in *.
  exists (mkR (store_bytes (h + o) a (rs x)) r). split_and!.
  - unfold poke. rewrite (proj2 (inside_view _ _ _ _ o (Z.of_nat (length a)) V)) by lia. by rewrite V1, V4.
  - split; try done; simpl.
    + apply store_bytes_rep; [done|]. intros z Hz. exists h, (sz r). split; [done|lia].
    + fold h. apply list_eq. intros k. destruct (decide (k < Z.to_nat (sz r))%nat) as [Hk|Hk].
      * rewrite load_bytes_lookup, lookup_splice by lia. rewrite store_bytes_load.
        destruct (decide (Z.to_nat o <= k < Z.to_nat o + length a)%nat).
        -- rewrite decide_True by lia. replace (Z.to_nat (h + Z.of_nat k - (h + o))) with (k - Z.to_nat o)%nat by lia.
           destruct (lookup_lt_is_Some_2 a (k - Z.to_nat o)%nat) as [b ->]; [lia|done].
        -- rewrite decide_False by lia. rewrite <- V5, load_bytes_lookup by lia. done.
      * rewrite !lookup_ge_None_2; [done| |]; rewrite ?splice_length, ?load_bytes_length, ?Hlen; lia.
  - intros z (h' & n' & Hl & Hz). apply lookup_delete_Some in Hl as [Hne Hl]. simpl. rewrite store_bytes_load.
    fold h in Hne. destruct (m_rep_disjoint _ _ _ _ _ _ V2 V3 Hl Hne); rewrite decide_False by lia; done.
Qed.

End View.
