(* ===== verification/RawRows.v ===== *)
(** * Rows and their bytes

    What [encode_row] writes for a row, and that [decode_row] reads back the
    values, as far as the width of their fields keeps them. *)

From S2P Require Import Prelude PtMalloc PtMallocSpec MallocBase RawData RawBytes.

(** ** The format of a row *)

Definition enc_field (f : FieldDef) (v : DTCValue) : list Z :=
  match field_type f, v with
  | FSigned, VInt z | FUnsigned, VInt z => le_bytes (Z.to_nat (int_size f)) z
  | FFloat, VFlt b => if 4 <? field_size f then le_bytes 8 b else le_bytes 4 (narrow b)
  | (FString | FBinary | FNone), VBin bs => le_bytes 4 (Z.of_nat (length bs)) ++ bs
  | _, _ => []
  end.

(** A value that fits the type of its field. *)
Definition fits (f : FieldDef) (v : DTCValue) : bool :=
  match field_type f, v with
  | FSigned, VInt _ | FUnsigned, VInt _ | FFloat, VFlt _ => true
  | (FString | FBinary | FNone), VBin bs => Z.of_nat (length bs) <? 2 ^ 31
  | _, _ => false
  end.

(** What the width of a field keeps of a value. *)
Definition stored (f : FieldDef) (v : DTCValue) : DTCValue :=
  match field_type f, v with
  | FSigned, VInt z => VInt (sext (8 * int_size f) (wrap (8 * int_size f) z))
  | FUnsigned, VInt z => VInt (wrap (8 * int_size f) z)
  | FFloat, VFlt b => VFlt (if 4 <? field_size f then wrap 64 b else widen (wrap 32 (narrow b)))
  | _, v => v
  end.

Fixpoint enc_fields (fs : list FieldDef) (vs : list DTCValue) : list Z :=
  match fs, vs with
  | f :: fs, v :: vs => (if is_discard f then [] else enc_field f v) ++ enc_fields fs vs
  | _, _ => []
  end.

Fixpoint row_fits (fs : list FieldDef) (vs : list DTCValue) : bool :=
  match fs, vs with
  | f :: fs, v :: vs => (is_discard f || fits f v) && row_fits fs vs
  | [], [] => true
  | _, _ => false
  end.

(** The values read into a row that held [old]. *)
Fixpoint stored_fields (fs : list FieldDef) (vs old : list DTCValue) : list DTCValue :=
  match fs, vs, old with
  | f :: fs, v :: vs, w :: old => (if is_discard f then w else stored f v) :: stored_fields fs vs old
  | _, _, _ => []
  end.

Definition enc_row (fs : list FieldDef) (row : Z * list DTCValue) : list Z := wrap 8 row.1 :: enc_fields fs row.2.

Lemma int_size_cases f : int_size f = 8 \/ int_size f = 4.
Proof. unfold int_size. destruct (4 <? field_size f); auto. Qed.

Section Rows.

Context {S : Type} `{MallocLaws S}.

Implicit Types (bs : list Z) (r : RawData) (f : FieldDef) (v : DTCValue).

Abbreviation sz r := (size_ (rm r)).
Abbreviation off r := (offset_ (rc r)).

Definition at_offset (o : Z) r : RawData := on_rc (set_offset o) r.

(** A program that writes [a] at the cursor and moves it on. *)
Definition writes (m : rprog S unit) (a : list Z) : Prop := forall bs r,
  0 <= off r -> off r + Z.of_nat (length a) <= sz r < 2 ^ 32 -> length bs = Z.to_nat (sz r) ->
  runs m bs r (Go tt) (splice (Z.to_nat (off r)) a bs) (at_offset (off r + Z.of_nat (length a)) r).

(** A program that reads [a] at the cursor as [w] and moves it on. *)
Definition reads {A} (m : rprog S A) (a : list Z) (w : A) : Prop := forall p q r,
  off r = Z.of_nat (length p) -> length (p ++ a ++ q) = Z.to_nat (sz r) -> 0 <= sz r < 2 ^ 32 ->
  runs m (p ++ a ++ q) r (Go w) (p ++ a ++ q) (at_offset (off r + Z.of_nat (length a)) r).

Lemma at_offset_same r : at_offset (off r) r = r.
Proof. by destruct r as [? ? ? []]. Qed.

Lemma set_off_runs o bs r : 0 <= o < 2 ^ 32 -> runs (set_off o) bs r (Go tt) bs (at_offset o r).
Proof. intros Ho. unfold set_off. rewrite wrap_small by done. by apply runs_upd. Qed.

Lemma writes_nil : writes (mret tt) [].
Proof. intros bs r Ho Hs Hl. simpl. rewrite splice_nil, Z.add_0_r, at_offset_same. apply runs_ret. Qed.

Lemma writes_app m1 m2 a b : writes m1 a -> writes m2 b -> writes (m1;; m2) (a ++ b).
Proof.
  intros W1 W2 bs r Ho Hs Hl. rewrite length_app in Hs |- *. assert (length a <= length bs)%nat by lia.
  eapply runs_bind; [apply W1; [done|lia|done]|done|].
  replace (splice (Z.to_nat (off r)) (a ++ b) bs) with (splice (Z.to_nat (off r + Z.of_nat (length a))) b (splice (Z.to_nat (off r)) a bs)).
  - replace (at_offset (off r + Z.of_nat (length a + length b)) r)
      with (at_offset (off (at_offset (off r + Z.of_nat (length a)) r) + Z.of_nat (length b)) (at_offset (off r + Z.of_nat (length a)) r)).
    + apply W2; simpl; [lia|lia|]. rewrite splice_length by lia. done.
    + unfold at_offset. simpl. unfold on_rc, set_offset. simpl. do 2 f_equal. lia.
  - replace (Z.to_nat (off r + Z.of_nat (length a))) with (Z.to_nat (off r) + length a)%nat by lia. apply splice_splice. lia.
Qed.

Lemma SET_VALUE_writes (v n : Z) : 0 <= n -> writes (SET_VALUE v n) (le_bytes (Z.to_nat n) v).
Proof.
  intros Hn bs r Ho Hs Hl. rewrite le_bytes_length in Hs |- *. rewrite Z2Nat.id in Hs |- * by lia.
  eapply runs_bind; [apply runs_get|done|]. cbv zeta. destruct (Z.ltb_spec (sz r) (off r + n)); [lia|].
  eapply runs_bind; [apply runs_poke; [done|rewrite le_bytes_length; lia]|done|]. apply set_off_runs. lia.
Qed.

Lemma SET_BIN_VALUE_writes a : writes (SET_BIN_VALUE a) (le_bytes 4 (Z.of_nat (length a)) ++ a).
Proof.
  intros bs r Ho Hs Hl. rewrite length_app, le_bytes_length in Hs |- *.
  eapply runs_bind; [apply runs_get|done|]. cbv zeta. destruct (Z.ltb_spec (sz r) (off r + 4 + Z.of_nat (length a))); [lia|].
  eapply runs_bind; [apply runs_poke; [done|rewrite le_bytes_length; lia]|done|].
  eapply runs_bind; [apply set_off_runs; lia|done|]. eapply runs_bind; [apply runs_poke; simpl; lia|done|].
  replace (Z.to_nat (off r + 4)) with (Z.to_nat (off r) + length (le_bytes 4 (Z.of_nat (length a))))%nat by (rewrite le_bytes_length; lia).
  rewrite splice_splice by (rewrite le_bytes_length; lia).
  replace (off r + Z.of_nat (4 + length a)) with (off r + 4 + Z.of_nat (length a)) by lia.
  apply (set_off_runs (off r + 4 + Z.of_nat (length a)) _ (at_offset (off r + 4) r)). lia.
Qed.

Lemma encode_field_writes f v : fits f v = true -> writes (encode_field f v) (enc_field f v).
Proof.
  unfold fits, encode_field, enc_field. destruct (int_size_cases f) as [E|E]; destruct (field_type f), v; try done; intros _;
    try apply SET_BIN_VALUE_writes; try (apply SET_VALUE_writes; lia); destruct (4 <? field_size f); by apply SET_VALUE_writes.
Qed.

Lemma encode_fields_writes fs vs : row_fits fs vs = true -> writes (encode_fields fs vs) (enc_fields fs vs).
Proof.
  revert vs. induction fs as [|f fs IH]; intros [|v vs] Hf; try done; [apply writes_nil|]. simpl in Hf. apply andb_true_iff in Hf as [Hv Hr].
  cbn [encode_fields enc_fields]. apply writes_app; [|by apply IH]. destruct (is_discard f); [apply writes_nil|by apply encode_field_writes].
Qed.

(** The bytes of a row are as many as [calc_row_size] says. *)
Lemma field_bytes_length f v : fits f v = true -> field_bytes f v = Some (Z.of_nat (length (enc_field f v))).
Proof.
  unfold fits, field_bytes, enc_field, int_size. destruct (field_type f), v; try done; intros _;
    rewrite ?length_app, ?le_bytes_length; destruct (4 <? field_size f); rewrite ?le_bytes_length; f_equal; lia.
Qed.

Lemma fields_size_runs fs vs n bs r : row_fits fs vs = true -> 0 <= n -> n + Z.of_nat (length (enc_fields fs vs)) < 2 ^ 32 ->
  runs (fields_size fs vs n) bs r (Go (n + Z.of_nat (length (enc_fields fs vs)))) bs r.
Proof.
  revert vs n. induction fs as [|f fs IH]; intros [|v vs] n Hf Hn Hs; try done; [simpl; rewrite Z.add_0_r; apply runs_ret|].
  simpl in Hf. apply andb_true_iff in Hf as [Hv Hr]. cbn [fields_size enc_fields] in *. destruct (is_discard f); [by apply IH|]. simpl in Hv.
  rewrite length_app in Hs |- *. rewrite (field_bytes_length f v Hv). rewrite wrap_small by (split; lia).
  rewrite Nat2Z.inj_add, Z.add_assoc. apply IH; [done|lia|lia].
Qed.

(** ** Reading *)

Lemma reads_ret {A} (w : A) : reads (mret w) [] w.
Proof. intros p q r Ho Hl Hs. simpl. rewrite Z.add_0_r, at_offset_same. apply runs_ret. Qed.

Lemma reads_bind {A B} (m : rprog S A) (g : A -> rprog S B) a b u w : reads m a u -> reads (g u) b w -> reads (m ≫= g) (a ++ b) w.
Proof.
  intros R1 R2 p q r Ho Hl Hs. rewrite <- app_assoc in Hl |- *. eapply runs_bind; [apply R1; done|done|].
  replace (p ++ a ++ b ++ q) with ((p ++ a) ++ b ++ q) by (by rewrite <- app_assoc).
  replace (at_offset (off r + Z.of_nat (length (a ++ b))) r)
    with (at_offset (off (at_offset (off r + Z.of_nat (length a)) r) + Z.of_nat (length b)) (at_offset (off r + Z.of_nat (length a)) r)).
  - apply R2; simpl; [rewrite length_app; lia| |done]. by rewrite <- app_assoc.
  - unfold at_offset. simpl. unfold on_rc, set_offset. simpl. do 2 f_equal. rewrite length_app. lia.
Qed.

Lemma reads_map {A B} (m : rprog S A) (g : A -> B) a u : reads m a u -> reads (w ← m; mret (g w)) a (g u).
Proof. intros R. rewrite <- (app_nil_r a). eapply reads_bind; [exact R|apply reads_ret]. Qed.

Lemma GET_VALUE_reads n a : Z.of_nat (length a) = n -> reads (GET_VALUE n) a (le_val a).
Proof.
  intros En p q r Ho Hl Hs. rewrite !length_app in Hl. eapply runs_bind; [apply runs_get|done|]. cbv zeta.
  destruct (Z.ltb_spec (sz r) (off r + n)); [lia|].
  eapply runs_bind; [apply runs_peek; lia|done|]. eapply runs_bind; [apply set_off_runs; lia|done|].
  replace (part (Z.to_nat (off r)) (Z.to_nat n) (p ++ a ++ q)) with a.
  - rewrite En. apply runs_ret.
  - rewrite Ho, Nat2Z.id. symmetry. apply part_app. lia.
Qed.

Lemma le_val_int n (v : Z) : n = 8 \/ n = 4 -> le_val (le_bytes (Z.to_nat n) v) = wrap (8 * n) v.
Proof. intros [->| ->]; apply le_val_bytes. Qed.

Lemma SKIP_LEN_runs n bs r : 0 <= n -> 0 <= off r -> off r + n <= sz r < 2 ^ 32 -> runs (SKIP_LEN n) bs r (Go tt) bs (at_offset (off r + n) r).
Proof.
  intros Hn Ho Hs. eapply runs_bind; [apply runs_get|done|]. cbv zeta. rewrite wrap_small by (split; lia).
  destruct (Z.ltb_spec (sz r) (off r + n)); [lia|]. apply set_off_runs. lia.
Qed.

Lemma SKIP_SIZE_runs n bs r : 0 <= n -> 0 <= off r -> off r + n <= sz r < 2 ^ 32 -> runs (SKIP_SIZE n) bs r (Go tt) bs (at_offset (off r + n) r).
Proof.
  intros Hn Ho Hs. eapply runs_bind; [apply runs_get|done|]. cbv zeta.
  destruct (Z.ltb_spec (sz r) (off r + n)); [lia|]. apply set_off_runs. lia.
Qed.

Lemma bin_reads a : Z.of_nat (length a) < 2 ^ 31 ->
  reads (v ← GET_VALUE 4; let len := sext 32 v in r ← get; SKIP_LEN len;;
         if len <? 0 then mret (VBadBin len) else bs ← peek (offset_ (rc r)) len; mret (VBin bs))
    (le_bytes 4 (Z.of_nat (length a)) ++ a) (VBin a).
Proof.
  intros Ha. eapply reads_bind; [by apply GET_VALUE_reads|].
  rewrite le_val_bytes. change (256 ^ Z.of_nat 4) with (2 ^ 32). rewrite Z.mod_small by lia. cbv zeta.
  assert (sext 32 (Z.of_nat (length a)) = Z.of_nat (length a)) as ->.
  { unfold sext. destruct (Z.ltb_spec (Z.of_nat (length a)) (2 ^ (32 - 1))); [done|lia]. }
  intros p q r Ho Hl Hs. rewrite !length_app in Hl. eapply runs_bind; [apply runs_get|done|].
  eapply runs_bind; [apply SKIP_LEN_runs; lia|done|].
  destruct (Z.ltb_spec (Z.of_nat (length a)) 0); [lia|]. eapply runs_bind; [apply runs_peek; simpl; lia|done|].
  rewrite Ho, !Nat2Z.id, part_app by done. apply runs_ret.
Qed.

Lemma decode_field_reads f v : fits f v = true -> reads (decode_field f) (enc_field f v) (stored f v).
Proof.
  unfold fits, decode_field, enc_field, stored. pose proof (int_size_cases f) as Hi. destruct (field_type f), v; try done; intros Hf;
    try (apply bin_reads; lia).
  - unfold int_size in *. destruct (4 <? field_size f); rewrite <- (le_val_int _ z Hi);
      (apply (reads_map _ (fun z => VInt (sext _ z))), GET_VALUE_reads; by rewrite le_bytes_length).
  - rewrite <- (le_val_int _ z Hi). apply (reads_map _ VInt), GET_VALUE_reads. rewrite le_bytes_length. lia.
  - destruct (4 <? field_size f).
    + rewrite <- (le_val_int 8) by tauto. by apply (reads_map _ VFlt), GET_VALUE_reads.
    + rewrite <- (le_val_int 4) by tauto. by apply (reads_map _ (fun z => VFlt (widen z))), GET_VALUE_reads.
Qed.

Lemma skip_field_reads f v : fits f v = true -> reads (skip_field f) (enc_field f v) tt.
Proof.
  intros Hf. pose proof (field_bytes_length f v Hf) as Hb. revert Hf Hb. unfold fits, skip_field, enc_field, field_bytes.
  assert (forall n a, Z.of_nat (length a) = n -> reads (SKIP_SIZE n) a tt) as Hsk.
  { intros n a En p q r Ho Hl Hs. rewrite !length_app in Hl. rewrite En. apply SKIP_SIZE_runs; lia. }
  assert (forall a, Z.of_nat (length a) < 2 ^ 31 -> reads (v ← GET_VALUE 4; SKIP_LEN (sext 32 v)) (le_bytes 4 (Z.of_nat (length a)) ++ a) tt) as Hsb.
  { intros a Ha. eapply reads_bind; [by apply GET_VALUE_reads|]. rewrite le_val_bytes. change (256 ^ Z.of_nat 4) with (2 ^ 32). rewrite Z.mod_small by lia.
    assert (sext 32 (Z.of_nat (length a)) = Z.of_nat (length a)) as ->.
    { unfold sext. destruct (Z.ltb_spec (Z.of_nat (length a)) (2 ^ (32 - 1))); [done|lia]. }
    intros p q r Ho Hl Hs. rewrite !length_app in Hl. apply SKIP_LEN_runs; lia. }
  destruct (field_type f), v; try done; intros Hf Hb; apply (inj Some) in Hb;
    first [apply Hsk; symmetry; exact Hb|apply Hsb; lia].
Qed.

Lemma skip_fields_reads fs vs : row_fits fs vs = true -> reads (skip_fields fs) (enc_fields fs vs) tt.
Proof.
  revert vs. induction fs as [|f fs IH]; intros [|v vs] Hf; try done; [apply reads_ret|]. simpl in Hf. apply andb_true_iff in Hf as [Hv Hr].
  cbn [skip_fields enc_fields]. eapply reads_bind; [|by apply IH]. destruct (is_discard f); [apply reads_ret|by apply skip_field_reads].
Qed.

(** The cursor at [o], with some offset of the last-access field. *)
Definition la_offset (la : Z) r : RawData := on_rc (set_LAOffset la) r.

Lemma decode_fields_runs fs vs old j : row_fits fs vs = true -> length old = length fs -> forall p q r,
  off r = Z.of_nat (length p) -> length (p ++ enc_fields fs vs ++ q) = Z.to_nat (sz r) -> 0 <= sz r < 2 ^ 32 ->
  exists la, runs (decode_fields fs j old) (p ++ enc_fields fs vs ++ q) r (Go (stored_fields fs vs old))
    (p ++ enc_fields fs vs ++ q) (at_offset (off r + Z.of_nat (length (enc_fields fs vs))) (la_offset la r)).
Proof.
  revert vs old j. induction fs as [|f fs IH]; intros [|v vs] [|w old] j Hf Hlen p q r Ho Hl Hs; try done.
  { exists (m_uiLAOffset (rc r)). simpl. rewrite Z.add_0_r.
    replace (at_offset (off r) (la_offset (m_uiLAOffset (rc r)) r)) with r by (by destruct r as [? ? ? []]). apply runs_ret. }
  simpl in Hf. apply andb_true_iff in Hf as [Hv Hr]. injection Hlen as Hlen. cbn [enc_fields] in *.
  set (a := if is_discard f then [] else enc_field f v) in *. rewrite <- app_assoc in Hl |- *.
  assert (exists la, runs (if is_discard f then mret w
            else r ← get; (if j =? m_iLAId (rf r) then upd (on_rc (set_LAOffset (offset_ (rc r)))) else mret tt);; decode_field f)
      (p ++ a ++ enc_fields fs vs ++ q) r (Go (if is_discard f then w else stored f v)) (p ++ a ++ enc_fields fs vs ++ q)
      (at_offset (off r + Z.of_nat (length a)) (la_offset la r))) as [la R1].
  { unfold a in *. destruct (is_discard f).
    - exists (m_uiLAOffset (rc r)). simpl. rewrite Z.add_0_r.
      replace (at_offset (off r) (la_offset (m_uiLAOffset (rc r)) r)) with r by (by destruct r as [? ? ? []]). apply runs_ret.
    - exists (if j =? m_iLAId (rf r) then off r else m_uiLAOffset (rc r)).
      eapply runs_bind; [apply runs_get|done|]. eapply (runs_bind _ _ _ _ tt _ (la_offset (if j =? m_iLAId (rf r) then off r else m_uiLAOffset (rc r)) r)); [|done|].
      + destruct (j =? m_iLAId (rf r)); [by apply runs_upd|].
        replace (la_offset (m_uiLAOffset (rc r)) r) with r by (by destruct r as [? ? ? []]). apply runs_ret.
      + by apply (decode_field_reads f v Hv p (enc_fields fs vs ++ q) (la_offset _ r)). }
  destruct (IH vs old (j + 1) Hr Hlen (p ++ a) q (at_offset (off r + Z.of_nat (length a)) (la_offset la r))) as [la' R2];
    [simpl; rewrite length_app; lia|by rewrite <- app_assoc|done|].
  exists la'. cbn [decode_fields stored_fields]. eapply runs_bind; [exact R1|done|]. rewrite <- app_assoc in R2.
  eapply runs_bind; [exact R2|done|].
  replace (at_offset (off r + Z.of_nat (length (a ++ enc_fields fs vs))) (la_offset la' r))
    with (at_offset (off (at_offset (off r + Z.of_nat (length a)) (la_offset la r)) + Z.of_nat (length (enc_fields fs vs)))
      (la_offset la' (at_offset (off r + Z.of_nat (length a)) (la_offset la r)))).
  - apply runs_ret.
  - unfold at_offset, la_offset, on_rc, set_offset, set_LAOffset. simpl. do 2 f_equal. rewrite length_app. lia.
Qed.

End Rows.
