(* ===== verification/RawSpec.v ===== *)
(** * What the operations on a row block do

    A block is its header, its key and its rows; the operations of [RawData]
    add, remove and replace rows of that list. *)

From S2P Require Import Prelude PtMalloc PtMallocSpec MallocBase RawData RawBytes RawRows.

(** ** The layout of a block *)

Definition body (fs : list FieldDef) (rows : list (Z * list DTCValue)) : list Z := mjoin (enc_row fs <$> rows).

Record block := mkBlock { b_type : Z; b_count : Z; b_stamps : list Z; b_key : list Z }.

(** The header, with the size [n] and the number of rows [k], and the key. *)
Definition head (b : block) (n k : Z) : list Z :=
  [b_type b] ++ le_bytes 4 n ++ le_bytes 4 k ++ (b_count b :: b_stamps b ++ b_key b).

Definition counts (n k : Z) (bs : list Z) : list Z := splice 5 (le_bytes 4 k) (splice 1 (le_bytes 4 n) bs).

Lemma counts_head b n k n0 k0 q : counts n k (head b n0 k0 ++ q) = head b n k ++ q.
Proof.
  unfold counts, head. rewrite <- !app_assoc. rewrite (splice_app [b_type b] (le_bytes 4 n) (le_bytes 4 n0)) by (by rewrite !le_bytes_length).
  pose proof (splice_app ([b_type b] ++ le_bytes 4 n) (le_bytes 4 k) (le_bytes 4 k0)) as Hs.
  rewrite length_app, !le_bytes_length in Hs. specialize (Hs ((b_count b :: b_stamps b ++ b_key b) ++ q) eq_refl). rewrite <- !app_assoc in Hs. exact Hs.
Qed.

Lemma head_length b n k : length (head b n k) = (10 + length (b_stamps b) + length (b_key b))%nat.
Proof. unfold head. rewrite !length_app. simpl. rewrite !length_app. lia. Qed.

Lemma body_app fs l1 l2 : body fs (l1 ++ l2) = body fs l1 ++ body fs l2.
Proof. unfold body. by rewrite fmap_app, join_app. Qed.

Lemma body_cons fs row l : body fs (row :: l) = enc_row fs row ++ body fs l.
Proof. done. Qed.

Lemma body_one fs row : body fs [row] = enc_row fs row.
Proof. rewrite body_cons. apply app_nil_r. Qed.

Lemma splice_skip p o a q : splice (length p + o) a (p ++ q) = p ++ splice o a q.
Proof.
  unfold splice. rewrite take_app_add, <- Nat.add_assoc, drop_app_add, <- app_assoc. done.
Qed.

(** The two moves of [insert_row_flag]. *)
Lemma rotate h b a q : splice (length h) a (splice (length h + length a) b (h ++ b ++ a ++ q)) = h ++ a ++ b ++ q.
Proof.
  rewrite splice_skip, <- (Nat.add_0_r (length h)), splice_skip. f_equal.
  rewrite app_assoc. rewrite <- (take_drop (length a) (b ++ a)) at 1. rewrite <- app_assoc.
  assert (length (take (length a) (b ++ a)) = length a) as E1 by (rewrite length_take, length_app; lia).
  rewrite <- E1 at 1. rewrite (splice_app (take (length a) (b ++ a)) b (drop (length a) (b ++ a)) q) by (rewrite length_drop, length_app; lia).
  by apply (splice_app [] a (take (length a) (b ++ a)) (b ++ q)).
Qed.

Lemma body_rows fs rows : (length rows <= length (body fs rows))%nat.
Proof. induction rows as [|row rows IH]; [done|]. rewrite body_cons, length_app. simpl. lia. Qed.

(** The bytes [bs] and the object [r] hold block [b] with [rows]; after them
    there are [slack] bytes. *)
Record shape (t : TableDef) (b : block) (rows : list (Z * list DTCValue)) (slack bs : list Z) (r : RawData) : Prop := {
  sp_bytes : bs = head b (data_size_ (rc r)) (row_count_ (rc r)) ++ body (row_fields t r) rows ++ slack;
  sp_start : data_start_ (rh r) = Z.of_nat (length (head b 0 0));
  sp_size : data_size_ (rc r) = data_start_ (rh r) + Z.of_nat (length (body (row_fields t r) rows));
  sp_count : row_count_ (rc r) = Z.of_nat (length rows);
  sp_fits : Forall (fun row => row_fits (row_fields t r) row.2 = true) rows;
  sp_stamps : length (b_stamps b) = 6%nat;
  sp_limit : data_size_ (rc r) < 2 ^ 31
}.

Lemma head_eq b n k : head b n k = [b_type b] ++ le_bytes 4 n ++ le_bytes 4 k ++ [b_count b] ++ b_stamps b ++ b_key b.
Proof. done. Qed.

#[global] Opaque head body counts.

Section Spec.

Context {S : Type} `{MallocLaws S}.

Implicit Types (x y : RState S) (Hp : heap) (bs : list Z) (r : RawData) (t : TableDef).

Abbreviation sz r := (size_ (rm r)).
Abbreviation off r := (offset_ (rc r)).

(** ** Counters *)

Lemma set_data_size_runs bs r : 9 <= sz r -> runs set_data_size bs r (Go (-100)) (splice 1 (le_bytes 4 (data_size_ (rc r))) bs) r.
Proof.
  intros Hs. eapply runs_bind; [apply runs_get|done|]. apply runs_go_label. eapply runs_bind; [|done|apply runs_ret].
  eapply runs_bind; [apply runs_get|done|]. destruct (Z.ltb_spec (sz r) (1 + 4)); [lia|]. apply runs_poke; rewrite ?le_bytes_length; lia.
Qed.

Lemma set_row_count_runs bs r : 9 <= sz r -> runs set_row_count bs r (Go (-100)) (splice 5 (le_bytes 4 (row_count_ (rc r))) bs) r.
Proof.
  intros Hs. eapply runs_bind; [apply runs_get|done|]. apply runs_go_label. eapply runs_bind; [|done|apply runs_ret].
  eapply runs_bind; [apply runs_get|done|]. destruct (Z.ltb_spec (sz r) (5 + 4)); [lia|]. apply runs_poke; rewrite ?le_bytes_length; lia.
Qed.

Lemma put_counts_runs n k bs r : 9 <= sz r -> 0 <= n < 2 ^ 32 -> 0 <= k < 2 ^ 32 ->
  runs (put_counts n k) bs r (Go tt) (counts n k bs) (on_rc (set_counts n k) r).
Proof.
  intros Hs Hn Hk. unfold put_counts. rewrite !wrap_small by done. eapply runs_bind; [by apply runs_upd|done|].
  eapply runs_bind; [by apply set_data_size_runs|done|]. eapply runs_bind; [by apply set_row_count_runs|done|]. apply runs_ret.
Qed.

(** ** Encoding a row at the cursor *)

Lemma calc_row_size_runs t row vs op bs r : row_values row r = vs -> row_fits (row_fields t r) vs = true ->
  Z.of_nat (length (enc_row (row_fields t r) (op, vs))) < 2 ^ 32 ->
  runs (calc_row_size t row) bs r (Go (Z.of_nat (length (enc_row (row_fields t r) (op, vs))))) bs r.
Proof.
  intros Ev Hf Hs. unfold enc_row in *. simpl in Hs |- *. eapply runs_bind; [apply runs_get|done|]. rewrite Ev.
  replace (Z.of_nat (Datatypes.S (length (enc_fields (row_fields t r) vs)))) with (1 + Z.of_nat (length (enc_fields (row_fields t r) vs))) by lia.
  apply fields_size_runs; [done|lia|lia].
Qed.

Lemma encode_row_runs t row vs op bs r (a := enc_row (row_fields t r) (op, vs)) : row_values row r = vs -> row_fits (row_fields t r) vs = true ->
  9 <= off r -> off r + Z.of_nat (length a) <= sz r < 2 ^ 32 -> length bs = Z.to_nat (sz r) ->
  0 <= data_size_ (rc r) -> data_size_ (rc r) + Z.of_nat (length a) < 2 ^ 32 -> 0 <= row_count_ (rc r) < 2 ^ 32 - 1 ->
  runs (encode_row t row op false) bs r (Go 0)
    (counts (data_size_ (rc r) + Z.of_nat (length a)) (row_count_ (rc r) + 1) (splice (Z.to_nat (off r)) a bs))
    (on_rc (set_counts (data_size_ (rc r) + Z.of_nat (length a)) (row_count_ (rc r) + 1)) (at_offset (off r + Z.of_nat (length a)) r)).
Proof.
  intros Ev Hf Ho Hs Hl Hd Hn Hk. unfold encode_row. eapply runs_bind; [apply (calc_row_size_runs t row vs op); [done|done|fold a; lia]|done|]. fold a.
  eapply runs_bind; [apply runs_ret|done|]. cbn [negb Z.eqb]. apply runs_go_label.
  assert (length a = Datatypes.S (length (enc_fields (row_fields t r) vs))) as Ea by done.
  eapply runs_bind; [apply (SET_VALUE_writes op 1 ltac:(lia)); change (length (le_bytes (Z.to_nat 1) op)) with 1%nat; lia|done|].
  change (Z.of_nat (length (le_bytes (Z.to_nat 1) op))) with 1. eapply runs_bind; [apply runs_get|done|].
  change (row_fields t (at_offset (off r + 1) r)) with (row_fields t r). change (row_values row (at_offset (off r + 1) r)) with (row_values row r). rewrite Ev.
  eapply runs_bind; [apply encode_fields_writes; [done|simpl; lia|simpl; lia|]|done|].
  { rewrite splice_length; [done|]. change (length (le_bytes (Z.to_nat 1) op)) with 1%nat. lia. }
  simpl off. replace (Z.to_nat (off r + 1)) with (Z.to_nat (off r) + length (le_bytes (Z.to_nat 1) op))%nat by (change (length (le_bytes (Z.to_nat 1) op)) with 1%nat; lia).
  rewrite splice_splice by (change (length (le_bytes (Z.to_nat 1) op)) with 1%nat; lia).
  change (le_bytes (Z.to_nat 1) op ++ enc_fields (row_fields t r) vs) with a.
  eapply runs_bind; [apply runs_get|done|]. eapply runs_bind; [by apply runs_upd|done|].
  eapply runs_bind; [apply set_data_size_runs; simpl; lia|done|]. eapply runs_bind; [by apply runs_upd|done|].
  eapply runs_bind; [apply set_row_count_runs; simpl; lia|done|].
  simpl. rewrite !wrap_small by (split; lia). replace (off r + 1 + Z.of_nat (length (enc_fields (row_fields t r) vs))) with (off r + Z.of_nat (length a)) by lia.
  apply runs_ret.
Qed.

(** ** Growing the block *)

(** From [x] to [y] the object's block may have moved; the other blocks stay. *)
Record carried x Hp r y Hp' r' : Prop := {
  ca_heap : delete (handle_ (rm r')) Hp' = delete (handle_ (rm r)) Hp;
  ca_kept : others_kept (handle_ (rm r)) Hp x y
}.

Lemma carried_refl x Hp r y r' : handle_ (rm r') = handle_ (rm r) -> others_kept (handle_ (rm r)) Hp x y -> carried x Hp r y Hp r'.
Proof. intros E K. split; [by rewrite E|done]. Qed.

Lemma carried_trans x Hp r y Hp1 r1 z Hp2 r2 : carried x Hp r y Hp1 r1 -> carried y Hp1 r1 z Hp2 r2 -> carried x Hp r z Hp2 r2.
Proof.
  intros [A1 B1] [A2 B2]. split; [congruence|]. intros w Hw. rewrite B2; [by apply B1|]. unfold others_kept in *. by rewrite A1.
Qed.

Definition with_block (h n : Z) r : RawData := on_rm (fun m => mkMemory h n h (need_new_bufer_size m)) r.

Lemma realloc_run x Hp bs r n : view x Hp bs r -> 0 < n < 2 ^ 31 ->
  exists h y, m_alloc (m_ReAlloc (handle_ (rm r)) n) x = Some (Go h, y)
  /\ (h = INVALID_HANDLE /\ view y Hp bs r /\ others_kept (handle_ (rm r)) Hp x y
      \/ h ≠ INVALID_HANDLE /\ exists Hp' bs' m, take_block h y = Some (Go tt, mkR (rs y) (with_block h m r)) /\ n <= m
         /\ view (mkR (rs y) (with_block h m r)) Hp' bs' (with_block h m r)
         /\ (forall k, (k < Z.to_nat (Z.min (sz r) n))%nat -> bs' !! k = bs !! k)
         /\ carried x Hp r (mkR (rs y) (with_block h m r)) Hp' (with_block h m r)).
Proof.
  intros V Hn. destruct (view_size _ _ _ _ V) as (Hh & Hsz & Hlen). pose proof V as [V1 V2 V3 V4 V5].
  destruct (m_ReAlloc_ok _ _ _ _ n V2 V3 Hn) as (h & st & E & O). exists h, (mkR st r). split; [unfold m_alloc; by rewrite E, V1|].
  assert (forall z, in_heap (delete (handle_ (rm r)) Hp) z -> in_heap Hp z) as Hsub by (intros z (a & b & [_ Hl]%lookup_delete_Some & Hz); by exists a, b).
  destruct O as [(-> & R & K)|(m & Hm & Hh' & Hf & R & K & Hk)]; [left|right].
  - split_and!; [done| |intros z Hz; apply K; by apply Hsub]. split; try done. simpl. rewrite <- V5. unfold load_bytes. apply list_fmap_ext.
    intros k j Hj. apply K. exists (handle_ (rm r)), (sz r). split; [done|]. apply lookup_seq in Hj. lia.
  - split; [done|]. eexists _, _, m. assert (m_chunk_size h st = m) as Em by (eapply m_chunk_size_ok; [exact R|apply lookup_insert_eq]).
    split_and!; [unfold take_block, chunk_size_of, upd, mbind, rprog_bind; simpl; by rewrite Em|done| | |].
    + split; simpl; [done|exact R|apply lookup_insert_eq|done|reflexivity].
    + intros k Hkk. simpl. rewrite load_bytes_lookup, Hk by lia. rewrite <- V5, load_bytes_lookup by lia. done.
    + split; [|done]. simpl. rewrite delete_insert_eq. by apply delete_id.
Qed.

(** The block has room for [e] more bytes, or there is no memory. *)
Lemma expand_chunk_run x Hp bs r e : view x Hp bs r -> 0 <= data_size_ (rc r) <= sz r -> 0 <= e -> 0 < data_size_ (rc r) + e < 2 ^ 31 ->
  exists res y, expand_chunk e x = Some (Go res, y)
  /\ (res = EC_NO_MEM /\ view y Hp bs (on_rm (set_need (data_size_ (rc r) + e)) r) /\ others_kept (handle_ (rm r)) Hp x y
      \/ res = 0 /\ exists Hp' bs' h m, view y Hp' bs' (with_block h m r) /\ data_size_ (rc r) + e <= m
         /\ take (Z.to_nat (data_size_ (rc r))) bs' = take (Z.to_nat (data_size_ (rc r))) bs
         /\ carried x Hp r y Hp' (with_block h m r)).
Proof.
  intros V Hd He Hn. destruct (view_size _ _ _ _ V) as (Hh & Hsz & Hlen). unfold expand_chunk.
  erewrite rbind_go by (unfold get; by rewrite (vw_raw _ _ _ _ V)). destruct (Z.eqb_spec (handle_ (rm r)) INVALID_HANDLE); [unfold INVALID_HANDLE in *; lia|].
  cbv zeta. rewrite wrap_small by (split; lia). destruct (Z.ltb_spec (sz r) (data_size_ (rc r) + e)) as [Hlt|Hge].
  - destruct (realloc_run x Hp bs r (data_size_ (rc r) + e) V ltac:(lia)) as (h & y & E & O). erewrite rbind_go by exact E.
    destruct O as [(-> & V' & K)|(Hh' & Hp' & bs' & m & E' & Hm & V' & Hk & C)].
    + rewrite Z.eqb_refl. eexists _, _. split; [by erewrite rbind_go by done|]. left. split_and!; [done| |done].
      destruct V' as [W1 W2 W3 W4 W5]. by split; simpl; rewrite ?W1.
    + destruct (Z.eqb_spec h INVALID_HANDLE); [done|]. eexists 0, _. split; [by erewrite rbind_go by exact E'|]. right. split; [done|].
      exists Hp', bs', h, m. split_and!; [done|done| |done]. apply (take_agree _ _ _ _ Hk). lia.
  - exists 0, x. split; [done|]. right. split; [done|]. exists Hp, bs, (handle_ (rm r)), (sz r).
    assert (with_block (handle_ (rm r)) (sz r) r = r) as ->.
    { pose proof (vw_ptr _ _ _ _ V) as Ep. clear -Ep. destruct r as [[]]. simpl in Ep. by subst. }
    split_and!; [done|lia|done|by apply carried_refl].
Qed.

(** ** Adding a row *)

Lemma shape_bounds x Hp t b rows slack bs r : view x Hp bs r -> shape t b rows slack bs r ->
  16 <= data_start_ (rh r) <= data_size_ (rc r) /\ data_size_ (rc r) + Z.of_nat (length slack) = sz r /\ 0 <= row_count_ (rc r) <= data_size_ (rc r)
  /\ sz r < 2 ^ 32 /\ length bs = Z.to_nat (sz r).
Proof.
  intros V [B1 B2 B3 B4 B5 B6 B7]. destruct (view_size _ _ _ _ V) as (_ & Hsz & Hlen). rewrite B1, !length_app, !head_length in Hlen.
  rewrite head_length in B2. pose proof (body_rows (row_fields t r) rows). split_and!; try lia. rewrite B1, !length_app, head_length. lia.
Qed.

(** [insert_row_flag] after the block has grown: the row goes to the end. *)
Lemma append_row_run x Hp t b rows slack bs r row vs op (a := enc_row (row_fields t r) (op, vs)) :
  view x Hp bs r -> shape t b rows slack bs r -> off r = data_size_ (rc r) -> (length a <= length slack)%nat ->
  data_size_ (rc r) + Z.of_nat (length a) < 2 ^ 31 -> row_values row r = vs -> row_fits (row_fields t r) vs = true ->
  exists y bs' r', encode_row t row op false x = Some (Go 0, y) /\ view y Hp bs' r'
  /\ shape t b (rows ++ [(op, vs)]) (drop (length a) slack) bs' r' /\ rm r' = rm r /\ rf r' = rf r /\ rh r' = rh r
  /\ off r' = data_size_ (rc r') /\ data_size_ (rc r') = data_size_ (rc r) + Z.of_nat (length a) /\ row_offset_ (rc r') = row_offset_ (rc r) /\ others_kept (handle_ (rm r)) Hp x y.
Proof.
  intros V Sh Ho Ha Hd Ev Hf. destruct (shape_bounds _ _ _ _ _ _ _ _ V Sh) as (Hst & Hsl & Hrc & Hsz & Hlen).
  destruct (encode_row_runs t row vs op bs r Ev Hf ltac:(lia) ltac:(fold a; lia) Hlen ltac:(lia) ltac:(fold a; lia) ltac:(lia) x Hp V) as (y & E & V' & K).
  fold a in E, V'. pose proof (body_one (row_fields t r) (op, vs)) as Eb. fold a in Eb. clearbody a. eexists y, _, _. split_and!; [exact E|exact V'| |done|done|done| |done|done|done]; [|simpl; lia].
  destruct Sh as [B1 B2 B3 B4 B5 B6 B7]. change (row_fields t (on_rc _ _)) with (row_fields t r). split; simpl.
  - change (row_fields t _) with (row_fields t r). rewrite Ho, B1, app_assoc.
    assert (Z.to_nat (data_size_ (rc r)) = length (head b (data_size_ (rc r)) (row_count_ (rc r)) ++ body (row_fields t r) rows)) as ->.
    { rewrite B3, B2, length_app, !head_length. lia. }
    rewrite <- (take_drop (length a) slack) at 1. rewrite splice_app by (rewrite length_take; lia).
    rewrite <- app_assoc, counts_head. rewrite body_app, Eb. by rewrite <- !app_assoc.
  - exact B2.
  - change (row_fields t _) with (row_fields t r). rewrite body_app, Eb, length_app. lia.
  - rewrite length_app. simpl. lia.
  - apply Forall_app. split; [done|]. repeat constructor. exact Hf.
  - done.
  - lia.
Qed.

(** [x] holds, as the block of [r], block [b] of table [t] with [rows]. *)
Definition holds x Hp t b rows r : Prop := exists slack bs, view x Hp bs r /\ shape t b rows slack bs r.

(** The object is the same but for its block and its cursor. *)
Definition same_table r r' : Prop := rf r' = rf r /\ rh r' = rh r.

Lemma shape_moved t b rows slack bs bs' r r' : shape t b rows slack bs r -> same_table r r' ->
  data_size_ (rc r') = data_size_ (rc r) -> row_count_ (rc r') = row_count_ (rc r) ->
  take (Z.to_nat (data_size_ (rc r))) bs' = take (Z.to_nat (data_size_ (rc r))) bs ->
  shape t b rows (drop (Z.to_nat (data_size_ (rc r))) bs') bs' r'.
Proof.
  intros [B1 B2 B3 B4 B5 B6 B7] [Ef Eh] Ed Ek Et. assert (row_fields t r' = row_fields t r) as Er by (unfold row_fields; by rewrite Ef).
  split; rewrite ?Er, ?Ed, ?Ek, ?Eh; try done. rewrite <- (take_drop (Z.to_nat (data_size_ (rc r))) bs') at 1. rewrite Et, B1, app_assoc.
  rewrite take_app_length'; [by rewrite <- app_assoc|]. rewrite length_app, B3, B2, !head_length. lia.
Qed.

Lemma calc_row_size_same t row (x : RState S) o y : calc_row_size t row x = Some (o, y) -> y = x.
Proof.
  unfold calc_row_size. erewrite rbind_go by reflexivity. generalize (row_values row (raw x)) 1. induction (row_fields t (raw x)) as [|f fs IH]; intros [|v vs] n; cbn [fields_size]; intros E; try (unfold crash in E; by inversion E).
  destruct (is_discard f); [by eapply IH|]. destruct (field_bytes f v); [by eapply IH|by inversion E].
Qed.

Lemma calc_row_size_eq x Hp bs t row vs op r (a := enc_row (row_fields t r) (op, vs)) : view x Hp bs r -> row_values row r = vs ->
  row_fits (row_fields t r) vs = true -> Z.of_nat (length a) < 2 ^ 32 -> calc_row_size t row x = Some (Go (Z.of_nat (length a)), x).
Proof.
  intros V Ev Hf Ha. destruct (calc_row_size_runs t row vs op bs r Ev Hf Ha x Hp V) as (y & E & _). by rewrite E, (calc_row_size_same _ _ _ _ _ E).
Qed.

(** [encode_row] with [expendBuf] is [expand_chunk] and then [encode_row]. *)
Lemma encode_row_expand x y Hp Hp' bs bs' t row vs op r r' (a := enc_row (row_fields t r) (op, vs)) : view x Hp bs r -> view y Hp' bs' r' -> same_table r r' ->
  row_values row r = vs -> row_fits (row_fields t r) vs = true -> Z.of_nat (length a) < 2 ^ 32 ->
  expand_chunk (Z.of_nat (length a)) x = Some (Go 0, y) -> encode_row t row op true x = encode_row t row op false y.
Proof.
  intros V V' [Ef _] Ev Hf Ha E. unfold encode_row. erewrite rbind_go by (by eapply calc_row_size_eq). erewrite rbind_go by exact E.
  assert (row_fields t r' = row_fields t r) as Er by (unfold row_fields; by rewrite Ef).
  assert (row_values row r' = row_values row r) as Ew by (unfold row_values; by rewrite Ef).
  symmetry. erewrite rbind_go by (eapply (calc_row_size_eq y Hp' bs' t row vs op r'); rewrite ?Er, ?Ew; done). rewrite Er. by erewrite rbind_go by reflexivity.
Qed.

Lemma expand_holds x Hp t b rows r e : holds x Hp t b rows r -> 0 <= e -> data_size_ (rc r) + e < 2 ^ 31 ->
  exists res y, expand_chunk e x = Some (Go res, y)
  /\ (res = EC_NO_MEM /\ holds y Hp t b rows (on_rm (set_need (data_size_ (rc r) + e)) r) /\ carried x Hp r y Hp (on_rm (set_need (data_size_ (rc r) + e)) r)
      \/ res = 0 /\ exists Hp' h m slack bs, view y Hp' bs (with_block h m r) /\ shape t b rows slack bs (with_block h m r) /\ e <= Z.of_nat (length slack)
         /\ carried x Hp r y Hp' (with_block h m r)).
Proof.
  intros (slack & bs & V & Sh) He Hd. destruct (shape_bounds _ _ _ _ _ _ _ _ V Sh) as (Hst & Hsl & Hrc & Hsz & Hlen).
  destruct (expand_chunk_run x Hp bs r e V ltac:(lia) He ltac:(lia)) as (res & y & E & O). exists res, y. split; [done|].
  destruct O as [(-> & V' & K)|(-> & Hp' & bs' & h & m & V' & Hm & Et & C)]; [left|right]; (split; [done|]).
  - split; [|by apply carried_refl]. exists slack, bs. split; [done|]. by destruct Sh; split.
  - pose proof (shape_moved t b rows slack bs bs' r (with_block h m r) Sh ltac:(done) eq_refl eq_refl Et) as Sh'.
    exists Hp', h, m, (drop (Z.to_nat (data_size_ (rc r))) bs'), bs'. split_and!; [done|done| |done].
    destruct (shape_bounds _ _ _ _ _ _ _ _ V' Sh') as (_ & Hs' & _). simpl in Hs'. lia.
Qed.

End Spec.
