(* ===== verification/RawOps.v ===== *)
(** The operations on the rows of a block, as [RawData] has them in
    core/raw/raw_data.cc: each takes an object that holds a list of rows to
    one that holds the changed list, and an operation that fails leaves the
    rows as they were. *)

From stdpp Require Import base list gmap.
From S2P Require Import Prelude PtMalloc PtMallocSpec MallocBase RawData RawBytes RawRows RawSpec.

Local Open Scope Z_scope.

(** ** What the operations do to the rows *)

Abbreviation Rows := (list (Z * list DTCValue)).

Definition put_rows (sys byFirst : bool) (new rows : Rows) : Rows := if byFirst && sys then new ++ rows else rows ++ new.

(** Moving the rows to the front needs a temporary buffer. *)
Definition put_code (sys byFirst : bool) (new rows : Rows) : Z :=
  if byFirst && negb sys && negb (bool_decide (new = [])) && negb (bool_decide (rows = [])) then - ENOMEM else 0.

Section RawOps.

Context {S : Type} `{MallocLaws S}.

Implicit Types (x y : RState S) (Hp : heap) (bs : list Z) (r : RawData) (t : TableDef).

Abbreviation sz r := (size_ (rm r)).
Abbreviation off r := (offset_ (rc r)).

Lemma encode_row_holds x Hp t b rows r row vs op (a := enc_row (row_fields t r) (op, vs)) : holds x Hp t b rows r -> off r = data_size_ (rc r) ->
  row_values row r = vs -> row_fits (row_fields t r) vs = true -> data_size_ (rc r) + Z.of_nat (length a) < 2 ^ 31 ->
  exists res y Hp' r', encode_row t row op true x = Some (Go res, y) /\ same_table r r' /\ carried x Hp r y Hp' r'
  /\ (res = EC_NO_MEM /\ holds y Hp' t b rows r' /\ rc r' = rc r /\ handle_ (rm r') = handle_ (rm r)
      \/ res = 0 /\ holds y Hp' t b (rows ++ [(op, vs)]) r' /\ off r' = data_size_ (rc r') /\ data_size_ (rc r') = data_size_ (rc r) + Z.of_nat (length a)
         /\ row_offset_ (rc r') = row_offset_ (rc r)).
Proof.
  intros Ho Eo Ev Hf Hd. pose proof Ho as (slack & bs & V & Sh). destruct (shape_bounds _ _ _ _ _ _ _ _ V Sh) as (Hst & _).
  destruct (expand_holds x Hp t b rows r (Z.of_nat (length a)) Ho ltac:(lia) Hd) as (res & y & E & [(-> & Ho' & C)|(-> & Hp1 & h & m & slack1 & bs1 & V1 & Sh1 & Hsl & C)]).
  - exists EC_NO_MEM, y, Hp, (on_rm (set_need (data_size_ (rc r) + Z.of_nat (length a))) r). split_and!; [|done|exact C|by left]. unfold encode_row. erewrite rbind_go by (apply (calc_row_size_eq x Hp bs t row vs op r V Ev Hf); fold a; lia).
    by erewrite rbind_go by exact E.
  - destruct (append_row_run y Hp1 t b rows slack1 bs1 (with_block h m r) row vs op V1 Sh1 Eo ltac:(change (length a <= length slack1)%nat; lia) Hd Ev Hf)
      as (z & bs2 & r2 & E2 & V2 & Sh2 & Em & Ef & Eh & Eo2 & Ed2 & Er & K).
    exists 0, z, Hp1, r2. split_and!; [|done| |].
    + by erewrite encode_row_expand; [exact E2|exact V|exact V1|done|exact Ev|done|fold a; lia|exact E].
    + eapply carried_trans; [exact C|]. apply carried_refl; [by rewrite Em|done].
    + right. split_and!; try done. by eexists _, _.
Qed.

(** ** Insertion *)

Lemma part_mid p a q n m : length p = n -> length a = m -> part n m (p ++ a ++ q) = a.
Proof. intros <- <-. unfold part. by rewrite drop_app_length, take_app_length. Qed.

Lemma runs_rotate hd B L q r start old new n : start = Z.of_nat (length hd) -> old = start + Z.of_nat (length B) -> new = Z.of_nat (length L) -> n = Z.of_nat (length B) ->
  old + new <= sz r ->
  runs (pBuf ← peek old new; move_bytes (start + new) start n;; poke start pBuf;; mret 0) (hd ++ B ++ L ++ q) r (Go 0) (hd ++ L ++ B ++ q) r.
Proof.
  intros -> -> -> -> Hs. eapply runs_bind; [apply runs_peek; lia|done|].
  assert (part (Z.to_nat (Z.of_nat (length hd) + Z.of_nat (length B))) (Z.to_nat (Z.of_nat (length L))) (hd ++ B ++ L ++ q) = L) as ->.
  { rewrite app_assoc. apply part_mid; rewrite ?length_app; lia. }
  eapply runs_bind; [eapply runs_bind; [apply runs_peek; lia|done|rewrite part_mid by lia; apply runs_poke; lia]|done|].
  eapply runs_bind; [apply runs_poke; lia|done|]. rewrite <- (rotate hd B L q).
  replace (Z.to_nat (Z.of_nat (length hd) + Z.of_nat (length L))) with (length hd + length L)%nat by lia. rewrite Nat2Z.id. apply runs_ret.
Qed.

(** The rows after the first [length l1] rows are moved before them. *)
Lemma rows_to_front_holds sys x Hp t b l1 l2 r (old := data_start_ (rh r) + Z.of_nat (length (body (row_fields t r) l1)))
  (new := Z.of_nat (length (body (row_fields t r) l2))) : holds x Hp t b (l1 ++ l2) r ->
  exists y, rows_to_front sys old new x = Some (Go (put_code sys true l2 l1), y)
  /\ holds y Hp t b (put_rows sys true l2 l1) r /\ carried x Hp r y Hp r.
Proof.
  intros (slack & bs & V & Sh). destruct (shape_bounds _ _ _ _ _ _ _ _ V Sh) as (Hst & Hsl & Hrc & Hsz & Hlen).
  pose proof (body_rows (row_fields t r) l2). unfold put_code, put_rows. destruct l2 as [|row l2].
  { exists x. rewrite (bool_decide_true ([] = [])), andb_false_r by done. split_and!; [by unfold rows_to_front; erewrite rbind_go by done| |by apply carried_refl].
    exists slack, bs. rewrite app_nil_r in *. by destruct sys. }
  rewrite (bool_decide_false (row :: l2 = [])) by done. set (l := row :: l2) in *.
  pose proof Sh as [B1 B2 B3 B4 B5 B6 B7]. rewrite body_app, length_app in B3. rewrite body_app, <- app_assoc in B1.
  unfold rows_to_front. erewrite rbind_go by (unfold get; by rewrite (vw_raw _ _ _ _ V)). cbv zeta.
  replace (old - data_start_ (rh r)) with (Z.of_nat (length (body (row_fields t r) l1))) by (unfold old; lia). rewrite wrap_small by (split; lia).
  destruct (Z.ltb_spec 0 new) as [Hnew|Hnew]; [|unfold new in Hnew; simpl in *; lia]. cbn [andb].
  destruct l1 as [|row1 l1].
  - change (length (body (row_fields t r) [])) with 0%nat. cbn [Z.of_nat Z.eqb negb]. exists x. rewrite bool_decide_true, andb_false_r by done.
    split_and!; [done| |by apply carried_refl]. exists slack, bs. rewrite app_nil_r. by destruct sys.
  - pose proof (body_rows (row_fields t r) (row1 :: l1)) as Hb1. set (l0 := row1 :: l1) in *. rewrite bool_decide_false by done.
    destruct (Z.eqb_spec (Z.of_nat (length (body (row_fields t r) l0))) 0); [simpl in *; lia|]. cbn [negb].
    destruct sys; cbn [negb]; [|exists x; split_and!; [done|by exists slack, bs|by apply carried_refl]].
    set (B := body (row_fields t r) l0) in *. set (L := body (row_fields t r) l) in *. set (hd := head b (data_size_ (rc r)) (row_count_ (rc r))) in *.
    assert (length hd = Z.to_nat (data_start_ (rh r))) as Ehd by (unfold hd; rewrite B2, !head_length; lia).
    rewrite B1 in V.
    destruct (runs_rotate hd B L slack r (data_start_ (rh r)) old new (Z.of_nat (length B)) ltac:(lia) ltac:(done) ltac:(done) ltac:(done) ltac:(unfold old, new; lia) x Hp V) as (y & E & V' & K).
    exists y. split_and!; [exact E| |by apply carried_refl].
    + exists slack, (hd ++ L ++ B ++ slack). split; [done|]. split; try done.
      * rewrite body_app. by rewrite <- app_assoc.
      * rewrite body_app, length_app. fold B L. lia.
      * rewrite length_app in *. lia.
      * apply Forall_app in B5 as [? ?]. by apply Forall_app.
Qed.

(** Only the cursor changes. *)
Lemma holds_cursor x Hp t b rows r f : holds x Hp t b rows r -> data_size_ (f (rc r)) = data_size_ (rc r) -> row_count_ (f (rc r)) = row_count_ (rc r) ->
  exists y, upd (on_rc f) x = Some (Go tt, y) /\ holds y Hp t b rows (on_rc f r) /\ rs y = rs x.
Proof.
  intros (slack & bs & V & Sh) Ed Ek. destruct (runs_upd (on_rc f) bs r eq_refl x Hp V) as (y & E & V' & _). exists y. split_and!; [done| |].
  - exists slack, bs. split; [done|]. destruct Sh as [B1 B2 B3 B4 B5 B6 B7]. split; simpl; rewrite ?Ed, ?Ek; done.
  - unfold upd in E. by simplify_eq/=.
Qed.

Lemma others_same h Hp x y : rs y = rs x -> others_kept h Hp x y.
Proof. intros E z _. by rewrite E. Qed.

Lemma holds_get x Hp t b rows r : holds x Hp t b rows r -> get x = Some (Go r, x).
Proof. intros (slack & bs & V & _). unfold get. by rewrite (vw_raw _ _ _ _ V). Qed.

Lemma holds_size x Hp t b rows r : holds x Hp t b rows r -> data_size_ (rc r) = data_start_ (rh r) + Z.of_nat (length (body (row_fields t r) rows)).
Proof. intros (slack & bs & _ & Sh). apply Sh. Qed.

Lemma holds_bounds x Hp t b rows r : holds x Hp t b rows r ->
  16 <= data_start_ (rh r) <= data_size_ (rc r) /\ data_size_ (rc r) < 2 ^ 31 /\ data_size_ (rc r) <= sz r < 2 ^ 32 /\ 0 <= row_count_ (rc r) <= data_size_ (rc r).
Proof.
  intros (slack & bs & V & Sh). destruct (shape_bounds _ _ _ _ _ _ _ _ V Sh) as (Hst & Hsl & Hrc & Hsz & Hlen). destruct Sh. lia.
Qed.

Lemma insert_row_flag_spec sys x Hp t b rows r row vs byFirst op : holds x Hp t b rows r -> row_values row r = vs -> row_fits (row_fields t r) vs = true ->
  data_size_ (rc r) + Z.of_nat (length (enc_row (row_fields t r) (op, vs))) < 2 ^ 31 ->
  exists res y Hp' r', insert_row_flag sys t row byFirst op x = Some (Go res, y) /\ same_table r r' /\ carried x Hp r y Hp' r'
  /\ (res = EC_NO_MEM /\ holds y Hp' t b rows r' /\ handle_ (rm r') = handle_ (rm r) \/ res = put_code sys byFirst [(op, vs)] rows /\ holds y Hp' t b (put_rows sys byFirst [(op, vs)] rows) r' /\ off r' = data_size_ (rc r')).
Proof.
  intros Ho Ev Hf Hd. unfold insert_row_flag. erewrite rbind_go by (by eapply holds_get). cbv zeta.
  destruct (holds_cursor x Hp t b rows r (set_offset (data_size_ (rc r))) Ho eq_refl eq_refl) as (x1 & E1 & Ho1 & K1). erewrite rbind_go by exact E1.
  destruct (encode_row_holds x1 Hp t b rows _ row vs op Ho1 eq_refl Ev Hf Hd) as (res & y & Hp' & r' & E2 & Es & C & O). erewrite rbind_go by exact E2.
  assert (carried x Hp r y Hp' r') as C' by (eapply carried_trans; [|exact C]; apply carried_refl; [reflexivity|by apply others_same]).
  destruct O as [(-> & Ho2 & Ec & Eh)|(-> & Ho2 & Eo & Ed & _)].
  - erewrite rbind_go by (by eapply holds_get). eexists _, y, Hp', r'. split_and!; [done|done|done|by left].
  - erewrite rbind_go by (by eapply holds_get). cbn [Z.eqb andb]. destruct byFirst; [|eexists _, y, Hp', r'; split_and!; [done|done|done|by right]].
    pose proof (holds_bounds _ _ _ _ _ _ Ho) as (Hb & _). pose proof (holds_size _ _ _ _ _ _ Ho) as Hs. pose proof (holds_size _ _ _ _ _ _ Ho2) as Hs2.
    assert (row_fields t r' = row_fields t r) as Er by (unfold row_fields; by rewrite (proj1 Es)).
    change (data_size_ (rc r') = data_size_ (rc r) + Z.of_nat (length (enc_row (row_fields t r) (op, vs)))) in Ed.
    destruct (rows_to_front_holds sys y Hp' t b rows [(op, vs)] r' Ho2) as (z & E3 & Ho3 & C3).
    rewrite (proj2 Es), Er, body_one in E3. simpl rh in E3. rewrite wrap_small by (split; lia).
    replace (data_size_ (rc r') - data_size_ (rc r)) with (Z.of_nat (length (enc_row (row_fields t r) (op, vs)))) by lia. rewrite <- Hs in E3.
    eexists _, z, Hp', r'. split_and!; [exact E3|done|by eapply carried_trans|]. by right.
Qed.

(** ** Several rows at once *)

(** There is room already. *)
Lemma expand_chunk_enough x Hp bs r e : view x Hp bs r -> 0 <= data_size_ (rc r) -> 0 <= e -> data_size_ (rc r) + e <= sz r -> expand_chunk e x = Some (Go 0, x).
Proof.
  intros V Hd He Hs. destruct (view_size _ _ _ _ V) as (Hh & Hsz & Hlen). unfold expand_chunk. erewrite rbind_go by (unfold get; by rewrite (vw_raw _ _ _ _ V)).
  destruct (Z.eqb_spec (handle_ (rm r)) INVALID_HANDLE); [unfold INVALID_HANDLE in *; lia|]. cbv zeta. rewrite wrap_small by (split; lia).
  destruct (Z.ltb_spec (sz r) (data_size_ (rc r) + e)); [lia|done].
Qed.

Definition row_of op r (row : RowValue) : Z * list DTCValue := (op, row_values row r).

Definition rows_fit t r (rows : list RowValue) : Prop := Forall (fun row => row_fits (row_fields t r) (row_values row r) = true) rows.

Lemma rows_size_run x Hp bs t rows op r n : view x Hp bs r -> rows_fit t r rows -> 0 <= n ->
  n + Z.of_nat (length (body (row_fields t r) (row_of op r <$> rows))) < 2 ^ 32 ->
  rows_size t rows n x = Some (Go (n + Z.of_nat (length (body (row_fields t r) (row_of op r <$> rows)))), x).
Proof.
  intros V. revert n. induction rows as [|row rows IH]; intros n Hf Hn Hs; cbn [rows_size]; [by rewrite Z.add_0_r|]. inversion Hf; subst.
  rewrite fmap_cons, body_cons, length_app in Hs |- *. erewrite rbind_go by (apply (calc_row_size_eq x Hp bs t row _ op r V eq_refl); [done|unfold row_of in Hs; lia]).
  fold (row_of op r row). rewrite wrap_small by (split; lia). rewrite IH by (done || lia). do 3 f_equal. lia.
Qed.

Lemma encode_rows_run t b op rows0 : forall rows x Hp slack bs r, view x Hp bs r -> shape t b rows slack bs r -> off r = data_size_ (rc r) -> rows_fit t r rows0 ->
  (length (body (row_fields t r) (row_of op r <$> rows0)) <= length slack)%nat -> data_size_ (rc r) + Z.of_nat (length (body (row_fields t r) (row_of op r <$> rows0))) < 2 ^ 31 ->
  exists y r', encode_rows t rows0 op x = Some (Go 0, y) /\ holds y Hp t b (rows ++ (row_of op r <$> rows0)) r' /\ same_table r r' /\ carried x Hp r y Hp r'.
Proof.
  induction rows0 as [|row rows0 IH]; intros rows x Hp slack bs r V Sh Eo Hf Hs Hd; cbn [encode_rows].
  { exists x, r. rewrite app_nil_r. split_and!; [done|by exists slack, bs|done|by apply carried_refl]. }
  inversion Hf as [|? ? Hrow Hf']; subst. rewrite fmap_cons, body_cons, length_app in Hs, Hd. change (row_of op r row) with (op, row_values row r) in *.
  destruct (shape_bounds _ _ _ _ _ _ _ _ V Sh) as (Hst & Hsl & Hrc & Hsz & Hlen).
  pose proof (expand_chunk_enough x Hp bs r (Z.of_nat (length (enc_row (row_fields t r) (op, row_values row r)))) V ltac:(lia) ltac:(lia) ltac:(lia)) as E0.
  destruct (append_row_run x Hp t b rows slack bs r row (row_values row r) op V Sh Eo ltac:(lia) ltac:(lia) eq_refl Hrow) as (y & bs1 & r1 & E & V1 & Sh1 & Em & Ef & Eh & Eo1 & Ed & _ & K).
  erewrite rbind_go by (rewrite (encode_row_expand x x Hp Hp bs bs t row (row_values row r) op r r V V ltac:(done) eq_refl Hrow ltac:(lia) E0); exact E). cbn [Z.eqb].
  assert (row_fields t r1 = row_fields t r) as Er by (unfold row_fields; by rewrite Ef).
  assert (row_of op r1 = row_of op r) as Ew by (unfold row_of, row_values; by rewrite Ef).
  destruct (IH _ y Hp _ bs1 r1 V1 Sh1 Eo1) as (z & r' & E2 & Ho & Es & C).
  { unfold rows_fit in *. by rewrite Er; unfold row_values; rewrite Ef. }
  { rewrite Er, Ew, length_drop. lia. }
  { rewrite Er, Ew. lia. }
  exists z, r'. rewrite Ew, <- app_assoc in Ho. split_and!; [done|done| |].
  - destruct Es as [Es1 Es2]. split; congruence.
  - eapply carried_trans; [|exact C]. by apply carried_refl; [by rewrite Em|].
Qed.

Lemma insert_n_rows_spec sys x Hp t b rows r new byFirst (isDirty : bool) (op := if isDirty then OPER_INSERT else OPER_SELECT) : holds x Hp t b rows r -> rows_fit t r new ->
  data_size_ (rc r) + Z.of_nat (length (body (row_fields t r) (row_of op r <$> new))) < 2 ^ 31 ->
  exists res y Hp' r', insert_n_rows sys t new byFirst isDirty x = Some (Go res, y) /\ same_table r r' /\ carried x Hp r y Hp' r'
  /\ (res = EC_NO_MEM /\ holds y Hp' t b rows r' \/ res = put_code sys byFirst (row_of op r <$> new) rows /\ holds y Hp' t b (put_rows sys byFirst (row_of op r <$> new) rows) r').
Proof.
  intros Ho Hf Hd. pose proof Ho as (slack & bs & V & Sh). destruct (holds_bounds _ _ _ _ _ _ Ho) as (Hst & _). unfold insert_n_rows.
  erewrite rbind_go by (apply (rows_size_run x Hp bs t new op r 0 V Hf); lia). rewrite Z.add_0_l.
  destruct (expand_holds x Hp t b rows r _ Ho (Nat2Z.is_nonneg _) Hd) as (res & y & E & [(-> & Ho' & C)|(-> & Hp1 & h & m & slack1 & bs1 & V1 & Sh1 & Hsl & C)]).
  { erewrite rbind_go by exact E. eexists _, y, Hp, _. split_and!; [done| |exact C|by left]; done. }
  erewrite rbind_go by exact E. cbn [Z.eqb negb]. assert (holds y Hp1 t b rows (with_block h m r)) as Ho1 by (by exists slack1, bs1).
  erewrite rbind_go by (by eapply holds_get). cbv zeta. set (r1 := on_rc (set_offset (data_size_ (rc r))) (with_block h m r)).
  destruct (runs_upd (on_rc (set_offset (data_size_ (rc r)))) bs1 (with_block h m r) eq_refl y Hp1 V1) as (y1 & E1 & V2 & K1). fold r1 in V2.
  erewrite rbind_go by exact E1. assert (shape t b rows slack1 bs1 r1) as Sh2 by (by destruct Sh1; split).
  destruct (encode_rows_run t b op new rows y1 Hp1 slack1 bs1 r1 V2 Sh2 eq_refl Hf) as (z & r2 & E2 & Ho2 & Es & C2).
  { change (length (body (row_fields t r) (row_of op r <$> new)) <= length slack1)%nat. lia. }
  { exact Hd. }
  change (row_of op r1) with (row_of op r) in Ho2. erewrite rbind_go by exact E2. cbn [Z.eqb negb]. erewrite rbind_go by (by eapply holds_get). cbv zeta.
  assert (carried x Hp r z Hp1 r2) as C3.
  { eapply carried_trans; [exact C|]. eapply carried_trans; [|exact C2]. by apply carried_refl. }
  destruct byFirst; [|eexists _, z, Hp1, r2; split_and!; [done|done|done|by right]].
  pose proof (holds_bounds _ _ _ _ _ _ Ho2) as Hb2. pose proof (holds_size _ _ _ _ _ _ Ho) as Hs. pose proof (holds_size _ _ _ _ _ _ Ho2) as Hs2.
  assert (row_fields t r2 = row_fields t r) as Er by (unfold row_fields; by rewrite (proj1 Es)). assert (rh r2 = rh r) as Eh by apply (proj2 Es).
  destruct (rows_to_front_holds sys z Hp1 t b rows _ r2 Ho2) as (w & E3 & Ho3 & C4). rewrite Eh, Er, body_app, length_app in Hs2. rewrite Eh, Er in E3.
  change (data_size_ (rc (with_block h m r))) with (data_size_ (rc r)). rewrite wrap_small by (split; lia). rewrite <- Hs in E3.
  replace (data_size_ (rc r2) - data_size_ (rc r)) with (Z.of_nat (length (body (row_fields t r) (row_of op r <$> new)))) by lia.
  eexists _, w, Hp1, r2. split_and!; [exact E3|done|by eapply carried_trans|by right].
Qed.

(** ** Reading a row *)

(** The offset of the row after [l]. *)
Definition row_at t r (l : Rows) : Z := data_start_ (rh r) + Z.of_nat (length (body (row_fields t r) l)).

Lemma view_init x Hp bs r : view x Hp bs r -> not_init r = false.
Proof.
  intros V. destruct (view_size _ _ _ _ V) as (Hh & _). unfold not_init. rewrite (vw_ptr _ _ _ _ V).
  destruct (Z.eqb_spec (handle_ (rm r)) INVALID_HANDLE), (Z.eqb_spec (handle_ (rm r)) 0); unfold INVALID_HANDLE in *; lia || done.
Qed.

(** The bytes of a block around one of its rows. *)
Lemma shape_row x Hp t b l1 row l2 slack bs r : view x Hp bs r -> shape t b (l1 ++ row :: l2) slack bs r ->
  exists p q, bs = p ++ enc_row (row_fields t r) row ++ q /\ row_at t r l1 = Z.of_nat (length p) /\ row_fits (row_fields t r) row.2 = true
  /\ p = head b (data_size_ (rc r)) (row_count_ (rc r)) ++ body (row_fields t r) l1 /\ q = body (row_fields t r) l2 ++ slack
  /\ data_size_ (rc r) = row_at t r l1 + Z.of_nat (length (enc_row (row_fields t r) row)) + Z.of_nat (length (body (row_fields t r) l2)).
Proof.
  intros V [B1 B2 B3 B4 B5 B6 B7]. eexists _, _. split_and!; [|..|reflexivity|reflexivity|].
  - rewrite B1, body_app, body_cons. by rewrite <- !app_assoc.
  - unfold row_at. rewrite length_app, B2, !head_length. lia.
  - apply Forall_app in B5 as [_ B5]. by inversion B5.
  - rewrite B3, body_app, body_cons, !length_app. unfold row_at. lia.
Qed.

Definition placed (o ro la : Z) r : RawData := on_rc (fun c => set_row_offset ro (set_offset o (set_LAOffset la c))) r.

Lemma holds_placed y Hp t b rows r slack bs o ro la : view y Hp bs (placed o ro la r) -> shape t b rows slack bs r -> holds y Hp t b rows (placed o ro la r).
Proof. intros V Sh. exists slack, bs. split; [done|]. by destruct Sh; split. Qed.

Lemma decode_row_runs t row pre op vs p q r (a := enc_row (row_fields t r) (op, vs)) : not_init r = false -> off r = Z.of_nat (length p) ->
  length (p ++ a ++ q) = Z.to_nat (sz r) -> 0 <= sz r < 2 ^ 32 -> row_fits (row_fields t r) vs = true -> length (row_values row r) = length (row_fields t r) ->
  exists la, runs (decode_row t row pre) (p ++ a ++ q) r
    (Go (0, Some (wrap 8 op, take (Z.to_nat (key_index_ (rf r) + 1)) row ++ stored_fields (row_fields t r) vs (row_values row r)))) (p ++ a ++ q)
    (if pre then placed (off r) (row_offset_ (rc r)) la r else placed (off r + Z.of_nat (length a)) (off r) la r).
Proof.
  intros Hi Ho Hl Hs Hf Hrow. set (r1 := on_rc (fun c => set_row_offset (offset_ c) (set_LAOffset 0 c)) r). set (r2 := at_offset (off r1 + 1) r1).
  change a with ([wrap 8 op] ++ enc_fields (row_fields t r) vs) in *. clear a.
  destruct (decode_fields_runs (row_fields t r) vs (row_values row r) (key_index_ (rf r) + 1) Hf Hrow (p ++ [wrap 8 op]) q r2) as (la & D).
  { simpl. rewrite length_app. simpl. lia. }
  { rewrite !length_app in *. simpl in *. lia. }
  { done. }
  exists la. unfold decode_row. eapply runs_bind; [apply runs_get|done|]. rewrite Hi. cbv zeta.
  eapply (runs_bind _ _ _ _ tt _ r1); [by apply runs_upd|done|]. apply runs_go_label.
  rewrite <- app_assoc in Hl |- *. eapply (runs_bind _ _ _ _ _ _ r2).
  { apply (GET_VALUE_reads 1 [wrap 8 op] eq_refl p _ r1); done. }
  { done. }
  replace (le_val [wrap 8 op]) with (wrap 8 op) by (cbn [le_val]; lia). rewrite app_assoc. eapply runs_bind; [exact D|done|]. rewrite <- app_assoc.
  rewrite length_app, Nat2Z.inj_add. change (Z.of_nat (length [wrap 8 op])) with 1. destruct pre.
  - eapply runs_bind; [by apply runs_upd|done|].
    match goal with |- runs _ _ ?u _ _ ?v => change v with u end. apply runs_ret.
  - eapply runs_bind; [apply runs_ret|done|]. rewrite Z.add_assoc. apply runs_ret.
Qed.

Lemma decode_row_spec x Hp t b l1 op vs l2 r row pre : holds x Hp t b (l1 ++ (op, vs) :: l2) r -> off r = row_at t r l1 -> length (row_values row r) = length (row_fields t r) ->
  exists y la, decode_row t row pre x = Some (Go (0, Some (wrap 8 op, take (Z.to_nat (key_index_ (rf r) + 1)) row ++ stored_fields (row_fields t r) vs (row_values row r))), y)
  /\ carried x Hp r y Hp r
  /\ holds y Hp t b (l1 ++ (op, vs) :: l2) (if pre then placed (off r) (row_offset_ (rc r)) la r else placed (row_at t r (l1 ++ [(op, vs)])) (off r) la r).
Proof.
  intros (slack & bs & V & Sh) Eo Hrow. destruct (shape_bounds _ _ _ _ _ _ _ _ V Sh) as (Hst & Hsl & Hrc & Hsz & Hlen).
  destruct (shape_row _ _ _ _ _ _ _ _ _ _ V Sh) as (p & q & -> & Hp1 & Hf & _ & _ & Hds).
  replace (row_at t r (l1 ++ [(op, vs)])) with (off r + Z.of_nat (length (enc_row (row_fields t r) (op, vs))))
    by (unfold row_at in *; rewrite body_app, body_one, length_app; lia).
  destruct (decode_row_runs t row pre op vs p q r (view_init _ _ _ _ V) ltac:(lia) Hlen ltac:(lia) Hf Hrow) as (la & D).
  destruct (D x Hp V) as (y & E & V' & K). exists y, la. split_and!; [exact E|by apply carried_refl|]. destruct pre; by eapply holds_placed.
Qed.

End RawOps.
