(* ===== verification/RawEdit.v ===== *)
(** Deleting, flagging and replacing the current row of a block, the row at
    [row_offset_] (core/raw/raw_data.cc). *)

From stdpp Require Import base list gmap.
From S2P Require Import Prelude PtMalloc PtMallocSpec MallocBase RawData RawBytes RawRows RawSpec RawOps.

Local Open Scope Z_scope.

Lemma splice_over p a q : splice (length p) a (p ++ q) = p ++ a ++ drop (length a) q.
Proof. rewrite <- (Nat.add_0_r (length p)) at 1. by rewrite splice_skip. Qed.

Section RawEdit.

Context {S : Type} `{MallocLaws S}.

Implicit Types (x y : RState S) (Hp : heap) (bs : list Z) (r : RawData) (t : TableDef).

Abbreviation sz r := (size_ (rm r)).
Abbreviation off r := (offset_ (rc r)).
Abbreviation row_off r := (row_offset_ (rc r)).

(** ** Passing over the row *)

Lemma skip_row_runs t row p q r (a := enc_row (row_fields t r) row) : not_init r = false -> row_off r = Z.of_nat (length p) -> row_off r < data_size_ (rc r) ->
  length (p ++ a ++ q) = Z.to_nat (sz r) -> 0 <= sz r < 2 ^ 32 -> row_fits (row_fields t r) row.2 = true ->
  runs (skip_row t) (p ++ a ++ q) r (Go 0) (p ++ a ++ q) (at_offset (row_off r + Z.of_nat (length a)) r).
Proof.
  intros Hi Ho Hd Hl Hs Hf. change a with ([wrap 8 row.1] ++ enc_fields (row_fields t r) row.2) in *. clear a. unfold skip_row.
  eapply runs_bind; [apply runs_get|done|]. rewrite Hi. eapply (runs_bind _ _ _ _ tt _ (at_offset (row_off r) r)); [by apply runs_set|done|].
  destruct (Z.leb_spec (data_size_ (rc r)) (row_off r)); [lia|]. apply runs_go_label. rewrite !length_app in Hl. simpl in Hl.
  eapply (runs_bind _ _ _ _ tt _ (at_offset (row_off r + 1) r)); [eapply runs_to; [apply (SKIP_SIZE_runs 1); simpl; lia|done|done]|done|].
  eapply (runs_bind _ _ _ _ tt _ (at_offset (row_off r + Z.of_nat (length ([wrap 8 row.1] ++ enc_fields (row_fields t r) row.2))) r)); [|done|apply runs_ret].
  rewrite <- app_assoc, app_assoc.
  eapply runs_to; [apply (skip_fields_reads (row_fields t r) row.2 Hf (p ++ [wrap 8 row.1]) q (at_offset (row_off r + 1) r)); [simpl; rewrite length_app; simpl; lia| |done]|done|].
  - rewrite !length_app. simpl. lia.
  - transitivity (at_offset (row_off r + 1 + Z.of_nat (length (enc_fields (row_fields t r) row.2))) r); [done|f_equal; simpl; lia].
Qed.

Lemma skip_row_holds x Hp t b l1 row l2 slack bs r : view x Hp bs r -> shape t b (l1 ++ row :: l2) slack bs r -> row_off r = row_at t r l1 ->
  exists y, skip_row t x = Some (Go 0, y) /\ view y Hp bs (at_offset (row_at t r (l1 ++ [row])) r) /\ others_kept (handle_ (rm r)) Hp x y.
Proof.
  intros V Sh Er. destruct (shape_bounds _ _ _ _ _ _ _ _ V Sh) as (Hst & Hsl & Hrc & Hsz & Hlen).
  destruct (shape_row _ _ _ _ _ _ _ _ _ _ V Sh) as (p & q & -> & Hp1 & Hf & _ & _ & Hds).
  replace (row_at t r (l1 ++ [row])) with (row_off r + Z.of_nat (length (enc_row (row_fields t r) row)))
    by (unfold row_at in *; rewrite body_app, body_one, length_app; lia).
  apply skip_row_runs; try done; [by eapply view_init|lia| |lia]. rewrite Er, Hds. assert (0 < length (enc_row (row_fields t r) row))%nat by (simpl; lia). lia.
Qed.

(** Past the last row there is nothing to pass over. *)
Lemma skip_row_end x Hp t b rows r : holds x Hp t b rows r -> data_size_ (rc r) <= row_off r ->
  exists y, skip_row t x = Some (Go (-2), y) /\ holds y Hp t b rows (at_offset (row_off r) r) /\ rs y = rs x.
Proof.
  intros Ho Hd. pose proof Ho as (slack & bs & V & _). unfold skip_row. erewrite rbind_go by (by eapply holds_get). rewrite (view_init _ _ _ _ V).
  destruct (holds_cursor x Hp t b rows r (fun c => set_offset (row_offset_ c) c) Ho eq_refl eq_refl) as (y & E & Ho1 & K). erewrite rbind_go by exact E.
  destruct (Z.leb_spec (data_size_ (rc r)) (row_off r)); [|lia]. by exists y.
Qed.

(** ** Deleting *)

(** [memmove] of [m], which starts after [p ++ a], to the offset after [p]. *)
Lemma move_down p a m q r dst src n : dst = Z.of_nat (length p) -> src = dst + Z.of_nat (length a) -> n = Z.of_nat (length m) -> src + n <= sz r ->
  runs (move_bytes dst src n) (p ++ a ++ m ++ q) r (Go tt) (p ++ m ++ drop (length m) (a ++ m ++ q)) r.
Proof.
  intros -> -> -> Hs. eapply runs_bind; [apply runs_peek; lia|done|].
  assert (part (Z.to_nat (Z.of_nat (length p) + Z.of_nat (length a))) (Z.to_nat (Z.of_nat (length m))) (p ++ a ++ m ++ q) = m) as ->.
  { rewrite app_assoc. apply part_mid; rewrite ?length_app; lia. }
  eapply runs_to; [apply runs_poke; lia| |done]. by rewrite Nat2Z.id, splice_over.
Qed.

Lemma delete_cur_row_spec x Hp t b l1 row l2 r : holds x Hp t b (l1 ++ row :: l2) r -> row_off r = row_at t r l1 ->
  exists y r', delete_cur_row t x = Some (Go 0, y) /\ holds y Hp t b (l1 ++ l2) r' /\ same_table r r' /\ carried x Hp r y Hp r'
  /\ off r' = row_at t r l1 /\ row_off r' = row_off r.
Proof.
  intros Ho Er. pose proof Ho as (slack & bs & V & Sh). destruct (shape_bounds _ _ _ _ _ _ _ _ V Sh) as (Hst & Hsl & Hrc & Hsz & Hlen).
  destruct (shape_row _ _ _ _ _ _ _ _ _ _ V Sh) as (p & q & Eb & Hp1 & Hf & Ep & Eq & Hds).
  destruct (skip_row_holds x Hp t b l1 row l2 slack bs r V Sh Er) as (x1 & E1 & V1 & K1). unfold delete_cur_row.
  erewrite rbind_go by (by eapply holds_get). erewrite rbind_go by exact E1. cbn [Z.eqb negb].
  set (r1 := at_offset (row_at t r (l1 ++ [row])) r) in *. set (fs := row_fields t r) in *.
  assert (off r1 = row_off r + Z.of_nat (length (enc_row fs row))) as Eo
    by (change (off r1) with (row_at t r (l1 ++ [row])); unfold row_at in *; fold fs; rewrite body_app, body_one, length_app; fold fs in Er; lia).
  set (ds := row_at t r l1 + Z.of_nat (length (body fs l2))). pose proof Sh as [B1 B2 B3 B4 B5 B6 B7]. rewrite length_app in B4. simpl in B4.
  set (r2 := placed (row_off r) (row_off r) (m_uiLAOffset (rc r)) (on_rc (set_counts ds (row_count_ (rc r) - 1)) r)).
  set (sl := drop (length (body fs l2)) (enc_row fs row ++ body fs l2 ++ slack)).
  assert (runs (move_bytes (row_off r1) (off r1) (wrap 32 (data_size_ (rc r1) - off r1));;
                put_counts (data_size_ (rc r1) - (off r1 - row_off r1)) (row_count_ (rc r1) - 1);; upd (on_rc (fun c => set_offset (row_offset_ c) c));; mret 0)
            bs r1 (Go 0) (head b ds (row_count_ (rc r) - 1) ++ body fs (l1 ++ l2) ++ sl) r2) as D.
  { assert (row_off r1 = row_off r /\ data_size_ (rc r1) = data_size_ (rc r) /\ row_count_ (rc r1) = row_count_ (rc r) /\ sz r1 = sz r) as (R1 & R2 & R3 & R4) by done.
    rewrite wrap_small by (split; lia). rewrite Eb, Eq. eapply runs_bind; [apply move_down; lia|done|].
    eapply runs_bind; [apply put_counts_runs; lia|done|]. eapply runs_bind; [by apply runs_set|done|].
    eapply runs_to; [apply runs_ret| |].
    - rewrite Ep, <- app_assoc, counts_head, body_app, <- app_assoc, R3. do 2 f_equal. lia.
    - unfold r2, placed. replace ds with (data_size_ (rc r1) - (off r1 - row_off r1)) by (unfold ds; lia). done. }
  destruct (D x1 Hp V1) as (y & E & V' & K). exists y, r2. split_and!; [| |done| |done|done].
  - erewrite rbind_go by (unfold get; by rewrite (vw_raw _ _ _ _ V1)). exact E.
  - eexists sl, _. split; [exact V'|]. split; try done; change (row_fields t r2) with fs.
    + change (ds = data_start_ (rh r) + Z.of_nat (length (body fs (l1 ++ l2)))). unfold ds, row_at. rewrite body_app, length_app. fold fs. lia.
    + change (row_count_ (rc r) - 1 = Z.of_nat (length (l1 ++ l2))). rewrite length_app. lia.
    + apply Forall_app in B5 as [Ha Hb]. apply Forall_app. by inversion Hb.
    + change (ds < 2 ^ 31). lia.
  - eapply carried_trans; [|by apply (carried_refl x1 Hp r1 y r2)]. by apply carried_refl.
Qed.

(** There is no current row; the cursor is put back. *)
Lemma delete_cur_row_end x Hp t b rows r : holds x Hp t b rows r -> data_size_ (rc r) <= row_off r ->
  exists y, delete_cur_row t x = Some (Go (-2), y) /\ holds y Hp t b rows r /\ rs y = rs x.
Proof.
  intros Ho Hd. unfold delete_cur_row. erewrite rbind_go by (by eapply holds_get). destruct (skip_row_end x Hp t b rows r Ho Hd) as (x1 & E1 & Ho1 & K1).
  erewrite rbind_go by exact E1. cbn [Z.eqb negb]. destruct (holds_cursor x1 Hp t b rows _ (set_offset (off r)) Ho1 eq_refl eq_refl) as (y & E & Ho2 & K).
  exists y. split_and!; [by erewrite rbind_go by exact E| |congruence]. by replace r with (on_rc (set_offset (off r)) (at_offset (row_off r) r)) by (by destruct r as [? ? ? []]).
Qed.

Lemma delete_all_rows_spec x Hp t b rows r : holds x Hp t b rows r ->
  exists y r', delete_all_rows x = Some (Go 0, y) /\ holds y Hp t b [] r' /\ same_table r r' /\ carried x Hp r y Hp r' /\ off r' = data_start_ (rh r) /\ row_off r' = data_start_ (rh r).
Proof.
  intros Ho. pose proof Ho as (slack & bs & V & Sh). destruct (shape_bounds _ _ _ _ _ _ _ _ V Sh) as (Hst & Hsl & Hrc & Hsz & Hlen).
  set (st := data_start_ (rh r)) in *. set (r1 := on_rc (fun c => mkCursor st 0 st st (m_uiLAOffset c)) r).
  assert (runs delete_all_rows bs r (Go 0) (counts st 0 bs) (on_rm (set_need 0) r1)) as D.
  { unfold delete_all_rows. eapply runs_bind; [apply runs_get|done|]. cbv zeta. eapply (runs_bind _ _ _ _ tt _ r1); [by apply runs_set|done|].
    assert (9 <= sz r1) by (change (9 <= sz r); lia). eapply runs_bind; [by apply set_data_size_runs|done|]. eapply runs_bind; [by apply set_row_count_runs|done|].
    eapply runs_bind; [by apply runs_set|done|]. apply runs_ret. }
  destruct (D x Hp V) as (y & E & V' & K). exists y, (on_rm (set_need 0) r1). split_and!; [done| |done|by apply carried_refl|done|done].
  destruct Sh as [B1 B2 B3 B4 B5 B6 B7]. exists (body (row_fields t r) rows ++ slack), (counts st 0 bs). split; [done|]. split; try done.
  - by rewrite B1, counts_head.
  - change (st = data_start_ (rh r) + Z.of_nat 0). unfold st. lia.
  - change (st < 2 ^ 31). lia.
Qed.

(** ** Flags *)

Lemma set_cur_row_flag_spec x Hp t b l1 op vs l2 r flag : holds x Hp t b (l1 ++ (op, vs) :: l2) r -> row_off r = row_at t r l1 ->
  exists y, set_cur_row_flag flag x = Some (Go 0, y) /\ holds y Hp t b (l1 ++ (flag, vs) :: l2) r /\ carried x Hp r y Hp r.
Proof.
  intros Ho Er. pose proof Ho as (slack & bs & V & Sh). destruct (shape_bounds _ _ _ _ _ _ _ _ V Sh) as (Hst & Hsl & Hrc & Hsz & Hlen).
  destruct (shape_row _ _ _ _ _ _ _ _ _ _ V Sh) as (p & q & Eb & Hp1 & Hf & Ep & Eq & Hds).
  set (fs := row_fields t r) in *. assert (length (enc_row fs (op, vs)) = Datatypes.S (length (enc_fields fs vs))) as El by done.
  unfold set_cur_row_flag. erewrite rbind_go by (by eapply holds_get). destruct (Z.leb_spec (data_size_ (rc r)) (row_off r)); [lia|].
  destruct (runs_poke (row_off r) [wrap 8 flag] bs r ltac:(lia) ltac:(simpl; lia) x Hp V) as (y & E & V' & K). exists y.
  split_and!; [by erewrite rbind_go by exact E| |by apply carried_refl]. eexists slack, _. split; [exact V'|]. destruct Sh as [B1 B2 B3 B4 B5 B6 B7].
  split; try done; fold fs.
  - rewrite Eb, Er, Hp1, Nat2Z.id, splice_over, Ep, Eq. change (enc_row fs (op, vs)) with ([wrap 8 op] ++ enc_fields fs vs).
    rewrite body_app, body_cons. change (enc_row fs (flag, vs)) with ([wrap 8 flag] ++ enc_fields fs vs). by rewrite <- !app_assoc.
  - rewrite B3. fold fs. by rewrite !body_app, !body_cons, !length_app.
  - by rewrite length_app in *.
  - apply Forall_app in B5 as [Ha Hb]. apply Forall_app. split; [done|]. inversion Hb. by constructor.
Qed.

End RawEdit.

(** [RawData::replace_cur_row] of core/raw/raw_data.cc: the current row gives
    way to another one, which may need more or fewer bytes. *)


Local Open Scope Z_scope.

Section RawReplace.

Context {S : Type} `{MallocLaws S}.

Implicit Types (x y : RState S) (Hp : heap) (bs : list Z) (r : RawData) (t : TableDef).

Abbreviation sz r := (size_ (rm r)).
Abbreviation off r := (offset_ (rc r)).
Abbreviation row_off r := (row_offset_ (rc r)).

(** A row written over [X], between the rows of [P] and [q]. *)
Lemma encode_over t row vs op b n k P X q r (a := enc_row (row_fields t r) (op, vs)) : row_values row r = vs -> row_fits (row_fields t r) vs = true ->
  off r = Z.of_nat (length (head b 0 0 ++ P)) -> length X = length a -> length (head b n k ++ P ++ X ++ q) = Z.to_nat (sz r) -> 0 <= sz r < 2 ^ 32 ->
  0 <= data_size_ (rc r) -> data_size_ (rc r) + Z.of_nat (length a) < 2 ^ 32 -> 0 <= row_count_ (rc r) < 2 ^ 32 - 1 ->
  runs (encode_row t row op false) (head b n k ++ P ++ X ++ q) r (Go 0) (head b (data_size_ (rc r) + Z.of_nat (length a)) (row_count_ (rc r) + 1) ++ P ++ a ++ q)
    (on_rc (set_counts (data_size_ (rc r) + Z.of_nat (length a)) (row_count_ (rc r) + 1)) (at_offset (off r + Z.of_nat (length a)) r)).
Proof.
  intros Ev Hf Ho HX Hl Hs Hd Hn Hk. rewrite length_app, head_length in Ho. pose proof Hl as Hl'. rewrite !length_app, head_length in Hl'.
  eapply runs_to; [apply (encode_row_runs t row vs op _ r Ev Hf); fold a; try done; lia| |done]. fold a. clearbody a.
  rewrite Ho, Nat2Z.id, app_assoc. rewrite <- (head_length b n k), <- length_app, splice_app by done. by rewrite <- app_assoc, counts_head.
Qed.

(** The row is in place, but still counted with the row it replaces. *)
Definition half_done y Hp t b l1 row l2 r r' : Prop :=
  (exists q, view y Hp (head b (data_size_ (rc r')) (row_count_ (rc r')) ++ body (row_fields t r) (l1 ++ row :: l2) ++ q) r') /\ same_table r r'
  /\ data_size_ (rc r') = data_size_ (rc r) + Z.of_nat (length (enc_row (row_fields t r) row)) /\ row_count_ (rc r') = row_count_ (rc r) + 1 /\ row_off r' = row_off r
  /\ off r' = row_off r + Z.of_nat (length (enc_row (row_fields t r) row)).

(** [memmove] of [m], which starts after [p ++ a], to the offset [n] bytes after [p]. *)
Lemma move_up p a m q r dst src n k : dst = Z.of_nat (length p) + Z.of_nat n -> src = Z.of_nat (length p) + Z.of_nat (length a) -> k = Z.of_nat (length m) ->
  (length a <= n)%nat -> (n + length m <= length (a ++ m ++ q))%nat -> length (p ++ a ++ m ++ q) = Z.to_nat (sz r) -> 0 <= sz r ->
  runs (move_bytes dst src k) (p ++ a ++ m ++ q) r (Go tt) (p ++ take n (a ++ m ++ q) ++ m ++ drop (n + length m) (a ++ m ++ q)) r.
Proof.
  intros -> -> -> Ha Hn Hl Hs. rewrite !length_app in *. eapply runs_bind; [apply runs_peek; lia|done|].
  assert (part (Z.to_nat (Z.of_nat (length p) + Z.of_nat (length a))) (Z.to_nat (Z.of_nat (length m))) (p ++ a ++ m ++ q) = m) as ->.
  { rewrite app_assoc. apply part_mid; rewrite ?length_app; lia. }
  eapply runs_to; [apply runs_poke; lia| |done].
  replace (Z.to_nat (Z.of_nat (length p) + Z.of_nat n)) with (length p + n)%nat by lia. by rewrite splice_skip.
Qed.

(** The same where there may be nothing to move. *)
Lemma move_up_opt p a m q r dst src n k : dst = Z.of_nat (length p) + Z.of_nat n -> src = Z.of_nat (length p) + Z.of_nat (length a) -> k = Z.of_nat (length m) ->
  (length a <= n)%nat -> (n + length m <= length (a ++ m ++ q))%nat -> length (p ++ a ++ m ++ q) = Z.to_nat (sz r) -> 0 <= sz r ->
  runs (if 0 <? k then move_bytes dst src k else mret tt) (p ++ a ++ m ++ q) r (Go tt) (p ++ take n (a ++ m ++ q) ++ m ++ drop (n + length m) (a ++ m ++ q)) r.
Proof.
  intros Hd Hs Hk Ha Hn Hl Hz. destruct (Z.ltb_spec 0 k); [by apply move_up|]. destruct m; [|simpl in *; lia].
  eapply runs_to; [apply runs_ret| |done]. rewrite Nat.add_0_r. simpl. by rewrite take_drop.
Qed.

(** The part of [replace_longer] after the block has grown. *)
Lemma longer_runs t b n0 k0 P a0 B q r row vs op (fs := row_fields t r) (a := enc_row fs (op, vs)) (new := Z.of_nat (length a)) (cur := Z.of_nat (length a0)) (rest := Z.of_nat (length B))
  (next := row_off r + cur) : row_values row r = vs -> row_fits fs vs = true -> row_off r = Z.of_nat (length (head b 0 0 ++ P)) -> (length a0 <= length a)%nat ->
  (length a <= length (a0 ++ q))%nat -> length (head b n0 k0 ++ P ++ a0 ++ B ++ q) = Z.to_nat (sz r) -> 0 <= sz r < 2 ^ 32 ->
  0 <= data_size_ (rc r) -> data_size_ (rc r) + new < 2 ^ 32 -> 0 <= row_count_ (rc r) < 2 ^ 32 - 1 ->
  runs ((if 0 <? rest then move_bytes (next + (new - cur)) next rest else mret tt);; upd (on_rc (fun c => set_offset (row_offset_ c) c));; iRet ← encode_row t row op false;
        if negb (iRet =? 0) then (if 0 <? rest then move_bytes next (next + (new - cur)) rest else mret tt);; mret (-1) else mret 0)
    (head b n0 k0 ++ P ++ a0 ++ B ++ q) r (Go 0)
    (head b (data_size_ (rc r) + new) (row_count_ (rc r) + 1) ++ P ++ a ++ B ++ drop (length a + length B) (a0 ++ B ++ q))
    (on_rc (set_counts (data_size_ (rc r) + new) (row_count_ (rc r) + 1)) (at_offset (row_off r + new) r)).
Proof.
  intros Ev Hf Er Ha Hq Hl Hs Hd Hn Hk. rewrite !length_app, !head_length in *. set (r2 := at_offset (row_off r) r).
  rewrite (app_assoc (head b n0 k0)).
  eapply runs_bind; [apply (move_up_opt (head b n0 k0 ++ P) a0 B q r _ _ (length a)); unfold next, new, cur, rest; rewrite ?length_app, ?head_length; lia|done|].
  eapply (runs_bind _ _ _ _ tt _ r2); [by apply runs_set|done|]. rewrite <- app_assoc.
  eapply runs_bind; [apply (encode_over t row vs op b _ _ P _ _ r2); try done|done|apply runs_ret].
  - change (off r2) with (row_off r). rewrite length_app, head_length. lia.
  - change (length (take (length a) (a0 ++ B ++ q)) = length a). rewrite length_take, !length_app. lia.
  - change (sz r2) with (sz r). rewrite <- Hl. rewrite !length_app, head_length, length_take, length_drop, !length_app. lia.
Qed.

Lemma replace_longer_run x Hp t b l1 row0 l2 r row vs op (fs := row_fields t r) (new := Z.of_nat (length (enc_row fs (op, vs)))) (cur := Z.of_nat (length (enc_row fs row0))) :
  holds x Hp t b (l1 ++ row0 :: l2) r -> row_off r = row_at t r l1 -> row_values row r = vs -> row_fits fs vs = true ->
  cur < new -> data_size_ (rc r) + new < 2 ^ 31 ->
  exists res y Hp' r', replace_longer t row op new cur (row_off r + cur) (Z.of_nat (length (body fs l2))) x = Some (Go res, y) /\ carried x Hp r y Hp' r'
  /\ (res = EC_NO_MEM /\ holds y Hp' t b (l1 ++ row0 :: l2) r' /\ same_table r r' /\ rc r' = rc r /\ handle_ (rm r') = handle_ (rm r) \/ res = 0 /\ half_done y Hp' t b l1 (op, vs) l2 r r').
Proof.
  intros Ho Er Ev Hf Hlt Hd. pose proof Ho as (slack & bs & V & Sh). destruct (shape_bounds _ _ _ _ _ _ _ _ V Sh) as (Hst & Hsl & Hrc & Hsz & Hlen).
  destruct (shape_row _ _ _ _ _ _ _ _ _ _ V Sh) as (_ & _ & _ & _ & _ & _ & _ & Hds). fold fs cur in Hds.
  unfold replace_longer. erewrite rbind_go by (by eapply holds_get). cbv zeta. rewrite wrap_small by (split; lia).
  destruct (realloc_run x Hp bs r (data_size_ (rc r) + new - cur) V ltac:(lia)) as (h & y & E & O). erewrite rbind_go by exact E.
  destruct O as [(-> & V' & K)|(Hh' & Hp' & bs' & m & E' & Hm & V' & Hk & C)].
  - rewrite Z.eqb_refl. destruct (runs_set (on_rm (set_need (data_size_ (rc r) + new - cur))) bs r _ eq_refl eq_refl eq_refl eq_refl y Hp V') as (z & E2 & V2 & K2).
    exists EC_NO_MEM, z, Hp, (on_rm (set_need (data_size_ (rc r) + new - cur)) r). split_and!; [by erewrite rbind_go by exact E2| |].
    + eapply carried_trans; [by apply (carried_refl x Hp r y r)|]. by apply carried_refl.
    + left. split_and!; try done. exists slack, bs. split; [done|]. by destruct Sh; split.
  - destruct (Z.eqb_spec h INVALID_HANDLE); [done|]. erewrite rbind_go by exact E'. set (r1 := with_block h m r) in *. set (z := mkR (rs y) r1) in *.
    pose proof (shape_moved t b _ slack bs bs' r r1 Sh ltac:(done) eq_refl eq_refl ltac:(apply (take_agree _ _ _ _ Hk); lia)) as Sh1.
    set (sl := drop (Z.to_nat (data_size_ (rc r))) bs') in *. destruct (shape_bounds _ _ _ _ _ _ _ _ V' Sh1) as (_ & Hsl1 & _ & Hsz1 & Hlen1).
    destruct (shape_row _ _ _ _ _ _ _ _ _ _ V' Sh1) as (p1 & q1 & Eb1 & Hp2 & _ & Ep1 & Eq1 & _). subst p1 q1. rewrite <- app_assoc in Eb1.
    change (row_at t r1 l1) with (row_at t r l1) in Hp2. change (row_fields t r1) with fs in *. change (rc r1) with (rc r) in *. change (sz r1) with m in *. rewrite Eb1 in V', Hlen1.
    destruct (longer_runs t b (data_size_ (rc r)) (row_count_ (rc r)) (body fs l1) (enc_row fs row0) (body fs l2) sl r1 row vs op Ev Hf) with (x := z) (Hp := Hp')
      as (w & E2 & V2 & K2); [..|exact V'|]; change (sz r1) with m; change (rc r1) with (rc r); change (row_fields t r1) with fs; fold new; try lia.
    { rewrite Er, Hp2, !length_app, !head_length. done. }
    { rewrite length_app. unfold cur, new in *. lia. }
    change (rc r1) with (rc r) in *. change (row_fields t r1) with fs in *. eexists 0, w, Hp', (on_rc (set_counts (data_size_ (rc r) + new) (row_count_ (rc r) + 1)) (at_offset (row_off r + new) r1)).
    split_and!; [exact E2|by eapply carried_trans; [exact C|apply carried_refl]|]. right. split; [done|]. split_and!; try done.
    eexists. fold fs. rewrite body_app, body_cons, <- !app_assoc. exact V2.
Qed.

(** [memmove] of [m] to the end of [p], where there is something to move. *)
Lemma move_down_opt p c m q r dst src k : dst = Z.of_nat (length p) -> src = dst + Z.of_nat (length c) -> k = Z.of_nat (length m) -> src + k <= sz r ->
  runs (if (0 <? k) && negb (dst =? src) then move_bytes dst src k else mret tt) (p ++ c ++ m ++ q) r (Go tt) (p ++ m ++ drop (length m) (c ++ m ++ q)) r.
Proof.
  intros Hd Hs Hk Hz. destruct (Z.ltb_spec 0 k); cbn [andb].
  - destruct (Z.eqb_spec dst src); cbn [negb]; [|by apply move_down]. destruct c; [|simpl in *; lia]. eapply runs_to; [apply runs_ret| |done].
    simpl. by rewrite drop_app_length.
  - destruct m; [|simpl in *; lia]. by apply runs_ret.
Qed.

(** Bytes beyond a prefix may change when the block is reallocated. *)
Lemma realloc_prefix x Hp pre q r n : view x Hp (pre ++ q) r -> 0 < n < 2 ^ 31 -> Z.of_nat (length pre) <= n ->
  exists y Hp' q' r', (hTmp ← m_alloc (m_ReAlloc (handle_ (rm r)) n); (if hTmp =? INVALID_HANDLE then mret tt else take_block hTmp);; mret 0) x = Some (Go 0, y)
  /\ view y Hp' (pre ++ q') r' /\ carried x Hp r y Hp' r' /\ same_table r r' /\ rc r' = rc r.
Proof.
  intros V Hn Hpre. destruct (view_size _ _ _ _ V) as (Hh & Hsz & Hlen). rewrite length_app in Hlen.
  destruct (realloc_run x Hp (pre ++ q) r n V Hn) as (h & y & E & [(-> & V' & K)|(Hh' & Hp' & bs' & m & E' & Hm & V' & Hk & C)]).
  - exists y, Hp, q, r. split_and!; [|done|by apply carried_refl|done|done]. erewrite rbind_go by exact E. by rewrite Z.eqb_refl.
  - exists (mkR (rs y) (with_block h m r)), Hp', (drop (length pre) bs'), (with_block h m r). split_and!; [| |done|done|done].
    + erewrite rbind_go by exact E. destruct (Z.eqb_spec h INVALID_HANDLE); [done|]. by erewrite rbind_go by exact E'.
    + pose proof (take_agree _ _ (length pre) _ Hk ltac:(lia)) as Et. rewrite take_app_length in Et. rewrite <- Et at 1. by rewrite take_drop.
Qed.

Lemma replace_shorter_run sys x Hp t b l1 row0 l2 r row vs op (fs := row_fields t r) (new := Z.of_nat (length (enc_row fs (op, vs)))) (cur := Z.of_nat (length (enc_row fs row0))) :
  holds x Hp t b (l1 ++ row0 :: l2) r -> row_off r = row_at t r l1 -> row_values row r = vs -> row_fits fs vs = true ->
  new <= cur -> data_size_ (rc r) + new < 2 ^ 31 ->
  exists res y Hp' r', replace_shorter sys t row op new cur (row_off r + cur) (Z.of_nat (length (body fs l2))) x = Some (Go res, y) /\ carried x Hp r y Hp' r'
  /\ (res = - ENOMEM /\ sys = false /\ y = x /\ Hp' = Hp /\ r' = r \/ res = 0 /\ half_done y Hp' t b l1 (op, vs) l2 r r').
Proof.
  intros Ho Er Ev Hf Hlt Hd. pose proof Ho as (slack & bs & V & Sh). destruct (shape_bounds _ _ _ _ _ _ _ _ V Sh) as (Hst & Hsl & Hrc & Hsz & Hlen).
  destruct (shape_row _ _ _ _ _ _ _ _ _ _ V Sh) as (p & q & Eb & Hp1 & _ & Ep & Eq & Hds). fold fs in Eb, Ep, Eq, Hds. fold cur in Hds. subst p q. rewrite <- app_assoc in Eb.
  unfold replace_shorter. erewrite rbind_go by (by eapply holds_get). destruct sys; cbn [negb]; [|exists (- ENOMEM), x, Hp, r; split_and!; [done|by apply carried_refl|by left]].
  set (a := enc_row fs (op, vs)) in *. set (a0 := enc_row fs row0) in *. set (r1 := at_offset (row_off r) r).
  pose proof (firstn_skipn (length a) a0) as Ea0. set (c := drop (length a) a0) in *. rewrite length_app, !head_length in Hp1.
  assert (length (take (length a) a0) = length a) as Et by (rewrite length_take; lia).
  assert (length c = (length a0 - length a)%nat) as Ec by (unfold c; apply length_drop).
  assert (bs = head b (data_size_ (rc r)) (row_count_ (rc r)) ++ body fs l1 ++ take (length a) a0 ++ c ++ body fs l2 ++ slack) as Eb' by (rewrite Eb; rewrite <- Ea0 at 1; by rewrite <- app_assoc).
  clear Eb. rewrite Eb' in V, Hlen. rewrite !length_app, head_length in Hlen.
  destruct (runs_peek (row_off r) cur _ r ltac:(lia) ltac:(lia) ltac:(lia) x Hp V) as (x1 & E1 & V1 & K1). erewrite rbind_go by exact E1. clear E1.
  destruct (runs_set (on_rc (fun c => set_offset (row_offset_ c) c)) _ r r1 eq_refl eq_refl eq_refl eq_refl x1 Hp V1) as (x2 & E2 & V2 & K2). erewrite rbind_go by exact E2. clear E2.
  destruct (encode_over t row vs op b (data_size_ (rc r)) (row_count_ (rc r)) (body fs l1) (take (length a) a0) (c ++ body fs l2 ++ slack) r1 Ev Hf) with (x := x2) (Hp := Hp)
    as (x3 & E3 & V3 & K3); [..|exact V2|]; try done; change (off r1) with (row_off r); change (sz r1) with (sz r); change (data_size_ (rc r1)) with (data_size_ (rc r));
    change (row_count_ (rc r1)) with (row_count_ (rc r)); change (row_fields t r1) with fs; fold a; try (fold new; lia).
  { rewrite length_app, head_length. lia. }
  { rewrite !length_app, head_length. lia. }
  change (row_fields t r1) with fs in V3. fold a new in V3. change (off r1) with (row_off r) in V3.
  change (data_size_ (rc r1)) with (data_size_ (rc r)) in V3. change (row_count_ (rc r1)) with (row_count_ (rc r)) in V3.
  set (r3 := on_rc _ _) in V3. erewrite rbind_go by exact E3. clear E3. cbn [Z.eqb negb]. erewrite rbind_go by (unfold get; by rewrite (vw_raw _ _ _ _ V3)).
  change (off r3) with (row_off r + new). change (data_size_ (rc r3)) with (data_size_ (rc r) + new).
  set (hd := head b (data_size_ (rc r) + new) (row_count_ (rc r) + 1)) in *. assert (length hd = 10 + length (b_stamps b) + length (b_key b))%nat as Ehd by apply head_length.
  replace (hd ++ body fs l1 ++ a ++ c ++ body fs l2 ++ slack) with ((hd ++ body fs l1 ++ a) ++ c ++ body fs l2 ++ slack) in V3 by (by rewrite <- !app_assoc).
  destruct (move_down_opt (hd ++ body fs l1 ++ a) c (body fs l2) slack r3 (row_off r + new) (row_off r + cur) (Z.of_nat (length (body fs l2)))) with (x := x3) (Hp := Hp)
    as (x4 & E4 & V4 & K4); [..|exact V3|]; change (sz r3) with (sz r); rewrite ?length_app; try (unfold new, cur; lia).
  erewrite rbind_go by exact E4. clear E4. rewrite wrap_small by (split; lia). set (q4 := drop _ _) in V4. rewrite app_assoc in V4.
  destruct (realloc_prefix x4 Hp _ q4 r3 (data_size_ (rc r) + new + new - cur) V4) as (y & Hp' & q' & r' & E5 & V5 & C5 & Es & Ec'); [lia|rewrite !length_app; unfold new, cur in *; lia|].
  exists 0, y, Hp', r'. split_and!; [exact E5| |].
  - eapply carried_trans; [|exact C5]. apply carried_refl; [done|]. intros w Hw. change (handle_ (rm r1)) with (handle_ (rm r)) in *. rewrite K4, K3, K2, K1 by done. done.
  - right. split; [done|]. split_and!; [|done| | | |]; try by rewrite Ec'. exists q'. rewrite Ec'. fold fs. rewrite body_app, body_cons. fold a.
    change (data_size_ (rc r3)) with (data_size_ (rc r) + new). change (row_count_ (rc r3)) with (row_count_ (rc r) + 1).
    rewrite <- !app_assoc in V5. rewrite <- !app_assoc. exact V5.
Qed.

(** The last step: the replaced row is no longer counted. *)
Lemma uncount_row x Hp t b l1 row0 row l2 slack bs r r1 (fs := row_fields t r) : shape t b (l1 ++ row0 :: l2) slack bs r -> row_fits fs row.2 = true ->
  data_size_ (rc r) + Z.of_nat (length (enc_row fs row)) < 2 ^ 31 -> half_done x Hp t b l1 row l2 r r1 ->
  exists y r', (r2 ← get; put_counts (data_size_ (rc r2) - Z.of_nat (length (enc_row fs row0))) (row_count_ (rc r2) - 1);; mret 0) x = Some (Go 0, y)
  /\ holds y Hp t b (l1 ++ row :: l2) r' /\ same_table r r' /\ carried x Hp r1 y Hp r' /\ row_off r' = row_off r /\ off r' = row_off r + Z.of_nat (length (enc_row fs row)).
Proof.
  intros [B1 B2 B3 B4 B5 B6 B7] Hf Hd ([q V] & [Ef Eh] & Ed & Ek & Er & Eo). fold fs in Ed, V, B3, B5. destruct (view_size _ _ _ _ V) as (_ & Hsz & Hlen).
  rewrite !length_app, !head_length in *. simpl in B4. assert (length (body fs (l1 ++ row0 :: l2)) = length (body fs l1) + length (enc_row fs row0) + length (body fs l2))%nat as El
    by (rewrite body_app, body_cons, !length_app; lia).
  set (cur := Z.of_nat (length (enc_row fs row0))). set (n := data_size_ (rc r1) - cur). set (k := row_count_ (rc r1) - 1). erewrite rbind_go by (unfold get; by rewrite (vw_raw _ _ _ _ V)).
  pose proof (body_rows fs l1). pose proof (body_rows fs l2).
  assert (0 < length (enc_row fs row0))%nat by (simpl; lia).
  destruct (put_counts_runs n k _ r1 ltac:(lia) ltac:(lia) ltac:(lia) x Hp V) as (y & E & V' & K). exists y, (on_rc (set_counts n k) r1).
  split_and!; [by erewrite rbind_go by exact E| |done|by apply carried_refl|done|done].
  rewrite counts_head in V'. eexists q, _. split; [exact V'|]. assert (row_fields t (on_rc (set_counts n k) r1) = fs) as Efs by (unfold fs, row_fields; simpl; by rewrite Ef).
  split; rewrite ?Efs; try done; simpl rh; simpl rc; rewrite ?Eh; try done.
  - rewrite B2, head_length. done.
  - change (n = data_start_ (rh r) + Z.of_nat (length (body fs (l1 ++ row :: l2)))). rewrite body_app, body_cons, !length_app. unfold n, cur. lia.
  - change (k = Z.of_nat (length (l1 ++ row :: l2))). rewrite length_app. simpl. unfold k. lia.
  - apply Forall_app in B5 as [Ha Hb]. apply Forall_app. split; [done|]. inversion Hb. by constructor.
  - change (n < 2 ^ 31). unfold n, cur. lia.
Qed.

Lemma on_error_go {A} (m h : rprog S A) x a y : m x = Some (Go a, y) -> on_error m h x = Some (Go a, y).
Proof. intros E. unfold on_error. by rewrite E. Qed.

(** What [replace_cur_row] leaves: the new row in the place of the old one,
    or, without memory, the rows as they were. *)
Definition replaced (sys : bool) y Hp t b l1 (row0 row : Z * list DTCValue) l2 r r' (res : Z) : Prop :=
  res = EC_NO_MEM /\ (length (enc_row (row_fields t r) row0) < length (enc_row (row_fields t r) row))%nat /\ holds y Hp t b (l1 ++ row0 :: l2) r' /\ off r' = off r /\ handle_ (rm r') = handle_ (rm r)
  \/ res = - ENOMEM /\ sys = false /\ holds y Hp t b (l1 ++ row0 :: l2) r'
  \/ res = 0 /\ holds y Hp t b (l1 ++ row :: l2) r' /\ off r' = row_off r + Z.of_nat (length (enc_row (row_fields t r) row)).

Lemma replace_tail sys x Hp t b l1 row0 l2 r row vs op o (fs := row_fields t r) (new := Z.of_nat (length (enc_row fs (op, vs)))) (cur := Z.of_nat (length (enc_row fs row0)))
  (next := row_off r + cur) (rest := Z.of_nat (length (body fs l2))) : holds x Hp t b (l1 ++ row0 :: l2) r -> row_off r = row_at t r l1 -> row_values row r = vs ->
  row_fits fs vs = true -> data_size_ (rc r) + new < 2 ^ 31 ->
  exists res y Hp' r', (iRet ← (if cur <? new then replace_longer t row op new cur next rest else replace_shorter sys t row op new cur next rest);
     if iRet =? - ENOMEM then mret iRet else if negb (iRet =? 0) then upd (on_rc (set_offset o));; mret iRet
     else r ← get; put_counts (data_size_ (rc r) - cur) (row_count_ (rc r) - 1);; mret 0) x = Some (Go res, y)
  /\ same_table r r' /\ carried x Hp r y Hp' r' /\ row_off r' = row_off r /\ replaced sys y Hp' t b l1 row0 (op, vs) l2 (at_offset o r) r' res.
Proof.
  intros Ho Er Ev Hf Hd. pose proof Ho as (slack & bs & V & Sh).
  assert (forall y Hp' r1, carried x Hp r y Hp' r1 -> half_done y Hp' t b l1 (op, vs) l2 r r1 -> exists z r',
      (r2 ← get; put_counts (data_size_ (rc r2) - cur) (row_count_ (rc r2) - 1);; mret 0) y = Some (Go 0, z)
      /\ same_table r r' /\ carried x Hp r z Hp' r' /\ row_off r' = row_off r /\ replaced sys z Hp' t b l1 row0 (op, vs) l2 (at_offset o r) r' 0) as Fin.
  { intros y Hp' r1 C Hh. destruct (uncount_row y Hp' t b l1 row0 (op, vs) l2 slack bs r r1 Sh Hf Hd Hh) as (z & r' & E & Ho' & Es & C' & Er' & Eo').
    exists z, r'. split_and!; [exact E|done|by eapply carried_trans|done|]. right. by right. }
  destruct (Z.ltb_spec cur new) as [Hlt|Hge].
  - destruct (replace_longer_run x Hp t b l1 row0 l2 r row vs op Ho Er Ev Hf Hlt Hd) as (res & y & Hp' & r' & E & C & [(-> & Ho' & Es & Ec & Eh)|(-> & Hh)]); erewrite rbind_go by exact E.
    + change (EC_NO_MEM =? - ENOMEM) with false. change (EC_NO_MEM =? 0) with false. cbn [negb]. destruct (holds_cursor y Hp' t b _ r' (set_offset o) Ho' eq_refl eq_refl) as (z & E2 & Ho2 & K2).
      exists EC_NO_MEM, z, Hp', (on_rc (set_offset o) r'). split_and!; [by erewrite rbind_go by exact E2|done| | |].
      * eapply carried_trans; [exact C|]. by apply carried_refl, others_same.
      * simpl. by rewrite Ec.
      * left. split_and!; [done| |done|done|done]. unfold cur, new in Hlt. change (row_fields t (at_offset o r)) with fs. lia.
    + destruct (Fin y Hp' r' C Hh) as (z & r2 & E2 & O). by exists 0, z, Hp', r2.
  - destruct (replace_shorter_run sys x Hp t b l1 row0 l2 r row vs op Ho Er Ev Hf Hge Hd) as (res & y & Hp' & r' & E & C & [(-> & Hs & -> & -> & ->)|(-> & Hh)]); erewrite rbind_go by exact E.
    + exists (- ENOMEM), x, Hp, r. split_and!; [done|done|done|done|]. right. by left.
    + destruct (Fin y Hp' r' C Hh) as (z & r2 & E2 & O). by exists 0, z, Hp', r2.
Qed.

Lemma replace_cur_row_spec sys x Hp t b l1 op0 vs0 l2 r row vs (isDirty : bool) (op := if isDirty then OPER_UPDATE else wrap 8 op0) :
  holds x Hp t b (l1 ++ (op0, vs0) :: l2) r -> row_off r = row_at t r l1 -> row_values row r = vs -> row_fits (row_fields t r) vs = true ->
  data_size_ (rc r) + Z.of_nat (length (enc_row (row_fields t r) (op, vs))) < 2 ^ 31 ->
  exists res y Hp' r', replace_cur_row sys t row isDirty x = Some (Go res, y) /\ same_table r r' /\ carried x Hp r y Hp' r'
  /\ row_off r' = row_off r /\ replaced sys y Hp' t b l1 (op0, vs0) (op, vs) l2 r r' res.
Proof.
  intros Ho Er Ev Hf Hd. pose proof Ho as (slack & bs & V & Sh). destruct (shape_bounds _ _ _ _ _ _ _ _ V Sh) as (Hst & Hsl & Hrc & Hsz & Hlen).
  destruct (shape_row _ _ _ _ _ _ _ _ _ _ V Sh) as (p & q & Eb & Hp1 & _ & _ & _ & Hds). set (fs := row_fields t r) in *.
  destruct (skip_row_holds x Hp t b l1 (op0, vs0) l2 slack bs r V Sh Er) as (x1 & E1 & V1 & K1). unfold replace_cur_row.
  erewrite rbind_go by (by eapply holds_get). cbv zeta. erewrite rbind_go by exact E1. cbn [Z.eqb negb].
  assert (length (enc_row fs (op0, vs0)) = Datatypes.S (length (enc_fields fs vs0))) as El by done.
  assert (row_at t r (l1 ++ [(op0, vs0)]) = row_off r + Z.of_nat (length (enc_row fs (op0, vs0)))) as En
    by (unfold row_at in *; fold fs in Er |- *; rewrite body_app, body_one, length_app; lia).
  rewrite En in V1. set (cur := Z.of_nat (length (enc_row fs (op0, vs0)))) in *. set (r1 := at_offset (row_off r + cur) r) in *.
  assert (holds x1 Hp t b (l1 ++ (op0, vs0) :: l2) r1) as Ho1 by (exists slack, bs; split; [done|by destruct Sh; split]).
  assert (carried x Hp r x1 Hp r1) as C1 by (by apply carried_refl).
  destruct (runs_peek (row_off r1) 1 bs r1 ltac:(change (0 <= row_off r); lia) ltac:(lia) ltac:(change (row_off r + 1 <= sz r); lia) x1 Hp V1) as (x2 & E2 & _).
  assert (x2 = x1) as -> by (unfold peek in E2; destruct (inside _ _ _); by simplify_eq).
  replace (part (Z.to_nat (row_off r1)) (Z.to_nat 1) bs) with [wrap 8 op0] in E2.
  2:{ change (row_off r1) with (row_off r). rewrite Er, Hp1, Nat2Z.id, Eb. unfold part. by rewrite drop_app_length. }
  destruct (replace_tail sys x1 Hp t b l1 (op0, vs0) l2 r1 row vs op (off r) Ho1 Er Ev Hf Hd) as (res & y & Hp' & r' & E3 & Es & C3 & Er3 & O).
  exists res, y, Hp', r'. split_and!; [|done|by eapply carried_trans|done|exact O].
  apply on_error_go. erewrite rbind_go by (by eapply holds_get). erewrite rbind_go.
  2:{ unfold GET_VALUE_AT_OFFSET. erewrite rbind_go by (by eapply holds_get). destruct (Z.ltb_spec (size_ (rm r1)) (row_off r1 + 1)) as [Hlt|_]; [change (sz r < row_off r + 1) in Hlt; lia|].
      erewrite rbind_go by exact E2. done. }
  replace (le_val [wrap 8 op0]) with (wrap 8 op0) by (cbn [le_val]; lia). fold op.
  erewrite rbind_go by (apply (calc_row_size_eq x1 Hp bs t row vs op r1 V1 Ev Hf); change (row_fields t r1) with fs; lia).
  cbv zeta. change (off r1 - row_off r1) with (row_off r + cur - row_off r). change (data_size_ (rc r1) - off r1) with (data_size_ (rc r) - (row_off r + cur)).
  replace (row_off r + cur - row_off r) with cur by lia. replace (data_size_ (rc r) - (row_off r + cur)) with (Z.of_nat (length (body fs l2))) by (unfold cur; lia).
  rewrite !wrap_small by (split; lia). exact E3.
Qed.

End RawReplace.
