(* ===== verification/RawHead.v ===== *)
(** Formatting a block ([RawData::init]) and attaching to a formatted block
    ([RawData::do_attach]), core/raw/raw_data.cc: what [init] and the row
    operations have written, [attach] reads back. *)

From stdpp Require Import base list gmap.
From S2P Require Import Prelude PtMalloc PtMallocSpec MallocBase RawData RawBytes RawRows RawSpec RawOps RawEdit.

Local Open Scope Z_scope.

Section RawHead.

Context {S : Type} `{MallocLaws S}.

Implicit Types (x y : RState S) (Hp : heap) (bs : list Z) (r : RawData) (t : TableDef).

Abbreviation sz r := (size_ (rm r)).
Abbreviation off r := (offset_ (rc r)).
Abbreviation row_off r := (row_offset_ (rc r)).

(** ** Writing a block from its start *)

Lemma poke_next p a bs r o : o = Z.of_nat (length p) -> length bs = Z.to_nat (sz r) -> o + Z.of_nat (length a) <= sz r ->
  runs (poke o a) (splice 0 p bs) r (Go tt) (splice 0 (p ++ a) bs) r.
Proof.
  intros -> Hl Hs. eapply runs_to; [apply runs_poke; lia| |done]. rewrite Nat2Z.id. apply (splice_splice 0). lia.
Qed.

Lemma set_next p v n bs r r' : off r = Z.of_nat (length p) -> length bs = Z.to_nat (sz r) -> 0 <= n -> off r + n <= sz r < 2 ^ 32 -> at_offset (off r + n) r = r' ->
  runs (SET_VALUE v n) (splice 0 p bs) r (Go tt) (splice 0 (p ++ le_bytes (Z.to_nat n) v) bs) r'.
Proof.
  intros Ho Hl Hn Hs <-. eapply runs_to; [apply (SET_VALUE_writes v n Hn); rewrite ?le_bytes_length; [lia|lia|rewrite splice_length; simpl; lia]| |].
  - rewrite Ho, Nat2Z.id. apply (splice_splice 0). rewrite le_bytes_length. lia.
  - rewrite le_bytes_length. f_equal. lia.
Qed.

Definition stamps_of (now : Z) : list Z := le_bytes 2 (wrap 16 now) ++ le_bytes 2 (wrap 16 now) ++ le_bytes 2 (wrap 16 now).

Lemma init_timp_stamp_runs p now bs r : p_content_ (rm r) ≠ 0 -> off r = Z.of_nat (length p) -> time_stamp_offset_ (rh r) = off r -> length bs = Z.to_nat (sz r) -> off r + 6 <= sz r ->
  runs (init_timp_stamp now) (splice 0 p bs) r (Go tt) (splice 0 (p ++ stamps_of now) bs) (on_rh (set_stamps (wrap 16 now) (wrap 16 now) (wrap 16 now)) r).
Proof.
  intros Hc Ho Ht Hl Hs. unfold init_timp_stamp. eapply runs_bind; [apply runs_get|done|]. destruct (Z.eqb_spec (p_content_ (rm r)) 0); [done|].
  destruct (Z.ltb_spec (sz r) (off r + 6)); [lia|]. cbv zeta. unfold stamps_of. set (r' := on_rh _ _). eapply (runs_bind _ _ _ _ tt _ r'); [by apply runs_set|done|].
  change (sz r) with (sz r') in *. rewrite Ht, Ho.
  eapply runs_bind; [apply poke_next; rewrite ?le_bytes_length; lia|done|]. rewrite (app_assoc p).
  eapply runs_bind; [apply poke_next; rewrite ?length_app, ?le_bytes_length; lia|done|]. rewrite (app_assoc (p ++ _)).
  apply poke_next; rewrite ?length_app, ?le_bytes_length; lia.
Qed.

(** The block [init] writes. *)
Definition new_block (tableIdx : Z) (key : list Z) (now : Z) : block :=
  mkBlock (wrap 8 (Z.land (Z.shiftl tableIdx 7) 0x80 + DATA_TYPE_RAW)) 1 (stamps_of now) key.

(** The object stands at the first row of its block. *)
Record at_start r (h : Header) (n : nat) : Prop := {
  as_start : data_start_ h = Z.of_nat n;
  as_key : key_start_ h = 16;
  as_count : get_request_count_offset_ h = 9;
  as_stamps : time_stamp_offset_ h = 10;
  as_off : off r = Z.of_nat n;
  as_row : row_off r = Z.of_nat n
}.

Lemma write_head_runs pchKey now bs r (ks := key_len (key_size_ (rf r)) pchKey) (b := new_block (table_index_ (rf r)) (take (Z.to_nat ks) pchKey) now) :
  p_content_ (rm r) ≠ 0 -> off r = 0 -> length bs = Z.to_nat (sz r) -> 0 <= ks <= Z.of_nat (length pchKey) -> HEAD_SIZE + ks <= sz r < 2 ^ 32 ->
  exists r', runs (write_head pchKey now) bs r (Go 0) (splice 0 (head b (data_size_ (rc r)) (row_count_ (rc r))) bs) r'
  /\ rm r' = rm r /\ rf r' = rf r /\ data_size_ (rc r') = data_size_ (rc r) /\ row_count_ (rc r') = row_count_ (rc r)
  /\ at_start r' (rh r') (length (head b 0 0)).
Proof.
  intros Hc Ho Hl Hks Hs. unfold HEAD_SIZE in Hs. set (ty := Z.land (Z.shiftl (table_index_ (rf r)) 7) 0x80 + DATA_TYPE_RAW) in *.
  set (r1 := on_rh (set_count_offset 9 1) (at_offset 9 r)). set (r2 := on_rh (set_stamp_offset 10) (at_offset 10 r1)).
  set (r3 := at_offset 16 (on_rh (set_stamps (wrap 16 now) (wrap 16 now) (wrap 16 now)) r2)).
  set (r4 := on_rc (set_row_offset (16 + ks)) (on_rh (set_starts 16 (16 + ks)) (at_offset (16 + ks) r3))). exists r4.
  assert (length (take (Z.to_nat ks) pchKey) = Z.to_nat ks) as Ek by (rewrite length_take; lia).
  split_and!; try done; [|rewrite head_length; simpl; rewrite Ek; split; simpl; lia].
  rewrite head_eq, <- (splice_nil 0 bs) at 1. unfold write_head. eapply runs_bind; [apply runs_get|done|]. fold ty.
  eapply (runs_bind _ _ _ _ tt _ (at_offset 1 r)); [apply set_next; rewrite ?Ho; simpl; done || lia|done|].
  eapply (runs_bind _ _ _ _ tt _ (at_offset 5 r)); [apply set_next; simpl; done || lia|done|].
  eapply (runs_bind _ _ _ _ tt _ (at_offset 9 r)); [apply set_next; simpl; done || lia|done|].
  eapply runs_bind; [apply runs_get|done|]. eapply (runs_bind _ _ _ _ tt _ r1); [by apply runs_set|done|].
  eapply (runs_bind _ _ _ _ tt _ (at_offset 10 r1)); [apply set_next; simpl; done || lia|done|].
  eapply runs_bind; [apply runs_get|done|]. eapply (runs_bind _ _ _ _ tt _ r2); [by apply runs_set|done|].
  eapply runs_bind; [apply init_timp_stamp_runs; simpl; done || lia|done|].
  eapply (runs_bind _ _ _ _ tt _ r3); [eapply runs_to; [apply (SKIP_SIZE_runs 6); simpl; lia|done|done]|done|].
  eapply runs_bind; [apply runs_get|done|]. cbv zeta. fold ks. change (off r3) with 16. change (key_size_ (rf r3)) with (key_size_ (rf r)). fold ks.
  eapply runs_bind; [apply poke_next; simpl; rewrite ?Ek; done || lia|done|].
  eapply (runs_bind _ _ _ _ tt _ (at_offset (16 + ks) r3)); [apply set_off_runs; lia|done|].
  eapply runs_bind; [apply runs_get|done|]. eapply runs_bind; [by apply runs_set|done|]. eapply (runs_bind _ _ _ _ tt _ r4); [by apply runs_set|done|].
  eapply runs_to; [apply runs_ret| |done]. by rewrite <- !app_assoc.
Qed.

(** A new block, or no memory and nothing changed; the other blocks stay. *)
Lemma init_spec x Hp t uchKeyIdx iKeySize pchKey uiDataSize laId expireId nodeIdx now (ks := key_len iKeySize pchKey)
  (idx := if nodeIdx =? -1 then table_index_ (rf (raw x)) else nodeIdx) (b := new_block idx (take (Z.to_nat ks) pchKey) now) : m_rep (rs x) Hp -> 0 <= uiDataSize ->
  0 <= ks <= Z.of_nat (length pchKey) -> uiDataSize + (HEAD_SIZE + ks) < 2 ^ 31 -> idx = 0 \/ idx = 1 ->
  exists res y, init uchKeyIdx iKeySize pchKey uiDataSize laId expireId nodeIdx now x = Some (Go res, y)
  /\ (forall z, in_heap Hp z -> load z (rs y) = load z (rs x))
  /\ (res = EC_NO_MEM /\ m_rep (rs y) Hp
      \/ res = 0 /\ exists n r', Hp !! handle_ (rm r') = None /\ holds y (<[handle_ (rm r') := n]> Hp) t b [] r'
         /\ at_start r' (rh r') (length (head b 0 0)) /\ rf r' = mkFormat uchKeyIdx iKeySize laId (m_iLCmodId (rf (raw x))) expireId idx).
Proof.
  intros R Hd Hks Hn Hidx. unfold init. fold ks. unfold HEAD_SIZE in *. rewrite wrap_small by (split; lia). cbv zeta.
  destruct (m_Malloc_ok (rs x) Hp (uiDataSize + (16 + ks)) R ltac:(lia)) as (h & st & E & K & O).
  erewrite rbind_go by (unfold m_alloc; change (2 + 4 * 2 + 2 * 3 + ks) with (16 + ks); by rewrite E).
  destruct O as [(-> & R')|(n & Hn' & Hh & Hf & R')].
  { rewrite Z.eqb_refl. eexists EC_NO_MEM, _. split_and!; [by erewrite rbind_go by done|done|by left]. }
  destruct (Z.eqb_spec h INVALID_HANDLE); [done|]. assert (m_chunk_size h st = n) as En by (eapply m_chunk_size_ok; [exact R'|apply lookup_insert_eq]).
  destruct (m_rep_pos _ _ _ _ R' (lookup_insert_eq _ _ _)) as [Hpos Hsz].
  erewrite rbind_go by (unfold take_block; erewrite rbind_go by reflexivity; unfold upd; simpl; by rewrite En). erewrite rbind_go by reflexivity. erewrite rbind_go by reflexivity.
  erewrite rbind_go by reflexivity. simpl raw. set (r1 := on_rf _ _).
  assert (negb (idx =? 0) && negb (idx =? 1) = false) as Hc by (by destruct Hidx as [-> | ->]).
  set (z := mkR st r1). assert (view z (<[h := n]> Hp) (load_bytes h (Z.to_nat n) st) r1) as V by (split; simpl; try done; apply lookup_insert_eq).
  destruct (write_head_runs pchKey now (load_bytes h (Z.to_nat n) st) r1) as (r' & D & Em & Ef & Ed & Ek & As); [simpl; lia|done|apply load_bytes_length|done|unfold HEAD_SIZE; simpl; fold ks; lia|].
  destruct (D z _ V) as (y & E2 & V2 & K2). change (table_index_ (rf r1)) with idx in *. change (key_size_ (rf r1)) with iKeySize in *. fold ks in V2, As. fold b in V2, As.
  exists 0, y. split_and!.
  - change ((if negb (idx =? 0) && negb (idx =? 1) then mret (-100) else on_error (write_head pchKey now) (mret (-100))) z = Some (Go 0, y)). rewrite Hc. by apply on_error_go.
  - intros w Hw. rewrite K2; [by apply K|]. simpl. rewrite delete_insert_id; done.
  - right. split; [done|]. exists n, r'. rewrite Em. simpl handle_. split_and!; [done| |done|by rewrite Ef].
    assert (length (take (Z.to_nat ks) pchKey) = Z.to_nat ks) as El by (rewrite length_take; lia).
    exists (drop (length (head b 0 0)) (load_bytes h (Z.to_nat n) st)), (splice 0 (head b (16 + ks) 0) (load_bytes h (Z.to_nat n) st)).
    assert (data_size_ (rc r1) = 16 + ks) as Ed1 by (change (wrap 32 (16 + ks) = 16 + ks); apply wrap_small; split; lia).
    rewrite Ed1 in V2, Ed. split; [exact V2|]. destruct As as [A1 A2 A3 A4 A5 A6].
    assert (length (head b 0 0) = 16 + Z.to_nat ks)%nat as Eb by (rewrite head_length; simpl; lia).
    split; rewrite ?Ed, ?Ek, ?A1; try done.
    + rewrite Eb. change (length (body (row_fields t r') [])) with 0%nat. lia.
    + lia.
Qed.

(** ** Attaching *)

(** The bytes [get_next] field by field. *)
Lemma get_next {A} n v p q r (f : Z -> rprog S A) o bs2 r2 : off r = Z.of_nat (length p) -> 0 <= n -> length (p ++ le_bytes (Z.to_nat n) v ++ q) = Z.to_nat (sz r) -> 0 <= sz r < 2 ^ 32 ->
  runs (f (v mod 256 ^ n)) ((p ++ le_bytes (Z.to_nat n) v) ++ q) (at_offset (off r + n) r) o bs2 r2 ->
  runs (GET_VALUE n ≫= f) (p ++ le_bytes (Z.to_nat n) v ++ q) r o bs2 r2.
Proof.
  intros Ho Hn Hl Hs D. eapply (runs_bind _ _ _ _ (v mod 256 ^ n) ((p ++ le_bytes (Z.to_nat n) v) ++ q) (at_offset (off r + n) r)); [rewrite <- app_assoc|done|done].
  assert (Z.of_nat (length (le_bytes (Z.to_nat n) v)) = n) as El by (rewrite le_bytes_length; lia).
  pose proof (GET_VALUE_reads n (le_bytes (Z.to_nat n) v) El p q r Ho Hl Hs) as G. rewrite El, le_val_bytes, Z2Nat.id in G by lia. exact G.
Qed.

Lemma attach_time_stamp_runs bs r (o := time_stamp_offset_ (rh r)) (st := fun i => le_val (part (Z.to_nat (o + i)) 2 bs)) : p_content_ (rm r) ≠ 0 -> 0 <= o -> o + 6 <= sz r ->
  runs attach_time_stamp bs r (Go tt) bs (on_rh (set_stamps (st 0) (st 2) (st 4)) r).
Proof.
  intros Hc Ho Hs. unfold attach_time_stamp. eapply runs_bind; [apply runs_get|done|]. destruct (Z.eqb_spec (p_content_ (rm r)) 0); [done|]. fold o.
  destruct (Z.ltb_spec (sz r) (o + 6)); [lia|]. cbv zeta. eapply runs_bind; [apply runs_peek; lia|done|]. eapply runs_bind; [apply runs_peek; lia|done|].
  eapply runs_bind; [apply runs_peek; lia|done|]. apply runs_set; try done. unfold st. by rewrite Z.add_0_r.
Qed.

(** The key has the length its format or its first byte says. *)
Definition key_sized (iKeySize : Z) (b : block) : Prop := Z.of_nat (length (b_key b)) = key_len iKeySize (b_key b).

(** The header is read back. *)
Lemma read_head_runs uchKeyIdx iKeySize laid lcmodid expireid b n k q r (bs := head b n k ++ q) : p_content_ (rm r) ≠ 0 -> off r = 0 ->
  length bs = Z.to_nat (sz r) -> 0 <= sz r < 2 ^ 32 -> 0 <= n <= sz r -> 0 <= k < 2 ^ 32 -> length (b_stamps b) = 6%nat -> key_sized iKeySize b -> b_key b ≠ [] ->
  Z.land (b_type b) 0x7f = DATA_TYPE_RAW -> 0 <= b_type b < 256 -> 0 <= b_count b < 256 ->
  exists r', runs (read_head uchKeyIdx iKeySize laid lcmodid expireid) bs r (Go 0) bs r'
  /\ rm r' = rm r /\ rf r' = mkFormat uchKeyIdx iKeySize laid lcmodid expireid (table_index_ (rf r)) /\ data_size_ (rc r') = n /\ row_count_ (rc r') = k
  /\ at_start r' (rh r') (length (head b 0 0)) /\ get_request_count_ (rh r') = b_count b.
Proof.
  intros Hc Ho Hl Hs Hn Hk Hst Hkey Hne Hty Hb Hcount. unfold bs in *. clear bs. rewrite length_app, head_length in Hl.
  set (r1 := on_rc (set_counts n (row_count_ (rc r))) (at_offset 5 r)). set (r2 := on_rc (set_counts n k) (at_offset 9 r1)).
  set (r3 := on_rh (set_stamp_offset 10) (on_rh (set_count_offset 9 (b_count b)) (at_offset 10 r2))).
  set (st := fun i => le_val (part i 2 (head b n k ++ q))). set (r4 := at_offset 16 (on_rh (set_stamps (st 10%nat) (st 12%nat) (st 14%nat)) r3)).
  set (r5 := on_rh (fun h => set_starts 16 (data_start_ h) h) (on_rf (fun f => mkFormat uchKeyIdx iKeySize laid lcmodid expireid (table_index_ f)) r4)).
  set (r6 := at_offset (16 + Z.of_nat (length (b_key b))) r5). set (r7 := on_rh (set_starts 16 (off r6)) r6). exists (on_rc (set_row_offset (off r6)) r7).
  split_and!; try done; [|rewrite head_length; split; simpl; lia].
  assert (forall v, 0 <= v < 256 -> [v] = le_bytes (Z.to_nat 1) v) as H1 by (intros v Hv; simpl; by rewrite Z.mod_small).
  assert (head b n k ++ q = [] ++ le_bytes (Z.to_nat 1) (b_type b) ++ le_bytes (Z.to_nat 4) n ++ le_bytes (Z.to_nat 4) k ++ le_bytes (Z.to_nat 1) (b_count b) ++ b_stamps b ++ b_key b ++ q) as Ebs
    by (rewrite head_eq, <- !H1, <- !app_assoc by done; done).
  set (bs := head b n k ++ q) in *. assert (length bs = Z.to_nat (sz r)) as Hlen by (unfold bs; rewrite length_app, head_length; lia). clearbody bs.
  assert (forall p' q' m : list Z, bs = p' ++ m ++ q' -> length (p' ++ m ++ q') = Z.to_nat (sz r)) as Hany by (intros ? ? ? <-; done).
  rewrite Ebs at 1. unfold read_head.
  apply get_next; [by rewrite Ho|done|by apply Hany|done|]. change (256 ^ 1) with 256. rewrite (Z.mod_small (b_type b)) by done. rewrite Hty. cbn [Z.eqb Pos.eqb negb DATA_TYPE_RAW].
  apply get_next; [simpl; lia|done|apply Hany; rewrite Ebs, <- !app_assoc; done|done|]. change (256 ^ 4) with (2 ^ 32). rewrite (Z.mod_small n) by lia.
  eapply (runs_bind _ _ _ _ tt _ r1); [apply runs_set; try done; unfold at_offset, on_rc, r1; simpl; by rewrite Ho|done|].
  apply get_next; [done|done|apply Hany; rewrite Ebs, <- !app_assoc; done|done|]. change (256 ^ 4) with (2 ^ 32). rewrite (Z.mod_small k) by lia.
  eapply (runs_bind _ _ _ _ tt _ r2); [by apply runs_set|done|]. eapply runs_bind; [apply runs_get|done|]. cbv zeta.
  apply get_next; [done|done|apply Hany; rewrite Ebs, <- !app_assoc; done|done|]. change (256 ^ 1) with 256. rewrite (Z.mod_small (b_count b)) by lia.
  eapply (runs_bind _ _ _ _ tt _ (on_rh (set_count_offset 9 (b_count b)) (at_offset 10 r2))); [by apply runs_set|done|].
  eapply runs_bind; [apply runs_get|done|]. eapply (runs_bind _ _ _ _ tt _ r3); [by apply runs_set|done|].
  rewrite <- !app_assoc, <- Ebs. eapply runs_bind; [apply attach_time_stamp_runs; simpl; done || lia|done|].
  eapply (runs_bind _ _ _ _ tt _ r4); [eapply runs_to; [apply (SKIP_SIZE_runs 6); simpl; lia|reflexivity|done]|done|]. eapply runs_bind; [apply runs_get|done|].
  destruct (Z.ltb_spec (size_ (rm r4)) (data_size_ (rc r4))) as [Hlt|_]; [simpl in Hlt; lia|]. cbv zeta.
  eapply runs_bind; [by apply runs_set|done|]. eapply (runs_bind _ _ _ _ tt _ r5); [by apply runs_set|done|]. change (off r4) with 16.
  eapply (runs_bind _ _ _ _ (Z.of_nat (length (b_key b))) _ r5); [|done|].
  { assert (0 < length (b_key b))%nat by (destruct (b_key b); simpl; [done|lia]). unfold key_sized, key_len in Hkey. destruct (Z.eqb_spec iKeySize 0); [|rewrite Hkey; apply runs_ret].
    eapply runs_bind; [apply runs_peek; simpl; lia|done|]. rewrite Hkey. replace (part (Z.to_nat 16) (Z.to_nat 1) bs) with [hd 0 (b_key b)]; [cbn [le_val]; rewrite Z.mul_0_r, Z.add_0_r; apply runs_ret|].
    rewrite Ebs. destruct (b_key b) as [|c key] eqn:Ekey; [done|].
    rewrite !app_assoc, <- (app_assoc _ (c :: key) q). symmetry. apply (part_mid _ [c] (key ++ q)); [|done]. rewrite !length_app, !le_bytes_length. simpl. lia. }
  eapply (runs_bind _ _ _ _ tt _ r6); [eapply runs_to; [apply SKIP_LEN_runs; simpl; lia|reflexivity|done]|done|].
  eapply runs_bind; [apply runs_get|done|]. eapply (runs_bind _ _ _ _ tt _ r7); [by apply runs_set|done|]. eapply runs_bind; [by apply runs_set|done|]. apply runs_ret.
Qed.

(** Block [b] with [rows] of the fields [fs], in memory at [h]. *)
Definition block_at (st : S) Hp (h : Z) (fs : list FieldDef) b (rows : Rows) : Prop :=
  exists n slack, Hp !! h = Some n /\ load_bytes h (Z.to_nat n) st = head b (Z.of_nat (length (head b 0 0 ++ body fs rows))) (Z.of_nat (length rows)) ++ body fs rows ++ slack
  /\ Forall (fun row => row_fits fs row.2 = true) rows /\ length (b_stamps b) = 6%nat /\ Z.of_nat (length (head b 0 0 ++ body fs rows)) < 2 ^ 31.

Lemma holds_block x Hp t b rows r : holds x Hp t b rows r -> block_at (rs x) Hp (handle_ (rm r)) (row_fields t r) b rows.
Proof.
  intros (slack & bs & V & [B1 B2 B3 B4 B5 B6 B7]). exists (sz r), slack. destruct V as [V1 V2 V3 V4 V5].
  assert (Z.of_nat (length (head b 0 0 ++ body (row_fields t r) rows)) = data_size_ (rc r)) as Ed by (rewrite length_app; lia).
  rewrite Ed. split_and!; try done. rewrite V5, B1. by rewrite <- B4.
Qed.

(** The type byte is the one of a row block, and the key is as the format says. *)
Record formatted (iKeySize : Z) b : Prop := {
  fm_type : Z.land (b_type b) 0x7f = DATA_TYPE_RAW;
  fm_byte : 0 <= b_type b < 256;
  fm_count : 0 <= b_count b < 256;
  fm_key : key_sized iKeySize b;
  fm_some : b_key b ≠ []
}.

Lemma attach_spec x Hp t h uchKeyIdx iKeySize laid lcmodid expireid b rows : m_rep (rs x) Hp ->
  block_at (rs x) Hp h (drop (Z.to_nat (uchKeyIdx + 1)) (fields t)) b rows -> formatted iKeySize b ->
  exists y r', attach h uchKeyIdx iKeySize laid lcmodid expireid x = Some (Go 0, y) /\ holds y Hp t b rows r' /\ at_start r' (rh r') (length (head b 0 0))
  /\ handle_ (rm r') = h /\ rf r' = mkFormat uchKeyIdx iKeySize laid lcmodid expireid (table_index_ (rf (raw x))) /\ others_kept h Hp x y /\ get_request_count_ (rh r') = b_count b.
Proof.
  intros R (n & slack & Hh & Hbs & Hfit & Hst & Hlim) [F1 F2 F3 F4 F5]. destruct (m_rep_pos _ _ _ _ R Hh) as [Hpos Hsz]. set (fs := drop (Z.to_nat (uchKeyIdx + 1)) (fields t)) in *.
  set (bs := load_bytes h (Z.to_nat n) (rs x)) in *. assert (length bs = Z.to_nat n) as Hlen by apply load_bytes_length. rewrite Hbs in Hlen. rewrite !length_app, !head_length in Hlen. rewrite length_app, head_length in Hlim.
  unfold attach. erewrite rbind_go by reflexivity. erewrite rbind_go by reflexivity. rewrite (m_chunk_size_ok _ _ _ _ R Hh). destruct (Z.eqb_spec n 0); [lia|].
  erewrite rbind_go by reflexivity. erewrite rbind_go by reflexivity. simpl raw. set (r1 := on_rc _ _). set (z := mkR _ r1).
  assert (view z Hp bs r1) as V by (by split).
  destruct (read_head_runs uchKeyIdx iKeySize laid lcmodid expireid b (Z.of_nat (length (head b 0 0 ++ body fs rows))) (Z.of_nat (length rows)) (body fs rows ++ slack) r1)
    as (r' & D & Em & Ef & Ed & Ek & As & Ec);
    [(try done; rewrite ?length_app, ?head_length; simpl; pose proof (body_rows fs rows); lia)..|].
  rewrite Hbs in V. destruct (D z Hp V) as (y & E & V' & K). exists y, r'. split_and!; [by apply on_error_go| |exact As|by rewrite Em|by rewrite Ef|exact K|exact Ec].
  assert (row_fields t r' = fs) as Efs by (unfold row_fields; by rewrite Ef).
  eexists slack, _. split; [exact V'|]. destruct As as [A1 A2 A3 A4 A5 A6]. split; rewrite ?Efs, ?Ed, ?Ek, ?A1; try done; rewrite length_app, ?head_length; lia.
Qed.

(** The format of a table's rows. *)
Definition format_of t (idx : Z) : Format :=
  mkFormat (wrap 8 (key_fields t - 1)) (key_format t) (lastacc_field_id t) (lastcmod_field_id t) (expire_time_field_id t) idx.

Definition stored_part t : list FieldDef := drop (Z.to_nat (wrap 8 (key_fields t - 1) + 1)) (fields t).

Lemma block_type st Hp h fs b rows : block_at st Hp h fs b rows -> load h st = b_type b.
Proof.
  intros (n & slack & _ & Hbs & _). pose proof (f_equal (fun l => l !! 0%nat) Hbs) as E0. simpl in E0. rewrite head_eq in E0. simpl in E0.
  destruct (decide (0 < Z.to_nat n)%nat) as [Hn|Hn].
  - rewrite load_bytes_lookup in E0 by done. rewrite Z.add_0_r in E0. by injection E0.
  - rewrite lookup_ge_None_2 in E0; [done|]. rewrite load_bytes_length. lia.
Qed.

Lemma do_attach_spec get_def x Hp t h b rows (idx := Z.land (Z.shiftr (b_type b) 7) 1) : m_rep (rs x) Hp -> block_at (rs x) Hp h (stored_part t) b rows ->
  formatted (key_format t) b -> get_def idx = Some t ->
  exists y r', do_attach get_def h x = Some (Go 0, y) /\ holds y Hp t b rows r' /\ at_start r' (rh r') (length (head b 0 0))
  /\ handle_ (rm r') = h /\ rf r' = format_of t idx /\ others_kept h Hp x y /\ get_request_count_ (rh r') = b_count b.
Proof.
  intros R Hb F Hg. unfold do_attach. erewrite rbind_go by reflexivity. erewrite rbind_go by reflexivity. cbv zeta. simpl rs. rewrite (block_type _ _ _ _ _ _ Hb). fold idx.
  erewrite rbind_go by reflexivity. rewrite Hg. set (z := mkR _ _).
  destruct (attach_spec z Hp t h (wrap 8 (key_fields t - 1)) (key_format t) (lastacc_field_id t) (lastcmod_field_id t) (expire_time_field_id t) b rows R Hb F)
    as (y & r' & E & Ho & As & Eh & Ef & K & Ec). by exists y, r'.
Qed.

Lemma new_block_formatted idx iKeySize pchKey now (ks := key_len iKeySize pchKey) : idx = 0 \/ idx = 1 -> 0 < ks <= Z.of_nat (length pchKey) ->
  formatted iKeySize (new_block idx (take (Z.to_nat ks) pchKey) now) /\ Z.land (Z.shiftr (b_type (new_block idx (take (Z.to_nat ks) pchKey) now)) 7) 1 = idx.
Proof.
  intros Hidx Hks. split; [|by destruct Hidx as [-> | ->]]. assert (length (take (Z.to_nat ks) pchKey) = Z.to_nat ks) as El by (rewrite length_take; lia).
  split; [by destruct Hidx as [-> | ->]|by destruct Hidx as [-> | ->]|done| |].
  - unfold key_sized. simpl. rewrite El, Z2Nat.id by lia. unfold ks, key_len in *. destruct (iKeySize =? 0); [|done].
    destruct pchKey as [|c key]; [simpl in Hks; lia|]. replace (Z.to_nat (1 + hd 0 (c :: key))) with (Datatypes.S (Z.to_nat (hd 0 (c :: key)))) by (simpl in *; lia). done.
  - simpl. intros E. rewrite E in El. simpl in El. lia.
Qed.

End RawHead.
