(* ===== verification/RawSafe.v ===== *)
(** Reading a block whose bytes may be anything: the macros of
    core/raw/raw_data.cc check every access against the size of the block, so
    decoding stays inside it, and what it returns has the types of the
    table's fields. *)

From stdpp Require Import base list gmap.
From S2P Require Import Prelude PtMalloc PtMallocSpec MallocBase RawData RawBytes RawRows RawSpec RawOps.

Local Open Scope Z_scope.

Definition is_byte (b : Z) : Prop := 0 <= b < 256.

(** A value of the field's type, within its width. *)
Definition has_type (f : FieldDef) (v : DTCValue) : Prop :=
  match field_type f, v with
  | FSigned, VInt z => - 2 ^ (8 * int_size f - 1) <= z < 2 ^ (8 * int_size f - 1)
  | FUnsigned, VInt z => 0 <= z < 2 ^ (8 * int_size f)
  | FFloat, VFlt _ => True
  | (FString | FBinary | FNone), VBin bs => Z.of_nat (length bs) < 2 ^ 31 /\ Forall is_byte bs
  | _, _ => False
  end.

(** What decoding a field may give: the length of a string is not checked for
    its sign. *)
Definition read_type (f : FieldDef) (v : DTCValue) : Prop :=
  has_type f v \/ match field_type f, v with (FString | FBinary | FNone), VBadBin len => - 2 ^ 31 <= len < 0 | _, _ => False end.

(** The decoded values of the fields that are in the rows, and the old values
    of the others. *)
Fixpoint typed_row (fs : list FieldDef) (old vs : list DTCValue) : Prop :=
  match fs, old, vs with
  | f :: fs, w :: old, v :: vs => (if is_discard f then v = w else read_type f v) /\ typed_row fs old vs
  | [], [], [] => True
  | _, _, _ => False
  end.

Lemma le_val_range bs : Forall is_byte bs -> 0 <= le_val bs < 256 ^ Z.of_nat (length bs).
Proof.
  induction 1 as [|b bs Hb _ IH]; [done|]. unfold is_byte in Hb. cbn [le_val length]. rewrite Nat2Z.inj_succ, Z.pow_succ_r by lia. lia.
Qed.

Lemma Forall_part o n bs : Forall is_byte bs -> Forall is_byte (part o n bs).
Proof. intros Hb. by apply Forall_take, Forall_drop. Qed.

Lemma part_length o n bs : (o + n <= length bs)%nat -> length (part o n bs) = n.
Proof. intros Hl. unfold part. rewrite length_take, length_drop. lia. Qed.

Lemma sext_range w v : 1 <= w -> 0 <= v < 2 ^ w -> - 2 ^ (w - 1) <= sext w v < 2 ^ (w - 1).
Proof.
  intros Hw Hv. unfold sext. assert (2 ^ w = 2 * 2 ^ (w - 1)) as E by (rewrite <- Z.pow_succ_r by lia; f_equal; lia).
  destruct (Z.ltb_spec v (2 ^ (w - 1))); lia.
Qed.

Section RawSafe.

Context {S : Type} `{MallocLaws S}.

Implicit Types (x y : RState S) (Hp : heap) (bs : list Z) (r : RawData) (t : TableDef).

Abbreviation sz r := (size_ (rm r)).
Abbreviation off r := (offset_ (rc r)).

(** The same object at another place of the same block. *)
Record elsewhere r r' : Prop := {
  el_rm : rm r' = rm r;
  el_rf : rf r' = rf r;
  el_rh : rh r' = rh r;
  el_size : data_size_ (rc r') = data_size_ (rc r);
  el_rows : row_count_ (rc r') = row_count_ (rc r);
  el_row : row_offset_ (rc r') = row_offset_ (rc r);
  el_off : 0 <= off r'
}.

(** [m] only reads, wherever it starts, and its results are in [P]; the block
    is small enough for [SKIP_SIZE] with an [int] not to wrap around. *)
Definition scans {A} (m : rprog S A) (P : A -> Prop) : Prop := forall x Hp bs r, view x Hp bs r -> Forall is_byte bs -> sz r < 2 ^ 31 -> 0 <= off r ->
  exists o y r', m x = Some (o, y) /\ view y Hp bs r' /\ elsewhere r r' /\ others_kept (handle_ (rm r)) Hp x y /\ match o with Go a => P a | Error => True end.

Lemma elsewhere_refl r : 0 <= off r -> elsewhere r r.
Proof. by split. Qed.

Lemma elsewhere_trans r r1 r2 : elsewhere r r1 -> elsewhere r1 r2 -> elsewhere r r2.
Proof. intros [] []. split; congruence || done. Qed.

Lemma scans_ret {A} (a : A) (P : A -> Prop) : P a -> scans (mret a) P.
Proof. intros Pa x Hp bs r V Hb Hz Ho. exists (Go a), x, r. split_and!; try done. Qed.

Lemma scans_bind {A B} (m : rprog S A) (f : A -> rprog S B) P Q : scans m P -> (forall a, P a -> scans (f a) Q) -> scans (m ≫= f) Q.
Proof.
  intros M F x Hp bs r V Hb Hz Ho. destruct (M x Hp bs r V Hb Hz Ho) as (o & y & r1 & E & V1 & L1 & K1 & Po). destruct o as [a|].
  - destruct (F a Po y Hp bs r1 V1 Hb) as (o & z & r2 & E2 & V2 & L2 & K2 & Qo); [by rewrite (el_rm _ _ L1)|apply L1|].
    exists o, z, r2. split_and!; [by erewrite rbind_go by exact E|done| | |done].
    + by eapply elsewhere_trans.
    + intros w Hw. rewrite (el_rm _ _ L1) in K2. by rewrite K2, K1.
  - exists Error, y, r1. split_and!; [by apply rbind_error|done|done|done|done].
Qed.

Lemma scans_weaken {A} (m : rprog S A) (P Q : A -> Prop) : scans m P -> (forall a, P a -> Q a) -> scans m Q.
Proof.
  intros M PQ x Hp bs r V Hb Hz Ho. destruct (M x Hp bs r V Hb Hz Ho) as (o & y & r1 & E & V1 & L1 & K1 & Po). exists o, y, r1. split_and!; try done. destruct o; auto.
Qed.

(** A program that gives up with [ERROR_RET], or is a run. *)
Lemma scans_runs {A} (m : rprog S A) (P : A -> Prop) : (forall bs r, length bs = Z.to_nat (sz r) -> 0 <= sz r < 2 ^ 31 -> Forall is_byte bs -> 0 <= off r ->
    exists o r', runs m bs r o bs r' /\ elsewhere r r' /\ match o with Go a => P a | Error => True end) -> scans m P.
Proof.
  intros D x Hp bs r V Hb Hz Ho. destruct (view_size _ _ _ _ V) as (_ & Hsz & Hlen). destruct (D bs r Hlen ltac:(lia) Hb Ho) as (o & r' & M & L & Po).
  destruct (M x Hp V) as (y & E & V' & K). by exists o, y, r'.
Qed.

Lemma elsewhere_at r o : 0 <= o -> elsewhere r (at_offset o r).
Proof. by split. Qed.

Lemma GET_VALUE_scans n : 0 <= n -> scans (GET_VALUE n) (fun v => 0 <= v < 256 ^ n).
Proof.
  intros Hn. apply scans_runs. intros bs r Hl Hs Hb Ho. unfold GET_VALUE. destruct (decide (sz r < off r + n)) as [Hlt|Hge].
  - exists Error, r. split_and!; [|by apply elsewhere_refl|done]. eapply runs_bind; [apply runs_get|done|]. cbv zeta. destruct (Z.ltb_spec (sz r) (off r + n)); [apply runs_error|lia].
  - exists (Go (le_val (part (Z.to_nat (off r)) (Z.to_nat n) bs))), (at_offset (off r + n) r). split; [|split; [apply elsewhere_at; lia|]].
    + eapply runs_bind; [apply runs_get|done|]. cbv zeta. destruct (Z.ltb_spec (sz r) (off r + n)); [lia|].
      eapply runs_bind; [apply runs_peek; lia|done|]. eapply runs_bind; [apply set_off_runs; lia|done|]. apply runs_ret.
    + pose proof (le_val_range (part (Z.to_nat (off r)) (Z.to_nat n) bs) (Forall_part _ _ _ Hb)) as Hr. rewrite part_length, Z2Nat.id in Hr by lia. exact Hr.
Qed.

Lemma SKIP_SIZE_scans n : 0 <= n -> scans (SKIP_SIZE n) (fun _ => True).
Proof.
  intros Hn. apply scans_runs. intros bs r Hl Hs Hb Ho. unfold SKIP_SIZE. destruct (decide (sz r < off r + n)) as [Hlt|Hge].
  - exists Error, r. split_and!; [|by apply elsewhere_refl|done]. eapply runs_bind; [apply runs_get|done|]. cbv zeta. destruct (Z.ltb_spec (sz r) (off r + n)); [apply runs_error|lia].
  - exists (Go tt), (at_offset (off r + n) r). split_and!; [|apply elsewhere_at; lia|done]. apply SKIP_SIZE_runs; lia.
Qed.

(** [SKIP_SIZE] with a negative length goes back, but never before the block. *)
Lemma SKIP_LEN_cases len bs r : 0 <= sz r < 2 ^ 31 -> 0 <= off r <= sz r -> - 2 ^ 31 <= len < 2 ^ 31 ->
  runs (SKIP_LEN len) bs r Error bs r \/ 0 <= off r + len <= sz r /\ runs (SKIP_LEN len) bs r (Go tt) bs (at_offset (off r + len) r).
Proof.
  intros Hs Ho Hn. destruct (decide (0 <= off r + len <= sz r)) as [Hin|Hout].
  - right. split; [done|]. eapply runs_bind; [apply runs_get|done|]. cbv zeta. rewrite wrap_small by (split; lia).
    destruct (Z.ltb_spec (sz r) (off r + len)); [lia|]. apply set_off_runs. lia.
  - left. eapply runs_bind; [apply runs_get|done|]. cbv zeta. assert (sz r < wrap 32 (off r + len)); [|destruct (Z.ltb_spec (sz r) (wrap 32 (off r + len))); [apply runs_error|lia]].
    unfold wrap. destruct (decide (off r + len < 0)).
    + replace (off r + len) with (off r + len + 2 ^ 32 + (-1) * 2 ^ 32) by lia. rewrite Z_mod_plus_full, Z.mod_small; lia.
    + rewrite Z.mod_small; lia.
Qed.

Lemma bin_scans : scans (v ← GET_VALUE 4; let len := sext 32 v in r ← get; SKIP_LEN len;;
    if len <? 0 then mret (VBadBin len) else bs ← peek (offset_ (rc r)) len; mret (VBin bs))
  (fun w => (exists bs, w = VBin bs /\ Z.of_nat (length bs) < 2 ^ 31 /\ Forall is_byte bs) \/ exists len, w = VBadBin len /\ - 2 ^ 31 <= len < 0).
Proof.
  apply scans_runs. intros bs r Hl Hs Hb Ho. destruct (decide (sz r < off r + 4)) as [Hlt|Hge].
  { exists Error, r. split_and!; [|by apply elsewhere_refl|done]. apply runs_bind_error. eapply runs_bind; [apply runs_get|done|]. cbv zeta. destruct (Z.ltb_spec (sz r) (off r + 4)); [apply runs_error|lia]. }
  set (v := le_val (part (Z.to_nat (off r)) (Z.to_nat 4) bs)). set (r1 := at_offset (off r + 4) r).
  assert (runs (GET_VALUE 4) bs r (Go v) bs r1) as G.
  { eapply runs_bind; [apply runs_get|done|]. cbv zeta. destruct (Z.ltb_spec (sz r) (off r + 4)); [lia|]. eapply runs_bind; [apply runs_peek; lia|done|].
    eapply runs_bind; [apply set_off_runs; lia|done|]. apply runs_ret. }
  assert (- 2 ^ 31 <= sext 32 v < 2 ^ 31) as Hv.
  { pose proof (le_val_range _ (Forall_part (Z.to_nat (off r)) (Z.to_nat 4) bs Hb)) as Hr. rewrite part_length in Hr by lia. fold v in Hr. change (256 ^ Z.of_nat (Z.to_nat 4)) with (2 ^ 32) in Hr.
    by apply (sext_range 32). }
  destruct (SKIP_LEN_cases (sext 32 v) bs r1 Hs ltac:(simpl; lia) Hv) as [D|[Hin D]].
  - exists Error, r1. split_and!; [|apply elsewhere_at; lia|done]. eapply runs_bind; [exact G|done|]. cbv zeta. eapply runs_bind; [apply runs_get|done|]. by apply runs_bind_error.
  - simpl in Hin. set (bin := part (Z.to_nat (off r1)) (Z.to_nat (sext 32 v)) bs). exists (Go (if sext 32 v <? 0 then VBadBin (sext 32 v) else VBin bin)), (at_offset (off r1 + sext 32 v) r1).
    split_and!; [|split; simpl; done || lia|].
    + eapply runs_bind; [exact G|done|]. cbv zeta. eapply runs_bind; [apply runs_get|done|]. eapply runs_bind; [exact D|done|].
      destruct (Z.ltb_spec (sext 32 v) 0); [apply runs_ret|]. eapply runs_bind; [apply runs_peek; simpl; lia|done|apply runs_ret].
    + destruct (Z.ltb_spec (sext 32 v) 0); [right; exists (sext 32 v); split; [done|lia]|left]. exists bin. split_and!; [done| |by apply Forall_part].
      unfold bin. rewrite part_length by (simpl; lia). lia.
Qed.

Lemma decode_field_scans f : scans (decode_field f) (read_type f).
Proof.
  unfold decode_field, read_type, has_type, int_size.
  destruct (field_type f); try (eapply scans_weaken; [apply bin_scans|]; intros w [(bs & -> & Hw)|(len & -> & Hw)]; tauto);
    destruct (4 <? field_size f); (eapply scans_bind; [apply GET_VALUE_scans; lia|]); intros v Hv; apply scans_ret; left; try done; try exact Hv; by apply sext_range.
Qed.

Lemma get_scans : scans get (fun _ => True).
Proof. intros x Hp bs r V Hb Hz Ho. exists (Go (raw x)), x, r. split_and!; try done. Qed.

Lemma set_la_scans g : scans (upd (on_rc (set_LAOffset g))) (fun _ => True).
Proof. apply scans_runs. intros bs r Hl Hs Hb Ho. exists (Go tt), (on_rc (set_LAOffset g) r). split_and!; [by apply runs_upd|by split|done]. Qed.

Lemma decode_fields_scans fs old j : length old = length fs -> scans (decode_fields fs j old) (typed_row fs old).
Proof.
  revert old j. induction fs as [|f fs IH]; intros [|w old] j Hl; try done; [by apply scans_ret|]. cbn [decode_fields].
  eapply (scans_bind _ _ (fun v => if is_discard f then v = w else read_type f v)).
  - destruct (is_discard f); [by apply scans_ret|]. eapply scans_bind; [apply get_scans|]. intros r0 _. eapply (scans_bind _ _ (fun _ => True)).
    + destruct (j =? m_iLAId (rf r0)); [apply set_la_scans|by apply scans_ret].
    + intros _ _. apply decode_field_scans.
  - intros v Hv. eapply scans_bind; [apply IH; by injection Hl|]. intros vs Hvs. by apply scans_ret.
Qed.

Definition put_back (pre : bool) r : rprog S unit :=
  if pre then upd (on_rc (fun c => set_row_offset (row_offset_ (rc r)) (set_offset (offset_ (rc r)) c))) else mret tt.

Lemma put_back_run pre r x Hp bs r1 : view x Hp bs r1 -> exists y r', put_back pre r x = Some (Go tt, y) /\ view y Hp bs r' /\ rm r' = rm r1 /\ rf r' = rf r1.
Proof.
  intros V. unfold put_back. destruct pre; [|by exists x, r1]. destruct (runs_upd (on_rc (fun c => set_row_offset (row_offset_ (rc r)) (set_offset (offset_ (rc r)) c))) bs r1 eq_refl x Hp V)
    as (y & E & V' & _). by eexists y, _.
Qed.

(** What [decode_row] returns for any bytes. *)
Definition decoded t (row : RowValue) r (res : Z * option (Z * RowValue)) : Prop :=
  res = (-100, None)
  \/ exists flags vs, res = (0, Some (flags, take (Z.to_nat (key_index_ (rf r) + 1)) row ++ vs)) /\ is_byte flags /\ typed_row (row_fields t r) (row_values row r) vs.

Lemma decode_row_scan x Hp bs t row pre r : view x Hp bs r -> Forall is_byte bs -> sz r < 2 ^ 31 -> 0 <= off r -> length (row_values row r) = length (row_fields t r) ->
  exists res y r', decode_row t row pre x = Some (Go res, y) /\ view y Hp bs r' /\ rm r' = rm r /\ rf r' = rf r /\ decoded t row r res.
Proof.
  intros V Hb Hz Ho Hl. unfold decode_row. erewrite rbind_go by (unfold get; by rewrite (vw_raw _ _ _ _ V)). rewrite (view_init _ _ _ _ V). cbv zeta. fold (put_back pre r).
  set (r1 := on_rc (fun c => set_row_offset (offset_ c) (set_LAOffset 0 c)) r).
  destruct (runs_upd (on_rc (fun c => set_row_offset (offset_ c) (set_LAOffset 0 c))) bs r eq_refl x Hp V) as (x1 & E1 & V1 & _). fold r1 in V1. erewrite rbind_go by exact E1.
  unfold on_error. destruct (GET_VALUE_scans 1 ltac:(lia) x1 Hp bs r1 V1 Hb Hz Ho) as (o & x2 & r2 & E2 & V2 & L2 & _ & Hfl).
  destruct o as [flags|].
  2:{ rewrite (rbind_error _ _ _ _ E2). destruct (put_back_run pre r x2 Hp bs r2 V2) as (y & r' & E3 & V3 & Em & Ef). eexists _, y, r'. split_and!; [by erewrite rbind_go by exact E3|done|..|by left].
      - by rewrite Em, (el_rm _ _ L2). - by rewrite Ef, (el_rf _ _ L2). }
  erewrite rbind_go by exact E2.
  destruct (decode_fields_scans (row_fields t r) (row_values row r) (key_index_ (rf r) + 1) Hl x2 Hp bs r2 V2 Hb) as (o & x3 & r3 & E3 & V3 & L3 & _ & Hvs);
    [by rewrite (el_rm _ _ L2)|apply L2|]. pose proof (elsewhere_trans _ _ _ L2 L3) as L. destruct (put_back_run pre r x3 Hp bs r3 V3) as (y & r' & E4 & V4 & Em & Ef).
  assert (rm r' = rm r /\ rf r' = rf r) as [Em' Ef'] by (by rewrite Em, Ef, (el_rm _ _ L), (el_rf _ _ L)). destruct o as [vs|].
  - erewrite rbind_go by exact E3. erewrite rbind_go by exact E4. eexists _, y, r'. split_and!; [done|done|done|done|]. right. by exists flags, vs.
  - rewrite (rbind_error _ _ _ _ E3). eexists _, y, r'. split_and!; [by erewrite rbind_go by exact E4|done|done|done|by left].
Qed.

End RawSafe.
