(* ===== verification/RawTrip.v ===== *)
(** Reading back what was written: the rows put into a new block are the rows
    any object that attaches to the block decodes. *)

From stdpp Require Import base list gmap.
From S2P Require Import Prelude PtMalloc PtMallocSpec MallocBase RawData RawBytes RawRows RawSpec RawOps RawEdit RawHead RawSafe.

Local Open Scope Z_scope.

(** A value the field can hold as it is. *)
Definition exact (f : FieldDef) (v : DTCValue) : Prop :=
  has_type f v /\ match field_type f, v with FFloat, VFlt b => 4 < field_size f /\ in_width 64 b | _, _ => True end.

(** The fields that are left out of the rows have the values of [old]. *)
Fixpoint exact_row (fs : list FieldDef) (old vs : list DTCValue) : Prop :=
  match fs, old, vs with
  | f :: fs, w :: old, v :: vs => (if is_discard f then v = w else exact f v) /\ exact_row fs old vs
  | [], [], [] => True
  | _, _, _ => False
  end.

Lemma sext_wrap w z : 1 <= w -> - 2 ^ (w - 1) <= z < 2 ^ (w - 1) -> sext w (wrap w z) = z.
Proof.
  intros Hw Hz. assert (2 ^ w = 2 * 2 ^ (w - 1)) as E by (rewrite <- Z.pow_succ_r by lia; f_equal; lia). unfold sext, wrap.
  destruct (decide (0 <= z)).
  - rewrite Z.mod_small by lia. destruct (Z.ltb_spec z (2 ^ (w - 1))); lia.
  - assert (z mod 2 ^ w = z + 2 ^ w) as -> by (replace z with (z + 2 ^ w + (-1) * 2 ^ w) at 1 by lia; rewrite Z_mod_plus_full, Z.mod_small; lia). destruct (Z.ltb_spec (z + 2 ^ w) (2 ^ (w - 1))); lia.
Qed.

Lemma exact_stored f v : exact f v -> stored f v = v /\ fits f v = true.
Proof.
  unfold exact, has_type, stored, fits. destruct (int_size_cases f) as [E|E]; destruct (field_type f), v; try tauto; rewrite ?E; intros [Ht Hx];
    try (split; [done|apply Z.ltb_lt; tauto]); split; try done; f_equal; try (by apply sext_wrap); try (apply wrap_small; exact Ht).
  all: destruct (Z.ltb_spec 4 (field_size f)); [by apply wrap_small, Hx|lia].
Qed.

Lemma exact_row_stored fs old vs : exact_row fs old vs -> stored_fields fs vs old = vs /\ row_fits fs vs = true /\ length old = length fs.
Proof.
  revert old vs. induction fs as [|f fs IH]; intros [|w old] [|v vs]; cbn [exact_row]; try done. intros [Hv Hr]. destruct (IH _ _ Hr) as (E1 & E2 & E3).
  cbn [stored_fields row_fits length]. destruct (is_discard f); [subst; by rewrite E1, E2, E3|]. destruct (exact_stored _ _ Hv) as [-> ->]. by rewrite E1, E2, E3.
Qed.

Lemma exact_row_swap fs old vs vs' : exact_row fs old vs -> exact_row fs old vs' -> exact_row fs vs vs'.
Proof.
  revert old vs vs'. induction fs as [|f fs IH]; intros [|w old] [|v vs] [|v' vs']; cbn [exact_row]; try done. intros [Hv Hr] [Hv' Hr']. split; [|by eapply IH].
  destruct (is_discard f); congruence.
Qed.

Section RawTrip.

Context {S : Type} `{MallocLaws S}.

Implicit Types (x y : RState S) (Hp : heap) (r : RawData) (t : TableDef).

Abbreviation off r := (offset_ (rc r)).

(** The loop over the rows of a block, with one [RowValue] for all of them. *)
Fixpoint read_rows t (n : nat) (row : RowValue) : rprog S (list (Z * RowValue)) :=
  match n with
  | O => mret []
  | Datatypes.S n =>
      res ← decode_row t row false;
      match res.2 with
      | Some (flags, row) => rest ← read_rows t n row; mret ((flags, row) :: rest)
      | None => mret []
      end
  end.

(** A row of the table, with the key and the left-out fields of [row0]. *)
Definition row_like (k : nat) (fs : list FieldDef) (row0 row : RowValue) : Prop :=
  take k row = take k row0 /\ exact_row fs (drop k row0) (drop k row).

Lemma read_rows_spec t b op rows : forall l1 x Hp r row0 (k := Z.to_nat (key_index_ (rf r) + 1)), holds x Hp t b (l1 ++ (row_of op r <$> rows)) r -> off r = row_at t r l1 ->
  Forall (row_like k (row_fields t r) row0) rows ->
  exists y, read_rows t (length rows) row0 x = Some (Go ((fun row => (wrap 8 op, row)) <$> rows), y).
Proof.
  induction rows as [|row rows IH]; intros l1 x Hp r row0 k Ho Eo Hl; [by exists x|]. inversion Hl as [|? ? [Hk Hx] Hl']; subst.
  destruct (exact_row_stored _ _ _ Hx) as (Es & Ef & Elen). cbn [read_rows length].
  destruct (decode_row_spec x Hp t b l1 op (row_values row r) (list_fmap _ _ (row_of op r) rows) r row0 false Ho Eo Elen) as (y & la & E & _ & Ho').
  erewrite rbind_go by exact E. cbn [snd]. unfold row_values in Es |- *. fold k in Es |- *. rewrite Es. rewrite <- Hk, take_drop.
  set (r1 := placed _ _ _ _) in Ho'. change (row_of op r) with (row_of op r1) in Ho'. rewrite cons_middle, app_assoc in Ho'.
  destruct (IH (l1 ++ [row_of op r1 row]) y Hp r1 row Ho' eq_refl) as (z & E2).
  - eapply Forall_impl; [exact Hl'|]. intros row' [Hk' Hx']. split; [unfold k in *; simpl; congruence|]. by eapply exact_row_swap.
  - exists z. by erewrite rbind_go by exact E2.
Qed.

(** Positions of the stored fields in a row of the table. *)
Definition skip_key t : nat := Z.to_nat (wrap 8 (key_fields t - 1) + 1).

(** The rows, as they go into a block of the table. *)
Definition table_rows t (op : Z) (rows : list RowValue) : Rows := (fun row : RowValue => (op, drop (skip_key t) row)) <$> rows.

(** A new block for a key, or no memory. *)
Lemma raw_do_init_spec (expanding : bool) cur get_def x Hp t pchKey uiDataSize now (idx := if expanding then Z.rem (cur + 1) 2 else Z.rem cur 2) (ks := key_len (key_format t) pchKey)
  (b := new_block idx (take (Z.to_nat ks) pchKey) now) : m_rep (rs x) Hp -> get_def idx = Some t -> 0 <= cur -> 0 <= uiDataSize ->
  0 < ks <= Z.of_nat (length pchKey) -> uiDataSize + (HEAD_SIZE + ks) < 2 ^ 31 ->
  exists res y, do_init expanding cur get_def pchKey uiDataSize now x = Some (Go res, y)
  /\ (forall z, in_heap Hp z -> load z (rs y) = load z (rs x))
  /\ (res = EC_NO_MEM /\ m_rep (rs y) Hp
      \/ res = 0 /\ exists n r', Hp !! handle_ (rm r') = None /\ holds y (<[handle_ (rm r') := n]> Hp) t b [] r' /\ at_start r' (rh r') (length (head b 0 0))
         /\ row_fields t r' = stored_part t /\ key_index_ (rf r') = wrap 8 (key_fields t - 1) /\ formatted (key_format t) b /\ Z.land (Z.shiftr (b_type b) 7) 1 = idx).
Proof.
  intros R Hg Hc Hd Hks Hn. assert (idx = 0 \/ idx = 1) as Hidx.
  { unfold idx. destruct expanding; [pose proof (Z.rem_bound_pos (cur + 1) 2)|pose proof (Z.rem_bound_pos cur 2)]; lia. }
  unfold do_init. fold idx. erewrite rbind_go by reflexivity. rewrite Hg. replace (negb (idx =? 0) && negb (idx =? 1)) with false by (by destruct Hidx as [-> | ->]). set (z := mkR _ _).
  destruct (new_block_formatted idx (key_format t) pchKey now Hidx Hks) as [Fm Fi].
  destruct (init_spec z Hp t (wrap 8 (key_fields t - 1)) (key_format t) pchKey uiDataSize (lastacc_field_id t) (expire_time_field_id t) (-1) now R Hd ltac:(lia) Hn Hidx)
    as (res & y & E & K & O). exists res, y. split_and!; [done|done|]. destruct O as [?|(-> & n & r' & Hf & Ho & As & Ef)]; [by left|right]. split; [done|].
  exists n, r'. split_and!; try done; [unfold row_fields; by rewrite Ef|by rewrite Ef].
Qed.

Lemma raw_trip cur get_def x Hp t pchKey now rows row0 r0 (ks := key_len (key_format t) pchKey) : m_rep (rs x) Hp -> get_def (Z.rem cur 2) = Some t -> 0 <= cur ->
  0 < ks <= Z.of_nat (length pchKey) -> Forall (row_like (skip_key t) (stored_part t) row0) rows ->
  HEAD_SIZE + ks + Z.of_nat (length (body (stored_part t) (table_rows t OPER_INSERT rows))) < 2 ^ 31 ->
  exists c1 y1, do_init false cur get_def pchKey 0 now x = Some (Go c1, y1) /\ (c1 = EC_NO_MEM \/ c1 = 0
  /\ exists c2 y2, insert_n_rows true t rows false true y1 = Some (Go c2, y2) /\ (c2 = EC_NO_MEM \/ c2 = 0
  /\ exists y3 y4, do_attach get_def (handle_ (rm (raw y2))) (mkR (rs y2) r0) = Some (Go 0, y3)
     /\ read_rows t (length rows) row0 y3 = Some (Go ((fun row => (OPER_INSERT, row)) <$> rows), y4))).
Proof.
  intros R Hg Hc Hks Hrows Hn. destruct (raw_do_init_spec false cur get_def x Hp t pchKey 0 now R Hg Hc ltac:(lia) Hks ltac:(lia)) as (c1 & y1 & E1 & _ & O1).
  exists c1, y1. split; [done|]. destruct O1 as [[-> _]|(-> & n & r1 & _ & Ho1 & As1 & Efs & Ek & Fm & Fi)]; [by left|right]. split; [done|].
  set (b := new_block _ _ _) in *. assert ((row_of OPER_INSERT r1 <$> rows) = table_rows t OPER_INSERT rows) as Er.
  { unfold row_of, row_values, table_rows, skip_key. by rewrite Ek. }
  assert (rows_fit t r1 rows) as Hfit.
  { unfold rows_fit, row_values. rewrite Efs, Ek. eapply Forall_impl; [exact Hrows|]. intros row [_ Hx]. by destruct (exact_row_stored _ _ _ Hx) as (_ & ? & _). }
  pose proof (holds_size _ _ _ _ _ _ Ho1) as Hsz. change (length (body (row_fields t r1) [])) with 0%nat in Hsz. pose proof (as_start _ _ _ As1) as Hds. rewrite head_length in Hds.
  assert (length (b_key b) = Z.to_nat ks) as Elk by (simpl; rewrite length_take; lia). unfold HEAD_SIZE in Hn.
  destruct (insert_n_rows_spec true y1 _ t b [] r1 rows false true Ho1 Hfit) as (c2 & y2 & Hp2 & r2 & E2 & [Ef2 _] & _ & O2).
  { rewrite Efs, Er. rewrite Elk in Hds. change (length (b_stamps b)) with 6%nat in Hds. lia. }
  exists c2, y2. split; [done|]. destruct O2 as [[-> _]|(-> & Ho2)]; [by left|right]. split; [done|]. rewrite Er in Ho2. change (put_rows true false _ []) with (table_rows t OPER_INSERT rows) in Ho2.
  assert (raw y2 = r2) as -> by (destruct Ho2 as (? & ? & V & _); apply V). pose proof (holds_block _ _ _ _ _ _ Ho2) as Hb.
  assert (row_fields t r2 = stored_part t) as Efs2 by (unfold row_fields in *; by rewrite Ef2). rewrite Efs2 in Hb.
  assert (m_rep (rs y2) Hp2) as R2 by (destruct Ho2 as (? & ? & V & _); apply V).
  destruct (do_attach_spec get_def (mkR (rs y2) r0) Hp2 t (handle_ (rm r2)) b (table_rows t OPER_INSERT rows) R2 Hb Fm ltac:(by rewrite Fi)) as (y3 & r3 & E3 & Ho3 & As3 & _ & Ef3 & _).
  assert (row_fields t r3 = stored_part t) as Efs3 by (unfold row_fields; by rewrite Ef3).
  assert ((row_of OPER_INSERT r3 <$> rows) = table_rows t OPER_INSERT rows) as Er3 by (unfold row_of, row_values, table_rows; by rewrite Ef3).
  rewrite <- Er3 in Ho3. destruct (read_rows_spec t b OPER_INSERT rows [] y3 Hp2 r3 row0 Ho3) as (y4 & E4).
  - unfold row_at. rewrite (as_off _ _ _ As3), (as_start _ _ _ As3). change (length (body (row_fields t r3) [])) with 0%nat. lia.
  - rewrite Efs3, Ef3. exact Hrows.
  - by exists y3, y4.
Qed.

End RawTrip.
