(* ===== verification/RawTheorems.v ===== *)
(** * The properties of the row storage

    A block keeps the list of rows that was put into it, for every allocator
    behind [MallocBase]: insertion, deletion and replacement change the list
    as they say, another object reads the same rows, and no bytes a block may
    have lead a reader outside of it.  The witnesses run the model on a
    segment managed by [PtMalloc]. *)

From stdpp Require Import base list gmap.
From S2P Require Import Prelude PtMalloc PtMallocSpec PtMallocTheorems MallocBase RawData RawBytes RawRows RawSpec RawOps RawEdit RawHead RawSafe RawTrip.

Local Open Scope Z_scope.

(** ** A concrete table and its rows *)

Definition d_int : FieldDef := mkField FSigned 4 false.
Definition d_big : FieldDef := mkField FUnsigned 8 false.
Definition d_text : FieldDef := mkField FString 100 false.
Definition d_real : FieldDef := mkField FFloat 8 false.
Definition d_gone : FieldDef := mkField FSigned 4 true.
Definition d_table : TableDef := mkTableDef [d_int; d_int; d_gone; d_big; d_text; d_real] 1 4 (-1) (-1) (-1).
Definition d_defs (i : Z) : option TableDef := if i =? 0 then Some d_table else None.

Definition d_key : list Z := [1; 2; 3; 4].
Definition d_row1 : RowValue := [VInt 7; VInt (-5); VInt 0; VInt 12345678901; VBin [104; 105]; VFlt 4607182418800017408].
Definition d_row2 : RowValue := [VInt 7; VInt 42; VInt 0; VInt 0; VBin []; VFlt 0].
Definition d_row3 : RowValue := [VInt 7; VInt 1; VInt 0; VInt 2; VBin [120; 121; 122]; VFlt 0].

Abbreviation demo := (RState PtMalloc).

Definition code_of {A} (m : option (out A * demo)) : option A := match m with Some (Go a, _) => Some a | _ => None end.
Definition then_ {A} (x : demo) (m : option (out A * demo)) : demo := match m with Some (_, y) => y | None => x end.

Definition x0 : demo := mkR demo0 new_RawData.
Definition x1 : demo := then_ x0 (RawData.do_init false 0 d_defs d_key 0 77 x0).
Definition x2 : demo := then_ x1 (insert_n_rows true d_table [d_row1; d_row2] false true x1).

Lemma code_run {A} (x : demo) (m : option (out A * demo)) a : code_of m = Some a -> m = Some (Go a, then_ x m).
Proof. by destruct m as [[[b|] y]|]; intros [= ->]. Qed.

Lemma go_pair {A} (a b : A) (x y : demo) : Some (Go a, x) = Some (Go b, y) -> a = b /\ x = y.
Proof. by intros [= -> ->]. Qed.

Lemma x1_run : RawData.do_init false 0 d_defs d_key 0 77 x0 = Some (Go 0, x1).
Proof. apply code_run. vm_compute. reflexivity. Qed.

Lemma x2_run : insert_n_rows true d_table [d_row1; d_row2] false true x1 = Some (Go 0, x2).
Proof. apply code_run. vm_compute. reflexivity. Qed.

Lemma insert_code : code_of (insert_row true d_table d_row3 true true x2) = Some 0.
Proof. vm_compute. reflexivity. Qed.

Lemma delete_code : code_of (delete_cur_row d_table x2) = Some 0.
Proof. vm_compute. reflexivity. Qed.

Lemma replace_code : code_of (replace_cur_row true d_table d_row3 true x2) = Some 0.
Proof. vm_compute. reflexivity. Qed.

#[local] Opaque x0 x1 x2.

Definition d_block : block := new_block 0 d_key 77.
Definition d_rows : Rows := table_rows d_table OPER_INSERT [d_row1; d_row2].

Lemma x0_rep : m_rep (rs x0) ∅.
Proof. exact demo0_rep. Qed.

Lemma x1_holds : exists Hp, holds x1 Hp d_table d_block [] (raw x1) /\ row_fields d_table (raw x1) = stored_part d_table /\ key_index_ (rf (raw x1)) = 0 /\ data_size_ (rc (raw x1)) = 20.
Proof.
  destruct (raw_do_init_spec false 0 d_defs x0 ∅ d_table d_key 0 77 x0_rep eq_refl) as (res & y & E & _ & O); [done|done|done|done|].
  rewrite x1_run in E. destruct (go_pair _ _ _ _ E) as [<- <-]. destruct O as [[? _]|(_ & n & r & _ & Ho & As & Ef & Ek & _)]; [done|].
  assert (raw x1 = r) as -> by (destruct Ho as (? & ? & V & _); apply V). eexists. split_and!; [exact Ho|done|done|].
  rewrite (holds_size _ _ _ _ _ _ Ho), (as_start _ _ _ As). vm_compute. reflexivity.
Qed.

Lemma x2_holds : exists Hp, holds x2 Hp d_table d_block d_rows (raw x2) /\ row_fields d_table (raw x2) = stored_part d_table.
Proof.
  destruct x1_holds as (Hp & Ho & Ef & Ek & Ed).
  assert (row_of OPER_INSERT (raw x1) <$> [d_row1; d_row2] = d_rows) as Er by (unfold row_of, row_values, d_rows, table_rows; by rewrite Ek).
  destruct (insert_n_rows_spec true x1 Hp d_table d_block [] (raw x1) [d_row1; d_row2] false true Ho) as (res & y & Hp' & r & E & [Ef' _] & _ & O).
  - unfold rows_fit, row_values. rewrite Ef, Ek. by repeat constructor.
  - rewrite Ef, Ed, Er. vm_compute. reflexivity.
  - rewrite x2_run in E. destruct (go_pair _ _ _ _ E) as [<- <-]. destruct O as [[? _]|[_ Ho']]; [done|]. rewrite Er in Ho'.
    assert (raw x2 = r) as -> by (destruct Ho' as (? & ? & V & _); apply V). exists Hp'. split; [done|]. unfold row_fields in *. by rewrite Ef'.
Qed.

Lemma x2_facts : row_offset_ (rc (raw x2)) = data_start_ (rh (raw x2)) /\ key_index_ (rf (raw x2)) = 0 /\ data_size_ (rc (raw x2)) = 72 /\ size_ (rm (raw x2)) < 2 ^ 31.
Proof. vm_compute. split_and!; reflexivity. Qed.

Section Properties.

Context {S : Type} `{MallocLaws S}.

Implicit Types (x y : RState S) (Hp : heap) (r : RawData) (t : TableDef).


(** [insert_row] adds the row at the end, or at the front where it is
    asked to, or leaves the rows as they are when there is no memory; without
    a temporary buffer the row stays at the end.  The other blocks keep their
    bytes. *)
Theorem raw_insert_row sys x Hp t b rows r row byFirst isDirty (new := ((if isDirty : bool then OPER_INSERT else OPER_SELECT), row_values row r)) : holds x Hp t b rows r ->
  row_fits (row_fields t r) (row_values row r) = true -> data_size_ (rc r) + Z.of_nat (length (enc_row (row_fields t r) new)) < 2 ^ 31 ->
  exists res y Hp' r', insert_row sys t row byFirst isDirty x = Some (Go res, y) /\ same_table r r' /\ carried x Hp r y Hp' r'
  /\ (res = EC_NO_MEM /\ holds y Hp' t b rows r' \/ res = put_code sys byFirst [new] rows /\ holds y Hp' t b (put_rows sys byFirst [new] rows) r').
Proof.
  intros Ho Hf Hd. destruct (insert_row_flag_spec sys x Hp t b rows r row _ byFirst (if isDirty then OPER_INSERT else OPER_SELECT) Ho eq_refl Hf Hd) as (res & y & Hp' & r' & E & Es & C & O).
  exists res, y, Hp', r'. split_and!; try done. destruct O as [(? & ? & _)|(? & ? & _)]; auto.
Qed.

(** [delete_cur_row] takes the current row, and no other, out of the
    block, and puts the cursor on the row that follows. *)
Theorem raw_delete_row x Hp t b l1 row l2 r : holds x Hp t b (l1 ++ row :: l2) r -> row_offset_ (rc r) = row_at t r l1 ->
  exists y r', delete_cur_row t x = Some (Go 0, y) /\ holds y Hp t b (l1 ++ l2) r' /\ same_table r r' /\ carried x Hp r y Hp r'
  /\ offset_ (rc r') = row_at t r l1 /\ row_offset_ (rc r') = row_offset_ (rc r).
Proof. apply delete_cur_row_spec. Qed.

(** C29: [replace_cur_row] puts the new row in the place of the current one,
    whether it is longer or shorter; when memory is missing all rows are as
    they were, and only a longer row can fail with [EC_NO_MEM]. *)
Theorem raw_replace_row sys x Hp t b l1 op0 vs0 l2 r row (isDirty : bool) (new := ((if isDirty then OPER_UPDATE else wrap 8 op0), row_values row r)) :
  holds x Hp t b (l1 ++ (op0, vs0) :: l2) r -> row_offset_ (rc r) = row_at t r l1 -> row_fits (row_fields t r) (row_values row r) = true ->
  data_size_ (rc r) + Z.of_nat (length (enc_row (row_fields t r) new)) < 2 ^ 31 ->
  exists res y Hp' r', replace_cur_row sys t row isDirty x = Some (Go res, y) /\ same_table r r' /\ carried x Hp r y Hp' r'
  /\ row_offset_ (rc r') = row_offset_ (rc r) /\ replaced sys y Hp' t b l1 (op0, vs0) new l2 r r' res.
Proof. intros Ho Er Hf Hd. by apply replace_cur_row_spec. Qed.

(** C27: whatever bytes a block has, [decode_row] reads only inside the block
    and returns, with the block unchanged. *)
Theorem decode_row_safe x Hp bs t row pre r : view x Hp bs r -> Forall is_byte bs -> size_ (rm r) < 2 ^ 31 -> 0 <= offset_ (rc r) -> length (row_values row r) = length (row_fields t r) ->
  exists res y r', decode_row t row pre x = Some (Go res, y) /\ view y Hp bs r' /\ rm r' = rm r.
Proof. intros V Hb Hz Ho Hl. destruct (decode_row_scan x Hp bs t row pre r V Hb Hz Ho Hl) as (res & y & r' & E & V' & Em & _). by exists res, y, r'. Qed.

(** C28: a row that [decode_row] accepts has, whatever the bytes are, a value
    of the right type and width for every field, except that the length of a
    string may be negative; the fields that are left out of the rows keep the
    values they had. *)
Theorem decode_row_typed x Hp bs t row pre r flags out y : view x Hp bs r -> Forall is_byte bs -> size_ (rm r) < 2 ^ 31 -> 0 <= offset_ (rc r) ->
  length (row_values row r) = length (row_fields t r) -> decode_row t row pre x = Some (Go (0, Some (flags, out)), y) ->
  exists vs, out = take (Z.to_nat (key_index_ (rf r) + 1)) row ++ vs /\ is_byte flags /\ typed_row (row_fields t r) (row_values row r) vs.
Proof.
  intros V Hb Hz Ho Hl E. destruct (decode_row_scan x Hp bs t row pre r V Hb Hz Ho Hl) as (res & y' & r' & E' & _ & _ & _ & D). rewrite E in E'. injection E' as <- _.
  destruct D as [|(fl & vs & [= -> ->] & Hf & Ht)]; [done|]. by exists vs.
Qed.

End Properties.

(** ** Witnesses *)

Lemma d_rows_like : Forall (row_like (skip_key d_table) (stored_part d_table) d_row1) [d_row1; d_row2].
Proof. repeat constructor; vm_compute; split_and?; done. Qed.


Lemma x2_row_fits row : row = d_row3 -> row_fits (row_fields d_table (raw x2)) (row_values row (raw x2)) = true /\ row_values row (raw x2) = drop 1 row.
Proof.
  intros ->. destruct x2_holds as (_ & _ & Ef). unfold row_values. destruct x2_facts as (_ & Ek & _). rewrite Ef, Ek. clear. split; vm_compute; reflexivity.
Qed.

Lemma raw_insert_row_witness : exists y Hp r, insert_row true d_table d_row3 true true x2 = Some (Go 0, y) /\ holds y Hp d_table d_block ((OPER_INSERT, drop 1 d_row3) :: d_rows) r.
Proof.
  destruct x2_holds as (Hp & Ho & Ef). destruct (x2_row_fits d_row3 eq_refl) as [Hf Ev]. destruct x2_facts as (_ & _ & Ed & _).
  destruct (raw_insert_row true x2 Hp d_table d_block d_rows (raw x2) d_row3 true true Ho Hf) as (res & y & Hp' & r & E & _ & _ & O).
  - rewrite Ed, Ef, Ev. clear. vm_compute. reflexivity.
  - pose proof (code_run x2 _ _ insert_code) as E0. rewrite E0 in E. destruct (go_pair _ _ _ _ E) as [<- <-].
    destruct O as [[N _]|[_ Ho']]; [discriminate N|]. rewrite Ev in Ho'. exact (ex_intro _ _ (ex_intro _ _ (ex_intro _ _ (conj E0 Ho')))).
Defined.

Lemma x2_row_at : row_offset_ (rc (raw x2)) = row_at d_table (raw x2) [].
Proof. unfold row_at. destruct x2_facts as (-> & _). change (length (body (row_fields d_table (raw x2)) [])) with 0%nat. lia. Qed.

Lemma raw_delete_row_witness : exists y Hp r, delete_cur_row d_table x2 = Some (Go 0, y) /\ holds y Hp d_table d_block [(OPER_INSERT, drop 1 d_row2)] r.
Proof.
  destruct x2_holds as (Hp & Ho & Ef).
  destruct (raw_delete_row x2 Hp d_table d_block [] (OPER_INSERT, drop 1 d_row1) [(OPER_INSERT, drop 1 d_row2)] (raw x2) Ho x2_row_at) as (y & r & E & Ho' & _).
  exact (ex_intro _ _ (ex_intro _ _ (ex_intro _ _ (conj E Ho')))).
Defined.

Lemma raw_replace_row_witness : exists y Hp r, replace_cur_row true d_table d_row3 true x2 = Some (Go 0, y)
  /\ holds y Hp d_table d_block [(OPER_UPDATE, drop 1 d_row3); (OPER_INSERT, drop 1 d_row2)] r.
Proof.
  destruct x2_holds as (Hp & Ho & Ef). destruct (x2_row_fits d_row3 eq_refl) as [Hf Ev]. destruct x2_facts as (_ & _ & Ed & _).
  destruct (raw_replace_row true x2 Hp d_table d_block [] OPER_INSERT (drop 1 d_row1) [(OPER_INSERT, drop 1 d_row2)] (raw x2) d_row3 true Ho x2_row_at Hf)
    as (res & y & Hp' & r & E & _ & _ & _ & O).
  - rewrite Ed, Ef, Ev. clear. vm_compute. reflexivity.
  - pose proof (code_run x2 _ _ replace_code) as E0. rewrite E0 in E. destruct (go_pair _ _ _ _ E) as [<- <-].
    destruct O as [[N _]|[[N _]|(_ & Ho' & _)]]; [discriminate N|discriminate N|]. rewrite Ev in Ho'. exact (ex_intro _ _ (ex_intro _ _ (ex_intro _ _ (conj E0 Ho')))).
Defined.

(** The bytes of the block of [x2], with its cursor at the first row. *)
Definition x3 : demo := mkR (rs x2) (on_rc (set_offset 20) (raw x2)).

Lemma bytes_ok l : forallb (fun b => (0 <=? b) && (b <? 256)) l = true -> Forall is_byte l.
Proof. rewrite forallb_forall, Forall_forall. intros Hb b Hin. apply list_elem_of_In, Hb in Hin. unfold is_byte. lia. Qed.

Lemma view_cursor (x : demo) Hp bs f : view x Hp bs (raw x) -> view (mkR (rs x) (on_rc f (raw x))) Hp bs (on_rc f (raw x)).
Proof. intros [V1 V2 V3 V4 V5]. by split. Qed.

Lemma x3_view : exists Hp bs, view x3 Hp bs (raw x3) /\ Forall is_byte bs.
Proof.
  destruct x2_holds as (Hp & (slack & bs & V & _) & _). exists Hp, bs. split.
  - exact (view_cursor x2 Hp bs (set_offset 20) V).
  - rewrite <- (vw_bytes _ _ _ _ V). clear. apply bytes_ok. vm_compute. reflexivity.
Qed.

Lemma x3_facts : size_ (rm (raw x3)) < 2 ^ 31 /\ 0 <= offset_ (rc (raw x3)) /\ length (row_values d_row1 (raw x3)) = length (row_fields d_table (raw x3)).
Proof. vm_compute. split_and!; done. Qed.

Lemma decode_row_safe_witness : exists res y, decode_row d_table d_row1 false x3 = Some (Go res, y).
Proof.
  destruct x3_view as (Hp & bs & V & Hb). destruct x3_facts as (F1 & F2 & F3).
  destruct (decode_row_safe x3 Hp bs d_table d_row1 false (raw x3) V Hb F1 F2 F3) as (res & y & r & E & _). exact (ex_intro _ res (ex_intro _ y E)).
Defined.

Lemma x3_decodes : code_of (decode_row d_table d_row1 false x3) = Some (0, Some (OPER_INSERT, d_row1)).
Proof. vm_compute. reflexivity. Qed.

Lemma decode_row_typed_witness : exists vs, d_row1 = take (Z.to_nat (key_index_ (rf (raw x3)) + 1)) d_row1 ++ vs /\ typed_row (row_fields d_table (raw x3)) (row_values d_row1 (raw x3)) vs.
Proof.
  destruct x3_view as (Hp & bs & V & Hb). destruct x3_facts as (F1 & F2 & F3).
  destruct (decode_row_typed x3 Hp bs d_table d_row1 false (raw x3) OPER_INSERT d_row1 _ V Hb F1 F2 F3 (code_run x3 _ _ x3_decodes)) as (vs & E & _ & T).
  exact (ex_intro _ vs (conj E T)).
Defined.

(** ** Values that are accepted though no row was written with them *)

(** The block of [x3] with the length of the string of its first row set to
    minus five: the row is decoded, with success. *)
Definition x3_bad : demo := then_ x3 (poke 33 [251; 255; 255; 255] x3).

Lemma negative_length_decoded : code_of (decode_row d_table d_row2 false x3_bad) = Some (0, Some (OPER_INSERT, [VInt 7; VInt (-5); VInt 0; VInt 12345678901; VBadBin (-5); VFlt 29670321275534080])).
Proof. vm_compute. reflexivity. Qed.
