(* ===== verification/Codec.v ===== *)
(** * The wire codec (src/libs/common/decode/decode.cc, encode.cc, value.h)

    A packet section is a sequence of tagged values, each a length followed by
    its bytes.  [DTCBinary] is the cursor the decoders move over a section: how
    many bytes the section still has, and the bytes that can be read from the
    pointer on.  A read past those has no result, so that a decoder that has one
    on every section has read inside of it.  An encoder yields the bytes it
    writes from [p] on; it has no result when it reads a member of a [DTCValue]
    other than the one set last.

    [Text] is what the codec uses of the C library: the text [%LA] prints for a
    double and the double [%LA] scans from a text. *)

From S2P Require Import Prelude.

Module DField.
Definition None : Z := 0.
Definition Signed : Z := 1.
Definition Unsigned : Z := 2.
Definition Float : Z := 3.
Definition String : Z := 4.
Definition Binary : Z := 5.
Definition TotalType : Z := 6.

Definition Set_ : Z := 0.
Definition Add : Z := 1.
Definition SetBits : Z := 2.
Definition OR : Z := 3.
Definition TotalOperation : Z := 4.

Definition EQ : Z := 0.
Definition NE : Z := 1.
Definition LT : Z := 2.
Definition LE : Z := 3.
Definition GT : Z := 4.
Definition GE : Z := 5.
Definition TotalComparison : Z := 6.
End DField.

Definition MAXPACKETSIZE : Z := 64 * 2 ^ 20.

Definition EC_DUPLICATE_TAG : Z := 2004.
Definition EC_DUPLICATE_FIELD : Z := 2005.
Definition EC_BAD_SECTION_LENGTH : Z := 2006.
Definition EC_BAD_VALUE_LENGTH : Z := 2007.
Definition EC_BAD_STRING_VALUE : Z := 2008.
Definition EC_BAD_FLOAT_VALUE : Z := 2009.

(** ** Values *)

(** [DTCValue]: the member set last, [s64] (or [u64], its bits), the bits of
    [flt], or [bin] with [None] for a null pointer; [VZero] is memory set to
    zero, [VUnset] memory never set. *)
Inductive DTCValue := VUnset | VZero | VInt (s64 : Z) | VFlt (flt : Z) | VBin (bin : option (list Z)).

Definition get_s64 (v : DTCValue) : option Z := match v with VInt z => Some z | VZero => Some 0 | _ => None end.
Definition get_flt (v : DTCValue) : option Z := match v with VFlt b => Some b | VZero => Some 0 | _ => None end.
Definition get_bin (v : DTCValue) : option (option (list Z)) := match v with VBin b => Some b | VZero => Some None | _ => None end.

(** The value of [u64] as [s64], and back. *)
Definition s64_of (u : Z) : Z := sext 64 (wrap 64 u).
Definition u64_of (s : Z) : Z := wrap 64 s.

(** ** Programs on a section *)

Record DTCBinary := mkBin { len : Z; ptr : list Z }.

Inductive res (A : Type) := Ok (a : A) | Fail (code : Z).
Arguments Ok {A}.
Arguments Fail {A}.

Record DState (S : Type) := mkD { bin : DTCBinary; obj : S }.
Arguments mkD {S}.
Arguments bin {S}.
Arguments obj {S}.

Definition dec (S A : Type) : Type := DState S -> option (res A * DState S).

#[export] Instance dec_ret {S} : MRet (dec S) := fun A a d => Some (Ok a, d).
#[export] Instance dec_bind {S} : MBind (dec S) :=
  fun A B f m d => match m d with Some (Ok a, e) => f a e | Some (Fail c, e) => Some (Fail c, e) | None => None end.

Section Cursor.
Context {S : Type}.

Definition undefined {A} : dec S A := fun _ => None.
Definition fail {A} (code : Z) : dec S A := fun d => Some (Fail (- code), d).
Definition get_obj : dec S S := fun d => Some (Ok (obj d), d).
Definition set_obj (s : S) : dec S unit := fun d => Some (Ok tt, mkD (bin d) s).
Definition bin_len : dec S Z := fun d => Some (Ok (len (bin d)), d).

(** [!bin]. *)
Definition is_empty : dec S bool := fun d => Some (Ok (len (bin d) <=? 0), d).
(** [bin < n]. *)
Definition shorter (n : Z) : dec S bool := fun d => Some (Ok (len (bin d) <? n), d).

(** [bin[n]] *)
Definition byte_at (n : Z) : dec S Z :=
  fun d => match ptr (bin d) !! Z.to_nat n with Some b => if 0 <=? n then Some (Ok b, d) else None | None => None end.

(** [*bin++] *)
Definition next_byte : dec S Z :=
  fun d => match ptr (bin d) with b :: p => Some (Ok b, mkD (mkBin (len (bin d) - 1) p) (obj d)) | [] => None end.

(** The [n] bytes at [bin.ptr]. *)
Definition bytes_at (n : Z) : dec S (list Z) :=
  fun d => if (0 <=? n) && (n <=? Z.of_nat (length (ptr (bin d)))) then Some (Ok (take (Z.to_nat n) (ptr (bin d))), d) else None.

(** [bin += n] *)
Definition advance (n : Z) : dec S unit :=
  fun d => if (0 <=? n) && (n <=? Z.of_nat (length (ptr (bin d))))
           then Some (Ok tt, mkD (mkBin (len (bin d) - n) (drop (Z.to_nat n) (ptr (bin d)))) (obj d)) else None.

(** The characters of a C string up to its [NUL]. *)
Fixpoint c_string (l : list Z) : option (list Z) :=
  match l with [] => None | b :: l => if b =? 0 then Some [] else (cons b) <$> c_string l end.

Definition string_at : dec S (list Z) :=
  fun d => match c_string (ptr (bin d)) with Some s => Some (Ok s, d) | None => None end.

(** ** Lengths *)

Definition decode_length : dec S Z :=
  e ← is_empty;
  if (e : bool) then fail EC_BAD_SECTION_LENGTH else
  l ← next_byte;
  if l <? 240 then mret l else
  if l <=? 252 then
    e ← is_empty;
    if (e : bool) then fail EC_BAD_SECTION_LENGTH else
    b ← next_byte; mret (wrap 32 (Z.shiftl (Z.land l 0xF) 8 + b))
  else if l =? 253 then
    s ← shorter 2;
    if (s : bool) then fail EC_BAD_SECTION_LENGTH else
    b0 ← byte_at 0; b1 ← byte_at 1; advance 2;; mret (wrap 32 (Z.shiftl b0 8 + b1))
  else if l =? 254 then
    s ← shorter 3;
    if (s : bool) then fail EC_BAD_SECTION_LENGTH else
    b0 ← byte_at 0; b1 ← byte_at 1; b2 ← byte_at 2; advance 3;; mret (wrap 32 (Z.shiftl b0 16 + Z.shiftl b1 8 + b2))
  else
    s ← shorter 4;
    if (s : bool) then fail EC_BAD_SECTION_LENGTH else
    b0 ← byte_at 0; b1 ← byte_at 1; b2 ← byte_at 2; b3 ← byte_at 3; advance 4;;
    let l := wrap 32 (Z.shiftl b0 24 + Z.shiftl b1 16 + Z.shiftl b2 8 + b3) in
    if MAXPACKETSIZE <? l then fail EC_BAD_VALUE_LENGTH else mret l.

End Cursor.

(** [encode_length]: the bytes stored from [p] on; a store to a [char] keeps
    the low eight bits. *)
Definition encode_length (len : Z) : list Z :=
  if len <? 240 then [wrap 8 len]
  else if len <? 13 * 2 ^ 8 then [wrap 8 (0xF0 + Z.shiftr len 8); Z.land len 0xFF]
  else if len <? 2 ^ 16 then [253; wrap 8 (Z.shiftr len 8); Z.land len 0xFF]
  else if len <? 2 ^ 24 then [254; wrap 8 (Z.shiftr len 16); wrap 8 (Z.shiftr len 8); Z.land len 0xFF]
  else [255; wrap 8 (Z.shiftr len 24); wrap 8 (Z.shiftr len 16); wrap 8 (Z.shiftr len 8); Z.land len 0xFF].

Definition encoded_bytes_length (n : Z) : Z :=
  if n <? 240 then 1 else if n <? 13 * 2 ^ 8 then 2 else if n <? 2 ^ 16 then 3 else if n <? 2 ^ 24 then 4 else 5.

Definition encode_data_type (type : Z) : list Z := [if type =? DField.Unsigned then DField.Signed else type].

(** ** Values *)

(** The C library's [%LA]: [print_LA x] is the text of the double with bits
    [x], [scan_LA s] the bits of the double scanned from [s]. *)
Class Text := { print_LA : Z -> list Z; scan_LA : list Z -> option Z }.

Definition NAN_bits : Z := 0x7FF8000000000000.
Definition INF_bits : Z := 0x7FF0000000000000.
Definition NINF_bits : Z := 0xFFF0000000000000.
Definition txt_NAN : list Z := [78; 65; 78].
Definition txt_INF : list Z := [73; 78; 70].
Definition txt_NINF : list Z := [45; 73; 78; 70].

(** [sizeof(long double) * 2 + 8] *)
Definition FLT_BUF : Z := 16 * 2 + 8.

Section Values.
Context `{Text}.

(** The number of bytes of an integer on the wire. *)
Definition int_len (s : Z) : Z :=
  if 0 <=? s then
    if s <? 0x80 then 1 else if s <? 0x8000 then 2 else if s <? 0x800000 then 3 else if s <? 0x80000000 then 4
    else if s <? 0x8000000000 then 5 else if s <? 0x800000000000 then 6 else if s <? 0x80000000000000 then 7 else 8
  else
    if -0x80 <=? s then 1 else if -0x8000 <=? s then 2 else if -0x800000 <=? s then 3 else if -0x80000000 <=? s then 4
    else if -0x8000000000 <=? s then 5 else if -0x800000000000 <=? s then 6 else if -0x80000000000000 <=? s then 7 else 8.

(** Byte [k] of [s64] in memory, and its low [n] bytes, the highest first. *)
Definition s64_byte (s k : Z) : Z := wrap 8 (Z.shiftr s (8 * k)).
Definition int_bytes (n s : Z) : list Z := (fun i => s64_byte s (n - 1 - Z.of_nat i)) <$> seq 0 (Z.to_nat n).

(** [snprintf] into the buffer, with its fallback. *)
Definition float_text (x : Z) : list Z :=
  let s := print_LA x in if FLT_BUF <=? Z.of_nat (length s) then txt_NAN else s.

Definition encode_data_value (v : DTCValue) (type : Z) : option (list Z) :=
  if type =? DField.None then Some [0]
  else if (type =? DField.Signed) || (type =? DField.Unsigned) then
    s ← get_s64 v; Some (int_len s :: int_bytes (int_len s) s)
  else if type =? DField.Float then
    x ← get_flt v;
    let s := float_text x in Some (wrap 8 (Z.of_nat (length s) + 1) :: s ++ [0])
  else if (type =? DField.String) || (type =? DField.Binary) then
    b ← get_bin v;
    match b with
    | None => Some [0]
    | Some s => Some (encode_length (wrap 32 (Z.of_nat (length s) + 1)) ++ s ++ [0])
    end
  else Some [].

Definition encoded_bytes_data_value (v : DTCValue) (type : Z) : option Z :=
  if type =? DField.None then Some 1
  else if (type =? DField.Signed) || (type =? DField.Unsigned) then
    s ← get_s64 v;
    Some (if 0 <=? s then
            if s <? 0x80 then 2 else if s <? 0x8000 then 3 else if s <? 0x800000 then 4 else if s <? 0x80000000 then 5
            else if s <? 0x8000000000 then 6 else if s <? 0x800000000000 then 7 else if s <? 0x80000000000000 then 8 else 9
          else
            if -0x80 <=? s then 2 else if -0x8000 <=? s then 3 else if -0x800000 <=? s then 4 else if -0x80000000 <=? s then 5
            else if -0x8000000000 <=? s then 6 else if -0x800000000000 <=? s then 7 else if -0x80000000000000 <=? s then 8 else 9)
  else if type =? DField.Float then
    x ← get_flt v;
    let s := print_LA x in
    Some (if FLT_BUF <=? Z.of_nat (length s) then 5 else 2 + Z.of_nat (length s))
  else if (type =? DField.String) || (type =? DField.Binary) then
    b ← get_bin v;
    match b with
    | None => Some 1
    | Some s => let l := Z.of_nat (length s) in Some (l + 1 + encoded_bytes_length (wrap 32 (l + 1)))
    end
  else Some 0.

Context {S : Type}.

(** [s64 = (s64 << 8) | *p++] for every byte after the first. *)
Definition int_of_bytes (bs : list Z) : Z :=
  match bs with [] => 0 | b :: bs => fold_left (fun s c => Z.lor (s64_of (Z.shiftl s 8)) c) bs (sext 8 b) end.

(** [decode_data_value] behind the length: the value stored in [val], if any. *)
Definition value_body (type l : Z) : dec S (option DTCValue) :=
  s ← shorter l;
  if (s : bool) then fail EC_BAD_SECTION_LENGTH else
  if type =? DField.None then advance l;; mret None
  else if (type =? DField.Signed) || (type =? DField.Unsigned) then
    if (l =? 0) || (8 <? l) then fail EC_BAD_VALUE_LENGTH else
    bs ← bytes_at l; advance l;; mret (Some (VInt (int_of_bytes bs)))
  else if type =? DField.Float then
    if l <? 3 then fail EC_BAD_VALUE_LENGTH else
    z ← byte_at (l - 1);
    if negb (z =? 0) then fail EC_BAD_FLOAT_VALUE else
    t ← string_at;
    if decide (t = txt_NAN) then advance l;; mret (Some (VFlt NAN_bits))
    else if decide (t = txt_INF) then advance l;; mret (Some (VFlt INF_bits))
    else if decide (t = txt_NINF) then advance l;; mret (Some (VFlt NINF_bits))
    else match scan_LA t with Some x => advance l;; mret (Some (VFlt x)) | None => fail EC_BAD_FLOAT_VALUE end
  else if (type =? DField.String) || (type =? DField.Binary) then
    if l =? 0 then mret (Some (VBin (Some []))) else
    z ← byte_at (l - 1);
    if negb (z =? 0) then fail EC_BAD_STRING_VALUE else
    bs ← bytes_at (l - 1); advance l;; mret (Some (VBin (Some bs)))
  else advance l;; mret None.

Definition decode_data_value (type : Z) : dec S (option DTCValue) := l ← decode_length; value_body type l.

End Values.
