(* ===== verification/CodecSpec.v ===== *)
(** * What the wire codec promises

    [decodes m bs a]: at the start of the bytes [bs], whatever follows them, the
    decoder [m] yields [a] and stops behind them.  [guarded m P] is the promise
    on bytes nobody vouches for: on a section with exactly its bytes [m] has a
    result, reads inside of it, and only moves forward. *)

From S2P Require Import Prelude Codec.

(** ** Reading what was written *)

Definition decodes {S A} (m : dec S A) (bs : list Z) (a : A) : Prop :=
  forall n rest s, Z.of_nat (length bs) <= n ->
    m (mkD (mkBin n (bs ++ rest)) s) = Some (Ok a, mkD (mkBin (n - Z.of_nat (length bs)) rest) s).

Lemma decodes_bind {S A B} (m : dec S A) (f : A -> dec S B) bs cs a b :
  decodes m bs a -> decodes (f a) cs b -> decodes (m ≫= f) (bs ++ cs) b.
Proof.
  intros Hm Hf n rest s Hn. rewrite length_app in Hn |- *. unfold mbind, dec_bind. rewrite <- app_assoc, Hm by lia.
  rewrite Hf, Nat2Z.inj_add, Z.sub_add_distr by lia. reflexivity.
Qed.

Lemma decodes_ret {S A} (a : A) : decodes (mret a : dec S A) [] a.
Proof. intros n rest s _. cbn. rewrite Z.sub_0_r. reflexivity. Qed.

(** ** Lengths *)

Lemma shiftl8 x k : 0 <= k -> Z.shiftl x k = x * 2 ^ k.
Proof. intros. apply Z.shiftl_mul_pow2. lia. Qed.

Lemma shiftr8 x k : 0 <= k -> Z.shiftr x k = x / 2 ^ k.
Proof. intros. apply Z.shiftr_div_pow2. lia. Qed.

Lemma land_ff x : Z.land x 0xFF = x mod 256.
Proof. change 0xFF with (Z.ones 8). rewrite Z.land_ones by lia. reflexivity. Qed.

Lemma land_15 x : Z.land x 0xF = x mod 16.
Proof. change 0xF with (Z.ones 4). rewrite Z.land_ones by lia. reflexivity. Qed.

Lemma encode_length_size l : Z.of_nat (length (encode_length l)) = encoded_bytes_length l.
Proof. unfold encode_length, encoded_bytes_length. repeat case_match; reflexivity. Qed.

(** The five forms of a length, as numbers. *)
Lemma encode_length_cases l : 0 <= l < 2 ^ 32 ->
  (l < 240 /\ encode_length l = [l]) \/
  (240 <= l < 3328 /\ encode_length l = [240 + l / 256; l mod 256]) \/
  (3328 <= l < 2 ^ 16 /\ encode_length l = [253; l / 256; l mod 256]) \/
  (2 ^ 16 <= l < 2 ^ 24 /\ encode_length l = [254; l / 2 ^ 16; l / 256 mod 256; l mod 256]) \/
  (2 ^ 24 <= l /\ encode_length l = [255; l / 2 ^ 24; l / 2 ^ 16 mod 256; l / 256 mod 256; l mod 256]).
Proof.
  intros Hl. unfold encode_length, wrap. rewrite ! land_ff, ! shiftr8 by lia. zcase.
  - left. split; [lia|]. f_equal. zdm.
  - right; left. split; [lia|]. repeat f_equal; zdm.
  - right; right; left. split; [lia|]. repeat f_equal; zdm.
  - right; right; right; left. split; [lia|]. repeat f_equal; zdm.
  - right; right; right; right. split; [lia|]. repeat f_equal; zdm.
Qed.

(** *** Running a decoder on a cursor *)

Section Steps.
Context {S A : Type}.
Implicit Types (s : S) (d : DState S).

Lemma bind_is_empty (f : bool -> dec S A) d : (is_empty ≫= f) d = f (len (bin d) <=? 0) d.
Proof. reflexivity. Qed.

Lemma bind_shorter k (f : bool -> dec S A) d : (shorter k ≫= f) d = f (len (bin d) <? k) d.
Proof. reflexivity. Qed.

Lemma bind_next (f : Z -> dec S A) n b p s : (next_byte ≫= f) (mkD (mkBin n (b :: p)) s) = f b (mkD (mkBin (n - 1) p) s).
Proof. reflexivity. Qed.

Lemma bind_byte_at (f : Z -> dec S A) k b d : 0 <= k -> ptr (bin d) !! Z.to_nat k = Some b -> (byte_at k ≫= f) d = f b d.
Proof. intros Hk E. unfold mbind, dec_bind, byte_at. rewrite E. replace (0 <=? k) with true by lia. reflexivity. Qed.

Lemma bind_bytes_at (f : list Z -> dec S A) k d : 0 <= k <= Z.of_nat (length (ptr (bin d))) ->
  (bytes_at k ≫= f) d = f (take (Z.to_nat k) (ptr (bin d))) d.
Proof. intros Hk. unfold mbind, dec_bind, bytes_at. replace (_ && _) with true by lia. reflexivity. Qed.

Lemma bind_advance (f : unit -> dec S A) k d : 0 <= k <= Z.of_nat (length (ptr (bin d))) ->
  (advance k ≫= f) d = f tt (mkD (mkBin (len (bin d) - k) (drop (Z.to_nat k) (ptr (bin d)))) (obj d)).
Proof. intros Hk. unfold mbind, dec_bind, advance. replace (_ && _) with true by lia. reflexivity. Qed.

Lemma bind_ok {B} (m : dec S B) (f : B -> dec S A) d b e : m d = Some (Ok b, e) -> (m ≫= f) d = f b e.
Proof. intros E. unfold mbind, dec_bind. rewrite E. reflexivity. Qed.

Lemma bind_fail {B} (m : dec S B) (f : B -> dec S A) d c e : m d = Some (Fail c, e) -> (m ≫= f) d = Some (Fail c, e).
Proof. intros E. unfold mbind, dec_bind. rewrite E. reflexivity. Qed.

End Steps.

(** One step of a decoder at the head of the goal; conditions are settled by
    arithmetic. *)
Ltac wire_arith := unfold MAXPACKETSIZE, wrap; rewrite ? land_15; rewrite ? shiftl8 by lia; zdm.
Ltac dec_if :=
  match goal with
  | |- (if ?b then _ else _) _ = _ => first [replace b with true by (symmetry; wire_arith) | replace b with false by (symmetry; wire_arith)]
  end; cbv iota.
Ltac dec_step :=
  first [rewrite bind_is_empty | rewrite bind_shorter | rewrite bind_next | erewrite bind_byte_at by (first [lia | reflexivity])
        | rewrite bind_bytes_at by (cbn; lia) | rewrite bind_advance by (cbn; lia)]; cbn [len ptr bin obj].

Lemma ok_eq {S A} (a b : A) n m p q (s : S) : a = b -> n = m -> p = q ->
  Some (Ok a, mkD (mkBin n p) s) = Some (Ok b, mkD (mkBin m q) s).
Proof. congruence. Qed.

Lemma decode_length_encode {S} l : 0 <= l <= MAXPACKETSIZE -> decodes (S := S) decode_length (encode_length l) l.
Proof.
  intros Hl n rest s Hn. unfold MAXPACKETSIZE in Hl. unfold decode_length.
  destruct (encode_length_cases l ltac:(lia)) as [[Hc E]|[[Hc E]|[[Hc E]|[[Hc E]|[Hc E]]]]]; rewrite E in Hn |- *; cbn [length app] in Hn |- *;
    repeat first [dec_step | dec_if]; apply ok_eq; first [reflexivity | lia | wire_arith].
Qed.

(** ** Integers *)

Definition is_s64 (s : Z) : Prop := - 2 ^ 63 <= s < 2 ^ 63.

Lemma s64_of_id s : is_s64 s -> s64_of s = s.
Proof. unfold is_s64, s64_of, sext, wrap. intros. zcase; zdm. Qed.

Lemma s64_byte_div s k : 0 <= k -> s64_byte s k = s / 2 ^ (8 * k) mod 256.
Proof. intros. unfold s64_byte, wrap. rewrite shiftr8 by lia. reflexivity. Qed.

Lemma int_len_fits s : is_s64 s -> 1 <= int_len s <= 8 /\ - 2 ^ (8 * int_len s - 1) <= s < 2 ^ (8 * int_len s - 1).
Proof. unfold is_s64, int_len. intros. zcase; lia. Qed.

Lemma lor_low t b : 0 <= b < 256 -> Z.lor (t * 256) b = t * 256 + b.
Proof.
  intros Hb. enough (Z.land (t * 256) b = 0) as E by (rewrite <- Z.lxor_lor, <- Z.add_nocarry_lxor by exact E; reflexivity).
  change 256 with (2 ^ 8). rewrite <- Z.shiftl_mul_pow2 by lia. apply Z.bits_inj'. intros i Hi. rewrite Z.land_spec, Z.bits_0.
  destruct (Z.ltb_spec i 8); [rewrite Z.shiftl_spec_low by lia; reflexivity|].
  destruct (proj1 (in_width_bits 8 b ltac:(lia)) Hb) as [_ Hh]. rewrite Hh, andb_false_r by lia. reflexivity.
Qed.

Lemma int_bytes_succ n s : 0 <= n -> int_bytes (n + 1) s = s64_byte s n :: int_bytes n s.
Proof.
  intros Hn. unfold int_bytes. replace (Z.to_nat (n + 1)) with (S (Z.to_nat n)) by lia. cbn [seq fmap list_fmap].
  f_equal; [f_equal; lia|]. rewrite <- seq_shift, <- list_fmap_compose. apply list_fmap_ext. intros ? i _. cbn. f_equal. lia.
Qed.

Lemma length_int_bytes n s : length (int_bytes n s) = Z.to_nat n.
Proof. unfold int_bytes. rewrite length_fmap, length_seq. reflexivity. Qed.

(** The accumulator after the bytes above byte [n] is [s] shifted down. *)
Lemma int_of_bytes_loop n s : is_s64 s -> 0 <= n ->
  fold_left (fun a c => Z.lor (s64_of (Z.shiftl a 8)) c) (int_bytes n s) (s / 2 ^ (8 * n)) = s.
Proof.
  intros Hs Hn. unfold is_s64 in Hs. revert n Hn. apply natlike_ind.
  - cbn. apply Z.div_1_r.
  - intros n Hn IH. rewrite <- Z.add_1_r, int_bytes_succ by lia. cbn [fold_left]. rewrite s64_byte_div by lia.
    replace (2 ^ (8 * (n + 1))) with (2 ^ (8 * n) * 256) by (rewrite Z.mul_add_distr_l, Z.pow_add_r by lia; reflexivity).
    rewrite <- Z.div_div by lia. set (t := s / 2 ^ (8 * n)) in *.
    assert (Ht : is_s64 t) by (unfold is_s64, t; pose proof (Z.pow_pos_nonneg 2 (8 * n)); split; [apply Z.div_le_lower_bound|apply Z.div_lt_upper_bound]; nia).
    rewrite shiftl8, s64_of_id, lor_low by (unfold is_s64 in *; zdm).
    replace (t / 256 * 256 + t mod 256) with t by zdm. exact IH.
Qed.

Lemma int_of_bytes_bytes n s : 1 <= n <= 8 -> - 2 ^ (8 * n - 1) <= s < 2 ^ (8 * n - 1) -> int_of_bytes (int_bytes n s) = s.
Proof.
  intros Hn Hs. assert (H64 : is_s64 s).
  { unfold is_s64. pose proof (Z.pow_le_mono_r 2 (8 * n - 1) 63). lia. }
  replace n with (n - 1 + 1) by lia. rewrite int_bytes_succ by lia. cbn [int_of_bytes].
  replace (sext 8 (s64_byte s (n - 1))) with (s / 2 ^ (8 * (n - 1))); [apply int_of_bytes_loop; [done|lia]|].
  rewrite s64_byte_div by lia. set (t := s / 2 ^ (8 * (n - 1))).
  assert (-128 <= t < 128) by (unfold t; replace (8 * n - 1) with (8 * (n - 1) + 7) in Hs by lia; rewrite Z.pow_add_r in Hs by lia;
    pose proof (Z.pow_pos_nonneg 2 (8 * (n - 1))); split; [apply Z.div_le_lower_bound|apply Z.div_lt_upper_bound]; nia).
  unfold sext. zcase; zdm.
Qed.

(** ** Values *)

(** What the library promises of [%LA]: a finite double survives printing and
    scanning, its text is short, without [NUL], and is none of the words for
    what is not finite. *)
Definition finite (x : Z) : Prop := in_width 64 x /\ x / 2 ^ 52 mod 2 ^ 11 <> 2047.

Class TextLaws `{Text} := {
  scan_print x : finite x -> scan_LA (print_LA x) = Some x;
  print_size x : in_width 64 x -> 2 <= Z.of_nat (length (print_LA x)) < FLT_BUF;
  print_chars x : in_width 64 x -> Forall (fun c => 0 < c < 256) (print_LA x);
  print_finite x : finite x -> print_LA x <> txt_NAN /\ print_LA x <> txt_INF /\ print_LA x <> txt_NINF;
  print_inf : print_LA INF_bits = txt_INF;
  print_ninf : print_LA NINF_bits = txt_NINF
}.

(** The values of a type, as far as the wire keeps them apart. *)
Definition fits (type : Z) (v : DTCValue) : Prop :=
  match type with
  | 1 | 2 => exists s, get_s64 v = Some s /\ is_s64 s
  | 3 => exists x, get_flt v = Some x /\ (finite x \/ x = INF_bits \/ x = NINF_bits)
  | 4 | 5 => exists b, get_bin v = Some b /\ forall s, b = Some s -> Z.of_nat (length s) < MAXPACKETSIZE
  | _ => type = 0
  end.

(** What a value is after it went over the wire: a null string is empty. *)
Definition wired (type : Z) (v : DTCValue) : option DTCValue :=
  match type with
  | 1 | 2 => VInt <$> get_s64 v
  | 3 => VFlt <$> get_flt v
  | 4 | 5 => (fun b => VBin (Some (default [] b))) <$> get_bin v
  | _ => None
  end.

Lemma fits_types type v : fits type v -> type = 0 \/ type = 1 \/ type = 2 \/ type = 3 \/ type = 4 \/ type = 5.
Proof. unfold fits. intros H. repeat case_match; lia. Qed.

Section ValueSpec.
Context `{TextLaws}.

Lemma int_len_size s : 2 <= int_len s + 1 /\ forall t v, (t = 1 \/ t = 2) -> get_s64 v = Some s -> encoded_bytes_data_value v t = Some (int_len s + 1).
Proof.
  split; [unfold int_len; zcase; lia|]. intros t v [->| ->] E; unfold encoded_bytes_data_value; cbn -[Z.leb Z.ltb]; rewrite E; cbn -[Z.leb Z.ltb];
    f_equal; unfold int_len; zcase; reflexivity.
Qed.

Lemma float_text_print x : in_width 64 x -> float_text x = print_LA x.
Proof. intros Hx. unfold float_text. pose proof (print_size x Hx). destruct (Z.leb_spec FLT_BUF (Z.of_nat (length (print_LA x)))); [lia|reflexivity]. Qed.

Lemma fits_float x : finite x \/ x = INF_bits \/ x = NINF_bits -> in_width 64 x.
Proof. intros [[Hx _]|[->| ->]]; [exact Hx|unfold in_width; cbv; intuition congruence..]. Qed.

(** The bytes of a value, by its type. *)
Inductive coded : Z -> DTCValue -> list Z -> Prop :=
| coded_none v : coded 0 v [0]
| coded_int t v s : t = 1 \/ t = 2 -> get_s64 v = Some s -> is_s64 s -> coded t v (int_len s :: int_bytes (int_len s) s)
| coded_flt v x : get_flt v = Some x -> finite x \/ x = INF_bits \/ x = NINF_bits ->
    coded 3 v (Z.of_nat (length (print_LA x)) + 1 :: print_LA x ++ [0])
| coded_null t v : t = 4 \/ t = 5 -> get_bin v = Some None -> coded t v [0]
| coded_bin t v s : t = 4 \/ t = 5 -> get_bin v = Some (Some s) -> Z.of_nat (length s) < MAXPACKETSIZE ->
    coded t v (encode_length (Z.of_nat (length s) + 1) ++ s ++ [0]).

Lemma encode_coded type v : fits type v -> exists bs, encode_data_value v type = Some bs /\ coded type v bs.
Proof.
  intros Hf. destruct (fits_types _ _ Hf) as [->|Ht]; [eexists; split; [reflexivity|constructor]|].
  assert (Hi : type = 1 \/ type = 2 \/ type = 3 \/ type = 4 \/ type = 5) by lia. clear Ht.
  destruct Hi as [->|[->|[->|Hb]]]; cbn in Hf.
  1,2: destruct Hf as (s & E & Hs); eexists; split; [unfold encode_data_value; cbn -[Z.leb]; rewrite E; reflexivity|constructor; auto].
  - destruct Hf as (x & E & Hx). exists (Z.of_nat (length (print_LA x)) + 1 :: print_LA x ++ [0]). split; [|constructor; assumption].
    pose proof (print_size x (fits_float x Hx)) as Hp. unfold FLT_BUF in Hp.
    unfold encode_data_value. cbn -[wrap]. rewrite E. cbn -[wrap]. rewrite float_text_print by (apply fits_float; exact Hx).
    rewrite wrap_small by (unfold in_width; lia). reflexivity.
  - assert (exists b, get_bin v = Some b /\ forall s, b = Some s -> Z.of_nat (length s) < MAXPACKETSIZE) as (b & E & Hs) by (destruct Hb as [->| ->]; exact Hf).
    destruct b as [s|].
    + specialize (Hs s eq_refl). eexists. split; [|apply coded_bin; eassumption].
      unfold encode_data_value. destruct Hb as [->| ->]; cbn -[wrap encode_length]; rewrite E; cbn -[wrap encode_length];
        unfold MAXPACKETSIZE in Hs; rewrite wrap_small by (unfold in_width; lia); reflexivity.
    + exists [0]. split; [|apply coded_null; assumption].
      unfold encode_data_value. destruct Hb as [->| ->]; cbn -[wrap encode_length]; rewrite E; reflexivity.
Qed.

(** The computed size is the number of bytes written. *)
Lemma coded_size type v bs : coded type v bs -> encoded_bytes_data_value v type = Some (Z.of_nat (length bs)).
Proof.
  intros Hc. destruct Hc as [v|t v s Ht E Hs|v x E Hx|t v Ht E|t v s Ht E Hs].
  - reflexivity.
  - rewrite (proj2 (int_len_size s) t v Ht E). destruct (int_len_fits s Hs). cbn [length]. rewrite length_int_bytes. f_equal. lia.
  - pose proof (print_size x (fits_float x Hx)) as Hp. unfold encoded_bytes_data_value. cbn -[Z.leb]. rewrite E. cbn -[Z.leb].
    replace (FLT_BUF <=? Z.of_nat (length (print_LA x))) with false by lia. f_equal. cbn [length]. rewrite length_app. cbn [length]. lia.
  - unfold encoded_bytes_data_value. destruct Ht as [->| ->]; cbn; rewrite E; reflexivity.
  - unfold encoded_bytes_data_value. unfold MAXPACKETSIZE in Hs. pose proof (encode_length_size (Z.of_nat (length s) + 1)).
    destruct Ht as [->| ->]; cbn -[wrap encoded_bytes_length]; rewrite E; cbn -[wrap encoded_bytes_length];
      f_equal; rewrite wrap_small by (unfold in_width; lia); rewrite ! length_app; cbn [length]; lia.
Qed.
(** A length below 240 is one byte. *)
Lemma encode_length_short l : 0 <= l < 240 -> encode_length l = [l].
Proof. intros. destruct (encode_length_cases l ltac:(lia)) as [[? E]|[[? ?]|[[? ?]|[[? ?]|[? ?]]]]]; [exact E|lia..]. Qed.

Lemma c_string_app (l r : list Z) : Forall (fun c => 0 < c < 256) l -> c_string (l ++ 0 :: r) = Some l.
Proof. induction 1 as [|b l Hb _ IH]; [reflexivity|]. cbn -[Z.eqb]. replace (b =? 0) with false by lia. rewrite IH. reflexivity. Qed.

Lemma bind_string_at {S A} (f : list Z -> dec S A) d t : c_string (ptr (bin d)) = Some t -> (string_at ≫= f) d = f t d.
Proof. intros E. unfold mbind, dec_bind, string_at. rewrite E. reflexivity. Qed.

Lemma take_len {A} (l r : list A) k : k = Z.of_nat (length l) -> take (Z.to_nat k) (l ++ r) = l.
Proof. intros ->. rewrite Nat2Z.id. apply take_app_length. Qed.

Lemma drop_len {A} (l r : list A) k : k = Z.of_nat (length l) -> drop (Z.to_nat k) (l ++ r) = r.
Proof. intros ->. rewrite Nat2Z.id. apply drop_app_length. Qed.

Lemma lookup_len {A} (l r : list A) a k : k = Z.of_nat (length l) -> (l ++ a :: r) !! Z.to_nat k = Some a.
Proof. intros ->. rewrite Nat2Z.id. apply list_lookup_middle. reflexivity. Qed.

Lemma body_int {S} t s : t = 1 \/ t = 2 -> is_s64 s -> decodes (S := S) (value_body t (int_len s)) (int_bytes (int_len s) s) (Some (VInt s)).
Proof.
  intros Ht Hs n rest o Hn. destruct (int_len_fits s Hs) as [Hl Hr]. rewrite length_int_bytes in Hn.
  unfold value_body. rewrite bind_shorter. cbn [len bin]. replace (n <? int_len s) with false by lia.
  destruct Ht as [->| ->]; cbn [Z.eqb Pos.eqb orb DField.None DField.Signed DField.Unsigned]; replace ((int_len s =? 0) || (8 <? int_len s)) with false by lia;
    (rewrite bind_bytes_at by (cbn [bin ptr]; rewrite length_app, length_int_bytes; lia));
    (rewrite bind_advance by (cbn [bin ptr]; rewrite length_app, length_int_bytes; lia)); cbn [bin ptr len obj];
    (rewrite take_len, drop_len by (rewrite length_int_bytes; lia)); (rewrite int_of_bytes_bytes by assumption);
    unfold mret, dec_ret; apply ok_eq; rewrite ? length_int_bytes; first [reflexivity | lia].
Qed.

Lemma body_bin {S} t s : t = 4 \/ t = 5 -> decodes (S := S) (value_body t (Z.of_nat (length s) + 1)) (s ++ [0]) (Some (VBin (Some s))).
Proof.
  intros Ht n rest o Hn. rewrite length_app in Hn. cbn [length] in Hn.
  unfold value_body. rewrite bind_shorter. cbn [len bin]. replace (n <? Z.of_nat (length s) + 1) with false by lia.
  destruct Ht as [->| ->]; cbn [Z.eqb Pos.eqb orb DField.None DField.Signed DField.Unsigned DField.Float DField.String DField.Binary];
    replace (Z.of_nat (length s) + 1 =? 0) with false by lia; rewrite <- app_assoc;
    (erewrite bind_byte_at by first [lia | cbn [bin ptr app]; apply lookup_len; lia]); cbn [negb Z.eqb];
    (rewrite bind_bytes_at by (cbn [bin ptr]; rewrite length_app; lia)); (rewrite bind_advance by (cbn [bin ptr]; rewrite ! length_app; cbn [length]; lia));
    cbn [bin ptr len obj]; (rewrite take_len by lia); rewrite app_assoc; (rewrite drop_len by (rewrite length_app; cbn [length]; lia));
    unfold mret, dec_ret; apply ok_eq; rewrite ? length_app; cbn [length]; first [reflexivity | lia].
Qed.

Lemma body_flt {S} x : finite x \/ x = INF_bits \/ x = NINF_bits ->
  decodes (S := S) (value_body 3 (Z.of_nat (length (print_LA x)) + 1)) (print_LA x ++ [0]) (Some (VFlt x)).
Proof.
  intros Hx n rest o Hn. pose proof (fits_float x Hx) as Hw. pose proof (print_size x Hw) as Hp. rewrite length_app in Hn. cbn [length] in Hn.
  set (t := print_LA x) in *. set (l := Z.of_nat (length t) + 1).
  assert (Hadv : forall v d, d = mkD (mkBin n (t ++ 0 :: rest)) o ->
    (advance l;; mret v : dec S (option DTCValue)) d = Some (Ok v, mkD (mkBin (n - l) rest) o)).
  { intros v d ->. rewrite bind_advance by (cbn [bin ptr]; rewrite length_app; cbn [length]; lia). cbn [bin ptr len obj].
    replace (t ++ 0 :: rest) with ((t ++ [0]) ++ rest) by (rewrite <- app_assoc; reflexivity).
    rewrite drop_len by (rewrite length_app; cbn [length]; lia). reflexivity. }
  replace (Z.of_nat (length (t ++ [0]))) with l by (rewrite length_app; cbn [length]; lia). rewrite <- app_assoc. cbn [app].
  unfold value_body. rewrite bind_shorter. cbn [len bin]. replace (n <? l) with false by lia.
  cbn [Z.eqb Pos.eqb orb DField.None DField.Signed DField.Unsigned DField.Float]. replace (l <? 3) with false by lia.
  erewrite bind_byte_at by first [lia | cbn [bin ptr app]; apply lookup_len; lia]. cbn [negb Z.eqb].
  erewrite bind_string_at by (cbn [bin ptr]; apply c_string_app, print_chars; exact Hw).
  destruct Hx as [Hx|[Hx|Hx]].
  - destruct (print_finite x Hx) as (N1 & N2 & N3). fold t in N1, N2, N3. rewrite ! decide_False by assumption.
    unfold t at 1. rewrite scan_print by exact Hx. apply Hadv. reflexivity.
  - assert (Et : t = txt_INF) by (unfold t; rewrite Hx; apply print_inf).
    rewrite decide_False by (rewrite Et; discriminate). rewrite decide_True by exact Et. rewrite Hx. apply Hadv. reflexivity.
  - assert (Et : t = txt_NINF) by (unfold t; rewrite Hx; apply print_ninf).
    rewrite ! decide_False by (rewrite Et; discriminate). rewrite decide_True by exact Et. rewrite Hx. apply Hadv. reflexivity.
Qed.

Lemma body_none {S} t a : t = 0 /\ a = None \/ (t = 4 \/ t = 5) /\ a = Some (VBin (Some [])) -> decodes (S := S) (value_body t 0) [] a.
Proof.
  intros Ht n rest o Hn. cbn [length] in Hn. unfold value_body. rewrite bind_shorter. cbn [len bin]. replace (n <? 0) with false by lia.
  destruct Ht as [[-> ->]|[[->| ->] ->]]; cbn [Z.eqb Pos.eqb orb DField.None DField.Signed DField.Unsigned DField.Float DField.String DField.Binary];
    try (rewrite bind_advance by (cbn [bin ptr]; lia)); unfold mret, dec_ret; cbn [bin ptr len obj app length]; apply ok_eq; first [reflexivity | lia].
Qed.

(** A value comes back from its bytes. *)
Lemma coded_decodes {S} type v bs : coded type v bs -> decodes (S := S) (decode_data_value type) bs (wired type v).
Proof.
  assert (Hz : decodes (S := S) decode_length [0] 0) by (apply (decode_length_encode 0); unfold MAXPACKETSIZE; lia).
  intros Hc. unfold decode_data_value. destruct Hc as [v|t v s Ht E Hs|v x E Hx|t v Ht E|t v s Ht E Hs].
  - apply (decodes_bind _ _ [0] [] 0); [exact Hz|]. apply body_none. auto.
  - destruct (int_len_fits s Hs). apply (decodes_bind _ _ [int_len s] _ (int_len s)).
    + rewrite <- (encode_length_short (int_len s)) by lia. apply decode_length_encode. unfold MAXPACKETSIZE. lia.
    + replace (wired t v) with (Some (VInt s)) by (destruct Ht as [->| ->]; cbn; rewrite E; reflexivity). apply body_int; assumption.
  - pose proof (print_size x (fits_float x Hx)) as Hp. unfold FLT_BUF in Hp. apply (decodes_bind _ _ [_] (print_LA x ++ [0]) (Z.of_nat (length (print_LA x)) + 1)).
    + rewrite <- encode_length_short by lia. apply decode_length_encode. unfold MAXPACKETSIZE. lia.
    + cbn [wired]. rewrite E. apply body_flt. exact Hx.
  - apply (decodes_bind _ _ [0] [] 0); [exact Hz|]. apply body_none. right. split; [exact Ht|].
    destruct Ht as [->| ->]; cbn; rewrite E; reflexivity.
  - apply (decodes_bind _ _ _ _ (Z.of_nat (length s) + 1)); [apply decode_length_encode; lia|].
    replace (wired t v) with (Some (VBin (Some s))) by (destruct Ht as [->| ->]; cbn; rewrite E; reflexivity). apply body_bin, Ht.
Qed.
End ValueSpec.

(** ** Sections nobody vouches for *)

Definition is_byte (b : Z) : Prop := 0 <= b < 256.

Definition section_ok (b : DTCBinary) : Prop := len b = Z.of_nat (length (ptr b)) /\ Forall is_byte (ptr b).

(** With [k] to [N] bytes left, [m] has a result, keeps the invariant of the object
    and the cursor inside the section; a value it returns satisfies [Q]. *)
Definition guarded {S A} (I : S -> Prop) (N k : Z) (m : dec S A) (Q : A -> Prop) : Prop :=
  forall d, section_ok (bin d) -> I (obj d) -> k <= len (bin d) <= N ->
  exists r e, m d = Some (r, e) /\ section_ok (bin e) /\ I (obj e) /\ ptr (bin e) `suffix_of` ptr (bin d) /\ forall a, r = Ok a -> Q a.

Section Guards.
Context {S A : Type} (I : S -> Prop).
Implicit Types (Q : A -> Prop) (m : dec S A).

Lemma g_ret N k a Q : Q a -> guarded I N k (mret a) Q.
Proof. intros Ha d Hd Ho Hk. exists (Ok a), d. split_and!; [reflexivity|done..|]. by intros ? [= <-]. Qed.

Lemma g_fail N k c Q : guarded I N k (fail c) Q.
Proof. intros d Hd Ho Hk. exists (Fail (- c)), d. split_and!; [reflexivity|done..]. Qed.

Lemma g_mono N k k' m Q Q' : guarded I N k' m Q' -> k' <= k -> (forall a, Q' a -> Q a) -> guarded I N k m Q.
Proof. intros Hm Hk HQ d Hd Ho Hl. destruct (Hm d Hd Ho ltac:(lia)) as (r & e & ? & ? & ? & ? & ?). exists r, e. split_and!; auto. Qed.

Lemma g_bind {B} N k (n : dec S B) (f : B -> dec S A) (P : B -> Prop) Q :
  guarded I N k n P -> (forall b, P b -> guarded I N 0 (f b) Q) -> guarded I N k (n ≫= f) Q.
Proof.
  intros Hn Hf d Hd Ho Hk. destruct (Hn d Hd Ho Hk) as (r & e & E & He & Hi & Hs & Hr). destruct r as [b|c].
  - rewrite (bind_ok _ _ _ _ _ E). destruct (Hf b (Hr b eq_refl) e He Hi) as (r & e' & ? & ? & ? & ? & ?); [apply suffix_length in Hs; destruct He, Hd; lia|].
    exists r, e'. split_and!; try done. by etrans.
  - rewrite (bind_fail _ _ _ _ _ E). exists (Fail c), e. split_and!; done.
Qed.

Lemma g_next N k (f : Z -> dec S A) Q : 1 <= k -> (forall b, is_byte b -> guarded I (N - 1) (k - 1) (f b) Q) -> guarded I N k (next_byte ≫= f) Q.
Proof.
  intros Hk Hf [[n p] s] [Hl Hb] Ho Hn. cbn in *. destruct p as [|b p]; [cbn in Hl; lia|]. rewrite bind_next. inversion Hb; subst.
  destruct (Hf b ltac:(done) (mkD (mkBin (Z.of_nat (length (b :: p)) - 1) p) s)) as (r & e & ? & ? & ? & Hs & ?); cbn in *; [split; [cbn; lia|done]|done|lia|].
  exists r, e. split_and!; try done. cbn in *. apply suffix_cons_r. exact Hs.
Qed.

Lemma g_byte_at N k i (f : Z -> dec S A) Q : 0 <= i < k -> (forall b, is_byte b -> guarded I N k (f b) Q) -> guarded I N k (byte_at i ≫= f) Q.
Proof.
  intros Hi Hf d [Hl Hb] Ho Hk. destruct (lookup_lt_is_Some_2 (ptr (bin d)) (Z.to_nat i)) as [b E]; [lia|].
  rewrite (bind_byte_at _ _ b) by (lia || exact E). apply Hf; try done. by apply (Forall_lookup_1 _ _ _ _ Hb E).
Qed.

Lemma g_bytes_at N k n (f : list Z -> dec S A) Q : 0 <= n <= k ->
  (forall l, Forall is_byte l -> Z.of_nat (length l) = n -> guarded I N k (f l) Q) -> guarded I N k (bytes_at n ≫= f) Q.
Proof.
  intros Hn Hf d [Hl Hb] Ho Hk. rewrite bind_bytes_at by lia. apply Hf; try done; [by apply Forall_take|].
  rewrite length_take. lia.
Qed.

Lemma g_advance N k n (f : unit -> dec S A) Q : 0 <= n <= k -> guarded I (N - n) (k - n) (f tt) Q -> guarded I N k (advance n ≫= f) Q.
Proof.
  intros Hn Hf d [Hl Hb] Ho Hk. rewrite bind_advance by lia.
  destruct (Hf (mkD (mkBin (len (bin d) - n) (drop (Z.to_nat n) (ptr (bin d)))) (obj d))) as (r & e & ? & ? & ? & Hs & ?); cbn in *; try done.
  - split; cbn; [rewrite length_drop; lia|by apply Forall_drop].
  - lia.
  - exists r, e. split_and!; try done. etrans; [exact Hs|]. apply suffix_drop.
Qed.

Lemma g_shorter N k n c m Q : guarded I N (Z.max k n) m Q -> guarded I N k (s ← shorter n; if (s : bool) then fail c else m) Q.
Proof.
  intros Hm d Hd Ho Hk. rewrite bind_shorter. destruct (Z.ltb_spec (len (bin d)) n); [apply (g_fail N k); done|]. apply Hm; try done. lia.
Qed.

Lemma g_is_empty N k c m Q : guarded I N (Z.max k 1) m Q -> guarded I N k (s ← is_empty; if (s : bool) then fail c else m) Q.
Proof.
  intros Hm d Hd Ho Hk. rewrite bind_is_empty. destruct (Z.leb_spec (len (bin d)) 0); [apply (g_fail N k); done|]. apply Hm; try done. lia.
Qed.

Lemma g_if N k (b : bool) (m m' : dec S A) Q : (b = true -> guarded I N k m Q) -> (b = false -> guarded I N k m' Q) -> guarded I N k (if b then m else m') Q.
Proof. destruct b; auto. Qed.

End Guards.

Create HintDb guards.
#[export] Hint Resolve g_ret g_fail : guards.

(** Apply the rule of the operation at the head. *)
Ltac g_step :=
  first [apply g_shorter | apply g_is_empty | apply g_fail | apply g_ret
        | apply g_next; [lia|intros ? ?] | apply g_byte_at; [lia|intros ? ?]
        | apply g_bytes_at; [lia|intros ? ? ?] | apply g_advance; [lia|]
        | apply g_if; intros ?].

Lemma decode_length_guarded {S} (I : S -> Prop) N k : guarded I N k decode_length (fun l => 0 <= l < 2 ^ 32).
Proof.
  unfold decode_length. repeat g_step.
  all: try (apply wrap_range; lia). unfold is_byte in *. lia.
Qed.

Lemma has_nul l i : l !! i = Some 0 -> exists t, c_string l = Some t.
Proof.
  revert i. induction l as [|b l IH]; intros i E; [discriminate|]. cbn -[Z.eqb]. destruct (Z.eqb_spec b 0); [eauto|].
  destruct i as [|i]; [cbn in E; congruence|]. destruct (IH i E) as [t ->]. cbn. eauto.
Qed.

Lemma g_string {S A} (I : S -> Prop) N k i c (f : list Z -> dec S A) Q : 0 <= i < k -> (forall t, guarded I N k (f t) Q) ->
  guarded I N k (z ← byte_at i; if negb (z =? 0) then fail c else string_at ≫= f) Q.
Proof.
  intros Hi Hf d [Hl Hb] Ho Hk. destruct (lookup_lt_is_Some_2 (ptr (bin d)) (Z.to_nat i)) as [b E]; [lia|].
  rewrite (bind_byte_at _ _ b) by (lia || exact E). destruct (Z.eqb_spec b 0) as [->|]; cbn [negb]; [|apply (g_fail I N k); done].
  destruct (has_nul _ _ E) as [t Et]. rewrite (bind_string_at _ _ _ Et). apply Hf; done.
Qed.

Lemma int_of_bytes_s64 l : Forall is_byte l -> is_s64 (int_of_bytes l).
Proof.
  intros Hl. destruct Hl as [|b l Hb Hl]; [unfold is_s64; cbn; lia|]. cbn [int_of_bytes].
  assert (Ha : is_s64 (sext 8 b)) by (unfold is_s64, sext, is_byte in *; zcase; lia). revert Ha. generalize (sext 8 b).
  induction Hl as [|c l Hc Hl IH]; intros a Ha; [exact Ha|]. cbn [fold_left]. apply IH.
  rewrite shiftl8 by lia. unfold is_s64, is_byte in *.
  assert (exists q, s64_of (a * 2 ^ 8) = q * 256 /\ - 2 ^ 55 <= q < 2 ^ 55) as (q & -> & Hq).
  { unfold s64_of, sext, wrap. exists (if a * 2 ^ 8 mod 2 ^ 64 <? 2 ^ 63 then a mod 2 ^ 56 else a mod 2 ^ 56 - 2 ^ 56). zcase; zdm. }
  rewrite lor_low by lia. lia.
Qed.

(** The values [decode_data_value] stores for a type. *)
Definition of_type (type : Z) (o : option DTCValue) : Prop :=
  match type with
  | 1 | 2 => exists s, o = Some (VInt s) /\ is_s64 s
  | 3 => exists x, o = Some (VFlt x)
  | 4 | 5 => exists bs, o = Some (VBin (Some bs)) /\ Forall is_byte bs
  | _ => o = None
  end.

Lemma decode_data_value_guarded `{Text} {S} (I : S -> Prop) N k type : guarded I N k (decode_data_value type) (of_type type).
Proof.
  unfold decode_data_value. eapply g_bind; [apply decode_length_guarded|]. cbn beta. intros l Hl. unfold value_body. apply g_shorter.
  assert (Hk : Z.max 0 l = l) by lia. rewrite Hk. clear Hk. apply g_if; intros E0.
  { assert (type = 0) as -> by (unfold DField.None in E0; lia). repeat g_step. reflexivity. }
  apply g_if; intros E1.
  { repeat g_step. assert (type = 1 \/ type = 2) as [->| ->] by (unfold DField.Signed, DField.Unsigned in E1; lia);
      (eexists; split; [reflexivity|apply int_of_bytes_s64; assumption]). }
  apply g_if; intros E2.
  { assert (type = 3) as -> by (unfold DField.Float in E2; lia). apply g_if; intros E3; [apply g_fail|]. apply g_string; [lia|intros t].
    repeat case_decide; try (g_step; apply g_ret; eexists; reflexivity). case_match; [|apply g_fail]. g_step. apply g_ret. eexists. reflexivity. }
  apply g_if; intros E3.
  { assert (type = 4 \/ type = 5) as Ht by (unfold DField.String, DField.Binary in E3; lia). repeat g_step.
    all: destruct Ht as [->| ->]; (eexists; split; [reflexivity|first [assumption | constructor]]). }
  g_step. apply g_ret. unfold of_type. unfold DField.None, DField.Signed, DField.Unsigned, DField.Float, DField.String, DField.Binary in *.
  repeat case_match; subst; reflexivity || discriminate.
Qed.
