(* ===== verification/HexFloat.v ===== *)
(** * A text form of floating point numbers

    The codec prints and reads numbers with the C library's ["%LA"].  This file
    gives one form the C standard allows, a hexadecimal digit, thirteen more
    and a decimal exponent, and shows that it has the laws the codec relies
    on. *)

From S2P Require Import Prelude Codec CodecSpec.

(** ** Digits *)

Fixpoint digits (b : Z) (n : nat) (f : Z) : list Z := match n with O => [] | S n => digits b n (f / b) ++ [f mod b] end.
Definition undigits (b : Z) (l : list Z) : Z := fold_left (fun a d => a * b + d) l 0.

Lemma undigits_digits b n f : 1 < b -> 0 <= f < b ^ Z.of_nat n -> undigits b (digits b n f) = f.
Proof.
  intros Hb. revert f. induction n as [|n IH]; intros f Hf; [cbn in *; lia|]. cbn [digits]. unfold undigits in *. rewrite fold_left_app. cbn [fold_left].
  rewrite IH; [pose proof (Z.div_mod f b); lia|]. rewrite Nat2Z.inj_succ, Z.pow_succ_r in Hf by lia. split; [apply Z.div_pos; lia|apply Z.div_lt_upper_bound; lia].
Qed.

Lemma digits_length b n f : length (digits b n f) = n.
Proof. revert f. induction n as [|n IH]; intros f; cbn; [reflexivity|]. rewrite length_app, IH. cbn. lia. Qed.

Lemma digits_range b n f : 1 < b -> Forall (fun d => 0 <= d < b) (digits b n f).
Proof. intros Hb. revert f. induction n as [|n IH]; intros f; cbn [digits]; [constructor|]. apply Forall_app. split; [apply IH|constructor; [apply Z.mod_pos_bound; lia|constructor]]. Qed.

Definition digit_char (d : Z) : Z := if d <? 10 then 48 + d else 55 + d.
Definition char_digit (c : Z) : Z := if c <? 58 then c - 48 else c - 55.

Lemma chars_digits l : Forall (fun d => 0 <= d < 16) l -> map char_digit (map digit_char l) = l.
Proof. induction 1 as [|d l Hd _ IH]; cbn [map]; [reflexivity|]. rewrite IH. f_equal. unfold char_digit, digit_char. zcase; lia. Qed.

(** ** Numbers *)

Definition sign_of (x : Z) : Z := x / 2 ^ 63 mod 2.
Definition exponent_of (x : Z) : Z := x / 2 ^ 52 mod 2 ^ 11.
Definition fraction_of (x : Z) : Z := x mod 2 ^ 52.

(** The exponent of a subnormal number is that of the smallest normal one. *)
Definition power_of (x : Z) : Z := if exponent_of x =? 0 then -1022 else exponent_of x - 1023.

Definition hex_body (x : Z) : list Z :=
  [48; 88; if exponent_of x =? 0 then 48 else 49; 46] ++ map digit_char (digits 16 13 (fraction_of x)) ++
  [80; if power_of x <? 0 then 45 else 43] ++ map digit_char (digits 10 4 (Z.abs (power_of x))).

Definition hex_print (x : Z) : list Z :=
  (if sign_of x =? 0 then [] else [45]) ++
  if exponent_of x =? 2047 then if fraction_of x =? 0 then txt_INF else txt_NAN else hex_body x.

Definition hex_scan (l : list Z) : option Z :=
  let s := if bool_decide (head l = Some 45) then 1 else 0 in
  let l := drop (Z.to_nat s) l in
  if negb (Z.of_nat (length l) =? 23) then None else
  let f := undigits 16 (map char_digit (take 13 (drop 4 l))) in
  let m := undigits 10 (map char_digit (drop 19 l)) in
  let p := if bool_decide (l !! 18%nat = Some 45) then - m else m in
  let e := if bool_decide (l !! 2%nat = Some 48) then 0 else p + 1023 in
  Some (s * 2 ^ 63 + e * 2 ^ 52 + f).

#[export] Instance hex_text : Text := {| print_LA := hex_print; scan_LA := hex_scan |}.

Lemma hex_body_length x : length (hex_body x) = 23%nat.
Proof. unfold hex_body. rewrite ! length_app, ! length_map, ! digits_length. reflexivity. Qed.

Lemma hex_body_chars x : Forall (fun c => 43 <= c < 91) (hex_body x).
Proof.
  assert (Hd : forall b n f, 1 < b <= 16 -> Forall (fun c => 43 <= c < 91) (map digit_char (digits b n f))).
  { intros b n f Hb. apply Forall_map. eapply Forall_impl; [apply digits_range; lia|]. cbn. intros d Hr. unfold digit_char. zcase; lia. }
  unfold hex_body. repeat (apply Forall_app; split); try (apply Hd; lia); repeat constructor; zcase; lia.
Qed.

Lemma finite_parts x : finite x -> x = sign_of x * 2 ^ 63 + exponent_of x * 2 ^ 52 + fraction_of x /\ 0 <= sign_of x <= 1 /\ 0 <= exponent_of x < 2047 /\ 0 <= fraction_of x < 2 ^ 52.
Proof. intros [Hw He]. unfold in_width, sign_of, exponent_of, fraction_of in *. zdm. Qed.

Lemma power_range x : finite x -> 0 <= Z.abs (power_of x) < 10 ^ 4 /\
  (if exponent_of x =? 0 then 0 else (if power_of x <? 0 then - Z.abs (power_of x) else Z.abs (power_of x)) + 1023) = exponent_of x.
Proof.
  intros Hx. destruct (finite_parts x Hx) as (_ & _ & He & _). unfold power_of. destruct (Z.eqb_spec (exponent_of x) 0) as [E|E]; [rewrite E; lia|]. zcase; lia.
Qed.

Lemma hex_scan_body x : finite x ->
  let l := hex_body x in
  undigits 16 (map char_digit (take 13 (drop 4 l))) = fraction_of x /\ undigits 10 (map char_digit (drop 19 l)) = Z.abs (power_of x) /\
  bool_decide (l !! 18%nat = Some 45) = (power_of x <? 0) /\ bool_decide (l !! 2%nat = Some 48) = (exponent_of x =? 0).
Proof.
  intros Hx l. destruct (finite_parts x Hx) as (_ & _ & _ & Hf). destruct (power_range x Hx) as [Hp _].
  set (a := map digit_char (digits 16 13 (fraction_of x))) in *. set (b := map digit_char (digits 10 4 (Z.abs (power_of x)))) in *.
  assert (Ha : length a = 13%nat) by (unfold a; rewrite length_map; apply digits_length).
  assert (El : l = [48; 88; if exponent_of x =? 0 then 48 else 49; 46] ++ a ++ [80; if power_of x <? 0 then 45 else 43] ++ b) by reflexivity.
  rewrite El. split_and!.
  - change (drop 4 _) with (a ++ [80; if power_of x <? 0 then 45 else 43] ++ b). rewrite <- Ha, take_app_length. unfold a. rewrite chars_digits by (apply digits_range; lia).
    apply undigits_digits; [lia|exact Hf].
  - rewrite app_assoc. rewrite drop_app_ge by (rewrite length_app, Ha; cbn; lia). rewrite length_app, Ha. cbn -[map digit_char char_digit undigits digits Z.pow]. unfold b. rewrite drop_0.
    rewrite chars_digits by (eapply Forall_impl; [apply digits_range|]; cbn; lia). apply undigits_digits; [lia|exact Hp].
  - rewrite app_assoc, lookup_app_r by (rewrite length_app, Ha; cbn; lia). rewrite length_app, Ha. cbn -[Z.ltb].
    destruct (power_of x <? 0); reflexivity.
  - cbn [app lookup list_lookup]. destruct (exponent_of x =? 0); reflexivity.
Qed.

#[export] Instance hex_laws : TextLaws.
Proof.
  assert (Hb : forall x, finite x -> hex_print x = (if sign_of x =? 0 then [] else [45]) ++ hex_body x).
  { intros x Hx. destruct (finite_parts x Hx) as (_ & _ & He & _). unfold hex_print. rewrite (proj2 (Z.eqb_neq _ 2047)) by lia. reflexivity. }
  constructor; cbn [print_LA scan_LA hex_text].
  - intros x Hx. rewrite Hb by exact Hx. destruct (finite_parts x Hx) as (Ex & Hs & _). destruct (hex_scan_body x Hx) as (Ef & Ep & Eb & Ee).
    destruct (power_range x Hx) as [_ Hp].
    unfold hex_scan. assert (Hh : head (hex_body x) = Some 48) by reflexivity.
    assert (Hd : let l := (if sign_of x =? 0 then [] else [45]) ++ hex_body x in
      (if bool_decide (head l = Some 45) then 1 else 0) = sign_of x /\ drop (Z.to_nat (sign_of x)) l = hex_body x).
    { cbv zeta. assert (sign_of x = 0 \/ sign_of x = 1) as [-> | ->] by lia; split; reflexivity. }
    destruct Hd as [-> ->]. rewrite hex_body_length. change (negb (Z.of_nat 23 =? 23)) with false. cbv iota zeta. rewrite Ef, Ep, Eb, Ee.
    f_equal. rewrite Hp. symmetry. exact Ex.
  - intros x _. unfold hex_print, FLT_BUF. rewrite length_app. destruct (sign_of x =? 0), (exponent_of x =? 2047), (fraction_of x =? 0); cbn [length]; rewrite ? hex_body_length; cbn; lia.
  - intros x _. unfold hex_print. apply Forall_app. split; [destruct (_ =? 0); repeat constructor; lia|].
    destruct (_ =? 2047); [destruct (_ =? 0); repeat constructor; lia|]. eapply Forall_impl; [apply hex_body_chars|]. cbn. lia.
  - intros x Hx. rewrite Hb by exact Hx. pose proof (hex_body_length x) as Hl. split_and!; intros E; apply (f_equal length) in E; rewrite length_app, Hl in E;
      destruct (sign_of x =? 0); cbn in E; lia.
  - reflexivity.
  - reflexivity.
Qed.
