(* ===== verification/Sections.v ===== *)
(** * Simple sections (src/libs/common/section.h, section.cc, encode.cc, decode.cc)

    A simple section is a set of numbered tags with the types its definition
    gives them: the version, request and result information of a packet, and
    the attributes of a table. *)

From S2P Require Import Prelude Codec.

Definition MAX_STATIC_SECTION : Z := 20.

Record SectionDefinition := mkSectionDef { sectionId : Z; maxTags : Z; tagType : list Z }.

(** [tagType] is an array of 256 types, zero behind the listed ones. *)
Definition tag_type (d : SectionDefinition) (i : Z) : Z := default DField.None (tagType d !! Z.to_nat i).

Definition versionInfoDefinition : SectionDefinition := mkSectionDef 0 20
  [DField.None; DField.String; DField.Binary; DField.Unsigned; DField.Binary; DField.String; DField.String; DField.String;
   DField.Unsigned; DField.Unsigned; DField.Unsigned; DField.Unsigned; DField.Binary; DField.Binary; DField.Unsigned;
   DField.Signed; DField.Signed; DField.Unsigned; DField.String; DField.Unsigned].

Definition requestInfoDefinition : SectionDefinition := mkSectionDef 0 8
  [DField.Binary; DField.Unsigned; DField.Unsigned; DField.Unsigned; DField.String; DField.Unsigned; DField.String; DField.Unsigned].

Definition resultInfoDefinition : SectionDefinition := mkSectionDef 3 10
  [DField.Binary; DField.Signed; DField.String; DField.String; DField.Signed; DField.Unsigned; DField.Unsigned; DField.Binary;
   DField.Unsigned; DField.Unsigned].

Definition tableAttributeDefinition : SectionDefinition := mkSectionDef 1 4
  [DField.None; DField.Unsigned; DField.Unsigned; DField.Unsigned].

(** ** The object *)

(** [fieldMask] as the number its bits make. *)
Record SimpleSection := mkSection { definition : SectionDefinition; numTags : Z; fieldMask : Z; tagValue : list DTCValue }.

Definition max_tags (s : SimpleSection) : Z := maxTags (definition s).

(** [SimpleSection::SimpleSection] *)
Definition new_section (d : SectionDefinition) : SimpleSection :=
  mkSection d 0 0 (replicate (Z.to_nat (maxTags d)) (VBin None) ++ replicate (Z.to_nat (MAX_STATIC_SECTION - maxTags d)) VUnset).

Definition Clean (s : SimpleSection) : SimpleSection :=
  mkSection (definition s) 0 0 (replicate (Z.to_nat (max_tags s)) VZero ++ drop (Z.to_nat (max_tags s)) (tagValue s)).

(** [FIELD_ISSET] and [FIELD_SET]. *)
Definition FIELD_ISSET (id mask : Z) : bool := Z.testbit mask id.
Definition FIELD_SET (id mask : Z) : Z := Z.lor mask (2 ^ id).

Definition tag_present (s : SimpleSection) (id : Z) : bool :=
  if MAX_STATIC_SECTION <=? id then false else FIELD_ISSET id (fieldMask s).

(** [tagValue[id] = val], outside of the array without a result. *)
Definition put_tag (id : Z) (v : DTCValue) (s : SimpleSection) : option SimpleSection :=
  if (0 <=? id) && (id <? Z.of_nat (length (tagValue s)))
  then Some (mkSection (definition s) (numTags s) (fieldMask s) (<[Z.to_nat id := v]> (tagValue s))) else None.

(** The mask has three bytes. *)
Definition SetTagMask (id : Z) (s : SimpleSection) : option SimpleSection :=
  if id <? 24 then Some (mkSection (definition s) (wrap 8 (numTags s + 1)) (FIELD_SET id (fieldMask s)) (tagValue s)) else None.

Definition set_tag (id : Z) (v : DTCValue) (s : SimpleSection) : option SimpleSection :=
  if tag_type (definition s) id =? DField.None then Some s else
  s ← put_tag id v s; if FIELD_ISSET id (fieldMask s) then Some s else SetTagMask id s.

Definition set_tag_int32 (id val : Z) (s : SimpleSection) : option SimpleSection :=
  let t := tag_type (definition s) id in
  if t =? DField.Signed then set_tag id (VInt val) s
  else if t =? DField.Unsigned then set_tag id (VInt (if val <? 0 then 0 else val)) s else Some s.

Definition set_tag_uint32 (id val : Z) (s : SimpleSection) : option SimpleSection :=
  let t := tag_type (definition s) id in
  if (t =? DField.Signed) || (t =? DField.Unsigned) then set_tag id (VInt val) s else Some s.

Definition set_tag_double (id bits : Z) (s : SimpleSection) : option SimpleSection :=
  if tag_type (definition s) id =? DField.Float then set_tag id (VFlt bits) s else Some s.

Definition set_tag_string (id : Z) (val : option (list Z)) (s : SimpleSection) : option SimpleSection :=
  let t := tag_type (definition s) id in
  if (t =? DField.String) || (t =? DField.Binary) then set_tag id (VBin val) s else Some s.

Definition get_tag (s : SimpleSection) (id : Z) : option DTCValue :=
  if tag_present s id then tagValue s !! Z.to_nat id else None.

Definition key (s : SimpleSection) : option DTCValue := get_tag s 0.
Definition set_key (k : DTCValue) (s : SimpleSection) : option SimpleSection := set_tag 0 k s.

(** ** On the wire *)

Section Wire.
Context `{Text}.

Definition wire_type (s : SimpleSection) (kt i : Z) : Z := if i =? 0 then kt else tag_type (definition s) i.

Fixpoint encode_tags (ids : list Z) (sct : SimpleSection) (kt : Z) : option (list Z) :=
  match ids with
  | [] => Some []
  | i :: ids =>
      if tag_present sct i then
        v ← get_tag sct i; bs ← encode_data_value v (wire_type sct kt i); rest ← encode_tags ids sct kt; Some (wrap 8 i :: bs ++ rest)
      else encode_tags ids sct kt
  end.

(** The tags [i <= sct.max_tags()]. *)
Definition tags_of (sct : SimpleSection) : list Z := Z.of_nat <$> seq 0 (Z.to_nat (max_tags sct) + 1).

Definition encode_simple_section (sct : SimpleSection) (kt : Z) : option (list Z) := encode_tags (tags_of sct) sct kt.

Fixpoint encoded_bytes_tags (ids : list Z) (sct : SimpleSection) (kt len : Z) : option Z :=
  match ids with
  | [] => Some len
  | i :: ids =>
      if tag_present sct i then
        v ← get_tag sct i; n ← encoded_bytes_data_value v (wire_type sct kt i); encoded_bytes_tags ids sct kt (len + (1 + n))
      else encoded_bytes_tags ids sct kt len
  end.

Definition encoded_bytes_simple_section (sct : SimpleSection) (kt : Z) : option Z := encoded_bytes_tags (tags_of sct) sct kt 0.

(** An update of the object that may have no result. *)
Definition modify {S} (f : S -> option S) : dec S unit := s ← get_obj; match f s with Some s' => set_obj s' | None => undefined end.

(** The loop of [decode_simple_section]; a round takes a byte at least. *)
Fixpoint decode_tags (fuel : nat) (kt mask : Z) : dec SimpleSection unit :=
  e ← is_empty;
  if (e : bool) then mret tt else
  match fuel with
  | O => undefined
  | Datatypes.S fuel =>
      id ← next_byte;
      if FIELD_ISSET id mask then fail EC_DUPLICATE_TAG else
      ss ← get_obj;
      let type := wire_type ss kt id in
      v ← decode_data_value type;
      match v with Some v => modify (put_tag id v) | None => mret tt end;;
      if type =? DField.None then decode_tags fuel kt mask
      else modify (SetTagMask id);; decode_tags fuel kt (FIELD_SET id mask)
  end.

Definition decode_simple_section (kt : Z) : dec SimpleSection unit := l ← bin_len; decode_tags (Z.to_nat l) kt 0.

End Wire.
