(* ===== verification/SectionsSpec.v ===== *)
(** * What sections promise

    A section read from arbitrary bytes stays inside them and holds values of
    the types of its definition; a section written by [encode_simple_section]
    is read back tag by tag, and is as long as computed. *)

From S2P Require Import Prelude Codec CodecSpec Sections.

(** ** Masks *)

Lemma isset_set i j m : 0 <= i -> 0 <= j -> FIELD_ISSET i (FIELD_SET j m) = (i =? j) || FIELD_ISSET i m.
Proof.
  intros. unfold FIELD_ISSET, FIELD_SET. rewrite Z.lor_spec, Z.pow2_bits_eqb by lia. rewrite orb_comm, Z.eqb_sym. reflexivity.
Qed.

Lemma bind_get_obj {S A} (f : S -> dec S A) d : (get_obj ≫= f) d = f (obj d) d.
Proof. reflexivity. Qed.

Lemma bind_modify {S A} (g : S -> option S) (f : unit -> dec S A) d s : g (obj d) = Some s -> (modify g ≫= f) d = f tt (mkD (bin d) s).
Proof. intros E. unfold modify, mbind, dec_bind, get_obj, set_obj. rewrite E. reflexivity. Qed.

Lemma g_modify {S A} (I : S -> Prop) N k (g : S -> option S) (f : unit -> dec S A) Q :
  (forall s, I s -> exists s', g s = Some s' /\ I s') -> guarded I N k (f tt) Q -> guarded I N k (modify g ≫= f) Q.
Proof.
  intros Hg Hf d Hd Ho Hk. destruct (Hg _ Ho) as (s & E & Hs). rewrite (bind_modify _ _ _ _ E).
  destruct (Hf (mkD (bin d) s) Hd Hs Hk) as (r & e & ? & ? & ? & ? & ?). exists r, e. split_and!; done.
Qed.

(** ** Arbitrary bytes *)

(** Definitions whose tags all have a place. *)
Definition def_ok (d : SectionDefinition) : Prop := 0 <= maxTags d <= MAX_STATIC_SECTION /\ Z.of_nat (length (tagType d)) <= maxTags d.

Lemma def_ok_type d i : def_ok d -> 0 <= i -> tag_type d i <> DField.None -> i < MAX_STATIC_SECTION.
Proof.
  unfold def_ok, tag_type. intros [Hm Hl] Hi Ht. destruct (tagType d !! Z.to_nat i) eqn:E; [|cbn in Ht; congruence].
  apply lookup_lt_Some in E. lia.
Qed.

Definition is_type (t : Z) : Prop := 0 <= t < DField.TotalType.

(** The tags that are present have values of their types, the others are
    empty. *)
Definition tags_typed (d : SectionDefinition) (kt : Z) (s : SimpleSection) : Prop :=
  definition s = d /\ length (tagValue s) = 20%nat /\
  (forall i, 0 <= i -> tag_present s i = true -> of_type (wire_type s kt i) (tagValue s !! Z.to_nat i)) /\
  (forall i, 0 <= i < maxTags d -> tag_present s i = false -> tagValue s !! Z.to_nat i = Some VZero \/ tagValue s !! Z.to_nat i = Some (VBin None)).

Lemma new_section_typed d kt : def_ok d -> tags_typed d kt (new_section d).
Proof.
  intros [Hd _]. unfold MAX_STATIC_SECTION in Hd. split_and!; [reflexivity| | |].
  - cbn. rewrite length_app, ! length_replicate. unfold MAX_STATIC_SECTION. lia.
  - intros i Hi. unfold tag_present, FIELD_ISSET. cbn [new_section fieldMask]. rewrite Z.testbit_0_l. by case_match.
  - intros i Hi _. right. cbn [new_section tagValue]. rewrite lookup_app_l by (rewrite length_replicate; lia). apply lookup_replicate_2. lia.
Qed.

(** A decoded value is put in place and marked. *)
Lemma take_tag_typed d kt s id v : tags_typed d kt s -> 0 <= id < 20 -> of_type (wire_type s kt id) (Some v) ->
  exists s1 s2, put_tag id v s = Some s1 /\ SetTagMask id s1 = Some s2 /\ tags_typed d kt s2.
Proof.
  intros (Hd & Hl & Ht & Hz) Hi Hv. unfold put_tag, SetTagMask. rewrite Hl. rewrite (proj2 (Z.leb_le 0 id)), (proj2 (Z.ltb_lt id (Z.of_nat 20))) by lia.
  rewrite (proj2 (Z.ltb_lt id 24)) by lia. do 2 eexists. split; [reflexivity|]. split; [reflexivity|]. split_and!; [exact Hd|cbn; by rewrite length_insert|..].
  all: intros i Hi' Hp; unfold wire_type, tag_present in *; cbn [definition tagValue fieldMask] in *.
  all: destruct (decide (i = id)) as [->|Hne].
  - rewrite list_lookup_insert_eq by lia. exact Hv.
  - rewrite list_lookup_insert_ne by lia. apply Ht; [lia|]. destruct (MAX_STATIC_SECTION <=? i); [discriminate|].
    rewrite isset_set in Hp by lia. destruct (Z.eqb_spec i id); [congruence|]. exact Hp.
  - rewrite isset_set, Z.eqb_refl in Hp by lia. destruct (Z.leb_spec MAX_STATIC_SECTION id); [unfold MAX_STATIC_SECTION in *; lia|discriminate].
  - rewrite list_lookup_insert_ne by lia. apply Hz; [lia|]. destruct (MAX_STATIC_SECTION <=? i); [reflexivity|].
    rewrite isset_set in Hp by lia. destruct (Z.eqb_spec i id); [congruence|]. exact Hp.
Qed.

Lemma g_modify2 {S A} (I : S -> Prop) N k (g h : S -> option S) (f : unit -> dec S A) Q :
  (forall s, I s -> exists s1 s2, g s = Some s1 /\ h s1 = Some s2 /\ I s2) -> guarded I N k (f tt) Q -> guarded I N k (modify g;; modify h ≫= f) Q.
Proof.
  intros Hg Hf d Hd Ho Hk. destruct (Hg _ Ho) as (s1 & s2 & E1 & E2 & Hs). rewrite (bind_modify _ _ _ _ E1), (bind_modify _ _ _ s2) by exact E2.
  destruct (Hf (mkD (bin d) s2) Hd Hs Hk) as (r & e & ? & ? & ? & ? & ?). exists r, e. split_and!; done.
Qed.

Lemma g_get_obj {S A} (I : S -> Prop) N k (f : S -> dec S A) Q :
  (forall s, I s -> guarded I N k (f s) Q) -> guarded I N k (get_obj ≫= f) Q.
Proof. intros Hf d Hd Ho Hk. rewrite bind_get_obj. apply Hf; done. Qed.

Lemma g_void {S A} (I : S -> Prop) N k (m : dec S A) Q : N < k -> guarded I N k m Q.
Proof. intros Hk d _ _ Hl. lia. Qed.

(** The head of a loop over the section. *)
Lemma g_loop {S A} (I : S -> Prop) N k a (m : dec S A) (Q : A -> Prop) :
  Q a -> guarded I N (Z.max k 1) m Q -> guarded I N k (s ← is_empty; if (s : bool) then mret a else m) Q.
Proof.
  intros Ha Hm d Hd Ho Hk. rewrite bind_is_empty. destruct (Z.leb_spec (len (bin d)) 0); [apply (g_ret I N k); done|]. apply Hm; try done. lia.
Qed.

Lemma of_type_none t : is_type t -> of_type t None -> t = 0.
Proof.
  unfold is_type, DField.TotalType. intros Hr Ht.
  assert (t = 0 \/ t = 1 \/ t = 2 \/ t = 3 \/ t = 4 \/ t = 5) as [->|[->|[->|[->|[->| ->]]]]] by lia; [reflexivity|..];
    cbn in Ht; exfalso; destruct Ht as [? Ht]; (discriminate Ht || (destruct Ht as [Ht _]; discriminate Ht)).
Qed.

Lemma of_type_zero o : of_type 0 o -> o = None.
Proof. intros H. exact H. Qed.

Section Arbitrary.
Context `{Text} (d : SectionDefinition) (kt : Z) (Hd : def_ok d) (Hk : is_type kt) (Hty : forall i, is_type (tag_type d i)).

Lemma wire_is_type s i : definition s = d -> is_type (wire_type s kt i).
Proof. intros E. unfold wire_type. rewrite E. case_match; auto. Qed.

Lemma wire_type_below s i : definition s = d -> 0 <= i -> wire_type s kt i <> DField.None -> i < 20.
Proof.
  intros E Hi Ht. unfold wire_type in Ht. rewrite E in Ht. destruct (Z.eqb_spec i 0); [lia|]. apply (def_ok_type d i Hd Hi Ht).
Qed.

Lemma decode_tags_guarded fuel mask : guarded (tags_typed d kt) (Z.of_nat fuel) 0 (decode_tags fuel kt mask) (fun _ => True).
Proof.
  revert mask. induction fuel as [|fuel IH]; intros mask; cbn [decode_tags]; apply g_loop; try done; [apply g_void; lia|].
  apply g_next; [lia|]. intros id Hid. unfold is_byte in Hid. replace (Z.of_nat (Datatypes.S fuel) - 1) with (Z.of_nat fuel) by lia.
  replace (Z.max 0 1 - 1) with 0 by lia. apply g_if; intros _; [apply g_fail|]. apply g_get_obj. intros ss (Ed & _).
  eapply g_bind; [apply decode_data_value_guarded|]. intros o Ho. set (t := wire_type ss kt id) in *.
  destruct (Z.eqb_spec t DField.None) as [Et|Et].
  - rewrite Et in Ho. rewrite (of_type_zero o Ho). eapply g_bind; [apply (g_ret _ _ _ tt (fun _ => True)); done|]. intros _ _. apply IH.
  - destruct o as [v|]; [|exfalso; apply Et, (of_type_none t); [apply wire_is_type; exact Ed|exact Ho]].
    apply g_modify2; [|apply IH]. intros s Hs. apply take_tag_typed; [exact Hs|split; [lia|apply (wire_type_below ss); [exact Ed|lia|exact Et]]|].
    unfold t, wire_type in Ho. unfold wire_type. destruct Hs as (-> & _). rewrite <- Ed. exact Ho.
Qed.

Lemma decode_simple_section_guarded N k : guarded (tags_typed d kt) N k (decode_simple_section kt) (fun _ => True).
Proof.
  intros e He Ho Hl. unfold decode_simple_section. rewrite (bind_ok _ _ e (len (bin e)) e) by reflexivity.
  apply decode_tags_guarded; try done. destruct He. lia.
Qed.
End Arbitrary.

(** ** Sections that were written *)

(** The tags that are present have a type, and a value of it. *)
Definition sound_section (kt : Z) (s : SimpleSection) : Prop :=
  length (tagValue s) = 20%nat /\
  forall i, 0 <= i -> tag_present s i = true ->
    wire_type s kt i <> DField.None /\ exists v, tagValue s !! Z.to_nat i = Some v /\ fits (wire_type s kt i) v.

(** What the reader makes of the tags [ids] of [sct]. *)
Definition store_tag (i : Z) (v : DTCValue) (s : SimpleSection) : SimpleSection :=
  mkSection (definition s) (wrap 8 (numTags s + 1)) (FIELD_SET i (fieldMask s)) (<[Z.to_nat i := v]> (tagValue s)).

Definition receive (sct : SimpleSection) (kt : Z) (s : SimpleSection) (i : Z) : SimpleSection :=
  match get_tag sct i ≫= wired (wire_type sct kt i) with Some v => store_tag i v s | None => s end.

Section Written.
Context `{TextLaws} (kt : Z) (sct : SimpleSection) (Hs : sound_section kt sct).

Lemma present_value i : 0 <= i -> tag_present sct i = true -> exists v, get_tag sct i = Some v /\ wire_type sct kt i <> 0 /\ fits (wire_type sct kt i) v.
Proof. intros Hi Hp. destruct (proj2 Hs i Hi Hp) as (Hn & v & E & Hf). exists v. unfold get_tag. rewrite Hp. auto. Qed.

Lemma fits_wired t v : t <> 0 -> fits t v -> exists w, wired t v = Some w.
Proof.
  intros N Hf. destruct (fits_types _ _ Hf) as [->|[->|[->|[->|[->| ->]]]]]; [done|..]; cbn in Hf |- *; destruct Hf as (x & -> & _); cbn; eauto.
Qed.

(** One tag: its bytes, their number, and the round that reads them. *)
Lemma tag_round i : 0 <= i < 20 -> tag_present sct i = true -> exists v bs w,
  get_tag sct i = Some v /\ encode_data_value v (wire_type sct kt i) = Some bs /\
  encoded_bytes_data_value v (wire_type sct kt i) = Some (Z.of_nat (length bs)) /\
  wired (wire_type sct kt i) v = Some w /\
  forall fuel mask n rest ss, Z.of_nat (length bs) <= n -> FIELD_ISSET i mask = false ->
    definition ss = definition sct -> length (tagValue ss) = 20%nat ->
    decode_tags (Datatypes.S fuel) kt mask (mkD (mkBin (n + 1) (i :: bs ++ rest)) ss) =
    decode_tags fuel kt (FIELD_SET i mask) (mkD (mkBin (n - Z.of_nat (length bs)) rest) (store_tag i w ss)).
Proof.
  intros Hi Hp. destruct (present_value i ltac:(lia) Hp) as (v & Eg & Ht & Hf). destruct (encode_coded _ _ Hf) as (bs & Eb & Hc).
  destruct (fits_wired _ _ Ht Hf) as [w Ew]. exists v, bs, w. split_and!; [exact Eg|exact Eb|apply coded_size, Hc|exact Ew|].
  intros fuel mask n rest ss Hn Hm Ed Hl. cbn [decode_tags]. rewrite bind_is_empty. cbn [len bin]. replace (n + 1 <=? 0) with false by lia.
  rewrite bind_next, Hm, bind_get_obj. cbn [obj]. assert (Et : wire_type ss kt i = wire_type sct kt i) by (unfold wire_type; rewrite Ed; reflexivity). rewrite Et.
  pose proof (coded_decodes (S := SimpleSection) _ _ _ Hc (n + 1 - 1) rest ss ltac:(lia)) as Er. rewrite Ew in Er.
  rewrite (bind_ok _ _ _ _ _ Er). cbv iota.
  erewrite bind_modify by (cbn [obj]; unfold put_tag; rewrite Hl, (proj2 (Z.leb_le 0 i)), (proj2 (Z.ltb_lt i (Z.of_nat 20))) by lia; reflexivity).
  destruct (Z.eqb_spec (wire_type sct kt i) DField.None); [done|].
  erewrite bind_modify by (cbn [obj]; unfold SetTagMask; rewrite (proj2 (Z.ltb_lt i 24)) by lia; reflexivity).
  cbn [bin]. replace (n + 1 - 1 - Z.of_nat (length bs)) with (n - Z.of_nat (length bs)) by lia. reflexivity.
Qed.

Lemma tags_round ids : NoDup ids -> Forall (fun i => 0 <= i <= 20) ids -> exists bs,
  encode_tags ids sct kt = Some bs /\ (forall n, encoded_bytes_tags ids sct kt n = Some (n + Z.of_nat (length bs))) /\
  forall fuel mask rest ss, (length bs <= fuel)%nat -> Forall (fun i => FIELD_ISSET i mask = false) ids ->
    definition ss = definition sct -> length (tagValue ss) = 20%nat ->
    decode_tags fuel kt mask (mkD (mkBin (Z.of_nat (length bs)) (bs ++ rest)) ss) =
    Some (Ok tt, mkD (mkBin 0 rest) (fold_left (receive sct kt) ids ss)).
Proof.
  intros Hn Hr. induction ids as [|i ids IH]; cbn [encode_tags encoded_bytes_tags fold_left].
  { exists []. split_and!; [reflexivity|intros; f_equal; cbn; lia|]. intros [|fuel] mask rest ss _ _ _ _; reflexivity. }
  apply NoDup_cons in Hn as [Hi Hn]. apply Forall_cons in Hr as [Hr0 Hr]. destruct (IH Hn Hr) as (bs & E & Eb & Ed). clear IH.
  destruct (tag_present sct i) eqn:Hp.
  - assert (i < 20) by (unfold tag_present, MAX_STATIC_SECTION in Hp; destruct (Z.leb_spec 20 i); [discriminate|lia]).
    destruct (tag_round i ltac:(lia) Hp) as (v & cs & w & Eg & Ec & En & Ew & Hround). rewrite Eg. cbn. rewrite Ec, E, En. cbn. rewrite wrap_small by (unfold in_width; lia).
    eexists. split_and!; [reflexivity|intros n; rewrite Eb; f_equal; cbn [length]; rewrite length_app; lia|].
    intros fuel mask rest ss Hf Hm Edef Hl. apply Forall_cons in Hm as [Hm0 Hm]. cbn [length] in Hf. rewrite length_app in Hf. destruct fuel as [|fuel]; [lia|].
    cbn [length app]. rewrite <- app_assoc. replace (Z.of_nat (Datatypes.S (length (cs ++ bs)))) with (Z.of_nat (length (cs ++ bs)) + 1) by lia.
    rewrite Hround by (rewrite ? length_app; first [lia | assumption]).
    replace (Z.of_nat (length (cs ++ bs)) - Z.of_nat (length cs)) with (Z.of_nat (length bs)) by (rewrite length_app; lia).
    replace (receive sct kt ss i) with (store_tag i w ss) by (unfold receive; rewrite Eg; cbn; rewrite Ew; reflexivity).
    apply Ed; [lia| |exact Edef|cbn; rewrite length_insert; exact Hl].
    apply Forall_forall. intros j Hj. rewrite Forall_forall in Hm, Hr. rewrite isset_set by (try specialize (Hr j Hj); lia).
    rewrite (Hm j Hj), orb_false_r. apply Z.eqb_neq. intros ->. contradiction.
  - exists bs. split_and!; [exact E|exact Eb|]. intros fuel mask rest ss Hf Hm Edef Hl. apply Forall_cons in Hm as [_ Hm].
    replace (receive sct kt ss i) with ss by (unfold receive, get_tag; rewrite Hp; reflexivity). apply Ed; assumption.
Qed.

Lemma receive_length ss i : length (tagValue (receive sct kt ss i)) = length (tagValue ss).
Proof. unfold receive. case_match; [|reflexivity]. cbn. apply length_insert. Qed.

Lemma receive_keeps ids ss : definition (fold_left (receive sct kt) ids ss) = definition ss.
Proof.
  revert ss. induction ids as [|i ids IH]; intros ss; [reflexivity|]. cbn [fold_left]. rewrite IH. unfold receive. by case_match.
Qed.

Lemma receive_tag ids ss j : NoDup ids -> Forall (fun i => 0 <= i <= 20) ids -> length (tagValue ss) = 20%nat -> 0 <= j < 20 ->
  get_tag (fold_left (receive sct kt) ids ss) j =
  if decide (j ∈ ids) then match get_tag sct j ≫= wired (wire_type sct kt j) with Some v => Some v | None => get_tag ss j end else get_tag ss j.
Proof.
  intros Hn Hr. revert ss. induction ids as [|i ids IH]; intros ss Hl Hj; [reflexivity|]. apply NoDup_cons in Hn as [Hi Hn]. apply Forall_cons in Hr as [Hr0 Hr].
  cbn [fold_left]. rewrite IH by (rewrite ? receive_length; assumption).
  assert (Hother : i <> j -> get_tag (receive sct kt ss i) j = get_tag ss j).
  { intros Hne. clear IH. unfold receive. destruct (get_tag sct i ≫= wired (wire_type sct kt i)); [|reflexivity]. unfold get_tag, tag_present. cbn [store_tag fieldMask tagValue].
    rewrite isset_set by lia. rewrite (proj2 (Z.eqb_neq j i)) by congruence. rewrite list_lookup_insert_ne by lia. reflexivity. }
  destruct (decide (i = j)) as [->|Hne].
  - rewrite decide_False by exact Hi. rewrite decide_True by set_solver. unfold receive. destruct (get_tag sct j ≫= wired (wire_type sct kt j)); [|reflexivity].
    unfold get_tag, tag_present. cbn [store_tag fieldMask tagValue]. rewrite isset_set, Z.eqb_refl by lia. cbn [orb].
    unfold MAX_STATIC_SECTION. rewrite (proj2 (Z.leb_gt 20 j)) by lia. apply list_lookup_insert_eq. lia.
  - rewrite Hother by exact Hne. destruct (decide (j ∈ ids)); [rewrite decide_True by set_solver|rewrite decide_False by set_solver]; reflexivity.
Qed.

Lemma tags_of_range d : def_ok d -> definition sct = d -> NoDup (tags_of sct) /\ Forall (fun i => 0 <= i <= 20) (tags_of sct).
Proof.
  unfold def_ok, MAX_STATIC_SECTION. intros [Hm _] E. unfold tags_of, max_tags. rewrite E. split.
  - apply NoDup_fmap_2; [intros ? ? ?; lia|]. apply NoDup_ListNoDup, seq_NoDup.
  - apply Forall_fmap, Forall_forall. intros i Hi%elem_of_seq. cbn. lia.
Qed.

Lemma tags_of_present d i : def_ok d -> definition sct = d -> 0 <= i -> tag_present sct i = true -> i ∈ tags_of sct.
Proof.
  intros Hd E Hi Hp. destruct (present_value i Hi Hp) as (_ & _ & Ht & _). unfold tags_of, max_tags. rewrite E.
  apply list_elem_of_fmap. exists (Z.to_nat i). split; [lia|]. apply elem_of_seq. destruct Hd as [Hm Hl].
  unfold wire_type in Ht. destruct (Z.eqb_spec i 0); [lia|]. unfold tag_type in Ht. rewrite E in Ht.
  destruct (tagType d !! Z.to_nat i) eqn:El; [apply lookup_lt_Some in El; lia|done].
Qed.

(** A written section is read back, and has the computed size. *)
Lemma section_trip d : def_ok d -> definition sct = d -> exists bs,
  encode_simple_section sct kt = Some bs /\ encoded_bytes_simple_section sct kt = Some (Z.of_nat (length bs)) /\
  forall rest, exists ss,
    decode_simple_section kt (mkD (mkBin (Z.of_nat (length bs)) (bs ++ rest)) (new_section d)) = Some (Ok tt, mkD (mkBin 0 rest) ss) /\
    definition ss = d /\ forall i, 0 <= i -> get_tag ss i = get_tag sct i ≫= wired (wire_type sct kt i).
Proof.
  intros Hd Ed. destruct (tags_of_range d Hd Ed) as [Hn Hr]. destruct (tags_round _ Hn Hr) as (bs & E & Eb & Er). exists bs.
  split_and!; [exact E|apply (Eb 0)|]. intros rest. exists (fold_left (receive sct kt) (tags_of sct) (new_section d)).
  assert (Hl : length (tagValue (new_section d)) = 20%nat) by (apply (new_section_typed d kt Hd)). split_and!.
  - unfold decode_simple_section. rewrite (bind_ok _ _ _ (Z.of_nat (length bs)) (mkD (mkBin (Z.of_nat (length bs)) (bs ++ rest)) (new_section d))) by reflexivity.
    apply Er; [lia| |rewrite Ed; reflexivity|exact Hl].
    apply Forall_forall. intros i Hi. unfold FIELD_ISSET. apply Z.bits_0.
  - apply receive_keeps.
  - intros i Hi. assert (Hnew : get_tag (new_section d) i = None) by (unfold get_tag, tag_present, FIELD_ISSET; cbn [new_section fieldMask]; rewrite Z.bits_0; by destruct (MAX_STATIC_SECTION <=? i)).
    destruct (Z.leb_spec 20 i) as [Hb|Hb].
    + unfold get_tag, tag_present, MAX_STATIC_SECTION. rewrite (proj2 (Z.leb_le 20 i)) by lia. reflexivity.
    + rewrite receive_tag, Hnew by (assumption || lia). destruct (tag_present sct i) eqn:Hp.
      * rewrite decide_True by (apply (tags_of_present d); assumption). by destruct (get_tag sct i ≫= wired (wire_type sct kt i)).
      * replace (get_tag sct i) with (@None DTCValue) by (unfold get_tag; rewrite Hp; reflexivity). cbn. by destruct (decide _).
Qed.
End Written.
