(* ===== verification/TableDef.v ===== *)
(** * Table definitions (src/libs/common/table/table_def.h, table_def.cc)

    The fields of a table with their types and sizes, found by number or,
    through a hash table of chains, by name.  Field 0 is the key.  The members
    that a server-side and a client-side object do not share are options:
    [None] is a pointer the constructor did not set. *)

From S2P Require Import Prelude Codec Sections.

Definition MAXFIELDS_PER_TABLE : Z := 255.
Definition HASHSTOP : Z := 0xFFFF.

Definition EC_BAD_FIELD_ID : Z := 2014.
Definition EC_BAD_FIELD_NAME : Z := 2015.
Definition EC_BAD_FIELD_TYPE : Z := 2016.
Definition EC_BAD_FIELD_SIZE : Z := 2017.

Definition FF_READONLY : Z := 1.
Definition FF_VOLATILE : Z := 2.
Definition FF_DISCARD : Z := 4.
Definition FF_DESC : Z := 0x10.
Definition FF_TIMESTAMP : Z := 0x20.

(** [fieldName] is [None] where the array entry is as [calloc] left it. *)
Record FieldDefinition := mkFieldDef {
  fieldName : option (list Z);
  fieldSize : Z;
  field_type : Z;
  nameLen : Z;
  offset : Z;
  flags : Z;
  next : Z
}.

Definition no_field : FieldDefinition := mkFieldDef None 0 0 0 0 0 0.

Record Names := mkNames { fieldList : list FieldDefinition; nameHash : list Z; maxFields : Z; usedFields : Z; numFields : Z }.

Record Side := mkSide { defaultValue : option (list DTCValue); rawFields : option (list Z); uniqFields : list Z }.

Record Keys := mkKeys { keyFields : Z; keyFormat : Z; maxKeySize : Z; keysAsUniqField : Z }.

Record Marks := mkMarks { hasAutoInc : Z; hasLastacc : Z; hasLastmod : Z; hasLastcmod : Z; hasExpireTime : Z; hasDiscard : Z; indexFields : Z }.

Record DTCTableDefinition := mkTable {
  names : Names;
  side : Side;
  keys : Keys;
  marks : Marks;
  tableName : option (list Z);
  attr : SimpleSection;
  hash : list Z
}.

Definition on_names (f : Names -> Names) (t : DTCTableDefinition) : DTCTableDefinition :=
  mkTable (f (names t)) (side t) (keys t) (marks t) (tableName t) (attr t) (hash t).
Definition on_side (f : Side -> Side) (t : DTCTableDefinition) : DTCTableDefinition :=
  mkTable (names t) (f (side t)) (keys t) (marks t) (tableName t) (attr t) (hash t).
Definition set_keys (k : Keys) (t : DTCTableDefinition) : DTCTableDefinition :=
  mkTable (names t) (side t) k (marks t) (tableName t) (attr t) (hash t).
Definition on_marks (f : Marks -> Marks) (t : DTCTableDefinition) : DTCTableDefinition :=
  mkTable (names t) (side t) (keys t) (f (marks t)) (tableName t) (attr t) (hash t).
Definition set_attr (a : SimpleSection) (t : DTCTableDefinition) : DTCTableDefinition :=
  mkTable (names t) (side t) (keys t) (marks t) (tableName t) a (hash t).
Definition set_hash (h : list Z) (t : DTCTableDefinition) : DTCTableDefinition :=
  mkTable (names t) (side t) (keys t) (marks t) (tableName t) (attr t) h.

Definition num_fields (t : DTCTableDefinition) : Z := numFields (names t).
Definition key_fields (t : DTCTableDefinition) : Z := keyFields (keys t).

(** [fieldList[id]] *)
Definition field_at (t : DTCTableDefinition) (id : Z) : option FieldDefinition :=
  if 0 <=? id then fieldList (names t) !! Z.to_nat id else None.

(** ** Construction *)

(** [DTCTableDefinition::DTCTableDefinition] *)
Definition new_table (m : Z) : DTCTableDefinition :=
  mkTable (mkNames (replicate (Z.to_nat m) no_field) (replicate 256 HASHSTOP) m 0 0)
    (if 0 <? m then mkSide (Some (replicate (Z.to_nat m) VZero)) (Some (replicate (Z.to_nat m) 0)) [] else mkSide None None [])
    (mkKeys 0 0 0 0) (mkMarks (-1) (-1) (-1) (-1) (-1) 0 0) None (new_section tableAttributeDefinition) [].

Definition set_table_name (name : list Z) (t : DTCTableDefinition) : DTCTableDefinition :=
  mkTable (names t) (side t) (keys t) (marks t) (Some name) (attr t) (hash t).

(** The hash of a name; a character is signed. *)
Definition name_hash (name : list Z) : Z :=
  Z.land (fold_left (fun h c => wrap 32 (h * 11 + Z.shiftl (sext 8 c) 4 + Z.shiftr (sext 8 c) 4)) name 0) 0xFF.

(** [defaultValue[id].Set(v)], on a server-side object. *)
Definition set_default (id : Z) (v : DTCValue) (t : DTCTableDefinition) : DTCTableDefinition :=
  on_side (fun s => mkSide ((fun l => <[Z.to_nat id := v]> l) <$> defaultValue s) (rawFields s) (uniqFields s)) t.

(** The switch on the type: the error, or the default value of the type. *)
Definition type_default (type size : Z) : Z + DTCValue :=
  if (type =? DField.Signed) || (type =? DField.Unsigned) then if 8 <? size then inl (- EC_BAD_FIELD_SIZE) else inr (VInt 0)
  else if type =? DField.Float then if negb (size =? 8) && negb (size =? 4) then inl (- EC_BAD_FIELD_SIZE) else inr (VFlt 0)
  else if (type =? DField.String) || (type =? DField.Binary) then if MAXPACKETSIZE <? size then inl (- EC_BAD_FIELD_SIZE) else inr (VBin None)
  else inl (- EC_BAD_FIELD_TYPE).

(** The new entry is put at the head of the chain of its hash. *)
Definition link_field (id : Z) (name : list Z) (type size : Z) (n : Names) : Names :=
  let h := name_hash name in
  mkNames
    (<[Z.to_nat id := mkFieldDef (Some name) size type (Z.of_nat (length name))
        (default 0 (offset <$> fieldList n !! Z.to_nat id)) (if id =? 0 then FF_READONLY else 0) (default 0 (nameHash n !! Z.to_nat h))]> (fieldList n))
    (<[Z.to_nat h := wrap 16 id]> (nameHash n)) (maxFields n)
    (if id =? 0 then usedFields n else usedFields n + 1) (if numFields n <? id then id else numFields n).

(** [add_field(id, name, type, size)].  [rawFields[id] = id] goes through a
    pointer that a client-side object never set. *)
Definition add_field (id : Z) (name : list Z) (type size : Z) (t : DTCTableDefinition) : option (Z * DTCTableDefinition) :=
  let taken := match field_at t id with Some f => match fieldName f with Some _ => true | None => false end | None => false end in
  if (id <? 0) || (MAXFIELDS_PER_TABLE <? id) || (maxFields (names t) <=? id) || taken then Some (- EC_BAD_FIELD_ID, t)
  else if size <=? 0 then Some (- EC_BAD_FIELD_SIZE, t)
  else match type_default type size with
  | inl e => Some (e, t)
  | inr v =>
      let t := set_default id v t in
      let n := Z.of_nat (length name) in
      if (n =? 0) || (255 <? n) then Some (- EC_BAD_FIELD_NAME, t)
      else
        let t := on_names (link_field id name type size) t in
        if id =? 0 then Some (0, t)
        else match rawFields (side t) with
        | None => None
        | Some raw => Some (0, on_side (fun s => mkSide (defaultValue s) (Some (<[Z.to_nat id := wrap 8 id]> raw)) (uniqFields s)) t)
        end
  end.

(** [field_id(name, len)]: the chain of the hash of the name. *)
Fixpoint chain_find (fuel : nat) (t : DTCTableDefinition) (name : list Z) (id : Z) : option Z :=
  if id =? HASHSTOP then Some (-1) else
  match fuel with
  | O => None
  | S fuel =>
      f ← field_at t id;
      if negb (nameLen f =? Z.of_nat (length name)) then chain_find fuel t name (next f)
      else n ← fieldName f; if decide (n = name) then Some id else chain_find fuel t name (next f)
  end.

Definition field_id (t : DTCTableDefinition) (name : list Z) : option Z :=
  h ← nameHash (names t) !! Z.to_nat (name_hash name); chain_find (S (length (fieldList (names t)))) t name h.

(** ** Keys and marks *)

Definition alter_flags (f : Z -> Z) (n : Z) (t : DTCTableDefinition) : option DTCTableDefinition :=
  e ← field_at t n;
  Some (on_names (fun ns => mkNames (<[Z.to_nat n := mkFieldDef (fieldName e) (fieldSize e) (field_type e) (nameLen e) (offset e) (wrap 8 (f (flags e))) (next e)]> (fieldList ns))
    (nameHash ns) (maxFields ns) (usedFields ns) (numFields ns)) t).

Definition mark_as_read_only : Z -> DTCTableDefinition -> option DTCTableDefinition := alter_flags (Z.lor FF_READONLY).
Definition mark_as_volatile : Z -> DTCTableDefinition -> option DTCTableDefinition := alter_flags (Z.lor FF_VOLATILE).
Definition mark_order_desc : Z -> DTCTableDefinition -> option DTCTableDefinition := alter_flags (Z.lor FF_DESC).
Definition mark_order_asc : Z -> DTCTableDefinition -> option DTCTableDefinition := alter_flags (fun f => Z.ldiff f FF_DESC).
Definition mark_as_discard (n : Z) (t : DTCTableDefinition) : option DTCTableDefinition :=
  on_marks (fun m => mkMarks (hasAutoInc m) (hasLastacc m) (hasLastmod m) (hasLastcmod m) (hasExpireTime m) 1 (indexFields m)) <$>
    alter_flags (Z.lor FF_DISCARD) n t.

Definition mark_uniq_field (n : Z) (t : DTCTableDefinition) : DTCTableDefinition :=
  on_side (fun s => mkSide (defaultValue s) (rawFields s) (uniqFields s ++ [wrap 8 n])) t.

Definition set_default_value (id : Z) (v : DTCValue) (t : DTCTableDefinition) : DTCTableDefinition :=
  if (id <=? 0) || (255 <? id) || (maxFields (names t) <=? id) then t else set_default id v t.

Definition get_default_row (t : DTCTableDefinition) : list DTCValue :=
  match defaultValue (side t) with
  | Some d => take (Z.to_nat (num_fields t)) (drop 1 d)
  | None => replicate (Z.to_nat (num_fields t)) VZero
  end.

Definition with_offset (off : Z) (e : FieldDefinition) : FieldDefinition :=
  mkFieldDef (fieldName e) (fieldSize e) (field_type e) (nameLen e) (wrap 8 off) (flags e) (next e).

(** The loop of [set_key_fields] over the key fields from [i] on, with
    [maxSize], [nvar] and [keysAsUniqField]. *)
Fixpoint key_loop (k : nat) (i maxSize nvar uniq : Z) (t : DTCTableDefinition) : option (Z * Z * Z * DTCTableDefinition) :=
  match k with
  | O => Some (maxSize, nvar, uniq, t)
  | S k =>
      t ← mark_as_read_only i t;
      e ← field_at t i;
      let t := on_names (fun ns => mkNames (<[Z.to_nat i := with_offset maxSize e]> (fieldList ns)) (nameHash ns) (maxFields ns) (usedFields ns) (numFields ns)) t in
      let '(maxSize, nvar) :=
        if (field_type e =? DField.Signed) || (field_type e =? DField.Unsigned) || (field_type e =? DField.Float)
        then (maxSize + fieldSize e, nvar) else (1 + fieldSize e, nvar + 1) in
      let uniq := if uniq =? 0 then 0 else if decide (i ∈ uniqFields (side t)) then uniq else 0 in
      key_loop k (i + 1) maxSize nvar uniq t
  end.

(** [set_key_fields]; the bound is tested on [maxKeySize] before it is set. *)
Definition set_key_fields (n : Z) (t : DTCTableDefinition) : option (Z * DTCTableDefinition) :=
  let n := if n <? 0 then 1 else n in
  if n <=? 0 then Some (0, t) else if 32 <? n then Some (-1, t) else
  let n := if num_fields t + 1 <? n then num_fields t + 1 else n in
  a ← set_tag_uint32 3 n (attr t);
  let t := set_attr a t in
  '(maxSize, nvar, uniq, t) ← key_loop (Z.to_nat n) 0 0 0 2 t;
  let uniq := if (Z.of_nat (length (uniqFields (side t))) =? n) && (0 <? uniq) then 1 else uniq in
  let mk := maxKeySize (keys t) in
  let stop := Some (-1, set_keys (mkKeys n (keyFormat (keys t)) mk uniq) t) in
  if nvar =? 0 then
    if 256 <=? mk then stop else Some (0, set_keys (mkKeys n (wrap 8 maxSize) (wrap 16 maxSize) uniq) t)
  else if 257 <=? mk then stop else if negb (n =? 1) then stop
  else Some (0, set_keys (mkKeys n 0 (wrap 16 (maxSize + (if 1 <? nvar then 1 else 0))) uniq) t).
