(* ===== verification/TableDefSpec.v ===== *)
(** * Finding fields by name

    [named hist n]: the fields [hist], the latest first, were added; every
    chain of the hash table goes through the fields of its hash in that order. *)

From S2P Require Import Prelude Codec Sections TableDef.

(** The chain that starts at [id]. *)
Inductive chain (fl : list FieldDefinition) : Z -> list Z -> Prop :=
| chain_stop : chain fl HASHSTOP []
| chain_link id f ids : 0 <= id < HASHSTOP -> fl !! Z.to_nat id = Some f -> chain fl (next f) ids -> chain fl id (id :: ids).

Definition of_hash (h : Z) (e : Z * list Z) : bool := name_hash (snd e) =? h.

Definition named (hist : list (Z * list Z)) (n : Names) : Prop :=
  length (nameHash n) = 256%nat /\ maxFields n = Z.of_nat (length (fieldList n)) /\ maxFields n <= 256 /\ NoDup (fst <$> hist) /\
  (forall id nm, (id, nm) ∈ hist -> 0 <= id /\ exists f, fieldList n !! Z.to_nat id = Some f /\ fieldName f = Some nm /\ nameLen f = Z.of_nat (length nm)) /\
  (forall k f, fieldList n !! k = Some f -> (Z.of_nat k ∈ (fst <$> hist)) \/ fieldName f = None) /\
  (forall h start, nameHash n !! h = Some start -> chain (fieldList n) start (fst <$> filter (of_hash (Z.of_nat h)) hist)).

Lemma name_hash_range nm : 0 <= name_hash nm < 256.
Proof.
  unfold name_hash. change 0xFF with (Z.ones 8). rewrite Z.land_ones by lia. apply Z.mod_pos_bound. lia.
Qed.

Lemma named_new m : 0 <= m <= 256 -> named [] (names (new_table m)).
Proof.
  intros Hm. split_and!; cbn [names new_table nameHash fieldList maxFields].
  - apply length_replicate.
  - rewrite length_replicate. lia.
  - lia.
  - constructor.
  - intros ? ? H. by apply elem_of_nil in H.
  - intros k f Hk. right. apply lookup_replicate in Hk as [-> _]. reflexivity.
  - intros h start Hh. apply lookup_replicate in Hh as [-> _]. constructor.
Qed.

(** A change at an entry outside of a chain leaves the chain alone. *)
Lemma chain_insert fl start ids k f : chain fl start ids -> Z.of_nat k ∉ ids -> chain (<[k := f]> fl) start ids.
Proof.
  induction 1 as [|id g ids Hr Hg Hc IH]; intros Hk; [constructor|]. apply not_elem_of_cons in Hk as [Hne Hk].
  apply chain_link with g; [exact Hr| |apply IH, Hk]. rewrite list_lookup_insert_ne by lia. exact Hg.
Qed.

Lemma filter_ids h (hist : list (Z * list Z)) (id : Z) : id ∉ (fst <$> hist) -> id ∉ (fst <$> filter (of_hash h) hist).
Proof.
  intros Hn Hi. apply Hn. apply list_elem_of_fmap in Hi as (e & -> & He). apply list_elem_of_filter in He as [_ He]. by apply list_elem_of_fmap_2.
Qed.

Lemma named_link (hist : list (Z * list Z)) n (id : Z) nm type size : named hist n -> 0 <= id < maxFields n -> id ∉ (fst <$> hist) ->
  named ((id, nm) :: hist) (link_field id nm type size n).
Proof.
  intros (Hh & Hm & H256 & Hnd & Hin & Hout & Hch) Hid Hnew. pose proof (name_hash_range nm) as Hr. unfold link_field.
  set (f0 := mkFieldDef _ _ _ _ _ _ _). split_and!; cbn [nameHash fieldList maxFields].
  - by rewrite length_insert.
  - by rewrite length_insert.
  - exact H256.
  - cbn. by constructor.
  - intros j nj Hj. apply elem_of_cons in Hj as [[= -> ->]|Hj].
    + split; [lia|]. exists f0. split_and!; [apply list_lookup_insert_eq; lia|reflexivity..].
    + destruct (Hin j nj Hj) as (H0 & f & Hf). split; [lia|]. exists f. destruct (decide (j = id)) as [->|]; [|rewrite list_lookup_insert_ne by lia; exact Hf].
      exfalso. apply Hnew. apply list_elem_of_fmap. exists (id, nj). auto.
  - intros k f Hk. apply list_lookup_insert_Some in Hk as [(<- & _ & _)|(Hne & Hk)].
    + left. cbn. rewrite Z2Nat.id by lia. apply list_elem_of_here.
    + destruct (Hout k f Hk); [left; cbn; by apply list_elem_of_further|by right].
  - intros h start Hs. rewrite filter_cons. unfold of_hash at 1. cbn [snd].
    apply list_lookup_insert_Some in Hs as [(<- & <- & Hb)|(Hne & Hs)].
    + rewrite Z2Nat.id by lia. rewrite decide_True by (apply Is_true_true, Z.eqb_refl). cbn [fmap list_fmap fst].
      destruct (lookup_lt_is_Some_2 (nameHash n) (Z.to_nat (name_hash nm))) as [s0 E0]; [lia|].
      rewrite wrap_small by (unfold in_width; lia). apply chain_link with f0; [unfold HASHSTOP; lia|apply list_lookup_insert_eq; lia|].
      cbn [f0 next]. rewrite E0. cbn. apply chain_insert; [|rewrite Z2Nat.id by lia; apply filter_ids, Hnew].
      specialize (Hch _ _ E0). rewrite Z2Nat.id in Hch by lia. exact Hch.
    + rewrite decide_False by (intros Ht%Is_true_true; apply Z.eqb_eq in Ht; cbn in Ht; lia).
      apply chain_insert; [apply Hch, Hs|]. rewrite Z2Nat.id by lia. apply filter_ids, Hnew.
Qed.

(** ** Lookup *)

Definition latest (hist : list (Z * list Z)) (nm : list Z) : Z :=
  match list_find (fun e => snd e = nm) hist with Some (_, (id, _)) => id | None => -1 end.

Lemma latest_cons id n0 hist nm : latest ((id, n0) :: hist) nm = if decide (n0 = nm) then id else latest hist nm.
Proof. unfold latest. cbn. case_decide; [done|]. destruct (list_find _ hist) as [[k [j nj]]|]; reflexivity. Qed.

Lemma latest_of_hash h hist nm : name_hash nm = h -> latest (filter (of_hash h) hist) nm = latest hist nm.
Proof.
  intros Hh. induction hist as [|[id n0] hist IH]; [reflexivity|]. rewrite filter_cons, latest_cons. destruct (decide (Is_true _)) as [Ht|Hf].
  - rewrite latest_cons, IH. reflexivity.
  - rewrite IH, decide_False; [reflexivity|]. intros ->. apply Hf. unfold of_hash. cbn. rewrite Hh, Z.eqb_refl. done.
Qed.

Lemma chain_find_spec t nm : forall hist fuel start, chain (fieldList (names t)) start (fst <$> hist) -> (length hist < fuel)%nat ->
  (forall id n0, (id, n0) ∈ hist -> 0 <= id /\ exists f, fieldList (names t) !! Z.to_nat id = Some f /\ fieldName f = Some n0 /\ nameLen f = Z.of_nat (length n0)) ->
  chain_find fuel t nm start = Some (latest hist nm).
Proof.
  induction hist as [|[id n0] hist IH]; intros fuel start Hc Hf Hin; cbn in Hc; inversion Hc as [|? f ? Hr Ef Hn]; subst.
  - destruct fuel; reflexivity.
  - destruct fuel as [|fuel]; [cbn in Hf; lia|]. cbn [chain_find]. rewrite (proj2 (Z.eqb_neq id HASHSTOP)) by lia.
    destruct (Hin id n0) as (_ & f' & Ef' & En & El); [apply list_elem_of_here|]. rewrite Ef in Ef'. injection Ef' as <-.
    unfold field_at. rewrite (proj2 (Z.leb_le 0 id)), Ef by lia. cbn -[chain_find latest]. rewrite En, El, latest_cons. cbn -[chain_find latest].
    assert (Hrest : chain_find fuel t nm (next f) = Some (latest hist nm)).
    { apply IH; [exact Hn|cbn in Hf; lia|]. intros j nj Hj. apply Hin. by apply list_elem_of_further. }
    destruct (Z.eqb_spec (Z.of_nat (length n0)) (Z.of_nat (length nm))) as [_|Hne]; cbn [negb].
    + destruct (decide (n0 = nm)); [reflexivity|exact Hrest].
    + rewrite decide_False by (intros ->; lia). exact Hrest.
Qed.

Lemma named_bound hist n : named hist n -> (length hist <= length (fieldList n))%nat.
Proof.
  intros (_ & _ & _ & Hnd & Hin & _ & _).
  enough (length (fst <$> hist) <= length (Z.of_nat <$> seq 0 (length (fieldList n))))%nat as H by (rewrite ! length_fmap, length_seq in H; exact H).
  apply submseteq_length, NoDup_submseteq; [exact Hnd|]. intros id Hid.
  apply list_elem_of_fmap in Hid as ([j nj] & -> & Hj). destruct (Hin j nj Hj) as (H0 & f & Hf & _). apply lookup_lt_Some in Hf.
  apply list_elem_of_fmap. exists (Z.to_nat j). split; [cbn; lia|]. apply elem_of_seq. lia.
Qed.

Lemma field_id_spec hist t nm : named hist (names t) -> field_id t nm = Some (latest hist nm).
Proof.
  intros Hn. pose proof (named_bound _ _ Hn) as Hb. destruct Hn as (Hh & _ & _ & _ & Hin & _ & Hch). pose proof (name_hash_range nm) as Hr.
  unfold field_id. destruct (lookup_lt_is_Some_2 (nameHash (names t)) (Z.to_nat (name_hash nm))) as [s0 E0]; [lia|]. rewrite E0. cbn -[chain_find].
  rewrite <- (latest_of_hash (name_hash nm) hist nm) by reflexivity. specialize (Hch _ _ E0). rewrite Z2Nat.id in Hch by lia.
  apply chain_find_spec; [exact Hch| |].
  - assert (length (filter (of_hash (name_hash nm)) hist) <= length hist)%nat by apply length_filter. lia.
  - intros id n0 Hi. apply list_elem_of_filter in Hi as [_ Hi]. apply Hin, Hi.
Qed.

(** ** Adding fields *)

(** [add_field] either refuses, with the names as they were, or adds the field. *)
Lemma add_field_spec hist t id nm type size raw : named hist (names t) -> rawFields (side t) = Some raw -> exists e t',
  add_field id nm type size t = Some (e, t') /\ (exists raw', rawFields (side t') = Some raw') /\
  (e = 0 /\ named ((id, nm) :: hist) (names t') \/ e < 0 /\ names t' = names t).
Proof.
  intros Hn Hraw. unfold add_field. destruct (_ || _ || _ || _) eqn:Ebad; [do 2 eexists; split; [reflexivity|split; [eauto|right; done]]|].
  destruct (size <=? 0); [do 2 eexists; split; [reflexivity|split; [eauto|right; done]]|].
  destruct (type_default type size) as [e|v] eqn:Et.
  { do 2 eexists. split; [reflexivity|]. split; [eauto|]. right. split; [|reflexivity]. unfold type_default in Et.
    repeat case_match; simplify_eq; unfold EC_BAD_FIELD_SIZE, EC_BAD_FIELD_TYPE; lia. }
  destruct ((Z.of_nat (length nm) =? 0) || (255 <? Z.of_nat (length nm))) eqn:En; [do 2 eexists; split; [reflexivity|split; [cbn; eauto|right; done]]|].
  assert (Hnew : named ((id, nm) :: hist) (link_field id nm type size (names t))).
  { apply named_link; [exact Hn|lia|]. intros Hin. destruct Hn as (_ & Hm & _ & _ & Hh & _ & _).
    apply list_elem_of_fmap in Hin as ([j nj] & Ej & Hj). cbn in Ej. subst j. destruct (Hh id nj Hj) as (H0 & f & Hf & Hname & _).
    unfold field_at in Ebad. rewrite (proj2 (Z.leb_le 0 id)), Hf, Hname in Ebad by lia. lia. }
  cbn [on_names on_side set_default side rawFields]. destruct (id =? 0); [|rewrite Hraw]; (do 2 eexists; split; [reflexivity|]; split; [cbn; eauto|left; split; [reflexivity|exact Hnew]]).
Qed.

(** A field that is added is not there yet. *)
Lemma add_field_fresh hist t id nm type size e t' : named hist (names t) -> add_field id nm type size t = Some (e, t') -> e = 0 ->
  0 <= id < maxFields (names t) /\ id ∉ (fst <$> hist) /\ nm <> [].
Proof.
  intros Hn E ->. unfold add_field in E. destruct (_ || _ || _ || _) eqn:Ebad; [unfold EC_BAD_FIELD_ID in E; discriminate|].
  split; [lia|]. split.
  - intros Hin. destruct Hn as (_ & Hm & _ & _ & Hh & _ & _).
    apply list_elem_of_fmap in Hin as ([j nj] & Ej & Hj). cbn in Ej. subst j. destruct (Hh id nj Hj) as (H0 & f & Hf & Hname & _).
    unfold field_at in Ebad. rewrite (proj2 (Z.leb_le 0 id)), Hf, Hname in Ebad by lia. lia.
  - intros ->. destruct (size <=? 0); [unfold EC_BAD_FIELD_SIZE in E; discriminate|]. destruct (type_default type size) as [e|v] eqn:Et; [|cbn in E; unfold EC_BAD_FIELD_NAME in E; discriminate].
    injection E as -> _. unfold type_default in Et. repeat case_match; simplify_eq.
Qed.

(** Fields added one after the other; [hist] collects those that were taken,
    the latest first. *)
Fixpoint add_fields (fs : list (Z * list Z * Z * Z)) (hist : list (Z * list Z)) (t : DTCTableDefinition) : option (list (Z * list Z) * DTCTableDefinition) :=
  match fs with
  | [] => Some (hist, t)
  | (i, nm, ty, sz) :: fs => '(r, t) ← add_field i nm ty sz t; add_fields fs (if r =? 0 then (i, nm) :: hist else hist) t
  end.

Lemma add_fields_named fs : forall hist t raw, named hist (names t) -> rawFields (side t) = Some raw ->
  exists hist' t', add_fields fs hist t = Some (hist', t') /\ named hist' (names t').
Proof.
  induction fs as [|[[[i nm] ty] sz] fs IH]; intros hist t raw Hn Hr; cbn [add_fields]; [eauto|].
  destruct (add_field_spec hist t i nm ty sz raw Hn Hr) as (e & t' & -> & (raw' & Hr') & [[-> Hn']|[He Hn']]); cbn [mbind option_bind].
  - exact (IH _ _ _ Hn' Hr').
  - rewrite (proj2 (Z.eqb_neq e 0)) by lia. apply (IH _ _ _ ltac:(rewrite Hn'; exact Hn) Hr').
Qed.

Lemma built_table m fs : 1 <= m <= 256 -> exists hist t, add_fields fs [] (new_table m) = Some (hist, t) /\ forall nm, field_id t nm = Some (latest hist nm).
Proof.
  intros Hm. destruct (add_fields_named fs [] (new_table m) (replicate (Z.to_nat m) 0)) as (hist & t & E & Hn).
  - apply named_new. lia.
  - unfold new_table. rewrite (proj2 (Z.ltb_lt 0 m)) by lia. reflexivity.
  - exists hist, t. split; [exact E|]. intros nm. apply field_id_spec, Hn.
Qed.
