(* ===== verification/Fields.v ===== *)
(** * Field values and rows (src/libs/common/field/field.h, field.cc,
    field_api.cc, value.c, algorithm/bitsop.h)

    A request changes a row through a list of operations and selects it through
    a list of conditions; both are a [DTCFieldValue].  The row's values are
    [DTCValue]s; the bytes of a binary value are those behind its pointer.
    Arithmetic that C++ leaves undefined has no result. *)

From Stdlib Require Import SpecFloat.
From S2P Require Import Prelude Codec TableDef.

Definition EC_BAD_FIELD_SIZE_ON_RESOLVE : Z := 2085.

(** ** Field values *)

Record SFieldValue := mkFV { id : Z; oper : Z; type : Z; val : DTCValue }.

(** [fieldValue] holds the first [numFields] entries. *)
Record DTCFieldValue := mkFieldValue { fieldValue : list SFieldValue; maxFields : Z; typeMask0 : Z; typeMask1 : Z }.

Definition numFields (f : DTCFieldValue) : Z := Z.of_nat (length (fieldValue f)).

Definition new_field_value (total : Z) : DTCFieldValue := mkFieldValue [] (Z.max 0 total) 0 0.

Definition Clean (f : DTCFieldValue) : DTCFieldValue := mkFieldValue [] (maxFields f) 0 0.
Definition Realloc (total : Z) (f : DTCFieldValue) : DTCFieldValue := mkFieldValue (fieldValue f) total (typeMask0 f) (typeMask1 f).

Definition add_value (e : SFieldValue) (f : DTCFieldValue) : DTCFieldValue :=
  if numFields f =? maxFields f then f else mkFieldValue (fieldValue f ++ [e]) (maxFields f) (typeMask0 f) (typeMask1 f).

Definition update_type_mask (flag : Z) (f : DTCFieldValue) : DTCFieldValue :=
  mkFieldValue (fieldValue f) (maxFields f) (wrap 8 (Z.lor (typeMask0 f) flag)) (wrap 8 (Z.lor (typeMask1 f) (not32 flag))).

Definition has_type_ro (f : DTCFieldValue) : bool := negb (Z.land (typeMask0 f) FF_READONLY =? 0).
Definition has_type_rw (f : DTCFieldValue) : bool := negb (Z.land (typeMask1 f) FF_READONLY =? 0).

(** ** Doubles *)

(** The double with bits [b], and the bits of a double; what is not a number
    has one representation. *)
Definition double_of (b : Z) : spec_float :=
  let s := Z.testbit b 63 in let e := b / 2 ^ 52 mod 2 ^ 11 in let m := b mod 2 ^ 52 in
  if e =? 2047 then if m =? 0 then S754_infinity s else S754_nan
  else if e =? 0 then match m with Zpos p => S754_finite s p (-1074) | _ => S754_zero s end
  else match 2 ^ 52 + m with Zpos p => S754_finite s p (e - 1075) | _ => S754_nan end.

Definition bits_of (x : spec_float) : Z :=
  let sign (s : bool) := if s then 2 ^ 63 else 0 in
  match x with
  | S754_zero s => sign s
  | S754_infinity s => sign s + INF_bits
  | S754_nan => NAN_bits
  | S754_finite s m e => sign s + (if Zpos m <? 2 ^ 52 then Zpos m else (e + 1075) * 2 ^ 52 + (Zpos m - 2 ^ 52))
  end.

Definition double_add (a b : Z) : Z := bits_of (SFadd 53 1024 (double_of a) (double_of b)).
Definition double_of_int (z : Z) : Z := bits_of (binary_normalize 53 1024 z 0 false).

(** ** Updating a row *)

Definition clamp (lo hi v : Z) : Z := if v <? lo then lo else if hi <? v then hi else v.

Definition TruncateIntValue (v type size : Z) : Z :=
  match size * 2 + type with
  | 3 => clamp (-0x80) 0x7F v
  | 4 => clamp 0 0xFF v
  | 5 => clamp (-0x8000) 0x7FFF v
  | 6 => clamp 0 0xFFFF v
  | 7 => clamp (-0x800000) 0x7FFFFF v
  | 8 => clamp 0 0xFFFFFF v
  | 9 => clamp (-0x80000000) 0x7FFFFFFF v
  | 10 => clamp 0 0xFFFFFFFF v
  | 11 => clamp (-0x8000000000) 0x7FFFFFFFFF v
  | 12 => clamp 0 0xFFFFFFFFFF v
  | 13 => clamp (-0x800000000000) 0x7FFFFFFFFFFF v
  | 14 => clamp 0 0xFFFFFFFFFFFF v
  | 15 => clamp (-0x80000000000000) 0x7FFFFFFFFFFFFF v
  | 16 => clamp 0 0xFFFFFFFFFFFFFF v
  | _ => v
  end.

(** [check_int_value] of field_api.cc. *)
Definition check_int_value (v type size : Z) : Z :=
  let check lo hi := if (v <? lo) || (hi <? v) then - EC_BAD_FIELD_SIZE_ON_RESOLVE else 0 in
  match size * 2 + type with
  | 3 => check (-0x80) 0x7F
  | 4 => check 0 0xFF
  | 5 => check (-0x8000) 0x7FFF
  | 6 => check 0 0xFFFF
  | 7 => check (-0x800000) 0x7FFFFF
  | 8 => check 0 0xFFFFFF
  | 9 => check (-0x80000000) 0x7FFFFFFF
  | 10 => check 0 0xFFFFFFFF
  | 11 => check (-0x8000000000) 0x7FFFFFFFFF
  | 12 => check 0 0xFFFFFFFFFF
  | 13 => check (-0x800000000000) 0x7FFFFFFFFFFF
  | 14 => check 0 0xFFFFFFFFFFFF
  | 15 => check (-0x80000000000000) 0x7FFFFFFFFFFFFF
  | 16 => check 0 0xFFFFFFFFFFFFFF
  | _ => 0
  end.

(** [v1.s64 += v2.s64] with the tests behind it; a signed overflow has no
    result. *)
Definition add_s64 (v1 v2 : Z) : option Z :=
  let sum := v1 + v2 in
  if (sum <? - 2 ^ 63) || (2 ^ 63 <=? sum) then None
  else if 0 <? v1 then Some (if (0 <? v2) && (sum <? 0) then 0x7FFFFFFFFFFFFFFF else sum)
  else Some (if (v2 <? 0) && (0 <? sum) then - 0x8000000000000000 else sum).

(** [SET_B], [CLR_B], [ISSET_B] and [COPY_B] on the bytes at an address. *)
Definition set_b (bit : Z) (addr : list Z) : list Z := alter (fun b => wrap 8 (Z.lor b (Z.shiftl 1 (bit mod 8)))) (Z.to_nat (bit / 8)) addr.
Definition clr_b (bit : Z) (addr : list Z) : list Z := alter (fun b => wrap 8 (Z.land b (Z.lnot (Z.shiftl 1 (bit mod 8))))) (Z.to_nat (bit / 8)) addr.
Definition isset_b (bit : Z) (addr : list Z) : bool := negb (Z.land (default 0 (addr !! Z.to_nat (bit / 8))) (Z.shiftl 1 (bit mod 8)) =? 0).

(** The loop of the [SetBits] operation on a binary value. *)
Fixpoint put_bits (n : nat) (off value : Z) (bs : list Z) : list Z :=
  match n with
  | O => bs
  | S n => put_bits n (off + 1) (Z.shiftr value 1) (if Z.land value 1 =? 0 then clr_b off bs else set_b off bs)
  end.

Definition setbits_int (v1 v2 : Z) : Z :=
  let u := u64_of v2 in
  let off := wrap 32 (Z.shiftr u 32) in
  let size := Z.shiftr off 24 in
  let off := Z.land off 0xFFFFFF in
  let value := Z.land u 0xFFFFFFFF in
  if (64 <=? off) || (size =? 0) then v1 else
  let size := if 32 <? size then 32 else size in
  let size := if 64 - off <? size then 64 - off else size in
  let mask := wrap 64 (Z.shiftl (wrap 64 (Z.shiftl 1 size - 1)) off) in
  s64_of (Z.lor (Z.land (u64_of v1) (2 ^ 64 - 1 - mask)) (Z.land (wrap 64 (Z.shiftl value off)) mask)).

Definition setbits_bin (bs : list Z) (v2 : Z) : list Z :=
  let len := Z.of_nat (length bs) in
  let u := u64_of v2 in
  let off := sext 32 (wrap 32 (Z.shiftr u 32)) in
  let size := Z.shiftr off 24 in
  let off := Z.land off 0xFFFFFF in
  let value := Z.land u 0xFFFFFFFF in
  if (8 * len <=? off) || (size =? 0) then bs else
  let size := if 32 <? size then 32 else size in
  let size := if 8 * len - off <? size then 8 * len - off else size in
  put_bits (Z.to_nat size) off value bs.

(** The value copied from [v2.str], cut to the size of the field. *)
Definition cut_str (b : option (list Z)) (size : Z) : option (list Z) :=
  match b with Some s => Some (if size <? Z.of_nat (length s) then take (Z.to_nat size) s else s) | None => None end.

(** The switch of [Update]: field type [ft] and size, value type [vt],
    operation [op], old value and operand. *)
Definition update_value (ft size vt op : Z) (v1 v2 : DTCValue) : option DTCValue :=
  let int_field := (ft =? DField.Signed) || (ft =? DField.Unsigned) in
  let str_field := (ft =? DField.String) || (ft =? DField.Binary) in
  let int_value := (vt =? DField.Signed) || (vt =? DField.Unsigned) in
  if op =? DField.Set_ then
    if (vt =? DField.Signed) && int_field || (vt =? DField.Unsigned) && (ft =? DField.Unsigned) then
      b ← get_s64 v2; Some (VInt (TruncateIntValue b ft size))
    else if (ft =? DField.Float) && (vt =? DField.Signed) then b ← get_s64 v2; Some (VFlt (double_of_int b))
    else if (ft =? DField.Float) && (vt =? DField.Unsigned) then b ← get_s64 v2; Some (VFlt (double_of_int (u64_of b)))
    else if (ft =? DField.Float) && (vt =? DField.Float) then b ← get_flt v2; Some (VFlt b)
    else if str_field && (vt =? DField.String) || (ft =? DField.Binary) && (vt =? DField.Binary) then
      b ← get_bin v2; Some (VBin (cut_str b size))
    else Some v1
  else if op =? DField.Add then
    if int_field && (vt =? DField.Signed) then
      a ← get_s64 v1; b ← get_s64 v2; s ← add_s64 a b; Some (VInt (TruncateIntValue s ft size))
    else if (ft =? DField.Float) && (vt =? DField.Signed) then a ← get_flt v1; b ← get_s64 v2; Some (VFlt (double_add a (double_of_int b)))
    else if (ft =? DField.Float) && (vt =? DField.Unsigned) then a ← get_flt v1; b ← get_s64 v2; Some (VFlt (double_add a (double_of_int (u64_of b))))
    else if (ft =? DField.Float) && (vt =? DField.Float) then a ← get_flt v1; b ← get_flt v2; Some (VFlt (double_add a b))
    else Some v1
  else if op =? DField.OR then
    if int_field && (vt =? DField.Signed) then a ← get_s64 v1; b ← get_s64 v2; Some (VInt (TruncateIntValue (Z.lor a b) ft size))
    else Some v1
  else if op =? DField.SetBits then
    if int_field && int_value then a ← get_s64 v1; b ← get_s64 v2; Some (VInt (setbits_int a b))
    else if str_field && int_value then
      a ← get_bin v1; b ← get_s64 v2;
      match a with Some bs => Some (VBin (Some (setbits_bin bs b))) | None => Some v1 end
    else Some v1
  else Some v1.

Definition RowValue : Type := list DTCValue.

(** [DTCFieldValue::Update] *)
Definition update_one (t : DTCTableDefinition) (r : RowValue) (e : SFieldValue) : option RowValue :=
  f ← field_at t (id e);
  v1 ← r !! Z.to_nat (id e);
  v ← update_value (field_type f) (fieldSize f) (type e) (oper e) v1 (val e);
  Some (<[Z.to_nat (id e) := v]> r).

Fixpoint update_all (t : DTCTableDefinition) (es : list SFieldValue) (r : RowValue) : option RowValue :=
  match es with [] => Some r | e :: es => r ← update_one t r e; update_all t es r end.

Definition Update (t : DTCTableDefinition) (f : DTCFieldValue) (r : RowValue) : option RowValue := update_all t (fieldValue f) r.

(** ** Comparing *)

Definition internal_tolower_table_ : list Z :=
  [
   0x00; 0x01; 0x02; 0x03; 0x04; 0x05; 0x06; 0x07; 0x08; 0x09; 0x0A; 0x0B; 0x0C; 0x0D; 0x0E; 0x0F;
   0x10; 0x11; 0x12; 0x13; 0x14; 0x15; 0x16; 0x17; 0x18; 0x19; 0x1A; 0x1B; 0x1C; 0x1D; 0x1E; 0x1F;
   0x20; 0x21; 0x22; 0x23; 0x24; 0x25; 0x26; 0x27; 0x28; 0x29; 0x2A; 0x2B; 0x2C; 0x2D; 0x2E; 0x2F;
   0x30; 0x31; 0x32; 0x33; 0x34; 0x35; 0x36; 0x37; 0x38; 0x39; 0x3A; 0x3B; 0x3C; 0x3D; 0x3E; 0x3F;
   0x40; 0x61; 0x62; 0x63; 0x64; 0x65; 0x66; 0x67; 0x68; 0x69; 0x6A; 0x6B; 0x6C; 0x6D; 0x6E; 0x6F;
   0x70; 0x71; 0x72; 0x73; 0x74; 0x75; 0x76; 0x77; 0x78; 0x79; 0x7A; 0x5B; 0x5C; 0x5D; 0x5E; 0x5F;
   0x60; 0x61; 0x62; 0x63; 0x64; 0x65; 0x66; 0x67; 0x68; 0x69; 0x6A; 0x6B; 0x6C; 0x6D; 0x6E; 0x6F;
   0x70; 0x71; 0x72; 0x73; 0x74; 0x75; 0x76; 0x77; 0x78; 0x79; 0x7A; 0x7B; 0x7C; 0x7D; 0x7E; 0x7F;
   0x80; 0x81; 0x82; 0x83; 0x84; 0x85; 0x86; 0x87; 0x88; 0x89; 0x8A; 0x8B; 0x8C; 0x8D; 0x8E; 0x8F;
   0x90; 0x91; 0x92; 0x93; 0x94; 0x95; 0x96; 0x97; 0x98; 0x99; 0x9A; 0x9B; 0x9C; 0x9D; 0x9E; 0x9F;
   0xA0; 0xA1; 0xA2; 0xA3; 0xA4; 0xA5; 0xA6; 0xA7; 0xA8; 0xA9; 0xAA; 0xAB; 0xAC; 0xAD; 0xAE; 0xAF;
   0xB0; 0xB1; 0xB2; 0xB3; 0xB4; 0xB5; 0xB6; 0xB7; 0xB8; 0xB9; 0xBA; 0xBB; 0xBC; 0xBD; 0xBE; 0xBF;
   0xC0; 0xC1; 0xC2; 0xC3; 0xC4; 0xC5; 0xC6; 0xC7; 0xC8; 0xC9; 0xCA; 0xCB; 0xCC; 0xCD; 0xCE; 0xCF;
   0xD0; 0xD1; 0xD2; 0xD3; 0xD4; 0xD5; 0xD6; 0xD7; 0xD8; 0xD9; 0xDA; 0xDB; 0xDC; 0xDD; 0xDE; 0xDF;
   0xE0; 0xE1; 0xE2; 0xE3; 0xE4; 0xE5; 0xE6; 0xE7; 0xE8; 0xE9; 0xEA; 0xEB; 0xEC; 0xED; 0xEE; 0xEF;
   0xF0; 0xF1; 0xF2; 0xF3; 0xF4; 0xF5; 0xF6; 0xF7; 0xF8; 0xF9; 0xFA; 0xFB; 0xFC; 0xFD; 0xFE; 0xFF].

Definition TOLOWER (x : Z) : Z := default 0 (internal_tolower_table_ !! Z.to_nat x).

(** [mystrcmp], on the bytes from both pointers on; [l] counts down. *)
Fixpoint mystrcmp_loop (l : nat) (s1 s2 : list Z) (result : Z) : option Z :=
  match l with
  | O => Some result
  | S l =>
      match s1, s2 with
      | c1 :: s1, c2 :: s2 =>
          let result := TOLOWER c1 - TOLOWER c2 in
          if negb (result =? 0) then Some result else if c1 =? 0 then Some result else mystrcmp_loop l s1 s2 result
      | _, _ => None
      end
  end.

Definition string_equal (a b : option (list Z)) : option bool :=
  let s1 := default [] a in let s2 := default [] b in
  if Nat.eqb (length s1) (length s2) then r ← mystrcmp_loop (length s1) s1 s2 0; Some (r =? 0) else Some false.

Definition binary_equal (a b : option (list Z)) : bool := bool_decide (default [] a = default [] b).

(** The switch of [Compare]: does the condition hold? *)
Definition compare_value (ft vt op : Z) (v1 v2 : DTCValue) : option bool :=
  if ((ft =? DField.Signed) || (ft =? DField.Unsigned)) && (vt =? DField.Signed) then
    a ← get_s64 v1; b ← get_s64 v2;
    Some (if op =? DField.EQ then a =? b else if op =? DField.NE then negb (a =? b)
          else if op =? DField.LT then a <? b else if op =? DField.LE then a <=? b
          else if op =? DField.GT then b <? a else if op =? DField.GE then b <=? a else false)
  else if (ft =? DField.String) && (vt =? DField.String) then
    if op =? DField.EQ then a ← get_bin v1; b ← get_bin v2; string_equal a b
    else if op =? DField.NE then a ← get_bin v1; b ← get_bin v2; e ← string_equal a b; Some (negb e)
    else Some false
  else if ((ft =? DField.String) || (ft =? DField.Binary)) && ((vt =? DField.String) || (vt =? DField.Binary)) then
    if op =? DField.EQ then a ← get_bin v1; b ← get_bin v2; Some (binary_equal a b)
    else if op =? DField.NE then a ← get_bin v1; b ← get_bin v2; Some (negb (binary_equal a b))
    else Some false
  else Some false.

(** [DTCFieldValue::Compare] *)
Fixpoint compare_all (t : DTCTableDefinition) (r : RowValue) (first : Z) (es : list SFieldValue) : option bool :=
  match es with
  | [] => Some true
  | e :: es =>
      if (id e <? key_fields t) || (first - 1 <? id e) then compare_all t r first es
      else
        f ← field_at t (id e);
        v1 ← r !! Z.to_nat (id e);
        b ← compare_value (field_type f) (type e) (oper e) v1 (val e);
        if (b : bool) then compare_all t r first es else Some false
  end.

Definition Compare (t : DTCTableDefinition) (f : DTCFieldValue) (r : RowValue) (iCmpFirstNRows : Z) : option bool :=
  compare_all t r iCmpFirstNRows (fieldValue f).

(** [RowValue::Compare] *)
Fixpoint row_compare (t : DTCTableDefinition) (r1 r2 : RowValue) (ids : list Z) : option Z :=
  match ids with
  | [] => Some 0
  | i :: ids =>
      f ← field_at t i;
      v1 ← r1 !! Z.to_nat i; v2 ← r2 !! Z.to_nat i;
      if (field_type f =? DField.Signed) || (field_type f =? DField.Unsigned) then
        a ← get_s64 v1; b ← get_s64 v2; if negb (u64_of a =? u64_of b) then Some (-1) else row_compare t r1 r2 ids
      else if field_type f =? DField.Float then Some (-2)
      else if field_type f =? DField.String then
        a ← get_bin v1; b ← get_bin v2; e ← string_equal a b; if negb e then Some (-1) else row_compare t r1 r2 ids
      else if field_type f =? DField.Binary then
        a ← get_bin v1; b ← get_bin v2; if negb (binary_equal a b) then Some (-1) else row_compare t r1 r2 ids
      else Some (-3)
  end.

(** [RowValue::update_timestamp] *)
Definition stamp (now fid : Z) (r : RowValue) : RowValue := if 0 <? fid then <[Z.to_nat fid := VInt now]> r else r.
Definition update_timestamp (t : DTCTableDefinition) (now : Z) (updateall : bool) (r : RowValue) : RowValue :=
  let r := stamp now (hasLastacc (marks t)) r in
  let r := stamp now (hasLastmod (marks t)) r in
  if updateall then stamp now (hasLastcmod (marks t)) r else r.

(** [RowValue::update_expire_time] at time [now]. *)
Definition update_expire_time (t : DTCTableDefinition) (now : Z) (r : RowValue) : option RowValue :=
  let fid := hasExpireTime (marks t) in
  if 0 <? fid then
    v ← r !! Z.to_nat fid; s ← get_s64 v;
    Some (if 0 <? s then <[Z.to_nat fid := VInt (s - now)]> r else r)
  else Some r.

(** [RowValue::Copy]: the fields the source has under the same names. *)
Fixpoint copy_fields (t ts : DTCTableDefinition) (n : nat) (i : Z) (r src : RowValue) : option RowValue :=
  match n with
  | O => Some r
  | S n =>
      f ← field_at t (i + 1); nm ← fieldName f; j ← field_id ts nm;
      if j =? -1 then copy_fields t ts n (i + 1) r src
      else v ← src !! Z.to_nat j; copy_fields t ts n (i + 1) (<[Z.to_nat (i + 1) := v]> r) src
  end.

Definition Copy (t ts : DTCTableDefinition) (r src : RowValue) : option RowValue := copy_fields t ts (Z.to_nat (num_fields t)) 0 r src.
