(* ===== verification/FieldsSpec.v ===== *)
(** * What updates and comparisons do

    An integer operation saturates at the bounds of a field below eight bytes; [SetBits] sets
    the bits it names and no other, in an integer as in a string of bytes.
    Strings are compared without regard to the case of their letters. *)

From S2P Require Import Prelude Codec CodecSpec TableDef Fields.

(** ** Bounds of integer fields *)

Definition field_lo (type size : Z) : Z := if type =? DField.Signed then - 2 ^ (8 * size - 1) else 0.
Definition field_hi (type size : Z) : Z := if type =? DField.Signed then 2 ^ (8 * size - 1) - 1 else 2 ^ (8 * size) - 1.

Definition is_int (type : Z) : Prop := type = DField.Signed \/ type = DField.Unsigned.

(** Sizes below eight bytes: the nearest value of the field. *)
Lemma truncate_clamp v type size : is_int type -> 1 <= size <= 7 -> TruncateIntValue v type size = clamp (field_lo type size) (field_hi type size) v.
Proof.
  intros Ht Hs. assert (size = 1 \/ size = 2 \/ size = 3 \/ size = 4 \/ size = 5 \/ size = 6 \/ size = 7) as Hc by lia.
  destruct Ht as [->| ->]; destruct Hc as [->|[->|[->|[->|[->|[->| ->]]]]]]; reflexivity.
Qed.

Lemma truncate_wide v type size : is_int type -> 8 <= size -> TruncateIntValue v type size = v.
Proof.
  intros Ht Hs. unfold TruncateIntValue. assert (Hk : 17 <= size * 2 + type) by (destruct Ht as [->| ->]; unfold DField.Signed, DField.Unsigned; lia).
  repeat (case_match; try lia); reflexivity.
Qed.

Lemma clamp_range lo hi v : lo <= hi -> lo <= clamp lo hi v <= hi /\ (lo <= v <= hi -> clamp lo hi v = v) /\ (v < lo -> clamp lo hi v = lo) /\ (hi < v -> clamp lo hi v = hi).
Proof. unfold clamp. intros. zcase; lia. Qed.

Lemma field_bounds type size : is_int type -> 1 <= size -> field_lo type size <= field_hi type size.
Proof.
  intros Ht Hs. unfold field_lo, field_hi. pose proof (Z.pow_pos_nonneg 2 (8 * size - 1)). pose proof (Z.pow_pos_nonneg 2 (8 * size)).
  destruct Ht as [->| ->]; cbn [Z.eqb Pos.eqb DField.Signed DField.Unsigned]; lia.
Qed.

(** The client's check accepts exactly the values the server does not change. *)
Lemma check_clamp lo hi v : lo <= hi -> (if (v <? lo) || (hi <? v) then - EC_BAD_FIELD_SIZE_ON_RESOLVE else 0) = 0 <-> clamp lo hi v = v.
Proof. intros Hl. unfold clamp, EC_BAD_FIELD_SIZE_ON_RESOLVE. zcase; cbn [orb]; lia. Qed.

Lemma check_int_value_spec v type size : check_int_value v type size = 0 <-> TruncateIntValue v type size = v.
Proof.
  unfold check_int_value, TruncateIntValue. cbv zeta. generalize (size * 2 + type). intros [|p|p]; [split; reflexivity| |split; reflexivity].
  do 5 try (destruct p as [p|p|]; try (split; reflexivity)); apply check_clamp; lia.
Qed.

(** ** Addition *)

Lemma add_s64_spec v1 v2 : is_s64 v1 -> is_s64 v2 -> add_s64 v1 v2 = if decide (is_s64 (v1 + v2)) then Some (v1 + v2) else None.
Proof.
  unfold is_s64, add_s64. intros H1 H2. destruct (decide _) as [Hd|Hd].
  - replace (_ || _) with false by lia. destruct (0 <? v1) eqn:E; f_equal; [replace (_ && _) with false by lia|replace (_ && _) with false by lia]; reflexivity.
  - replace (_ || _) with true by lia. reflexivity.
Qed.

(** ** Bits *)

(** Bit [i] of a string of bytes. *)
Definition bit_of (bs : list Z) (i : Z) : bool := Z.testbit (default 0 (bs !! Z.to_nat (i / 8))) (i mod 8).

Lemma isset_bit bs i : 0 <= i -> isset_b i bs = bit_of bs i.
Proof.
  intros Hi. unfold isset_b, bit_of. set (b := default 0 _). rewrite Z.shiftl_1_l. pose proof (Z.mod_pos_bound i 8 ltac:(lia)).
  destruct (Z.testbit b (i mod 8)) eqn:E.
  - apply negb_true_iff, Z.eqb_neq. intros E0. assert (Hb : Z.testbit (Z.land b (2 ^ (i mod 8))) (i mod 8) = false) by (rewrite E0; apply Z.bits_0).
    rewrite Z.land_spec, E, Z.pow2_bits_true in Hb by lia. discriminate.
  - apply negb_false_iff, Z.eqb_eq. apply Z.bits_inj'. intros j Hj. rewrite Z.land_spec, Z.bits_0, Z.pow2_bits_eqb by lia.
    destruct (Z.eqb_spec (i mod 8) j) as [<-|]; [rewrite E; reflexivity|apply andb_false_r].
Qed.

(** An operation on one bit. *)
Lemma alter_bit (g : Z -> Z) (w : bool) bs i j :
  (forall b k, is_byte b -> 0 <= k < 8 -> Z.testbit (g b) k = if k =? i mod 8 then w else Z.testbit b k) ->
  Forall is_byte bs -> 0 <= i < 8 * Z.of_nat (length bs) -> 0 <= j ->
  bit_of (alter g (Z.to_nat (i / 8)) bs) j = if j =? i then w else bit_of bs j.
Proof.
  intros Hg Hb Hi Hj. unfold bit_of. destruct (decide (j / 8 = i / 8)) as [E|E].
  - rewrite E, list_lookup_alter_eq. destruct (lookup_lt_is_Some_2 bs (Z.to_nat (i / 8))) as [b Eb]; [zdm|]. rewrite Eb. cbn.
    rewrite Hg; [|apply (Forall_lookup_1 _ _ _ _ Hb Eb)|apply Z.mod_pos_bound; lia].
    destruct (Z.eqb_spec (j mod 8) (i mod 8)), (Z.eqb_spec j i); try reflexivity; exfalso; zdm.
  - rewrite list_lookup_alter_ne by zdm. destruct (Z.eqb_spec j i); [congruence|reflexivity].
Qed.

Lemma set_b_bit bs i j : Forall is_byte bs -> 0 <= i < 8 * Z.of_nat (length bs) -> 0 <= j -> bit_of (set_b i bs) j = if j =? i then true else bit_of bs j.
Proof.
  intros Hb Hi Hj. apply alter_bit; try assumption. intros b k _ Hk. pose proof (Z.mod_pos_bound i 8 ltac:(lia)).
  rewrite testbit_wrap, Z.lor_spec, Z.shiftl_1_l, Z.pow2_bits_eqb by lia. replace (k <? 8) with true by lia.
  destruct (Z.eqb_spec (i mod 8) k), (Z.eqb_spec k (i mod 8)); first [lia | apply orb_true_r | apply orb_false_r].
Qed.

Lemma clr_b_bit bs i j : Forall is_byte bs -> 0 <= i < 8 * Z.of_nat (length bs) -> 0 <= j -> bit_of (clr_b i bs) j = if j =? i then false else bit_of bs j.
Proof.
  intros Hb Hi Hj. apply alter_bit; try assumption. intros b k _ Hk. pose proof (Z.mod_pos_bound i 8 ltac:(lia)).
  rewrite testbit_wrap, Z.land_spec, Z.lnot_spec, Z.shiftl_1_l, Z.pow2_bits_eqb by lia. replace (k <? 8) with true by lia.
  destruct (Z.eqb_spec (i mod 8) k), (Z.eqb_spec k (i mod 8)); first [lia | apply andb_false_r | apply andb_true_r].
Qed.

Lemma alter_bytes (g : Z -> Z) k bs : (forall b, is_byte b -> is_byte (g b)) -> Forall is_byte bs -> Forall is_byte (alter g k bs).
Proof. intros Hg Hb. apply Forall_alter; [exact Hb|]. intros b Eb _. apply Hg, (Forall_lookup_1 _ _ _ _ Hb Eb). Qed.

Lemma wrap8_byte x : is_byte (wrap 8 x).
Proof. apply (wrap_range 8). lia. Qed.

(** The loop of [SetBits] writes the low bits of [value] from [off] on. *)
Lemma put_bits_spec n : forall off value bs, Forall is_byte bs -> 0 <= off -> off + Z.of_nat n <= 8 * Z.of_nat (length bs) ->
  length (put_bits n off value bs) = length bs /\ Forall is_byte (put_bits n off value bs) /\
  forall j, 0 <= j -> bit_of (put_bits n off value bs) j = if (off <=? j) && (j <? off + Z.of_nat n) then Z.testbit value (j - off) else bit_of bs j.
Proof.
  induction n as [|n IH]; intros off value bs Hb Ho Hl; cbn [put_bits].
  { split_and!; [reflexivity|exact Hb|]. intros j Hj. change (Z.of_nat 0) with 0. replace (_ && _) with false by lia. reflexivity. }
  replace (Z.of_nat (S n)) with (Z.of_nat n + 1) in Hl |- * by lia.
  set (bs' := if Z.land value 1 =? 0 then clr_b off bs else set_b off bs).
  assert (Hb' : Forall is_byte bs') by (unfold bs', clr_b, set_b; case_match; apply alter_bytes; auto using wrap8_byte).
  assert (Hl' : length bs' = length bs) by (unfold bs', clr_b, set_b; case_match; apply length_alter).
  assert (Hbit : forall j, 0 <= j -> bit_of bs' j = if j =? off then Z.testbit value 0 else bit_of bs j).
  { intros j Hj. assert (Ev : Z.land value 1 = if Z.testbit value 0 then 1 else 0).
    { change 1 with (Z.ones 1) at 1. rewrite Z.land_ones, <- Z.bit0_mod by lia. by destruct (Z.testbit value 0). }
    unfold bs'. rewrite Ev. destruct (Z.testbit value 0); cbn [Z.eqb]; [apply set_b_bit|apply clr_b_bit]; assumption || lia. }
  destruct (IH (off + 1) (Z.shiftr value 1) bs' Hb' ltac:(lia) ltac:(lia)) as (I1 & I2 & I3). split_and!; [lia|exact I2|].
  intros j Hj. rewrite I3, Hbit by lia. destruct (Z.eqb_spec j off) as [->|].
  - replace ((off + 1 <=? off) && _) with false by lia. replace (_ && _) with true by lia. f_equal. lia.
  - destruct ((off + 1 <=? j) && (j <? off + 1 + Z.of_nat n)) eqn:E1.
    + replace (_ && _) with true by lia. rewrite Z.shiftr_spec by lia. f_equal. lia.
    + replace (_ && _) with false by lia. reflexivity.
Qed.

(** The operand of [SetBits]: offset, number of bits and bits. *)
Definition bits_off (v : Z) : Z := u64_of v / 2 ^ 32 mod 2 ^ 24.
Definition bits_size (v : Z) : Z := u64_of v / 2 ^ 56.
Definition bits_value (v : Z) : Z := u64_of v mod 2 ^ 32.

(** Does the operation on [len] bytes write bit [j]? *)
Definition bits_hit (v len j : Z) : bool := (bits_off v <=? j) && (j <? bits_off v + Z.min 32 (bits_size v)) && (j <? 8 * len).

Lemma u64_of_range v : 0 <= u64_of v < 2 ^ 64.
Proof. apply (wrap_range 64). lia. Qed.

Lemma land_mask v k m : 0 <= k -> m = Z.ones k -> Z.land v m = v mod 2 ^ k.
Proof. intros Hk ->. apply Z.land_ones, Hk. Qed.

(** The parts of the operand as both routines compute them. *)
Lemma bits_parts v : let off := wrap 32 (Z.shiftr (u64_of v) 32) in
  off = u64_of v / 2 ^ 32 /\ Z.shiftr off 24 = bits_size v /\ Z.land off 0xFFFFFF = bits_off v /\ Z.land (u64_of v) 0xFFFFFFFF = bits_value v.
Proof.
  cbv zeta. pose proof (u64_of_range v) as Hu. unfold bits_size, bits_off, bits_value.
  rewrite (land_mask _ 24), (land_mask _ 32) by (lia || reflexivity). rewrite ! shiftr8 by lia.
  rewrite wrap_small by (unfold in_width; zdm). rewrite Z.div_div by lia. split_and!; reflexivity.
Qed.

Lemma not64_bits m j : 0 <= m < 2 ^ 64 -> 0 <= j < 64 -> Z.testbit (2 ^ 64 - 1 - m) j = negb (Z.testbit m j).
Proof.
  intros Hm Hj. change (2 ^ 64 - 1) with (Z.ones 64). rewrite Z.sub_nocarry_ldiff.
  - rewrite Z.ldiff_spec, Z.ones_spec_low by lia. reflexivity.
  - apply Z.bits_inj'. intros i Hi. rewrite Z.ldiff_spec, Z.bits_0. destruct (Z.ltb_spec i 64).
    + rewrite Z.ones_spec_low by lia. apply andb_false_r.
    + destruct (proj1 (in_width_bits 64 m ltac:(lia)) Hm) as [_ Hh]. rewrite Hh by lia. reflexivity.
Qed.

Lemma mask_bits size off j : 0 <= size <= 32 -> 0 <= off -> 0 <= j < 64 ->
  Z.testbit (wrap 64 (Z.shiftl (wrap 64 (Z.shiftl 1 size - 1)) off)) j = (off <=? j) && (j <? off + size).
Proof.
  intros Hs Ho Hj. replace (Z.shiftl 1 size - 1) with (Z.ones size) by (rewrite Z.shiftl_1_l, Z.ones_equiv; lia).
  rewrite (wrap_small 64 (Z.ones size)) by (unfold in_width; rewrite Z.ones_equiv; pose proof (Z.pow_le_mono_r 2 size 32); pose proof (Z.pow_pos_nonneg 2 size); lia).
  rewrite testbit_wrap by lia. replace (j <? 64) with true by lia. cbn [andb]. rewrite ? andb_true_r. destruct (Z.leb_spec off j).
  - rewrite Z.shiftl_spec by lia. rewrite Z.testbit_ones by lia. destruct (Z.ltb_spec j (off + size)); lia.
  - rewrite Z.shiftl_spec_low by lia. reflexivity.
Qed.

Lemma u64_s64 x : u64_of (s64_of x) = wrap 64 x.
Proof. unfold u64_of, s64_of, sext, wrap. zcase; zdm. Qed.

Lemma s64_of_range x : is_s64 (s64_of x).
Proof. unfold is_s64, s64_of, sext, wrap. zcase; zdm. Qed.

Lemma setbits_int_spec v1 v2 j : 0 <= j < 64 ->
  Z.testbit (u64_of (setbits_int v1 v2)) j = if bits_hit v2 8 j then Z.testbit (bits_value v2) (j - bits_off v2) else Z.testbit (u64_of v1) j.
Proof.
  intros Hj. destruct (bits_parts v2) as (Eo & Es & Ef & Ev). pose proof (u64_of_range v2) as Hu. unfold setbits_int, bits_hit.
  rewrite Es, Ef, Ev. clear Eo Es Ef Ev. set (off := bits_off v2). set (sz := bits_size v2). set (vl := bits_value v2).
  assert (0 <= off < 2 ^ 24) by (unfold off, bits_off; apply Z.mod_pos_bound; lia). assert (0 <= sz < 256) by (unfold sz, bits_size; zdm).
  destruct ((64 <=? off) || (sz =? 0)) eqn:E; [replace (_ && _ && _) with false by lia; reflexivity|].
  set (n := if 64 - off <? _ then _ else _). assert (Hn : n = Z.min (Z.min 32 sz) (64 - off)) by (unfold n; destruct (Z.ltb_spec 32 sz); zcase; lia). clearbody n.
  rewrite u64_s64, testbit_wrap, Z.lor_spec, ! Z.land_spec by lia.
  rewrite not64_bits by (lia || apply (wrap_range 64); lia). rewrite mask_bits by lia. rewrite (testbit_wrap 64 (Z.shiftl vl off)) by lia.
  replace (j <? 64) with true by lia. rewrite ? andb_true_l, ? andb_true_r.
  replace ((off <=? j) && (j <? off + Z.min 32 sz) && (j <? 8 * 8)) with ((off <=? j) && (j <? off + n)) by lia.
  destruct ((off <=? j) && (j <? off + n)) eqn:Eh.
  - cbn [negb]. rewrite andb_false_r, andb_true_r, Z.shiftl_spec by lia. reflexivity.
  - cbn [negb]. rewrite andb_true_r, andb_false_r. apply orb_false_r.
Qed.

Lemma setbits_bin_spec bs v2 j : Forall is_byte bs -> Z.of_nat (length bs) < 2 ^ 24 -> bits_size v2 < 128 -> 0 <= j ->
  bit_of (setbits_bin bs v2) j = if bits_hit v2 (Z.of_nat (length bs)) j then Z.testbit (bits_value v2) (j - bits_off v2) else bit_of bs j.
Proof.
  intros Hb Hl Hs Hj. destruct (bits_parts v2) as (Eo & Es & Ef & Ev). pose proof (u64_of_range v2) as Hu. unfold setbits_bin, bits_hit.
  assert (E31 : sext 32 (wrap 32 (Z.shiftr (u64_of v2) 32)) = wrap 32 (Z.shiftr (u64_of v2) 32)).
  { rewrite Eo. unfold bits_size in Hs. unfold sext. zcase; [reflexivity|zdm]. }
  rewrite E31, Es, Ef, Ev. clear E31 Eo Es Ef Ev. set (off := bits_off v2). set (sz := bits_size v2) in *. set (vl := bits_value v2).
  set (l := Z.of_nat (length bs)) in *.
  assert (0 <= off < 2 ^ 24) by (unfold off, bits_off; apply Z.mod_pos_bound; lia). assert (0 <= sz) by (unfold sz, bits_size; zdm).
  destruct ((8 * l <=? off) || (sz =? 0)) eqn:E; [replace (_ && _ && _) with false by lia; reflexivity|].
  set (n := if 8 * l - off <? _ then _ else _). assert (Hn : n = Z.min (Z.min 32 sz) (8 * l - off)) by (unfold n; destruct (Z.ltb_spec 32 sz); zcase; lia). clearbody n.
  destruct (put_bits_spec (Z.to_nat n) off vl bs Hb ltac:(lia) ltac:(lia)) as (_ & _ & ->); [|lia]. rewrite Z2Nat.id by lia.
  replace ((off <=? j) && (j <? off + Z.min 32 sz) && (j <? 8 * l)) with ((off <=? j) && (j <? off + n)) by lia. reflexivity.
Qed.

(** The bytes of an integer in memory, the lowest first. *)
Definition le8 (v : Z) : list Z := s64_byte v <$> [0; 1; 2; 3; 4; 5; 6; 7].

Lemma le8_bit v j : 0 <= j < 64 -> bit_of (le8 v) j = Z.testbit (u64_of v) j.
Proof.
  intros Hj. unfold bit_of. assert (E : le8 v !! Z.to_nat (j / 8) = Some (s64_byte v (j / 8))).
  { unfold le8. rewrite list_lookup_fmap. assert (j / 8 = 0 \/ j / 8 = 1 \/ j / 8 = 2 \/ j / 8 = 3 \/ j / 8 = 4 \/ j / 8 = 5 \/ j / 8 = 6 \/ j / 8 = 7) as Hc by zdm.
    destruct Hc as [->|[->|[->|[->|[->|[->|[->| ->]]]]]]]; reflexivity. }
  rewrite E. cbn [default]. unfold s64_byte, u64_of. pose proof (Z.mod_pos_bound j 8 ltac:(lia)).
  unfold Datatypes.id. rewrite (testbit_wrap 8), (testbit_wrap 64) by lia. rewrite Z.shiftr_spec by lia. replace (j mod 8 <? 8) with true by lia. replace (j <? 64) with true by lia.
  f_equal. f_equal. zdm.
Qed.

Lemma le8_bytes v : Forall is_byte (le8 v) /\ length (le8 v) = 8%nat.
Proof. split; [|reflexivity]. unfold le8. apply Forall_fmap, Forall_forall. intros k _. apply wrap8_byte. Qed.

(** Bytes are determined by their bits. *)
Lemma bits_eq as_ bs : Forall is_byte as_ -> Forall is_byte bs -> length as_ = length bs ->
  (forall j, 0 <= j < 8 * Z.of_nat (length bs) -> bit_of as_ j = bit_of bs j) -> as_ = bs.
Proof.
  intros Ha Hb Hl He. apply list_eq_same_length with (length bs); [reflexivity|exact Hl|]. intros i x y Hi Hx Hy.
  pose proof (Forall_lookup_1 _ _ _ _ Ha Hx) as Bx. pose proof (Forall_lookup_1 _ _ _ _ Hb Hy) as By. unfold is_byte in Bx, By.
  apply Z.bits_inj'. intros k Hk. destruct (Z.ltb_spec k 8).
  - specialize (He (8 * Z.of_nat i + k) ltac:(lia)). unfold bit_of in He.
    replace ((8 * Z.of_nat i + k) / 8) with (Z.of_nat i) in He by zdm. replace ((8 * Z.of_nat i + k) mod 8) with k in He by zdm.
    rewrite Nat2Z.id, Hx, Hy in He. exact He.
  - destruct (proj1 (in_width_bits 8 x ltac:(lia)) Bx) as [_ ->]; [|lia]. destruct (proj1 (in_width_bits 8 y ltac:(lia)) By) as [_ ->]; [reflexivity|lia].
Qed.

(** [SetBits] on an integer and on its bytes agree, up to 127 bits asked for. *)
Lemma setbits_agree v1 v2 : bits_size v2 < 128 -> setbits_bin (le8 v1) v2 = le8 (setbits_int v1 v2).
Proof.
  intros Hs. destruct (le8_bytes v1) as [Hb Hl]. destruct (le8_bytes (setbits_int v1 v2)) as [Hb' Hl'].
  assert (length (setbits_bin (le8 v1) v2) = 8%nat /\ Forall is_byte (setbits_bin (le8 v1) v2)) as [Hl2 Hb2].
  { unfold setbits_bin. case_match; [split; [reflexivity|exact Hb]|]. set (off := Z.land _ 0xFFFFFF) in *. set (n := if _ <? _ then _ else _).
    assert (0 <= off) by (unfold off; rewrite (land_mask _ 24) by (lia || reflexivity); apply Z.mod_pos_bound; lia).
    destruct (put_bits_spec (Z.to_nat n) off (Z.land (u64_of v2) 0xFFFFFFFF) (le8 v1) Hb ltac:(lia)) as (E & ? & _); [|split; [rewrite E; exact Hl|assumption]].
    rewrite Hl in *. change (Z.of_nat 8) with 8 in *. unfold n. zcase; lia. }
  apply bits_eq; [exact Hb2|exact Hb'|rewrite Hl2, Hl'; reflexivity|]. rewrite Hl'. intros j Hj. change (Z.of_nat 8) with 8 in Hj.
  rewrite setbits_bin_spec, le8_bit, le8_bit, setbits_int_spec by (assumption || lia || (rewrite Hl; lia)). rewrite Hl. reflexivity.
Qed.

(** ** Integer operations *)

(** Of the values from [lo] to [hi], [w] is the nearest to [v]. *)
Definition nearest (lo hi v w : Z) : Prop := lo <= w <= hi /\ forall u, lo <= u <= hi -> Z.abs (v - w) <= Z.abs (v - u).

Lemma clamp_nearest lo hi v : lo <= hi -> nearest lo hi v (clamp lo hi v).
Proof. intros Hl. unfold nearest, clamp. split; [zcase; lia|]. intros u Hu. zcase; lia. Qed.

(** What is stored for [v]: below eight bytes the nearest value of the field;
    eight bytes take any number, a negative one also for an unsigned field. *)
Definition stored_int (type size v : Z) : Z := if size <? 8 then clamp (field_lo type size) (field_hi type size) v else v.

Lemma truncate_stored v type size : is_int type -> 1 <= size -> TruncateIntValue v type size = stored_int type size v.
Proof. intros Ht Hs. unfold stored_int. destruct (Z.ltb_spec size 8); [apply truncate_clamp|apply truncate_wide]; assumption || lia. Qed.

Lemma update_add ft size v1 v2 : is_int ft -> 1 <= size -> is_s64 v1 -> is_s64 v2 ->
  update_value ft size DField.Signed DField.Add (VInt v1) (VInt v2) =
  if decide (is_s64 (v1 + v2)) then Some (VInt (stored_int ft size (v1 + v2))) else None.
Proof.
  intros Ht Hs H1 H2. rewrite <- (truncate_stored _ ft size Ht Hs).
  transitivity (s ← add_s64 v1 v2; Some (VInt (TruncateIntValue s ft size))); [destruct Ht as [-> | ->]; reflexivity|].
  rewrite add_s64_spec by assumption. destruct (decide _); reflexivity.
Qed.

Lemma update_add_nearest ft size v1 v2 (res := update_value ft size DField.Signed DField.Add (VInt v1) (VInt v2)) : is_int ft -> 1 <= size -> is_s64 v1 -> is_s64 v2 ->
  (is_s64 (v1 + v2) -> exists w, res = Some (VInt w) /\ (size < 8 -> nearest (field_lo ft size) (field_hi ft size) (v1 + v2) w) /\ (8 <= size -> w = v1 + v2))
  /\ (~ is_s64 (v1 + v2) -> res = None).
Proof.
  intros Ht Hs H1 H2. unfold res. rewrite (update_add ft size v1 v2 Ht Hs H1 H2). destruct (decide (is_s64 (v1 + v2))) as [Hd|Hd]; [|split; [intros Hn; contradiction|reflexivity]].
  split; [|intros Hn; contradiction]. intros _. exists (stored_int ft size (v1 + v2)). unfold stored_int. split; [reflexivity|]. destruct (Z.ltb_spec size 8); (split; [intros Hl|intros Hl]); try lia.
  apply clamp_nearest, field_bounds; assumption.
Qed.

Lemma update_set ft size v1 v2 : is_int ft -> 1 <= size ->
  update_value ft size DField.Signed DField.Set_ v1 (VInt v2) = Some (VInt (stored_int ft size v2)).
Proof. intros Ht Hs. rewrite <- (truncate_stored _ ft size Ht Hs). destruct Ht as [-> | ->]; reflexivity. Qed.

(** ** Strings without regard to case *)

(** The lower case of a byte, for the letters of ASCII. *)
Definition lower_char (c : Z) : Z := if (65 <=? c) && (c <=? 90) then c + 32 else c.

Lemma tolower_lower c : is_byte c -> TOLOWER c = lower_char c.
Proof.
  intros Hc. assert (H : forallb (fun n => default 0 (internal_tolower_table_ !! n) =? lower_char (Z.of_nat n)) (seq 0 256) = true) by (vm_compute; reflexivity).
  rewrite forallb_forall in H. unfold is_byte in Hc. specialize (H (Z.to_nat c) ltac:(apply in_seq; lia)). rewrite Z2Nat.id in H by lia. unfold TOLOWER. lia.
Qed.

Lemma tolower_lowers s : Forall is_byte s -> TOLOWER <$> s = lower_char <$> s.
Proof. induction 1 as [|c s Hc _ IH]; [reflexivity|]. cbn [fmap list_fmap]. rewrite tolower_lower by exact Hc. f_equal. exact IH. Qed.

Lemma lower_byte c : is_byte c -> is_byte (lower_char c).
Proof. unfold is_byte, lower_char. intros Hc. destruct (Z.leb_spec 65 c), (Z.leb_spec c 90); cbn [andb]; lia. Qed.

Lemma mystrcmp_spec s1 s2 r : Forall (fun c => is_byte c /\ c <> 0) s1 -> Forall is_byte s2 -> length s1 = length s2 -> r = 0 ->
  exists r', mystrcmp_loop (length s1) s1 s2 r = Some r' /\ (r' = 0 <-> lower_char <$> s1 = lower_char <$> s2).
Proof.
  intros H1. revert s2 r. induction H1 as [|c s1 [Hc Hz] _ IH]; intros [|c2 s2] r H2 Hl Hr; try discriminate; cbn [length mystrcmp_loop].
  { exists r. split; [reflexivity|]. split; auto. }
  apply Forall_cons in H2 as [Hc2 H2]. injection Hl as Hl. rewrite (tolower_lower c Hc), (tolower_lower c2 Hc2). cbn [fmap list_fmap].
  destruct (Z.eqb_spec (lower_char c - lower_char c2) 0) as [E|E]; cbn [negb].
  - rewrite (proj2 (Z.eqb_neq c 0) Hz). destruct (IH s2 (lower_char c - lower_char c2) H2 Hl E) as (r' & Er & Hp). exists r'. split; [exact Er|]. rewrite Hp.
    assert (lower_char c = lower_char c2) as -> by lia. split; [congruence|intros [=]; assumption].
  - eexists. split; [reflexivity|]. split; [contradiction|]. intros [=]. lia.
Qed.

(** Two strings are equal if they are but for the case of their letters. *)
Lemma string_equal_spec s1 s2 : Forall (fun c => is_byte c /\ c <> 0) s1 -> Forall is_byte (default [] s2) ->
  string_equal (Some s1) s2 = Some (bool_decide (lower_char <$> s1 = lower_char <$> default [] s2)).
Proof.
  intros H1 H2. unfold string_equal. change (default [] (Some s1)) with s1. set (s := default [] s2) in *. cbv zeta. destruct (Nat.eqb_spec (length s1) (length s)) as [El|El].
  - destruct (mystrcmp_spec s1 s 0 H1 H2 El eq_refl) as (r & -> & Hr). cbn [mbind option_bind]. f_equal.
    destruct (Z.eqb_spec r 0); symmetry; [apply bool_decide_eq_true|apply bool_decide_eq_false]; tauto.
  - f_equal. symmetry. apply bool_decide_eq_false. intros E. apply (f_equal length) in E. rewrite ! length_fmap in E. contradiction.
Qed.
