(* ===== verification/FieldSets.v ===== *)
(** * Field sets, and fields by name (src/libs/common/field/field.h,
    field_api.h, field_api.cc, encode.cc, task/task_api.cc)

    [DTCFieldSet] is a list of field numbers in a buffer of bounded size: a copy
    beyond the buffer has no result.  [FieldSetByName] and [FieldValueByName]
    are the client's lists, by name until they are resolved against a table. *)

From S2P Require Import Prelude Codec Sections TableDef Fields.

Definition INVALID_FIELD_ID : Z := 255.
Definition EC_EXCEPTION_ON_RESOLVE : Z := 2086.
Definition EINVAL : Z := 22.
Definition E2BIG : Z := 7.

(** ** Sets of field numbers *)

(** [fieldId[-2]], [fieldId[-1]], the first [fieldId[-1]] numbers, and the
    number of bytes the buffer has for them. *)
Record DTCFieldSet := mkFieldSet { max_fields : Z; num_ids : Z; fieldId : list Z; capacity : Z; fieldMask : Z }.

(** [build_field_mask] *)
Definition build_field_mask (ids : list Z) (mask : Z) : Z := fold_left (fun m i => FIELD_SET i m) ids mask.

(** [DTCFieldSet(idtab, n, total)]: the numbers are copied into [total] bytes. *)
Definition new_field_set (idtab : list Z) (n total : Z) : option DTCFieldSet :=
  let n := if 255 <? n then 255 else n in
  let total := if 255 <? total then 255 else total in
  if total <? n then None else
  let ids := take (Z.to_nat n) idtab in Some (mkFieldSet total n ids total (build_field_mask ids 0)).

(** [DTCFieldSet(n)] *)
Definition empty_field_set (n : Z) : DTCFieldSet := let n := if 255 <? n then 255 else n in mkFieldSet n 0 [] n 0.

Definition Clean_set (s : DTCFieldSet) : DTCFieldSet := mkFieldSet (max_fields s) 0 [] (capacity s) 0.

Definition Set_ids (idtab : list Z) (n : Z) (s : DTCFieldSet) : option DTCFieldSet :=
  let n := if 255 <? n then 255 else n in
  if capacity s <? n then None else
  let ids := take (Z.to_nat n) idtab in Some (mkFieldSet (max_fields s) n ids (capacity s) (build_field_mask ids (fieldMask s))).

(** [Realloc]: the number of fields is stored in a byte. *)
Definition Realloc_set (total : Z) (s : DTCFieldSet) : DTCFieldSet :=
  mkFieldSet (wrap 8 total) (num_ids s) (fieldId s) total (fieldMask s).

Definition set_field_id (s : DTCFieldSet) (n : Z) : Z := if (0 <=? n) && (n <? num_ids s) then default 0 (fieldId s !! Z.to_nat n) else 0.

Definition add_id (i : Z) (s : DTCFieldSet) : DTCFieldSet :=
  if max_fields s <=? num_ids s then s
  else mkFieldSet (max_fields s) (num_ids s + 1) (fieldId s ++ [wrap 8 i]) (capacity s) (FIELD_SET i (fieldMask s)).

Definition field_present (s : DTCFieldSet) (i : Z) : bool := if (0 <=? i) && (i <? 255) then FIELD_ISSET i (fieldMask s) else false.

(** [encode_field_set] and its size. *)
Fixpoint encode_ids (ids : list Z) : list Z :=
  match ids with [] => [] | i :: ids => if i =? 0 then 0 :: 0 :: encode_ids ids else i :: encode_ids ids end.

Definition encode_field_set (s : DTCFieldSet) : list Z :=
  if num_ids s =? 0 then [] else wrap 8 (num_ids s) :: encode_ids (fieldId s).

Definition encoded_bytes_field_set (s : DTCFieldSet) : Z :=
  if num_ids s =? 0 then 0 else if field_present s 0 then num_ids s + 2 else num_ids s + 1.

(** ** Fields by name *)

(** [nlen] is a byte. *)
Record NamedField := mkNamed { fid : Z; vid : Z; nlen : Z; name : list Z }.

Record FieldSetByName := mkSetByName { set_max : Z; set_solved : bool; maxvid : Z; set_fields : list NamedField }.

Definition new_set_by_name : FieldSetByName := mkSetByName 0 true 0 [].

(** Room for one more: the next capacity, or none. *)
Definition grow (num max : Z) : option Z := if num =? max then if max =? 255 then None else Some (if 255 <? max + 8 then 255 else max + 8) else Some max.

Definition add_field_name (nm : list Z) (v : Z) (s : FieldSetByName) : Z * FieldSetByName :=
  let n := Z.of_nat (length nm) in
  if 1024 <=? n then (- EC_BAD_FIELD_NAME, s)
  else if (v <? 0) || (256 <=? v) then (- EINVAL, s)
  else if negb (v =? 0) && existsb (fun f => vid f =? v) (set_fields s) then (- EINVAL, s)
  else match grow (Z.of_nat (length (set_fields s))) (set_max s) with
  | None => (- E2BIG, s)
  | Some m => (0, mkSetByName m false (if maxvid s <? v then wrap 8 v else maxvid s) (set_fields s ++ [mkNamed INVALID_FIELD_ID (wrap 8 v) (wrap 8 n) nm]))
  end.

(** The lookup [tdef->field_id(name, nlen)]: a length of zero is [strlen]. *)
Definition lookup_name (t : DTCTableDefinition) (f : NamedField) : option Z :=
  field_id t (if nlen f =? 0 then name f else take (Z.to_nat (nlen f)) (name f)).

Definition with_fid (i : Z) (f : NamedField) : NamedField := mkNamed (wrap 8 i) (vid f) (nlen f) (name f).

(** The fields resolved so far, and the first error. *)
Fixpoint resolve_names (t : DTCTableDefinition) (fs : list NamedField) : option (Z * list NamedField) :=
  match fs with
  | [] => Some (0, [])
  | f :: fs =>
      i ← lookup_name t f;
      if i <? 0 then Some (- EC_BAD_FIELD_NAME, f :: fs)
      else '(e, fs) ← resolve_names t fs; Some (e, with_fid i f :: fs)
  end.

Definition Resolve_set (tdef : option DTCTableDefinition) (force : bool) (s : FieldSetByName) : option (Z * FieldSetByName) :=
  let solved := if force then false else set_solved s in
  if solved || negb force && (Z.of_nat (length (set_fields s)) =? 0) then Some (0, s) else
  match tdef with
  | None => Some (- EINVAL, mkSetByName (set_max s) solved (maxvid s) (set_fields s))
  | Some t => '(e, fs) ← resolve_names t (set_fields s); Some (e, mkSetByName (set_max s) (if e =? 0 then true else solved) (maxvid s) fs)
  end.

Definition Unresolve_set (s : FieldSetByName) : FieldSetByName :=
  mkSetByName (set_max s) (match set_fields s with [] => set_solved s | _ => false end) (maxvid s) (with_fid INVALID_FIELD_ID <$> set_fields s).

(** [virtual_map] *)
Definition virtual_map (s : FieldSetByName) : option (list Z) :=
  if (maxvid s =? 0) || negb (set_solved s) then None else
  Some (fold_left (fun m f => if vid f =? 0 then m else <[Z.to_nat (vid f - 1) := fid f]> m) (set_fields s) (replicate (Z.to_nat (maxvid s)) 0)).

(** [DTCFieldSet::Copy] *)
Definition copy_set (rq : FieldSetByName) (s : DTCFieldSet) : DTCFieldSet :=
  fold_left (fun s f => let i := fid f in if (0 <=? i) && (i <? INVALID_FIELD_ID) && negb (field_present s i) then add_id i s else s) (set_fields rq) s.

(** A field on the wire: its number, or a zero and its name. *)
Definition encode_field (i nl : Z) (nm : list Z) : list Z :=
  if i =? 0 then [0; 0] else if i =? 255 then 0 :: nl :: take (Z.to_nat nl) nm else [i].
Definition encoded_bytes_field (i nl : Z) : Z := if i =? 255 then 2 + nl else if i =? 0 then 2 else 1.

Definition encode_set_by_name (s : FieldSetByName) : list Z :=
  if Z.of_nat (length (set_fields s)) =? 0 then []
  else wrap 8 (Z.of_nat (length (set_fields s))) :: concat ((fun f => encode_field (fid f) (nlen f) (name f)) <$> set_fields s).

Definition encoded_bytes_set_by_name (s : FieldSetByName) : Z :=
  if Z.of_nat (length (set_fields s)) =? 0 then 0
  else fold_left (fun n f => n + encoded_bytes_field (fid f) (nlen f)) (set_fields s) 1.

(** ** Values by name *)

Record NamedValue := mkNV { nv_type : Z; nv_oper : Z; nv_field : NamedField; nv_val : DTCValue }.

Record FieldValueByName := mkValueByName { val_max : Z; val_solved : bool; val_fields : list NamedValue }.

Definition new_value_by_name : FieldValueByName := mkValueByName 0 true [].

Definition add_named_value (nm : list Z) (op ty : Z) (v : DTCValue) (s : FieldValueByName) : Z * FieldValueByName :=
  let n := Z.of_nat (length nm) in
  if 1024 <=? n then (- EC_BAD_FIELD_NAME, s)
  else match grow (Z.of_nat (length (val_fields s))) (val_max s) with
  | None => (- E2BIG, s)
  | Some m => (0, mkValueByName m false (val_fields s ++ [mkNV ty op (mkNamed INVALID_FIELD_ID 0 (wrap 8 n) nm) v]))
  end.

(** One round of [FieldValueByName::Resolve]: the error, or the entry after it;
    a field of type float keeps its number. *)
Definition resolve_value (t : DTCTableDefinition) (e : NamedValue) : option (Z * NamedValue) :=
  i ← lookup_name t (nv_field e);
  if i <? 0 then Some (- EC_BAD_FIELD_NAME, e) else
  f ← field_at t i;
  let done := (0, mkNV (nv_type e) (nv_oper e) (with_fid i (nv_field e)) (nv_val e)) in
  if (field_type f =? 1) || (field_type f =? 2) then
    s ← get_s64 (nv_val e); let r := check_int_value s (field_type f) (fieldSize f) in Some (if r <? 0 then (r, e) else done)
  else if (field_type f =? 4) || (field_type f =? 5) then
    b ← get_bin (nv_val e); Some (if fieldSize f <? Z.of_nat (length (default [] b)) then (- EC_BAD_FIELD_SIZE_ON_RESOLVE, e) else done)
  else if field_type f =? 3 then Some (0, e)
  else Some (- EC_EXCEPTION_ON_RESOLVE, e).

Fixpoint resolve_values (t : DTCTableDefinition) (es : list NamedValue) : option (Z * list NamedValue) :=
  match es with
  | [] => Some (0, [])
  | e :: es =>
      '(r, e) ← resolve_value t e;
      if r <? 0 then Some (r, e :: es) else '(r, es) ← resolve_values t es; Some (r, e :: es)
  end.

Definition Resolve_values (tdef : option DTCTableDefinition) (force : bool) (s : FieldValueByName) : option (Z * FieldValueByName) :=
  let solved := if force then false else val_solved s in
  if solved || negb force && (Z.of_nat (length (val_fields s)) =? 0) then Some (0, s) else
  match tdef with
  | None => Some (- EINVAL, mkValueByName (val_max s) solved (val_fields s))
  | Some t => '(e, fs) ← resolve_values t (val_fields s); Some (e, mkValueByName (val_max s) (if e =? 0 then true else solved) fs)
  end.

(** ** Values on the wire *)

Section Wire.
Context `{Text}.

(** [encode_field_value(DTCFieldValue)] *)
Fixpoint encode_values (es : list SFieldValue) : option (list Z) :=
  match es with
  | [] => Some []
  | e :: es =>
      bs ← encode_data_value (val e) (type e); rest ← encode_values es;
      Some (wrap 8 (Z.shiftl (oper e) 4 + type e) :: id e :: (if id e =? 0 then [0] else []) ++ bs ++ rest)
  end.

Definition encode_field_value (f : DTCFieldValue) : option (list Z) :=
  if numFields f =? 0 then Some [] else bs ← encode_values (fieldValue f); Some (wrap 8 (numFields f) :: bs).

Fixpoint encoded_bytes_values (es : list SFieldValue) (n : Z) : option Z :=
  match es with
  | [] => Some n
  | e :: es => k ← encoded_bytes_data_value (val e) (type e); encoded_bytes_values es (n + (if id e =? 0 then 1 else 0) + (2 + k))
  end.

Definition encoded_bytes_field_value (f : DTCFieldValue) : option Z :=
  if numFields f =? 0 then Some 0 else encoded_bytes_values (fieldValue f) 1.

(** [encode_field_value(FieldValueByName)]: unsigned is sent as signed. *)
Definition sent_type (t : Z) : Z := if t =? DField.Unsigned then DField.Signed else t.

Fixpoint encode_named_values (es : list NamedValue) : option (list Z) :=
  match es with
  | [] => Some []
  | e :: es =>
      let t := sent_type (nv_type e) in
      let f := nv_field e in
      bs ← encode_data_value (nv_val e) t; rest ← encode_named_values es;
      Some (wrap 8 (Z.shiftl (nv_oper e) 4 + t) :: encode_field (fid f) (nlen f) (name f) ++ bs ++ rest)
  end.

Definition encode_values_by_name (s : FieldValueByName) : option (list Z) :=
  if Z.of_nat (length (val_fields s)) =? 0 then Some []
  else bs ← encode_named_values (val_fields s); Some (wrap 8 (Z.of_nat (length (val_fields s))) :: bs).

Fixpoint encoded_bytes_named_values (es : list NamedValue) (n : Z) : option Z :=
  match es with
  | [] => Some n
  | e :: es =>
      k ← encoded_bytes_data_value (nv_val e) (nv_type e);
      encoded_bytes_named_values es (n + (1 + encoded_bytes_field (fid (nv_field e)) (nlen (nv_field e))) + k)
  end.

Definition encoded_bytes_values_by_name (s : FieldValueByName) : option Z :=
  if Z.of_nat (length (val_fields s)) =? 0 then Some 0 else encoded_bytes_named_values (val_fields s) 1.

(** [encode_multi_key]: the key fields behind the first. *)
Fixpoint encode_key_fields (t : DTCTableDefinition) (i : Z) (vs : list DTCValue) : option (list Z) :=
  match vs with
  | [] => Some []
  | v :: vs =>
      f ← field_at t i; bs ← encode_data_value v (field_type f); rest ← encode_key_fields t (i + 1) vs;
      Some (wrap 8 (Z.shiftl DField.Set_ 4 + field_type f) :: wrap 8 i :: bs ++ rest)
  end.

Definition encode_multi_key (t : DTCTableDefinition) (v : list DTCValue) : option (list Z) :=
  if key_fields t <=? 1 then Some [] else
  bs ← encode_key_fields t 1 (take (Z.to_nat (key_fields t - 1)) (drop 1 v)); Some (wrap 8 (key_fields t - 1) :: bs).

End Wire.
