(* ===== verification/Request.v ===== *)
(** * Decoding the parts of a request (src/libs/common/task/task_base.cc,
    task_base.h, task_const.cc, result.h)

    [DtcJob] is the object a packet is decoded into.  The decoders below read
    one section each and store what it says in the job. *)

From S2P Require Import Prelude Codec Sections TableDef Fields FieldSets.

Definition EC_EXTRA_SECTION_DATA : Z := 2011.
Definition EC_BAD_VALUE_TYPE : Z := 2012.
Definition EC_BAD_OPERATOR : Z := 2013.
Definition EC_NO_MORE_DATA : Z := 2022.
Definition EC_BAD_MULTIKEY : Z := 2036.
Definition EC_READONLY_FIELD : Z := 2037.
Definition EC_BAD_INVALID_FIELD : Z := 2044.

Definition NeedTableDefinition : Z := 2.
Definition MultiKeyValue : Z := 32.
Definition PFLAG_REMOTETABLE : Z := 1.
Definition PFLAG_ALLROWS : Z := 2.
Definition PFLAG_ALLOWREMOTETABLE : Z := 0x20.

(** ** Which types and operators go together *)

Definition validktype : list (list Z) :=
  [[0; 0; 0; 0; 0; 0]; [0; 1; 1; 0; 0; 0]; [0; 1; 1; 0; 0; 0]; [0; 0; 0; 0; 0; 0]; [0; 0; 0; 0; 1; 1]; [0; 0; 0; 0; 1; 1]].

Definition validxtype : list (list (list Z)) :=
  [[[0; 0; 0; 0; 0; 0]; [0; 1; 1; 0; 0; 0]; [0; 1; 1; 0; 0; 0]; [0; 1; 1; 1; 0; 0]; [0; 0; 0; 0; 1; 0]; [0; 0; 0; 0; 1; 1]];
   [[0; 0; 0; 0; 0; 0]; [0; 1; 1; 0; 0; 0]; [0; 1; 1; 0; 0; 0]; [0; 1; 1; 1; 0; 0]; [0; 0; 0; 0; 0; 0]; [0; 0; 0; 0; 0; 0]];
   [[0; 0; 0; 0; 0; 0]; [0; 1; 1; 0; 0; 0]; [0; 1; 1; 0; 0; 0]; [0; 0; 0; 0; 0; 0]; [0; 1; 1; 0; 0; 0]; [0; 1; 1; 0; 0; 0]];
   [[0; 0; 0; 0; 0; 0]; [0; 1; 1; 0; 0; 0]; [0; 1; 1; 0; 0; 0]; [0; 0; 0; 0; 0; 0]; [0; 0; 0; 0; 0; 0]; [0; 0; 0; 0; 0; 0]]].

Definition validcomps : list (list Z) :=
  [[0; 0; 0; 0; 0; 0]; [1; 1; 1; 1; 1; 1]; [1; 1; 1; 1; 1; 1]; [0; 0; 0; 0; 0; 0]; [1; 1; 0; 0; 0; 0]; [1; 1; 0; 0; 0; 0]].

(** Entries of the tables; outside of them there is none. *)
Definition entry {A} (l : list A) (i : Z) : option A := if 0 <=? i then l !! Z.to_nat i else None.
Definition valid_comp (ft op : Z) : option bool := r ← entry validcomps ft; b ← entry r op; Some (negb (b =? 0)).
Definition valid_xtype (op ft vt : Z) : option bool := m ← entry validxtype op; r ← entry m ft; b ← entry r vt; Some (negb (b =? 0)).
Definition valid_ktype (t rt : Z) : option bool := r ← entry validktype t; b ← entry r rt; Some (negb (b =? 0)).

(** ** The job *)

Record ResultSet := mkResultSet {
  rs_set : DTCFieldSet;
  rs_err : Z;
  rs_init : DTCBinary;
  rs_curr : DTCBinary;
  numRows : Z;
  rowno : Z;
  rs_row : RowValue
}.

Record Codes := mkCodes { requestCode : Z; requestType : Z; requestFlags : Z; replyCode : Z; replyFlags : Z; processFlags : Z }.

Record Parts := mkParts { updateInfo : option DTCFieldValue; conditionInfo : option DTCFieldValue; fieldList : option DTCFieldSet; result : option ResultSet }.

Record Infos := mkInfos { versionInfo : SimpleSection; requestInfo : SimpleSection; resultInfo : SimpleSection }.

(** [key] and [rkey] point to tag 0 of the request and result information;
    [serialNr] is [None] where it was copied from a tag never set. *)
Record DtcJob := mkJob {
  stage : Z;
  role : Z;
  table : option DTCTableDefinition;
  infos : Infos;
  codes : Codes;
  parts : Parts;
  serialNr : option Z;
  key_set : bool;
  rkey_set : bool
}.

Definition on_codes (f : Codes -> Codes) (j : DtcJob) : DtcJob :=
  mkJob (stage j) (role j) (table j) (infos j) (f (codes j)) (parts j) (serialNr j) (key_set j) (rkey_set j).
Definition on_parts (f : Parts -> Parts) (j : DtcJob) : DtcJob :=
  mkJob (stage j) (role j) (table j) (infos j) (codes j) (f (parts j)) (serialNr j) (key_set j) (rkey_set j).

Definition or_requestFlags (f : Z) (c : Codes) : Codes :=
  mkCodes (requestCode c) (requestType c) (Z.lor (requestFlags c) f) (replyCode c) (replyFlags c) (processFlags c).
Definition set_processFlags (f : Z) (c : Codes) : Codes :=
  mkCodes (requestCode c) (requestType c) (requestFlags c) (replyCode c) (replyFlags c) f.
Definition set_fieldList (s : DTCFieldSet) (p : Parts) : Parts := mkParts (updateInfo p) (conditionInfo p) (Some s) (result p).
Definition set_result (s : ResultSet) (p : Parts) : Parts := mkParts (updateInfo p) (conditionInfo p) (fieldList p) (Some s).

(** [clear_all_rows] *)
Definition clear_all_rows (j : DtcJob) : DtcJob := on_codes (fun c => set_processFlags (Z.ldiff (processFlags c) PFLAG_ALLROWS) c) j.
Definition need_table (j : DtcJob) : DtcJob := on_codes (or_requestFlags NeedTableDefinition) j.

Definition modify_job (f : DtcJob -> DtcJob) : dec DtcJob unit := j ← get_obj; set_obj (f j).

(** A step that may have no result. *)
Definition try_ {S A} (o : option A) : dec S A := match o with Some a => mret a | None => undefined end.

(** ** Fields *)

(** [decode_field_id]: the number, and whether it was found by name. *)
Definition decode_field_id {S} (t : DTCTableDefinition) : dec S (Z * bool) :=
  e ← is_empty;
  if (e : bool) then fail EC_BAD_SECTION_LENGTH else
  n ← next_byte;
  if negb (n =? 0) then mret (n, false) else
  e ← is_empty;
  if (e : bool) then fail EC_BAD_SECTION_LENGTH else
  n ← next_byte;
  if n =? 0 then mret (0, false) else
  s ← shorter n;
  if (s : bool) then fail EC_BAD_SECTION_LENGTH else
  nm ← bytes_at n;
  i ← try_ (field_id t nm);
  if i <? 0 then fail EC_BAD_FIELD_NAME else advance n;; mret (wrap 8 i, true).

(** The loop of [decode_field_set]: the distinct numbers, in order. *)
Fixpoint set_loop (n : nat) (t : DTCTableDefinition) (mask : Z) (idtab : list Z) : dec DtcJob (list Z) :=
  match n with
  | O => mret idtab
  | Datatypes.S n =>
      '(i, nd) ← decode_field_id t;
      if FIELD_ISSET i mask then set_loop n t mask idtab
      else (if (nd : bool) then modify_job need_table else mret tt);; set_loop n t (FIELD_SET i mask) (idtab ++ [i])
  end.

(** The numbers go into the job's field set, which has [num_fields() + 1]
    places. *)
Definition store_field_set (t : DTCTableDefinition) (idtab : list Z) : dec DtcJob unit :=
  j ← get_obj;
  let total := num_fields t + 1 in
  let n := Z.of_nat (length idtab) in
  s ← try_ (match fieldList (parts j) with
            | None => new_field_set idtab n total
            | Some s => Set_ids idtab n (if max_fields s <? total then Realloc_set total s else s)
            end);
  modify_job (on_parts (set_fieldList s)).

Definition decode_field_set (t : DTCTableDefinition) : dec DtcJob unit :=
  e ← is_empty;
  if (e : bool) then fail EC_BAD_SECTION_LENGTH else
  num ← next_byte;
  if num =? 0 then mret tt else
  idtab ← set_loop (Z.to_nat num) t 0 [];
  l ← bin_len;
  if negb (l =? 0) then fail EC_EXTRA_SECTION_DATA else store_field_set t idtab.

(** ** Values *)

Definition get_values (mode : Z) (p : Parts) : option DTCFieldValue := if mode =? 0 then conditionInfo p else updateInfo p.
Definition set_values (mode : Z) (f : DTCFieldValue) (p : Parts) : Parts :=
  if mode =? 0 then mkParts (updateInfo p) (Some f) (fieldList p) (result p) else mkParts (Some f) (conditionInfo p) (fieldList p) (result p).
Definition alter_values (mode : Z) (g : DTCFieldValue -> DTCFieldValue) (j : DtcJob) : DtcJob :=
  match get_values mode (parts j) with Some f => on_parts (set_values mode (g f)) j | None => j end.

(** The checks on an operation: the first that fails, or nothing. *)
Definition check_operation (t : DTCTableDefinition) (mode i op vt : Z) (f : FieldDefinition) : option (option Z) :=
  let ft := field_type f in
  if DField.TotalType <=? vt then Some (Some EC_BAD_VALUE_TYPE)
  else if mode =? 0 then
    if DField.TotalComparison <=? op then Some (Some EC_BAD_OPERATOR) else
    c ← valid_comp ft op;
    if negb c then Some (Some EC_BAD_OPERATOR)
    else if (i <? key_fields t) && negb (op =? DField.EQ) then Some (Some EC_BAD_MULTIKEY)
    else x ← valid_xtype DField.Set_ ft vt; Some (if negb x then Some EC_BAD_OPERATOR else None)
  else if mode =? 1 then
    if negb (op =? DField.Set_) then Some (Some EC_BAD_OPERATOR)
    else x ← valid_xtype op ft vt; Some (if negb x then Some EC_BAD_OPERATOR else None)
  else
    if negb (Z.land (flags f) FF_READONLY =? 0) then Some (Some EC_READONLY_FIELD)
    else if DField.TotalOperation <=? op then Some (Some EC_BAD_OPERATOR)
    else x ← valid_xtype op ft vt; Some (if negb x then Some EC_BAD_OPERATOR else None).

(** Conditions on fields behind the key clear the flag before the last check. *)
Definition cond_clears (t : DTCTableDefinition) (mode i op : Z) (f : FieldDefinition) : bool :=
  (mode =? 0) && (op <? DField.TotalComparison) && default false (valid_comp (field_type f) op) && negb (i <? key_fields t).

Section Decoders.
Context `{Text}.

(** One round of [decode_field_value]. *)
Definition value_round (t : DTCTableDefinition) (mode keymask : Z) : dec DtcJob Z :=
  e ← is_empty;
  if (e : bool) then fail EC_BAD_SECTION_LENGTH else
  b ← next_byte;
  let vt := Z.land b 0xF in
  let op := Z.shiftr b 4 in
  '(i, nd) ← decode_field_id t;
  if num_fields t <? i then fail EC_BAD_INVALID_FIELD else
  f ← try_ (field_at t i);
  (if (vt <? DField.TotalType) && cond_clears t mode i op f then modify_job clear_all_rows else mret tt);;
  c ← try_ (check_operation t mode i op vt f);
  match (c : option Z) with
  | Some code => fail code
  | None =>
      v ← decode_data_value vt;
      j ← get_obj;
      fv ← try_ (get_values mode (parts j));
      (* the value is stored through next_field_value() *)
      v ← try_ (if Fields.numFields fv =? maxFields fv then None else v);
      modify_job (alter_values mode (add_value (mkFV i op vt v)));;
      (if (nd : bool) then modify_job need_table else mret tt);;
      if i <? key_fields t then
        if Z.testbit keymask i then fail EC_BAD_MULTIKEY else mret (Z.lor keymask (2 ^ i))
      else modify_job (alter_values mode (update_type_mask (flags f)));; mret keymask
  end.

Fixpoint value_loop (n : nat) (t : DTCTableDefinition) (mode keymask : Z) : dec DtcJob unit :=
  match n with O => mret tt | Datatypes.S n => k ← value_round t mode keymask; value_loop n t mode k end.

(** [decode_field_value]; [mode] is 0 for conditions, 1 for the values of an
    insertion, 2 for the operations of an update. *)
Definition decode_field_value (t : DTCTableDefinition) (mode : Z) : dec DtcJob unit :=
  e ← is_empty;
  if (e : bool) then fail EC_BAD_SECTION_LENGTH else
  num ← next_byte;
  if num =? 0 then mret tt else
  modify_job (fun j =>
    let fv := match get_values mode (parts j) with Some f => f | None => new_field_value num end in
    on_parts (set_values mode (if maxFields fv <? num then Realloc num fv else fv)) j);;
  value_loop (Z.to_nat num) t mode 0;;
  e ← is_empty;
  if (e : bool) then mret tt else fail EC_EXTRA_SECTION_DATA.

(** ** Results *)

(** The check of the field numbers of a result. *)
Fixpoint result_ids (n : nat) (i mask : Z) : dec DtcJob unit :=
  match n with
  | O => mret tt
  | Datatypes.S n =>
      b ← byte_at i;
      if b =? 255 then fail EC_BAD_FIELD_ID
      else if FIELD_ISSET b mask then fail EC_DUPLICATE_FIELD
      else result_ids n (i + 1) (FIELD_SET b mask)
  end.

(** [set_value_data]: the rows are the bytes behind the cursor. *)
Definition store_result (fs : DTCFieldSet) (row : RowValue) (err nrows : Z) : dec DtcJob unit :=
  fun d => Some (Ok tt, mkD (bin d) (on_parts (set_result (mkResultSet fs err (bin d) (bin d) (sext 32 nrows) 0 row)) (obj d))).

Definition decode_result_set (t : DTCTableDefinition) : dec DtcJob unit :=
  nrows ← decode_length;
  e ← is_empty;
  if (e : bool) then fail EC_BAD_SECTION_LENGTH else
  num ← next_byte;
  s ← shorter num;
  if (0 <? num) && s then fail EC_BAD_SECTION_LENGTH else
  result_ids (Z.to_nat num) 0 0;;
  idtab ← bytes_at num;
  j ← get_obj;
  let total := num_fields t + 1 in
  '(fs, row, err) ← try_ (match result (parts j) with
    | None => fs ← new_field_set idtab num total; Some (fs, replicate (Z.to_nat total) VZero, 0)
    | Some r => fs ← Set_ids idtab num (if max_fields (rs_set r) <? total then Realloc_set total (rs_set r) else rs_set r); Some (fs, rs_row r, rs_err r)
    end);
  advance num;;
  store_result fs row err nrows.

(** [ResultSet::decode_row] *)
Fixpoint row_values (t : DTCTableDefinition) (ids : list Z) : dec RowValue unit :=
  match ids with
  | [] => mret tt
  | i :: ids =>
      f ← try_ (field_at t i);
      v ← decode_data_value (field_type f);
      match v with Some v => modify (fun r => if i <? Z.of_nat (length r) then Some (<[Z.to_nat i := v]> r) else None) | None => mret tt end;;
      row_values t ids
  end.

Definition decode_row (t : DTCTableDefinition) (r : ResultSet) : option (Z * ResultSet) :=
  if negb (rs_err r =? 0) then Some (rs_err r, r)
  else if rowno r =? numRows r then Some (- EC_NO_MORE_DATA, r)
  else match row_values t (fieldId (rs_set r)) (mkD (rs_curr r) (rs_row r)) with
  | None => None
  | Some (Fail c, d) => Some (c, mkResultSet (rs_set r) c (rs_init r) (bin d) (numRows r) (rowno r) (obj d))
  | Some (Ok _, d) => Some (0, mkResultSet (rs_set r) 0 (rs_init r) (bin d) (numRows r) (rowno r + 1) (obj d))
  end.

End Decoders.
