(* ===== verification/RequestSpec.v ===== *)
(** * What decoding a request promises

    Fields sent by number or by name arrive as the numbers the table has for
    them; on arbitrary bytes the decoders stay inside the section, except that
    a field set with more numbers than the table has fields overruns its
    buffer. *)

From S2P Require Import Prelude Codec CodecSpec Sections SectionsSpec TableDef TableDefSpec Fields FieldSets Request.

(** ** Field numbers *)

(** Tables whose fields can be named, with a number for every field. *)
Definition table_ok (t : DTCTableDefinition) : Prop :=
  (exists hist, named hist (names t)) /\ 0 <= num_fields t < TableDef.maxFields (names t).

Lemma latest_range hist n nm : named hist n -> -1 <= latest hist nm < TableDef.maxFields n.
Proof.
  intros (_ & Hm & _ & _ & Hin & _ & _). unfold latest. destruct (list_find _ hist) as [[k [j nj]]|] eqn:E; [|lia].
  apply list_find_Some in E as (E & _ & _). apply list_elem_of_lookup_2 in E. destruct (Hin j nj E) as (H0 & f & Hf & _). apply lookup_lt_Some in Hf. lia.
Qed.

Lemma field_id_total t nm : table_ok t -> exists i, field_id t nm = Some i /\ -1 <= i < 256.
Proof.
  intros [[hist Hn] _]. exists (latest hist nm). split; [apply field_id_spec, Hn|]. pose proof (latest_range hist _ nm Hn). destruct Hn as (_ & _ & ? & _). lia.
Qed.

(** What a field on the wire stands for. *)
Definition sent_field (t : DTCTableDefinition) (i nl : Z) (nm : list Z) (r : Z * bool) : Prop :=
  0 <= i < 255 /\ r = (i, false) \/
  i = 255 /\ nl = Z.of_nat (length nm) /\ 1 <= nl <= 255 /\ exists k, field_id t nm = Some k /\ 0 <= k < 256 /\ r = (k, true).

Lemma decode_field_id_sent {S} t i nl nm r : sent_field t i nl nm r -> decodes (S := S) (decode_field_id t) (encode_field i nl nm) r.
Proof.
  intros [[Hi ->]|(-> & -> & Hn & k & Hk & Hr & ->)] n rest s Hl; unfold decode_field_id, encode_field in *.
  - destruct (Z.eqb_spec i 0) as [->|Hne].
    + cbn [length app] in Hl |- *. repeat first [dec_step | dec_if]. apply ok_eq; first [reflexivity | lia].
    + rewrite (proj2 (Z.eqb_neq i 255)) in * by lia. cbn [length app] in Hl |- *. dec_step. dec_if. dec_step.
      rewrite (proj2 (Z.eqb_neq i 0)) by lia. cbn [negb]. apply ok_eq; first [reflexivity | lia].
  - cbn [Z.eqb Pos.eqb] in *. rewrite firstn_all2 in * by lia. cbn [length app] in Hl |- *. dec_step. dec_if. dec_step. cbn [Z.eqb negb]. dec_step. dec_if. dec_step.
    rewrite (proj2 (Z.eqb_neq (Z.of_nat (length nm)) 0)) by lia. dec_step. dec_if. rewrite bind_bytes_at by (cbn; rewrite length_app; lia). cbn [len ptr bin obj].
    rewrite take_len by reflexivity. rewrite Hk. rewrite (bind_ok _ _ _ k (mkD (mkBin (n - 1 - 1) (nm ++ rest)) s)) by reflexivity.
    rewrite (proj2 (Z.ltb_ge k 0)) by lia. rewrite bind_advance by (cbn; rewrite length_app; lia). cbn [len ptr bin obj]. rewrite drop_len by reflexivity.
    rewrite wrap_small by (unfold in_width; lia). apply ok_eq; first [reflexivity | lia].
Qed.

(** ** Decoders that change the job *)

Definition runs_on {S A} (m : dec S A) (bs : list Z) (a : A) (g : S -> S) : Prop :=
  forall n rest s, Z.of_nat (length bs) <= n ->
    m (mkD (mkBin n (bs ++ rest)) s) = Some (Ok a, mkD (mkBin (n - Z.of_nat (length bs)) rest) (g s)).

Lemma decodes_runs {S A} (m : dec S A) bs a : decodes m bs a -> runs_on m bs a (fun s => s).
Proof. intros H. exact H. Qed.

Lemma runs_on_bind {S A B} (m : dec S A) (f : A -> dec S B) bs cs a b g h :
  runs_on m bs a g -> runs_on (f a) cs b h -> runs_on (m ≫= f) (bs ++ cs) b (fun s => h (g s)).
Proof.
  intros Hm Hf n rest s Hn. rewrite length_app in Hn |- *. unfold mbind, dec_bind. rewrite <- app_assoc, Hm by lia.
  rewrite Hf, Nat2Z.inj_add, Z.sub_add_distr by lia. reflexivity.
Qed.

Lemma runs_on_ret {S A} (a : A) : runs_on (mret a : dec S A) [] a (fun s => s).
Proof. apply decodes_runs, decodes_ret. Qed.

Lemma runs_modify (f : DtcJob -> DtcJob) : runs_on (modify_job f) [] tt f.
Proof. intros n rest s _. cbn. rewrite Z.sub_0_r. reflexivity. Qed.

(** ** Field sets *)

(** The first occurrences of the numbers, those of [mask] left out. *)
Fixpoint news (mask : Z) (rs : list (Z * bool)) : list (Z * bool) :=
  match rs with
  | [] => []
  | r :: rs => if FIELD_ISSET (fst r) mask then news mask rs else r :: news (FIELD_SET (fst r) mask) rs
  end.

Definition flag_names (rs : list (Z * bool)) (j : DtcJob) : DtcJob := fold_left (fun j r => if snd r : bool then need_table j else j) rs j.

(** [bss] are the bytes of fields that stand for [rs]. *)
Definition fields_sent (t : DTCTableDefinition) (bss : list (list Z)) (rs : list (Z * bool)) : Prop :=
  Forall2 (fun bs r => 0 <= fst r < 256 /\ decodes (S := DtcJob) (decode_field_id t) bs r) bss rs.

Lemma set_loop_runs t bss rs mask tab : fields_sent t bss rs ->
  runs_on (set_loop (length rs) t mask tab) (concat bss) (tab ++ (fst <$> news mask rs)) (flag_names (news mask rs)).
Proof.
  intros H. revert mask tab. induction H as [|bs [i nd] bss rs [_ Hd] _ IH]; intros mask tab; cbn [length set_loop news concat fst].
  { rewrite app_nil_r. apply runs_on_ret. }
  eapply (runs_on_bind _ _ _ _ _ _ (fun s => s)); [apply decodes_runs, Hd|]. cbn beta iota. destruct (FIELD_ISSET i mask); [apply IH|].
  cbn [fmap list_fmap fst]. replace (tab ++ i :: (fst <$> news (FIELD_SET i mask) rs)) with ((tab ++ [i]) ++ (fst <$> news (FIELD_SET i mask) rs)) by (rewrite <- app_assoc; reflexivity).
  apply (runs_on_bind _ _ [] _ tt _ (fun j => if nd then need_table j else j)); [|apply IH]. destruct nd; [apply runs_modify|apply (runs_on_ret tt)].
Qed.

(** The whole section, for a job without a field set: the numbers are stored
    if there is room for them, otherwise the copy runs out of the buffer. *)
Lemma decode_field_set_run t bss rs rest j : fields_sent t bss rs -> 1 <= Z.of_nat (length rs) <= 255 -> 0 <= num_fields t -> fieldList (parts j) = None ->
  let bs := Z.of_nat (length rs) :: concat bss in
  let ids := fst <$> news 0 rs in
  decode_field_set t (mkD (mkBin (Z.of_nat (length bs)) (bs ++ rest)) j) =
  match new_field_set ids (Z.of_nat (length ids)) (num_fields t + 1) with
  | Some s => Some (Ok tt, mkD (mkBin 0 rest) (on_parts (set_fieldList s) (flag_names (news 0 rs) j)))
  | None => None
  end.
Proof.
  intros Hs Hl Hn Hj bs ids. unfold decode_field_set. rewrite bind_is_empty. cbn [len bin]. rewrite (proj2 (Z.leb_gt _ 0)) by (unfold bs; cbn [length]; lia).
  unfold bs at 2. cbn [app]. rewrite bind_next. rewrite (proj2 (Z.eqb_neq _ 0)) by lia. rewrite Nat2Z.id.
  rewrite (bind_ok _ _ _ _ _ (set_loop_runs t bss rs 0 [] Hs (Z.of_nat (length bs) - 1) rest j ltac:(unfold bs; cbn [length]; lia))). cbn [app].
  replace (Z.of_nat (length bs) - 1 - Z.of_nat (length (concat bss))) with 0 by (unfold bs; cbn [length]; lia). unfold bin_len, mbind, dec_bind. cbn [len bin].
  cbn [Z.eqb negb]. unfold store_field_set, mbind, dec_bind, get_obj. cbn [obj].
  assert (Hf : forall rs j, fieldList (parts (flag_names rs j)) = fieldList (parts j)).
  { clear. induction rs as [|[i nd] rs IH]; intros j; [reflexivity|]. cbn. rewrite IH. by destruct nd. }
  rewrite Hf, Hj. fold ids. by destruct (new_field_set ids _ _).
Qed.

Lemma news_spec rs mask : Forall (fun r => 0 <= fst r) rs ->
  NoDup (fst <$> news mask rs) /\ forall i, 0 <= i -> (i ∈ fst <$> news mask rs) <-> (i ∈ fst <$> rs) /\ FIELD_ISSET i mask = false.
Proof.
  intros H. revert mask. induction H as [|[i nd] rs Hi _ IH]; intros mask; cbn [news fst].
  { split; [constructor|]. intros i _. cbn. rewrite ! elem_of_nil. tauto. }
  cbn [fst] in Hi. destruct (FIELD_ISSET i mask) eqn:E.
  - destruct (IH mask) as [Hn Hm]. split; [exact Hn|]. intros k Hk. rewrite Hm by exact Hk. cbn. rewrite elem_of_cons.
    split; [tauto|]. intros [[->|Hr] He]; [congruence|tauto].
  - destruct (IH (FIELD_SET i mask)) as [Hn Hm]. cbn [fmap list_fmap fst]. split.
    + constructor; [|exact Hn]. intros Hin. apply Hm in Hin as [_ He]; [|exact Hi]. rewrite isset_set, Z.eqb_refl in He by exact Hi. discriminate.
    + intros k Hk. rewrite ! elem_of_cons, Hm by exact Hk. rewrite isset_set by lia. destruct (Z.eqb_spec k i) as [->|]; cbn [orb]; [tauto|]. tauto.
Qed.

Lemma news_sub rs mask r : r ∈ news mask rs -> r ∈ rs.
Proof.
  revert mask. induction rs as [|[i nd] rs IH]; intros mask Hr; cbn [news fst] in Hr; [exact Hr|]. apply elem_of_cons.
  destruct (FIELD_ISSET i mask); [right; exact (IH _ Hr)|]. apply elem_of_cons in Hr as [->|Hr]; [left; reflexivity|right; exact (IH _ Hr)].
Qed.

Lemma news_length rs mask : (length (news mask rs) <= length rs)%nat.
Proof. revert mask. induction rs as [|[i nd] rs IH]; intros mask; cbn; [lia|]. destruct (FIELD_ISSET i mask); [specialize (IH mask)|specialize (IH (FIELD_SET i mask)); cbn]; lia. Qed.

(** Both together: what is stored, or that there is no room. *)
Lemma field_set_stored t bss rs rest j : fields_sent t bss rs -> 1 <= Z.of_nat (length rs) <= 255 -> 0 <= num_fields t < 255 -> fieldList (parts j) = None ->
  let bs := Z.of_nat (length rs) :: concat bss in
  let ids := fst <$> news 0 rs in
  NoDup ids /\ (forall i, i ∈ ids <-> i ∈ fst <$> rs) /\
  decode_field_set t (mkD (mkBin (Z.of_nat (length bs)) (bs ++ rest)) j) =
  if num_fields t + 1 <? Z.of_nat (length ids) then None
  else Some (Ok tt, mkD (mkBin 0 rest) (on_parts (set_fieldList (mkFieldSet (num_fields t + 1) (Z.of_nat (length ids)) ids (num_fields t + 1) (build_field_mask ids 0))) (flag_names (news 0 rs) j))).
Proof.
  intros Hs Hl Hn Hj bs ids. assert (Hr : Forall (fun r : Z * bool => 0 <= fst r) rs).
  { clear -Hs. induction Hs as [|b r bs rs [Hr _] _ IH]; constructor; [lia|exact IH]. }
  destruct (news_spec rs 0 Hr) as [Hnd Hin]. split; [exact Hnd|]. split.
  - intros i. split; intros Hi.
    + apply (Hin i); [|exact Hi]. assert (Hi' := Hi). apply list_elem_of_fmap in Hi as (r & -> & Hr'). rewrite Forall_forall in Hr. apply Hr. exact (news_sub rs 0 r Hr').
    + apply Hin; [|split; [exact Hi|apply Z.bits_0]]. apply list_elem_of_fmap in Hi as (r & -> & Hr'). rewrite Forall_forall in Hr. apply Hr, Hr'.
  - unfold bs, ids. rewrite (decode_field_set_run t bss rs rest j Hs Hl ltac:(lia) Hj). unfold new_field_set.
    set (n := Z.of_nat (length (fst <$> news 0 rs))). assert (n <= 255) by (unfold n; pose proof (news_length rs 0); rewrite length_fmap; lia).
    rewrite (proj2 (Z.ltb_ge 255 n)), (proj2 (Z.ltb_ge 255 (num_fields t + 1))) by lia. destruct (num_fields t + 1 <? n); [reflexivity|].
    rewrite take_ge by (unfold n; lia). reflexivity.
Qed.

(** ** Values *)

Lemma get_set_values mode f p : get_values mode (set_values mode f p) = Some f.
Proof. unfold get_values, set_values. by destruct (mode =? 0). Qed.

Lemma values_alter mode g j f : get_values mode (parts j) = Some f -> get_values mode (parts (alter_values mode g j)) = Some (g f).
Proof. intros E. unfold alter_values. rewrite E. apply get_set_values. Qed.

(** What one operation of a request does to the job. *)
Definition take_value (t : DTCTableDefinition) (mode : Z) (r : Z * bool) (f : FieldDefinition) (e : SFieldValue) (j : DtcJob) : DtcJob :=
  let j := if cond_clears t mode (fst r) (oper e) f then clear_all_rows j else j in
  let j := alter_values mode (add_value e) j in
  let j := if snd r then need_table j else j in
  if fst r <? key_fields t then j else alter_values mode (update_type_mask (flags f)) j.

Lemma take_value_values t mode r f e j fv : get_values mode (parts j) = Some fv -> Fields.numFields fv < Fields.maxFields fv ->
  exists fv', get_values mode (parts (take_value t mode r f e j)) = Some fv' /\ fieldValue fv' = fieldValue fv ++ [e] /\ Fields.maxFields fv' = Fields.maxFields fv.
Proof.
  intros Hv Hm. unfold take_value. set (j1 := if cond_clears _ _ _ _ _ then _ else _).
  assert (H1 : get_values mode (parts j1) = Some fv) by (unfold j1; by case_match). pose proof (values_alter mode (add_value e) j1 fv H1) as H2.
  set (j2 := alter_values mode (add_value e) j1) in *. set (j3 := if snd r then _ else _). assert (H3 : get_values mode (parts j3) = Some (add_value e fv)) by (unfold j3; by case_match).
  assert (Ha : fieldValue (add_value e fv) = fieldValue fv ++ [e] /\ Fields.maxFields (add_value e fv) = Fields.maxFields fv).
  { unfold add_value. rewrite (proj2 (Z.eqb_neq _ _)) by lia. split; reflexivity. }
  destruct (fst r <? key_fields t); [exists (add_value e fv); tauto|].
  exists (update_type_mask (flags f) (add_value e fv)). split; [apply values_alter, H3|exact Ha].
Qed.

Lemma nibbles op vt : 0 <= op < 16 -> 0 <= vt < 16 -> let b := wrap 8 (Z.shiftl op 4 + vt) in Z.land b 0xF = vt /\ Z.shiftr b 4 = op.
Proof.
  intros Ho Hv. cbv zeta. rewrite shiftl8 by lia. rewrite wrap_small by (unfold in_width; lia). rewrite land_15, shiftr8 by lia. split; zdm.
Qed.

Section Values.
Context `{TextLaws} (t : DTCTableDefinition) (mode : Z).

(** An operation as it is sent ([bs]) and as it arrives ([e]); [r] is what its
    field stands for. *)
Inductive sent_value : list Z -> Z * bool -> FieldDefinition -> SFieldValue -> Prop :=
| sent_value_intro bf bv r f op vt v w :
    decodes (S := DtcJob) (decode_field_id t) bf r -> field_at t (fst r) = Some f -> 0 <= fst r <= num_fields t ->
    0 <= op < 16 -> 0 <= vt < 16 -> check_operation t mode (fst r) op vt f = Some None ->
    coded vt v bv -> wired vt v = Some w ->
    sent_value (wrap 8 (Z.shiftl op 4 + vt) :: bf ++ bv) r f (mkFV (fst r) op vt w).

Lemma cond_clears_type i op vt f : check_operation t mode i op vt f = Some None -> (vt <? DField.TotalType) = true.
Proof. unfold check_operation. intros E. destruct (Z.leb_spec DField.TotalType vt); [discriminate|]. apply Z.ltb_lt. lia. Qed.

Lemma value_round_run bs r f e n rest j fv km : sent_value bs r f e -> Z.of_nat (length bs) <= n ->
  get_values mode (parts j) = Some fv -> Fields.numFields fv < Fields.maxFields fv -> (fst r < key_fields t -> Z.testbit km (fst r) = false) ->
  value_round t mode km (mkD (mkBin n (bs ++ rest)) j) =
  Some (Ok (if fst r <? key_fields t then Z.lor km (2 ^ fst r) else km), mkD (mkBin (n - Z.of_nat (length bs)) rest) (take_value t mode r f e j)).
Proof.
  intros Hs Hn Hv Hm Hk. destruct Hs as [bf bv [i nd] f op vt v w Hf Ef Hi Hop Hvt Hc Hcode Hw]. cbn [fst snd] in *.
  cbn [length] in Hn. rewrite length_app in Hn. destruct (nibbles op vt Hop Hvt) as [En1 En2].
  unfold value_round. rewrite bind_is_empty. cbn [len bin]. rewrite (proj2 (Z.leb_gt n 0)) by lia. cbn [app]. rewrite bind_next, En1, En2.
  rewrite <- app_assoc. rewrite (bind_ok _ _ _ _ _ (Hf (n - 1) (bv ++ rest) j ltac:(lia))). cbv iota beta.
  rewrite (proj2 (Z.ltb_ge (num_fields t) i)) by lia. rewrite Ef. rewrite (cond_clears_type _ _ _ _ Hc). cbn [andb].
  set (j1 := if cond_clears t mode i op f then clear_all_rows j else j). set (m := n - 1 - Z.of_nat (length bf)).
  assert (H1 : get_values mode (parts j1) = Some fv) by (unfold j1; by case_match).
  etrans; [apply (bind_ok (try_ (Some f)) _ _ f (mkD (mkBin m (bv ++ rest)) j)); reflexivity|]. cbv beta.
  etrans; [apply (bind_ok _ _ _ tt (mkD (mkBin m (bv ++ rest)) j1)); unfold j1; by destruct (cond_clears t mode i op f)|]. cbv beta.
  rewrite Hc. etrans; [apply (bind_ok (try_ (Some None)) _ _ None (mkD (mkBin m (bv ++ rest)) j1)); reflexivity|]. cbv iota beta.
  pose proof (coded_decodes (S := DtcJob) _ _ _ Hcode m rest j1 ltac:(unfold m; lia)) as Hd. rewrite Hw in Hd.
  rewrite (bind_ok _ _ _ _ _ Hd), bind_get_obj. cbn [obj]. rewrite H1. set (m' := m - Z.of_nat (length bv)).
  etrans; [apply (bind_ok (try_ (Some fv)) _ _ fv (mkD (mkBin m' rest) j1)); reflexivity|]. cbv beta.
  rewrite (proj2 (Z.eqb_neq (Fields.numFields fv) (Fields.maxFields fv))) by lia.
  etrans; [apply (bind_ok (try_ (Some w)) _ _ w (mkD (mkBin m' rest) j1)); reflexivity|]. cbv beta.
  unfold take_value. cbn [fst snd oper]. fold j1. set (j2 := alter_values mode (add_value (mkFV i op vt w)) j1).
  etrans; [apply (bind_ok _ _ _ tt (mkD (mkBin m' rest) j2)); reflexivity|]. cbv beta. set (j3 := if nd then need_table j2 else j2).
  etrans; [apply (bind_ok _ _ _ tt (mkD (mkBin m' rest) j3)); unfold j3; by destruct nd|]. cbv beta.
  assert (Em : m' = n - Z.of_nat (S (length (bf ++ bv)))) by (unfold m', m; rewrite length_app; lia).
  destruct (Z.ltb_spec i (key_fields t)) as [Hlt|Hge].
  - rewrite (Hk Hlt). cbn [length]. rewrite <- Em. reflexivity.
  - cbn [length]. rewrite <- Em. reflexivity.
Qed.

(** The key fields that occur are distinct. *)
Fixpoint keys_once (km : Z) (rs : list (Z * bool)) : bool :=
  match rs with
  | [] => true
  | r :: rs => if fst r <? key_fields t then negb (Z.testbit km (fst r)) && keys_once (Z.lor km (2 ^ fst r)) rs else keys_once km rs
  end.

(** A list of operations: bytes, what the fields stand for, and the values. *)
Inductive sent_values : list Z -> list (Z * bool) -> list SFieldValue -> Prop :=
| sent_nil : sent_values [] [] []
| sent_cons bs r f e bss rs es : sent_value bs r f e -> sent_values bss rs es -> sent_values (bs ++ bss) (r :: rs) (e :: es).

Lemma value_loop_run bs rs es : sent_values bs rs es -> forall n rest j fv km, Z.of_nat (length bs) <= n ->
  get_values mode (parts j) = Some fv -> Fields.numFields fv + Z.of_nat (length es) <= Fields.maxFields fv -> keys_once km rs = true ->
  exists j' fv', value_loop (length es) t mode km (mkD (mkBin n (bs ++ rest)) j) = Some (Ok tt, mkD (mkBin (n - Z.of_nat (length bs)) rest) j') /\
    get_values mode (parts j') = Some fv' /\ fieldValue fv' = fieldValue fv ++ es.
Proof.
  induction 1 as [|bs r f e bss rs es He _ IH]; intros n rest j fv km Hn Hv Hm Hk; cbn [length value_loop].
  { exists j, fv. rewrite app_nil_r, Z.sub_0_r. split_and!; [reflexivity|exact Hv|reflexivity]. }
  rewrite length_app in Hn. cbn [length] in Hm. cbn [keys_once] in Hk.
  assert (Hkey : fst r < key_fields t -> Z.testbit km (fst r) = false).
  { intros Hlt. rewrite (proj2 (Z.ltb_lt _ _) Hlt) in Hk. apply andb_prop in Hk as [Hk _]. by apply negb_true_iff. }
  destruct (take_value_values t mode r f e j fv Hv ltac:(lia)) as (fv1 & Hv1 & E1 & M1).
  rewrite <- app_assoc. rewrite (bind_ok _ _ _ _ _ (value_round_run bs r f e n (bss ++ rest) j fv km He ltac:(lia) Hv ltac:(lia) Hkey)).
  destruct (IH (n - Z.of_nat (length bs)) rest (take_value t mode r f e j) fv1 (if fst r <? key_fields t then Z.lor km (2 ^ fst r) else km)) as (j' & fv' & E & Hv' & Ef); try lia.
  - exact Hv1.
  - unfold Fields.numFields in *. rewrite E1, M1, length_app. cbn [length]. lia.
  - destruct (fst r <? key_fields t); [apply andb_prop in Hk as [_ Hk]|]; exact Hk.
  - exists j', fv'. split_and!; [|exact Hv'|rewrite Ef, E1, <- app_assoc; reflexivity].
    rewrite E, length_app, Nat2Z.inj_add, Z.sub_add_distr. reflexivity.
Qed.

Lemma sent_values_length bs rs es : sent_values bs rs es -> length rs = length es.
Proof. induction 1; cbn; congruence. Qed.

(** The whole section, for a job without operations. *)
Lemma decode_field_value_run bs rs es rest j : sent_values bs rs es -> 1 <= Z.of_nat (length es) <= 255 -> get_values mode (parts j) = None -> keys_once 0 rs = true ->
  exists j' fv, decode_field_value t mode (mkD (mkBin (Z.of_nat (length bs) + 1) (Z.of_nat (length es) :: bs ++ rest)) j) = Some (Ok tt, mkD (mkBin 0 rest) j') /\
    get_values mode (parts j') = Some fv /\ fieldValue fv = es.
Proof.
  intros Hs Hl Hv Hk. unfold decode_field_value. rewrite bind_is_empty. cbn [len bin]. rewrite (proj2 (Z.leb_gt _ 0)) by lia. rewrite bind_next.
  rewrite (proj2 (Z.eqb_neq _ 0)) by lia. set (num := Z.of_nat (length es)) in *.
  set (j0 := on_parts (set_values mode (new_field_value num)) j).
  assert (E0 : forall d, d = mkD (mkBin (Z.of_nat (length bs) + 1 - 1) (bs ++ rest)) j ->
    modify_job (fun j => let fv := match get_values mode (parts j) with Some f => f | None => new_field_value num end in
      on_parts (set_values mode (if Fields.maxFields fv <? num then Realloc num fv else fv)) j) d = Some (Ok tt, mkD (mkBin (Z.of_nat (length bs)) (bs ++ rest)) j0)).
  { intros d ->. unfold modify_job, mbind, dec_bind, get_obj, set_obj. cbn [obj bin]. rewrite Hv. cbn [Fields.maxFields new_field_value].
    rewrite (proj2 (Z.ltb_ge (Z.max 0 num) num)) by lia. replace (Z.of_nat (length bs) + 1 - 1) with (Z.of_nat (length bs)) by lia. reflexivity. }
  rewrite (bind_ok _ _ _ _ _ (E0 _ eq_refl)).
  destruct (value_loop_run bs rs es Hs (Z.of_nat (length bs)) rest j0 (new_field_value num) 0) as (j' & fv & E & Hv' & Ef); try lia; try exact Hk.
  { apply get_set_values. }
  { cbn. unfold Fields.numFields. cbn. lia. }
  unfold num. rewrite Nat2Z.id. rewrite (bind_ok _ _ _ _ _ E), bind_is_empty. cbn [len bin]. rewrite Z.sub_diag. cbn.
  exists j', fv. split_and!; [reflexivity|exact Hv'|exact Ef].
Qed.
End Values.

(** ** What the client sends *)

Section Client.
Context `{TextLaws} (t : DTCTableDefinition) (mode : Z).

(** An entry the server accepts: its field is there, and the operation and the
    value fit it. *)
Definition acceptable (e : NamedValue) (r : Z * bool) : Prop :=
  let f := nv_field e in let vt := sent_type (nv_type e) in
  sent_field t (fid f) (nlen f) (name f) r /\ 0 <= fst r <= num_fields t /\ 0 <= nv_oper e < 16 /\ vt <> 0 /\ fits vt (nv_val e) /\
  exists d, field_at t (fst r) = Some d /\ check_operation t mode (fst r) (nv_oper e) vt d = Some None.

(** The entry as it arrives. *)
Definition arrives (e : NamedValue) (r : Z * bool) : option SFieldValue :=
  let vt := sent_type (nv_type e) in w ← wired vt (nv_val e); Some (mkFV (fst r) (nv_oper e) vt w).

Lemma encode_named_sent es rs : Forall2 acceptable es rs -> exists bs vs,
  encode_named_values es = Some bs /\ sent_values t mode bs rs vs /\ Forall2 (fun er v => arrives (fst er) (snd er) = Some v) (zip es rs) vs.
Proof.
  induction 1 as [|e r es rs He _ IH]; [exists [], []; repeat constructor|].
  destruct He as (Hf & Hr & Ho & Ht & Hv & d & Ed & Hc). destruct IH as (bs & vs & E & Hs & Ha). set (vt := sent_type (nv_type e)) in *.
  destruct (encode_coded vt (nv_val e) Hv) as (bv & Eb & Hcode). destruct (fits_wired vt (nv_val e) Ht Hv) as [w Ew].
  assert (Hvt : 0 <= vt < 16) by (destruct (fits_types _ _ Hv) as [?|[?|[?|[?|[?|?]]]]]; lia).
  eexists. exists (mkFV (fst r) (nv_oper e) vt w :: vs). split_and!.
  - cbn [encode_named_values]. fold vt. rewrite Eb. cbn [mbind option_bind]. rewrite E. reflexivity.
  - set (bf := encode_field _ _ _).
    replace (wrap 8 (Z.shiftl (nv_oper e) 4 + vt) :: bf ++ bv ++ bs) with ((wrap 8 (Z.shiftl (nv_oper e) 4 + vt) :: bf ++ bv) ++ bs) by (cbn; rewrite <- app_assoc; reflexivity).
    apply sent_cons with d; [|exact Hs]. apply sent_value_intro with (nv_val e); try assumption. apply decode_field_id_sent, Hf.
  - cbn [zip zip_with]. constructor; [|exact Ha]. cbn [fst snd]. unfold arrives. fold vt. rewrite Ew. reflexivity.
Qed.

(** From the client's list to the server's. *)
Lemma values_trip s rs rest j : Forall2 acceptable (val_fields s) rs -> 1 <= Z.of_nat (length (val_fields s)) <= 255 ->
  get_values mode (parts j) = None -> keys_once t 0 rs = true -> exists bs j' fv,
  encode_values_by_name s = Some bs /\
  decode_field_value t mode (mkD (mkBin (Z.of_nat (length bs)) (bs ++ rest)) j) = Some (Ok tt, mkD (mkBin 0 rest) j') /\
  get_values mode (parts j') = Some fv /\
  Forall2 (fun er v => arrives (fst er) (snd er) = Some v) (zip (val_fields s) rs) (fieldValue fv).
Proof.
  intros Ha Hl Hj Hk. destruct (encode_named_sent _ _ Ha) as (bs & vs & E & Hs & Hv).
  assert (Hlen : length vs = length (val_fields s)) by (rewrite <- (sent_values_length _ _ _ _ _ Hs); symmetry; apply (Forall2_length _ _ _ Ha)).
  destruct (decode_field_value_run t mode bs rs vs rest j Hs ltac:(lia) Hj Hk) as (j' & fv & Ed & Hg & Ef).
  exists (Z.of_nat (length vs) :: bs), j', fv. split_and!; [|cbn [length app]; rewrite Nat2Z.inj_succ, <- Z.add_1_r; exact Ed|exact Hg|rewrite Ef; exact Hv].
  unfold encode_values_by_name. rewrite (proj2 (Z.eqb_neq _ 0)) by lia. rewrite E. cbn. rewrite wrap_small by (unfold in_width; lia). rewrite Hlen. reflexivity.
Qed.

(** The computed size of the client's list. *)
Lemma sent_type_size v ty : encoded_bytes_data_value v (sent_type ty) = encoded_bytes_data_value v ty.
Proof. unfold sent_type. destruct (Z.eqb_spec ty DField.Unsigned) as [->|]; reflexivity. Qed.

Lemma encode_field_size r i nl nm : sent_field t i nl nm r -> Z.of_nat (length (encode_field i nl nm)) = encoded_bytes_field i nl.
Proof.
  intros [[Hi _]|(-> & -> & Hn & _)]; unfold encode_field, encoded_bytes_field.
  - destruct (Z.eqb_spec i 0) as [->|]; [reflexivity|]. rewrite (proj2 (Z.eqb_neq i 255)) by lia. reflexivity.
  - cbn -[Z.of_nat Z.add]. rewrite length_take. lia.
Qed.

Lemma named_size es rs bs n : Forall2 acceptable es rs -> encode_named_values es = Some bs -> encoded_bytes_named_values es n = Some (n + Z.of_nat (length bs)).
Proof.
  intros Ha. revert bs n. induction Ha as [|e r es rs He _ IH]; intros bs n E; cbn [encode_named_values encoded_bytes_named_values] in *.
  { injection E as <-. f_equal. cbn. lia. }
  destruct He as (Hf & _ & _ & _ & Hv & _). destruct (encode_coded _ _ Hv) as (bv & Eb & Hcode). pose proof (coded_size _ _ _ Hcode) as Es.
  rewrite Eb in E. cbn in E. destruct (encode_named_values es) as [cs|] eqn:Ec; [|discriminate]. cbn in E. injection E as <-.
  rewrite <- sent_type_size, Es. cbn [mbind option_bind]. rewrite (IH cs) by reflexivity. f_equal.
  cbn [length]. rewrite ! length_app. pose proof (encode_field_size _ _ _ _ Hf). lia.
Qed.
End Client.
