(* ===== verification/Md5.v ===== *)
(** * MD5 (src/libs/common/algorithm/md5.h, md5.cc)

    The digest of a table definition.  Words are 32-bit integers in [Z]; the
    buffer [in] is the list of its 64 bytes. *)

From S2P Require Import Prelude.

(** [rotl w s] is [w << s | w >> (32 - s)]. *)
Definition rotl (w s : Z) : Z := Z.lor (wrap 32 (Z.shiftl w s)) (Z.shiftr w (32 - s)).

Definition F1 (x y z : Z) : Z := Z.lxor z (Z.land x (Z.lxor y z)).
Definition F2 (x y z : Z) : Z := F1 z x y.
Definition F3 (x y z : Z) : Z := Z.lxor (Z.lxor x y) z.
Definition F4 (x y z : Z) : Z := Z.lxor y (Z.lor x (not32 z)).

Definition MD5STEP (f : Z -> Z -> Z -> Z) (w x y z data s : Z) : Z :=
  let w := wrap 32 (w + wrap 32 (f x y z + data)) in
  let w := rotl w s in wrap 32 (w + x).

(** The steps of [MD5Transform]: function, word, constant and shift.  From one
    step to the next the registers take the places of their neighbours. *)
Record Step := mkStep { step_f : Z -> Z -> Z -> Z; step_in : nat; step_const : Z; step_shift : Z }.

Definition md5_steps : list Step :=
  [
   mkStep F1 0 0xd76aa478 7; mkStep F1 1 0xe8c7b756 12; mkStep F1 2 0x242070db 17; mkStep F1 3 0xc1bdceee 22;
   mkStep F1 4 0xf57c0faf 7; mkStep F1 5 0x4787c62a 12; mkStep F1 6 0xa8304613 17; mkStep F1 7 0xfd469501 22;
   mkStep F1 8 0x698098d8 7; mkStep F1 9 0x8b44f7af 12; mkStep F1 10 0xffff5bb1 17; mkStep F1 11 0x895cd7be 22;
   mkStep F1 12 0x6b901122 7; mkStep F1 13 0xfd987193 12; mkStep F1 14 0xa679438e 17; mkStep F1 15 0x49b40821 22;
   mkStep F2 1 0xf61e2562 5; mkStep F2 6 0xc040b340 9; mkStep F2 11 0x265e5a51 14; mkStep F2 0 0xe9b6c7aa 20;
   mkStep F2 5 0xd62f105d 5; mkStep F2 10 0x02441453 9; mkStep F2 15 0xd8a1e681 14; mkStep F2 4 0xe7d3fbc8 20;
   mkStep F2 9 0x21e1cde6 5; mkStep F2 14 0xc33707d6 9; mkStep F2 3 0xf4d50d87 14; mkStep F2 8 0x455a14ed 20;
   mkStep F2 13 0xa9e3e905 5; mkStep F2 2 0xfcefa3f8 9; mkStep F2 7 0x676f02d9 14; mkStep F2 12 0x8d2a4c8a 20;
   mkStep F3 5 0xfffa3942 4; mkStep F3 8 0x8771f681 11; mkStep F3 11 0x6d9d6122 16; mkStep F3 14 0xfde5380c 23;
   mkStep F3 1 0xa4beea44 4; mkStep F3 4 0x4bdecfa9 11; mkStep F3 7 0xf6bb4b60 16; mkStep F3 10 0xbebfbc70 23;
   mkStep F3 13 0x289b7ec6 4; mkStep F3 0 0xeaa127fa 11; mkStep F3 3 0xd4ef3085 16; mkStep F3 6 0x04881d05 23;
   mkStep F3 9 0xd9d4d039 4; mkStep F3 12 0xe6db99e5 11; mkStep F3 15 0x1fa27cf8 16; mkStep F3 2 0xc4ac5665 23;
   mkStep F4 0 0xf4292244 6; mkStep F4 7 0x432aff97 10; mkStep F4 14 0xab9423a7 15; mkStep F4 5 0xfc93a039 21;
   mkStep F4 12 0x655b59c3 6; mkStep F4 3 0x8f0ccc92 10; mkStep F4 10 0xffeff47d 15; mkStep F4 1 0x85845dd1 21;
   mkStep F4 8 0x6fa87e4f 6; mkStep F4 15 0xfe2ce6e0 10; mkStep F4 6 0xa3014314 15; mkStep F4 13 0x4e0811a1 21;
   mkStep F4 4 0xf7537e82 6; mkStep F4 11 0xbd3af235 10; mkStep F4 2 0x2ad7d2bb 15; mkStep F4 9 0xeb86d391 21].

Record Words := mkWords { wa : Z; wb : Z; wc : Z; wd : Z }.

Definition md5_step (in_ : list Z) (r : Words) (s : Step) : Words :=
  mkWords (wd r) (MD5STEP (step_f s) (wa r) (wb r) (wc r) (wd r) (wrap 32 (default 0 (in_ !! step_in s) + step_const s)) (step_shift s)) (wb r) (wc r).

Definition MD5Transform (buf : Words) (in_ : list Z) : Words :=
  let r := fold_left (md5_step in_) md5_steps buf in
  mkWords (wrap 32 (wa buf + wa r)) (wrap 32 (wb buf + wb r)) (wrap 32 (wc buf + wc r)) (wrap 32 (wd buf + wd r)).

(** The bytes of the buffer as words of a little-endian machine, and back. *)
Fixpoint words_of (n : nat) (bs : list Z) : list Z :=
  match n with
  | O => []
  | S n => match bs with b0 :: b1 :: b2 :: b3 :: bs => b0 + 2 ^ 8 * b1 + 2 ^ 16 * b2 + 2 ^ 24 * b3 :: words_of n bs | _ => [] end
  end.
Definition word_bytes (w : Z) : list Z := [w mod 256; w / 2 ^ 8 mod 256; w / 2 ^ 16 mod 256; w / 2 ^ 24 mod 256].

Record MD5Context := mkMD5 { buf : Words; bits0 : Z; bits1 : Z; in_ : list Z }.

(** [MD5Init] leaves the buffer as it was. *)
Definition MD5Init (ctx : MD5Context) : MD5Context := mkMD5 (mkWords 0x67452301 0xefcdab89 0x98badcfe 0x10325476) 0 0 (in_ ctx).

(** [memcpy] of [bs] to [l + off]. *)
Definition put (off : nat) (bs l : list Z) : list Z := take off l ++ bs ++ drop (off + length bs) l.

Definition transform_in (ctx : MD5Context) : MD5Context := mkMD5 (MD5Transform (buf ctx) (words_of 16 (in_ ctx))) (bits0 ctx) (bits1 ctx) (in_ ctx).
Definition set_in (l : list Z) (ctx : MD5Context) : MD5Context := mkMD5 (buf ctx) (bits0 ctx) (bits1 ctx) l.

(** The loop over the data in pieces of 64 bytes, and what is left. *)
Fixpoint update_blocks (n : nat) (bs : list Z) (ctx : MD5Context) : MD5Context :=
  match n with
  | O => set_in (put 0 bs (in_ ctx)) ctx
  | S n => update_blocks n (drop 64 bs) (transform_in (set_in (put 0 (take 64 bs) (in_ ctx)) ctx))
  end.

Definition MD5Update (bs : list Z) (ctx : MD5Context) : MD5Context :=
  let len := Z.of_nat (length bs) in
  let t := bits0 ctx in
  let b0 := wrap 32 (t + wrap 32 (Z.shiftl len 3)) in
  let b1 := if b0 <? t then wrap 32 (bits1 ctx + 1) else bits1 ctx in
  let ctx := mkMD5 (buf ctx) b0 (wrap 32 (b1 + Z.shiftr len 29)) (in_ ctx) in
  let t := Z.to_nat (Z.land (Z.shiftr t 3) 0x3f) in
  let blocks bs ctx := update_blocks (length bs / 64) bs ctx in
  if Nat.eqb t 0 then blocks bs ctx
  else if Nat.ltb (length bs) (64 - t) then set_in (put t bs (in_ ctx)) ctx
  else blocks (drop (64 - t) bs) (transform_in (set_in (put t (take (64 - t) bs) (in_ ctx)) ctx)).

Definition MD5Final (ctx : MD5Context) : list Z :=
  let count := Z.to_nat (Z.land (Z.shiftr (bits0 ctx) 3) 0x3F) in
  let ctx := set_in (put count [0x80] (in_ ctx)) ctx in
  let left := (64 - 1 - count)%nat in
  let ctx :=
    if Nat.ltb left 8 then
      let ctx := transform_in (set_in (put (count + 1) (replicate left 0) (in_ ctx)) ctx) in
      set_in (put 0 (replicate 56 0) (in_ ctx)) ctx
    else set_in (put (count + 1) (replicate (left - 8) 0) (in_ ctx)) ctx in
  let ctx := set_in (put 56 (word_bytes (bits0 ctx) ++ word_bytes (bits1 ctx)) (in_ ctx)) ctx in
  let ctx := transform_in ctx in
  word_bytes (wa (buf ctx)) ++ word_bytes (wb (buf ctx)) ++ word_bytes (wc (buf ctx)) ++ word_bytes (wd (buf ctx)).
