(* ===== verification/Md5Spec.v ===== *)
(** * MD5 computes the digest of RFC 1321

    [md5 m] is the definition of the RFC: the message is padded, cut into
    blocks of sixteen words, and every block goes through 64 rounds given by
    their number, with constants from the sine function.  Feeding a message in
    pieces of any sizes gives this digest. *)

From S2P Require Import Prelude Md5.

(** ** The definition *)

Definition F (x y z : Z) : Z := Z.lor (Z.land x y) (Z.land (not32 x) z).
Definition G (x y z : Z) : Z := Z.lor (Z.land x z) (Z.land y (not32 z)).
Definition H (x y z : Z) : Z := Z.lxor x (Z.lxor y z).
Definition I (x y z : Z) : Z := Z.lxor y (Z.lor x (not32 z)).

(** Round [i]: function, word and shift. *)
Definition round_f (i : nat) : Z -> Z -> Z -> Z := match (i / 16)%nat with O => F | 1%nat => G | 2%nat => H | _ => I end.
Definition round_k (i : nat) : nat := match (i / 16)%nat with O => i | 1%nat => (5 * i + 1) mod 16 | 2%nat => (3 * i + 5) mod 16 | _ => (7 * i) mod 16 end.
Definition round_s (i : nat) : Z := default 0 ([7; 12; 17; 22; 5; 9; 14; 20; 4; 11; 16; 23; 6; 10; 15; 21] !! (4 * (i / 16) + i mod 4)%nat).

(** The sum of the first [n + 1] terms of the sine series at [x] without its
    first factor [x], as a fraction: 1 - x^2/(2*3) (1 - x^2/(4*5) (...)). *)
Fixpoint sine_series (n : nat) (k x : Z) : Z * Z :=
  match n with
  | O => (1, 1)
  | S n => let '(p, q) := sine_series n (k + 1) x in let m := 2 * k * (2 * k + 1) in (q * m - x ^ 2 * p, q * m)
  end.

(** T[i] of the RFC: the integer part of 2^32 abs(sin(i)), the argument in
    radians.  The terms left out are below 64^263 / 263! < 2^-100. *)
Definition sine_table (i : Z) : Z := let '(p, q) := sine_series 130 1 i in (2 ^ 32 * Z.abs (i * p)) / q.
Definition round_t (i : nat) : Z := sine_table (Z.of_nat i + 1).

(** Round [i] on the registers (A, B, C, D): B becomes B + ((A + f(B,C,D) + X[k] + T) rotated by s), and the registers move on by one. *)
Definition round (X : list Z) (r : Words) (i : nat) : Words :=
  let sum := (wa r + round_f i (wb r) (wc r) (wd r) + default 0 (X !! round_k i) + round_t i) mod 2 ^ 32 in
  let turned := (sum * 2 ^ round_s i) mod 2 ^ 32 + sum / 2 ^ (32 - round_s i) in
  mkWords (wd r) ((wb r + turned) mod 2 ^ 32) (wb r) (wc r).

Definition compress (h : Words) (X : list Z) : Words :=
  let r := fold_left (round X) (seq 0 64) h in
  mkWords ((wa h + wa r) mod 2 ^ 32) ((wb h + wb r) mod 2 ^ 32) ((wc h + wc r) mod 2 ^ 32) ((wd h + wd r) mod 2 ^ 32).

(** The blocks of a message whose length is a multiple of 64. *)
Fixpoint blocks (n : nat) (l : list Z) : list (list Z) := match n with O => [] | S n => take 64 l :: blocks n (drop 64 l) end.
Definition blocks_of (l : list Z) : list (list Z) := blocks (length l / 64) l.

Definition padding (m : list Z) : list Z :=
  let bits := (8 * Z.of_nat (length m)) mod 2 ^ 64 in
  [0x80] ++ replicate ((119 - length m mod 64) mod 64) 0 ++ word_bytes (bits mod 2 ^ 32) ++ word_bytes (bits / 2 ^ 32).

Definition md5_start : Words := mkWords 0x67452301 0xefcdab89 0x98badcfe 0x10325476.
Definition output (w : Words) : list Z := word_bytes (wa w) ++ word_bytes (wb w) ++ word_bytes (wc w) ++ word_bytes (wd w).

Definition md5 (m : list Z) : list Z :=
  output (fold_left (fun h b => compress h (words_of 16 b)) (blocks_of (m ++ padding m)) md5_start).

(** ** One block *)

Definition words_ok (w : Words) : Prop := in_width 32 (wa w) /\ in_width 32 (wb w) /\ in_width 32 (wc w) /\ in_width 32 (wd w).

Lemma not32_bits x i : in_width 32 x -> 0 <= i -> Z.testbit (not32 x) i = (i <? 32) && negb (Z.testbit x i).
Proof.
  intros Hx Hi. unfold not32. change 4294967295 with (Z.ones 32). rewrite Z.sub_nocarry_ldiff.
  - rewrite Z.ldiff_spec, Z.testbit_ones by lia. destruct (Z.leb_spec 0 i); [reflexivity|lia].
  - apply Z.bits_inj'. intros j Hj. rewrite Z.ldiff_spec, Z.bits_0, Z.testbit_ones by lia. destruct (proj1 (in_width_bits 32 x ltac:(lia)) Hx) as [_ Hh].
    destruct (Z.ltb_spec j 32); [destruct (Z.leb_spec 0 j); [apply andb_false_r|lia]|rewrite Hh by lia; reflexivity].
Qed.

Lemma F1_is_F x y z : in_width 32 x -> in_width 32 y -> in_width 32 z -> F1 x y z = F x y z.
Proof.
  intros Hx Hy Hz. unfold F1, F. apply Z.bits_inj'. intros i Hi. rewrite Z.lxor_spec, Z.lor_spec, ! Z.land_spec, Z.lxor_spec, not32_bits by (exact Hx || lia).
  destruct (Z.ltb_spec i 32).
  - destruct (Z.testbit x i), (Z.testbit y i), (Z.testbit z i); reflexivity.
  - destruct (proj1 (in_width_bits 32 y ltac:(lia)) Hy) as [_ ->]; [|lia]. destruct (proj1 (in_width_bits 32 z ltac:(lia)) Hz) as [_ ->]; [|lia].
    by destruct (Z.testbit x i).
Qed.

Lemma F2_is_G x y z : in_width 32 x -> in_width 32 y -> in_width 32 z -> F2 x y z = G x y z.
Proof.
  intros Hx Hy Hz. unfold F2. rewrite F1_is_F by assumption. unfold F, G. rewrite (Z.land_comm z x), (Z.land_comm (not32 z) y). reflexivity.
Qed.

(** A step of the code and a round of the definition. *)
Definition step_is (s : Step) (i : nat) : Prop :=
  step_in s = round_k i /\ step_const s = round_t i /\ step_shift s = round_s i /\ 0 <= step_shift s < 32 /\
  forall x y z, in_width 32 x -> in_width 32 y -> in_width 32 z -> step_f s x y z = round_f i x y z.

Lemma steps_are_rounds : Forall2 step_is md5_steps (seq 0 64).
Proof.
  unfold md5_steps. cbn [seq].
  repeat (apply Forall2_cons; split; [split_and!; [vm_compute; reflexivity|vm_compute; reflexivity|vm_compute; reflexivity|vm_compute; congruence|vm_compute; reflexivity|]|]); [..|constructor].
  all: intros x y z Hx Hy Hz; cbn [step_f]; unfold round_f; cbn [Nat.div Nat.divmod fst Nat.sub];
    first [apply F1_is_F; assumption | apply F2_is_G; assumption | unfold F3, H; apply Z.lxor_assoc | reflexivity].
Qed.

#[local] Opaque sine_table.

Lemma rotl_sum w s : in_width 32 w -> 0 <= s < 32 -> rotl w s = (w * 2 ^ s) mod 2 ^ 32 + w / 2 ^ (32 - s).
Proof.
  intros Hw Hs. unfold rotl. set (a := wrap 32 (Z.shiftl w s)). set (b := Z.shiftr w (32 - s)).
  assert (E : Z.land a b = 0).
  { apply Z.bits_inj'. intros i Hi. unfold a, b. rewrite Z.land_spec, Z.bits_0, testbit_wrap, Z.shiftr_spec by lia. destruct (Z.ltb_spec i s).
    - rewrite Z.shiftl_spec_low by lia. rewrite andb_false_r. reflexivity.
    - destruct (proj1 (in_width_bits 32 w ltac:(lia)) Hw) as [_ ->]; [apply andb_false_r|lia]. }
  rewrite <- Z.lxor_lor, <- Z.add_nocarry_lxor by exact E. unfold a, b, wrap. rewrite Z.shiftl_mul_pow2, Z.shiftr_div_pow2 by lia. reflexivity.
Qed.

Lemma md5_step_round X r s i : words_ok r -> step_is s i -> md5_step X r s = round X r i.
Proof.
  intros (Ha & Hb & Hc & Hd) (Ek & Et & Es & Hs & Ef). unfold md5_step, round, MD5STEP. rewrite Ek, Et, Ef, <- Es by assumption. f_equal.
  set (f := round_f i _ _ _). set (x := default 0 _). set (k := round_t i).
  assert (E : wrap 32 (wa r + wrap 32 (f + wrap 32 (x + k))) = (wa r + f + x + k) mod 2 ^ 32).
  { rewrite wrap_add_r. replace (wa r + (f + wrap 32 (x + k))) with (wa r + f + wrap 32 (x + k)) by lia. rewrite wrap_add_r. unfold wrap. f_equal. lia. }
  rewrite E, rotl_sum by (exact Hs || apply (wrap_range 32); lia). unfold wrap. f_equal. lia.
Qed.

Lemma round_ok X r i : words_ok r -> words_ok (round X r i).
Proof. intros (Ha & Hb & Hc & Hd). unfold words_ok, round. cbn. split_and!; try assumption. apply (wrap_range 32). lia. Qed.

Lemma steps_rounds X ss ks r : Forall2 step_is ss ks -> words_ok r -> fold_left (md5_step X) ss r = fold_left (round X) ks r.
Proof.
  intros Hs. revert r. induction Hs as [|s i ss ks Hi _ IH]; intros r Hr; [reflexivity|]. cbn [fold_left].
  rewrite (md5_step_round X r s i Hr Hi). apply IH, round_ok, Hr.
Qed.

Lemma transform_compress h X : words_ok h -> MD5Transform h X = compress h X.
Proof. intros Hh. unfold MD5Transform, compress. rewrite (steps_rounds X md5_steps (seq 0 64) h steps_are_rounds Hh). reflexivity. Qed.

Lemma compress_eq h X Y : X = Y -> compress h (words_of 16 X) = compress h (words_of 16 Y).
Proof. intros ->. reflexivity. Qed.

Lemma compress_ok h X : words_ok (compress h X).
Proof. unfold words_ok, compress. cbn [wa wb wc wd]. split_and!; apply (wrap_range 32); lia. Qed.

(** ** Feeding in pieces *)

Definition absorb (w : Words) (l : list Z) : Words := fold_left (fun h b => compress h (words_of 16 b)) (blocks_of l) w.

Lemma blocks_app n l r : length l = (64 * n)%nat -> forall m, blocks (n + m) (l ++ r) = blocks n l ++ blocks m r.
Proof.
  revert l. induction n as [|n IH]; intros l Hl m; cbn [blocks plus app].
  { apply nil_length_inv in Hl as ->. reflexivity. }
  rewrite take_app_le, drop_app_le by lia. f_equal. apply IH. rewrite length_drop. lia.
Qed.

Lemma absorb_app w l r n : length l = (64 * n)%nat -> absorb w (l ++ r) = absorb (absorb w l) r.
Proof.
  intros Hl. unfold absorb, blocks_of. rewrite length_app, Hl, (Nat.mul_comm 64 n), Nat.div_add_l, Nat.div_mul by lia.
  rewrite blocks_app by lia. apply fold_left_app.
Qed.

Lemma absorb_block w b : length b = 64%nat -> absorb w b = compress w (words_of 16 b).
Proof. intros Hb. unfold absorb, blocks_of. rewrite Hb. cbn [Nat.div Nat.divmod fst Nat.sub blocks fold_left]. rewrite firstn_all2 by lia. reflexivity. Qed.

Lemma absorb_short w l : (length l < 64)%nat -> absorb w l = w.
Proof. intros Hl. unfold absorb, blocks_of. rewrite Nat.div_small by lia. reflexivity. Qed.

Lemma absorb_ok w l : words_ok w -> words_ok (absorb w l).
Proof.
  unfold absorb. generalize (blocks_of l). intros bs. revert w. induction bs as [|b bs IH]; intros w Hw; [exact Hw|]. cbn [fold_left]. apply IH, compress_ok.
Qed.

Lemma length_put off bs l : (off + length bs <= length l)%nat -> length (put off bs l) = length l.
Proof. intros Hl. unfold put. rewrite ! length_app, length_take, length_drop. lia. Qed.

Lemma take_put off bs l : (off <= length l)%nat -> take (off + length bs) (put off bs l) = take off l ++ bs.
Proof.
  intros Hl. unfold put. rewrite app_assoc. apply take_app_length'. rewrite length_app, length_take. lia.
Qed.

(** The context [ctx] has been fed the bytes [m]: the full blocks are in the
    words, the rest is at the start of the buffer. *)
Definition fed (m : list Z) (ctx : MD5Context) : Prop :=
  bits0 ctx + 2 ^ 32 * bits1 ctx = (8 * Z.of_nat (length m)) mod 2 ^ 64 /\ in_width 32 (bits0 ctx) /\ in_width 32 (bits1 ctx) /\
  length (in_ ctx) = 64%nat /\ words_ok (buf ctx) /\
  exists full tail, m = full ++ tail /\ (length tail < 64)%nat /\ (exists n, length full = (64 * n)%nat) /\
    buf ctx = absorb md5_start full /\ take (length tail) (in_ ctx) = tail.

Lemma fed_init ctx : length (in_ ctx) = 64%nat -> fed [] (MD5Init ctx).
Proof.
  intros Hl. split_and!; [reflexivity|unfold in_width; cbn; lia..|exact Hl|unfold words_ok, in_width; cbn; lia|].
  exists [], []. split_and!; [reflexivity|cbn; lia|exists 0%nat; reflexivity|reflexivity|reflexivity].
Qed.

(** The counter. *)
Lemma count_bits b0 b1 len total : in_width 32 b0 -> in_width 32 b1 -> 0 <= len < 2 ^ 32 -> b0 + 2 ^ 32 * b1 = (8 * total) mod 2 ^ 64 ->
  let c0 := wrap 32 (b0 + wrap 32 (Z.shiftl len 3)) in
  let c1 := wrap 32 ((if c0 <? b0 then wrap 32 (b1 + 1) else b1) + Z.shiftr len 29) in
  c0 + 2 ^ 32 * c1 = (8 * (total + len)) mod 2 ^ 64.
Proof.
  intros H0 H1 Hl E. cbv zeta. unfold in_width in *. rewrite Z.shiftl_mul_pow2, Z.shiftr_div_pow2 by lia. rewrite wrap_add_r.
  replace ((8 * (total + len)) mod 2 ^ 64) with ((b0 + 2 ^ 32 * b1 + 8 * len) mod 2 ^ 64) by (rewrite E, Z.add_mod_idemp_l by lia; f_equal; lia).
  clear E. set (c0 := wrap 32 (b0 + len * 2 ^ 3)).
  assert (exists k, b0 + len * 8 = c0 + 2 ^ 32 * k /\ 0 <= c0 < 2 ^ 32 /\ k = (b0 + len * 8) / 2 ^ 32) as (k & Ek & Hc & Hk).
  { exists ((b0 + len * 8) / 2 ^ 32). unfold c0, wrap. change (2 ^ 3) with 8. zdm. }
  assert (Hcarry : k = len / 2 ^ 29 + (if c0 <? b0 then 1 else 0)) by (destruct (Z.ltb_spec c0 b0); zdm).
  assert (Em : wrap 32 ((if c0 <? b0 then wrap 32 (b1 + 1) else b1) + len / 2 ^ 29) = (b1 + k) mod 2 ^ 32).
  { rewrite Hcarry. destruct (c0 <? b0); [rewrite wrap_add_l|]; unfold wrap; f_equal; lia. }
  rewrite Em. replace (b0 + 2 ^ 32 * b1 + 8 * len) with (c0 + 2 ^ 32 * (b1 + k)) by lia.
  set (q := b1 + k) in *. zdm.
Qed.

Lemma in_mod m ctx : fed m ctx -> Z.to_nat (Z.land (Z.shiftr (bits0 ctx) 3) 0x3f) = (length m mod 64)%nat.
Proof.
  intros (E & H0 & H1 & _). unfold in_width in *. change 0x3f with (Z.ones 6). rewrite Z.land_ones, Z.shiftr_div_pow2 by lia.
  assert (E2 : bits0 ctx / 2 ^ 3 mod 2 ^ 6 = Z.of_nat (length m) mod 64) by zdm. rewrite E2. change 64 with (Z.of_nat 64). rewrite <- Nat2Z.inj_mod by lia. apply Nat2Z.id.
Qed.

(** Whole blocks, then the rest. *)
Lemma update_blocks_spec n : forall bs ctx, length (in_ ctx) = 64%nat -> words_ok (buf ctx) -> (64 * n <= length bs < 64 * n + 64)%nat ->
  let c := update_blocks n bs ctx in
  bits0 c = bits0 ctx /\ bits1 c = bits1 ctx /\ length (in_ c) = 64%nat /\ words_ok (buf c) /\
  buf c = absorb (buf ctx) (take (64 * n) bs) /\ take (length bs - 64 * n) (in_ c) = drop (64 * n) bs.
Proof.
  induction n as [|n IH]; intros bs ctx Hl Hw Hb; cbv zeta; cbn [update_blocks].
  - split_and!; try reflexivity; [cbn [in_ set_in]; rewrite length_put; [exact Hl|lia]|exact Hw|].
    cbn [in_ set_in]. rewrite Nat.mul_0_r, Nat.sub_0_r. pose proof (take_put 0 bs (in_ ctx) ltac:(lia)) as E. cbn [plus take app] in E. rewrite E. symmetry. apply drop_0.
  - set (c1 := transform_in _). assert (Hin : in_ c1 = take 64 bs).
    { unfold c1. cbn [transform_in in_ set_in]. unfold put. cbn [take app plus]. rewrite length_take, drop_ge by lia. apply app_nil_r. }
    assert (Hbuf : buf c1 = compress (buf ctx) (words_of 16 (take 64 bs))).
    { unfold c1. cbn [transform_in buf set_in]. rewrite transform_compress by exact Hw. apply compress_eq. exact Hin. }
    destruct (IH (drop 64 bs) c1) as (E0 & E1 & E2 & E3 & E4 & E5).
    + rewrite Hin, length_take. lia.
    + rewrite Hbuf. apply compress_ok.
    + rewrite length_drop. lia.
    + split_and!; [exact E0|exact E1|exact E2|exact E3| |].
      * rewrite E4, Hbuf. replace (64 * S n)%nat with (64 + 64 * n)%nat by lia. rewrite <- (absorb_block _ (take 64 bs)) by (rewrite length_take; lia).
        rewrite <- (absorb_app _ _ _ 1) by (rewrite length_take; lia). f_equal. rewrite take_take_drop. reflexivity.
      * rewrite length_drop, drop_drop in E5. replace (length bs - 64 * S n)%nat with (length bs - 64 - 64 * n)%nat by lia. rewrite E5. f_equal. lia.
Qed.

(** The tail of a fed message. *)
Lemma fed_tail (m full tail : list Z) n : m = full ++ tail -> (length tail < 64)%nat -> length full = (64 * n)%nat -> (length m mod 64)%nat = length tail.
Proof. intros -> Ht Hf. rewrite length_app, Hf. rewrite Nat.add_comm, Nat.mul_comm, Nat.Div0.mod_add. apply Nat.mod_small. exact Ht. Qed.

(** Whole blocks and a rest, from words that took in [full]. *)
Lemma blocks_fed full bs ctx n : length full = (64 * n)%nat -> buf ctx = absorb md5_start full -> length (in_ ctx) = 64%nat -> words_ok (buf ctx) ->
  let c := update_blocks (length bs / 64) bs ctx in
  bits0 c = bits0 ctx /\ bits1 c = bits1 ctx /\ length (in_ c) = 64%nat /\ words_ok (buf c) /\
  exists full' tail', full ++ bs = full' ++ tail' /\ (length tail' < 64)%nat /\ (exists n', length full' = (64 * n')%nat) /\
    buf c = absorb md5_start full' /\ take (length tail') (in_ c) = tail'.
Proof.
  intros Hf Hbuf Hin Hw. set (k := (length bs / 64)%nat). pose proof (Nat.div_mod_eq (length bs) 64) as Hd. pose proof (Nat.mod_upper_bound (length bs) 64 ltac:(lia)) as Hr. fold k in Hd.
  destruct (update_blocks_spec k bs ctx Hin Hw ltac:(lia)) as (E0 & E1 & E2 & E3 & E4 & E5). cbv zeta. split_and!; try assumption.
  exists (full ++ take (64 * k) bs), (drop (64 * k) bs). split_and!.
  - rewrite <- app_assoc, take_drop. reflexivity.
  - rewrite length_drop. lia.
  - exists (n + k)%nat. rewrite length_app, length_take. lia.
  - rewrite E4, Hbuf, (absorb_app _ _ _ n) by exact Hf. reflexivity.
  - rewrite length_drop. exact E5.
Qed.

Lemma fed_update m bs ctx : fed m ctx -> Z.of_nat (length bs) < 2 ^ 32 -> fed (m ++ bs) (MD5Update bs ctx).
Proof.
  intros Hfed Hb. pose proof (in_mod m ctx Hfed) as Ht. destruct Hfed as (Ebits & H0 & H1 & Hin & Hw & full & tail & -> & Htail & [n Hn] & Hbuf & Htake).
  pose proof (count_bits _ _ (Z.of_nat (length bs)) _ H0 H1 ltac:(lia) Ebits) as Ec. cbv zeta in Ec. rewrite <- Nat2Z.inj_add, <- (length_app (full ++ tail) bs) in Ec.
  unfold MD5Update. cbv zeta. rewrite Ht, (fed_tail _ full tail n eq_refl Htail Hn). set (c0 := wrap 32 (bits0 ctx + _)) in *. set (c1 := wrap 32 (_ + Z.shiftr _ 29)) in *.
  set (ctx1 := mkMD5 (buf ctx) c0 c1 (in_ ctx)).
  enough (exists c, c = (if Nat.eqb (length tail) 0 then update_blocks (length bs / 64) bs ctx1
     else if Nat.ltb (length bs) (64 - length tail) then set_in (put (length tail) bs (in_ ctx1)) ctx1
     else update_blocks (length (drop (64 - length tail) bs) / 64) (drop (64 - length tail) bs) (transform_in (set_in (put (length tail) (take (64 - length tail) bs) (in_ ctx1)) ctx1))) /\
     bits0 c = c0 /\ bits1 c = c1 /\ length (in_ c) = 64%nat /\ words_ok (buf c) /\ exists full' tail', full ++ tail ++ bs = full' ++ tail' /\ (length tail' < 64)%nat /\
       (exists n', length full' = (64 * n')%nat) /\ buf c = absorb md5_start full' /\ take (length tail') (in_ c) = tail') as (c & <- & E0 & E1 & E2 & E3 & E4).
  { split_and!; [rewrite E0, E1; exact Ec|rewrite E0; apply wrap_range; lia|rewrite E1; apply wrap_range; lia|exact E2|exact E3|]. rewrite <- app_assoc. exact E4. }
  eexists. split; [reflexivity|]. destruct (Nat.eqb_spec (length tail) 0) as [Ez|Ez].
  { apply nil_length_inv in Ez as ->. rewrite app_nil_l. destruct (blocks_fed full bs ctx1 n Hn Hbuf Hin Hw) as (? & ? & ? & ? & ?). split_and!; assumption. }
  destruct (Nat.ltb_spec (length bs) (64 - length tail)) as [Hs|Hs].
  - split_and!; try reflexivity; [cbn [in_ set_in ctx1]; rewrite length_put; [exact Hin|rewrite Hin; lia]|exact Hw|].
    exists full, (tail ++ bs). split_and!; [reflexivity|rewrite length_app; lia|exists n; exact Hn|exact Hbuf|].
    cbn [in_ set_in ctx1]. rewrite length_app, take_put by lia. rewrite Htake. reflexivity.
  - set (k := (64 - length tail)%nat) in *. set (c2 := transform_in _). assert (Ein : in_ c2 = tail ++ take k bs).
    { unfold c2. cbn [transform_in in_ set_in ctx1]. unfold put. rewrite Htake, length_take, drop_ge by lia. rewrite app_nil_r. reflexivity. }
    assert (Ebuf : buf c2 = absorb md5_start (full ++ tail ++ take k bs)).
    { rewrite (absorb_app _ _ _ n Hn), absorb_block, <- Hbuf by (rewrite length_app, length_take; lia). unfold c2. cbn [transform_in buf set_in].
      rewrite transform_compress by exact Hw. apply compress_eq. exact Ein. }
    destruct (blocks_fed (full ++ tail ++ take k bs) (drop k bs) c2 (n + 1)) as (E0 & E1 & E2 & E3 & f' & t' & E4 & E5).
    + rewrite ! length_app, length_take. lia.
    + exact Ebuf.
    + rewrite Ein, length_app, length_take. lia.
    + rewrite Ebuf. apply absorb_ok. unfold words_ok, in_width. cbn. lia.
    + split_and!; try assumption. exists f', t'. split; [|exact E5]. rewrite <- E4, <- ! app_assoc, take_drop. reflexivity.
Qed.

(** A buffer whose first bytes are known, after a copy behind them. *)
Lemma put_prefix pre bs l : take (length pre) l = pre -> (length pre <= length l)%nat -> take (length (pre ++ bs)) (put (length pre) bs l) = pre ++ bs.
Proof. intros Hp Hl. rewrite length_app, take_put, Hp by exact Hl. reflexivity. Qed.

Lemma prefix_full (l pre : list Z) : take (length pre) l = pre -> length pre = length l -> l = pre.
Proof. intros Hp Hl. rewrite <- Hp, Hl. symmetry. apply firstn_all. Qed.

Lemma counter_bytes m ctx : fed m ctx ->
  word_bytes (bits0 ctx) ++ word_bytes (bits1 ctx) =
  word_bytes ((8 * Z.of_nat (length m)) mod 2 ^ 64 mod 2 ^ 32) ++ word_bytes ((8 * Z.of_nat (length m)) mod 2 ^ 64 / 2 ^ 32).
Proof.
  intros (E & H0 & H1 & _). unfold in_width in *. rewrite <- E. rewrite (Z.mul_comm (2 ^ 32)), Z.mod_add, Z.div_add, Z.mod_small, Z.div_small, Z.add_0_l by lia. reflexivity.
Qed.

(** The last steps: [pre] is the last block up to the counter. *)
Lemma final_block full pre cnt ctx n : length full = (64 * n)%nat -> buf ctx = absorb md5_start full -> words_ok (buf ctx) ->
  length (in_ ctx) = 64%nat -> length pre = 56%nat -> take 56 (in_ ctx) = pre -> length cnt = 8%nat ->
  buf (transform_in (set_in (put 56 cnt (in_ ctx)) ctx)) = absorb md5_start (full ++ pre ++ cnt).
Proof.
  intros Hf Hb Hw Hin Hp Ht Hc. cbn [transform_in set_in buf in_]. rewrite transform_compress by exact Hw.
  rewrite (absorb_app _ _ _ n Hf), absorb_block, <- Hb by (rewrite length_app; lia). apply compress_eq.
  unfold put. rewrite Ht, drop_ge, app_nil_r by lia. reflexivity.
Qed.

Lemma fed_final m ctx : fed m ctx -> MD5Final ctx = md5 m.
Proof.
  intros Hfed. pose proof (in_mod m ctx Hfed) as Ht. pose proof (counter_bytes m ctx Hfed) as Ecnt.
  destruct Hfed as (_ & _ & _ & Hin & Hw & full & tail & -> & Htail & [n Hn] & Hbuf & Htake). pose proof (fed_tail _ full tail n eq_refl Htail Hn) as Hmod.
  unfold MD5Final. cbv zeta. rewrite Ht, Hmod. set (c1 := set_in (put (length tail) [0x80] (in_ ctx)) ctx). set (z := (64 - 1 - length tail)%nat).
  assert (P1 : take (length (tail ++ [0x80])) (in_ c1) = tail ++ [0x80]) by (apply put_prefix; [exact Htake|rewrite Hin; lia]).
  assert (L1 : length (in_ c1) = 64%nat) by (cbn [c1 set_in in_]; rewrite length_put by (cbn [length]; lia); exact Hin).
  rewrite length_app in P1. cbn [length] in P1. unfold md5. fold (absorb md5_start ((full ++ tail) ++ padding (full ++ tail))).
  unfold padding. rewrite <- Ecnt, Hmod. set (cnt := word_bytes (bits0 ctx) ++ word_bytes (bits1 ctx)). fold (output).
  match goal with |- word_bytes (wa (buf ?c)) ++ _ = _ => change (output (buf c) = output (absorb md5_start ((full ++ tail) ++ [0x80] ++ replicate ((119 - length tail) mod 64) 0 ++ cnt))) end.
  f_equal. destruct (Nat.ltb_spec z 8) as [Hz|Hz].
  - replace ((119 - length tail) mod 64)%nat with (z + 56)%nat by (rewrite Nat.mod_small; lia). rewrite replicate_add.
    set (c2 := transform_in (set_in (put (length tail + 1) (replicate z 0) (in_ c1)) c1)). assert (P2 : in_ c2 = tail ++ [0x80] ++ replicate z 0).
    { unfold c2. cbn [transform_in set_in in_]. apply prefix_full; [|rewrite length_put by (rewrite length_replicate; lia); rewrite ! length_app, length_replicate, L1; cbn [length]; lia].
      rewrite app_assoc. replace (length tail + 1)%nat with (length (tail ++ [0x80])) by (rewrite length_app; reflexivity). apply put_prefix; rewrite length_app; cbn [length]; [exact P1|lia]. }
    assert (B2 : buf c2 = absorb md5_start (full ++ tail ++ [0x80] ++ replicate z 0)).
    { rewrite (absorb_app _ _ _ n Hn), absorb_block, <- Hbuf by (rewrite ! length_app, length_replicate; cbn [length]; lia).
      unfold c2. cbn [transform_in set_in buf]. rewrite transform_compress by exact Hw. apply compress_eq. exact P2. }
    assert (L2 : length (in_ c2) = 64%nat) by (rewrite P2, ! length_app, length_replicate; cbn [length]; lia).
    rewrite (final_block (full ++ tail ++ [0x80] ++ replicate z 0) (replicate 56 0) _ _ (n + 1)); [f_equal; rewrite <- ! app_assoc; reflexivity|..].
    + rewrite ! length_app, length_replicate. cbn [length]. lia.
    + exact B2.
    + cbn [set_in buf]. rewrite B2. apply absorb_ok. unfold words_ok, in_width. cbn. lia.
    + cbn [set_in in_]. rewrite length_put; [exact L2|rewrite L2; cbn [length replicate]; lia].
    + apply length_replicate.
    + cbn [set_in in_]. rewrite <- (length_replicate 56 0) at 1. apply (put_prefix [] (replicate 56 0)); cbn; [reflexivity|lia].
    + reflexivity.
  - replace ((119 - length tail) mod 64)%nat with (z - 8)%nat by (replace (119 - length tail)%nat with (z - 8 + 1 * 64)%nat by lia; rewrite Nat.Div0.mod_add, Nat.mod_small; lia).
    rewrite (final_block full (tail ++ [0x80] ++ replicate (z - 8) 0) _ _ n); [f_equal; rewrite <- ! app_assoc; reflexivity|exact Hn|exact Hbuf|exact Hw|..].
    + cbn [set_in in_]. rewrite length_put by (rewrite length_replicate; lia). exact L1.
    + rewrite ! length_app, length_replicate. cbn [length]. lia.
    + cbn [set_in in_]. pose proof (put_prefix (tail ++ [0x80]) (replicate (z - 8) 0) (in_ c1)) as E. rewrite ! length_app, length_replicate, <- app_assoc in E. cbn [length] in E.
      replace (length tail + 1 + (z - 8))%nat with 56%nat in E by lia. apply E; [exact P1|lia].
    + reflexivity.
Qed.

(** Any pieces. *)
Lemma md5_stream pieces ctx : length (in_ ctx) = 64%nat -> Forall (fun p => Z.of_nat (length p) < 2 ^ 32) pieces ->
  MD5Final (fold_left (fun c p => MD5Update p c) pieces (MD5Init ctx)) = md5 (concat pieces).
Proof.
  intros Hin Hp. apply fed_final. pose proof (fed_init ctx Hin) as H0. change (concat pieces) with ([] ++ concat pieces). revert H0. generalize (MD5Init ctx) (@nil Z).
  induction Hp as [|p ps Hp _ IH]; intros c m Hc; cbn [fold_left concat]; [rewrite app_nil_r; exact Hc|].
  rewrite app_assoc. apply IH, fed_update; assumption.
Qed.
