(* ===== verification/TablePack.v ===== *)
(** * Table definitions on the wire (src/libs/common/table/table_def.cc)

    [build_info_cache] packs a table definition behind its MD5 digest;
    [Unpack] reads it into a client-side object. *)

From S2P Require Import Prelude Codec CodecSpec Sections SectionsSpec TableDef TableDefSpec Request Md5 Md5Spec.

Definition EC_TABLE_REDEFINED : Z := 2018.
Definition EC_VERSION_MISMATCH : Z := 2020.

(** [MD5Init], [MD5Update], [MD5Final] on a fresh context. *)
Definition md5_of (bs : list Z) : list Z := MD5Final (MD5Update bs (MD5Init (mkMD5 (mkWords 0 0 0 0) 0 0 (replicate 64 0)))).

Section Pack.
Context `{Text}.

(** The numbers [1 .. numFields] that have a field. *)
Definition has_name (t : DTCTableDefinition) (i : Z) : bool := match field_at t i with Some f => match fieldName f with Some _ => true | None => false end | None => false end.
Definition field_numbers (t : DTCTableDefinition) : list Z := filter (has_name t) (Z.of_nat <$> seq 1 (Z.to_nat (num_fields t))).

Definition packedFullFieldSet (t : DTCTableDefinition) : list Z :=
  let ids := wrap 8 <$> field_numbers t in wrap 8 (Z.of_nat (length ids) + 1) :: 0 :: 0 :: ids.
Definition packedFieldSet (t : DTCTableDefinition) : list Z :=
  let ids := wrap 8 <$> field_numbers t in wrap 8 (Z.of_nat (length ids)) :: ids.

(** One field: number, type, size, length of the name, name. *)
Definition pack_field (i : Z) (f : FieldDefinition) (nm : list Z) : list Z :=
  wrap 8 i :: wrap 8 (field_type f) :: encode_length (wrap 32 (fieldSize f)) ++ wrap 8 (nameLen f) :: nm.

Fixpoint pack_fields (t : DTCTableDefinition) (n : nat) (i : Z) : option (list Z * Z) :=
  match n with
  | O => Some ([], 0)
  | S n =>
      f ← field_at t i; '(rest, k) ← pack_fields t n (i + 1);
      Some (match fieldName f with None => (rest, k) | Some nm => (pack_field i f nm ++ rest, k + 1) end)
  end.

(** What the digest is taken of. *)
Definition pack_body (t : DTCTableDefinition) : option (list Z) :=
  nm ← tableName t;
  '(fs, nf) ← pack_fields t (Z.to_nat (num_fields t) + 1) 0;
  a ← encode_simple_section (attr t) DField.None;
  Some (1 :: wrap 8 (Z.of_nat (length nm)) :: nm ++ wrap 8 nf :: fs ++ a).

Definition packedTableDefinition (t : DTCTableDefinition) : option (list Z) := b ← pack_body t; Some (md5_of b ++ b).

(** The number of bytes allocated for it. *)
Fixpoint pack_sizes (t : DTCTableDefinition) (n : nat) (i : Z) : option Z :=
  match n with
  | O => Some 0
  | S n => f ← field_at t i; k ← pack_sizes t n (i + 1); Some (match fieldName f with None => k | Some _ => 1 + 1 + 5 + 1 + nameLen f + k end)
  end.
Definition packed_size (t : DTCTableDefinition) : option Z :=
  nm ← tableName t; k ← pack_sizes t (Z.to_nat (num_fields t) + 1) 0; a ← encoded_bytes_simple_section (attr t) DField.None;
  Some (16 + 1 + 1 + 1 + Z.of_nat (length nm) + k + a).

(** [build_info_cache] *)
Definition build_info_cache (t : DTCTableDefinition) : option DTCTableDefinition :=
  if num_fields t <=? 0 then Some t else b ← pack_body t; Some (set_hash (md5_of b) t).

(** ** Unpacking *)

Definition result_code {S} (r : Z) : dec S unit := if r =? 0 then mret tt else fun d => Some (Fail r, d).

Definition modify_code {S} (f : S -> option (Z * S)) : dec S unit :=
  s ← get_obj; '(r, s) ← try_ (f s); set_obj s;; result_code r.

Fixpoint unpack_fields (n : nat) : dec DTCTableDefinition unit :=
  match n with
  | O => mret tt
  | Datatypes.S n =>
      s ← shorter 5;
      if (s : bool) then fail EC_BAD_SECTION_LENGTH else
      i ← next_byte; type ← next_byte;
      size ← decode_length;
      s ← shorter 2;
      if (s : bool) then fail EC_BAD_SECTION_LENGTH else
      k ← next_byte;
      s ← shorter k;
      if (k =? 0) || s then fail EC_BAD_SECTION_LENGTH else
      nm ← bytes_at k; advance k;;
      name ← try_ (c_string (nm ++ [0]));
      modify_code (add_field i name type (sext 32 size));;
      unpack_fields n
  end.

(** [attr] is read as a section of its own. *)
Definition unpack_attr : dec DTCTableDefinition unit :=
  fun d => match decode_simple_section DField.None (mkD (bin d) (attr (obj d))) with
           | Some (r, e) => Some (r, mkD (bin e) (set_attr (obj e) (obj d)))
           | None => None
           end.

Definition Unpack : dec DTCTableDefinition unit :=
  t ← get_obj;
  if negb (num_fields t =? 0) || negb (maxFields (names t) =? 0) then fail EC_TABLE_REDEFINED else
  s ← shorter 24;
  if (s : bool) then fail EC_BAD_SECTION_LENGTH else
  l ← bin_len;
  all ← bytes_at l;
  if negb (bool_decide (md5_of (drop 16 all) = take 16 all)) then fail EC_VERSION_MISMATCH else
  modify (fun t => Some (set_hash (take 16 all) t));;
  advance 16;;
  v ← next_byte;
  if negb (v =? 1) then fail EC_VERSION_MISMATCH else
  n ← next_byte;
  s ← shorter (n + 1);
  if (n =? 0) || s then fail EC_BAD_SECTION_LENGTH else
  nm ← bytes_at n;
  modify (fun t => Some (set_table_name nm t));;
  advance n;;
  nf ← next_byte;
  if nf =? 0 then fail EC_BAD_SECTION_LENGTH else
  modify (fun t => Some (on_names (fun ns => mkNames (replicate (Z.to_nat nf) no_field) (nameHash ns) nf (usedFields ns) (numFields ns)) t));;
  unpack_fields (Z.to_nat nf);;
  unpack_attr.

End Pack.
