(* ===== verification/TablePackSpec.v ===== *)
(** * Packed table definitions

    [Unpack] runs through [add_field], which on a client-side object stores through a pointer
    that was never set: reading back a table with a field behind its key has no
    result. *)

From S2P Require Import Prelude Codec CodecSpec Sections SectionsSpec TableDef TableDefSpec Request Md5 Md5Spec TablePack.

(** A field that [add_field] accepts. *)
Definition good_field (f : FieldDefinition) (nm : list Z) : Prop :=
  fieldName f = Some nm /\ nameLen f = Z.of_nat (length nm) /\ 1 <= Z.of_nat (length nm) <= 255 /\ Forall (fun c => 0 < c < 256) nm /\
  0 <= field_type f < 256 /\ 0 < fieldSize f <= MAXPACKETSIZE /\ exists v, type_default (field_type f) (fieldSize f) = inr v.

Lemma bind_try {S A B} (o : option B) (f : B -> dec S A) d b : o = Some b -> (try_ o ≫= f) d = f b d.
Proof. intros ->. reflexivity. Qed.

(** Reading one packed field. *)
Lemma unpack_one n i f nm rest N t : good_field f nm -> 0 <= i < 256 -> Z.of_nat (length (pack_field i f nm)) <= N ->
  unpack_fields (S n) (mkD (mkBin N (pack_field i f nm ++ rest)) t) =
  (modify_code (add_field i nm (field_type f) (fieldSize f));; unpack_fields n)
    (mkD (mkBin (N - Z.of_nat (length (pack_field i f nm))) rest) t).
Proof.
  intros (Hnm & Hnl & Hl & Hc & Hty & Hsz & _) Hi HN. unfold MAXPACKETSIZE in Hsz. unfold pack_field in *. rewrite Hnl in *.
  rewrite ! wrap_small in * by (unfold in_width; lia). cbn [length] in HN. rewrite length_app in HN. cbn [length] in HN.
  pose proof (encode_length_size (fieldSize f)) as Es. set (el := encode_length (fieldSize f)) in *. assert (1 <= Z.of_nat (length el)) by (rewrite Es; unfold encoded_bytes_length; zcase; lia).
  cbn [unpack_fields]. rewrite bind_shorter. cbn [len bin]. rewrite (proj2 (Z.ltb_ge N 5)) by lia. cbn [app]. rewrite bind_next, bind_next.
  rewrite <- app_assoc. cbn [app]. rewrite (bind_ok _ _ _ _ _ (decode_length_encode (fieldSize f) ltac:(unfold MAXPACKETSIZE; lia) (N - 1 - 1) _ t ltac:(fold el; lia))). fold el.
  rewrite bind_shorter. cbn [len bin]. rewrite (proj2 (Z.ltb_ge _ 2)) by lia. rewrite bind_next, bind_shorter. cbn [len bin].
  rewrite (proj2 (Z.eqb_neq (Z.of_nat (length nm)) 0)), (proj2 (Z.ltb_ge _ (Z.of_nat (length nm)))) by lia. cbn [orb].
  rewrite bind_bytes_at by (cbn; rewrite length_app; lia). rewrite bind_advance by (cbn; rewrite length_app; lia). cbn [bin ptr len obj]. rewrite take_len, drop_len by reflexivity.
  rewrite (bind_try _ _ _ nm) by (apply c_string_app; exact Hc).
  replace (sext 32 (fieldSize f)) with (fieldSize f) by (unfold sext; rewrite (proj2 (Z.ltb_lt _ _)) by lia; reflexivity).
  do 3 f_equal. cbn [length]. rewrite length_app. cbn [length]. lia.
Qed.

(** [add_field] on a client-side object. *)
Definition client_side (t : DTCTableDefinition) : Prop := rawFields (side t) = None /\ defaultValue (side t) = None.

Lemma add_field_client i nm type size t v : client_side t -> type_default type size = inr v -> 0 < size -> 1 <= Z.of_nat (length nm) <= 255 ->
  0 <= i < maxFields (names t) -> i <= 255 -> field_at t i = Some no_field ->
  (i = 0 -> exists t', add_field i nm type size t = Some (0, t') /\ client_side t' /\ maxFields (names t') = maxFields (names t) /\
     (forall j, j <> i -> 0 <= j -> field_at t' j = field_at t j)) /\
  (i <> 0 -> add_field i nm type size t = None).
Proof.
  intros [Hr Hd] Ht Hs Hn Hi H255 Hf. unfold add_field. rewrite Hf. cbn [fieldName no_field]. unfold MAXFIELDS_PER_TABLE.
  rewrite (proj2 (Z.ltb_ge i 0)), (proj2 (Z.ltb_ge 255 i)), (proj2 (Z.leb_gt (maxFields (names t)) i)), (proj2 (Z.leb_gt size 0)), Ht by lia. cbn [orb].
  rewrite (proj2 (Z.eqb_neq (Z.of_nat (length nm)) 0)), (proj2 (Z.ltb_ge 255 (Z.of_nat (length nm)))) by lia. cbn [orb]. split.
  - intros ->. cbn [Z.eqb]. eexists. split; [reflexivity|]. split_and!.
    + split; cbn; [exact Hr|rewrite Hd; reflexivity].
    + reflexivity.
    + intros j Hj H0. unfold field_at. cbn. destruct (0 <=? j); [|reflexivity]. rewrite list_lookup_insert_ne by lia. reflexivity.
  - intros Hne. rewrite (proj2 (Z.eqb_neq i 0)) by exact Hne. cbn. rewrite Hr. reflexivity.
Qed.

(** ** The packed form *)

Lemma pack_count t n i fs k : pack_fields t n i = Some (fs, k) -> 0 <= k <= Z.of_nat n.
Proof.
  revert i fs k. induction n as [|n IH]; intros i fs k E; cbn [pack_fields] in E; [injection E as <- <-; lia|].
  destruct (field_at t i) as [f|]; [|discriminate]. cbn in E. destruct (pack_fields t n (i + 1)) as [[r j]|] eqn:Er; [|discriminate]. cbn in E.
  specialize (IH _ _ _ Er). destruct (fieldName f); injection E as <- <-; lia.
Qed.

Lemma pack_two t n fs k f0 n0 f1 n1 : pack_fields t (S (S n)) 0 = Some (fs, k) -> field_at t 0 = Some f0 -> fieldName f0 = Some n0 ->
  field_at t 1 = Some f1 -> fieldName f1 = Some n1 -> 2 <= k /\ exists rest, fs = pack_field 0 f0 n0 ++ pack_field 1 f1 n1 ++ rest.
Proof.
  intros E H0 N0 H1 N1. cbn [pack_fields] in E. change (0 + 1) with 1 in E. rewrite H0, H1 in E. cbn [mbind option_bind] in E.
  destruct (pack_fields t n _) as [[r j]|] eqn:Er; [|discriminate]. pose proof (pack_count _ _ _ _ _ Er). cbn in E. rewrite N0, N1 in E. injection E as <- <-.
  split; [lia|]. exists r. reflexivity.
Qed.

Lemma length_md5_of bs : length (md5_of bs) = 16%nat.
Proof. reflexivity. Qed.

#[local] Opaque md5_of.

Section Packed.
Context `{Text} (t : DTCTableDefinition) (nm bs : list Z) (f0 f1 : FieldDefinition) (n0 n1 : list Z).
Context (Hnm : tableName t = Some nm) (Hlen : 1 <= Z.of_nat (length nm) <= 255) (Hnum : 1 <= num_fields t <= 254).
Context (Hf0 : field_at t 0 = Some f0) (Hg0 : good_field f0 n0) (Hf1 : field_at t 1 = Some f1) (Hg1 : good_field f1 n1).
Context (Hbs : packedTableDefinition t = Some bs).

Lemma packed_form : exists nf rest, 2 <= nf <= 255 /\
  let body := 1 :: Z.of_nat (length nm) :: nm ++ nf :: pack_field 0 f0 n0 ++ pack_field 1 f1 n1 ++ rest in bs = md5_of body ++ body.
Proof.
  unfold packedTableDefinition, pack_body in Hbs. rewrite Hnm in Hbs. cbn [mbind option_bind] in Hbs.
  replace (Z.to_nat (num_fields t) + 1)%nat with (S (S (Z.to_nat (num_fields t) - 1))) in Hbs by lia.
  destruct (pack_fields t _ 0) as [[fs k]|] eqn:Ef; [|discriminate]. cbn [mbind option_bind] in Hbs.
  destruct (encode_simple_section (attr t) DField.None) as [a|]; [|discriminate]. cbn [mbind option_bind] in Hbs. apply (inj Some) in Hbs as <-.
  pose proof (pack_count _ _ _ _ _ Ef) as Hk. destruct (pack_two _ _ _ _ _ _ _ _ Ef Hf0 (proj1 Hg0) Hf1 (proj1 Hg1)) as [H2 [rest ->]].
  exists k, (rest ++ a). split; [lia|]. rewrite ! wrap_small by (unfold in_width; lia). cbv zeta. rewrite <- ! app_assoc. reflexivity.
Qed.

Lemma unpack_stuck : Unpack (mkD (mkBin (Z.of_nat (length bs)) bs) (new_table 0)) = None.
Proof.
  destruct packed_form as (nf & rest & Hnf & ->). set (p0 := pack_field 0 f0 n0). set (p1 := pack_field 1 f1 n1).
  set (body := 1 :: Z.of_nat (length nm) :: nm ++ nf :: p0 ++ p1 ++ rest). assert (L0 : (5 <= length p0)%nat).
  { unfold p0, pack_field. cbn [length]. rewrite length_app. destruct Hg0 as (_ & _ & ? & _). cbn [length]. unfold encode_length. repeat case_match; cbn [length]; lia. }
  unfold Unpack. rewrite bind_get_obj. cbn [obj new_table names num_fields numFields maxFields Z.eqb negb orb]. rewrite bind_shorter. cbn [len bin].
  set (N := Z.of_nat (length (md5_of body ++ body))). assert (HN : N = 16 + (3 + Z.of_nat (length nm) + Z.of_nat (length (p0 ++ p1 ++ rest)))).
  { unfold N, body. rewrite length_app, length_md5_of. cbn [length]. rewrite length_app. cbn [length]. lia. }
  assert (5 <= Z.of_nat (length (p0 ++ p1 ++ rest))) by (rewrite length_app; lia).
  rewrite (proj2 (Z.ltb_ge N 24)) by lia. rewrite (bind_ok _ _ _ N (mkD (mkBin N (md5_of body ++ body)) (new_table 0))) by reflexivity.
  rewrite bind_bytes_at by (cbn; lia). cbn [bin ptr].
  rewrite (firstn_all2 (md5_of body ++ body)) by (unfold N; lia).
  rewrite drop_app_length', take_app_length' by reflexivity. rewrite bool_decide_eq_true_2 by reflexivity. cbn [negb].
  erewrite bind_modify by reflexivity. rewrite bind_advance by (cbn; lia). cbn [bin ptr len obj]. rewrite drop_len by (rewrite length_md5_of; reflexivity).
  unfold body. rewrite bind_next. cbn [Z.eqb Pos.eqb negb]. rewrite bind_next, bind_shorter. cbn [len bin].
  rewrite (proj2 (Z.eqb_neq _ 0)), (proj2 (Z.ltb_ge _ (Z.of_nat (length nm) + 1))) by lia. cbn [orb].
  rewrite bind_bytes_at by (cbn; rewrite length_app; lia). erewrite bind_modify by reflexivity. rewrite bind_advance by (cbn; rewrite length_app; lia). cbn [bin ptr len obj].
  rewrite drop_len by reflexivity. rewrite bind_next, (proj2 (Z.eqb_neq nf 0)) by lia. erewrite bind_modify by reflexivity. cbn [bin].
  replace (Z.to_nat nf) with (S (S (Z.to_nat nf - 2))) by lia. cbn [obj]. set (c := on_names _ _). set (M := N - 16 - 1 - 1 - Z.of_nat (length nm) - 1).
  assert (Hc : forall j, 0 <= j < 2 -> field_at c j = Some no_field).
  { intros j Hj. unfold field_at, c. cbn [names on_names TableDef.fieldList]. rewrite (proj2 (Z.leb_le 0 j)) by lia. apply lookup_replicate_2. lia. }
  enough (E : unpack_fields (S (S (Z.to_nat nf - 2))) (mkD (mkBin M (p0 ++ p1 ++ rest)) c) = None) by (unfold mbind, dec_bind; rewrite E; reflexivity).
  rewrite ! length_app in HN. rewrite (unpack_one _ 0 f0 n0) by (first [exact Hg0 | lia | fold p0; unfold M; lia]). fold p0.
  destruct Hg0 as (_ & _ & Hl0 & _ & _ & Hs0 & [v0 Ht0]).
  destruct (add_field_client 0 n0 (field_type f0) (fieldSize f0) c v0) as [Hok _]; try assumption; try lia; [split; reflexivity|cbn; lia|apply Hc; lia|].
  destruct (Hok eq_refl) as (c1 & E1 & C1 & M1 & F1).
  rewrite (bind_ok _ _ _ tt (mkD (mkBin (M - Z.of_nat (length p0)) (p1 ++ rest)) c1)) by (unfold modify_code; rewrite bind_get_obj; cbn [obj]; rewrite E1; reflexivity).
  rewrite (unpack_one _ 1 f1 n1) by (first [exact Hg1 | lia | fold p1; unfold M; lia]).
  destruct Hg1 as (_ & _ & Hl1 & _ & _ & Hs1 & [v1 Ht1]).
  destruct (add_field_client 1 n1 (field_type f1) (fieldSize f1) c1 v1) as [_ Hbad]; try assumption; try lia; [rewrite M1; cbn; lia|rewrite F1 by lia; apply Hc; lia|].
  unfold mbind, dec_bind, modify_code, mbind, dec_bind, get_obj. cbn [obj]. rewrite (Hbad ltac:(lia)). reflexivity.
Qed.
End Packed.
