(* ===== verification/Results.v ===== *)
(** * Result packets (src/libs/common/result.h, packet/packet_result.cc,
    packet/packet_server.cc)

    [ResultPacket] collects the rows of an answer in one growing buffer: five
    bytes are kept free for their number, the field set follows, then the rows.
    [realloc_ok] tells for which sizes [realloc] succeeds. *)

From S2P Require Import Prelude Codec TableDef Fields FieldSets.

Definition ENOMEM : Z := 12.
Definition BUFFERCHAIN_SIZE : Z := 16.

(** [data] are the [usedBytes] bytes in use. *)
Record ResultPacket := mkPacket {
  fieldSet : option DTCFieldSet;
  limitStart : Z;
  limitNext : Z;
  totalRows : Z;
  numRows : Z;
  rowDataBegin : Z;
  data : list Z;
  totalBytes : Z
}.

Definition usedBytes (p : ResultPacket) : Z := Z.of_nat (length (data p)).

Definition set_data (d : list Z) (total : Z) (p : ResultPacket) : ResultPacket :=
  mkPacket (fieldSet p) (limitStart p) (limitNext p) (totalRows p) (numRows p) (rowDataBegin p) d total.
Definition set_rows_counts (total num : Z) (p : ResultPacket) : ResultPacket :=
  mkPacket (fieldSet p) (limitStart p) (limitNext p) total num (rowDataBegin p) (data p) (totalBytes p).

(** [ResultPacket::ResultPacket] *)
Definition new_result (fs : option DTCFieldSet) (st cnt : Z) : ResultPacket :=
  let st := if cnt =? 0 then 0 else st in
  let ids := match fs with Some s => fieldId s | None => [] end in
  let nf := match fs with Some s => num_ids s | None => 0 end in
  mkPacket (if nf =? 0 then None else fs) st (wrap 32 (st + cnt)) 0 0 (5 + 1 + nf)
    (replicate 5 0 ++ wrap 8 nf :: ids) (1024 - BUFFERCHAIN_SIZE).

(** [ResultPacket::Clean] and [ResultPacket::Set], which starts over in the
    same buffer; [Set] is undefined where the field numbers exceed it. *)
Definition Clean_result (p : ResultPacket) : ResultPacket := set_rows_counts 0 0 (set_data [] (totalBytes p) p).
Definition Set_result (fs : option DTCFieldSet) (st cnt : Z) (p : ResultPacket) : option ResultPacket :=
  let q := new_result fs st cnt in
  if totalBytes p <? usedBytes q then None
  else Some (set_rows_counts (totalRows p) (numRows p) (set_data (data q) (totalBytes p) q)).

Definition is_full (p : ResultPacket) : bool := (0 <? limitNext p) && (limitNext p <=? totalRows p).

Definition in_range (p : ResultPacket) (total begin : Z) : bool :=
  if limitNext p =? 0 then true else negb ((total <=? limitStart p) || (limitNext p <=? begin)).

(** [ResultWriter::set_rows] *)
Definition set_rows (rows : Z) (p : ResultPacket) : Z * ResultPacket :=
  if (match fieldSet p with None => true | Some _ => false end) || (numRows p =? 0) && (rows <=? limitStart p) then
    (0, set_rows_counts rows
          (if limitNext p =? 0 then rows else if rows <=? limitStart p then 0
           else if rows <=? limitNext p then rows - limitStart p else limitNext p - limitStart p) p)
  else if negb (is_full p) then (-1, p) else (0, set_rows_counts rows (numRows p) p).

Section Append.
Context `{Text} (realloc_ok : Z -> bool).

(** [int] arithmetic; overflow is undefined. *)
Definition int_of (x : Z) : option Z := if (- 2 ^ 31 <=? x) && (x <? 2 ^ 31) then Some x else None.

(** [expand]: the new capacity, if there is memory. *)
Definition expand (p : ResultPacket) (addsize : Z) : option (option ResultPacket) :=
  expect ← int_of (usedBytes p + addsize);
  if expect <=? totalBytes p then Some (Some p) else
  expect ← int_of (Z.lor (expect + BUFFERCHAIN_SIZE) 7 + 1);
  most ← int_of (addsize * 16);
  sparse ← int_of ((if most <? expect then most else expect) + expect);
  Some (if realloc_ok sparse then Some (set_data (data p) (sparse - BUFFERCHAIN_SIZE) p)
        else if realloc_ok expect then Some (set_data (data p) (expect - BUFFERCHAIN_SIZE) p) else None).

(** The fields [ids] of row [r]: their size and their bytes. *)
Fixpoint row_size (t : DTCTableDefinition) (r : RowValue) (ids : list Z) (n : Z) : option Z :=
  match ids with
  | [] => Some n
  | i :: ids => f ← field_at t i; v ← r !! Z.to_nat i; k ← encoded_bytes_data_value v (field_type f); row_size t r ids (n + k)
  end.

Fixpoint encode_row (t : DTCTableDefinition) (r : RowValue) (ids : list Z) : option (list Z) :=
  match ids with
  | [] => Some []
  | i :: ids => f ← field_at t i; v ← r !! Z.to_nat i; bs ← encode_data_value v (field_type f); rest ← encode_row t r ids; Some (bs ++ rest)
  end.

(** [ResultPacket::append_row]: bytes beyond the capacity have no place. *)
Definition append_row (t : DTCTableDefinition) (r : RowValue) (p : ResultPacket) : option (Z * ResultPacket) :=
  let p := set_rows_counts (wrap 32 (totalRows p + 1)) (numRows p) p in
  if (0 <? limitNext p) && ((totalRows p <=? limitStart p) || (limitNext p <? totalRows p)) then Some (0, p) else
  let count p := set_rows_counts (totalRows p) (wrap 32 (totalRows p - limitStart p)) p in
  match fieldSet p with
  | None => Some (0, count p)
  | Some s =>
      len ← row_size t r (fieldId s) 0;
      q ← expand p len;
      match q with
      | None => Some (- ENOMEM, p)
      | Some p =>
          bs ← encode_row t r (fieldId s);
          if totalBytes p <? usedBytes p + Z.of_nat (length bs) then None
          else Some (1, count (set_data (data p ++ bs) (totalBytes p) p))
      end
  end.

(** [ResultPacket::merge_no_limit] *)
Definition merge_no_limit (q p : ResultPacket) : option (Z * ResultPacket) :=
  let more := drop (Z.to_nat (rowDataBegin q)) (data q) in
  let expected := usedBytes p + (usedBytes q - rowDataBegin q) in
  let join total := Some (0, set_rows_counts (wrap 32 (totalRows p + totalRows q)) (wrap 32 (numRows p + numRows q)) (set_data (data p ++ more) total p)) in
  if totalBytes p <? expected then
    if realloc_ok (BUFFERCHAIN_SIZE + expected + 1024) then join (expected + 1024) else Some (- ENOMEM, p)
  else join (totalBytes p).

Fixpoint append_rows (t : DTCTableDefinition) (rs : list RowValue) (p : ResultPacket) : option ResultPacket :=
  match rs with [] => Some p | r :: rs => '(_, p) ← append_row t r p; append_rows t rs p end.

End Append.

(** [Packet::encode_result]: the number of rows is written so that it ends
    before the field set; the section starts there. *)
Definition result_section (p : ResultPacket) : list Z := encode_length (numRows p) ++ drop 5 (data p).
