(* ===== verification/ResultsSpec.v ===== *)
(** * What result packets promise

    The rows of the answer that fall in the limits of the request are decoded
    by the client, in their order, with the values of the requested fields. *)

From S2P Require Import Prelude Codec CodecSpec Sections SectionsSpec TableDef Fields FieldSets Request RequestSpec TablePackSpec Results.

(** ** The writer *)

(** The rows a limit selects. *)
Definition window {A} (st cnt : Z) (rows : list A) : list A :=
  if cnt =? 0 then rows else take (Z.to_nat cnt) (drop (Z.to_nat st) rows).

Lemma window_snoc {A} st cnt (rows : list A) r : 0 <= st -> 0 <= cnt ->
  window st cnt (rows ++ [r]) = window st cnt rows ++
    if (0 <? cnt) && ((Z.of_nat (length rows) + 1 <=? st) || (st + cnt <? Z.of_nat (length rows) + 1)) then [] else [r].
Proof.
  intros Hs Hc. unfold window. destruct (Z.eqb_spec cnt 0) as [->|Hz]; [reflexivity|]. rewrite (proj2 (Z.ltb_lt 0 cnt)) by lia. cbn [andb].
  destruct (Z.leb_spec (Z.of_nat (length rows) + 1) st); cbn [orb].
  { rewrite ! drop_ge, ! take_nil by (rewrite ? length_app; cbn; lia). reflexivity. }
  rewrite drop_app_le by lia. destruct (Z.ltb_spec (st + cnt) (Z.of_nat (length rows) + 1)).
  - rewrite take_app_le, app_nil_r by (rewrite length_drop; lia). reflexivity.
  - rewrite take_app_ge by (rewrite length_drop; lia). rewrite (take_ge (drop _ _)) by (rewrite length_drop; lia).
    rewrite (take_ge [r]) by (rewrite length_drop; cbn; lia). reflexivity.
Qed.

Lemma window_length {A} st cnt (rows : list A) : 0 <= st -> 0 < cnt -> st <= Z.of_nat (length rows) <= st + cnt ->
  Z.of_nat (length (window st cnt rows)) = Z.of_nat (length rows) - st.
Proof. intros. unfold window. rewrite (proj2 (Z.eqb_neq cnt 0)), length_take, length_drop by lia. lia. Qed.

Section Writer.
Context `{TextLaws} (realloc_ok : Z -> bool) (t : DTCTableDefinition) (fs : DTCFieldSet) (st cnt : Z).

(** Rows whose requested fields can be sent. *)
Definition sends (r : RowValue) (i : Z) : Prop :=
  exists f v, field_at t i = Some f /\ r !! Z.to_nat i = Some v /\ field_type f <> DField.None /\ fits (field_type f) v.
Definition row_fits (ids : list Z) (r : RowValue) : Prop := Forall (sends r) ids.

Lemma encode_row_fits ids r : row_fits ids r -> exists bs, encode_row t r ids = Some bs /\ forall n, row_size t r ids n = Some (n + Z.of_nat (length bs)).
Proof.
  induction 1 as [|i ids (f & v & Ef & Ev & _ & Hv) _ (bs & E & Es)]; [exists []; split; [reflexivity|intros n; cbn; f_equal; lia]|].
  destruct (encode_coded _ _ Hv) as (b & Eb & Hc). exists (b ++ bs). cbn [encode_row row_size]. rewrite Ef, Ev. cbn. rewrite Eb, E, (coded_size _ _ _ Hc). cbn.
  split; [reflexivity|]. intros n. rewrite Es, length_app. f_equal. lia.
Qed.

Definition MAXANSWER : Z := 2 ^ 26.

Lemma lor_7 x : 0 <= x -> x <= Z.lor x 7 <= x + 7.
Proof.
  intros Hx. pose proof (Z.add_lor_land x 7) as E. change 7 with (Z.ones 3) in E at 2. rewrite Z.land_ones in E by lia. change (2 ^ 3) with 8 in E. zdm.
Qed.

Lemma int_of_fits x : - 2 ^ 31 <= x < 2 ^ 31 -> int_of x = Some x.
Proof. intros [H1 H2]. unfold int_of. rewrite (proj2 (Z.leb_le _ _) H1), (proj2 (Z.ltb_lt _ _) H2). reflexivity. Qed.

Lemma set_data_same p : set_data (data p) (totalBytes p) p = p.
Proof. by destruct p. Qed.

Lemma expand_fits p n : 0 <= n -> usedBytes p + n <= MAXANSWER -> (forall s, realloc_ok s = true) ->
  exists cap, usedBytes p + n <= cap /\ expand realloc_ok p n = Some (Some (set_data (data p) cap p)).
Proof.
  unfold expand, MAXANSWER. intros Hn Hm Hok. assert (Hu : 0 <= usedBytes p) by (unfold usedBytes; lia).
  rewrite (int_of_fits (usedBytes p + n)) by lia. cbn [mbind option_bind].
  destruct (Z.leb_spec (usedBytes p + n) (totalBytes p)); [exists (totalBytes p); split; [lia|rewrite set_data_same; reflexivity]|].
  pose proof (lor_7 (usedBytes p + n + BUFFERCHAIN_SIZE) ltac:(unfold BUFFERCHAIN_SIZE; lia)) as Hl. unfold BUFFERCHAIN_SIZE in *.
  rewrite (int_of_fits (n * 16)), int_of_fits by lia. cbn [mbind option_bind].
  rewrite int_of_fits by (destruct (_ <? _); lia). cbn [mbind option_bind]. rewrite Hok. eexists. split; [|reflexivity].
  destruct (Z.ltb_spec (n * 16) (Z.lor (usedBytes p + n + 16) 7 + 1)); lia.
Qed.
(** The packet after [rows], whose selected rows are the bytes [bs]. *)
Definition answer (rows : list RowValue) (bs : list Z) (cap : Z) : ResultPacket :=
  mkPacket (Some fs) (if cnt =? 0 then 0 else st) (if cnt =? 0 then 0 else st + cnt) (Z.of_nat (length rows)) (Z.of_nat (length (window st cnt rows)))
    (6 + num_ids fs) (replicate 5 0 ++ num_ids fs :: fieldId fs ++ bs) cap.

Fixpoint answer_bytes (rows : list RowValue) : option (list Z) :=
  match rows with [] => Some [] | r :: rows => b ← encode_row t r (fieldId fs); bs ← answer_bytes rows; Some (b ++ bs) end.

Lemma answer_bytes_snoc rows r : answer_bytes (rows ++ [r]) = bs ← answer_bytes rows; b ← encode_row t r (fieldId fs); Some (bs ++ b).
Proof.
  induction rows as [|x rows IH]; cbn [app answer_bytes]; [cbn; destruct (encode_row t r _); cbn; rewrite ? app_nil_r; reflexivity|].
  rewrite IH. destruct (encode_row t x _); [|reflexivity]. cbn. destruct (answer_bytes rows); [|reflexivity]. cbn.
  destruct (encode_row t r _); cbn; rewrite ? app_assoc; reflexivity.
Qed.

Context (Hst : 0 <= st) (Hcnt : 0 <= cnt) (Hlim : st + cnt < 2 ^ 32) (Hfs : num_ids fs = Z.of_nat (length (fieldId fs))) (Hnum : 1 <= num_ids fs <= 255).
Context (Hmem : forall s, realloc_ok s = true).

Lemma answer_new : new_result (Some fs) st cnt = answer [] [] 1008.
Proof.
  unfold new_result, answer. rewrite (proj2 (Z.eqb_neq (num_ids fs) 0)) by lia. cbn [length]. unfold window. rewrite drop_nil, take_nil.
  rewrite (wrap_small 8) by (unfold in_width; lia). destruct (Z.eqb_spec cnt 0) as [->|]; cbn [length]; rewrite wrap_small, app_nil_r by (unfold in_width; lia); reflexivity.
Qed.

Lemma answer_used rows bs cap n m : usedBytes (set_rows_counts n m (answer rows bs cap)) = 6 + num_ids fs + Z.of_nat (length bs).
Proof. unfold usedBytes. cbn [answer data set_rows_counts]. rewrite length_app, length_replicate. cbn [length]. rewrite length_app. lia. Qed.

Lemma append_one rows bs cap r b : Z.of_nat (length rows) + 1 < 2 ^ 32 -> row_fits (fieldId fs) r -> encode_row t r (fieldId fs) = Some b ->
  let cur := (0 <? cnt) && ((Z.of_nat (length rows) + 1 <=? st) || (st + cnt <? Z.of_nat (length rows) + 1)) in
  let bs' := bs ++ (if cur then [] else b) in
  6 + num_ids fs + Z.of_nat (length bs') <= MAXANSWER ->
  exists c cap', append_row realloc_ok t r (answer rows bs cap) = Some (c, answer (rows ++ [r]) bs' cap').
Proof.
  intros Hn Hr Eb cur bs' Hm. pose proof (window_snoc st cnt rows r Hst Hcnt) as Hw. fold cur in Hw. unfold append_row. cbn [answer totalRows numRows set_rows_counts limitNext limitStart fieldSet].
  rewrite (wrap_small 32) by (unfold in_width; lia). replace ((0 <? _) && _) with cur by (unfold cur; destruct (Z.eqb_spec cnt 0); lia).
  destruct cur eqn:Ec; fold (answer rows bs cap).
  - exists 0, cap. unfold answer, bs'. rewrite Hw, ! app_nil_r, length_app. cbn [length]. rewrite Nat2Z.inj_add. reflexivity.
  - destruct (encode_row_fits _ _ Hr) as (b' & Eb' & Es). rewrite Eb in Eb'. injection Eb' as <-. rewrite (Es 0). cbn [mbind option_bind].
    assert (Hl : Z.of_nat (length bs') = Z.of_nat (length bs) + Z.of_nat (length b)) by (unfold bs'; rewrite length_app; lia).
    edestruct expand_fits as (cap' & Hcap & Ee); [|rewrite answer_used|exact Hmem|rewrite Ee]; [lia..|]. rewrite answer_used in Hcap.
    cbn [mbind option_bind]. rewrite Eb. cbn [mbind option_bind]. pose proof (answer_used rows bs cap (Z.of_nat (length rows) + 1) (Z.of_nat (length (window st cnt rows)))) as Hu.
    unfold usedBytes in Hu |- *. cbn [set_data data totalBytes totalRows limitStart set_rows_counts answer] in Hu |- *. rewrite Hu.
    rewrite (proj2 (Z.ltb_ge _ _)) by lia. exists 1, cap'. do 2 f_equal. unfold answer, bs', set_data, set_rows_counts. cbn [fieldSet limitStart limitNext rowDataBegin data totalBytes].
    rewrite Hw, ! length_app. f_equal.
    + rewrite Nat2Z.inj_add. reflexivity.
    + cbn [length]. unfold cur in Ec. destruct (Z.eqb_spec cnt 0) as [E0|Hc].
      * unfold window. rewrite E0. cbn [Z.eqb]. rewrite wrap_small by (unfold in_width; lia). lia.
      * rewrite Nat2Z.inj_add, window_length, wrap_small by (unfold in_width; lia). lia.
    + cbn [app]. rewrite <- ! app_assoc. cbn [app]. rewrite <- app_assoc. reflexivity.
Qed.

Lemma append_rows_snoc rows r p q c q' : append_rows realloc_ok t rows p = Some q -> append_row realloc_ok t r q = Some (c, q') ->
  append_rows realloc_ok t (rows ++ [r]) p = Some q'.
Proof.
  revert p. induction rows as [|x rows IH]; intros p; cbn [app append_rows].
  - intros [= ->] ->. reflexivity.
  - destruct (append_row realloc_ok t x p) as [[d p']|]; [|discriminate]. cbn. apply IH.
Qed.

Lemma append_all rows bs : Z.of_nat (length rows) < 2 ^ 32 -> Forall (row_fits (fieldId fs)) rows -> answer_bytes (window st cnt rows) = Some bs ->
  6 + num_ids fs + Z.of_nat (length bs) <= MAXANSWER -> exists cap, append_rows realloc_ok t rows (new_result (Some fs) st cnt) = Some (answer rows bs cap).
Proof.
  revert bs. induction rows as [|r rows IH] using rev_ind; intros bs Hn Hr Eb Hm.
  { exists 1008. cbn. rewrite answer_new. f_equal. f_equal. unfold window in Eb. rewrite drop_nil, take_nil in Eb. destruct (cnt =? 0); injection Eb; congruence. }
  rewrite length_app in Hn. cbn [length] in Hn. apply Forall_app in Hr as [Hrs [Hr _]%Forall_cons]. destruct (encode_row_fits _ _ Hr) as (b & Er & _).
  rewrite window_snoc in Eb by assumption.
  assert (Hb : exists b0, answer_bytes (window st cnt rows) = Some b0 /\ bs = b0 ++
    if (0 <? cnt) && ((Z.of_nat (length rows) + 1 <=? st) || (st + cnt <? Z.of_nat (length rows) + 1)) then [] else b).
  { destruct (_ && _); [rewrite app_nil_r in Eb; exists bs; rewrite app_nil_r; done|].
    rewrite answer_bytes_snoc in Eb. destruct (answer_bytes _) as [b0|]; [|discriminate]. cbn in Eb. rewrite Er in Eb. injection Eb as <-. exists b0. done. }
  destruct Hb as (b0 & E0 & ->). rewrite length_app in Hm. destruct (IH b0) as (cap & E); [lia|exact Hrs|exact E0|lia|].
  destruct (append_one rows b0 cap r b) as (c & cap' & E1); [lia|exact Hr|exact Er|rewrite length_app; exact Hm|].
  exists cap'. exact (append_rows_snoc _ _ _ _ _ _ E E1).
Qed.

End Writer.

(** ** The reader *)

Section Reader.
Context `{TextLaws} (t : DTCTableDefinition).

(** The row a client has after one that holds [r] arrived. *)
Definition receive_field (r row : RowValue) (i : Z) : RowValue :=
  match f ← field_at t i; v ← r !! Z.to_nat i; wired (field_type f) v with Some w => <[Z.to_nat i := w]> row | None => row end.
Definition received (r : RowValue) (ids : list Z) (row : RowValue) : RowValue := fold_left (receive_field r) ids row.

Lemma receive_field_length r row i : length (receive_field r row i) = length row.
Proof. unfold receive_field. destruct (_ ≫= _); [apply length_insert|reflexivity]. Qed.

Lemma received_length r ids row : length (received r ids row) = length row.
Proof. revert row. induction ids as [|i ids IH]; intros row; [reflexivity|]. exact (eq_trans (IH _) (receive_field_length r row i)). Qed.

Definition shows (r g : RowValue) (i : Z) : Prop :=
  exists f v, field_at t i = Some f /\ r !! Z.to_nat i = Some v /\ g !! Z.to_nat i = wired (field_type f) v.

Lemma wired_typed ty v : fits ty v -> ty <> 0 -> exists w, wired ty v = Some w.
Proof. intros Hv Ht. destruct (fits_types _ _ Hv) as [?|[->|[->|[->|[->| ->]]]]]; [contradiction|..]; destruct Hv as (x & E & _); cbn; rewrite E; eexists; reflexivity. Qed.

Lemma row_values_run ids r row bs n rest : row_fits t ids r -> Forall (fun i => i < Z.of_nat (length row)) ids -> encode_row t r ids = Some bs ->
  Z.of_nat (length bs) <= n ->
  row_values t ids (mkD (mkBin n (bs ++ rest)) row) = Some (Ok tt, mkD (mkBin (n - Z.of_nat (length bs)) rest) (received r ids row)).
Proof.
  intros Hr. revert row bs n. induction Hr as [|i ids (f & v & Ef & Ev & Ht & Hv) _ IH]; intros row bs n Hi E Hn.
  { injection E as <-. cbn. rewrite Z.sub_0_r. reflexivity. }
  apply Forall_cons in Hi as [Hi His]. cbn [encode_row] in E. rewrite Ef, Ev in E. cbn in E. destruct (encode_coded _ _ Hv) as (b & Eb & Hc).
  rewrite Eb in E. cbn in E. destruct (encode_row t r ids) as [bs'|]; [|discriminate]. injection E as <-. rewrite length_app in Hn.
  cbn [row_values]. rewrite (bind_try _ _ _ _ Ef), <- app_assoc. rewrite (bind_ok _ _ _ _ _ (coded_decodes _ _ _ Hc n _ row ltac:(lia))).
  destruct (wired_typed _ _ Hv Ht) as (w & Ew). rewrite Ew. rewrite (bind_modify _ _ _ (receive_field r row i)).
  2: { cbn [obj]. rewrite (proj2 (Z.ltb_lt _ _) Hi). unfold receive_field. rewrite Ef. cbn [mbind option_bind]. rewrite Ev. cbn [mbind option_bind]. rewrite Ew. reflexivity. }
  cbn [bin].
  rewrite (IH (receive_field r row i)); [|eapply Forall_impl; [exact His|]; cbn; rewrite receive_field_length; done|reflexivity|lia].
  rewrite length_app. unfold received. cbn [fold_left]. f_equal. f_equal. f_equal. f_equal. lia.
Qed.

Lemma shows_receive r row i j : 0 <= i -> 0 <= j -> shows r row i -> shows r (receive_field r row j) i.
Proof.
  intros Hi Hj (f & v & Ef & Ev & E). exists f, v. split_and!; [exact Ef|exact Ev|]. unfold receive_field. destruct (decide (i = j)) as [->|Hn].
  - rewrite Ef. cbn [mbind option_bind]. rewrite Ev. cbn [mbind option_bind]. destruct (wired (field_type f) v) eqn:Ew; [|exact E].
    apply list_lookup_insert_eq. eapply lookup_lt_Some, E.
  - destruct (_ ≫= _); [|exact E]. etransitivity; [apply list_lookup_insert_ne; lia|exact E].
Qed.

Lemma sends_shows r row i : sends t r i -> 0 <= i < Z.of_nat (length row) -> shows r (receive_field r row i) i.
Proof.
  intros (f & v & Ef & Ev & Ht & Hv) Hi. exists f, v. split_and!; [exact Ef|exact Ev|]. destruct (wired_typed _ _ Hv Ht) as (w & Ew).
  unfold receive_field. rewrite Ef. cbn [mbind option_bind]. rewrite Ev. cbn [mbind option_bind]. rewrite Ew. apply list_lookup_insert_eq. lia.
Qed.

Lemma received_shows r ids row i : row_fits t ids r -> Forall (fun i => 0 <= i < Z.of_nat (length row)) ids -> 0 <= i -> shows r row i \/ i ∈ ids ->
  shows r (received r ids row) i.
Proof.
  intros Hr. revert row. induction Hr as [|j ids Hj _ IH]; intros row Hids Hi [Hs|Hin]; [exact Hs|by apply elem_of_nil in Hin|..];
    apply Forall_cons in Hids as [Hj' Hids]; apply IH; try exact Hi; try (eapply Forall_impl; [exact Hids|]; cbn; rewrite receive_field_length; done).
  - left. apply shows_receive; [lia..|exact Hs].
  - apply elem_of_cons in Hin as [->|Hin]; [|right; exact Hin]. left. apply sends_shows; assumption.
Qed.

(** Reading [n] rows. *)
Fixpoint fetch_rows (n : nat) (rs : ResultSet) : option (list RowValue * ResultSet) :=
  match n with
  | O => Some ([], rs)
  | S n => '(c, rs') ← decode_row t rs; if negb (c =? 0) then None else '(rows, e) ← fetch_rows n rs'; Some (rs_row rs' :: rows, e)
  end.

Lemma fetch_run fs ini num rest rows : forall no row bs n, num = no + Z.of_nat (length rows) -> Forall (row_fits t (fieldId fs)) rows ->
  Forall (fun i => 0 <= i < Z.of_nat (length row)) (fieldId fs) -> answer_bytes t fs rows = Some bs -> Z.of_nat (length bs) <= n ->
  exists got e, fetch_rows (length rows) (mkResultSet fs 0 ini (mkBin n (bs ++ rest)) num no row) = Some (got, e) /\
    Forall2 (fun r g => Forall (shows r g) (fieldId fs)) rows got /\ decode_row t e = Some (- EC_NO_MORE_DATA, e).
Proof.
  induction rows as [|r rows IH]; intros no row bs n En Hr Hi Eb Hn.
  { cbn in En. exists [], (mkResultSet fs 0 ini (mkBin n (bs ++ rest)) num no row). split_and!; [reflexivity|constructor|].
    unfold decode_row. cbn. rewrite En, Z.add_0_r, Z.eqb_refl. reflexivity. }
  apply Forall_cons in Hr as [Hr Hrs]. cbn [answer_bytes] in Eb. destruct (encode_row t r _) as [b|] eqn:Er; [|discriminate].
  cbn in Eb. destruct (answer_bytes t fs rows) as [bs'|] eqn:E'; [|discriminate]. injection Eb as <-. rewrite length_app in Hn.
  cbn [length] in En. destruct (IH (no + 1) (received r (fieldId fs) row) bs' (n - Z.of_nat (length b))) as (got & e & Ef & Hg & He);
    [lia|exact Hrs|rewrite received_length; exact Hi|reflexivity|lia|].
  exists (received r (fieldId fs) row :: got), e. cbn [length fetch_rows]. unfold decode_row at 1. cbn [rs_err Request.numRows rowno rs_set rs_curr rs_row rs_init].
  rewrite Z.eqb_refl, (proj2 (Z.eqb_neq _ _)), <- app_assoc by lia. cbn [negb].
  assert (Hi' : Forall (fun i => i < Z.of_nat (length row)) (fieldId fs)) by (eapply Forall_impl; [exact Hi|]; cbn; lia).
  rewrite (row_values_run _ r row b n _ Hr Hi' Er) by lia.
  cbn [mbind option_bind bin obj Z.eqb negb rs_row]. rewrite Ef. split_and!; [reflexivity| |exact He]. constructor; [|exact Hg].
  apply Forall_forall. intros i Hin. apply received_shows; [exact Hr|exact Hi| |right; exact Hin]. rewrite Forall_forall in Hi. apply Hi in Hin. lia.
Qed.

(** The field numbers of a result. *)
Lemma result_ids_run ids : forall pre mask n rest j, NoDup ids -> Forall (fun i => 0 <= i < 255 /\ FIELD_ISSET i mask = false) ids ->
  let d := mkD (mkBin n (pre ++ ids ++ rest)) j in result_ids (length ids) (Z.of_nat (length pre)) mask d = Some (Ok tt, d).
Proof.
  induction ids as [|i ids IH]; intros pre mask n rest j Hnd Hids d; [reflexivity|].
  apply NoDup_cons in Hnd as [Hni Hnd]. apply Forall_cons in Hids as [[Hi Hm] Hids]. cbn [length result_ids].
  rewrite (bind_byte_at _ _ i) by (first [lia | unfold d; cbn [ptr bin]; rewrite Nat2Z.id; apply list_lookup_middle; reflexivity]).
  rewrite (proj2 (Z.eqb_neq i 255)), Hm by lia. specialize (IH (pre ++ [i]) (FIELD_SET i mask) n rest j Hnd).
  unfold d. replace (pre ++ (i :: ids) ++ rest) with ((pre ++ [i]) ++ ids ++ rest) by (rewrite <- app_assoc; reflexivity).
  replace (Z.of_nat (length pre) + 1) with (Z.of_nat (length (pre ++ [i]))) by (rewrite length_app; cbn; lia). apply IH.
  rewrite Forall_forall in Hids |- *. intros k Hk. destruct (Hids k Hk) as [Hk1 Hk2]. split; [exact Hk1|].
  rewrite isset_set, Hk2, orb_false_r by lia. apply Z.eqb_neq. intros ->. contradiction.
Qed.

Definition fresh_result (fs : DTCFieldSet) (body : DTCBinary) (nrows : Z) : ResultSet :=
  mkResultSet fs 0 body body nrows 0 (replicate (Z.to_nat (num_fields t + 1)) VZero).

Lemma decode_result_set_run ids nrows body rest j : 0 <= nrows <= MAXPACKETSIZE -> NoDup ids -> Forall (fun i => 0 <= i < 255) ids ->
  Z.of_nat (length ids) <= num_fields t + 1 -> num_fields t < 255 -> result (parts j) = None ->
  let sec := encode_length nrows ++ Z.of_nat (length ids) :: ids ++ body in
  exists fs, fieldId fs = ids /\ let b := mkBin (Z.of_nat (length body)) (body ++ rest) in
  decode_result_set t (mkD (mkBin (Z.of_nat (length sec)) (sec ++ rest)) j) = Some (Ok tt, mkD b (on_parts (set_result (fresh_result fs b nrows)) j)).
Proof.
  intros Hn Hnd Hids Hl Hf Hj sec. set (k := Z.of_nat (length ids)) in *. unfold decode_result_set.
  assert (Em : Z.of_nat (length sec) = Z.of_nat (length (encode_length nrows)) + (1 + k + Z.of_nat (length body))).
  { unfold sec, k. rewrite length_app. cbn [length]. rewrite length_app. lia. }
  rewrite Em. clear Em. unfold sec. rewrite <- app_assoc. rewrite (bind_ok _ _ _ _ _ (decode_length_encode nrows Hn (Z.of_nat (length (encode_length nrows)) + (1 + k + Z.of_nat (length body))) _ j ltac:(lia))).
  rewrite Z.add_simpl_l. cbn [app]. set (m := 1 + k + _). 
  rewrite bind_is_empty. cbn [len bin]. rewrite (proj2 (Z.leb_gt m 0)) by lia. rewrite bind_next, bind_shorter. cbn [len bin].
  rewrite (proj2 (Z.ltb_ge (m - 1) k)) by lia. rewrite andb_false_r, <- app_assoc.
  pose proof (result_ids_run ids [] 0 (m - 1) (body ++ rest) j Hnd) as Hri. cbn [app length] in Hri. replace (Z.to_nat k) with (length ids) by (unfold k; lia).
  change (Z.of_nat 0) with 0 in Hri. rewrite (bind_ok _ _ _ _ _ (Hri ltac:(eapply Forall_impl; [exact Hids|]; intros i Hi; split; [exact Hi|apply Z.testbit_0_l]))).
  rewrite bind_bytes_at by (cbn [ptr bin]; rewrite length_app; lia). cbn [ptr bin]. rewrite (take_len ids) by reflexivity. rewrite bind_get_obj. cbn [obj]. rewrite Hj.
  set (fs := mkFieldSet (num_fields t + 1) k ids (num_fields t + 1) (build_field_mask ids 0)). exists fs. split; [reflexivity|]. cbv zeta.
  assert (Efs : new_field_set ids k (num_fields t + 1) = Some fs).
  { unfold new_field_set. rewrite (proj2 (Z.ltb_ge 255 k)), (proj2 (Z.ltb_ge 255 _)), (proj2 (Z.ltb_ge _ k)) by lia. unfold k. rewrite Nat2Z.id, take_ge by lia. reflexivity. }
  rewrite Efs. rewrite (bind_try _ _ _ (fs, replicate (Z.to_nat (num_fields t + 1)) VZero, 0)) by reflexivity.
  rewrite bind_advance by (cbn [ptr bin]; rewrite length_app; lia). cbn [ptr bin len obj]. rewrite (drop_len ids) by reflexivity. unfold store_result. cbn [bin obj].
  replace (m - 1 - k) with (Z.of_nat (length body)) by lia. unfold sext. rewrite (proj2 (Z.ltb_lt nrows _)) by (unfold MAXPACKETSIZE in Hn; lia). reflexivity.
Qed.

(** ** From the writer to the reader *)

(** The field sets of a table's requests. *)
Definition fields_ok (fs : DTCFieldSet) : Prop :=
  num_ids fs = Z.of_nat (length (fieldId fs)) /\ 1 <= num_ids fs <= num_fields t + 1 /\ num_fields t < 255 /\
  NoDup (fieldId fs) /\ Forall (fun i => 0 <= i <= num_fields t) (fieldId fs).

Lemma answer_bytes_ids fs fs' rows : fieldId fs' = fieldId fs -> answer_bytes t fs' rows = answer_bytes t fs rows.
Proof. intros E. induction rows as [|r rows IH]; [reflexivity|]. cbn [answer_bytes]. rewrite IH, E. reflexivity. Qed.

Lemma rows_trip realloc_ok fs st cnt rows bs rest j : (forall s, realloc_ok s = true) -> 0 <= st -> 0 <= cnt -> st + cnt < 2 ^ 32 -> fields_ok fs ->
  Z.of_nat (length rows) < 2 ^ 32 -> Forall (row_fits t (fieldId fs)) rows -> answer_bytes t fs (window st cnt rows) = Some bs ->
  6 + num_ids fs + Z.of_nat (length bs) <= MAXANSWER -> Z.of_nat (length (window st cnt rows)) <= MAXPACKETSIZE -> result (parts j) = None ->
  exists p rs got e, append_rows realloc_ok t rows (new_result (Some fs) st cnt) = Some p /\ let sec := result_section p in
    (exists b, decode_result_set t (mkD (mkBin (Z.of_nat (length sec)) (sec ++ rest)) j) = Some (Ok tt, mkD b (on_parts (set_result rs) j))) /\
    fetch_rows (length (window st cnt rows)) rs = Some (got, e) /\
    Forall2 (fun r g => Forall (shows r g) (fieldId fs)) (window st cnt rows) got /\ decode_row t e = Some (- EC_NO_MORE_DATA, e).
Proof.
  intros Hmem Hst Hcnt Hlim (Hfs & Hnum & Hnf & Hnd & Hids) Hn Hr Eb Hm Hw Hj.
  destruct (append_all realloc_ok t fs st cnt Hst Hcnt Hlim Hfs ltac:(lia) Hmem rows bs Hn Hr Eb Hm) as (cap & E).
  destruct (decode_result_set_run (fieldId fs) (Z.of_nat (length (window st cnt rows))) bs rest j) as (fs' & Ei & Ed);
    [lia|exact Hnd|eapply Forall_impl; [exact Hids|]; cbn; lia|lia|lia|exact Hj|].
  destruct (fetch_run fs' (mkBin (Z.of_nat (length bs)) (bs ++ rest)) (Z.of_nat (length (window st cnt rows))) rest (window st cnt rows) 0
    (replicate (Z.to_nat (num_fields t + 1)) VZero) bs (Z.of_nat (length bs))) as (got & e & Ef & Hg & He).
  { lia. }
  { rewrite Ei. unfold window. destruct (cnt =? 0); [exact Hr|]. apply Forall_take, Forall_drop, Hr. }
  { rewrite Ei, length_replicate. eapply Forall_impl; [exact Hids|]. cbn. lia. }
  { rewrite <- Eb. apply answer_bytes_ids, Ei. }
  { lia. }
  exists (answer fs st cnt rows bs cap), (fresh_result fs' (mkBin (Z.of_nat (length bs)) (bs ++ rest)) (Z.of_nat (length (window st cnt rows)))), got, e.
  rewrite Ei in Hg. split; [exact E|]. cbv zeta. split_and!; [|exact Ef|exact Hg|exact He]. eexists. rewrite <- Ed. unfold result_section. cbn [answer Results.numRows data].
  change (drop 5 (replicate 5 0 ++ num_ids fs :: fieldId fs ++ bs)) with (num_ids fs :: fieldId fs ++ bs). rewrite Hfs. reflexivity.
Qed.

End Reader.
