(* ===== verification/RequestSafe.v ===== *)
(** * Requests nobody vouches for

    On arbitrary bytes the decoders of a request have a result and stay in
    their section; only the field set may have more numbers than the buffer it
    is copied into has room for. *)

From S2P Require Import Prelude Codec CodecSpec Sections SectionsSpec TableDef TableDefSpec Fields FieldSets Request RequestSpec TablePackSpec.

(** ** Decoders that change their object *)

Section Sure.
Context {S : Type}.

(** From an object in [P], [m] has a result; the object is in [R a] if it
    returns [a], in [K] if it fails. *)
Definition sure {A} (K P : S -> Prop) (m : dec S A) (R : A -> S -> Prop) : Prop :=
  forall d, section_ok (bin d) -> P (obj d) -> exists r e, m d = Some (r, e) /\ section_ok (bin e) /\ match r with Ok a => R a (obj e) | Fail _ => K (obj e) end.

Context (K : S -> Prop).

Lemma s_guard {A} (I : S -> Prop) (m : dec S A) Q : (forall N, guarded I N 0 m Q) -> (forall s, I s -> K s) -> sure K I m (fun a s => Q a /\ I s).
Proof.
  intros Hm Hk d Hd Ho. destruct (Hm (len (bin d)) d Hd Ho) as (r & e & E & He & Hi & _ & Hr); [destruct Hd; lia|].
  exists r, e. split_and!; [exact E|exact He|]. destruct r; [split; [apply Hr; reflexivity|exact Hi]|apply Hk, Hi].
Qed.

Lemma s_bind {A B} P (m : dec S A) (f : A -> dec S B) R R' : sure K P m R -> (forall a, sure K (R a) (f a) R') -> sure K P (m ≫= f) R'.
Proof.
  intros Hm Hf d Hd Ho. destruct (Hm d Hd Ho) as (r & e & E & He & Hr). destruct r as [a|c].
  - rewrite (bind_ok _ _ _ _ _ E). apply Hf; assumption.
  - rewrite (bind_fail _ _ _ _ _ E). exists (Fail c), e. done.
Qed.

Lemma s_pre {A} (P P' : S -> Prop) (m : dec S A) R : sure K P' m R -> (forall s, P s -> P' s) -> sure K P m R.
Proof. intros Hm Hp d Hd Ho. apply Hm; auto. Qed.

Lemma s_post {A} P (m : dec S A) (R R' : A -> S -> Prop) : sure K P m R -> (forall a s, R a s -> R' a s) -> sure K P m R'.
Proof. intros Hm Hr d Hd Ho. destruct (Hm d Hd Ho) as (r & e & E & He & Hp). exists r, e. split_and!; [exact E|exact He|]. destruct r; auto. Qed.

Lemma s_pure {A} (F : Prop) P (m : dec S A) R : (F -> sure K P m R) -> sure K (fun s => F /\ P s) m R.
Proof. intros Hm d Hd [Hf Ho]. apply Hm; assumption. Qed.

Lemma s_fail {A} (P : S -> Prop) c (R : A -> S -> Prop) : (forall s, P s -> K s) -> sure K P (fail c) R.
Proof. intros Hk d Hd Ho. exists (Fail (- c)), d. split_and!; [reflexivity|exact Hd|apply Hk, Ho]. Qed.

Lemma s_ret {A} (P : S -> Prop) a (R : A -> S -> Prop) : (forall s, P s -> R a s) -> sure K P (mret a) R.
Proof. intros Hr d Hd Ho. exists (Ok a), d. split_and!; [reflexivity|exact Hd|apply Hr, Ho]. Qed.

Lemma s_get {A} P (f : S -> dec S A) R : (forall s, P s -> sure K P (f s) R) -> sure K P (get_obj ≫= f) R.
Proof. intros Hf d Hd Ho. rewrite bind_get_obj. apply (Hf (obj d)); assumption. Qed.

Lemma s_empty {A} P c (m : dec S A) R : (forall s, P s -> K s) -> sure K P m R -> sure K P (e ← is_empty; if (e : bool) then fail c else m) R.
Proof. intros Hk Hm d Hd Ho. rewrite bind_is_empty. destruct (len (bin d) <=? 0); [apply (s_fail P); assumption|apply Hm; assumption]. Qed.

(** A byte, after the test that there is one. *)
Lemma s_byte {A} P c (f : Z -> dec S A) R : (forall s, P s -> K s) -> (forall b, is_byte b -> sure K P (f b) R) ->
  sure K P (e ← is_empty; if (e : bool) then fail c else b ← next_byte; f b) R.
Proof.
  intros Hk Hf [[n p] s] [Hl Hb] Ho. cbn in Hl, Hb, Ho. rewrite bind_is_empty. cbn [len bin]. destruct (Z.leb_spec n 0).
  { exists (Fail (- c)), (mkD (mkBin n p) s). split_and!; [reflexivity|split; assumption|apply Hk, Ho]. }
  destruct p as [|b p]; [cbn in Hl; lia|]. rewrite bind_next. apply Forall_cons in Hb as [Hb Hp]. apply Hf; [exact Hb| |exact Ho].
  split; [cbn in *; lia|exact Hp].
Qed.

Lemma s_try {A B} P (o : option B) (f : B -> dec S A) R b : o = Some b -> sure K P (f b) R -> sure K P (try_ o ≫= f) R.
Proof. intros -> Hf. exact Hf. Qed.

Lemma s_if {A} P (b : bool) (m m' : dec S A) R : (b = true -> sure K P m R) -> (b = false -> sure K P m' R) -> sure K P (if b then m else m') R.
Proof. destruct b; auto. Qed.

End Sure.

Lemma s_modify K P (g : DtcJob -> DtcJob) (R : unit -> DtcJob -> Prop) : (forall j, P j -> R tt (g j)) -> sure K P (modify_job g) R.
Proof. intros Hg d Hd Ho. exists (Ok tt), (mkD (bin d) (g (obj d))). split_and!; [reflexivity|exact Hd|apply Hg, Ho]. Qed.

(** ** Values *)

(** Tables with a type for every field. *)
Definition types_ok (t : DTCTableDefinition) : Prop :=
  table_ok t /\ forall i, 0 <= i <= num_fields t -> exists f, field_at t i = Some f /\ is_type (field_type f).

Lemma g_try {S A B} (I : S -> Prop) N k (o : option B) (f : B -> dec S A) Q b : o = Some b -> guarded I N k (f b) Q -> guarded I N k (try_ o ≫= f) Q.
Proof. intros -> Hf. exact Hf. Qed.

Lemma decode_field_id_guarded {S} (I : S -> Prop) t N k : table_ok t -> guarded I N k (decode_field_id t) (fun r => is_byte (fst r)).
Proof.
  intros Ht. unfold decode_field_id. do 2 g_step. g_step; [apply g_ret; assumption|]. do 2 g_step. g_step; [apply g_ret; unfold is_byte; cbn; lia|].
  g_step. unfold is_byte in *. apply g_bytes_at; [lia|]. intros nm _ _. destruct (field_id_total t nm Ht) as (i & E & Hi). apply (g_try _ _ _ _ _ _ i E).
  g_step; [apply g_fail|]. apply g_advance; [lia|]. apply g_ret. apply wrap_range. lia.
Qed.

Lemma is_type_cases t : is_type t -> t = 0 \/ t = 1 \/ t = 2 \/ t = 3 \/ t = 4 \/ t = 5.
Proof. unfold is_type, DField.TotalType. lia. Qed.

Lemma valid_comp_total ft op : is_type ft -> is_type op -> exists b, valid_comp ft op = Some b.
Proof.
  intros Hf Ho. apply is_type_cases in Hf, Ho.
  destruct Hf as [->|[->|[->|[->|[->| ->]]]]]; destruct Ho as [->|[->|[->|[->|[->| ->]]]]]; eexists; reflexivity.
Qed.

Lemma valid_xtype_total op ft vt : 0 <= op < 4 -> is_type ft -> is_type vt -> exists b, valid_xtype op ft vt = Some b /\ (vt = 0 -> b = false).
Proof.
  intros Ho Hf Hv. apply is_type_cases in Hf, Hv. assert (op = 0 \/ op = 1 \/ op = 2 \/ op = 3) as Hop by lia. clear Ho.
  destruct Hop as [->|[->|[->| ->]]]; destruct Hf as [->|[->|[->|[->|[->| ->]]]]]; destruct Hv as [->|[->|[->|[->|[->| ->]]]]]; eexists;
    (split; [reflexivity|intros E; first [discriminate E | reflexivity]]).
Qed.

Section Values.
Context `{Text} (t : DTCTableDefinition) (mode : Z) (Ht : types_ok t).

Lemma xtype_verdict op ft vt : 0 <= op < 4 -> is_type ft -> is_type vt ->
  exists c, (x ← valid_xtype op ft vt; Some (if negb x then Some EC_BAD_OPERATOR else None)) = Some c /\ (c = None -> 1 <= vt < 6).
Proof.
  intros Ho Hf Hv. destruct (valid_xtype_total op ft vt Ho Hf Hv) as (b & E & Hz). rewrite E. eexists. split; [reflexivity|].
  unfold is_type, DField.TotalType in Hv. destruct b; [|discriminate]. destruct (decide (vt = 0)) as [->|]; [discriminate Hz; reflexivity|lia].
Qed.

Lemma check_operation_total i op vt f : is_type (field_type f) -> 0 <= op -> 0 <= vt ->
  exists c, check_operation t mode i op vt f = Some c /\ (c = None -> 1 <= vt < 6).
Proof.
  intros Hf Ho Hv. unfold check_operation, DField.TotalType, DField.TotalComparison, DField.TotalOperation, DField.Set_, DField.EQ.
  assert (Hs : forall c, exists c', Some (Some c) = Some c' /\ (c' = @None Z -> 1 <= vt < 6)) by (intros c; eexists; split; [reflexivity|discriminate]).
  destruct (Z.leb_spec 6 vt); [apply Hs|]. assert (Hvt : is_type vt) by (unfold is_type, DField.TotalType; lia).
  destruct (mode =? 0).
  - destruct (Z.leb_spec 6 op); [apply Hs|]. destruct (valid_comp_total (field_type f) op Hf) as (b & ->); [unfold is_type, DField.TotalType; lia|].
    cbn [mbind option_bind]. destruct b; cbn [negb]; [|apply Hs]. destruct ((_ <? _) && _); [apply Hs|]. apply xtype_verdict; [lia|assumption..].
  - destruct (mode =? 1); [destruct (Z.eqb_spec op 0) as [->|]; cbn [negb]; [apply xtype_verdict; [lia|assumption..]|apply Hs]|].
    destruct (negb _); [apply Hs|]. destruct (Z.leb_spec 4 op); [apply Hs|]. apply xtype_verdict; [lia|assumption..].
Qed.

(** What decoding values leaves alone. *)
Definition frame (j0 j : DtcJob) : Prop :=
  role j = role j0 /\ table j = table j0 /\ infos j = infos j0 /\ requestCode (codes j) = requestCode (codes j0) /\
  fieldList (parts j) = fieldList (parts j0) /\ result (parts j) = result (parts j0) /\
  if mode =? 0 then updateInfo (parts j) = updateInfo (parts j0) else conditionInfo (parts j) = conditionInfo (parts j0).

(** Room for [n] more values. *)
Definition room (n : Z) (j0 j : DtcJob) : Prop :=
  frame j0 j /\ exists fv, get_values mode (parts j) = Some fv /\ Fields.numFields fv + n <= Fields.maxFields fv.

Lemma frame_codes j0 j g : (forall c, requestCode (g c) = requestCode c) -> frame j0 j -> frame j0 (on_codes g j).
Proof. unfold frame. cbn. intros -> Hf. exact Hf. Qed.

Lemma room_codes n j0 j g : (forall c, requestCode (g c) = requestCode c) -> room n j0 j -> room n j0 (on_codes g j).
Proof. intros Hg [Hf Hr]. split; [apply frame_codes; assumption|exact Hr]. Qed.

Lemma frame_alter j0 j g : frame j0 j -> frame j0 (alter_values mode g j).
Proof.
  unfold frame, alter_values. destruct (get_values mode (parts j)) as [f|]; [|done]. cbn. unfold set_values. destruct (mode =? 0); cbn; tauto.
Qed.

Lemma room_alter n m j0 j g : room n j0 j -> (forall f, Fields.numFields f + n <= Fields.maxFields f -> Fields.numFields (g f) + m <= Fields.maxFields (g f)) ->
  room m j0 (alter_values mode g j).
Proof.
  intros [Hf (fv & E & Hr)] Hg. split; [apply frame_alter, Hf|]. exists (g fv). split; [apply values_alter, E|apply Hg, Hr].
Qed.

Lemma value_round_sure n j0 km : 0 <= n -> sure (frame j0) (room (n + 1) j0) (value_round t mode km) (fun _ => room n j0).
Proof.
  intros Hn. pose proof Ht as [Htt Hty]. assert (HK : forall s, room (n + 1) j0 s -> frame j0 s) by (intros s [Hs _]; exact Hs).
  unfold value_round. apply s_byte; [exact HK|]. intros b Hb. cbv zeta.
  eapply s_bind; [apply (s_guard _ _ _ _ (fun N => decode_field_id_guarded _ t N 0 Htt) HK)|]. intros [i nd]. cbn [fst].
  apply s_pure. intros Hi. apply s_if; intros Ei; [apply s_fail, HK|]. unfold is_byte in *. destruct (Hty i ltac:(lia)) as (f & Ef & Hft).
  apply (s_try _ _ _ _ _ f Ef). eapply (s_bind _ _ _ _ (fun _ => room (n + 1) j0)).
  { apply s_if; intros _; [apply s_modify; intros j Hj; apply room_codes; [reflexivity|exact Hj]|apply s_ret; auto]. }
  intros _. pose proof (Z.land_nonneg b 15) as Hl. pose proof (Z.shiftr_nonneg b 4) as Hs.
  destruct (check_operation_total i (Z.shiftr b 4) (Z.land b 0xF) f Hft) as (c & Ec & Hc); [lia..|]. apply (s_try _ _ _ _ _ c Ec).
  destruct c as [code|]; [apply s_fail, HK|]. specialize (Hc eq_refl).
  eapply s_bind; [apply (s_guard _ _ _ _ (fun N => decode_data_value_guarded _ N 0 _) HK)|]. intros v. apply s_pure. intros Hv.
  assert (exists w, v = Some w) as [w ->].
  { destruct v as [w|]; [eauto|]. apply of_type_none in Hv; [|unfold is_type, DField.TotalType]; lia. }
  apply s_get. intros j (_ & fv & Eg & Hr). apply (s_try _ _ _ _ _ fv Eg). eapply (s_try _ _ _ _ _ w); [rewrite (proj2 (Z.eqb_neq _ _)) by lia; reflexivity|].
  eapply (s_bind _ _ _ _ (fun _ => room n j0)).
  { apply s_modify. intros j' Hj. eapply room_alter; [exact Hj|]. intros g Hg. unfold add_value.
    rewrite (proj2 (Z.eqb_neq _ _)) by lia. unfold Fields.numFields in *. cbn [fieldValue Fields.maxFields]. rewrite length_app. cbn [length]. lia. }
  assert (HK' : forall s, room n j0 s -> frame j0 s) by (intros s [Hj _]; exact Hj). intros _. eapply (s_bind _ _ _ _ (fun _ => room n j0)).
  { apply s_if; intros _; [apply s_modify; intros j' Hj; apply room_codes; [reflexivity|exact Hj]|apply s_ret; auto]. }
  intros _. apply s_if; intros _; [apply s_if; intros _; [apply s_fail, HK'|apply s_ret; auto]|].
  eapply (s_bind _ _ _ _ (fun _ => room n j0)); [|intros _; apply s_ret; auto].
  apply s_modify. intros j' Hj. eapply room_alter; [exact Hj|]. intros g Hg. exact Hg.
Qed.

Lemma value_loop_sure n j0 km : sure (frame j0) (room (Z.of_nat n) j0) (value_loop n t mode km) (fun _ => room 0 j0).
Proof.
  revert km. induction n as [|n IH]; intros km; cbn [value_loop]; [apply s_ret; auto|].
  eapply s_bind; [eapply s_pre; [apply (value_round_sure (Z.of_nat n) j0 km); lia|]|intros k; apply IH].
  intros s Hs. rewrite Nat2Z.inj_succ in Hs. exact Hs.
Qed.

(** For a job without such values. *)
Lemma decode_field_value_sure j0 : get_values mode (parts j0) = None ->
  sure (frame j0) (fun j => j = j0) (decode_field_value t mode) (fun _ => frame j0).
Proof.
  intros E0. assert (Hf : frame j0 j0) by (unfold frame; destruct (mode =? 0); tauto).
  assert (HK : forall s, s = j0 -> frame j0 s) by (intros s ->; exact Hf). unfold decode_field_value. apply s_byte; [exact HK|]. intros num Hnum. unfold is_byte in Hnum.
  apply s_if; intros En; [apply s_ret; exact HK|]. eapply (s_bind _ _ _ _ (fun _ => room (Z.of_nat (Z.to_nat num)) j0)).
  { apply s_modify. intros j ->. rewrite E0. split.
    - unfold frame, set_values. destruct (mode =? 0); cbn; tauto.
    - cbn [on_parts parts]. eexists. rewrite get_set_values. split; [reflexivity|]. unfold Fields.numFields, new_field_value, Realloc. cbn [Fields.maxFields].
      destruct (_ <? _); cbn; lia. }
  intros _. eapply s_bind; [apply value_loop_sure|]. intros _ d Hd [Ho _]. rewrite bind_is_empty. destruct (len (bin d) <=? 0).
  - exists (Ok tt), d. done.
  - exists (Fail (- EC_EXTRA_SECTION_DATA)), d. done.
Qed.
End Values.

(** ** Field sets *)

Definition only_codes (j0 j : DtcJob) : Prop :=
  role j = role j0 /\ table j = table j0 /\ infos j = infos j0 /\ requestCode (codes j) = requestCode (codes j0) /\ parts j = parts j0.

Lemma set_loop_sure t j0 n mask tab : table_ok t -> sure (only_codes j0) (only_codes j0) (set_loop n t mask tab)
  (fun tab' j => (length tab' <= length tab + n)%nat /\ only_codes j0 j).
Proof.
  intros Ht. revert mask tab. induction n as [|n IH]; intros mask tab; cbn [set_loop]; [apply s_ret; split; [lia|assumption]|].
  eapply s_bind; [apply (s_guard _ _ _ _ (fun N => decode_field_id_guarded _ t N 0 Ht)); auto|]. intros [i nd]. cbn [fst]. apply s_pure. intros _.
  apply s_if; intros _.
  - eapply s_post; [apply IH|]. cbn. intros l j [Hl Hj]. split; [lia|exact Hj].
  - eapply (s_bind _ _ _ _ (fun _ => only_codes j0)).
    { apply s_if; intros _; [apply s_modify; intros j Hj; exact Hj|apply s_ret; auto]. }
    intros _. eapply s_post; [apply IH|]. cbn. rewrite length_app. cbn. intros l j [Hl Hj]. split; [lia|exact Hj].
Qed.

(** If the section announces no more fields than there is room for, the field
    set of a job without one is stored. *)
Lemma decode_field_set_safe t j0 d : table_ok t -> num_fields t < 255 -> fieldList (parts j0) = None -> section_ok (bin d) -> obj d = j0 ->
  (forall b, head (ptr (bin d)) = Some b -> b <= num_fields t + 1) ->
  exists r e, decode_field_set t d = Some (r, e) /\ role (obj e) = role j0 /\ table (obj e) = table j0 /\ infos (obj e) = infos j0 /\ result (parts (obj e)) = result (parts j0).
Proof.
  intros Ht Hn Hf Hd Ho Hh. destruct d as [[n p] j], Hd as [Hl Hb]. cbn in Hl, Hb, Ho, Hh. subst j. unfold decode_field_set. rewrite bind_is_empty. cbn [len bin].
  destruct (Z.leb_spec n 0); [eexists _, _; split; [reflexivity|]; cbn; tauto|]. destruct p as [|num p]; [cbn in Hl; lia|].
  apply Forall_cons in Hb as [Hnum Hb]. specialize (Hh num eq_refl). unfold is_byte in Hnum. rewrite bind_next.
  destruct (Z.eqb_spec num 0); [eexists _, _; split; [reflexivity|]; cbn; tauto|].
  destruct (set_loop_sure t j0 (Z.to_nat num) 0 [] Ht (mkD (mkBin (n - 1) p) j0)) as (r & e & E & He & Hr); [split; [cbn in *; lia|exact Hb]|cbn; unfold only_codes; tauto|].
  destruct r as [tab|c]; [|rewrite (bind_fail _ _ _ _ _ E); eexists _, _; split; [reflexivity|]; destruct Hr as (-> & -> & -> & _ & ->); tauto].
  rewrite (bind_ok _ _ _ _ _ E). destruct Hr as [Htab (H1 & H2 & H3 & H4 & H5)]. cbn in Htab. unfold bin_len at 1, mbind at 1, dec_bind at 1.
  destruct (negb (len (bin e) =? 0)); [eexists _, _; split; [reflexivity|]; cbn; rewrite H1, H2, H3, H5; tauto|].
  unfold store_field_set. rewrite bind_get_obj, H5, Hf. destruct Ht as (_ & Ht0 & _). unfold new_field_set.
  rewrite (proj2 (Z.ltb_ge 255 (Z.of_nat (length tab)))), (proj2 (Z.ltb_ge 255 (num_fields t + 1))), (proj2 (Z.ltb_ge (num_fields t + 1) _)) by lia.
  eexists _, _. split; [reflexivity|]. cbn. rewrite H1, H2, H3, H5. tauto.
Qed.
