(* ===== verification/Packet.v ===== *)
(** * Decoding a packet (src/libs/common/task/task_base.cc, task_base.h,
    task_const.cc, protocol.h, receiver.h)

    A packet is a header with the lengths of eight sections and the sections.
    [decode_packet_v1] decodes one that is in memory, [decode_stream] one that
    arrives in parts.  A section decoder sees the bytes of its section. *)

From S2P Require Import Prelude Codec Sections TableDef Fields FieldSets Request TablePack Results.
From Stdlib Require String Ascii.
Export String.StringSyntax.

(** A literal of the source. *)
Definition txt (s : String.string) : list Z := map (fun a => Z.of_N (Ascii.N_of_ascii a)) (String.list_ascii_of_string s).
Arguments txt _%_string_scope.

Module DRequest.
Definition TYPE_PASS : Z := 0.
Definition result_code : Z := 1.
Definition DTCResultSet : Z := 2.
Definition TYPE_SYSTEM_COMMAND : Z := 3.
Definition Update : Z := 7.
Definition ReloadConfig : Z := 16.
Definition Replicate : Z := 17.
Definition admin_table : Z := 64.
Definition SectionTotal : Z := 8.
Definition RegisterHB : Z := 1.
End DRequest.

Definition EC_BAD_COMMAND : Z := 2001.
Definition EC_MISSING_SECTION : Z := 2002.
Definition EC_EXTRA_SECTION : Z := 2003.
Definition EC_TABLE_MISMATCH : Z := 2019.
Definition EC_CHECKSUM_MISMATCH : Z := 2021.
Definition EC_BAD_KEY_TYPE : Z := 2024.

(** [DecodeStage] *)
Definition DecodeStageFatalError : Z := 0.
Definition DecodeStageDataError : Z := 1.
Definition DecodeStageIdle : Z := 2.
Definition DecodeStageWaitHeader : Z := 3.
Definition DecodeStageWaitData : Z := 4.
Definition DecodeStageDiscard : Z := 5.
Definition DecodeStageDone : Z := 6.

(** [TaskRole] *)
Definition TaskRoleServer : Z := 0.
Definition TaskRoleClient : Z := 1.

(** [TaskType] *)
Definition TaskTypeAdmin : Z := 0.
Definition TaskTypeRead : Z := 1.
Definition TaskTypeWrite : Z := 2.
Definition TaskTypeHelperReloadConfig : Z := 9.

Definition validcmds : list Z := [0x71F9; 6; 6].

Definition cmd2type : list Z :=
  [TaskTypeAdmin; TaskTypeAdmin; TaskTypeAdmin; TaskTypeAdmin; TaskTypeRead; TaskTypeAdmin; TaskTypeWrite; TaskTypeWrite; TaskTypeWrite;
   TaskTypeAdmin; TaskTypeAdmin; TaskTypeAdmin; TaskTypeWrite; TaskTypeWrite; TaskTypeWrite; TaskTypeAdmin; TaskTypeHelperReloadConfig].

Definition validsections : list (Z * Z) :=
  [(0, 0x05); (0x08, 0x0B); (0x89, 0x8B); (0x05, 0x75); (0x05, 0x65); (0x05, 0x25); (0x01, 0x15); (0x15, 0x35);
   (0x05, 0x25); (0x01, 0x51); (0x15, 0x55); (0x05, 0x45); (0x01, 0x15); (0x05, 0x25); (0x05, 0x25)].

(** ** The header *)

Record DTC_HEADER_V1 := mkHeader { version : Z; scts : Z; hflags : Z; cmd : Z; hlen : list Z }.

Definition HEADER_SIZE : Z := 36.

(** The structure over the first bytes of a packet. *)
Definition le32 (bs : list Z) (i : nat) : Z :=
  default 0 (bs !! i) + 2 ^ 8 * default 0 (bs !! (i + 1)%nat) + 2 ^ 16 * default 0 (bs !! (i + 2)%nat) + 2 ^ 24 * default 0 (bs !! (i + 3)%nat).

Definition header_of (bs : list Z) : DTC_HEADER_V1 :=
  let b i := default 0 (bs !! i) in
  mkHeader (b 0%nat) (b 1%nat) (b 2%nat) (b 3%nat) (map (fun k => le32 bs (4 + 4 * k)%nat) (seq 0 8)).

(** [packet_body_len_v1]; the sum of the lengths. *)
Definition body_len (h : DTC_HEADER_V1) : Z := fold_left Z.add (hlen h) 0.

Definition check_packet_size (bs : list Z) : Z :=
  if Z.of_nat (length bs) <? HEADER_SIZE then 0 else
  let h := header_of bs in
  if negb (version h =? 1) then -1
  else if negb (scts h =? DRequest.SectionTotal) then -2
  else if MAXPACKETSIZE <? body_len h then -4
  else body_len h + HEADER_SIZE.

(** ** The job *)

Definition set_stage (s : Z) (j : DtcJob) : DtcJob :=
  mkJob s (role j) (table j) (infos j) (codes j) (parts j) (serialNr j) (key_set j) (rkey_set j).
Definition set_table (t : option DTCTableDefinition) (j : DtcJob) : DtcJob :=
  mkJob (stage j) (role j) t (infos j) (codes j) (parts j) (serialNr j) (key_set j) (rkey_set j).
Definition on_infos (f : Infos -> Infos) (j : DtcJob) : DtcJob :=
  mkJob (stage j) (role j) (table j) (f (infos j)) (codes j) (parts j) (serialNr j) (key_set j) (rkey_set j).
Definition set_serialNr (n : option Z) (j : DtcJob) : DtcJob :=
  mkJob (stage j) (role j) (table j) (infos j) (codes j) (parts j) n (key_set j) (rkey_set j).
Definition set_keys_seen (k r : bool) (j : DtcJob) : DtcJob :=
  mkJob (stage j) (role j) (table j) (infos j) (codes j) (parts j) (serialNr j) k r.

Definition with_version (s : SimpleSection) (i : Infos) : Infos := mkInfos s (requestInfo i) (resultInfo i).
Definition with_request (s : SimpleSection) (i : Infos) : Infos := mkInfos (versionInfo i) s (resultInfo i).
Definition with_result (s : SimpleSection) (i : Infos) : Infos := mkInfos (versionInfo i) (requestInfo i) s.

Definition set_reply (code fl : Z) (c : Codes) : Codes := mkCodes (requestCode c) (requestType c) (requestFlags c) code fl (processFlags c).
Definition set_request (code type fl : Z) (c : Codes) : Codes := mkCodes code type fl (replyCode c) (replyFlags c) (processFlags c).

(** [DtcJob::DtcJob] *)
Definition new_job (t : option DTCTableDefinition) (r : Z) : DtcJob :=
  mkJob DecodeStageIdle r t (mkInfos (new_section versionInfoDefinition) (new_section requestInfoDefinition) (new_section resultInfoDefinition))
    (mkCodes 0 0 0 0 0 PFLAG_ALLROWS) (mkParts None None None None) (Some 0) false false.

(** [set_error(err, from, msg)] *)
Definition set_error_from (from : list Z) (err : Z) (msg : option (list Z)) (j : DtcJob) : option DtcJob :=
  s ← set_tag_int32 1 err (resultInfo (infos j));
  s ← set_tag_string 2 (Some from) s;
  s ← match msg with Some m => set_tag_string 3 (Some m) s | None => Some s end;
  Some (on_infos (with_result s) j).
Definition set_error : Z -> option (list Z) -> DtcJob -> option DtcJob := set_error_from (txt "decoder").

(** [decode_header_v1]: the size of the body, or a negative number. *)
Definition decode_header_v1 (h : DTC_HEADER_V1) (j : DtcJob) : option (Z * DtcJob) :=
  if negb (version h =? 1) then Some (-1, set_stage DecodeStageFatalError j)
  else if negb (scts h =? DRequest.SectionTotal) then Some (-2, set_stage DecodeStageFatalError j)
  else if MAXPACKETSIZE <? body_len h then Some (-4, set_stage DecodeStageFatalError j)
  else
    j ← (if (cmd h =? DRequest.result_code) || (cmd h =? DRequest.DTCResultSet) then Some (on_codes (set_reply (cmd h) (hflags h)) j)
         else ty ← cmd2type !! Z.to_nat (cmd h); Some (on_codes (set_request (cmd h) ty (hflags h)) j));
    Some (body_len h, set_stage DecodeStageWaitData j).

(** The sections that are not empty. *)
Definition present_mask (h : DTC_HEADER_V1) : Z := fold_left (fun m i => if default 0 (hlen h !! i) =? 0 then m else Z.lor m (2 ^ Z.of_nat i)) (seq 0 8) 0.

Definition validate_section (h : DTC_HEADER_V1) (j : DtcJob) : option (Z * DtcJob) :=
  let m := present_mask h in
  let err code msg := j ← set_error (- code) (Some msg) j; Some (-1, j) in
  if 17 <? cmd h then err EC_BAD_COMMAND (txt "Invalid Command") else
  cmds ← entry validcmds (role j);
  if Z.land cmds (2 ^ cmd h) =? 0 then err EC_BAD_COMMAND (txt "Invalid Command") else
  '(must, may) ← entry validsections (cmd h);
  if negb (Z.land m must =? must) then err EC_MISSING_SECTION (txt "Missing Section")
  else if negb (Z.ldiff m may =? 0) then err EC_EXTRA_SECTION (txt "Extra Section")
  else Some (0, j).

(** ** The sections *)

(** What is around the job: the build, the tables it may use, the error [new]
    throws if it fails, and the sizes of buffer there is memory for. *)
Record Env := mkEnv {
  clientapi : bool;
  dataTableDef : option DTCTableDefinition;
  hotbackupTableDef : option DTCTableDefinition;
  oldDef : option DTCTableDefinition;
  new_throws : option Z;
  alloc_ok : Z -> bool
}.

Definition is_same_table (t : DTCTableDefinition) (n : option (list Z)) : option bool := string_equal (tableName t) n.

Definition hash_equal (t : DTCTableDefinition) (n : option (list Z)) : bool :=
  let s := default [] n in (Z.of_nat (length s) =? 16) && bool_decide (hash t = s).

(** The low half of a tag; the length where a string was set. *)
Definition low_half (v : DTCValue) : option Z :=
  match v with
  | VInt z => Some (wrap 32 z) | VZero | VBin None => Some 0 | VBin (Some s) => Some (Z.of_nat (length s)) | VFlt b => Some (wrap 32 b) | VUnset => None
  end.
Definition tag_int (s : SimpleSection) (id : Z) : option Z := v ← tagValue s !! Z.to_nat id; low_half v.
Definition tag_str (s : SimpleSection) (id : Z) : option (option (list Z)) := v ← tagValue s !! Z.to_nat id; get_bin v.

(** [field_type(0)], if there is a table. *)
Definition key_kind (j : DtcJob) : option Z := match table j with None => Some DField.None | Some t => field_type <$> field_at t 0 end.

(** A part of the decoder: whether it goes on, and the job. *)
Definition flow : Type := DtcJob -> option (bool * DtcJob).
Definition then_ (m n : flow) : flow := fun j => match m j with Some (true, j) => n j | r => r end.
Definition go_on : flow := fun j => Some (true, j).
Definition stop (s : Z) : flow := fun j => Some (false, set_stage s j).

(** [ERR_RET], and what follows the label [error]. *)
Definition give_error (err : Z) : flow := fun j => j ← set_error err None j; stop DecodeStageDataError j.
Definition err_ret (err : Z) (msg : list Z) : flow := fun j => j ← set_error err (Some msg) j; give_error err j.

Infix ";>" := then_ (at level 61, left associativity).

Section DecodeRequest.
Context `{Text} (e : Env) (h : DTC_HEADER_V1) (p : list Z).

Definition section_len (id : nat) : Z := default 0 (hlen h !! id).
Definition section_bin (id : nat) : DTCBinary :=
  mkBin (section_len id) (take (Z.to_nat (section_len id)) (drop (Z.to_nat (fold_left Z.add (take id (hlen h)) 0)) p)).

(** A decoder on section [id], where there is one; [put] stores its object. *)
Definition on_section {S} (id : nat) (m : dec S unit) (get : DtcJob -> S) (put : S -> DtcJob -> DtcJob) (msg : list Z) (next : flow) : flow :=
  fun j =>
    match m (mkD (section_bin id) (get j)) with
    | Some (Ok _, d) => next (put (obj d) j)
    | Some (Fail c, d) => err_ret c msg (put (obj d) j)
    | None => None
    end.

Definition check_key_type (t : DTCTableDefinition) : flow := fun j =>
  ty ← tag_int (versionInfo (infos j)) 9;
  f ← field_at t 0;
  if negb (Z.land (requestFlags (codes j)) MultiKeyValue =? 0) then go_on j else
  ok ← (if DField.TotalType <=? ty then Some false else valid_ktype ty (field_type f));
  if (ok : bool) then go_on j else err_ret (- EC_BAD_KEY_TYPE) (txt "key type incorrect") (need_table j).

Definition check_table_hash (t : DTCTableDefinition) : flow := fun j =>
  hs ← tag_str (versionInfo (infos j)) 4;
  if (0 <? Z.of_nat (length (default [] hs))) && negb (hash_equal t hs) then
    if negb (clientapi e) && match oldDef e with Some o => hash_equal o hs | None => false end
    then check_key_type t (need_table j)
    else err_ret (- EC_CHECKSUM_MISMATCH) (txt "table mismatch") (need_table j)
  else check_key_type t j.

Definition check_table : flow := fun j =>
  if negb (role j =? TaskRoleServer) || (requestCode (codes j) =? DRequest.Replicate) then go_on j else
  t ← table j;
  nm ← tag_str (versionInfo (infos j)) 1;
  same ← is_same_table t nm;
  if negb same then err_ret (- EC_TABLE_MISMATCH) (txt "table mismatch") (need_table j) else check_table_hash t j.

Definition version_part : flow := fun j =>
  if section_len 0 =? 0 then go_on j else
  on_section 0 (decode_simple_section DField.None) (fun j => versionInfo (infos j)) (fun s => on_infos (with_version s)) (txt "decode version info error")
    (fun j =>
      let j := set_serialNr (u64_of <$> (v ← tagValue (versionInfo (infos j)) !! 3%nat; get_s64 v)) j in
      let j := if cmd h =? DRequest.TYPE_SYSTEM_COMMAND then set_table (hotbackupTableDef e) j else j in
      check_table j) j.

Definition validate_part : flow := fun j =>
  if requestCode (codes j) =? DRequest.Replicate then go_on j else
  '(r, j) ← validate_section h j; if r <? 0 then stop DecodeStageDataError j else go_on j.

Definition pass_part : flow := fun j =>
  if (cmd h =? DRequest.TYPE_PASS) && (role j =? TaskRoleServer) then stop DecodeStageDataError j else go_on j.

(** Only a client takes a table from the packet. *)
Definition table_part : flow := fun j =>
  if (section_len 1 =? 0) || (Z.land (processFlags (codes j)) PFLAG_ALLOWREMOTETABLE =? 0) then go_on j else
  match new_throws e with
  | Some err => give_error err j
  | None =>
      match Unpack (mkD (section_bin 1) (new_table 0)) with
      | None => None
      | Some (Fail _, _) => err_ret 0 (txt "unpack table info error") j
      | Some (Ok _, d) =>
          let j := set_table (Some (obj d)) j in
          go_on (if Z.land (hflags h) DRequest.admin_table =? 0
                 then on_codes (fun c => set_processFlags (Z.lor (processFlags c) PFLAG_REMOTETABLE) c) j else j)
      end
  end.

Definition check_register : flow := fun j =>
  code ← tag_int (requestInfo (infos j)) 7;
  if (cmd h =? DRequest.TYPE_SYSTEM_COMMAND) && (code =? DRequest.RegisterHB) then
    hs ← tag_str (versionInfo (infos j)) 2;
    bad ← (if Z.of_nat (length (default [] hs)) <=? 0 then Some true else t ← dataTableDef e; Some (negb (hash_equal t hs)));
    if (bad : bool) then err_ret (- EC_CHECKSUM_MISMATCH) (txt "table mismatch") (need_table j) else go_on j
  else go_on j.

Definition request_part : flow := fun j =>
  if section_len 2 =? 0 then go_on j else
  kt ← (if negb (Z.land (requestFlags (codes j)) MultiKeyValue =? 0) then Some DField.Binary else key_kind j);
  on_section 2 (decode_simple_section kt) (fun j => requestInfo (infos j)) (fun s => on_infos (with_request s)) (txt "decode request info error")
    (fun j => check_register (set_keys_seen (tag_present (requestInfo (infos j)) 0) (rkey_set j) j)) j.

Definition result_part : flow := fun j =>
  if section_len 3 =? 0 then go_on j else
  kt ← key_kind j;
  on_section 3 (decode_simple_section kt) (fun j => resultInfo (infos j)) (fun s => on_infos (with_result s)) (txt "decode result info error")
    (fun j => go_on (set_keys_seen (key_set j) (tag_present (resultInfo (infos j)) 0) j)) j.

(** The sections that are decoded into the job itself. *)
Definition job_part (id : nat) (m : DTCTableDefinition -> dec DtcJob unit) (msg : list Z) : flow := fun j =>
  if section_len id =? 0 then go_on j else
  t ← table j; on_section id (m t) (fun j => j) (fun j' _ => j') msg go_on j.

Definition update_part : flow := fun j =>
  job_part 4 (fun t => decode_field_value t (if requestCode (codes j) =? DRequest.Update then 2 else 1)) (txt "decode update info error") j.
Definition condition_part : flow := job_part 5 (fun t => decode_field_value t 0) (txt "decode condition error").
Definition field_part : flow := job_part 6 decode_field_set (txt "decode field set error").
Definition rows_part : flow := job_part 7 decode_result_set (txt "decode result set error").

Definition decode_request_v1 (j : DtcJob) : option DtcJob :=
  if negb (clientapi e) && (requestCode (codes j) =? DRequest.ReloadConfig) && (requestType (codes j) =? TaskTypeHelperReloadConfig)
  then Some (set_stage DecodeStageDone j) else
  snd <$> (version_part ;> validate_part ;> pass_part ;> table_part ;> request_part ;> result_part ;> update_part
           ;> condition_part ;> field_part ;> rows_part ;> stop DecodeStageDone) j.

End DecodeRequest.

(** ** Packets in memory *)

Definition finished (s : Z) : bool := (s =? DecodeStageFatalError) || (s =? DecodeStageDataError) || (s =? DecodeStageDone).

(** [BufferPool::Clone] refuses every role but the client's. *)
Definition clone_ok (e : Env) (size role : Z) : bool := (role =? TaskRoleClient) && alloc_ok e size.

Definition no_memory (s : Z) (j : DtcJob) : option DtcJob :=
  j ← set_error (- ENOMEM) (Some (txt "Insufficient Memory")) j; Some (set_stage s j).

Definition decode_packet_v1 `{Text} (e : Env) (packet : list Z) (type : Z) (j : DtcJob) : option DtcJob :=
  if finished (stage j) then Some j
  else if Z.of_nat (length packet) <? HEADER_SIZE then Some (set_stage DecodeStageFatalError j)
  else
    let h := header_of packet in
    '(rv, j) ← decode_header_v1 h j;
    if rv <? 0 then Some j
    else if Z.of_nat (length packet) <? HEADER_SIZE + rv then Some (set_stage DecodeStageFatalError j)
    else if negb ((type =? 1) || (type =? 2)) && negb (clone_ok e rv (role j)) then no_memory DecodeStageDataError j
    else decode_request_v1 e h (take (Z.to_nat rv) (drop (Z.to_nat HEADER_SIZE) packet)) j.

(** ** Packets from a socket *)

Definition EAGAIN : Z := 11.
Definition EINTR : Z := 4.
Definition EINPROGRESS : Z := 115.
Definition ECONNRESET : Z := 104.

(** What the socket will answer: bytes, an error, or the end. *)
Inductive event := Bytes (bs : list Z) | Error (errno : Z) | End_.

Definition read (sock : list event) (n : Z) : (list Z + Z) * list event :=
  if n <=? 0 then (inl [], sock) else
  match sock with
  | [] => (inr EAGAIN, [])
  | Bytes bs :: sock =>
      if Z.of_nat (length bs) <=? n then (inl bs, sock) else (inl (take (Z.to_nat n) bs), Bytes (drop (Z.to_nat n) bs) :: sock)
  | Error c :: sock => (inr c, sock)
  | End_ :: _ => (inl [], sock)
  end.

(** [SimpleReceiver]: the header, what of the buffer [_packet] is filled, and
    how much is to come. *)
Record SimpleReceiver := mkRecv { rheader : list Z; into_header : bool; filled : list Z; count : Z }.

Definition remain (r : SimpleReceiver) : Z := count r - Z.of_nat (length (filled r)).
Definition init_receiver (r : SimpleReceiver) : SimpleReceiver := mkRecv (rheader r) true [] HEADER_SIZE.
Definition set_receiver (sz : Z) (r : SimpleReceiver) : SimpleReceiver := mkRecv (rheader r) false [] sz.
Definition take_bytes (bs : list Z) (r : SimpleReceiver) : SimpleReceiver :=
  let f := filled r ++ bs in mkRecv (if into_header r then f else rheader r) (into_header r) f (count r).

Record Stream := mkStream { sjob : DtcJob; recv : SimpleReceiver; sock : list event; errno : Z }.

(** [fill]: the number of bytes, or the error. *)
Definition fill (s : Stream) : (Z + Z) * Stream :=
  match read (sock s) (remain (recv s)) with
  | (inl bs, k) => (inl (Z.of_nat (length bs)), mkStream (sjob s) (take_bytes bs (recv s)) k (errno s))
  | (inr c, k) => (inr c, mkStream (sjob s) (recv s) k c)
  end.

(** [discard]; a read that returns has at least one byte. *)
Fixpoint discard (fuel : nat) (s : Stream) : (Z + Z) * Stream :=
  match fuel with
  | O => (inl 1, s)
  | S fuel =>
      if remain (recv s) <=? 0 then (inl 1, s) else
      match read (sock s) (Z.min 1024 (remain (recv s))) with
      | (inl [], k) => (inl 0, mkStream (sjob s) (recv s) k (errno s))
      | (inl bs, k) => discard fuel (mkStream (sjob s) (take_bytes bs (recv s)) k (errno s))
      | (inr c, k) => (inr c, mkStream (sjob s) (recv s) k c)
      end
  end.

Definition with_job (f : DtcJob -> DtcJob) (s : Stream) : Stream := mkStream (f (sjob s)) (recv s) (sock s) (errno s).
Definition at_stage (n : Z) (s : Stream) : Stream := with_job (set_stage n) s.

Section DecodeStream.
Context `{Text} (e : Env).

(** Discarding the body there is no memory for. *)
Definition stream_discard (s : Stream) : option Stream :=
  Some match discard (Z.to_nat (remain (recv s))) s with
       | (inr c, s) => if negb ((c =? EAGAIN) || (c =? EINTR)) then at_stage DecodeStageFatalError s else s
       | (inl 0, s) => at_stage DecodeStageFatalError s
       | (inl _, s) => at_stage DecodeStageDataError s
       end.

(** Receiving the body. *)
Definition stream_body (s : Stream) : option Stream :=
  match fill s with
  | (inr c, s) => Some (if negb ((c =? EAGAIN) || (c =? EINTR)) then at_stage DecodeStageFatalError s else s)
  | (inl 0, s) => Some (at_stage DecodeStageFatalError s)
  | (inl _, s) =>
      if remain (recv s) <=? 0 then
        j ← decode_request_v1 e (header_of (rheader (recv s))) (filled (recv s)) (sjob s); Some (with_job (fun _ => j) s)
      else Some s
  end.

(** Receiving the header. *)
Definition stream_header (s : Stream) : option Stream :=
  let idle := stage (sjob s) =? DecodeStageIdle in
  match fill s with
  | (inr c, s) => Some (if negb ((c =? EAGAIN) || (c =? EINTR) || (c =? EINPROGRESS)) then at_stage DecodeStageFatalError s else s)
  | (inl 0, s) =>
      let c := if (role (sjob s) =? TaskRoleServer) && idle then 0 else ECONNRESET in
      Some (at_stage DecodeStageFatalError (mkStream (sjob s) (recv s) (sock s) c))
  | (inl _, s) =>
      let s := at_stage DecodeStageWaitHeader s in
      if 0 <? remain (recv s) then Some s else
      '(rv, j) ← decode_header_v1 (header_of (rheader (recv s))) (sjob s);
      let s := with_job (fun _ => j) s in
      if rv <? 0 then Some s else
      let s := mkStream (sjob s) (set_receiver rv (recv s)) (sock s) (errno s) in
      if alloc_ok e rv then stream_body s
      else j ← no_memory DecodeStageDiscard (sjob s); stream_discard (with_job (fun _ => j) s)
  end.

Definition decode_stream (s : Stream) : option Stream :=
  let st := stage (sjob s) in
  if finished st then Some s
  else if st =? DecodeStageIdle then stream_header (mkStream (sjob s) (init_receiver (recv s)) (sock s) (errno s))
  else if st =? DecodeStageWaitHeader then stream_header s
  else if st =? DecodeStageDiscard then stream_discard s
  else stream_body s.

End DecodeStream.
