(* ===== verification/PacketSafe.v ===== *)
(** * Packets nobody vouches for

    A server decodes any packet to the end, whatever its bytes are, if the
    command has an entry in the table of task types and the field set announces
    no more fields than there is room for. *)

From S2P Require Import Prelude Codec CodecSpec Sections SectionsSpec TableDef TableDefSpec Fields FieldSets Request RequestSpec RequestSafe TablePack TablePackSpec Results Packet.

(** ** Flows *)

(** From a job in [P], [m] has a result: it goes on with a job in [R], or it
    stops with an error. *)
Definition steps (P : DtcJob -> Prop) (m : flow) (R : DtcJob -> Prop) : Prop :=
  forall j, P j -> exists b j', m j = Some (b, j') /\ if b : bool then R j' else stage j' = DecodeStageDataError.

Lemma steps_then P m n R R' : steps P m R -> steps R n R' -> steps P (m ;> n) R'.
Proof. intros Hm Hn j Hj. destruct (Hm j Hj) as (b & j' & E & Hb). unfold then_. rewrite E. destruct b; [apply Hn, Hb|]. exists false, j'. auto. Qed.

Lemma steps_on (P R : DtcJob -> Prop) j : P j -> R j -> exists b j', go_on j = Some (b, j') /\ if b : bool then R j' else stage j' = DecodeStageDataError.
Proof. intros _ Hr. exists true, j. auto. Qed.

(** ** Errors *)

Definition result_shape (j : DtcJob) : Prop :=
  definition (resultInfo (infos j)) = resultInfoDefinition /\ length (tagValue (resultInfo (infos j))) = 20%nat.

Lemma set_tag_shape s id v : length (tagValue s) = 20%nat -> 0 <= id < 20 ->
  exists s', set_tag id v s = Some s' /\ definition s' = definition s /\ length (tagValue s') = 20%nat.
Proof.
  intros Hl Hi. unfold set_tag, put_tag, SetTagMask. destruct (_ =? _); [eauto|]. rewrite Hl, (proj2 (Z.leb_le 0 id)), (proj2 (Z.ltb_lt id (Z.of_nat 20))) by lia.
  cbn [andb mbind option_bind fieldMask]. rewrite (proj2 (Z.ltb_lt id 24)) by lia.
  destruct (FIELD_ISSET id _); (eexists; split; [reflexivity|]; cbn; rewrite length_insert; auto).
Qed.

Lemma set_error_from_total from err msg j : result_shape j -> exists j', set_error_from from err msg j = Some j' /\ result_shape j' /\ role j' = role j.
Proof.
  intros [Hd Hl]. unfold set_error_from, set_tag_int32, set_tag_string. rewrite Hd.
  destruct (set_tag_shape (resultInfo (infos j)) 1 (VInt err) Hl ltac:(lia)) as (s1 & E1 & Hd1 & Hl1).
  destruct (set_tag_shape s1 2 (VBin (Some from)) Hl1 ltac:(lia)) as (s2 & E2 & Hd2 & Hl2).
  change (tag_type resultInfoDefinition 1 =? DField.Signed) with true. cbv iota. rewrite E1. cbn [mbind option_bind]. rewrite Hd1, Hd.
  change ((tag_type resultInfoDefinition 2 =? _) || _) with true. cbv iota. rewrite E2. cbn [mbind option_bind].
  destruct msg as [m|]; [|eexists; split; [reflexivity|]; unfold result_shape; cbn; rewrite Hd2, Hd1; auto].
  destruct (set_tag_shape s2 3 (VBin (Some m)) Hl2 ltac:(lia)) as (s3 & E3 & Hd3 & Hl3). rewrite Hd2, Hd1, Hd.
  change ((tag_type resultInfoDefinition 3 =? _) || _) with true. cbv iota. rewrite E3. cbn [mbind option_bind].
  eexists. split; [reflexivity|]. unfold result_shape. cbn. rewrite Hd3, Hd2, Hd1. auto.
Qed.

Lemma set_error_total err msg j : result_shape j -> exists j', set_error err msg j = Some j' /\ result_shape j' /\ role j' = role j.
Proof. apply set_error_from_total. Qed.

Lemma give_error_stops err j (R : DtcJob -> Prop) : result_shape j ->
  exists b j', give_error err j = Some (b, j') /\ if b : bool then R j' else stage j' = DecodeStageDataError.
Proof. intros Hj. unfold give_error. destruct (set_error_total err None j Hj) as (j' & -> & _). exists false, (set_stage DecodeStageDataError j'). auto. Qed.

Lemma err_ret_stops err msg j (R : DtcJob -> Prop) : result_shape j ->
  exists b j', err_ret err msg j = Some (b, j') /\ if b : bool then R j' else stage j' = DecodeStageDataError.
Proof. intros Hj. unfold err_ret. destruct (set_error_total err (Some msg) j Hj) as (j' & -> & Hj' & _). apply give_error_stops, Hj'. Qed.

(** ** Tags *)

Lemma tag_str_typed d kt s i : tags_typed d kt s -> 0 <= i < maxTags d -> wire_type s kt i = 4 \/ wire_type s kt i = 5 ->
  exists o, tag_str s i = Some o /\ Forall is_byte (default [] o).
Proof.
  intros (_ & _ & Hp & Ha) Hi Ht. unfold tag_str. destruct (tag_present s i) eqn:E.
  - specialize (Hp i ltac:(lia) E). destruct Ht as [Ht|Ht]; rewrite Ht in Hp; destruct Hp as (bs & -> & Hb); exists (Some bs); auto.
  - destruct (Ha i Hi E) as [-> | ->]; exists None; split; [reflexivity|constructor|reflexivity|constructor].
Qed.

Lemma tag_int_typed d kt s i : tags_typed d kt s -> 0 <= i < maxTags d -> wire_type s kt i = 1 \/ wire_type s kt i = 2 ->
  exists n, tag_int s i = Some n /\ 0 <= n.
Proof.
  intros (_ & _ & Hp & Ha) Hi Ht. unfold tag_int. destruct (tag_present s i) eqn:E.
  - specialize (Hp i ltac:(lia) E). destruct Ht as [Ht|Ht]; rewrite Ht in Hp; destruct Hp as (z & -> & Hz); exists (wrap 32 z); (split; [reflexivity|apply wrap_range; lia]).
  - destruct (Ha i Hi E) as [-> | ->]; exists 0; (split; [reflexivity|lia]).
Qed.

(** ** Names *)

Lemma mystrcmp_total l s1 s2 r : (l <= length s1)%nat -> (l <= length s2)%nat -> exists r', mystrcmp_loop l s1 s2 r = Some r'.
Proof.
  revert s1 s2 r. induction l as [|l IH]; intros s1 s2 r H1 H2; cbn [mystrcmp_loop]; [eauto|]. destruct s1 as [|c1 s1], s2 as [|c2 s2]; cbn [length] in *; try lia.
  destruct (negb _); [eauto|]. destruct (c1 =? 0); [eauto|]. apply IH; lia.
Qed.

Lemma is_same_table_total t n : exists b, is_same_table t n = Some b.
Proof.
  unfold is_same_table, string_equal. destruct (Nat.eqb_spec (length (default [] (tableName t))) (length (default [] n))) as [El|El]; [|eauto].
  destruct (mystrcmp_total (length (default [] (tableName t))) (default [] (tableName t)) (default [] n) 0) as (r & ->); [lia|lia|]. cbn. eauto.
Qed.

(** ** A server *)

(** Tables a server works with. *)
Definition usable (t : DTCTableDefinition) : Prop := types_ok t /\ num_fields t < 255.

Section Server.
Context `{Text} (e : Env) (h : DTC_HEADER_V1) (p : list Z).
Context (Hsec : forall id, section_ok (section_bin h p id)) (Hcmd : 0 <= cmd h).

(** The field set announces no more fields than the table has. *)
Definition narrow (t : DTCTableDefinition) : Prop := forall b, head (ptr (section_bin h p 6)) = Some b -> b <= num_fields t + 1.

Context (Hhot : cmd h = DRequest.TYPE_SYSTEM_COMMAND -> exists t, hotbackupTableDef e = Some t /\ usable t /\ narrow t).
Context (Hdata : cmd h = DRequest.TYPE_SYSTEM_COMMAND -> exists t, dataTableDef e = Some t).

Definition base (j : DtcJob) : Prop :=
  role j = TaskRoleServer /\ (exists t, table j = Some t /\ usable t /\ narrow t) /\ result_shape j.

Definition start (j : DtcJob) : Prop :=
  base j /\ tags_typed versionInfoDefinition DField.None (versionInfo (infos j)) /\ (forall kt, tags_typed requestInfoDefinition kt (requestInfo (infos j))) /\
  parts j = mkParts None None None None /\ Z.land (processFlags (codes j)) PFLAG_ALLOWREMOTETABLE = 0 /\ requestCode (codes j) <> DRequest.Replicate.

Lemma start_flags j f : start j -> start (on_codes (or_requestFlags f) j).
Proof. intros Hs. exact Hs. Qed.

Lemma version_kinds s i : tags_typed versionInfoDefinition DField.None s -> 0 < i -> wire_type s DField.None i = tag_type versionInfoDefinition i.
Proof. intros (E & _) Hi. unfold wire_type. rewrite E, (proj2 (Z.eqb_neq i 0)) by lia. reflexivity. Qed.

Lemma valid_ktype_total a b : is_type a -> is_type b -> exists r, valid_ktype a b = Some r.
Proof.
  intros Ha Hb. apply is_type_cases in Ha, Hb.
  destruct Ha as [->|[->|[->|[->|[->| ->]]]]]; destruct Hb as [->|[->|[->|[->|[->| ->]]]]]; eexists; reflexivity.
Qed.

Lemma check_key_type_steps t : usable t -> steps start (check_key_type t) start.
Proof.
  intros ((Htt & Hty) & _) j Hj. pose proof Hj as ((Hr & _ & Hsh) & Hv & _). unfold check_key_type.
  destruct (tag_int_typed _ _ _ 9 Hv) as (n & -> & Hn); [cbn; lia|rewrite version_kinds by (done || lia); right; reflexivity|].
  destruct Htt as (_ & Ht0 & _). destruct (Hty 0 ltac:(lia)) as (f & -> & Hf). cbn [mbind option_bind].
  destruct (negb _); [apply (steps_on start); exact Hj|].
  destruct (Z.leb_spec DField.TotalType n); cbn [mbind option_bind].
  - apply err_ret_stops. exact Hsh.
  - destruct (valid_ktype_total n (field_type f)) as (r & ->); [unfold is_type; lia|exact Hf|]. cbn [mbind option_bind].
    destruct r; [apply (steps_on start); exact Hj|apply err_ret_stops; exact Hsh].
Qed.

Lemma check_table_hash_steps t : usable t -> steps start (check_table_hash e t) start.
Proof.
  intros Ht j Hj. pose proof Hj as ((Hr & _ & Hsh) & Hv & _). unfold check_table_hash.
  destruct (tag_str_typed _ _ _ 4 Hv) as (hs & -> & _); [cbn; lia|rewrite version_kinds by (done || lia); right; reflexivity|]. cbn [mbind option_bind].
  destruct (_ && negb _); [|apply check_key_type_steps; assumption]. destruct (_ && _); [|apply err_ret_stops; exact Hsh].
  apply check_key_type_steps; [exact Ht|apply start_flags, Hj].
Qed.

Lemma check_table_steps : steps start (check_table e) start.
Proof.
  intros j Hj. pose proof Hj as ((Hr & (t & Et & Hu & _) & Hsh) & Hv & _). unfold check_table. destruct (_ || _); [apply (steps_on start); exact Hj|].
  rewrite Et. cbn [mbind option_bind].
  destruct (tag_str_typed _ _ _ 1 Hv) as (o & -> & Ho); [cbn; lia|rewrite version_kinds by (done || lia); left; reflexivity|]. cbn [mbind option_bind].
  destruct (is_same_table_total t o) as (b & ->). cbn [mbind option_bind]. destruct b; cbn [negb]; [|apply err_ret_stops; exact Hsh].
  apply check_table_hash_steps; assumption.
Qed.

(** A simple section of the packet. *)
Lemma section_runs d kt id s : def_ok d -> is_type kt -> (forall i, is_type (tag_type d i)) -> tags_typed d kt s ->
  exists r b s', decode_simple_section kt (mkD (section_bin h p id) s) = Some (r, mkD b s') /\ tags_typed d kt s'.
Proof.
  intros Hd Hk Ht Hs. destruct (decode_simple_section_guarded d kt Hd Hk Ht (len (section_bin h p id)) 0 (mkD (section_bin h p id) s)) as (r & [b s'] & E & _ & Hs' & _).
  - apply Hsec.
  - exact Hs.
  - pose proof (Hsec id) as [Hl _]. cbn in *. lia.
  - exists r, b, s'. auto.
Qed.

Lemma listed_types d : Forall is_type (tagType d) -> forall i, is_type (tag_type d i).
Proof.
  intros Hl i. unfold tag_type. destruct (tagType d !! Z.to_nat i) eqn:E; [exact (Forall_lookup_1 _ _ _ _ Hl E)|].
  unfold is_type, DField.TotalType, DField.None. cbn. lia.
Qed.

Lemma version_types : def_ok versionInfoDefinition /\ forall i, is_type (tag_type versionInfoDefinition i).
Proof. split; [split; cbn; unfold MAX_STATIC_SECTION; lia|]. apply listed_types. repeat constructor; cbv; intuition congruence. Qed.

Lemma request_types : def_ok requestInfoDefinition /\ forall i, is_type (tag_type requestInfoDefinition i).
Proof. split; [split; cbn; unfold MAX_STATIC_SECTION; lia|]. apply listed_types. repeat constructor; cbv; intuition congruence. Qed.

Lemma version_part_steps : steps start (version_part e h p) start.
Proof.
  intros j Hj. pose proof Hj as (Hb & Hv & Hq & Hp & Hf & Hc). pose proof Hb as (Hr & Ht & Hsh). unfold version_part.
  destruct (_ =? 0); [apply (steps_on start); exact Hj|]. unfold on_section.
  destruct (section_runs _ DField.None 0 _ (proj1 version_types) ltac:(unfold is_type; cbv; intuition congruence) (proj2 version_types) Hv) as (r & b & s & E & Hs).
  rewrite E. cbn [obj]. destruct r as [[]|c]; [|apply err_ret_stops; exact Hsh]. apply check_table_steps.
  destruct (Z.eqb_spec (cmd h) DRequest.TYPE_SYSTEM_COMMAND) as [Ec|_]; [|split_and!; try done; split_and!; done].
  destruct (Hhot Ec) as (t' & Et & Hu & Hn). split_and!; try done. split_and!; try done. exists t'. done.
Qed.

(** The sections a server has no use for. *)
Definition quiet : Prop := section_len h 3 = 0 /\ section_len h 7 = 0.

Lemma mask_bit (ids : list nat) m i : Z.testbit m (Z.of_nat i) = true \/ (i ∈ ids) /\ section_len h i <> 0 ->
  Z.testbit (fold_left (fun m i => if default 0 (hlen h !! i) =? 0 then m else Z.lor m (2 ^ Z.of_nat i)) ids m) (Z.of_nat i) = true.
Proof.
  revert m. induction ids as [|k ids IH]; intros m [Hm|[Hin Hl]]; cbn [fold_left]; try exact Hm; try (by apply elem_of_nil in Hin); apply IH.
  - left. destruct (_ =? 0); [exact Hm|]. rewrite Z.lor_spec, Hm. reflexivity.
  - apply elem_of_cons in Hin as [->|Hin]; [left|right; auto]. unfold section_len in Hl. rewrite (proj2 (Z.eqb_neq _ 0) Hl), Z.lor_spec, Z.pow2_bits_true by lia.
    apply orb_true_r.
Qed.

Lemma server_sections c : 0 <= c <= 17 -> Z.land 0x71F9 (2 ^ c) <> 0 ->
  exists must may, entry validsections c = Some (must, may) /\ Z.testbit may 3 = false /\ Z.testbit may 7 = false.
Proof.
  intros Hc Hl. unfold entry. rewrite (proj2 (Z.leb_le 0 c)) by lia.
  assert (H0 : forallb (fun n => (Z.land 0x71F9 (2 ^ Z.of_nat n) =? 0) ||
    match validsections !! n with Some (_, may) => negb (Z.testbit may 3) && negb (Z.testbit may 7) | None => false end) (seq 0 18) = true) by (vm_compute; reflexivity).
  rewrite forallb_forall in H0. specialize (H0 (Z.to_nat c) ltac:(apply in_seq; lia)). rewrite Z2Nat.id, (proj2 (Z.eqb_neq _ 0) Hl) in H0 by lia. cbn [orb] in H0.
  destruct (validsections !! Z.to_nat c) as [[must may]|]; [|discriminate]. exists must, may. apply andb_true_iff in H0 as [H1 H2]. apply negb_true_iff in H1, H2. auto.
Qed.

Lemma absent may i : Z.ldiff (present_mask h) may = 0 -> Z.testbit may (Z.of_nat i) = false -> (i < 8)%nat -> section_len h i = 0.
Proof.
  intros Hd Hm Hi. destruct (Z.eq_dec (section_len h i) 0) as [|Hn]; [assumption|]. exfalso.
  assert (Hb : Z.testbit (Z.ldiff (present_mask h) may) (Z.of_nat i) = true).
  { rewrite Z.ldiff_spec, Hm. unfold present_mask. rewrite mask_bit; [reflexivity|]. right. split; [|exact Hn]. apply elem_of_seq. lia. }
  rewrite Hd, Z.testbit_0_l in Hb. discriminate.
Qed.

Lemma validate_part_steps : steps start (validate_part h) (fun j => start j /\ quiet).
Proof.
  intros j Hj. pose proof Hj as ((Hr & _ & Hsh) & _ & _ & _ & _ & Hc). unfold validate_part. rewrite (proj2 (Z.eqb_neq _ _) Hc).
  assert (Herr : forall code msg, exists b j', ('(r, j) ← (j ← set_error (- code) (Some msg) j; Some (-1, j)); if r <? 0 then stop DecodeStageDataError j else go_on j) = Some (b, j') /\
    if b : bool then start j' /\ quiet else stage j' = DecodeStageDataError).
  { intros code msg. destruct (set_error_total (- code) (Some msg) j Hsh) as (j' & -> & _). cbn [mbind option_bind]. exists false, (set_stage DecodeStageDataError j'). auto. }
  unfold validate_section. destruct (Z.ltb_spec 17 (cmd h)); [apply Herr|]. rewrite Hr. change (entry validcmds TaskRoleServer) with (Some 0x71F9). cbn [mbind option_bind].
  destruct (Z.eqb_spec (Z.land 0x71F9 (2 ^ cmd h)) 0) as [|Hl]; [apply Herr|]. destruct (server_sections (cmd h) ltac:(lia) Hl) as (must & may & -> & H3 & H7).
  cbn [mbind option_bind]. destruct (negb (Z.land _ _ =? _)); [apply Herr|]. destruct (Z.eqb_spec (Z.ldiff (present_mask h) may) 0) as [Hd|]; cbn [negb]; [|apply Herr].
  cbn [mbind option_bind]. exists true, j. split; [reflexivity|]. split; [exact Hj|]. split; eapply absent; eauto; lia.
Qed.

Lemma pass_part_steps : steps (fun j => start j /\ quiet) (pass_part h) (fun j => start j /\ quiet).
Proof. intros j Hj. unfold pass_part. destruct (_ && _); [exists false, (set_stage DecodeStageDataError j); auto|exists true, j; auto]. Qed.

Lemma table_part_steps : steps (fun j => start j /\ quiet) (table_part e h p) (fun j => start j /\ quiet).
Proof. intros j Hj. pose proof Hj as ((_ & _ & _ & _ & Hf & _) & _). unfold table_part. rewrite Hf, orb_true_r. exists true, j. auto. Qed.

(** What is left of a request once its information is decoded. *)
Definition plain (j : DtcJob) : Prop := base j /\ parts j = mkParts None None None None /\ quiet.

Lemma check_register_steps kt j : base j -> parts j = mkParts None None None None -> quiet -> tags_typed versionInfoDefinition DField.None (versionInfo (infos j)) ->
  tags_typed requestInfoDefinition kt (requestInfo (infos j)) ->
  exists b j', check_register e h j = Some (b, j') /\ if b : bool then plain j' else stage j' = DecodeStageDataError.
Proof.
  intros Hb Hp Hq Hv Hr. pose proof Hb as (_ & _ & Hsh). unfold check_register.
  destruct (tag_int_typed _ _ _ 7 Hr) as (n & -> & _); [cbn; lia|destruct Hr as (E & _); unfold wire_type; rewrite E; right; reflexivity|]. cbn [mbind option_bind].
  destruct (_ && _) eqn:Ea; [|exists true, j; split; [reflexivity|split_and!; assumption]]. apply andb_true_iff in Ea as [Ec _]. apply Z.eqb_eq in Ec.
  destruct (tag_str_typed _ _ _ 2 Hv) as (hs & -> & _); [cbn; lia|rewrite version_kinds by (done || lia); right; reflexivity|]. cbn [mbind option_bind].
  destruct (Hdata Ec) as (t & Et). rewrite Et. cbn [mbind option_bind]. destruct (_ <=? 0); cbn [mbind option_bind]; [apply err_ret_stops; exact Hsh|].
  destruct (negb _); [apply err_ret_stops; exact Hsh|exists true, j; split; [reflexivity|split_and!; assumption]].
Qed.

Lemma request_part_steps : steps (fun j => start j /\ quiet) (request_part e h p) plain.
Proof.
  intros j [(Hb & Hv & Hr & Hp & _) Hq]. pose proof Hb as (Hro & (t & Et & ((Htt & Hty) & Hu) & Hn) & Hsh). unfold request_part.
  destruct (_ =? 0); [exists true, j; split; [reflexivity|split_and!; assumption]|].
  assert (exists kt, (if negb (Z.land (requestFlags (codes j)) MultiKeyValue =? 0) then Some DField.Binary else key_kind j) = Some kt /\ is_type kt) as (kt & -> & Hk).
  { destruct (negb _); [eexists; split; [reflexivity|unfold is_type; cbv; intuition congruence]|]. unfold key_kind. rewrite Et.
    destruct Htt as (_ & Ht0 & _). destruct (Hty 0 ltac:(lia)) as (f & -> & Hf). eexists. split; [reflexivity|exact Hf]. }
  cbn [mbind option_bind]. unfold on_section. destruct (section_runs _ kt 2 _ (proj1 request_types) Hk (proj2 request_types) (Hr kt)) as (r & b & s & E & Hs).
  rewrite E. cbn [obj]. destruct r as [[]|c]; [|apply err_ret_stops; exact Hsh]. apply (check_register_steps kt); try done.
Qed.

Lemma result_part_steps : steps plain (result_part h p) plain.
Proof. intros j Hj. pose proof Hj as (_ & _ & H3 & _). unfold result_part. rewrite H3. exists true, j. auto. Qed.

Lemma rows_part_steps : steps (fun j => base j /\ quiet) (rows_part h p) (fun _ => True).
Proof. intros j Hj. pose proof Hj as (_ & _ & H7). unfold rows_part, job_part. rewrite H7. exists true, j. auto. Qed.

Lemma frame_base mode j j' : frame mode j j' -> base j -> base j'.
Proof. intros (Hr & Ht & Hi & _) (Hro & Htb & Hs). unfold base, result_shape. rewrite Hr, Ht, Hi. auto. Qed.

(** Values, for a job that has none of their kind. *)
Lemma values_steps id mode msg (R : DtcJob -> Prop) j : base j -> get_values mode (parts j) = None -> (forall j', frame mode j j' -> R j') ->
  exists b j', job_part h p id (fun t => decode_field_value t mode) msg j = Some (b, j') /\ if b : bool then R j' else stage j' = DecodeStageDataError.
Proof.
  intros Hb Hn HR. pose proof Hb as (_ & (t & Et & (Hty & _) & _) & Hsh). unfold job_part.
  destruct (_ =? 0); [exists true, j; split; [reflexivity|apply HR; unfold frame; destruct (mode =? 0); tauto]|].
  rewrite Et. cbn [mbind option_bind]. unfold on_section.
  destruct (decode_field_value_sure t mode Hty j Hn (mkD (section_bin h p id) j) (Hsec id) eq_refl) as (r & d & -> & _ & Hr).
  destruct r as [[]|c]; [exists true, (obj d); split; [reflexivity|apply HR, Hr]|]. apply err_ret_stops, (frame_base mode j _ Hr Hb).
Qed.

Lemma update_part_steps : steps plain (update_part h p) (fun j => base j /\ conditionInfo (parts j) = None /\ fieldList (parts j) = None /\ quiet).
Proof.
  intros j (Hb & Hp & Hq). unfold update_part. apply values_steps; [exact Hb|rewrite Hp; by destruct (_ =? _)|].
  intros j' Hf. split; [exact (frame_base _ _ _ Hf Hb)|]. destruct Hf as (_ & _ & _ & _ & -> & _ & Hm). rewrite Hp in Hm |- *. destruct (_ =? DRequest.Update); cbn in Hm |- *; auto.
Qed.

Lemma condition_part_steps :
  steps (fun j => base j /\ conditionInfo (parts j) = None /\ fieldList (parts j) = None /\ quiet) (condition_part h p) (fun j => base j /\ fieldList (parts j) = None /\ quiet).
Proof.
  intros j (Hb & Hc & Hl & Hq). unfold condition_part. apply values_steps; [exact Hb|exact Hc|].
  intros j' Hf. split; [exact (frame_base _ _ _ Hf Hb)|]. destruct Hf as (_ & _ & _ & _ & -> & _). auto.
Qed.

Lemma field_part_steps : steps (fun j => base j /\ fieldList (parts j) = None /\ quiet) (field_part h p) (fun j => base j /\ quiet).
Proof.
  intros j (Hb & Hl & Hq). pose proof Hb as (Hro & (t & Et & ((Htt & Hty) & H5) & Hn) & Hsh). unfold field_part, job_part.
  destruct (_ =? 0); [exists true, j; auto|]. rewrite Et. cbn [mbind option_bind]. unfold on_section.
  destruct (decode_field_set_safe t j (mkD (section_bin h p 6) j) Htt H5 Hl (Hsec 6) eq_refl Hn) as (r & d & -> & H1 & H2 & H3 & _).
  assert (Hb' : base (obj d)) by (unfold base, result_shape; rewrite H1, H2, H3; exact Hb).
  destruct r as [[]|c]; [exists true, (obj d); auto|]. apply err_ret_stops. apply Hb'.
Qed.

Lemma decode_request_safe j : start j -> exists j', decode_request_v1 e h p j = Some j' /\ finished (stage j') = true.
Proof.
  intros Hj. unfold decode_request_v1. destruct (_ && _); [eexists; split; reflexivity|].
  assert (Hs : steps start (version_part e h p ;> validate_part h ;> pass_part h ;> table_part e h p ;> request_part e h p ;> result_part h p ;> update_part h p
    ;> condition_part h p ;> field_part h p ;> rows_part h p) (fun _ => True)).
  { repeat eapply steps_then; [apply version_part_steps|apply validate_part_steps|apply pass_part_steps|apply table_part_steps|apply request_part_steps
      |apply result_part_steps|apply update_part_steps|apply condition_part_steps|apply field_part_steps|apply rows_part_steps]. }
  destruct (Hs j Hj) as (b & j' & E & Hb). unfold then_ at 1. rewrite E. destruct b; [eexists; split; reflexivity|].
  exists j'. split; [reflexivity|]. rewrite Hb. reflexivity.
Qed.
End Server.

(** ** The packet *)

Lemma sum_acc l a : fold_left Z.add l a = a + fold_left Z.add l 0.
Proof. revert a. induction l as [|x l IH]; intros a; cbn [fold_left]; [lia|]. rewrite (IH (a + x)), (IH (0 + x)). lia. Qed.

Lemma sum_nonneg l : Forall (fun x => 0 <= x) l -> 0 <= fold_left Z.add l 0.
Proof. induction 1 as [|x l Hx _ IH]; cbn [fold_left]; [lia|]. rewrite sum_acc. lia. Qed.

Lemma sum_upto l id : Forall (fun x => 0 <= x) l -> fold_left Z.add (take id l) 0 + default 0 (l !! id) <= fold_left Z.add l 0.
Proof.
  intros Hl. revert id. induction Hl as [|x l Hx Hl IH]; intros [|id]; cbn [take fold_left]; [cbn; lia..| |].
  - rewrite (sum_acc l (0 + x)). pose proof (sum_nonneg l Hl). cbn. lia.
  - change ((x :: l) !! S id) with (l !! id). rewrite (sum_acc (take id l) (0 + x)), (sum_acc l (0 + x)). specialize (IH id). lia.
Qed.

Lemma sections_ok h p : Forall (fun x => 0 <= x) (hlen h) -> Forall is_byte p -> Z.of_nat (length p) = body_len h -> forall id, section_ok (section_bin h p id).
Proof.
  intros Hl Hb Hp id. pose proof (sum_upto (hlen h) id Hl) as Hs. assert (H0 : 0 <= fold_left Z.add (take id (hlen h)) 0) by (apply sum_nonneg, Forall_take, Hl).
  assert (H1 : 0 <= section_len h id). { unfold section_len. destruct (hlen h !! id) eqn:E; cbn; [exact (Forall_lookup_1 _ _ _ _ Hl E)|lia]. }
  unfold section_bin, section_ok, body_len in *. cbn [len ptr]. fold (section_len h id) in Hs. split; [|apply Forall_take, Forall_drop, Hb].
  rewrite length_take, length_drop. lia.
Qed.

Lemma byte_default bs i : Forall is_byte bs -> 0 <= default 0 (bs !! i) < 256.
Proof. intros Hb. destruct (bs !! i) eqn:E; cbn; [exact (Forall_lookup_1 _ _ _ _ Hb E)|lia]. Qed.

Lemma header_lens bs : Forall is_byte bs -> Forall (fun x => 0 <= x) (hlen (header_of bs)).
Proof.
  intros Hb. cbn [header_of hlen]. apply Forall_forall. intros x Hx. apply list_elem_of_fmap in Hx as (k & -> & _). unfold le32.
  pose proof (byte_default bs (4 + 4 * k) Hb). pose proof (byte_default bs (4 + 4 * k + 1) Hb). pose proof (byte_default bs (4 + 4 * k + 2) Hb). pose proof (byte_default bs (4 + 4 * k + 3) Hb). lia.
Qed.

Lemma start_new t h p f : usable t -> narrow h p t -> (forall x, processFlags (f x) = processFlags x) -> (forall x, requestCode x = 0 -> requestCode (f x) <> DRequest.Replicate) ->
  start h p (set_stage DecodeStageWaitData (on_codes f (new_job (Some t) TaskRoleServer))).
Proof.
  intros Hu Hn Hp Hc. split_and!.
  - split_and!; [reflexivity|exists t; auto|split; reflexivity].
  - apply new_section_typed, version_types.
  - intros kt. apply new_section_typed, request_types.
  - reflexivity.
  - cbn [set_stage on_codes codes]. rewrite Hp. reflexivity.
  - cbn [set_stage on_codes codes]. apply Hc. reflexivity.
Qed.

(** The body a header announces. *)
Definition packet_body (packet : list Z) : list Z := take (Z.to_nat (body_len (header_of packet))) (drop (Z.to_nat HEADER_SIZE) packet).

Lemma packet_safe `{Text} e t packet type : Forall is_byte packet -> usable t ->
  let h := header_of packet in let p := packet_body packet in
  cmd h <= 16 -> narrow h p t ->
  (cmd h = DRequest.TYPE_SYSTEM_COMMAND -> (exists t', hotbackupTableDef e = Some t' /\ usable t' /\ narrow h p t') /\ exists t', dataTableDef e = Some t') ->
  exists j, decode_packet_v1 e packet type (new_job (Some t) TaskRoleServer) = Some j /\ finished (stage j) = true.
Proof.
  intros Hb Hu h p Hc Hn Hs. pose proof (header_lens packet Hb) as Hl. fold h in Hl. pose proof (sum_nonneg _ Hl) as Hsum. fold (body_len h) in Hsum.
  assert (Hc0 : 0 <= cmd h) by (apply (byte_default packet 3 Hb)). unfold decode_packet_v1. cbn [new_job stage]. change (finished DecodeStageIdle) with false. cbv iota.
  destruct (Z.ltb_spec (Z.of_nat (length packet)) HEADER_SIZE); [eexists; split; reflexivity|]. fold h. unfold decode_header_v1.
  destruct (negb (version h =? 1)); [eexists; split; reflexivity|]. destruct (negb (scts h =? _)); [eexists; split; reflexivity|].
  destruct (MAXPACKETSIZE <? body_len h); [eexists; split; reflexivity|].
  assert (exists f, (if (cmd h =? DRequest.result_code) || (cmd h =? DRequest.DTCResultSet) then Some (on_codes (set_reply (cmd h) (hflags h)) (new_job (Some t) TaskRoleServer))
    else ty ← cmd2type !! Z.to_nat (cmd h); Some (on_codes (set_request (cmd h) ty (hflags h)) (new_job (Some t) TaskRoleServer))) = Some (on_codes f (new_job (Some t) TaskRoleServer)) /\
    start h p (set_stage DecodeStageWaitData (on_codes f (new_job (Some t) TaskRoleServer)))) as (f & E & Hst).
  { destruct (_ || _).
    - eexists. split; [reflexivity|]. apply start_new; [exact Hu|exact Hn|reflexivity|]. intros x Hx. cbn. rewrite Hx. discriminate.
    - destruct (lookup_lt_is_Some_2 cmd2type (Z.to_nat (cmd h))) as [ty ->]; [change (length cmd2type) with 17%nat; lia|]. eexists. split; [reflexivity|].
      apply start_new; [exact Hu|exact Hn|reflexivity|]. intros x _ Ex. change (cmd h = 17) in Ex. lia. }
  cbv zeta. rewrite E. cbn [mbind option_bind]. rewrite (proj2 (Z.ltb_ge (body_len h) 0)) by lia.
  destruct (Z.ltb_spec (Z.of_nat (length packet)) (HEADER_SIZE + body_len h)); [eexists; split; reflexivity|].
  destruct (_ && negb _).
  - unfold no_memory. destruct (set_error_total (- ENOMEM) (Some (txt "Insufficient Memory")) _ (proj2 (proj2 (proj1 Hst)))) as (j & Ej & _).
    rewrite Ej. eexists. split; reflexivity.
  - apply decode_request_safe; [|exact Hc0|apply Hs|apply Hs|exact Hst]. apply sections_ok; [exact Hl|apply Forall_take, Forall_drop, Hb|].
    unfold p, packet_body. fold h. rewrite length_take, length_drop. unfold HEADER_SIZE in *. lia.
Qed.
