(* ===== verification/PacketSpec.v ===== *)
(** * What decoding a packet promises

    A packet that arrives in parts is decoded as one that is in memory, however
    it is cut and however often the socket has nothing to say; what follows it
    stays in the socket.  A server refuses a request that names another table. *)

From S2P Require Import Prelude Codec CodecSpec Sections SectionsSpec TableDef Fields FieldsSpec FieldSets Request RequestSpec TablePack Results Packet PacketSafe.

(** ** Streams *)

(** The socket will deliver the bytes [l], and nothing else but delays. *)
Inductive feeds : list event -> list Z -> Prop :=
| feeds_nil : feeds [] []
| feeds_bytes bs k l : bs <> [] -> feeds k l -> feeds (Bytes bs :: k) (bs ++ l)
| feeds_again c k l : c = EAGAIN \/ c = EINTR -> feeds k l -> feeds (Error c :: k) l.

(** Reading at most [n] bytes of them. *)
Lemma read_feeds k rest more : feeds k (rest ++ more) -> rest <> [] ->
  (exists c k', read k (Z.of_nat (length rest)) = (inr c, k') /\ (c = EAGAIN \/ c = EINTR) /\ feeds k' (rest ++ more) /\ (length k' < length k)%nat) \/
  (exists bs rest' k', read k (Z.of_nat (length rest)) = (inl bs, k') /\ bs <> [] /\ rest = bs ++ rest' /\ feeds k' (rest' ++ more) /\ (rest' = [] \/ (length k' < length k)%nat)).
Proof.
  intros Hf Hr. unfold read. destruct (Z.leb_spec (Z.of_nat (length rest)) 0); [destruct rest; [done|cbn in *; lia]|].
  remember (rest ++ more) as l eqn:El. destruct Hf as [|bs k l Hb Hf|c k l Hc Hf].
  - destruct rest; [done|discriminate].
  - right. destruct (Z.leb_spec (Z.of_nat (length bs)) (Z.of_nat (length rest))) as [Hl|Hl].
    + exists bs, (drop (length bs) rest), k. assert (El' : rest = bs ++ drop (length bs) rest).
      { rewrite <- (take_drop (length bs) rest) at 1. f_equal. apply (f_equal (take (length bs))) in El. rewrite take_app_length, take_app_le in El by lia. done. }
      split_and!; [reflexivity|exact Hb|exact El'| |right; cbn; lia]. rewrite El', <- app_assoc in El. apply app_inv_head in El. rewrite <- El. exact Hf.
    + exists rest, [], (Bytes (drop (length rest) bs) :: k). rewrite Nat2Z.id. assert (El' : bs = rest ++ drop (length rest) bs).
      { rewrite <- (take_drop (length rest) bs) at 1. f_equal. apply (f_equal (take (length rest))) in El. rewrite take_app_length, take_app_le in El by lia. done. }
      split_and!; [|exact Hr|rewrite app_nil_r; reflexivity| |left; reflexivity].
      * rewrite El' at 1. rewrite take_app_length. reflexivity.
      * cbn [app]. rewrite El', <- app_assoc in El. apply app_inv_head in El. rewrite <- El. constructor; [|exact Hf].
        intros E. apply (f_equal length) in E. rewrite length_drop in E. cbn in E. lia.
  - left. exists c, k. split_and!; [reflexivity|exact Hc|exact Hf|cbn; lia].
Qed.

(** The stage a job was in before its header does not matter. *)
Lemma header_stage h st j : decode_header_v1 h (set_stage st j) = decode_header_v1 h j.
Proof.
  unfold decode_header_v1. destruct (negb (version h =? 1)); [reflexivity|]. destruct (negb (scts h =? _)); [reflexivity|].
  destruct (MAXPACKETSIZE <? body_len h); [reflexivity|]. destruct (_ || _); [reflexivity|]. destruct (cmd2type !! _); reflexivity.
Qed.

Lemma header_waits h j rv j1 : decode_header_v1 h j = Some (rv, j1) -> 0 <= rv -> stage j1 = DecodeStageWaitData /\ role j1 = role j.
Proof.
  unfold decode_header_v1. destruct (negb (version h =? 1)); [intros [= <- _]; lia|]. destruct (negb (scts h =? _)); [intros [= <- _]; lia|].
  destruct (MAXPACKETSIZE <? body_len h); [intros [= <- _]; lia|].
  destruct (_ || _); [intros [= _ <-]; auto|]. destruct (cmd2type !! _); [|discriminate]. intros [= _ <-]. auto.
Qed.

Section Stream.
Context `{Text} (e : Env) (hd body : list Z) (j j1 J : DtcJob) (more : list Z).
Let h := header_of hd.
Context (Hhd : Z.of_nat (length hd) = HEADER_SIZE) (Hbody : body <> []) (Hlen : body_len h = Z.of_nat (length body)) (Hmem : alloc_ok e (body_len h) = true).
Context (Hidle : stage j = DecodeStageIdle) (Hj1 : decode_header_v1 h j = Some (body_len h, j1)) (Hw : stage j1 = DecodeStageWaitData).
Context (HJ : decode_request_v1 e h body j1 = Some J).

(** Calls of [decode_stream], one after the other. *)
Fixpoint calls (n : nat) (s : Stream) : option Stream := match n with O => Some s | S n => s ← decode_stream e s; calls n s end.

Definition reaches (s : Stream) : Prop := exists n s', calls n s = Some s' /\ sjob s' = J /\ feeds (sock s') more.

Lemma reaches_step s s' : decode_stream e s = Some s' -> reaches s' -> reaches s.
Proof. intros E (n & s2 & Ec & Hs). exists (S n), s2. cbn [calls]. rewrite E. auto. Qed.

Lemma body_reaches m k gb rest c : (length k < m)%nat -> feeds k (rest ++ more) -> rest <> [] -> gb ++ rest = body ->
  exists s, stream_body e (mkStream j1 (mkRecv hd false gb (body_len h)) k c) = Some s /\ reaches s.
Proof.
  revert k gb rest c. induction m as [|m IH]; intros k gb rest c Hm Hf Hr Hb; [lia|].
  unfold stream_body, fill. cbn [sock recv sjob errno].
  assert (Hrem : remain (mkRecv hd false gb (body_len h)) = Z.of_nat (length rest)) by (unfold remain; cbn [count filled]; rewrite Hlen, <- Hb, length_app; lia).
  rewrite Hrem. destruct (read_feeds k rest more Hf Hr) as [(c' & k' & -> & Hc & Hf' & Hk)|(bs & rest' & k' & -> & Hn & -> & Hf' & Hk)].
  - assert (Ec : (c' =? EAGAIN) || (c' =? EINTR) = true) by (destruct Hc as [-> | ->]; reflexivity). rewrite Ec. cbn [negb].
    eexists. split; [reflexivity|]. destruct (IH k' gb rest c' ltac:(lia) Hf' Hr Hb) as (s & E & Hs). apply (reaches_step _ s); [|exact Hs].
    unfold decode_stream. cbn [sjob]. rewrite Hw. exact E.
  - assert (Hl : exists q, Z.of_nat (length bs) = Zpos q) by (destruct bs as [|b bs]; [done|]; cbn [length]; exists (Pos.of_succ_nat (length bs)); lia).
    destruct Hl as [q Hq]. rewrite Hq. unfold take_bytes. cbn [recv into_header filled rheader sjob count].
    assert (Hrem' : remain (mkRecv hd false (gb ++ bs) (body_len h)) = Z.of_nat (length rest')).
    { unfold remain. cbn [count filled]. rewrite Hlen, <- Hb, ! length_app. lia. }
    rewrite Hrem'. destruct rest' as [|b rest'].
    + cbn [length]. change (Z.of_nat 0 <=? 0) with true. cbv iota. rewrite app_nil_r in Hb. rewrite Hb. fold h. rewrite HJ. cbn [mbind option_bind].
      eexists. split; [reflexivity|]. exists O, (mkStream J (mkRecv hd false body (body_len h)) k' c). auto.
    + rewrite (proj2 (Z.leb_gt (Z.of_nat (length (b :: rest'))) 0)) by (cbn; lia). eexists. split; [reflexivity|].
      destruct Hk as [?|Hk]; [discriminate|]. destruct (IH k' (gb ++ bs) (b :: rest') c ltac:(lia) Hf' ltac:(done)) as (s & E & Hs); [rewrite <- app_assoc; exact Hb|].
      apply (reaches_step _ s); [|exact Hs]. unfold decode_stream. cbn [sjob]. rewrite Hw. exact E.
Qed.

(** A receiver that has [g] of the header. *)
Definition header_state (s : Stream) (g : list Z) (k : list event) : Prop :=
  sock s = k /\ exists st rh, sjob s = set_stage st j /\ recv s = mkRecv rh true g HEADER_SIZE /\ (st = DecodeStageIdle /\ g = [] \/ st = DecodeStageWaitHeader).

Lemma header_call s g k : header_state s g k -> exists s', decode_stream e s = stream_header e s' /\ header_state s' g k.
Proof.
  intros (Hk & st & rh & Hj & Hr & Hs). unfold decode_stream. rewrite Hj. cbn [stage set_stage]. destruct Hs as [[-> ->]| ->].
  - eexists. split; [reflexivity|]. split; [exact Hk|]. exists DecodeStageIdle, rh. rewrite Hr. split_and!; auto.
  - exists s. split; [reflexivity|]. split; [exact Hk|]. exists DecodeStageWaitHeader, rh. auto.
Qed.

Lemma header_reaches m k g rest s : (length k < m)%nat -> feeds k (rest ++ body ++ more) -> rest <> [] -> g ++ rest = hd -> header_state s g k ->
  exists s', stream_header e s = Some s' /\ reaches s'.
Proof.
  revert k g rest s. induction m as [|m IH]; intros k g rest s Hm Hf Hr Hb (Hk & st & rh & Hj & Hrv & Hst); [lia|].
  unfold stream_header, fill. rewrite Hk, Hrv, Hj. assert (Hrem : remain (mkRecv rh true g HEADER_SIZE) = Z.of_nat (length rest)).
  { unfold remain. cbn [count filled]. rewrite <- Hhd, <- Hb, length_app. lia. }
  rewrite Hrem. destruct (read_feeds k rest (body ++ more) Hf Hr) as [(c' & k' & -> & Hc & Hf' & Hk')|(bs & rest' & k' & -> & Hn & -> & Hf' & Hk')].
  - assert (Ec : (c' =? EAGAIN) || (c' =? EINTR) || (c' =? EINPROGRESS) = true) by (destruct Hc as [-> | ->]; reflexivity). rewrite Ec. cbn [negb].
    eexists. split; [reflexivity|]. assert (Hs : header_state (mkStream (set_stage st j) (mkRecv rh true g HEADER_SIZE) k' c') g k') by (split; [reflexivity|]; exists st, rh; auto).
    destruct (header_call _ _ _ Hs) as (s2 & E & Hs2). destruct (IH k' g rest s2 ltac:(lia) Hf' Hr Hb Hs2) as (s3 & E3 & Hs3).
    apply (reaches_step _ s3); [exact (eq_trans E E3)|exact Hs3].
  - assert (Hl : exists q, Z.of_nat (length bs) = Zpos q) by (destruct bs as [|b bs]; [done|]; cbn [length]; exists (Pos.of_succ_nat (length bs)); lia).
    destruct Hl as [q Hq]. rewrite Hq. unfold take_bytes. cbn [recv into_header filled rheader sjob count at_stage with_job errno sock].
    assert (Hrem' : remain (mkRecv (g ++ bs) true (g ++ bs) HEADER_SIZE) = Z.of_nat (length rest')).
    { unfold remain. cbn [count filled]. rewrite <- Hhd, <- Hb, ! length_app. lia. }
    rewrite Hrem'. destruct rest' as [|b rest'].
    + cbn [length]. change (0 <? Z.of_nat 0) with false. cbv iota. rewrite app_nil_r in Hb. rewrite Hb. fold h.
      change (set_stage DecodeStageWaitHeader (set_stage st j)) with (set_stage DecodeStageWaitHeader j). rewrite header_stage, Hj1. cbn [mbind option_bind].
      rewrite (proj2 (Z.ltb_ge (body_len h) 0)), Hmem by (rewrite Hlen; lia). unfold set_receiver. cbn [sjob recv sock errno rheader with_job].
      exact (body_reaches (S (length k')) k' [] body (errno s) ltac:(lia) Hf' Hbody eq_refl).
    + rewrite (proj2 (Z.ltb_lt 0 (Z.of_nat (length (b :: rest'))))) by (cbn; lia). eexists. split; [reflexivity|].
      destruct Hk' as [?|Hk']; [discriminate|].
      assert (Hs : header_state (mkStream (set_stage DecodeStageWaitHeader (set_stage st j)) (mkRecv (g ++ bs) true (g ++ bs) HEADER_SIZE) k' (errno s)) (g ++ bs) k').
      { split; [reflexivity|]. exists DecodeStageWaitHeader, (g ++ bs). auto. }
      destruct (header_call _ _ _ Hs) as (s2 & E & Hs2). destruct (IH k' (g ++ bs) (b :: rest') s2 ltac:(lia) Hf' ltac:(done)) as (s3 & E3 & Hs3); [rewrite <- app_assoc; exact Hb|exact Hs2|].
      apply (reaches_step _ s3); [exact (eq_trans E E3)|exact Hs3].
Qed.

End Stream.

Lemma set_stage_same j : set_stage (stage j) j = j.
Proof. by destruct j. Qed.

(** The header is in the first bytes of a packet. *)
Lemma header_of_app hd r : Z.of_nat (length hd) = HEADER_SIZE -> header_of (hd ++ r) = header_of hd.
Proof.
  unfold HEADER_SIZE. intros Hl. assert (Hb : forall i, (i < 36)%nat -> (hd ++ r) !! i = hd !! i) by (intros i Hi; apply lookup_app_l; lia).
  unfold header_of, le32. cbn [seq map Nat.add Nat.mul]. rewrite ! Hb by lia. reflexivity.
Qed.

Lemma stream_as_packet `{Text} e hd body more j j1 J k r c : Z.of_nat (length hd) = HEADER_SIZE -> body <> [] -> body_len (header_of hd) = Z.of_nat (length body) ->
  alloc_ok e (body_len (header_of hd)) = true -> stage j = DecodeStageIdle -> decode_header_v1 (header_of hd) j = Some (body_len (header_of hd), j1) ->
  decode_packet_v1 e (hd ++ body) 2 j = Some J -> feeds k (hd ++ body ++ more) ->
  exists n s, calls e n (mkStream j r k c) = Some s /\ sjob s = J /\ feeds (sock s) more.
Proof.
  intros Hhd Hb Hl Hmem Hi Hd Hp Hf. destruct (header_waits _ _ _ _ Hd) as [Hw Hro]; [lia|].
  assert (HJ : decode_request_v1 e (header_of hd) body j1 = Some J).
  { rewrite <- Hp. unfold decode_packet_v1. rewrite Hi. change (finished DecodeStageIdle) with false. cbv iota.
    rewrite (proj2 (Z.ltb_ge _ HEADER_SIZE)), header_of_app by (assumption || (rewrite length_app; lia)). cbv zeta. rewrite Hd. cbn [mbind option_bind].
    rewrite (proj2 (Z.ltb_ge _ 0)), (proj2 (Z.ltb_ge _ (HEADER_SIZE + _))) by (rewrite ? length_app; lia). change (negb ((2 =? 1) || (2 =? 2))) with false. cbn [andb].
    rewrite (drop_len hd) by (symmetry; exact Hhd). rewrite take_ge by lia. reflexivity. }
  assert (Hs : header_state j (mkStream j (mkRecv (rheader r) true [] HEADER_SIZE) k c) [] k).
  { split; [reflexivity|]. exists DecodeStageIdle, (rheader r). split_and!; auto. rewrite <- Hi. symmetry. apply set_stage_same. }
  destruct (header_reaches e hd body j j1 J more Hhd Hb Hl Hmem Hd Hw HJ (S (length k)) k [] hd (mkStream j (mkRecv (rheader r) true [] HEADER_SIZE) k c)) as (s & E & Hr);
    [lia|exact Hf|destruct hd; [discriminate|done]|reflexivity|exact Hs|].
  apply (reaches_step e J more _ s); [|exact Hr]. unfold decode_stream. cbn [sjob]. rewrite Hi. exact E.
Qed.

(** ** The table of a request *)

Lemma set_tag_value s id v : length (tagValue s) = 20%nat -> 0 <= id < 20 -> tag_type (definition s) id <> DField.None ->
  exists s', set_tag id v s = Some s' /\ definition s' = definition s /\ tagValue s' = <[Z.to_nat id := v]> (tagValue s).
Proof.
  intros Hl Hi Ht. unfold set_tag, put_tag, SetTagMask. rewrite (proj2 (Z.eqb_neq _ _) Ht), Hl, (proj2 (Z.leb_le 0 id)), (proj2 (Z.ltb_lt id (Z.of_nat 20))) by lia.
  cbn [andb mbind option_bind fieldMask]. rewrite (proj2 (Z.ltb_lt id 24)) by lia. destruct (FIELD_ISSET id _); (eexists; split; [reflexivity|]; split; reflexivity).
Qed.

(** An error leaves its code in the result, and the request as it was. *)
Lemma set_error_code err msg j : result_shape j -> exists j', set_error err msg j = Some j' /\ result_shape j' /\
  tagValue (resultInfo (infos j')) !! 1%nat = Some (VInt err) /\ codes j' = codes j.
Proof.
  intros [Hd Hl]. destruct (set_error_total err msg j (conj Hd Hl)) as (j' & E & Hs & _). exists j'. split; [exact E|]. split; [exact Hs|]. clear Hs. revert E.
  unfold set_error, set_error_from, set_tag_int32, set_tag_string. rewrite Hd. change (tag_type resultInfoDefinition 1 =? DField.Signed) with true. cbv iota.
  destruct (set_tag_value (resultInfo (infos j)) 1 (VInt err) Hl ltac:(lia)) as (s1 & -> & Hd1 & Hv1); [rewrite Hd; discriminate|]. cbn [mbind option_bind]. rewrite Hd1, Hd.
  change ((tag_type resultInfoDefinition 2 =? _) || _) with true. cbv iota.
  destruct (set_tag_value s1 2 (VBin (Some (txt "decoder")))) as (s2 & -> & Hd2 & Hv2); [rewrite Hv1, length_insert; exact Hl|lia|rewrite Hd1, Hd; discriminate|]. cbn [mbind option_bind].
  assert (V2 : tagValue s2 !! 1%nat = Some (VInt err)) by (rewrite Hv2, Hv1, list_lookup_insert_ne by lia; apply list_lookup_insert_eq; lia).
  destruct msg as [m|]; [|intros [= <-]; split; [exact V2|reflexivity]]. rewrite Hd2, Hd1, Hd. change ((tag_type resultInfoDefinition 3 =? _) || _) with true. cbv iota.
  destruct (set_tag_value s2 3 (VBin (Some m))) as (s3 & -> & _ & Hv3); [rewrite Hv2, Hv1, ! length_insert; exact Hl|lia|rewrite Hd2, Hd1, Hd; discriminate|]. cbn [mbind option_bind].
  intros [= <-]. split; [|reflexivity]. cbn. rewrite Hv3, list_lookup_insert_ne by lia. exact V2.
Qed.

Lemma err_ret_code err msg j : result_shape j -> exists j', err_ret err msg j = Some (false, j') /\ stage j' = DecodeStageDataError /\
  tagValue (resultInfo (infos j')) !! 1%nat = Some (VInt err) /\ codes j' = codes j.
Proof.
  intros Hj. unfold err_ret, give_error. destruct (set_error_code err (Some msg) j Hj) as (j1 & -> & Hj1 & _ & Ec1). cbn [mbind option_bind].
  destruct (set_error_code err None j1 Hj1) as (j2 & -> & _ & Ht & Ec2). cbn [mbind option_bind]. eexists. split; [reflexivity|]. split; [reflexivity|]. split; [exact Ht|].
  rewrite <- Ec1, <- Ec2. reflexivity.
Qed.

(** The server goes on with a request if the name the client sent is that of
    the table, up to case, and refuses it otherwise. *)
Lemma check_table_name e t nm o j : role j = TaskRoleServer -> requestCode (codes j) <> DRequest.Replicate -> table j = Some t ->
  tableName t = Some nm -> Forall (fun c => is_byte c /\ c <> 0) nm -> tag_str (versionInfo (infos j)) 1 = Some o -> Forall is_byte (default [] o) -> result_shape j ->
  if decide (lower_char <$> nm = lower_char <$> default [] o) then check_table e j = check_table_hash e t j
  else exists j', check_table e j = Some (false, j') /\ stage j' = DecodeStageDataError /\
    tagValue (resultInfo (infos j')) !! 1%nat = Some (VInt (- EC_TABLE_MISMATCH)) /\ codes j' = or_requestFlags NeedTableDefinition (codes j).
Proof.
  intros Hr Hq Et En Hn Eo Ho Hs. unfold check_table. rewrite Hr, Z.eqb_refl, (proj2 (Z.eqb_neq _ _) Hq), Et, Eo. cbn [negb orb mbind option_bind].
  unfold is_same_table. rewrite En, (string_equal_spec nm o Hn Ho). cbn [mbind option_bind].
  destruct (decide (lower_char <$> nm = lower_char <$> default [] o)) as [E|E]; [rewrite bool_decide_eq_true_2 by exact E; reflexivity|].
  rewrite bool_decide_eq_false_2 by exact E. cbn [negb]. exact (err_ret_code (- EC_TABLE_MISMATCH) (txt "table mismatch") (need_table j) Hs).
Qed.
