(* ===== verification/PackedKey.v ===== *)
(** * Packed keys (src/libs/common/task/task_pkey.h, task_pkey.cc,
    task_request.cc, task_request.h, value.h)

    The key under which the cache stores the rows of a request: its integer
    components side by side, or a length byte and the characters of a string.
    A job builds it from the key and the conditions or values of a request. *)

From S2P Require Import Prelude Codec Sections TableDef Fields FieldSets Request TablePack Results Packet.

Definition EC_KEY_NEEDED : Z := 2032.
Definition EC_SERVER_ERROR : Z := 2033.
Definition EC_KEY_OVERFLOW : Z := 2035.

Definition Insert : Z := 6.
Definition Replace : Z := 12.
Definition Migrate : Z := 14.

(** [key_format()], [field_size(id)] and the like. *)
Definition key_format (t : DTCTableDefinition) : Z := keyFormat (keys t).
Definition auto_increment_field_id (t : DTCTableDefinition) : Z := hasAutoInc (marks t).

(** A copy of [bs] to [off] in a buffer; none if it passes the end. *)
Definition write_at (off : Z) (bs l : list Z) : option (list Z) :=
  if (0 <=? off) && (off + Z.of_nat (length bs) <=? Z.of_nat (length l))
  then Some (take (Z.to_nat off) l ++ bs ++ drop (Z.to_nat off + length bs) l) else None.

(** ** TaskPackedKey *)

Definition intoff : list Z :=
  [0x80; 0x8000; 0x800000; 0x80000000; 0x8000000000; 0x800000000000; 0x80000000000000; 0; 0; 0; 0; 0; 0; 0; 0; 0].

Definition intmask : list Z :=
  [0xFFFFFFFFFFFFFF00; 0xFFFFFFFFFFFF0000; 0xFFFFFFFFFF000000; 0xFFFFFFFF00000000; 0xFFFFFF0000000000; 0xFFFF000000000000; 0xFF00000000000000; 0].

(** The low [size] bytes of a number in memory. *)
Definition low_bytes (size val : Z) : list Z := (fun i => s64_byte val (Z.of_nat i)) <$> seq 0 (Z.to_nat size).

(** [store_value]: what is written, or an overflow. *)
Definition store_value (val type size : Z) : option (option (list Z)) :=
  off ← entry intoff (type * 8 + size - 9);
  m ← entry intmask (size - 1);
  if negb (Z.land (wrap 64 (u64_of val + off)) m =? 0) then Some None else Some (Some (low_bytes size val)).

(** The number in little-endian bytes. *)
Fixpoint le_value (bs : list Z) : Z := match bs with [] => 0 | b :: bs => b + 256 * le_value bs end.

(** The sign, overwritten by the bytes of the key. *)
Definition unpack_int (type size : Z) (bs : list Z) : option DTCValue :=
  if (size <=? Z.of_nat (length bs)) && (size <=? 8) && (1 <=? size) then
    b ← bs !! Z.to_nat (size - 1);
    let sign := if type =? DField.Unsigned then 0 else if Z.land b 0x80 =? 0 then 0 else -1 in
    Some (VInt (s64_of (Z.shiftl sign (8 * size) + le_value (take (Z.to_nat size) bs))))
  else None.

Fixpoint unpack_ints (n : nat) (t : DTCTableDefinition) (i : Z) (ptrKey : list Z) : option (list DTCValue) :=
  match n with
  | O => Some []
  | S n =>
      f ← field_at t i;
      v ← unpack_int (field_type f) (fieldSize f) ptrKey;
      vs ← unpack_ints n t (i + 1) (drop (Z.to_nat (fieldSize f)) ptrKey);
      Some (v :: vs)
  end.

Definition unpack_key (t : DTCTableDefinition) (ptrKey : list Z) : option (list DTCValue) :=
  if key_format t =? 0 then
    n ← ptrKey !! 0%nat;
    if n <=? Z.of_nat (length ptrKey) - 1 then Some [VBin (Some (take (Z.to_nat n) (drop 1 ptrKey)))] else None
  else unpack_ints (Z.to_nat (key_fields t)) t 0 ptrKey.

(** The characters of a string key, lower case if the field is a string. *)
Definition key_chars (type : Z) (s : list Z) : list Z := if type =? DField.String then TOLOWER <$> s else s.

Definition pack_string (type : Z) (s : list Z) : list Z := wrap 8 (Z.of_nat (length s)) :: key_chars type s.

(** Storing the components from [i] on; [bad] is the code of an overflow. *)
Fixpoint store_ints (n : nat) (t : DTCTableDefinition) (i : Z) (vs : list DTCValue) (bad : Z) (packKey : list Z) : option (Z * list Z) :=
  match n with
  | O => Some (0, packKey)
  | S n =>
      f ← field_at t i; v ← vs !! Z.to_nat i; u ← get_s64 v;
      r ← store_value u (field_type f) (fieldSize f);
      match r with
      | None => Some (bad, packKey)
      | Some bs => packKey ← write_at (offset f) bs packKey; store_ints n t (i + 1) vs bad packKey
      end
  end.

(** [build_packed_key]; [packKey] has [uiBufSize] bytes. *)
Definition build_packed_key (t : DTCTableDefinition) (pstKeyValues : list DTCValue) (packKey : list Z) : option (Z * list Z) :=
  let uiBufSize := Z.of_nat (length packKey) in
  if key_format t =? 0 then
    f ← field_at t 0; v ← pstKeyValues !! 0%nat; b ← get_bin v;
    let s := default [] b in
    let l := Z.of_nat (length s) in
    if fieldSize f <? l then Some (-1, packKey)
    else if uiBufSize <? l + 1 then Some (-2, packKey)
    else packKey ← write_at 0 (pack_string (field_type f) s) packKey; Some (0, packKey)
  else if key_fields t =? 1 then
    if uiBufSize <? key_format t then Some (-3, packKey) else
    f ← field_at t 0; v ← pstKeyValues !! 0%nat; u ← get_s64 v;
    r ← store_value u (field_type f) (fieldSize f);
    match r with
    | None => Some (-4, packKey)
    | Some bs => packKey ← write_at 0 bs packKey; Some (0, packKey)
    end
  else
    if uiBufSize <? key_format t then Some (-5, packKey)
    else store_ints (Z.to_nat (key_fields t)) t 0 pstKeyValues (-6) packKey.

Definition barrier_step (h c : Z) : Z := wrap 64 (h * 11111 + Z.shiftl c 4 + Z.shiftr c 4).

(** [calculate_barrier_key(tdef, pkey)] *)
Definition barrier_of (t : DTCTableDefinition) (pkey : list Z) : option Z :=
  '(n, p) ← (if key_format t =? 0 then match pkey with [] => None | c :: p => Some (c, p) end else Some (key_format t, pkey));
  if n <=? Z.of_nat (length p) then Some (fold_left barrier_step (take (Z.to_nat n) p) 0) else None.

(** ** DTCJobOperation *)

(** [packedKey] is null, [packedKeyBuf], or memory from the heap. *)
Inductive KeyPtr := KeyNull | KeyBuf | KeyHeap (mem : list Z).

Record DTCJobOperation := mkOp {
  job : DtcJob;
  packedKey : KeyPtr;
  packedKeyBuf : list Z;
  multi_key : option (list DTCValue);
  barrier_hash : Z;
  expire_time : Z;
  timestamp : Z;
  responseTimer : Z
}.

Definition set_job (j : DtcJob) (o : DTCJobOperation) : DTCJobOperation :=
  mkOp j (packedKey o) (packedKeyBuf o) (multi_key o) (barrier_hash o) (expire_time o) (timestamp o) (responseTimer o).
Definition set_packed (p : KeyPtr) (b : list Z) (o : DTCJobOperation) : DTCJobOperation :=
  mkOp (job o) p b (multi_key o) (barrier_hash o) (expire_time o) (timestamp o) (responseTimer o).
Definition set_multi (m : option (list DTCValue)) (o : DTCJobOperation) : DTCJobOperation :=
  mkOp (job o) (packedKey o) (packedKeyBuf o) m (barrier_hash o) (expire_time o) (timestamp o) (responseTimer o).
Definition set_barrier (h : Z) (o : DTCJobOperation) : DTCJobOperation :=
  mkOp (job o) (packedKey o) (packedKeyBuf o) (multi_key o) h (expire_time o) (timestamp o) (responseTimer o).
Definition set_times (e s r : Z) (o : DTCJobOperation) : DTCJobOperation :=
  mkOp (job o) (packedKey o) (packedKeyBuf o) (multi_key o) (barrier_hash o) e s r.

(** The bytes at [packedKey]. *)
Definition packed_key (o : DTCJobOperation) : option (list Z) :=
  match packedKey o with KeyNull => None | KeyBuf => Some (packedKeyBuf o) | KeyHeap l => Some l end.
Definition put_packed (l : list Z) (o : DTCJobOperation) : DTCJobOperation :=
  match packedKey o with KeyHeap _ => set_packed (KeyHeap l) (packedKeyBuf o) o | p => set_packed p l o end.

(** [FREE_IF(packedKey)]: the buffer inside of the object cannot be freed. *)
Definition free_key (o : DTCJobOperation) : option DTCJobOperation :=
  match packedKey o with KeyBuf => None | _ => Some (set_packed KeyNull (packedKeyBuf o) o) end.

Definition request_code (o : DTCJobOperation) : Z := requestCode (codes (job o)).
Definition request_key (o : DTCJobOperation) : option DTCValue :=
  if key_set (job o) then tagValue (requestInfo (infos (job o))) !! 0%nat else None.
Definition flag_multi_key_val (o : DTCJobOperation) : bool := negb (Z.land (requestFlags (codes (job o))) MultiKeyValue =? 0).

Definition key_error (err : Z) (msg : list Z) (o : DTCJobOperation) : option (Z * DTCJobOperation) :=
  j ← set_error_from (txt "key verify") err (Some msg) (job o); Some (-1, set_job j o).

Section BuildKey.
Context (mem_ok : Z -> bool) (t : DTCTableDefinition).

Definition build_single_string_key (o : DTCJobOperation) : option (Z * DTCJobOperation) :=
  f ← field_at t 0;
  b ← match request_key o with None => Some (Some []) | Some v => get_bin v end;
  let s := default [] b in
  if fieldSize f <? Z.of_nat (length s) then key_error (- EC_KEY_NEEDED) (txt "string key size overflow") o else
  o ← free_key o;
  if negb (mem_ok (Z.of_nat (length s) + 1)) then key_error (- EC_SERVER_ERROR) (txt "no enough memory") o
  else Some (0, set_packed (KeyHeap (pack_string (field_type f) s)) (packedKeyBuf o) o).

(** The buffer for an integer key, cleared. *)
Definition clear_key (o : DTCJobOperation) : option (bool * DTCJobOperation) :=
  if 8 <? key_format t then
    o ← free_key o;
    if mem_ok (key_format t) then Some (true, set_packed (KeyHeap (replicate (Z.to_nat (key_format t)) 0)) (packedKeyBuf o) o) else Some (false, o)
  else b ← write_at 0 (replicate (Z.to_nat (key_format t)) 0) (packedKeyBuf o); Some (true, set_packed KeyBuf b o).

Definition build_single_int_key (o : DTCJobOperation) : option (Z * DTCJobOperation) :=
  '(ok, o) ← clear_key o;
  if negb ok then key_error (- EC_SERVER_ERROR) (txt "no enough memory") o else
  match request_key o with
  | Some v =>
      f ← field_at t 0; u ← get_s64 v;
      r ← store_value u (field_type f) (fieldSize f);
      match r with
      | None => key_error (- EC_KEY_NEEDED) (txt "int key value overflow") o
      | Some bs => l ← packed_key o; l ← write_at 0 bs l; Some (0, put_packed l o)
      end
  | None =>
      if (auto_increment_field_id t =? 0) && (request_code o =? Insert) then Some (0, o)
      else key_error (- EC_KEY_NEEDED) (txt "No Key Sepcified") o
  end.

(** The loop of [build_multi_key_values]: an error, [keymask] and [multi_key]. *)
Fixpoint key_components (es : list SFieldValue) (keymask : Z) (mk : list DTCValue) : option (option (Z * list Z) * Z * list DTCValue) :=
  match es with
  | [] => Some (None, keymask, mk)
  | mkFV id _ vt val :: es =>
      if key_fields t <=? id then key_components es keymask mk
      else if Z.testbit keymask id then Some (Some (EC_BAD_MULTIKEY, txt "duplicate key field"), keymask, mk)
      else
        let keymask := Z.lor keymask (2 ^ id) in
        f ← field_at t id;
        bad ← (if 8 <=? fieldSize f then Some false else
               s ← get_s64 val;
               Some ((s <? 0) && (((field_type f =? DField.Unsigned) && (vt =? DField.Signed)) || ((field_type f =? DField.Signed) && (vt =? DField.Unsigned)))));
        if (bad : bool) then Some (Some (EC_KEY_OVERFLOW, txt "int key value overflow"), keymask, mk)
        else key_components es keymask (<[Z.to_nat id := val]> mk)
  end.

Definition build_multi_key_values (o : DTCJobOperation) : option (Z * DTCJobOperation) :=
  let n := key_fields t in
  let o := set_multi None o in
  if negb (mem_ok (16 * n)) then key_error (- ENOMEM) (txt "NO ENOUGH MEMORY") o else
  let zero := replicate (Z.to_nat n) VZero in
  let '(keymask, mk) := match request_key o with Some v => (1, <[0%nat := v]> zero) | None => (0, zero) end in
  let kop := if (request_code o =? Insert) || (request_code o =? Replace) then updateInfo (parts (job o)) else conditionInfo (parts (job o)) in
  match kop with
  | None => key_error (- EC_KEY_NEEDED) (txt "Missing Key Component") (set_multi (Some mk) o)
  | Some kop =>
      '(e, keymask, mk) ← key_components (fieldValue kop) keymask mk;
      let o := set_multi (Some mk) o in
      match (e : option (Z * list Z)) with
      | Some (err, msg) => key_error (- err) msg o
      | None =>
          let ai := auto_increment_field_id t in
          let keymask := if (0 <=? ai) && (ai <? n) && (request_code o =? Insert) then Z.lor keymask (2 ^ ai) else keymask in
          if 32 <=? n then None
          else if negb (wrap 32 (keymask + 1) =? 2 ^ n) then key_error (- EC_KEY_NEEDED) (txt "Missing Key Component") o
          else Some (0, o)
      end
  end.

Definition build_multi_int_key (o : DTCJobOperation) : option (Z * DTCJobOperation) :=
  '(r, o) ← build_single_int_key o;
  if r <? 0 then Some (-1, o) else
  '(r, o) ← (if flag_multi_key_val o then Some (0, o) else build_multi_key_values o);
  if r <? 0 then Some (-1, o) else
  mk ← multi_key o;
  l ← packed_key o;
  '(r, l) ← store_ints (Z.to_nat (key_fields t - 1)) t 1 mk (-1) l;
  let o := put_packed l o in
  if r <? 0 then key_error (- EC_KEY_OVERFLOW) (txt "int key value overflow") o else Some (0, o).

(** [DTCJobOperation::build_packed_key] *)
Definition build_key (o : DTCJobOperation) : option (Z * DTCJobOperation) :=
  if key_format t =? 0 then build_single_string_key o
  else if key_fields t =? 1 then build_single_int_key o
  else build_multi_int_key o.

(** [update_packed_key]: the value the database chose. *)
Definition update_packed_key (val : Z) (o : DTCJobOperation) : option (Z * DTCJobOperation) :=
  let id := auto_increment_field_id t in
  if (0 <=? id) && (id <? key_fields t) then
    let o := set_multi ((fun m => <[Z.to_nat id := VInt (s64_of val)]> m) <$> multi_key o) o in
    f ← field_at t id;
    r ← store_value (s64_of val) (field_type f) (fieldSize f);
    match r with
    | None => key_error (- EC_KEY_NEEDED) (txt "int key value overflow") o
    | Some bs => l ← packed_key o; l ← write_at (offset f) bs l; Some (0, put_packed l o)
    end
  else Some (0, o).

Definition calculate_barrier_key (o : DTCJobOperation) : option DTCJobOperation :=
  match packed_key o with None => Some o | Some l => h ← barrier_of t l; Some (set_barrier h o) end.

End BuildKey.

(** ** Array (value.h)

    A cursor over packed numbers and strings: [DTCBinary] with a signed
    length. *)

(** [Get(uint8_t &)] and [Get(int64_t &)]: the number and the rest, or -1. *)
Definition array_get (size : Z) (a : DTCBinary) : option (option (Z * DTCBinary)) :=
  if wrap 32 (len a) <? size then Some None
  else if Z.of_nat (length (ptr a)) <? size then None
  else Some (Some (le_value (take (Z.to_nat size) (ptr a)), mkBin (len a - size) (drop (Z.to_nat size) (ptr a)))).

(** [Get(DTCBinary &)]: the length is signed, the comparison is not. *)
Definition array_get_bin (a : DTCBinary) : option (option (DTCBinary * DTCBinary)) :=
  if wrap 32 (len a) <? 4 then Some None
  else if Z.of_nat (length (ptr a)) <? 4 then None
  else
    let l := sext 32 (le_value (take 4 (ptr a))) in
    let p := drop 4 (ptr a) in
    if wrap 32 (len a) <? wrap 64 (4 + l) then Some None
    else if Z.of_nat (length (ptr a)) <? 4 + l then None
    else Some (Some (mkBin l p, mkBin (len a - (4 + l)) (drop (Z.to_nat (4 + l)) (ptr a)))).

(** [Add] of a number of [size] bytes, of a string and of a block. *)
Definition array_add (size val : Z) : list Z := low_bytes size val.
Definition array_add_block (s : list Z) : list Z := low_bytes 4 (Z.of_nat (length s)) ++ s.
Definition array_add_string (s : list Z) : list Z := array_add_block (s ++ [0]).

(** ** prepare_process *)

(** [CTLibIntVer]: the eighth character of the version of the client. *)
Definition CTLibIntVer (vi : SimpleSection) : option Z :=
  b ← tag_str vi 6;
  match b with
  | None => Some 3
  | Some s => c ← (s ++ [0]) !! 7%nat; Some (if (49 <=? c) && (c <=? 57) then c - 48 else 3)
  end.

(** [DTCRequestInfo::get_expire_time], in milliseconds. *)
Definition get_expire_time (version : Z) (ri : SimpleSection) : option Z :=
  v ← tagValue ri !! 1%nat; s ← get_s64 v;
  Some (if 3 <=? version then Z.shiftr (u64_of s) 10 else u64_of s).

Definition tag_u64 (s : SimpleSection) (id : Z) : option Z := v ← get_tag s id; z ← get_s64 v; Some (u64_of z).
Definition tag_array (s : SimpleSection) (id : Z) : option DTCBinary :=
  v ← get_tag s id; b ← get_bin v; Some (mkBin (Z.of_nat (length (default [] b))) (default [] b ++ [0])).

Section Prepare.
Context (mem_ok : Z -> bool) (t : DTCTableDefinition).

Definition decoder_error (err : Z) (msg : list Z) (o : DTCJobOperation) : option (Z * DTCJobOperation) :=
  j ← set_error (- err) (Some msg) (job o); Some (-1, set_job j o).

(** The check of the key fields of a batch: [n] of them are left.  A round
    takes a byte of the types. *)
Fixpoint check_key_fields (fuel : nat) (n : Z) (types names : DTCBinary) (o : DTCJobOperation) : option (Z * DTCJobOperation) :=
  if n <=? 0 then Some (0, o) else
  match fuel with
  | O => None
  | S fuel =>
      ty ← array_get 1 types;
      match ty with
      | None => decoder_error EC_KEY_NEEDED (txt "require key field info") o
      | Some (keyType, types) =>
          nm ← array_get_bin names;
          match nm with
          | None => decoder_error EC_KEY_NEEDED (txt "require key field info") o
          | Some (keyName, names) =>
              s ← c_string (ptr keyName);
              fid ← field_id t s;
              if (fid <? 0) || (key_fields t <=? fid) then decoder_error EC_BAD_FIELD_NAME (txt "bad key field name") o else
              f ← field_at t fid;
              ok ← (if DField.TotalType <=? keyType then Some false else valid_ktype keyType (field_type f));
              if negb ok then decoder_error EC_BAD_KEY_TYPE (txt "key type incorrect") o
              else check_key_fields fuel (n - 1) types names o
          end
      end
  end.

Definition check_batch (o : DTCJobOperation) : option (Z * DTCJobOperation) :=
  let vi := versionInfo (infos (job o)) in
  if negb (tag_present vi 10 && tag_present vi 11 && tag_present vi 12 && tag_present vi 13)
  then decoder_error EC_KEY_NEEDED (txt "require key field info") o else
  n ← tag_u64 vi 10;
  if negb (sext 32 (wrap 32 n) =? key_fields t) then decoder_error EC_KEY_NEEDED (txt "key field count incorrect") o else
  c ← tag_u64 vi 11;
  if c <? 1 then decoder_error EC_KEY_NEEDED (txt "require key value") o else
  types ← tag_array vi 12; names ← tag_array vi 13;
  check_key_fields (S (Z.to_nat (len types))) n types names o.

(** The key of the [Migrate] command is its first condition. *)
Definition prepare_migrate (o : DTCJobOperation) : option (Z * DTCJobOperation) :=
  match conditionInfo (parts (job o)) with
  | None => decoder_error EC_KEY_NEEDED (txt "migrate commond") o
  | Some c =>
      match fieldValue c with
      | [] => decoder_error EC_KEY_NEEDED (txt "migrate commond") o
      | _ :: _ :: _ => decoder_error EC_SERVER_ERROR (txt "migrate commond") o
      | [mkFV _ _ _ v] =>
          b ← get_bin v;
          let s := default [] b in
          let n := Z.of_nat (length s) in
          if 8 <? n then
            let o := set_packed KeyNull (packedKeyBuf o) o in
            if mem_ok n then calculate_barrier_key t (set_packed (KeyHeap s) (packedKeyBuf o) o) ≫= fun o => Some (0, o)
            else key_error (- EC_SERVER_ERROR) (txt "no enough memory") o
          else
            b ← write_at 0 (replicate (Z.to_nat (key_format t)) 0) (packedKeyBuf o);
            b ← write_at 0 s b;
            calculate_barrier_key t (set_packed KeyBuf b o) ≫= fun o => Some (0, o)
      end
  end.

Definition prepare_times (sec usec : Z) (o : DTCJobOperation) : option DTCJobOperation :=
  let ri := requestInfo (infos (job o)) in
  n ← (if tag_present ri 1 then v ← CTLibIntVer (versionInfo (infos (job o))); get_expire_time v ri else Some 5000);
  let client_timeout := sext 32 (wrap 32 n) in
  Some (set_times (wrap 64 (sec * 1000 + usec / 1000 + client_timeout)) (wrap 32 sec) (sext 32 (wrap 32 (sec * 1000000 + usec))) o).

(** [sec] and [usec] are the time of day. *)
Definition prepare_process (sec usec : Z) (o : DTCJobOperation) : option (Z * DTCJobOperation) :=
  o ← prepare_times sec usec o;
  if flag_multi_key_val o then check_batch o
  else if request_code o =? DRequest.TYPE_SYSTEM_COMMAND then
    code ← tag_int (requestInfo (infos (job o))) 7;
    if code =? Migrate then prepare_migrate o else Some (0, o)
  else
    '(err, o) ← build_key mem_ok t o;
    if err <? 0 then Some (err, o) else o ← calculate_barrier_key t o; Some (0, o).

End Prepare.
