(* ===== verification/PackedKeySpec.v ===== *)
(** * What packed keys promise

    A packed key determines the components it was made of, up to the case of a
    string, and the cache compares packed keys by exactly these components.
    The key a job builds is the packed key of the values in its request. *)

From S2P Require Import Prelude Jenkins DtcHash Codec CodecSpec Sections SectionsSpec TableDef TableDefSpec Fields FieldsSpec FieldSets Request RequestSpec TablePack Results RequestSafe Packet PacketSafe PackedKey.

(** ** Numbers in memory *)

Lemma length_low_bytes n v : length (low_bytes n v) = Z.to_nat n.
Proof. unfold low_bytes. rewrite length_fmap, length_seq. reflexivity. Qed.

Lemma low_bytes_bytes n v : Forall is_byte (low_bytes n v).
Proof. unfold low_bytes. apply Forall_fmap, Forall_forall. intros k _. apply wrap8_byte. Qed.

Lemma low_bytes_succ n v : 0 <= n -> low_bytes (n + 1) v = v mod 256 :: low_bytes n (v / 256).
Proof.
  intros Hn. unfold low_bytes. replace (Z.to_nat (n + 1)) with (S (Z.to_nat n)) by lia. cbn [seq]. rewrite fmap_cons. f_equal.
  rewrite <- fmap_S_seq, <- list_fmap_compose. apply list_fmap_ext. intros i k _. unfold compose. rewrite ! s64_byte_div by lia.
  rewrite Zdiv_Zdiv by lia. change 256 with (2 ^ 8) at 2. rewrite <- Z.pow_add_r by lia. do 3 f_equal. lia.
Qed.

Lemma le_low_bytes n v : 0 <= n -> le_value (low_bytes n v) = v mod 2 ^ (8 * n).
Proof.
  intros Hn. revert v. pattern n. apply natlike_ind; [intros v; cbn; rewrite Z.mod_1_r; reflexivity| |exact Hn]. clear n Hn. intros n Hn IH v.
  unfold Z.succ. rewrite low_bytes_succ by lia. cbn [le_value]. rewrite IH. replace (8 * (n + 1)) with (8 + 8 * n) by lia. rewrite Z.pow_add_r by lia.
  change (2 ^ 8) with 256. rewrite Z.rem_mul_r by lia. lia.
Qed.

(** The values a key field of a type and size takes. *)
Definition key_fits (type size v : Z) : Prop :=
  if type =? DField.Signed then - 2 ^ (8 * size - 1) <= v < 2 ^ (8 * size - 1) else 0 <= u64_of v < 2 ^ (8 * size).

#[export] Instance key_fits_dec type size v : Decision (key_fits type size v).
Proof. unfold key_fits. case_match; apply and_dec; apply _. Defined.

Definition int_type (type : Z) : Prop := type = DField.Signed \/ type = DField.Unsigned.

(** The entries of the two tables. *)
Lemma intoff_entry type size : int_type type -> 1 <= size <= 8 ->
  entry intoff (type * 8 + size - 9) = Some (if (type =? DField.Signed) && (size <? 8) then 2 ^ (8 * size - 1) else 0) /\
  entry intmask (size - 1) = Some (2 ^ 64 - 2 ^ (8 * size)).
Proof.
  intros Ht Hs. assert (size = 1 \/ size = 2 \/ size = 3 \/ size = 4 \/ size = 5 \/ size = 6 \/ size = 7 \/ size = 8) as Hc by lia.
  destruct Ht as [-> | ->]; destruct Hc as [->|[->|[->|[->|[->|[->|[->| ->]]]]]]]; split; reflexivity.
Qed.

Lemma high_mask x k : 0 <= k <= 64 -> in_width 64 x -> (Z.land x (2 ^ 64 - 2 ^ k) =? 0) = (x <? 2 ^ k).
Proof.
  intros Hk Hx. pose proof (Z.pow_pos_nonneg 2 k ltac:(lia) ltac:(lia)) as Hp. assert (E : Z.land x (2 ^ 64 - 2 ^ k) = Z.shiftl (Z.shiftr x k) k).
  { replace (2 ^ 64 - 2 ^ k) with (Z.ldiff (Z.ones 64) (Z.ones k)).
    - rewrite <- Z.ldiff_ones_r by lia. apply Z.bits_inj'. intros i Hi. rewrite Z.land_spec, ! Z.ldiff_spec.
      destruct (Z.ltb_spec i 64) as [H|H]; [rewrite (Z.ones_spec_low 64) by lia; reflexivity|].
      rewrite (proj2 (proj1 (in_width_bits 64 x ltac:(lia)) Hx) i H). reflexivity.
    - rewrite Z.ldiff_ones_r by lia. rewrite shiftr8, shiftl8 by lia. rewrite Z.ones_equiv.
      replace 64 with (64 - k + k) at 1 by lia. rewrite Z.pow_add_r by lia. unfold Z.pred.
      replace (2 ^ (64 - k) * 2 ^ k + -1) with (2 ^ k - 1 + (2 ^ (64 - k) - 1) * 2 ^ k) by lia.
      rewrite Z.div_add by lia. rewrite Z.div_small by lia. assert (E : 2 ^ 64 = 2 ^ (64 - k) * 2 ^ k) by (rewrite <- Z.pow_add_r by lia; f_equal; lia). lia. }
  rewrite E, shiftr8, shiftl8 by lia. unfold in_width in Hx. pose proof (Z.div_pos x (2 ^ k) ltac:(lia) ltac:(lia)).
  pose proof (Z.div_mod x (2 ^ k) ltac:(lia)) as Hdm. pose proof (Z.mod_pos_bound x (2 ^ k) ltac:(lia)).
  generalize dependent (x / 2 ^ k). generalize dependent (x mod 2 ^ k). generalize dependent (2 ^ k). intros P Hp _ r Hr q Hq Hdm. destruct (decide (q = 0)) as [->|]; zcase; nia.
Qed.

Lemma store_value_spec v type size : int_type type -> 1 <= size <= 8 -> is_s64 v ->
  store_value v type size = Some (if decide (key_fits type size v) then Some (low_bytes size v) else None).
Proof.
  intros Ht Hs Hv. destruct (intoff_entry type size Ht Hs) as [Eo Em]. unfold store_value. rewrite Eo, Em. cbn [mbind option_bind].
  rewrite high_mask by (try apply wrap_range; lia).
  match goal with |- (if negb ?b then _ else _) = _ => assert (E : b = bool_decide (key_fits type size v)) end.
  { apply Bool.eq_true_iff_eq. rewrite bool_decide_eq_true, Z.ltb_lt. unfold key_fits, u64_of, wrap, is_s64 in *.
    pose proof (Z.pow_pos_nonneg 2 (8 * size - 1) ltac:(lia) ltac:(lia)) as Hp.
    assert (Ep : 2 ^ (8 * size) = 2 * 2 ^ (8 * size - 1)) by (rewrite <- Z.pow_succ_r by lia; f_equal; lia).
    destruct Ht as [-> | ->]; cbn [Z.eqb DField.Signed DField.Unsigned Pos.eqb andb]; [|split; intros; zdm].
    destruct (Z.ltb_spec size 8).
    - assert (2 ^ (8 * size) <= 2 ^ 56) by (apply Z.pow_le_mono_r; lia). zdm.
    - replace size with 8 in * by lia. cbn in Ep |- *. zdm. }
  rewrite E. destruct (decide (key_fits type size v)) as [Hf|Hf]; [rewrite bool_decide_eq_true_2 by done|rewrite bool_decide_eq_false_2 by done]; reflexivity.
Qed.

Lemma sign_bit b : is_byte b -> (Z.land b 0x80 =? 0) = (b <? 0x80).
Proof.
  intros Hb. assert (H : forallb (fun n => Bool.eqb (Z.land (Z.of_nat n) 0x80 =? 0) (Z.of_nat n <? 0x80)) (seq 0 256) = true) by (vm_compute; reflexivity).
  rewrite forallb_forall in H. unfold is_byte in Hb. specialize (H (Z.to_nat b) ltac:(apply in_seq; lia)). rewrite Z2Nat.id in H by lia. apply Bool.eqb_prop, H.
Qed.

(** What is stored is read back, whatever follows it. *)
Lemma unpack_low type size v rest : int_type type -> 1 <= size <= 8 -> is_s64 v -> key_fits type size v ->
  unpack_int type size (low_bytes size v ++ rest) = Some (VInt v).
Proof.
  intros Ht Hs Hv Hf. unfold unpack_int. rewrite length_app, length_low_bytes.
  rewrite (proj2 (Z.leb_le size _)), (proj2 (Z.leb_le size 8)), (proj2 (Z.leb_le 1 size)) by lia. cbn [andb].
  rewrite lookup_app_l by (rewrite length_low_bytes; lia).
  assert (E : low_bytes size v !! Z.to_nat (size - 1) = Some (s64_byte v (size - 1))).
  { unfold low_bytes. rewrite list_lookup_fmap, lookup_seq_lt by lia. cbn. do 2 f_equal. lia. }
  rewrite E. cbn [mbind option_bind]. rewrite take_app_le, take_ge by (rewrite length_low_bytes; lia). rewrite le_low_bytes, s64_byte_div by lia.
  do 2 f_equal. rewrite sign_bit by (unfold is_byte; apply Z.mod_pos_bound; lia). rewrite shiftl8 by lia. clear E.
  unfold s64_of, sext, wrap, key_fits, u64_of, wrap, is_s64 in *.
  assert (size = 1 \/ size = 2 \/ size = 3 \/ size = 4 \/ size = 5 \/ size = 6 \/ size = 7 \/ size = 8) as Hc by lia.
  destruct Ht as [-> | ->]; destruct Hc as [->|[->|[->|[->|[->|[->|[->| ->]]]]]]]; cbn in Hf |- *; zcase; zdm.
Qed.

(** ** Integer keys *)

Definition sizes (fs : list FieldDefinition) : Z := foldr (fun f n => fieldSize f + n) 0 fs.

(** The fields [fs] of a table are its key, one behind the other. *)
Record int_keyed (t : DTCTableDefinition) (fs : list FieldDefinition) : Prop := {
  ik_count : Z.of_nat (length fs) = key_fields t;
  ik_some : fs <> [];
  ik_at : forall k f, fs !! k = Some f -> field_at t (Z.of_nat k) = Some f;
  ik_types : Forall (fun f => int_type (field_type f) /\ 1 <= fieldSize f <= 8) fs;
  ik_offset : forall k f, fs !! k = Some f -> offset f = sizes (take k fs);
  ik_format : key_format t = sizes fs
}.

Definition keys_fit (fs : list FieldDefinition) (zs : list Z) : Prop := Forall2 (fun f z => key_fits (field_type f) (fieldSize f) z) fs zs.
#[export] Instance keys_fit_dec fs zs : Decision (keys_fit fs zs).
Proof. unfold keys_fit. apply Forall2_dec. intros f z. apply _. Defined.

Definition pack_ints (fs : list FieldDefinition) (zs : list Z) : list Z := concat (zip_with (fun f z => low_bytes (fieldSize f) z) fs zs).
Definition ints (vs : list DTCValue) (zs : list Z) : Prop := Forall2 (fun v z => get_s64 v = Some z /\ is_s64 z) vs zs.

Lemma sizes_pos fs : Forall (fun f => int_type (field_type f) /\ 1 <= fieldSize f <= 8) fs -> 0 <= sizes fs.
Proof. induction 1 as [|f fs [_ H] _ IH]; [reflexivity|]. cbn [sizes foldr]. fold (sizes fs). lia. Qed.

Lemma length_pack fs zs : length fs = length zs -> Forall (fun f => int_type (field_type f) /\ 1 <= fieldSize f <= 8) fs -> Z.of_nat (length (pack_ints fs zs)) = sizes fs.
Proof.
  revert zs. induction fs as [|f fs IH]; intros [|z zs] El Hf; try discriminate; [reflexivity|]. apply Forall_cons in Hf as [[_ Hs] Hf].
  unfold pack_ints. cbn [zip_with concat sizes foldr]. fold (sizes fs) (pack_ints fs zs). rewrite length_app, length_low_bytes, Nat2Z.inj_add, IH by (done || (cbn in El; lia)). lia.
Qed.

Lemma pack_app fs zs gs ys : length fs = length zs -> pack_ints (fs ++ gs) (zs ++ ys) = pack_ints fs zs ++ pack_ints gs ys.
Proof. intros El. unfold pack_ints. rewrite zip_with_app by exact El. apply concat_app. Qed.

Lemma write_at_app (a bs tail : list Z) off : off = Z.of_nat (length a) -> (length bs <= length tail)%nat ->
  write_at off bs (a ++ tail) = Some (a ++ bs ++ drop (length bs) tail).
Proof.
  intros -> Hl. unfold write_at. rewrite length_app. rewrite (proj2 (Z.leb_le 0 _)), (proj2 (Z.leb_le _ _)) by lia. cbn [andb].
  rewrite Nat2Z.id, take_app_length, <- drop_drop, drop_app_length. reflexivity.
Qed.

(** Storing the components [post] behind those already there. *)
Lemma store_ints_spec t bad post : forall pre zpre zpost vs tail,
  int_keyed t (pre ++ post) -> length pre = length zpre -> ints vs (zpre ++ zpost) -> length post = length zpost -> sizes post <= Z.of_nat (length tail) ->
  exists l, store_ints (length post) t (Z.of_nat (length pre)) vs bad (pack_ints pre zpre ++ tail) = Some (if decide (keys_fit post zpost) then 0 else bad, l) /\
    (keys_fit post zpost -> l = pack_ints (pre ++ post) (zpre ++ zpost) ++ drop (Z.to_nat (sizes post)) tail).
Proof.
  induction post as [|f post IH]; intros pre zpre zpost vs tail K Hp Hv Hl Ht.
  { destruct zpost; [|discriminate]. cbn [length store_ints]. rewrite ! app_nil_r. eexists. split; [rewrite decide_True by constructor; reflexivity|]. intros _. reflexivity. }
  destruct zpost as [|z zpost]; [discriminate|]. cbn [length store_ints].
  assert (Ef : (pre ++ f :: post) !! length pre = Some f) by (apply list_lookup_middle; reflexivity).
  rewrite (ik_at _ _ K _ _ Ef). pose proof (ik_types _ _ K) as Htys. pose proof Htys as Htys'. apply Forall_app in Htys as [Hpre Hrest]. apply Forall_cons in Hrest as [[Hty Hs] Hrest].
  destruct (Forall2_lookup_r _ _ _ (length pre) z Hv) as (v & Ev & Eg & Hz); [apply list_lookup_middle; exact Hp|].
  rewrite Nat2Z.id, Ev. cbn [mbind option_bind]. rewrite Eg. cbn [mbind option_bind]. rewrite store_value_spec by assumption. cbn [mbind option_bind].
  destruct (decide (key_fits (field_type f) (fieldSize f) z)) as [Hf|Hf].
  2: { eexists. split; [rewrite decide_False; [reflexivity|]|]; intros Hk; apply Forall2_cons in Hk as [? _]; contradiction. }
  cbn [sizes foldr] in Ht. fold (sizes post) in Ht. pose proof (sizes_pos post Hrest) as Hp0. 
  rewrite write_at_app; [|rewrite (ik_offset _ _ K _ _ Ef), take_app_length, length_pack by assumption; reflexivity|rewrite length_low_bytes; lia].
  cbn [mbind option_bind]. rewrite app_assoc.
  replace (pack_ints pre zpre ++ low_bytes (fieldSize f) z) with (pack_ints (pre ++ [f]) (zpre ++ [z])) by (rewrite pack_app by exact Hp; unfold pack_ints at 2; cbn; rewrite app_nil_r; reflexivity).
  replace (Z.of_nat (length pre) + 1) with (Z.of_nat (length (pre ++ [f]))) by (rewrite length_app; cbn; lia).
  destruct (IH (pre ++ [f]) (zpre ++ [z]) zpost vs (drop (length (low_bytes (fieldSize f) z)) tail)) as (l & El & Hl').
  - rewrite <- app_assoc. exact K.
  - rewrite ! length_app, Hp. reflexivity.
  - rewrite <- app_assoc. exact Hv.
  - cbn in Hl. lia.
  - rewrite length_drop, length_low_bytes. lia.
  - exists l. rewrite El. split.
    + destruct (decide (keys_fit post zpost)) as [Hk|Hk]; [rewrite decide_True by (constructor; assumption)|rewrite decide_False by (intros Hk'; apply Hk; apply Forall2_cons in Hk' as [_ Hk']; exact Hk')]; reflexivity.
    + intros Hk. apply Forall2_cons in Hk as [_ Hk]. rewrite (Hl' Hk), <- ! app_assoc, drop_drop, length_low_bytes. cbn [app]. do 2 f_equal. cbn [sizes foldr]. fold (sizes post). lia.
Qed.

Lemma unpack_ints_spec t post rest : forall pre zpost,
  int_keyed t (pre ++ post) -> keys_fit post zpost -> Forall is_s64 zpost ->
  unpack_ints (length post) t (Z.of_nat (length pre)) (pack_ints post zpost ++ rest) = Some (VInt <$> zpost).
Proof.
  induction post as [|f post IH]; intros pre zpost K Hf Hz; [apply Forall2_nil_inv_l in Hf as ->; reflexivity|].
  apply Forall2_cons_inv_l in Hf as (z & zs & Hfit & Hf & ->). apply Forall_cons in Hz as [Hz Hzs]. cbn [length unpack_ints].
  assert (Ef : (pre ++ f :: post) !! length pre = Some f) by (apply list_lookup_middle; reflexivity).
  rewrite (ik_at _ _ K _ _ Ef). cbn [mbind option_bind]. pose proof (ik_types _ _ K) as Ht. apply Forall_app in Ht as [_ Ht]. apply Forall_cons in Ht as [[Hty Hs] _].
  unfold pack_ints. cbn [zip_with concat]. fold (pack_ints post zs). rewrite <- app_assoc, unpack_low by assumption. cbn [mbind option_bind].
  rewrite drop_app_le, drop_ge by (rewrite length_low_bytes; lia). cbn [app].
  replace (Z.of_nat (length pre) + 1) with (Z.of_nat (length (pre ++ [f]))) by (rewrite length_app; cbn; lia).
  rewrite IH; [reflexivity|rewrite <- app_assoc; exact K|assumption..].
Qed.

(** ** Comparing keys *)

Definition key_mem (l : list Z) : mem := mem_of (byte_of <$> l).

Lemma key_mem_at l i b : l !! Z.to_nat i = Some b -> key_mem l i = byte_of b.
Proof. intros E. unfold key_mem, mem_of. rewrite nth_lookup, list_lookup_fmap, E. reflexivity. Qed.

Lemma key_mem_head b l : key_mem (b :: l) 0 = byte_of b.
Proof. reflexivity. Qed.

Lemma byte_of_inj a b : is_byte a -> is_byte b -> byte_of a = byte_of b -> a = b.
Proof. intros Ha Hb E. apply (f_equal u8) in E. rewrite ! u8_byte_of, ! wrap_small in E by assumption. exact E. Qed.

Lemma same_key_lists a b r r' : Forall is_byte a -> Forall is_byte b -> length a = length b ->
  same_key (Z.of_nat (length a)) (key_mem (a ++ r)) (key_mem (b ++ r')) <-> a = b.
Proof.
  intros Ha Hb El. split.
  - intros Hs. apply list_eq. intros i. destruct (decide (i < length a)%nat) as [Hi|Hi]; [|rewrite ! lookup_ge_None_2 by lia; reflexivity].
    destruct (lookup_lt_is_Some_2 a i Hi) as [x Ex]. destruct (lookup_lt_is_Some_2 b i ltac:(lia)) as [y Ey]. rewrite Ex, Ey. f_equal.
    specialize (Hs (Z.of_nat i) ltac:(lia)). rewrite (key_mem_at (a ++ r) _ x), (key_mem_at (b ++ r') _ y) in Hs by (rewrite Nat2Z.id; apply lookup_app_l_Some; assumption).
    apply byte_of_inj; [exact (proj1 (Forall_lookup _ _) Ha i x Ex)|exact (proj1 (Forall_lookup _ _) Hb i y Ey)|exact Hs].
  - intros -> i Hi. destruct (lookup_lt_is_Some_2 b (Z.to_nat i) ltac:(lia)) as [x Ex]. rewrite ! (key_mem_at _ _ x) by (apply lookup_app_l_Some; exact Ex). reflexivity.
Qed.

Lemma key_cmp_ints ks a b r r' : 0 < ks -> Forall is_byte a -> Forall is_byte b -> Z.of_nat (length a) = ks -> length a = length b ->
  key_cmp ks (key_mem (a ++ r)) (key_mem (b ++ r')) = 0 <-> a = b.
Proof.
  intros Hk Ha Hb El El'. rewrite key_cmp_same by lia. unfold packed_len. rewrite (proj2 (Z.eqb_neq ks 0)) by lia. rewrite <- El. apply same_key_lists; assumption.
Qed.

Lemma key_cmp_strings s s' r r' : Forall is_byte s -> Forall is_byte s' -> Z.of_nat (length s) < 256 -> Z.of_nat (length s') < 256 ->
  key_cmp 0 (key_mem (Z.of_nat (length s) :: s ++ r)) (key_mem (Z.of_nat (length s') :: s' ++ r')) = 0 <-> s = s'.
Proof.
  intros Hs Hs' Hl Hl'. rewrite key_cmp_same by lia. unfold packed_len. cbn [Z.eqb].
  rewrite key_mem_head, u8_byte_of, wrap_small by (split; [lia|exact Hl]).
  replace (Z.of_nat (length s) + 1) with (Z.of_nat (length (Z.of_nat (length s) :: s))) by (cbn [length]; lia).
  rewrite ! app_comm_cons. split; [|intros ->; apply same_key_lists; try constructor; try assumption; unfold is_byte; try lia; reflexivity].
  intros H. assert (E : length s = length s').
  { specialize (H 0 ltac:(cbn [length]; lia)). cbn [app] in H. rewrite ! key_mem_head in H.
    apply byte_of_inj in H; unfold is_byte; lia. }
  apply same_key_lists in H; [injection H; auto|constructor; [unfold is_byte; lia|assumption]..|cbn; lia].
Qed.

(** ** Packing as a whole *)

Definition string_type (type : Z) : Prop := type = DField.String \/ type = DField.Binary.

Definition string_keyed (t : DTCTableDefinition) : Prop :=
  key_format t = 0 /\ exists f, field_at t 0 = Some f /\ string_type (field_type f) /\ 1 <= fieldSize f <= 255.

Definition keyed (t : DTCTableDefinition) : Prop := (exists fs, int_keyed t fs) \/ string_keyed t.

Definition good_value (v : DTCValue) : Prop :=
  match v with VInt z => is_s64 z | VBin (Some s) => Forall is_byte s | VUnset => False | _ => True end.

(** What a string key says: the case of letters counts in a binary field only. *)
Definition key_text (type : Z) (s : list Z) : list Z := if type =? DField.Binary then s else lower_char <$> s.

(** The components of a key in their canonical form. *)
Definition key_value (t : DTCTableDefinition) (vs : list DTCValue) : option (list DTCValue) :=
  if key_format t =? 0 then f ← field_at t 0; v ← vs !! 0%nat; b ← get_bin v; Some [VBin (Some (key_text (field_type f) (default [] b)))]
  else mapM (fun v => VInt <$> get_s64 v) vs.

(** [k] starts with the packed form of the components [c]. *)
Inductive packed_as (t : DTCTableDefinition) : list DTCValue -> list Z -> Prop :=
  | packed_ints fs zs r : int_keyed t fs -> keys_fit fs zs -> Forall is_s64 zs -> packed_as t (VInt <$> zs) (pack_ints fs zs ++ r)
  | packed_string s r : key_format t = 0 -> Forall is_byte s -> Z.of_nat (length s) < 256 -> packed_as t [VBin (Some s)] (Z.of_nat (length s) :: s ++ r).

Lemma int_keyed_format t fs : int_keyed t fs -> 0 < key_format t.
Proof.
  intros K. rewrite (ik_format _ _ K). pose proof (ik_some _ _ K) as Hn. pose proof (ik_types _ _ K) as Ht. destruct fs as [|f fs]; [contradiction|].
  apply Forall_cons in Ht as [[_ Hs] Ht]. pose proof (sizes_pos fs Ht). cbn [sizes foldr]. fold (sizes fs). lia.
Qed.

Lemma int_keyed_same t fs fs' : int_keyed t fs -> int_keyed t fs' -> fs = fs'.
Proof.
  intros K K'. assert (El : length fs = length fs') by (pose proof (ik_count _ _ K); pose proof (ik_count _ _ K'); lia).
  apply list_eq. intros i. destruct (fs !! i) as [f|] eqn:E; destruct (fs' !! i) as [f'|] eqn:E'.
  - pose proof (ik_at _ _ K _ _ E) as H. rewrite (ik_at _ _ K' _ _ E') in H. injection H as ->. reflexivity.
  - apply lookup_lt_Some in E. apply lookup_ge_None in E'. lia.
  - apply lookup_lt_Some in E'. apply lookup_ge_None in E. lia.
  - reflexivity.
Qed.

Lemma pack_bytes fs zs : Forall is_byte (pack_ints fs zs).
Proof.
  unfold pack_ints. revert zs. induction fs as [|f fs IH]; intros [|z zs]; cbn [zip_with concat]; try constructor. apply Forall_app. split; [apply low_bytes_bytes|apply IH].
Qed.

Lemma packed_unpack t c k : packed_as t c k -> unpack_key t k = Some c.
Proof.
  intros [fs zs r K Hf Hz|s r Ek Hs Hl]; unfold unpack_key.
  - pose proof (int_keyed_format _ _ K). rewrite (proj2 (Z.eqb_neq (key_format t) 0)) by lia. rewrite <- (ik_count _ _ K), Nat2Z.id. exact (unpack_ints_spec t fs r [] zs K Hf Hz).
  - rewrite Ek. cbn [Z.eqb lookup list_lookup mbind option_bind length drop]. rewrite length_app. rewrite (proj2 (Z.leb_le _ _)) by lia.
    rewrite Nat2Z.id. rewrite drop_0, take_app_length. reflexivity.
Qed.

Lemma packed_cmp t c c' k k' : packed_as t c k -> packed_as t c' k' -> key_cmp (key_format t) (key_mem k) (key_mem k') = 0 <-> c = c'.
Proof.
  intros H H'. pose proof (packed_unpack _ _ _ H) as U. pose proof (packed_unpack _ _ _ H') as U'.
  destruct H as [fs zs r K Hf Hz|s r Ek Hs Hl]; destruct H' as [fs' zs' r' K' Hf' Hz'|s' r' Ek' Hs' Hl'].
  - assert (fs = fs') as <- by (eapply int_keyed_same; eassumption). pose proof (int_keyed_format _ _ K) as Hp.
    pose proof (length_pack fs zs (Forall2_length _ _ _ Hf) (ik_types _ _ K)) as El. pose proof (length_pack fs zs' (Forall2_length _ _ _ Hf') (ik_types _ _ K)) as El'.
    pose proof (ik_format _ _ K) as Ef. rewrite key_cmp_ints by (apply pack_bytes || lia). split.
    + intros E. pose proof (unpack_ints_spec t fs [] [] zs K Hf Hz) as V. rewrite E, (unpack_ints_spec t fs [] [] zs' K Hf' Hz') in V. congruence.
    + intros E. f_equal. apply (list_fmap_eq_inj VInt) in E; [exact E|]. intros ? ? [= ->]; reflexivity.
  - pose proof (int_keyed_format _ _ K). lia.
  - pose proof (int_keyed_format _ _ K'). lia.
  - rewrite Ek, key_cmp_strings by assumption. split; [intros ->; reflexivity|intros [= ->]; reflexivity].
Qed.

Lemma write_at_0 bs l : (length bs <= length l)%nat -> write_at 0 bs l = Some (bs ++ drop (length bs) l).
Proof. intros Hl. exact (write_at_app [] bs l 0 eq_refl Hl). Qed.

(** [build_packed_key] succeeds exactly on components that fit. *)
Lemma build_packed_ints t fs vs zs buf : int_keyed t fs -> ints vs zs -> length fs = length zs -> sizes fs <= Z.of_nat (length buf) ->
  exists code k, build_packed_key t vs buf = Some (code, k) /\ (code = 0 <-> keys_fit fs zs) /\ (code = 0 -> k = pack_ints fs zs ++ drop (Z.to_nat (sizes fs)) buf).
Proof.
  intros K Hv El Hb. pose proof (int_keyed_format _ _ K) as Hp. unfold build_packed_key. rewrite (proj2 (Z.eqb_neq (key_format t) 0)) by lia.
  rewrite (ik_format _ _ K), (proj2 (Z.ltb_ge (Z.of_nat (length buf)) _)) by lia. destruct (Z.eqb_spec (key_fields t) 1) as [E|E].
  - pose proof (ik_count _ _ K) as Hc. destruct fs as [|f [|? ?]]; cbn in Hc; try lia. destruct zs as [|z [|? ?]]; try discriminate.
    apply Forall2_cons_inv_r in Hv as (v & ? & [Eg Hz] & Hv & ->). apply Forall2_nil_inv_r in Hv as ->.
    change (field_at t 0) with (field_at t (Z.of_nat 0)). rewrite (ik_at _ _ K 0%nat f eq_refl). cbn [lookup list_lookup mbind option_bind]. rewrite Eg. cbn [mbind option_bind].
    pose proof (ik_types _ _ K) as Ht. apply Forall_cons in Ht as [[Ht Hs] _]. cbn [sizes foldr] in Hb. rewrite store_value_spec by assumption. cbn [mbind option_bind].
    assert (Hk : keys_fit [f] [z] <-> key_fits (field_type f) (fieldSize f) z) by (split; [intros H; apply Forall2_cons in H; apply H|intros H; constructor; [exact H|constructor]]).
    destruct (decide (key_fits (field_type f) (fieldSize f) z)) as [Hf|Hf].
    + rewrite write_at_0 by (rewrite length_low_bytes; lia). do 2 eexists. split; [reflexivity|]. split; [tauto|]. intros _. unfold pack_ints. cbn [zip_with concat]. rewrite app_nil_r, length_low_bytes. do 2 f_equal. cbn [sizes foldr]. lia.
    + do 2 eexists. split; [reflexivity|]. split; [split; [discriminate|tauto]|discriminate].
  - destruct (store_ints_spec t (-6) fs [] [] zs vs buf K eq_refl Hv El Hb) as (l & Es & Hl). rewrite <- (ik_count _ _ K), Nat2Z.id. change (Z.of_nat (length ([] : list FieldDefinition))) with 0 in Es. cbn [app] in Es. change (pack_ints [] []) with (@nil Z) in Es. cbn [app] in Es.
    rewrite Es. do 2 eexists. split; [reflexivity|]. split; [destruct (decide (keys_fit fs zs)); split; (done || discriminate)|]. destruct (decide (keys_fit fs zs)); [auto|discriminate].
Qed.

(** Values of the kind of the key fields, one for each. *)
Definition key_typed (t : DTCTableDefinition) (vs : list DTCValue) : Prop :=
  if key_format t =? 0 then exists v b, vs = [v] /\ get_bin v = Some b /\ Forall is_byte (default [] b)
  else exists zs, ints vs zs /\ Z.of_nat (length vs) = key_fields t.

Lemma key_chars_text type s : string_type type -> Forall is_byte s -> key_chars type s = key_text type s.
Proof. intros [-> | ->] Hs; [|reflexivity]. exact (tolower_lowers s Hs). Qed.

Lemma key_text_bytes type s : Forall is_byte s -> Forall is_byte (key_text type s) /\ length (key_text type s) = length s.
Proof.
  intros Hs. unfold key_text. case_match; [auto|]. rewrite length_fmap. split; [|reflexivity]. apply Forall_fmap. eapply Forall_impl; [exact Hs|]. apply lower_byte.
Qed.

Lemma pack_string_as t type s r : key_format t = 0 -> string_type type -> Forall is_byte s -> Z.of_nat (length s) < 256 ->
  packed_as t [VBin (Some (key_text type s))] (pack_string type s ++ r).
Proof.
  intros Ek Ht Hs Hl. destruct (key_text_bytes type s Hs) as [Hb El]. unfold pack_string. rewrite wrap_small by (split; [lia|exact Hl]).
  rewrite key_chars_text by assumption. rewrite <- El at 1. cbn [app]. apply packed_string; [exact Ek|exact Hb|rewrite El; exact Hl].
Qed.

Lemma ints_values vs zs : ints vs zs -> mapM (fun v => VInt <$> get_s64 v) vs = Some (VInt <$> zs) /\ Forall is_s64 zs.
Proof.
  induction 1 as [|v z vs zs [E Hz] _ [IH Hzs]]; [split; [reflexivity|constructor]|]. split; [|constructor; assumption].
  cbn [mapM fmap list_fmap]. rewrite E. cbn [fmap option_fmap option_map mbind option_bind]. rewrite IH. reflexivity.
Qed.

Lemma build_packed_spec t vs buf k : keyed t -> key_typed t vs -> build_packed_key t vs buf = Some (0, k) ->
  exists c, key_value t vs = Some c /\ packed_as t c k.
Proof.
  intros Hk Hv Hb. unfold key_typed in Hv. destruct Hk as [[fs K]|(Ef & f & Ea & Hty & Hs)].
  - pose proof (int_keyed_format _ _ K). rewrite (proj2 (Z.eqb_neq (key_format t) 0)) in Hv by lia. destruct Hv as (zs & Hi & Hl).
    destruct (ints_values _ _ Hi) as [Em Hz]. unfold key_value. rewrite (proj2 (Z.eqb_neq (key_format t) 0)) by lia. exists (VInt <$> zs). split; [exact Em|].
    assert (Hlen : length fs = length zs) by (pose proof (ik_count _ _ K); pose proof (Forall2_length _ _ _ Hi); lia).
    assert (sizes fs <= Z.of_nat (length buf)).
    { destruct (Z.le_gt_cases (sizes fs) (Z.of_nat (length buf))) as [|Hlt]; [assumption|exfalso]. unfold build_packed_key in Hb.
      rewrite (proj2 (Z.eqb_neq (key_format t) 0)), (ik_format _ _ K), (proj2 (Z.ltb_lt (Z.of_nat (length buf)) _)) in Hb by lia. destruct (key_fields t =? 1); discriminate. }
    destruct (build_packed_ints t fs vs zs buf K Hi Hlen ltac:(assumption)) as (code & k' & E & Hz0 & Ek). rewrite Hb in E. injection E as <- <-.
    rewrite (Ek eq_refl). constructor; [exact K|apply Hz0; reflexivity|exact Hz].
  - rewrite Ef in Hv. destruct Hv as (v & b & -> & Eg & Hby). unfold build_packed_key, key_value in *. rewrite Ef in *. cbn [Z.eqb lookup list_lookup mbind option_bind] in *.
    rewrite Ea in *. cbn [mbind option_bind] in *. rewrite Eg in *. cbn [mbind option_bind] in *. set (s := default [] b) in *. assert (El : length (key_chars (field_type f) s) = length s) by (rewrite key_chars_text by assumption; exact (proj2 (key_text_bytes _ s Hby))).
    destruct (Z.ltb_spec (fieldSize f) (Z.of_nat (length s))); [discriminate|]. destruct (Z.ltb_spec (Z.of_nat (length buf)) (Z.of_nat (length s) + 1)); [discriminate|].
    rewrite write_at_0 in Hb by (unfold pack_string; cbn [length]; lia). cbn [mbind option_bind] in Hb. injection Hb as <-. exists [VBin (Some (key_text (field_type f) s))]. split; [reflexivity|].
    apply pack_string_as; [exact Ef|exact Hty|exact Hby|lia].
Qed.

(** The cache tells keys apart by their components. *)
Lemma packed_identity t vs ws buf buf' k k' : keyed t -> key_typed t vs -> key_typed t ws ->
  build_packed_key t vs buf = Some (0, k) -> build_packed_key t ws buf' = Some (0, k') ->
  unpack_key t k = key_value t vs /\ (key_cmp (key_format t) (key_mem k) (key_mem k') = 0 <-> key_value t vs = key_value t ws).
Proof.
  intros Hk Hv Hw Hb Hb'. destruct (build_packed_spec t vs buf k Hk Hv Hb) as (c & Ec & Hc). destruct (build_packed_spec t ws buf' k' Hk Hw Hb') as (c' & Ec' & Hc').
  rewrite Ec, Ec'. split; [apply packed_unpack, Hc|]. rewrite (packed_cmp t c c' k k' Hc Hc'). split; [intros ->; reflexivity|intros [= ->]; reflexivity].
Qed.

(** ** The key of a job *)

Lemma key_error_total err msg o : result_shape (job o) -> exists o', key_error err msg o = Some (-1, o') /\ result_shape (job o').
Proof. intros Hr. unfold key_error. destruct (set_error_from_total (txt "key verify") err (Some msg) (job o) Hr) as (j & -> & Hj & _). eexists. split; [reflexivity|exact Hj]. Qed.

Section JobKey.
Context (mem_ok : Z -> bool) (t : DTCTableDefinition) (Hmem : forall n, mem_ok n = true).

(** A job whose buffers can hold a key of the table. *)
Definition key_ready (o : DTCJobOperation) : Prop :=
  result_shape (job o) /\ length (packedKeyBuf o) = 8%nat /\ (packedKey o = KeyBuf -> 1 <= key_format t <= 8).

Lemma build_string o f v b : key_ready o -> key_format t = 0 -> field_at t 0 = Some f -> string_type (field_type f) -> 1 <= fieldSize f <= 255 ->
  default (VBin (Some [])) (request_key o) = v -> get_bin v = Some b -> Forall is_byte (default [] b) ->
  exists r o', build_key mem_ok t o = Some (r, o') /\
  if decide (Z.of_nat (length (default [] b)) <= fieldSize f) then r = 0 /\ exists c k, key_value t [v] = Some c /\ packed_key o' = Some k /\ packed_as t c k else r = -1.
Proof.
  intros (Hr & Hbuf & Hp) Ef Ea Hty Hs Ev Eg Hby. unfold build_key. rewrite Ef. cbn [Z.eqb]. unfold build_single_string_key. rewrite Ea. cbn [mbind option_bind].
  assert (Eb : match request_key o with Some v => get_bin v | None => Some (Some []) end = Some b) by (rewrite <- Ev in Eg; destruct (request_key o); exact Eg).
  rewrite Eb. cbn [mbind option_bind]. set (s := default [] b) in *. destruct (decide (Z.of_nat (length s) <= fieldSize f)) as [Hl|Hl].
  2: { rewrite (proj2 (Z.ltb_lt _ _)) by lia. destruct (key_error_total (- EC_KEY_NEEDED) (txt "string key size overflow") o Hr) as (o' & -> & _). eauto. }
  rewrite (proj2 (Z.ltb_ge _ _)) by lia. unfold free_key. destruct (packedKey o) eqn:Ep; [|specialize (Hp eq_refl); lia|];
    (cbn [mbind option_bind]; rewrite Hmem; cbn [negb]; do 2 eexists; split; [reflexivity|]; split; [reflexivity|];
     exists [VBin (Some (key_text (field_type f) s))]; eexists; split; [unfold key_value; rewrite Ef; cbn [Z.eqb lookup list_lookup mbind option_bind]; rewrite Ea; cbn [mbind option_bind]; rewrite Eg; reflexivity|];
     split; [reflexivity|]; rewrite <- (app_nil_r (pack_string (field_type f) s)); apply pack_string_as; [exact Ef|exact Hty|exact Hby|lia]).
Qed.

(** ** Integer keys of a job *)

Lemma packed_put l o : packedKey o <> KeyNull -> packed_key (put_packed l o) = Some l.
Proof. intros Hp. unfold put_packed, packed_key. destruct (packedKey o) eqn:E; [contradiction|..]; cbn; rewrite ? E; reflexivity. Qed.

Lemma clear_key_ok o fs : int_keyed t fs -> key_ready o -> key_format t < 256 ->
  exists o' r, clear_key mem_ok t o = Some (true, o') /\ packed_key o' = Some (replicate (Z.to_nat (key_format t)) 0 ++ r) /\
    packedKey o' <> KeyNull /\ job o' = job o.
Proof.
  intros K (Hr & Hb & Hp) Hf. pose proof (int_keyed_format _ _ K) as Hpos. unfold clear_key. destruct (Z.ltb_spec 8 (key_format t)) as [H8|H8].
  - unfold free_key. destruct (packedKey o) eqn:E; [|specialize (Hp eq_refl); lia|]; cbn [mbind option_bind]; rewrite Hmem;
      (exists (set_packed (KeyHeap (replicate (Z.to_nat (key_format t)) 0)) (packedKeyBuf o) o), []; split; [reflexivity|]; rewrite app_nil_r; done).
  - rewrite write_at_0 by (rewrite length_replicate; lia). cbn [mbind option_bind]. do 2 eexists. split; [reflexivity|]. done.
Qed.

Lemma single_int_ok o fs f v z : int_keyed t fs -> fs !! 0%nat = Some f -> key_ready o -> key_format t < 256 ->
  request_key o = Some v -> get_s64 v = Some z -> is_s64 z -> key_fits (field_type f) (fieldSize f) z ->
  exists o' r, build_single_int_key mem_ok t o = Some (0, o') /\ packed_key o' = Some (low_bytes (fieldSize f) z ++ r) /\
    Z.of_nat (length (low_bytes (fieldSize f) z ++ r)) >= key_format t /\ packedKey o' <> KeyNull /\ job o' = job o.
Proof.
  intros K Ef Hk Hf Er Eg Hz Hfit. destruct (clear_key_ok o fs K Hk Hf) as (o1 & r & Ec & Ep & Hp & Ej). unfold build_single_int_key. rewrite Ec. cbn [mbind option_bind negb].
  assert (Er' : request_key o1 = Some v) by (unfold request_key in *; rewrite Ej; exact Er). rewrite Er'.
  change (field_at t 0) with (field_at t (Z.of_nat 0)). rewrite (ik_at _ _ K 0%nat f Ef). cbn [mbind option_bind]. rewrite Eg. cbn [mbind option_bind].
  destruct (proj1 (Forall_lookup _ _) (ik_types _ _ K) 0%nat f Ef) as [Hty Hs]. rewrite store_value_spec by assumption. cbn [mbind option_bind]. rewrite decide_True by exact Hfit.
  assert (Hl : fieldSize f <= key_format t).
  { rewrite (ik_format _ _ K). pose proof (ik_types _ _ K) as Ht. destruct fs as [|f' fs]; [discriminate|]. injection Ef as ->. apply Forall_cons in Ht as [_ Ht]. pose proof (sizes_pos fs Ht). cbn [sizes foldr]. fold (sizes fs). lia. }
  rewrite Ep. cbn [mbind option_bind]. rewrite write_at_0 by (rewrite length_low_bytes, length_app, length_replicate; lia). cbn [mbind option_bind].
  do 2 eexists. split; [reflexivity|]. split; [apply packed_put, Hp|]. split; [rewrite length_app, length_drop, length_app, length_replicate, length_low_bytes; lia|].
  unfold put_packed. destruct (packedKey o1); [contradiction|..]; cbn; auto.
Qed.

(** The entries of a list of conditions or values that belong to the key. *)
Definition key_entries (es : list SFieldValue) : list SFieldValue := filter (fun e => id e < key_fields t) es.

(** An entry with a value for its key field. *)
Definition component_ok (e : SFieldValue) : Prop :=
  0 <= id e /\ exists f z, field_at t (id e) = Some f /\ int_type (field_type f) /\ 1 <= fieldSize f <= 8 /\ get_s64 (val e) = Some z /\ is_s64 z /\
    key_fits (field_type f) (fieldSize f) z /\ (type e = DField.Unsigned -> 0 <= z).

Definition mark_component (m : Z) (e : SFieldValue) : Z := Z.lor m (2 ^ id e).
Definition put_component (l : list DTCValue) (e : SFieldValue) : list DTCValue := <[Z.to_nat (id e) := val e]> l.

Lemma component_sign e f z : field_at t (id e) = Some f -> int_type (field_type f) -> 1 <= fieldSize f <= 8 -> is_s64 z -> key_fits (field_type f) (fieldSize f) z ->
  (type e = DField.Unsigned -> 0 <= z) -> fieldSize f < 8 ->
  (z <? 0) && ((field_type f =? DField.Unsigned) && (type e =? DField.Signed) || (field_type f =? DField.Signed) && (type e =? DField.Unsigned)) = false.
Proof.
  intros _ Hty Hs Hz Hf Hu H8. destruct (Z.ltb_spec z 0) as [Hn|]; [|reflexivity]. cbn [andb]. unfold key_fits, u64_of, wrap, is_s64 in *.
  assert (2 ^ (8 * fieldSize f) <= 2 ^ 56) by (apply Z.pow_le_mono_r; lia).
  destruct Hty as [E|E]; rewrite E in *; cbn [Z.eqb Pos.eqb DField.Signed DField.Unsigned andb orb] in *; [|exfalso; zdm].
  destruct (Z.eqb_spec (type e) DField.Unsigned) as [Et|]; [|reflexivity]. specialize (Hu Et). lia.
Qed.

Lemma key_components_ok es : forall mask mk, NoDup (id <$> key_entries es) -> (forall e, e ∈ key_entries es -> component_ok e /\ Z.testbit mask (id e) = false) ->
  key_components t es mask mk = Some (None, fold_left mark_component (key_entries es) mask, fold_left put_component (key_entries es) mk).
Proof.
  unfold key_entries. induction es as [|e es IH]; intros mask mk Hn Hok; [reflexivity|]. destruct e as [i op ty v] eqn:Ee. rewrite <- Ee in *.
  cbn [key_components]. rewrite filter_cons in *. rewrite Ee at 1. cbn [id]. destruct (decide (id e < key_fields t)) as [Hi|Hi]; rewrite Ee in Hi; cbn [id] in Hi.
  2: { rewrite (proj2 (Z.leb_le _ _)) by lia. apply IH; assumption. }
  rewrite (proj2 (Z.leb_gt _ _)) by lia. destruct (Hok e ltac:(apply list_elem_of_here)) as [(Hi0 & f & z & Ef & Hty & Hs & Eg & Hz & Hfit & Hu) Hm].
  subst e. cbn [id val type] in *. rewrite Hm, Ef. cbn [mbind option_bind].
  assert (Eb : (if 8 <=? fieldSize f then Some false else s ← get_s64 v; Some ((s <? 0) && ((field_type f =? DField.Unsigned) && (ty =? DField.Signed) || (field_type f =? DField.Signed) && (ty =? DField.Unsigned)))) = Some false).
  { destruct (Z.leb_spec 8 (fieldSize f)); [reflexivity|]. rewrite Eg. cbn [mbind option_bind]. f_equal. exact (component_sign (mkFV i op ty v) f z Ef Hty Hs Hz Hfit Hu ltac:(assumption)). }
  rewrite Eb. cbn [mbind option_bind]. rewrite fmap_cons in Hn. apply NoDup_cons in Hn as [Hni Hn]. rewrite IH; [reflexivity|exact Hn|].
  intros e He. destruct (Hok e ltac:(apply list_elem_of_further; exact He)) as [Hc Hm']. split; [exact Hc|].
  rewrite Z.lor_spec, Hm', Z.pow2_bits_eqb by lia. cbn [orb]. apply Z.eqb_neq. intros E. apply Hni. cbn [id]. rewrite E. apply list_elem_of_fmap. exists e. auto.
Qed.

Lemma mark_bits ks m i : 0 <= i -> Forall (fun e => 0 <= id e) ks -> Z.testbit (fold_left mark_component ks m) i = Z.testbit m i || bool_decide (i ∈ id <$> ks).
Proof.
  intros Hi. revert m. induction ks as [|e ks IH]; intros m Hk; [cbn; rewrite orb_false_r; reflexivity|]. apply Forall_cons in Hk as [He Hk].
  cbn [fold_left]. rewrite IH by exact Hk. unfold mark_component. rewrite Z.lor_spec, Z.pow2_bits_eqb by lia. rewrite <- orb_assoc. f_equal.
  rewrite fmap_cons. destruct (Z.eqb_spec (id e) i) as [->|Hne]; cbn [orb]; [symmetry; apply bool_decide_eq_true_2, list_elem_of_here|].
  apply bool_decide_ext. rewrite elem_of_cons. split; [auto|intros [E|]; [congruence|assumption]].
Qed.

Lemma put_lookup ks l : NoDup (id <$> ks) -> Forall (fun e => 0 <= id e < Z.of_nat (length l)) ks ->
  length (fold_left put_component ks l) = length l /\
  (forall e, e ∈ ks -> fold_left put_component ks l !! Z.to_nat (id e) = Some (val e)) /\
  (forall j, (forall e, e ∈ ks -> Z.to_nat (id e) <> j) -> fold_left put_component ks l !! j = l !! j).
Proof.
  revert l. induction ks as [|e ks IH]; intros l Hn Hk; [cbn; split_and!; [reflexivity|intros e He; inversion He|reflexivity]|].
  rewrite fmap_cons in Hn. apply NoDup_cons in Hn as [Hni Hn]. apply Forall_cons in Hk as [He Hk]. cbn [fold_left].
  destruct (IH (put_component l e) Hn) as (IL & Ia & Ib); [unfold put_component; rewrite length_insert; exact Hk|].
  assert (Hne : forall e', e' ∈ ks -> Z.to_nat (id e') <> Z.to_nat (id e)).
  { intros e' He' E. apply Hni. rewrite Forall_forall in Hk. specialize (Hk e' He'). replace (id e) with (id e') by lia. apply list_elem_of_fmap. eauto. }
  split_and!; [rewrite IL; apply length_insert|intros e' He'; apply elem_of_cons in He' as [->|He']; [|apply Ia, He']|intros j Hj].
  - rewrite Ib by exact Hne. apply list_lookup_insert_eq. lia.
  - rewrite Ib by (intros e' He'; apply Hj, list_elem_of_further, He'). apply list_lookup_insert_ne, Hj, list_elem_of_here.
Qed.

(** The key of the request and the components among its entries are [vs]. *)
Definition carries (o : DTCJobOperation) (vs : list DTCValue) : Prop :=
  match vs with
  | [] => False
  | v :: vs' => request_key o = Some v /\ (key_fields t = 1 \/ exists kop, flag_multi_key_val o = false /\
      (if (request_code o =? Insert) || (request_code o =? Replace) then updateInfo (parts (job o)) else conditionInfo (parts (job o))) = Some kop /\
      (fun e => (id e, val e)) <$> key_entries (fieldValue kop) ≡ₚ zip (Z.of_nat <$> seq 1 (length vs')) vs' /\
      Forall (fun e => type e = DField.Unsigned -> forall z, get_s64 (val e) = Some z -> 0 <= z) (key_entries (fieldValue kop)))
  end.

Lemma carried_ids vs' ks : (fun e => (id e, val e)) <$> ks ≡ₚ zip (Z.of_nat <$> seq 1 (length vs')) vs' -> id <$> ks ≡ₚ Z.of_nat <$> seq 1 (length vs').
Proof.
  intros H. apply (Permutation_map fst) in H. change (map fst) with (fmap (M := list) (@fst Z DTCValue)) in H. rewrite <- list_fmap_compose in H.
  rewrite fst_zip in H by (rewrite length_fmap, length_seq; lia). exact H.
Qed.

Section Multi.
Context (fs : list FieldDefinition) (K : int_keyed t fs) (v : DTCValue) (vs' : list DTCValue) (zs : list Z) (Hv : ints (v :: vs') zs) (Hf : keys_fit fs zs).
Context (ks : list SFieldValue) (Hks : (fun e => (id e, val e)) <$> ks ≡ₚ zip (Z.of_nat <$> seq 1 (length vs')) vs').
Context (Hu : Forall (fun e => type e = DField.Unsigned -> forall z, get_s64 (val e) = Some z -> 0 <= z) ks).

Lemma key_count : key_fields t = Z.of_nat (length (v :: vs')).
Proof. rewrite <- (ik_count _ _ K). f_equal. rewrite (Forall2_length _ _ _ Hv). apply (Forall2_length _ _ _ Hf). Qed.

Lemma component_at e : e ∈ ks -> exists k : nat, id e = Z.of_nat k /\ (1 <= k <= length vs')%nat /\ (v :: vs') !! k = Some (val e).
Proof.
  intros He. assert (H : (id e, val e) ∈ zip (Z.of_nat <$> seq 1 (length vs')) vs') by (rewrite <- Hks; apply list_elem_of_fmap; eauto).
  apply list_elem_of_lookup in H as [k H]. apply lookup_zip_with_Some in H as (i & w & [= -> ->] & Hi & Hw).
  rewrite list_lookup_fmap in Hi. pose proof (lookup_lt_Some _ _ _ Hw). rewrite lookup_seq_lt in Hi by lia. injection Hi as <-. exists (1 + k)%nat. split_and!; [reflexivity|lia..|exact Hw].
Qed.

Lemma components_nodup : NoDup (id <$> ks).
Proof. rewrite (carried_ids _ _ Hks). apply NoDup_fmap_2; [intros ? ?; apply Nat2Z.inj|apply NoDup_seq]. Qed.

Lemma components_good e : e ∈ ks -> component_ok e /\ Z.testbit 1 (id e) = false.
Proof.
  intros He. destruct (component_at e He) as (k & Ek & Hk & Ev). split; [|rewrite Ek; change 1 with (2 ^ 0); rewrite Z.pow2_bits_eqb by lia; apply Z.eqb_neq; lia].
  destruct (Forall2_lookup_l _ _ _ _ _ Hv Ev) as (z & Ez & Eg & Hz). destruct (Forall2_lookup_r _ _ _ _ _ Hf Ez) as (f & Ef & Hfit).
  destruct (proj1 (Forall_lookup _ _) (ik_types _ _ K) k f Ef) as [Hty Hs]. split; [lia|]. exists f, z. rewrite Ek, (ik_at _ _ K k f Ef). split_and!; try assumption; try lia; try reflexivity.
  intros Et. rewrite Forall_forall in Hu. exact (Hu e He Et z Eg).
Qed.

Lemma components_put : fold_left put_component ks (<[0%nat := v]> (replicate (Z.to_nat (key_fields t)) VZero)) = v :: vs'.
Proof.
  set (l0 := <[0%nat := v]> (replicate (Z.to_nat (key_fields t)) VZero)). assert (Hl : length l0 = S (length vs')) by (unfold l0; rewrite length_insert, length_replicate, key_count; cbn [length]; lia).
  destruct (put_lookup ks l0 components_nodup) as (Hlen & Hin & Hout).
  { apply Forall_forall. intros e He. destruct (component_at e He) as (k & -> & Hk & _). lia. }
  apply list_eq. intros j. destruct (decide (j < S (length vs'))%nat) as [Hj|Hj]; [|rewrite ! lookup_ge_None_2 by (rewrite ? Hlen, ? Hl; cbn [length]; lia); reflexivity].
  destruct j as [|j].
  { rewrite Hout; [unfold l0; apply list_lookup_insert_eq; rewrite length_replicate, key_count; cbn [length]; lia|]. intros e He. destruct (component_at e He) as (k & -> & Hk & _). lia. }
  assert (H : Z.of_nat (S j) ∈ id <$> ks) by (rewrite (carried_ids _ _ Hks); apply list_elem_of_fmap; exists (S j); split; [reflexivity|apply elem_of_seq; lia]).
  apply list_elem_of_fmap in H as (e & Ee & He). specialize (Hin e He). rewrite <- Ee, Nat2Z.id in Hin. rewrite Hin. destruct (component_at e He) as (k & Ek & _ & Ev). rewrite <- Ev. f_equal. lia.
Qed.

Lemma components_mask : fold_left mark_component ks 1 = 2 ^ key_fields t - 1.
Proof.
  pose proof key_count as Hn.  replace (2 ^ key_fields t - 1) with (Z.ones (key_fields t)) by (rewrite Z.ones_equiv; lia).
  apply Z.bits_inj'. intros i Hi. rewrite mark_bits by (try exact Hi; apply Forall_forall; intros e He; destruct (component_at e He) as (k & -> & _); lia).
  rewrite Z.testbit_ones_nonneg by (cbn [length] in Hn; lia). change 1 with (2 ^ 0) at 1. rewrite Z.pow2_bits_eqb by lia.
  destruct (Z.ltb_spec i (key_fields t)) as [H|H].
  - destruct (Z.eqb_spec 0 i); [reflexivity|]. cbn [orb]. apply bool_decide_eq_true_2. rewrite (carried_ids _ _ Hks). apply list_elem_of_fmap. exists (Z.to_nat i). cbn [length] in Hn. split; [lia|apply elem_of_seq; lia].
  - rewrite (proj2 (Z.eqb_neq 0 i)) by (cbn [length] in Hn; lia). cbn [orb]. apply bool_decide_eq_false_2. rewrite (carried_ids _ _ Hks). intros Hin.
    apply list_elem_of_fmap in Hin as (k & -> & Hk). apply elem_of_seq in Hk. cbn [length] in Hn. lia.
Qed.
End Multi.

Lemma mask_full n ai : 0 <= n -> 0 <= ai < n -> Z.lor (2 ^ n - 1) (2 ^ ai) = 2 ^ n - 1.
Proof.
  intros Hn Ha. replace (2 ^ n - 1) with (Z.ones n) by (rewrite Z.ones_equiv; lia). apply Z.bits_inj'. intros i Hi.
  rewrite Z.lor_spec, Z.testbit_ones_nonneg, Z.pow2_bits_eqb by lia. destruct (Z.ltb_spec i n); [reflexivity|]. cbn [orb]. apply Z.eqb_neq. lia.
Qed.

Lemma multi_values_ok o fs vs zs : int_keyed t fs -> ints vs zs -> keys_fit fs zs -> key_fields t <> 1 -> key_fields t < 32 -> carries o vs ->
  exists o', build_multi_key_values mem_ok t o = Some (0, o') /\ multi_key o' = Some vs /\ packed_key o' = packed_key o /\ packedKey o' = packedKey o.
Proof.
  intros K Hv Hf Hn1 Hn Hc. destruct vs as [|v vs']; [contradiction|]. destruct Hc as [Er [|(kop & _ & Ek & Hp & Hu)]]; [contradiction|].
  unfold build_multi_key_values. rewrite Hmem. cbn [negb]. change (request_key (set_multi None o)) with (request_key o). rewrite Er.
  change (request_code (set_multi None o)) with (request_code o). change (job (set_multi None o)) with (job o). rewrite Ek.
  rewrite key_components_ok; [|exact (components_nodup vs' _ Hp)|exact (components_good fs K v vs' zs Hv Hf _ Hp Hu)]. cbn [mbind option_bind].
  rewrite (components_put fs K v vs' zs Hv Hf _ Hp), (components_mask fs K v vs' zs Hv Hf _ Hp).
  pose proof (key_count fs K v vs' zs Hv Hf) as Hk. cbn [length] in Hk.
  assert (Em : (if (0 <=? auto_increment_field_id t) && (auto_increment_field_id t <? key_fields t) && (request_code (set_multi (Some (v :: vs')) (set_multi None o)) =? Insert)
     then Z.lor (2 ^ key_fields t - 1) (2 ^ auto_increment_field_id t) else 2 ^ key_fields t - 1) = 2 ^ key_fields t - 1).
  { destruct (Z.leb_spec 0 (auto_increment_field_id t)); [|reflexivity]. destruct (Z.ltb_spec (auto_increment_field_id t) (key_fields t)); [|reflexivity]. cbn [andb]. destruct (_ =? Insert); [|reflexivity]. apply mask_full; lia. }
  rewrite Em, (proj2 (Z.leb_gt 32 (key_fields t))) by lia. replace (2 ^ key_fields t - 1 + 1) with (2 ^ key_fields t) by lia.
  rewrite wrap_small by (split; [lia|apply Z.pow_lt_mono_r; lia]). rewrite Z.eqb_refl. cbn [negb]. eexists. split; [reflexivity|]. auto.
Qed.

(** The key a job builds for a request that carries the components [vs]. *)
Lemma job_key_ints o fs vs zs : int_keyed t fs -> ints vs zs -> keys_fit fs zs -> key_fields t < 32 -> key_format t < 256 -> key_ready o -> carries o vs ->
  exists o' k, build_key mem_ok t o = Some (0, o') /\ packed_key o' = Some k /\ packed_as t (VInt <$> zs) k.
Proof.
  intros K Hv Hf Hn Hk8 Hr Hc. pose proof (int_keyed_format _ _ K) as Hpos. unfold build_key. rewrite (proj2 (Z.eqb_neq (key_format t) 0)) by lia.
  destruct vs as [|v vs']; [contradiction|]. destruct (ints_values _ _ Hv) as [_ Hz]. pose proof Hv as Hv0. apply Forall2_cons_inv_l in Hv0 as (z & zs' & [Eg Hz0] & _ & ->).
  pose proof Hf as Hf0. apply Forall2_cons_inv_r in Hf0 as (f & fs' & Hfit & Hf' & ->).
  destruct (single_int_ok o (f :: fs') f v z K eq_refl Hr Hk8 (proj1 Hc) Eg Hz0 Hfit) as (o1 & r & E1 & Ep & Hl & Hp & Ej).
  destruct (Z.eqb_spec (key_fields t) 1) as [E|E].
  { rewrite E1. do 2 eexists. split; [reflexivity|]. split; [exact Ep|]. pose proof (ik_count _ _ K) as Hcnt. rewrite E in Hcnt. destruct fs' as [|? ?]; [|cbn in Hcnt; lia]. apply Forall2_nil_inv_l in Hf' as ->.
    replace (low_bytes (fieldSize f) z) with (pack_ints [f] [z]) by (unfold pack_ints; cbn; apply app_nil_r). constructor; assumption. }
  unfold build_multi_int_key. rewrite E1. cbn [mbind option_bind Z.ltb]. change (0 <? 0) with false. cbv iota.
  assert (Hc1 : carries o1 (v :: vs')) by (unfold carries, request_key, request_code, flag_multi_key_val in *; rewrite Ej; exact Hc).
  destruct (multi_values_ok o1 (f :: fs') (v :: vs') (z :: zs') K Hv Hf E Hn Hc1) as (o2 & E2 & Em & Ep2 & Hp2).
  destruct Hc1 as [_ [|(kop & Eflag & _)]]; [contradiction|]. rewrite Eflag, E2. cbn [mbind option_bind]. change (0 <? 0) with false. cbv iota. rewrite Em. cbn [mbind option_bind]. rewrite Ep2, Ep. cbn [mbind option_bind].
  pose proof (ik_types _ _ K) as Ht. apply Forall_cons in Ht as [[_ Hs] Ht]. pose proof (ik_format _ _ K) as Efmt. cbn [sizes foldr] in Efmt. fold (sizes fs') in Efmt.
  destruct (store_ints_spec t (-1) fs' [f] [z] zs' (v :: vs') r K eq_refl Hv (Forall2_length _ _ _ Hf')) as (l & Es & El).
  { rewrite length_app, length_low_bytes in Hl. lia. }
  replace (Z.to_nat (key_fields t - 1)) with (length fs') by (pose proof (ik_count _ _ K) as Hcnt; cbn [length] in Hcnt; lia).
  replace (pack_ints [f] [z]) with (low_bytes (fieldSize f) z) in Es by (unfold pack_ints; cbn; rewrite app_nil_r; reflexivity). change (Z.of_nat (length [f])) with 1 in Es.
  rewrite Es, decide_True by exact Hf'. cbn [mbind option_bind]. change (0 <? 0) with false. cbv iota. do 2 eexists. split; [reflexivity|].
  split; [apply packed_put; rewrite Hp2; exact Hp|]. rewrite (El Hf'). cbn [app]. constructor; assumption.
Qed.
End JobKey.

(** ** The layout set_key_fields makes *)

Definition int_field (f : FieldDefinition) : Prop := int_type (field_type f) /\ 1 <= fieldSize f <= 8.
Definition fields_from (t : DTCTableDefinition) (i : Z) (fs : list FieldDefinition) : Prop := forall m f, fs !! m = Some f -> field_at t (i + Z.of_nat m) = Some f.
Definition same_field (f g : FieldDefinition) : Prop := field_type g = field_type f /\ fieldSize g = fieldSize f.

Lemma same_field_sizes fs gs : Forall2 same_field fs gs -> sizes gs = sizes fs.
Proof. induction 1 as [|f g fs gs [_ E] _ IH]; [reflexivity|]. cbn [sizes foldr]. fold (sizes fs) (sizes gs). lia. Qed.

Lemma field_at_put t i f g j : field_at t i = Some f ->
  field_at (on_names (fun ns => mkNames (<[Z.to_nat i := g]> (TableDef.fieldList ns)) (nameHash ns) (TableDef.maxFields ns) (usedFields ns) (TableDef.numFields ns)) t) j = if decide (j = i) then Some g else field_at t j.
Proof.
  unfold field_at. cbn. intros Hi. destruct (Z.leb_spec 0 i) as [Hi0|]; [|discriminate]. destruct (Z.leb_spec 0 j) as [Hj|Hj]; [|destruct (decide (j = i)); [lia|reflexivity]].
  destruct (decide (j = i)) as [->|Hne]; [apply list_lookup_insert_eq, lookup_lt_Some with f, Hi|apply list_lookup_insert_ne; lia].
Qed.

(** One round: the field is marked and gets its offset. *)
Lemma key_round t i f off : field_at t i = Some f -> exists t1 e, mark_as_read_only i t = Some t1 /\ field_at t1 i = Some e /\ same_field f e /\
  uniqFields (side t1) = uniqFields (side t) /\ keys t1 = keys t /\
  (forall j, field_at (on_names (fun ns => mkNames (<[Z.to_nat i := with_offset off e]> (TableDef.fieldList ns)) (nameHash ns) (TableDef.maxFields ns) (usedFields ns) (TableDef.numFields ns)) t1) j =
     if decide (j = i) then Some (with_offset off e) else field_at t j).
Proof.
  intros Hf. unfold mark_as_read_only, alter_flags. rewrite Hf. cbn [mbind option_bind]. do 2 eexists. split; [reflexivity|]. rewrite (field_at_put t i f _ i Hf).
  split; [rewrite decide_True by reflexivity; reflexivity|]. split; [split; reflexivity|]. split; [reflexivity|]. split; [reflexivity|]. intros j.
  rewrite (field_at_put _ i _ _ j (eq_trans (field_at_put t i f _ i Hf) ltac:(rewrite decide_True by reflexivity; reflexivity))).
  destruct (decide (j = i)) as [->|Hne]; [reflexivity|]. rewrite (field_at_put t i f _ j Hf), decide_False by exact Hne. reflexivity.
Qed.

Lemma key_loop_spec fs : forall i off nvar uniq t, 0 <= i -> 0 <= off -> off + sizes fs < 256 -> Forall int_field fs -> fields_from t i fs ->
  exists uniq' t' gs, key_loop (length fs) i off nvar uniq t = Some (off + sizes fs, nvar, uniq', t') /\ Forall2 same_field fs gs /\ fields_from t' i gs /\
    (forall m g, gs !! m = Some g -> offset g = off + sizes (take m gs)) /\ keys t' = keys t /\ uniqFields (side t') = uniqFields (side t) /\
    (forall j, j < i -> field_at t' j = field_at t j).
Proof.
  induction fs as [|f fs IH]; intros i off nvar uniq t Hi Ho Hs Hf Hat.
  { exists uniq, t, []. cbn. rewrite Z.add_0_r. split_and!; done. }
  apply Forall_cons in Hf as [[Hty Hsz] Hf]. pose proof (sizes_pos fs Hf) as Hp. cbn [sizes foldr] in Hs |- *. fold (sizes fs) in Hs |- *.
  assert (E0 : field_at t i = Some f) by (rewrite <- (Z.add_0_r i); exact (Hat 0%nat f eq_refl)).
  destruct (key_round t i f off E0) as (t1 & e & E1 & Ee & [Et Es] & Hu & Hk & Hr). cbn [length key_loop]. rewrite E1. cbn [mbind option_bind]. rewrite Ee. cbn [mbind option_bind]. rewrite Et, Es.
  assert (Ei : (field_type f =? DField.Signed) || (field_type f =? DField.Unsigned) || (field_type f =? DField.Float) = true) by (destruct Hty as [-> | ->]; reflexivity). rewrite Ei.
  set (t2 := on_names _ t1) in *. edestruct (IH (i + 1) (off + fieldSize f) nvar) with (t := t2) as (uniq' & t' & gs & E & Hsame & Hg & Hoff & Hk' & Hu' & Hlow); try lia; [exact Hf| |].
  { intros m g Hm. rewrite Hr, decide_False by lia. replace (i + 1 + Z.of_nat m) with (i + Z.of_nat (S m)) by lia. apply (Hat (S m) g Hm). }
  exists uniq', t', (with_offset off e :: gs). rewrite E. replace (off + fieldSize f + sizes fs) with (off + (fieldSize f + sizes fs)) by lia. split_and!; try done.
  - constructor; [split; assumption|exact Hsame].
  - intros [|m] g Hm; [injection Hm as <-; rewrite Z.add_0_r, Hlow, Hr, decide_True by lia; reflexivity|]. replace (i + Z.of_nat (S m)) with (i + 1 + Z.of_nat m) by lia. apply Hg, Hm.
  - intros [|m] g Hm; [injection Hm as <-; cbn; unfold wrap; rewrite Z.mod_small by (cbn; lia); lia|]. cbn [take sizes foldr with_offset fieldSize]. fold (sizes (take m gs)). rewrite (Hoff m g Hm). lia.
  - rewrite Hk'. exact Hk.
  - rewrite Hu'. exact Hu.
  - intros j Hj. rewrite Hlow, Hr, decide_False by lia. reflexivity.
Qed.

Lemma set_key_fields_layout t n fs : definition (attr t) = tableAttributeDefinition -> length (tagValue (attr t)) = 20%nat -> maxKeySize (keys t) < 256 ->
  fields_from t 0 fs -> Forall int_field fs -> Z.of_nat (length fs) = n -> 1 <= n <= 32 -> n <= num_fields t + 1 -> sizes fs < 256 ->
  exists t' gs, set_key_fields n t = Some (0, t') /\ int_keyed t' gs /\ Forall2 same_field fs gs.
Proof.
  intros Ha Hl Hm Hat Hf En Hn Hnum Hs. unfold set_key_fields. rewrite (proj2 (Z.ltb_ge n 0)), (proj2 (Z.leb_gt n 0)), (proj2 (Z.ltb_ge 32 n)), (proj2 (Z.ltb_ge (num_fields t + 1) n)) by lia.
  unfold set_tag_uint32. rewrite Ha. change ((_ =? DField.Signed) || _) with true. cbv iota. destruct (set_tag_shape (attr t) 3 (VInt n) Hl ltac:(lia)) as (a & -> & _ & _). cbn [mbind option_bind].
  destruct (key_loop_spec fs 0 0 0 2 (set_attr a t)) as (uniq & t' & gs & E & Hsame & Hg & Hoff & Hk & Hu & _); try lia; [exact Hf|exact Hat|].
  replace (Z.to_nat n) with (length fs) by lia. rewrite E. cbn [mbind option_bind Z.add]. rewrite Hk. change (keys (set_attr a t)) with (keys t). rewrite (proj2 (Z.leb_gt 256 (maxKeySize (keys t)))) by lia. cbn [Z.eqb].
  do 2 eexists. split; [reflexivity|]. split; [|exact Hsame]. pose proof (sizes_pos fs Hf). split.
  - cbn. rewrite <- (Forall2_length _ _ _ Hsame). exact En.
  - intros ->. apply Forall2_length in Hsame. cbn in Hsame. lia.
  - intros k f Hkf. exact (Hg k f Hkf).
  - eapply Forall2_Forall_r; [exact Hsame|]. eapply Forall_impl; [exact Hf|]. intros f [Ht Hz] g [E1 E2]. rewrite E1, E2. auto.
  - intros k f Hkf. exact (Hoff k f Hkf).
  - cbn. rewrite (same_field_sizes _ _ Hsame). unfold wrap. apply Z.mod_small. cbn. lia.
Qed.
