(* ===== verification/KeyTheorems.v ===== *)
(** * Theorems on packed keys

    The key under which the cache keeps a row is the packed form of the row's
    key fields.  The layout a table gives them, what a job packs for a request,
    and that two requests mean the same row exactly when their keys compare
    equal. *)

From S2P Require Import Prelude DtcHash Codec CodecSpec Sections TableDef TableDefSpec Fields Request Packet PacketSafe PackedKey PackedKeySpec.

(** ** A table with a key of two fields, for the witnesses *)

Definition pair_fields : list (Z * list Z * Z * Z) := [(0, [107], DField.Signed, 4); (1, [97], DField.Unsigned, 2); (2, [115], DField.String, 100)].

Definition pair_plain : DTCTableDefinition := match add_fields pair_fields [] (new_table 3) with Some (_, t) => t | None => new_table 0 end.
Definition pair_table : DTCTableDefinition := match set_key_fields 2 pair_plain with Some (_, t) => t | None => new_table 0 end.
Definition pair_keys (t : DTCTableDefinition) : list FieldDefinition := take 2 (TableDef.fieldList (names t)).

Lemma pair_keyed : int_keyed pair_table (pair_keys pair_table).
Proof.
  split; try (vm_compute; (reflexivity || discriminate)).
  - intros [|[|k]] f H; try discriminate; rewrite <- H; vm_compute; reflexivity.
  - repeat constructor; vm_compute; (discriminate || (left; reflexivity) || (right; reflexivity)).
  - intros [|[|k]] f H; try discriminate; injection H as <-; vm_compute; reflexivity.
Qed.

Lemma pair_ints a b : is_s64 a -> is_s64 b -> ints [VInt a; VInt b] [a; b].
Proof. intros Ha Hb. unfold ints. rewrite ! Forall2_cons, Forall2_nil. auto. Qed.

(** A request for the row with the key (-7, 513), the second field as a condition. *)
Definition pair_job : DTCJobOperation :=
  let j := new_job (Some pair_table) TaskRoleServer in
  mkOp (mkJob (stage j) (role j) (table j) (with_request (mkSection requestInfoDefinition 1 1 (VInt (-7) :: replicate 19 VZero)) (infos j)) (codes j)
    (mkParts None (Some (mkFieldValue [mkFV 2 DField.EQ DField.String (VBin (Some [120])); mkFV 1 DField.EQ DField.Unsigned (VInt 513)] 2 0 0)) None None) None true false)
    KeyNull (replicate 8 0) None 0 0 0 0.

(** [set_key_fields] lays the key fields of a table of integers out one
    behind the other: the offset of each is the sum of the sizes before it, and
    [key_format] is the sum of them all. *)
Theorem key_layout (t : DTCTableDefinition) (n : Z) (fs : list FieldDefinition) :
  definition (attr t) = tableAttributeDefinition -> length (tagValue (attr t)) = 20%nat -> maxKeySize (keys t) < 256 ->
  fields_from t 0 fs -> Forall int_field fs -> Z.of_nat (length fs) = n -> 1 <= n <= 32 -> n <= num_fields t + 1 -> sizes fs < 256 ->
  exists t' gs, set_key_fields n t = Some (0, t') /\ int_keyed t' gs /\ Forall2 same_field fs gs.
Proof. apply set_key_fields_layout. Qed.

Lemma key_layout_witness : exists t' gs, set_key_fields 2 pair_plain = Some (0, t') /\ int_keyed t' gs /\ Forall2 same_field (pair_keys pair_plain) gs.
Proof.
  apply key_layout; try (vm_compute; (reflexivity || discriminate)).
  - intros [|[|k]] f H; try discriminate; rewrite <- H; vm_compute; reflexivity.
  - repeat constructor; vm_compute; (discriminate || (left; reflexivity) || (right; reflexivity)).
  - lia.
Defined.

(** C22: [TaskPackedKey::build_packed_key] and [unpack_key] are inverse to each
    other on the key's components, and [DTCHash]'s comparison of two packed keys
    says equal exactly when the components are: strings without regard to the case
    of their letters, binary keys byte by byte, integers as numbers. *)
Theorem packed_key_identity (t : DTCTableDefinition) (vs ws : list DTCValue) (buf buf' k k' : list Z) : keyed t -> key_typed t vs -> key_typed t ws ->
  build_packed_key t vs buf = Some (0, k) -> build_packed_key t ws buf' = Some (0, k') ->
  unpack_key t k = key_value t vs /\ (key_cmp (key_format t) (key_mem k) (key_mem k') = 0 <-> key_value t vs = key_value t ws).
Proof. apply packed_identity. Qed.

(** Tables with one key field of characters. *)
Definition text_table (type : Z) : DTCTableDefinition :=
  match add_fields [(0, [107], type, 10); (1, [97], DField.Unsigned, 2)] [] (new_table 2) with
  | Some (_, t) => match set_key_fields 1 t with Some (_, t) => t | None => new_table 0 end
  | None => new_table 0
  end.

Lemma text_keyed type : string_type type -> keyed (text_table type).
Proof.
  intros Ht. right. destruct Ht as [-> | ->]; (split; [vm_compute; reflexivity|]; eexists; split; [vm_compute; reflexivity|]; split; [|cbn; lia]); [left|right]; reflexivity.
Qed.

Lemma text_typed type s : string_type type -> Forall is_byte s -> key_typed (text_table type) [VBin (Some s)].
Proof. intros [-> | ->] Hs; exists (VBin (Some s)), (Some s); (split; [reflexivity|]; split; [reflexivity|exact Hs]). Qed.

(** Two pairs of numbers; the strings "aB" and "Ab" as a string and as a binary key. *)
Lemma packed_key_identity_witness :
  (unpack_key pair_table [249; 255; 255; 255; 1; 2; 0; 0] = Some [VInt (-7); VInt 513] /\ key_cmp (key_format pair_table) (key_mem [249; 255; 255; 255; 1; 2; 0; 0]) (key_mem [249; 255; 255; 255; 2; 2]) <> 0) /\
  (unpack_key (text_table DField.String) [2; 97; 98] = Some [VBin (Some [97; 98])] /\ key_cmp 0 (key_mem [2; 97; 98]) (key_mem [2; 97; 98; 0]) = 0) /\
  (unpack_key (text_table DField.Binary) [2; 97; 66] = Some [VBin (Some [97; 66])] /\ key_cmp 0 (key_mem [2; 97; 66]) (key_mem [2; 65; 98; 0]) <> 0).
Proof.
  assert (Ht : forall a b, is_s64 a -> is_s64 b -> key_typed pair_table [VInt a; VInt b]) by (intros a b Ha Hb; exists [a; b]; split; [apply pair_ints; assumption|reflexivity]).
  assert (Hb : Forall is_byte [97; 66] /\ Forall is_byte [65; 98]) by (split; repeat constructor; unfold is_byte; lia). destruct Hb as [Hb Hb'].
  assert (Hs : string_type DField.String) by (left; reflexivity). assert (Hn : string_type DField.Binary) by (right; reflexivity). split; [|split].
  - destruct (packed_key_identity pair_table [VInt (-7); VInt 513] [VInt (-7); VInt 514] (replicate 8 0) (replicate 6 9)
      [249; 255; 255; 255; 1; 2; 0; 0] [249; 255; 255; 255; 2; 2]) as [Hu Hi];
      [left; exists (pair_keys pair_table); exact pair_keyed|apply Ht; unfold is_s64; lia|apply Ht; unfold is_s64; lia|vm_compute; reflexivity|vm_compute; reflexivity|].
    split; [exact Hu|]. intros E. apply Hi in E. discriminate E.
  - destruct (packed_key_identity (text_table DField.String) [VBin (Some [97; 66])] [VBin (Some [65; 98])] (replicate 3 0) (replicate 4 0) [2; 97; 98] [2; 97; 98; 0]) as [Hu Hi];
      [exact (text_keyed _ Hs)|exact (text_typed _ _ Hs Hb)|exact (text_typed _ _ Hs Hb')|vm_compute; reflexivity|vm_compute; reflexivity|].
    split; [exact Hu|]. apply Hi. vm_compute. reflexivity.
  - destruct (packed_key_identity (text_table DField.Binary) [VBin (Some [97; 66])] [VBin (Some [65; 98])] (replicate 3 0) (replicate 4 0) [2; 97; 66] [2; 65; 98; 0]) as [Hu Hi];
      [exact (text_keyed _ Hn)|exact (text_typed _ _ Hn Hb)|exact (text_typed _ _ Hn Hb')|vm_compute; reflexivity|vm_compute; reflexivity|].
    split; [exact Hu|]. intros E. apply Hi in E. discriminate E.
Defined.

(** C23: A job whose request carries one value for every integer key field (the
    first as the key, the others among its conditions, or among its values when
    it inserts) builds its packed key without error, and unpacking that key gives
    the values back in the order of the fields. *)
Theorem job_key_complete (mem_ok : Z -> bool) (t : DTCTableDefinition) (o : DTCJobOperation) (fs : list FieldDefinition) (vs : list DTCValue) (zs : list Z) :
  (forall n, mem_ok n = true) -> int_keyed t fs -> ints vs zs -> keys_fit fs zs -> key_fields t < 32 -> key_format t < 256 -> key_ready t o -> carries t o vs ->
  exists o' k, build_key mem_ok t o = Some (0, o') /\ packed_key o' = Some k /\ unpack_key t k = Some (VInt <$> zs).
Proof.
  intros Hm K Hv Hf Hn Hk Hr Hc. destruct (job_key_ints mem_ok t Hm o fs vs zs K Hv Hf Hn Hk Hr Hc) as (o' & k & Eb & Ep & Hp).
  exists o', k. split; [exact Eb|]. split; [exact Ep|]. apply packed_unpack, Hp.
Qed.

Lemma job_key_complete_witness : exists o' k, build_key (fun _ => true) pair_table pair_job = Some (0, o') /\ packed_key o' = Some k /\ unpack_key pair_table k = Some [VInt (-7); VInt 513].
Proof.
  apply (job_key_complete (fun _ => true) pair_table pair_job (pair_keys pair_table) [VInt (-7); VInt 513] [-7; 513]).
  - reflexivity.
  - exact pair_keyed.
  - apply pair_ints; unfold is_s64; lia.
  - apply (bool_decide_eq_true_1 _). vm_compute. reflexivity.
  - vm_compute. reflexivity.
  - vm_compute. reflexivity.
  - split; [split; reflexivity|]. split; [reflexivity|discriminate].
  - split; [reflexivity|]. right. eexists. split; [reflexivity|]. split; [reflexivity|]. split; [vm_compute; reflexivity|].
    apply Forall_singleton. intros _ z [= <-]. lia.
Defined.
