(* ===== verification/TTree.v ===== *)
(** * The T-tree (src/core/tree/t_tree.h, src/core/tree/t_tree.cc)

    A balanced search tree over records in the shared memory, with up to
    [PAGE_SIZE] records in a node.  The nodes are blocks of the allocator and
    refer to each other and to the records by handle; [nodes] is the memory of
    the nodes.  Reading or writing a node that is not there, or an item outside
    of its array, is [None].

    A key is what the callback [pfComp] is called with; the value it returns is
    kept in an [int] at every call but one.  Functions that recurse take fuel,
    a bound on the depth of the calls. *)

From S2P Require Import Prelude PtMalloc MallocBase.

Definition EC_NO_MEM : Z := 2041.
Definition EC_KEY_EXIST : Z := 2042.

(** ** Nodes *)

Definition PAGE_SIZE : Z := 20.
Definition MIN_ITEMS : Z := PAGE_SIZE - 2.

Record TtreeNode := mkTtreeNode {
  m_hLeft : Z;
  m_hRight : Z;
  m_chBalance : Z;
  m_ushNItems : Z;
  m_ahItems : list Z
}.

(** [sizeof(TtreeNode)], a packed struct. *)
Definition sizeof_TtreeNode : Z := 8 + 8 + 1 + 2 + 8 * PAGE_SIZE.

Definition set_left (h : Z) (p : TtreeNode) : TtreeNode := mkTtreeNode h (m_hRight p) (m_chBalance p) (m_ushNItems p) (m_ahItems p).
Definition set_right (h : Z) (p : TtreeNode) : TtreeNode := mkTtreeNode (m_hLeft p) h (m_chBalance p) (m_ushNItems p) (m_ahItems p).
Definition set_balance (b : Z) (p : TtreeNode) : TtreeNode := mkTtreeNode (m_hLeft p) (m_hRight p) b (m_ushNItems p) (m_ahItems p).
Definition set_count (n : Z) (p : TtreeNode) : TtreeNode := mkTtreeNode (m_hLeft p) (m_hRight p) (m_chBalance p) (wrap 16 n) (m_ahItems p).
Definition set_items (a : list Z) (p : TtreeNode) : TtreeNode := mkTtreeNode (m_hLeft p) (m_hRight p) (m_chBalance p) (m_ushNItems p) a.

Definition do_init : TtreeNode := mkTtreeNode INVALID_HANDLE INVALID_HANDLE 0 0 (replicate (Z.to_nat PAGE_SIZE) INVALID_HANDLE).

(** The array [m_ahItems]. *)
Definition item (a : list Z) (i : Z) : option Z := if 0 <=? i then a !! Z.to_nat i else None.
Definition put_item (i x : Z) (a : list Z) : option (list Z) :=
  if (0 <=? i) && (i <? Z.of_nat (length a)) then Some (<[Z.to_nat i := x]> a) else None.

(** [for (...; n times; i--) m_ahItems[i] = m_ahItems[i - 1]] *)
Fixpoint move_up (n : nat) (i : Z) (a : list Z) : option (list Z) :=
  match n with
  | O => Some a
  | S n => x ← item a (i - 1); a ← put_item i x a; move_up n (i - 1) a
  end.

(** [for (...; n times; i++) m_ahItems[i - 1] = m_ahItems[i]] *)
Fixpoint move_down (n : nat) (i : Z) (a : list Z) : option (list Z) :=
  match n with
  | O => Some a
  | S n => x ← item a i; a ← put_item (i - 1) x a; move_down n (i + 1) a
  end.

(** [for (i = cnt; i > pos; i--) ...; m_ahItems[pos] = hRecord; m_ushNItems++] *)
Definition insert_item (pos hRecord : Z) (p : TtreeNode) : option TtreeNode :=
  a ← move_up (Z.to_nat (m_ushNItems p - pos)) (m_ushNItems p) (m_ahItems p);
  a ← put_item pos hRecord a;
  Some (set_count (m_ushNItems p + 1) (set_items a p)).

(** ** The memory of the nodes *)

Record Tree (S : Type) := mkTree { mem : S; nodes : gmap Z TtreeNode }.
Arguments mkTree {S}.
Arguments mem {S}.
Arguments nodes {S}.

Section Ttree.
Context {S K C : Type} `{MallocBase S}.

(** [pfComp(pchKey, pCmpCookie, stMalloc, hOtherKey)] and [convert_cvalue]:
    they read the records. *)
Context (pfComp : K -> S -> Z -> Z) (convert_cvalue : S -> Z -> K).


(** [int iDiff = pfComp(...)] *)
Definition diff (k : K) (t : Tree S) (x : Z) : Z := sext 32 (wrap 32 (pfComp k (mem t) x)).

Definition put (h : Z) (p : TtreeNode) (t : Tree S) : Tree S := mkTree (mem t) (<[h := p]> (nodes t)).
Definition alter (h : Z) (f : TtreeNode -> TtreeNode) (t : Tree S) : option (Tree S) := p ← nodes t !! h; Some (put h (f p) t).

Definition Alloc (hRecord : Z) (t : Tree S) : option (Z * Tree S) :=
  '(h, s) ← m_Malloc sizeof_TtreeNode (mem t);
  let t := mkTree s (nodes t) in
  if h =? INVALID_HANDLE then Some (INVALID_HANDLE, t)
  else a ← put_item 0 hRecord (m_ahItems do_init); Some (h, put h (set_count 1 (set_items a do_init)) t).

(** [stMalloc.Free(hNode)] *)
Definition free_node (h : Z) (t : Tree S) : Tree S := mkTree (snd (m_Free h (mem t))) (delete h (nodes t)).

(** ** do_insert *)

(** The left branch of [hNode] has grown.  The result, and the new [hNode]. *)
Definition grown_left (hNode hLeft : Z) (t : Tree S) : option (Z * Z * Tree S) :=
  p ← nodes t !! hNode;
  if 0 <? m_chBalance p then Some (0, hNode, put hNode (set_balance 0 p) t)
  else if m_chBalance p =? 0 then Some (1, hNode, put hNode (set_balance (-1) p) t)
  else
    pstLeft ← nodes t !! hLeft;
    if m_chBalance pstLeft <? 0 then
      t ← alter hNode (set_left (m_hRight pstLeft)) t;
      t ← alter hLeft (set_right hNode) t;
      t ← alter hNode (set_balance 0) t;
      t ← alter hLeft (set_balance 0) t;
      Some (0, hLeft, t)
    else
      let hRight := m_hRight pstLeft in
      pstRight ← nodes t !! hRight;
      t ← alter hLeft (set_right (m_hLeft pstRight)) t;
      t ← alter hRight (set_left hLeft) t;
      t ← alter hNode (set_left (m_hRight pstRight)) t;
      t ← alter hRight (set_right hNode) t;
      t ← alter hNode (set_balance (if m_chBalance pstRight <? 0 then 1 else 0)) t;
      t ← alter hLeft (set_balance (if 0 <? m_chBalance pstRight then -1 else 0)) t;
      t ← alter hRight (set_balance 0) t;
      Some (0, hRight, t).

Definition grown_right (hNode hRight : Z) (t : Tree S) : option (Z * Z * Tree S) :=
  p ← nodes t !! hNode;
  if m_chBalance p <? 0 then Some (0, hNode, put hNode (set_balance 0 p) t)
  else if m_chBalance p =? 0 then Some (1, hNode, put hNode (set_balance 1 p) t)
  else
    pstRight ← nodes t !! hRight;
    if 0 <? m_chBalance pstRight then
      t ← alter hNode (set_right (m_hLeft pstRight)) t;
      t ← alter hRight (set_left hNode) t;
      t ← alter hNode (set_balance 0) t;
      t ← alter hRight (set_balance 0) t;
      Some (0, hRight, t)
    else
      let hLeft := m_hLeft pstRight in
      pstLeft ← nodes t !! hLeft;
      t ← alter hRight (set_left (m_hRight pstLeft)) t;
      t ← alter hLeft (set_right hRight) t;
      t ← alter hNode (set_right (m_hLeft pstLeft)) t;
      t ← alter hLeft (set_left hNode) t;
      t ← alter hNode (set_balance (if 0 <? m_chBalance pstLeft then -1 else 0)) t;
      t ← alter hRight (set_balance (if m_chBalance pstLeft <? 0 then 1 else 0)) t;
      t ← alter hLeft (set_balance 0) t;
      Some (0, hLeft, t).

(** The loop [while (iLeft < iRight)]: an item that is equal, or [iRight]. *)
Fixpoint bisect (fuel : nat) (k : K) (t : Tree S) (a : list Z) (iLeft iRight : Z) : option (Z + Z) :=
  if negb (iLeft <? iRight) then Some (inr iRight)
  else match fuel with
  | O => None
  | Datatypes.S fuel =>
      let i := Z.shiftr (iLeft + iRight) 1 in
      x ← item a i;
      let iDiff := diff k t x in
      if iDiff =? 0 then Some (inl i)
      else if 0 <? iDiff then bisect fuel k t a (i + 1) iRight
      else bisect fuel k t a iLeft i
  end.

(** The item that has to leave a full node for [hRecord], and the items left. *)
Definition displace (iRight hRecord : Z) (p : TtreeNode) : option (Z * list Z) :=
  let n := m_ushNItems p in
  if 0 <=? m_chBalance p then
    hReInsert ← item (m_ahItems p) 0;
    a ← move_down (Z.to_nat (iRight - 1)) 1 (m_ahItems p);
    a ← put_item (iRight - 1) hRecord a;
    Some (hReInsert, a)
  else
    hReInsert ← item (m_ahItems p) (n - 1);
    a ← move_up (Z.to_nat (n - 1 - iRight)) (n - 1) (m_ahItems p);
    a ← put_item iRight hRecord a;
    Some (hReInsert, a).

(** The result, the new [hNode] and [isAllocNode]. *)
Definition insertion := Z -> K -> Z -> bool -> Tree S -> option (Z * Z * bool * Tree S).

(** [if (iDiff <= 0)]; [insert] is the recursive call. *)
Definition insert_before (insert : insertion) (hNode : Z) (k : K) (hRecord iDiff : Z) (p : TtreeNode) (isAllocNode : bool) (t : Tree S) : option (Z * Z * bool * Tree S) :=
  let hLeft := m_hLeft p in
  if ((hLeft =? INVALID_HANDLE) || (iDiff =? 0)) && (m_ushNItems p <? PAGE_SIZE) then
    p ← insert_item 0 hRecord p;
    Some (0, hNode, isAllocNode, put hNode p t)
  else if hLeft =? INVALID_HANDLE then
    '(hLeft, t) ← Alloc hRecord t;
    if hLeft =? INVALID_HANDLE then Some (-1, hNode, isAllocNode, t)
    else
      t ← alter hNode (set_left hLeft) t;
      '(r, hNode, t) ← grown_left hNode hLeft t;
      Some (r, hNode, true, t)
  else
    '(iGrow, hChild, isAllocNode, t) ← insert hLeft k hRecord isAllocNode t;
    if iGrow <? 0 then Some (iGrow, hNode, isAllocNode, t)
    else
      t ← (if negb (hChild =? hLeft) then alter hNode (set_left hChild) t else Some t);
      if iGrow =? 0 then Some (0, hNode, isAllocNode, t)
      else '(r, hNode, t) ← grown_left hNode hChild t; Some (r, hNode, isAllocNode, t).

(** [if (iDiff >= 0)] *)
Definition insert_behind (insert : insertion) (hNode : Z) (k : K) (hRecord iDiff : Z) (p : TtreeNode) (isAllocNode : bool) (t : Tree S) : option (Z * Z * bool * Tree S) :=
  let ushNodeCnt := m_ushNItems p in
  let hRight := m_hRight p in
  if ((hRight =? INVALID_HANDLE) || (iDiff =? 0)) && (m_ushNItems p <? PAGE_SIZE) then
    a ← put_item ushNodeCnt hRecord (m_ahItems p);
    Some (0, hNode, isAllocNode, put hNode (set_count (ushNodeCnt + 1) (set_items a p)) t)
  else if hRight =? INVALID_HANDLE then
    '(hRight, t) ← Alloc hRecord t;
    if hRight =? INVALID_HANDLE then Some (-1, hNode, isAllocNode, t)
    else
      t ← alter hNode (set_right hRight) t;
      '(r, hNode, t) ← grown_right hNode hRight t;
      Some (r, hNode, true, t)
  else
    '(iGrow, hChild, isAllocNode, t) ← insert hRight k hRecord isAllocNode t;
    if iGrow <? 0 then Some (iGrow, hNode, isAllocNode, t)
    else
      t ← (if negb (hChild =? hRight) then alter hNode (set_right hChild) t else Some t);
      if iGrow =? 0 then Some (0, hNode, isAllocNode, t)
      else '(r, hNode, t) ← grown_right hNode hChild t; Some (r, hNode, isAllocNode, t).

(** Between the first and the last item. *)
Definition insert_between (insert : insertion) (hNode : Z) (k : K) (hRecord : Z) (p : TtreeNode) (isAllocNode : bool) (t : Tree S) : option (Z * Z * bool * Tree S) :=
  found ← bisect (Z.to_nat PAGE_SIZE) k t (m_ahItems p) 1 (m_ushNItems p - 1);
  match found with
  | inl _ => Some (-2, hNode, isAllocNode, t)
  | inr iRight =>
      if m_ushNItems p <? PAGE_SIZE then
        p ← insert_item iRight hRecord p;
        Some (0, hNode, isAllocNode, put hNode p t)
      else
        '(hReInsert, a) ← displace iRight hRecord p;
        let t := put hNode (set_items a p) t in
        '(iRet, hNode', isAllocNode, t) ← insert hNode (convert_cvalue (mem t) hReInsert) hReInsert isAllocNode t;
        t ← (if iRet <? 0 then alter hNode (set_items (m_ahItems p)) t else Some t);
        Some (iRet, hNode', isAllocNode, t)
  end.

(** [TtreeNode::do_insert] *)
Fixpoint node_insert (fuel : nat) (hNode : Z) (k : K) (hRecord : Z) (isAllocNode : bool) (t : Tree S) : option (Z * Z * bool * Tree S) :=
  match fuel with
  | O => None
  | Datatypes.S fuel =>
      p ← nodes t !! hNode;
      x ← item (m_ahItems p) 0;
      let iDiff := diff k t x in
      if iDiff =? 0 then Some (-2, hNode, isAllocNode, t)
      else if iDiff <=? 0 then insert_before (node_insert fuel) hNode k hRecord iDiff p isAllocNode t
      else
        x ← item (m_ahItems p) (m_ushNItems p - 1);
        let iDiff := diff k t x in
        if iDiff =? 0 then Some (-2, hNode, isAllocNode, t)
        else if 0 <=? iDiff then insert_behind (node_insert fuel) hNode k hRecord iDiff p isAllocNode t
        else insert_between (node_insert fuel) hNode k hRecord p isAllocNode t
  end.

(** ** Delete *)

(** The left branch of [hNode] has shrunk.  1 when the node's height has, too. *)
Definition balance_left_branch (hNode : Z) (t : Tree S) : option (Z * Z * Tree S) :=
  p ← nodes t !! hNode;
  if m_chBalance p <? 0 then Some (1, hNode, put hNode (set_balance 0 p) t)
  else if m_chBalance p =? 0 then Some (0, hNode, put hNode (set_balance 1 p) t)
  else
    let hRight := m_hRight p in
    pstRight ← nodes t !! hRight;
    if 0 <=? m_chBalance pstRight then
      t ← alter hNode (set_right (m_hLeft pstRight)) t;
      t ← alter hRight (set_left hNode) t;
      if m_chBalance pstRight =? 0 then
        t ← alter hNode (set_balance 1) t;
        t ← alter hRight (set_balance (-1)) t;
        Some (0, hRight, t)
      else
        t ← alter hNode (set_balance 0) t;
        t ← alter hRight (set_balance 0) t;
        Some (1, hRight, t)
    else
      let hLeft := m_hLeft pstRight in
      pstLeft ← nodes t !! hLeft;
      t ← alter hRight (set_left (m_hRight pstLeft)) t;
      t ← alter hLeft (set_right hRight) t;
      t ← alter hNode (set_right (m_hLeft pstLeft)) t;
      t ← alter hLeft (set_left hNode) t;
      t ← alter hNode (set_balance (if 0 <? m_chBalance pstLeft then -1 else 0)) t;
      t ← alter hRight (set_balance (if m_chBalance pstLeft <? 0 then 1 else 0)) t;
      t ← alter hLeft (set_balance 0) t;
      Some (1, hLeft, t).

Definition balance_right_branch (hNode : Z) (t : Tree S) : option (Z * Z * Tree S) :=
  p ← nodes t !! hNode;
  if 0 <? m_chBalance p then Some (1, hNode, put hNode (set_balance 0 p) t)
  else if m_chBalance p =? 0 then Some (0, hNode, put hNode (set_balance (-1) p) t)
  else
    let hLeft := m_hLeft p in
    pstLeft ← nodes t !! hLeft;
    if m_chBalance pstLeft <=? 0 then
      t ← alter hNode (set_left (m_hRight pstLeft)) t;
      t ← alter hLeft (set_right hNode) t;
      if m_chBalance pstLeft =? 0 then
        t ← alter hNode (set_balance (-1)) t;
        t ← alter hLeft (set_balance 1) t;
        Some (0, hLeft, t)
      else
        t ← alter hNode (set_balance 0) t;
        t ← alter hLeft (set_balance 0) t;
        Some (1, hLeft, t)
    else
      let hRight := m_hRight pstLeft in
      pstRight ← nodes t !! hRight;
      t ← alter hLeft (set_right (m_hLeft pstRight)) t;
      t ← alter hRight (set_left hLeft) t;
      t ← alter hNode (set_left (m_hRight pstRight)) t;
      t ← alter hRight (set_right hNode) t;
      t ← alter hNode (set_balance (if m_chBalance pstRight <? 0 then 1 else 0)) t;
      t ← alter hLeft (set_balance (if 0 <? m_chBalance pstRight then -1 else 0)) t;
      t ← alter hRight (set_balance 0) t;
      Some (1, hRight, t).

(** The loop over the items; here alone the comparison is not cut to an [int]. *)
Fixpoint find_item (n : nat) (i : Z) (k : K) (t : Tree S) (a : list Z) : option (option Z) :=
  match n with
  | O => Some None
  | Datatypes.S n => x ← item a i; if pfComp k (mem t) x =? 0 then Some (Some i) else find_item n (i + 1) k t a
  end.

(** The node at the end of a branch. *)
Fixpoint rightmost (fuel : nat) (h : Z) (t : Tree S) : option TtreeNode :=
  match fuel with
  | O => None
  | Datatypes.S fuel => p ← nodes t !! h; if negb (m_hRight p =? INVALID_HANDLE) then rightmost fuel (m_hRight p) t else Some p
  end.

Fixpoint leftmost (fuel : nat) (h : Z) (t : Tree S) : option TtreeNode :=
  match fuel with
  | O => None
  | Datatypes.S fuel => p ← nodes t !! h; if negb (m_hLeft p =? INVALID_HANDLE) then leftmost fuel (m_hLeft p) t else Some p
  end.

(** What follows the deletion in the left and the right branch. *)
Definition shrunk_left (hNode hLeft iRet hChild : Z) (t : Tree S) : option (Z * Z * Tree S) :=
  if iRet <? -1 then Some (iRet, hNode, t)
  else
    t ← (if negb (hChild =? hLeft) then alter hNode (set_left hChild) t else Some t);
    if 0 <? iRet then balance_left_branch hNode t else Some (iRet, hNode, t).

Definition shrunk_right (hNode hRight iRet hChild : Z) (t : Tree S) : option (Z * Z * Tree S) :=
  if iRet <? -1 then Some (iRet, hNode, t)
  else
    t ← (if negb (hChild =? hRight) then alter hNode (set_right hChild) t else Some t);
    if 0 <? iRet then balance_right_branch hNode t else Some (iRet, hNode, t).

(** The result, the new [hNode] and [isFreeNode]. *)
Definition deletion := Z -> K -> bool -> Tree S -> option (Z * Z * bool * Tree S).

(** Item [i] leaves the node: a node that would have too few items takes one
    from the end of a branch.  [delete] is the recursive call. *)
Definition give_item (fuel : nat) (delete : deletion) (hNode i : Z) (p : TtreeNode) (isFreeNode : bool) (t : Tree S) : option (Z * Z * bool * Tree S) :=
  let ushNodeCnt := m_ushNItems p in
  let hLeft := m_hLeft p in
  let hRight := m_hRight p in
  if (ushNodeCnt <=? MIN_ITEMS) && (negb (hLeft =? INVALID_HANDLE) && (m_chBalance p <=? 0)) then
    pstLeft ← rightmost fuel hLeft t;
    a ← move_up (Z.to_nat i) i (m_ahItems p);
    x ← item (m_ahItems pstLeft) (m_ushNItems pstLeft - 1);
    a ← put_item 0 x a;
    let t := put hNode (set_items a p) t in
    '(iRet, hChild, isFreeNode, t) ← delete hLeft (convert_cvalue (mem t) x) isFreeNode t;
    '(iRet, hNode, t) ← shrunk_left hNode hLeft iRet hChild t;
    Some (iRet, hNode, isFreeNode, t)
  else if (ushNodeCnt <=? MIN_ITEMS) && negb (hRight =? INVALID_HANDLE) then
    pstRight ← leftmost fuel hRight t;
    a ← move_down (Z.to_nat (ushNodeCnt - 1 - i)) (i + 1) (m_ahItems p);
    x ← item (m_ahItems pstRight) 0;
    a ← put_item (ushNodeCnt - 1) x a;
    let t := put hNode (set_items a p) t in
    '(iRet, hChild, isFreeNode, t) ← delete hRight (convert_cvalue (mem t) x) isFreeNode t;
    '(iRet, hNode, t) ← shrunk_right hNode hRight iRet hChild t;
    Some (iRet, hNode, isFreeNode, t)
  else
    a ← move_down (Z.to_nat (ushNodeCnt - 1 - i)) (i + 1) (m_ahItems p);
    Some (0, hNode, isFreeNode, put hNode (set_count (ushNodeCnt - 1) (set_items a p)) t).

(** The only item of a node with at most one branch goes with the node. *)
Definition drop_item (fuel : nat) (delete : deletion) (hNode i : Z) (p : TtreeNode) (isFreeNode : bool) (t : Tree S) : option (Z * Z * bool * Tree S) :=
  if (m_ushNItems p =? 1) && (m_hRight p =? INVALID_HANDLE) then Some (1, m_hLeft p, isFreeNode, free_node hNode t)
  else if (m_ushNItems p =? 1) && (m_hLeft p =? INVALID_HANDLE) then Some (1, m_hRight p, isFreeNode, free_node hNode t)
  else give_item fuel delete hNode i p ((m_ushNItems p =? 1) || isFreeNode) t.

(** The items of the node, then the right branch. *)
Definition delete_rest (fuel : nat) (delete : deletion) (hNode ushNodeCnt : Z) (k : K) (isFreeNode : bool) (t : Tree S) : option (Z * Z * bool * Tree S) :=
  p ← nodes t !! hNode;
  x ← item (m_ahItems p) (ushNodeCnt - 1);
  found ← (if diff k t x <=? 0 then find_item (Z.to_nat ushNodeCnt) 0 k t (m_ahItems p) else Some None);
  match found with
  | Some i => drop_item fuel delete hNode i p isFreeNode t
  | None =>
      if negb (m_hRight p =? INVALID_HANDLE) then
        '(iRet, hChild, isFreeNode, t) ← delete (m_hRight p) k isFreeNode t;
        '(r, hNode, t) ← shrunk_right hNode (m_hRight p) iRet hChild t;
        Some (r, hNode, isFreeNode, t)
      else Some (-1, hNode, isFreeNode, t)
  end.

(** [TtreeNode::Delete]; a key that is not in the left branch is looked for
    in the rest of the tree. *)
Fixpoint node_delete (fuel : nat) (hNode : Z) (k : K) (isFreeNode : bool) (t : Tree S) : option (Z * Z * bool * Tree S) :=
  match fuel with
  | O => None
  | Datatypes.S fuel =>
      p ← nodes t !! hNode;
      let ushNodeCnt := m_ushNItems p in
      x ← item (m_ahItems p) 0;
      if (diff k t x <? 0) && negb (m_hLeft p =? INVALID_HANDLE) then
        '(iRet, hChild, isFreeNode, t) ← node_delete fuel (m_hLeft p) k isFreeNode t;
        '(r, hNode', t) ← shrunk_left hNode (m_hLeft p) iRet hChild t;
        if negb (iRet =? -1) then Some (r, hNode', isFreeNode, t)
        else delete_rest fuel (node_delete fuel) hNode ushNodeCnt k isFreeNode t
      else delete_rest fuel (node_delete fuel) hNode ushNodeCnt k isFreeNode t
  end.

(** ** destory *)

(** [stMalloc.Free(m_ahItems[i])] *)
Definition free_items (xs : list Z) (t : Tree S) : Tree S := mkTree (foldl (fun s x => snd (m_Free x s)) (mem t) xs) (nodes t).

Definition items (p : TtreeNode) : option (list Z) :=
  if m_ushNItems p <=? Z.of_nat (length (m_ahItems p)) then Some (take (Z.to_nat (m_ushNItems p)) (m_ahItems p)) else None.

Fixpoint node_destory (fuel : nat) (hNode : Z) (t : Tree S) : option (Tree S) :=
  match fuel with
  | O => None
  | Datatypes.S fuel =>
      if negb (hNode =? INVALID_HANDLE) then
        p ← nodes t !! hNode;
        xs ← items p;
        t ← node_destory fuel (m_hLeft p) (free_node hNode (free_items xs t));
        node_destory fuel (m_hRight p) t
      else Some t
  end.

Fixpoint node_destroy_size (fuel : nat) (hNode : Z) (t : Tree S) : option Z :=
  match fuel with
  | O => None
  | Datatypes.S fuel =>
      if hNode =? INVALID_HANDLE then Some 0
      else
        p ← nodes t !! hNode;
        xs ← items p;
        let size := foldl (fun n x => wrap 32 (n + m_chunk_size x (mem t))) 0 xs in
        let size := wrap 32 (size + m_chunk_size hNode (mem t)) in
        l ← node_destroy_size fuel (m_hLeft p) t;
        r ← node_destroy_size fuel (m_hRight p) t;
        Some (wrap 32 (wrap 32 (size + l) + r))
  end.

(** ** do_find *)

(** The result and the place of the item. *)
Fixpoint node_find (fuel : nat) (this : Z) (k : K) (t : Tree S) : option (Z * option (Z * Z)) :=
  match fuel with
  | O => None
  | Datatypes.S fuel =>
      p ← nodes t !! this;
      let n := m_ushNItems p in
      if n =? 0 then Some (0, None)
      else
        x ← item (m_ahItems p) 0;
        let iDiff := diff k t x in
        if iDiff =? 0 then Some (1, Some (this, 0))
        else if 0 <? iDiff then
          x ← item (m_ahItems p) (n - 1);
          let iDiff := diff k t x in
          if iDiff =? 0 then Some (1, Some (this, n - 1))
          else if 0 <? iDiff then
            if m_hRight p =? INVALID_HANDLE then Some (0, None) else node_find fuel (m_hRight p) k t
          else
            found ← bisect (Z.to_nat PAGE_SIZE) k t (m_ahItems p) 1 (n - 1);
            match found with
            | inl i => Some (1, Some (this, i))
            | inr _ => Some (0, None)
            end
        else if m_hLeft p =? INVALID_HANDLE then Some (0, None) else node_find fuel (m_hLeft p) k t
  end.

(** [hRecord = *phItem] *)
Definition node_find_record (fuel : nat) (this : Z) (k : K) (t : Tree S) : option (Z * Z) :=
  '(iRet, phItem) ← node_find fuel this k t;
  match phItem with
  | Some (h, i) => p ← nodes t !! h; x ← item (m_ahItems p) i; Some (iRet, if iRet =? 1 then x else INVALID_HANDLE)
  | None => Some (iRet, INVALID_HANDLE)
  end.

Fixpoint node_find_handle (fuel : nat) (this hRecord : Z) (t : Tree S) : option Z :=
  match fuel with
  | O => None
  | Datatypes.S fuel =>
      p ← nodes t !! this;
      if m_ushNItems p =? 0 then Some 0
      else xs ← items p; if existsb (Z.eqb hRecord) xs then Some 1
      else
        r ← (if negb (m_hRight p =? INVALID_HANDLE) then node_find_handle fuel (m_hRight p) hRecord t else Some 0);
        if r =? 1 then Some 1
        else
          l ← (if negb (m_hLeft p =? INVALID_HANDLE) then node_find_handle fuel (m_hLeft p) hRecord t else Some 0);
          if l =? 1 then Some 1 else Some 0
  end.

Fixpoint find_node (fuel : nat) (this : Z) (k : K) (t : Tree S) : option (Z * Z) :=
  match fuel with
  | O => None
  | Datatypes.S fuel =>
      p ← nodes t !! this;
      let n := m_ushNItems p in
      if n =? 0 then Some (0, INVALID_HANDLE)
      else
        x ← item (m_ahItems p) 0;
        let iDiff := diff k t x in
        if iDiff =? 0 then Some (1, this)
        else if 0 <? iDiff then
          x ← item (m_ahItems p) (n - 1);
          let iDiff := diff k t x in
          if iDiff <=? 0 then Some (1, this)
          else if m_hRight p =? INVALID_HANDLE then Some (0, INVALID_HANDLE) else find_node fuel (m_hRight p) k t
        else if m_hLeft p =? INVALID_HANDLE then Some (1, this) else find_node fuel (m_hLeft p) k t
  end.

(** ** Traversals

    [pfVisit(stMalloc, hRecord, pCookie)] reads the record and changes the
    cookie; a result that is not 0 ends the traversal. *)
Context (pfVisit : S -> Z -> C -> Z * C).

Fixpoint visit (xs : list Z) (t : Tree S) (c : C) : Z * C :=
  match xs with
  | [] => (0, c)
  | x :: xs => let '(iRet, c) := pfVisit (mem t) x c in if negb (iRet =? 0) then (iRet, c) else visit xs t c
  end.

Definition skip (c : C) : option (Z * C) := Some (0, c).
Definition follow (a b : C -> option (Z * C)) (c : C) : option (Z * C) :=
  '(iRet, c) ← a c; if negb (iRet =? 0) then Some (iRet, c) else b c.
Definition visiting (xs : list Z) (t : Tree S) (c : C) : option (Z * C) := Some (visit xs t c).

(** [if (hChild != INVALID_HANDLE) hChild->f(...)] *)
Definition branch (f : Z -> C -> option (Z * C)) (hChild : Z) : C -> option (Z * C) :=
  if negb (hChild =? INVALID_HANDLE) then f hChild else skip.

Fixpoint node_forward (fuel : nat) (this : Z) (t : Tree S) (c : C) : option (Z * C) :=
  match fuel with
  | O => None
  | Datatypes.S fuel =>
      p ← nodes t !! this; xs ← items p;
      follow (branch (fun h => node_forward fuel h t) (m_hLeft p)) (follow (visiting xs t) (branch (fun h => node_forward fuel h t) (m_hRight p))) c
  end.

Fixpoint node_backward (fuel : nat) (this : Z) (t : Tree S) (c : C) : option (Z * C) :=
  match fuel with
  | O => None
  | Datatypes.S fuel =>
      p ← nodes t !! this; xs ← items p;
      follow (branch (fun h => node_backward fuel h t) (m_hRight p)) (follow (visiting (reverse xs) t) (branch (fun h => node_backward fuel h t) (m_hLeft p))) c
  end.

Fixpoint node_post_order (fuel : nat) (this : Z) (t : Tree S) (c : C) : option (Z * C) :=
  match fuel with
  | O => None
  | Datatypes.S fuel =>
      p ← nodes t !! this; xs ← items p;
      follow (branch (fun h => node_post_order fuel h t) (m_hRight p)) (follow (branch (fun h => node_post_order fuel h t) (m_hLeft p)) (visiting (reverse xs) t)) c
  end.

(** The items a loop visits: [iDiff <= 0], [iDiff >= 0], and between two keys. *)
Definition ge_key (k : K) (t : Tree S) (x : Z) : bool := diff k t x <=? 0.
Definition le_key (k : K) (t : Tree S) (x : Z) : bool := 0 <=? diff k t x.
Definition within (k k1 : K) (t : Tree S) (x : Z) : bool := (diff k t x <=? 0) && (0 <=? diff k1 t x).
Definition pick (f : Z -> bool) (xs : list Z) : list Z := filter (fun x => Is_true (f x)) xs.

(** The loop of the traversal by distance: it stops behind the last item in reach. *)
Fixpoint reach (k : K) (iInclusion : Z) (t : Tree S) (xs : list Z) : list Z * bool :=
  match xs with
  | [] => ([], true)
  | x :: xs =>
      let iDiff := diff k t x in
      let bound := sext 32 (wrap 32 (0 - iInclusion)) in
      if (iDiff <=? 0) && (bound <=? iDiff) then let '(ys, e) := reach k iInclusion t xs in (x :: ys, e)
      else if iDiff <? bound then ([], false)
      else reach k iInclusion t xs
  end.

Fixpoint forward_distance (fuel : nat) (this : Z) (k : K) (iInclusion : Z) (t : Tree S) (c : C) : option (Z * C) :=
  match fuel with
  | O => None
  | Datatypes.S fuel =>
      p ← nodes t !! this; xs ← items p;
      x0 ← item (m_ahItems p) 0; xn ← item (m_ahItems p) (m_ushNItems p - 1);
      let '(ys, ended) := if diff k t xn <=? 0 then reach k iInclusion t xs else ([], true) in
      follow (if diff k t x0 <? 0 then branch (fun h => forward_distance fuel h k iInclusion t) (m_hLeft p) else skip)
        (follow (visiting ys t) (if ended : bool then branch (fun h => forward_distance fuel h k iInclusion t) (m_hRight p) else skip)) c
  end.

(** [if (iDiff1 < 0 || iDiff > 0) { } else for (...) ...] *)
Definition between (k k1 : K) (t : Tree S) (x0 xn : Z) (xs : list Z) : list Z :=
  if (diff k1 t x0 <? 0) || (0 <? diff k t xn) then [] else pick (within k k1 t) xs.

Fixpoint forward_between (fuel : nat) (this : Z) (k k1 : K) (t : Tree S) (c : C) : option (Z * C) :=
  match fuel with
  | O => None
  | Datatypes.S fuel =>
      p ← nodes t !! this; xs ← items p;
      x0 ← item (m_ahItems p) 0; xn ← item (m_ahItems p) (m_ushNItems p - 1);
      follow (if diff k t x0 <? 0 then branch (fun h => forward_between fuel h k k1 t) (m_hLeft p) else skip)
        (follow (visiting (between k k1 t x0 xn xs) t) (if 0 <=? diff k1 t xn then branch (fun h => forward_between fuel h k k1 t) (m_hRight p) else skip)) c
  end.

Fixpoint forward_ge (fuel : nat) (this : Z) (k : K) (t : Tree S) (c : C) : option (Z * C) :=
  match fuel with
  | O => None
  | Datatypes.S fuel =>
      p ← nodes t !! this; xs ← items p;
      x0 ← item (m_ahItems p) 0; xn ← item (m_ahItems p) (m_ushNItems p - 1);
      follow (if diff k t x0 <? 0 then branch (fun h => forward_ge fuel h k t) (m_hLeft p) else skip)
        (follow (visiting (if diff k t xn <=? 0 then pick (ge_key k t) xs else []) t) (branch (fun h => forward_ge fuel h k t) (m_hRight p))) c
  end.

Fixpoint backward_between (fuel : nat) (this : Z) (k k1 : K) (t : Tree S) (c : C) : option (Z * C) :=
  match fuel with
  | O => None
  | Datatypes.S fuel =>
      p ← nodes t !! this; xs ← items p;
      x0 ← item (m_ahItems p) 0; xn ← item (m_ahItems p) (m_ushNItems p - 1);
      follow (if 0 <? diff k1 t xn then branch (fun h => backward_between fuel h k k1 t) (m_hRight p) else skip)
        (follow (visiting (between k k1 t x0 xn (reverse xs)) t) (if diff k t x0 <=? 0 then branch (fun h => backward_between fuel h k k1 t) (m_hLeft p) else skip)) c
  end.

Fixpoint backward_le (fuel : nat) (this : Z) (k : K) (t : Tree S) (c : C) : option (Z * C) :=
  match fuel with
  | O => None
  | Datatypes.S fuel =>
      p ← nodes t !! this; xs ← items p;
      x0 ← item (m_ahItems p) 0; xn ← item (m_ahItems p) (m_ushNItems p - 1);
      follow (if 0 <? diff k t xn then branch (fun h => backward_le fuel h k t) (m_hRight p) else skip)
        (follow (visiting (if 0 <=? diff k t x0 then pick (le_key k t) (reverse xs) else []) t) (branch (fun h => backward_le fuel h k t) (m_hLeft p))) c
  end.

Fixpoint post_order_between (fuel : nat) (this : Z) (k k1 : K) (t : Tree S) (c : C) : option (Z * C) :=
  match fuel with
  | O => None
  | Datatypes.S fuel =>
      p ← nodes t !! this; xs ← items p;
      x0 ← item (m_ahItems p) 0; xn ← item (m_ahItems p) (m_ushNItems p - 1);
      follow (if diff k t x0 <? 0 then branch (fun h => post_order_between fuel h k k1 t) (m_hLeft p) else skip)
        (follow (if 0 <=? diff k1 t xn then branch (fun h => post_order_between fuel h k k1 t) (m_hRight p) else skip) (visiting (between k k1 t x0 xn xs) t)) c
  end.

Fixpoint post_order_ge (fuel : nat) (this : Z) (k : K) (t : Tree S) (c : C) : option (Z * C) :=
  match fuel with
  | O => None
  | Datatypes.S fuel =>
      p ← nodes t !! this; xs ← items p;
      x0 ← item (m_ahItems p) 0; xn ← item (m_ahItems p) (m_ushNItems p - 1);
      follow (if diff k t x0 <? 0 then branch (fun h => post_order_ge fuel h k t) (m_hLeft p) else skip)
        (follow (branch (fun h => post_order_ge fuel h k t) (m_hRight p)) (visiting (if diff k t xn <=? 0 then pick (ge_key k t) xs else []) t)) c
  end.

Fixpoint post_order_le (fuel : nat) (this : Z) (k : K) (t : Tree S) (c : C) : option (Z * C) :=
  match fuel with
  | O => None
  | Datatypes.S fuel =>
      p ← nodes t !! this; xs ← items p;
      x0 ← item (m_ahItems p) 0; xn ← item (m_ahItems p) (m_ushNItems p - 1);
      follow (if 0 <? diff k t xn then branch (fun h => post_order_le fuel h k t) (m_hRight p) else skip)
        (follow (branch (fun h => post_order_le fuel h k t) (m_hLeft p)) (visiting (if 0 <=? diff k t x0 then pick (le_key k t) (reverse xs) else []) t)) c
  end.

(** ** The class Ttree *)

(** Which text [err_message_] holds. *)
Inductive ErrMessage := NoMessage | AllocFailed | KeyExists | InsertError | InternalError | TreeError.

Record Ttree := mkTtree { root_handle_ : Z; tree : Tree S; err_message_ : ErrMessage }.

Definition with_tree (t : Tree S) (T : Ttree) : Ttree := mkTtree (root_handle_ T) t (err_message_ T).
Definition with_root (h : Z) (t : Tree S) (T : Ttree) : Ttree := mkTtree h t (err_message_ T).
Definition with_error (e : ErrMessage) (t : Tree S) (T : Ttree) : Ttree := mkTtree (root_handle_ T) t e.

(** Calls nest at most twice as deep as there are nodes. *)
Definition depth (t : Tree S) : nat := 2 * size (nodes t) + 1.

Definition new_Ttree (t : Tree S) : Ttree := mkTtree INVALID_HANDLE t NoMessage.
Definition do_attach (hRoot : Z) (T : Ttree) : Ttree := mkTtree hRoot (tree T) (err_message_ T).

Definition first_node (T : Ttree) : option Z :=
  if root_handle_ T =? INVALID_HANDLE then Some INVALID_HANDLE
  else p ← nodes (tree T) !! root_handle_ T; item (m_ahItems p) 0.

(** The result and [isAllocNode]. *)
Definition do_insert (k : K) (hRecord : Z) (isAllocNode : bool) (T : Ttree) : option (Z * bool * Ttree) :=
  if root_handle_ T =? INVALID_HANDLE then
    '(hNode, t) ← Alloc hRecord (tree T);
    if hNode =? INVALID_HANDLE then Some (EC_NO_MEM, isAllocNode, with_error AllocFailed t T)
    else Some (0, true, with_root hNode t T)
  else
    '(iRet, hNode, isAllocNode, t) ← node_insert (depth (tree T)) (root_handle_ T) k hRecord isAllocNode (tree T);
    if iRet =? -2 then Some (EC_KEY_EXIST, isAllocNode, with_error KeyExists t T)
    else if iRet =? -1 then Some (EC_NO_MEM, isAllocNode, with_error AllocFailed t T)
    else if iRet <? 0 then Some (-1, isAllocNode, with_error InsertError t T)
    else Some (0, isAllocNode, with_root hNode t T).

(** The result and [isFreeNode]. *)
Definition Delete (k : K) (isFreeNode : bool) (T : Ttree) : option (Z * bool * Ttree) :=
  if root_handle_ T =? INVALID_HANDLE then Some (0, isFreeNode, T)
  else
    '(iRet, hNode, isFreeNode, t) ← node_delete (depth (tree T)) (root_handle_ T) k isFreeNode (tree T);
    if iRet <? -1 then Some (-1, isFreeNode, with_error InternalError t T)
    else if iRet =? -1 then Some (-1, isFreeNode, with_error TreeError t T)
    else Some (0, isFreeNode, with_root hNode t T).

Definition find_handle (hRecord : Z) (T : Ttree) : option Z :=
  if root_handle_ T =? INVALID_HANDLE then Some 0 else node_find_handle (depth (tree T)) (root_handle_ T) hRecord (tree T).

Definition do_find (k : K) (T : Ttree) : option (Z * Z) :=
  if root_handle_ T =? INVALID_HANDLE then Some (0, INVALID_HANDLE) else node_find_record (depth (tree T)) (root_handle_ T) k (tree T).

Definition do_find_place (k : K) (T : Ttree) : option (Z * option (Z * Z)) :=
  if root_handle_ T =? INVALID_HANDLE then Some (0, None) else node_find (depth (tree T)) (root_handle_ T) k (tree T).

Definition destory (T : Ttree) : option Ttree :=
  t ← node_destory (depth (tree T)) (root_handle_ T) (tree T); Some (with_root INVALID_HANDLE t T).

Definition ask_for_destroy_size (T : Ttree) : option Z := node_destroy_size (depth (tree T)) (root_handle_ T) (tree T).

(** The traversals of the class: nothing to visit in an empty tree. *)
Definition from_root (f : nat -> Z -> Tree S -> C -> option (Z * C)) (T : Ttree) (c : C) : option (Z * C) :=
  if negb (root_handle_ T =? INVALID_HANDLE) then f (depth (tree T)) (root_handle_ T) (tree T) c else Some (0, c).

Definition traverse_forward (T : Ttree) (c : C) : option (Z * C) := from_root node_forward T c.
Definition traverse_backward (T : Ttree) (c : C) : option (Z * C) := from_root node_backward T c.
Definition post_order_traverse (T : Ttree) (c : C) : option (Z * C) := from_root node_post_order T c.
(** [iInclusion] is an [int64_t] here and an [int] in the node. *)
Definition traverse_forward_distance (k : K) (iInclusion : Z) (T : Ttree) (c : C) : option (Z * C) :=
  from_root (fun n h t => forward_distance n h k (sext 32 (wrap 32 iInclusion)) t) T c.
Definition traverse_forward_ge (k : K) (T : Ttree) (c : C) : option (Z * C) := from_root (fun n h t => forward_ge n h k t) T c.
Definition traverse_forward_between (k k1 : K) (T : Ttree) (c : C) : option (Z * C) := from_root (fun n h t => forward_between n h k k1 t) T c.
Definition traverse_backward_le (k : K) (T : Ttree) (c : C) : option (Z * C) := from_root (fun n h t => backward_le n h k t) T c.
Definition traverse_backward_between (k k1 : K) (T : Ttree) (c : C) : option (Z * C) := from_root (fun n h t => backward_between n h k k1 t) T c.
Definition post_order_traverse_between (k k1 : K) (T : Ttree) (c : C) : option (Z * C) := from_root (fun n h t => post_order_between n h k k1 t) T c.
Definition post_order_traverse_ge (k : K) (T : Ttree) (c : C) : option (Z * C) := from_root (fun n h t => post_order_ge n h k t) T c.
Definition post_order_traverse_le (k : K) (T : Ttree) (c : C) : option (Z * C) := from_root (fun n h t => post_order_le n h k t) T c.
End Ttree.

Arguments mkTtree {S}.
Arguments root_handle_ {S}.
Arguments tree {S}.
Arguments err_message_ {S}.
