(* ===== verification/TTreeShape.v ===== *)
(** * The shape of a T-tree

    The nodes at a handle as a tree of their items; what it means for the tree
    to be balanced; the loops over the items of a node; and the rotations, which
    restore the balance and keep the sequence of items. *)

From S2P Require Import Prelude PtMalloc MallocBase TTree.

(** ** Trees in the memory of the nodes *)

Inductive shape := Leaf | Bin (h b : Z) (xs : list Z) (l r : shape).

#[export] Instance leaf_dec (T : shape) : Decision (T = Leaf).
Proof. destruct T; [left; reflexivity|right; discriminate]. Defined.

Definition root (T : shape) : Z := match T with Leaf => INVALID_HANDLE | Bin h _ _ _ _ => h end.
Definition bal (T : shape) : Z := match T with Leaf => 0 | Bin _ b _ _ _ => b end.

Fixpoint height (T : shape) : Z := match T with Leaf => 0 | Bin _ _ _ l r => 1 + Z.max (height l) (height r) end.

(** The nodes and the items from the smallest to the largest. *)
Fixpoint handles (T : shape) : list Z := match T with Leaf => [] | Bin h _ _ l r => handles l ++ h :: handles r end.
Fixpoint contents (T : shape) : list Z := match T with Leaf => [] | Bin _ _ xs l r => contents l ++ xs ++ contents r end.

Definition node_is (m : gmap Z TtreeNode) (h b : Z) (xs : list Z) (hl hr : Z) : Prop :=
  exists a, m !! h = Some (mkTtreeNode hl hr b (Z.of_nat (length xs)) (xs ++ a)) /\ Z.of_nat (length (xs ++ a)) = PAGE_SIZE.

Fixpoint rep (m : gmap Z TtreeNode) (T : shape) : Prop :=
  match T with
  | Leaf => True
  | Bin h b xs l r => h <> INVALID_HANDLE /\ node_is m h b xs (root l) (root r) /\ rep m l /\ rep m r
  end.

(** Between one and [PAGE_SIZE] items in a node, and the stored balance is the
    difference of the heights. *)
Fixpoint balanced (T : shape) : Prop :=
  match T with
  | Leaf => True
  | Bin _ b xs l r => 1 <= Z.of_nat (length xs) <= PAGE_SIZE /\ b = height r - height l /\ -1 <= b <= 1 /\ balanced l /\ balanced r
  end.

Lemma height_nonneg T : 0 <= height T.
Proof. induction T as [|h b xs l IHl r IHr]; cbn; lia. Qed.

Lemma root_leaf m T : rep m T -> root T = INVALID_HANDLE -> T = Leaf.
Proof. destruct T; [reflexivity|]. cbn. intros [Hh _] ->. contradiction. Qed.

Lemma rep_ext m m' T : (forall x, x ∈ handles T -> m' !! x = m !! x) -> rep m T -> rep m' T.
Proof.
  induction T as [|h b xs l IHl r IHr]; [done|]. cbn. intros Hx (Hh & (a & Ea & Ha) & Hl & Hr). split; [exact Hh|]. split.
  - exists a. rewrite Hx by set_solver. auto.
  - split; [apply IHl|apply IHr]; try assumption; intros x Hi; apply Hx; set_solver.
Qed.

Lemma rep_insert m h p T : h ∉ handles T -> rep m T -> rep (<[h := p]> m) T.
Proof. intros Hh. apply rep_ext. intros x Hx. apply lookup_insert_ne. intros <-. contradiction. Qed.

Lemma rep_delete m h T : h ∉ handles T -> rep m T -> rep (delete h m) T.
Proof. intros Hh. apply rep_ext. intros x Hx. apply lookup_delete_ne. intros <-. contradiction. Qed.

Lemma rep_lookup m T x : rep m T -> x ∈ handles T -> exists p, m !! x = Some p.
Proof.
  induction T as [|h b xs l IHl r IHr]; [intros _ H; inversion H|]. cbn. intros (_ & (a & Ea & _) & Hl & Hr) Hx.
  apply elem_of_app in Hx as [Hx|Hx]; [auto|]. apply elem_of_cons in Hx as [->|Hx]; eauto.
Qed.

Lemma root_handles T : T <> Leaf -> root T ∈ handles T.
Proof. destruct T; [contradiction|]. intros _. cbn. set_solver. Qed.

(** The depth of calls is bounded by the number of nodes. *)
Lemma height_handles T : height T <= Z.of_nat (length (handles T)).
Proof. induction T as [|h b xs l IHl r IHr]; cbn; [lia|]. rewrite length_app. cbn. lia. Qed.

Lemma handles_size m T : rep m T -> NoDup (handles T) -> (length (handles T) <= size m)%nat.
Proof.
  intros Hr Hn. rewrite <- (size_list_to_set (C := gset Z) (handles T) Hn), <- size_dom. apply subseteq_size. intros x Hx.
  apply elem_of_list_to_set in Hx. destruct (rep_lookup m T x Hr Hx) as [p Ep]. apply elem_of_dom. eauto.
Qed.

(** A balanced tree is shallow: the height at most doubles the logarithm of
    the number of nodes. *)
Lemma balanced_nodes T : balanced T -> 2 ^ (height T / 2) <= Z.of_nat (length (handles T)) + 1.
Proof.
  induction T as [|h b xs l IHl r IHr]; [intros _; vm_compute; discriminate|]. intros (_ & Eb & Hbb & Hl & Hr). specialize (IHl Hl). specialize (IHr Hr).
  pose proof (height_nonneg l). pose proof (height_nonneg r). cbn [handles height]. rewrite length_app. cbn [length].
  remember (Z.min (height l) (height r)) as n eqn:En. assert (Hh : (1 + Z.max (height l) (height r)) / 2 <= n / 2 + 1).
  { rewrite <- (Z.div_add n 1 2) by lia. apply Z.div_le_mono; lia. }
  assert (0 <= n / 2) by (apply Z.div_pos; lia). assert (Hp : 2 ^ ((1 + Z.max (height l) (height r)) / 2) <= 2 ^ (n / 2 + 1)) by (apply Z.pow_le_mono_r; lia).
  rewrite Z.pow_add_r in Hp by lia.
  assert (2 ^ (n / 2) <= 2 ^ (height l / 2)) by (apply Z.pow_le_mono_r; [lia|]; apply Z.div_le_mono; lia).
  assert (2 ^ (n / 2) <= 2 ^ (height r / 2)) by (apply Z.pow_le_mono_r; [lia|]; apply Z.div_le_mono; lia). lia.
Qed.

(** ** Disjoint handles *)

Lemma nodup_at {A} (x : A) a b : NoDup (a ++ x :: b) -> x ∉ a /\ x ∉ b /\ NoDup a /\ NoDup b /\ (forall y, y ∈ a -> y ∉ b).
Proof. rewrite NoDup_app, NoDup_cons. intros (Ha & Hx & Hb1 & Hb). split_and!; try assumption; [intros Hi|intros y Hi]; specialize (Hx _ Hi); set_solver. Qed.

(** Two and three nodes around their subtrees. *)
Lemma nodup_two {A} (x y : A) a b c : NoDup ((a ++ x :: b) ++ y :: c) \/ NoDup (a ++ x :: (b ++ y :: c)) ->
  (x <> y /\ y <> x) /\ (x ∉ a /\ x ∉ b /\ x ∉ c) /\ (y ∉ a /\ y ∉ b /\ y ∉ c).
Proof.
  assert (E : (a ++ x :: b) ++ y :: c = a ++ x :: (b ++ y :: c)) by (rewrite <- app_assoc; reflexivity). rewrite E. intros [H|H]; revert H;
    (rewrite NoDup_app, NoDup_cons; intros (_ & Ha & Hx & Hb); apply nodup_at in Hb as (Hy1 & Hy2 & _); set_solver).
Qed.

Lemma nodup_three {A} (x y z : A) a b c d : NoDup (a ++ x :: b ++ y :: c ++ z :: d) ->
  (x <> y /\ y <> x /\ x <> z /\ z <> x /\ y <> z /\ z <> y) /\ (x ∉ a /\ x ∉ b /\ x ∉ c /\ x ∉ d) /\ (y ∉ a /\ y ∉ b /\ y ∉ c /\ y ∉ d) /\ (z ∉ a /\ z ∉ b /\ z ∉ c /\ z ∉ d).
Proof.
  rewrite NoDup_app, NoDup_cons. intros (_ & Ha & Hx & Hb). destruct (nodup_two y z b c d (or_intror Hb)) as ((? & ?) & (? & ? & ?) & (? & ? & ?)). set_solver.
Qed.

Ltac off := assumption.

(** Subtrees keep their nodes when other nodes change. *)
Ltac rep_keep := repeat (apply rep_insert; [off|]); assumption.

(** The node at a handle after the updates. *)
Ltac look := repeat first [rewrite lookup_insert_eq | rewrite lookup_insert_ne by off].
Ltac node_now := eexists; split; [cbn [nodes put mem]; look; cbn; first [reflexivity|eassumption]|]; assumption.

Section Rotate.
Context {S : Type} {MB : MallocBase S}.

(** What rebalancing promises: the same nodes and items in order, nothing
    changed around them. *)
Record rebalanced (t : Tree S) (T : shape) (t' : Tree S) (T' : shape) : Prop := {
  rb_rep : rep (nodes t') T';
  rb_handles : handles T' = handles T;
  rb_contents : contents T' = contents T;
  rb_balanced : balanced T';
  rb_mem : mem t' = mem t;
  rb_frame : forall x, x ∉ handles T -> nodes t' !! x = nodes t !! x
}.

(** The updates, one after the other. *)
Ltac updates :=
  repeat (cbn [nodes put]; look; repeat match goal with E : nodes _ !! _ = Some _ |- _ => progress rewrite E end; cbn [mbind option_bind m_hLeft m_hRight m_chBalance]); reflexivity.

Ltac heights :=
  repeat match goal with K : _ <> ?y |- _ => first [is_var y | constr_eq y INVALID_HANDLE]; clear K end;
  cbn [balanced height bal] in *;
  repeat match goal with |- context [if ?x <? ?y then _ else _] => destruct (Z.ltb_spec x y) end; repeat match goal with |- _ /\ _ => split end; try assumption; lia.

Ltac rotated :=
  split; [cbn [rep root]; split_and!; first [assumption|rep_keep|node_now] | cbn; rewrite <- ? app_assoc; cbn; rewrite <- ? app_assoc; reflexivity.. | heights
    | reflexivity | cbn [handles nodes put]; let x := fresh "x" in let Hx := fresh "Hx" in intros x Hx; repeat first [rewrite not_elem_of_app in Hx|rewrite not_elem_of_cons in Hx]; rewrite ? lookup_insert_ne by (intros <-; tauto); reflexivity].

Lemma grown_left_spec t h b xs l r : rep (nodes t) (Bin h b xs l r) -> NoDup (handles (Bin h b xs l r)) -> balanced l -> balanced r ->
  1 <= Z.of_nat (length xs) <= PAGE_SIZE -> b = height r - (height l - 1) -> -1 <= b <= 1 -> l <> Leaf -> height l = 1 \/ bal l <> 0 ->
  exists g t' T', grown_left h (root l) t = Some (g, root T', t') /\ rebalanced t (Bin h b xs l r) t' T' /\
    0 <= g <= 1 /\ height T' = 1 + Z.max (height l - 1) (height r) + g /\ (g = 1 -> bal T' <> 0).
Proof.
  intros (Hh & (a & Ea & Hlen) & Hl & Hr) Hn Bl Br Hx Eb Hb Hnl Hg. unfold grown_left. rewrite Ea. cbn [mbind option_bind m_chBalance].
  destruct l as [|hl bl xl ll lr]; [contradiction|]. destruct Hl as (Hhl & (al & El & Hlenl) & Hll & Hlr). cbn [root].
  destruct Bl as (Bx & Ebl & Hbl & Bll & Blr). pose proof (height_nonneg ll). pose proof (height_nonneg lr). pose proof (height_nonneg r).
  cbn [handles] in Hn. destruct (nodup_two hl h _ _ _ (or_introl Hn)) as ((? & ?) & (? & ? & ?) & (? & ? & ?)).
  cbn [height bal] in *. destruct (Z.ltb_spec 0 b).
  { exists 0, (put h (set_balance 0 (mkTtreeNode hl (root r) b (Z.of_nat (length xs)) (xs ++ a))) t), (Bin h 0 xs (Bin hl bl xl ll lr) r).
    split; [reflexivity|]. split; [rotated|heights]. }
  destruct (Z.eqb_spec b 0).
  { exists 1, (put h (set_balance (-1) (mkTtreeNode hl (root r) b (Z.of_nat (length xs)) (xs ++ a))) t), (Bin h (-1) xs (Bin hl bl xl ll lr) r).
    split; [reflexivity|]. split; [rotated|heights]. }
  rewrite El. cbn [mbind option_bind m_chBalance m_hRight]. unfold alter. destruct (Z.ltb_spec bl 0).
  { eexists 0, _, (Bin hl 0 xl ll (Bin h 0 xs lr r)). split; [updates|]. split; [rotated|heights]. }
  destruct lr as [|hm bm xm ml mr]; [cbn [height] in *; lia|]. destruct Hlr as (Hhm & (am & Em & Hlenm) & Hml & Hmr). destruct Blr as (Bxm & Ebm & Hbm & Bml & Bmr).
  pose proof (height_nonneg ml). pose proof (height_nonneg mr). cbn [handles] in Hn. repeat (rewrite <- ! app_assoc in Hn; cbn [app] in Hn).
  destruct (nodup_three _ _ _ _ _ _ _ Hn) as ((? & ? & ? & ? & ? & ?) & (? & ? & ? & ?) & (? & ? & ? & ?) & (? & ? & ? & ?)). cbn [root].
  eexists 0, _, (Bin hm 0 xm (Bin hl (if 0 <? bm then -1 else 0) xl ll ml) (Bin h (if bm <? 0 then 1 else 0) xs mr r)). split; [updates|]. cbn [height] in *. split; [rotated|heights].
Qed.

Lemma grown_right_spec t h b xs l r : rep (nodes t) (Bin h b xs l r) -> NoDup (handles (Bin h b xs l r)) -> balanced l -> balanced r ->
  1 <= Z.of_nat (length xs) <= PAGE_SIZE -> b = height r - 1 - height l -> -1 <= b <= 1 -> r <> Leaf -> height r = 1 \/ bal r <> 0 ->
  exists g t' T', grown_right h (root r) t = Some (g, root T', t') /\ rebalanced t (Bin h b xs l r) t' T' /\
    0 <= g <= 1 /\ height T' = 1 + Z.max (height l) (height r - 1) + g /\ (g = 1 -> bal T' <> 0).
Proof.
  intros (Hh & (a & Ea & Hlen) & Hl & Hr) Hn Bl Br Hx Eb Hb Hnr Hg. unfold grown_right. rewrite Ea. cbn [mbind option_bind m_chBalance].
  destruct r as [|hr br xr rl rr]; [contradiction|]. destruct Hr as (Hhr & (ar & Er & Hlenr) & Hrl & Hrr). cbn [root].
  destruct Br as (Bx & Ebr & Hbr & Brl & Brr). pose proof (height_nonneg rl). pose proof (height_nonneg rr). pose proof (height_nonneg l).
  cbn [handles] in Hn. destruct (nodup_two h hr _ _ _ (or_intror Hn)) as ((? & ?) & (? & ? & ?) & (? & ? & ?)).
  cbn [height bal] in *. destruct (Z.ltb_spec b 0).
  { exists 0, (put h (set_balance 0 (mkTtreeNode (root l) hr b (Z.of_nat (length xs)) (xs ++ a))) t), (Bin h 0 xs l (Bin hr br xr rl rr)).
    split; [reflexivity|]. split; [rotated|heights]. }
  destruct (Z.eqb_spec b 0).
  { exists 1, (put h (set_balance 1 (mkTtreeNode (root l) hr b (Z.of_nat (length xs)) (xs ++ a))) t), (Bin h 1 xs l (Bin hr br xr rl rr)).
    split; [reflexivity|]. split; [rotated|heights]. }
  rewrite Er. cbn [mbind option_bind m_chBalance m_hLeft]. unfold alter. destruct (Z.ltb_spec 0 br).
  { eexists 0, _, (Bin hr 0 xr (Bin h 0 xs l rl) rr). split; [updates|]. split; [rotated|heights]. }
  destruct rl as [|hm bm xm ml mr]; [cbn [height] in *; lia|]. destruct Hrl as (Hhm & (am & Em & Hlenm) & Hml & Hmr). destruct Brl as (Bxm & Ebm & Hbm & Bml & Bmr).
  pose proof (height_nonneg ml). pose proof (height_nonneg mr). cbn [handles] in Hn. repeat (rewrite <- ! app_assoc in Hn; cbn [app] in Hn).
  destruct (nodup_three _ _ _ _ _ _ _ Hn) as ((? & ? & ? & ? & ? & ?) & (? & ? & ? & ?) & (? & ? & ? & ?) & (? & ? & ? & ?)). cbn [root].
  eexists 0, _, (Bin hm 0 xm (Bin h (if 0 <? bm then -1 else 0) xs l ml) (Bin hr (if bm <? 0 then 1 else 0) xr mr rr)). split; [updates|]. cbn [height] in *. split; [rotated|heights].
Qed.

Lemma balance_left_spec t h b xs l r : rep (nodes t) (Bin h b xs l r) -> NoDup (handles (Bin h b xs l r)) -> balanced l -> balanced r ->
  1 <= Z.of_nat (length xs) <= PAGE_SIZE -> b = height r - (height l + 1) -> -1 <= b <= 1 ->
  exists g t' T', balance_left_branch h t = Some (g, root T', t') /\ rebalanced t (Bin h b xs l r) t' T' /\
    0 <= g <= 1 /\ height T' = 1 + Z.max (height l + 1) (height r) - g.
Proof.
  intros (Hh & (a & Ea & Hlen) & Hl & Hr) Hn Bl Br Hx Eb Hb. unfold balance_left_branch. rewrite Ea. cbn [mbind option_bind m_chBalance m_hRight].
  pose proof (height_nonneg r). pose proof (height_nonneg l). cbn [handles] in Hn. destruct (nodup_at h _ _ Hn) as (? & ? & _). destruct (Z.ltb_spec b 0).
  { exists 1, (put h (set_balance 0 (mkTtreeNode (root l) (root r) b (Z.of_nat (length xs)) (xs ++ a))) t), (Bin h 0 xs l r).
    split; [reflexivity|]. split; [rotated|heights]. }
  destruct (Z.eqb_spec b 0).
  { exists 0, (put h (set_balance 1 (mkTtreeNode (root l) (root r) b (Z.of_nat (length xs)) (xs ++ a))) t), (Bin h 1 xs l r).
    split; [reflexivity|]. split; [rotated|heights]. }
  destruct r as [|hr br xr rl rr]; [cbn [height] in *; lia|]. destruct Hr as (Hhr & (ar & Er & Hlenr) & Hrl & Hrr). cbn [root].
  destruct Br as (Bx & Ebr & Hbr & Brl & Brr). pose proof (height_nonneg rl). pose proof (height_nonneg rr).
  destruct (nodup_two h hr _ _ _ (or_intror Hn)) as ((? & ?) & (? & ? & ?) & (? & ? & ?)). cbn [height] in *.
  rewrite Er. cbn [mbind option_bind m_chBalance m_hLeft]. unfold alter. destruct (Z.leb_spec 0 br).
  { destruct (Z.eqb_spec br 0).
    - eexists 0, _, (Bin hr (-1) xr (Bin h 1 xs l rl) rr). split; [updates|]. split; [rotated|heights].
    - eexists 1, _, (Bin hr 0 xr (Bin h 0 xs l rl) rr). split; [updates|]. split; [rotated|heights]. }
  destruct rl as [|hm bm xm ml mr]; [cbn [height] in *; lia|]. destruct Hrl as (Hhm & (am & Em & Hlenm) & Hml & Hmr). destruct Brl as (Bxm & Ebm & Hbm & Bml & Bmr).
  pose proof (height_nonneg ml). pose proof (height_nonneg mr). cbn [handles] in Hn. repeat (rewrite <- ! app_assoc in Hn; cbn [app] in Hn).
  destruct (nodup_three _ _ _ _ _ _ _ Hn) as ((? & ? & ? & ? & ? & ?) & (? & ? & ? & ?) & (? & ? & ? & ?) & (? & ? & ? & ?)). cbn [root].
  eexists 1, _, (Bin hm 0 xm (Bin h (if 0 <? bm then -1 else 0) xs l ml) (Bin hr (if bm <? 0 then 1 else 0) xr mr rr)). split; [updates|]. cbn [height] in *. split; [rotated|heights].
Qed.

Lemma balance_right_spec t h b xs l r : rep (nodes t) (Bin h b xs l r) -> NoDup (handles (Bin h b xs l r)) -> balanced l -> balanced r ->
  1 <= Z.of_nat (length xs) <= PAGE_SIZE -> b = height r + 1 - height l -> -1 <= b <= 1 ->
  exists g t' T', balance_right_branch h t = Some (g, root T', t') /\ rebalanced t (Bin h b xs l r) t' T' /\
    0 <= g <= 1 /\ height T' = 1 + Z.max (height l) (height r + 1) - g.
Proof.
  intros (Hh & (a & Ea & Hlen) & Hl & Hr) Hn Bl Br Hx Eb Hb. unfold balance_right_branch. rewrite Ea. cbn [mbind option_bind m_chBalance m_hLeft].
  pose proof (height_nonneg r). pose proof (height_nonneg l). cbn [handles] in Hn. destruct (nodup_at h _ _ Hn) as (? & ? & _). destruct (Z.ltb_spec 0 b).
  { exists 1, (put h (set_balance 0 (mkTtreeNode (root l) (root r) b (Z.of_nat (length xs)) (xs ++ a))) t), (Bin h 0 xs l r).
    split; [reflexivity|]. split; [rotated|heights]. }
  destruct (Z.eqb_spec b 0).
  { exists 0, (put h (set_balance (-1) (mkTtreeNode (root l) (root r) b (Z.of_nat (length xs)) (xs ++ a))) t), (Bin h (-1) xs l r).
    split; [reflexivity|]. split; [rotated|heights]. }
  destruct l as [|hl bl xl ll lr]; [cbn [height] in *; lia|]. destruct Hl as (Hhl & (al & El & Hlenl) & Hll & Hlr). cbn [root].
  destruct Bl as (Bx & Ebl & Hbl & Bll & Blr). pose proof (height_nonneg ll). pose proof (height_nonneg lr).
  destruct (nodup_two hl h _ _ _ (or_introl Hn)) as ((? & ?) & (? & ? & ?) & (? & ? & ?)). cbn [height] in *.
  rewrite El. cbn [mbind option_bind m_chBalance m_hRight]. unfold alter. destruct (Z.leb_spec bl 0).
  { destruct (Z.eqb_spec bl 0).
    - eexists 0, _, (Bin hl 1 xl ll (Bin h (-1) xs lr r)). split; [updates|]. split; [rotated|heights].
    - eexists 1, _, (Bin hl 0 xl ll (Bin h 0 xs lr r)). split; [updates|]. split; [rotated|heights]. }
  destruct lr as [|hm bm xm ml mr]; [cbn [height] in *; lia|]. destruct Hlr as (Hhm & (am & Em & Hlenm) & Hml & Hmr). destruct Blr as (Bxm & Ebm & Hbm & Bml & Bmr).
  pose proof (height_nonneg ml). pose proof (height_nonneg mr). cbn [handles] in Hn. repeat (rewrite <- ! app_assoc in Hn; cbn [app] in Hn).
  destruct (nodup_three _ _ _ _ _ _ _ Hn) as ((? & ? & ? & ? & ? & ?) & (? & ? & ? & ?) & (? & ? & ? & ?) & (? & ? & ? & ?)). cbn [root].
  eexists 1, _, (Bin hm 0 xm (Bin hl (if 0 <? bm then -1 else 0) xl ll ml) (Bin h (if bm <? 0 then 1 else 0) xs mr r)). split; [updates|]. cbn [height] in *. split; [rotated|heights].
Qed.

(** ** Changing a subtree *)

(** Every node is a block of the heap. *)
Definition alive (t : Tree S) (H : gmap Z Z) : Prop := forall x, is_Some (nodes t !! x) -> is_Some (H !! x).

Lemma alive_none t H x : alive t H -> H !! x = None -> nodes t !! x = None.
Proof. intros Ha E. apply eq_None_not_Some. intros Hs. apply Ha in Hs. rewrite E in Hs. destruct Hs; discriminate. Qed.

(** [T] has become [T']: the nodes of [T] that are not in [T'] are gone, the new
    ones were no blocks before, and nothing around them changed. *)
Record moved (H : gmap Z Z) (t : Tree S) (T : shape) (t' : Tree S) (T' : shape) : Prop := {
  mv_rep : rep (nodes t') T';
  mv_nodup : NoDup (handles T');
  mv_new : forall x, x ∈ handles T' -> x ∈ handles T \/ H !! x = None;
  mv_frame : forall x, x ∉ handles T -> x ∉ handles T' -> nodes t' !! x = nodes t !! x;
  mv_gone : forall x, x ∈ handles T -> x ∉ handles T' -> nodes t' !! x = None
}.

Lemma moved_rebalanced H t T t1 T1 t2 T2 : moved H t T t1 T1 -> rebalanced t1 T1 t2 T2 -> moved H t T t2 T2.
Proof.
  intros [M1 M2 M3 M4 M5] [R1 R2 R3 R4 R5 R6]. split; [exact R1|rewrite R2; exact M2|rewrite R2; exact M3|..]; intros x Hx Hx2; rewrite R2 in Hx2; rewrite R6 by exact Hx2; auto.
Qed.

(** Only the root changes. *)
Lemma moved_root H t h b xs l r b' xs' ar : rep (nodes t) (Bin h b xs l r) -> NoDup (handles (Bin h b xs l r)) -> Z.of_nat (length (xs' ++ ar)) = PAGE_SIZE ->
  moved H t (Bin h b xs l r) (put h (mkTtreeNode (root l) (root r) b' (Z.of_nat (length xs')) (xs' ++ ar)) t) (Bin h b' xs' l r).
Proof.
  intros (Hh & _ & Hl & Hr) Hn Hlen. cbn [handles] in Hn. destruct (nodup_at h _ _ Hn) as (H1 & H2 & _). split.
  - cbn [rep]. split_and!; [exact Hh| |cbn [nodes put]; apply rep_insert; assumption..]. exists ar. cbn [nodes put]. rewrite lookup_insert_eq. auto.
  - exact Hn.
  - intros x Hx. left. exact Hx.
  - intros x Hx _. cbn [nodes put]. apply lookup_insert_ne. intros <-. apply Hx. cbn. set_solver.
  - intros x Hx Hx2. contradiction.
Qed.

Lemma moved_trans H t T t1 T1 t2 T2 : moved H t T t1 T1 -> handles T1 = handles T -> moved H t1 T1 t2 T2 -> moved H t T t2 T2.
Proof.
  intros [M1 M2 M3 M4 M5] E [N1 N2 N3 N4 N5]. rewrite E in *. split; try assumption. intros x Hx Hx'. rewrite N4 by assumption. auto.
Qed.

(** A change of the left subtree seen from its parent. *)
Lemma moved_left H t h b xs l r t1 l' : alive t H -> rep (nodes t) (Bin h b xs l r) -> NoDup (handles (Bin h b xs l r)) -> moved H t l t1 l' ->
  exists t2, (if negb (root l' =? root l) then alter h (set_left (root l')) t1 else Some t1) = Some t2 /\ mem t2 = mem t1 /\
    moved H t (Bin h b xs l r) t2 (Bin h b xs l' r) /\ (forall x, is_Some (nodes t2 !! x) -> is_Some (nodes t1 !! x)).
Proof.
  intros Hal (Hh & (a & Ea & Hlen) & Hl & Hr) Hn M. cbn [handles] in Hn. destruct (nodup_at h _ _ Hn) as (H1 & H2 & _ & H4 & H5).
  assert (N1 : h ∉ handles l') by (intros Hx; destruct (mv_new _ _ _ _ _ M h Hx) as [|E]; [contradiction|apply (alive_none _ _ _ Hal) in E; congruence]).
  assert (N2 : forall x, x ∈ handles r -> x ∉ handles l /\ x ∉ handles l').
  { intros x Hx. assert (Hxl : x ∉ handles l) by (intros Hxl; exact (H5 x Hxl Hx)). split; [exact Hxl|]. intros Hx'. destruct (mv_new _ _ _ _ _ M x Hx') as [|E]; [contradiction|]. destruct (rep_lookup _ _ _ Hr Hx). apply (alive_none _ _ _ Hal) in E. congruence. }
  assert (E1 : nodes t1 !! h = nodes t !! h) by (apply (mv_frame _ _ _ _ _ M); assumption).
  assert (Hr1 : rep (nodes t1) r) by (eapply rep_ext; [|exact Hr]; intros x Hx; destruct (N2 x Hx); apply (mv_frame _ _ _ _ _ M); assumption).
  assert (Hn' : NoDup (handles l' ++ h :: handles r)).
  { apply NoDup_app. split_and!; [apply (mv_nodup _ _ _ _ _ M)| |apply NoDup_cons; auto]. intros x Hx Hx'. apply elem_of_cons in Hx' as [->|Hx']; [contradiction|]. apply (N2 x Hx'), Hx. }
  assert (Hm : forall t2, rep (nodes t2) (Bin h b xs l' r) -> (forall x, x <> h -> nodes t2 !! x = nodes t1 !! x) -> moved H t (Bin h b xs l r) t2 (Bin h b xs l' r)).
  { intros t2 R2 Hx. split; [exact R2|exact Hn'|..]; cbn [handles]; intros x; rewrite ? not_elem_of_app, ? elem_of_app, ? not_elem_of_cons, ? elem_of_cons.
    - intros [Hx'|[Hx'|Hx']]; [destruct (mv_new _ _ _ _ _ M x Hx'); auto|auto..].
    - intros (? & ? & ?) (? & _). rewrite Hx by assumption. apply (mv_frame _ _ _ _ _ M); assumption.
    - intros HT (? & ? & ?). rewrite Hx by assumption. apply (mv_gone _ _ _ _ _ M); tauto. }
  rewrite <- E1 in Ea. destruct (Z.eqb_spec (root l') (root l)) as [Er|Er]; cbn [negb].
  - exists t1. split_and!; [reflexivity..| |auto]. apply Hm; [|reflexivity]. cbn [rep]. rewrite Er. split_and!; [exact Hh|exists a; auto|apply (mv_rep _ _ _ _ _ M)|exact Hr1].
  - unfold alter. rewrite Ea. cbn [mbind option_bind]. eexists. split_and!; [reflexivity..| |].
    + apply Hm; [|intros x Hx; cbn [nodes put]; apply lookup_insert_ne; congruence]. cbn [rep nodes put]. split_and!; [exact Hh| |apply rep_insert; [assumption|apply (mv_rep _ _ _ _ _ M)]|apply rep_insert; assumption].
      exists a. rewrite lookup_insert_eq. split; [reflexivity|exact Hlen].
    + intros x. cbn [nodes put]. destruct (decide (x = h)) as [->|Hx]; [rewrite Ea; eauto|rewrite lookup_insert_ne by congruence; auto].
Qed.

Lemma moved_right H t h b xs l r t1 r' : alive t H -> rep (nodes t) (Bin h b xs l r) -> NoDup (handles (Bin h b xs l r)) -> moved H t r t1 r' ->
  exists t2, (if negb (root r' =? root r) then alter h (set_right (root r')) t1 else Some t1) = Some t2 /\ mem t2 = mem t1 /\
    moved H t (Bin h b xs l r) t2 (Bin h b xs l r') /\ (forall x, is_Some (nodes t2 !! x) -> is_Some (nodes t1 !! x)).
Proof.
  intros Hal (Hh & (a & Ea & Hlen) & Hl & Hr) Hn M. cbn [handles] in Hn. destruct (nodup_at h _ _ Hn) as (H1 & H2 & H3 & _ & H5).
  assert (N1 : h ∉ handles r') by (intros Hx; destruct (mv_new _ _ _ _ _ M h Hx) as [|E]; [contradiction|apply (alive_none _ _ _ Hal) in E; congruence]).
  assert (N2 : forall x, x ∈ handles l -> x ∉ handles r /\ x ∉ handles r').
  { intros x Hx. split; [exact (H5 x Hx)|]. intros Hx'. destruct (mv_new _ _ _ _ _ M x Hx') as [|E]; [exact (H5 x Hx ltac:(assumption))|]. destruct (rep_lookup _ _ _ Hl Hx). apply (alive_none _ _ _ Hal) in E. congruence. }
  assert (E1 : nodes t1 !! h = nodes t !! h) by (apply (mv_frame _ _ _ _ _ M); assumption).
  assert (Hl1 : rep (nodes t1) l) by (eapply rep_ext; [|exact Hl]; intros x Hx; destruct (N2 x Hx); apply (mv_frame _ _ _ _ _ M); assumption).
  assert (Hn' : NoDup (handles l ++ h :: handles r')).
  { apply NoDup_app. split_and!; [exact H3| |apply NoDup_cons; split; [exact N1|apply (mv_nodup _ _ _ _ _ M)]]. intros x Hx Hx'. apply elem_of_cons in Hx' as [->|Hx']; [contradiction|]. apply (N2 x Hx), Hx'. }
  assert (Hm : forall t2, rep (nodes t2) (Bin h b xs l r') -> (forall x, x <> h -> nodes t2 !! x = nodes t1 !! x) -> moved H t (Bin h b xs l r) t2 (Bin h b xs l r')).
  { intros t2 R2 Hx. split; [exact R2|exact Hn'|..]; cbn [handles]; intros x; rewrite ? not_elem_of_app, ? elem_of_app, ? not_elem_of_cons, ? elem_of_cons.
    - intros [Hx'|[Hx'|Hx']]; [auto..|destruct (mv_new _ _ _ _ _ M x Hx'); auto].
    - intros (? & ? & ?) (? & _ & ?). rewrite Hx by assumption. apply (mv_frame _ _ _ _ _ M); assumption.
    - intros HT (? & ? & ?). rewrite Hx by assumption. apply (mv_gone _ _ _ _ _ M); tauto. }
  rewrite <- E1 in Ea. destruct (Z.eqb_spec (root r') (root r)) as [Er|Er]; cbn [negb].
  - exists t1. split_and!; [reflexivity..| |auto]. apply Hm; [|reflexivity]. cbn [rep]. rewrite Er. split_and!; [exact Hh|exists a; auto|exact Hl1|apply (mv_rep _ _ _ _ _ M)].
  - unfold alter. rewrite Ea. cbn [mbind option_bind]. eexists. split_and!; [reflexivity..| |].
    + apply Hm; [|intros x Hx; cbn [nodes put]; apply lookup_insert_ne; congruence]. cbn [rep nodes put]. split_and!; [exact Hh| |apply rep_insert; assumption|apply rep_insert; [assumption|apply (mv_rep _ _ _ _ _ M)]].
      exists a. rewrite lookup_insert_eq. split; [reflexivity|exact Hlen].
    + intros x. cbn [nodes put]. destruct (decide (x = h)) as [->|Hx]; [rewrite Ea; eauto|rewrite lookup_insert_ne by congruence; auto].
Qed.
End Rotate.
