(* ===== verification/TTreeOrder.v ===== *)
(** * The items of a T-tree node

    The loops that move items inside a node, the order of keys a comparison
    function stands for, and the search inside a node. *)

From stdpp Require Import sorting.
From S2P Require Import Prelude PtMalloc MallocBase TTree TTreeShape.

(** ** Moving items *)

Lemma item_at (l1 l2 : list Z) x i : i = Z.of_nat (length l1) -> item (l1 ++ x :: l2) i = Some x.
Proof. intros ->. unfold item. rewrite (proj2 (Z.leb_le _ _)) by lia. rewrite Nat2Z.id, lookup_app_r, Nat.sub_diag by lia. reflexivity. Qed.

Lemma put_at (l1 l2 : list Z) x y i : i = Z.of_nat (length l1) -> put_item i x (l1 ++ y :: l2) = Some (l1 ++ x :: l2).
Proof.
  intros ->. unfold put_item. rewrite length_app. cbn [length]. rewrite (proj2 (Z.leb_le _ _)), (proj2 (Z.ltb_lt _ _)) by lia. cbn [andb].
  rewrite Nat2Z.id, insert_app_r_alt, Nat.sub_diag by lia. reflexivity.
Qed.

(** [n] items go up by one place, over the item [z] behind them. *)
Lemma move_up_spec l2 : forall l1 z l3 n i, n = length l2 -> i = Z.of_nat (length l1 + length l2) ->
  exists w, move_up n i (l1 ++ l2 ++ z :: l3) = Some (l1 ++ w :: l2 ++ l3).
Proof.
  induction l2 as [|y l2 IH] using rev_ind; intros l1 z l3 n i -> ->; [exists z; reflexivity|].
  rewrite length_app, Nat.add_1_r in *. cbn [move_up length]. rewrite <- app_assoc. cbn [app].
  rewrite (app_assoc l1 l2), (item_at (l1 ++ l2) (z :: l3) y) by (rewrite length_app; lia). cbn [mbind option_bind].
  replace ((l1 ++ l2) ++ y :: z :: l3) with (((l1 ++ l2) ++ [y]) ++ z :: l3) by (rewrite <- app_assoc; reflexivity).
  rewrite put_at by (rewrite ! length_app; cbn; lia). cbn [mbind option_bind]. rewrite <- ! app_assoc. cbn [app].
  apply IH; [reflexivity|lia].
Qed.

(** [n] items go down by one place, over the item [z] before them. *)
Lemma move_down_spec l2 : forall l1 z l3 n i, n = length l2 -> i = Z.of_nat (length l1) + 1 ->
  exists w, move_down n i (l1 ++ z :: l2 ++ l3) = Some (l1 ++ l2 ++ w :: l3).
Proof.
  induction l2 as [|y l2 IH]; intros l1 z l3 n i -> ->; [exists z; reflexivity|]. cbn [move_down length app].
  replace (l1 ++ z :: y :: l2 ++ l3) with ((l1 ++ [z]) ++ y :: l2 ++ l3) by (rewrite <- app_assoc; reflexivity).
  rewrite item_at by (rewrite length_app; cbn; lia). cbn [mbind option_bind]. rewrite <- app_assoc. cbn [app].
  rewrite put_at by lia. cbn [mbind option_bind]. destruct (IH (l1 ++ [y]) y l3 (length l2) (Z.of_nat (length l1) + 1 + 1)) as [w Ew]; [reflexivity|rewrite length_app; cbn; lia|].
  exists w. rewrite <- ! app_assoc in Ew. exact Ew.
Qed.

Lemma insert_item_spec hl hr b l1 l2 y l3 rec pos : pos = Z.of_nat (length l1) -> Z.of_nat (length (l1 ++ l2)) < PAGE_SIZE ->
  insert_item pos rec (mkTtreeNode hl hr b (Z.of_nat (length (l1 ++ l2))) ((l1 ++ l2) ++ y :: l3)) =
    Some (mkTtreeNode hl hr b (Z.of_nat (length (l1 ++ rec :: l2))) ((l1 ++ rec :: l2) ++ l3)).
Proof.
  intros -> Hn. unfold insert_item. cbn [m_ushNItems m_ahItems]. rewrite <- app_assoc.
  destruct (move_up_spec l2 l1 y l3 (Z.to_nat (Z.of_nat (length (l1 ++ l2)) - Z.of_nat (length l1))) (Z.of_nat (length (l1 ++ l2)))) as [w ->]; [rewrite length_app; lia|rewrite length_app; lia|].
  cbn [mbind option_bind]. rewrite put_at by reflexivity. cbn [mbind option_bind]. unfold set_count, set_items. cbn. do 2 f_equal.
  - rewrite wrap_small by (unfold in_width, PAGE_SIZE in *; lia). rewrite ! length_app. cbn [length]. lia.
  - rewrite <- app_assoc. reflexivity.
Qed.

(** ** Keys *)

Class KeyOrder (A : Type) := {
  kcmp : A -> A -> comparison;
  kcmp_eq a b : kcmp a b = Eq <-> a = b;
  kcmp_opp a b : kcmp b a = CompOpp (kcmp a b);
  kcmp_trans a b c : kcmp a b = Lt -> kcmp b c = Lt -> kcmp a c = Lt
}.

Section Keys.
Context {A : Type} `{KeyOrder A}.

Definition klt (a b : A) : Prop := kcmp a b = Lt.

#[export] Instance klt_trans : Transitive klt.
Proof. intros a b c. apply kcmp_trans. Qed.

Lemma klt_irrefl a : ~ klt a a.
Proof. unfold klt. rewrite (proj2 (kcmp_eq a a) eq_refl). discriminate. Qed.

Lemma kcmp_gt a b : kcmp a b = Gt <-> klt b a.
Proof. unfold klt. rewrite (kcmp_opp a b). destruct (kcmp a b); cbn; split; congruence. Qed.
End Keys.

#[export] Instance Z_key_order : KeyOrder Z.
Proof.
  refine {| kcmp := Z.compare |}.
  - apply Z.compare_eq_iff.
  - intros a b. apply Z.compare_antisym.
  - intros a b c. rewrite ! Z.compare_lt_iff. lia.
Defined.

Section Order.
Context {S K A : Type} `{MallocBase S} `{KeyOrder A} (pfComp : K -> S -> Z -> Z) (rank : Z -> A).

(** The records in ascending order of their keys. *)
Definition sorted (xs : list Z) : Prop := StronglySorted (fun x y => klt (rank x) (rank y)) xs.
Definition above (a : A) (xs : list Z) : Prop := forall x, x ∈ xs -> klt (rank x) a.
Definition below (a : A) (xs : list Z) : Prop := forall x, x ∈ xs -> klt a (rank x).

(** Comparing the key [k] with the records [xs] orders it as the rank [a]. *)
Definition compares (s : S) (k : K) (a : A) (xs : list Z) : Prop :=
  forall x, x ∈ xs -> (sext 32 (wrap 32 (pfComp k s x)) ?= 0) = kcmp a (rank x) /\ (kcmp a (rank x) = Eq -> pfComp k s x = 0).

Lemma compares_sub s k a xs ys : (forall x, x ∈ ys -> x ∈ xs) -> compares s k a xs -> compares s k a ys.
Proof. intros Hs Hc x Hx. apply Hc, Hs, Hx. Qed.

Lemma sorted_app xs ys : sorted (xs ++ ys) <-> sorted xs /\ sorted ys /\ forall x y, x ∈ xs -> y ∈ ys -> klt (rank x) (rank y).
Proof.
  unfold sorted. induction xs as [|x xs IH]; cbn [app].
  - split; [intros Hs; split_and!; [constructor|exact Hs|intros x y Hx; inversion Hx]|tauto].
  - rewrite ! StronglySorted_cons, Forall_app, IH, ! Forall_forall. split.
    + intros ((H1 & H2) & H3 & H4 & H5). split_and!; try assumption. intros x' y Hx Hy. apply elem_of_cons in Hx as [->|Hx]; auto.
    + intros ((H1 & H2) & H3 & H4). split_and!; try assumption; intros; apply H4; set_solver.
Qed.

Lemma sorted_cons x xs : sorted (x :: xs) <-> below (rank x) xs /\ sorted xs.
Proof. unfold sorted, below. rewrite StronglySorted_cons, Forall_forall. reflexivity. Qed.

Lemma above_sub a xs ys : (forall x, x ∈ ys -> x ∈ xs) -> above a xs -> above a ys.
Proof. intros Hs Ha x Hx. apply Ha, Hs, Hx. Qed.
Lemma below_sub a xs ys : (forall x, x ∈ ys -> x ∈ xs) -> below a xs -> below a ys.
Proof. intros Hs Ha x Hx. apply Ha, Hs, Hx. Qed.

(** The key between two halves of a sorted sequence. *)
Lemma below_sorted a x xs : sorted (x :: xs) -> klt a (rank x) -> below a (x :: xs).
Proof. rewrite sorted_cons. intros [Hb _] Ha y Hy. apply elem_of_cons in Hy as [->|Hy]; [exact Ha|]. etransitivity; [exact Ha|apply Hb, Hy]. Qed.
Lemma above_sorted a x xs : sorted (xs ++ [x]) -> klt (rank x) a -> above a (xs ++ [x]).
Proof.
  rewrite sorted_app. intros (_ & _ & Hs) Ha y Hy. apply elem_of_app in Hy as [Hy|Hy]; [|apply list_elem_of_singleton in Hy as ->; exact Ha].
  etransitivity; [apply Hs; [exact Hy|apply list_elem_of_singleton; reflexivity]|exact Ha].
Qed.
Lemma sorted_insert x xs ys : sorted (xs ++ ys) -> above (rank x) xs -> below (rank x) ys -> sorted (xs ++ x :: ys).
Proof.
  rewrite ! sorted_app, sorted_cons. intros (Hx & Hy & Hs) Ha Hb. split_and!; try assumption. intros u v Hu Hv. apply elem_of_cons in Hv as [->|Hv]; auto.
Qed.

Lemma sorted_remove x xs ys : sorted (xs ++ x :: ys) -> sorted (xs ++ ys) /\ above (rank x) xs /\ below (rank x) ys.
Proof.
  rewrite ! sorted_app, sorted_cons. intros (Hx & (Hb & Hy) & Hs). split_and!; try assumption.
  - intros u v Hu Hv. apply Hs; [exact Hu|apply list_elem_of_further, Hv].
  - intros u Hu. apply Hs; [exact Hu|apply list_elem_of_here].
Qed.

(** The three outcomes of a comparison. *)
Lemma diff_cases (t : Tree S) k a xs x : compares (mem t) k a xs -> x ∈ xs ->
  diff pfComp k t x = 0 /\ rank x = a /\ pfComp k (mem t) x = 0 \/ diff pfComp k t x < 0 /\ klt a (rank x) /\ pfComp k (mem t) x <> 0 \/ diff pfComp k t x > 0 /\ klt (rank x) a /\ pfComp k (mem t) x <> 0.
Proof.
  intros Hc Hx. destruct (Hc x Hx) as [E E0]. fold (diff pfComp k t x) in E. assert (Hz : diff pfComp k t x <> 0 -> pfComp k (mem t) x <> 0) by (unfold diff; intros Hd Ep; rewrite Ep in Hd; apply Hd; reflexivity).
  destruct (Z.compare_spec (diff pfComp k t x) 0) as [Hd|Hd|Hd]; symmetry in E.
  - left. split; [exact Hd|]. split; [symmetry; apply kcmp_eq, E|apply E0, E].
  - right; left. split; [exact Hd|]. split; [exact E|apply Hz; lia].
  - right; right. split; [lia|]. split; [apply kcmp_gt, E|apply Hz; lia].
Qed.

(** ** The search inside a node *)

Lemma item_prefix (xs a : list Z) i : 0 <= i < Z.of_nat (length xs) -> exists x, item (xs ++ a) i = Some x /\ xs !! Z.to_nat i = Some x /\ x ∈ xs.
Proof.
  intros Hi. unfold item. rewrite (proj2 (Z.leb_le _ _)) by lia. destruct (lookup_lt_is_Some_2 xs (Z.to_nat i)) as [x Ex]; [lia|].
  exists x. rewrite lookup_app_l by lia. split_and!; [exact Ex..|apply (list_elem_of_lookup_2 _ _ _ Ex)].
Qed.

Lemma sorted_lookup xs i j x y : sorted xs -> xs !! i = Some x -> xs !! j = Some y -> (i < j)%nat -> klt (rank x) (rank y).
Proof.
  intros Hs Hx Hy Hij. rewrite <- (take_drop (Datatypes.S i) xs) in Hs. apply sorted_app in Hs as (_ & _ & Hs). apply Hs.
  - apply (list_elem_of_lookup_2 _ i). rewrite lookup_take_lt by lia. exact Hx.
  - apply (list_elem_of_lookup_2 _ (j - Datatypes.S i)). rewrite lookup_drop. replace (Datatypes.S i + (j - Datatypes.S i))%nat with j by lia. exact Hy.
Qed.

Lemma bisect_spec (t : Tree S) k a xs ar : sorted xs -> compares (mem t) k a xs -> forall fuel l r,
  (Z.to_nat (r - l) <= fuel)%nat -> 0 <= l <= r -> r < Z.of_nat (length xs) ->
  (forall i x, xs !! i = Some x -> Z.of_nat i < l -> klt (rank x) a) -> (forall i x, xs !! i = Some x -> r <= Z.of_nat i -> klt a (rank x)) ->
  (exists i x, bisect pfComp fuel k t (xs ++ ar) l r = Some (inl i) /\ 0 <= i /\ xs !! Z.to_nat i = Some x /\ rank x = a) \/
  exists p, bisect pfComp fuel k t (xs ++ ar) l r = Some (inr p) /\ l <= p <= r /\
    (forall i x, xs !! i = Some x -> Z.of_nat i < p -> klt (rank x) a) /\ (forall i x, xs !! i = Some x -> p <= Z.of_nat i -> klt a (rank x)).
Proof.
  intros Hs Hc. induction fuel as [|fuel IH]; intros l r Hf Hl Hr Hlo Hhi; cbn [bisect]; (destruct (Z.ltb_spec l r) as [Hlr|Hlr]; cbn [negb]; [|right; exists r; split_and!; [reflexivity|lia..|intros i x Hx Hi; apply (Hlo i x Hx); lia|exact Hhi]]); [lia|].
  set (i := Z.shiftr (l + r) 1). assert (Hi : l <= i < r) by (unfold i; rewrite Z.shiftr_div_pow2 by lia; zdm).
  destruct (item_prefix xs ar i ltac:(lia)) as (x & -> & Ex & Hx). cbn [mbind option_bind].
  destruct (diff_cases t k a xs x Hc Hx) as [(Hd & Hk & _)|[(Hd & Hk & _)|(Hd & Hk & _)]].
  - rewrite (proj2 (Z.eqb_eq _ _) Hd). left. exists i, x. split_and!; [reflexivity|lia|exact Ex|exact Hk].
  - rewrite (proj2 (Z.eqb_neq _ _)), (proj2 (Z.ltb_ge _ _)) by lia. destruct (IH l i) as [R|(p & Ep & Hp & R)]; [lia..|exact Hlo| |left; exact R|right; exists p; split_and!; [exact Ep|lia..|apply R|apply R]].
    intros j y Hy Hj. destruct (decide (j = Z.to_nat i)) as [->|Hne]; [congruence|]. etransitivity; [exact Hk|]. apply (sorted_lookup xs (Z.to_nat i) j); [assumption..|lia].
  - rewrite (proj2 (Z.eqb_neq _ _)), (proj2 (Z.ltb_lt _ _)) by lia. destruct (IH (i + 1) r) as [R|(p & Ep & Hp & R)]; [lia..| |exact Hhi|left; exact R|right; exists p; split_and!; [exact Ep|lia..|apply R|apply R]].
    intros j y Hy Hj. destruct (decide (j = Z.to_nat i)) as [->|Hne]; [congruence|]. etransitivity; [|exact Hk]. apply (sorted_lookup xs j (Z.to_nat i)); [assumption..|lia].
Qed.
End Order.
