(* ===== verification/TTreeInsert.v ===== *)
(** * Insertion into a T-tree

    [TtreeNode::do_insert] puts a record at its place, keeps the tree balanced
    and its items in order, and leaves the nodes as they were when the key is
    there already or the allocator has no memory. *)

From S2P Require Import Prelude PtMalloc PtMallocSpec MallocBase TTree TTreeShape TTreeOrder.

Section Insert.
Context {S K A : Type} {MB : MallocBase S} {ML : MallocLaws S} {KO : KeyOrder A}.
Context (pfComp : K -> S -> Z -> Z) (convert_cvalue : S -> Z -> K) (rank : Z -> A).

(** The records carry their keys. *)
Definition ranked (s : S) (xs : list Z) : Prop := forall x, x ∈ xs -> compares pfComp rank s (convert_cvalue s x) (rank x) xs.

(** The memory after an operation that allocates at most one node. *)
Inductive grown (al0 : bool) (s : S) (H : heap) : bool -> S -> heap -> Prop :=
  | grown_same : grown al0 s H al0 s H
  | grown_new h n s' : H !! h = None -> sizeof_TtreeNode <= n -> m_rep s' (<[h := n]> H) -> (forall x, in_heap H x -> load x s' = load x s) ->
      grown al0 s H true s' (<[h := n]> H).

Inductive inserted (t : Tree S) (T : shape) (rec : Z) (al0 : bool) (H : heap) : Z -> Z -> bool -> Tree S -> Prop :=
  | ins_exists x : x ∈ contents T -> rank x = rank rec -> inserted t T rec al0 H (-2) (root T) al0 t
  | ins_nomem s' : (forall x, x ∈ contents T -> rank x <> rank rec) -> m_rep s' H -> (forall x, in_heap H x -> load x s' = load x (mem t)) ->
      inserted t T rec al0 H (-1) (root T) al0 (mkTree s' (nodes t))
  | ins_done T' g al t' H' : moved H t T t' T' -> balanced T' -> contents T' ≡ₚ rec :: contents T -> sorted rank (contents T') ->
      0 <= g <= 1 -> height T' = height T + g -> (g = 1 -> height T' = 1 \/ bal T' <> 0) -> grown al0 (mem t) H al (mem t') H' -> alive t' H' ->
      inserted t T rec al0 H g (root T') al t'.

(** On its way down the key stays outside of the nodes. *)
Fixpoint outer (a : A) (T : shape) : Prop :=
  match T with Leaf => True | Bin _ _ xs l r => below rank a xs /\ outer a l \/ above rank a xs /\ outer a r end.

(** Calls nest no deeper than the height when they insert no item again. *)
Definition deep_enough (fuel : nat) (a : A) (T : shape) : Prop :=
  2 * height T <= Z.of_nat fuel \/ height T <= Z.of_nat fuel /\ outer a T.

(** ** Pieces *)

Lemma Alloc_spec t H rec : m_rep (mem t) H -> alive t H -> exists h t', Alloc rec t = Some (h, t') /\
  (h = INVALID_HANDLE /\ nodes t' = nodes t /\ m_rep (mem t') H /\ (forall x, in_heap H x -> load x (mem t') = load x (mem t)) \/
   h <> INVALID_HANDLE /\ moved H t Leaf t' (Bin h 0 [rec] Leaf Leaf) /\ exists H', alive t' H' /\ forall al, grown al (mem t) H true (mem t') H').
Proof.
  intros Hm Ha. unfold Alloc. destruct (m_Malloc_ok (mem t) H sizeof_TtreeNode Hm) as (h & s' & -> & Hk & Ho); [unfold sizeof_TtreeNode, PAGE_SIZE; lia|].
  cbn [mbind option_bind]. destruct Ho as [(-> & Hr)|(n & Hn & Hh & Hf & Hr)].
  - exists INVALID_HANDLE, (mkTree s' (nodes t)). split; [reflexivity|]. left. auto.
  - rewrite (proj2 (Z.eqb_neq _ _) Hh). eexists h, _. split; [reflexivity|]. right. split; [exact Hh|].
    split.
    + split; cbn; [split_and!; [exact Hh| |done..]|apply NoDup_singleton|intros x Hx; apply list_elem_of_singleton in Hx as ->; auto| |intros x Hx; inversion Hx].
      * exists (replicate 19 INVALID_HANDLE). rewrite lookup_insert_eq. split; reflexivity.
      * intros x _ Hx. apply lookup_insert_ne. intros ->. apply Hx, list_elem_of_singleton. reflexivity.
    + exists (<[h := n]> H). split; [|intros al; apply grown_new; assumption]. intros x. cbn. destruct (decide (x = h)) as [->|Hx]; [rewrite ! lookup_insert_eq; eauto|].
      rewrite ! lookup_insert_ne by congruence. apply Ha.
Qed.

Lemma alive_rebalanced (t : Tree S) T t' T' H : rep (nodes t) T -> rebalanced t T t' T' -> alive t H -> alive t' H.
Proof.
  intros Hr R Ha x Hx. apply Ha. destruct (decide (x ∈ handles T)) as [Hi|Hi]; [destruct (rep_lookup _ _ _ Hr Hi); eauto|]. rewrite <- (rb_frame _ _ _ _ R) by exact Hi. exact Hx.
Qed.

Lemma alive_mono (t t' : Tree S) H : alive t H -> (forall x, is_Some (nodes t' !! x) -> is_Some (nodes t !! x)) -> alive t' H.
Proof. intros Ha Hs x Hx. apply Ha, Hs, Hx. Qed.

Lemma sorted_left_part cl cl' ys rec : sorted rank (cl ++ ys) -> sorted rank cl' -> (forall x, x ∈ cl' -> x = rec \/ x ∈ cl) -> below rank (rank rec) ys -> sorted rank (cl' ++ ys).
Proof. rewrite ! sorted_app. intros (_ & Hy & Hs) Hc Hx Hb. split_and!; try assumption. intros x y Hi Hj. destruct (Hx x Hi) as [->|]; auto. Qed.

Lemma sorted_right_part cr cr' ys rec : sorted rank (ys ++ cr) -> sorted rank cr' -> (forall x, x ∈ cr' -> x = rec \/ x ∈ cr) -> above rank (rank rec) ys -> sorted rank (ys ++ cr').
Proof. rewrite ! sorted_app. intros (Hy & _ & Hs) Hc Hx Hb. split_and!; try assumption. intros x y Hi Hj. destruct (Hx y Hj) as [->|]; auto. Qed.

Lemma elem_perm_cons (x rec : Z) l l' : l' ≡ₚ rec :: l -> x ∈ l' -> x = rec \/ x ∈ l.
Proof. intros Hp Hx. rewrite Hp in Hx. apply elem_of_cons in Hx. exact Hx. Qed.

(** ** The parent of a branch that was inserted into *)

Section Parent.
Context (t : Tree S) (H : heap) (h b : Z) (xs : list Z) (l r : shape) (rec : Z) (al0 al : bool).
Context (Hali : alive t H) (Hrep : rep (nodes t) (Bin h b xs l r)) (Hnd : NoDup (handles (Bin h b xs l r))) (Hb : balanced (Bin h b xs l r)) (Hs : sorted rank (contents (Bin h b xs l r))).

Lemma insert_left t1 l' g H' : moved H t l t1 l' -> balanced l' -> contents l' ≡ₚ rec :: contents l -> sorted rank (contents l') -> 0 <= g <= 1 ->
  height l' = height l + g -> (g = 1 -> height l' = 1 \/ bal l' <> 0) -> grown al0 (mem t) H al (mem t1) H' -> alive t1 H' -> below rank (rank rec) (xs ++ contents r) ->
  exists g' h' t', (t ← (if negb (root l' =? root l) then alter h (set_left (root l')) t1 else Some t1);
      if g =? 0 then Some (0, h, al, t) else '(r, hNode, t) ← grown_left h (root l') t; Some (r, hNode, al, t)) = Some (g', h', al, t') /\
    inserted t (Bin h b xs l r) rec al0 H g' h' al t'.
Proof.
  intros M Bl' Hc Hsl Hg Hh Hbal Hgr Hal Hbe. destruct (moved_left H t h b xs l r t1 l' Hali Hrep Hnd M) as (t2 & -> & Em & M2 & Hd). cbn [mbind option_bind].
  destruct Hb as (Hx & Eb & Hbb & Bl & Br). assert (Hs' : sorted rank (contents (Bin h b xs l' r))) by (cbn [contents] in *; eapply sorted_left_part; [exact Hs|exact Hsl|intros x; apply elem_perm_cons, Hc|exact Hbe]).
  assert (Hp : contents (Bin h b xs l' r) ≡ₚ rec :: contents (Bin h b xs l r)) by (cbn [contents]; rewrite Hc; reflexivity).
  assert (Hal2 : alive t2 H') by (eapply alive_mono; [exact Hal|exact Hd]). destruct (Z.eqb_spec g 0) as [->|Hg0].
  - exists 0, h, t2. split; [reflexivity|]. change h with (root (Bin h b xs l' r)) at 2. eapply (ins_done _ _ _ _ _ (Bin h b xs l' r)); try eassumption; try lia.
    + cbn [balanced]. split_and!; try assumption; lia.
    + cbn [height]. lia.
    + rewrite Em. exact Hgr.
  - assert (g = 1) as -> by lia. assert (Hnl : l' <> Leaf) by (intros ->; cbn in Hh; pose proof (height_nonneg l); lia).
    destruct (grown_left_spec t2 h b xs l' r) as (g' & t3 & T' & -> & R & Hg' & Hh' & Hb'); try assumption; try lia; [apply (mv_rep _ _ _ _ _ M2)|apply (mv_nodup _ _ _ _ _ M2)|].
    cbn [mbind option_bind]. exists g', (root T'), t3. split; [reflexivity|]. eapply ins_done with (H' := H').
    + eapply moved_rebalanced; eassumption.
    + apply (rb_balanced _ _ _ _ R).
    + rewrite (rb_contents _ _ _ _ R). exact Hp.
    + rewrite (rb_contents _ _ _ _ R). exact Hs'.
    + exact Hg'.
    + rewrite Hh'. cbn [height]. lia.
    + intros E. right. auto.
    + rewrite (rb_mem _ _ _ _ R), Em. exact Hgr.
    + eapply alive_rebalanced; [apply (mv_rep _ _ _ _ _ M2)|exact R|exact Hal2].
Qed.

Lemma insert_right t1 r' g H' : moved H t r t1 r' -> balanced r' -> contents r' ≡ₚ rec :: contents r -> sorted rank (contents r') -> 0 <= g <= 1 ->
  height r' = height r + g -> (g = 1 -> height r' = 1 \/ bal r' <> 0) -> grown al0 (mem t) H al (mem t1) H' -> alive t1 H' -> above rank (rank rec) (contents l ++ xs) ->
  exists g' h' t', (t ← (if negb (root r' =? root r) then alter h (set_right (root r')) t1 else Some t1);
      if g =? 0 then Some (0, h, al, t) else '(r, hNode, t) ← grown_right h (root r') t; Some (r, hNode, al, t)) = Some (g', h', al, t') /\
    inserted t (Bin h b xs l r) rec al0 H g' h' al t'.
Proof.
  intros M Br' Hc Hsr Hg Hh Hbal Hgr Hal Hab. destruct (moved_right H t h b xs l r t1 r' Hali Hrep Hnd M) as (t2 & -> & Em & M2 & Hd). cbn [mbind option_bind].
  destruct Hb as (Hx & Eb & Hbb & Bl & Br). assert (Hs' : sorted rank (contents (Bin h b xs l r'))) by (cbn [contents] in *; rewrite app_assoc in *; eapply sorted_right_part; [exact Hs|exact Hsr|intros x; apply elem_perm_cons, Hc|exact Hab]).
  assert (Hp : contents (Bin h b xs l r') ≡ₚ rec :: contents (Bin h b xs l r)) by (cbn [contents]; rewrite Hc, ! app_assoc, <- Permutation_middle; reflexivity).
  assert (Hal2 : alive t2 H') by (eapply alive_mono; [exact Hal|exact Hd]). destruct (Z.eqb_spec g 0) as [->|Hg0].
  - exists 0, h, t2. split; [reflexivity|]. change h with (root (Bin h b xs l r')) at 2. eapply (ins_done _ _ _ _ _ (Bin h b xs l r')); try eassumption; try lia.
    + cbn [balanced]. split_and!; try assumption; lia.
    + cbn [height]. lia.
    + rewrite Em. exact Hgr.
  - assert (g = 1) as -> by lia. assert (Hnl : r' <> Leaf) by (intros ->; cbn in Hh; pose proof (height_nonneg r); lia).
    destruct (grown_right_spec t2 h b xs l r') as (g' & t3 & T' & -> & R & Hg' & Hh' & Hb'); try assumption; try lia; [apply (mv_rep _ _ _ _ _ M2)|apply (mv_nodup _ _ _ _ _ M2)|].
    cbn [mbind option_bind]. exists g', (root T'), t3. split; [reflexivity|]. eapply ins_done with (H' := H').
    + eapply moved_rebalanced; eassumption.
    + apply (rb_balanced _ _ _ _ R).
    + rewrite (rb_contents _ _ _ _ R). exact Hp.
    + rewrite (rb_contents _ _ _ _ R). exact Hs'.
    + exact Hg'.
    + rewrite Hh'. cbn [height]. lia.
    + intros E. right. auto.
    + rewrite (rb_mem _ _ _ _ R), Em. exact Hgr.
    + eapply alive_rebalanced; [apply (mv_rep _ _ _ _ _ M2)|exact R|exact Hal2].
Qed.
End Parent.

(** ** The branches of do_insert *)

Record insert_pre (t : Tree S) (H : heap) (T : shape) (k : K) (rec : Z) : Prop := {
  ip_rep : rep (nodes t) T;
  ip_nodup : NoDup (handles T);
  ip_balanced : balanced T;
  ip_sorted : sorted rank (contents T);
  ip_cmp : compares pfComp rank (mem t) k (rank rec) (contents T);
  ip_ranked : ranked (mem t) (rec :: contents T);
  ip_mem : m_rep (mem t) H;
  ip_alive : alive t H
}.

Lemma ranked_sub s xs ys : (forall x, x ∈ ys -> x ∈ xs) -> ranked s xs -> ranked s ys.
Proof. intros Hs Hr x Hx. eapply compares_sub; [exact Hs|]. apply Hr, Hs, Hx. Qed.

Lemma pre_left t H h b xs l r k rec : insert_pre t H (Bin h b xs l r) k rec -> insert_pre t H l k rec.
Proof.
  intros [(_ & _ & R & _) N (_ & _ & _ & B & _) O C Q M L]. cbn in *. split; try assumption.
  - apply NoDup_app in N. tauto.
  - apply sorted_app in O. tauto.
  - eapply compares_sub; [|exact C]. set_solver.
  - eapply ranked_sub; [|exact Q]. set_solver.
Qed.

Lemma pre_right t H h b xs l r k rec : insert_pre t H (Bin h b xs l r) k rec -> insert_pre t H r k rec.
Proof.
  intros [(_ & _ & _ & R) N (_ & _ & _ & _ & B) O C Q M L]. cbn in *. split; try assumption.
  - apply NoDup_app in N as (_ & _ & N). apply NoDup_cons in N. tauto.
  - rewrite app_assoc in O. apply sorted_app in O. tauto.
  - eapply compares_sub; [|exact C]. set_solver.
  - eapply ranked_sub; [|exact Q]. set_solver.
Qed.

(** Room behind the items. *)
Lemma room_behind (xs ar : list Z) : Z.of_nat (length (xs ++ ar)) = PAGE_SIZE -> Z.of_nat (length xs) < PAGE_SIZE -> exists y ar', ar = y :: ar'.
Proof. rewrite length_app. destruct ar as [|y ar']; [cbn; lia|eauto]. Qed.

(** A record put between the items of a node with room for it. *)
Lemma insert_here t H h b l1 l2 l r k rec al0 : insert_pre t H (Bin h b (l1 ++ l2) l r) k rec -> Z.of_nat (length (l1 ++ l2)) < PAGE_SIZE ->
  above rank (rank rec) (contents l ++ l1) -> below rank (rank rec) (l2 ++ contents r) -> forall y ar, Z.of_nat (length ((l1 ++ l2) ++ y :: ar)) = PAGE_SIZE ->
  inserted t (Bin h b (l1 ++ l2) l r) rec al0 H 0 h al0
    (put h (mkTtreeNode (root l) (root r) b (Z.of_nat (length (l1 ++ rec :: l2))) ((l1 ++ rec :: l2) ++ ar)) t).
Proof.
  intros P Hn Ha Hb y ar Hl. destruct (ip_balanced _ _ _ _ _ P) as (Hx & Eb & Hbb & Bl & Br). change h with (root (Bin h b (l1 ++ rec :: l2) l r)) at 2.
  eapply ins_done with (H' := H).
  - apply moved_root; [apply P..|]. rewrite <- Hl. rewrite ! length_app. cbn. lia.
  - cbn [balanced]. rewrite length_app in *. cbn [length] in *. split_and!; try assumption; lia.
  - cbn [contents]. rewrite <- ! app_assoc. cbn. rewrite ! app_assoc, <- Permutation_middle. rewrite <- ! app_assoc. reflexivity.
  - pose proof (ip_sorted _ _ _ _ _ P) as Hs. cbn [contents] in *. rewrite <- ! app_assoc in *. cbn. rewrite app_assoc in *. apply sorted_insert; assumption.
  - lia.
  - cbn [height]. lia.
  - lia.
  - apply grown_same.
  - eapply alive_mono; [apply P|]. intros x. cbn. destruct (decide (x = h)) as [->|Hx']; [|rewrite lookup_insert_ne by congruence; auto].
    destruct (ip_rep _ _ _ _ _ P) as (_ & (a & Ea & _) & _). eauto.
Qed.

Lemma below_absent a xs : below rank a xs -> forall x, x ∈ xs -> rank x <> a.
Proof. intros Hb x Hx E. apply (klt_irrefl a). rewrite <- E at 2. apply Hb, Hx. Qed.
Lemma above_absent a xs : above rank a xs -> forall x, x ∈ xs -> rank x <> a.
Proof. intros Hb x Hx E. apply (klt_irrefl a). rewrite <- E at 1. apply Hb, Hx. Qed.

(** A key before the first item is before all that follows. *)
Lemma before_all h b x xs l r a : sorted rank (contents (Bin h b (x :: xs) l r)) -> klt a (rank x) -> below rank a ((x :: xs) ++ contents r).
Proof. cbn [contents]. intros Hs Ha. apply sorted_app in Hs as (_ & Hs & _). apply (below_sorted rank a x (xs ++ contents r) Hs Ha). Qed.

Lemma behind_all h b xs x l r a : sorted rank (contents (Bin h b (xs ++ [x]) l r)) -> klt (rank x) a -> above rank a (contents l ++ xs ++ [x]).
Proof. cbn [contents]. intros Hs Ha. rewrite app_assoc in Hs. apply sorted_app in Hs as (Hs & _). rewrite app_assoc in *. apply (above_sorted rank a x _ Hs Ha). Qed.

Lemma insert_before_spec insert t H h b x xs l r ar k rec al0 d : insert_pre t H (Bin h b (x :: xs) l r) k rec -> klt (rank rec) (rank x) -> d < 0 ->
  Z.of_nat (length ((x :: xs) ++ ar)) = PAGE_SIZE ->
  (l <> Leaf -> exists g h' al t', insert (root l) k rec al0 t = Some (g, h', al, t') /\ inserted t l rec al0 H g h' al t') ->
  exists g h' al t', insert_before insert h k rec d (mkTtreeNode (root l) (root r) b (Z.of_nat (length (x :: xs))) ((x :: xs) ++ ar)) al0 t = Some (g, h', al, t') /\
    inserted t (Bin h b (x :: xs) l r) rec al0 H g h' al t'.
Proof.
  intros P Hk Hd Hlen IH. pose proof (before_all _ _ _ _ _ _ _ (ip_sorted _ _ _ _ _ P) Hk) as Hb. unfold insert_before. cbn [m_hLeft m_ushNItems].
  rewrite (proj2 (Z.eqb_neq d 0)) by lia. rewrite orb_false_r. destruct l as [|hl bl xl ll lr]; cbn [root].
  - change (INVALID_HANDLE =? INVALID_HANDLE) with true. cbn [andb]. destruct (Z.ltb_spec (Z.of_nat (length (x :: xs))) PAGE_SIZE) as [Hn|Hn].
    { destruct (room_behind _ _ Hlen Hn) as (y & ar' & ->). rewrite (insert_item_spec _ _ _ [] (x :: xs) y ar' rec 0 eq_refl Hn). cbn [mbind option_bind].
      do 4 eexists. split; [reflexivity|]. apply (insert_here t H h b [] (x :: xs) Leaf r k rec al0 P Hn ltac:(intros z Hz; inversion Hz) Hb y ar' Hlen). }
    destruct (Alloc_spec t H rec) as (hn & t1 & -> & Ho); [apply P..|]. cbn [mbind option_bind]. destruct Ho as [(-> & En & Hm & Hld)|(Hh & M & H' & Hal & Hgr)].
    + change (INVALID_HANDLE =? INVALID_HANDLE) with true. do 4 eexists. split; [reflexivity|]. destruct t1 as [s1 n1]. cbn in En. subst n1.
      apply (ins_nomem t (Bin h b (x :: xs) Leaf r)); [apply below_absent; exact Hb|assumption..].
    + rewrite (proj2 (Z.eqb_neq _ _) Hh). destruct (insert_left t H h b (x :: xs) Leaf r rec al0 true) with (t1 := t1) (l' := Bin hn 0 [rec] Leaf Leaf) (g := 1) (H' := H') as (g' & h' & t' & E & R); try (apply P); try assumption; try reflexivity; try lia.
      * cbn. unfold PAGE_SIZE. lia.
      * repeat constructor.
      * left. reflexivity.
      * apply Hgr.
      * cbn [root] in E. rewrite (proj2 (Z.eqb_neq _ _) Hh) in E. cbn [negb Z.eqb] in E. exists g', h', true, t'. split; [exact E|exact R].
  - destruct (ip_rep _ _ _ _ _ P) as (_ & _ & (Hhl & _) & _). rewrite (proj2 (Z.eqb_neq hl _) Hhl). cbn [andb].
    destruct (IH ltac:(discriminate)) as (g & h1 & al & t1 & E1 & R). cbn [root] in E1. rewrite E1. cbn [mbind option_bind]. inversion R as [z Hz Ez|s' Hno Hm Hld|T' g0 al' t1' H' M B C O G Hh Hbal Hgr Hal]; subst.
    + do 4 eexists. split; [reflexivity|]. eapply (ins_exists _ (Bin h b (x :: xs) _ r)); [|eassumption]. cbn. set_solver.
    + do 4 eexists. split; [reflexivity|]. apply (ins_nomem t (Bin h b (x :: xs) _ r)); [|assumption..]. intros z Hz. cbn [contents] in Hz. apply elem_of_app in Hz as [Hz|Hz]; [auto|]. apply (below_absent _ _ Hb z Hz).
    + rewrite (proj2 (Z.ltb_ge g 0)) by lia. destruct (insert_left t H h b (x :: xs) (Bin hl bl xl ll lr) r rec al0 al (ip_alive _ _ _ _ _ P) (ip_rep _ _ _ _ _ P) (ip_nodup _ _ _ _ _ P) (ip_balanced _ _ _ _ _ P) (ip_sorted _ _ _ _ _ P) t1 T' g H' M B C O G Hh Hbal Hgr Hal Hb) as (g' & h' & t' & E & R').
      exists g', h', al, t'. split; [exact E|exact R'].
Qed.

Lemma insert_behind_spec insert t H h b x xs l r ar k rec al0 d : insert_pre t H (Bin h b (xs ++ [x]) l r) k rec -> klt (rank x) (rank rec) -> 0 < d ->
  Z.of_nat (length ((xs ++ [x]) ++ ar)) = PAGE_SIZE ->
  (r <> Leaf -> exists g h' al t', insert (root r) k rec al0 t = Some (g, h', al, t') /\ inserted t r rec al0 H g h' al t') ->
  exists g h' al t', insert_behind insert h k rec d (mkTtreeNode (root l) (root r) b (Z.of_nat (length (xs ++ [x]))) ((xs ++ [x]) ++ ar)) al0 t = Some (g, h', al, t') /\
    inserted t (Bin h b (xs ++ [x]) l r) rec al0 H g h' al t'.
Proof.
  intros P Hk Hd Hlen IH. pose proof (behind_all _ _ _ _ _ _ _ (ip_sorted _ _ _ _ _ P) Hk) as Hb. unfold insert_behind. cbn [m_hRight m_ushNItems m_ahItems].
  remember (xs ++ [x]) as ys eqn:Ey. clear Ey xs. rewrite (proj2 (Z.eqb_neq d 0)) by lia. rewrite orb_false_r. destruct r as [|hr br xr rl rr]; cbn [root].
  - change (INVALID_HANDLE =? INVALID_HANDLE) with true. cbn [andb]. destruct (Z.ltb_spec (Z.of_nat (length ys)) PAGE_SIZE) as [Hn|Hn].
    { destruct (room_behind _ _ Hlen Hn) as (y & ar' & ->). rewrite put_at by reflexivity. cbn [mbind option_bind]. do 4 eexists. split; [reflexivity|].
      pose proof (insert_here t H h b ys [] l Leaf k rec al0) as R. rewrite app_nil_r in R. specialize (R P Hn Hb ltac:(intros z Hz; inversion Hz) y ar' Hlen).
      unfold set_count, set_items. cbn. rewrite wrap_small by (unfold in_width, PAGE_SIZE in *; lia). rewrite length_app, <- app_assoc in R. cbn in R. replace (Z.of_nat (length ys + 1)) with (Z.of_nat (length ys) + 1) in R by lia. exact R. }
    destruct (Alloc_spec t H rec) as (hn & t1 & -> & Ho); [apply P..|]. cbn [mbind option_bind]. destruct Ho as [(-> & En & Hm & Hld)|(Hh & M & H' & Hal & Hgr)].
    + change (INVALID_HANDLE =? INVALID_HANDLE) with true. do 4 eexists. split; [reflexivity|]. destruct t1 as [s1 n1]. cbn in En. subst n1.
      apply (ins_nomem t (Bin h b ys l Leaf)); [cbn; rewrite app_nil_r; apply above_absent; exact Hb|assumption..].
    + rewrite (proj2 (Z.eqb_neq _ _) Hh). destruct (insert_right t H h b ys l Leaf rec al0 true) with (t1 := t1) (r' := Bin hn 0 [rec] Leaf Leaf) (g := 1) (H' := H') as (g' & h' & t' & E & R); try (apply P); try assumption; try reflexivity; try lia.
      * cbn. unfold PAGE_SIZE. lia.
      * repeat constructor.
      * left. reflexivity.
      * apply Hgr.
      * cbn [root] in E. rewrite (proj2 (Z.eqb_neq _ _) Hh) in E. cbn [negb Z.eqb] in E. exists g', h', true, t'. split; [exact E|exact R].
  - destruct (ip_rep _ _ _ _ _ P) as (_ & _ & _ & (Hhr & _)). rewrite (proj2 (Z.eqb_neq hr _) Hhr). cbn [andb].
    destruct (IH ltac:(discriminate)) as (g & h1 & al & t1 & E1 & R). cbn [root] in E1. rewrite E1. cbn [mbind option_bind]. inversion R as [z Hz Ez|s' Hno Hm Hld|T' g0 al' t1' H' M B C O G Hh Hbal Hgr Hal]; subst.
    + do 4 eexists. split; [reflexivity|]. eapply (ins_exists _ (Bin h b ys l _)); [|eassumption]. cbn in *. set_solver.
    + do 4 eexists. split; [reflexivity|]. apply (ins_nomem t (Bin h b ys l _)); [|assumption..]. intros z Hz. cbn [contents] in Hz. rewrite app_assoc in Hz. apply elem_of_app in Hz as [Hz|Hz]; [|auto]. apply (above_absent _ _ Hb z Hz).
    + rewrite (proj2 (Z.ltb_ge g 0)) by lia. destruct (insert_right t H h b ys l (Bin hr br xr rl rr) rec al0 al (ip_alive _ _ _ _ _ P) (ip_rep _ _ _ _ _ P) (ip_nodup _ _ _ _ _ P) (ip_balanced _ _ _ _ _ P) (ip_sorted _ _ _ _ _ P) t1 T' g H' M B C O G Hh Hbal Hgr Hal Hb) as (g' & h' & t' & E & R').
      exists g', h', al, t'. split; [exact E|exact R'].
Qed.

(** A record takes the place of another in a full node, and that one goes on. *)
Lemma reinsert_spec (insert : insertion (S := S) (K := K)) t H h b xs xs1 l r k rec out al0 : insert_pre t H (Bin h b xs l r) k rec -> Z.of_nat (length xs) = PAGE_SIZE ->
  out :: xs1 ≡ₚ rec :: xs -> sorted rank (contents (Bin h b xs1 l r)) -> outer (rank out) (Bin h b xs1 l r) ->
  (forall x, x ∈ contents (Bin h b xs1 l r) -> rank x <> rank out) -> (forall x, x ∈ contents (Bin h b xs l r) -> rank x <> rank rec) ->
  (forall xs1 k' rec' t1, insert_pre t1 H (Bin h b xs1 l r) k' rec' -> outer (rank rec') (Bin h b xs1 l r) ->
     exists g h' al t', insert h k' rec' al0 t1 = Some (g, h', al, t') /\ inserted t1 (Bin h b xs1 l r) rec' al0 H g h' al t') ->
  let p := mkTtreeNode (root l) (root r) b (Z.of_nat (length xs)) xs in
  exists g h' al t', (let t := put h (set_items xs1 p) t in
      '(iRet, hNode', isAllocNode, t) ← insert h (convert_cvalue (mem t) out) out al0 t;
      t ← (if iRet <? 0 then alter h (set_items (m_ahItems p)) t else Some t);
      Some (iRet, hNode', isAllocNode, t)) = Some (g, h', al, t') /\
    inserted t (Bin h b xs l r) rec al0 H g h' al t'.
Proof.
  intros P Hn Hp Hs Ho Hout Hrec IH p. cbv zeta. set (t1 := put h (set_items xs1 p) t). pose proof (Permutation_length Hp) as Hl. cbn in Hl.
  assert (E1 : t1 = put h (mkTtreeNode (root l) (root r) b (Z.of_nat (length xs1)) (xs1 ++ [])) t) by (unfold t1, p, set_items; cbn; rewrite app_nil_r; do 3 f_equal; lia).
  assert (M1 : moved H t (Bin h b xs l r) t1 (Bin h b xs1 l r)) by (rewrite E1; apply moved_root; [apply P..|rewrite app_nil_r; lia]).
  assert (Hp1 : out :: contents (Bin h b xs1 l r) ≡ₚ rec :: contents (Bin h b xs l r)).
  { cbn [contents]. rewrite (app_assoc (contents l) xs1), (app_assoc (contents l) xs), (Permutation_app_comm (contents l) xs1), (Permutation_app_comm (contents l) xs), <- ! app_assoc. rewrite (app_comm_cons xs1), (app_comm_cons xs), Hp. reflexivity. }
  assert (Hr1 : ranked (mem t1) (out :: contents (Bin h b xs1 l r))) by (eapply ranked_sub; [|apply P]; intros x; rewrite Hp1; auto).
  assert (P1 : insert_pre t1 H (Bin h b xs1 l r) (convert_cvalue (mem t1) out) out).
  { split; try assumption; try apply P.
    - apply (mv_rep _ _ _ _ _ M1).
    - destruct (ip_balanced _ _ _ _ _ P) as (? & ? & ? & ? & ?). cbn. split_and!; try assumption; lia.
    - eapply compares_sub; [|apply Hr1, list_elem_of_here]. intros x Hx. apply list_elem_of_further, Hx.
    - eapply alive_mono; [apply P|]. intros x. unfold t1. cbn. destruct (decide (x = h)) as [->|Hx]; [|rewrite lookup_insert_ne by congruence; auto].
      destruct (ip_rep _ _ _ _ _ P) as (_ & (a & Ea & _) & _). eauto. }
  destruct (IH xs1 (convert_cvalue (mem t1) out) out t1 P1 Ho) as (g & h' & al & t2 & -> & R). cbn [mbind option_bind]. inversion R as [z Hz Ez|s' Hno Hm Hld|T' g0 al' t1' H' M B C O G Hh Hbal Hgr Hal]; subst.
  - exfalso. apply (Hout z Hz Ez).
  - change (-1 <? 0) with true. cbv iota. unfold alter, t1. cbn [nodes put]. rewrite lookup_insert_eq. cbn [mbind option_bind]. do 4 eexists. split; [reflexivity|].
    unfold put. cbn [nodes mem m_ahItems p]. rewrite insert_insert_eq. destruct (ip_rep _ _ _ _ _ P) as (_ & (a & Ea & Hla) & _).
    assert (a = []) as -> by (rewrite length_app in Hla; destruct a; [reflexivity|cbn in Hla; lia]). rewrite app_nil_r in Ea. unfold set_items, p. cbn. rewrite insert_id by exact Ea.
    change h with (root (Bin h b xs l r)) at 2. apply ins_nomem; [exact Hrec|exact Hm|exact Hld].
  - rewrite (proj2 (Z.ltb_ge g 0)) by lia. cbn [mbind option_bind]. do 4 eexists. split; [reflexivity|]. eapply ins_done with (H' := H'); try eassumption.
    + eapply moved_trans; [exact M1|reflexivity|exact M].
    + rewrite C, Hp1. reflexivity.
Qed.

Lemma above_outer a T : above rank a (contents T) -> outer a T.
Proof.
  induction T as [|h b xs l _ r IH]; [done|]. cbn [contents outer]. intros Ha. right. split; [|apply IH]; intros x Hx; apply Ha; set_solver.
Qed.
Lemma below_outer a T : below rank a (contents T) -> outer a T.
Proof.
  induction T as [|h b xs l IH r _]; [done|]. cbn [contents outer]. intros Ha. left. split; [|apply IH]; intros x Hx; apply Ha; set_solver.
Qed.

Lemma displace_spec hl hr b l1 l2 rec p : p = Z.of_nat (length l1) -> l1 <> [] -> l2 <> [] ->
  exists out xs1, displace p rec (mkTtreeNode hl hr b (Z.of_nat (length (l1 ++ l2))) (l1 ++ l2)) = Some (out, xs1) /\
    ((exists ys, l1 = out :: ys /\ xs1 = ys ++ rec :: l2) \/ exists ys, l2 = ys ++ [out] /\ xs1 = l1 ++ rec :: ys).
Proof.
  intros -> H1 H2. unfold displace. cbn [m_chBalance m_ahItems m_ushNItems]. destruct (0 <=? b).
  - destruct l1 as [|x ys]; [contradiction|]. exists x, (ys ++ rec :: l2). split; [|left; eauto]. change (item ((x :: ys) ++ l2) 0) with (Some x). cbn [mbind option_bind app].
    destruct (move_down_spec ys [] x l2 (Z.to_nat (Z.of_nat (length (x :: ys)) - 1)) 1) as [w Ew]; [cbn [length]; lia|reflexivity|]. cbn [app] in Ew. rewrite Ew. cbn [mbind option_bind].
    rewrite put_at by (cbn [length]; lia). reflexivity.
  - destruct l2 as [|x ys _] using rev_ind; [contradiction|]. exists x, (l1 ++ rec :: ys). split; [|right; eauto]. rewrite (app_assoc l1 ys [x]), (item_at (l1 ++ ys) [] x) by (rewrite ! length_app; cbn; lia). cbn [mbind option_bind].
    rewrite <- app_assoc. destruct (move_up_spec ys l1 x [] (Z.to_nat (Z.of_nat (length (l1 ++ ys ++ [x])) - 1 - Z.of_nat (length l1))) (Z.of_nat (length (l1 ++ ys ++ [x])) - 1)) as [w Ew]; [rewrite ! length_app; cbn; lia..|].
    rewrite Ew. cbn [mbind option_bind]. rewrite put_at by reflexivity. cbn [mbind option_bind]. rewrite app_nil_r. reflexivity.
Qed.

Lemma insert_full_spec insert t H h b l1 l2 l r k rec al0 : insert_pre t H (Bin h b (l1 ++ l2) l r) k rec -> Z.of_nat (length (l1 ++ l2)) = PAGE_SIZE -> l1 <> [] -> l2 <> [] ->
  above rank (rank rec) (contents l ++ l1) -> below rank (rank rec) (l2 ++ contents r) ->
  (forall xs1 k' rec' t1, insert_pre t1 H (Bin h b xs1 l r) k' rec' -> outer (rank rec') (Bin h b xs1 l r) ->
     exists g h' al t', insert h k' rec' al0 t1 = Some (g, h', al, t') /\ inserted t1 (Bin h b xs1 l r) rec' al0 H g h' al t') ->
  let p := mkTtreeNode (root l) (root r) b (Z.of_nat (length (l1 ++ l2))) (l1 ++ l2) in
  exists g h' al t', ('(hReInsert, a) ← displace (Z.of_nat (length l1)) rec p;
      let t := put h (set_items a p) t in
      '(iRet, hNode', isAllocNode, t) ← insert h (convert_cvalue (mem t) hReInsert) hReInsert al0 t;
      t ← (if iRet <? 0 then alter h (set_items (m_ahItems p)) t else Some t);
      Some (iRet, hNode', isAllocNode, t)) = Some (g, h', al, t') /\
    inserted t (Bin h b (l1 ++ l2) l r) rec al0 H g h' al t'.
Proof.
  intros P Hn Hn1 Hn2 Ha Hb IH p. pose proof (ip_sorted _ _ _ _ _ P) as Hs. cbn [contents] in Hs. rewrite <- app_assoc, app_assoc in Hs.
  pose proof (sorted_insert rank rec _ _ Hs Ha Hb) as Hf. assert (Hrec : forall x, x ∈ contents (Bin h b (l1 ++ l2) l r) -> rank x <> rank rec).
  { intros x Hx. cbn [contents] in Hx. rewrite <- app_assoc, app_assoc in Hx. apply elem_of_app in Hx as [Hx|Hx]; [apply (above_absent _ _ Ha x Hx)|apply (below_absent _ _ Hb x Hx)]. }
  destruct (displace_spec (root l) (root r) b l1 l2 rec (Z.of_nat (length l1)) eq_refl Hn1 Hn2) as (out & xs1 & Ed & Hd). fold p in Ed. rewrite Ed. cbn [mbind option_bind].
  assert (Hq : exists u v, contents (Bin h b xs1 l r) = u ++ v /\ sorted rank (u ++ out :: v) /\ out :: xs1 ≡ₚ rec :: l1 ++ l2 /\
    (forall x, x ∈ u -> klt (rank x) (rank out)) /\ (forall x, x ∈ v -> klt (rank out) (rank x)) /\ (u = contents l \/ v = contents r)).
  { destruct Hd as [(ys & -> & ->)|(ys & -> & ->)].
    - exists (contents l), ((ys ++ rec :: l2) ++ contents r). rewrite <- (app_assoc (contents l)) in Hf. cbn [app] in Hf. rewrite (app_comm_cons l2), (app_assoc ys) in Hf.
      destruct (sorted_remove rank out _ _ Hf) as (_ & H1 & H2). split; [reflexivity|]. split; [exact Hf|]. split; [rewrite <- (Permutation_middle ys l2 rec); apply perm_swap|auto].
    - exists (contents l ++ l1 ++ rec :: ys), (contents r). replace ((contents l ++ l1) ++ rec :: (ys ++ [out]) ++ contents r) with ((contents l ++ l1 ++ rec :: ys) ++ out :: contents r) in Hf by (repeat (rewrite <- ! app_assoc; cbn [app]); reflexivity).
      destruct (sorted_remove rank out _ _ Hf) as (_ & H1 & H2). split; [cbn [contents]; rewrite ! app_assoc; reflexivity|]. split; [exact Hf|].
      split; [rewrite <- (Permutation_middle l1 ys rec), (app_assoc l1 ys [out]), <- (Permutation_cons_append (l1 ++ ys) out); apply perm_swap|auto]. }
  destruct Hq as (u & v & Ec & Hfo & Hpm & Hu & Hv & Huv). apply (reinsert_spec insert t H h b (l1 ++ l2) xs1 l r k rec out al0 P Hn Hpm); try assumption.
  - rewrite Ec. apply (sorted_remove rank out _ _ Hfo).
  - cbn [contents] in Ec. destruct Huv as [->| ->]; [left|right].
    + apply app_inv_head in Ec. subst v. split; [intros x Hx; apply Hv; set_solver|apply above_outer; exact Hu].
    + rewrite app_assoc in Ec. apply app_inv_tail in Ec. subst u. split; [intros x Hx; apply Hu; set_solver|apply below_outer; exact Hv].
  - intros x Hx. rewrite Ec in Hx. apply elem_of_app in Hx as [Hx|Hx]; [apply (above_absent (rank out) u Hu x Hx)|apply (below_absent (rank out) v Hv x Hx)].
Qed.

Lemma insert_between_spec insert t H h b xs x0 xn l r ar k rec al0 : insert_pre t H (Bin h b xs l r) k rec -> head xs = Some x0 -> last xs = Some xn ->
  klt (rank x0) (rank rec) -> klt (rank rec) (rank xn) -> Z.of_nat (length (xs ++ ar)) = PAGE_SIZE ->
  (forall xs1 k' rec' t1, insert_pre t1 H (Bin h b xs1 l r) k' rec' -> outer (rank rec') (Bin h b xs1 l r) ->
     exists g h' al t', insert h k' rec' al0 t1 = Some (g, h', al, t') /\ inserted t1 (Bin h b xs1 l r) rec' al0 H g h' al t') ->
  exists g h' al t', insert_between pfComp convert_cvalue insert h k rec (mkTtreeNode (root l) (root r) b (Z.of_nat (length xs)) (xs ++ ar)) al0 t = Some (g, h', al, t') /\
    inserted t (Bin h b xs l r) rec al0 H g h' al t'.
Proof.
  intros P E0 En H0 Hn Hlen IH. pose proof (ip_sorted _ _ _ _ _ P) as Hs. cbn [contents] in Hs.
  assert (Hsx : sorted rank xs) by (apply sorted_app in Hs as (_ & Hs & _); apply sorted_app in Hs as (Hs & _); exact Hs).
  assert (Hl0 : xs !! 0%nat = Some x0) by (rewrite <- head_lookup; exact E0). rewrite last_lookup in En. unfold insert_between. cbn [m_ahItems m_ushNItems].
  assert (Hl2 : (2 <= length xs)%nat).
  { pose proof (lookup_lt_Some _ _ _ Hl0). destruct (decide (length xs = 1%nat)) as [E|]; [|lia]. rewrite E in En. cbn in En. rewrite Hl0 in En. injection En as ->. exfalso. apply (klt_irrefl (rank xn)). etransitivity; eassumption. }
  destruct (bisect_spec pfComp rank t k (rank rec) xs ar Hsx) with (fuel := Z.to_nat PAGE_SIZE) (l := 1) (r := Z.of_nat (length xs) - 1) as [(i & x & -> & Hi & Ex & Hx)|(p & -> & Hp & Hlo & Hhi)]; try lia.
  - eapply compares_sub; [|apply P]. cbn. set_solver.
  - rewrite length_app in Hlen. unfold PAGE_SIZE in *. lia.
  - intros i x Ex Hi. assert (i = 0%nat) as -> by lia. rewrite Hl0 in Ex. injection Ex as <-. exact H0.
  - intros i x Ex Hi. pose proof (lookup_lt_Some _ _ _ Ex). replace i with (pred (length xs)) in Ex by lia. rewrite En in Ex. injection Ex as <-. exact Hn.
  - cbn [mbind option_bind]. do 4 eexists. split; [reflexivity|]. eapply (ins_exists _ (Bin h b xs l r)); [|exact Hx]. cbn. apply list_elem_of_lookup_2 in Ex. set_solver.
  - cbn [mbind option_bind].
    assert (Hex : exists l1 l2, xs = l1 ++ l2 /\ p = Z.of_nat (length l1) /\ l1 <> [] /\ l2 <> [] /\ above rank (rank rec) l1 /\ below rank (rank rec) l2).
    { exists (take (Z.to_nat p) xs), (drop (Z.to_nat p) xs). rewrite take_drop, length_take. split_and!; [reflexivity|lia|..].
      - intros E. apply (f_equal length) in E. rewrite length_take in E. cbn in E. lia.
      - intros E. apply (f_equal length) in E. rewrite length_drop in E. cbn in E. lia.
      - intros x Hx. apply list_elem_of_lookup in Hx as [i Ex]. apply lookup_take_Some in Ex as [Ex Hi]. apply (Hlo i x Ex). lia.
      - intros x Hx. apply list_elem_of_lookup in Hx as [i Ex]. rewrite lookup_drop in Ex. apply (Hhi _ x Ex). lia. }
    destruct Hex as (l1 & l2 & -> & -> & Hn1 & Hn2 & Ha & Hb). clear Hlo Hhi Hp Hl2 Hl0 En.
    assert (Ha' : above rank (rank rec) (contents l ++ l1)).
    { intros x Hx. apply elem_of_app in Hx as [Hx|Hx]; [|auto]. apply sorted_app in Hs as (_ & _ & Hs). etransitivity; [apply (Hs x x0 Hx)|exact H0]. destruct l1; [contradiction|]. injection E0 as ->. set_solver. }
    assert (Hb' : below rank (rank rec) (l2 ++ contents r)).
    { intros x Hx. apply elem_of_app in Hx as [Hx|Hx]; [auto|]. destruct l2 as [|y l2]; [contradiction|]. etransitivity; [apply (Hb y), list_elem_of_here|].
      rewrite <- ! app_assoc in Hs. rewrite app_assoc in Hs. apply sorted_app in Hs as (_ & Hs & _). apply sorted_app in Hs as (_ & _ & Hs). apply Hs; [apply list_elem_of_here|exact Hx]. }
    destruct (Z.ltb_spec (Z.of_nat (length (l1 ++ l2))) PAGE_SIZE) as [Hr|Hr].
    + destruct (room_behind _ _ Hlen Hr) as (y & ar' & ->). rewrite insert_item_spec by (reflexivity || exact Hr). cbn [mbind option_bind]. do 4 eexists. split; [reflexivity|]. eapply insert_here; eassumption.
    + assert (ar = []) as -> by (rewrite length_app in Hlen; destruct ar; [reflexivity|cbn in Hlen; lia]). rewrite app_nil_r in *.
      eapply insert_full_spec; try eassumption; lia.
Qed.

Lemma not_both x a xs : x ∈ xs -> klt a (rank x) -> above rank a xs -> False.
Proof. intros Hx Ha Hb. apply (klt_irrefl a). etransitivity; [exact Ha|apply Hb, Hx]. Qed.
Lemma not_both' x a xs : x ∈ xs -> klt (rank x) a -> below rank a xs -> False.
Proof. intros Hx Ha Hb. apply (klt_irrefl a). etransitivity; [apply Hb, Hx|exact Ha]. Qed.

Lemma node_insert_spec fuel : forall t H T k rec al0, T <> Leaf -> insert_pre t H T k rec -> deep_enough fuel (rank rec) T ->
  exists g h' al t', node_insert pfComp convert_cvalue fuel (root T) k rec al0 t = Some (g, h', al, t') /\ inserted t T rec al0 H g h' al t'.
Proof.
  induction fuel as [|fuel IH]; intros t H [|h b xs l r] k rec al0 Hn P Hd; try contradiction; pose proof (height_nonneg l) as Hl; pose proof (height_nonneg r) as Hr.
  { destruct Hd as [Hd|[Hd _]]; cbn [height] in Hd; lia. }
  destruct (ip_rep _ _ _ _ _ P) as (_ & (ar & Ea & Hlen) & _). destruct (ip_balanced _ _ _ _ _ P) as (Hx & _). cbn [node_insert root]. rewrite Ea. cbn [mbind option_bind m_ahItems m_ushNItems].
  destruct xs as [|x0 xs]; [cbn in Hx; lia|]. change (item ((x0 :: xs) ++ ar) 0) with (Some x0). cbn [mbind option_bind].
  destruct (diff_cases pfComp rank t k (rank rec) _ x0 (ip_cmp _ _ _ _ _ P)) as [(D & Hk & _)|[(D & Hk & _)|(D & Hk & _)]]; [cbn; set_solver|..].
  - rewrite (proj2 (Z.eqb_eq _ _) D). do 4 eexists. split; [reflexivity|]. apply (ins_exists t (Bin h b (x0 :: xs) l r) rec al0 H x0); [cbn; set_solver|exact Hk].
  - rewrite (proj2 (Z.eqb_neq _ _)), (proj2 (Z.leb_le _ _)) by lia. apply insert_before_spec; try assumption. intros Hnl. apply IH; [exact Hnl|apply (pre_left _ _ _ _ _ _ _ _ _ P)|].
    destruct Hd as [Hd|[Hd [[_ Ho]|[Ho _]]]]; cbn [height] in Hd; [left; lia|right; split; [lia|exact Ho]|]. exfalso. apply (not_both x0 (rank rec) (x0 :: xs)); [apply list_elem_of_here|assumption..].
  - rewrite (proj2 (Z.eqb_neq _ _)), (proj2 (Z.leb_gt _ _)) by lia. destruct (last (x0 :: xs)) as [xn|] eqn:El; [|apply last_None in El; discriminate]. apply last_Some in El as (ys & Ey). rewrite Ey in *.
    rewrite <- app_assoc. cbn [app]. rewrite item_at by (rewrite length_app; cbn; lia). cbn [mbind option_bind].
    destruct (diff_cases pfComp rank t k (rank rec) _ xn (ip_cmp _ _ _ _ _ P)) as [(D' & Hk' & _)|[(D' & Hk' & _)|(D' & Hk' & _)]]; [cbn; set_solver|..].
    + rewrite (proj2 (Z.eqb_eq _ _) D'). do 4 eexists. split; [reflexivity|]. apply (ins_exists t (Bin h b (ys ++ [xn]) l r) rec al0 H xn); [cbn; set_solver|exact Hk'].
    + rewrite (proj2 (Z.eqb_neq _ _)), (proj2 (Z.leb_gt _ _)) by lia.
      replace (ys ++ xn :: ar) with ((ys ++ [xn]) ++ ar) by (rewrite <- app_assoc; reflexivity). apply (insert_between_spec _ t H h b (ys ++ [xn]) x0 xn l r ar k rec al0); try assumption.
      * rewrite <- Ey. reflexivity.
      * apply last_snoc.
      * intros xs1 k' rec' t1 P1 Ho. apply (IH t1 H (Bin h b xs1 l r)); [discriminate|exact P1|]. right. split; [|exact Ho].
        destruct Hd as [Hd|[Hd [[Hd' _]|[Hd' _]]]]; [cbn [height] in *; lia|exfalso; apply (not_both' x0 (rank rec) (ys ++ [xn])); [rewrite <- Ey; apply list_elem_of_here|assumption..]|exfalso; apply (not_both xn (rank rec) (ys ++ [xn])); [set_solver|assumption..]].
    + rewrite (proj2 (Z.eqb_neq _ _)), (proj2 (Z.leb_le _ _)) by lia. replace (ys ++ xn :: ar) with ((ys ++ [xn]) ++ ar) by (rewrite <- app_assoc; reflexivity).
      apply insert_behind_spec; try assumption; [lia|]. intros Hnr. apply IH; [exact Hnr|apply (pre_right _ _ _ _ _ _ _ _ _ P)|].
      destruct Hd as [Hd|[Hd [[Ho _]|[_ Ho]]]]; cbn [height] in Hd; [left; lia| |right; split; [lia|exact Ho]]. exfalso. apply (not_both' xn (rank rec) (ys ++ [xn])); [set_solver|assumption..].
Qed.
End Insert.
