(* ===== verification/TTreeDelete.v ===== *)
(** * Deletion from a T-tree

    [TtreeNode::Delete] takes the record with a key out of the tree, keeps the
    rest in order and balanced, gives at most one node back to the allocator,
    and leaves the tree alone when the key is not in it. *)

From S2P Require Import Prelude PtMalloc PtMallocSpec MallocBase TTree TTreeShape TTreeOrder TTreeInsert.

Section Delete.
Context {S K A : Type} {MB : MallocBase S} {ML : MallocLaws S} {KO : KeyOrder A}.
Context (pfComp : K -> S -> Z -> Z) (convert_cvalue : S -> Z -> K) (rank : Z -> A).

Record delete_pre (t : Tree S) (H : heap) (T : shape) (k : K) (a : A) : Prop := {
  dp_rep : rep (nodes t) T;
  dp_nodup : NoDup (handles T);
  dp_balanced : balanced T;
  dp_sorted : sorted rank (contents T);
  dp_cmp : compares pfComp rank (mem t) k a (contents T);
  dp_ranked : ranked pfComp convert_cvalue rank (mem t) (contents T);
  dp_mem : m_rep (mem t) H;
  dp_alive : alive t H
}.

(** The memory after an operation that frees at most one of the nodes [hs]. *)
Inductive freed (hs : list Z) (s : S) (H : heap) : S -> heap -> Prop :=
  | freed_none : freed hs s H s H
  | freed_one h n s' : h ∈ hs -> H !! h = Some n -> m_rep s' (delete h H) -> (forall x, in_heap (delete h H) x -> load x s' = load x s) -> freed hs s H s' (delete h H).

Lemma freed_sub hs hs' s H s' H' : (forall x, x ∈ hs -> x ∈ hs') -> freed hs s H s' H' -> freed hs' s H s' H'.
Proof. intros Hs [|h n s1 Hi En Hm Hl]; [apply freed_none|]. apply (freed_one _ _ _ h n); auto. Qed.

Inductive deleted (t : Tree S) (T : shape) (a : A) (fl0 : bool) (H : heap) : Z -> Z -> bool -> Tree S -> Prop :=
  | del_missing : (forall x, x ∈ contents T -> rank x <> a) -> deleted t T a fl0 H (-1) (root T) fl0 t
  | del_done T' g x fl t' H' : moved H t T t' T' -> balanced T' -> rank x = a -> contents T ≡ₚ x :: contents T' -> sorted rank (contents T') ->
      0 <= g <= 1 -> height T' = height T - g -> freed (handles T) (mem t) H (mem t') H' -> alive t' H' -> deleted t T a fl0 H g (root T') fl t'.

Lemma delete_left t H h b xs l r k a : delete_pre t H (Bin h b xs l r) k a -> delete_pre t H l k a.
Proof.
  intros [(_ & _ & R & _) N (_ & _ & _ & B & _) O C Q M L]. cbn in *. split; try assumption.
  - apply NoDup_app in N. tauto.
  - apply sorted_app in O. tauto.
  - eapply compares_sub; [|exact C]. set_solver.
  - eapply ranked_sub; [|exact Q]. set_solver.
Qed.

Lemma delete_right t H h b xs l r k a : delete_pre t H (Bin h b xs l r) k a -> delete_pre t H r k a.
Proof.
  intros [(_ & _ & _ & R) N (_ & _ & _ & _ & B) O C Q M L]. cbn in *. split; try assumption.
  - apply NoDup_app in N as (_ & _ & N). apply NoDup_cons in N. tauto.
  - rewrite app_assoc in O. apply sorted_app in O. tauto.
  - eapply compares_sub; [|exact C]. set_solver.
  - eapply ranked_sub; [|exact Q]. set_solver.
Qed.

Lemma sorted_inj xs x y : sorted rank xs -> x ∈ xs -> y ∈ xs -> rank x = rank y -> x = y.
Proof.
  intros Hs Hx Hy E. apply list_elem_of_lookup in Hx as [i Ei]. apply list_elem_of_lookup in Hy as [j Ej]. destruct (Nat.lt_trichotomy i j) as [Hij|[->|Hij]]; [|congruence|].
  - exfalso. apply (klt_irrefl (rank x)). rewrite E at 2. apply (sorted_lookup rank xs i j); assumption.
  - exfalso. apply (klt_irrefl (rank x)). rewrite E at 1. apply (sorted_lookup rank xs j i); assumption.
Qed.

Lemma sorted_left_sub cl cl' ys : sorted rank (cl ++ ys) -> sorted rank cl' -> (forall x, x ∈ cl' -> x ∈ cl) -> sorted rank (cl' ++ ys).
Proof. rewrite ! sorted_app. intros (_ & Hy & Hs) Hc Hx. split_and!; auto. Qed.
Lemma sorted_right_sub cr cr' ys : sorted rank (ys ++ cr) -> sorted rank cr' -> (forall x, x ∈ cr' -> x ∈ cr) -> sorted rank (ys ++ cr').
Proof. rewrite ! sorted_app. intros (Hy & _ & Hs) Hc Hx. split_and!; auto. Qed.

(** ** The parent of a branch that was deleted from *)

Section Parent.
Context (t : Tree S) (H : heap) (h b : Z) (xs : list Z) (l r : shape).
Context (Hali : alive t H) (Hrep : rep (nodes t) (Bin h b xs l r)) (Hnd : NoDup (handles (Bin h b xs l r))) (Hb : balanced (Bin h b xs l r)).

Lemma shrunk_left_spec t1 l' g H' : moved H t l t1 l' -> balanced l' -> 0 <= g <= 1 -> height l' = height l - g -> alive t1 H' ->
  exists g' t' T', shrunk_left h (root l) g (root l') t1 = Some (g', root T', t') /\ moved H t (Bin h b xs l r) t' T' /\ balanced T' /\
    contents T' = contents l' ++ xs ++ contents r /\ 0 <= g' <= 1 /\ height T' = height (Bin h b xs l r) - g' /\ mem t' = mem t1 /\ alive t' H'.
Proof.
  intros M Bl' Hg Hh Hal. unfold shrunk_left. rewrite (proj2 (Z.ltb_ge _ _)) by lia. destruct (moved_left H t h b xs l r t1 l' Hali Hrep Hnd M) as (t2 & -> & Em & M2 & Hd). cbn [mbind option_bind].
  destruct Hb as (Hx & Eb & Hbb & Bl & Br). assert (Hal2 : alive t2 H') by (eapply alive_mono; [exact Hal|exact Hd]). destruct (Z.ltb_spec 0 g).
  - assert (g = 1) as -> by lia. destruct (balance_left_spec t2 h b xs l' r) as (g' & t3 & T' & -> & R & Hg' & Hh'); try assumption; try lia; [apply M2..|].
    exists g', t3, T'. split_and!; try reflexivity; try lia.
    + eapply moved_rebalanced; eassumption.
    + apply R.
    + rewrite (rb_contents _ _ _ _ R). reflexivity.
    + rewrite Hh'. cbn [height]. lia.
    + rewrite (rb_mem _ _ _ _ R). exact Em.
    + eapply alive_rebalanced; [apply (mv_rep _ _ _ _ _ M2)|exact R|exact Hal2].
  - assert (g = 0) as -> by lia. exists 0, t2, (Bin h b xs l' r). split_and!; try reflexivity; try assumption; try lia.
    + cbn [balanced]. split_and!; try assumption; lia.
    + cbn [height]. lia.
Qed.

Lemma shrunk_right_spec t1 r' g H' : moved H t r t1 r' -> balanced r' -> 0 <= g <= 1 -> height r' = height r - g -> alive t1 H' ->
  exists g' t' T', shrunk_right h (root r) g (root r') t1 = Some (g', root T', t') /\ moved H t (Bin h b xs l r) t' T' /\ balanced T' /\
    contents T' = contents l ++ xs ++ contents r' /\ 0 <= g' <= 1 /\ height T' = height (Bin h b xs l r) - g' /\ mem t' = mem t1 /\ alive t' H'.
Proof.
  intros M Br' Hg Hh Hal. unfold shrunk_right. rewrite (proj2 (Z.ltb_ge _ _)) by lia. destruct (moved_right H t h b xs l r t1 r' Hali Hrep Hnd M) as (t2 & -> & Em & M2 & Hd). cbn [mbind option_bind].
  destruct Hb as (Hx & Eb & Hbb & Bl & Br). assert (Hal2 : alive t2 H') by (eapply alive_mono; [exact Hal|exact Hd]). destruct (Z.ltb_spec 0 g).
  - assert (g = 1) as -> by lia. destruct (balance_right_spec t2 h b xs l r') as (g' & t3 & T' & -> & R & Hg' & Hh'); try assumption; try lia; [apply M2..|].
    exists g', t3, T'. split_and!; try reflexivity; try lia.
    + eapply moved_rebalanced; eassumption.
    + apply R.
    + rewrite (rb_contents _ _ _ _ R). reflexivity.
    + rewrite Hh'. cbn [height]. lia.
    + rewrite (rb_mem _ _ _ _ R). exact Em.
    + eapply alive_rebalanced; [apply (mv_rep _ _ _ _ _ M2)|exact R|exact Hal2].
  - assert (g = 0) as -> by lia. exists 0, t2, (Bin h b xs l r'). split_and!; try reflexivity; try assumption; try lia.
    + cbn [balanced]. split_and!; try assumption; lia.
    + cbn [height]. lia.
Qed.
End Parent.

(** The key was not in the branch. *)
Lemma shrunk_missing h hc (t : Tree S) : shrunk_left h hc (-1) hc t = Some (-1, h, t) /\ shrunk_right h hc (-1) hc t = Some (-1, h, t).
Proof. unfold shrunk_left, shrunk_right. change (-1 <? -1) with false. rewrite Z.eqb_refl. split; reflexivity. Qed.

(** ** The ends of a branch *)

Lemma rightmost_spec fuel : forall (t : Tree S) T, T <> Leaf -> rep (nodes t) T -> balanced T -> height T <= Z.of_nat fuel ->
  exists p y, rightmost fuel (root T) t = Some p /\ item (m_ahItems p) (m_ushNItems p - 1) = Some y /\ last (contents T) = Some y.
Proof.
  induction fuel as [|fuel IH]; intros t [|h b xs l r] Hn; try contradiction; intros (Hh & (a & Ea & Hlen) & _ & Hr) (Hx & _ & _ & _ & Br) Hf; pose proof (height_nonneg r) as Hr0; cbn [height] in Hf; [pose proof (height_nonneg l); lia|].
  cbn [rightmost root]. rewrite Ea. cbn [mbind option_bind m_hRight]. destruct r as [|hr br xr rl rr].
  - cbn [root]. change (INVALID_HANDLE =? INVALID_HANDLE) with true. cbn [negb]. destruct (last xs) as [y|] eqn:El; [|apply last_None in El; subst xs; cbn in Hx; lia]. apply last_Some in El as (ys & ->).
    eexists _, y. split; [reflexivity|]. cbn [m_ahItems m_ushNItems contents]. split; [rewrite <- app_assoc; apply item_at; rewrite length_app; cbn; lia|]. rewrite app_nil_r, app_assoc. apply last_snoc.
  - destruct Hr as (Hhr & Hr'). cbn [root]. rewrite (proj2 (Z.eqb_neq _ _) Hhr). cbn [negb]. destruct (IH t (Bin hr br xr rl rr)) as (p & y & E & Ei & El); [discriminate|split; assumption|exact Br|lia|].
    exists p, y. split; [exact E|]. split; [exact Ei|]. cbn [contents] in *. rewrite app_assoc. rewrite last_app, El. reflexivity.
Qed.

Lemma leftmost_spec fuel : forall (t : Tree S) T, T <> Leaf -> rep (nodes t) T -> balanced T -> height T <= Z.of_nat fuel ->
  exists p y, leftmost fuel (root T) t = Some p /\ item (m_ahItems p) 0 = Some y /\ head (contents T) = Some y.
Proof.
  induction fuel as [|fuel IH]; intros t [|h b xs l r] Hn; try contradiction; intros (Hh & (a & Ea & Hlen) & Hl & _) (Hx & _ & _ & Bl & _) Hf; pose proof (height_nonneg l) as Hl0; cbn [height] in Hf; [pose proof (height_nonneg r); lia|].
  cbn [leftmost root]. rewrite Ea. cbn [mbind option_bind m_hLeft]. destruct l as [|hl bl xl ll lr].
  - cbn [root]. change (INVALID_HANDLE =? INVALID_HANDLE) with true. cbn [negb]. destruct xs as [|y ys]; [cbn in Hx; lia|]. eexists _, y. split_and!; reflexivity.
  - destruct Hl as (Hhl & Hl'). cbn [root]. rewrite (proj2 (Z.eqb_neq _ _) Hhl). cbn [negb]. destruct (IH t (Bin hl bl xl ll lr)) as (p & y & E & Ei & El); [discriminate|split; assumption|exact Bl|lia|].
    exists p, y. split; [exact E|]. split; [exact Ei|]. cbn [contents] in *. destruct (contents ll ++ xl ++ contents lr); [discriminate|exact El].
Qed.

(** ** An item leaves its node *)

(** The node goes with its only item. *)
Lemma free_root_spec t H h b x l r c k a fl0 fl : delete_pre t H (Bin h b [x] l r) k a -> rank x = a -> r = Leaf /\ c = l \/ l = Leaf /\ c = r ->
  deleted t (Bin h b [x] l r) a fl0 H 1 (root c) fl (free_node h t).
Proof.
  intros P Hx Hc. destruct (dp_rep _ _ _ _ _ P) as (Hh & (ar & Ea & _) & Rl & Rr). destruct (dp_balanced _ _ _ _ _ P) as (_ & _ & _ & Bl & Br).
  pose proof (dp_nodup _ _ _ _ _ P) as Hn. cbn [handles] in Hn. destruct (nodup_at h _ _ Hn) as (H1 & H2 & N1 & N2 & _). pose proof (dp_sorted _ _ _ _ _ P) as Hs. cbn [contents] in Hs.
  destruct (sorted_remove rank x _ _ Hs) as (Hs' & _). destruct (dp_alive _ _ _ _ _ P h) as [n En]; [eauto|]. destruct (m_Free_ok _ _ _ _ (dp_mem _ _ _ _ _ P) En) as (s' & Ef & Hm & Hl).
  pose proof (height_nonneg l). pose proof (height_nonneg r). apply (del_done t _ a fl0 H c 1 x fl (free_node h t) (delete h H)).
  - assert (Hhc : handles l ++ handles r = handles c) by (destruct Hc as [[-> ->]|[-> ->]]; [apply app_nil_r|reflexivity]). split; cbn [nodes free_node handles].
    + destruct Hc as [[-> ->]|[-> ->]]; apply rep_delete; assumption.
    + destruct Hc as [[-> ->]|[-> ->]]; assumption.
    + intros y Hy. left. rewrite <- Hhc in Hy. set_solver.
    + intros y Hy _. apply lookup_delete_ne. set_solver.
    + intros y Hy Hy'. rewrite <- Hhc in Hy'. assert (y = h) as -> by set_solver. apply lookup_delete_eq.
  - destruct Hc as [[-> ->]|[-> ->]]; assumption.
  - exact Hx.
  - cbn [contents app]. rewrite <- Permutation_middle. destruct Hc as [[-> ->]|[-> ->]]; cbn; rewrite ? app_nil_r; reflexivity.
  - destruct Hc as [[-> ->]|[-> ->]]; cbn in Hs'; rewrite ? app_nil_r in Hs'; exact Hs'.
  - lia.
  - destruct Hc as [[-> ->]|[-> ->]]; cbn [height] in *; lia.
  - cbn [mem free_node]. rewrite Ef. apply (freed_one _ _ _ h n); [cbn; set_solver|assumption..].
  - intros y. cbn [nodes free_node]. intros Hy. destruct (decide (y = h)) as [->|Hne]; [rewrite lookup_delete_eq in Hy; destruct Hy; discriminate|]. rewrite lookup_delete_ne in Hy by congruence. rewrite lookup_delete_ne by congruence. apply P, Hy.
Qed.

(** The item before or behind takes its place. *)
Lemma replace_pre t H h b xs xs' l r k a : delete_pre t H (Bin h b xs l r) k a -> length xs' = length xs -> forall ar, Z.of_nat (length (xs' ++ ar)) = PAGE_SIZE ->
  let t1 := put h (mkTtreeNode (root l) (root r) b (Z.of_nat (length xs')) (xs' ++ ar)) t in
  moved H t (Bin h b xs l r) t1 (Bin h b xs' l r) /\ alive t1 H /\ balanced (Bin h b xs' l r).
Proof.
  intros P Hl ar Hlen t1. split; [apply moved_root; [apply P..|exact Hlen]|]. split.
  - eapply alive_mono; [apply P|]. intros x. unfold t1. cbn. destruct (decide (x = h)) as [->|Hx]; [|rewrite lookup_insert_ne by congruence; auto]. destruct (dp_rep _ _ _ _ _ P) as (_ & (a' & Ea & _) & _). eauto.
  - destruct (dp_balanced _ _ _ _ _ P) as (? & ? & ? & ? & ?). cbn. rewrite Hl. split_and!; assumption || lia.
Qed.

Section Drop.
Context (fuel : nat) (delete : deletion (S := S) (K := K)) (t : Tree S) (H : heap) (h b : Z) (l1 : list Z) (x : Z) (l2 ar : list Z) (l r : shape) (k : K) (a : A).
Context (P : delete_pre t H (Bin h b (l1 ++ x :: l2) l r) k a) (Hx : rank x = a) (Hlen : Z.of_nat (length ((l1 ++ x :: l2) ++ ar)) = PAGE_SIZE).
Context (Hf : height (Bin h b (l1 ++ x :: l2) l r) <= Z.of_nat fuel + 1).
Context (IH : forall t1 T1 k1 a1 fl1, T1 <> Leaf -> delete_pre t1 H T1 k1 a1 -> height T1 <= Z.of_nat fuel ->
  exists g h' fl t', delete (root T1) k1 fl1 t1 = Some (g, h', fl, t') /\ deleted t1 T1 a1 fl1 H g h' fl t').

Lemma take_from_left fl0 y w : contents l = w ++ [y] -> l <> Leaf ->
  let t1 := put h (mkTtreeNode (root l) (root r) b (Z.of_nat (length (y :: l1 ++ l2))) ((y :: l1 ++ l2) ++ ar)) t in
  exists g h' fl t', ('(iRet, hChild, isFreeNode, t) ← delete (root l) (convert_cvalue (mem t1) y) fl0 t1;
      '(iRet, hNode, t) ← shrunk_left h (root l) iRet hChild t;
      Some (iRet, hNode, isFreeNode, t)) = Some (g, h', fl, t') /\ forall fl1, deleted t (Bin h b (l1 ++ x :: l2) l r) a fl1 H g h' fl t'.
Proof.
  intros Ew Hnl t1. assert (Hl : length (y :: l1 ++ l2) = length (l1 ++ x :: l2)) by (rewrite ! length_app; cbn; rewrite length_app; lia).
  destruct (replace_pre t H h b _ (y :: l1 ++ l2) l r k a P Hl ar) as (M1 & Al1 & B1). { rewrite length_app, Hl, <- length_app. exact Hlen. } fold t1 in M1, Al1.
  destruct (mv_rep _ _ _ _ _ M1) as (_ & _ & Rl1 & _). pose proof (delete_left _ _ _ _ _ _ _ _ _ P) as Pl. assert (Hy : y ∈ contents l) by (rewrite Ew; set_solver).
  assert (Pl1 : delete_pre t1 H l (convert_cvalue (mem t1) y) (rank y)) by (split; try apply Pl; try assumption; apply (dp_ranked _ _ _ _ _ Pl), Hy).
  cbn [height] in Hf. pose proof (height_nonneg l). pose proof (height_nonneg r). destruct (IH t1 l (convert_cvalue (mem t1) y) (rank y) fl0 Hnl Pl1 ltac:(lia)) as (g & h1 & fl & t2 & -> & R). cbn [mbind option_bind].
  inversion R as [Hno|l' g0 z fl' t2' H' M B Hz C O G Hh Hfr Hal]; subst; [exfalso; exact (Hno y Hy eq_refl)|].
  destruct (shrunk_left_spec t1 H h b (y :: l1 ++ l2) l r Al1 (mv_rep _ _ _ _ _ M1) (mv_nodup _ _ _ _ _ M1) B1 t2 l' g H' M B G Hh Hal) as (g' & t3 & T' & -> & M3 & B3 & C3 & G3 & H3 & Em & Al3). cbn [mbind option_bind].
  do 4 eexists. split; [reflexivity|]. intros fl1. assert (z = y) as -> by (apply (sorted_inj (contents l)); [apply Pl|rewrite C; apply list_elem_of_here|exact Hy|exact Hz]).
  assert (Cw : contents l' ≡ₚ w) by (apply (Permutation_cons_inv (a := y)); rewrite <- C, Ew; symmetry; apply Permutation_cons_append).
  pose proof (dp_sorted _ _ _ _ _ P) as Hs. cbn [contents] in Hs. rewrite Ew in Hs.
  eapply (del_done t _ _ fl1 H T' g' x); try eassumption; try reflexivity.
  - eapply moved_trans; [exact M1|reflexivity|exact M3].
  - rewrite C3. cbn [contents]. rewrite Ew, Cw. repeat (rewrite <- ! app_assoc; cbn [app]). replace (w ++ y :: l1 ++ x :: l2 ++ contents r) with ((w ++ y :: l1) ++ x :: l2 ++ contents r) by (rewrite <- app_assoc; reflexivity).
    rewrite <- Permutation_middle, <- app_assoc. reflexivity.
  - rewrite C3. replace ((w ++ [y]) ++ (l1 ++ x :: l2) ++ contents r) with ((w ++ y :: l1) ++ x :: l2 ++ contents r) in Hs by (repeat (rewrite <- ! app_assoc; cbn [app]); reflexivity).
    apply sorted_remove in Hs as (Hs & _). rewrite <- ! app_assoc in Hs. cbn [app] in *. rewrite <- app_assoc. eapply sorted_left_sub; [exact Hs|exact O|]. intros u. rewrite Cw. auto.
  - rewrite Em. eapply freed_sub; [|exact Hfr]. cbn. set_solver.
Qed.

Lemma take_from_right fl0 y w : contents r = y :: w -> r <> Leaf ->
  let t1 := put h (mkTtreeNode (root l) (root r) b (Z.of_nat (length (l1 ++ l2 ++ [y]))) ((l1 ++ l2 ++ [y]) ++ ar)) t in
  exists g h' fl t', ('(iRet, hChild, isFreeNode, t) ← delete (root r) (convert_cvalue (mem t1) y) fl0 t1;
      '(iRet, hNode, t) ← shrunk_right h (root r) iRet hChild t;
      Some (iRet, hNode, isFreeNode, t)) = Some (g, h', fl, t') /\ forall fl1, deleted t (Bin h b (l1 ++ x :: l2) l r) a fl1 H g h' fl t'.
Proof.
  intros Ew Hnr t1. assert (Hl : length (l1 ++ l2 ++ [y]) = length (l1 ++ x :: l2)) by (rewrite ! length_app; cbn; lia).
  destruct (replace_pre t H h b _ (l1 ++ l2 ++ [y]) l r k a P Hl ar) as (M1 & Al1 & B1). { rewrite length_app, Hl, <- length_app. exact Hlen. } fold t1 in M1, Al1.
  destruct (mv_rep _ _ _ _ _ M1) as (_ & _ & _ & Rr1). pose proof (delete_right _ _ _ _ _ _ _ _ _ P) as Pr. assert (Hy : y ∈ contents r) by (rewrite Ew; set_solver).
  assert (Pr1 : delete_pre t1 H r (convert_cvalue (mem t1) y) (rank y)) by (split; try apply Pr; try assumption; apply (dp_ranked _ _ _ _ _ Pr), Hy).
  cbn [height] in Hf. pose proof (height_nonneg l). pose proof (height_nonneg r). destruct (IH t1 r (convert_cvalue (mem t1) y) (rank y) fl0 Hnr Pr1 ltac:(lia)) as (g & h1 & fl & t2 & -> & R). cbn [mbind option_bind].
  inversion R as [Hno|r' g0 z fl' t2' H' M B Hz C O G Hh Hfr Hal]; subst; [exfalso; exact (Hno y Hy eq_refl)|].
  destruct (shrunk_right_spec t1 H h b (l1 ++ l2 ++ [y]) l r Al1 (mv_rep _ _ _ _ _ M1) (mv_nodup _ _ _ _ _ M1) B1 t2 r' g H' M B G Hh Hal) as (g' & t3 & T' & -> & M3 & B3 & C3 & G3 & H3 & Em & Al3). cbn [mbind option_bind].
  do 4 eexists. split; [reflexivity|]. intros fl1. assert (z = y) as -> by (apply (sorted_inj (contents r)); [apply Pr|rewrite C; apply list_elem_of_here|exact Hy|exact Hz]).
  assert (Cw : contents r' ≡ₚ w) by (apply (Permutation_cons_inv (a := y)); rewrite <- C, Ew; reflexivity).
  pose proof (dp_sorted _ _ _ _ _ P) as Hs. cbn [contents] in Hs. rewrite Ew in Hs.
  eapply (del_done t _ _ fl1 H T' g' x); try eassumption; try reflexivity.
  - eapply moved_trans; [exact M1|reflexivity|exact M3].
  - rewrite C3. cbn [contents]. rewrite Ew, Cw. repeat (rewrite <- ! app_assoc; cbn [app]). rewrite (app_assoc (contents l) l1), (app_assoc (contents l) l1), <- Permutation_middle. reflexivity.
  - rewrite C3. repeat (rewrite <- ! app_assoc in *; cbn [app] in * ). rewrite (app_assoc (contents l) l1) in Hs. apply sorted_remove in Hs as (Hs & _).
    replace ((contents l ++ l1) ++ l2 ++ y :: w) with ((contents l ++ l1 ++ l2 ++ [y]) ++ w) in Hs by (repeat (rewrite <- ! app_assoc; cbn [app]); reflexivity).
    replace (contents l ++ l1 ++ l2 ++ y :: contents r') with ((contents l ++ l1 ++ l2 ++ [y]) ++ contents r') by (repeat (rewrite <- ! app_assoc; cbn [app]); reflexivity).
    eapply sorted_right_sub; [exact Hs|exact O|]. intros u. rewrite Cw. auto.
  - rewrite Em. eapply freed_sub; [|exact Hfr]. cbn. set_solver.
Qed.

(** The items behind close the gap. *)
Lemma close_gap w : l1 ++ l2 <> [] -> forall fl fl1,
  deleted t (Bin h b (l1 ++ x :: l2) l r) a fl1 H 0 h fl (put h (mkTtreeNode (root l) (root r) b (Z.of_nat (length (l1 ++ l2))) ((l1 ++ l2) ++ w :: ar)) t).
Proof.
  intros Hne fl fl1. change h with (root (Bin h b (l1 ++ l2) l r)) at 2. assert (Hnz : (0 < length (l1 ++ l2))%nat) by (destruct (l1 ++ l2); [contradiction|cbn; lia]).
  destruct (dp_balanced _ _ _ _ _ P) as (Bx & Eb & Hbb & Bl & Br). pose proof (dp_sorted _ _ _ _ _ P) as Hs. cbn [contents] in Hs.
  eapply (del_done t _ _ fl1 H (Bin h b (l1 ++ l2) l r) 0 x _ _ H); try reflexivity; try assumption; try lia.
  - apply moved_root; [apply P..|]. rewrite <- Hlen, ! length_app. cbn [length]. lia.
  - rewrite length_app in *. cbn [length] in *. cbn [balanced]. rewrite length_app. split_and!; assumption || lia.
  - cbn [contents]. rewrite <- ! app_assoc. cbn [app]. rewrite ! (app_assoc (contents l) l1), <- Permutation_middle. reflexivity.
  - cbn [contents]. rewrite <- ! app_assoc in *. cbn [app] in *. rewrite (app_assoc (contents l) l1) in *. apply (sorted_remove rank x), Hs.
  - cbn [height]. lia.
  - apply freed_none.
  - eapply alive_mono; [apply P|]. intros y. cbn. destruct (decide (y = h)) as [->|Hy]; [|rewrite lookup_insert_ne by congruence; auto]. destruct (dp_rep _ _ _ _ _ P) as (_ & (a' & Ea & _) & _). eauto.
Qed.

Lemma root_eqb T m : rep m T -> (root T =? INVALID_HANDLE) = match T with Leaf => true | _ => false end.
Proof. destruct T; [reflexivity|]. intros [Hh _]. apply Z.eqb_neq, Hh. Qed.

Lemma give_item_spec fl0 : l1 ++ l2 <> [] \/ l <> Leaf /\ r <> Leaf -> exists g h' fl t', give_item convert_cvalue fuel delete h (Z.of_nat (length l1))
    (mkTtreeNode (root l) (root r) b (Z.of_nat (length (l1 ++ x :: l2))) ((l1 ++ x :: l2) ++ ar)) fl0 t = Some (g, h', fl, t') /\
  forall fl1, deleted t (Bin h b (l1 ++ x :: l2) l r) a fl1 H g h' fl t'.
Proof.
  intros Hne. destruct (dp_rep _ _ _ _ _ P) as (_ & _ & Rl & Rr). destruct (dp_balanced _ _ _ _ _ P) as (Bx & Eb & Hbb & Bl & Br). pose proof (height_nonneg l) as Hl0. pose proof (height_nonneg r) as Hr0. pose proof Hf as Hf'. cbn [height] in Hf'.
  unfold give_item. cbn [m_hLeft m_hRight m_chBalance m_ushNItems m_ahItems]. rewrite (root_eqb l _ Rl), (root_eqb r _ Rr).
  assert (Hdown : exists w, move_down (Z.to_nat (Z.of_nat (length (l1 ++ x :: l2)) - 1 - Z.of_nat (length l1))) (Z.of_nat (length l1) + 1) ((l1 ++ x :: l2) ++ ar) = Some (l1 ++ l2 ++ w :: ar)).
  { rewrite <- app_assoc. cbn [app]. apply move_down_spec; [rewrite length_app; cbn [length]; lia|reflexivity]. }
  assert (Hshift : l1 ++ l2 <> [] -> exists g h' fl t', (a ← move_down (Z.to_nat (Z.of_nat (length (l1 ++ x :: l2)) - 1 - Z.of_nat (length l1))) (Z.of_nat (length l1) + 1) ((l1 ++ x :: l2) ++ ar);
      Some (0, h, fl0, put h (set_count (Z.of_nat (length (l1 ++ x :: l2)) - 1) (set_items a (mkTtreeNode (root l) (root r) b (Z.of_nat (length (l1 ++ x :: l2))) ((l1 ++ x :: l2) ++ ar)))) t)) = Some (g, h', fl, t') /\
    forall fl1, deleted t (Bin h b (l1 ++ x :: l2) l r) a fl1 H g h' fl t').
  { intros Hne'. destruct Hdown as [w ->]. cbn [mbind option_bind]. do 4 eexists. split; [reflexivity|]. intros fl1. pose proof (close_gap w Hne' fl0 fl1) as R.
    unfold set_count, set_items. cbn [m_hLeft m_hRight m_chBalance m_ushNItems m_ahItems]. rewrite wrap_small by (unfold in_width, PAGE_SIZE in *; lia).
    rewrite <- app_assoc in R. replace (Z.of_nat (length (l1 ++ x :: l2)) - 1) with (Z.of_nat (length (l1 ++ l2))) by (rewrite ! length_app; cbn [length]; lia). exact R. }
  destruct (Z.leb_spec (Z.of_nat (length (l1 ++ x :: l2))) MIN_ITEMS) as [Hm|Hm]; cbn [andb].
  2: { apply Hshift. intros E. rewrite length_app in Hm. apply (f_equal length) in E. rewrite length_app in E. unfold MIN_ITEMS, PAGE_SIZE in Hm. cbn [length] in *. lia. }
  destruct (decide (l <> Leaf /\ b <= 0)) as [[Hnl Hb0]|Hno].
  - destruct (rightmost_spec fuel t l Hnl Rl Bl ltac:(lia)) as (pl & y & Er & Ei & Ey). apply last_Some in Ey as (w & Ew).
    assert (El : negb match l with Leaf => true | _ => false end && (b <=? 0) = true) by (rewrite (proj2 (Z.leb_le _ _) Hb0); destruct l; [contradiction|reflexivity]). rewrite El, Er. cbn [mbind option_bind].
    destruct (move_up_spec l1 [] x (l2 ++ ar) (Z.to_nat (Z.of_nat (length l1))) (Z.of_nat (length l1))) as [v Ev]; [lia|reflexivity|]. cbn [app] in Ev. rewrite <- app_assoc. cbn [app]. rewrite Ev, Ei. cbn [mbind option_bind].
    change (v :: l1 ++ l2 ++ ar) with ([] ++ v :: l1 ++ l2 ++ ar). rewrite put_at by reflexivity. cbn [mbind option_bind app].
    pose proof (take_from_left fl0 y w Ew Hnl) as R. unfold set_items. cbn [m_hLeft m_hRight m_chBalance m_ushNItems].
    replace (length (l1 ++ x :: l2)) with (length (y :: l1 ++ l2)) by (cbn [length]; rewrite ! length_app; cbn [length]; lia). cbn [app] in R. rewrite <- app_assoc in R. exact R.
  - assert (El : negb match l with Leaf => true | _ => false end && (b <=? 0) = false) by (destruct l; [reflexivity|cbn [negb andb]; apply Z.leb_gt; destruct (Z.lt_ge_cases 0 b); [assumption|exfalso; apply Hno; split; [discriminate|lia]]]). rewrite El.
    destruct (decide (r = Leaf)) as [Er|Hnr].
    + rewrite Er in *. cbn [negb]. apply Hshift. destruct Hne as [Hne|[Hnl _]]; [exact Hne|]. exfalso. apply Hno. split; [exact Hnl|]. cbn [height] in Eb. lia.
    + destruct (leftmost_spec fuel t r Hnr Rr Br ltac:(lia)) as (pr & y & Er & Ei & Ey). destruct (contents r) as [|y' w] eqn:Ew; [discriminate|]. injection Ey as ->.
      assert (En : negb match r with Leaf => true | _ => false end = true) by (destruct r; [contradiction|reflexivity]). rewrite En, Er. cbn [mbind option_bind].
      destruct Hdown as [v ->]. cbn [mbind option_bind]. rewrite Ei. cbn [mbind option_bind]. rewrite (app_assoc l1 l2), put_at by (rewrite ! length_app; cbn [length]; lia). cbn [mbind option_bind].
      pose proof (take_from_right fl0 y w Ew Hnr) as R. unfold set_items. cbn [m_hLeft m_hRight m_chBalance m_ushNItems].
      replace (length (l1 ++ x :: l2)) with (length (l1 ++ l2 ++ [y])) by (rewrite ! length_app; cbn [length]; lia). rewrite (app_assoc l1 l2 [y]), <- (app_assoc (l1 ++ l2) [y] ar) in R. cbn [app] in R. rewrite <- (app_assoc l1 l2 [y]) in R. exact R.
Qed.

Lemma drop_item_spec fl0 : exists g h' fl t', drop_item convert_cvalue fuel delete h (Z.of_nat (length l1))
    (mkTtreeNode (root l) (root r) b (Z.of_nat (length (l1 ++ x :: l2))) ((l1 ++ x :: l2) ++ ar)) fl0 t = Some (g, h', fl, t') /\
  forall fl1, deleted t (Bin h b (l1 ++ x :: l2) l r) a fl1 H g h' fl t'.
Proof.
  destruct (dp_rep _ _ _ _ _ P) as (_ & _ & Rl & Rr). unfold drop_item. cbn [m_hLeft m_hRight m_ushNItems]. rewrite (root_eqb l _ Rl), (root_eqb r _ Rr).
  destruct (Z.eqb_spec (Z.of_nat (length (l1 ++ x :: l2))) 1) as [E1|E1]; cbn [andb].
  2: { apply give_item_spec. left. intros E. apply E1. apply (f_equal length) in E. rewrite length_app in *. cbn [length] in *. lia. }
  pose proof P as P0. destruct (decide (r = Leaf)) as [Er|Hr]; [|destruct (decide (l = Leaf)) as [El|Hl]].
  3: { assert (E : match r with Leaf => true | _ => false end = false /\ match l with Leaf => true | _ => false end = false) by (split; [destruct r|destruct l]; (contradiction || reflexivity)). destruct E as [-> ->]. apply give_item_spec. auto. }
  all: assert (l1 = [] /\ l2 = []) as [E3 E4] by (rewrite length_app in E1; cbn [length] in E1; split; apply length_zero_iff_nil; lia).
  - rewrite E3, E4, Er in P0 |- *. cbn [app root] in *. do 4 eexists. split; [reflexivity|]. intros fl1. apply (free_root_spec t H h b x l Leaf l k a fl1 _ P0 Hx). auto.
  - assert (Er : match r with Leaf => true | _ => false end = false) by (destruct r; [contradiction|reflexivity]). rewrite Er. rewrite E3, E4, El in P0 |- *. cbn [app root] in *. do 4 eexists. split; [reflexivity|].
    intros fl1. apply (free_root_spec t H h b x Leaf r r k a fl1 _ P0 Hx). auto.
Qed.
End Drop.

(** ** The whole node *)

Lemma find_item_spec (t : Tree S) k a suf : forall pre ar i n, compares pfComp rank (mem t) k a suf -> i = Z.of_nat (length pre) -> n = length suf ->
  (exists l1 x l2, suf = l1 ++ x :: l2 /\ rank x = a /\ find_item pfComp n i k t (pre ++ suf ++ ar) = Some (Some (i + Z.of_nat (length l1)))) \/
  find_item pfComp n i k t (pre ++ suf ++ ar) = Some None /\ forall x, x ∈ suf -> rank x <> a.
Proof.
  induction suf as [|x suf IH]; intros pre ar i n Hc -> ->; [right; split; [reflexivity|intros x Hx; inversion Hx]|]. cbn [find_item length app]. rewrite item_at by reflexivity. cbn [mbind option_bind].
  destruct (diff_cases pfComp rank t k a (x :: suf) x Hc) as [(_ & Hk & Hz)|Hne]; [apply list_elem_of_here|..].
  - rewrite (proj2 (Z.eqb_eq _ _) Hz). left. exists [], x, suf. split_and!; [reflexivity|exact Hk|cbn; do 2 f_equal; lia].
  - assert (Hn : pfComp k (mem t) x <> 0 /\ rank x <> a).
    { destruct Hne as [(_ & Hk & Hz)|(_ & Hk & Hz)]; (split; [exact Hz|]); intros E; rewrite E in Hk; apply (klt_irrefl a Hk). }
    rewrite (proj2 (Z.eqb_neq _ _) (proj1 Hn)). destruct (IH (pre ++ [x]) ar (Z.of_nat (length pre) + 1) (length suf)) as [(l1 & y & l2 & -> & Hy & E)|[E Hno]].
    + eapply compares_sub; [|exact Hc]. set_solver.
    + rewrite length_app. cbn. lia.
    + reflexivity.
    + left. exists (x :: l1), y, l2. split_and!; [reflexivity|exact Hy|]. rewrite <- (app_assoc pre [x]) in E. cbn [app] in E. rewrite E. do 2 f_equal. cbn [length]. lia.
    + right. rewrite <- (app_assoc pre [x]) in E. cbn [app] in E. split; [exact E|]. intros z Hz. apply elem_of_cons in Hz as [->|Hz]; [tauto|auto].
Qed.

Section Rest.
Context (fuel : nat) (delete : deletion (S := S) (K := K)) (t : Tree S) (H : heap) (h b : Z) (xs : list Z) (l r : shape) (k : K) (a : A) (fl0 : bool).
Context (P : delete_pre t H (Bin h b xs l r) k a) (Hf : height (Bin h b xs l r) <= Z.of_nat fuel + 1).
Context (IH : forall t1 T1 k1 a1 fl1, T1 <> Leaf -> delete_pre t1 H T1 k1 a1 -> height T1 <= Z.of_nat fuel ->
  exists g h' fl t', delete (root T1) k1 fl1 t1 = Some (g, h', fl, t') /\ deleted t1 T1 a1 fl1 H g h' fl t').

(** A result of the right branch. *)
Lemma delete_in_right : r <> Leaf -> (forall x, x ∈ contents l ++ xs -> rank x <> a) ->
  exists g h' fl t', ('(iRet, hChild, isFreeNode, t) ← delete (root r) k fl0 t; '(g, hNode, t) ← shrunk_right h (root r) iRet hChild t; Some (g, hNode, isFreeNode, t)) = Some (g, h', fl, t') /\
    deleted t (Bin h b xs l r) a fl0 H g h' fl t'.
Proof.
  intros Hr Hno. cbn [height] in Hf. pose proof (height_nonneg l). destruct (IH t r k a fl0 Hr (delete_right _ _ _ _ _ _ _ _ _ P) ltac:(lia)) as (g & h1 & fl & t1 & -> & R). cbn [mbind option_bind].
  inversion R as [Hnr|r' g0 z fl' t2' H' M B Hz C O G Hh Hfr Hal]; subst.
  - rewrite (proj2 (shrunk_missing _ _ _)). cbn [mbind option_bind]. do 4 eexists. split; [reflexivity|]. apply (del_missing _ (Bin h b xs l r)).
    intros x Hx. cbn [contents] in Hx. rewrite app_assoc in Hx. apply elem_of_app in Hx as [Hx|Hx]; auto.
  - destruct (shrunk_right_spec t H h b xs l r (dp_alive _ _ _ _ _ P) (dp_rep _ _ _ _ _ P) (dp_nodup _ _ _ _ _ P) (dp_balanced _ _ _ _ _ P) t1 r' g H' M B G Hh Hal) as (g' & t3 & T' & -> & M3 & B3 & C3 & G3 & H3 & Em & Al3). cbn [mbind option_bind].
    do 4 eexists. split; [reflexivity|]. eapply (del_done t _ _ fl0 H T' g' z); try eassumption; try reflexivity.
    + rewrite C3. cbn [contents]. rewrite C, ! app_assoc, <- Permutation_middle. reflexivity.
    + rewrite C3. pose proof (dp_sorted _ _ _ _ _ P) as Hs. cbn [contents] in Hs. rewrite app_assoc in *. eapply sorted_right_sub; [exact Hs|exact O|]. intros u. rewrite C. set_solver.
    + rewrite Em. eapply freed_sub; [|exact Hfr]. cbn. set_solver.
Qed.

Lemma delete_rest_spec : (forall x, x ∈ contents l -> rank x <> a) -> exists g h' fl t',
  delete_rest pfComp convert_cvalue fuel delete h (Z.of_nat (length xs)) k fl0 t = Some (g, h', fl, t') /\ deleted t (Bin h b xs l r) a fl0 H g h' fl t'.
Proof.
  intros Hnl. destruct (dp_rep _ _ _ _ _ P) as (_ & (ar & Ea & Hlen) & _ & Rr). destruct (dp_balanced _ _ _ _ _ P) as (Hx & _). unfold delete_rest. rewrite Ea. cbn [mbind option_bind m_ahItems m_hRight].
  destruct (last xs) as [xn|] eqn:El; [|apply last_None in El; rewrite El in Hx; cbn in Hx; lia]. apply last_Some in El as (ys & Ey).
  assert (Ei : item (xs ++ ar) (Z.of_nat (length xs) - 1) = Some xn) by (rewrite Ey, <- app_assoc; apply item_at; rewrite length_app; cbn; lia). rewrite Ei. cbn [mbind option_bind].
  assert (Hc : compares pfComp rank (mem t) k a xs) by (eapply compares_sub; [|apply P]; cbn; set_solver).
  assert (Hs : sorted rank xs) by (pose proof (dp_sorted _ _ _ _ _ P) as Hs; cbn in Hs; apply sorted_app in Hs as (_ & Hs & _); apply sorted_app in Hs; tauto).
  assert (Hright : (forall x, x ∈ xs -> rank x <> a) -> exists g h' fl t', (if negb (root r =? INVALID_HANDLE) then '(iRet, hChild, isFreeNode, t) ← delete (root r) k fl0 t; '(g, hNode, t) ← shrunk_right h (root r) iRet hChild t; Some (g, hNode, isFreeNode, t)
      else Some (-1, h, fl0, t)) = Some (g, h', fl, t') /\ deleted t (Bin h b xs l r) a fl0 H g h' fl t').
  { intros Hno. rewrite (root_eqb r _ Rr). destruct (decide (r = Leaf)) as [Er|Hr].
    - rewrite Er. cbn [negb]. do 4 eexists. split; [reflexivity|]. apply (del_missing t (Bin h b xs l Leaf)). intros x Hi. cbn in Hi. rewrite app_nil_r in Hi. apply elem_of_app in Hi as [Hi|Hi]; auto.
    - assert (En : match r with Leaf => true | _ => false end = false) by (destruct r; [contradiction|reflexivity]). rewrite En. cbn [negb]. apply delete_in_right; [exact Hr|]. intros x Hi. apply elem_of_app in Hi as [Hi|Hi]; auto. }
  destruct (Z.leb_spec (diff pfComp k t xn) 0) as [Hd|Hd].
  - destruct (find_item_spec t k a xs [] ar 0 (Z.to_nat (Z.of_nat (length xs))) Hc eq_refl ltac:(lia)) as [(l1 & x & l2 & Exs & Hk & Efd)|[Efd Hno]]; cbn [app] in Efd; rewrite Efd; cbn [mbind option_bind].
    + rewrite Z.add_0_l. rewrite Exs in *. destruct (drop_item_spec fuel delete t H h b l1 x l2 ar l r k a P Hk Hlen Hf IH fl0) as (g & h' & fl & t' & E & R). exists g, h', fl, t'. split; [exact E|apply R].
    + apply Hright, Hno.
  - cbn [mbind option_bind]. apply Hright. destruct (diff_cases pfComp rank t k a xs xn Hc) as [(D & _)|[(D & _)|(D & Hk & _)]]; [rewrite Ey; set_solver|lia..|].
    rewrite Ey in *. apply above_absent, (above_sorted rank a xn ys Hs Hk).
Qed.
End Rest.

Lemma node_delete_spec fuel : forall t H T k a fl0, T <> Leaf -> delete_pre t H T k a -> height T <= Z.of_nat fuel ->
  exists g h' fl t', node_delete pfComp convert_cvalue fuel (root T) k fl0 t = Some (g, h', fl, t') /\ deleted t T a fl0 H g h' fl t'.
Proof.
  induction fuel as [|fuel IH]; intros t H [|h b xs l r] k a fl0 Hn P Hd; try contradiction; pose proof (height_nonneg l) as Hl; pose proof (height_nonneg r) as Hr; [cbn [height] in Hd; lia|].
  destruct (dp_rep _ _ _ _ _ P) as (_ & (ar & Ea & Hlen) & Rl & _). destruct (dp_balanced _ _ _ _ _ P) as (Hx & _). cbn [node_delete root]. rewrite Ea. cbn [mbind option_bind m_ahItems m_ushNItems m_hLeft].
  destruct xs as [|x0 xs]; [cbn in Hx; lia|]. change (item ((x0 :: xs) ++ ar) 0) with (Some x0). cbn [mbind option_bind].
  assert (Hrest : forall fl, (forall x, x ∈ contents l -> rank x <> a) -> exists g h' fl1 t', delete_rest pfComp convert_cvalue fuel (node_delete pfComp convert_cvalue fuel) h (Z.of_nat (length (x0 :: xs))) k fl t = Some (g, h', fl1, t') /\ deleted t (Bin h b (x0 :: xs) l r) a fl H g h' fl1 t').
  { intros fl. apply delete_rest_spec; [exact P|lia|]. intros t1 T1 k1 a1 fl1 Hn1 P1 Hh1. apply IH; assumption. }
  destruct (diff_cases pfComp rank t k a _ x0 (dp_cmp _ _ _ _ _ P)) as [(D & Hk & _)|[(D & Hk & _)|(D & Hk & _)]]; [cbn; set_solver|..].
  - rewrite (proj2 (Z.ltb_ge _ _)) by lia. cbn [andb]. apply Hrest. pose proof (dp_sorted _ _ _ _ _ P) as Hs. cbn [contents] in Hs. apply (sorted_remove rank x0) in Hs as (_ & Ha & _). rewrite Hk in Ha. apply above_absent, Ha.
  - rewrite (proj2 (Z.ltb_lt _ _)) by lia. cbn [andb]. rewrite (root_eqb l _ Rl). destruct l as [|hl bl xl ll lr] eqn:El; cbn [negb]; [apply Hrest; intros x Hi; inversion Hi|]. rewrite <- El in *.
    cbn [height] in Hd. destruct (IH t H l k a fl0 ltac:(rewrite El; discriminate) (delete_left _ _ _ _ _ _ _ _ _ P) ltac:(lia)) as (g & h1 & fl & t1 & -> & R). cbn [mbind option_bind].
    inversion R as [Hno|l' g0 z fl' t2' H' M B Hz C O G Hh Hfr Hal]; subst.
    + rewrite (proj1 (shrunk_missing _ _ _)). cbn [mbind option_bind]. change (-1 =? -1) with true. exact (Hrest _ Hno).
    + destruct (shrunk_left_spec t H h b (x0 :: xs) _ r (dp_alive _ _ _ _ _ P) (dp_rep _ _ _ _ _ P) (dp_nodup _ _ _ _ _ P) (dp_balanced _ _ _ _ _ P) t1 l' g H' M B G Hh Hal) as (g' & t3 & T' & -> & M3 & B3 & C3 & G3 & H3 & Em & Al3). cbn [mbind option_bind].
      rewrite (proj2 (Z.eqb_neq g (-1))) by lia. cbn [negb]. do 4 eexists. split; [reflexivity|]. eapply (del_done t _ _ fl0 H T' g' z); try eassumption; try reflexivity.
      * rewrite C3. cbn [contents] in *. rewrite C. reflexivity.
      * rewrite C3. pose proof (dp_sorted _ _ _ _ _ P) as Hs. cbn [contents] in Hs. eapply sorted_left_sub; [exact Hs|exact O|]. intros u. cbn [contents] in C. rewrite C. set_solver.
      * rewrite Em. eapply freed_sub; [|exact Hfr]. cbn. set_solver.
  - rewrite (proj2 (Z.ltb_ge _ _)) by lia. cbn [andb]. apply Hrest. pose proof (dp_sorted _ _ _ _ _ P) as Hs. cbn [contents] in Hs. apply (sorted_remove rank x0) in Hs as (_ & Ha & _).
    apply above_absent. intros x Hi. etransitivity; [apply Ha, Hi|exact Hk].
Qed.
End Delete.
