(* ===== verification/TTreeWalk.v ===== *)
(** * Walking a T-tree

    Searching a key finds its record if there is one, traversals visit the
    records of a range in order, and destroying the tree gives back every block
    of it. *)

From stdpp Require Import sorting.
From S2P Require Import Prelude PtMalloc PtMallocSpec MallocBase TTree TTreeShape TTreeOrder TTreeInsert TTreeDelete.

Section Walk.
Context {S K A C : Type} {MB : MallocBase S} {ML : MallocLaws S} {KO : KeyOrder A}.
Context (pfComp : K -> S -> Z -> Z) (rank : Z -> A) (pfVisit : S -> Z -> C -> Z * C).

(** The facts of a node that the searches use. *)
Lemma node_facts (m : gmap Z TtreeNode) h b xs l r : rep m (Bin h b xs l r) -> balanced (Bin h b xs l r) -> exists ar x0 ys zs xn,
  m !! h = Some (mkTtreeNode (root l) (root r) b (Z.of_nat (length xs)) (xs ++ ar)) /\ xs = x0 :: ys /\ xs = zs ++ [xn] /\
  item (xs ++ ar) 0 = Some x0 /\ item (xs ++ ar) (Z.of_nat (length xs) - 1) = Some xn /\ Z.of_nat (length xs) <= PAGE_SIZE /\
  items (mkTtreeNode (root l) (root r) b (Z.of_nat (length xs)) (xs ++ ar)) = Some xs.
Proof.
  intros (_ & (ar & Ea & Hlen) & _) (Hx & _). destruct xs as [|x0 ys] eqn:E; [cbn in Hx; lia|]. rewrite <- E in *.
  destruct (last xs) as [xn|] eqn:El; [|apply last_None in El; subst; discriminate]. apply last_Some in El as (zs & Ez).
  exists ar, x0, ys, zs, xn. split_and!; try assumption; try lia.
  - rewrite E. reflexivity.
  - rewrite Ez, <- app_assoc. apply item_at. rewrite length_app. cbn. lia.
  - unfold items. cbn [m_ushNItems m_ahItems]. rewrite (proj2 (Z.leb_le _ _)) by lia. rewrite Nat2Z.id, take_app_length. reflexivity.
Qed.

(** ** do_find *)

Lemma node_find_spec fuel : forall (t : Tree S) T k a, T <> Leaf -> rep (nodes t) T -> balanced T -> sorted rank (contents T) -> compares pfComp rank (mem t) k a (contents T) -> height T <= Z.of_nat fuel ->
  (exists h p i x, node_find pfComp fuel (root T) k t = Some (1, Some (h, i)) /\ nodes t !! h = Some p /\ item (m_ahItems p) i = Some x /\ x ∈ contents T /\ rank x = a) \/
  node_find pfComp fuel (root T) k t = Some (0, None) /\ forall x, x ∈ contents T -> rank x <> a.
Proof.
  induction fuel as [|fuel IH]; intros t [|h b xs l r] k a Hn R B O Cm Hf; try contradiction; pose proof (height_nonneg l) as Hl0; pose proof (height_nonneg r) as Hr0; cbn [height] in Hf; [lia|].
  destruct (node_facts _ _ _ _ _ _ R B) as (ar & x0 & ys & zs & xn & Ea & E0 & En & I0 & In & Hp & _). cbn [node_find root]. rewrite Ea. cbn [mbind option_bind m_ushNItems m_ahItems m_hLeft m_hRight].
  destruct R as (_ & _ & Rl & Rr). destruct B as (_ & _ & _ & Bl & Br). cbn [contents] in O, Cm. rewrite (proj2 (Z.eqb_neq _ _)) by (rewrite E0; cbn; lia). rewrite I0. cbn [mbind option_bind].
  assert (Ox : sorted rank xs) by (apply sorted_app in O as (_ & O & _); apply sorted_app in O; tauto).
  destruct (diff_cases pfComp rank t k a _ x0 Cm) as [(D & Hk & _)|[(D & Hk & _)|(D & Hk & _)]]; [rewrite E0; set_solver|..].
  - rewrite (proj2 (Z.eqb_eq _ _) D). left. eexists h, _, 0, x0. split_and!; [reflexivity|exact Ea|exact I0|cbn; rewrite E0; set_solver|exact Hk].
  - rewrite (proj2 (Z.eqb_neq _ _)), (proj2 (Z.ltb_ge _ _)), (root_eqb l _ Rl) by lia.
    assert (Hb : below rank a (xs ++ contents r)) by (rewrite E0 in *; apply (before_all rank h b x0 ys l r a); [exact O|exact Hk]).
    destruct (decide (l = Leaf)) as [->|Hl].
    + right. split; [reflexivity|]. cbn. apply below_absent, Hb.
    + assert (E : match l with Leaf => true | _ => false end = false) by (destruct l; [contradiction|reflexivity]). rewrite E.
      destruct (IH t l k a Hl Rl Bl) as [(h1 & p & i & x & Ef & Ep & Ei & Hx & Hr)|[Ef Hno]]; [apply sorted_app in O; tauto|eapply compares_sub; [|exact Cm]; set_solver|lia|left; exists h1, p, i, x; split_and!; try assumption; cbn; set_solver|].
      right. split; [exact Ef|]. intros x Hx. cbn in Hx. apply elem_of_app in Hx as [Hx|Hx]; [auto|apply (below_absent rank a _ Hb x Hx)].
  - rewrite (proj2 (Z.eqb_neq _ _)), (proj2 (Z.ltb_lt _ _)) by lia. rewrite In. cbn [mbind option_bind].
    assert (Hal : above rank a (contents l)) by (rewrite E0 in O; cbn in O; apply (sorted_remove rank x0) in O as (_ & Ha & _); intros x Hx; etransitivity; [apply Ha, Hx|exact Hk]).
    destruct (diff_cases pfComp rank t k a _ xn Cm) as [(D' & Hk' & _)|[(D' & Hk' & _)|(D' & Hk' & _)]]; [rewrite En; set_solver|..].
    + rewrite (proj2 (Z.eqb_eq _ _) D'). left. eexists h, _, _, xn. split_and!; [reflexivity|exact Ea|exact In|cbn; rewrite En; set_solver|exact Hk'].
    + rewrite (proj2 (Z.eqb_neq _ _)), (proj2 (Z.ltb_ge _ _)) by lia. assert (Hl2 : (2 <= length xs)%nat) by (rewrite E0; cbn; destruct ys; [|cbn; lia]; rewrite E0 in En; destruct zs as [|? [|? ?]]; try discriminate; injection En as ->; exfalso; apply (klt_irrefl a); etransitivity; eassumption).
      destruct (bisect_spec pfComp rank t k a xs ar Ox) with (fuel := Z.to_nat PAGE_SIZE) (l := 1) (r := Z.of_nat (length xs) - 1) as [(i & x & -> & Hi & Ex & Hx)|(p & -> & Hp' & Hlo & Hhi)]; try lia.
      * eapply compares_sub; [|exact Cm]. set_solver.
      * intros i x Ex Hi. assert (i = 0%nat) as -> by lia. rewrite E0 in Ex. injection Ex as <-. exact Hk.
      * intros i x Ex Hi. pose proof (lookup_lt_Some _ _ _ Ex). rewrite En in Ex. replace i with (length zs) in Ex by (rewrite En, length_app in *; cbn in *; lia). rewrite list_lookup_middle in Ex by reflexivity. injection Ex as <-. exact Hk'.
      * cbn [mbind option_bind]. left. eexists h, _, i, x. split_and!; [reflexivity|exact Ea| |cbn; apply list_elem_of_lookup_2 in Ex; set_solver|exact Hx].
        cbn [m_ahItems]. unfold item. rewrite (proj2 (Z.leb_le _ _) Hi), lookup_app_l by (apply lookup_lt_Some in Ex; exact Ex). exact Ex.
      * cbn [mbind option_bind]. right. split; [reflexivity|]. intros x Hx. cbn in Hx. apply elem_of_app in Hx as [Hx|Hx]; [apply (above_absent rank a _ Hal x Hx)|].
        assert (Hbr : below rank a (contents r)). { intros y Hy. etransitivity; [exact Hk'|]. apply sorted_app in O as (_ & O & _). apply sorted_app in O as (_ & _ & O). apply O; [rewrite En; set_solver|exact Hy]. }
        apply elem_of_app in Hx as [Hx|Hx]; [|apply (below_absent rank a _ Hbr x Hx)]. apply list_elem_of_lookup in Hx as [i Ex]. intros E. destruct (Z.lt_ge_cases (Z.of_nat i) p) as [Hip|Hip]; [apply (klt_irrefl a); rewrite <- E at 1; apply (Hlo i x Ex Hip)|apply (klt_irrefl a); rewrite <- E at 2; apply (Hhi i x Ex Hip)].
    + rewrite (proj2 (Z.eqb_neq _ _)), (proj2 (Z.ltb_lt _ _)), (root_eqb r _ Rr) by lia.
      assert (Ha : above rank a (contents l ++ xs)) by (rewrite En in *; apply (behind_all rank h b zs xn l r a); [exact O|exact Hk']).
      destruct (decide (r = Leaf)) as [->|Hr].
      * right. split; [reflexivity|]. cbn. rewrite app_nil_r. apply above_absent, Ha.
      * assert (E : match r with Leaf => true | _ => false end = false) by (destruct r; [contradiction|reflexivity]). rewrite E.
        destruct (IH t r k a Hr Rr Br) as [(h1 & p & i & x & Ef & Ep & Ei & Hx & Hxr)|[Ef Hno]]; [rewrite app_assoc in O; apply sorted_app in O; tauto|eapply compares_sub; [|exact Cm]; set_solver|lia|left; exists h1, p, i, x; split_and!; try assumption; cbn; set_solver|].
        right. split; [exact Ef|]. intros x Hx. cbn in Hx. rewrite app_assoc in Hx. apply elem_of_app in Hx as [Hx|Hx]; [apply (above_absent rank a _ Ha x Hx)|auto].
Qed.

(** [existsb] looks for a record by its handle. *)
Lemma existsb_in rec xs : existsb (Z.eqb rec) xs = bool_decide (rec ∈ xs).
Proof.
  induction xs as [|x xs IH]; [reflexivity|]. cbn [existsb]. rewrite IH. destruct (Z.eqb_spec rec x) as [->|Hne]; cbn [orb]; [symmetry; apply bool_decide_eq_true_2, list_elem_of_here|].
  apply bool_decide_ext. rewrite elem_of_cons. split; [auto|intros [E|]; [contradiction|assumption]].
Qed.

Lemma node_find_handle_spec fuel rec : forall (t : Tree S) T, T <> Leaf -> rep (nodes t) T -> balanced T -> height T <= Z.of_nat fuel ->
  node_find_handle fuel (root T) rec t = Some (if bool_decide (rec ∈ contents T) then 1 else 0).
Proof.
  induction fuel as [|fuel IH]; intros t [|h b xs l r] Hn R B Hf; try contradiction; pose proof (height_nonneg l) as Hl0; pose proof (height_nonneg r) as Hr0; cbn [height] in Hf; [lia|].
  destruct (node_facts _ _ _ _ _ _ R B) as (ar & x0 & ys & zs & xn & Ea & E0 & _ & _ & _ & _ & Hi). cbn [node_find_handle root]. rewrite Ea. cbn [mbind option_bind m_ushNItems m_hLeft m_hRight].
  destruct R as (_ & _ & Rl & Rr). destruct B as (_ & _ & _ & Bl & Br). rewrite (proj2 (Z.eqb_neq _ _)) by (rewrite E0; cbn; lia). rewrite Hi. cbn [mbind option_bind].
  assert (Hc : forall T, T = l \/ T = r -> (if negb (root T =? INVALID_HANDLE) then node_find_handle fuel (root T) rec t else Some 0) = Some (if bool_decide (rec ∈ contents T) then 1 else 0)).
  { intros T HT. assert (RT : rep (nodes t) T /\ balanced T /\ height T <= Z.of_nat fuel) by (destruct HT as [->| ->]; split_and!; assumption || lia). destruct RT as (RT & BT & HhT).
    rewrite (root_eqb T _ RT). destruct T as [|h' b' xs' l' r'] eqn:ET; [reflexivity|]. rewrite <- ET in *. cbn [negb]. apply IH; [rewrite ET; discriminate|assumption..]. }
  assert (E : bool_decide (rec ∈ contents l ++ xs ++ contents r) = bool_decide (rec ∈ contents l) || bool_decide (rec ∈ xs) || bool_decide (rec ∈ contents r)).
  { rewrite <- ! bool_decide_or. apply bool_decide_ext. rewrite ! elem_of_app. tauto. }
  rewrite existsb_in. cbn [contents]. rewrite E, (Hc r), (Hc l) by auto. destruct (bool_decide (rec ∈ xs)), (bool_decide (rec ∈ contents r)), (bool_decide (rec ∈ contents l)); reflexivity.
Qed.

(** ** destory *)

(** The heap without the blocks [xs]. *)
Definition without (xs : list Z) (H H' : heap) : Prop := forall x, H' !! x = if decide (x ∈ xs) then None else H !! x.

Lemma without_heap xs H H' y : without xs H H' -> in_heap H' y -> in_heap H y.
Proof. intros Hw (h & n & Eh & Hy). rewrite Hw in Eh. exists h, n. case_decide; [discriminate|]. auto. Qed.

Lemma without_app xs ys H H1 H2 : without xs H H1 -> without ys H1 H2 -> without (xs ++ ys) H H2.
Proof. intros W1 W2 x. rewrite W2. destruct (decide (x ∈ ys)), (decide (x ∈ xs ++ ys)); try reflexivity; try set_solver; rewrite W1; [rewrite decide_True by set_solver; reflexivity|rewrite decide_False by set_solver; reflexivity]. Qed.

Lemma free_list xs : forall s H, m_rep s H -> NoDup xs -> (forall x, x ∈ xs -> is_Some (H !! x)) ->
  exists H', m_rep (foldl (fun s x => snd (m_Free x s)) s xs) H' /\ without xs H H' /\ forall y, in_heap H' y -> load y (foldl (fun s x => snd (m_Free x s)) s xs) = load y s.
Proof.
  induction xs as [|x xs IH]; intros s H Hm Hn Hx; [exists H; split_and!; [exact Hm|intros y; rewrite decide_False by (intros E; inversion E); reflexivity|reflexivity]|].
  apply NoDup_cons in Hn as [Hni Hn]. destruct (Hx x ltac:(apply list_elem_of_here)) as [n En]. destruct (m_Free_ok _ _ _ _ Hm En) as (s1 & E1 & Hm1 & Hl1). cbn [foldl]. rewrite E1. cbn [snd].
  destruct (IH s1 (delete x H) Hm1 Hn) as (H' & Hm' & Hw & Hl).
  { intros y Hy. rewrite lookup_delete_ne by (intros ->; contradiction). apply Hx, list_elem_of_further, Hy. }
  assert (W1 : without [x] H (delete x H)).
  { intros y. destruct (decide (y ∈ [x])) as [Hy|Hy]; [apply list_elem_of_singleton in Hy as ->; apply lookup_delete_eq|apply lookup_delete_ne; intros ->; apply Hy, list_elem_of_singleton; reflexivity]. }
  exists H'. split; [exact Hm'|]. split; [exact (without_app [x] xs _ _ _ W1 Hw)|]. intros y Hy. rewrite Hl by exact Hy. apply Hl1. eapply without_heap; eassumption.
Qed.

(** The blocks of a tree: its items and its nodes, in the order they are freed. *)
Fixpoint blocks (T : shape) : list Z := match T with Leaf => [] | Bin h _ xs l r => (xs ++ [h]) ++ blocks l ++ blocks r end.

Lemma blocks_perm T : blocks T ≡ₚ contents T ++ handles T.
Proof.
  induction T as [|h b xs l IHl r IHr]; [reflexivity|]. cbn [blocks contents handles]. rewrite IHl, IHr.
  rewrite <- ! app_assoc. cbn [app]. rewrite (Permutation_app_swap_app (contents l) xs). apply Permutation_app_head.
  replace (contents l ++ contents r ++ handles l ++ h :: handles r) with ((contents l ++ contents r ++ handles l) ++ h :: handles r) by (rewrite <- ! app_assoc; reflexivity).
  rewrite <- Permutation_middle. constructor. rewrite <- ! app_assoc. apply Permutation_app_head, Permutation_app_swap_app.
Qed.

Lemma node_destory_spec fuel : forall t T H, rep (nodes t) T -> balanced T -> height T < Z.of_nat fuel -> m_rep (mem t) H -> NoDup (blocks T) -> (forall x, x ∈ blocks T -> is_Some (H !! x)) ->
  exists t' H', node_destory fuel (root T) t = Some t' /\ m_rep (mem t') H' /\ without (blocks T) H H' /\ (forall y, in_heap H' y -> load y (mem t') = load y (mem t)) /\
    forall x, nodes t' !! x = if decide (x ∈ handles T) then None else nodes t !! x.
Proof.
  induction fuel as [|fuel IH]; intros t T H R B Hf Hm Hn Hx; [pose proof (height_nonneg T); lia|]. cbn [node_destory]. rewrite (root_eqb T _ R). destruct T as [|h b xs l r].
  { cbn [negb]. exists t, H. split_and!; try assumption; try reflexivity; intros x; rewrite decide_False by (intros E; inversion E); reflexivity. }
  pose proof (height_nonneg l) as Hl0. pose proof (height_nonneg r) as Hr0. cbn [height] in Hf. destruct (node_facts _ _ _ _ _ _ R B) as (ar & x0 & ys & zs & xn & Ea & _ & _ & _ & _ & _ & Hi). cbn [negb root]. rewrite Ea. cbn [mbind option_bind m_hLeft m_hRight]. rewrite Hi. cbn [mbind option_bind].
  destruct R as (_ & _ & Rl & Rr). destruct B as (_ & _ & _ & Bl & Br). cbn [blocks] in *.
  assert (Ef : mem (free_node h (free_items xs t)) = foldl (fun s x => snd (m_Free x s)) (mem t) (xs ++ [h])) by (cbn; rewrite foldl_app; reflexivity).
  apply NoDup_app in Hn as (Hn1 & Hn12 & Hn). destruct (free_list (xs ++ [h]) (mem t) H Hm Hn1) as (H1 & Hm1 & W1 & L1); [intros x Hi'; apply Hx; set_solver|]. rewrite <- Ef in Hm1, L1.
  pose proof (blocks_perm l) as Pl. pose proof (blocks_perm r) as Pr. apply NoDup_app in Hn as (Hnl & Hlr & Hnr).
  assert (Sub : forall x, x ∈ handles l -> x ∈ blocks l) by (intros x Hi'; rewrite Pl; set_solver). assert (Sur : forall x, x ∈ handles r -> x ∈ blocks r) by (intros x Hi'; rewrite Pr; set_solver).
  assert (Hh : h ∉ blocks l ++ blocks r) by (apply Hn12; set_solver). set (t1 := free_node h (free_items xs t)) in *.
  destruct (IH t1 l H1) as (t2 & H2 & -> & Hm2 & W2 & L2 & N2); try assumption; [apply rep_delete; [set_solver|exact Rl]|lia|intros x Hi'; rewrite W1, decide_False by (intros Hi2; apply (Hn12 x Hi2); set_solver); apply Hx; set_solver|]. cbn [mbind option_bind].
  destruct (IH t2 r H2) as (t3 & H3 & -> & Hm3 & W3 & L3 & N3); try assumption; [|lia|intros x Hi'; rewrite W2, decide_False, W1, decide_False by (try (intros Hi2; apply (Hn12 x Hi2)); set_solver); apply Hx; set_solver|].
  { eapply rep_ext; [|apply (rep_delete (nodes t) h); [|exact Rr]; set_solver]. intros x Hi'. rewrite N2, decide_False by set_solver. reflexivity. }
  exists t3, H3. split_and!; try reflexivity; try assumption.
  - apply (without_app _ _ _ _ _ W1). apply (without_app _ _ _ _ _ W2 W3).
  - intros y Hy. rewrite L3, L2, L1; [reflexivity|..]; repeat first [assumption|eapply without_heap; [eassumption|]].
  - intros x. rewrite N3, N2. cbn [handles]. unfold t1. cbn [nodes free_node free_items].
    destruct (decide (x ∈ handles r)) as [A1|A1]; [rewrite decide_True by (apply elem_of_app; right; apply list_elem_of_further, A1); reflexivity|].
    destruct (decide (x ∈ handles l)) as [A2|A2]; [rewrite decide_True by (apply elem_of_app; left; exact A2); reflexivity|].
    destruct (decide (x = h)) as [->|A3]; [rewrite decide_True by (apply elem_of_app; right; apply list_elem_of_here); apply lookup_delete_eq|].
    rewrite decide_False by (rewrite elem_of_app, elem_of_cons; tauto). apply lookup_delete_ne. congruence.
Qed.

(** The sizes of blocks. *)
Definition total (H : heap) (xs : list Z) : Z := foldr (fun x n => default 0 (H !! x) + n) 0 xs.

Lemma sizes_total_app H xs ys : total H (xs ++ ys) = total H xs + total H ys.
Proof. induction xs as [|x xs IH]; [reflexivity|]. cbn [app total foldr] in *. unfold total in *. lia. Qed.

Lemma sum_chunks s H xs : m_rep s H -> (forall x, x ∈ xs -> is_Some (H !! x)) -> forall n, foldl (fun n x => wrap 32 (n + m_chunk_size x s)) (wrap 32 n) xs = wrap 32 (n + total H xs).
Proof.
  intros Hm. induction xs as [|x xs IH]; intros Hx n; [cbn; f_equal; lia|]. cbn [foldl]. destruct (Hx x ltac:(apply list_elem_of_here)) as [c Ec]. rewrite (m_chunk_size_ok _ _ _ _ Hm Ec).
  replace (wrap 32 (wrap 32 n + c)) with (wrap 32 (n + c)) by (unfold wrap; rewrite Zplus_mod_idemp_l; reflexivity). rewrite IH by (intros y Hy; apply Hx, list_elem_of_further, Hy). f_equal. cbn [total foldr]. rewrite Ec. cbn. unfold total. lia.
Qed.

Lemma node_destroy_size_spec fuel : forall t T H, rep (nodes t) T -> balanced T -> height T < Z.of_nat fuel -> m_rep (mem t) H -> (forall x, x ∈ blocks T -> is_Some (H !! x)) ->
  node_destroy_size fuel (root T) t = Some (wrap 32 (total H (blocks T))).
Proof.
  induction fuel as [|fuel IH]; intros t T H R B Hf Hm Hx; [pose proof (height_nonneg T); lia|]. cbn [node_destroy_size]. rewrite (root_eqb T _ R). destruct T as [|h b xs l r]; [reflexivity|].
  pose proof (height_nonneg l) as Hl0. pose proof (height_nonneg r) as Hr0. cbn [height] in Hf. destruct (node_facts _ _ _ _ _ _ R B) as (ar & x0 & ys & zs & xn & Ea & _ & _ & _ & _ & _ & Hi). cbn [root]. rewrite Ea. cbn [mbind option_bind m_hLeft m_hRight]. rewrite Hi. cbn [mbind option_bind].
  destruct R as (_ & _ & Rl & Rr). destruct B as (_ & _ & _ & Bl & Br). cbn [blocks] in *. rewrite (IH t l H), (IH t r H) by (assumption || lia || (intros x Hi'; apply Hx; set_solver)). cbn [mbind option_bind]. f_equal.
  pose proof (sum_chunks (mem t) H (xs ++ [h]) Hm ltac:(intros x Hi'; apply Hx; set_solver) 0) as E. rewrite foldl_app in E. cbn [foldl] in E. change (wrap 32 0) with 0 in E. rewrite E, ! sizes_total_app. unfold wrap.
  rewrite <- (Zplus_mod (0 + _) (total H (blocks l))), <- Zplus_mod. f_equal. lia.
Qed.

(** ** Traversals *)

(** [f] visits the records [xs], in this order. *)
Definition visits (t : Tree S) (f : C -> option (Z * C)) (xs : list Z) : Prop := forall c, f c = Some (visit pfVisit xs t c).

Lemma visit_app t xs ys c : visit pfVisit (xs ++ ys) t c = let '(r, c') := visit pfVisit xs t c in if negb (r =? 0) then (r, c') else visit pfVisit ys t c'.
Proof. revert c. induction xs as [|x xs IH]; intros c; [reflexivity|]. cbn [app visit]. destruct (pfVisit (mem t) x c) as [r c']. destruct (negb (r =? 0)) eqn:E; [rewrite E; reflexivity|apply IH]. Qed.

Lemma visits_follow t f g xs ys : visits t f xs -> visits t g ys -> visits t (follow f g) (xs ++ ys).
Proof. intros Hf Hg c. unfold follow. rewrite Hf. cbn [mbind option_bind]. rewrite visit_app. destruct (visit pfVisit xs t c) as [r c']. destruct (negb (r =? 0)); [reflexivity|apply Hg]. Qed.

Lemma visits_items t xs : visits t (visiting pfVisit xs t) xs.
Proof. intros c. reflexivity. Qed.

Lemma visits_skip t : visits t skip [].
Proof. intros c. reflexivity. Qed.

(** A branch, given the recursive call on it. *)
Lemma visits_branch t f T xs : rep (nodes t) T -> (T = Leaf -> xs = []) -> (T <> Leaf -> visits t (f (root T)) xs) -> visits t (branch f (root T)) xs.
Proof.
  intros R H0 H1. unfold branch. rewrite (root_eqb T _ R). destruct (decide (T = Leaf)) as [E|Hn]; [rewrite (H0 E), E; apply visits_skip|].
  destruct T; [contradiction|]. cbn [negb]. apply H1, Hn.
Qed.

Ltac node_start R B :=
  let ar := fresh "ar" in let x0 := fresh "x0" in let ys := fresh "ys" in let zs := fresh "zs" in let xn := fresh "xn" in
  destruct (node_facts _ _ _ _ _ _ R B) as (ar & x0 & ys & zs & xn & Ea & E0 & En & I0 & In & _ & Hi).

(** Only the visited part is needed: the rest of the tree may be skipped. *)
Lemma node_forward_spec fuel : forall t T, T <> Leaf -> rep (nodes t) T -> balanced T -> height T <= Z.of_nat fuel -> visits t (node_forward pfVisit fuel (root T) t) (contents T).
Proof.
  induction fuel as [|fuel IH]; intros t [|h b xs l r] Hn R B Hf; try contradiction; pose proof (height_nonneg l) as Hl0; pose proof (height_nonneg r) as Hr0; cbn [height] in Hf; [lia|]. intros c.
  node_start R B. cbn [node_forward root contents]. rewrite Ea. cbn [mbind option_bind m_hLeft m_hRight]. rewrite Hi. cbn [mbind option_bind]. destruct R as (_ & _ & Rl & Rr). destruct B as (_ & _ & _ & Bl & Br).
  revert c. apply visits_follow; [|apply visits_follow; [apply visits_items|]]; (apply visits_branch; [assumption|intros ->; reflexivity|intros Hne; apply IH; assumption || lia]).
Qed.

Lemma node_backward_spec fuel : forall t T, T <> Leaf -> rep (nodes t) T -> balanced T -> height T <= Z.of_nat fuel -> visits t (node_backward pfVisit fuel (root T) t) (reverse (contents T)).
Proof.
  induction fuel as [|fuel IH]; intros t [|h b xs l r] Hn R B Hf; try contradiction; pose proof (height_nonneg l) as Hl0; pose proof (height_nonneg r) as Hr0; cbn [height] in Hf; [lia|]. intros c.
  node_start R B. cbn [node_backward root contents]. rewrite Ea. cbn [mbind option_bind m_hLeft m_hRight]. rewrite Hi. cbn [mbind option_bind]. destruct R as (_ & _ & Rl & Rr). destruct B as (_ & _ & _ & Bl & Br).
  rewrite ! reverse_app, <- app_assoc. revert c. apply visits_follow; [|apply visits_follow; [apply visits_items|]]; (apply visits_branch; [assumption|intros ->; reflexivity|intros Hne; apply IH; assumption || lia]).
Qed.

(** Right branch, left branch, items from the last to the first. *)
Fixpoint post_order (T : shape) : list Z := match T with Leaf => [] | Bin _ _ xs l r => post_order r ++ post_order l ++ reverse xs end.

Lemma node_post_order_spec fuel : forall t T, T <> Leaf -> rep (nodes t) T -> balanced T -> height T <= Z.of_nat fuel -> visits t (node_post_order pfVisit fuel (root T) t) (post_order T).
Proof.
  induction fuel as [|fuel IH]; intros t [|h b xs l r] Hn R B Hf; try contradiction; pose proof (height_nonneg l) as Hl0; pose proof (height_nonneg r) as Hr0; cbn [height] in Hf; [lia|]. intros c.
  node_start R B. cbn [node_post_order root post_order]. rewrite Ea. cbn [mbind option_bind m_hLeft m_hRight]. rewrite Hi. cbn [mbind option_bind]. destruct R as (_ & _ & Rl & Rr). destruct B as (_ & _ & _ & Bl & Br).
  revert c. apply visits_follow; [|apply visits_follow; [|apply visits_items]]; (apply visits_branch; [assumption|intros ->; reflexivity|intros Hne; apply IH; assumption || lia]).
Qed.
End Walk.

(** * Traversing a part of a T-tree

    A traversal with one or two keys leaves out branches that cannot hold a
    record of the range; what it visits is the sequence of the whole tree
    without the records outside of the range. *)


Lemma pick_app f xs ys : pick f (xs ++ ys) = pick f xs ++ pick f ys.
Proof. apply filter_app. Qed.

Lemma pick_none f xs : (forall x, x ∈ xs -> f x = false) -> pick f xs = [].
Proof.
  unfold pick. induction xs as [|x xs IH]; intros Hf; [reflexivity|]. rewrite filter_cons, decide_False by (rewrite (Hf x); [exact id|apply list_elem_of_here]). apply IH. intros y Hy. apply Hf, list_elem_of_further, Hy.
Qed.

Lemma pick_reverse f xs : pick f (reverse xs) = reverse (pick f xs).
Proof. unfold pick. apply filter_reverse. Qed.

(** Left branch, right branch, items. *)
Fixpoint post_order_up (T : shape) : list Z := match T with Leaf => [] | Bin _ _ xs l r => post_order_up l ++ post_order_up r ++ xs end.

Lemma post_order_up_in T x : x ∈ post_order_up T <-> x ∈ contents T.
Proof. induction T as [|h b xs l IHl r IHr]; [reflexivity|]. cbn. rewrite ! elem_of_app, IHl, IHr. tauto. Qed.
Lemma post_order_in T x : x ∈ post_order T <-> x ∈ contents T.
Proof. induction T as [|h b xs l IHl r IHr]; [reflexivity|]. cbn. rewrite ! elem_of_app, IHl, IHr, elem_of_reverse. tauto. Qed.

Section Range.
Context {S K A C : Type} {MB : MallocBase S} {ML : MallocLaws S} {KO : KeyOrder A}.
Context (pfComp : K -> S -> Z -> Z) (rank : Z -> A) (pfVisit : S -> Z -> C -> Z * C).

(** Comparisons along the order. *)
Lemma diff_after (t : Tree S) k a cs x y : compares pfComp rank (mem t) k a cs -> x ∈ cs -> y ∈ cs -> klt (rank x) (rank y) ->
  (diff pfComp k t x <= 0 -> diff pfComp k t y < 0) /\ (0 <= diff pfComp k t y -> 0 < diff pfComp k t x).
Proof.
  intros Hc Hx Hy Hxy. destruct (diff_cases pfComp rank t k a cs x Hc Hx) as [(D & E & _)|[(D & E & _)|(D & E & _)]], (diff_cases pfComp rank t k a cs y Hc Hy) as [(D' & E' & _)|[(D' & E' & _)|(D' & E' & _)]]; try lia; exfalso; apply (klt_irrefl a).
  - rewrite E, E' in Hxy. exact Hxy.
  - rewrite E in Hxy. etransitivity; eassumption.
  - rewrite E' in Hxy. etransitivity; eassumption.
  - etransitivity; [exact E|]. etransitivity; eassumption.
Qed.

(** What the comparison with the first or the last item says of the rest. *)
Record around (t : Tree S) (k : K) (xs : list Z) (x0 xn : Z) (cl cr : list Z) : Prop := {
  ar_left : 0 <= diff pfComp k t x0 -> forall x, x ∈ cl -> 0 < diff pfComp k t x;
  ar_right : diff pfComp k t xn <= 0 -> forall x, x ∈ cr -> diff pfComp k t x < 0;
  ar_all_lt : diff pfComp k t x0 < 0 -> forall x, x ∈ xs -> diff pfComp k t x < 0;
  ar_all_gt : 0 < diff pfComp k t xn -> forall x, x ∈ xs -> 0 < diff pfComp k t x
}.

Lemma node_around (t : Tree S) k a h b xs l r x0 ys zs xn : sorted rank (contents (Bin h b xs l r)) -> compares pfComp rank (mem t) k a (contents (Bin h b xs l r)) ->
  xs = x0 :: ys -> xs = zs ++ [xn] -> around t k xs x0 xn (contents l) (contents r).
Proof.
  cbn [contents]. intros Hs Hc E0 En. assert (Hl : forall x y, x ∈ contents l -> y ∈ xs -> klt (rank x) (rank y)) by (apply sorted_app in Hs as (_ & _ & Hs); intros x y Hx Hy; apply Hs; set_solver).
  assert (Hxr : forall x y, x ∈ xs -> y ∈ contents r -> klt (rank x) (rank y)) by (apply sorted_app in Hs as (_ & Hs & _); apply sorted_app in Hs as (_ & _ & Hs); exact Hs).
  assert (Hx : sorted rank xs) by (apply sorted_app in Hs as (_ & Hs & _); apply sorted_app in Hs; tauto).
  assert (H0 : x0 ∈ xs) by (rewrite E0; apply list_elem_of_here). assert (Hn : xn ∈ xs) by (rewrite En; set_solver).
  assert (Hin : forall x, x ∈ xs -> x ∈ contents l ++ xs ++ contents r) by set_solver. split.
  - intros D x Hi. apply (diff_after t k a _ x x0 Hc); [set_solver|auto|auto|exact D].
  - intros D x Hi. apply (diff_after t k a _ xn x Hc); [auto|set_solver|auto|exact D].
  - intros D x Hi. rewrite E0 in Hi. apply elem_of_cons in Hi as [->|Hi]; [exact D|]. apply (diff_after t k a _ x0 x Hc); [auto|apply Hin; rewrite E0; set_solver| |lia].
    rewrite E0 in Hx. apply sorted_cons in Hx as [Hb _]. apply Hb, Hi.
  - intros D x Hi. rewrite En in Hi. apply elem_of_app in Hi as [Hi|Hi]; [|apply list_elem_of_singleton in Hi as ->; exact D]. apply (diff_after t k a _ x xn Hc); [apply Hin; rewrite En; set_solver|auto| |lia].
    rewrite En in Hx. apply sorted_app in Hx as (_ & _ & Hb). apply Hb; [exact Hi|apply list_elem_of_singleton; reflexivity].
Qed.

Lemma visits_if t (b : bool) f xs : (b = true -> visits pfVisit t f xs) -> (b = false -> xs = []) -> visits pfVisit t (if b then f else skip) xs.
Proof. intros H1 H0. destruct b; [auto|rewrite H0 by reflexivity; apply visits_skip]. Qed.

Lemma ge_false (t : Tree S) k x : 0 < diff pfComp k t x -> ge_key pfComp k t x = false.
Proof. intros D. apply Z.leb_gt, D. Qed.
Lemma le_false (t : Tree S) k x : diff pfComp k t x < 0 -> le_key pfComp k t x = false.
Proof. intros D. apply Z.leb_gt, D. Qed.
Lemma within_false (t : Tree S) k k1 x : 0 < diff pfComp k t x \/ diff pfComp k1 t x < 0 -> within pfComp k k1 t x = false.
Proof. intros D. unfold within. destruct (Z.leb_spec (diff pfComp k t x) 0); [|reflexivity]. cbn [andb]. apply Z.leb_gt. lia. Qed.

(** The items a node contributes. *)
Lemma items_ge t k xs x0 xn cl cr : around t k xs x0 xn cl cr -> (if diff pfComp k t xn <=? 0 then pick (ge_key pfComp k t) xs else []) = pick (ge_key pfComp k t) xs.
Proof. intros Ha. destruct (Z.leb_spec (diff pfComp k t xn) 0); [reflexivity|]. symmetry. apply pick_none. intros x Hx. apply ge_false. apply (ar_all_gt _ _ _ _ _ _ _ Ha); assumption. Qed.
Lemma items_le t k xs x0 xn cl cr : around t k xs x0 xn cl cr -> (if 0 <=? diff pfComp k t x0 then pick (le_key pfComp k t) (reverse xs) else []) = pick (le_key pfComp k t) (reverse xs).
Proof. intros Ha. destruct (Z.leb_spec 0 (diff pfComp k t x0)); [reflexivity|]. symmetry. apply pick_none. intros x Hx. rewrite elem_of_reverse in Hx. apply le_false. apply (ar_all_lt _ _ _ _ _ _ _ Ha); assumption. Qed.
Lemma items_between t k k1 xs x0 xn cl cr ys : around t k xs x0 xn cl cr -> around t k1 xs x0 xn cl cr -> (forall x, x ∈ ys -> x ∈ xs) -> between pfComp k k1 t x0 xn ys = pick (within pfComp k k1 t) ys.
Proof.
  intros Ha Ha1 Hs. unfold between. destruct (Z.ltb_spec (diff pfComp k1 t x0) 0); cbn [orb]; [symmetry; apply pick_none; intros x Hx; apply within_false; right; apply (ar_all_lt _ _ _ _ _ _ _ Ha1); auto|].
  destruct (Z.ltb_spec 0 (diff pfComp k t xn)); [|reflexivity]. symmetry. apply pick_none. intros x Hx. apply within_false. left. apply (ar_all_gt _ _ _ _ _ _ _ Ha); auto.
Qed.

Lemma sorted_parts h b xs l r : sorted rank (contents (Bin h b xs l r)) -> sorted rank (contents l) /\ sorted rank (contents r).
Proof. cbn [contents]. rewrite ! sorted_app. tauto. Qed.

Lemma compares_parts s k a h b xs l r : compares pfComp rank s k a (contents (Bin h b xs l r)) -> compares pfComp rank s k a (contents l) /\ compares pfComp rank s k a (contents r).
Proof. intros Hc. cbn [contents] in Hc. split; (eapply compares_sub; [|exact Hc]; set_solver). Qed.

(** ** One key *)

Section OneKey.
Context (k : K) (a : A).

Definition one_pre (fuel : nat) (t : Tree S) (T : shape) : Prop :=
  T <> Leaf /\ rep (nodes t) T /\ balanced T /\ sorted rank (contents T) /\ compares pfComp rank (mem t) k a (contents T) /\ height T <= Z.of_nat fuel.

(** A node: what the steps below it need. *)
Lemma one_node fuel t h b xs l r : one_pre (Datatypes.S fuel) t (Bin h b xs l r) -> exists ar x0 xn,
  nodes t !! h = Some (mkTtreeNode (root l) (root r) b (Z.of_nat (length xs)) (xs ++ ar)) /\ items (mkTtreeNode (root l) (root r) b (Z.of_nat (length xs)) (xs ++ ar)) = Some xs /\
  item (xs ++ ar) 0 = Some x0 /\ item (xs ++ ar) (Z.of_nat (length xs) - 1) = Some xn /\ around t k xs x0 xn (contents l) (contents r) /\
  rep (nodes t) l /\ rep (nodes t) r /\ (l <> Leaf -> one_pre fuel t l) /\ (r <> Leaf -> one_pre fuel t r).
Proof.
  intros (_ & R & B & O & Hc & Hf). destruct (node_facts _ _ _ _ _ _ R B) as (ar & x0 & ys & zs & xn & Ea & E0 & En & I0 & In & _ & Hi). exists ar, x0, xn. cbn [height] in Hf. pose proof (height_nonneg l). pose proof (height_nonneg r).
  pose proof (node_around t k a h b xs l r x0 ys zs xn O Hc E0 En) as Har. destruct (sorted_parts _ _ _ _ _ O). destruct (compares_parts _ _ _ _ _ _ _ _ Hc). destruct R as (_ & _ & Rl & Rr), B as (_ & _ & _ & Bl & Br).
  split_and!; try assumption; intros Hn; unfold one_pre; split_and!; assumption || lia.
Qed.

Lemma forward_ge_spec fuel : forall t T, one_pre fuel t T -> visits pfVisit t (forward_ge pfComp pfVisit fuel (root T) k t) (pick (ge_key pfComp k t) (contents T)).
Proof.
  induction fuel as [|fuel IH]; intros t [|h b xs l r] P; try (destruct P as [P _]; contradiction); [destruct P as (_ & _ & _ & _ & _ & P); cbn [height] in P; pose proof (height_nonneg l); lia|]. intros c.
  destruct (one_node _ _ _ _ _ _ _ P) as (ar & x0 & xn & Ea & Hi & I0 & In & Ha & Rl & Rr & Pl & Pr). cbn [forward_ge root contents]. rewrite Ea. cbn [mbind option_bind m_hLeft m_hRight m_ahItems m_ushNItems]. rewrite Hi, I0, In. cbn [mbind option_bind].
  rewrite (items_ge _ _ _ _ _ _ _ Ha), ! pick_app. revert c. apply visits_follow; [|apply visits_follow; [apply visits_items|]].
  - apply visits_if; [intros _; apply visits_branch; [exact Rl|intros ->; reflexivity|intros Hn; apply IH, Pl, Hn]|]. intros D. apply Z.ltb_ge in D. apply pick_none. intros x Hx. apply ge_false. apply (ar_left _ _ _ _ _ _ _ Ha D), Hx.
  - apply visits_branch; [exact Rr|intros ->; reflexivity|intros Hn; apply IH, Pr, Hn].
Qed.

Lemma backward_le_spec fuel : forall t T, one_pre fuel t T -> visits pfVisit t (backward_le pfComp pfVisit fuel (root T) k t) (pick (le_key pfComp k t) (reverse (contents T))).
Proof.
  induction fuel as [|fuel IH]; intros t [|h b xs l r] P; try (destruct P as [P _]; contradiction); [destruct P as (_ & _ & _ & _ & _ & P); cbn [height] in P; pose proof (height_nonneg l); lia|]. intros c.
  destruct (one_node _ _ _ _ _ _ _ P) as (ar & x0 & xn & Ea & Hi & I0 & In & Ha & Rl & Rr & Pl & Pr). cbn [backward_le root contents]. rewrite Ea. cbn [mbind option_bind m_hLeft m_hRight m_ahItems m_ushNItems]. rewrite Hi, I0, In. cbn [mbind option_bind].
  rewrite (items_le _ _ _ _ _ _ _ Ha), ! reverse_app, <- app_assoc, ! pick_app. revert c. apply visits_follow; [|apply visits_follow; [apply visits_items|]].
  - apply visits_if; [intros _; apply visits_branch; [exact Rr|intros ->; reflexivity|intros Hn; apply IH, Pr, Hn]|]. intros D. apply Z.ltb_ge in D. apply pick_none. intros x Hx. rewrite elem_of_reverse in Hx. apply le_false. apply (ar_right _ _ _ _ _ _ _ Ha D), Hx.
  - apply visits_branch; [exact Rl|intros ->; reflexivity|intros Hn; apply IH, Pl, Hn].
Qed.

Lemma post_order_ge_spec fuel : forall t T, one_pre fuel t T -> visits pfVisit t (post_order_ge pfComp pfVisit fuel (root T) k t) (pick (ge_key pfComp k t) (post_order_up T)).
Proof.
  induction fuel as [|fuel IH]; intros t [|h b xs l r] P; try (destruct P as [P _]; contradiction); [destruct P as (_ & _ & _ & _ & _ & P); cbn [height] in P; pose proof (height_nonneg l); lia|]. intros c.
  destruct (one_node _ _ _ _ _ _ _ P) as (ar & x0 & xn & Ea & Hi & I0 & In & Ha & Rl & Rr & Pl & Pr). cbn [post_order_ge root post_order_up]. rewrite Ea. cbn [mbind option_bind m_hLeft m_hRight m_ahItems m_ushNItems]. rewrite Hi, I0, In. cbn [mbind option_bind].
  rewrite (items_ge _ _ _ _ _ _ _ Ha), ! pick_app. revert c. apply visits_follow; [|apply visits_follow; [|apply visits_items]].
  - apply visits_if; [intros _; apply visits_branch; [exact Rl|intros ->; reflexivity|intros Hn; apply IH, Pl, Hn]|]. intros D. apply Z.ltb_ge in D. apply pick_none. intros x Hx. apply post_order_up_in in Hx. apply ge_false. apply (ar_left _ _ _ _ _ _ _ Ha D), Hx.
  - apply visits_branch; [exact Rr|intros ->; reflexivity|intros Hn; apply IH, Pr, Hn].
Qed.

Lemma post_order_le_spec fuel : forall t T, one_pre fuel t T -> visits pfVisit t (post_order_le pfComp pfVisit fuel (root T) k t) (pick (le_key pfComp k t) (post_order T)).
Proof.
  induction fuel as [|fuel IH]; intros t [|h b xs l r] P; try (destruct P as [P _]; contradiction); [destruct P as (_ & _ & _ & _ & _ & P); cbn [height] in P; pose proof (height_nonneg l); lia|]. intros c.
  destruct (one_node _ _ _ _ _ _ _ P) as (ar & x0 & xn & Ea & Hi & I0 & In & Ha & Rl & Rr & Pl & Pr). cbn [post_order_le root post_order]. rewrite Ea. cbn [mbind option_bind m_hLeft m_hRight m_ahItems m_ushNItems]. rewrite Hi, I0, In. cbn [mbind option_bind].
  rewrite (items_le _ _ _ _ _ _ _ Ha), ! pick_app. revert c. apply visits_follow; [|apply visits_follow; [|apply visits_items]].
  - apply visits_if; [intros _; apply visits_branch; [exact Rr|intros ->; reflexivity|intros Hn; apply IH, Pr, Hn]|]. intros D. apply Z.ltb_ge in D. apply pick_none. intros x Hx. apply post_order_in in Hx. apply le_false. apply (ar_right _ _ _ _ _ _ _ Ha D), Hx.
  - apply visits_branch; [exact Rl|intros ->; reflexivity|intros Hn; apply IH, Pl, Hn].
Qed.

(** ** A key and a distance *)

Section Distance.
Context (iInclusion : Z).

Definition reach_bound : Z := sext 32 (wrap 32 (0 - iInclusion)).
Definition in_reach (t : Tree S) (x : Z) : bool := (diff pfComp k t x <=? 0) && (reach_bound <=? diff pfComp k t x).

(** The comparison gives distances: they fall along the records. *)
Definition falling (t : Tree S) (xs : list Z) : Prop := StronglySorted (fun x y => diff pfComp k t y <= diff pfComp k t x) xs.

Lemma falling_app t xs ys : falling t (xs ++ ys) -> falling t xs /\ falling t ys /\ forall x y, x ∈ xs -> y ∈ ys -> diff pfComp k t y <= diff pfComp k t x.
Proof. intros Hs. split_and!; [eapply StronglySorted_app_1_l, Hs|eapply StronglySorted_app_1_r, Hs|intros x y Hx Hy; eapply (StronglySorted_app_1_elem_of _ _ _ x y Hs); assumption]. Qed.

Lemma reach_spec t xs : falling t xs -> exists ended, reach pfComp k iInclusion t xs = (pick (in_reach t) xs, ended) /\ (ended = false -> exists x, x ∈ xs /\ diff pfComp k t x < reach_bound).
Proof.
  unfold falling. induction xs as [|x xs IH]; intros Hs; [exists true; split; [reflexivity|discriminate]|]. apply StronglySorted_cons in Hs as [Hx Hs]. destruct (IH Hs) as (e & Er & He). cbn [reach]. fold reach_bound. unfold pick. rewrite filter_cons. fold (pick (in_reach t) xs).
  fold (in_reach t x). destruct (in_reach t x) eqn:Ew.
  - rewrite decide_True by exact Logic.I. rewrite Er. exists e. split; [reflexivity|]. intros E. destruct (He E) as (y & Hy & D). exists y. split; [apply list_elem_of_further, Hy|exact D].
  - rewrite decide_False by exact id. destruct (Z.ltb_spec (diff pfComp k t x) reach_bound) as [D|D].
    + exists false. split; [f_equal; symmetry; apply pick_none|intros _; exists x; split; [apply list_elem_of_here|exact D]]. intros y Hy. rewrite Forall_forall in Hx. specialize (Hx y Hy). unfold in_reach. destruct (_ <=? 0); [|reflexivity]. apply Z.leb_gt. lia.
    + rewrite Er. exists e. split; [reflexivity|]. intros E. destruct (He E) as (y & Hy & D'). exists y. split; [apply list_elem_of_further, Hy|exact D'].
Qed.

Lemma forward_distance_spec fuel : forall t T, one_pre fuel t T -> falling t (contents T) -> visits pfVisit t (forward_distance pfComp pfVisit fuel (root T) k iInclusion t) (pick (in_reach t) (contents T)).
Proof.
  induction fuel as [|fuel IH]; intros t [|h b xs l r] P F; try (destruct P as [P _]; contradiction); [destruct P as (_ & _ & _ & _ & _ & P); cbn [height] in P; pose proof (height_nonneg l); lia|]. intros c. cbn [contents] in F.
  destruct (one_node _ _ _ _ _ _ _ P) as (ar & x0 & xn & Ea & Hi & I0 & In & Ha & Rl & Rr & Pl & Pr). cbn [forward_distance root contents]. rewrite Ea. cbn [mbind option_bind m_hLeft m_hRight m_ahItems m_ushNItems]. rewrite Hi, I0, In. cbn [mbind option_bind].
  apply falling_app in F as (Fl & F & _). apply falling_app in F as (Fx & Fr & Fxr).
  assert (Hys : exists ended, (if diff pfComp k t xn <=? 0 then reach pfComp k iInclusion t xs else ([], true)) = (pick (in_reach t) xs, ended) /\ (ended = false -> exists x, x ∈ xs /\ diff pfComp k t x < reach_bound)).
  { destruct (Z.leb_spec (diff pfComp k t xn) 0) as [D|D]; [apply reach_spec, Fx|]. exists true. split; [|discriminate]. f_equal. symmetry. apply pick_none. intros x Hx. unfold in_reach. rewrite (proj2 (Z.leb_gt _ _)) by (apply (ar_all_gt _ _ _ _ _ _ _ Ha); assumption). reflexivity. }
  destruct Hys as (ended & -> & He). rewrite ! pick_app. revert c. apply visits_follow; [|apply visits_follow; [apply visits_items|]].
  - apply visits_if; [intros _; apply visits_branch; [exact Rl|intros ->; reflexivity|intros Hn; apply IH; [apply Pl, Hn|exact Fl]]|]. intros D. apply Z.ltb_ge in D. apply pick_none. intros x Hx. unfold in_reach. rewrite (proj2 (Z.leb_gt _ _)) by (apply (ar_left _ _ _ _ _ _ _ Ha D), Hx). reflexivity.
  - apply visits_if; [intros _; apply visits_branch; [exact Rr|intros ->; reflexivity|intros Hn; apply IH; [apply Pr, Hn|exact Fr]]|]. intros E. destruct (He E) as (y & Hy & D). apply pick_none. intros x Hx. specialize (Fxr y x Hy Hx). unfold in_reach. destruct (_ <=? 0); [|reflexivity]. apply Z.leb_gt. lia.
Qed.
End Distance.
End OneKey.

(** ** Two keys *)

Section TwoKeys.
Context (k k1 : K) (a a1 : A).

Definition two_pre (fuel : nat) (t : Tree S) (T : shape) : Prop := one_pre k a fuel t T /\ one_pre k1 a1 fuel t T.

Lemma two_node fuel t h b xs l r : two_pre (Datatypes.S fuel) t (Bin h b xs l r) -> exists ar x0 xn,
  nodes t !! h = Some (mkTtreeNode (root l) (root r) b (Z.of_nat (length xs)) (xs ++ ar)) /\ items (mkTtreeNode (root l) (root r) b (Z.of_nat (length xs)) (xs ++ ar)) = Some xs /\
  item (xs ++ ar) 0 = Some x0 /\ item (xs ++ ar) (Z.of_nat (length xs) - 1) = Some xn /\ around t k xs x0 xn (contents l) (contents r) /\ around t k1 xs x0 xn (contents l) (contents r) /\
  rep (nodes t) l /\ rep (nodes t) r /\ (l <> Leaf -> two_pre fuel t l) /\ (r <> Leaf -> two_pre fuel t r).
Proof.
  intros [P P1]. destruct (one_node k a fuel t h b xs l r P) as (ar & x0 & xn & Ea & Hi & I0 & In & Ha & Rl & Rr & Pl & Pr). destruct (one_node k1 a1 fuel t h b xs l r P1) as (ar' & x0' & xn' & Ea' & _ & I0' & In' & Ha' & _ & _ & Pl' & Pr').
  rewrite Ea in Ea'. injection Ea' as E. apply app_inv_head in E as <-. rewrite I0 in I0'. injection I0' as <-. rewrite In in In'. injection In' as <-. exists ar, x0, xn. unfold two_pre. split_and!; auto.
Qed.

Lemma forward_between_spec fuel : forall t T, two_pre fuel t T -> visits pfVisit t (forward_between pfComp pfVisit fuel (root T) k k1 t) (pick (within pfComp k k1 t) (contents T)).
Proof.
  induction fuel as [|fuel IH]; intros t [|h b xs l r] P; try (destruct P as [[P _] _]; contradiction); [destruct P as [(_ & _ & _ & _ & _ & P) _]; cbn [height] in P; pose proof (height_nonneg l); lia|]. intros c.
  destruct (two_node _ _ _ _ _ _ _ P) as (ar & x0 & xn & Ea & Hi & I0 & In & Ha & Ha1 & Rl & Rr & Pl & Pr). cbn [forward_between root contents]. rewrite Ea. cbn [mbind option_bind m_hLeft m_hRight m_ahItems m_ushNItems]. rewrite Hi, I0, In. cbn [mbind option_bind].
  rewrite (items_between _ _ _ _ _ _ _ _ xs Ha Ha1) by auto. rewrite ! pick_app. revert c. apply visits_follow; [|apply visits_follow; [apply visits_items|]].
  - apply visits_if; [intros _; apply visits_branch; [exact Rl|intros ->; reflexivity|intros Hn; apply IH, Pl, Hn]|]. intros D. apply Z.ltb_ge in D. apply pick_none. intros x Hx. apply within_false. left. apply (ar_left _ _ _ _ _ _ _ Ha D), Hx.
  - apply visits_if; [intros _; apply visits_branch; [exact Rr|intros ->; reflexivity|intros Hn; apply IH, Pr, Hn]|]. intros D. apply Z.leb_gt in D. apply pick_none. intros x Hx. apply within_false. right. apply (ar_right _ _ _ _ _ _ _ Ha1); [lia|exact Hx].
Qed.

Lemma backward_between_spec fuel : forall t T, two_pre fuel t T -> visits pfVisit t (backward_between pfComp pfVisit fuel (root T) k k1 t) (pick (within pfComp k k1 t) (reverse (contents T))).
Proof.
  induction fuel as [|fuel IH]; intros t [|h b xs l r] P; try (destruct P as [[P _] _]; contradiction); [destruct P as [(_ & _ & _ & _ & _ & P) _]; cbn [height] in P; pose proof (height_nonneg l); lia|]. intros c.
  destruct (two_node _ _ _ _ _ _ _ P) as (ar & x0 & xn & Ea & Hi & I0 & In & Ha & Ha1 & Rl & Rr & Pl & Pr). cbn [backward_between root contents]. rewrite Ea. cbn [mbind option_bind m_hLeft m_hRight m_ahItems m_ushNItems]. rewrite Hi, I0, In. cbn [mbind option_bind].
  rewrite (items_between _ _ _ _ _ _ _ _ (reverse xs) Ha Ha1) by (intros x; rewrite elem_of_reverse; auto). rewrite ! reverse_app, <- app_assoc, ! pick_app. revert c. apply visits_follow; [|apply visits_follow; [apply visits_items|]].
  - apply visits_if; [intros _; apply visits_branch; [exact Rr|intros ->; reflexivity|intros Hn; apply IH, Pr, Hn]|]. intros D. apply Z.ltb_ge in D. apply pick_none. intros x Hx. rewrite elem_of_reverse in Hx. apply within_false. right. apply (ar_right _ _ _ _ _ _ _ Ha1 D), Hx.
  - apply visits_if; [intros _; apply visits_branch; [exact Rl|intros ->; reflexivity|intros Hn; apply IH, Pl, Hn]|]. intros D. apply Z.leb_gt in D. apply pick_none. intros x Hx. rewrite elem_of_reverse in Hx. apply within_false. left. apply (ar_left _ _ _ _ _ _ _ Ha); [lia|exact Hx].
Qed.

Lemma post_order_between_spec fuel : forall t T, two_pre fuel t T -> visits pfVisit t (post_order_between pfComp pfVisit fuel (root T) k k1 t) (pick (within pfComp k k1 t) (post_order_up T)).
Proof.
  induction fuel as [|fuel IH]; intros t [|h b xs l r] P; try (destruct P as [[P _] _]; contradiction); [destruct P as [(_ & _ & _ & _ & _ & P) _]; cbn [height] in P; pose proof (height_nonneg l); lia|]. intros c.
  destruct (two_node _ _ _ _ _ _ _ P) as (ar & x0 & xn & Ea & Hi & I0 & In & Ha & Ha1 & Rl & Rr & Pl & Pr). cbn [post_order_between root post_order_up]. rewrite Ea. cbn [mbind option_bind m_hLeft m_hRight m_ahItems m_ushNItems]. rewrite Hi, I0, In. cbn [mbind option_bind].
  rewrite (items_between _ _ _ _ _ _ _ _ xs Ha Ha1) by auto. rewrite ! pick_app. revert c. apply visits_follow; [|apply visits_follow; [|apply visits_items]].
  - apply visits_if; [intros _; apply visits_branch; [exact Rl|intros ->; reflexivity|intros Hn; apply IH, Pl, Hn]|]. intros D. apply Z.ltb_ge in D. apply pick_none. intros x Hx. apply post_order_up_in in Hx. apply within_false. left. apply (ar_left _ _ _ _ _ _ _ Ha D), Hx.
  - apply visits_if; [intros _; apply visits_branch; [exact Rr|intros ->; reflexivity|intros Hn; apply IH, Pr, Hn]|]. intros D. apply Z.leb_gt in D. apply pick_none. intros x Hx. apply post_order_up_in in Hx. apply within_false. right. apply (ar_right _ _ _ _ _ _ _ Ha1); [lia|exact Hx].
Qed.
End TwoKeys.
End Range.
