(* ===== verification/TTreeSpec.v ===== *)
(** * The class Ttree

    What the operations of [Ttree] promise: the tree is the ascending sequence
    of its records, an insertion puts the record at its place in it, a deletion
    takes it out, a search finds it. *)

From stdpp Require Import sorting.
From S2P Require Import Prelude PtMalloc PtMallocSpec MallocBase TTree TTreeShape TTreeOrder TTreeInsert TTreeDelete TTreeWalk.

(** ** Sequences of records *)

Section Sequence.
Context {A : Type} {KO : KeyOrder A} (rank : Z -> A).

(** The record [x] at its place, and the sequence without the key [a]. *)
Definition place (x : Z) (xs : list Z) : list Z :=
  filter (fun y => kcmp (rank y) (rank x) = Lt) xs ++ x :: filter (fun y => kcmp (rank x) (rank y) = Lt) xs.
Definition remove (a : A) (xs : list Z) : list Z := filter (fun y => kcmp (rank y) a <> Eq) xs.

Lemma sorted_filter P `{forall x : Z, Decision (P x)} xs : sorted rank xs -> sorted rank (filter P xs).
Proof.
  induction xs as [|x xs IH]; [auto|]. rewrite sorted_cons. intros [Hb Hs]. rewrite filter_cons. case_decide; [|auto]. apply sorted_cons. split; [|auto].
  intros y Hy. apply list_elem_of_filter in Hy as [_ Hy]. apply Hb, Hy.
Qed.

Lemma sorted_unique xs ys : sorted rank xs -> sorted rank ys -> xs ≡ₚ ys -> xs = ys.
Proof.
  unfold sorted. apply StronglySorted_unique. intros x y Hx Hy. exfalso. apply (klt_irrefl (rank x)). etransitivity; eassumption.
Qed.

Lemma place_perm x xs : (forall y, y ∈ xs -> rank y <> rank x) -> place x xs ≡ₚ x :: xs.
Proof.
  intros Hx. unfold place. rewrite <- Permutation_middle. constructor. induction xs as [|y xs IH]; [reflexivity|]. rewrite ! filter_cons.
  assert (Hy : rank y <> rank x) by (apply Hx, list_elem_of_here). destruct (kcmp (rank y) (rank x)) eqn:E; [apply kcmp_eq in E; contradiction|..].
  - rewrite decide_True by reflexivity. rewrite (kcmp_opp (rank y) (rank x)), E. cbn [CompOpp]. rewrite decide_False by discriminate. cbn [app]. constructor. apply IH. intros z Hz. apply Hx, list_elem_of_further, Hz.
  - rewrite decide_False by discriminate. rewrite (kcmp_opp (rank y) (rank x)), E. cbn [CompOpp]. rewrite decide_True by reflexivity. rewrite <- Permutation_middle. constructor. apply IH. intros z Hz. apply Hx, list_elem_of_further, Hz.
Qed.

Lemma place_sorted x xs : sorted rank xs -> (forall y, y ∈ xs -> rank y <> rank x) -> sorted rank (place x xs).
Proof.
  intros Hs Hx. unfold place. apply sorted_insert.
  - apply sorted_app. split_and!; [apply sorted_filter, Hs..|]. intros u v Hu Hv. apply list_elem_of_filter in Hu as [Hu _]. apply list_elem_of_filter in Hv as [Hv _]. etransitivity; eassumption.
  - intros u Hu. apply list_elem_of_filter in Hu as [Hu _]. exact Hu.
  - intros u Hu. apply list_elem_of_filter in Hu as [Hu _]. exact Hu.
Qed.

(** What an insertion into the tree leaves is the record at its place. *)
Lemma place_unique x xs ys : sorted rank xs -> (forall y, y ∈ xs -> rank y <> rank x) -> sorted rank ys -> ys ≡ₚ x :: xs -> ys = place x xs.
Proof. intros Hs Hx Hy Hp. apply sorted_unique; [exact Hy|apply place_sorted; assumption|]. rewrite Hp. symmetry. apply place_perm, Hx. Qed.

Lemma sorted_nodup xs : sorted rank xs -> NoDup xs.
Proof. induction xs as [|x xs IH]; [constructor|]. rewrite sorted_cons. intros [Hb Hs]. constructor; [|auto]. intros Hx. apply (klt_irrefl (rank x)), Hb, Hx. Qed.

Lemma filter_all (P : Z -> Prop) `{forall x, Decision (P x)} (xs : list Z) : (forall x, x ∈ xs -> P x) -> filter P xs = xs.
Proof. induction xs as [|x xs IH]; [reflexivity|]. intros Hx. rewrite filter_cons, decide_True by (apply Hx, list_elem_of_here). f_equal. apply IH. intros y Hy. apply Hx, list_elem_of_further, Hy. Qed.

Lemma remove_absent a xs : (forall x, x ∈ xs -> rank x <> a) -> remove a xs = xs.
Proof. intros Hn. apply filter_all. intros x Hx E. apply kcmp_eq in E. exact (Hn x Hx E). Qed.

Lemma remove_unique x xs ys : sorted rank xs -> sorted rank ys -> xs ≡ₚ x :: ys -> ys = remove (rank x) xs.
Proof.
  intros Hs Hy Hp. apply sorted_unique; [exact Hy|apply sorted_filter, Hs|]. unfold remove. rewrite Hp, filter_cons, decide_False by (intros E; apply E, kcmp_eq; reflexivity).
  rewrite filter_all; [reflexivity|]. intros y Hi E. apply kcmp_eq in E. pose proof (sorted_nodup xs Hs) as Hn. rewrite Hp in Hn. apply NoDup_cons in Hn as [Hn _]. apply Hn.
  replace x with y; [exact Hi|]. apply (sorted_inj rank xs); [exact Hs|rewrite Hp; set_solver..|exact E].
Qed.
End Sequence.

Section Class.
Context {S K A C : Type} {MB : MallocBase S} {ML : MallocLaws S} {KO : KeyOrder A}.
Context (pfComp : K -> S -> Z -> Z) (convert_cvalue : S -> Z -> K) (rank : Z -> A).

(** [T] is the tree [sh] in the heap [H]. *)
Record ttree_ok (T : Ttree (S := S)) (sh : shape) (H : heap) : Prop := {
  to_root : root_handle_ T = root sh;
  to_rep : rep (nodes (tree T)) sh;
  to_nodup : NoDup (handles sh);
  to_balanced : balanced sh;
  to_sorted : sorted rank (contents sh);
  to_mem : m_rep (mem (tree T)) H;
  to_alive : alive (tree T) H
}.

Lemma depth_enough T sh H : ttree_ok T sh H -> 2 * height sh < Z.of_nat (depth (tree T)).
Proof.
  intros O. pose proof (handles_size _ _ (to_rep _ _ _ O) (to_nodup _ _ _ O)). pose proof (height_handles sh). unfold depth. lia.
Qed.

Lemma root_leaf_eqb T sh H : ttree_ok T sh H -> (root_handle_ T =? INVALID_HANDLE) = match sh with Leaf => true | _ => false end.
Proof. intros O. rewrite (to_root _ _ _ O). apply (root_eqb sh _ (to_rep _ _ _ O)). Qed.

(** ** do_insert *)

Inductive insert_result (T : Ttree (S := S)) (sh : shape) (H : heap) (rec : Z) (al0 : bool) : Z -> bool -> Ttree (S := S) -> Prop :=
  | res_exists T' x : x ∈ contents sh -> rank x = rank rec -> tree T' = tree T -> ttree_ok T' sh H -> insert_result T sh H rec al0 EC_KEY_EXIST al0 T'
  | res_nomem T' : (forall x, x ∈ contents sh -> rank x <> rank rec) -> nodes (tree T') = nodes (tree T) -> ttree_ok T' sh H ->
      (forall x, in_heap H x -> load x (mem (tree T')) = load x (mem (tree T))) -> insert_result T sh H rec al0 EC_NO_MEM al0 T'
  | res_done T' sh' H' al : (forall x, x ∈ contents sh -> rank x <> rank rec) -> ttree_ok T' sh' H' -> contents sh' = place rank rec (contents sh) ->
      grown al0 (mem (tree T)) H al (mem (tree T')) H' -> moved H (tree T) sh (tree T') sh' -> insert_result T sh H rec al0 0 al T'.

Lemma do_insert_spec T sh H k rec al0 : ttree_ok T sh H -> compares pfComp rank (mem (tree T)) k (rank rec) (contents sh) -> ranked pfComp convert_cvalue rank (mem (tree T)) (rec :: contents sh) ->
  exists r al T', do_insert pfComp convert_cvalue k rec al0 T = Some (r, al, T') /\ insert_result T sh H rec al0 r al T'.
Proof.
  intros O Hc Hr. unfold do_insert. rewrite (root_leaf_eqb _ _ _ O). destruct (decide (sh = Leaf)) as [->|Hn].
  - destruct (Alloc_spec (tree T) H rec (to_mem _ _ _ O) (to_alive _ _ _ O)) as (h & t' & -> & Ho). cbn [mbind option_bind]. destruct Ho as [(-> & En & Hm & Hl)|(Hh & M & H' & Hal & Hg)].
    + do 3 eexists. split; [reflexivity|]. apply res_nomem; [intros x Hx; inversion Hx|exact En| |exact Hl]. split; cbn; try apply O; try assumption. intros x. cbn. rewrite En. apply O.
    + rewrite (proj2 (Z.eqb_neq _ _) Hh). do 3 eexists. split; [reflexivity|]. eapply (res_done _ _ _ _ _ _ (Bin h 0 [rec] Leaf Leaf) H'); [intros x Hx; inversion Hx| |reflexivity|apply Hg|exact M].
      specialize (Hg false). split; cbn; try apply M; try assumption; [reflexivity|unfold PAGE_SIZE; split_and!; [lia..|reflexivity|lia|lia|exact Logic.I|exact Logic.I]|repeat constructor|]. inversion Hg; subst; assumption.
  - assert (E : match sh with Leaf => true | _ => false end = false) by (destruct sh; [contradiction|reflexivity]). rewrite E, (to_root _ _ _ O). pose proof (depth_enough _ _ _ O) as Hd.
    destruct (node_insert_spec pfComp convert_cvalue rank (depth (tree T)) (tree T) H sh k rec al0 Hn) as (g & h' & al & t' & -> & R); [split; try apply O; assumption|left; lia|]. cbn [mbind option_bind].
    inversion R as [x Hx Ex|s' Hno Hm Hl|sh' g0 al' t1 H' M B Cn Os G Hh Hb Hg Ha]; subst.
    + cbn. do 3 eexists. split; [reflexivity|]. eapply res_exists; [exact Hx|exact Ex|reflexivity|]. split; cbn; apply O.
    + cbn. do 3 eexists. split; [reflexivity|]. apply res_nomem; [exact Hno|reflexivity| |exact Hl]. split; cbn; try apply O. exact Hm.
    + rewrite (proj2 (Z.eqb_neq g (-2))), (proj2 (Z.eqb_neq g (-1))), (proj2 (Z.ltb_ge g 0)) by lia. do 3 eexists. split; [reflexivity|].
      assert (Hno : forall x, x ∈ contents sh -> rank x <> rank rec).
      { intros x Hx E'. pose proof (sorted_nodup rank _ Os) as Hnd. rewrite Cn in Hnd. apply NoDup_cons in Hnd as [Hnd _]. apply Hnd. replace rec with x; [exact Hx|]. apply (sorted_inj rank (contents sh')); [exact Os|rewrite Cn; set_solver..|exact E']. }
      eapply (res_done _ _ _ _ _ _ sh' H'); [exact Hno| |apply (place_unique rank rec (contents sh)); [apply O|exact Hno|exact Os|exact Cn]|exact Hg|exact M].
      split; cbn; try apply M; try assumption; [reflexivity|]. inversion Hg; subst; [apply O|assumption].
Qed.

(** ** Delete *)

Inductive delete_result (T : Ttree (S := S)) (sh : shape) (H : heap) (a : A) : Z -> Ttree (S := S) -> Prop :=
  | res_missing T' : sh <> Leaf -> (forall x, x ∈ contents sh -> rank x <> a) -> tree T' = tree T -> ttree_ok T' sh H -> delete_result T sh H a (-1) T'
  | res_empty : sh = Leaf -> delete_result T sh H a 0 T
  | res_deleted T' sh' H' x : x ∈ contents sh -> rank x = a -> ttree_ok T' sh' H' -> contents sh' = remove rank a (contents sh) ->
      freed (handles sh) (mem (tree T)) H (mem (tree T')) H' -> moved H (tree T) sh (tree T') sh' -> delete_result T sh H a 0 T'.

Lemma Delete_spec T sh H k a fl0 : ttree_ok T sh H -> compares pfComp rank (mem (tree T)) k a (contents sh) -> ranked pfComp convert_cvalue rank (mem (tree T)) (contents sh) ->
  exists r fl T', Delete pfComp convert_cvalue k fl0 T = Some (r, fl, T') /\ delete_result T sh H a r T'.
Proof.
  intros O Hc Hr. unfold Delete. rewrite (root_leaf_eqb _ _ _ O). destruct (decide (sh = Leaf)) as [->|Hn]; [do 3 eexists; split; [reflexivity|apply res_empty; reflexivity]|].
  assert (E : match sh with Leaf => true | _ => false end = false) by (destruct sh; [contradiction|reflexivity]). rewrite E, (to_root _ _ _ O). pose proof (depth_enough _ _ _ O) as Hd. pose proof (height_nonneg sh).
  destruct (node_delete_spec pfComp convert_cvalue rank (depth (tree T)) (tree T) H sh k a fl0 Hn) as (g & h' & fl & t' & -> & R); [split; try apply O; assumption|lia|]. cbn [mbind option_bind].
  inversion R as [Hno|sh' g0 x fl' t1 H' M B Hx Cn Os G Hh Hf Ha]; subst.
  - cbn. do 3 eexists. split; [reflexivity|]. apply res_missing; [exact Hn|exact Hno|reflexivity|]. split; cbn; apply O.
  - rewrite (proj2 (Z.ltb_ge g (-1))), (proj2 (Z.eqb_neq g (-1))) by lia. do 3 eexists. split; [reflexivity|].
    eapply (res_deleted _ _ _ _ _ sh' H' x); [rewrite Cn; apply list_elem_of_here|reflexivity| |apply remove_unique; [apply O|exact Os|exact Cn]|exact Hf|exact M].
    split; cbn; try apply M; try assumption; [reflexivity|]. inversion Hf; subst; [apply O|assumption].
Qed.

(** ** do_find *)

Lemma do_find_spec T sh H k a : ttree_ok T sh H -> compares pfComp rank (mem (tree T)) k a (contents sh) ->
  (exists x, do_find pfComp k T = Some (1, x) /\ x ∈ contents sh /\ rank x = a) \/ do_find pfComp k T = Some (0, INVALID_HANDLE) /\ forall x, x ∈ contents sh -> rank x <> a.
Proof.
  intros O Hc. unfold do_find. rewrite (root_leaf_eqb _ _ _ O). destruct (decide (sh = Leaf)) as [->|Hn]; [right; split; [reflexivity|intros x Hx; inversion Hx]|].
  assert (E : match sh with Leaf => true | _ => false end = false) by (destruct sh; [contradiction|reflexivity]). rewrite E, (to_root _ _ _ O). unfold node_find_record. pose proof (depth_enough _ _ _ O) as Hd. pose proof (height_nonneg sh).
  destruct (node_find_spec pfComp rank (depth (tree T)) (tree T) sh k a Hn) as [(h & p & i & x & -> & Ep & Ei & Hx & Ha)|[-> Hno]]; try apply O; try assumption; [lia|..]; cbn [mbind option_bind].
  - left. exists x. rewrite Ep. cbn [mbind option_bind]. rewrite Ei. split_and!; [reflexivity|assumption..].
  - right. split; [reflexivity|exact Hno].
Qed.

(** ** destory *)

Lemma destory_spec T sh H : ttree_ok T sh H -> NoDup (contents sh) -> (forall x, x ∈ contents sh -> is_Some (H !! x) /\ nodes (tree T) !! x = None) ->
  exists T' H', destory T = Some T' /\ ttree_ok T' Leaf H' /\ without (contents sh ++ handles sh) H H' /\ (forall y, in_heap H' y -> load y (mem (tree T')) = load y (mem (tree T))).
Proof.
  intros O Hn Hx. unfold destory. rewrite (to_root _ _ _ O). pose proof (depth_enough _ _ _ O) as Hd. pose proof (height_nonneg sh) as H0. pose proof (blocks_perm sh) as Hp.
  destruct (node_destory_spec rank (depth (tree T)) (tree T) sh H) as (t' & H' & -> & Hm & Hw & Hl & Nn); try apply O; [lia|rewrite Hp; apply NoDup_app; split_and!; [exact Hn|intros x Hi Hi'; destruct (rep_lookup _ _ _ (to_rep _ _ _ O) Hi'); destruct (Hx x Hi); congruence|apply O]| |].
  { intros x Hi. rewrite Hp in Hi. apply elem_of_app in Hi as [Hi|Hi]; [apply Hx, Hi|]. apply (to_alive _ _ _ O). destruct (rep_lookup _ _ _ (to_rep _ _ _ O) Hi). eauto. }
  cbn [mbind option_bind]. assert (Hw' : without (contents sh ++ handles sh) H H').
  { intros x. rewrite Hw. destruct (decide (x ∈ blocks sh)) as [Hi|Hi]; [rewrite Hp in Hi; rewrite decide_True by exact Hi; reflexivity|]. rewrite decide_False; [reflexivity|]. rewrite <- Hp. exact Hi. }
  do 2 eexists. split; [reflexivity|]. split; [|split; [exact Hw'|exact Hl]]. split; cbn; try done; [apply NoDup_nil_2|apply SSorted_nil|].
  intros x Hi. cbn in Hi. rewrite Nn in Hi. case_decide as Hd'; [destruct Hi; discriminate|]. rewrite Hw'. destruct (to_alive _ _ _ O x Hi) as [n En]. rewrite decide_False; [eauto|]. intros Hin. apply elem_of_app in Hin as [Hin|Hin]; [|contradiction].
  destruct (Hx x Hin) as [_ E]. rewrite E in Hi. destruct Hi; discriminate.
Qed.

(** ** Traversals *)

Section Traverse.
Context (pfVisit : S -> Z -> C -> Z * C) (T : Ttree (S := S)) (sh : shape) (H : heap) (O : ttree_ok T sh H).

Lemma visits_from_root f xs : (sh = Leaf -> xs = []) -> (sh <> Leaf -> visits pfVisit (tree T) (f (depth (tree T)) (root sh) (tree T)) xs) -> visits pfVisit (tree T) (from_root f T) xs.
Proof.
  intros Hl Hb c. unfold from_root. rewrite (root_leaf_eqb _ _ _ O), (to_root _ _ _ O). destruct (decide (sh = Leaf)) as [E|Hn]; [rewrite (Hl E), E; reflexivity|].
  replace (match sh with Leaf => true | _ => false end) with false by (destruct sh; [contradiction|reflexivity]). apply Hb, Hn.
Qed.

Lemma root_pre k a : compares pfComp rank (mem (tree T)) k a (contents sh) -> sh <> Leaf -> one_pre pfComp rank k a (depth (tree T)) (tree T) sh.
Proof. intros Hc Hn. pose proof (depth_enough _ _ _ O). pose proof (height_nonneg sh). unfold one_pre. split_and!; try apply O; try assumption. lia. Qed.

(** The records that are not below [a] and not above [a1]. *)
Definition from (a : A) (xs : list Z) : list Z := filter (fun x => kcmp a (rank x) <> Gt) xs.
Definition upto (a : A) (xs : list Z) : list Z := filter (fun x => kcmp a (rank x) <> Lt) xs.

Lemma upto_from a a1 xs : upto a1 (from a xs) = filter (fun x => kcmp a (rank x) <> Gt /\ kcmp a1 (rank x) <> Lt) xs.
Proof. unfold upto, from. rewrite list_filter_filter. apply list_filter_iff. tauto. Qed.

Lemma pick_filter f P `{forall x : Z, Decision (P x)} xs : (forall x, x ∈ xs -> Is_true (f x) <-> P x) -> pick f xs = filter P xs.
Proof.
  unfold pick. induction xs as [|x xs IH]; [reflexivity|]. intros Hf. rewrite ! filter_cons, IH by (intros y Hy; apply Hf, list_elem_of_further, Hy). specialize (Hf x (list_elem_of_here x xs)). destruct (decide (P x)), (decide (Is_true (f x))); tauto.
Qed.

Lemma ge_key_rank k a xs : compares pfComp rank (mem (tree T)) k a xs -> pick (ge_key pfComp k (tree T)) xs = from a xs.
Proof. intros Hc. apply pick_filter. intros x Hx. destruct (Hc x Hx) as [<- _]. unfold ge_key, diff. rewrite Is_true_true, Z.leb_le. reflexivity. Qed.

Lemma le_key_rank k a xs : compares pfComp rank (mem (tree T)) k a xs -> pick (le_key pfComp k (tree T)) xs = upto a xs.
Proof. intros Hc. apply pick_filter. intros x Hx. destruct (Hc x Hx) as [<- _]. unfold le_key, diff. rewrite Is_true_true, Z.leb_le. rewrite Z.compare_ge_iff. reflexivity. Qed.

Lemma within_rank k k1 a a1 xs : compares pfComp rank (mem (tree T)) k a xs -> compares pfComp rank (mem (tree T)) k1 a1 xs -> pick (within pfComp k k1 (tree T)) xs = upto a1 (from a xs).
Proof.
  intros Hc Hc1. unfold upto, from. rewrite list_filter_filter. apply pick_filter. intros x Hx. destruct (Hc x Hx) as [<- _]. destruct (Hc1 x Hx) as [<- _]. unfold within, diff. rewrite Is_true_true, andb_true_iff, ! Z.leb_le, Z.compare_ge_iff, Z.compare_le_iff. tauto.
Qed.

Lemma traverse_forward_spec : visits pfVisit (tree T) (traverse_forward pfVisit T) (contents sh).
Proof. pose proof (depth_enough _ _ _ O). pose proof (height_nonneg sh). apply visits_from_root; [intros ->; reflexivity|]. intros Hn. apply node_forward_spec; try apply O; [exact Hn|lia]. Qed.

Lemma traverse_backward_spec : visits pfVisit (tree T) (traverse_backward pfVisit T) (reverse (contents sh)).
Proof. pose proof (depth_enough _ _ _ O). pose proof (height_nonneg sh). apply visits_from_root; [intros ->; reflexivity|]. intros Hn. apply node_backward_spec; try apply O; [exact Hn|lia]. Qed.

Lemma reverse_sub k a : compares pfComp rank (mem (tree T)) k a (contents sh) -> compares pfComp rank (mem (tree T)) k a (reverse (contents sh)).
Proof. apply compares_sub. intros x. rewrite elem_of_reverse. auto. Qed.

Lemma traverse_ge_spec k a : compares pfComp rank (mem (tree T)) k a (contents sh) -> visits pfVisit (tree T) (traverse_forward_ge pfComp pfVisit k T) (from a (contents sh)).
Proof. intros Hc. rewrite <- (ge_key_rank k a) by exact Hc. apply visits_from_root; [intros ->; reflexivity|]. intros Hn. apply (forward_ge_spec pfComp rank pfVisit k a), root_pre; assumption. Qed.

Lemma traverse_le_spec k a : compares pfComp rank (mem (tree T)) k a (contents sh) -> visits pfVisit (tree T) (traverse_backward_le pfComp pfVisit k T) (upto a (reverse (contents sh))).
Proof. intros Hc. rewrite <- (le_key_rank k a) by (apply reverse_sub, Hc). apply visits_from_root; [intros ->; reflexivity|]. intros Hn. apply (backward_le_spec pfComp rank pfVisit k a), root_pre; assumption. Qed.

Lemma traverse_between_spec k k1 a a1 : compares pfComp rank (mem (tree T)) k a (contents sh) -> compares pfComp rank (mem (tree T)) k1 a1 (contents sh) ->
  visits pfVisit (tree T) (traverse_forward_between pfComp pfVisit k k1 T) (upto a1 (from a (contents sh))) /\
  visits pfVisit (tree T) (traverse_backward_between pfComp pfVisit k k1 T) (upto a1 (from a (reverse (contents sh)))).
Proof.
  intros Hc Hc1. rewrite <- (within_rank k k1 a a1) by assumption. rewrite <- (within_rank k k1 a a1) by (apply reverse_sub; assumption).
  split; (apply visits_from_root; [intros ->; reflexivity|]); intros Hn; [apply (forward_between_spec pfComp rank pfVisit k k1 a a1)|apply (backward_between_spec pfComp rank pfVisit k k1 a a1)]; split; apply root_pre; assumption.
Qed.
End Traverse.
End Class.

(** * Sequences of operations on a T-tree

    Whatever insertions, deletions and searches are made, the answers are those
    of an ascending sequence of records.  The callbacks read only the records,
    and the tree never touches those. *)


(** ** The specification *)

Section Spec.
Context {K A : Type} {KO : KeyOrder A} (rank : Z -> A).

Inductive top := TInsert (k : K) (rec : Z) | TDelete (k : K) | TFind (k : K).

Definition has (a : A) (xs : list Z) : Prop := exists x, x ∈ xs /\ rank x = a.

(** The key [a] of an operation, its answer, and the sequence after it. *)
Inductive spec_step (xs : list Z) (a : A) : top -> Z * Z -> list Z -> Prop :=
  | spec_exists k rec : has a xs -> spec_step xs a (TInsert k rec) (EC_KEY_EXIST, 0) xs
  | spec_nomem k rec : ~ has a xs -> spec_step xs a (TInsert k rec) (EC_NO_MEM, 0) xs
  | spec_insert k rec : ~ has a xs -> spec_step xs a (TInsert k rec) (0, 0) (place rank rec xs)
  | spec_missing k : xs <> [] -> ~ has a xs -> spec_step xs a (TDelete k) (-1, 0) xs
  | spec_empty k : xs = [] -> spec_step xs a (TDelete k) (0, 0) xs
  | spec_delete k : has a xs -> spec_step xs a (TDelete k) (0, 0) (remove rank a xs)
  | spec_found k x : x ∈ xs -> rank x = a -> spec_step xs a (TFind k) (1, x) xs
  | spec_absent k : ~ has a xs -> spec_step xs a (TFind k) (0, INVALID_HANDLE) xs.

Inductive spec_run (xs : list Z) : list (top * A) -> list (Z * Z) -> list Z -> Prop :=
  | spec_done : spec_run xs [] [] xs
  | spec_more op a ops o os ys zs : spec_step xs a op o ys -> spec_run ys ops os zs -> spec_run xs ((op, a) :: ops) (o :: os) zs.
End Spec.

Section Run.
Context {S K A : Type} {MB : MallocBase S} {ML : MallocLaws S} {KO : KeyOrder A}.
Context (pfComp : K -> S -> Z -> Z) (convert_cvalue : S -> Z -> K) (rank : Z -> A).

Definition exec (op : top (K := K)) (T : Ttree (S := S)) : option (Z * Z * Ttree (S := S)) :=
  match op with
  | TInsert k rec => '(r, _, T) ← do_insert pfComp convert_cvalue k rec false T; Some (r, 0, T)
  | TDelete k => '(r, _, T) ← Delete pfComp convert_cvalue k false T; Some (r, 0, T)
  | TFind k => '(r, x) ← do_find pfComp k T; Some (r, x, T)
  end.

Fixpoint run (ops : list (top (K := K))) (T : Ttree (S := S)) : option (list (Z * Z) * Ttree (S := S)) :=
  match ops with
  | [] => Some ([], T)
  | op :: ops => '(o, T) ← exec op T; '(os, T) ← run ops T; Some (o :: os, T)
  end.

(** ** The records *)

(** The records [R] as the callbacks saw them in the memory [s0], blocks of [H0]. *)
Context (R : list Z) (s0 : S) (H0 : heap).

Definition unread (s : S) : Prop := forall x, x ∈ R -> (forall k, pfComp k s x = pfComp k s0 x) /\ convert_cvalue s x = convert_cvalue s0 x.

Context (Hranked : ranked pfComp convert_cvalue rank s0 R).
Context (Hreads : forall s s' H, (forall x, x ∈ R -> H !! x = H0 !! x) -> (forall x, in_heap H x -> load x s' = load x s) -> unread s -> unread s').

(** An operation is given a key and its rank; a record is given with its own. *)
Definition op_ok (p : top (K := K) * A) : Prop :=
  match fst p with
  | TInsert k rec => rec ∈ R /\ snd p = rank rec /\ compares pfComp rank s0 k (snd p) R
  | TDelete k | TFind k => compares pfComp rank s0 k (snd p) R
  end.

Record run_ok (T : Ttree (S := S)) (sh : shape) (H : heap) : Prop := {
  ro_tree : ttree_ok rank T sh H;
  ro_sub : forall x, x ∈ contents sh -> x ∈ R;
  ro_unread : unread (mem (tree T));
  ro_blocks : forall x, x ∈ R -> H !! x = H0 !! x /\ is_Some (H !! x) /\ nodes (tree T) !! x = None
}.

Lemma compares_now T sh H k a xs : run_ok T sh H -> (forall x, x ∈ xs -> x ∈ R) -> compares pfComp rank s0 k a R -> compares pfComp rank (mem (tree T)) k a xs.
Proof. intros O Hs Hc x Hx. destruct (ro_unread _ _ _ O x (Hs x Hx)) as [E _]. rewrite E. apply Hc, Hs, Hx. Qed.

Lemma ranked_now T sh H xs : run_ok T sh H -> (forall x, x ∈ xs -> x ∈ R) -> ranked pfComp convert_cvalue rank (mem (tree T)) xs.
Proof. intros O Hs x Hx. destruct (ro_unread _ _ _ O x (Hs x Hx)) as [_ E]. rewrite E. apply (compares_now T sh H); [exact O|exact Hs|]. apply Hranked, Hs, Hx. Qed.

Lemma contents_nil sh : balanced sh -> contents sh = [] -> sh = Leaf.
Proof. destruct sh as [|h b xs l r]; [reflexivity|]. cbn. intros (Hx & _) E. apply app_eq_nil in E as [_ E]. apply app_eq_nil in E as [-> _]. cbn in Hx. lia. Qed.

(** A step that leaves the records alone. *)
Lemma blocks_moved T sh H T' sh' x : run_ok T sh H -> moved H (tree T) sh (tree T') sh' -> x ∈ R -> nodes (tree T') !! x = None.
Proof.
  intros O M Hx. destruct (ro_blocks _ _ _ O x Hx) as (_ & [n En] & Hno). assert (Hsh : x ∉ handles sh) by (intros Hi; destruct (rep_lookup _ _ _ (to_rep _ _ _ _ (ro_tree _ _ _ O)) Hi); congruence).
  rewrite (mv_frame _ _ _ _ _ M x Hsh); [exact Hno|]. intros Hi. destruct (mv_new _ _ _ _ _ M x Hi); [contradiction|congruence].
Qed.

Lemma run_grown T sh H T' sh' H' al : run_ok T sh H -> ttree_ok rank T' sh' H' -> (forall x, x ∈ contents sh' -> x ∈ R) -> moved H (tree T) sh (tree T') sh' -> grown false (mem (tree T)) H al (mem (tree T')) H' -> run_ok T' sh' H'.
Proof.
  intros O O' Hs M G. assert (Hb : forall x, x ∈ R -> H' !! x = H !! x).
  { intros x Hx. inversion G as [|h n s' Hh]; subst; [reflexivity|]. apply lookup_insert_ne. intros <-. destruct (ro_blocks _ _ _ O h Hx) as (_ & [m Em] & _). congruence. }
  split; [exact O'|exact Hs| |].
  - apply (Hreads (mem (tree T)) _ H); [intros x Hx; apply (ro_blocks _ _ _ O x Hx)| |apply O]. inversion G; subst; [congruence|assumption].
  - intros x Hx. destruct (ro_blocks _ _ _ O x Hx) as (E & Hi & _). rewrite Hb by exact Hx. split_and!; [exact E|exact Hi|eapply blocks_moved; eassumption].
Qed.

Lemma run_freed T sh H T' sh' H' : run_ok T sh H -> ttree_ok rank T' sh' H' -> (forall x, x ∈ contents sh' -> x ∈ R) -> moved H (tree T) sh (tree T') sh' -> freed (handles sh) (mem (tree T)) H (mem (tree T')) H' -> run_ok T' sh' H'.
Proof.
  intros O O' Hs M G. assert (Hb : forall x, x ∈ R -> H' !! x = H !! x).
  { intros x Hx. inversion G as [|h n s' Hh]; subst; [reflexivity|]. apply lookup_delete_ne. intros <-. destruct (ro_blocks _ _ _ O h Hx) as (_ & _ & Hno). destruct (rep_lookup _ _ _ (to_rep _ _ _ _ (ro_tree _ _ _ O)) Hh). congruence. }
  split; [exact O'|exact Hs| |].
  - apply (Hreads (mem (tree T)) _ H'); [intros x Hx; rewrite (Hb x Hx); apply (ro_blocks _ _ _ O x Hx)| |apply O]. inversion G; subst; [congruence|assumption].
  - intros x Hx. destruct (ro_blocks _ _ _ O x Hx) as (E & Hi & _). rewrite Hb by exact Hx. split_and!; [exact E|exact Hi|eapply blocks_moved; eassumption].
Qed.

Lemma run_same T sh H T' : run_ok T sh H -> ttree_ok rank T' sh H -> nodes (tree T') = nodes (tree T) -> (forall x, in_heap H x -> load x (mem (tree T')) = load x (mem (tree T))) -> run_ok T' sh H.
Proof.
  intros O O' En Hl. split; [exact O'|apply O| |intros x Hx; rewrite En; apply (ro_blocks _ _ _ O x Hx)].
  apply (Hreads (mem (tree T)) _ H); [intros x Hx; apply (ro_blocks _ _ _ O x Hx)|exact Hl|apply O].
Qed.

Lemma exec_spec T sh H op a : run_ok T sh H -> op_ok (op, a) -> exists o T' sh' H', exec op T = Some (o, T') /\ run_ok T' sh' H' /\ spec_step rank (contents sh) a op o (contents sh').
Proof.
  intros O Hop. pose proof (ro_tree _ _ _ O) as Ot. destruct op as [k rec|k|k]; cbn [exec].
  - destruct Hop as (Hrec & Ea & Hc). cbn in Ea, Hc. subst a. destruct (do_insert_spec pfComp convert_cvalue rank T sh H k rec false Ot) as (r & al & T' & -> & Rs).
    + apply (compares_now T sh H); [exact O|apply O|exact Hc].
    + apply (ranked_now T sh H); [exact O|]. intros x Hx. apply elem_of_cons in Hx as [->|Hx]; [exact Hrec|apply O, Hx].
    + cbn [mbind option_bind]. inversion Rs as [T1 x Hx Ex Et O1|T1 Hno En O1 Hl|T1 sh' H' al1 Hno O1 Ec Hg M]; subst.
      * do 4 eexists. split; [reflexivity|]. split; [apply (run_same T); [exact O|exact O1|congruence..]|]. apply spec_exists. exists x. auto.
      * do 4 eexists. split; [reflexivity|]. split; [exact (run_same T sh H T' O O1 En Hl)|]. apply spec_nomem. intros (x & Hx & Ex). exact (Hno x Hx Ex).
      * do 4 eexists. split; [reflexivity|]. split; [eapply run_grown; try eassumption|rewrite Ec; apply spec_insert; intros (x & Hx & Ex); exact (Hno x Hx Ex)].
        intros x Hx. rewrite Ec in Hx. unfold place in Hx. apply elem_of_app in Hx as [Hx|Hx]; [apply list_elem_of_filter in Hx; apply O; tauto|]. apply elem_of_cons in Hx as [->|Hx]; [exact Hrec|]. apply list_elem_of_filter in Hx. apply O. tauto.
  - destruct (Delete_spec pfComp convert_cvalue rank T sh H k a false Ot) as (r & fl & T' & -> & Rs).
    + apply (compares_now T sh H); [exact O|apply O|exact Hop].
    + apply (ranked_now T sh H); [exact O|apply O].
    + cbn [mbind option_bind]. inversion Rs as [T1 Hn Hno Et O1|Hn|T1 sh' H' x Hx Ex O1 Ec Hf M]; subst.
      * do 4 eexists. split; [reflexivity|]. split; [apply (run_same T); [exact O|exact O1|congruence..]|]. apply spec_missing; [intros E; apply Hn, contents_nil; [apply Ot|exact E]|intros (x & Hx & Ex); exact (Hno x Hx Ex)].
      * do 4 eexists. split; [reflexivity|]. split; [exact O|]. apply spec_empty. reflexivity.
      * do 4 eexists. split; [reflexivity|]. split; [eapply run_freed; try eassumption|rewrite Ec; apply spec_delete; exists x; auto]. intros y Hy. rewrite Ec in Hy. unfold remove in Hy. apply list_elem_of_filter in Hy. apply O. tauto.
  - destruct (do_find_spec pfComp rank T sh H k a Ot) as [(x & -> & Hx & Ex)|[-> Hno]]; [apply (compares_now T sh H); [exact O|apply O|exact Hop]|..]; cbn [mbind option_bind].
    + do 4 eexists. split; [reflexivity|]. split; [exact O|]. apply spec_found; assumption.
    + do 4 eexists. split; [reflexivity|]. split; [exact O|]. apply spec_absent. intros (x & Hx & Ex). exact (Hno x Hx Ex).
Qed.

Lemma run_spec ops : forall T sh H, run_ok T sh H -> Forall op_ok ops ->
  exists os T' sh' H', run (fst <$> ops) T = Some (os, T') /\ run_ok T' sh' H' /\ spec_run rank (contents sh) ops os (contents sh').
Proof.
  induction ops as [|[op a] ops IH]; intros T sh H O Ho; [exists [], T, sh, H; split_and!; [reflexivity|exact O|constructor]|]. apply Forall_cons in Ho as [Hop Ho].
  destruct (exec_spec T sh H op a O Hop) as (o & T1 & sh1 & H1 & E1 & O1 & S1). destruct (IH T1 sh1 H1 O1 Ho) as (os & T2 & sh2 & H2 & E2 & O2 & S2).
  exists (o :: os), T2, sh2, H2. split_and!; [|exact O2|econstructor; eassumption]. rewrite fmap_cons. cbn [fst run]. rewrite E1. cbn [mbind option_bind]. rewrite E2. reflexivity.
Qed.
End Run.
