(* ===== verification/TreeKeys.v ===== *)
(** * Keys of an indexed table (KeyCompare, convert_cvalue and Visit of src/core/tree/t_tree.cc)

    The records of a T-tree start with the key of the index field, behind ten
    bytes of a head.  [KeyCompare] compares a value with the key of a record,
    [convert_cvalue] reads that key as a value, [Visit] collects records. *)

From Stdlib Require Import SpecFloat.
From S2P Require Import Prelude PtMalloc MallocBase RawData TTree.

(** ** double *)

(** The [double] with bits [b]. *)
Definition double_of (b : Z) : spec_float :=
  let s := b / 2 ^ 63 mod 2 =? 1 in let e := b / 2 ^ 52 mod 2 ^ 11 in let m := b mod 2 ^ 52 in
  if e =? 2047 then (if m =? 0 then S754_infinity s else S754_nan)
  else if e =? 0 then (if m =? 0 then S754_zero s else S754_finite s (Z.to_pos m) (-1074))
  else S754_finite s (Z.to_pos (2 ^ 52 + m)) (e - 1075).

(** The conversion to [int64_t] drops the fraction; out of range it is undefined. *)
Definition double_to_s64 (x : spec_float) : option Z :=
  match x with
  | S754_zero _ => Some 0
  | S754_finite s m e =>
      let z := if 0 <=? e then Z.pos m * 2 ^ e else Z.pos m / 2 ^ (- e) in
      let z := if s then - z else z in
      if (- 2 ^ 63 <=? z) && (z <? 2 ^ 63) then Some z else None
  | _ => None
  end.

Definition double_sub (x y : Z) : spec_float := SFsub 53 1024 (double_of x) (double_of y).

(** 0.0001 *)
Definition tolerance : spec_float := double_of 0x3F1A36E2EB1C432D.

(** ** Strings *)

(** [tolower] in the C locale. *)
Definition tolower (c : Z) : Z := if (65 <=? c) && (c <=? 90) then c + 32 else c.

(** [memcmp] and [strncasecmp] on [n] bytes of both. *)
Fixpoint bytes_cmp (n : nat) (a b : list Z) : Z :=
  match n, a, b with
  | Datatypes.S n, x :: a, y :: b => if x =? y then bytes_cmp n a b else x - y
  | _, _, _ => 0
  end.

Fixpoint strncasecmp (n : nat) (a b : list Z) : Z :=
  match n, a, b with
  | Datatypes.S n, x :: a, y :: b =>
      if tolower x =? tolower y then if x =? 0 then 0 else strncasecmp n a b else tolower x - tolower y
  | _, _, _ => 0
  end.

Section Keys.
Context {S : Type} `{MallocBase S} (f : FieldDef).

(** [index_key()]: the two bytes and two integers of the head come first. *)
Definition index_key (h : Z) : Z := h + 2 + 2 * 4.

(** [GET_KEY(x, pOtherKey, t)] for an unsigned type of [n] bytes. *)
Definition GET_KEY (n : nat) (s : S) (h : Z) : Z := le_val (load_bytes (index_key h) n s).

(** The bytes behind the length of a string. *)
Definition key_bytes_at (s : S) (h len : Z) : list Z := load_bytes (index_key h + 4) (Z.to_nat len) s.

(** The branches for strings, [cmp] is [strncasecmp] or [memcmp]. *)
Definition compare_strings (cmp : nat -> list Z -> list Z -> Z) (key : list Z) (s : S) (h : Z) : option Z :=
  let keyLen := Z.of_nat (length key) in
  let tKeyLen := sext 32 (GET_KEY 4 s h) in
  if (keyLen =? 0) && (tKeyLen =? 0) then Some 0
  else if (keyLen =? 0) && negb (tKeyLen =? 0) then Some (-1)
  else if negb (keyLen =? 0) && (tKeyLen =? 0) then Some 1
  else
    let len := if keyLen <? tKeyLen then keyLen else tKeyLen in
    if len <? 0 then None
    else
      let res := cmp (Z.to_nat len) key (key_bytes_at s h len) in
      if keyLen =? tKeyLen then Some res
      else if res =? 0 then Some (if tKeyLen <? keyLen then 1 else -1)
      else Some res.

(** [None]: the value is not of the kind of the field, or the result is not defined. *)
Definition KeyCompare (value : DTCValue) (s : S) (hOtherKey : Z) : option Z :=
  match field_type f, value with
  | FSigned, VInt skey =>
      let sotherKey := if 4 <? field_size f then sext 64 (GET_KEY 8 s hOtherKey) else sext 32 (GET_KEY 4 s hOtherKey) in
      Some (sext 64 (wrap 64 (skey - sotherKey)))
  | FUnsigned, VInt ukey =>
      let uotherKey := if 4 <? field_size f then GET_KEY 8 s hOtherKey else GET_KEY 4 s hOtherKey in
      Some (sext 64 (wrap 64 (ukey - uotherKey)))
  | FFloat, VFlt dkey =>
      let dotherKey := if 4 <? field_size f then GET_KEY 8 s hOtherKey else widen (GET_KEY 4 s hOtherKey) in
      let sKey := double_sub dkey dotherKey in
      if SFltb (SFopp tolerance) sKey && SFltb sKey tolerance then Some 0 else double_to_s64 sKey
  | FString, VBin key => compare_strings strncasecmp key s hOtherKey
  | FBinary, VBin key => compare_strings bytes_cmp key s hOtherKey
  | FNone, _ => Some 0
  | _, _ => None
  end.

Definition convert_cvalue (s : S) (hReInsert : Z) : option DTCValue :=
  match field_type f with
  | FSigned => Some (VInt (if 4 <? field_size f then sext 64 (GET_KEY 8 s hReInsert) else sext 32 (GET_KEY 4 s hReInsert)))
  | FUnsigned => Some (VInt (if 4 <? field_size f then GET_KEY 8 s hReInsert else GET_KEY 4 s hReInsert))
  | FFloat => Some (VFlt (if 4 <? field_size f then GET_KEY 8 s hReInsert else widen (GET_KEY 4 s hReInsert)))
  | FString | FBinary =>
      let len := sext 32 (GET_KEY 4 s hReInsert) in
      Some (if len <? 0 then VBadBin len else VBin (key_bytes_at s hReInsert len))
  | FNone => None
  end.

(** As the callback of a tree: what has no result is taken as 0. *)
Definition key_comp (k : option DTCValue) (s : S) (h : Z) : Z := default 0 (v ← k; KeyCompare v s h).
End Keys.

(** ** Visit *)

Record ResCookie := mkResCookie { p_handle : list Z; has_got_node_count : Z; need_find_node_count : Z; has_got_row_count : Z }.

(** [p_handle] holds the handles stored so far. *)
Definition Visit {S} `{MallocBase S} (s : S) (hRecord : Z) (cookie : ResCookie) : Z * ResCookie :=
  let hRecordRowCnts := le_val (load_bytes (hRecord + 1 + 4) 4 s) in
  if (0 <? need_find_node_count cookie) && (need_find_node_count cookie <=? has_got_row_count cookie) then (0, cookie)
  else (0, mkResCookie (p_handle cookie ++ [hRecord]) (wrap 32 (has_got_node_count cookie + 1)) (need_find_node_count cookie)
             (wrap 32 (has_got_row_count cookie + hRecordRowCnts))).
