(* ===== verification/TreeKeysSpec.v ===== *)
(** * What KeyCompare orders

    For records whose keys fit the comparison, [KeyCompare] is a total order, so
    the theorems on T-trees apply: integers no further apart than an [int] holds,
    strings without regard to case, binaries byte by byte.  It reads nothing but
    the key of the record. *)

From S2P Require Import Prelude PtMalloc PtMallocSpec MallocBase RawData TTree TTreeShape TTreeOrder TTreeInsert TreeKeys TTreeDelete TTreeWalk TTreeSpec.

(** ** Sequences of bytes in lexicographic order *)

Fixpoint lex (a b : list Z) : comparison :=
  match a, b with
  | [], [] => Eq
  | [], _ => Lt
  | _, [] => Gt
  | x :: a, y :: b => match x ?= y with Eq => lex a b | c => c end
  end.

Lemma lex_eq a : forall b, lex a b = Eq <-> a = b.
Proof.
  induction a as [|x a IH]; intros [|y b]; cbn; try (split; [discriminate|discriminate]); [split; reflexivity|]. destruct (Z.compare_spec x y) as [->|H|H].
  - rewrite IH. split; [intros ->; reflexivity|intros [= ->]; reflexivity].
  - split; [discriminate|intros [= -> _]; lia].
  - split; [discriminate|intros [= -> _]; lia].
Qed.

Lemma lex_opp a : forall b, lex b a = CompOpp (lex a b).
Proof. induction a as [|x a IH]; intros [|y b]; cbn; try reflexivity. rewrite (Z.compare_antisym x y). destruct (x ?= y); cbn; auto. Qed.

Lemma lex_trans a : forall b c, lex a b = Lt -> lex b c = Lt -> lex a c = Lt.
Proof.
  induction a as [|x a IH]; intros [|y b] [|z c]; cbn; try congruence. destruct (Z.compare_spec x y), (Z.compare_spec y z), (Z.compare_spec x z); subst; try congruence; try lia. apply IH.
Qed.

#[export] Instance lex_key_order : KeyOrder (list Z).
Proof.
  refine {| kcmp := lex |}.
  - intros a b. apply lex_eq.
  - intros a b. apply lex_opp.
  - intros a b c. apply lex_trans.
Defined.

(** [memcmp] on the common length, then the lengths. *)
Lemma lex_bytes a : forall b, lex a b = match bytes_cmp (Nat.min (length a) (length b)) a b ?= 0 with Eq => Nat.compare (length a) (length b) | c => c end.
Proof.
  induction a as [|x a IH]; intros [|y b]; try reflexivity. cbn [lex length Nat.min bytes_cmp Nat.compare]. rewrite IH. destruct (Z.eqb_spec x y) as [->|Hne]; [rewrite Z.compare_refl; reflexivity|].
  rewrite (Z.compare_sub x y). destruct (Z.compare_spec (x - y) 0); [lia|reflexivity..].
Qed.

Lemma bytes_cmp_range n : forall a b, Forall (fun x => 0 <= x < 256) a -> Forall (fun x => 0 <= x < 256) b -> -256 < bytes_cmp n a b < 256.
Proof.
  induction n as [|n IH]; intros [|x a] [|y b] Ha Hb; cbn; try lia. apply Forall_cons in Ha as [Hx Ha]. apply Forall_cons in Hb as [Hy Hb]. destruct (Z.eqb_spec x y); [apply IH; assumption|lia].
Qed.

(** Without a zero byte, [strncasecmp] is [memcmp] of the lower case. *)
Lemma strncasecmp_lower n : forall a b, Forall (fun x => x <> 0) a -> strncasecmp n a b = bytes_cmp n (tolower <$> a) (tolower <$> b).
Proof.
  induction n as [|n IH]; intros [|x a] [|y b] Ha; try reflexivity. apply Forall_cons in Ha as [Hx Ha]. cbn. destruct (tolower x =? tolower y); [|reflexivity]. rewrite (proj2 (Z.eqb_neq _ _) Hx). apply IH, Ha.
Qed.

Lemma bytes_cmp_take n : forall a b m, (n <= m)%nat -> bytes_cmp n a (take m b) = bytes_cmp n a b.
Proof.
  induction n as [|n IH]; intros [|x a] [|y b] [|m] Hm; try reflexivity; try lia. cbn. destruct (x =? y); [|reflexivity]. apply IH. lia.
Qed.

Section Spec.
Context {S : Type} {MB : MallocBase S} (f : FieldDef).

(** ** Integers *)

Definition int_field : Prop := field_type f = FSigned \/ field_type f = FUnsigned.

(** The key of a record. *)
Definition int_key (s : S) (h : Z) : Z :=
  match field_type f with
  | FSigned => if 4 <? field_size f then sext 64 (GET_KEY 8 s h) else sext 32 (GET_KEY 4 s h)
  | _ => if 4 <? field_size f then GET_KEY 8 s h else GET_KEY 4 s h
  end.

Lemma convert_int s h : int_field -> convert_cvalue f s h = Some (VInt (int_key s h)).
Proof. unfold convert_cvalue, int_key. intros [-> | ->]; reflexivity. Qed.

Lemma compare_int z s h : int_field -> key_comp f (Some (VInt z)) s h = sext 64 (wrap 64 (z - int_key s h)).
Proof. unfold key_comp, KeyCompare, int_key. intros [-> | ->]; reflexivity. Qed.

(** The [int] a comparison is kept in. *)
Lemma cut_to_int d : sext 32 (wrap 32 (sext 64 (wrap 64 d))) = sext 32 (wrap 32 d).
Proof.
  f_equal. unfold sext, wrap. destruct (_ <? 2 ^ (64 - 1)).
  - symmetry. apply Znumtheory.Zmod_div_mod; [lia..|]. exists (2 ^ 32). reflexivity.
  - rewrite Zminus_mod, <- (Znumtheory.Zmod_div_mod (2 ^ 32) (2 ^ 64) d) by (lia || (exists (2 ^ 32); reflexivity)). change (2 ^ 64 mod 2 ^ 32) with 0. rewrite Z.sub_0_r. apply Z.mod_mod. lia.
Qed.

Lemma sext_near d : - 2 ^ 31 <= d < 2 ^ 31 -> sext 32 (wrap 32 d) = d.
Proof. intros Hd. unfold sext, wrap. change (32 - 1) with 31. destruct (Z.ltb_spec (d mod 2 ^ 32) (2 ^ 31)); zdm. Qed.

Lemma compares_ints (rank : Z -> Z) s z xs : int_field -> (forall x, x ∈ xs -> rank x = int_key s x /\ - 2 ^ 31 <= z - rank x < 2 ^ 31) -> compares (key_comp f) rank s (Some (VInt z)) z xs.
Proof.
  intros Hf Hx x Hi. destruct (Hx x Hi) as [E Hd]. rewrite compare_int by exact Hf. rewrite cut_to_int, <- E, sext_near by exact Hd. cbn. split; [symmetry; apply Z.compare_sub|].
  intros Ez. apply Z.compare_eq in Ez. rewrite Ez, Z.sub_diag. reflexivity.
Qed.

Lemma ranked_ints (rank : Z -> Z) s xs : int_field -> (forall x y, x ∈ xs -> y ∈ xs -> rank x = int_key s x /\ - 2 ^ 31 <= rank x - rank y < 2 ^ 31) -> ranked (key_comp f) (convert_cvalue f) rank s xs.
Proof.
  intros Hf Hx x Hi. rewrite convert_int by exact Hf. destruct (Hx x x Hi Hi) as [<- _]. apply compares_ints; [exact Hf|]. intros y Hy. split; [apply (Hx y y Hy Hy)|apply (Hx x y Hi Hy)].
Qed.

(** Keys that differ by a multiple of 2^32 are the same to the tree. *)
Lemma int_collision z s h m : int_field -> z = int_key s h + m * 2 ^ 32 -> sext 32 (wrap 32 (key_comp f (Some (VInt z)) s h)) = 0.
Proof. intros Hf ->. rewrite compare_int, cut_to_int by exact Hf. replace (int_key s h + m * 2 ^ 32 - int_key s h) with (m * 2 ^ 32) by lia. unfold wrap. rewrite Z.mod_mul by lia. reflexivity. Qed.

(** ** Strings *)

Definition string_len (s : S) (h : Z) : Z := sext 32 (GET_KEY 4 s h).
Definition string_key (s : S) (h : Z) : list Z := key_bytes_at s h (string_len s h).
Definition fold_case (bs : list Z) : list Z := match field_type f with FString => tolower <$> bs | _ => bs end.

Definition string_field : Prop := field_type f = FString \/ field_type f = FBinary.

(** Bytes [KeyCompare] tells apart: a string ends at a zero byte. *)
Definition comparable (bs : list Z) : Prop := Forall (fun x => 0 <= x < 256) bs /\ (field_type f = FString -> Forall (fun x => x <> 0) bs).

Lemma length_key_bytes s h n : length (key_bytes_at s h n) = Z.to_nat n.
Proof. unfold key_bytes_at, load_bytes. rewrite length_fmap, length_seq. reflexivity. Qed.

Lemma take_key_bytes s h n m : 0 <= n <= m -> key_bytes_at s h n = take (Z.to_nat n) (key_bytes_at s h m).
Proof. intros Hn. unfold key_bytes_at, load_bytes. rewrite <- fmap_take. f_equal. rewrite take_seq. f_equal. lia. Qed.

Lemma tolower_range x : 0 <= x < 256 -> 0 <= tolower x < 256.
Proof. intros Hx. unfold tolower. destruct (_ && _) eqn:E; [|exact Hx]. apply andb_prop in E as [_ E]. apply Z.leb_le in E. lia. Qed.

Lemma fold_case_range bs : Forall (fun x => 0 <= x < 256) bs -> Forall (fun x => 0 <= x < 256) (fold_case bs).
Proof. intros Hb. unfold fold_case. destruct (field_type f); try exact Hb. apply Forall_fmap. eapply Forall_impl; [exact Hb|]. intros x. apply tolower_range. Qed.

Lemma length_fold_case bs : length (fold_case bs) = length bs.
Proof. unfold fold_case. destruct (field_type f); try reflexivity. apply length_fmap. Qed.

Lemma take_fold_case n bs : fold_case (take n bs) = take n (fold_case bs).
Proof. unfold fold_case. destruct (field_type f); try reflexivity. apply fmap_take. Qed.

(** The two comparisons are one. *)
Definition cmp_of : nat -> list Z -> list Z -> Z := match field_type f with FString => strncasecmp | _ => bytes_cmp end.

Lemma cmp_fold n a b : comparable a -> cmp_of n a b = bytes_cmp n (fold_case a) (fold_case b).
Proof. intros [_ Ha]. unfold cmp_of, fold_case in *. destruct (field_type f); try reflexivity. apply strncasecmp_lower, Ha. reflexivity. Qed.

Lemma compare_strings_lex key s h : comparable key -> comparable (string_key s h) -> 0 <= string_len s h ->
  exists res, compare_strings cmp_of key s h = Some res /\ (res ?= 0) = lex (fold_case key) (fold_case (string_key s h)) /\ -256 < res < 256.
Proof.
  intros Hk Ho Hl. set (o := string_key s h) in *. assert (Lo : length o = Z.to_nat (string_len s h)) by apply length_key_bytes. unfold compare_strings. fold (string_len s h).
  destruct (Z.eqb_spec (Z.of_nat (length key)) 0) as [K0|K0], (Z.eqb_spec (string_len s h) 0) as [T0|T0]; cbn [andb negb].
  - exists 0. destruct key as [|? ?]; [|cbn in K0; lia]. destruct o as [|? ?]; [|cbn in Lo; lia]. split_and!; [reflexivity|unfold fold_case; destruct (field_type f); reflexivity|lia..].
  - exists (-1). pose proof (length_fold_case o) as L1. destruct key as [|? ?]; [|cbn in K0; lia]. split_and!; [reflexivity| |lia..]. destruct (fold_case o); [cbn in L1; lia|unfold fold_case; destruct (field_type f); reflexivity].
  - exists 1. pose proof (length_fold_case key) as L1. destruct o as [|? ?] eqn:Eo; [|cbn in Lo; lia]. split_and!; [reflexivity| |lia..]. destruct (fold_case key); [cbn in L1; lia|unfold fold_case; destruct (field_type f); reflexivity].
  - set (n := if Z.of_nat (length key) <? string_len s h then Z.of_nat (length key) else string_len s h). assert (En : Z.to_nat n = Nat.min (length key) (length o) /\ 0 <= n <= string_len s h) by (subst n; destruct (Z.ltb_spec (Z.of_nat (length key)) (string_len s h)); lia). destruct En as [En Hn].
    rewrite (proj2 (Z.ltb_ge n 0)) by lia. rewrite (take_key_bytes s h n (string_len s h)) by lia. change (key_bytes_at s h (string_len s h)) with o. rewrite cmp_fold, take_fold_case, bytes_cmp_take, En by (exact Hk || lia).
    pose proof (lex_bytes (fold_case key) (fold_case o)) as Hx. rewrite ! length_fold_case in Hx. pose proof (bytes_cmp_range (Nat.min (length key) (length o)) (fold_case key) (fold_case o) (fold_case_range _ (proj1 Hk)) (fold_case_range _ (proj1 Ho))) as Hr.
    set (res := bytes_cmp _ _ _) in *. destruct (Z.eqb_spec (Z.of_nat (length key)) (string_len s h)) as [El|El].
    + exists res. split_and!; [reflexivity| |lia..]. rewrite Hx. replace (length o) with (length key) by lia. rewrite Nat.compare_refl. destruct (res ?= 0); reflexivity.
    + destruct (Z.eqb_spec res 0) as [R0|R0].
      * exists (if string_len s h <? Z.of_nat (length key) then 1 else -1). split_and!; [reflexivity| |destruct (string_len s h <? Z.of_nat (length key)); lia..]. rewrite Hx, R0. cbn. destruct (Z.ltb_spec (string_len s h) (Z.of_nat (length key))); [rewrite (proj2 (Nat.compare_gt_iff _ _)) by lia; reflexivity|rewrite (proj2 (Nat.compare_lt_iff _ _)) by lia; reflexivity].
      * exists res. split_and!; [reflexivity| |lia..]. rewrite Hx. destruct (Z.compare_spec res 0); [contradiction|reflexivity..].
Qed.

Lemma compares_strings (rank : Z -> list Z) s key xs : string_field -> comparable key -> (forall x, x ∈ xs -> rank x = fold_case (string_key s x) /\ comparable (string_key s x) /\ 0 <= string_len s x) ->
  compares (key_comp f) rank s (Some (VBin key)) (fold_case key) xs.
Proof.
  intros Hf Hk Hx x Hi. destruct (Hx x Hi) as (Er & Hc & Hl). destruct (compare_strings_lex key s x Hk Hc Hl) as (res & E & Hs & Hr).
  assert (Ek : key_comp f (Some (VBin key)) s x = res) by (unfold key_comp, KeyCompare, cmp_of in *; destruct Hf as [Ef|Ef]; rewrite Ef in *; cbn [mbind option_bind]; rewrite E; reflexivity).
  rewrite Ek, sext_near, Er by lia. cbn [kcmp lex_key_order]. split; [exact Hs|]. intros Ee. rewrite <- Hs in Ee. apply Z.compare_eq in Ee. exact Ee.
Qed.

Lemma ranked_strings (rank : Z -> list Z) s xs : string_field -> (forall x, x ∈ xs -> rank x = fold_case (string_key s x) /\ comparable (string_key s x) /\ 0 <= string_len s x) -> ranked (key_comp f) (convert_cvalue f) rank s xs.
Proof.
  intros Hf Hx x Hi. destruct (Hx x Hi) as (Er & Hc & Hl). assert (E : convert_cvalue f s x = Some (VBin (string_key s x))).
  { unfold convert_cvalue, string_key, string_len in *. destruct Hf as [-> | ->]; rewrite (proj2 (Z.ltb_ge _ _)) by lia; reflexivity. }
  rewrite E, Er. apply compares_strings; assumption.
Qed.

(** ** What the callbacks read *)

(** The bytes of the key behind the head of a record. *)
Definition key_width (s : S) (h : Z) : Z :=
  match field_type f with FString | FBinary => 4 + Z.max 0 (string_len s h) | FNone => 0 | _ => if 4 <? field_size f then 8 else 4 end.

Lemma load_bytes_same p n s s' : (forall i, 0 <= i < Z.of_nat n -> load (p + i) s' = load (p + i) s) -> load_bytes p n s' = load_bytes p n s.
Proof. intros Hl. unfold load_bytes. apply list_fmap_ext. intros k x Hk. apply lookup_seq in Hk as [-> Hk]. apply Hl. lia. Qed.

(** A string: the four bytes of its length, then its bytes. *)
Lemma strings_read s s' h : (forall i, 0 <= i < 4 + Z.max 0 (string_len s h) -> load (index_key h + i) s' = load (index_key h + i) s) ->
  GET_KEY 4 s' h = GET_KEY 4 s h /\ (forall n, n <= string_len s h -> key_bytes_at s' h n = key_bytes_at s h n) /\ forall cmp key, compare_strings cmp key s' h = compare_strings cmp key s h.
Proof.
  intros Hl. assert (E4 : GET_KEY 4 s' h = GET_KEY 4 s h) by (unfold GET_KEY; rewrite (load_bytes_same _ 4 s s'); [reflexivity|]; intros i Hi; apply Hl; lia).
  assert (Eb : forall n, n <= string_len s h -> key_bytes_at s' h n = key_bytes_at s h n) by (intros n Hn; apply load_bytes_same; intros i Hi; rewrite <- ! Z.add_assoc; apply Hl; lia).
  split_and!; [exact E4|exact Eb|]. intros cmp key. unfold compare_strings. rewrite E4. fold (string_len s h). destruct (Z.ltb_spec (Z.of_nat (length key)) (string_len s h)); rewrite Eb by lia; reflexivity.
Qed.

Lemma callbacks_read s s' h : (forall i, 0 <= i < key_width s h -> load (index_key h + i) s' = load (index_key h + i) s) ->
  (forall k, key_comp f k s' h = key_comp f k s h) /\ convert_cvalue f s' h = convert_cvalue f s h.
Proof.
  intros Hl. assert (Hg : forall n, Z.of_nat n <= key_width s h -> GET_KEY n s' h = GET_KEY n s h) by (intros n Hn; unfold GET_KEY; rewrite (load_bytes_same _ n s s'); [reflexivity|]; intros i Hi; apply Hl; lia).
  unfold key_width in *. unfold key_comp, convert_cvalue, KeyCompare. destruct (field_type f) eqn:Ef.
  1: (split; [intros [[]|]; reflexivity|reflexivity]).
  1-3: (destruct (4 <? field_size f); rewrite Hg by lia; (split; [intros [[]|]; cbn [mbind option_bind]; rewrite ? Hg by lia; reflexivity|reflexivity])).
  1-2: (destruct (strings_read s s' h Hl) as (E4 & Eb & Ec); split; [intros [[]|]; cbn [mbind option_bind]; rewrite ? Ec; reflexivity|rewrite E4; fold (string_len s h); rewrite Eb by lia; reflexivity]).
Qed.
End Spec.

(** * The index tree of a row set: T-trees ordered by KeyCompare

    [KeyCompare] and [convert_cvalue] as the callbacks of a [Ttree].  The blocks
    of the records hold their keys, the tree never writes there, so the order of
    the records stays what it was when the first one was put in. *)


Section Index.
Context {S : Type} {MB : MallocBase S} {ML : MallocLaws S} (f : FieldDef).

(** ** The records *)

(** Every record is a block with room for its key. *)
Definition roomy (R : list Z) (s : S) (H : heap) : Prop := forall x, x ∈ R -> exists n, H !! x = Some n /\ index_key x + key_width f s x <= x + n.

Lemma key_width_convert s s' h : convert_cvalue f s h = convert_cvalue f s' h -> key_width f s h = key_width f s' h.
Proof.
  unfold convert_cvalue, key_width. fold (string_len s h). fold (string_len s' h). destruct (field_type f); try reflexivity; intros E; injection E as E;
    destruct (Z.ltb_spec (string_len s h) 0), (Z.ltb_spec (string_len s' h) 0); try discriminate E; injection E as E; try lia; apply (f_equal length) in E; rewrite ! length_key_bytes in E; lia.
Qed.

Lemma index_reads R s0 H0 : roomy R s0 H0 -> forall s s' H, (forall x, x ∈ R -> H !! x = H0 !! x) -> (forall x, in_heap H x -> load x s' = load x s) ->
  unread (key_comp f) (convert_cvalue f) R s0 s -> unread (key_comp f) (convert_cvalue f) R s0 s'.
Proof.
  intros Hr s s' H Hb Hl Hu x Hx. destruct (Hu x Hx) as [Ec Ev]. destruct (Hr x Hx) as (n & En & Hn). destruct (callbacks_read f s s' x) as [Ec' Ev'].
  - intros i Hi. rewrite (key_width_convert _ _ _ Ev) in Hi. apply Hl. exists x, n. rewrite (Hb x Hx), En. unfold index_key in *. split; [reflexivity|lia].
  - split; [intros k; rewrite Ec'; apply Ec|rewrite Ev'; exact Ev].
Qed.

Lemma index_run {A} {KO : KeyOrder A} (rank : Z -> A) R s0 H0 T sh H ops : roomy R s0 H0 -> ranked (key_comp f) (convert_cvalue f) rank s0 R ->
  run_ok (key_comp f) (convert_cvalue f) rank R s0 H0 T sh H -> Forall (op_ok (key_comp f) rank R s0) ops ->
  exists os T' sh' H', run (key_comp f) (convert_cvalue f) (fst <$> ops) T = Some (os, T') /\ run_ok (key_comp f) (convert_cvalue f) rank R s0 H0 T' sh' H' /\ spec_run rank (contents sh) ops os (contents sh').
Proof. intros Hr Hk O Ho. eapply (run_spec (key_comp f) (convert_cvalue f) rank R s0 H0 Hk (index_reads R s0 H0 Hr)); eassumption. Qed.

(** The tree before the first record. *)
Lemma fresh_ok {A} {KO : KeyOrder A} (rank : Z -> A) R (s : S) H : m_rep s H -> (forall x, x ∈ R -> is_Some (H !! x)) -> run_ok (key_comp f) (convert_cvalue f) rank R s H (new_Ttree (mkTree s ∅)) Leaf H.
Proof.
  intros Hm Hx. split; [split; cbn; try done; [apply NoDup_nil_2|constructor|intros x [p Hp]; discriminate Hp]|intros x Hi; inversion Hi|intros x _; split; reflexivity|].
  intros x Hi. split_and!; [reflexivity|apply Hx, Hi|reflexivity].
Qed.

(** ** Operations by the value of the key *)

Inductive vop := VInsert (rec : Z) | VDelete (v : DTCValue) | VFind (v : DTCValue).

(** An insertion is made with the key of its record. *)
Definition vop_key {A} (rank : Z -> A) (rank_of : DTCValue -> A) (o : vop) : A := match o with VInsert rec => rank rec | VDelete v | VFind v => rank_of v end.
Definition vop_top (s : S) (o : vop) : top (K := option DTCValue) :=
  match o with VInsert rec => TInsert (convert_cvalue f s rec) rec | VDelete v => TDelete (Some v) | VFind v => TFind (Some v) end.

Lemma vops_ok {A} {KO : KeyOrder A} (rank : Z -> A) (rank_of : DTCValue -> A) R s ops : ranked (key_comp f) (convert_cvalue f) rank s R ->
  Forall (fun o => match o with VInsert rec => rec ∈ R | VDelete v | VFind v => compares (key_comp f) rank s (Some v) (rank_of v) R end) ops ->
  Forall (op_ok (key_comp f) rank R s) ((fun o => (vop_top s o, vop_key rank rank_of o)) <$> ops).
Proof. intros Hk Ho. apply Forall_fmap. eapply Forall_impl; [exact Ho|]. intros [rec|v|v] Hv; cbn; [|exact Hv..]. split_and!; [exact Hv|reflexivity|apply Hk, Hv]. Qed.

Lemma index_vrun {A} {KO : KeyOrder A} (rank : Z -> A) (rank_of : DTCValue -> A) R s H ops : m_rep s H -> roomy R s H -> ranked (key_comp f) (convert_cvalue f) rank s R ->
  Forall (fun o => match o with VInsert rec => rec ∈ R | VDelete v | VFind v => compares (key_comp f) rank s (Some v) (rank_of v) R end) ops ->
  exists os T' sh' H', run (key_comp f) (convert_cvalue f) (vop_top s <$> ops) (new_Ttree (mkTree s ∅)) = Some (os, T') /\ ttree_ok rank T' sh' H' /\
    spec_run rank [] ((fun o => (vop_top s o, vop_key rank rank_of o)) <$> ops) os (contents sh').
Proof.
  intros Hm Hr Hk Ho. destruct (index_run rank R s H (new_Ttree (mkTree s ∅)) Leaf H ((fun o => (vop_top s o, vop_key rank rank_of o)) <$> ops) Hr Hk) as (os & T' & sh' & H' & E & O & Sp).
  - apply fresh_ok; [exact Hm|]. intros x Hx. destruct (Hr x Hx) as (n & -> & _). eauto.
  - apply (vops_ok rank rank_of); assumption.
  - rewrite <- list_fmap_compose in E. exists os, T', sh', H'. split_and!; [exact E|apply O|exact Sp].
Qed.
End Index.

(** ** The depth of a search *)

Section Depth.
Context {S K A : Type} {MB : MallocBase S} {ML : MallocLaws S} {KO : KeyOrder A}.
Context (pfComp : K -> S -> Z -> Z) (rank : Z -> A).

Lemma height_log T : balanced T -> height T <= 2 * Z.log2 (Z.of_nat (length (handles T)) + 1) + 1.
Proof.
  intros B. pose proof (balanced_nodes T B) as Hb. apply Z.log2_le_mono in Hb. pose proof (height_nonneg T). rewrite Z.log2_pow2 in Hb by (apply Z.div_pos; lia). zdm.
Qed.

(** Twice the logarithm of the number of nodes is fuel enough for a search. *)
Lemma search_log T sh H k a n : ttree_ok rank T sh H -> sh <> Leaf -> compares pfComp rank (mem (tree T)) k a (contents sh) -> 2 * Z.log2 (Z.of_nat (length (handles sh)) + 1) + 1 <= Z.of_nat n ->
  (exists x, node_find_record pfComp n (root_handle_ T) k (tree T) = Some (1, x) /\ x ∈ contents sh /\ rank x = a) \/
  node_find_record pfComp n (root_handle_ T) k (tree T) = Some (0, INVALID_HANDLE) /\ forall x, x ∈ contents sh -> rank x <> a.
Proof.
  intros O Hn Hc Hf. rewrite (to_root _ _ _ _ O). pose proof (height_log sh (to_balanced _ _ _ _ O)). unfold node_find_record.
  destruct (node_find_spec pfComp rank n (tree T) sh k a Hn) as [(h & p & i & x & -> & Ep & Ei & Hx & Ha)|[-> Hno]]; try apply O; try assumption; [lia|..]; cbn [mbind option_bind].
  - left. exists x. rewrite Ep. cbn [mbind option_bind]. rewrite Ei. auto.
  - right. auto.
Qed.
End Depth.

(** ** Collecting records with Visit *)

Section Collect.
Context {S : Type} {MB : MallocBase S}.

(** The rows of a record, and the records taken until [need] rows are there (0: no limit). *)
Definition record_rows (s : S) (h : Z) : Z := le_val (load_bytes (h + 1 + 4) 4 s).

Fixpoint taken (s : S) (need rows : Z) (xs : list Z) : list Z * Z :=
  match xs with
  | [] => ([], rows)
  | x :: xs => if (0 <? need) && (need <=? rows) then ([], rows) else let '(ys, r) := taken s need (wrap 32 (rows + record_rows s x)) xs in (x :: ys, r)
  end.

Lemma taken_full s need rows xs : (0 <? need) && (need <=? rows) = true -> taken s need rows xs = ([], rows).
Proof. intros E. destruct xs; cbn; [reflexivity|rewrite E; reflexivity]. Qed.

Lemma taken_all s rows xs : fst (taken s 0 rows xs) = xs.
Proof. revert rows. induction xs as [|x xs IH]; intros rows; [reflexivity|]. cbn. specialize (IH (wrap 32 (rows + record_rows s x))). destruct (taken _ _ _ xs) as [ys r]. cbn in *. congruence. Qed.

Lemma visit_full (t : Tree S) xs c : (0 <? need_find_node_count c) && (need_find_node_count c <=? has_got_row_count c) = true -> visit Visit xs t c = (0, c).
Proof. intros E. induction xs as [|x xs IH]; [reflexivity|]. cbn [visit]. unfold Visit at 1. rewrite E. exact IH. Qed.

Lemma visit_collects (t : Tree S) xs : forall p cnt need rows, in_width 32 cnt -> cnt + Z.of_nat (length xs) < 2 ^ 32 ->
  visit Visit xs t (mkResCookie p cnt need rows) = let '(ys, r) := taken (mem t) need rows xs in (0, mkResCookie (p ++ ys) (cnt + Z.of_nat (length ys)) need r).
Proof.
  induction xs as [|x xs IH]; intros p cnt need rows Hc Hl; [cbn; rewrite app_nil_r, Z.add_0_r; reflexivity|]. cbn [length] in Hl.
  destruct ((0 <? need) && (need <=? rows)) eqn:E; [rewrite visit_full, taken_full by exact E; cbn; rewrite app_nil_r, Z.add_0_r; reflexivity|].
  cbn [visit taken]. unfold Visit at 1. cbn [need_find_node_count has_got_row_count p_handle has_got_node_count]. rewrite E. cbn [negb Z.eqb]. unfold in_width in Hc. rewrite wrap_small, IH by (unfold in_width; lia).
  fold (record_rows (mem t) x). destruct (taken _ _ _ xs) as [ys r]. rewrite <- app_assoc. cbn [app length]. do 2 f_equal. lia.
Qed.
End Collect.
