(* ===== verification/TreeTheorems.v ===== *)
(** * Theorems on the index trees

    The T-tree of a row set as an ordered dictionary, with witnesses on a tree
    of two records in a real segment. *)

From S2P Require Import Prelude PtMalloc PtMallocSpec PtMallocTheorems MallocBase RawData RawBytes TTree TTreeShape TTreeOrder TTreeInsert TTreeDelete TTreeWalk TTreeSpec TreeKeys TreeKeysSpec.

(** ** The tree as an ordered dictionary *)

(** The rank of a key given as a value. *)
Definition string_rank (f : FieldDef) (v : DTCValue) : list Z := match v with VBin bs => fold_case f bs | _ => [] end.
Definition int_rank (v : DTCValue) : Z := match v with VInt z => z | _ => 0 end.

(** C13: A tree over records with string or binary keys is an ordered dictionary: from the empty tree on, any
    sequence of insertions of the records, deletions and searches by key is answered as an ascending sequence of
    records answers it.  Strings are ordered without regard to case, binaries byte by byte. *)
Theorem string_index {S} {MB : MallocBase S} {ML : MallocLaws S} (f : FieldDef) (s0 : S) (H : heap) (R : list Z) (ops : list vop) :
  string_field f -> m_rep s0 H -> roomy f R s0 H ->
  (forall x, x ∈ R -> comparable f (string_key s0 x) /\ 0 <= string_len s0 x) ->
  Forall (fun o => match o with VInsert rec => rec ∈ R | VDelete v | VFind v => exists bs, v = VBin bs /\ comparable f bs end) ops ->
  let rank x := fold_case f (string_key s0 x) in
  exists os T' sh' H', run (key_comp f) (convert_cvalue f) (vop_top f s0 <$> ops) (new_Ttree (mkTree s0 ∅)) = Some (os, T') /\ ttree_ok rank T' sh' H' /\
    spec_run rank [] ((fun o => (vop_top f s0 o, vop_key rank (string_rank f) o)) <$> ops) os (contents sh').
Proof.
  intros Hf Hm Hr Hk Ho rank. assert (Hrk : ranked (key_comp f) (convert_cvalue f) rank s0 R) by (apply ranked_strings; [exact Hf|]; intros x Hx; split; [reflexivity|apply Hk, Hx]).
  apply (index_vrun f rank (string_rank f) R s0 H); [exact Hm|exact Hr|exact Hrk|]. eapply Forall_impl; [exact Ho|].
  intros [rec|v|v]; [auto| |]; intros (bs & -> & Hb); (apply compares_strings; [exact Hf|exact Hb|]); intros x Hx; (split; [reflexivity|apply Hk, Hx]).
Qed.

(** C14: A tree over records with integer keys is an ordered dictionary in the same way, as long as no two keys in
    play are 2^31 or more apart. *)
Theorem int_index {S} {MB : MallocBase S} {ML : MallocLaws S} (f : FieldDef) (s0 : S) (H : heap) (R : list Z) (ops : list vop) :
  int_field f -> m_rep s0 H -> roomy f R s0 H ->
  (forall x y, x ∈ R -> y ∈ R -> - 2 ^ 31 <= int_key f s0 x - int_key f s0 y < 2 ^ 31) ->
  Forall (fun o => match o with VInsert rec => rec ∈ R | VDelete v | VFind v => exists z, v = VInt z /\ forall x, x ∈ R -> - 2 ^ 31 <= z - int_key f s0 x < 2 ^ 31 end) ops ->
  let rank x := int_key f s0 x in
  exists os T' sh' H', run (key_comp f) (convert_cvalue f) (vop_top f s0 <$> ops) (new_Ttree (mkTree s0 ∅)) = Some (os, T') /\ ttree_ok rank T' sh' H' /\
    spec_run rank [] ((fun o => (vop_top f s0 o, vop_key rank int_rank o)) <$> ops) os (contents sh').
Proof.
  intros Hf Hm Hr Hk Ho rank. assert (Hrk : ranked (key_comp f) (convert_cvalue f) rank s0 R) by (apply ranked_ints; [exact Hf|]; intros x y Hx Hy; split; [reflexivity|apply Hk; assumption]).
  apply (index_vrun f rank int_rank R s0 H); [exact Hm|exact Hr|exact Hrk|]. eapply Forall_impl; [exact Ho|].
  intros [rec|v|v]; [auto| |]; intros (z & -> & Hz); (apply compares_ints; [exact Hf|]); intros x Hx; (split; [reflexivity|apply Hz, Hx]).
Qed.

(** ** One operation *)

(** C15: do_insert has a result.  A key that is there is refused with EC_KEY_EXIST and without memory the insertion is
    refused with EC_NO_MEM, both with every node as it was; else the record is in its place and the tree is balanced,
    ordered and made of its old blocks and at most one new one. *)
Theorem tree_insert {S K A} {MB : MallocBase S} {ML : MallocLaws S} {KO : KeyOrder A} (pfComp : K -> S -> Z -> Z) (convert : S -> Z -> K) (rank : Z -> A) T sh H k rec al0 :
  ttree_ok rank T sh H -> compares pfComp rank (mem (tree T)) k (rank rec) (contents sh) -> ranked pfComp convert rank (mem (tree T)) (rec :: contents sh) ->
  exists r al T' sh' H', do_insert pfComp convert k rec al0 T = Some (r, al, T') /\ ttree_ok rank T' sh' H' /\
    ((r = EC_KEY_EXIST /\ (exists x, x ∈ contents sh /\ rank x = rank rec) /\ tree T' = tree T /\ sh' = sh) \/
     (r = EC_NO_MEM /\ (forall x, x ∈ contents sh -> rank x <> rank rec) /\ nodes (tree T') = nodes (tree T) /\ sh' = sh) \/
     (r = 0 /\ (forall x, x ∈ contents sh -> rank x <> rank rec) /\ contents sh' = place rank rec (contents sh) /\ grown al0 (mem (tree T)) H al (mem (tree T')) H')).
Proof.
  intros O Hc Hr. destruct (do_insert_spec pfComp convert rank T sh H k rec al0 O Hc Hr) as (r & al & T' & E & Rs). exists r, al, T'.
  inversion Rs as [T1 x Hx Ex Et O1|T1 Hno En O1 Hl|T1 sh' H' al1 Hno O1 Ec Hg M]; subst; [exists sh, H|exists sh, H|exists sh', H']; (split_and!; [exact E|exact O1|]); [left|right; left|right; right]; split_and!; eauto.
Qed.

(** C16: Delete has a result.  It takes out exactly the record with the key and frees at most one node, keeping the
    tree balanced and ordered; a missing key changes nothing and answers -1, on the empty tree 0. *)
Theorem tree_delete {S K A} {MB : MallocBase S} {ML : MallocLaws S} {KO : KeyOrder A} (pfComp : K -> S -> Z -> Z) (convert : S -> Z -> K) (rank : Z -> A) T sh H k a fl0 :
  ttree_ok rank T sh H -> compares pfComp rank (mem (tree T)) k a (contents sh) -> ranked pfComp convert rank (mem (tree T)) (contents sh) ->
  exists r fl T' sh' H', Delete pfComp convert k fl0 T = Some (r, fl, T') /\ ttree_ok rank T' sh' H' /\ contents sh' = remove rank a (contents sh) /\ freed (handles sh) (mem (tree T)) H (mem (tree T')) H' /\
    (r = 0 <-> sh = Leaf \/ exists x, x ∈ contents sh /\ rank x = a) /\ (r <> 0 -> r = -1 /\ tree T' = tree T).
Proof.
  intros O Hc Hr. destruct (Delete_spec pfComp convert rank T sh H k a fl0 O Hc Hr) as (r & fl & T' & E & Rs). exists r, fl, T'.
  inversion Rs as [T1 Hn Hno Et O1|Hn|T1 sh' H' x Hx Ex O1 Ec Hf M]; subst.
  - exists sh, H. split_and!; [exact E|exact O1|symmetry; apply remove_absent, Hno|rewrite Et; apply freed_none|split; [discriminate|]|auto]. intros [Hl|(x & Hx & Ex)]; [contradiction|destruct (Hno x Hx Ex)].
  - exists Leaf, H. split_and!; [exact E|exact O|reflexivity|apply freed_none|tauto|contradiction].
  - exists sh', H'. split_and!; [exact E|exact O1|exact Ec|exact Hf|split; [eauto|reflexivity]|contradiction].
Qed.

(** ** Range queries, searches and the end of a tree *)

(** C17: A traversal between two keys with Visit collects exactly the records whose keys are in the closed range, in
    ascending order forward and in descending order backward, and stops when the rows asked for are there. *)
Theorem tree_range {S K A} {MB : MallocBase S} {ML : MallocLaws S} {KO : KeyOrder A} (pfComp : K -> S -> Z -> Z) (rank : Z -> A) (T : Ttree (S := S)) sh H k k1 a a1 need :
  ttree_ok rank T sh H -> compares pfComp rank (mem (tree T)) k a (contents sh) -> compares pfComp rank (mem (tree T)) k1 a1 (contents sh) -> Z.of_nat (length (contents sh)) < 2 ^ 32 ->
  let range xs := filter (fun x => kcmp a (rank x) <> Gt /\ kcmp a1 (rank x) <> Lt) xs in
  let result xs := let '(ys, rows) := taken (mem (tree T)) need 0 (range xs) in Some (0, mkResCookie ys (Z.of_nat (length ys)) need rows) in
  traverse_forward_between pfComp Visit k k1 T (mkResCookie [] 0 need 0) = result (contents sh) /\
  traverse_backward_between pfComp Visit k k1 T (mkResCookie [] 0 need 0) = result (reverse (contents sh)).
Proof.
  intros O Hc Hc1 Hl range result. destruct (traverse_between_spec pfComp rank Visit T sh H O k k1 a a1 Hc Hc1) as [Hf Hb].
  assert (Hr : forall xs, (length xs <= length (contents sh))%nat -> Some (visit Visit (upto rank a1 (from rank a xs)) (tree T) (mkResCookie [] 0 need 0)) = result xs).
  { intros xs Hx. pose proof (length_filter (fun x => kcmp a (rank x) <> Gt /\ kcmp a1 (rank x) <> Lt) xs). rewrite upto_from, visit_collects by (split; lia) || lia. subst result. cbn beta. fold (range xs). destruct (taken _ _ _ _) as [ys r]. reflexivity. }
  split; [rewrite (Hf _)|rewrite (Hb _)]; apply Hr; rewrite ? length_reverse; lia.
Qed.

(** A search visits at most one node for each of 2 log2(n + 1) + 1 levels of a tree of n nodes: with that much
    fuel it finds the record with the key, or that there is none. *)
Theorem tree_search_depth {S K A} {MB : MallocBase S} {ML : MallocLaws S} {KO : KeyOrder A} (pfComp : K -> S -> Z -> Z) (rank : Z -> A) T sh H k a n :
  ttree_ok rank T sh H -> sh <> Leaf -> compares pfComp rank (mem (tree T)) k a (contents sh) -> 2 * Z.log2 (Z.of_nat (length (handles sh)) + 1) + 1 <= Z.of_nat n ->
  (exists x, node_find_record pfComp n (root_handle_ T) k (tree T) = Some (1, x) /\ x ∈ contents sh /\ rank x = a) \/
  node_find_record pfComp n (root_handle_ T) k (tree T) = Some (0, INVALID_HANDLE) /\ forall x, x ∈ contents sh -> rank x <> a.
Proof. apply search_log. Qed.

(** destory frees exactly the nodes and the records of a tree and leaves the bytes of all other blocks. *)
Theorem tree_destory {S A} {MB : MallocBase S} {ML : MallocLaws S} {KO : KeyOrder A} (rank : Z -> A) (T : Ttree (S := S)) sh H :
  ttree_ok rank T sh H -> (forall x, x ∈ contents sh -> is_Some (H !! x) /\ nodes (tree T) !! x = None) ->
  exists T' H', destory T = Some T' /\ root_handle_ T' = INVALID_HANDLE /\ m_rep (mem (tree T')) H' /\
    (forall x, H' !! x = if decide (x ∈ contents sh ++ handles sh) then None else H !! x) /\ (forall y, in_heap H' y -> load y (mem (tree T')) = load y (mem (tree T))).
Proof.
  intros O Hx. destruct (destory_spec rank T sh H O (sorted_nodup rank _ (to_sorted _ _ _ _ O)) Hx) as (T' & H' & E & O' & Hw & Hl). exists T', H'. split_and!; [exact E|apply (to_root _ _ _ _ O')|apply (to_mem _ _ _ _ O')|exact Hw|exact Hl].
Qed.

(** C40: Two records whose 64-bit keys differ by a multiple of 2^32 cannot both be in the tree: with one at the front of
    the root, the other is refused as a duplicate. *)
Theorem int_keys_collide {S} {MB : MallocBase S} (f : FieldDef) (T : Ttree (S := S)) p x rec m al :
  int_field f -> root_handle_ T <> INVALID_HANDLE -> nodes (tree T) !! root_handle_ T = Some p -> item (m_ahItems p) 0 = Some x ->
  int_key f (mem (tree T)) rec = int_key f (mem (tree T)) x + m * 2 ^ 32 ->
  exists T', do_insert (key_comp f) (convert_cvalue f) (convert_cvalue f (mem (tree T)) rec) rec al T = Some (EC_KEY_EXIST, al, T') /\ tree T' = tree T.
Proof.
  intros Hf Hr Ep Ex Ek. unfold do_insert. rewrite (proj2 (Z.eqb_neq _ _) Hr). unfold depth. rewrite Nat.add_1_r. cbn [node_insert]. rewrite Ep. cbn [mbind option_bind]. rewrite Ex. cbn [mbind option_bind].
  unfold diff. rewrite convert_int, (int_collision f _ _ _ m) by assumption. cbn. eexists. split; reflexivity.
Qed.

(** ** Witnesses *)

(** The names bob and Alice in the two blocks of a segment. *)
Definition name_field : FieldDef := mkField FString 32 false.
Definition names_mem : PtMalloc := store_bytes (8320 + 10) [5; 0; 0; 0; 65; 108; 105; 99; 101] (store_bytes (8216 + 10) [3; 0; 0; 0; 98; 111; 98] demo2).
Definition names_heap : heap := {[8320 := 604; 8216 := 100]}.
Definition name_records : list Z := [8216; 8320].
Definition name_rank (x : Z) : list Z := fold_case name_field (string_key names_mem x).
Definition VName (bs : list Z) : DTCValue := VBin bs.

Lemma names_rep : m_rep names_mem names_heap.
Proof.
  apply store_bytes_rep; [apply store_bytes_rep; [exact demo2_rep|]|]; intros z Hz; cbn in Hz.
  - exists 8216, 100. split; [reflexivity|lia].
  - exists 8320, 604. split; [reflexivity|lia].
Qed.

Lemma names_roomy : roomy name_field name_records names_mem names_heap.
Proof.
  intros x Hx. apply elem_of_cons in Hx as [->|Hx]; [exists 100; split; [reflexivity|vm_compute; discriminate]|].
  apply list_elem_of_singleton in Hx as ->. exists 604. split; [reflexivity|vm_compute; discriminate].
Qed.

(** Names of nonzero bytes. *)
Ltac name_ok := split; [|intros _]; repeat (constructor; [lia|]); constructor.

Lemma names_comparable x : x ∈ name_records -> comparable name_field (string_key names_mem x) /\ 0 <= string_len names_mem x.
Proof.
  intros Hx. apply elem_of_cons in Hx as [->|Hx].
  - replace (string_key names_mem 8216) with [98; 111; 98] by (vm_compute; reflexivity). split; [name_ok|vm_compute; discriminate].
  - apply list_elem_of_singleton in Hx as ->. replace (string_key names_mem 8320) with [65; 108; 105; 99; 101] by (vm_compute; reflexivity). split; [name_ok|vm_compute; discriminate].
Qed.

(** bob, Alice, bob again; Alice is found as ALICE, then bob is deleted. *)
Definition name_ops : list vop := [VInsert 8216; VInsert 8320; VInsert 8216; VFind (VBin [65; 76; 73; 67; 69]); VDelete (VBin [66; 111; 98]); VFind (VBin [98; 111; 98]); VDelete (VBin [98; 111; 98])].

Lemma string_index_witness :
  fst <$> run (key_comp name_field) (convert_cvalue name_field) (vop_top name_field names_mem <$> name_ops) (new_Ttree (mkTree names_mem ∅)) = Some [(0, 0); (0, 0); (EC_KEY_EXIST, 0); (1, 8320); (0, 0); (0, INVALID_HANDLE); (-1, 0)] /\
  exists os T' sh' H', run (key_comp name_field) (convert_cvalue name_field) (vop_top name_field names_mem <$> name_ops) (new_Ttree (mkTree names_mem ∅)) = Some (os, T') /\ ttree_ok name_rank T' sh' H' /\
    spec_run name_rank [] ((fun o => (vop_top name_field names_mem o, vop_key name_rank (string_rank name_field) o)) <$> name_ops) os (contents sh').
Proof.
  split; [vm_compute; reflexivity|]. apply (string_index name_field names_mem names_heap name_records name_ops).
  - left. reflexivity.
  - exact names_rep.
  - exact names_roomy.
  - exact names_comparable.
  - repeat constructor; unfold name_records; try set_solver; eexists; (split; [reflexivity|name_ok]).
Defined.

(** The numbers 7 and -5 in the same blocks. *)
Definition number_field : FieldDef := mkField FSigned 8 false.
Definition numbers_mem : PtMalloc := store_bytes (8320 + 10) [251; 255; 255; 255; 255; 255; 255; 255] (store_bytes (8216 + 10) [7; 0; 0; 0; 0; 0; 0; 0] demo2).
Definition number_ops : list vop := [VInsert 8216; VInsert 8320; VFind (VInt (-5)); VFind (VInt 6); VDelete (VInt 7); VFind (VInt 7)].

Lemma numbers_rep : m_rep numbers_mem names_heap.
Proof.
  apply store_bytes_rep; [apply store_bytes_rep; [exact demo2_rep|]|]; intros z Hz; cbn in Hz.
  - exists 8216, 100. split; [reflexivity|lia].
  - exists 8320, 604. split; [reflexivity|lia].
Qed.

Lemma number_keys x : x ∈ name_records -> int_key number_field numbers_mem x = 7 \/ int_key number_field numbers_mem x = -5.
Proof. intros Hx. apply elem_of_cons in Hx as [->|Hx]; [left; vm_compute; reflexivity|]. apply list_elem_of_singleton in Hx as ->. right. vm_compute. reflexivity. Qed.

Lemma int_index_witness :
  fst <$> run (key_comp number_field) (convert_cvalue number_field) (vop_top number_field numbers_mem <$> number_ops) (new_Ttree (mkTree numbers_mem ∅)) = Some [(0, 0); (0, 0); (1, 8320); (0, INVALID_HANDLE); (0, 0); (0, INVALID_HANDLE)] /\
  exists os T' sh' H', run (key_comp number_field) (convert_cvalue number_field) (vop_top number_field numbers_mem <$> number_ops) (new_Ttree (mkTree numbers_mem ∅)) = Some (os, T') /\ ttree_ok (int_key number_field numbers_mem) T' sh' H' /\
    spec_run (int_key number_field numbers_mem) [] ((fun o => (vop_top number_field numbers_mem o, vop_key (int_key number_field numbers_mem) int_rank o)) <$> number_ops) os (contents sh').
Proof.
  split; [vm_compute; reflexivity|]. apply (int_index number_field numbers_mem names_heap name_records number_ops).
  - left. reflexivity.
  - exact numbers_rep.
  - intros x Hx. apply elem_of_cons in Hx as [->|Hx]; [exists 100|apply list_elem_of_singleton in Hx as ->; exists 604]; (split; [reflexivity|vm_compute; discriminate]).
  - intros x y Hx Hy. destruct (number_keys x Hx) as [-> | ->], (number_keys y Hy) as [-> | ->]; lia.
  - repeat constructor; unfold name_records; try set_solver; eexists; (split; [reflexivity|]); intros x Hx; destruct (number_keys x Hx) as [-> | ->]; lia.
Defined.

(** The tree with both names. *)
Definition names_inserts : list vop := [VInsert 8216; VInsert 8320].
Definition names_run : option (list (Z * Z) * Ttree (S := PtMalloc)) := run (key_comp name_field) (convert_cvalue name_field) (vop_top name_field names_mem <$> names_inserts) (new_Ttree (mkTree names_mem ∅)).
Definition names_T : Ttree (S := PtMalloc) := default (new_Ttree (mkTree names_mem ∅)) (snd <$> names_run).

Lemma names_ranked : ranked (key_comp name_field) (convert_cvalue name_field) name_rank names_mem name_records.
Proof. apply ranked_strings; [left; reflexivity|]. intros x Hx. split; [reflexivity|apply names_comparable, Hx]. Qed.

Definition names_state (sh : shape) (H : heap) : Prop := run_ok (key_comp name_field) (convert_cvalue name_field) name_rank name_records names_mem names_heap names_T sh H.

Lemma two_inserts {K A} {KO : KeyOrder A} (rank : Z -> A) (k1 k2 : K) x y a b zs : spec_run rank [] [(TInsert k1 x, a); (TInsert k2 y, b)] [(0, 0); (0, 0)] zs -> zs = place rank y (place rank x []).
Proof.
  intros Sp. inversion Sp as [|? ? ? ? ? ys ? S1 Sp1]; subst. inversion Sp1 as [|? ? ? ? ? us ? S2 Sp2]; subst. inversion Sp2; subst. inversion S1; subst. inversion S2; subst. reflexivity.
Qed.

Lemma names_ok : exists sh H, names_state sh H /\ contents sh = [8320; 8216].
Proof.
  destruct (index_run name_field name_rank name_records names_mem names_heap (new_Ttree (mkTree names_mem ∅)) Leaf names_heap ((fun o => (vop_top name_field names_mem o, vop_key name_rank (string_rank name_field) o)) <$> names_inserts) names_roomy names_ranked) as (os & T' & sh & H & E & O & Sp).
  - apply fresh_ok; [exact names_rep|]. intros x Hx. destruct (names_roomy x Hx) as (n & -> & _). eauto.
  - apply (vops_ok name_field name_rank (string_rank name_field)); [exact names_ranked|]. repeat constructor; unfold name_records; set_solver.
  - assert (E' : names_run = Some (os, T')) by exact E. assert (Ea : fst <$> names_run = Some [(0, 0); (0, 0)]) by (vm_compute; reflexivity). rewrite E' in Ea. injection Ea as ->.
    exists sh, H. split; [unfold names_state, names_T; rewrite E'; exact O|]. rewrite (two_inserts name_rank _ _ 8216 8320 _ _ _ Sp). vm_compute. reflexivity.
Qed.

Lemma names_leaf sh : contents sh = [8320; 8216] -> sh <> Leaf.
Proof. intros E ->. discriminate. Qed.

(** A key in the tree of names. *)
Lemma names_key sh H bs : names_state sh H -> forallb (fun x => (0 <? x) && (x <? 256)) bs = true -> compares (key_comp name_field) name_rank (mem (tree names_T)) (Some (VBin bs)) (fold_case name_field bs) (contents sh).
Proof.
  intros O Hb. eapply compares_now; [exact O|apply O|]. apply compares_strings; [left; reflexivity| |intros x Hx; split; [reflexivity|apply names_comparable, Hx]].
  assert (Hx : Forall (fun x => 0 < x < 256) bs). { apply Forall_forall. intros x Hx. rewrite forallb_forall in Hb. apply list_elem_of_In in Hx. specialize (Hb x Hx). cbn in Hb. lia. }
  split; [|intros _]; (eapply Forall_impl; [exact Hx|]); cbn; lia.
Qed.

(** A third insertion: bob is refused. *)
Lemma tree_insert_witness : exists sh H, names_state sh H /\ exists r al T' sh' H', do_insert (key_comp name_field) (convert_cvalue name_field) (Some (VBin [98; 111; 98])) 8216 false names_T = Some (r, al, T') /\ ttree_ok name_rank T' sh' H' /\ r = EC_KEY_EXIST.
Proof.
  destruct names_ok as (sh & H & O & Ec). exists sh, H. split; [exact O|].
  destruct (tree_insert (key_comp name_field) (convert_cvalue name_field) name_rank names_T sh H (Some (VBin [98; 111; 98])) 8216 false) as (r & al & T' & sh' & H' & E & O' & _).
  - apply O.
  - replace (name_rank 8216) with (fold_case name_field [98; 111; 98]) by (vm_compute; reflexivity). apply (names_key sh H); [exact O|reflexivity].
  - eapply ranked_now; [exact names_ranked|exact O|]. intros x Hx. apply elem_of_cons in Hx as [->|Hx]; [apply list_elem_of_here|apply O, Hx].
  - exists r, al, T', sh', H'. split_and!; [exact E|exact O'|]. assert (Ev : (fun p => fst (fst p)) <$> do_insert (key_comp name_field) (convert_cvalue name_field) (Some (VBin [98; 111; 98])) 8216 false names_T = Some EC_KEY_EXIST) by (vm_compute; reflexivity). rewrite E in Ev. injection Ev as ->. reflexivity.
Defined.

Lemma tree_delete_witness : exists sh H, names_state sh H /\ exists r fl T' sh' H', Delete (key_comp name_field) (convert_cvalue name_field) (Some (VBin [66; 79; 66])) false names_T = Some (r, fl, T') /\ ttree_ok name_rank T' sh' H' /\ contents sh' = [8320].
Proof.
  destruct names_ok as (sh & H & O & Ec). exists sh, H. split; [exact O|].
  destruct (tree_delete (key_comp name_field) (convert_cvalue name_field) name_rank names_T sh H (Some (VBin [66; 79; 66])) (fold_case name_field [66; 79; 66]) false) as (r & fl & T' & sh' & H' & E & O' & Ec' & _).
  - apply O.
  - apply (names_key sh H); [exact O|reflexivity].
  - eapply ranked_now; [exact names_ranked|exact O|apply O].
  - exists r, fl, T', sh', H'. split_and!; [exact E|exact O'|]. rewrite Ec', Ec. vm_compute. reflexivity.
Defined.

(** From A to B: Alice. *)
Lemma tree_range_witness : exists rows, traverse_forward_between (key_comp name_field) Visit (Some (VBin [65])) (Some (VBin [66])) names_T (mkResCookie [] 0 0 0) = Some (0, mkResCookie [8320] 1 0 rows).
Proof.
  destruct names_ok as (sh & H & O & Ec).
  destruct (tree_range (key_comp name_field) name_rank names_T sh H (Some (VBin [65])) (Some (VBin [66])) (fold_case name_field [65]) (fold_case name_field [66]) 0) as [E _].
  - apply O.
  - apply (names_key sh H); [exact O|reflexivity].
  - apply (names_key sh H); [exact O|reflexivity].
  - rewrite Ec. reflexivity.
  - rewrite E, Ec. replace (filter _ [8320; 8216]) with [8320] by (vm_compute; reflexivity). eexists. reflexivity.
Defined.

Lemma tree_search_depth_witness : exists sh H, names_state sh H /\ exists n x, node_find_record (key_comp name_field) n (root_handle_ names_T) (Some (VBin [66; 111; 98])) (tree names_T) = Some (1, x) /\ name_rank x = fold_case name_field [66; 111; 98].
Proof.
  destruct names_ok as (sh & H & O & Ec). exists sh, H. split; [exact O|]. set (n := Z.to_nat (2 * Z.log2 (Z.of_nat (length (handles sh)) + 1) + 1)). exists n.
  destruct (tree_search_depth (key_comp name_field) name_rank names_T sh H (Some (VBin [66; 111; 98])) (fold_case name_field [66; 111; 98]) n) as [(x & E & _ & Er)|[_ Hno]].
  - apply O.
  - apply names_leaf, Ec.
  - apply (names_key sh H); [exact O|reflexivity].
  - unfold n. lia.
  - exists x. auto.
  - destruct (Hno 8216); [rewrite Ec; apply list_elem_of_further, list_elem_of_here|vm_compute; reflexivity].
Defined.

Lemma tree_destory_witness : exists sh H T' H', names_state sh H /\ destory names_T = Some T' /\ m_rep (mem (tree T')) H' /\ H' !! 8216 = None.
Proof.
  destruct names_ok as (sh & H & O & Ec). destruct (tree_destory name_rank names_T sh H) as (T' & H' & E & _ & Hm & Hw & _).
  - apply O.
  - intros x Hx. apply (ro_blocks _ _ _ _ _ _ _ _ _ O x), (ro_sub _ _ _ _ _ _ _ _ _ O), Hx.
  - exists sh, H, T', H'. split_and!; [exact O|exact E|exact Hm|]. rewrite Hw, decide_True; [reflexivity|]. apply elem_of_app. left. rewrite Ec. apply list_elem_of_further, list_elem_of_here.
Defined.

(** 1 and 2^32 + 1. *)
Definition far_mem : PtMalloc := store_bytes (8320 + 10) [1; 0; 0; 0; 1; 0; 0; 0] (store_bytes (8216 + 10) [1; 0; 0; 0; 0; 0; 0; 0] demo2).
Definition far_T : Ttree (S := PtMalloc) :=
  default (new_Ttree (mkTree far_mem ∅)) (snd <$> run (key_comp number_field) (convert_cvalue number_field) [vop_top number_field far_mem (VInsert 8216)] (new_Ttree (mkTree far_mem ∅))).

Lemma int_keys_collide_witness : exists T', do_insert (key_comp number_field) (convert_cvalue number_field) (convert_cvalue number_field (mem (tree far_T)) 8320) 8320 false far_T = Some (EC_KEY_EXIST, false, T') /\ tree T' = tree far_T.
Proof.
  apply (int_keys_collide number_field far_T (mkTtreeNode 0 0 0 1 (8216 :: replicate (Z.to_nat (PAGE_SIZE - 1)) 0)) 8216 8320 1 false).
  - left. reflexivity.
  - vm_compute. discriminate.
  - vm_compute. reflexivity.
  - reflexivity.
  - vm_compute. reflexivity.
Defined.
