(* ===== verification/RowProcess.v ===== *)
(** * Requests on the rows of a node (src/core/raw/raw_data_process.h,
    raw_data_process.cc, with what they use of src/libs/common/task)

    [RawDataProcess] carries out a job on the block of rows of a cache node:
    it attaches a [RawData] to the block, decodes the rows one by one and
    selects, deletes, changes or adds rows as the job says.  Rows come from the
    block as values of [RawData] and go to the job as values of the wire, the
    two views of the union [DTCValue].

    A program works on the allocator, the object [raw_data_], the handle in the
    node, the job and the counters; it has no result where C++ has none.  The
    parameter [affected_data] is always null.  [SetBits] on a string works on
    the bytes of the block itself; here it gives a new value as the other
    operations do, which differs only when the row can then not be stored.
    Statistics and messages are left out. *)

From S2P Require Import Prelude PtMalloc MallocBase RawData.
From S2P Require Import Codec Sections TableDef Fields FieldSets Request Results PackedKey.

Definition Update_code : Z := 7.
Definition no_cache : Z := 4.
Definition OPER_DIRTY : Z := 2.

(** ** Two views of a row *)

Definition raw_type (ft : Z) : RawData.FieldType :=
  if ft =? DField.Signed then FSigned else if ft =? DField.Unsigned then FUnsigned else if ft =? DField.Float then FFloat
  else if ft =? DField.String then FString else if ft =? DField.Binary then FBinary else FNone.

Definition raw_field (f : FieldDefinition) : FieldDef := mkField (raw_type (field_type f)) (fieldSize f) (negb (Z.land (flags f) FF_DISCARD =? 0)).

Definition raw_table (t : DTCTableDefinition) : RawData.TableDef :=
  RawData.mkTableDef (raw_field <$> take (Z.to_nat (num_fields t + 1)) (TableDef.fieldList (names t))) (key_fields t) (key_format t)
    (hasLastacc (marks t)) (hasLastcmod (marks t)) (hasExpireTime (marks t)).

(** A value read from a row, and a value as it is put into one.  A string with
    a negative length is no value here. *)
Definition of_raw (v : RawData.DTCValue) : option DTCValue :=
  match v with
  | RawData.VInt z => Some (VInt (s64_of z))
  | RawData.VFlt b => Some (VFlt b)
  | RawData.VBin bs => Some (VBin (Some bs))
  | VBadBin _ => None
  end.

Definition to_raw (f : FieldDef) (v : DTCValue) : option RawData.DTCValue :=
  match RawData.field_type f with
  | FSigned => z ← get_s64 v; Some (RawData.VInt z)
  | FUnsigned => z ← get_s64 v; Some (RawData.VInt (u64_of z))
  | FFloat => b ← get_flt v; Some (RawData.VFlt b)
  | FString | FBinary | FNone => b ← get_bin v; Some (RawData.VBin (default [] b))
  end.

(** Key fields ([skip] of them) and discarded fields are not stored: they keep
    their values when a row is read, and are passed over when one is written. *)
Fixpoint merge (fs : list FieldDef) (skip : nat) (row : RowValue) (vs : RawData.RowValue) : option RowValue :=
  match fs, row, vs with
  | [], _, _ => Some row
  | f :: fs, w :: row, v :: vs =>
      w ← (match skip with O => if is_discard f then Some w else of_raw v | _ => Some w end);
      row ← merge fs (pred skip) row vs; Some (w :: row)
  | _, _, _ => None
  end.

Fixpoint lower (fs : list FieldDef) (skip : nat) (row : RowValue) : option RawData.RowValue :=
  match fs, row with
  | [], _ => Some []
  | f :: fs, w :: row =>
      v ← (match skip with O => if is_discard f then Some (RawData.VInt 0) else to_raw f w | _ => Some (RawData.VInt 0) end);
      vs ← lower fs (pred skip) row; Some (v :: vs)
  | _, _ => None
  end.

Definition stored_fields_of (t : DTCTableDefinition) : list FieldDef := fields (raw_table t).
Definition keys_of (t : DTCTableDefinition) : nat := Z.to_nat (key_fields t).
Definition blank (t : DTCTableDefinition) : RawData.RowValue := replicate (length (stored_fields_of t)) (RawData.VInt 0).

(** [RowValue(t)] *)
Definition new_row (t : DTCTableDefinition) : RowValue := replicate (Z.to_nat (num_fields t + 1)) VZero.

(** [RowValue::default_value] *)
Definition default_value (t : DTCTableDefinition) (row : RowValue) : RowValue :=
  match defaultValue (side t) with
  | Some d => take 1 row ++ take (Z.to_nat (num_fields t)) (drop 1 d)
  | None => take 1 row ++ replicate (Z.to_nat (num_fields t)) VZero
  end.

(** ** The job *)

Definition all_rows (o : DTCJobOperation) : bool := negb (Z.land (processFlags (codes (job o))) PFLAG_ALLROWS =? 0).
Definition count_only (o : DTCJobOperation) : bool := match fieldList (parts (job o)) with None => true | Some _ => false end.
Definition flag_no_cache (o : DTCJobOperation) : bool := negb (Z.land (requestFlags (codes (job o))) no_cache =? 0).

Definition has_type_commit (f : DTCFieldValue) : bool := negb (Z.land (typeMask1 f) FF_VOLATILE =? 0).
Definition has_type_timestamp (f : DTCFieldValue) : bool := negb (Z.land (typeMask0 f) FF_TIMESTAMP =? 0).

Definition compare_row (t : DTCTableDefinition) (o : DTCJobOperation) (row : RowValue) : option bool :=
  if all_rows o then Some true else c ← conditionInfo (parts (job o)); Compare t c row 256.

(** [DTCJobOperation::update_row] *)
Definition update_row (t : DTCTableDefinition) (o : DTCJobOperation) (row : RowValue) : option RowValue :=
  let upd := updateInfo (parts (job o)) in
  let row := update_timestamp t (timestamp o) (negb (request_code o =? Update_code) || match upd with Some f => has_type_commit f | None => false end) row in
  match upd with Some f => Update t f row | None => Some row end.

Definition update_key (t : DTCTableDefinition) (o : DTCJobOperation) (row : RowValue) : option RowValue :=
  match multi_key o with
  | Some mk => if Nat.leb (keys_of t) (length mk) && Nat.leb (keys_of t) (length row) then Some (take (keys_of t) mk ++ drop (keys_of t) row) else None
  | None => k ← request_key o; match row with [] => None | _ :: row => Some (k :: row) end
  end.

(** [resultInfo.affected_rows()] and the like read the member whether or not
    the tag is set: in a section that was never filled or cleaned it is a
    string without bytes, whose length is the lower half of the number and
    whose padding is the upper half. *)
Definition info_u64 (s : SimpleSection) (id : nat) : option Z := v ← tagValue s !! id; z ← get_s64 v; Some (u64_of z).
Definition info_u32 (s : SimpleSection) (id : nat) : option Z :=
  v ← tagValue s !! id;
  match v with VBin b => Some (Z.of_nat (length (default [] b))) | _ => z ← get_s64 v; Some (wrap 32 z) end.
Definition affected_rows (o : DTCJobOperation) : option Z := info_u64 (resultInfo (infos (job o))) 4.
Definition insert_id (o : DTCJobOperation) : option Z := info_u64 (resultInfo (infos (job o))) 6.
Definition limit_start (o : DTCJobOperation) : option Z := info_u32 (requestInfo (infos (job o))) 2.
Definition limit_count (o : DTCJobOperation) : option Z := info_u32 (requestInfo (infos (job o))) 3.

Definition on_resultInfo (f : SimpleSection -> option SimpleSection) (o : DTCJobOperation) : option DTCJobOperation :=
  let j := job o in let i := infos j in
  s ← f (resultInfo i);
  Some (set_job (mkJob (stage j) (role j) (table j) (mkInfos (versionInfo i) (requestInfo i) s) (codes j) (parts j) (serialNr j) (key_set j) (rkey_set j)) o).
Definition set_affected_rows (n : Z) (o : DTCJobOperation) : option DTCJobOperation := on_resultInfo (set_tag 4 (VInt (s64_of n))) o.

(** ** Programs *)

(** What the pond does for a node that needs [size] bytes: the nodes dropped
    are not the one with the handle given.  0 is success. *)
Class Purge (S : Type) := {
  try_purge_size : Z -> Z -> S -> option (Z * S);
  purge_node : list Z -> Z -> S -> option (unit * S)
}.

Record Process (S : Type) := mkProcess {
  rstate : RState S;
  vd : Z;
  rows_count_ : Z;
  dirty_rows_count_ : Z;
  job_op : DTCJobOperation;
  resultWriter : option ResultPacket;
  resultWriterReseted : bool;
  blacklist_size : Z;
  flushed : list RowValue
}.

Arguments mkProcess {S}.
Arguments rstate {S}.
Arguments vd {S}.
Arguments rows_count_ {S}.
Arguments dirty_rows_count_ {S}.
Arguments job_op {S}.
Arguments resultWriter {S}.
Arguments resultWriterReseted {S}.
Arguments blacklist_size {S}.
Arguments flushed {S}.

Section Setters.
Context {S : Type}.
Implicit Type x : Process S.

Definition set_rstate (r : RState S) x := mkProcess r (vd x) (rows_count_ x) (dirty_rows_count_ x) (job_op x) (resultWriter x) (resultWriterReseted x) (blacklist_size x) (flushed x).
Definition set_vd (h : Z) x := mkProcess (rstate x) h (rows_count_ x) (dirty_rows_count_ x) (job_op x) (resultWriter x) (resultWriterReseted x) (blacklist_size x) (flushed x).
Definition set_counts_ (a b : Z) x := mkProcess (rstate x) (vd x) a b (job_op x) (resultWriter x) (resultWriterReseted x) (blacklist_size x) (flushed x).
Definition set_job_op (o : DTCJobOperation) x := mkProcess (rstate x) (vd x) (rows_count_ x) (dirty_rows_count_ x) o (resultWriter x) (resultWriterReseted x) (blacklist_size x) (flushed x).
Definition set_writer (w : option ResultPacket) (b : bool) x := mkProcess (rstate x) (vd x) (rows_count_ x) (dirty_rows_count_ x) (job_op x) w b (blacklist_size x) (flushed x).
Definition set_black (n : Z) x := mkProcess (rstate x) (vd x) (rows_count_ x) (dirty_rows_count_ x) (job_op x) (resultWriter x) (resultWriterReseted x) n (flushed x).
Definition set_flushed (l : list RowValue) x := mkProcess (rstate x) (vd x) (rows_count_ x) (dirty_rows_count_ x) (job_op x) (resultWriter x) (resultWriterReseted x) (blacklist_size x) l.
End Setters.

Definition proc (S A : Type) : Type := Process S -> option (A * Process S).

#[export] Instance proc_ret {S} : MRet (proc S) := fun A a x => Some (a, x).
#[export] Instance proc_bind {S} : MBind (proc S) := fun A B f m x => match m x with Some (a, y) => f a y | None => None end.

Section Ops.
Context {S M : Type} `{MallocBase S} `{Purge S} `{MallocBase M} `{Text}.

(** [sys]: the temporary buffers of [RawData] can be had; [realloc_ok] those of
    a result; [get_def]: the table definitions by index, [task_idx] that of the
    job; [expanding], [cur]: the state of [DTCColExpand]; [hour], [now]: the
    time; [insert_order]: [update_mode_.m_uchInsertOrder]; [batch]: the job is
    part of a batch; [p_table]: [p_table_]; [priv]: the memory of [g_stSysMalloc]. *)
Context (sys : bool) (realloc_ok : Z -> bool) (get_def : Z -> option DTCTableDefinition) (task_idx : Z) (expanding : bool) (cur hour now : Z) (insert_order batch : bool) (p_table : DTCTableDefinition) (priv : M).

Abbreviation P := (proc S).

Definition crash {A} : P A := fun _ => None.
Definition gets {A} (f : Process S -> A) : P A := fun x => Some (f x, x).
Definition modify (f : Process S -> Process S) : P unit := fun x => Some (tt, f x).
Definition try {A} (o : option A) : P A := fun x => match o with Some a => Some (a, x) | None => None end.
Definition run {A} (m : rprog S A) : P A := fun x => match m (rstate x) with Some (Go a, y) => Some (a, set_rstate y x) | _ => None end.

(** A call that works on the memory of the cache only. *)
Definition on_pool {A} (f : S -> option (A * S)) : P A :=
  fun x => match f (rs (rstate x)) with Some (a, s) => Some (a, set_rstate (mkR s (raw (rstate x))) x) | None => None end.

Definition raw_ : P RawData.RawData := gets (fun x => raw (rstate x)).
Definition raw_def (i : Z) : option RawData.TableDef := raw_table <$> get_def i.

Definition zero_counts : P unit := modify (set_counts_ 0 0).
Definition add_rows (n : Z) : P unit := modify (fun x => set_counts_ (rows_count_ x + n) (dirty_rows_count_ x) x).
Definition add_dirty (n : Z) : P unit := modify (fun x => set_counts_ (rows_count_ x) (dirty_rows_count_ x + n) x).
Definition is_dirty_row (flags : Z) : bool := negb (Z.land flags OPER_DIRTY =? 0).

Definition set_affected (n : Z) : P unit := o ← gets job_op; o ← try (set_affected_rows n o); modify (set_job_op o).

(** [if (iRet != EC_NO_MEM) p_node->vd_handle() = raw_data_.get_handle()] *)
Definition commit (iRet : Z) : P unit :=
  if iRet =? EC_NO_MEM then mret tt else r ← raw_; modify (set_vd (handle_ (rm r))).

(** The second try after memory was made. *)
Definition retry (m : P Z) (iRet : Z) : P Z :=
  r ← raw_; h ← gets vd;
  ok ← on_pool (try_purge_size (need_new_bufer_size (rm r)) h);
  if ok =? 0 then m else mret iRet.

Definition with_purge (m : P Z) : P Z := iRet ← m; if iRet =? EC_NO_MEM then retry m iRet else mret iRet.

(** [job_op.push_black_list_size(raw_data_.need_size())] *)
Definition blacklist : P unit := r ← raw_; modify (set_black (need_new_bufer_size (rm r))).

Definition touch : P unit := run (update_last_access_time_by_hour hour);; run (update_last_update_time_by_hour hour).

Definition attach_data : P Z := h ← gets vd; iRet ← run (do_attach raw_def h); mret (if iRet =? 0 then 0 else -1).

Definition init_data (ptrKey : list Z) : P Z :=
  iRet ← run (RawData.do_init expanding cur raw_def ptrKey 0 hour);
  if negb (iRet =? 0) then mret (-1) else r ← raw_; modify (set_vd (handle_ (rm r)));; mret 0.

Definition destroy_data : P Z :=
  h ← gets vd; iRet ← run (do_attach raw_def h);
  if negb (iRet =? 0) then mret (-1)
  else r ← raw_; add_rows (- row_count_ (rc r));; run destory;; modify (set_vd INVALID_HANDLE);; mret 0.

Definition node_table : P DTCTableDefinition := r ← raw_; try (get_def (table_index_ (rf r))).
Definition task_table : P DTCTableDefinition := try (get_def task_idx).
(** [stpNodeTab == stpTaskTab] *)
Definition one_table : P bool := r ← raw_; mret (table_index_ (rf r) =? task_idx).

(** [raw_data_.decode_row(row, uchRowFlags, 0)] *)
Definition fetch (t : DTCTableDefinition) (row : RowValue) : P (Z * option (Z * RowValue)) :=
  '(c, o) ← run (RawData.decode_row (raw_table t) (blank t) false);
  match o with
  | None => mret (c, None)
  | Some (fl, vs) => row ← try (merge (stored_fields_of t) (keys_of t) row vs); mret (c, Some (fl, row))
  end.

Definition put_row (f : RawData.RowValue -> rprog S Z) (t : DTCTableDefinition) (row : RowValue) : P Z :=
  vs ← try (lower (stored_fields_of t) (keys_of t) row); run (f vs).

(** [raw_data_.key()] *)
Definition raw_key : P (list Z) := r ← raw_; n ← run raw_key_size; run (peek (key_start_ (rh r)) n).

(** ** get_dirty_row_count *)

Fixpoint dirty_loop (n : nat) (t : DTCTableDefinition) (row : RowValue) (dirty : Z) : P Z :=
  match n with
  | O => mret dirty
  | Datatypes.S n =>
      '(c, o) ← fetch t row;
      match o with
      | Some (fl, row) => if c =? 0 then dirty_loop n t row (if is_dirty_row fl then dirty + 1 else dirty) else mret (-4)
      | None => mret (-4)
      end
  end.

Definition total_rows : P nat := r ← raw_; mret (Z.to_nat (row_count_ (rc r))).

Definition get_dirty_row_count : P Z :=
  iRet ← attach_data;
  if negb (iRet =? 0) then mret iRet else n ← total_rows; t ← node_table; dirty_loop n t (new_row t) 0.

(** ** do_delete *)

(** The rows of the node and of the job: one object if the tables are one. *)
Definition to_task (same : bool) (tj tn : DTCTableDefinition) (task node : RowValue) : P RowValue :=
  if same then mret node else try (Copy tj tn task node).

(** [inl]: the function returns. *)
Fixpoint delete_loop (n : nat) (same : bool) (tj tn : DTCTableDefinition) (task node : RowValue) (iAffectRows : Z) : P (Z + Z) :=
  match n with
  | O => mret (inr iAffectRows)
  | Datatypes.S n =>
      '(c, o) ← fetch tn node;
      match o with
      | None => mret (inl (-4))
      | Some (fl, node) =>
          if negb (c =? 0) then mret (inl (-4))
          else
            task ← to_task same tj tn task node;
            o ← gets job_op; b ← try (compare_row tj o task);
            if negb b then delete_loop n same tj tn task node iAffectRows
            else
              iRet ← run (delete_cur_row (raw_table tn));
              commit iRet;;
              if negb (iRet =? 0) then mret (inl (-5))
              else
                add_rows (-1);; (if is_dirty_row fl then add_dirty (-1) else mret tt);;
                delete_loop n same tj tn task node (iAffectRows + 1)
      end
  end.

Definition do_delete : P Z :=
  zero_counts;;
  iRet ← attach_data;
  if negb (iRet =? 0) then mret iRet
  else
    n ← total_rows; tn ← node_table; tj ← task_table; same ← one_table;
    e ← delete_loop n same tj tn (new_row tj) (new_row tn) 0;
    match e with
    | inl c => mret c
    | inr iAffectRows =>
        (if 0 <? iAffectRows then
           o ← gets job_op; a ← try (affected_rows o);
           (if (a =? 0) || match conditionInfo (parts (job o)) with Some c => has_type_timestamp c | None => false end
            then set_affected iAffectRows else mret tt);;
           run strip_mem;; mret tt
         else mret tt);;
        n ← total_rows;
        (if Nat.ltb 0 n then touch else mret tt);;
        mret 0
    end.

(** ** do_get *)

Definition prepare_result : P unit :=
  w ← gets resultWriter; b ← gets resultWriterReseted;
  match w with
  | Some p =>
      if (b : bool) then mret tt
      else
        o ← gets job_op; st ← try (limit_start o); ct ← try (limit_count o);
        p ← try (Set_result (fieldList (parts (job o))) st ct p);
        modify (set_writer (Some p) true)
  | None =>
      o ← gets job_op; st ← try (limit_start o); ct ← try (limit_count o);
      modify (set_writer (Some (new_result (fieldList (parts (job o))) st ct)) true)
  end.

(** A call on the object [resultWriter]. *)
Definition with_writer {A} (f : ResultPacket -> option (A * ResultPacket)) : P A :=
  w ← gets resultWriter;
  match w with
  | None => crash
  | Some p => '(a, p) ← try (f p); b ← gets resultWriterReseted; modify (set_writer (Some p) b);; mret a
  end.

Definition set_total_rows (n : Z) : P Z := with_writer (fun p => Some (set_rows n p)).
Definition add_total_rows (n : Z) : P unit := with_writer (fun p => Some (tt, set_rows_counts (wrap 32 (totalRows p + n)) (numRows p) p)).

Fixpoint get_loop (n : nat) (same : bool) (tj tn : DTCTableDefinition) (task node : RowValue) (laid uiTotalRows : Z) : P (Z + unit) :=
  match n with
  | O => mret (inr tt)
  | Datatypes.S n =>
      o ← gets job_op;
      node ← try (update_key tj o node);
      '(c, r) ← fetch tn node;
      match r with
      | None => mret (inl (-2))
      | Some (_, node) =>
          if negb (c =? 0) then mret (inl (-2))
          else
            task ← to_task same tj tn task node;
            b ← try (compare_row tj o task);
            if negb b then get_loop n same tj tn task node laid uiTotalRows
            else
              task ← (if 0 <? hasExpireTime (marks tj) then try (update_expire_time tj now task) else mret task);
              k ← with_writer (append_row realloc_ok tj task);
              (if (0 <? k) && (0 <? laid) then run (update_lastacc (timestamp o)) else mret tt);;
              full ← with_writer (fun p => Some (is_full p, p));
              if all_rows o && full then set_total_rows uiTotalRows;; mret (inr tt)
              else get_loop n same tj tn task (if same then task else node) laid uiTotalRows
      end
  end.

(** The part of [do_get] that fills the answer. *)
Definition get_rows (n : nat) (o : DTCJobOperation) (tj : DTCTableDefinition) (laid : Z) : P (Z + unit) :=
  let uiTotalRows := Z.of_nat n in
  inside ← with_writer (fun p => Some (in_range p uiTotalRows 0, p));
  if all_rows o && (count_only o || negb inside) then
    (if batch then (if 0 <? sext 32 uiTotalRows then add_total_rows uiTotalRows else mret tt)
     else set_total_rows uiTotalRows;; mret tt);;
    mret (inr tt)
  else
    tn ← node_table; same ← one_table;
    get_loop n same tj tn (new_row tj) (new_row tn) laid uiTotalRows.

Definition do_get : P Z :=
  zero_counts;;
  o ← gets job_op; tj ← task_table;
  let laid := if flag_no_cache o then -1 else hasLastacc (marks tj) in
  h ← gets vd; iRet ← run (do_attach raw_def h);
  if negb (iRet =? 0) then mret (-1)
  else
    n ← total_rows;
    prepare_result;;
    e ← get_rows n o tj laid;
    match e with
    | inl c => mret c
    | inr _ => run (update_last_access_time_by_hour hour);; run inc_select_count;; mret 0
    end.

(** ** do_append *)

Definition uniq_fields_list (t : DTCTableDefinition) : list Z := uniqFields (side t).
Definition key_as_uniq_field (t : DTCTableDefinition) : bool := keysAsUniqField (keys t) =? 1.
Definition key_part_of_uniq_field (t : DTCTableDefinition) : bool := negb (keysAsUniqField (keys t) =? 0).

(** Is there a row like [new]?  [inl]: the function returns. *)
Fixpoint duplicate_loop (n : nat) (t : DTCTableDefinition) (new old : RowValue) : P (Z + unit) :=
  match n with
  | O => mret (inr tt)
  | Datatypes.S n =>
      '(c, r) ← fetch t old;
      match r with
      | None => mret (inl (-1))
      | Some (_, old) =>
          if negb (c =? 0) then mret (inl (-1))
          else
            e ← try (row_compare t new old (uniq_fields_list t));
            if e =? 0 then mret (inl (-1062)) else duplicate_loop n t new old
      end
  end.

Definition append_row_of (o : DTCJobOperation) (tj : DTCTableDefinition) : option RowValue :=
  row ← update_row tj o (default_value tj (new_row tj));
  if key_fields tj <=? auto_increment_field_id tj then
    i ← insert_id o;
    Some (if i =? 0 then row else <[Z.to_nat (auto_increment_field_id tj) := VInt (s64_of i)]> row)
  else Some row.

Definition do_append (isDirty setrows : bool) : P Z :=
  iRet ← attach_data;
  if negb (iRet =? 0) then mret iRet
  else
    tn ← node_table; tj ← task_table; same ← one_table; o ← gets job_op;
    task ← try (append_row_of o tj);
    node ← (if (same : bool) then mret task else try (Copy tn tj (default_value tn (new_row tn)) task));
    zero_counts;;
    n ← total_rows;
    if Nat.ltb 0 n && ((isDirty || setrows) && key_as_uniq_field tj) then mret (-1062)
    else
      e ← (if Nat.ltb 0 n && (setrows && key_part_of_uniq_field tj) then duplicate_loop n tn node (new_row tn) else mret (inr tt));
      match e with
      | inl c => mret c
      | inr _ =>
          iRet ← with_purge (put_row (fun vs => insert_row sys (raw_table tn) vs insert_order isDirty) tn node);
          commit iRet;;
          if negb (iRet =? 0) then blacklist;; mret (-2)
          else
            a ← try (affected_rows o);
            (if (a =? 0) || setrows then set_affected 1 else mret tt);;
            add_rows 1;; (if isDirty then add_dirty 1 else mret tt);;
            touch;; mret 0
      end.

(** ** do_replace *)

(** [p_buffer_pond_->purge_node(key, node)] of a node without data. *)
Definition drop_node : P unit :=
  o ← gets job_op; k ← try (packed_key o); h ← gets vd; on_pool (purge_node k h).

(** [task]: [stNewRow], [node]: [*stpNodeRow] *)
Fixpoint replace_loop (n : nat) (async : bool) (tj tn : DTCTableDefinition) (task node row : RowValue) (ullAffectedrows : Z) : P (Z + Z) :=
  match n with
  | O => mret (inr ullAffectedrows)
  | Datatypes.S n =>
      '(c, r) ← fetch tn row;
      match r with
      | None => mret (inl (-1))
      | Some (fl, row) =>
          if negb (c =? 0) then mret (inl (-1))
          else
            other ← (if key_as_uniq_field tj then mret false
                     else e ← try (row_compare tj task row (uniq_fields_list tj)); mret (negb (e =? 0)));
            if (other : bool) then replace_loop n async tj tn task node row ullAffectedrows
            else
              let first := ullAffectedrows =? 0 in
              let replace := put_row (fun vs => replace_cur_row sys (raw_table tn) vs async) tn node in
              iRet ← (if first then replace else run (delete_cur_row (raw_table tn)));
              iRet ← (if iRet =? EC_NO_MEM then retry replace iRet else mret iRet);
              commit iRet;;
              if negb (iRet =? 0) then blacklist;; mret (inl (-3))
              else
                (if is_dirty_row fl then add_dirty (-1) else mret tt);;
                (if async then add_dirty 1 else mret tt);;
                replace_loop n async tj tn task node row (if first then 2 else ullAffectedrows + 1)
      end
  end.

(** The end of [do_replace] and of [do_update]. *)
Definition finish_change (async setrows : bool) (ullAffectedrows : Z) : P Z :=
  (if async || setrows then set_affected ullAffectedrows else mret tt);;
  touch;; mret 0.

Definition do_replace (async setrows : bool) : P Z :=
  zero_counts;;
  h ← gets vd; o ← gets job_op;
  iRet ← (if h =? INVALID_HANDLE then
            k ← try (packed_key o);
            iRet ← init_data k;
            h ← gets vd;
            (if negb (iRet =? 0) && (h =? INVALID_HANDLE) then drop_node else mret tt);;
            mret iRet
          else attach_data);
  if negb (iRet =? 0) then mret iRet
  else
    n ← total_rows; tn ← node_table; tj ← task_table; same ← one_table;
    task ← try (update_row tj o (default_value tj (new_row tj)));
    node ← (if (same : bool) then mret task else try (Copy tn tj (new_row tn) task));
    e ← replace_loop n async tj tn task node (new_row tn) 0;
    match e with
    | inl c => mret c
    | inr a =>
        if negb (a =? 0) then finish_change async setrows a
        else
          iRet ← with_purge (put_row (fun vs => insert_row sys (raw_table tn) vs false async) tn node);
          commit iRet;;
          if negb (iRet =? 0) then blacklist;; mret (-3)
          else
            add_rows 1;; (if async then add_dirty 1 else mret tt);;
            finish_change async setrows (a + 1)
    end.

(** ** do_update *)

(** The private object [stTmpRows]: the row is written to memory of its own
    and read back.  [inl]: the code returned. *)
Definition encode_to_private_area (key : list Z) (t : DTCTableDefinition) (value : RowValue) : option (Z + RowValue) :=
  vs ← lower (stored_fields_of t) (keys_of t) value;
  let k := Z.to_nat (key_fields p_table) in
  let prog : rprog M (Z + RawData.RowValue) :=
    size ← fields_size (drop k (stored_fields_of t)) (drop k vs) 1;
    ret ← RawData.do_init expanding cur raw_def key size hour;
    if negb (ret =? 0) then mret (inl (-1))
    else
      ret ← insert_row sys (raw_table t) vs false false;
      if negb (ret =? 0) then mret (inl (-2))
      else
        RawData.rewind;;
        '(ret, o) ← RawData.decode_row (raw_table t) (blank t) false;
        mret (match o with Some (_, ws) => if ret =? 0 then inr ws else inl (-3) | None => inl (-3) end) in
  match prog (mkR priv new_RawData) with
  | Some (Go (inl c), _) => Some (inl c)
  | Some (Go (inr ws), _) => row ← merge (stored_fields_of t) (keys_of t) value ws; Some (inr row)
  | _ => None
  end.

Fixpoint update_loop (n : nat) (async same : bool) (tj tn : DTCTableDefinition) (task node : RowValue) (ullAffectedrows : Z) : P (Z + Z) :=
  match n with
  | O => mret (inr ullAffectedrows)
  | Datatypes.S n =>
      '(c, r) ← fetch tn node;
      match r with
      | None => mret (inl (-1))
      | Some (fl, node) =>
          if negb (c =? 0) then mret (inl (-1))
          else
            task ← to_task same tj tn task node;
            o ← gets job_op; b ← try (compare_row tj o task);
            if negb b then update_loop n async same tj tn task node ullAffectedrows
            else
              task ← try (update_row tj o task);
              node ← (if same then mret task else try (Copy tn tj node task));
              key ← raw_key;
              e ← try (encode_to_private_area key tn node);
              match e with
              | inl _ => mret (inl (-3))
              | inr node =>
                  iRet ← with_purge (put_row (fun vs => replace_cur_row sys (raw_table tn) vs async) tn node);
                  commit iRet;;
                  if negb (iRet =? 0) then blacklist;; mret (inl (-6))
                  else
                    (if is_dirty_row fl then add_dirty (-1) else mret tt);;
                    (if async then add_dirty 1 else mret tt);;
                    update_loop n async same tj tn (if same then node else task) node (ullAffectedrows + 1)
              end
      end
  end.

Definition do_update (async setrows : bool) : P Z :=
  zero_counts;;
  iRet ← attach_data;
  if negb (iRet =? 0) then mret iRet
  else
    n ← total_rows; tn ← node_table; tj ← task_table; same ← one_table;
    e ← update_loop n async same tj tn (new_row tj) (new_row tn) 0;
    match e with inl c => mret c | inr a => finish_change async setrows a end.

(** ** do_flush, do_purge *)

(** [flush_row]: does the flush request take the row?  No function: there is
    no flush request.  [node_dirty]: [p_node->is_dirty()] *)
Fixpoint flush_loop (n : nat) (flush_row : option (RowValue -> bool)) (t : DTCTableDefinition) (row : RowValue) (affected_count : Z) : P (Z * Z) :=
  match n with
  | O => mret (0, affected_count)
  | Datatypes.S n =>
      '(c, r) ← fetch t row;
      match r with
      | None => mret (-1, affected_count)
      | Some (fl, row) =>
          if negb (c =? 0) then mret (-1, affected_count)
          else if negb (is_dirty_row fl) then flush_loop n flush_row t row affected_count
          else if match flush_row with Some f => negb (f row) | None => false end then mret (-2, affected_count)
          else
            modify (fun x => set_flushed (flushed x ++ (if flush_row then [row] else [])) x);;
            run (set_cur_row_flag (Z.land fl (Z.lnot OPER_DIRTY)));;
            add_dirty (-1);;
            flush_loop n flush_row t row (affected_count + 1)
      end
  end.

(** The code and [affected_count], which is not set where attaching fails. *)
Definition do_flush (flush_row : option (RowValue -> bool)) (node_dirty : bool) (affected_count : Z) : P (Z * Z) :=
  zero_counts;;
  iRet ← attach_data;
  if negb (iRet =? 0) then mret (iRet, affected_count)
  else
    n ← total_rows; key ← raw_key;
    ks ← try (unpack_key p_table key);
    let row := take (keys_of p_table) ks ++ drop (keys_of p_table) (new_row p_table) in
    if node_dirty then flush_loop n flush_row p_table row 0 else mret (0, 0).

Definition do_purge (flush_row : option (RowValue -> bool)) (node_dirty : bool) (affected_count : Z) : P (Z * Z) :=
  '(iRet, n) ← do_flush flush_row node_dirty affected_count;
  if negb (iRet =? 0) then mret (iRet, n)
  else r ← raw_; modify (fun x => set_counts_ (- row_count_ (rc r)) (dirty_rows_count_ x) x);; mret (0, n).

(** The code and the time; [expire] is the time before. *)
Definition get_expire_time (t : DTCTableDefinition) (expire : Z) : P (Z * Z) :=
  iRet ← attach_data;
  if negb (iRet =? 0) then mret (iRet, expire)
  else '(iRet, e) ← run (RawData.get_expire_time (raw_table t)); mret (iRet, if iRet =? 0 then e else expire).

End Ops.
