(* ===== verification/RowProcessSpec.v ===== *)
(** What the requests do to the rows of a node: the node's block is a list of
    rows, and each request selects from it or changes it. *)

From stdpp Require Import base list gmap.
From S2P Require Import Prelude PtMalloc PtMallocSpec MallocBase RawData RawBytes RawRows RawSpec RawOps RawEdit RawHead RawSafe RawTrip.
From S2P Require Import Codec CodecSpec Sections TableDef Fields FieldsSpec FieldSets Request Results ResultsSpec Packet PacketSafe PackedKey RowProcess.

Local Open Scope Z_scope.

Abbreviation RRow := (Z * list RawData.DTCValue)%type.

(** ** Two views of a row *)

Definition up (v : RawData.DTCValue) : DTCValue := default VZero (of_raw v).

Lemma exact_up f v : exact f v -> of_raw v = Some (up v) /\ to_raw f (up v) = Some v.
Proof.
  unfold exact, has_type, up, of_raw, to_raw. destruct (RawData.field_type f), v; try tauto; intros [Ht Hx]; (split; [done|]); simpl; try done.
  - rewrite s64_of_id; [done|]. destruct (int_size_cases f) as [E|E]; rewrite E in Ht; unfold is_s64; simpl in Ht |- *; lia.
  - rewrite u64_s64, wrap_small; [done|]. destruct (int_size_cases f) as [E|E]; rewrite E in Ht; unfold in_width; simpl in Ht |- *; lia.
Qed.

Section Views.

Context (fs : list FieldDef) (keep : Forall (fun f => is_discard f = false) fs).

Lemma merge_values row vs : length row = length fs -> Forall2 exact fs vs -> merge fs 0 row vs = Some (up <$> vs).
Proof.
  revert fs keep vs. induction row as [|w row IH]; intros [|f gs] K vs Hl Hx; inversion Hx; subst; simplify_eq/=; [done|]. inversion K as [|? ? Hd K']; subst. rewrite Hd.
  destruct (exact_up f y) as [-> _]; [done|]. cbn. by rewrite (IH gs K').
Qed.

Lemma lower_values row vs : Forall2 (fun f v => exact f v) fs vs -> row = up <$> vs -> lower fs 0 row = Some vs.
Proof.
  intros Hx ->. revert keep. induction Hx as [|f v gs ws Hv Hx IH]; intros K; [done|]. inversion K as [|? ? Hd K']; subst. cbn [fmap list_fmap lower]. rewrite Hd.
  destruct (exact_up f v Hv) as [_ ->]. cbn. by rewrite (IH K').
Qed.

End Views.

Lemma merge_skip fs : forall k row vs, length row = length fs -> length vs = length fs ->
  merge fs k row vs = (fun l => take k row ++ l) <$> merge (drop k fs) 0 (drop k row) (drop k vs).
Proof.
  induction fs as [|f fs IH]; intros [|k] [|w row] [|v vs] Hl Hv; simplify_eq/=; try done; try (by rewrite option_fmap_id).
  rewrite IH by done. by destruct (merge (drop k fs) 0 _ _).
Qed.

Lemma lower_skip fs : forall k row, length row = length fs -> (k <= length fs)%nat ->
  lower fs k row = (fun l => replicate k (RawData.VInt 0) ++ l) <$> lower (drop k fs) 0 (drop k row).
Proof.
  induction fs as [|f fs IH]; intros [|k] [|w row] Hl Hk; simplify_eq/=; try lia; try done; try (by rewrite option_fmap_id).
  rewrite IH by (done || lia). by destruct (lower (drop k fs) 0 _).
Qed.

(** ** Counting rows *)

(** How many of [n] rows an answer shows. *)
Definition shown_of (st nx n : Z) : Z := if nx =? 0 then n else if n <=? st then 0 else if n <=? nx then n - st else nx - st.

(** Limits as a request has them. *)
Definition limits_ok (p : ResultPacket) : Prop := 0 <= limitStart p /\ (limitNext p = 0 /\ limitStart p = 0 \/ limitStart p < limitNext p).

(** An answer without fields counts its rows only. *)
Definition counted (p : ResultPacket) : Prop := fieldSet p = None -> numRows p = shown_of (limitStart p) (limitNext p) (totalRows p).

Section Counting.

Context `{Text} (realloc_ok : Z -> bool) (t : DTCTableDefinition).

Definition skipped (p : ResultPacket) (n : Z) : bool := (0 <? limitNext p) && ((n <=? limitStart p) || (limitNext p <? n)).

Lemma expand_parts p n q : expand realloc_ok p n = Some (Some q) -> fieldSet q = fieldSet p /\ limitStart q = limitStart p /\ limitNext q = limitNext p /\ totalRows q = totalRows p /\ numRows q = numRows p.
Proof.
  unfold expand. intros E. repeat (match type of E with
    | mbind _ ?o = _ => destruct o; cbn [mbind option_bind] in E; [|done]
    | (if ?c then _ else _) = _ => destruct c
    | Some (if ?c then _ else _) = _ => destruct c end); by simplify_eq/=.
Qed.

Lemma append_row_parts r p c q : append_row realloc_ok t r p = Some (c, q) -> 0 <= totalRows p < 2 ^ 32 - 1 ->
  fieldSet q = fieldSet p /\ limitStart q = limitStart p /\ limitNext q = limitNext p /\ totalRows q = totalRows p + 1
  /\ (fieldSet p = None -> numRows q = if skipped p (totalRows p + 1) then numRows p else wrap 32 (totalRows p + 1 - limitStart p))
  /\ (skipped p (totalRows p + 1) = true -> q = set_rows_counts (totalRows p + 1) (numRows p) p).
Proof.
  intros E Hn. unfold append_row in E. rewrite wrap_small in E by (unfold in_width; lia). cbn [limitNext totalRows limitStart fieldSet set_rows_counts] in E. fold (skipped p (totalRows p + 1)) in E.
  destruct (skipped p (totalRows p + 1)); [by simplify_eq/=|]. destruct (fieldSet p) as [s|] eqn:Ef; [|by simplify_eq/=].
  destruct (row_size t r (fieldId s) 0) as [len|]; [cbn [mbind option_bind] in E|done]. destruct (expand realloc_ok _ len) as [[q1|]|] eqn:Ex; cbn [mbind option_bind] in E; [|by simplify_eq/=|done].
  destruct (expand_parts _ _ _ Ex) as (? & ? & ? & ? & ?). destruct (encode_row t r (fieldId s)) as [bs|]; [cbn [mbind option_bind] in E|done]. destruct (_ <? _); simplify_eq/=. split_and!; try done. congruence.
Qed.

Lemma append_row_counts r p c q : append_row realloc_ok t r p = Some (c, q) -> limits_ok p -> counted p -> 0 <= totalRows p < 2 ^ 32 - 1 ->
  limits_ok q /\ counted q /\ totalRows q = totalRows p + 1.
Proof.
  intros E L C Hn. destruct (append_row_parts _ _ _ _ E Hn) as (E1 & E2 & E3 & E4 & E5 & _). split_and!; [by unfold limits_ok; rewrite E2, E3| |done].
  unfold counted, shown_of. rewrite E1, E2, E3, E4. intros Ef. rewrite (E5 Ef). specialize (C Ef). rewrite C. unfold limits_ok, skipped, shown_of in *.
  destruct (Z.ltb_spec 0 (limitNext p)), (Z.leb_spec (totalRows p + 1) (limitStart p)), (Z.ltb_spec (limitNext p) (totalRows p + 1)); cbn [andb orb];
    rewrite ?wrap_small by (unfold in_width; lia); zcase; lia.
Qed.

Lemma set_counts_set a b c d p : set_rows_counts a b (set_rows_counts c d p) = set_rows_counts a b p.
Proof. done. Qed.

Lemma set_counts_same p : set_rows_counts (totalRows p) (numRows p) p = p.
Proof. by destruct p. Qed.

(** Rows that the limits leave out are counted only. *)
Lemma append_rows_skipped rs : forall p q, append_rows realloc_ok t rs p = Some q -> 0 <= totalRows p -> totalRows p + Z.of_nat (length rs) < 2 ^ 32 ->
  (forall i, totalRows p < i <= totalRows p + Z.of_nat (length rs) -> skipped p i = true) -> q = set_rows_counts (totalRows p + Z.of_nat (length rs)) (numRows p) p.
Proof.
  induction rs as [|r rs IH]; intros p q E H0 Hn Hs; cbn [append_rows] in E.
  - simplify_eq/=. by rewrite Z.add_0_r, set_counts_same.
  - cbn [length] in *. destruct (append_row realloc_ok t r p) as [[c p1]|] eqn:E1; [cbn [mbind option_bind] in E|done].
    destruct (append_row_parts _ _ _ _ E1 ltac:(lia)) as (_ & _ & _ & _ & _ & Hp). rewrite Hp in E by (apply Hs; lia).
    rewrite (IH _ _ E); cbn [totalRows numRows set_rows_counts]; [rewrite set_counts_set; f_equal; lia|lia|lia|]. intros i Hi. apply (Hs i). lia.
Qed.

(** An answer without fields. *)
Lemma append_rows_counts rs : forall p q, append_rows realloc_ok t rs p = Some q -> fieldSet p = None -> limits_ok p -> counted p -> 0 <= totalRows p -> totalRows p + Z.of_nat (length rs) < 2 ^ 32 ->
  q = set_rows_counts (totalRows p + Z.of_nat (length rs)) (shown_of (limitStart p) (limitNext p) (totalRows p + Z.of_nat (length rs))) p.
Proof.
  induction rs as [|r rs IH]; intros p q E Ef L C H0 Hn; cbn [append_rows] in E.
  - simplify_eq/=. by rewrite Z.add_0_r, <- (C Ef), set_counts_same.
  - cbn [length] in *. destruct (append_row realloc_ok t r p) as [[c p1]|] eqn:E1; [cbn [mbind option_bind] in E|done].
    destruct (append_row_parts _ _ _ _ E1 ltac:(lia)) as (P1 & P2 & P3 & P4 & _). destruct (append_row_counts _ _ _ _ E1 L C ltac:(lia)) as (L1 & C1 & _).
    rewrite (IH _ _ E); [|congruence|done|done|lia|lia]. rewrite P2, P3, P4. replace (totalRows p + 1 + Z.of_nat (length rs)) with (totalRows p + Z.of_nat (Datatypes.S (length rs))) by lia.
    unfold append_row in E1. cbn [fieldSet set_rows_counts] in E1. rewrite Ef in E1. destruct (_ && _); by simplify_eq/=.
Qed.

Lemma append_rows_full rs p q : append_rows realloc_ok t rs p = Some q -> limits_ok p -> counted p -> is_full p = true -> 0 <= totalRows p -> totalRows p + Z.of_nat (length rs) < 2 ^ 32 ->
  set_rows (totalRows p + Z.of_nat (length rs)) p = (0, q).
Proof.
  intros E L C F H0 Hn. unfold is_full in F. apply andb_true_iff in F as [F1%Z.ltb_lt F2%Z.leb_le]. unfold limits_ok in L.
  rewrite (append_rows_skipped rs p q E) by (try lia; intros i Hi; unfold skipped; zcase; simpl; lia || done).
  unfold set_rows, is_full. destruct (fieldSet p) eqn:Ef.
  - cbn [orb]. destruct (Z.leb_spec (totalRows p + Z.of_nat (length rs)) (limitStart p)); [lia|]. rewrite andb_false_r. zcase; cbn; done || lia.
  - cbn [orb]. rewrite (C Ef). unfold shown_of. do 2 f_equal. zcase; lia.
Qed.

(** A new answer to a count, or one that starts after the last row. *)
Lemma append_rows_short rs fs st cnt q (p := new_result fs st cnt) : append_rows realloc_ok t rs p = Some q -> 0 <= st -> 0 <= cnt -> st + cnt < 2 ^ 32 -> Z.of_nat (length rs) < 2 ^ 32 ->
  fs = None \/ in_range p (Z.of_nat (length rs)) 0 = false -> set_rows (Z.of_nat (length rs)) p = (0, q).
Proof.
  intros E Hs Hc Hl Hn O. assert (limits_ok p) as L. { unfold limits_ok, p, new_result. cbn [limitStart limitNext]. rewrite wrap_small by (unfold in_width; zcase; lia). zcase; lia. }
  assert (counted p) as C. { unfold counted, shown_of, p, new_result. cbn [limitStart limitNext totalRows numRows]. intros _. zcase; lia. }
  assert (totalRows p = 0 /\ numRows p = 0) as [T0 N0] by done. destruct O as [->|R].
  - rewrite (append_rows_counts rs p q E eq_refl L C) by lia. unfold set_rows. rewrite T0. done.
  - unfold in_range in R. destruct (Z.eqb_spec (limitNext p) 0); [done|]. apply negb_false_iff, orb_true_iff in R. unfold limits_ok in L.
    assert (Z.of_nat (length rs) <= limitStart p) as Hle by (destruct R as [R%Z.leb_le|R%Z.leb_le]; lia).
    rewrite (append_rows_skipped rs p q E) by (try lia; intros i Hi; unfold skipped; zcase; simpl; lia || done).
    unfold set_rows. rewrite N0, T0. destruct (Z.leb_spec (Z.of_nat (length rs)) (limitStart p)); [|lia]. rewrite orb_true_r. destruct (Z.eqb_spec (limitNext p) 0); done.
Qed.

End Counting.

(** ** Tables and nodes *)

(** A table of which every field after the key is in the rows. *)
Record table_fits (t : DTCTableDefinition) : Prop := {
  tf_keys : 1 <= key_fields t <= 255;
  tf_fields : length (stored_fields_of t) = Z.to_nat (num_fields t + 1);
  tf_room : (keys_of t <= length (stored_fields_of t))%nat;
  tf_keep : Forall (fun f => is_discard f = false) (drop (keys_of t) (stored_fields_of t))
}.

(** The stored fields, and a row of them as the table has it. *)
Definition cols (t : DTCTableDefinition) : list FieldDef := drop (keys_of t) (stored_fields_of t).
Definition good (t : DTCTableDefinition) (row : RRow) : Prop := in_width 8 row.1 /\ Forall2 exact (cols t) row.2.

(** The wire values of a row under the key [key]. *)
Definition shown (key : RowValue) (row : RRow) : RowValue := key ++ (up <$> row.2).

Lemma pbind_go {S A B} (m : proc S A) (f : A -> proc S B) x a y : m x = Some (a, y) -> (m ≫= f) x = f a y.
Proof. intros E. unfold mbind, proc_bind. by rewrite E. Qed.


(** The pond makes room without touching the block that is being changed. *)
Class PurgeLaws (S : Type) `{MallocLaws S} `{Purge S} := {
  try_purge_ok n h st (Hp : heap) m : m_rep st Hp -> Hp !! h = Some m ->
    exists c st' Hp', try_purge_size n h st = Some (c, st') /\ m_rep st' Hp' /\ Hp' !! h = Some m /\ forall z, h <= z < h + m -> load z st' = load z st
}.

(** The values a wire row has in a block. *)
Definition lowered (t : DTCTableDefinition) (row : RowValue) (vs : list RawData.DTCValue) : Prop :=
  length row = length (stored_fields_of t) /\ lower (cols t) 0 (drop (keys_of t) row) = Some vs /\ Forall2 exact (cols t) vs.

Lemma lowered_lower t row vs : table_fits t -> lowered t row vs -> lower (stored_fields_of t) (keys_of t) row = Some (replicate (keys_of t) (RawData.VInt 0) ++ vs).
Proof. intros [] (Hl & El & _). rewrite lower_skip by done. unfold cols in El. by rewrite El. Qed.

Lemma fields_size_eq {S} `{MallocBase S} fs vs n (x : RState S) : RawRows.row_fits fs vs = true -> 0 <= n -> n + Z.of_nat (length (enc_fields fs vs)) < 2 ^ 32 ->
  fields_size fs vs n x = Some (Go (n + Z.of_nat (length (enc_fields fs vs))), x).
Proof.
  revert vs n. induction fs as [|f fs IH]; intros [|v vs] n Hf Hz Hn; try done; [simpl; by rewrite Z.add_0_r|].
  simpl in Hf. apply andb_true_iff in Hf as [Hv Hr]. cbn [fields_size enc_fields] in *. destruct (is_discard f); [by apply IH|]. simpl in Hv.
  rewrite length_app in Hn |- *. rewrite (field_bytes_length f v Hv). rewrite wrap_small by (split; lia).
  rewrite Nat2Z.inj_add, Z.add_assoc. apply IH; [done|lia|lia].
Qed.

Lemma holds_raw_of {S} `{MallocLaws S} (x : RState S) Hp t b rows r : holds x Hp t b rows r -> raw x = r.
Proof. intros (? & ? & V & _). apply V. Qed.

(** A step that is recorded before its code is looked at. *)
Lemma pbind_tail {S A B} (m : proc S A) (f : A -> proc S unit) (g : A -> proc S B) x a y : (r ← m; f r;; mret r) x = Some (a, y) -> (r ← m; f r;; g r) x = g a y.
Proof. unfold mbind, proc_bind, mret, proc_ret. destruct (m x) as [[r x1]|]; [|done]. destruct (f r x1) as [[[] x2]|]; [|done]. by intros [= <- <-]. Qed.

Section Node.

Context {S : Type} `{MallocLaws S}.
Context (get_def : Z -> option DTCTableDefinition) (idx : Z) (t : DTCTableDefinition).
Hypothesis Ht : table_fits t.
Hypothesis Hg : get_def idx = Some t.

Implicit Types (x y z : RState S) (Hp : heap) (b : block).

Abbreviation Rt := (raw_table t).
Abbreviation k := (keys_of t).

(** From [x] to [y] the object's block may have moved; other blocks are as they were. *)
Definition moved x Hp y Hp' : Prop := carried x Hp (raw x) y Hp' (raw y).

Lemma block_moved_trans x Hp y Hp1 z Hp2 : moved x Hp y Hp1 -> moved y Hp1 z Hp2 -> moved x Hp z Hp2.
Proof. apply carried_trans. Qed.

(** The object is attached to block [b] and stands before the rows [l2]. *)
Record standing x Hp b (l1 l2 : list RRow) : Prop := {
  st_holds : holds x Hp Rt b (l1 ++ l2) (raw x);
  st_off : offset_ (rc (raw x)) = row_at Rt (raw x) l1;
  st_form : rf (raw x) = format_of Rt idx;
  st_key : key_start_ (rh (raw x)) = 16;
  st_count : get_request_count_offset_ (rh (raw x)) = 9;
  st_stamps : time_stamp_offset_ (rh (raw x)) = 10;
  st_got : get_request_count_ (rh (raw x)) = b_count b
}.

Lemma key_index : Z.to_nat (wrap 8 (RawData.key_fields Rt - 1) + 1) = k.
Proof. destruct Ht as [Hk _ _ _]. simpl. rewrite wrap_small by (unfold in_width; lia). unfold keys_of. f_equal. lia. Qed.

Lemma stored_cols : stored_part Rt = cols t.
Proof. unfold stored_part. by rewrite key_index. Qed.

Lemma standing_fields x Hp b l1 l2 : standing x Hp b l1 l2 -> row_fields Rt (raw x) = cols t.
Proof. intros []. unfold row_fields. rewrite st_form0. exact stored_cols. Qed.

Lemma standing_key x Hp b l1 l2 : standing x Hp b l1 l2 -> Z.to_nat (key_index_ (rf (raw x)) + 1) = k.
Proof. intros []. rewrite st_form0. exact key_index. Qed.

Lemma exact_all fs vs old : Forall (fun f => is_discard f = false) fs -> Forall2 exact fs vs -> length old = length fs ->
  stored_fields fs vs old = vs /\ RawRows.row_fits fs vs = true.
Proof.
  intros K Hx. revert K old. induction Hx as [|f v fs vs Hv Hx IH]; intros K [|w old] Hl; simplify_eq/=; [done|]. inversion K as [|? ? Hd K']; subst. rewrite Hd.
  destruct (exact_stored _ _ Hv) as [-> ->]. destruct (IH K' old Hl) as [-> ->]. done.
Qed.

Lemma cols_fits vs : Forall2 exact (cols t) vs -> RawRows.row_fits (cols t) vs = true.
Proof.
  intros Hx. by apply (exact_all (cols t) vs (replicate (length (cols t)) (RawData.VInt 0)) (tf_keep _ Ht) Hx (length_replicate _ _)).
Qed.

(** Reading the next row. *)
Lemma fetch_next (x : Process S) Hp b l1 row l2 (old : RowValue) : standing (rstate x) Hp b l1 (row :: l2) -> good t row ->
  length old = length (stored_fields_of t) ->
  exists z, fetch t old x = Some ((0, Some (row.1, shown (take k old) row)), set_rstate z x) /\ standing z Hp b (l1 ++ [row]) l2
  /\ row_offset_ (rc (raw z)) = row_at Rt (raw z) l1 /\ moved (rstate x) Hp z Hp /\ handle_ (rm (raw z)) = handle_ (rm (raw (rstate x))).
Proof.
  intros St [Hw Hx] Hl. destruct row as [op vs]. simpl in Hw, Hx. pose proof (standing_fields _ _ _ _ _ St) as Ef. pose proof (standing_key _ _ _ _ _ St) as Ek.
  pose proof St as [Ho Eo Er Es Ec Et Eg]. pose proof (tf_keep _ Ht) as Kp.
  assert (length (RawData.row_values (blank t) (raw (rstate x))) = length (row_fields Rt (raw (rstate x)))) as Hlen.
  { unfold RawData.row_values. rewrite Ek, Ef. unfold cols, blank. rewrite !length_drop, length_replicate. done. }
  destruct (decode_row_spec (rstate x) Hp Rt b l1 op vs l2 (raw (rstate x)) (blank t) false Ho Eo Hlen) as (y & la & E & C & Hy). rewrite wrap_small in E by done.
  rewrite Ek, Ef in E. rewrite Ef in Hlen. destruct (exact_all (cols t) vs (RawData.row_values (blank t) (raw (rstate x))) Kp Hx Hlen) as [Es' _]. rewrite Es' in E.
  exists y. pose proof (holds_raw_of _ _ _ _ _ _ Hy) as Ey. split_and!.
  - unfold fetch. erewrite pbind_go by (unfold run; by rewrite E). unfold shown. simpl fst. simpl snd.
    rewrite merge_skip; [|done|].
    + rewrite drop_app_length'; [|unfold blank; rewrite length_take, length_replicate; destruct Ht; lia].
      by rewrite merge_values by (done || (rewrite !length_drop; lia)).
    + apply Forall2_length in Hx. unfold cols in Hx. rewrite length_drop in Hx. rewrite length_app, length_take. unfold blank. rewrite length_replicate. destruct Ht. lia.
  - rewrite cons_middle, app_assoc in Hy. split; rewrite Ey; try done.
  - by rewrite Ey.
  - unfold moved. rewrite Ey. by destruct C.
  - by rewrite Ey.
Qed.

Lemma shown_length key row : good t row -> length key = k -> length (shown key row) = length (stored_fields_of t).
Proof.
  intros [_ Gx] Hk. unfold shown. apply Forall2_length in Gx. unfold cols in Gx. rewrite length_drop in Gx. rewrite length_app, length_fmap, Hk. destruct Ht. lia.
Qed.

Lemma shown_key (key : RowValue) row : length key = k -> take k (shown key row) = key.
Proof. intros Hk. unfold shown. by apply take_app_length'. Qed.

(** ** The header *)

(** Block [b'] is [b] with other counters. *)
Definition same_key b b' : Prop := b_key b' = b_key b /\ b_type b' = b_type b /\ in_width 8 (b_count b').

Lemma head_change x Hp b l1 l2 (m : rprog S unit) b' (r' : RawData.RawData) : standing x Hp b l1 l2 -> length (b_stamps b') = 6%nat -> b_key b' = b_key b -> get_request_count_ (rh r') = b_count b' ->
  (forall n c q, length (head b n c ++ q) = Z.to_nat (size_ (rm (raw x))) -> runs m (head b n c ++ q) (raw x) (Go tt) (head b' n c ++ q) r') ->
  rm r' = rm (raw x) -> rc r' = rc (raw x) -> rf r' = rf (raw x) -> data_start_ (rh r') = data_start_ (rh (raw x)) -> key_start_ (rh r') = 16 ->
  get_request_count_offset_ (rh r') = 9 -> time_stamp_offset_ (rh r') = 10 ->
  exists z, m x = Some (Go tt, z) /\ standing z Hp b' l1 l2 /\ moved x Hp z Hp /\ handle_ (rm (raw z)) = handle_ (rm (raw x)).
Proof.
  intros St L6 Ek Eg R Em Ec Ef Ed Es Eco Ets. pose proof St as [(slack & bs & V & Sh) Eo Er _ _ _ _]. destruct (shape_bounds _ _ _ _ _ _ _ _ V Sh) as (_ & _ & _ & _ & Hlen).
  pose proof Sh as [B1 B2 B3 B4 B5 B6 B7]. assert (row_fields Rt r' = row_fields Rt (raw x)) as Erf by (unfold row_fields; by rewrite Ef).
  assert (length (head b' 0 0) = length (head b 0 0)) as Eh by (rewrite !head_length, Ek, L6, B6; done).
  rewrite B1 in V, Hlen. destruct (R _ _ _ Hlen x Hp V) as (z & E & V' & K). pose proof (vw_raw _ _ _ _ V') as Ez. exists z. split_and!; [done| | |by rewrite Ez, Em].
  - split; rewrite ?Ez; try done; [|unfold row_at; rewrite Erf, Ed, Ec; exact Eo|by rewrite Ef].
    exists slack. eexists. split; [exact V'|]. split; rewrite ?Erf, ?Ec, ?Ed, ?Eh; try done.
  - unfold moved. apply carried_refl; [by rewrite Ez, Em|done].
Qed.

Lemma splice_inside o (a p q : list Z) : (o + length a <= length p)%nat -> splice o a (p ++ q) = splice o a p ++ q.
Proof. intros Hl. unfold splice. rewrite take_app_le, drop_app_le by lia. by rewrite <- !app_assoc. Qed.

Lemma head_stamp b i a n c q : length (b_stamps b) = 6%nat -> (i + length a <= 6)%nat ->
  splice (10 + i) a (head b n c ++ q) = head (mkBlock (b_type b) (b_count b) (splice i a (b_stamps b)) (b_key b)) n c ++ q.
Proof.
  intros L6 Hi. rewrite !head_eq. simpl b_type. simpl b_count. simpl b_stamps. simpl b_key.
  set (p := [b_type b] ++ le_bytes 4 n ++ le_bytes 4 c ++ [b_count b]).
  assert (forall l, ([b_type b] ++ le_bytes 4 n ++ le_bytes 4 c ++ [b_count b] ++ l ++ b_key b) ++ q = p ++ l ++ b_key b ++ q) as Ep by (intros l; unfold p; by rewrite <- !app_assoc).
  rewrite !Ep. change 10%nat with (length p). rewrite splice_skip. f_equal. apply splice_inside. lia.
Qed.

Lemma head_count b v n c q : splice 9 [v] (head b n c ++ q) = head (mkBlock (b_type b) v (b_stamps b) (b_key b)) n c ++ q.
Proof.
  rewrite !head_eq. simpl b_type. simpl b_count. simpl b_stamps. simpl b_key. set (p := [b_type b] ++ le_bytes 4 n ++ le_bytes 4 c).
  assert (forall w l, ([b_type b] ++ le_bytes 4 n ++ le_bytes 4 c ++ [w] ++ l) ++ q = p ++ [w] ++ l ++ q) as Ep by (intros w l; unfold p; by rewrite <- !app_assoc).
  rewrite !Ep. by apply (splice_app p [v] [b_count b]).
Qed.

(** The block still has [rows] where the object stands, with other counters. *)
Definition stamped (m : rprog S unit) : Prop := forall x Hp b l1 l2, standing x Hp b l1 l2 -> in_width 8 (b_count b) ->
  exists z b', m x = Some (Go tt, z) /\ standing z Hp b' l1 l2 /\ same_key b b' /\ moved x Hp z Hp /\ handle_ (rm (raw z)) = handle_ (rm (raw x)).

Lemma standing_room x Hp b l1 l2 : standing x Hp b l1 l2 -> 16 <= size_ (rm (raw x)) /\ (p_content_ (rm (raw x)) =? 0) = false /\ length (b_stamps b) = 6%nat.
Proof.
  intros [(slack & bs & V & Sh) _ _ _ _ _ _]. destruct (shape_bounds _ _ _ _ _ _ _ _ V Sh) as (? & ? & _). destruct (view_size _ _ _ _ V) as (Hh & _).
  pose proof (vw_ptr _ _ _ _ V). split_and!; [lia|apply Z.eqb_neq; lia|by destruct Sh].
Qed.

Lemma access_time_stamped hour : stamped (update_last_access_time_by_hour hour).
Proof.
  intros x Hp b l1 l2 St Hc. destruct (standing_room _ _ _ _ _ St) as (Hs & Hz & L6). pose proof St as [_ _ _ ? ? Et ?].
  set (r' := on_rh (fun h => set_stamps (wrap 16 hour) (latest_update_time_ h) (create_time_ h) h) (raw x)).
  destruct (head_change x Hp b l1 l2 (update_last_access_time_by_hour hour) (mkBlock (b_type b) (b_count b) (splice 0 (le_bytes 2 (wrap 16 hour)) (b_stamps b)) (b_key b)) r' St) as (z & E & Sz & Mz & Ez); try done.
  - cbn [b_stamps]. rewrite splice_length; [done|]. rewrite le_bytes_length. lia.
  - intros n c q Hl. unfold update_last_access_time_by_hour. eapply runs_bind; [apply runs_get|done|]. cbv zeta. rewrite Et, Hz. destruct (Z.ltb_spec (size_ (rm (raw x))) (10 + 2)); [lia|]. cbn [orb].
    eapply (runs_bind _ _ _ _ tt _ r'); [by apply runs_set|done|]. eapply runs_to; [apply runs_poke; [lia|rewrite le_bytes_length; simpl; lia]| |done].
    apply (head_stamp b 0); [done|]. rewrite le_bytes_length. lia.
  - by exists z, (mkBlock (b_type b) (b_count b) (splice 0 (le_bytes 2 (wrap 16 hour)) (b_stamps b)) (b_key b)).
Qed.

Lemma update_time_stamped hour : stamped (update_last_update_time_by_hour hour).
Proof.
  intros x Hp b l1 l2 St Hc. destruct (standing_room _ _ _ _ _ St) as (Hs & Hz & L6). pose proof St as [_ _ _ ? ? Et ?].
  set (r' := on_rh (fun h => set_stamps (latest_request_time_ h) (wrap 16 hour) (create_time_ h) h) (raw x)).
  destruct (head_change x Hp b l1 l2 (update_last_update_time_by_hour hour) (mkBlock (b_type b) (b_count b) (splice 2 (le_bytes 2 (wrap 16 hour)) (b_stamps b)) (b_key b)) r' St) as (z & E & Sz & Mz & Ez); try done.
  - cbn [b_stamps]. rewrite splice_length; [done|]. rewrite le_bytes_length. lia.
  - intros n c q Hl. unfold update_last_update_time_by_hour. eapply runs_bind; [apply runs_get|done|]. cbv zeta. rewrite Et, Hz. destruct (Z.ltb_spec (size_ (rm (raw x))) (10 + 4)); [lia|]. cbn [orb].
    eapply (runs_bind _ _ _ _ tt _ r'); [by apply runs_set|done|]. eapply runs_to; [apply runs_poke; [lia|rewrite le_bytes_length; simpl; lia]| |done].
    apply (head_stamp b 2); [done|]. rewrite le_bytes_length. lia.
  - by exists z, (mkBlock (b_type b) (b_count b) (splice 2 (le_bytes 2 (wrap 16 hour)) (b_stamps b)) (b_key b)).
Qed.

Lemma select_count_stamped : stamped inc_select_count.
Proof.
  intros x Hp b l1 l2 St Hc. destruct (standing_room _ _ _ _ _ St) as (Hs & Hz & L6). pose proof St as [Ho _ _ ? Eco Et Eg]. unfold inc_select_count.
  erewrite rbind_go by (by eapply holds_get). cbv zeta. rewrite Eco, Eg. destruct (Z.ltb_spec (size_ (rm (raw x))) (9 + 1)); [lia|]. rewrite orb_false_r.
  unfold BTYE_MAX_VALUE. destruct (Z.leb_spec 255 (b_count b)).
  - exists x, b. split_and!; try done.
  - destruct (head_change x Hp b l1 l2 (upd (on_rh (set_count_offset 9 (b_count b + 1)));; poke 9 [b_count b + 1]) (mkBlock (b_type b) (b_count b + 1) (b_stamps b) (b_key b))
      (on_rh (set_count_offset 9 (b_count b + 1)) (raw x)) St) as (z & E & Sz & Mz & Ez); try done.
    + intros n c q Hl. eapply (runs_bind _ _ _ _ tt _ (on_rh (set_count_offset 9 (b_count b + 1)) (raw x))); [by apply runs_set|done|].
      eapply runs_to; [apply runs_poke; [lia|simpl; lia]| |done]. apply (head_count b).
    + exists z, (mkBlock (b_type b) (b_count b + 1) (b_stamps b) (b_key b)). split_and!; try done. unfold same_key, in_width in *. simpl. split_and!; try done; lia.
Qed.

Lemma stamped_bind m1 m2 : stamped m1 -> stamped m2 -> stamped (m1;; m2).
Proof.
  intros D1 D2 x Hp b l1 l2 St Hc. destruct (D1 x Hp b l1 l2 St Hc) as (y & b1 & E1 & S1 & K1 & M1 & H1). destruct (D2 y Hp b1 l1 l2 S1 ltac:(apply K1)) as (z & b2 & E2 & S2 & K2 & M2 & H2).
  exists z, b2. split_and!; [by erewrite rbind_go by exact E1|done| |by eapply block_moved_trans|congruence]. unfold same_key in *. destruct K1 as (? & ? & _), K2 as (? & ? & ?). split_and!; congruence || done.
Qed.

(** ** A node and the object *)

(** The node of [x] has block [b] with [rows]. *)
Record node_at (x : Process S) Hp b (rows : list RRow) : Prop := {
  na_rep : m_rep (rs (rstate x)) Hp;
  na_block : block_at (rs (rstate x)) Hp (vd x) (cols t) b rows;
  na_format : formatted (key_format t) b;
  na_table : Z.land (Z.shiftr (b_type b) 7) 1 = idx;
  na_good : Forall (good t) rows
}.

Definition put (z : RState S) (h n d : Z) (x : Process S) : Process S := set_vd h (set_counts_ n d (set_rstate z x)).

Lemma put_same (x : Process S) : x = put (rstate x) (vd x) (rows_count_ x) (dirty_rows_count_ x) x.
Proof. by destruct x. Qed.

(** Two results, where the second one starts from the end of a first part. *)
Lemma some_put {A} z h n d n1 d1 z1 h1 n' d' (x : Process S) (a a' : A) : a = a' -> n = n' -> d = d' ->
  Some (a, put z h n d (put z1 h1 n1 d1 x)) = Some (a', put z h n' d' x).
Proof. by intros -> -> ->. Qed.

Ltac put_eq := apply some_put; [f_equal; lia|cbn -[Z.of_nat]; lia|cbn -[Z.of_nat]; lia].

Lemma attach_node (x : Process S) Hp b rows : node_at x Hp b rows ->
  exists z, run (do_attach (raw_def get_def) (vd x)) x = Some (0, set_rstate z x) /\ standing z Hp b [] rows /\ handle_ (rm (raw z)) = vd x /\ others_kept (vd x) Hp (rstate x) z
  /\ row_count_ (rc (raw z)) = Z.of_nat (length rows).
Proof.
  intros [R Hb F Ei G]. rewrite <- stored_cols in Hb. destruct (do_attach_spec (raw_def get_def) (rstate x) Hp Rt (vd x) b rows R Hb F) as (z & r & E & Ho & As & Eh & Ef & K & Ec).
  { unfold raw_def. by rewrite Ei, Hg. }
  pose proof (holds_raw_of _ _ _ _ _ _ Ho) as Er. exists z. split_and!; [unfold run; by rewrite E| |by rewrite Er|done|].
  - destruct As. split; rewrite Er; try done; [|by rewrite Ef, Ei]. unfold row_at. rewrite as_off, as_start. simpl. rewrite Z.add_0_r. done.
  - rewrite Er. destruct Ho as (? & ? & _ & Sh). apply Sh.
Qed.

(** The object is attached to the block with [rows]. *)
Definition attached x Hp b (rows : list RRow) : Prop := holds x Hp Rt b rows (raw x) /\ rf (raw x) = format_of Rt idx.

Lemma standing_attached x Hp b l1 l2 : standing x Hp b l1 l2 -> attached x Hp b (l1 ++ l2).
Proof. by intros []. Qed.

Lemma attached_fields x Hp b rows : attached x Hp b rows -> row_fields Rt (raw x) = cols t.
Proof. intros [_ Ef]. unfold row_fields. rewrite Ef. exact stored_cols. Qed.

Lemma leave_node (x : Process S) Hp b rows b0 : attached (rstate x) Hp b rows -> vd x = handle_ (rm (raw (rstate x))) -> same_key b0 b -> formatted (key_format t) b0 ->
  Z.land (Z.shiftr (b_type b0) 7) 1 = idx -> Forall (good t) rows -> node_at x Hp b rows.
Proof.
  intros A Ev (Ek & Et & Hc) F Ei G. split; [|rewrite Ev, <- (attached_fields _ _ _ _ A); apply holds_block, A| |by rewrite Et|done].
  - destruct A as [(? & ? & V & _) _]. apply V.
  - destruct F. split; rewrite ?Et, ?Ek; try done. unfold key_sized in *. by rewrite Ek.
Qed.

Lemma same_key_refl b : in_width 8 (b_count b) -> same_key b b.
Proof. done. Qed.

Lemma run_stamped (m : rprog S unit) (x : Process S) Hp b l1 l2 : stamped m -> standing (rstate x) Hp b l1 l2 -> in_width 8 (b_count b) ->
  exists z b', run m x = Some (tt, set_rstate z x) /\ standing z Hp b' l1 l2 /\ same_key b b' /\ moved (rstate x) Hp z Hp /\ handle_ (rm (raw z)) = handle_ (rm (raw (rstate x))).
Proof. intros D St Hc. destruct (D _ _ _ _ _ St Hc) as (z & b' & E & O). exists z, b'. split; [unfold run; by rewrite E|done]. Qed.

(** The two stamps a change leaves. *)
Lemma touch_node hour (x : Process S) Hp b l1 l2 : standing (rstate x) Hp b l1 l2 -> in_width 8 (b_count b) ->
  exists z b', touch hour x = Some (tt, set_rstate z x) /\ standing z Hp b' l1 l2 /\ same_key b b' /\ moved (rstate x) Hp z Hp /\ handle_ (rm (raw z)) = handle_ (rm (raw (rstate x))).
Proof.
  intros St Hc. destruct (run_stamped _ _ _ _ _ _ (access_time_stamped hour) St Hc) as (z1 & b1 & E1 & S1 & K1 & M1 & H1). unfold touch. erewrite pbind_go by exact E1.
  destruct (run_stamped _ (set_rstate z1 x) _ _ _ _ (update_time_stamped hour) S1 ltac:(apply K1)) as (z2 & b2 & E2 & S2 & K2 & M2 & H2). exists z2, b2.
  split_and!; [exact E2|done| |by eapply block_moved_trans|simpl in H2; congruence]. destruct K1 as (? & ? & _), K2 as (? & ? & ?). split_and!; congruence || done.
Qed.

(** Where the heap is the same, the block has not moved. *)
Lemma same_heap x Hp b1 l1 y b2 l2 : holds x Hp Rt b1 l1 (raw x) -> holds y Hp Rt b2 l2 (raw y) -> moved x Hp y Hp -> handle_ (rm (raw y)) = handle_ (rm (raw x)).
Proof.
  intros (? & ? & V1 & _) (? & ? & V2 & _) [C _]. destruct (decide (handle_ (rm (raw y)) = handle_ (rm (raw x)))) as [|Hne]; [done|].
  pose proof (f_equal (lookup (handle_ (rm (raw x)))) C) as E. rewrite lookup_delete_eq, lookup_delete_ne, (vw_block _ _ _ _ V1) in E by done. done.
Qed.

(** ** Deleting rows *)

Definition dirty_rows (l : list RRow) : list RRow := List.filter (fun row => is_dirty_row row.1) l.

Lemma delete_loop_spec (o : DTCJobOperation) (key : RowValue) (sel : RRow -> bool) b : length key = k ->
  forall l2 l1 (x : Process S) Hp (task node : RowValue) a, standing (rstate x) Hp b l1 l2 -> Forall (good t) l2 -> vd x = handle_ (rm (raw (rstate x))) -> job_op x = o ->
  Forall (fun row => compare_row t o (shown key row) = Some (sel row)) l2 -> length node = length (stored_fields_of t) -> take k node = key ->
  exists z, let gone := List.filter sel l2 in
  delete_loop (length l2) true t t task node a x = Some (inr (a + Z.of_nat (length gone)),
    put z (vd x) (rows_count_ x - Z.of_nat (length gone)) (dirty_rows_count_ x - Z.of_nat (length (dirty_rows gone))) x)
  /\ standing z Hp b (l1 ++ List.filter (fun row => negb (sel row)) l2) [] /\ handle_ (rm (raw z)) = vd x /\ moved (rstate x) Hp z Hp.
Proof.
  intros Hk. induction l2 as [|row l2 IH]; intros l1 x Hp task node a St G Ev Eo Hs Hl Ek.
  - exists (rstate x). cbn [delete_loop length List.filter dirty_rows]. rewrite !Z.add_0_r, !Z.sub_0_r, <- put_same, app_nil_r. by split_and!.
  - inversion G as [|? ? Gr G']; subst. inversion Hs as [|? ? Hc Hs']; subst. cbn [length delete_loop].
    destruct (fetch_next x Hp b l1 row l2 node St Gr Hl) as (z1 & E1 & S1 & R1 & M1 & Eh1). erewrite pbind_go by exact E1. cbn [negb Z.eqb].
    pose proof (shown_length _ _ Gr Hk) as Hl1. pose proof (shown_key _ row Hk) as Ek1. set (node1 := shown (take k node) row) in *. rewrite <- Ev in Eh1.
    erewrite pbind_go by reflexivity. erewrite pbind_go by reflexivity. erewrite pbind_go by (simpl; by rewrite Hc). cbn [List.filter]. destruct (sel row) eqn:Er; cbn [negb].
    + destruct (delete_cur_row_spec z1 Hp Rt b l1 row l2 (raw z1)) as (z2 & r2 & E2 & Ho2 & [Ef2 Eh2] & C2 & Eo2 & _); [destruct S1; by rewrite cons_middle, app_assoc|done|].
      pose proof (holds_raw_of _ _ _ _ _ _ Ho2) as Ez2. erewrite pbind_go by (unfold run; cbn [rstate set_rstate]; by rewrite E2). erewrite pbind_go by reflexivity. cbn [negb Z.eqb].
      assert (moved z1 Hp z2 Hp) as M2 by (unfold moved; by rewrite Ez2). rewrite <- Ez2 in Ho2.
      pose proof (same_heap _ _ _ _ _ _ _ (st_holds _ _ _ _ _ S1) Ho2 M2) as Eh3. rewrite Eh1, Ez2 in Eh3. rewrite Ez2 in Ho2. cbn [rstate set_rstate]. rewrite Ez2, Eh3.
      set (d := if is_dirty_row row.1 then -1 else 0).
      destruct (IH l1 (put z2 (vd x) (rows_count_ x + -1) (dirty_rows_count_ x + d) x) Hp node1 node1 (a + 1)) as (z & E & Sz & Hz & Mz); try done.
      * change (standing z2 Hp b l1 l2). destruct S1. split; rewrite ?Ez2, ?Ef2, ?Eh2; try done. unfold row_at, row_fields in *. rewrite Eo2, Ef2, Eh2. done.
      * cbn. by rewrite Ez2.
      * exists z. split_and!; [|done|done|by do 2 (eapply block_moved_trans; [done|])]. erewrite pbind_go by reflexivity.
        transitivity (delete_loop (length l2) true t t node1 node1 (a + 1) (put z2 (vd x) (rows_count_ x + -1) (dirty_rows_count_ x + d) x)).
        { unfold d. destruct (is_dirty_row row.1); erewrite pbind_go by reflexivity; [done|]. by rewrite Z.add_0_r. }
        rewrite E. unfold d, dirty_rows. cbn [List.filter length]. destruct (is_dirty_row row.1); cbn [length]; put_eq.
    + destruct (IH (l1 ++ [row]) (set_rstate z1 x) Hp node1 node1 a S1 G' ltac:(done) eq_refl Hs' Hl1 Ek1) as (z & E & Sz & Hz & Mz).
      exists z. rewrite <- app_assoc in Sz. split_and!; [exact E|done|done|by eapply block_moved_trans].
Qed.

(** The block shrinks to what is in use, and stays where it is. *)
Lemma strip_mem_spec x Hp b l1 l2 : standing x Hp b l1 l2 ->
  exists z Hp', strip_mem x = Some (Go 0, z) /\ standing z Hp' b l1 l2 /\ moved x Hp z Hp' /\ handle_ (rm (raw z)) = handle_ (rm (raw x)).
Proof.
  intros St. pose proof St as [(slack & bs & V & Sh) Eo Er Ek Ec Et Eg]. destruct (shape_bounds _ _ _ _ _ _ _ _ V Sh) as (Hst & Hsl & _ & Hsz & Hlen). pose proof (sp_limit _ _ _ _ _ _ Sh) as Hlim.
  set (r := raw x) in *. set (n := data_size_ (rc r)) in *.
  destruct (realloc_run x Hp bs r n V ltac:(lia)) as (h & y & E & O). destruct (view_size _ _ _ _ V) as (Hh & _).
  destruct (m_ReAlloc_shrink (rs x) Hp (handle_ (rm r)) (size_ (rm r)) n (vw_rep _ _ _ _ V) (vw_block _ _ _ _ V) ltac:(lia) ltac:(lia)) as (st & Est).
  assert (h = handle_ (rm r)) as -> by (unfold m_alloc in E; rewrite Est in E; by injection E).
  destruct O as [(N & _)|(_ & Hp' & bs' & m & E' & Hm & V' & Hk & C)]; [unfold INVALID_HANDLE in N; lia|].
  exists (mkR (rs y) (with_block (handle_ (rm r)) m r)), Hp'. unfold strip_mem. erewrite rbind_go by reflexivity. erewrite rbind_go by exact E.
  destruct (Z.eqb_spec (handle_ (rm r)) INVALID_HANDLE); [unfold INVALID_HANDLE in *; lia|]. erewrite rbind_go by exact E'. split_and!; [done| |done|done].
  split; try done. eexists _, bs'. split; [exact V'|]. apply (shape_moved Rt b (l1 ++ l2) slack bs bs' r); try done. apply (take_agree _ _ _ _ Hk). lia.
Qed.

(** ** The result section of a job *)

Lemma set_tag_lookup (s : SimpleSection) id v : length (tagValue s) = 20%nat -> 0 <= id < 20 -> tag_type (definition s) id <> DField.None ->
  exists s', set_tag id v s = Some s' /\ definition s' = definition s /\ length (tagValue s') = 20%nat /\ tagValue s' !! Z.to_nat id = Some v.
Proof.
  intros Hl Hi Hn. unfold set_tag, put_tag, SetTagMask. rewrite (proj2 (Z.eqb_neq _ _) Hn), Hl, (proj2 (Z.leb_le 0 id)), (proj2 (Z.ltb_lt id (Z.of_nat 20))) by lia.
  cbn [andb mbind option_bind Sections.fieldMask]. rewrite (proj2 (Z.ltb_lt id 24)) by lia.
  destruct (FIELD_ISSET id (Sections.fieldMask s)); (eexists; split; [reflexivity|]); cbn; rewrite length_insert, list_lookup_insert_eq by lia; auto.
Qed.

Lemma set_affected_rows_ok (o : DTCJobOperation) n : result_shape (job o) -> 0 <= n < 2 ^ 64 ->
  exists o', set_affected_rows n o = Some o' /\ result_shape (job o') /\ affected_rows o' = Some n /\ parts (job o') = parts (job o) /\ codes (job o') = codes (job o).
Proof.
  intros [Hd Hl] Hn. unfold set_affected_rows, on_resultInfo. destruct (set_tag_lookup (resultInfo (infos (job o))) 4 (VInt (s64_of n)) Hl ltac:(lia)) as (s & -> & Hd' & Hl' & E); [by rewrite Hd|].
  eexists. split; [reflexivity|]. split_and!; [split; cbn; congruence| |done|done]. unfold affected_rows, info_u64. cbn -[u64_of s64_of]. change 4%nat with (Z.to_nat 4). rewrite E. cbn -[u64_of s64_of].
  rewrite u64_s64, wrap_small; done.
Qed.

(** ** The beginning and the end of a request *)

Lemma attach_data_node (x : Process S) Hp b rows : node_at x Hp b rows ->
  exists z, attach_data get_def x = Some (0, set_rstate z x) /\ standing z Hp b [] rows /\ handle_ (rm (raw z)) = vd x /\ others_kept (vd x) Hp (rstate x) z.
Proof.
  intros N. destruct (attach_node x Hp b rows N) as (z & E & St & Eh & K & _). exists z. split_and!; try done. unfold attach_data. erewrite pbind_go by reflexivity. by erewrite pbind_go by exact E.
Qed.

Lemma total_rows_eq (x : Process S) Hp b l1 l2 : standing (rstate x) Hp b l1 l2 -> total_rows x = Some (length (l1 ++ l2), x).
Proof.
  intros [(? & ? & _ & Sh) _ _ _ _ _ _]. unfold total_rows. erewrite pbind_go by reflexivity. rewrite (sp_count _ _ _ _ _ _ Sh). by rewrite Nat2Z.id.
Qed.

Lemma node_table_eq (x : Process S) Hp b l1 l2 : standing (rstate x) Hp b l1 l2 -> node_table get_def x = Some (t, x).
Proof. intros St. unfold node_table. erewrite pbind_go by reflexivity. rewrite (st_form _ _ _ _ _ St). cbn. unfold try. by rewrite Hg. Qed.

Lemma task_table_eq (x : Process S) : task_table get_def idx x = Some (t, x).
Proof. unfold task_table, try. by rewrite Hg. Qed.

Lemma one_table_eq (x : Process S) Hp b l1 l2 : standing (rstate x) Hp b l1 l2 -> one_table idx x = Some (true, x).
Proof. intros St. unfold one_table. erewrite pbind_go by reflexivity. rewrite (st_form _ _ _ _ _ St). cbn. by rewrite Z.eqb_refl. Qed.

(** The rows of block [b] at [vd x] are now [rows] at [vd y]; the other blocks
    are as they were. *)
Definition changed (x : Process S) Hp b (y : Process S) Hp' rows : Prop :=
  exists b', node_at y Hp' b' rows /\ same_key b b' /\ delete (vd y) Hp' = delete (vd x) Hp /\ others_kept (vd x) Hp (rstate x) (rstate y).

Lemma changed_intro (x y : Process S) Hp b rows0 z Hp' b' l1 l2 : node_at x Hp b rows0 -> handle_ (rm (raw z)) = vd x -> others_kept (vd x) Hp (rstate x) z -> moved z Hp (rstate y) Hp' ->
  standing (rstate y) Hp' b' l1 l2 -> vd y = handle_ (rm (raw (rstate y))) -> same_key b b' -> Forall (good t) (l1 ++ l2) -> changed x Hp b y Hp' (l1 ++ l2).
Proof.
  intros [R Hb F Ei _] Ez K [C1 C2] St Ev Sk G. exists b'. split_and!; [by eapply leave_node; first apply standing_attached|done|by rewrite Ev, C1, Ez|]. rewrite Ez in C2. intros w Hw. rewrite C2, K by done. done.
Qed.

Lemma blank_key : take k (new_row t) = replicate k VZero.
Proof. unfold new_row. rewrite take_replicate. f_equal. destruct Ht. lia. Qed.

Lemma new_row_length : length (new_row t) = length (stored_fields_of t).
Proof. unfold new_row. rewrite length_replicate. by destruct Ht. Qed.

(** ** do_delete *)

(** Is the number of rows deleted what the job answers?  It is unless another
    part of the server has set it. *)
Definition counts_here (o : DTCJobOperation) (a0 : Z) : bool :=
  (a0 =? 0) || match conditionInfo (parts (job o)) with Some c => has_type_timestamp c | None => false end.

Lemma delete_tail hour (x : Process S) Hp b l1 : standing (rstate x) Hp b l1 [] -> vd x = handle_ (rm (raw (rstate x))) -> in_width 8 (b_count b) ->
  exists z b', (n ← total_rows; (if Nat.ltb 0 n then touch hour else mret tt);; mret 0) x = Some (0, set_rstate z x) /\ standing z Hp b' l1 [] /\ same_key b b' /\ moved (rstate x) Hp z Hp
  /\ handle_ (rm (raw z)) = vd x.
Proof.
  intros St Ev Hc. erewrite pbind_go by (by eapply total_rows_eq). destruct (Nat.ltb 0 _).
  - destruct (touch_node hour x Hp b l1 [] St Hc) as (z & b' & E & Sz & Kz & Mz & Hz). erewrite pbind_go by exact E. exists z, b'. split_and!; try done. congruence.
  - exists (rstate x), b. split_and!; try done. by destruct x.
Qed.

Lemma delete_affected (x : Process S) Hp b l1 c a0 : standing (rstate x) Hp b l1 [] -> result_shape (job (job_op x)) -> affected_rows (job_op x) = Some a0 -> 0 <= c < 2 ^ 64 ->
  exists o z Hp', (o ← gets job_op; a ← try (affected_rows o);
    (if (a =? 0) || match conditionInfo (parts (job o)) with Some c => has_type_timestamp c | None => false end then set_affected c else mret tt);; run strip_mem;; mret tt) x
    = Some (tt, set_rstate z (set_job_op o x))
  /\ standing z Hp' b l1 [] /\ moved (rstate x) Hp z Hp' /\ handle_ (rm (raw z)) = handle_ (rm (raw (rstate x)))
  /\ affected_rows o = Some (if counts_here (job_op x) a0 then c else a0).
Proof.
  intros St Hr Ha Hc. destruct (strip_mem_spec _ _ _ _ _ St) as (z & Hp' & Es & Sz & Mz & Hz). erewrite pbind_go by reflexivity. erewrite pbind_go by (unfold try; by rewrite Ha).
  fold (counts_here (job_op x) a0). destruct (counts_here (job_op x) a0).
  - destruct (set_affected_rows_ok (job_op x) c Hr Hc) as (o & Eo & _ & Ea & _). exists o, z, Hp'. split_and!; try done.
    erewrite (pbind_go _ _ x tt (set_job_op o x)); [|unfold set_affected; erewrite pbind_go by reflexivity; erewrite pbind_go by (unfold try; by rewrite Eo); done].
    erewrite pbind_go by (unfold run; cbn [rstate set_job_op]; by rewrite Es). done.
  - exists (job_op x), z, Hp'. split_and!; try done. erewrite pbind_go by reflexivity. erewrite pbind_go by (unfold run; by rewrite Es). by destruct x.
Qed.

Lemma do_delete_spec hour (x : Process S) Hp b rows (sel : RRow -> bool) a0 (gone := List.filter sel rows) : node_at x Hp b rows ->
  result_shape (job (job_op x)) -> affected_rows (job_op x) = Some a0 ->
  Forall (fun row => compare_row t (job_op x) (shown (replicate k VZero) row) = Some (sel row)) rows ->
  exists (y : Process S) Hp', do_delete get_def idx hour x = Some (0, y) /\ changed x Hp b y Hp' (List.filter (fun row => negb (sel row)) rows) /\ vd y = vd x
  /\ rows_count_ y = - Z.of_nat (length gone) /\ dirty_rows_count_ y = - Z.of_nat (length (dirty_rows gone))
  /\ affected_rows (job_op y) = Some (if (0 <? Z.of_nat (length gone)) && counts_here (job_op x) a0 then Z.of_nat (length gone) else a0).
Proof.
  intros N Hr Ha Hs. unfold do_delete. erewrite pbind_go by reflexivity. set (x0 := set_counts_ 0 0 x). assert (node_at x0 Hp b rows) as N0 by (by destruct N; split).
  destruct (attach_data_node x0 Hp b rows N0) as (z & E & St & Eh & K). erewrite pbind_go by exact E. cbn [negb Z.eqb].
  erewrite pbind_go by (by eapply total_rows_eq). erewrite pbind_go by (by eapply node_table_eq). erewrite pbind_go by apply task_table_eq. erewrite pbind_go by (by eapply one_table_eq).
  pose proof (na_format _ _ _ _ N) as F. assert (in_width 8 (b_count b)) as Hc by (destruct F; unfold in_width; lia).
  destruct (delete_loop_spec (job_op x) (replicate k VZero) sel b ltac:(apply length_replicate) rows [] (set_rstate z x0) Hp (new_row t) (new_row t) 0 St (na_good _ _ _ _ N)) as (z1 & E1 & S1 & H1 & M1);
    try done; [by apply new_row_length|apply blank_key|]. fold gone in E1. erewrite pbind_go by exact E1. clear E E1. cbv beta iota. rewrite Z.add_0_l.
  set (c := Z.of_nat (length gone)) in *. set (x1 := put z1 _ _ _ _). simpl app in *.
  assert (Forall (good t) (List.filter (fun row => negb (sel row)) rows ++ [])) as G. { rewrite app_nil_r. apply Forall_forall. intros row Hin. apply list_elem_of_In, filter_In in Hin as [Hin _]. apply list_elem_of_In in Hin. by eapply Forall_forall in Hin; [|exact (na_good _ _ _ _ N)]. }
  assert (forall (y : Process S) z2 Hp2, rstate y = z2 -> vd y = vd x -> standing z2 Hp2 b (List.filter (fun row => negb (sel row)) rows) [] -> moved z1 Hp z2 Hp2 -> handle_ (rm (raw z2)) = vd x ->
    exists z3, (n ← total_rows; (if Nat.ltb 0 n then touch hour else mret tt);; mret 0) y = Some (0, set_rstate z3 y) /\ changed x Hp b (set_rstate z3 y) Hp2 (List.filter (fun row => negb (sel row)) rows)) as Fin.
  { intros y z2 Hp2 Ey Ev S2 M2 H2. subst z2. destruct (delete_tail hour y Hp2 b _ S2 ltac:(congruence) Hc) as (z3 & b3 & E3 & S3 & K3 & M3 & H3). exists z3. split; [exact E3|]. rewrite <- (app_nil_r (List.filter _ rows)).
    eapply (changed_intro x (set_rstate z3 y) Hp b rows z Hp2 b3); [done|done|done| |done|cbn; congruence|done|done]. cbn. do 2 (eapply block_moved_trans; [done|]). done. }
  destruct (Z.ltb_spec 0 c) as [Hpos|Hz]; cbn [andb].
  - assert (0 <= c < 2 ^ 64) as Hc64. { destruct (na_block _ _ _ _ N) as (? & ? & _ & _ & _ & _ & Hlim). rewrite length_app in Hlim. pose proof (body_rows (cols t) rows). pose proof (filter_length_le sel rows). unfold c, gone in *. lia. }
    destruct (delete_affected x1 Hp b (List.filter (fun row => negb (sel row)) rows) c a0 S1 Hr Ha Hc64) as (o & z2 & Hp2 & E2 & S2 & M2 & H2 & Ea). erewrite pbind_go by exact E2.
    destruct (Fin (set_rstate z2 (set_job_op o x1)) z2 Hp2 eq_refl eq_refl S2 M2 ltac:(rewrite H2; exact H1)) as (z3 & E3 & C3). exists (set_rstate z3 (set_job_op o x1)), Hp2. done.
  - destruct (Fin x1 z1 Hp eq_refl eq_refl S1 ltac:(by apply carried_refl) H1) as (z3 & E3 & C3). exists (set_rstate z3 x1), Hp. erewrite pbind_go by reflexivity. done.
Qed.

(** ** do_get *)

(** The key of a row, as the job has it. *)
Definition job_key (o : DTCJobOperation) (key : RowValue) : Prop :=
  match multi_key o with Some mk => (k <= length mk)%nat /\ key = take k mk | None => k = 1%nat /\ exists v, request_key o = Some v /\ key = [v] end.

Lemma update_key_row o key (node : RowValue) : job_key o key -> length node = length (stored_fields_of t) -> update_key t o node = Some (key ++ drop k node) /\ length key = k.
Proof.
  unfold job_key, update_key. intros Hj Hl. assert (k <= length node)%nat as Hk by (destruct Ht; lia). destruct (multi_key o) as [mk|].
  - destruct Hj as [Hm ->]. rewrite (proj2 (Nat.leb_le _ _) Hm), (proj2 (Nat.leb_le _ _) Hk). split; [done|]. rewrite length_take. lia.
  - destruct Hj as [Hk1 (v & -> & ->)]. rewrite Hk1 in *. destruct node; [simpl in *; lia|]. done.
Qed.

Lemma update_expire_length now (row row' : RowValue) : update_expire_time t now row = Some row' -> length row' = length row.
Proof.
  unfold update_expire_time. cbv zeta. destruct (0 <? _); [|by intros [= ->]]. destruct (row !! _) as [v|]; [|done]. cbn [mbind option_bind]. destruct (get_s64 v) as [z|]; [|done]. cbn [mbind option_bind].
  intros [= <-]. destruct (0 <? z); [apply length_insert|done].
Qed.

Lemma filter_every {A} (f : A -> bool) l : Forall (fun a => f a = true) l -> List.filter f l = l.
Proof. induction 1 as [|a l Ha _ IH]; [done|]. cbn. by rewrite Ha, IH. Qed.

Section Get.

Context `{Text} (realloc_ok : Z -> bool) (now : Z).

Lemma get_loop_spec (o : DTCJobOperation) (key : RowValue) (sel : RRow -> bool) (out : RRow -> RowValue) b laid total : job_key o key -> laid <= 0 ->
  forall l2 l1 (x : Process S) Hp (task node : RowValue) p q w, standing (rstate x) Hp b l1 l2 -> Forall (good t) l2 -> job_op x = o ->
  Forall (fun row => compare_row t o (shown key row) = Some (sel row) /\ update_expire_time t now (shown key row) = Some (out row)) l2 ->
  length node = length (stored_fields_of t) -> resultWriter x = Some p -> resultWriterReseted x = w -> limits_ok p -> counted p -> 0 <= totalRows p -> totalRows p + Z.of_nat (length l2) < 2 ^ 32 ->
  (all_rows o = true -> total = totalRows p + Z.of_nat (length l2)) ->
  append_rows realloc_ok t (out <$> List.filter sel l2) p = Some q ->
  exists z m1 m2, get_loop realloc_ok now (length l2) true t t task node laid total x = Some (inr tt, set_writer (Some q) w (set_rstate z x)) /\ l1 ++ l2 = m1 ++ m2
  /\ standing z Hp b m1 m2 /\ moved (rstate x) Hp z Hp /\ handle_ (rm (raw z)) = handle_ (rm (raw (rstate x))).
Proof.
  intros Hj Hla. induction l2 as [|row l2 IH]; intros l1 x Hp task node p q w St G Eo Hs Hl Ep Ew L C Hp0 Hn Hall Ea.
  - exists (rstate x), l1, []. cbn in Ea. simplify_eq/=. split_and!; try done. rewrite <- Ep. by destruct x.
  - inversion G as [|? ? Gr G']; subst. inversion Hs as [|? ? [Hc Hx] Hs']; subst. cbn [length get_loop] in *. erewrite pbind_go by reflexivity.
    destruct (update_key_row (job_op x) key node Hj Hl) as [Euk Hk]. erewrite pbind_go by (unfold try; by rewrite Euk).
    assert (length (key ++ drop k node) = length (stored_fields_of t)) as Hl0 by (rewrite length_app, length_drop; destruct Ht; lia).
    destruct (fetch_next x Hp b l1 row l2 (key ++ drop k node) St Gr Hl0) as (z1 & E1 & S1 & R1 & M1 & Eh1). rewrite take_app_length' in E1 by done. erewrite pbind_go by exact E1. cbn [negb Z.eqb].
    pose proof (shown_length _ _ Gr Hk) as Hl1. erewrite pbind_go by reflexivity. erewrite pbind_go by (unfold try; by rewrite Hc). cbn [List.filter] in Ea.
    destruct (sel row) eqn:Er; cbn [negb fmap list_fmap append_rows] in *.
    + destruct (append_row realloc_ok t (out row) p) as [[c p1]|] eqn:E2; [cbn [mbind option_bind] in Ea|done].
      destruct (append_row_counts _ _ _ _ _ _ E2 L C ltac:(lia)) as (L1 & C1 & T1).
      erewrite (pbind_go _ _ _ (out row) (set_rstate z1 x)) by (destruct (0 <? hasExpireTime (marks t)) eqn:Ex; [unfold try; by rewrite Hx|unfold update_expire_time in Hx; rewrite Ex in Hx; by injection Hx as ->]).
      set (x2 := set_writer (Some p1) (resultWriterReseted x) (set_rstate z1 x)).
      erewrite (pbind_go _ _ _ c x2) by (unfold with_writer; erewrite pbind_go by reflexivity; cbn; rewrite Ep; unfold try; by erewrite pbind_go by (by rewrite E2)).
      rewrite (proj2 (Z.ltb_ge 0 laid) Hla), andb_false_r. erewrite pbind_go by reflexivity.
      erewrite (pbind_go _ _ _ (is_full p1) x2) by reflexivity. destruct (all_rows (job_op x) && is_full p1) eqn:Ef.
      * apply andb_true_iff in Ef as [Ef1 Ef2]. specialize (Hall Ef1). rewrite (filter_every sel l2) in Ea by (eapply Forall_impl; [exact Hs'|]; intros r [Hr _]; unfold compare_row in Hr; rewrite Ef1 in Hr; congruence).
        pose proof (append_rows_full _ _ _ _ _ Ea L1 C1 Ef2 ltac:(lia) ltac:(rewrite length_fmap; lia)) as Es. rewrite length_fmap, T1 in Es.
        replace (totalRows p + 1 + Z.of_nat (length l2)) with total in Es by lia.
        exists z1, (l1 ++ [row]), l2. split_and!; [|by rewrite <- app_assoc|done|done|done]. erewrite (pbind_go _ _ x2 0 (set_writer (Some q) (resultWriterReseted x) (set_rstate z1 x))); [reflexivity|].
        unfold set_total_rows, with_writer. erewrite pbind_go by reflexivity. cbn [resultWriter set_writer x2]. by erewrite pbind_go by (unfold try; by rewrite Es).
      * destruct (IH (l1 ++ [row]) x2 Hp (out row) (out row) p1 q (resultWriterReseted x) S1 G' eq_refl Hs') as (z & m1 & m2 & E & Em & Sz & Mz & Hz); try done; try lia.
        { by rewrite (update_expire_length _ _ _ Hx). }
        { intros A. rewrite (Hall A). lia. }
        exists z, m1, m2. rewrite <- app_assoc in Em. split_and!; [exact E|done|done|by eapply block_moved_trans|cbn in Hz; congruence].
    + destruct (IH (l1 ++ [row]) (set_rstate z1 x) Hp (shown key row) (shown key row) p q (resultWriterReseted x) S1 G' eq_refl Hs' Hl1 Ep eq_refl L C Hp0 ltac:(lia)) as (z & m1 & m2 & E & Em & Sz & Mz & Hz); [|done|].
      * intros A. unfold compare_row in Hc. rewrite A in Hc. congruence.
      * exists z, m1, m2. rewrite <- app_assoc in Em. split_and!; [exact E|done|done|by eapply block_moved_trans|cbn in Hz; congruence].
Qed.

Lemma new_result_ok fs st cnt (p := new_result fs st cnt) : 0 <= st -> 0 <= cnt -> st + cnt < 2 ^ 32 -> limits_ok p /\ counted p /\ totalRows p = 0.
Proof.
  intros Hs Hc Hl. unfold limits_ok, counted, shown_of, p, new_result. cbn [limitStart limitNext totalRows numRows]. rewrite wrap_small by (unfold in_width; zcase; lia). split_and!; [zcase; lia..| |done].
  intros _. zcase; lia.
Qed.

Lemma prepare_result_new (x : Process S) st ct : resultWriter x = None -> limit_start (job_op x) = Some st -> limit_count (job_op x) = Some ct ->
  prepare_result x = Some (tt, set_writer (Some (new_result (fieldList (parts (job (job_op x)))) st ct)) true x).
Proof.
  intros Ew Es Ec. unfold prepare_result. do 2 (erewrite pbind_go by reflexivity). rewrite Ew. erewrite pbind_go by reflexivity. erewrite pbind_go by (unfold try; by rewrite Es). by erewrite pbind_go by (unfold try; by rewrite Ec).
Qed.

Lemma ask_writer {A} (x : Process S) p (f : ResultPacket -> A) : resultWriter x = Some p -> with_writer (fun p => Some (f p, p)) x = Some (f p, x).
Proof. intros E. destruct x. simpl in E. by subst. Qed.

(** The answer has the selected rows, whichever way it is made. *)
Lemma get_rows_spec (x : Process S) Hp b rows key (sel : RRow -> bool) (out : RRow -> RowValue) laid p q w (o := job_op x) : standing (rstate x) Hp b [] rows -> Forall (good t) rows ->
  job_key o key -> laid <= 0 -> resultWriter x = Some p -> resultWriterReseted x = w -> limits_ok p -> counted p -> totalRows p = 0 -> Z.of_nat (length rows) < 2 ^ 32 ->
  (exists st ct, 0 <= st /\ 0 <= ct /\ st + ct < 2 ^ 32 /\ p = new_result (fieldList (parts (job o))) st ct) ->
  Forall (fun row => compare_row t o (shown key row) = Some (sel row) /\ update_expire_time t now (shown key row) = Some (out row)) rows ->
  append_rows realloc_ok t (out <$> List.filter sel rows) p = Some q ->
  exists z m1 m2, get_rows realloc_ok get_def idx now false (length rows) o t laid x = Some (inr tt, set_writer (Some q) w (set_rstate z x)) /\ rows = m1 ++ m2
  /\ standing z Hp b m1 m2 /\ moved (rstate x) Hp z Hp /\ handle_ (rm (raw z)) = handle_ (rm (raw (rstate x))).
Proof.
  intros St G Hj Hla Ep Ew L C T Hn (st & ct & Hs & Hc & Hl & Enew) Hr Ea. unfold get_rows. cbv zeta.
  erewrite pbind_go by (by apply (ask_writer x p)).
  destruct (all_rows o && (count_only o || negb (in_range p (Z.of_nat (length rows)) 0))) eqn:Ef.
  - apply andb_true_iff in Ef as [Eall Eshort].
    rewrite (filter_every sel rows) in Ea by (eapply Forall_impl; [exact Hr|]; intros r [Hr1 _]; unfold compare_row in Hr1; rewrite Eall in Hr1; congruence).
    assert (set_rows (Z.of_nat (length rows)) p = (0, q)) as E.
    { rewrite Enew in Ea. pose proof (append_rows_short realloc_ok t _ _ st ct q Ea Hs Hc Hl) as D. rewrite length_fmap, <- Enew in D. apply D; [lia|]. apply orb_true_iff in Eshort as [E1|E1]; [left|right; by apply negb_true_iff in E1].
      unfold count_only in E1. by destruct (fieldList _). }
    exists (rstate x), [], rows. split_and!; try done. erewrite (pbind_go _ _ x tt (set_writer (Some q) w x)); [by destruct x|].
    erewrite (pbind_go _ _ x 0 (set_writer (Some q) w x)); [done|]. unfold set_total_rows, with_writer. erewrite pbind_go by reflexivity. rewrite Ep. erewrite pbind_go by (unfold try; by rewrite E). by rewrite <- Ew.
  - erewrite pbind_go by (by eapply node_table_eq). erewrite pbind_go by (by eapply one_table_eq).
    destruct (get_loop_spec o key sel out b laid (Z.of_nat (length rows)) Hj Hla rows [] x Hp (new_row t) (new_row t) p q w St G eq_refl Hr new_row_length Ep Ew L C) as (z & m1 & m2 & E & Em & O); try done; try lia.
    by exists z, m1, m2.
Qed.

Lemma do_get_spec hour (x : Process S) Hp b rows st ct key (sel : RRow -> bool) (out : RRow -> RowValue) q (o := job_op x) (p := new_result (fieldList (parts (job o))) st ct) :
  node_at x Hp b rows -> resultWriter x = None -> limit_start o = Some st -> limit_count o = Some ct -> 0 <= st -> 0 <= ct -> st + ct < 2 ^ 32 ->
  flag_no_cache o = true \/ hasLastacc (marks t) <= 0 -> job_key o key ->
  Forall (fun row => compare_row t o (shown key row) = Some (sel row) /\ update_expire_time t now (shown key row) = Some (out row)) rows ->
  append_rows realloc_ok t (out <$> List.filter sel rows) p = Some q ->
  exists y : Process S, do_get realloc_ok get_def idx hour now false x = Some (0, y) /\ changed x Hp b y Hp rows /\ resultWriter y = Some q /\ vd y = vd x /\ job_op y = o
  /\ rows_count_ y = 0 /\ dirty_rows_count_ y = 0.
Proof.
  intros N Ew Es Ec Hs Hc Hl Hla Hj Hr Ea. unfold do_get. erewrite pbind_go by reflexivity. erewrite pbind_go by reflexivity. erewrite pbind_go by apply task_table_eq. cbv zeta.
  set (x0 := set_counts_ 0 0 x). set (laid := if flag_no_cache _ then _ else _). assert (laid <= 0) as Hlaid. { unfold laid. change (job_op x0) with o. destruct (flag_no_cache o); [lia|]. destruct Hla; [done|lia]. }
  assert (node_at x0 Hp b rows) as N0 by (by destruct N; split). destruct (attach_node x0 Hp b rows N0) as (z & E & St & Eh & K & _). erewrite pbind_go by reflexivity. erewrite pbind_go by exact E. cbn [negb Z.eqb].
  erewrite pbind_go by (by eapply total_rows_eq). cbn [app]. clear E. pose proof (na_format _ _ _ _ N) as F. assert (in_width 8 (b_count b)) as Hcount by (destruct F; unfold in_width; lia).
  assert (Z.of_nat (length rows) < 2 ^ 31) as Hlen. { destruct (na_block _ _ _ _ N) as (? & ? & _ & _ & _ & _ & Hlim). rewrite length_app in Hlim. pose proof (body_rows (cols t) rows). lia. }
  erewrite pbind_go by (by apply prepare_result_new). set (x1 := set_writer (Some p) true (set_rstate z x0)). destruct (new_result_ok (fieldList (parts (job o))) st ct Hs Hc Hl) as (L & C & T). fold p in L, C, T.
  destruct (get_rows_spec x1 Hp b rows key sel out laid p q true) as (z2 & m1 & m2 & E2 & Em & S2 & M2 & H2); try done; try lia; [by destruct N|by exists st, ct|].
  erewrite pbind_go by exact E2. clear E2. cbv beta iota. destruct (run_stamped _ (set_writer (Some q) true (set_rstate z2 x1)) _ _ _ _ (access_time_stamped hour) S2 Hcount) as (z3 & b3 & E3 & S3 & K3 & M3 & H3). erewrite pbind_go by exact E3.
  destruct (run_stamped _ (set_rstate z3 (set_writer (Some q) true (set_rstate z2 x1))) _ _ _ _ select_count_stamped S3 ltac:(apply K3)) as (z4 & b4 & E4 & S4 & K4 & M4 & H4). erewrite pbind_go by exact E4.
  eexists. split; [reflexivity|]. split; [|done]. rewrite Em. eapply (changed_intro x _ Hp b rows z Hp b4 m1 m2); try done.
  - cbn. do 3 (eapply block_moved_trans; [done|]). done.
  - cbn. cbn in H2, H3, H4, Eh. congruence.
  - destruct K3 as (? & ? & _), K4 as (? & ? & ?). split_and!; congruence || done.
  - rewrite <- Em. by destruct N.
Qed.

End Get.

(** ** do_flush *)

(** A row that is no longer dirty. *)
Definition clean (row : RRow) : RRow := if is_dirty_row row.1 then (Z.land row.1 (Z.lnot OPER_DIRTY), row.2) else row.

Lemma clean_good row : good t row -> good t (clean row).
Proof.
  intros [Hw Hx]. unfold clean. destruct (is_dirty_row row.1); [|done]. split; [|done]. cbn [fst]. unfold in_width in *.
  assert (Z.land row.1 (Z.lnot OPER_DIRTY) = Z.land row.1 (Z.lnot OPER_DIRTY) mod 2 ^ 8) as ->; [|apply Z.mod_pos_bound; lia].
  rewrite <- Z.land_ones, <- Z.land_assoc, (Z.land_comm (Z.lnot _)), Z.land_assoc, Z.land_ones, Z.mod_small by lia. done.
Qed.

Lemma set_flag_next (x : Process S) Hp b l1 op vs l2 flag : standing (rstate x) Hp b (l1 ++ [(op, vs)]) l2 -> row_offset_ (rc (raw (rstate x))) = row_at Rt (raw (rstate x)) l1 ->
  exists z, run (set_cur_row_flag flag) x = Some (0, set_rstate z x) /\ standing z Hp b (l1 ++ [(flag, vs)]) l2 /\ moved (rstate x) Hp z Hp /\ raw z = raw (rstate x).
Proof.
  intros St Er. pose proof St as [Ho Eo ? ? ? ? ?]. rewrite <- app_assoc in Ho. destruct (set_cur_row_flag_spec (rstate x) Hp Rt b l1 op vs l2 _ flag Ho Er) as (z & E & Hz & C).
  pose proof (holds_raw_of _ _ _ _ _ _ Hz) as Ez. exists z. split_and!; [unfold run; by rewrite E| |unfold moved; by rewrite Ez|done].
  split; rewrite ?Ez; try done; [by rewrite <- app_assoc|]. rewrite Eo. unfold row_at. by rewrite !body_app, !body_one, !length_app.
Qed.

(** The rows up to [l2] are flushed; the first row of [l2] is refused. *)
Lemma flush_loop_spec (f : RowValue -> bool) (key : RowValue) b l2 : length key = k -> (forall row l, l2 = row :: l -> is_dirty_row row.1 = true /\ f (shown key row) = false) ->
  forall m l1 (x : Process S) Hp (row0 : RowValue) a, standing (rstate x) Hp b l1 (m ++ l2) -> Forall (good t) (m ++ l2) -> length row0 = length (stored_fields_of t) -> take k row0 = key ->
  Forall (fun row => is_dirty_row row.1 = true -> f (shown key row) = true) m ->
  exists z d1 d2, flush_loop (length (m ++ l2)) (Some f) t row0 a x = Some ((if l2 then 0 else -2, a + Z.of_nat (length (dirty_rows m))),
    set_flushed (flushed x ++ (shown key <$> dirty_rows m)) (put z (vd x) (rows_count_ x) (dirty_rows_count_ x - Z.of_nat (length (dirty_rows m))) x))
  /\ l1 ++ (clean <$> m) ++ l2 = d1 ++ d2 /\ standing z Hp b d1 d2 /\ moved (rstate x) Hp z Hp /\ handle_ (rm (raw z)) = handle_ (rm (raw (rstate x))).
Proof.
  intros Hk H2. induction m as [|row m IH]; intros l1 x Hp row0 a St G Hl Ek Hf.
  - cbn [app fmap list_fmap dirty_rows List.filter length]. rewrite Z.add_0_r, Z.sub_0_r, app_nil_r. destruct l2 as [|row l2].
    + exists (rstate x), l1, []. split_and!; try done. by destruct x.
    + destruct (H2 row l2 eq_refl) as [Hd Hr]. inversion G as [|? ? Gr G']; subst. cbn [app] in St. destruct (fetch_next x Hp b l1 row l2 row0 St Gr Hl) as (z1 & E1 & S1 & _ & M1 & Eh1).
      exists z1, (l1 ++ [row]), l2. split_and!; [|by rewrite <- app_assoc|done|done|done]. cbn [length flush_loop]. erewrite pbind_go by exact E1. cbn [negb Z.eqb]. rewrite Hd, Hr. cbn [negb]. by destruct x.
  - inversion G as [|? ? Gr G']; subst. inversion Hf as [|? ? Hr Hf']; subst. cbn [app length flush_loop] in *. destruct (fetch_next x Hp b l1 row (m ++ l2) row0 St Gr Hl) as (z1 & E1 & S1 & R1 & M1 & Eh1).
    erewrite pbind_go by exact E1. cbn [negb Z.eqb]. pose proof (shown_length _ _ Gr Hk) as Hl1. pose proof (shown_key _ row Hk) as Ek1. unfold dirty_rows. cbn [List.filter fmap list_fmap]. unfold clean at 1.
    destruct (is_dirty_row row.1) eqn:Ed; cbn [negb].
    + rewrite (Hr eq_refl). cbn [negb]. erewrite pbind_go by reflexivity. destruct row as [op vs]. cbn [fst snd] in *.
      set (x1 := set_flushed (flushed x ++ [shown (take k row0) (op, vs)]) (set_rstate z1 x)).
      destruct (set_flag_next x1 Hp b l1 op vs (m ++ l2) (Z.land op (Z.lnot OPER_DIRTY)) S1 R1) as (z2 & E2 & S2 & M2 & Er2). erewrite pbind_go by exact E2. erewrite pbind_go by reflexivity.
      set (x2 := set_counts_ _ _ _).
      destruct (IH (l1 ++ [(Z.land op (Z.lnot OPER_DIRTY), vs)]) x2 Hp _ (a + 1) S2 G' Hl1 Ek1 Hf') as (z & d1 & d2 & E & Ea & Sz & Mz & Hz).
      exists z, d1, d2. rewrite <- app_assoc in Ea. split_and!; [|done|done|by do 2 (eapply block_moved_trans; [done|])|cbn in Hz, Er2; congruence].
      rewrite E. cbn [length]. rewrite Nat2Z.inj_succ, <- Z.add_1_l, Z.add_assoc. do 2 f_equal. unfold put, set_flushed, set_vd, set_counts_. cbn -[Z.of_nat]. rewrite <- app_assoc. f_equal. unfold dirty_rows. lia.
    + destruct (IH (l1 ++ [row]) (set_rstate z1 x) Hp _ a S1 G' Hl1 Ek1 Hf') as (z & d1 & d2 & E & Ea & Sz & Mz & Hz). exists z, d1, d2. rewrite <- app_assoc in Ea.
      split_and!; [exact E|done|done|by eapply block_moved_trans|cbn in Hz; congruence].
Qed.

(** The key of the block. *)
Lemma peek_key x Hp b l1 l2 n : standing x Hp b l1 l2 -> 0 <= n <= Z.of_nat (length (b_key b)) -> peek 16 n x = Some (Go (take (Z.to_nat n) (b_key b)), x).
Proof.
  intros [(slack & bs & V & Sh) _ _ _ _ _ _] Hn. destruct (shape_bounds _ _ _ _ _ _ _ _ V Sh) as (_ & _ & _ & _ & Hlen). destruct (view_size _ _ _ _ V) as (_ & Hsz & _). pose proof Sh as [B1 _ _ _ _ B6 _].
  assert (16 + n <= size_ (rm (raw x))) as Hin. { rewrite B1, length_app, head_length, B6 in Hlen. lia. }
  destruct (runs_peek 16 n bs (raw x) ltac:(lia) ltac:(lia) Hin x Hp V) as (y & E & _). assert (y = x) as -> by (unfold peek in E; destruct (inside _ _ _); by simplify_eq). rewrite E. do 3 f_equal.
  rewrite B1, head_eq. set (p := [b_type b] ++ le_bytes 4 (data_size_ (rc (raw x))) ++ le_bytes 4 (row_count_ (rc (raw x))) ++ [b_count b] ++ b_stamps b).
  replace (([b_type b] ++ le_bytes 4 (data_size_ (rc (raw x))) ++ le_bytes 4 (row_count_ (rc (raw x))) ++ [b_count b] ++ b_stamps b ++ b_key b) ++ body (row_fields Rt (raw x)) (l1 ++ l2) ++ slack)
    with (p ++ b_key b ++ body (row_fields Rt (raw x)) (l1 ++ l2) ++ slack) by (unfold p; by rewrite <- !app_assoc).
  unfold part. replace (Z.to_nat 16) with (length p) by (unfold p; rewrite !length_app, !le_bytes_length, B6; done). rewrite drop_app_length, take_app_le by lia. done.
Qed.

Lemma raw_key_node (x : Process S) Hp b l1 l2 : standing (rstate x) Hp b l1 l2 -> formatted (key_format t) b -> raw_key x = Some (b_key b, x).
Proof.
  intros St F. assert (x = set_rstate (rstate x) x) as Ex by (by destruct x). unfold raw_key. erewrite pbind_go by reflexivity.
  assert (raw_key_size (rstate x) = Some (Go (Z.of_nat (length (b_key b))), rstate x)) as E.
  { unfold raw_key_size. erewrite rbind_go by reflexivity. rewrite (st_form _ _ _ _ _ St), (st_key _ _ _ _ _ St). cbn [key_size_ format_of]. change (RawData.key_format Rt) with (key_format t).
    destruct F as [_ _ _ Fk Fs]. unfold key_sized, key_len in Fk. assert (0 < length (b_key b))%nat by (destruct (b_key b); simpl; [done|lia]). destruct (Z.eqb_spec (key_format t) 0) as [->|Hn].
    - cbn [Z.ltb Z.compare]. erewrite rbind_go by (apply (peek_key _ _ _ _ _ 1 St); lia). change (Z.to_nat 1) with 1%nat. destruct (b_key b) as [|c l]; [done|]. cbn [take le_val hd] in *. rewrite Fk. by rewrite Z.mul_0_r, Z.add_0_r.
    - rewrite <- Fk. destruct (Z.ltb_spec 0 (Z.of_nat (length (b_key b)))); [done|lia]. }
  erewrite pbind_go by (unfold run; rewrite E; by rewrite <- Ex). unfold run. rewrite (st_key _ _ _ _ _ St), (peek_key _ _ _ _ _ _ St) by lia. rewrite Nat2Z.id, firstn_all. by rewrite <- Ex.
Qed.

Lemma do_flush_spec (f : RowValue -> bool) (x : Process S) Hp b m l2 key n0 : node_at x Hp b (m ++ l2) -> unpack_key t (b_key b) = Some key -> (k <= length key)%nat ->
  Forall (fun row => is_dirty_row row.1 = true -> f (shown (take k key) row) = true) m -> (forall row l, l2 = row :: l -> is_dirty_row row.1 = true /\ f (shown (take k key) row) = false) ->
  exists y : Process S, do_flush get_def t (Some f) true n0 x = Some ((if l2 then 0 else -2, Z.of_nat (length (dirty_rows m))), y) /\ changed x Hp b y Hp ((clean <$> m) ++ l2)
  /\ flushed y = flushed x ++ (shown (take k key) <$> dirty_rows m) /\ vd y = vd x /\ rows_count_ y = 0 /\ dirty_rows_count_ y = - Z.of_nat (length (dirty_rows m)).
Proof.
  intros N Hu Hk Hf H2. unfold do_flush. erewrite pbind_go by reflexivity. set (x0 := set_counts_ 0 0 x). assert (node_at x0 Hp b (m ++ l2)) as N0 by (by destruct N; split).
  destruct (attach_data_node x0 Hp b (m ++ l2) N0) as (z & E & St & Eh & K). erewrite pbind_go by exact E. cbn [negb Z.eqb]. erewrite pbind_go by (by eapply total_rows_eq). cbn [app].
  pose proof (na_format _ _ _ _ N) as F. erewrite pbind_go by (by eapply raw_key_node). erewrite pbind_go by (unfold try; by rewrite Hu).
  set (row0 := take k key ++ drop k (new_row t)).
  assert (length row0 = length (stored_fields_of t)) as Hl. { unfold row0. rewrite length_app, length_take, length_drop, new_row_length. destruct Ht. lia. }
  assert (length (take k key) = k) as Hk1 by (rewrite length_take; lia).
  destruct (flush_loop_spec f (take k key) b l2 Hk1 H2 m [] (set_rstate z x0) Hp row0 0 St (na_good _ _ _ _ N) Hl) as (z2 & d1 & d2 & E2 & Ed & S2 & M2 & Eh2); [by apply take_app_length'|done|].
  eexists. split; [exact E2|]. split; [|done]. cbn [app] in Ed. rewrite Ed. eapply (changed_intro x _ Hp b (m ++ l2) z Hp b d1 d2); try done.
  - cbn in Eh2, Eh |- *. congruence.
  - apply same_key_refl. destruct F. unfold in_width. lia.
  - rewrite <- Ed. destruct N as [_ _ _ _ G]. apply Forall_app in G as [G1 G2]. apply Forall_app. split; [|done]. apply Forall_fmap. eapply Forall_impl; [exact G1|]. intros row. apply clean_good.
Qed.

(** ** Changing a row, with a second try *)

Section Retry.

Context `{Purge S} `{!PurgeLaws S}.

(** [m] is tried again after the pond has made room. *)
Lemma with_purge_spec (m : proc S Z) (x : Process S) (ready : RState S -> heap -> Prop) (fine : Z -> RState S -> heap -> Prop) Hp :
  (forall z Hp, ready z Hp -> exists c z' Hp', m (set_rstate z x) = Some (c, set_rstate z' x) /\ (c = EC_NO_MEM /\ ready z' Hp' \/ c ≠ EC_NO_MEM /\ fine c z' Hp')) ->
  (forall z Hp n, ready z Hp -> exists c st Hp', try_purge_size n (vd x) (rs z) = Some (c, st) /\ ready (mkR st (raw z)) Hp') -> ready (rstate x) Hp ->
  exists c z Hp', with_purge m x = Some (c, set_rstate z x) /\ (c = EC_NO_MEM /\ ready z Hp' \/ c ≠ EC_NO_MEM /\ fine c z Hp').
Proof.
  intros Hm Hp1 Hr. assert (x = set_rstate (rstate x) x) as Ex by (by destruct x). destruct (Hm _ _ Hr) as (c & z & Hp' & E & O). rewrite <- Ex in E. unfold with_purge. erewrite pbind_go by exact E.
  destruct O as [[-> Hz]|[Hc Hz]].
  - rewrite Z.eqb_refl. unfold retry. erewrite pbind_go by reflexivity. erewrite pbind_go by reflexivity.
    destruct (Hp1 z Hp' (need_new_bufer_size (rm (raw z))) Hz) as (c2 & st & Hp2 & E2 & Hz2). erewrite pbind_go by (unfold on_pool; cbn [rstate set_rstate vd]; by rewrite E2).
    destruct (c2 =? 0); [exact (Hm _ _ Hz2)|]. exists EC_NO_MEM, (mkR st (raw z)), Hp2. split; [done|by left].
  - rewrite (proj2 (Z.eqb_neq _ _) Hc). exists c, z, Hp'. split; [done|by right].
Qed.

Lemma holds_purge x Hp b rows n : holds x Hp Rt b rows (raw x) -> exists c st Hp', try_purge_size n (handle_ (rm (raw x))) (rs x) = Some (c, st) /\ holds (mkR st (raw x)) Hp' Rt b rows (raw x).
Proof.
  intros (slack & bs & V & Sh). pose proof V as [V1 V2 V3 V4 V5]. destruct (try_purge_ok n _ _ _ _ V2 V3) as (c & st & Hp' & E & R & Hh & K). exists c, st, Hp'. split; [done|].
  exists slack, bs. split; [|done]. split; try done. cbn [rs]. rewrite <- V5. unfold load_bytes. apply list_fmap_ext. intros i j Hj. apply lookup_seq in Hj. apply K. destruct (view_size _ _ _ _ V). lia.
Qed.

Lemma standing_purge x Hp b l1 l2 n : standing x Hp b l1 l2 -> exists c st Hp', try_purge_size n (handle_ (rm (raw x))) (rs x) = Some (c, st) /\ standing (mkR st (raw x)) Hp' b l1 l2.
Proof. intros []. destruct (holds_purge x Hp b _ n st_holds0) as (c & st & Hp' & E & Ho). by exists c, st, Hp'. Qed.

(** The current row is [row], between [l1] and [l2]. *)
Definition at_row x Hp b l1 row l2 (h : Z) : Prop := standing x Hp b (l1 ++ [row]) l2 /\ row_offset_ (rc (raw x)) = row_at Rt (raw x) l1 /\ handle_ (rm (raw x)) = h.

Lemma at_row_purge x Hp b l1 row l2 h n : at_row x Hp b l1 row l2 h -> exists c st Hp', try_purge_size n h (rs x) = Some (c, st) /\ at_row (mkR st (raw x)) Hp' b l1 row l2 h.
Proof. intros (St & Er & <-). destruct (standing_purge _ _ _ _ _ n St) as (c & st & Hp' & E & St'). by exists c, st, Hp'. Qed.

(** The bytes of a block with [rows]. *)
Definition size_of b (rows : list RRow) : Z := Z.of_nat (length (head b 0 0 ++ body (cols t) rows)).

Lemma standing_size x Hp b l1 l2 : standing x Hp b l1 l2 -> data_size_ (rc (raw x)) = size_of b (l1 ++ l2).
Proof.
  intros St. pose proof (standing_fields _ _ _ _ _ St) as Ef. destruct St as [(slack & bs & V & [B1 B2 B3 B4 B5 B6 B7]) _ _ _ _ _ _]. unfold size_of. rewrite B3, B2, Ef, length_app. lia.
Qed.

Lemma replace_row_spec sys (async : bool) (x : Process S) b l1 row l2 (node : RowValue) vs (new := ((if async then OPER_UPDATE else row.1), vs) : RRow) : good t row -> lowered t node vs ->
  size_of b (l1 ++ row :: l2) + Z.of_nat (length (enc_row (cols t) new)) < 2 ^ 31 ->
  forall z Hp, at_row z Hp b l1 row l2 (vd x) ->
  exists c z' Hp', put_row (fun ws => replace_cur_row sys Rt ws async) t node (set_rstate z x) = Some (c, set_rstate z' x)
  /\ (c = EC_NO_MEM /\ at_row z' Hp' b l1 row l2 (vd x)
      \/ c ≠ EC_NO_MEM /\ (c ≠ 0 /\ attached z' Hp' b (l1 ++ row :: l2) \/ c = 0 /\ standing z' Hp' b (l1 ++ [new]) l2)).
Proof.
  intros [Hw Hg'] Lw Hsz z Hp (St & Er & Eh). pose proof (standing_fields _ _ _ _ _ St) as Ef. pose proof (standing_key _ _ _ _ _ St) as Ek. pose proof (standing_size _ _ _ _ _ St) as Es.
  rewrite <- app_assoc in Es. pose proof St as [Ho Eo Efm ? ? ? ?]. rewrite <- app_assoc in Ho. destruct row as [op vs0]. cbn [fst] in *. cbn [app] in *.
  set (row := replicate k (RawData.VInt 0) ++ vs). assert (RawData.row_values row (raw z) = vs) as Ev by (unfold RawData.row_values, row; rewrite Ek; apply drop_app_length'; by rewrite length_replicate).
  destruct (replace_cur_row_spec sys z Hp Rt b l1 op vs0 l2 (raw z) row vs async Ho Er Ev) as (c & y & Hp' & r' & E & [Sf Sh] & _ & Ero & O).
  { rewrite Ef. by apply cols_fits, Lw. }
  { rewrite wrap_small by done. rewrite Ef, Es. exact Hsz. }
  rewrite wrap_small in O by done. fold new in O. exists c, y, Hp'. split.
  { unfold put_row. rewrite (lowered_lower t node vs Ht Lw). erewrite pbind_go by reflexivity. unfold run. cbn [rstate set_rstate]. fold row. by rewrite E. }
  destruct O as [(-> & _ & Hy & Eo' & Eh')|[(-> & _ & Hy)|(-> & Hy & Eo')]]; pose proof (holds_raw_of _ _ _ _ _ _ Hy) as Ey; rewrite <- Ey in *;
    assert (row_fields Rt (raw y) = row_fields Rt (raw z)) as Efy by (unfold row_fields; by rewrite Sf); assert (forall l, row_at Rt (raw y) l = row_at Rt (raw z) l) as Era by (intros l; unfold row_at; by rewrite Efy, Sh).
  - left. split; [done|]. split_and!; [|by rewrite Ero, Er, Era|congruence]. split; rewrite ?Sf, ?Sh, ?Era; try done; [by rewrite <- app_assoc|congruence].
  - right. split; [done|]. left. split; [done|]. split; [done|congruence].
  - right. split; [done|]. right. split; [done|]. split; rewrite ?Sf, ?Sh, ?Era; try done; [by rewrite <- app_assoc|]. rewrite Eo', Er. unfold row_at. rewrite body_app, body_one, length_app. lia.
Qed.

(** The current row is replaced, with a second try, or all rows are as they were. *)
Lemma replace_one_spec sys (async : bool) (x : Process S) Hp b l1 row l2 (node : RowValue) vs (new := ((if async then OPER_UPDATE else row.1), vs) : RRow) : at_row (rstate x) Hp b l1 row l2 (vd x) -> good t row -> lowered t node vs ->
  size_of b (l1 ++ row :: l2) + Z.of_nat (length (enc_row (cols t) new)) < 2 ^ 31 ->
  exists c (y : Process S), (iRet ← with_purge (put_row (fun vs => replace_cur_row sys Rt vs async) t node); commit iRet;; mret iRet) x = Some (c, y)
  /\ (c = 0 /\ (exists z Hp', y = put z (handle_ (rm (raw z))) (rows_count_ x) (dirty_rows_count_ x) x /\ standing z Hp' b (l1 ++ [new]) l2)
      \/ c ≠ 0 /\ exists z h Hp', y = put z h (rows_count_ x) (dirty_rows_count_ x) x /\ h = handle_ (rm (raw z)) /\ attached z Hp' b (l1 ++ row :: l2)).
Proof.
  intros At G Lw Hr.
  destruct (with_purge_spec (put_row (fun vs => replace_cur_row sys Rt vs async) t node) x (fun z Hp => at_row z Hp b l1 row l2 (vd x))
    (fun c z Hp => c ≠ 0 /\ attached z Hp b (l1 ++ row :: l2) \/ c = 0 /\ standing z Hp b (l1 ++ [new]) l2) Hp) as (c & z & Hp' & E & O).
  - by apply replace_row_spec.
  - intros z Hp1 n Hz. by apply (at_row_purge z Hp1).
  - exact At.
  - erewrite pbind_go by exact E. unfold commit. destruct O as [(-> & Hz)|(Hc & O)].
    + rewrite Z.eqb_refl. eexists EC_NO_MEM, _. split; [reflexivity|]. right. split; [done|]. destruct Hz as (St & _ & Eh). exists z, (vd x), Hp'. split_and!; [by destruct x|done|].
      apply standing_attached in St. by rewrite <- app_assoc in St.
    + rewrite (proj2 (Z.eqb_neq _ _) Hc). eexists c, _. split; [reflexivity|]. destruct O as [(Hn & A)|(-> & St)]; [right|left]; (split; [done|]).
      * by exists z, (handle_ (rm (raw z))), Hp'.
      * by exists z, Hp'.
Qed.

End Retry.

Lemma finish_change_spec hour (async setrows : bool) a (x : Process S) Hp b l1 l2 : standing (rstate x) Hp b l1 l2 -> in_width 8 (b_count b) -> result_shape (job (job_op x)) -> 0 <= a < 2 ^ 64 ->
  exists z o b', finish_change hour async setrows a x = Some (0, set_rstate z (set_job_op o x)) /\ standing z Hp b' l1 l2 /\ same_key b b' /\ handle_ (rm (raw z)) = handle_ (rm (raw (rstate x)))
  /\ affected_rows o = if async || setrows then Some a else affected_rows (job_op x).
Proof.
  intros St Hc Hr Ha. unfold finish_change. destruct (async || setrows).
  - destruct (set_affected_rows_ok (job_op x) a Hr Ha) as (o & Eo & _ & Ea & _).
    erewrite (pbind_go _ _ x tt (set_job_op o x)); [|unfold set_affected; erewrite pbind_go by reflexivity; by erewrite pbind_go by (unfold try; by rewrite Eo)].
    destruct (touch_node hour (set_job_op o x) Hp b l1 l2 St Hc) as (z & b' & E & Sz & Kz & _ & Hz). erewrite pbind_go by exact E. by exists z, o, b'.
  - destruct (touch_node hour x Hp b l1 l2 St Hc) as (z & b' & E & Sz & Kz & _ & Hz). erewrite pbind_go by reflexivity. erewrite pbind_go by exact E. exists z, (job_op x), b'. by destruct x.
Qed.

(** ** do_append *)

Section Append.

Context `{Purge S} `{!PurgeLaws S} (sys : bool) (hour : Z) (insert_order : bool).

(** The object has a block with [rows] and the header [h0], at the node's handle. *)
Definition ready (h0 : RawData.Header) (v : Z) x Hp b rows : Prop := attached x Hp b rows /\ rh (raw x) = h0 /\ handle_ (rm (raw x)) = v.

Lemma ready_purge h0 v x Hp b rows n : ready h0 v x Hp b rows -> exists c st Hp', try_purge_size n v (rs x) = Some (c, st) /\ ready h0 v (mkR st (raw x)) Hp' b rows.
Proof. intros ([Ho Ef] & Eh & <-). destruct (holds_purge x Hp b rows n Ho) as (c & st & Hp' & E & Ho'). by exists c, st, Hp'. Qed.

Lemma standing_end x Hp b l1 l2 z Hp' rows : standing x Hp b l1 l2 -> attached z Hp' b rows -> rh (raw z) = rh (raw x) -> offset_ (rc (raw z)) = data_size_ (rc (raw z)) -> standing z Hp' b rows [].
Proof.
  intros [_ _ _ ? ? ? ?] [Ho Ef] Eh Eo. split; rewrite ?Eh; try done; [by rewrite app_nil_r|]. rewrite Eo. unfold row_at. apply (holds_size _ _ _ _ _ _ Ho).
Qed.

Lemma insert_one_spec (isDirty : bool) (x : Process S) h0 b rows (node : RowValue) vs (new := ((if isDirty then OPER_INSERT else OPER_SELECT), vs) : RRow) : lowered t node vs ->
  size_of b rows + Z.of_nat (length (enc_row (cols t) new)) < 2 ^ 31 ->
  forall z Hp, ready h0 (vd x) z Hp b rows ->
  exists c z' Hp', put_row (fun ws => insert_row sys Rt ws insert_order isDirty) t node (set_rstate z x) = Some (c, set_rstate z' x)
  /\ (c = EC_NO_MEM /\ ready h0 (vd x) z' Hp' b rows
      \/ c <> EC_NO_MEM /\ c = put_code sys insert_order [new] rows /\ attached z' Hp' b (put_rows sys insert_order [new] rows) /\ rh (raw z') = h0 /\ offset_ (rc (raw z')) = data_size_ (rc (raw z'))).
Proof.
  intros Lw Hsz z Hp (A & Eh & Ev). pose proof (attached_fields _ _ _ _ A) as Ef. destruct A as [Ho Efm].
  assert (Z.to_nat (key_index_ (rf (raw z)) + 1) = k) as Ek by (rewrite Efm; exact key_index).
  set (row := replicate k (RawData.VInt 0) ++ vs). assert (RawData.row_values row (raw z) = vs) as Er by (unfold RawData.row_values, row; rewrite Ek; apply drop_app_length'; by rewrite length_replicate).
  destruct (insert_row_flag_spec sys z Hp Rt b rows (raw z) row vs insert_order new.1 Ho Er) as (c & y & Hp' & r' & E & [Sf Sh] & _ & O).
  { rewrite Ef. by apply cols_fits, Lw. }
  { rewrite Ef. unfold size_of in Hsz. rewrite length_app in Hsz. rewrite (holds_size _ _ _ _ _ _ Ho), Ef. destruct Ho as (? & ? & _ & [_ -> _ _ _ _ _]). unfold new in Hsz |- *. cbn [fst] in *. lia. }
  exists c, y, Hp'. split.
  { unfold put_row. rewrite (lowered_lower t node vs Ht Lw). erewrite pbind_go by reflexivity. unfold run, insert_row. cbn [rstate set_rstate]. fold row. unfold new in E. cbn [fst] in E. by rewrite E. }
  change (new.1, vs) with new in O. destruct O as [(-> & Hy & Eh')|(-> & Hy & Eo)]; pose proof (holds_raw_of _ _ _ _ _ _ Hy) as Ey; rewrite <- Ey in *.
  - left. split; [done|]. split_and!; [split; congruence|congruence|congruence].
  - right. split; [unfold put_code; destruct (_ && _); done|]. split_and!; [done|split; congruence|congruence|exact Eo].
Qed.

(** The rows are searched for one like [new]. *)
Lemma duplicate_loop_spec (new key : RowValue) (cmp : RRow -> Z) b : length key = k -> forall l2 l1 (x : Process S) Hp (old : RowValue), standing (rstate x) Hp b l1 l2 -> Forall (good t) l2 ->
  Forall (fun row => row_compare t new (shown key row) (uniq_fields_list t) = Some (cmp row)) l2 -> length old = length (stored_fields_of t) -> take k old = key ->
  exists z m1 m2, duplicate_loop (length l2) t new old x = Some (if existsb (fun row => cmp row =? 0) l2 then inl (-1062) else inr tt, set_rstate z x)
  /\ standing z Hp b m1 m2 /\ m1 ++ m2 = l1 ++ l2 /\ handle_ (rm (raw z)) = handle_ (rm (raw (rstate x))).
Proof.
  intros Hk. induction l2 as [|row l2 IH]; intros l1 x Hp old St G C Hl Ek.
  - exists (rstate x), l1, []. split_and!; try done. by destruct x.
  - apply Forall_cons in G as [Gr G']. apply Forall_cons in C as [Cr C']. cbn [length duplicate_loop existsb].
    destruct (fetch_next x Hp b l1 row l2 old St Gr Hl) as (z1 & E1 & S1 & _ & _ & Eh1). rewrite Ek in E1. erewrite pbind_go by exact E1. cbn [negb Z.eqb].
    erewrite pbind_go by (unfold try; by rewrite Cr). destruct (cmp row =? 0); cbn [orb].
    + exists z1, (l1 ++ [row]), l2. split_and!; try done. by rewrite <- app_assoc.
    + destruct (IH (l1 ++ [row]) (set_rstate z1 x) Hp (shown key row) S1 G' C' (shown_length _ _ Gr Hk) (shown_key _ row Hk)) as (z & m1 & m2 & E & Sz & Em & Hz).
      exists z, m1, m2. split_and!; [exact E|done|by rewrite Em, <- app_assoc|etrans; [exact Hz|done]].
Qed.

(** Is there a row that [do_append] takes for a duplicate? *)
Definition clash (isDirty setrows : bool) (cmp : RRow -> Z) (rows : list RRow) : bool :=
  negb (bool_decide (rows = [])) && ((isDirty || setrows) && key_as_uniq_field t)
  || setrows && key_part_of_uniq_field t && existsb (fun row => cmp row =? 0) rows.

(** The search of [do_append] as a whole. *)
Lemma no_duplicate_spec (isDirty setrows : bool) (new : RowValue) (cmp : RRow -> Z) b rows (x : Process S) Hp (n := length rows) : standing (rstate x) Hp b [] rows -> Forall (good t) rows ->
  Forall (fun row => row_compare t new (shown (replicate k VZero) row) (uniq_fields_list t) = Some (cmp row)) rows ->
  negb (bool_decide (rows = [])) && ((isDirty || setrows) && key_as_uniq_field t) = false ->
  exists z m1 m2, (if Nat.ltb 0 n && (setrows && key_part_of_uniq_field t) then duplicate_loop n t new (new_row t) else mret (inr tt)) x
    = Some (if clash isDirty setrows cmp rows then inl (-1062) else inr tt, set_rstate z x)
  /\ standing z Hp b m1 m2 /\ m1 ++ m2 = rows /\ handle_ (rm (raw z)) = handle_ (rm (raw (rstate x))).
Proof.
  intros St G C E1. unfold clash. rewrite E1. cbn [orb]. assert (set_rstate (rstate x) x = x) as Ex by (by destruct x). destruct rows as [|row rows].
  - exists (rstate x), [], []. rewrite Ex. cbn. by rewrite andb_false_r.
  - unfold n. cbn [length Nat.ltb Nat.leb andb]. destruct (setrows && key_part_of_uniq_field t); cbn [andb]; [|exists (rstate x), [], (row :: rows); by rewrite Ex].
    destruct (duplicate_loop_spec new (replicate k VZero) cmp b (length_replicate _ _) (row :: rows) [] x Hp (new_row t) St G C new_row_length) as (z & m1 & m2 & E & Sz & Em & Hz); [by rewrite blank_key|].
    by exists z, m1, m2.
Qed.

(** The insertion of [do_append] with its second try. *)
Lemma insert_with_purge (isDirty : bool) (x : Process S) Hp b l1 l2 (node : RowValue) vs (new := ((if isDirty then OPER_INSERT else OPER_SELECT), vs) : RRow) (rows := l1 ++ l2) :
  standing (rstate x) Hp b l1 l2 -> handle_ (rm (raw (rstate x))) = vd x -> lowered t node vs -> size_of b rows + Z.of_nat (length (enc_row (cols t) new)) < 2 ^ 31 ->
  exists c z h Hp', (iRet ← with_purge (put_row (fun ws => insert_row sys Rt ws insert_order isDirty) t node); commit iRet;; mret iRet) x = Some (c, set_vd h (set_rstate z x))
  /\ h = handle_ (rm (raw z))
  /\ (c = EC_NO_MEM /\ attached z Hp' b rows \/ c = put_code sys insert_order [new] rows /\ standing z Hp' b (put_rows sys insert_order [new] rows) []).
Proof.
  intros St Eh Lw Hsz. destruct (with_purge_spec (put_row (fun ws => insert_row sys Rt ws insert_order isDirty) t node) x (fun z Hp => ready (rh (raw (rstate x))) (vd x) z Hp b rows)
    (fun c z Hp => c = put_code sys insert_order [new] rows /\ attached z Hp b (put_rows sys insert_order [new] rows) /\ rh (raw z) = rh (raw (rstate x)) /\ offset_ (rc (raw z)) = data_size_ (rc (raw z))) Hp) as (c & z & Hp' & E & O).
  - by apply insert_one_spec.
  - intros z Hp1 n Hz. by apply (ready_purge _ _ z Hp1).
  - split; [by apply standing_attached|done].
  - erewrite pbind_go by exact E. unfold commit. destruct O as [(-> & A & _ & Ev)|(Hc & -> & A & Er & Eo)].
    + rewrite Z.eqb_refl. exists EC_NO_MEM, z, (vd x), Hp'. split_and!; [by destruct x|done|by left].
    + rewrite (proj2 (Z.eqb_neq _ _) Hc). eexists _, z, (handle_ (rm (raw z))), Hp'. split_and!; [reflexivity|done|]. right. split; [done|]. by eapply standing_end.
Qed.

(** Recording the new row. *)
Lemma append_end (isDirty setrows : bool) a0 (x : Process S) Hp b l1 l2 : standing (rstate x) Hp b l1 l2 -> in_width 8 (b_count b) -> result_shape (job (job_op x)) -> affected_rows (job_op x) = Some a0 ->
  exists z o b', ((if (a0 =? 0) || setrows then set_affected 1 else mret tt);; add_rows 1;; (if isDirty then add_dirty 1 else mret tt);; touch hour;; mret 0) x
    = Some (0, set_counts_ (rows_count_ x + 1) (dirty_rows_count_ x + if isDirty then 1 else 0) (set_rstate z (set_job_op o x)))
  /\ standing z Hp b' l1 l2 /\ same_key b b' /\ handle_ (rm (raw z)) = handle_ (rm (raw (rstate x))) /\ affected_rows o = Some (if (a0 =? 0) || setrows then 1 else a0).
Proof.
  intros St Hc Hr Ha. assert (exists o, (if (a0 =? 0) || setrows then set_affected 1 else mret tt) x = Some (tt, set_job_op o x) /\ affected_rows o = Some (if (a0 =? 0) || setrows then 1 else a0)) as (o & Eo & Ea).
  { destruct ((a0 =? 0) || setrows); [|exists (job_op x); split; [by destruct x|done]]. destruct (set_affected_rows_ok (job_op x) 1 Hr ltac:(lia)) as (o & Eo & _ & Ea & _). exists o. split; [|done].
    unfold set_affected. erewrite pbind_go by reflexivity. by erewrite pbind_go by (unfold try; by rewrite Eo). }
  set (x1 := set_counts_ (rows_count_ x + 1) (dirty_rows_count_ x + if isDirty then 1 else 0) (set_job_op o x)).
  destruct (touch_node hour x1 Hp b l1 l2 St Hc) as (z & b' & E & Sz & Kz & _ & Hz). exists z, o, b'. split_and!; try done.
  erewrite pbind_go by exact Eo. erewrite pbind_go by reflexivity. erewrite (pbind_go _ _ _ tt x1); [by erewrite pbind_go by exact E|]. unfold x1. destruct isDirty; [done|]. by rewrite Z.add_0_r.
Qed.

Lemma put_rows_good (isDirty : bool) vs rows : Forall2 exact (cols t) vs -> Forall (good t) rows -> Forall (good t) (put_rows sys insert_order [((if isDirty then OPER_INSERT else OPER_SELECT), vs)] rows).
Proof.
  intros Hx G. assert (good t ((if isDirty then OPER_INSERT else OPER_SELECT), vs)) as Gn by (split; [destruct isDirty; done|done]).
  unfold put_rows. destruct (insert_order && sys); [by apply Forall_cons|]. apply Forall_app. split; [done|by apply Forall_cons].
Qed.

(** How an append ends: the row is in, there is one like it, or there was no
    memory (at its end, for the row to go to the front). *)
Definition append_ends (isDirty setrows : bool) a0 cmp (new : RRow) rows c (y : Process S) rows' : Prop :=
  c = 0 /\ clash isDirty setrows cmp rows = false /\ rows' = put_rows sys insert_order [new] rows /\ rows_count_ y = 1 /\ dirty_rows_count_ y = (if isDirty then 1 else 0)
    /\ affected_rows (job_op y) = Some (if (a0 =? 0) || setrows then 1 else a0)
  \/ rows_count_ y = 0 /\ dirty_rows_count_ y = 0
    /\ (c = -1062 /\ clash isDirty setrows cmp rows = true /\ rows' = rows
        \/ c = -2 /\ clash isDirty setrows cmp rows = false /\ (rows' = rows \/ insert_order = true /\ sys = false /\ rows' = rows ++ [new])).

Lemma do_append_rows (isDirty setrows : bool) (x : Process S) Hp b rows (wire : RowValue) vs (cmp : RRow -> Z) a0 (new := ((if isDirty then OPER_INSERT else OPER_SELECT), vs) : RRow) :
  node_at x Hp b rows -> result_shape (job (job_op x)) -> affected_rows (job_op x) = Some a0 -> append_row_of (job_op x) t = Some wire -> lowered t wire vs ->
  Forall (fun row => row_compare t wire (shown (replicate k VZero) row) (uniq_fields_list t) = Some (cmp row)) rows -> size_of b rows + Z.of_nat (length (enc_row (cols t) new)) < 2 ^ 31 ->
  exists c (y : Process S) Hp' b' rows', do_append sys get_def idx hour insert_order isDirty setrows x = Some (c, y) /\ node_at y Hp' b' rows' /\ same_key b b' /\ append_ends isDirty setrows a0 cmp new rows c y rows'.
Proof.
  intros N Hrs Ha Ew Lw Hcmp Hsz. pose proof (na_good _ _ _ _ N) as G. pose proof (na_format _ _ _ _ N) as F. pose proof (na_table _ _ _ _ N) as Ei. assert (in_width 8 (b_count b)) as Hc8 by (destruct F; unfold in_width; lia).
  destruct (attach_data_node x Hp b rows N) as (z & E & St & Eh & _). unfold do_append. erewrite pbind_go by exact E. cbn [negb Z.eqb].
  erewrite pbind_go by (by eapply node_table_eq). erewrite pbind_go by apply task_table_eq. erewrite pbind_go by (by eapply one_table_eq). erewrite pbind_go by reflexivity. cbn [job_op set_rstate].
  erewrite pbind_go by (unfold try; by rewrite Ew). erewrite pbind_go by reflexivity. erewrite pbind_go by reflexivity. set (x1 := set_counts_ 0 0 (set_rstate z x)).
  assert (standing (rstate x1) Hp b [] rows) as St1 by done. erewrite pbind_go by (by eapply total_rows_eq). cbn [app].
  assert (Nat.ltb 0 (length rows) = negb (bool_decide (rows = []))) as -> by (by destruct rows). destruct (negb (bool_decide (rows = [])) && _) eqn:Ec1.
  { exists (-1062), x1, Hp, b, rows. split_and!; [done|by eapply leave_node; [exact (standing_attached _ _ _ _ _ St1)|..]|done|]. right. split_and!; try done. left. split_and!; try done. unfold clash. by rewrite Ec1. }
  destruct (no_duplicate_spec isDirty setrows wire cmp b rows x1 Hp St1 G Hcmp Ec1) as (z2 & m1 & m2 & E2 & S2 & Em & Eh2).
  assert (Nat.ltb 0 (length rows) = negb (bool_decide (rows = []))) as En by (by destruct rows). rewrite En in E2. erewrite pbind_go by exact E2. cbn [rstate x1 set_counts_ set_rstate] in Eh2.
  destruct (clash isDirty setrows cmp rows) eqn:Ecl.
  { exists (-1062), (set_rstate z2 x1), Hp, b, rows. split_and!; [done|eapply leave_node; [rewrite <- Em; by eapply standing_attached|cbn; congruence|done..]|done|]. right. split_and!; try done. by left. }
  destruct (insert_with_purge isDirty (set_rstate z2 x1) Hp b m1 m2 wire vs S2) as (c & z3 & h & Hp3 & E3 & -> & O); [cbn; congruence|done|by rewrite Em|]. rewrite Em in O. fold new in O.
  erewrite pbind_tail by exact E3. destruct O as [(-> & A)|(-> & S3)].
  { cbn [negb Z.eqb]. eexists (-2), _, Hp3, b, rows. split_and!; [reflexivity|by eapply leave_node|done|]. right. split_and!; try done. right. split_and!; auto. }
  assert (Forall (good t) (put_rows sys insert_order [new] rows)) as G3 by (apply put_rows_good; [apply Lw|done]).
  destruct (put_code sys insert_order [new] rows =? 0) eqn:Ecode; cbn [negb].
  - erewrite pbind_go by (unfold try; by rewrite Ha).
    destruct (append_end isDirty setrows a0 (set_vd (handle_ (rm (raw z3))) (set_rstate z3 (set_rstate z2 x1))) Hp3 b _ _ S3 Hc8 Hrs Ha) as (z4 & o4 & b4 & E4 & S4 & K4 & Eh4 & Ea4).
    apply standing_attached in S4. rewrite app_nil_r in S4. eexists 0, _, Hp3, b4, _. split_and!; [exact E4|eapply leave_node; [exact S4|cbn; by rewrite Eh4|done..]|done|]. left. split_and!; done.
  - apply standing_attached in S3. rewrite app_nil_r in S3. eexists (-2), _, Hp3, b, _. split_and!; [reflexivity|by eapply leave_node|done|]. right. split_and!; try done. right. split_and!; try done. right.
    unfold put_code in Ecode. destruct insert_order, sys; try done.
Qed.

End Append.

(** ** The private copy of a row *)

Section Private.

Context {M : Type} `{MallocLaws M} (sys expanding : bool) (cur hour : Z) (p_table : DTCTableDefinition) (priv : M).
Hypothesis Hcur : (if expanding then Z.rem (cur + 1) 2 else Z.rem cur 2) = idx.
Hypothesis Hpos : 0 <= cur.
Hypothesis Hpt : key_fields p_table = key_fields t.

Lemma cols_good vs : Forall2 exact (cols t) vs -> RawRows.row_fits (cols t) vs = true /\ stored_fields (cols t) vs (drop k (blank t)) = vs /\ length (cols t) = length vs.
Proof.
  intros Hx. assert (length (drop k (blank t)) = length (cols t)) as Hl by (unfold blank, cols; by rewrite !length_drop, length_replicate).
  destruct (exact_all (cols t) vs (drop k (blank t)) (tf_keep _ Ht) Hx Hl) as [E1 E2]. split_and!; try done. by apply Forall2_length in Hx.
Qed.

(** One row, read back from a block of its own. *)
Lemma read_single (x : RState M) HpM b ws : holds x HpM Rt b [(OPER_SELECT, ws)] (raw x) -> row_fields Rt (raw x) = cols t -> Z.to_nat (key_index_ (rf (raw x)) + 1) = k ->
  Forall2 exact (cols t) ws -> exists y1 y2 : RState M, RawData.rewind x = Some (Go tt, y1) /\ RawData.decode_row Rt (blank t) false y1 = Some (Go (0, Some (OPER_SELECT, take k (blank t) ++ ws)), y2).
Proof.
  intros Ho Ef Ek Hx. destruct (cols_good ws Hx) as (Hf & Es & _). set (r1 := on_rc (fun c => set_row_offset (data_start_ (rh (raw x))) (set_offset (data_start_ (rh (raw x))) c)) (raw x)).
  destruct (holds_cursor x HpM Rt b _ (raw x) (fun c => set_row_offset (data_start_ (rh (raw x))) (set_offset (data_start_ (rh (raw x))) c)) Ho eq_refl eq_refl) as (y & E & Ho1 & _).
  
  destruct (decode_row_spec y HpM Rt b [] OPER_SELECT ws [] r1 (blank t) false Ho1) as (y2 & la & E2 & _).
  - unfold row_at. change (length (body (row_fields Rt r1) [])) with 0%nat. simpl. lia.
  - unfold RawData.row_values. change (rf r1) with (rf (raw x)). change (row_fields Rt r1) with (row_fields Rt (raw x)). rewrite Ek, Ef. unfold blank, cols. by rewrite !length_drop, length_replicate.
  - exists y, y2. split; [exact E|]. rewrite E2. change (rf r1) with (rf (raw x)). change (row_fields Rt r1) with (row_fields Rt (raw x)). unfold RawData.row_values. change (rf r1) with (rf (raw x)). by rewrite Ek, Ef, Es.
Qed.

(** The row comes back as it is stored, or there is no memory for it. *)
Lemma private_spec HpM key (value : RowValue) ws (ks := key_len (key_format t) key) : m_rep priv HpM -> lowered t value ws -> 0 < ks <= Z.of_nat (length key) ->
  HEAD_SIZE + ks + Z.of_nat (length (enc_row (cols t) (OPER_SELECT, ws))) < 2 ^ 31 ->
  exists e, encode_to_private_area sys get_def expanding cur hour p_table priv key t value = Some e /\ (e = inl (-1) \/ e = inl (-2) \/ e = inr (shown (take k value) (OPER_SELECT, ws))).
Proof.
  intros R Lw Hks Hsz. pose proof Lw as (Hl & _ & Hx). destruct (cols_good ws Hx) as (Hf & Es & Hlen). unfold encode_to_private_area. rewrite (lowered_lower t value ws Ht Lw). cbn [mbind option_bind]. rewrite Hpt. fold k.
  change (length (enc_row (cols t) (OPER_SELECT, ws))) with (Datatypes.S (length (enc_fields (cols t) ws))) in Hsz. rewrite Nat2Z.inj_succ in Hsz. set (n := Z.of_nat (length (enc_fields (cols t) ws))) in *.
  assert (drop k (replicate k (RawData.VInt 0) ++ ws) = ws) as Edrop by (apply drop_app_length'; by rewrite length_replicate).
  cbv zeta. erewrite rbind_go by (rewrite Edrop; apply (fields_size_eq (cols t)); [exact Hf|lia|fold n; unfold HEAD_SIZE in *; lia]). fold n.
  destruct (raw_do_init_spec expanding cur (raw_def get_def) (mkR priv new_RawData) HpM Rt key (1 + n) hour R) as (c & y & E & _ & O); try done; [unfold raw_def; by rewrite Hcur, Hg|lia|unfold ks in *; cbn [RawData.key_format raw_table]; lia|].
  erewrite rbind_go by exact E. destruct O as [[-> _]|(-> & m & r & _ & Ho & As & Erf & Eki & Fm & _)]; [exists (inl (-1)); by split; [|left]|]. cbn [negb Z.eqb].
  rewrite Hcur in Ho. set (b := new_block idx _ hour) in *. pose proof (holds_raw_of _ _ _ _ _ _ Ho) as Er.
  assert (Z.to_nat (key_index_ (rf r) + 1) = k) as Ek by (rewrite Eki; exact key_index). rewrite stored_cols in Erf.
  assert (data_size_ (rc r) = 16 + ks) as Hds. { rewrite (holds_size _ _ _ _ _ _ Ho), (as_start _ _ _ As), head_length. cbn [b_stamps b_key b new_block]. change (length (stamps_of hour)) with 6%nat.
    change (length (body (row_fields Rt r) [])) with 0%nat. rewrite length_take. unfold ks in *. change (RawData.key_format Rt) with (key_format t). lia. }
  destruct (insert_row_flag_spec sys y _ Rt b [] r (replicate k (RawData.VInt 0) ++ ws) ws false OPER_SELECT Ho) as (c2 & y2 & Hp2 & r2 & E2 & [Ef2 _] & _ & O2).
  { unfold RawData.row_values. rewrite Ek. exact Edrop. }
  { by rewrite Erf. }
  { rewrite Erf, Hds. change (length (enc_row (cols t) (OPER_SELECT, ws))) with (Datatypes.S (length (enc_fields (cols t) ws))). unfold HEAD_SIZE in Hsz. lia. }
  erewrite rbind_go by exact E2. destruct O2 as [(-> & _)|(-> & Ho2 & _)]; [exists (inl (-2)); split; [done|auto]|]. cbn [put_code andb negb Z.eqb]. pose proof (holds_raw_of _ _ _ _ _ _ Ho2) as Er2. rewrite <- Er2 in Ho2, Ef2.
  destruct (read_single y2 Hp2 b ws) as (y3 & y4 & E3 & E4); [exact Ho2|unfold row_fields in *; by rewrite Ef2|by rewrite Ef2|done|].
  erewrite rbind_go by exact E3. erewrite rbind_go by exact E4. exists (inr (shown (take k value) (OPER_SELECT, ws))). split; [|auto]. cbn [Z.eqb mret rprog_ret].
  rewrite merge_skip; [|done|rewrite length_app, length_take, <- Hlen; unfold blank, cols; rewrite length_replicate, length_drop; destruct Ht; lia].
  rewrite drop_app_length' by (unfold blank; rewrite length_take, length_replicate; destruct Ht; lia). fold (cols t).
  by rewrite (merge_values (cols t) (tf_keep _ Ht)) by (done || (unfold cols; rewrite !length_drop; lia)).
Qed.

(** ** do_update *)

Section Update.

Context `{Purge S} `{!PurgeLaws S} (HpM : heap) (async : bool) (o : DTCJobOperation) (key : RowValue) (sel : RRow -> bool) (chg : RRow -> list RawData.DTCValue) (b : block).
Hypothesis Hpriv : m_rep priv HpM.
Hypothesis Hkey : length key = k.
Hypothesis Hform : formatted (key_format t) b.
Hypothesis Hst : length (b_stamps b) = 6%nat.

(** A row after the update. *)
Definition new_of (row : RRow) : RRow := if sel row then (if async then OPER_UPDATE else row.1, chg row) else row.

(** What the job does to [row]: it is selected or not, and its new values have
    a place in a block. *)
Definition updates (row : RRow) : Prop :=
  compare_row t o (shown key row) = Some (sel row)
  /\ (sel row = true -> exists wire, update_row t o (shown key row) = Some wire /\ take k wire = key /\ lowered t wire (chg row)).

(** The change of the dirty rows the process reports for [rows]. *)
Definition dirty_change (rows : list RRow) : Z :=
  let s := List.filter sel rows in (if async then Z.of_nat (length s) else 0) - Z.of_nat (length (dirty_rows s)).

Lemma new_of_good row : good t row -> updates row -> good t (new_of row).
Proof.
  intros [Hw Hx] [_ Hu]. unfold new_of. destruct (sel row); [|done]. destruct (Hu eq_refl) as (wire & _ & _ & _ & _ & Hc). split; [|done]. cbn [fst]. destruct async; [done|exact Hw].
Qed.

(** The rows so far are [l1]; the limit holds for what is to come. *)
Definition room (l1 l2 : list RRow) : Prop := size_of b (l1 ++ l2) + Z.of_nat (length (body (cols t) (new_of <$> l2))) < 2 ^ 31.

Lemma room_next l1 row l2 : room l1 (row :: l2) -> room (l1 ++ [new_of row]) l2.
Proof.
  unfold room, size_of. cbn [fmap list_fmap]. rewrite body_cons, !length_app, !body_app, body_cons, body_one, !length_app. lia.
Qed.

Lemma room_row l1 row l2 : room l1 (row :: l2) -> size_of b (l1 ++ row :: l2) + Z.of_nat (length (enc_row (cols t) (new_of row))) < 2 ^ 31.
Proof. unfold room. cbn [fmap list_fmap]. rewrite body_cons, length_app. lia. Qed.

Lemma enc_row_length op op' vs : length (enc_row (cols t) (op, vs)) = length (enc_row (cols t) (op', vs)).
Proof. done. Qed.

(** Where the update ends: all rows are done, or it stopped before [m2]. *)
Record updated (x y : Process S) (l1 m1 m2 : list RRow) (a : Z) (r : Z + Z) : Prop := {
  up_block : exists Hp', attached (rstate y) Hp' b (l1 ++ (new_of <$> m1) ++ m2);
  up_vd : vd y = handle_ (rm (raw (rstate y)));
  up_job : job_op y = job_op x;
  up_rows : rows_count_ y = rows_count_ x;
  up_dirty : dirty_rows_count_ y = dirty_rows_count_ x + dirty_change m1;
  up_end : m2 = [] /\ r = inr (a + Z.of_nat (length (List.filter sel m1))) /\ (exists Hp', standing (rstate y) Hp' b (l1 ++ (new_of <$> m1)) []) \/ r = inl (-3) \/ r = inl (-6)
}.

Lemma updated_skip (x y : Process S) z l1 row m1 m2 a r : sel row = false -> updated (set_rstate z x) y (l1 ++ [row]) m1 m2 a r -> updated x y l1 (row :: m1) m2 a r.
Proof.
  intros Es [A1 A2 A3 A4 A5 A6]. assert (new_of row = row) as En by (unfold new_of; by rewrite Es). split; try done.
  - cbn [fmap list_fmap app]. rewrite En. by rewrite <- app_assoc in A1.
  - rewrite A5. unfold dirty_change. cbn [List.filter]. by rewrite Es.
  - cbn [fmap list_fmap List.filter]. rewrite Es, En. by rewrite <- app_assoc in A6.
Qed.

Lemma updated_step (x y : Process S) z h l1 row m1 m2 a r : sel row = true -> updated (put z h (rows_count_ x) (dirty_rows_count_ x + (if is_dirty_row row.1 then -1 else 0) + (if async then 1 else 0)) x) y (l1 ++ [new_of row]) m1 m2 (a + 1) r ->
  updated x y l1 (row :: m1) m2 a r.
Proof.
  intros Es [A1 A2 A3 A4 A5 A6]. split; try done.
  - cbn [fmap list_fmap app]. by rewrite <- app_assoc in A1.
  - rewrite A5. unfold dirty_change, dirty_rows. cbn [List.filter]. rewrite Es. cbn [List.filter length put dirty_rows_count_ set_vd set_counts_]. destruct (is_dirty_row row.1), async; cbn [length]; lia.
  - cbn [fmap list_fmap List.filter]. rewrite Es. rewrite <- app_assoc in A6. destruct A6 as [(-> & -> & A6)|A6]; [left|by right]. split_and!; [done| |done]. f_equal. cbn [length]. lia.
Qed.

(** One selected row: it is replaced, or the loop stops with all rows as they were. *)
Lemma update_one_spec (x : Process S) Hp l1 row l2 (node : RowValue) : at_row (rstate x) Hp b l1 row l2 (vd x) -> good t row -> lowered t node (chg row) -> sel row = true -> room l1 (row :: l2) ->
  exists c (y : Process S), (iRet ← with_purge (put_row (fun vs => replace_cur_row sys Rt vs async) t node); commit iRet;; mret iRet) x = Some (c, y)
  /\ (c = 0 /\ (exists z Hp', y = put z (handle_ (rm (raw z))) (rows_count_ x) (dirty_rows_count_ x) x /\ standing z Hp' b (l1 ++ [new_of row]) l2)
      \/ c ≠ 0 /\ exists z h Hp', y = put z h (rows_count_ x) (dirty_rows_count_ x) x /\ h = handle_ (rm (raw z)) /\ attached z Hp' b (l1 ++ row :: l2)).
Proof. intros At G Lw Es Hr. apply room_row in Hr. unfold new_of in Hr |- *. rewrite Es in Hr |- *. by eapply replace_one_spec. Qed.

Lemma key_room : 0 < key_len (key_format t) (b_key b) <= Z.of_nat (length (b_key b)).
Proof. destruct Hform as [_ _ _ Fk Fs]. rewrite <- Fk. destruct (b_key b); [done|]. cbn [length]. lia. Qed.

Lemma key_room_row rows op vs : size_of b rows + Z.of_nat (length (enc_row (cols t) (op, vs))) < 2 ^ 31 ->
  HEAD_SIZE + key_len (key_format t) (b_key b) + Z.of_nat (length (enc_row (cols t) (OPER_SELECT, vs))) < 2 ^ 31.
Proof.
  unfold size_of, HEAD_SIZE. rewrite length_app, head_length, (enc_row_length OPER_SELECT op). destruct Hform as [_ _ _ Fk Fs]. rewrite <- Fk, Hst. lia.
Qed.

Lemma lowered_shown op vs : Forall2 exact (cols t) vs -> lowered t (shown key (op, vs)) vs.
Proof.
  intros Hx. split_and!; [|unfold shown; rewrite drop_app_length' by done; by apply (lower_values (cols t) (tf_keep _ Ht))|done].
  unfold shown. apply Forall2_length in Hx. unfold cols in Hx. rewrite length_drop in Hx. rewrite length_app, length_fmap, Hkey. destruct Ht. cbn [snd]. lia.
Qed.

Lemma updated_stop (x : Process S) z Hp l1 row l2 a : standing z Hp b (l1 ++ [row]) l2 -> handle_ (rm (raw z)) = vd x -> updated x (set_rstate z x) l1 [] (row :: l2) a (inl (-3)).
Proof.
  intros St Eh. split; try done; [|cbn; unfold dirty_change; destruct async; cbn; lia|by right; left]. exists Hp. apply standing_attached in St. by rewrite <- app_assoc in St.
Qed.

Lemma update_loop_spec : forall l2 l1 (x : Process S) Hp (task node : RowValue) a, standing (rstate x) Hp b l1 l2 -> Forall (good t) l2 -> Forall updates l2 -> room l1 l2 ->
  vd x = handle_ (rm (raw (rstate x))) -> job_op x = o -> length node = length (stored_fields_of t) -> take k node = key ->
  exists r (y : Process S) m1 m2, update_loop sys get_def expanding cur hour p_table priv (length l2) async true t t task node a x = Some (r, y) /\ l2 = m1 ++ m2 /\ updated x y l1 m1 m2 a r.
Proof.
  induction l2 as [|row l2 IH]; intros l1 x Hp task node a St G U Hr Ev Eo Hl Ek.
  - exists (inr a), x, [], []. split_and!; [done|done|]. split; try done; [by exists Hp; apply standing_attached| |left].
    + unfold dirty_change. destruct async; cbn; lia.
    + split_and!; [done|f_equal; cbn; lia|]. exists Hp. cbn. by rewrite app_nil_r.
  - apply Forall_cons in G as [Gr G']. apply Forall_cons in U as [Ur U']. pose proof Ur as [Hc Hu]. cbn [length update_loop].
    destruct (fetch_next x Hp b l1 row l2 node St Gr Hl) as (z1 & E1 & S1 & R1 & _ & Eh1). rewrite Ek in E1. erewrite pbind_go by exact E1. cbn [negb Z.eqb]. rewrite <- Ev in Eh1.
    pose proof (shown_length _ _ Gr Hkey) as Hl1. pose proof (shown_key _ row Hkey) as Ek1. set (node1 := shown key row) in *.
    erewrite pbind_go by reflexivity. erewrite pbind_go by reflexivity. erewrite pbind_go by (unfold try; cbn [job_op set_rstate]; rewrite Eo; by rewrite Hc). destruct (sel row) eqn:Es; cbn [negb].
    + destruct (Hu eq_refl) as (wire & Ew & Ekw & Lw). erewrite pbind_go by (unfold try; cbn [job_op set_rstate]; rewrite Eo; by rewrite Ew). erewrite pbind_go by reflexivity.
      erewrite pbind_go by (eapply raw_key_node; [exact S1|exact Hform]).
      destruct (private_spec HpM (b_key b) wire (chg row) Hpriv Lw) as (e & Ee & O).
      { by apply key_room. }
      { apply room_row in Hr. unfold new_of in Hr. rewrite Es in Hr. by eapply key_room_row. }
      erewrite pbind_go by (unfold try; by rewrite Ee). rewrite Ekw in O. destruct O as [->|[->| ->]]; [exists (inl (-3)), (set_rstate z1 x), [], (row :: l2); split_and!; [done|done|by apply (updated_stop x z1 Hp)]..|].
      assert (lowered t (shown key (OPER_SELECT, chg row)) (chg row)) as Ls by apply lowered_shown, Lw.
      destruct (update_one_spec (set_rstate z1 x) Hp l1 row l2 (shown key (OPER_SELECT, chg row)) (conj S1 (conj R1 Eh1)) Gr Ls Es Hr) as (c & y1 & E2 & O).
      erewrite pbind_tail by exact E2. destruct O as [(-> & z2 & Hp2 & -> & S2)|(Hc0 & z2 & h & Hp2 & -> & -> & A2)].
      * cbn [negb Z.eqb]. set (x2 := put z2 (handle_ (rm (raw z2))) (rows_count_ x) (dirty_rows_count_ x + (if is_dirty_row row.1 then -1 else 0) + (if async then 1 else 0)) x).
        destruct (IH (l1 ++ [new_of row]) x2 Hp2 (shown key (OPER_SELECT, chg row)) (shown key (OPER_SELECT, chg row)) (a + 1) S2 G' U') as (r & y & m1 & m2 & E & Em & Up); try done; [by apply room_next|apply Ls|by apply shown_key|].
        exists r, y, (row :: m1), m2. split_and!; [|by rewrite Em|by eapply updated_step]. rewrite <- E. unfold x2.
        destruct (is_dirty_row row.1), async; do 2 (erewrite pbind_go by reflexivity); rewrite ?Z.add_0_r; done.
      * rewrite (proj2 (Z.eqb_neq _ _) Hc0). cbn [negb]. eexists (inl (-6)), _, [], (row :: l2). split; [reflexivity|]. split; [done|]. split; try done; [by exists Hp2| |by right; right].
        unfold dirty_change. destruct async; cbn; lia.
    + assert (room (l1 ++ [row]) l2) as Hr'. { apply room_next in Hr. unfold new_of in Hr at 1. by rewrite Es in Hr. }
      destruct (IH (l1 ++ [row]) (set_rstate z1 x) Hp node1 node1 a S1 G' U' Hr' (eq_sym Eh1) Eo Hl1 Ek1) as (r & y & m1 & m2 & E & Em & Up).
      exists r, y, (row :: m1), m2. split_and!; [exact E|by rewrite Em|by eapply updated_skip].
Qed.

(** All rows are updated, or the update stopped before [m2] with an error. *)
Lemma do_update_rows (setrows : bool) (x : Process S) Hp rows : node_at x Hp b rows -> job_op x = o -> result_shape (job o) -> key = replicate k VZero -> Forall updates rows -> room [] rows ->
  exists c (y : Process S) Hp' b' m1 m2, do_update sys get_def idx expanding cur hour p_table priv async setrows x = Some (c, y) /\ rows = m1 ++ m2 /\ node_at y Hp' b' ((new_of <$> m1) ++ m2) /\ same_key b b'
  /\ rows_count_ y = 0 /\ dirty_rows_count_ y = dirty_change m1
  /\ (c = 0 /\ m2 = [] /\ affected_rows (job_op y) = (if async || setrows then Some (Z.of_nat (length (List.filter sel rows))) else affected_rows o) \/ c = -3 \/ c = -6).
Proof.
  intros N Eo Hrs Ekz U Hr. unfold do_update. erewrite pbind_go by reflexivity. set (x0 := set_counts_ 0 0 x). assert (node_at x0 Hp b rows) as N0 by (by destruct N; split).
  destruct (attach_data_node x0 Hp b rows N0) as (z & E & St & Eh & _). erewrite pbind_go by exact E. cbn [negb Z.eqb].
  erewrite pbind_go by (by eapply total_rows_eq). erewrite pbind_go by (by eapply node_table_eq). erewrite pbind_go by apply task_table_eq. erewrite pbind_go by (by eapply one_table_eq). cbn [app].
  destruct (update_loop_spec rows [] (set_rstate z x0) Hp (new_row t) (new_row t) 0 St (na_good _ _ _ _ N) U Hr (eq_sym Eh) Eo new_row_length) as (r & y & m1 & m2 & E1 & Em & [(Hp1 & A1) A2 A3 A4 A5 A6]); [by rewrite blank_key|].
  erewrite pbind_go by exact E1. cbn [app] in *. pose proof (na_table _ _ _ _ N) as Ei.
  assert (Forall (good t) ((new_of <$> m1) ++ m2)) as G.
  { pose proof (na_good _ _ _ _ N) as G. rewrite Em in G, U. apply Forall_app in G as [G1 G2], U as [U1 _]. apply Forall_app. split; [|done]. apply Forall_fmap, Forall_forall. intros row Hin.
    apply new_of_good; [by eapply Forall_forall in G1|by eapply Forall_forall in U1]. }
  assert (in_width 8 (b_count b)) as Hcount by (destruct Hform; unfold in_width; lia).
  assert (job_op y = o) as Ej by (etrans; [exact A3|exact Eo]).
  destruct A6 as [(-> & -> & Hp2 & S2)|Hc].
  - destruct (finish_change_spec hour async setrows (0 + Z.of_nat (length (List.filter sel m1))) y Hp2 b _ _ S2 Hcount ltac:(by rewrite Ej)) as (z3 & o3 & b3 & E3 & S3 & K3 & Hh & Ea).
    { destruct (na_block _ _ _ _ N) as (? & ? & _ & _ & _ & _ & Hlim). rewrite length_app in Hlim. pose proof (body_rows (cols t) rows). pose proof (filter_length_le sel m1). assert (length rows = length m1) by (by rewrite Em, app_nil_r). lia. }
    exists 0, (set_rstate z3 (set_job_op o3 y)), Hp2, b3, m1, []. split_and!; [exact E3|done|eapply leave_node; [by apply standing_attached|cbn; congruence|done..]|done|exact A4|etrans; [exact A5|done]|].
    left. split_and!; [done|done|]. cbn [job_op set_rstate set_job_op]. rewrite Ea, Ej, Em, app_nil_r. by rewrite Z.add_0_l.
  - exists (match r with inl c => c | inr _ => 0 end), y, Hp1, b, m1, m2. split_and!; [by destruct Hc as [-> | ->]|done|by eapply leave_node|done|by rewrite A4|by rewrite A5|]. right. destruct Hc as [-> | ->]; auto.
Qed.

End Update.

End Private.

(** ** do_replace *)

Section Replace.

Context `{Purge S} `{!PurgeLaws S} (sys expanding : bool) (cur hour : Z) (async : bool) (wire : RowValue) (vs : list RawData.DTCValue) (cmp : RRow -> Z).
Hypothesis Hlow : lowered t wire vs.

(** The rows the new one takes the place of. *)
Definition hit (row : RRow) : bool := key_as_uniq_field t || (cmp row =? 0).
Definition compares (row : RRow) : Prop := key_as_uniq_field t = false -> row_compare t wire (shown (replicate k VZero) row) (uniq_fields_list t) = Some (cmp row).

(** The first of them is overwritten, the others go. *)
Fixpoint put_over (fresh : bool) (rows : list RRow) : list RRow :=
  match rows with
  | [] => []
  | row :: rows => if hit row then (if fresh then (if async then OPER_UPDATE else row.1, vs) :: put_over false rows else put_over false rows) else row :: put_over fresh rows
  end.

Definition hits (rows : list RRow) : Z := Z.of_nat (length (List.filter hit rows)).

Lemma put_over_good fresh rows : Forall (good t) rows -> Forall (good t) (put_over fresh rows).
Proof.
  intros G. revert fresh. induction G as [|row rows [Hw Hx] _ IH]; intros fresh; [done|]. cbn [put_over]. destruct (hit row); [destruct fresh; [|done]|by apply Forall_cons].
  apply Forall_cons. split; [|done]. split; [cbn; destruct async; done|apply Hlow].
Qed.

Lemma put_over_none fresh rows : existsb hit rows = false -> put_over fresh rows = rows /\ hits rows = 0.
Proof.
  induction rows as [|row rows IH]; [done|]. cbn [existsb put_over]. unfold hits. cbn [List.filter]. destruct (hit row); [done|]. intros E. destruct (IH E) as [-> E2]. done.
Qed.

(** Where the loop ends: the rows are replaced, or at the first one there was
    no memory and all are as they were. *)
Definition replaced_to (x y : Process S) b (l1 l2 : list RRow) (a : Z) (r : Z + Z) : Prop :=
  r = inr (a + hits l2 + (if (a =? 0) && existsb hit l2 then 1 else 0))
    /\ (exists z Hp', y = put z (handle_ (rm (raw z))) (rows_count_ x) (dirty_rows_count_ x + dirty_change async hit l2) x /\ standing z Hp' b (l1 ++ put_over (a =? 0) l2) [])
  \/ r = inl (-3) /\ exists z n Hp', y = set_black n (put z (handle_ (rm (raw z))) (rows_count_ x) (dirty_rows_count_ x) x) /\ attached z Hp' b (l1 ++ l2).

Lemma replaced_skip (x y : Process S) b l1 row l2 a r z : hit row = false -> handle_ (rm (raw z)) = vd x -> replaced_to (set_rstate z x) y b (l1 ++ [row]) l2 a r -> replaced_to x y b l1 (row :: l2) a r.
Proof.
  intros Eh Ez O. unfold replaced_to, hits, dirty_change in *. cbn [List.filter existsb put_over]. rewrite Eh. cbn [orb]. rewrite <- !app_assoc in O. exact O.
Qed.

Lemma replaced_step (x y : Process S) b l1 row l2 a r z h (x1 := put z h (rows_count_ x) (dirty_rows_count_ x + (if is_dirty_row row.1 then -1 else 0) + (if async then 1 else 0)) x) :
  hit row = true -> 0 <= a -> replaced_to x1 y b (if a =? 0 then l1 ++ [(if async then OPER_UPDATE else row.1, vs)] else l1) l2 (if a =? 0 then 2 else a + 1) r ->
  (exists v, r = inr v) -> replaced_to x y b l1 (row :: l2) a r.
Proof.
  intros Eh Ha O [v ->]. destruct O as [(E & z2 & Hp2 & -> & S2)|[E _]]; [|done]. left. cbn [existsb put_over]. rewrite Eh. cbn [orb]. split.
  - rewrite E. f_equal. unfold hits. cbn [List.filter]. rewrite Eh. cbn [length]. rewrite Nat2Z.inj_succ. destruct (Z.eqb_spec a 0); [cbn; lia|]. rewrite (proj2 (Z.eqb_neq (a + 1) 0)) by lia. cbn. lia.
  - exists z2, Hp2. split.
    + unfold put, x1, set_vd, set_counts_. cbn. f_equal. unfold dirty_change, dirty_rows. cbn [List.filter]. rewrite Eh. cbn [List.filter length]. destruct (is_dirty_row row.1), async; cbn [length]; lia.
    + destruct (Z.eqb_spec a 0) as [->|Hn]; [by rewrite <- app_assoc in S2|]. by rewrite (proj2 (Z.eqb_neq (a + 1) 0)) in S2 by lia.
Qed.

(** A row that goes. *)
Lemma drop_row_spec (x : Process S) Hp b l1 row l2 : at_row (rstate x) Hp b l1 row l2 (vd x) -> exists z, run (delete_cur_row Rt) x = Some (0, set_rstate z x) /\ standing z Hp b l1 l2.
Proof.
  intros (St & Er & Eh). pose proof St as [Ho ? ? ? ? ? ?]. rewrite <- app_assoc in Ho.
  destruct (delete_cur_row_spec (rstate x) Hp Rt b l1 row l2 (raw (rstate x)) Ho Er) as (z & r & E & Hz & [Ef Es] & _ & Eo & _). pose proof (holds_raw_of _ _ _ _ _ _ Hz) as <-.
  exists z. split; [unfold run; by rewrite E|]. split; rewrite ?Ef, ?Es; try done. unfold row_at, row_fields in *. by rewrite Eo, Ef, Es.
Qed.

Lemma pbind_assoc {A B C} (m : proc S A) (f : A -> proc S B) (g : B -> proc S C) (x : Process S) : (a ← m; c ← f a; g c) x = (c ← (a ← m; f a); g c) x.
Proof. unfold mbind, proc_bind. by destruct (m x) as [[? ?]|]. Qed.

(** The end of a round. *)
Lemma count_dirty (fl : Z) (m : proc S (Z + Z)) (x : Process S) :
  ((if is_dirty_row fl then add_dirty (-1) else mret tt);; (if async then add_dirty 1 else mret tt);; m) x
  = m (set_counts_ (rows_count_ x) (dirty_rows_count_ x + (if is_dirty_row fl then -1 else 0) + (if async then 1 else 0)) x).
Proof. destruct (is_dirty_row fl), async; do 2 (erewrite pbind_go by reflexivity); rewrite ?Z.add_0_r; try done. by destruct x. Qed.

Lemma replace_loop_spec b : forall l2 l1 (x : Process S) Hp (row0 : RowValue) a, standing (rstate x) Hp b l1 l2 -> Forall (good t) l2 -> Forall compares l2 -> vd x = handle_ (rm (raw (rstate x))) -> 0 <= a ->
  (a = 0 -> size_of b (l1 ++ l2) + Z.of_nat (length (enc_row (cols t) (OPER_SELECT, vs))) < 2 ^ 31) -> length row0 = length (stored_fields_of t) -> take k row0 = replicate k VZero ->
  exists r (y : Process S), replace_loop sys (length l2) async t t wire wire row0 a x = Some (r, y) /\ replaced_to x y b l1 l2 a r /\ (a <> 0 -> exists v, r = inr v).
Proof.
  induction l2 as [|row l2 IH]; intros l1 x Hp row0 a St G C Ev Ha Hr Hl Ek.
  - exists (inr a), x. split; [done|]. split; [|by eauto]. left. split; [f_equal; unfold hits; cbn; rewrite andb_false_r; lia|]. exists (rstate x), Hp. rewrite app_nil_r. split; [|done].
    rewrite <- Ev. unfold dirty_change. rewrite (put_same x) at 1. f_equal. destruct async; cbn; lia.
  - apply Forall_cons in G as [Gr G']. apply Forall_cons in C as [Cr C']. cbn [length replace_loop].
    destruct (fetch_next x Hp b l1 row l2 row0 St Gr Hl) as (z1 & E1 & S1 & R1 & _ & Eh1). rewrite Ek in E1. erewrite pbind_go by exact E1. cbn [negb Z.eqb]. rewrite <- Ev in Eh1.
    pose proof (shown_length _ _ Gr (length_replicate k VZero)) as Hl1. pose proof (shown_key _ row (length_replicate k VZero)) as Ek1. unfold compares in Cr. set (row1 := shown _ row) in *.
    erewrite (pbind_go _ _ _ (negb (hit row)) (set_rstate z1 x)).
    2: { unfold hit. destruct (key_as_uniq_field t); [done|]. rewrite orb_false_l. by erewrite pbind_go by (unfold try; by rewrite Cr). }
    destruct (hit row) eqn:Eh; cbn [negb].
    + cbv zeta. pose proof (conj S1 (conj R1 Eh1)) as At. destruct (Z.eqb_spec a 0) as [->|Hn].
      * rewrite pbind_assoc. destruct (replace_one_spec sys async (set_rstate z1 x) Hp b l1 row l2 wire vs At Gr Hlow (Hr eq_refl)) as (c & y1 & E2 & O). erewrite pbind_tail by exact E2.
        destruct O as [(-> & z2 & Hp2 & -> & S2)|(Hc & z2 & h & Hp2 & -> & -> & A2)]; cbn [negb Z.eqb].
        -- rewrite count_dirty. set (x2 := set_counts_ _ _ _). destruct (IH (l1 ++ [(if async then OPER_UPDATE else row.1, vs)]) x2 Hp2 row1 2 S2 G' C') as (r & y & E & O & F); [done|lia|lia|done|done|].
           exists r, y. split_and!; [exact E| |done]. eapply (replaced_step x y b l1 row l2 0); [done|lia| |by apply F]. exact O.
        -- rewrite (proj2 (Z.eqb_neq _ _) Hc). cbn [negb]. eexists _, _. split; [reflexivity|]. split; [|done]. right. split; [done|]. by eexists z2, _, Hp2.
      * destruct (drop_row_spec (set_rstate z1 x) Hp b l1 row l2 At) as (z2 & E2 & S2). erewrite pbind_go by exact E2. erewrite pbind_go by reflexivity. erewrite pbind_go by reflexivity. cbn [negb Z.eqb].
        rewrite count_dirty. set (x2 := set_counts_ _ _ _). destruct (IH l1 x2 Hp row1 (a + 1) S2 G' C') as (r & y & E & O & F); [done|lia|lia|done|done|].
        exists r, y. assert (exists v, r = inr v) as Fr by (apply F; lia). split_and!; [exact E| |done]. eapply (replaced_step x y b l1 row l2 a); [done|lia| |done]. rewrite (proj2 (Z.eqb_neq _ _) Hn). exact O.
    + destruct (IH (l1 ++ [row]) (set_rstate z1 x) Hp row1 a S1 G' C' (eq_sym Eh1) Ha) as (r & y & E & O & F); [by rewrite <- app_assoc|done|done|].
      exists r, y. split_and!; [exact E|by eapply replaced_skip|done].
Qed.

(** How a replace ends: the new row took the place of the rows like it, or was
    added where there was none; or there was no memory. *)
Definition replace_ends (o : DTCJobOperation) (setrows : bool) rows c (y : Process S) rows' : Prop :=
  let some := existsb hit rows in
  c = 0 /\ rows' = (if some then put_over true rows else rows ++ [(if async then OPER_INSERT else OPER_SELECT, vs)])
    /\ rows_count_ y = (if some then 0 else 1) /\ dirty_rows_count_ y = (if some then dirty_change async hit rows else if async then 1 else 0)
    /\ affected_rows (job_op y) = (if async || setrows then Some (hits rows + 1) else affected_rows o)
  \/ c = -3 /\ rows' = rows /\ rows_count_ y = 0 /\ dirty_rows_count_ y = 0.

(** Inserting the row where there is none like it. *)
Lemma replace_insert (setrows : bool) (x : Process S) Hp b rows : standing (rstate x) Hp b rows [] -> vd x = handle_ (rm (raw (rstate x))) -> Forall (good t) rows -> formatted (key_format t) b -> Z.land (Z.shiftr (b_type b) 7) 1 = idx ->
  rows_count_ x = 0 -> dirty_rows_count_ x = 0 -> result_shape (job (job_op x)) -> existsb hit rows = false ->
  size_of b rows + Z.of_nat (length (enc_row (cols t) (OPER_SELECT, vs))) < 2 ^ 31 ->
  exists c (y : Process S) Hp' b' rows', (iRet ← with_purge (put_row (fun ws => insert_row sys Rt ws false async) t wire); commit iRet;;
    if negb (iRet =? 0) then blacklist;; mret (-3) else add_rows 1;; (if async then add_dirty 1 else mret tt);; finish_change hour async setrows (0 + 1)) x = Some (c, y)
  /\ node_at y Hp' b' rows' /\ same_key b b' /\ replace_ends (job_op x) setrows rows c y rows'.
Proof.
  intros St Ev G F Ei E0 E1 Hrs Hno Hsz. assert (in_width 8 (b_count b)) as Hc8 by (destruct F; unfold in_width; lia). unfold replace_ends. rewrite Hno. destruct (put_over_none true rows Hno) as [_ Eh].
  destruct (insert_with_purge sys false async x Hp b rows [] wire vs St (eq_sym Ev) Hlow) as (c & z & h & Hp' & E & -> & O); [by rewrite app_nil_r|]. rewrite app_nil_r in O. erewrite pbind_tail by exact E.
  destruct O as [(-> & A)|(-> & S3)]; cbn [put_code andb negb Z.eqb].
  - eexists (-3), _, Hp', b, rows. split_and!; [reflexivity|by eapply leave_node|done|]. right. split_and!; done.
  - erewrite pbind_go by reflexivity. set (new := (if async then OPER_INSERT else OPER_SELECT, vs)) in *. set (x1 := set_counts_ 1 (if async then 1 else 0) (set_vd (handle_ (rm (raw z))) (set_rstate z x))).
    erewrite (pbind_go _ _ _ tt x1) by (unfold x1; destruct async; cbn; unfold add_dirty, modify, mret, proc_ret; cbn; by rewrite E0, E1).
    destruct (finish_change_spec hour async setrows (0 + 1) x1 Hp' b _ _ S3 Hc8 Hrs ltac:(lia)) as (z4 & o4 & b4 & E4 & S4 & K4 & H4 & Ea).
    apply standing_attached in S4. rewrite app_nil_r in S4. eexists 0, _, Hp', b4, _. split_and!; [exact E4|eapply leave_node; [exact S4|cbn; by rewrite H4|done..|]|done|left; split_and!; try done; rewrite Eh; exact Ea].
    apply (put_rows_good sys false async); [apply Hlow|done].
Qed.

Lemma do_replace_rows (setrows : bool) (x : Process S) Hp b rows : node_at x Hp b rows -> result_shape (job (job_op x)) -> update_row t (job_op x) (default_value t (new_row t)) = Some wire -> Forall compares rows ->
  size_of b rows + Z.of_nat (length (enc_row (cols t) (OPER_SELECT, vs))) < 2 ^ 31 ->
  exists c (y : Process S) Hp' b' rows', do_replace sys get_def idx expanding cur hour async setrows x = Some (c, y) /\ node_at y Hp' b' rows' /\ same_key b b' /\ replace_ends (job_op x) setrows rows c y rows'.
Proof.
  intros N Hrs Ew C Hsz. pose proof (na_good _ _ _ _ N) as G. pose proof (na_format _ _ _ _ N) as F. pose proof (na_table _ _ _ _ N) as Ei. assert (in_width 8 (b_count b)) as Hc8 by (destruct F; unfold in_width; lia).
  unfold do_replace. do 3 (erewrite pbind_go by reflexivity). set (x0 := set_counts_ 0 0 x). assert (node_at x0 Hp b rows) as N0 by (by destruct N; split).
  destruct (attach_data_node x0 Hp b rows N0) as (z & E & St & Eh & _). assert (vd x0 <> INVALID_HANDLE) as Hv. { rewrite <- Eh. destruct St as [(? & ? & V & _) _ _ _ _ _ _]. destruct (view_size _ _ _ _ V). unfold INVALID_HANDLE. lia. }
  rewrite (proj2 (Z.eqb_neq _ _) Hv). erewrite pbind_go by exact E. cbn [negb Z.eqb].
  erewrite pbind_go by (by eapply total_rows_eq). erewrite pbind_go by (by eapply node_table_eq). erewrite pbind_go by apply task_table_eq. erewrite pbind_go by (by eapply one_table_eq). cbn [app].
  erewrite pbind_go by (unfold try; cbn [job_op x0 set_counts_]; by rewrite Ew). erewrite pbind_go by reflexivity.
  destruct (replace_loop_spec b rows [] (set_rstate z x0) Hp (new_row t) 0 St G C (eq_sym Eh) ltac:(lia) ltac:(done) new_row_length blank_key) as (r & y & E1 & O & _). erewrite pbind_go by exact E1.
  destruct O as [(-> & z1 & Hp1 & -> & S1)|(-> & z1 & n & Hp1 & -> & A1)].
  2: { eexists (-3), _, Hp1, b, rows. split_and!; [reflexivity|by eapply leave_node|done|]. right. split_and!; done. }
  cbn [Z.eqb andb app] in S1 |- *. set (x1 := put _ _ _ _ _). destruct (existsb hit rows) eqn:Ex.
  - assert (0 + hits rows + 1 <> 0) as Hne by (unfold hits; lia). rewrite (proj2 (Z.eqb_neq _ _) Hne). cbn [negb].
    destruct (finish_change_spec hour async setrows (0 + hits rows + 1) x1 Hp1 b _ _ S1 Hc8 Hrs) as (z4 & o4 & b4 & E4 & S4 & K4 & H4 & Ea).
    { unfold hits. destruct (na_block _ _ _ _ N) as (? & ? & _ & _ & _ & _ & Hlim). rewrite length_app in Hlim. pose proof (body_rows (cols t) rows). pose proof (filter_length_le hit rows). lia. }
    apply standing_attached in S4. rewrite app_nil_r in S4. eexists 0, _, Hp1, b4, _. split_and!; [exact E4|eapply leave_node; [exact S4|cbn; by rewrite H4|done..|by apply put_over_good]|done|]. left. rewrite Ex. split_and!; done.
  - destruct (put_over_none true rows Ex) as [Ep Eh0]. rewrite Ep in S1. rewrite Eh0. cbn [Z.add Z.eqb negb].
    apply (replace_insert setrows x1 Hp1 b rows); try done. unfold x1. cbn. unfold dirty_change, hits in *. destruct (List.filter hit rows); [by destruct async|done].
Qed.

End Replace.

End Node.
