(* ===== verification/WireTheorems.v ===== *)
(** * Theorems on the wire protocol

    Values, sections, rows and whole packets: what one side writes the other
    side reads, and what a server makes of bytes nobody vouches for.  Each
    theorem with hypotheses has a witness on concrete data. *)

From S2P Require Import Prelude Codec CodecSpec HexFloat Sections SectionsSpec TableDef TableDefSpec Fields FieldsSpec FieldSets Request RequestSpec Md5 Md5Spec TablePack TablePackSpec Results ResultsSpec RequestSafe Packet PacketSafe PacketSpec.

(** ** A table for the witnesses *)

Definition demo_fields : list (Z * list Z * Z * Z) :=
  [(0, [107], DField.Unsigned, 4); (1, [97], DField.Signed, 4); (2, [115], DField.String, 100)].

Definition demo_table : DTCTableDefinition :=
  match add_fields demo_fields [] (new_table 3) with Some (_, t) => set_table_name [116; 97; 98] t | None => new_table 0 end.

Lemma demo_named : exists hist, named hist (names demo_table).
Proof.
  destruct (add_fields_named demo_fields [] (new_table 3) (replicate 3 0)) as (hist & t & E & Hn); [apply named_new; lia|reflexivity|].
  exists hist. unfold demo_table. rewrite E. exact Hn.
Qed.

Lemma demo_usable : usable demo_table.
Proof.
  split; [split|].
  - split; [exact demo_named|]. vm_compute. split; [discriminate|reflexivity].
  - intros i Hi. change (num_fields demo_table) with 2 in Hi. assert (i = 0 \/ i = 1 \/ i = 2) as [->|[->| ->]] by lia;
      (eexists; split; [vm_compute; reflexivity|vm_compute; split; [discriminate|reflexivity]]).
  - vm_compute. reflexivity.
Qed.

(** ** Values and sections *)

(** C25: A value that fits its type is encoded in as many bytes as
    [encoded_bytes_data_value] announces, and decoded from them with nothing of
    what follows read; only a null string comes back as the empty one. *)
Theorem wire_value_roundtrip `{TextLaws} (S : Type) (type : Z) (v : DTCValue) : fits type v ->
  exists bs, encode_data_value v type = Some bs /\ encoded_bytes_data_value v type = Some (Z.of_nat (length bs)) /\
    forall n rest (s : S), Z.of_nat (length bs) <= n ->
      decode_data_value type (mkD (mkBin n (bs ++ rest)) s) = Some (Ok (wired type v), mkD (mkBin (n - Z.of_nat (length bs)) rest) s).
Proof.
  intros Hf. destruct (encode_coded type v Hf) as (bs & E & Hc). exists bs. split_and!; [exact E|apply coded_size, Hc|].
  intros n rest s Hn. apply (coded_decodes type v bs Hc n rest s Hn).
Qed.

Lemma wire_value_roundtrip_witness : exists bs, encode_data_value (VFlt 0xBFF8000000000000) DField.Float = Some bs /\
  encoded_bytes_data_value (VFlt 0xBFF8000000000000) DField.Float = Some (Z.of_nat (length bs)) /\
  forall n rest (s : unit), Z.of_nat (length bs) <= n ->
    decode_data_value DField.Float (mkD (mkBin n (bs ++ rest)) s) = Some (Ok (Some (VFlt 0xBFF8000000000000)), mkD (mkBin (n - Z.of_nat (length bs)) rest) s).
Proof.
  apply (wire_value_roundtrip unit DField.Float (VFlt 0xBFF8000000000000)). exists 0xBFF8000000000000. split; [reflexivity|].
  left. split; [unfold in_width; lia|vm_compute; discriminate].
Defined.

(** C24: A simple section whose tags have values of their types is encoded in as
    many bytes as announced; decoding them into a new section of the same
    definition consumes exactly these bytes and gives every tag the value it
    had, and no other tag. *)
Theorem wire_section_roundtrip `{TextLaws} (d : SectionDefinition) (kt : Z) (sct : SimpleSection) : def_ok d -> definition sct = d -> sound_section kt sct ->
  exists bs, encode_simple_section sct kt = Some bs /\ encoded_bytes_simple_section sct kt = Some (Z.of_nat (length bs)) /\
  forall rest, exists ss,
    decode_simple_section kt (mkD (mkBin (Z.of_nat (length bs)) (bs ++ rest)) (new_section d)) = Some (Ok tt, mkD (mkBin 0 rest) ss) /\
    definition ss = d /\ forall i, 0 <= i -> get_tag ss i = get_tag sct i ≫= wired (wire_type sct kt i).
Proof. intros Hd Ed Hs. exact (section_trip kt sct Hs d Hd Ed). Qed.

Definition demo_version : SimpleSection :=
  default (new_section versionInfoDefinition) (s ← set_tag_string 1 (Some [84; 65]) (new_section versionInfoDefinition); set_tag_uint32 9 1 s).

Lemma demo_version_sound : sound_section DField.None demo_version.
Proof.
  split; [reflexivity|]. intros i Hi Hp. assert (i = 1 \/ i = 9) as [-> | ->].
  { unfold tag_present in Hp. destruct (Z.leb_spec MAX_STATIC_SECTION i); [discriminate|]. unfold MAX_STATIC_SECTION in *.
    assert (Hc : forallb (fun n => negb (FIELD_ISSET (Z.of_nat n) (Sections.fieldMask demo_version)) || (n =? 1)%nat || (n =? 9)%nat) (seq 0 20) = true) by (vm_compute; reflexivity).
    rewrite forallb_forall in Hc. specialize (Hc (Z.to_nat i) ltac:(apply in_seq; lia)). rewrite Z2Nat.id, Hp in Hc by lia. cbn [negb orb] in Hc.
    apply orb_true_iff in Hc as [Hc|Hc]; apply Nat.eqb_eq in Hc; lia. }
  - split; [discriminate|]. eexists. split; [reflexivity|]. eexists. split; [reflexivity|]. intros s [= <-]. vm_compute. reflexivity.
  - split; [discriminate|]. eexists. split; [reflexivity|]. eexists. split; [reflexivity|]. unfold is_s64. lia.
Qed.

Lemma wire_section_roundtrip_witness : exists bs ss, encode_simple_section demo_version DField.None = Some bs /\
  decode_simple_section DField.None (mkD (mkBin (Z.of_nat (length bs)) (bs ++ [7])) (new_section versionInfoDefinition)) = Some (Ok tt, mkD (mkBin 0 [7]) ss) /\
  get_tag ss 9 = Some (VInt 1) /\ get_tag ss 1 = Some (VBin (Some [84; 65])).
Proof.
  destruct (wire_section_roundtrip versionInfoDefinition DField.None demo_version (proj1 version_types) eq_refl demo_version_sound) as (bs & E & _ & Hd).
  destruct (Hd [7]) as (ss & Er & _ & Hg). exists bs, ss. split; [exact E|]. split; [exact Er|]. rewrite (Hg 9) by lia. rewrite (Hg 1) by lia. split; reflexivity.
Defined.

(** ** Packets *)

(** C18: Whatever the bytes of a packet are, a server's [decode_packet_v1] has a
    result and leaves the job in a final stage, provided the command is one of
    the seventeen with an entry in [cmd2type] and the field set announces no
    more fields than the table has; an administration request uses the hot
    backup table instead. *)
Theorem packet_decoding_safe `{Text} (e : Env) (t : DTCTableDefinition) (packet : list Z) (type : Z) : Forall is_byte packet -> usable t ->
  let h := header_of packet in let p := packet_body packet in
  cmd h <= 16 -> narrow h p t ->
  (cmd h = DRequest.TYPE_SYSTEM_COMMAND -> (exists t', hotbackupTableDef e = Some t' /\ usable t' /\ narrow h p t') /\ exists t', dataTableDef e = Some t') ->
  exists j, decode_packet_v1 e packet type (new_job (Some t) TaskRoleServer) = Some j /\ finished (stage j) = true.
Proof. intros Hb Hu h p Hc Hn Hs. exact (packet_safe e t packet type Hb Hu Hc Hn Hs). Qed.

Definition demo_env : Env := mkEnv false (Some demo_table) None None None (fun _ => true).

(** A request with a version section, a key and two fields, the first of them
    sent twice; the bytes after it belong to the next packet. *)
Definition demo_version_bytes : list Z := [1; 4; 116; 97; 98; 0; 9; 1; 2].
Definition demo_request_bytes : list Z := [0; 1; 42].
Definition demo_field_bytes : list Z := [3; 1; 2; 1].
Definition demo_body : list Z := demo_version_bytes ++ demo_request_bytes ++ demo_field_bytes.
Definition demo_header : list Z :=
  [1; 8; 1; 4] ++ [9; 0; 0; 0] ++ [0; 0; 0; 0] ++ [3; 0; 0; 0] ++ [0; 0; 0; 0] ++ [0; 0; 0; 0] ++ [0; 0; 0; 0] ++ [4; 0; 0; 0] ++ [0; 0; 0; 0].

Lemma demo_bytes : Forall is_byte (demo_header ++ demo_body).
Proof. unfold is_byte. repeat (constructor; [lia|]). constructor. Qed.

Lemma packet_decoding_safe_witness : exists j, decode_packet_v1 demo_env (demo_header ++ demo_body) 2 (new_job (Some demo_table) TaskRoleServer) = Some j /\ finished (stage j) = true.
Proof.
  apply (packet_decoding_safe demo_env demo_table (demo_header ++ demo_body) 2 demo_bytes demo_usable).
  - vm_compute. discriminate.
  - intros b Hb. vm_compute in Hb. injection Hb as <-. vm_compute. discriminate.
  - intros E. vm_compute in E. discriminate.
Defined.

(** C19: A packet with a non-empty body, for which there is a buffer, that
    arrives through a socket in any number of parts, with any
    number of interrupted or empty reads between them, is decoded by successive
    calls of [decode_stream] into the job [decode_packet_v1] makes of the whole
    packet; the bytes that follow it are left in the socket. *)
Theorem stream_decoding `{Text} (e : Env) (hd body more : list Z) (j j1 J : DtcJob) (k : list event) (r : SimpleReceiver) (c : Z) :
  Z.of_nat (length hd) = HEADER_SIZE -> body <> [] -> body_len (header_of hd) = Z.of_nat (length body) -> alloc_ok e (body_len (header_of hd)) = true ->
  stage j = DecodeStageIdle -> decode_header_v1 (header_of hd) j = Some (body_len (header_of hd), j1) ->
  decode_packet_v1 e (hd ++ body) 2 j = Some J -> feeds k (hd ++ body ++ more) ->
  exists n s, calls e n (mkStream j r k c) = Some s /\ sjob s = J /\ feeds (sock s) more.
Proof. intros. eapply stream_as_packet; eassumption. Qed.

(** The packet in five pieces with delays. *)
Definition demo_events : list event :=
  [Bytes (take 10 demo_header); Error EAGAIN; Bytes (drop 10 demo_header ++ take 3 demo_body); Error EINTR; Bytes (take 5 (drop 3 demo_body)); Bytes (drop 8 demo_body ++ [1; 8]); Bytes [1]].

Lemma demo_feeds : feeds demo_events (demo_header ++ demo_body ++ [1; 8; 1]).
Proof.
  unfold demo_events. change (demo_header ++ demo_body ++ [1; 8; 1]) with
    (take 10 demo_header ++ (drop 10 demo_header ++ take 3 demo_body) ++ take 5 (drop 3 demo_body) ++ (drop 8 demo_body ++ [1; 8]) ++ [1] ++ []).
  repeat (first [apply feeds_bytes; [discriminate|] | apply feeds_again; [(left; reflexivity) || (right; reflexivity)|] | apply feeds_nil]).
Qed.

Lemma stream_decoding_witness : exists n s J, decode_packet_v1 demo_env (demo_header ++ demo_body) 2 (new_job (Some demo_table) TaskRoleServer) = Some J /\
  calls demo_env n (mkStream (new_job (Some demo_table) TaskRoleServer) (mkRecv [] false [] 0) demo_events 0) = Some s /\ sjob s = J /\ feeds (sock s) [1; 8; 1].
Proof.
  assert (HJ : exists J, decode_packet_v1 demo_env (demo_header ++ demo_body) 2 (new_job (Some demo_table) TaskRoleServer) = Some J) by (eexists; vm_compute; reflexivity).
  destruct HJ as [J HJ].
  assert (H1 : exists j1, decode_header_v1 (header_of demo_header) (new_job (Some demo_table) TaskRoleServer) = Some (body_len (header_of demo_header), j1)) by (eexists; vm_compute; reflexivity).
  destruct H1 as [j1 H1].
  destruct (stream_decoding demo_env demo_header demo_body [1; 8; 1] (new_job (Some demo_table) TaskRoleServer) j1 J demo_events (mkRecv [] false [] 0) 0
    eq_refl ltac:(discriminate) eq_refl eq_refl eq_refl H1 HJ demo_feeds) as (n & s & Hc & Hs).
  exists n, s, J. auto.
Defined.

(** C38: A server goes on with a request, to the check of the table's hash, if
    the table name the client sent is the name of its table up to the case of
    the letters; otherwise decoding ends with the code of a table mismatch in
    the result, and the client is told to fetch the table definition.  Requests
    of the replicator are not checked. *)
Theorem table_mismatch `{Text} (e : Env) (t : DTCTableDefinition) (nm : list Z) (o : option (list Z)) (j : DtcJob) :
  role j = TaskRoleServer -> requestCode (codes j) <> DRequest.Replicate -> table j = Some t ->
  tableName t = Some nm -> Forall (fun c => is_byte c /\ c <> 0) nm -> tag_str (versionInfo (infos j)) 1 = Some o -> Forall is_byte (default [] o) -> result_shape j ->
  if decide (lower_char <$> nm = lower_char <$> default [] o) then check_table e j = check_table_hash e t j
  else exists j', check_table e j = Some (false, j') /\ stage j' = DecodeStageDataError /\
    tagValue (resultInfo (infos j')) !! 1%nat = Some (VInt (- EC_TABLE_MISMATCH)) /\ codes j' = or_requestFlags NeedTableDefinition (codes j).
Proof. exact (check_table_name e t nm o j). Qed.

(** A job whose client sent the name [nm]. *)
Definition demo_named_job (nm : list Z) : DtcJob :=
  on_infos (with_version (default (new_section versionInfoDefinition) (set_tag_string 1 (Some nm) (new_section versionInfoDefinition)))) (new_job (Some demo_table) TaskRoleServer).

Lemma table_mismatch_witness :
  check_table demo_env (demo_named_job [84; 97; 66]) = check_table_hash demo_env demo_table (demo_named_job [84; 97; 66]) /\
  exists j', check_table demo_env (demo_named_job [116; 97]) = Some (false, j') /\ stage j' = DecodeStageDataError /\
    tagValue (resultInfo (infos j')) !! 1%nat = Some (VInt (- EC_TABLE_MISMATCH)) /\ codes j' = or_requestFlags NeedTableDefinition (codes (demo_named_job [116; 97])).
Proof.
  assert (Hn : Forall (fun c => is_byte c /\ c <> 0) [116; 97; 98]) by (repeat constructor; unfold is_byte; lia). split.
  - exact (table_mismatch demo_env demo_table [116; 97; 98] (Some [84; 97; 66]) (demo_named_job [84; 97; 66]) eq_refl ltac:(discriminate) eq_refl eq_refl Hn eq_refl
      ltac:(repeat constructor; unfold is_byte; lia) (conj eq_refl eq_refl)).
  - exact (table_mismatch demo_env demo_table [116; 97; 98] (Some [116; 97]) (demo_named_job [116; 97]) eq_refl ltac:(discriminate) eq_refl eq_refl Hn eq_refl
      ltac:(repeat constructor; unfold is_byte; lia) (conj eq_refl eq_refl)).
Defined.

(** ** Requests *)

(** C21: The conditions, values or operations a client sends, by number or by
    name, are decoded by the server in their order into the numbers the table
    has for the fields, with the operators and the values sent; the section is
    consumed exactly. *)
Theorem request_values_roundtrip `{TextLaws} (t : DTCTableDefinition) (mode : Z) (s : FieldValueByName) (rs : list (Z * bool)) (rest : list Z) (j : DtcJob) :
  Forall2 (acceptable t mode) (val_fields s) rs -> 1 <= Z.of_nat (length (val_fields s)) <= 255 -> get_values mode (parts j) = None -> keys_once t 0 rs = true ->
  exists bs j' fv, encode_values_by_name s = Some bs /\
  decode_field_value t mode (mkD (mkBin (Z.of_nat (length bs)) (bs ++ rest)) j) = Some (Ok tt, mkD (mkBin 0 rest) j') /\
  get_values mode (parts j') = Some fv /\ Forall2 (fun er v => arrives (fst er) (snd er) = Some v) (zip (val_fields s) rs) (fieldValue fv).
Proof. exact (values_trip t mode s rs rest j). Qed.

(** [a > 7] by name and [s = "x"] by number. *)
Definition demo_values : FieldValueByName := mkValueByName 8 false
  [mkNV DField.Signed DField.GT (mkNamed 255 0 1 [97]) (VInt 7); mkNV DField.String DField.EQ (mkNamed 2 0 1 [115]) (VBin (Some [120]))].

Lemma demo_acceptable : Forall2 (acceptable demo_table 0) (val_fields demo_values) [(1, true); (2, false)].
Proof.
  constructor; [|constructor; [|constructor]]; unfold acceptable; cbn [nv_field nv_type nv_oper nv_val fid nlen name fst].
  - split; [right; split; [reflexivity|]; split; [reflexivity|]; split; [lia|]; exists 1; split; [vm_compute; reflexivity|split; [lia|reflexivity]]|].
    split; [change (num_fields demo_table) with 2; lia|]. split; [unfold DField.GT; lia|]. split; [discriminate|].
    split; [exists 7; split; [reflexivity|unfold is_s64; lia]|]. eexists. split; vm_compute; reflexivity.
  - split; [left; split; [lia|reflexivity]|]. split; [change (num_fields demo_table) with 2; lia|]. split; [unfold DField.EQ; lia|]. split; [discriminate|].
    split; [eexists; split; [reflexivity|]; intros s [= <-]; vm_compute; reflexivity|]. eexists. split; vm_compute; reflexivity.
Qed.

Lemma request_values_roundtrip_witness : exists bs j' fv, encode_values_by_name demo_values = Some bs /\
  decode_field_value demo_table 0 (mkD (mkBin (Z.of_nat (length bs)) (bs ++ [9])) (new_job (Some demo_table) TaskRoleServer)) = Some (Ok tt, mkD (mkBin 0 [9]) j') /\
  conditionInfo (parts j') = Some fv /\ fieldValue fv = [mkFV 1 DField.GT DField.Signed (VInt 7); mkFV 2 DField.EQ DField.String (VBin (Some [120]))].
Proof.
  destruct (request_values_roundtrip demo_table 0 demo_values [(1, true); (2, false)] [9] (new_job (Some demo_table) TaskRoleServer)
    demo_acceptable ltac:(cbn; lia) eq_refl ltac:(vm_compute; reflexivity)) as (bs & j' & fv & E & Ed & Ev & Hf).
  exists bs, j', fv. split; [exact E|]. split; [exact Ed|]. split; [exact Ev|].
  inversion Hf as [|? a ? l Ha Hl]; subst. inversion Hl as [|? b ? l' Hb Hl']; subst. inversion Hl'; subst. cbn in Ha, Hb. injection Ha as <-. injection Hb as <-. reflexivity.
Defined.

(** C26: For a job without a field set, the server stores the distinct numbers of
    the fields sent, in the order they first occur, and every number sent is
    among them; if they are more than the table has fields, they are written
    past the end of the buffer. *)
Theorem field_set_decoding (t : DTCTableDefinition) (bss : list (list Z)) (rs : list (Z * bool)) (rest : list Z) (j : DtcJob) :
  fields_sent t bss rs -> 1 <= Z.of_nat (length rs) <= 255 -> 0 <= num_fields t < 255 -> fieldList (parts j) = None ->
  let bs := Z.of_nat (length rs) :: concat bss in
  let ids := fst <$> news 0 rs in
  NoDup ids /\ (forall i, i ∈ ids <-> i ∈ fst <$> rs) /\
  decode_field_set t (mkD (mkBin (Z.of_nat (length bs)) (bs ++ rest)) j) =
  if num_fields t + 1 <? Z.of_nat (length ids) then None
  else Some (Ok tt, mkD (mkBin 0 rest) (on_parts (set_fieldList (mkFieldSet (num_fields t + 1) (Z.of_nat (length ids)) ids (num_fields t + 1) (build_field_mask ids 0))) (flag_names (news 0 rs) j))).
Proof. exact (field_set_stored t bss rs rest j). Qed.

Lemma demo_fields_sent : fields_sent demo_table [encode_field 1 0 []; encode_field 255 1 [115]; encode_field 1 0 []] [(1, false); (2, true); (1, false)].
Proof.
  assert (H1 : sent_field demo_table 1 0 [] (1, false)) by (left; split; [lia|reflexivity]).
  repeat constructor; try (cbn; lia); apply decode_field_id_sent; try exact H1.
  right. split; [reflexivity|]. split; [reflexivity|]. split; [lia|]. exists 2. split; [vm_compute; reflexivity|split; [lia|reflexivity]].
Qed.

Lemma field_set_decoding_witness : exists j',
  decode_field_set demo_table (mkD (mkBin 6 ([3; 1; 0; 1; 115; 1] ++ [])) (new_job (Some demo_table) TaskRoleServer)) = Some (Ok tt, j') /\
  fieldId <$> fieldList (parts (obj j')) = Some [1; 2].
Proof.
  destruct (field_set_decoding demo_table _ _ [] (new_job (Some demo_table) TaskRoleServer) demo_fields_sent ltac:(cbn; lia) ltac:(vm_compute; split; [discriminate|reflexivity]) eq_refl) as (_ & _ & E).
  eexists. split; [exact E|reflexivity].
Defined.

(** ** Results *)

(** C20: Of the rows appended to an answer, the client decodes those the limits
    of the request select, in order, with the requested fields as they were;
    after the last one it is told that there are no more. *)
Theorem result_rows_roundtrip `{TextLaws} (t : DTCTableDefinition) (realloc_ok : Z -> bool) (fs : DTCFieldSet) (st cnt : Z) (rows : list RowValue) (bs rest : list Z) (j : DtcJob) :
  (forall s, realloc_ok s = true) -> 0 <= st -> 0 <= cnt -> st + cnt < 2 ^ 32 -> fields_ok t fs ->
  Z.of_nat (length rows) < 2 ^ 32 -> Forall (row_fits t (fieldId fs)) rows -> answer_bytes t fs (window st cnt rows) = Some bs ->
  6 + num_ids fs + Z.of_nat (length bs) <= MAXANSWER -> Z.of_nat (length (window st cnt rows)) <= MAXPACKETSIZE -> result (parts j) = None ->
  exists p rs got e, append_rows realloc_ok t rows (new_result (Some fs) st cnt) = Some p /\ let sec := result_section p in
    (exists b, decode_result_set t (mkD (mkBin (Z.of_nat (length sec)) (sec ++ rest)) j) = Some (Ok tt, mkD b (on_parts (set_result rs) j))) /\
    fetch_rows t (length (window st cnt rows)) rs = Some (got, e) /\
    Forall2 (fun r g => Forall (shows t r g) (fieldId fs)) (window st cnt rows) got /\ decode_row t e = Some (- EC_NO_MORE_DATA, e).
Proof. exact (rows_trip t realloc_ok fs st cnt rows bs rest j). Qed.

Definition demo_set : DTCFieldSet := mkFieldSet 3 2 [2; 1] 3 6.
Definition demo_row (k a : Z) (s : list Z) : RowValue := [VInt k; VInt a; VBin (Some s)].
Definition demo_rows : list RowValue := [demo_row 1 10 [65]; demo_row 2 20 [66; 66]; demo_row 3 (-30) []; demo_row 4 40 [67]].

Lemma demo_row_fits t k a s : (forall i, i = 1 \/ i = 2 -> field_at t i = field_at demo_table i) -> is_s64 a -> Z.of_nat (length s) < MAXPACKETSIZE -> row_fits t (fieldId demo_set) (demo_row k a s).
Proof.
  intros Et Ha Hs. constructor; [|constructor; [|constructor]].
  - eexists _, _. split; [rewrite Et by auto; vm_compute; reflexivity|]. split; [reflexivity|]. split; [discriminate|]. eexists. split; [reflexivity|]. intros x [= <-]. exact Hs.
  - eexists _, _. split; [rewrite Et by auto; vm_compute; reflexivity|]. split; [reflexivity|]. split; [discriminate|]. exists a. split; [reflexivity|exact Ha].
Qed.

Lemma demo_rows_fit : Forall (row_fits demo_table (fieldId demo_set)) demo_rows.
Proof.
  repeat (apply Forall_cons; split; [apply demo_row_fits; first [reflexivity | unfold is_s64; lia]|]). apply Forall_nil. exact Logic.I.
Qed.

Lemma result_rows_roundtrip_witness : exists p rs got e, append_rows (fun _ => true) demo_table demo_rows (new_result (Some demo_set) 1 2) = Some p /\
  (exists b, decode_result_set demo_table (mkD (mkBin (Z.of_nat (length (result_section p))) (result_section p ++ [5])) (new_job (Some demo_table) TaskRoleClient)) =
    Some (Ok tt, mkD b (on_parts (set_result rs) (new_job (Some demo_table) TaskRoleClient)))) /\
  fetch_rows demo_table 2 rs = Some (got, e) /\ Forall2 (fun r g => Forall (shows demo_table r g) [2; 1]) [demo_row 2 20 [66; 66]; demo_row 3 (-30) []] got.
Proof.
  assert (Hb : exists bs, answer_bytes demo_table demo_set (window 1 2 demo_rows) = Some bs /\ Z.of_nat (length bs) = 10) by (eexists; split; [vm_compute; reflexivity|reflexivity]).
  destruct Hb as (bs & Eb & Hl).
  destruct (result_rows_roundtrip demo_table (fun _ => true) demo_set 1 2 demo_rows bs [5] (new_job (Some demo_table) TaskRoleClient)) as (p & rs & got & e & Ep & Ed & Ef & Hg & _).
  - reflexivity.
  - lia.
  - lia.
  - lia.
  - split; [reflexivity|]. split; [vm_compute; split; discriminate|]. split; [vm_compute; reflexivity|]. split; [repeat constructor; set_solver|].
    repeat constructor; vm_compute; discriminate.
  - vm_compute. reflexivity.
  - exact demo_rows_fit.
  - exact Eb.
  - rewrite Hl. vm_compute. discriminate.
  - vm_compute. discriminate.
  - reflexivity.
  - exists p, rs, got, e. auto.
Defined.

(** ** Tables and rows *)

(** However fields are added to a new table, each call returns, and a name
    is found as the number of the field last added under it, or not at all. *)
Theorem field_lookup (m : Z) (fs : list (Z * list Z * Z * Z)) : 1 <= m <= 256 ->
  exists hist t, add_fields fs [] (new_table m) = Some (hist, t) /\ forall nm, field_id t nm = Some (latest hist nm).
Proof. exact (built_table m fs). Qed.

Lemma field_lookup_witness : exists hist t, add_fields demo_fields [] (new_table 3) = Some (hist, t) /\ field_id t [115] = Some (latest hist [115]).
Proof. destruct (field_lookup 3 demo_fields ltac:(lia)) as (hist & t & E & Hf). exists hist, t. split; [exact E|apply Hf]. Defined.

(** C37: Adding to an integer field of less than eight bytes stores the value
    the field can hold that is nearest to the sum.  A field of eight bytes takes
    the sum as it is: an unsigned one then has the number 2^64 above a negative
    sum.  There is no result, the addition being undefined in C++, exactly when
    the sum exceeds 64 bits. *)
Theorem update_add_saturates (ft size v1 v2 : Z) (res := update_value ft size DField.Signed DField.Add (VInt v1) (VInt v2)) : is_int ft -> 1 <= size -> is_s64 v1 -> is_s64 v2 ->
  (is_s64 (v1 + v2) -> exists w, res = Some (VInt w) /\ (size < 8 -> nearest (field_lo ft size) (field_hi ft size) (v1 + v2) w) /\ (8 <= size -> w = v1 + v2))
  /\ (~ is_s64 (v1 + v2) -> res = None).
Proof. exact (update_add_nearest ft size v1 v2). Qed.

Lemma update_add_saturates_witness : (exists w, update_value DField.Unsigned 1 DField.Signed DField.Add (VInt 200) (VInt 100) = Some (VInt w) /\ nearest 0 255 300 w)
  /\ update_value DField.Unsigned 8 DField.Signed DField.Add (VInt 5) (VInt (-10)) = Some (VInt (-5)).
Proof.
  assert (is_int DField.Unsigned) as Hi by (right; reflexivity). split.
  - destruct (update_add_saturates DField.Unsigned 1 200 100 Hi) as [Hs _]; [lia|unfold is_s64; lia|unfold is_s64; lia|].
    destruct (Hs ltac:(unfold is_s64; lia)) as (w & E & Hn & _). exists w. split; [exact E|exact (Hn ltac:(lia))].
  - destruct (update_add_saturates DField.Unsigned 8 5 (-10) Hi) as [Hs _]; [lia|unfold is_s64; lia|unfold is_s64; lia|].
    destruct (Hs ltac:(unfold is_s64; lia)) as (w & E & _ & Hw). rewrite E, (Hw ltac:(lia)). reflexivity.
Defined.

(** [SetBits] changes the same bits of an integer and of the string of its
    eight bytes, for operands that ask for fewer than 128 bits. *)
Theorem setbits_same_bits (v1 v2 : Z) : bits_size v2 < 128 -> setbits_bin (le8 v1) v2 = le8 (setbits_int v1 v2).
Proof. exact (setbits_agree v1 v2). Qed.

Lemma setbits_same_bits_witness : setbits_bin (le8 0x1234) 0x08000004000000FF = le8 (setbits_int 0x1234 0x08000004000000FF).
Proof. apply (setbits_same_bits 0x1234 0x08000004000000FF). vm_compute. reflexivity. Defined.

(** C36: The unrolled block transform fed in any pieces computes the MD5 digest
    of RFC 1321 of their concatenation. *)
Theorem md5_is_rfc1321 (pieces : list (list Z)) (ctx : MD5Context) : length (in_ ctx) = 64%nat -> Forall (fun p => Z.of_nat (length p) < 2 ^ 32) pieces ->
  MD5Final (fold_left (fun c p => MD5Update p c) pieces (MD5Init ctx)) = md5 (concat pieces).
Proof. exact (md5_stream pieces ctx). Qed.

Lemma md5_is_rfc1321_witness : exists ctx, MD5Final (fold_left (fun c p => MD5Update p c) [[97]; [98; 99]] (MD5Init ctx)) =
  [0x90; 0x01; 0x50; 0x98; 0x3c; 0xd2; 0x4f; 0xb0; 0xd6; 0x96; 0x3f; 0x7d; 0x28; 0xe1; 0x7f; 0x72].
Proof.
  exists (mkMD5 (mkWords 0 0 0 0) 0 0 (replicate 64 0)). rewrite (md5_is_rfc1321 [[97]; [98; 99]] (mkMD5 (mkWords 0 0 0 0) 0 0 (replicate 64 0))); [vm_compute; reflexivity|reflexivity|].
  repeat (apply Forall_cons; split; [vm_compute; reflexivity|]). apply Forall_nil. exact Logic.I.
Defined.

(** C39: A client cannot unpack the packed definition of any table with a field
    besides the key: [add_field] writes through [rawFields], which the
    constructor of a client-side object leaves unset. *)
Theorem unpack_undefined `{Text} (t : DTCTableDefinition) (nm bs : list Z) (f0 f1 : FieldDefinition) (n0 n1 : list Z) :
  tableName t = Some nm -> 1 <= Z.of_nat (length nm) <= 255 -> 1 <= num_fields t <= 254 ->
  field_at t 0 = Some f0 -> good_field f0 n0 -> field_at t 1 = Some f1 -> good_field f1 n1 -> packedTableDefinition t = Some bs ->
  Unpack (mkD (mkBin (Z.of_nat (length bs)) bs) (new_table 0)) = None.
Proof. intros. eapply unpack_stuck; eassumption. Qed.

Lemma unpack_undefined_witness : exists bs, packedTableDefinition demo_table = Some bs /\ Unpack (mkD (mkBin (Z.of_nat (length bs)) bs) (new_table 0)) = None.
Proof.
  assert (Hb : exists bs, packedTableDefinition demo_table = Some bs) by (eexists; vm_compute; reflexivity). destruct Hb as [bs Hb]. exists bs. split; [exact Hb|].
  assert (Hg : forall f nm, fieldName f = Some nm -> nameLen f = Z.of_nat (length nm) -> 1 <= Z.of_nat (length nm) <= 255 -> Forall (fun c => 0 < c < 256) nm ->
    0 <= field_type f < 256 -> 0 < fieldSize f <= MAXPACKETSIZE -> (exists v, type_default (field_type f) (fieldSize f) = inr v) -> good_field f nm) by (unfold good_field; auto 10).
  eapply (unpack_undefined demo_table [116; 97; 98] bs); [reflexivity|cbn; lia|vm_compute; split; discriminate|vm_compute; reflexivity| |vm_compute; reflexivity| |exact Hb];
    (apply Hg; cbn [fieldName nameLen field_type fieldSize]; [reflexivity|reflexivity|cbn; lia|repeat constructor; lia|lia|unfold MAXPACKETSIZE; lia|eexists; vm_compute; reflexivity]).
Defined.
