(* ===== verification/ProcessTheorems.v ===== *)
(** * The properties of the requests on a node

    A node's block is a list of rows.  A get answers with the rows the job
    selects, as the client decodes them; a delete, an append, an update and a
    replace change the list as they say and report what they did; a flush hands
    every dirty row out once.  The theorems hold for every allocator behind
    [MallocBase] and every way of making room that keeps to [PurgeLaws]; the
    witnesses run on a segment managed by [PtMalloc]. *)

From stdpp Require Import base list gmap.
From S2P Require Import Prelude PtMalloc PtMallocSpec PtMallocTheorems MallocBase RawData RawBytes RawRows RawSpec RawOps RawEdit RawHead RawSafe RawTrip RawTheorems.
From S2P Require Import Codec CodecSpec HexFloat Sections TableDef Fields FieldsSpec FieldSets Request Results ResultsSpec Packet PacketSafe PackedKey RowProcess RowProcessSpec WireTheorems.

Local Open Scope Z_scope.

(** ** A node with three rows, for the witnesses *)

Definition item_table : DTCTableDefinition := match set_key_fields 1 demo_table with Some (_, t) => t | None => new_table 0 end.
Definition item_def (i : Z) : option DTCTableDefinition := if i =? 0 then Some item_table else None.
Definition item_key : list Z := [42; 0; 0; 0].
Definition item_values (a : Z) (s : list Z) : list RawData.DTCValue := [RawData.VInt a; RawData.VBin s].
Definition item_row (a : Z) (s : list Z) : RawData.RowValue := RawData.VInt 0 :: item_values a s.
Definition item_block : block := new_block 0 item_key 77.
Definition item_rows : list RRow := [(OPER_INSERT, item_values 5 [120]); (OPER_INSERT, item_values (-3) [121; 122]); (OPER_INSERT, item_values 9 [])].

(** The pond after [disable_try_purge]. *)
#[local] Instance no_purge : Purge PtMalloc := { try_purge_size n h st := Some (-1, st); purge_node k h st := Some (tt, st) }.
#[local] Instance no_purge_laws : PurgeLaws PtMalloc.
Proof. split. intros n h st Hp m R Hh. by exists (-1), st, Hp. Qed.

Definition i0 : demo := mkR demo0 new_RawData.
Definition i1 : demo := RawTheorems.then_ i0 (RawData.do_init false 0 (raw_def item_def) item_key 0 77 i0).
Definition i2 : demo := RawTheorems.then_ i1 (insert_n_rows true (raw_table item_table) [item_row 5 [120]; item_row (-3) [121; 122]; item_row 9 []] false true i1).

Lemma i1_run : RawData.do_init false 0 (raw_def item_def) item_key 0 77 i0 = Some (Go 0, i1).
Proof. apply code_run. vm_compute. reflexivity. Qed.

Lemma i2_run : insert_n_rows true (raw_table item_table) [item_row 5 [120]; item_row (-3) [121; 122]; item_row 9 []] false true i1 = Some (Go 0, i2).
Proof. apply code_run. vm_compute. reflexivity. Qed.

Lemma i0_rep : m_rep (rs i0) ∅.
Proof. exact demo0_rep. Qed.

#[local] Opaque i0 i1 i2.

Lemma item_fits : table_fits item_table.
Proof.
  split; [vm_compute; split; discriminate|vm_compute; reflexivity|apply Nat.leb_le; vm_compute; reflexivity|]. repeat constructor.
Qed.

Lemma item_defs : item_def 0 = Some item_table.
Proof. done. Qed.

Lemma i2_holds : exists Hp, holds i2 Hp (raw_table item_table) item_block item_rows (raw i2) /\ row_fields (raw_table item_table) (raw i2) = cols item_table.
Proof.
  destruct (raw_do_init_spec false 0 (raw_def item_def) i0 ∅ (raw_table item_table) item_key 0 77 i0_rep eq_refl) as (res & y & E & _ & O); [done|done|done|done|].
  rewrite i1_run in E. destruct (go_pair _ _ _ _ E) as [<- <-]. destruct O as [[? _]|(_ & n & r & _ & Ho & As & Ef & Ek & _)]; [done|].
  pose proof (holds_raw_of _ _ _ _ _ _ Ho) as <-. rewrite (stored_cols item_table item_fits) in Ef.
  set (new := [item_row 5 [120]; item_row (-3) [121; 122]; item_row 9 []]).
  assert (row_of OPER_INSERT (raw i1) <$> new = item_rows) as Er by (unfold row_of, RawData.row_values, item_rows; by rewrite Ek).
  destruct (insert_n_rows_spec true i1 _ (raw_table item_table) _ [] (raw i1) new false true Ho) as (res & y & Hp' & r & E2 & [Ef' _] & _ & O).
  - unfold rows_fit, RawData.row_values. rewrite Ef, Ek. by repeat constructor.
  - rewrite Ef, Er, (holds_size _ _ _ _ _ _ Ho), (as_start _ _ _ As), Ef. vm_compute. reflexivity.
  - unfold new in E2. rewrite i2_run in E2. destruct (go_pair _ _ _ _ E2) as [<- <-]. destruct O as [[? _]|[_ Ho']]; [done|]. rewrite Er in Ho'.
    pose proof (holds_raw_of _ _ _ _ _ _ Ho') as <-. exists Hp'. split; [exact Ho'|]. unfold row_fields in *. by rewrite Ef'.
Qed.

(** The process before a request [o] on the node. *)
Definition item_process (o : DTCJobOperation) : Process PtMalloc := mkProcess (mkR (rs i2) new_RawData) (handle_ (rm (raw i2))) 0 0 o None false 0 [].

Lemma item_formatted : formatted (key_format item_table) item_block.
Proof. split; vm_compute; try split; (reflexivity || discriminate). Qed.

Lemma item_cols : cols item_table = [mkField FSigned 4 false; mkField FString 100 false].
Proof. vm_compute. reflexivity. Qed.

Lemma item_exact a s : - 2 ^ 31 <= a < 2 ^ 31 -> Z.of_nat (length s) < 2 ^ 31 -> Forall is_byte s -> Forall2 exact (cols item_table) (item_values a s).
Proof. intros Ha Hl Hs. rewrite item_cols. constructor; [|constructor; [|constructor]]; (split; [|done]); [exact Ha|by split]. Qed.

Ltac item_exact := apply item_exact; [lia|vm_compute; reflexivity|repeat constructor; unfold is_byte; lia].

Lemma item_good : Forall (good item_table) item_rows.
Proof. repeat (apply Forall_cons; split; [split; [by unfold in_width|item_exact]|]). by apply Forall_nil. Qed.

Lemma item_node o : exists Hp, node_at 0 item_table (item_process o) Hp item_block item_rows.
Proof.
  destruct i2_holds as (Hp & Ho & Ef). exists Hp. pose proof (holds_block _ _ _ _ _ _ Ho) as B. rewrite Ef in B.
  split; [|exact B|exact item_formatted|vm_compute; reflexivity|exact item_good]. destruct Ho as (? & ? & V & _). apply V.
Qed.

Section Properties.

Context {S : Type} `{MallocLaws S} (get_def : Z -> option DTCTableDefinition) (idx : Z) (t : DTCTableDefinition).

Implicit Types (x y : Process S) (Hp : heap) (b : block) (rows : list RRow).

(** C7: A get of fields (one that does not only count, and is not part of a batch)
    leaves the rows of the node as they are, if the table has no field for the
    time of the last access or the request is not to touch it, and answers with
    those that the job selects and its limits leave: the client decodes their
    requested fields, in order, and then is told that there are no more.  There
    is memory for the answer.  Other blocks are not touched. *)
Theorem process_get `{TextLaws} realloc_ok now hour x Hp b rows st ct fs key (sel : RRow -> bool) (out : RRow -> RowValue) bs rest j (o := job_op x) (answer := window st ct (out <$> List.filter sel rows)) :
  table_fits t -> get_def idx = Some t -> node_at idx t x Hp b rows -> resultWriter x = None -> flag_no_cache o = true \/ hasLastacc (marks t) <= 0 -> (forall s, realloc_ok s = true) ->
  limit_start o = Some st -> limit_count o = Some ct -> 0 <= st -> 0 <= ct -> st + ct < 2 ^ 32 -> fieldList (parts (job o)) = Some fs -> fields_ok t fs -> job_key t o key ->
  Forall (fun row => compare_row t o (shown key row) = Some (sel row) /\ update_expire_time t now (shown key row) = Some (out row)) rows ->
  Forall (ResultsSpec.row_fits t (fieldId fs)) (out <$> List.filter sel rows) -> answer_bytes t fs answer = Some bs ->
  6 + num_ids fs + Z.of_nat (length bs) <= MAXANSWER -> Z.of_nat (length answer) <= MAXPACKETSIZE -> result (parts j) = None ->
  exists y p rs got e, do_get realloc_ok get_def idx hour now false x = Some (0, y) /\ changed idx t x Hp b y Hp rows /\ resultWriter y = Some p
  /\ (let sec := result_section p in exists d, decode_result_set t (mkD (mkBin (Z.of_nat (length sec)) (sec ++ rest)) j) = Some (Ok tt, mkD d (on_parts (set_result rs) j)))
  /\ fetch_rows t (length answer) rs = Some (got, e) /\ Forall2 (fun r g => Forall (shows t r g) (fieldId fs)) answer got /\ Request.decode_row t e = Some (- EC_NO_MORE_DATA, e).
Proof.
  intros Ht Hg N Ew Hla Hmem Es Ec Hs Hc Hl Ef Hf Hj Hr Hfit Eb Hm Hw Hres.
  assert (Z.of_nat (length (out <$> List.filter sel rows)) < 2 ^ 32) as Hn.
  { rewrite length_fmap. destruct (na_block _ _ _ _ _ _ N) as (? & ? & _ & _ & _ & _ & Hlim). rewrite length_app in Hlim. pose proof (body_rows (cols t) rows). pose proof (filter_length_le sel rows). lia. }
  destruct (rows_trip t realloc_ok fs st ct _ bs rest j Hmem Hs Hc Hl Hf Hn Hfit Eb Hm Hw Hres) as (p & rs & got & e & Ep & Ed & Er & Hgot & Hend).
  destruct (do_get_spec get_def idx t Ht Hg realloc_ok now hour x Hp b rows st ct key sel out p) as (y & E & C & Wy & _); try done; [by fold o; rewrite Ef|].
  by exists y, p, rs, got, e.
Qed.

(** C9: A delete takes exactly the selected rows out of the block, which stays
    where it is, keeps the order of the others and all other blocks, and
    reports the number of rows and of dirty rows gone; the job answers with
    that number unless it has one already and no time stamp condition. *)
Theorem process_delete hour x Hp b rows (sel : RRow -> bool) a0 (gone := List.filter sel rows) : table_fits t -> get_def idx = Some t -> node_at idx t x Hp b rows ->
  result_shape (job (job_op x)) -> affected_rows (job_op x) = Some a0 ->
  Forall (fun row => compare_row t (job_op x) (shown (replicate (keys_of t) VZero) row) = Some (sel row)) rows ->
  exists y Hp', do_delete get_def idx hour x = Some (0, y) /\ changed idx t x Hp b y Hp' (List.filter (fun row => negb (sel row)) rows) /\ vd y = vd x
  /\ rows_count_ y = - Z.of_nat (length gone) /\ dirty_rows_count_ y = - Z.of_nat (length (dirty_rows gone))
  /\ affected_rows (job_op y) = Some (if (0 <? Z.of_nat (length gone)) && counts_here (job_op x) a0 then Z.of_nat (length gone) else a0).
Proof. intros Ht Hg. by apply do_delete_spec. Qed.

(** C12: A flush hands every dirty row, with the key of the node, to the data
    source once and in order, and marks it clean; at the first row that is
    refused it stops, and that row and the rows behind it are as they were.  No
    row is lost or changed otherwise. *)
Theorem process_flush (f : RowValue -> bool) x Hp b m l2 key n0 : table_fits t -> get_def idx = Some t -> node_at idx t x Hp b (m ++ l2) -> unpack_key t (b_key b) = Some key -> (keys_of t <= length key)%nat ->
  Forall (fun row => is_dirty_row row.1 = true -> f (shown (take (keys_of t) key) row) = true) m ->
  (forall row l, l2 = row :: l -> is_dirty_row row.1 = true /\ f (shown (take (keys_of t) key) row) = false) ->
  exists y, do_flush get_def t (Some f) true n0 x = Some ((if l2 then 0 else -2, Z.of_nat (length (dirty_rows m))), y) /\ changed idx t x Hp b y Hp ((clean <$> m) ++ l2)
  /\ flushed y = flushed x ++ (shown (take (keys_of t) key) <$> dirty_rows m) /\ vd y = vd x /\ rows_count_ y = 0 /\ dirty_rows_count_ y = - Z.of_nat (length (dirty_rows m)).
Proof. intros Ht Hg. by apply do_flush_spec. Qed.

Context `{Purge S} `{!PurgeLaws S}.

(** C10: An append adds the job's row to the node, at the end or at the front,
    and reports it; or it answers -1062 and leaves the rows as they are; or
    memory is missing, and the rows are as they were unless the row could be
    stored but not be moved to the front.  The answer is -1062 exactly if the key
    is the unique field, there is a row, and the append is asynchronous or sets
    the affected rows; or if the append sets the affected rows, the key is part
    of the unique fields, and a row has the same unique fields.  An append that
    is neither asynchronous nor sets the affected rows does not look for
    duplicates and adds one. *)
Theorem process_append sys hour (insert_order isDirty setrows : bool) x Hp b rows (wire : RowValue) vs (cmp : RRow -> Z) a0 (new := ((if isDirty then OPER_INSERT else OPER_SELECT), vs) : RRow) :
  table_fits t -> get_def idx = Some t -> node_at idx t x Hp b rows -> result_shape (job (job_op x)) -> affected_rows (job_op x) = Some a0 -> append_row_of (job_op x) t = Some wire -> lowered t wire vs ->
  Forall (fun row => row_compare t wire (shown (replicate (keys_of t) VZero) row) (uniq_fields_list t) = Some (cmp row)) rows ->
  size_of t b rows + Z.of_nat (length (enc_row (cols t) new)) < 2 ^ 31 ->
  exists c y Hp' b' rows', do_append sys get_def idx hour insert_order isDirty setrows x = Some (c, y) /\ node_at idx t y Hp' b' rows' /\ same_key b b'
  /\ append_ends t sys insert_order isDirty setrows a0 cmp new rows c y rows'.
Proof. intros Ht Hg. by apply do_append_rows. Qed.


(** C11: A replace on a node with rows puts the job's row in the place of the
    first row with the same unique fields and takes the other such rows out, or
    adds it where there is none; without memory it answers -3 with all rows as
    they were.  The number of rows it reports is 1 for an added row and 0
    otherwise, also where rows were taken out. *)
Theorem process_replace sys expanding cur hour (async setrows : bool) x Hp b rows (wire : RowValue) vs (cmp : RRow -> Z) : table_fits t -> get_def idx = Some t -> node_at idx t x Hp b rows ->
  result_shape (job (job_op x)) -> update_row t (job_op x) (default_value t (new_row t)) = Some wire -> lowered t wire vs -> Forall (compares t wire cmp) rows ->
  size_of t b rows + Z.of_nat (length (enc_row (cols t) (OPER_SELECT, vs))) < 2 ^ 31 ->
  exists c y Hp' b' rows', do_replace sys get_def idx expanding cur hour async setrows x = Some (c, y) /\ node_at idx t y Hp' b' rows' /\ same_key b b'
  /\ replace_ends t async vs cmp (job_op x) setrows rows c y rows'.
Proof. intros Ht Hg N Hr Ew Lw. by eapply do_replace_rows. Qed.

End Properties.

(** ** Requests on the node *)

(** A job for key 42 with the condition [a > 0] and the limits 1, 1; field [s],
    then field [a].  The result information was cleaned. *)
Definition item_job (code : Z) (upd : option DTCFieldValue) : DTCJobOperation :=
  let j := new_job (Some item_table) TaskRoleServer in
  mkOp (mkJob (stage j) (role j) (table j) (mkInfos (versionInfo (infos j)) (mkSection requestInfoDefinition 3 13 (VInt 42 :: VZero :: VInt 1 :: VInt 1 :: replicate 16 VZero)) (Sections.Clean (resultInfo (infos j)))) (mkCodes code 0 0 0 0 0)
    (mkParts upd (Some (mkFieldValue [mkFV 1 DField.GT DField.Signed (VInt 0)] 1 0 0)) (Some demo_set) None) None true false)
    KeyNull (replicate 8 0) None 0 0 0 0.
Definition positive (row : RRow) : bool := match row.2 with RawData.VInt a :: _ => 0 <? a | _ => false end.

Lemma item_all P : P (OPER_INSERT, item_values 5 [120]) -> P (OPER_INSERT, item_values (-3) [121; 122]) -> P (OPER_INSERT, item_values 9 []) -> Forall P item_rows.
Proof. by repeat constructor. Qed.

Lemma item_field_at i : i = 1 \/ i = 2 -> field_at item_table i = field_at demo_table i.
Proof. intros [-> | ->]; vm_compute; reflexivity. Qed.

Lemma process_get_witness : exists y p rs got e, do_get (fun _ => true) item_def 0 80 0 false (item_process (item_job 4 None)) = Some (0, y) /\ resultWriter y = Some p
  /\ (exists d, decode_result_set item_table (mkD (mkBin (Z.of_nat (length (result_section p))) (result_section p ++ [7])) (new_job (Some item_table) TaskRoleClient))
       = Some (Ok tt, mkD d (on_parts (set_result rs) (new_job (Some item_table) TaskRoleClient))))
  /\ fetch_rows item_table 1 rs = Some (got, e) /\ Forall2 (fun r g => Forall (shows item_table r g) [2; 1]) [demo_row 42 9 []] got.
Proof.
  destruct (item_node (item_job 4 None)) as (Hp & N).
  assert (Hb : exists bs, answer_bytes item_table demo_set [demo_row 42 9 []] = Some bs /\ Z.of_nat (length bs) = 4) by (eexists; split; [vm_compute; reflexivity|reflexivity]).
  destruct Hb as (bs & Eb & Hl).
  destruct (process_get item_def 0 item_table (fun _ => true) 0 80 (item_process (item_job 4 None)) Hp item_block item_rows 1 1 demo_set [VInt 42] positive (shown [VInt 42]) bs [7] (new_job (Some item_table) TaskRoleClient))
    as (y & p & rs & got & e & E & _ & W & D & F & G & _); try lia; try reflexivity.
  - exact item_fits.
  - exact N.
  - right. vm_compute. discriminate.
  - split; [reflexivity|]. split; [vm_compute; split; discriminate|]. split; [vm_compute; reflexivity|]. split; [repeat constructor; set_solver|]. repeat constructor; vm_compute; discriminate.
  - split; [reflexivity|]. exists (VInt 42). split; reflexivity.
  - apply item_all; split; vm_compute; reflexivity.
  - change (shown [VInt 42] <$> List.filter positive item_rows) with [demo_row 42 5 [120]; demo_row 42 9 []].
    repeat (apply Forall_cons; split; [apply (demo_row_fits item_table 42); first [exact item_field_at | unfold is_s64; lia | reflexivity]|]). by apply Forall_nil.
  - exact Eb.
  - rewrite Hl. vm_compute. discriminate.
  - vm_compute. discriminate.
  - exists y, p, rs, got, e. auto.
Defined.

(** [a] grows by 10. *)
Definition item_change : DTCFieldValue := mkFieldValue [mkFV 1 DField.Add DField.Signed (VInt 10)] 1 0 0.
Definition item_grown (row : RRow) : list RawData.DTCValue := match row.2 with RawData.VInt a :: rest => RawData.VInt (a + 10) :: rest | _ => [] end.

Lemma item_result_shape code upd : result_shape (job (item_job code upd)).
Proof. by split. Qed.

Lemma process_delete_witness : exists y Hp Hp', do_delete item_def 0 80 (item_process (item_job 8 None)) = Some (0, y)
  /\ changed 0 item_table (item_process (item_job 8 None)) Hp item_block y Hp' [(OPER_INSERT, item_values (-3) [121; 122])] /\ rows_count_ y = -2 /\ dirty_rows_count_ y = -2
  /\ affected_rows (job_op y) = Some 2.
Proof.
  destruct (item_node (item_job 8 None)) as (Hp & N).
  destruct (process_delete item_def 0 item_table 80 (item_process (item_job 8 None)) Hp item_block item_rows positive 0) as (y & Hp' & E & C & _ & R & D & A).
  - exact item_fits.
  - reflexivity.
  - exact N.
  - apply item_result_shape.
  - reflexivity.
  - apply item_all; vm_compute; reflexivity.
  - exists y, Hp, Hp'. auto.
Defined.

(** The data source refuses a row without text. *)
Definition has_text (row : RowValue) : bool := match row with [_; _; VBin (Some (_ :: _))] => true | _ => false end.

Lemma process_flush_witness : exists y Hp, do_flush item_def item_table (Some has_text) true 0 (item_process (item_job 4 None)) = Some ((-2, 2), y)
  /\ changed 0 item_table (item_process (item_job 4 None)) Hp item_block y Hp [(0x34, item_values 5 [120]); (0x34, item_values (-3) [121; 122]); (OPER_INSERT, item_values 9 [])]
  /\ flushed y = [demo_row 42 5 [120]; demo_row 42 (-3) [121; 122]] /\ dirty_rows_count_ y = -2.
Proof.
  destruct (item_node (item_job 4 None)) as (Hp & N).
  destruct (process_flush item_def 0 item_table has_text (item_process (item_job 4 None)) Hp item_block (take 2 item_rows) (drop 2 item_rows) [VInt 42] 0) as (y & E & C & F & _ & _ & D).
  - exact item_fits.
  - reflexivity.
  - exact N.
  - vm_compute. reflexivity.
  - apply Nat.leb_le. vm_compute. reflexivity.
  - repeat constructor.
  - intros row l [= <- <-]. split; reflexivity.
  - exists y, Hp. split; [exact E|]. split; [exact C|]. split; [exact F|exact D].
Defined.

(** The values of a new row: [a = 4], [s = "w"]. *)
Definition item_new : DTCFieldValue := mkFieldValue [mkFV 1 DField.Set_ DField.Signed (VInt 4); mkFV 2 DField.Set_ DField.String (VBin (Some [119]))] 2 0 0.

(** A request that is known to succeed. *)
Lemma succeeds (m : option (Z * Process PtMalloc)) c y : fst <$> m = Some 0 -> m = Some (c, y) -> c = 0.
Proof. intros E ->. by injection E. Qed.

Lemma append_done : fst <$> do_append true item_def 0 80 true true true (item_process (item_job 6 (Some item_new))) = Some 0.
Proof. vm_compute. reflexivity. Qed.

Lemma process_append_witness : exists y Hp b', do_append true item_def 0 80 true true true (item_process (item_job 6 (Some item_new))) = Some (0, y)
  /\ node_at 0 item_table y Hp b' ((OPER_INSERT, item_values 4 [119]) :: item_rows) /\ same_key item_block b' /\ rows_count_ y = 1 /\ dirty_rows_count_ y = 1 /\ affected_rows (job_op y) = Some 1.
Proof.
  destruct (item_node (item_job 6 (Some item_new))) as (Hp & N).
  destruct (process_append item_def 0 item_table true 80 true true true (item_process (item_job 6 (Some item_new))) Hp item_block item_rows [VZero; VInt 4; VBin (Some [119])] (item_values 4 [119]) (fun _ => 0) 0)
    as (c & y & Hp' & b' & rows' & E & N' & K & O).
  - exact item_fits.
  - reflexivity.
  - exact N.
  - apply item_result_shape.
  - reflexivity.
  - vm_compute. reflexivity.
  - split; [vm_compute; reflexivity|]. split; [vm_compute; reflexivity|item_exact].
  - apply item_all; vm_compute; reflexivity.
  - vm_compute. reflexivity.
  - pose proof (succeeds _ _ _ append_done E) as ->. destruct O as [(_ & _ & -> & R & D & A)|(_ & _ & [[O _]|[O _]])]; [|discriminate O..].
    exists y, Hp', b'. auto 10.
Defined.

Lemma replace_done : fst <$> do_replace true item_def 0 false 0 80 true true (item_process (item_job 9 (Some item_new))) = Some 0.
Proof. vm_compute. reflexivity. Qed.

Lemma process_replace_witness : exists y Hp b', do_replace true item_def 0 false 0 80 true true (item_process (item_job 9 (Some item_new))) = Some (0, y)
  /\ node_at 0 item_table y Hp b' [(OPER_UPDATE, item_values 4 [119])] /\ same_key item_block b' /\ rows_count_ y = 0 /\ dirty_rows_count_ y = 0 /\ affected_rows (job_op y) = Some 4.
Proof.
  destruct (item_node (item_job 9 (Some item_new))) as (Hp & N).
  destruct (process_replace item_def 0 item_table true false 0 80 true true (item_process (item_job 9 (Some item_new))) Hp item_block item_rows [VZero; VInt 4; VBin (Some [119])] (item_values 4 [119]) (fun _ => 0))
    as (c & y & Hp' & b' & rows' & E & N' & K & O).
  - exact item_fits.
  - reflexivity.
  - exact N.
  - apply item_result_shape.
  - vm_compute. reflexivity.
  - split; [vm_compute; reflexivity|]. split; [vm_compute; reflexivity|item_exact].
  - apply item_all; intros _; vm_compute; reflexivity.
  - vm_compute. reflexivity.
  - pose proof (succeeds _ _ _ replace_done E) as ->. destruct O as [(_ & -> & R & D & A)|(O & _)]; [|discriminate O].
    exists y, Hp', b'. split; [exact E|]. split; [exact N'|]. split; [exact K|]. split; [exact R|]. split; [exact D|exact A].
Defined.

Lemma update_done : fst <$> do_update true item_def 0 false 0 80 item_table demo0 true true (item_process (item_job 7 (Some item_change))) = Some 0.
Proof. vm_compute. reflexivity. Qed.

